(* ===== verification/_CoqProject ===== *)
-Q . S2P
Prelude.v
Sha256.v
Identifier.v
Dice.v
Roster.v
Engine.v
LiarsDice.v
LiarsDiceFacts.v
LiarsDiceTheorems.v
Dice789.v
Dice789Facts.v
Dice789Theorems.v
MeetHands.v
MeetByChance.v
MeetByChanceFacts.v
MeetLedger.v
MeetByChanceTheorems.v
GoLib.v
Room.v
RoomFacts.v
RoomInvariant.v
RoomHistory.v
RoomSpec.v
RoomTheorems.v
RoomStore.v
RoomService.v
RoomStoreFacts.v
RoomSystem.v
RoomServiceTheorems.v
ThreeCards.v
ThreeDeck.v
ThreeHands.v
ThreeHandsFacts.v
ThreeThird.v
ThreeRounds.v
ThreeSettle.v
ThreeInvariant.v
ThreeRoundsFacts.v
ThreeStandings.v
ThreeSession.v
ThreeEngine.v
ThreeProgress.v
ThreeRecords.v
ThreeRoundsTheorems.v
Selector.v
GameManifest.v
GameContract.v
Outbox.v
OutboxTheorems.v
Runtime.v
RuntimeFacts.v
RuntimeCommit.v
RuntimeMoves.v
RuntimeLifecycle.v
RuntimeCommands.v
RuntimeCommitFacts.v
RuntimeTheorems.v
ContractTheorems.v
RuntimeStore.v
RuntimeQueries.v
RuntimeRepository.v
RuntimeStoreFacts.v
RuntimeStoreEffects.v
RuntimeStoreInvariant.v
RuntimeStoreRows.v
RuntimeStoreProgress.v
RuntimeStoreTheorems.v
RoomGameRepository.v
RoomGameFacts.v
RoomGameInvariant.v
RoomGameTheorems.v
RuntimeService.v
DurableHistory.v
ServiceSystem.v
ServiceRuns.v
ServiceTheorems.v
Coordination.v
Owner.v
OwnerSystem.v
OwnerTheorems.v
