(* ===== verification/Prelude.v ===== *)
(** * Game Night: verification library

    Game Night runs party games for rooms of players.  The games are pure
    engines under [games/*/engine]: a constructor freezes participants and
    configuration into a snapshot, and each operation takes the snapshot, one
    trusted input (an action, a due timer, a revoked participant, a request to
    finish) with the wall clock and a random seed passed in as values, and
    returns either a rule error or the next snapshot with the facts to publish.
    The runtime ([platform/game-runtime]) stores snapshots, applies one input
    at a time and keeps the old snapshot when an input is refused.  The engines
    share the dice package [sdk/go/game/dice] and the identifier grammar of
    [sdk/go/game/manifest.go].

    Players meet in rooms ([platform/room]): a room is an aggregate with
    members, seats, a host, admission policies, at most one active session and
    two versions; commands return the next room, the service reads a room,
    applies a command and writes the result, and the repository
    ([platform/persistence/postgres/room_repository.go]) accepts the write only
    while the stored versions are the ones that were read.

    Between the two, the session runtime ([platform/game-runtime]) gives every
    game a durable session: an owner with an epoch, a snapshot, a gapless
    history of event batches, timers, and a receipt per request.  A commit binds
    a session before and after with its batch, receipt and notifications; the
    repositories [game_session_repository.go], [system_inbox_repository.go] and
    [room_game_session_repository.go] of [platform/persistence/postgres] store
    it in one transaction, the last one together with the room, and the outbox
    ([platform/outbox]) hands the published events to leased consumers.  A
    realtime process owns the sessions it runs: it claims one under a Redis lease
    and takes the next epoch in the store, which alone decides who may write.

    The library models the engines, the rooms, the sessions and these
    repositories operation by operation and
    proves what the runtime and the players rely on: snapshots stay valid,
    penalties are neither lost nor invented, private dice stay private, timers
    are single use, every loop ends, the players of a session are frozen, and
    concurrent requests never lose each other's updates.

    ** How the source is represented

    - [(T, error)] results are [result E T]; every early return is an [Err]
      with the source's error code and detail text, in the source's order.
    - Structs are records with the source's field names, prefixed by a letter
      where two structs share one; assignments are [r <| field := v |>].
      [Clone] is modelled where the source calls it and proved to be the
      identity on values.
    - [uint32]/[uint64] arithmetic is written with its wrap-around ([u32],
      [u64]); [int64] clock values are [Z] with the source's explicit range
      tests.  Enumerations keep their integer or string values, because a
      decoded snapshot may hold any.
    - [nil] and empty slices are both [[]]; a [-1]-or-index search is an
      [option nat]; a nil pointer is [None].
    - Slices sorted by [sort.Slice] are sorted by [sort_by]; the keys are
      distinct on validated rosters, where every sort gives the same list.

    ** Files

    - [Prelude]: results and their notation, machine integers, record update,
      searching and sorting slices, the tactics [to_prop], [bool_cases],
      [inv_result] and [by_value] with its rewrite base [values], and the lemmas on lists they share.
    - [Sha256]: the hash of [crypto/sha256], with the standard's test vectors.
    - [Identifier]: [ParseIdentifier] ([sdk/go/game/manifest.go]).
    - [Dice]: [dice.go], [ticks.go] and [seats.go] of [sdk/go/game/dice].
    - [Roster]: participants, their canonical seat order and the validity of a
      roster, common to the engines.
    - [Engine]: the interface between engines and runtime.  The class
      [EngineOps] has the transition function and the validity predicate,
      [EngineLaws] what the runtime relies on; [reachable] and [play] are
      sessions, and their theorems are proved once against the classes.
    - [LiarsDice] models [games/liars-dice/engine]; [LiarsDiceFacts] its
      invariant and its instances of the classes, [LiarsDiceTheorems] its
      properties.
    - [Dice789], [Dice789Facts], [Dice789Theorems]: the same for
      [games/dice-789/engine].
    - [MeetHands] models [config.go] and [hand.go] of
      [games/meet-by-chance/engine], [MeetByChance] its [match.go], [state.go]
      and [actions.go]; [MeetByChanceFacts] has the invariant and the class
      instances, [MeetLedger] the accounting of penalties and
      [MeetByChanceTheorems] the properties.
    - [ThreeCards] models [errors.go], [config.go] and [cards.go] of
      [games/three-rounds/engine], [ThreeHands] the comparisons and the joker
      resolution of its [logic.go], [ThreeRounds] [types.go] and the state
      machine of [logic.go], with the validating [EncodeState] of
      [module/codec.go] through which the handlers store a state ([handle]).
      [ThreeDeck] has the facts on deck, shuffle and deal, [ThreeHandsFacts] on
      comparisons and automatic selections, [ThreeThird] on the classes of hands
      and, in its module [ThreeWild], on the jokers, [ThreeSettle] on the settlement loops,
      [ThreeStandings] on the final ranking.  [ThreeInvariant] states the
      invariant [Inv], [ThreeRoundsFacts] and [ThreeSession] every operation as
      its guard and an explicit next state, [ThreeEngine] the transition system
      [Outcome] the handlers implement and the class instances,
      [ThreeProgress] the measure and the timers, [ThreeRecords] the recorded
      rounds and what facts disclose, and [ThreeRoundsTheorems] the properties.
    - [GoLib]: identifiers, instants, bytes and [strings.TrimSpace].
    - [Room] models [errors.go], [model.go] and [admin.go] of [platform/room].
      [RoomFacts] states [Restore] as a proposition ([WF]) and every command as
      its guards followed by one commit ([plan]); [RoomInvariant] keeps the
      invariant [Sound]; [RoomHistory] inverts the guards once ([Effect]) and
      follows histories of commands; [RoomSpec] has the abstract room and the
      simulation; [RoomTheorems] the properties.
    - [RoomStore] models the room repository: rows, statements, transactions
      whose steps may fail.  [RoomService] models [service.go]: a handler reads
      in one state of the database and writes in a later one.  [RoomStoreFacts]
      relates rows and rooms, [RoomSystem] interleaves the transactions of any
      number of requests ([sys_step]) with the invariant [SysOK], and
      [RoomServiceTheorems] has the properties.
    - [Selector] models [platform/identifier], the operation identifiers of
      [platform/idempotency] and [sdk/go/game/action_id.go]; [GameManifest]
      [manifest.go] and [registry.go] of [sdk/go/game], [GameContract] its
      [contract.go]; [ContractTheorems] has their properties.
    - [Outbox] models [value.go], [event.go], [consumer.go] and the batch of
      [repository.go] in [platform/outbox]; [OutboxTheorems] has the invariant of
      consumers (its module [OutboxFacts]) and the properties.
    - [Runtime] models [model.go] and [errors.go] of [platform/game-runtime],
      [RuntimeCommit] its [action.go], [start.go] and the inbox record,
      [RuntimeCommands] the commands and digests of its [service.go].
      [RuntimeFacts] says what restoring accepts, [RuntimeMoves] what an engine
      move does, [RuntimeLifecycle] has the transition system of sessions,
      [RuntimeCommitFacts] the validity of commits and [RuntimeTheorems] the
      properties.
    - [RuntimeStore] has the rows of a session and their conversions,
      [RuntimeQueries] the statements and transactions, [RuntimeRepository] the
      operations of [GameSessionRepository].  [RuntimeStoreFacts] inverts the
      statements, [RuntimeStoreEffects] the operations, [RuntimeStoreInvariant]
      has the states the repository can leave and their invariant
      [StoreInv], [RuntimeStoreRows] reads back what was written,
      [RuntimeStoreProgress] shows that valid commits go through, and
      [RuntimeStoreTheorems] has the properties.
    - [RoomGameRepository] models [RoomGameSessionRepository], the transactions
      over a room and its session.  [RoomGameFacts] inverts its steps,
      [RoomGameInvariant] keeps the agreement of rooms and sessions ([Agree])
      through every operation of both repositories and of the room service, and
      [RoomGameTheorems] has the properties.
    - [RuntimeService] models the handlers of [service.go] in
      [platform/game-runtime], with [notification.go], [maintenance_gate.go],
      [authorization.go] and [Consume] of [system_inbox.go], as programs
      ([Prog]) over the calls they make to the clock, the generator, the
      registry and the repositories ([Call]).  [DurableHistory] says what no
      step of the system takes back, [ServiceSystem] runs any number of requests
      a call at a time beside the room service ([serve]) and shows that every
      call a handler makes is one the repositories accept ([safe]),
      [ServiceRuns] follows one request among the others ([runs]), and
      [ServiceTheorems] has the properties.
    - [Coordination] models [platform/persistence/redis/coordination.go]: the
      scripts over Redis keys that expire, tickets, leases and their text, where
      a request or its answer may be lost; its module [CoordinationTheorems] has
      the properties.
    - [Owner] models [apps/realtime/internal/owner/manager.go], the process-local
      owner of sessions, as programs ([OProg]) over calls to the store and the
      service, to the coordinator and into the critical sections of its mutex.
      [OwnerSystem] runs any number of such processes a call at a time over one
      store and a Redis that may change at will ([cluster_step]), and follows
      who was granted which epoch ([allowed]); [OwnerTheorems] has the
      properties.

    Each operation has the name of its Go function.  A loop body or a long
    field update that the source writes in line is a definition of its own,
    with a comment that says which lines it is.  [Input] and [step] at the end
    of an engine list the inputs of its [module.go].

    ** What the theorems show

    - Validity: every snapshot reachable in a session of liar's dice passes the
      engine's [Validate] with every integer in its Go type; so does every one
      of dice 7-8-9, unless a result landed less than the action timeout before
      the end of the [int64] clock; meet by chance keeps roster,
      hands and counters sound, and [Validate] accepts the snapshot exactly
      when the match history fits its bound, which a limit of one reroll per
      round guarantees ([session_always_valid], [session789_always_valid],
      [meet_session_valid]).  Participants and configuration stay frozen, and
      a finished session absorbs every input.
    - Accounting: an opening or a timeout of liar's dice charges exactly the
      rule's loser; dice 7-8-9 conserves pool plus penalties up to the ticks
      players add; the facts meet by chance publishes are a complete penalty
      ledger ([OpenDice_settles], [HandleTimeout_settles], [ticks_conserved],
      [ConfirmLanded_effect], [ReportDropped_effect], [penalties_accounted]).
    - Secrecy: private dice occur in facts only when opened
      ([events_reveal_only_opened]).
    - Timers: a due timer of a valid snapshot is accepted, a timer whose turn
      or decision is over is rejected ([due_timer_settles],
      [stale_timer_rejected] and their counterparts).
    - Rules: counting ([CountBid_counts_table]) and ranking bids, the layers of the pool, roll and hand
      classification, match groups, targets and the order of turns agree with
      their direct definitions.
    - Termination: bids within a round are bounded; automatic match resolution
      ends ([bidding_terminates], [match_resolution_terminates]).
    - Dice: rolls of one stream extend each other, streams of distinct rounds
      or seats differ, accepted digest bytes favour no face, seat traversal
      reaches every seat and both directions are inverse.
    - Rooms: the aggregate refines an abstract table of places
      ([room_refines_spec]); rooms are values of their type and the validation
      that ends each command never refuses ([built_room_valid],
      [guards_suffice]); the roster of a session is frozen, versions and the
      ownership epoch fence stale writers and former hosts
      ([session_roster_frozen], [stale_version_refused],
      [ownership_epoch_fences_host]).
    - Room service and repository: stored rooms always load, rows and rooms
      convert without loss, requests are atomic under every interleaving and
      failure, revocations are published in the commit that stores the removal
      ([stored_rooms_load], [room_rows_roundtrip], [requests_are_atomic],
      [revocation_published]).  [active_removal_refused] records that removing
      an active participant fails unless it is the last member, because the
      aggregate writes the member array it shares with its receiver.
    - Three rounds: the handlers make exactly the transitions of [Outcome] and
      never panic, every stored session validates with its cards conserved, the
      recorded winners are the players nobody beats, the shuffle draws from
      accepted words only and favours no order of the deck, jokers count to the
      best advantage, a session accepts at most [6 + 3n] inputs and ends by its
      timers alone, and no fact shows a card still in a hand
      ([handlers_refine_transitions], [three_session_sound],
      [recorded_rounds_fair], [shuffle_unbiased], [joker_resolution_best], [three_session_bounded],
      [three_timers_finish], [events_show_put_down]).  [pending_blocks_finish]
      and [revoked_keeps_standing] record two deviations from the rules.
    - Sessions: whatever the commands, a session restores to itself, its
      versions and batches are gapless and its timers belong to it; a valid
      result of the engine is accepted together with its commit; a timer fires
      once; a pause moves every timer by exactly its length; a receipt binds an
      idempotency key to one request, up to a collision of the hash
      ([session_history_sound], [valid_action_commits], [timer_fires_once],
      [pause_shifts_timers], [receipts_bind_requests]).
    - Outbox: a lease keeps other workers out while it lasts
      ([outbox_lease_exclusive]).
    - Session repository: whatever fails, stored sessions load, a room has one
      live session and the stored history is gapless and matches the receipts;
      a takeover fences the former owner; valid creations and actions are stored
      once and read back as they are ([store_history_sound],
      [takeover_fences_store], [valid_action_stored_once],
      [action_commit_effect], [create_then_get]).
      [action_overwrites_resumption] and [unversioned_start_refused] record two
      deviations.
    - Rooms and sessions: a room points to a session exactly while it is played
      there, under every interleaving and failure of the transactions over
      both, and a start is stored once ([rooms_and_sessions_agree],
      [start_stored_once]).  [pause_blocks_termination] records that a session
      whose room has a pause requested or in force cannot be finished.
    - Session service: requests in progress, interrupted at any call or
      statement, never break the agreement of rooms and sessions; an action is
      answered by one receipt and one batch however often it is sent; a replay
      is what the module registered for the release of an ended session projects
      from its whole history ([service_keeps_games], [action_answered_once],
      [replay_shows_history]).
    - Owners: a lease keeps other processes out until it expires, is given up or
      is cleared by a repair that names it, and its text identifies it
      ([lease_exclusive], [lease_wire_roundtrip]); whatever Redis does, two
      claims never hold the same epoch, a write under the lower one leaves the
      store as it is but for the note of a system command without effect, and
      commands write under the epoch that is held
      ([owners_fenced], [commands_under_held_epoch]).
    - Two theorems record where an accepted operation returns a snapshot its
      own [Validate] refuses: [landed_deadline_overflow] (near the end of the
      [int64] clock) and [capped_reroll_invalid] (a second capped resolution
      in one round).

    ** Fuel

    Go's bounded sampling loop is [maxSamplingAttempts] rounds of structural
    recursion.  [sort.Search] gets one unit per element and one more, and
    halves its interval; the group search of [exactGroups] one per player.
    [resolveMatches] gets one unit per resolution left before the frozen limit
    and one for the exit; [match_resolution_terminates] shows it is never
    exhausted.  The rejection loop of the card shuffle is unbounded in Go; its
    fuel is the number of words drawn for one position, the result does not
    depend on it ([ShuffleDeck_fuel]), and at most 54 of the [2^64] words are
    rejected.  The doubling loop of the outbox's retry delay gets 16 turns; the
    delay passes its cap after nine.  The pages of a replay get
    [maximumReplayBatches + 2] turns: the loop ends on a short page, and every
    full page adds a batch towards the limit.  [Run] of an owner is a loop until
    its process ends; its fuel is the number of wake-ups that are followed, and
    the theorems hold for every number.

    ** Not modelled

    Error text, wrapping and [ErrorCodeOf], and the defensive [Event.Clone]
    of the engines; [module.go] and the protobuf codecs around them (generated
    code); of the rooms, the lobby listings, rule drafts and presets
    ([lobby.go], [my_rooms.go], [rules.go]), room codes and presence leases, and
    the JSON text of the revocation event, which is represented by the fact it
    carries.  A failed commit is one that was not applied.  Of the session
    runtime, the parsing of JSON payloads, the wiring of [NewService] and the
    statements of replay policies; a value the service returns beside an error
    is dropped.  Game modules, clocks and random sources are arguments:
    a call may answer anything.  So may the registry, except that in the runs of
    one process ([runs]) a resolved module is the one its [Registry] has.  Of the outbox, the PostgreSQL repository of
    the consumers.  Identity, administration and audit (transactions and
    cryptographic libraries), the processes under [apps] but for the owner,
    generated contracts and the front ends are left out; of the coordinator,
    subscribing to its channel and parsing what arrives there.  A context that
    is done is a fault of the call it interrupts. *)

From stdpp Require Export prelude strings list sorting.
From Stdlib Require Export ZArith Lia.

#[global] Open Scope Z_scope.

(** ** Error results

    Go functions returning [(T, error)] become values of [result E T]. *)
Inductive result (E A : Type) : Type :=
| Ok (value : A)
| Err (error : E).
Arguments Ok {E A} value.
Arguments Err {E A} error.

(** [RuleError] of the engines: a stable machine code and a log detail. *)
Record RuleError (C : Type) : Type := mkRuleError {
  Code : C;
  Detail : string;
}.
Arguments mkRuleError {C} _ _.
Arguments Code {C} _.
Arguments Detail {C} _.

Definition bind_result {E A B : Type} (c : result E A) (k : A -> result E B) : result E B :=
  match c with
  | Ok a => k a
  | Err e => Err e
  end.

Definition is_ok {E A : Type} (c : result E A) : bool :=
  match c with Ok _ => true | Err _ => false end.

Declare Scope go_scope.
Delimit Scope go_scope with go.
Notation "'let*' x := c 'in' k" := (bind_result c (fun x => k))
  (at level 10, x name, k at level 200) : go_scope.
Notation "'let*' ' p := c 'in' k" := (bind_result c (fun x => match x with p => k end))
  (at level 10, p pattern, k at level 200) : go_scope.
#[global] Open Scope go_scope.

(** The Go loop [for _, x := range l { y, err := f(x); if err != nil {...} }],
    collecting the results in order. *)
Fixpoint map_result {E A B : Type} (f : A -> result E B) (l : list A) : result E (list B) :=
  match l with
  | [] => Ok []
  | x :: rest =>
      let* y := f x in
      let* ys := map_result f rest in
      Ok (y :: ys)
  end.

(** A loop that threads a value and stops at the first error. *)
Fixpoint fold_result {E S A : Type} (f : S -> A -> result E S) (s : S) (l : list A) : result E S :=
  match l with
  | [] => Ok s
  | x :: rest => let* s' := f s x in fold_result f s' rest
  end.

(** ** Machine integers *)
Definition maxUint32 : Z := 4294967295.
Definition maxUint64 : Z := 18446744073709551615.
Definition maxInt64 : Z := 9223372036854775807.

(** Wrap-around of unsigned arithmetic. *)
Definition u32 (z : Z) : Z := z mod 4294967296.
Definition u64 (z : Z) : Z := z mod 18446744073709551616.

Definition is_u8 (z : Z) : Prop := 0 <= z < 256.
Definition is_u32 (z : Z) : Prop := 0 <= z <= maxUint32.
Definition is_u64 (z : Z) : Prop := 0 <= z <= maxUint64.
Definition is_i64 (z : Z) : Prop := -9223372036854775808 <= z <= maxInt64.

(** ** Record update, written like the Go field assignments *)
Class Eta (R : Type) := eta : R -> R.
Class Update {R T : Type} (p : R -> T) := update : (T -> T) -> R -> R.
Arguments update {R T} p {Update} _ _.

Ltac derive_update p :=
  match goal with
  | |- @Update ?R ?T _ =>
      let e := constr:(_ : Eta R) in
      let f := fresh "f" in
      let r := fresh "r" in
      intros f r;
      let body := eval hnf in (e r) in
      let abstracted := eval pattern (p r) in body in
      match abstracted with
      | ?g _ => let t := eval cbv beta in (g (f (p r))) in exact t
      end
  end.
#[export] Hint Extern 1 (@Update _ _ ?p) => derive_update p : typeclass_instances.

Notation "r <| p := v |>" := (update p (fun _ => v) r)
  (at level 1, left associativity, p at level 9, format "r  <| p  :=  v |>") : go_scope.

(** ** Searching and sorting slices *)

(** First index whose element satisfies the test: the [-1]-or-index loops of
    the source ([playerIndex]) return [None] where Go returns [-1]. *)
Fixpoint find_index {A : Type} (p : A -> bool) (l : list A) : option nat :=
  match l with
  | [] => None
  | x :: rest => if p x then Some 0%nat else S <$> find_index p rest
  end.

(** [sort.Slice] by an integer key. *)
Definition key_le {A : Type} (key : A -> Z) (x y : A) : Prop := key x <= key y.
#[global] Instance key_le_dec {A : Type} (key : A -> Z) (x y : A) : Decision (key_le key x y) :=
  Z_le_dec (key x) (key y).
Definition sort_by {A : Type} (key : A -> Z) (l : list A) : list A :=
  merge_sort (key_le key) l.

(** The count of the elements passing a test. *)
Definition countb {A : Type} (p : A -> bool) (l : list A) : nat :=
  length (List.filter p l).

(** ** Boolean conditions of the source as propositions *)
Lemma eqb_string_true (s t : string) : String.eqb s t = true <-> s = t.
Proof. apply String.eqb_eq. Qed.
Lemma eqb_string_false (s t : string) : String.eqb s t = false <-> s <> t.
Proof. apply String.eqb_neq. Qed.

(** Turns the boolean tests of the context into propositions and splits
    conjunctions; the work-horse of the branch analyses. *)
Ltac to_prop :=
  repeat match goal with
  | H : context [_ = true /\ _] |- _ => destruct H
  | H : _ /\ _ |- _ => destruct H
  | H : (_ || _)%bool = false |- _ => apply orb_false_elim in H
  | H : (_ && _)%bool = true |- _ => apply andb_prop in H
  | H : negb _ = true |- _ => apply negb_true_iff in H
  | H : negb _ = false |- _ => apply negb_false_iff in H
  | H : (_ =? _)%Z = true |- _ => apply Z.eqb_eq in H
  | H : (_ =? _)%Z = false |- _ => apply Z.eqb_neq in H
  | H : (_ <? _)%Z = true |- _ => apply Z.ltb_lt in H
  | H : (_ <? _)%Z = false |- _ => apply Z.ltb_ge in H
  | H : (_ <=? _)%Z = true |- _ => apply Z.leb_le in H
  | H : (_ <=? _)%Z = false |- _ => apply Z.leb_gt in H
  | H : String.eqb _ _ = true |- _ => apply eqb_string_true in H
  | H : String.eqb _ _ = false |- _ => apply eqb_string_false in H
  | H : bool_decide _ = true |- _ => apply bool_decide_eq_true in H
  | H : bool_decide _ = false |- _ => apply bool_decide_eq_false in H
  end.

(** As [to_prop], also splitting on the disjunctive tests. *)
Ltac bool_cases :=
  repeat (to_prop;
    match goal with
    | H : (_ || _)%bool = true |- _ => apply orb_true_iff in H as [H|H]
    | H : (_ && _)%bool = false |- _ => apply andb_false_iff in H as [H|H]
    | H : (_ =? _)%nat = true |- _ => apply Nat.eqb_eq in H
    | H : (_ =? _)%nat = false |- _ => apply Nat.eqb_neq in H
    | H : (_ <? _)%nat = true |- _ => apply Nat.ltb_lt in H
    | H : (_ <? _)%nat = false |- _ => apply Nat.ltb_ge in H
    end); to_prop.

(** Unfolds one successful monadic step of a hypothesis [... = Ok _]. *)
Ltac inv_result H :=
  match type of H with
  | bind_result ?c _ = Ok _ =>
      let E := fresh "E" in destruct c eqn:E; cbn [bind_result] in H; [|discriminate H]
  | (if ?b then _ else _) = Ok _ =>
      let E := fresh "E" in destruct b eqn:E; try discriminate H
  | Ok _ = Ok _ => injection H; clear H; intros; subst
  end.
Ltac inv_results H := repeat inv_result H.

(** Clones are values: the engines add the equations of their copy functions
    to [values], and [by_value] removes the copies from a hypothesis. *)
Create Rewrite HintDb values.
Ltac by_value H := autorewrite with values in H; cbv zeta in H.

(** Closed range facts ([is_u32 5] and conjunctions of them). *)
Ltac in_range := vm_compute; repeat split; discriminate.

(** ** Lemmas on the shared helpers *)
Lemma u32_small (z : Z) : is_u32 z -> u32 z = z.
Proof. unfold is_u32, maxUint32, u32. intros. apply Z.mod_small. lia. Qed.

Lemma u32_range (z : Z) : is_u32 (u32 z).
Proof.
  unfold is_u32, maxUint32, u32. pose proof (Z.mod_pos_bound z 4294967296). lia.
Qed.

Section FindIndex.
Context {A : Type}.
Implicit Types (p : A -> bool) (l : list A).

Lemma find_index_Some p l i :
  find_index p l = Some i ->
  exists x, l !! i = Some x /\ p x = true /\
            forall j y, (j < i)%nat -> l !! j = Some y -> p y = false.
Proof.
  revert i. induction l as [|a l IH]; cbn; intros i H; [done|].
  destruct (p a) eqn:Ep.
  - simplify_eq. exists a. repeat split; try done. intros; lia.
  - destruct (find_index p l) as [k|]; cbn in H; [|done]. simplify_eq.
    destruct (IH k eq_refl) as (x & Hx & Hp & Hmin).
    exists x. repeat split; try done. intros [|j] y Hj Hy; cbn in *; [congruence|].
    eapply Hmin; [|done]. lia.
Qed.

Lemma find_index_None p l :
  find_index p l = None <-> forall x, x ∈ l -> p x = false.
Proof.
  induction l as [|a l IH]; cbn.
  - split; [|done]. intros _ x Hx. inversion Hx.
  - destruct (p a) eqn:Ep.
    + split; [done|]. intros H. rewrite H in Ep; [done|]. constructor.
    + rewrite fmap_None, IH. split; intros H x Hx.
      * apply elem_of_cons in Hx as [->|]; auto.
      * apply H. by constructor.
Qed.

Lemma find_index_is_Some p l :
  (exists x, x ∈ l /\ p x = true) -> exists i, find_index p l = Some i.
Proof.
  intros (x & Hx & Hp). destruct (find_index p l) eqn:E; [eauto|].
  rewrite find_index_None in E. by rewrite (E x Hx) in Hp.
Qed.

Lemma find_index_unique p l i x :
  l !! i = Some x -> p x = true ->
  (forall j y, l !! j = Some y -> p y = true -> j = i) ->
  find_index p l = Some i.
Proof.
  intros Hi Hp Huniq.
  destruct (find_index_is_Some p l) as [k Hk].
  { exists x. split; [|done]. by eapply list_elem_of_lookup_2. }
  destruct (find_index_Some _ _ _ Hk) as (y & Hy & Hpy & _).
  by rewrite (Huniq k y Hy Hpy) in Hk.
Qed.

Lemma find_index_ext p q l :
  (forall x, x ∈ l -> p x = q x) -> find_index p l = find_index q l.
Proof.
  induction l as [|a l IH]; intros H; cbn; [done|].
  rewrite (H a), IH; [done| |]; [|constructor].
  intros x Hx. apply H. by constructor.
Qed.

Lemma find_index_fmap {B} (f : B -> A) p (l : list B) :
  find_index p (f <$> l) = find_index (fun x => p (f x)) l.
Proof. induction l as [|b l IH]; cbn; [done|]. by rewrite <- IH. Qed.
End FindIndex.

Section SortBy.
Context {A : Type} (key : A -> Z).

#[local] Instance key_le_trans : Transitive (key_le key).
Proof. unfold key_le. intros x y z. lia. Qed.
#[local] Instance key_le_total : Total (key_le key).
Proof. unfold key_le. intros x y. lia. Qed.

Lemma sort_by_Permutation (l : list A) : sort_by key l ≡ₚ l.
Proof. apply merge_sort_Permutation. Qed.

Lemma sort_by_sorted (l : list A) : StronglySorted (key_le key) (sort_by key l).
Proof. apply StronglySorted_merge_sort; apply _. Qed.

(** With distinct keys the order is strict, so any correct sort, stable or
    not, returns the same slice. *)
Lemma sort_by_strict (l : list A) :
  NoDup (key <$> l) -> StronglySorted (fun x y => key x < key y) (sort_by key l).
Proof.
  intros Hnd. assert (Hnd' : NoDup (key <$> sort_by key l)).
  { by rewrite sort_by_Permutation. }
  pose proof (sort_by_sorted l) as Hs. revert Hnd' Hs.
  generalize (sort_by key l) as s. clear Hnd. induction s as [|x s IH]; intros Hnd Hs.
  - constructor.
  - apply StronglySorted_inv in Hs as [Hs Hx]. cbn in Hnd.
    apply NoDup_cons in Hnd as [Hx' Hnd]. constructor; [by apply IH|].
    apply Forall_forall. intros y Hy. rewrite Forall_forall in Hx.
    specialize (Hx y Hy). unfold key_le in Hx.
    assert (key x <> key y); [|lia].
    intros Heq. apply Hx'. rewrite Heq. by apply list_elem_of_fmap_2.
Qed.
End SortBy.

Lemma map_result_Ok {E A B} (f : A -> result E B) (l : list A) (ys : list B) :
  map_result f l = Ok ys <-> Forall2 (fun x y => f x = Ok y) l ys.
Proof.
  revert ys. induction l as [|x l IH]; intros ys; cbn.
  - split; intros H; [by simplify_eq; constructor|by inversion H].
  - split; intros H.
    + inv_results H. constructor; [done|]. by apply IH.
    + inversion H as [|? y ? ys' Hy Hys]; subst. rewrite Hy. cbn.
      apply IH in Hys. by rewrite Hys.
Qed.

Lemma countb_app {A} (p : A -> bool) l1 l2 : countb p (l1 ++ l2) = (countb p l1 + countb p l2)%nat.
Proof. unfold countb. by rewrite List.filter_app, length_app. Qed.

Lemma countb_le {A} (p : A -> bool) l : (countb p l <= length l)%nat.
Proof. unfold countb. induction l as [|a l IH]; cbn; [lia|]. destruct (p a); cbn; lia. Qed.

Lemma is_ok_unit {E} (r : result E unit) : is_ok r = true <-> r = Ok tt.
Proof. destruct r as [[]|]; split; done. Qed.

Lemma map_result_total {E A B} (f : A -> result E B) l :
  (forall x, x ∈ l -> is_ok (f x) = true) -> exists ys, map_result f l = Ok ys.
Proof.
  induction l as [|x l IH]; intros H; cbn [map_result]; [eauto|].
  pose proof (H x (list_elem_of_here _ _)) as Hx. destruct (f x) as [y|]; [|done].
  destruct IH as [ys Hys]; [intros z Hz; apply H; by constructor|]. cbn. rewrite Hys. cbn. eauto.
Qed.

Lemma u32_succ r : is_u32 r -> r <> maxUint32 -> u32 (r + 1) = r + 1.
Proof. intros H Hne. apply u32_small. unfold is_u32, maxUint32 in *. lia. Qed.

Lemma fold_result_app {E S A} (f : S -> A -> result E S) s l l' :
  fold_result f s (l ++ l') = let* s' := fold_result f s l in fold_result f s' l'.
Proof.
  revert s. induction l as [|x l IH]; intros s; cbn; [done|].
  destruct (f s x); cbn; [apply IH|done].
Qed.

Lemma fold_result_fmap {E S A B} (g : B -> A) (f : S -> A -> result E S) s l :
  fold_result f s (g <$> l) = fold_result (fun acc b => f acc (g b)) s l.
Proof.
  revert s. induction l as [|x l IH]; intros s; cbn; [done|].
  destruct (f s (g x)); cbn; [apply IH|done].
Qed.

Lemma fold_result_ext {E S A} (f g : S -> A -> result E S) s l :
  (forall s x, x ∈ l -> f s x = g s x) -> fold_result f s l = fold_result g s l.
Proof.
  revert s. induction l as [|x l IH]; intros s H; cbn; [done|].
  rewrite H by constructor. destruct (g s x); cbn; [|done]. apply IH. intros; apply H. by constructor.
Qed.
