(* ===== verification/Sha256.v ===== *)
(** * SHA-256

    The hash of Go's [crypto/sha256], used by the shared dice roller
    ([sdk/go/game/dice/dice.go]) and by the card shuffle.  A message is a list
    of bytes (values 0..255); [Sum256] returns the 32 digest bytes.  The FIPS
    180-4 test vectors are checked by evaluation at the end of the file; the
    engine proofs only use [Sum256_length] and [Sum256_bytes]. *)

From S2P Require Import Prelude.

Module Sha256.

Definition word (z : Z) : Z := Z.land z 4294967295.

Definition rotr (x n : Z) : Z := Z.lor (Z.shiftr x n) (word (Z.shiftl x (32 - n))).

Definition bigSigma0 (x : Z) : Z := Z.lxor (Z.lxor (rotr x 2) (rotr x 13)) (rotr x 22).
Definition bigSigma1 (x : Z) : Z := Z.lxor (Z.lxor (rotr x 6) (rotr x 11)) (rotr x 25).
Definition smallSigma0 (x : Z) : Z := Z.lxor (Z.lxor (rotr x 7) (rotr x 18)) (Z.shiftr x 3).
Definition smallSigma1 (x : Z) : Z := Z.lxor (Z.lxor (rotr x 17) (rotr x 19)) (Z.shiftr x 10).
Definition choose (x y z : Z) : Z := Z.lxor (Z.land x y) (Z.land (Z.lxor x 4294967295) z).
Definition majority (x y z : Z) : Z := Z.lxor (Z.lxor (Z.land x y) (Z.land x z)) (Z.land y z).

(** Cube-root fractions of the first 64 primes. *)
Definition roundConstants : list Z :=
  [
   1116352408; 1899447441; 3049323471; 3921009573;
   961987163; 1508970993; 2453635748; 2870763221;
   3624381080; 310598401; 607225278; 1426881987;
   1925078388; 2162078206; 2614888103; 3248222580;
   3835390401; 4022224774; 264347078; 604807628;
   770255983; 1249150122; 1555081692; 1996064986;
   2554220882; 2821834349; 2952996808; 3210313671;
   3336571891; 3584528711; 113926993; 338241895;
   666307205; 773529912; 1294757372; 1396182291;
   1695183700; 1986661051; 2177026350; 2456956037;
   2730485921; 2820302411; 3259730800; 3345764771;
   3516065817; 3600352804; 4094571909; 275423344;
   430227734; 506948616; 659060556; 883997877;
   958139571; 1322822218; 1537002063; 1747873779;
   1955562222; 2024104815; 2227730452; 2361852424;
   2428436474; 2756734187; 3204031479; 3329325298].

Record hash := mkHash { ha : Z; hb : Z; hc : Z; hd : Z; he : Z; hf : Z; hg : Z; hh : Z }.

(** Square-root fractions of the first 8 primes. *)
Definition initialHash : hash :=
  mkHash 1779033703 3144134277 1013904242 2773480762
         1359893119 2600822924 528734635 1541459225.

(** One more word of the message schedule; the newest word comes first. *)
Definition extend (w : list Z) : list Z :=
  word (smallSigma1 (nth 1 w 0) + nth 6 w 0 + smallSigma0 (nth 14 w 0) + nth 15 w 0) :: w.

Definition schedule (block : list Z) : list Z :=
  rev (Nat.iter 48 extend (rev block)).

Definition compressRound (h : hash) (kw : Z * Z) : hash :=
  let t1 := hh h + bigSigma1 (he h) + choose (he h) (hf h) (hg h) + fst kw + snd kw in
  let t2 := bigSigma0 (ha h) + majority (ha h) (hb h) (hc h) in
  mkHash (word (t1 + t2)) (ha h) (hb h) (hc h) (word (hd h + t1)) (he h) (hf h) (hg h).

Definition compress (h : hash) (block : list Z) : hash :=
  let r := fold_left compressRound (combine roundConstants (schedule block)) h in
  mkHash (word (ha h + ha r)) (word (hb h + hb r)) (word (hc h + hc r)) (word (hd h + hd r))
         (word (he h + he r)) (word (hf h + hf r)) (word (hg h + hg r)) (word (hh h + hh r)).

(** Big-endian words of a byte list whose length is a multiple of four. *)
Fixpoint bytesToWords (l : list Z) : list Z :=
  match l with
  | a :: b :: c :: d :: rest =>
      (a * 16777216 + b * 65536 + c * 256 + d) :: bytesToWords rest
  | _ => []
  end.

Definition wordBytes (w : Z) : list Z :=
  [Z.land (Z.shiftr w 24) 255; Z.land (Z.shiftr w 16) 255; Z.land (Z.shiftr w 8) 255; Z.land w 255].

Definition pad (msg : list Z) : list Z :=
  let n := length msg in
  let zeros := ((119 - n mod 64) mod 64)%nat in
  let bits := 8 * Z.of_nat n in
  msg ++ [128] ++ replicate zeros 0 ++
  wordBytes (Z.shiftr bits 32) ++ wordBytes bits.

Fixpoint blocks (fuel : nat) (ws : list Z) : list (list Z) :=
  match fuel with
  | O => []
  | S fuel' => match ws with [] => [] | _ => take 16 ws :: blocks fuel' (drop 16 ws) end
  end.

Definition Sum256 (msg : list Z) : list Z :=
  let ws := bytesToWords (pad msg) in
  let h := fold_left compress (blocks (length ws) ws) initialHash in
  wordBytes (ha h) ++ wordBytes (hb h) ++ wordBytes (hc h) ++ wordBytes (hd h) ++
  wordBytes (he h) ++ wordBytes (hf h) ++ wordBytes (hg h) ++ wordBytes (hh h).

Lemma Sum256_length (msg : list Z) : length (Sum256 msg) = 32%nat.
Proof. reflexivity. Qed.

Lemma land_255 (z : Z) : is_u8 (Z.land z 255).
Proof.
  change 255 with (Z.ones 8). rewrite Z.land_ones by lia.
  pose proof (Z.mod_pos_bound z (2 ^ 8)). unfold is_u8. lia.
Qed.

Lemma Sum256_bytes (msg : list Z) : Forall is_u8 (Sum256 msg).
Proof. unfold Sum256, wordBytes. cbn [app]. repeat constructor; apply land_255. Qed.

Example Sum256_abc : Sum256 [97; 98; 99] =
  [
   186; 120; 22; 191; 143; 1; 207; 234; 65; 65; 64; 222; 93; 174; 34; 35;
   176; 3; 97; 163; 150; 23; 122; 156; 180; 16; 255; 97; 242; 0; 21; 173].
Proof. vm_compute. reflexivity. Qed.

Example Sum256_two_blocks : Sum256
  [
   97; 98; 99; 100; 98; 99; 100; 101; 99; 100; 101; 102; 100; 101; 102; 103;
   101; 102; 103; 104; 102; 103; 104; 105; 103; 104; 105; 106; 104; 105; 106; 107;
   105; 106; 107; 108; 106; 107; 108; 109; 107; 108; 109; 110; 108; 109; 110; 111;
   109; 110; 111; 112; 110; 111; 112; 113] =
  [
   36; 141; 106; 97; 210; 6; 56; 184; 229; 192; 38; 147; 12; 62; 96; 57;
   163; 60; 228; 89; 100; 255; 33; 103; 246; 236; 237; 212; 25; 219; 6; 193].
Proof. vm_compute. reflexivity. Qed.

(** Proofs must not evaluate the hash; [vm_compute] still does. *)
#[global] Opaque Sum256.

End Sha256.
