(* ===== verification/Identifier.v ===== *)
(** * Canonical identifiers

    [ParseIdentifier] of [sdk/go/game/manifest.go]: the grammar every user id,
    message type and timer id must follow.  The regular expression
    [^[a-z0-9]+(?:[._-][a-z0-9]+)*$] is modelled by the two-state automaton it
    denotes and proved equal to the grammar read off the expression. *)

From Stdlib Require Import Ascii.
From S2P Require Import Prelude.

Module Identifier.

Definition maximumIdentifierBytes : nat := 64.

Definition code (c : ascii) : Z := Z.of_N (N_of_ascii c).

(** [[a-z0-9]] *)
Definition isAlnum (c : ascii) : bool :=
  (97 <=? code c) && (code c <=? 122) || (48 <=? code c) && (code c <=? 57).

(** [[._-]] *)
Definition isSeparator (c : ascii) : bool :=
  (code c =? 46) || (code c =? 95) || (code c =? 45).

(** [wordStart] is set where the expression requires another [[a-z0-9]]. *)
Fixpoint matchFrom (wordStart : bool) (value : string) : bool :=
  match value with
  | EmptyString => negb wordStart
  | String c rest =>
      if isAlnum c then matchFrom false rest
      else if isSeparator c && negb wordStart then matchFrom true rest
      else false
  end.

Definition identifierPattern (value : string) : bool := matchFrom true value.

Inductive ManifestError := ErrInvalidManifest.

Definition ParseIdentifier (value : string) : result ManifestError string :=
  if (String.length value =? 0)%nat || (maximumIdentifierBytes <? String.length value)%nat
     || negb (identifierPattern value)
  then Err ErrInvalidManifest
  else Ok value.

(** ** The grammar of the expression *)
Inductive Word : string -> Prop :=
| word_one c : isAlnum c = true -> Word (String c EmptyString)
| word_more c w : isAlnum c = true -> Word w -> Word (String c w).

Inductive Grammar : string -> Prop :=
| grammar_word w : Word w -> Grammar w
| grammar_sep w c rest :
    Word w -> isSeparator c = true -> Grammar rest -> Grammar (w +:+ String c rest).

Lemma isSeparator_not_alnum c : isSeparator c = true -> isAlnum c = false.
Proof.
  unfold isSeparator, isAlnum. intros H.
  destruct (97 <=? code c) eqn:?, (code c <=? 122) eqn:?, (48 <=? code c) eqn:?,
    (code c <=? 57) eqn:?; cbn; try done;
  repeat (apply orb_true_iff in H as [H|H]); to_prop; lia.
Qed.

Lemma Word_match w b : Word w -> matchFrom b w = true.
Proof.
  intros Hw. revert b. induction Hw as [c Hc|c w Hc _ IH]; intros b; cbn [matchFrom String.append]; by rewrite Hc.
Qed.

Lemma Word_app_match w b rest :
  Word w -> matchFrom b (w +:+ rest) = matchFrom false rest.
Proof.
  intros Hw. revert b. induction Hw as [c Hc|c w Hc _ IH]; intros b.
  - change (String c EmptyString +:+ rest) with (String c rest).
    cbn [matchFrom]. by rewrite Hc.
  - change (String c w +:+ rest) with (String c (w +:+ rest)).
    cbn [matchFrom]. rewrite Hc. apply IH.
Qed.

Lemma Grammar_match s : Grammar s -> matchFrom true s = true.
Proof.
  induction 1 as [w Hw|w c rest Hw Hc _ IH]; [by apply Word_match|].
  rewrite Word_app_match by done. cbn [matchFrom negb andb].
  by rewrite (isSeparator_not_alnum _ Hc), Hc.
Qed.

Lemma match_Grammar s :
  (matchFrom true s = true -> Grammar s) /\
  (matchFrom false s = true -> forall c, isAlnum c = true -> Grammar (String c s)).
Proof.
  induction s as [|a s [IHt IHf]]; cbn [matchFrom negb].
  - split; [done|]. intros _ c Hc. by apply grammar_word, word_one.
  - destruct (isAlnum a) eqn:Ha.
    + split; [intros Hm; by apply IHf|]. intros Hm c Hc.
      assert (Hg : Grammar (String a s)) by by apply IHf.
      destruct Hg as [w Hw|w c' rest Hw Hc' Hr].
      * by apply grammar_word, word_more.
      * change (String c (w +:+ String c' rest)) with (String c w +:+ String c' rest).
        apply grammar_sep; [by apply word_more|done|done].
    + destruct (isSeparator a) eqn:Hs; cbn [andb]; [|done]. split; [done|].
      intros Hm c Hc.
      change (String c (String a s)) with (String c EmptyString +:+ String a s).
      apply grammar_sep; [by apply word_one|done|by apply IHt].
Qed.

(** The identifier automaton accepts exactly the language of the source's
    regular expression: non-empty lowercase alphanumeric words joined by single
    separators. *)
Theorem identifierPattern_grammar s : identifierPattern s = true <-> Grammar s.
Proof. split; [apply match_Grammar|apply Grammar_match]. Qed.

Lemma ParseIdentifier_nonempty s v : ParseIdentifier s = Ok v -> s <> ""%string /\ v = s.
Proof. unfold ParseIdentifier. intros H. inv_results H. split; [|done]. by intros ->. Qed.

End Identifier.
