(* ===== verification/Dice.v ===== *)
(** * Shared dice primitives

    The package [sdk/go/game/dice]: deterministic rolls ([dice.go]), penalty
    ticks ([ticks.go]) and seat traversal ([seats.go]).  A seed is the list of
    its 32 bytes, a face an integer 1..6, a tick amount a [uint32]. *)

From S2P Require Import Prelude Sha256.

Module Dice.

(** ** dice.go *)
Definition MaxDicePerRoll : Z := 128.
Definition faceRejectionLimit : Z := 252.
Definition maxSamplingAttempts : nat := 1024.

Inductive DiceError :=
| ErrZeroSeed | ErrInvalidCount
| ErrTicksOverflow | ErrTicksUnderflow
| ErrInvalidSeats | ErrCurrentSeatMissing.

Definition Face_Valid (face : Z) : bool := (1 <=? face) && (face <=? 6).

Definition isZeroSeed (seed : list Z) : bool := forallb (fun value => value =? 0) seed.

(** [binary.LittleEndian.PutUint64] / [PutUint32]. *)
Fixpoint putUintLE (bytes : nat) (v : Z) : list Z :=
  match bytes with
  | O => []
  | S n => Z.land v 255 :: putUintLE n (Z.shiftr v 8)
  end.

(** The 48-byte preimage of one sampling attempt. *)
Definition sampleInput (seed : list Z) (stream dieIndex attempt : Z) : list Z :=
  take 32 seed ++ putUintLE 8 stream ++ putUintLE 4 dieIndex ++ putUintLE 4 attempt.

(** The attempt loop: [fuel] counts the attempts left before
    [maxSamplingAttempts]. *)
Fixpoint sampleAttempts (seed : list Z) (stream dieIndex attempt : Z) (fuel : nat) : option Z :=
  match fuel with
  | O => None
  | S fuel' =>
      let digest := Sha256.Sum256 (sampleInput seed stream dieIndex attempt) in
      match List.find (fun value => value <? faceRejectionLimit) digest with
      | Some value => Some (value mod 6 + 1)
      | None => sampleAttempts seed stream dieIndex (attempt + 1) fuel'
      end
  end.

Definition sampleFace (seed : list Z) (stream dieIndex : Z) : option Z :=
  sampleAttempts seed stream dieIndex 0 maxSamplingAttempts.

Definition Roll (seed : list Z) (stream count : Z) : result DiceError (list Z) :=
  if isZeroSeed seed then Err ErrZeroSeed
  else if (count =? 0) || (MaxDicePerRoll <? count) then Err ErrInvalidCount
  else map_result
         (fun dieIndex =>
            match sampleFace seed stream (Z.of_nat dieIndex) with
            | Some face => Ok face
            | None => Err ErrInvalidCount
            end)
         (seq 0 (Z.to_nat count)).

(** ** ticks.go *)
Definition TicksPerUnit : Z := 4.

Definition Ticks_Add (value other : Z) : result DiceError Z :=
  if maxUint32 - value <? other then Err ErrTicksOverflow else Ok (u32 (value + other)).

Definition Ticks_Sub (value other : Z) : result DiceError Z :=
  if value <? other then Err ErrTicksUnderflow else Ok (u32 (value - other)).

Definition HalfFloor (value : Z) : Z := value / 2.
Definition HalfCeil (value : Z) : Z := u32 (value / 2 + value mod 2).

Definition Remaining (capacity current : Z) : result DiceError Z :=
  if capacity <? current then Err ErrTicksUnderflow else Ok (u32 (capacity - current)).

Definition NextAddAmount (capacity current step : Z) : result DiceError Z :=
  if step =? 0 then Err ErrTicksUnderflow
  else
    let* remaining := Remaining capacity current in
    if remaining =? 0 then Ok 0
    else if remaining <? step then Ok remaining
    else Ok step.

(** ** seats.go *)
Definition DirectionClockwise : Z := 1.
Definition DirectionCounterClockwise : Z := 2.

Definition Direction_Valid (direction : Z) : bool :=
  (direction =? DirectionClockwise) || (direction =? DirectionCounterClockwise).

(** The loop comparing every seat with its predecessor. *)
Fixpoint adjacentDuplicate (canonical : list Z) : bool :=
  match canonical with
  | a :: (b :: _) as rest => (b =? a) || adjacentDuplicate rest
  | _ => false
  end.

Definition CanonicalSeats (seats : list Z) : result DiceError (list Z) :=
  match seats with
  | [] => Err ErrInvalidSeats
  | _ =>
      let canonical := sort_by (fun s => s) seats in
      if adjacentDuplicate canonical then Err ErrInvalidSeats else Ok canonical
  end.

(** [sort.Search]: the binary search loop over [i, j); [fuel] bounds its
    iterations ([length + 1] always suffices, see [search_spec]). *)
Fixpoint search (f : nat -> bool) (i j fuel : nat) : nat :=
  match fuel with
  | O => i
  | S fuel' =>
      if (i <? j)%nat then
        let h := ((i + j) / 2)%nat in
        if f h then search f i h fuel' else search f (S h) j fuel'
      else i
  end.

Definition Next (seats : list Z) (current direction : Z) : result DiceError Z :=
  if negb (Direction_Valid direction) then Err ErrInvalidSeats
  else
    let* canonical := CanonicalSeats seats in
    let n := length canonical in
    let index := search (fun h => current <=? canonical !!! h) 0 n (S n) in
    if (index =? n)%nat || negb (canonical !!! index =? current) then Err ErrCurrentSeatMissing
    else if direction =? DirectionClockwise then Ok (canonical !!! ((index + 1) mod n)%nat)
    else Ok (canonical !!! ((index + n - 1) mod n)%nat).

(** ** Rolls *)
Lemma Face_Valid_iff (face : Z) : Face_Valid face = true <-> 1 <= face <= 6.
Proof. unfold Face_Valid. rewrite andb_true_iff, !Z.leb_le. done. Qed.

Lemma reduced_face_valid (value : Z) : Face_Valid (value mod 6 + 1) = true.
Proof. apply Face_Valid_iff. pose proof (Z.mod_pos_bound value 6). lia. Qed.

Lemma sampleFace_valid seed stream dieIndex face :
  sampleFace seed stream dieIndex = Some face -> Face_Valid face = true.
Proof.
  unfold sampleFace. generalize 0 as attempt. induction maxSamplingAttempts as [|fuel IH];
    intros attempt; cbn [sampleAttempts]; [done|].
  destruct (List.find _ _) as [value|]; [|apply IH].
  intros [= <-]. apply reduced_face_valid.
Qed.

#[global] Opaque sampleFace.

Lemma Roll_inv seed stream count faces :
  Roll seed stream count = Ok faces ->
  isZeroSeed seed = false /\ 0 <> count /\ count <= MaxDicePerRoll /\
  Forall2 (fun dieIndex face => sampleFace seed stream (Z.of_nat dieIndex) = Some face)
          (seq 0 (Z.to_nat count)) faces.
Proof.
  unfold Roll. intros H. inv_results H. to_prop. apply map_result_Ok in H.
  repeat split; try done. eapply Forall2_impl; [exact H|]. cbn.
  intros i f. by destruct (sampleFace _ _ _); intros ?; simplify_eq.
Qed.

(** A successful roll has exactly the requested number of dice, and every
    die shows a face of a six-sided die. *)
Lemma Roll_faces seed stream count faces :
  Roll seed stream count = Ok faces ->
  length faces = Z.to_nat count /\ Forall (fun f => Face_Valid f = true) faces.
Proof.
  intros (_ & _ & _ & H)%Roll_inv. split.
  - apply Forall2_length in H. by rewrite length_seq in H.
  - apply Forall_forall. intros f Hf. apply list_elem_of_lookup_1 in Hf as [i Hi].
    destruct (Forall2_lookup_r _ _ _ _ _ H Hi) as (d & _ & Hd). by eapply sampleFace_valid.
Qed.

(** Rolls are prefix stable: drawing fewer dice from the same seed and
    stream succeeds whenever the longer roll does and returns exactly its
    prefix, as the comment on [Roll] promises ("extending a roll preserves its
    existing prefix"). *)
Theorem Roll_prefix seed stream count larger faces :
  0 < count -> count <= larger -> Roll seed stream larger = Ok faces ->
  Roll seed stream count = Ok (take (Z.to_nat count) faces).
Proof.
  intros Hpos Hle (Hz & _ & Hmax & H)%Roll_inv. unfold Roll. rewrite Hz.
  replace ((count =? 0) || (MaxDicePerRoll <? count)) with false by lia.
  apply map_result_Ok.
  assert (Hseq : seq 0 (Z.to_nat count) = take (Z.to_nat count) (seq 0 (Z.to_nat larger))).
  { replace (Z.to_nat larger) with (Z.to_nat count + (Z.to_nat larger - Z.to_nat count))%nat by lia.
    rewrite seq_app, take_app_le by (rewrite length_seq; lia).
    by rewrite take_ge by (rewrite length_seq; lia). }
  rewrite Hseq. eapply Forall2_impl; [by apply Forall2_take|]. cbn. by intros i f ->.
Qed.

Lemma Roll_prefix_witness :
  Roll (Z.of_nat <$> seq 1 32) 9 2 =
  Ok (take 2 (match Roll (Z.of_nat <$> seq 1 32) 9 5 with Ok faces => faces | Err _ => [] end)).
Proof.
  apply (Roll_prefix _ 9 2 5); [lia|lia|]. vm_compute. reflexivity.
Defined.

(** Every face has the same number of accepted digest bytes, so rejecting the
    bytes from [faceRejectionLimit] on makes the reduction unbiased. *)
Theorem face_unbiased face :
  1 <= face <= 6 ->
  countb (fun value => (value <? faceRejectionLimit) && (value mod 6 + 1 =? face))
         (Z.of_nat <$> seq 0 256) = 42%nat.
Proof.
  intros H. assert (Hc : face = 1 \/ face = 2 \/ face = 3 \/ face = 4 \/ face = 5 \/ face = 6) by lia.
  repeat destruct Hc as [-> | Hc]; try subst face; vm_compute; reflexivity.
Qed.

Lemma face_unbiased_witness :
  countb (fun value => (value <? faceRejectionLimit) && (value mod 6 + 1 =? 6))
         (Z.of_nat <$> seq 0 256) = 42%nat.
Proof. apply face_unbiased. lia. Defined.

(** ** Ticks *)
Lemma Ticks_Add_Ok value other sum :
  is_u32 value -> is_u32 other -> Ticks_Add value other = Ok sum ->
  sum = value + other /\ is_u32 sum.
Proof.
  unfold Ticks_Add. intros Hv Ho H. inv_results H. to_prop.
  rewrite u32_small; unfold is_u32, maxUint32 in *; lia.
Qed.

Lemma Ticks_Add_total value other :
  is_u32 value -> is_u32 other ->
  Ticks_Add value other =
    if maxUint32 <? value + other then Err ErrTicksOverflow else Ok (value + other).
Proof.
  unfold Ticks_Add. intros Hv Ho.
  replace (maxUint32 - value <? other) with (maxUint32 <? value + other) by lia.
  destruct (maxUint32 <? value + other) eqn:E; [done|]. to_prop.
  rewrite u32_small; [done|]. unfold is_u32, maxUint32 in *. lia.
Qed.

Lemma HalfCeil_spec value : is_u32 value -> HalfCeil value = (value + 1) / 2.
Proof.
  intros H. unfold HalfCeil. pose proof (Z.div_mod value 2).
  pose proof (Z.mod_pos_bound value 2).
  replace (value / 2 + value mod 2) with ((value + 1) / 2).
  - apply u32_small. unfold is_u32, maxUint32 in *. split.
    + apply Z.div_pos; lia.
    + apply Z.div_le_upper_bound; lia.
  - symmetry. apply (Z.div_unique _ _ _ (1 - value mod 2)); lia.
Qed.

(** The two deterministic halves of a pool add up to the pool. *)
Lemma halves_add value : is_u32 value -> HalfFloor value + HalfCeil value = value.
Proof.
  intros H. rewrite HalfCeil_spec by done. unfold HalfFloor.
  pose proof (Z.div_mod value 2). pose proof (Z.mod_pos_bound value 2).
  assert ((value + 1) / 2 = value - value / 2); [|lia].
  symmetry. apply (Z.div_unique _ _ _ (1 - value mod 2)); lia.
Qed.

(** ** Seat traversal *)

(** Binary search returns the least index of a monotone predicate. *)
Lemma search_spec (f : nat -> bool) n i j fuel :
  (forall a b, (a <= b < n)%nat -> f a = true -> f b = true) ->
  (i <= j <= n)%nat -> (j - i < fuel)%nat ->
  (i <= search f i j fuel <= j)%nat /\
  (forall k, (i <= k < search f i j fuel)%nat -> f k = false) /\
  (forall k, (search f i j fuel <= k < j)%nat -> f k = true).
Proof.
  intros Hmono. revert i j. induction fuel as [|fuel IH]; intros i j Hij Hfuel; [lia|].
  cbn [search]. destruct (Nat.ltb_spec i j) as [Hlt|Hge].
  2: { split; [lia|]. split; intros k Hk; lia. }
  set (h := ((i + j) / 2)%nat).
  assert (Hh : (i <= h < j)%nat).
  { subst h. split; [apply Nat.div_le_lower_bound; lia|apply Nat.Div0.div_lt_upper_bound; lia]. }
  destruct (f h) eqn:Ef.
  - destruct (IH i h) as (Hr & Hf & Ht); [lia|lia|]. repeat split; [lia|lia|done|].
    intros k Hk. destruct (decide (k < h)%nat); [apply Ht; lia|].
    apply (Hmono h); [lia|done].
  - destruct (IH (S h) j) as (Hr & Hf & Ht); [lia|lia|]. repeat split; [lia|lia| |done].
    intros k Hk. destruct (decide (k <= h)%nat); [|apply Hf; lia].
    destruct (f k) eqn:Ek; [|done]. rewrite (Hmono k h) in Ef; [done|lia|done].
Qed.

Definition strictly_sorted (l : list Z) : Prop := StronglySorted Z.lt l.

Lemma adjacentDuplicate_false l :
  StronglySorted Z.le l -> adjacentDuplicate l = false <-> strictly_sorted l.
Proof.
  unfold strictly_sorted. induction l as [|a l IH]; intros Hs; [split; [constructor|done]|].
  apply StronglySorted_inv in Hs as [Hs Ha]. specialize (IH Hs).
  destruct l as [|b l]; [split; [repeat constructor|done]|].
  cbn [adjacentDuplicate] in *. rewrite orb_false_iff, IH, Z.eqb_neq. split.
  - intros [Hne Hst]. constructor; [done|]. apply StronglySorted_inv in Hst as [_ Hb].
    pose proof (Forall_inv Ha). constructor; [lia|].
    eapply Forall_impl; [exact Hb|]. cbn. lia.
  - intros [Hst Hb]%StronglySorted_inv. split; [|done].
    pose proof (Forall_inv Hb). cbn in *. lia.
Qed.

Lemma strictly_sorted_lookup (l : list Z) i j x y :
  strictly_sorted l -> l !! i = Some x -> l !! j = Some y -> (i < j)%nat -> x < y.
Proof.
  intros Hs. revert i j. induction Hs as [|a l Hs IH Ha]; intros i j Hi Hj Hlt; [done|].
  destruct j as [|j]; [lia|]. cbn in Hj. destruct i as [|i]; cbn in Hi.
  - simplify_eq. rewrite Forall_forall in Ha. apply Ha. by eapply list_elem_of_lookup_2.
  - apply (IH i j); [done|done|lia].
Qed.

Lemma CanonicalSeats_inv seats canonical :
  CanonicalSeats seats = Ok canonical ->
  strictly_sorted canonical /\ canonical ≡ₚ seats /\ (0 < length canonical)%nat.
Proof.
  unfold CanonicalSeats. destruct seats as [|s seats]; [done|]. intros H. inv_results H.
  pose proof (sort_by_Permutation (fun s => s) (s :: seats)) as Hp.
  repeat split; [|done|].
  - apply adjacentDuplicate_false; [|done]. apply (sort_by_sorted (fun s => s)).
  - apply Permutation_length in Hp. rewrite Hp. cbn. lia.
Qed.

(** The binary search of [Next] finds exactly the position of a seat. *)
Definition seat_search (canonical : list Z) (current : Z) : nat :=
  search (fun h => current <=? canonical !!! h) 0 (length canonical) (S (length canonical)).

Lemma seat_search_spec (canonical : list Z) current :
  strictly_sorted canonical ->
  (seat_search canonical current <= length canonical)%nat /\
  (forall k x, canonical !! k = Some x -> (k < seat_search canonical current)%nat -> x < current) /\
  (forall k x, canonical !! k = Some x -> (seat_search canonical current <= k)%nat -> current <= x).
Proof.
  intros Hs. unfold seat_search.
  destruct (search_spec (fun h => current <=? canonical !!! h) (length canonical)
              0 (length canonical) (S (length canonical))) as (Hr & Hf & Ht); [|lia|lia|].
  - intros a b Hab.
    destruct (lookup_lt_is_Some_2 canonical a) as [x Hx]; [lia|].
    destruct (lookup_lt_is_Some_2 canonical b) as [y Hy]; [lia|].
    rewrite (list_lookup_total_correct _ _ _ Hx), (list_lookup_total_correct _ _ _ Hy), !Z.leb_le.
    destruct (decide (a = b)) as [->|]; [by simplify_eq|].
    pose proof (strictly_sorted_lookup _ _ _ _ _ Hs Hx Hy). lia.
  - split; [lia|]. split; intros k x Hk Hlt; pose proof (lookup_lt_Some _ _ _ Hk).
    + specialize (Hf k). rewrite (list_lookup_total_correct _ _ _ Hk) in Hf. lia.
    + specialize (Ht k). rewrite (list_lookup_total_correct _ _ _ Hk) in Ht. lia.
Qed.

Lemma seat_search_position (canonical : list Z) i current :
  strictly_sorted canonical -> canonical !! i = Some current ->
  seat_search canonical current = i.
Proof.
  intros Hs Hi. destruct (seat_search_spec canonical current Hs) as (Hr & Hf & Ht).
  destruct (Nat.lt_trichotomy (seat_search canonical current) i) as [Hlti|[Heq|Hgt]]; [|done|].
  - destruct (lookup_lt_is_Some_2 canonical (seat_search canonical current)) as [x Hx].
    { apply lookup_lt_Some in Hi. lia. }
    pose proof (Ht _ x Hx). pose proof (strictly_sorted_lookup _ _ _ _ _ Hs Hx Hi Hlti). lia.
  - pose proof (Hf _ _ Hi Hgt). lia.
Qed.

(** The position [Next] moves to. *)
Definition step_position (direction : Z) (i n : nat) : nat :=
  if direction =? DirectionClockwise then ((i + 1) mod n)%nat else ((i + n - 1) mod n)%nat.

(** [Next] succeeds exactly from an occupied seat, and moves one position
    around the sorted seats. *)
Lemma Next_iff seats canonical current direction next :
  CanonicalSeats seats = Ok canonical -> Direction_Valid direction = true ->
  Next seats current direction = Ok next <->
  exists i, canonical !! i = Some current /\
            canonical !! step_position direction i (length canonical) = Some next.
Proof.
  intros Hc Hd. pose proof (CanonicalSeats_inv _ _ Hc) as (Hs & _ & Hlen).
  assert (Hpos : forall i, canonical !! step_position direction i (length canonical) =
            Some (canonical !!! step_position direction i (length canonical))).
  { intros i. apply list_lookup_lookup_total_lt. unfold step_position.
    destruct (direction =? _); apply Nat.mod_upper_bound; lia. }
  unfold Next. rewrite Hd, Hc. cbn [negb bind_result]. fold (seat_search canonical current).
  assert (Hmove : forall i, (if direction =? DirectionClockwise
       then Ok (canonical !!! ((i + 1) mod length canonical)%nat)
       else Ok (canonical !!! ((i + length canonical - 1) mod length canonical)%nat)) =
       Ok (E := DiceError) (canonical !!! step_position direction i (length canonical))).
  { intros i. unfold step_position. by destruct (direction =? _). }
  rewrite Hmove. destruct (seat_search_spec canonical current Hs) as (Hr & _ & _). split.
  - intros H. inv_results H. apply orb_false_elim in E as [Er Ec]. apply Nat.eqb_neq in Er. to_prop.
    exists (seat_search canonical current). split; [|apply Hpos].
    rewrite list_lookup_lookup_total_lt by lia. by rewrite Ec.
  - intros (i & Hi & Hn). rewrite (seat_search_position _ _ _ Hs Hi).
    pose proof (lookup_lt_Some _ _ _ Hi).
    rewrite (list_lookup_total_correct _ _ _ Hi), Z.eqb_refl, orb_false_r.
    replace (i =? length canonical)%nat with false by (symmetry; apply Nat.eqb_neq; lia).
    rewrite Hpos in Hn. by simplify_eq.
Qed.

Lemma step_position_inverse i n :
  (i < n)%nat ->
  step_position DirectionCounterClockwise (step_position DirectionClockwise i n) n = i /\
  step_position DirectionClockwise (step_position DirectionCounterClockwise i n) n = i.
Proof.
  intros Hi. unfold step_position. cbn [Z.eqb Pos.eqb DirectionClockwise DirectionCounterClockwise].
  split.
  - destruct (decide (S i = n)) as [<-|].
    + rewrite Nat.add_1_r, Nat.Div0.mod_same.
      replace (0 + S i - 1)%nat with i by lia. apply Nat.mod_small. lia.
    + rewrite (Nat.mod_small (i + 1)) by lia.
      replace (i + 1 + n - 1)%nat with (i + 1 * n)%nat by lia.
      rewrite Nat.Div0.mod_add. apply Nat.mod_small. lia.
  - destruct (decide (i = 0%nat)) as [->|].
    + rewrite (Nat.mod_small (0 + n - 1)) by lia.
      replace (0 + n - 1 + 1)%nat with n by lia. apply Nat.Div0.mod_same.
    + replace (i + n - 1)%nat with ((i - 1) + 1 * n)%nat by lia.
      rewrite Nat.Div0.mod_add, (Nat.mod_small (i - 1)) by lia.
      replace (i - 1 + 1)%nat with i by lia. by apply Nat.mod_small.
Qed.

Lemma Next_Ok_canonical seats current direction next :
  Next seats current direction = Ok next ->
  Direction_Valid direction = true /\ exists canonical, CanonicalSeats seats = Ok canonical.
Proof. unfold Next. intros H. inv_results H; to_prop; eauto. Qed.

(** Walking one seat and back in the opposite direction is the identity. *)
Theorem Next_inverse seats a b :
  Next seats a DirectionClockwise = Ok b <-> Next seats b DirectionCounterClockwise = Ok a.
Proof.
  split; intros H; destruct (Next_Ok_canonical _ _ _ _ H) as [_ [canonical Hc]];
    rewrite (Next_iff _ _ _ _ _ Hc) in H by reflexivity; rewrite (Next_iff _ _ _ _ _ Hc) by reflexivity;
    destruct H as (i & Hi & Hn);
    destruct (step_position_inverse i (length canonical) (lookup_lt_Some _ _ _ Hi)) as [H1 H2];
    (eexists; split; [exact Hn|]); by rewrite ?H1, ?H2.
Qed.

(** [k] successive moves. *)
Fixpoint walk (seats : list Z) (k : nat) (current direction : Z) : result DiceError Z :=
  match k with
  | O => Ok current
  | S k' => let* next := Next seats current direction in walk seats k' next direction
  end.

Lemma walk_clockwise seats canonical k i current :
  CanonicalSeats seats = Ok canonical -> canonical !! i = Some current ->
  exists final, walk seats k current DirectionClockwise = Ok final /\
                canonical !! ((i + k) mod length canonical)%nat = Some final.
Proof.
  intros Hc. revert i current. induction k as [|k IH]; intros i current Hi.
  - exists current. split; [done|].
    rewrite Nat.add_0_r, Nat.mod_small by (eapply lookup_lt_Some; exact Hi). done.
  - pose proof (lookup_lt_Some _ _ _ Hi) as Hlt.
    destruct (lookup_lt_is_Some_2 canonical ((i + 1) mod length canonical)%nat) as [next Hn].
    { apply Nat.mod_upper_bound. lia. }
    assert (Hstep : Next seats current DirectionClockwise = Ok next).
    { apply (Next_iff _ _ _ _ _ Hc); [done|]. eauto. }
    destruct (IH _ _ Hn) as (final & Hw & Hf). exists final. cbn [walk]. rewrite Hstep.
    split; [done|]. rewrite <- Hf. f_equal.
    rewrite Nat.Div0.add_mod_idemp_l. f_equal. lia.
Qed.

(** Turn fairness: clockwise traversal reaches every active seat from every
    active seat, in fewer moves than there are seats. *)
Theorem walk_reaches seats canonical a b :
  CanonicalSeats seats = Ok canonical -> a ∈ seats -> b ∈ seats ->
  exists k, (k < length seats)%nat /\ walk seats k a DirectionClockwise = Ok b.
Proof.
  intros Hc Ha Hb. destruct (CanonicalSeats_inv _ _ Hc) as (_ & Hp & Hlen).
  rewrite <- Hp in Ha. rewrite <- Hp in Hb.
  apply list_elem_of_lookup_1 in Ha as [i Hi]. apply list_elem_of_lookup_1 in Hb as [j Hj].
  pose proof (lookup_lt_Some _ _ _ Hi). pose proof (lookup_lt_Some _ _ _ Hj).
  rewrite <- (Permutation_length Hp). set (n := length canonical) in *.
  exists ((j + n - i) mod n)%nat. split; [apply Nat.mod_upper_bound; lia|].
  destruct (walk_clockwise seats canonical ((j + n - i) mod n) i a Hc Hi) as (final & Hw & Hf).
  rewrite Hw. f_equal. fold n in Hf. rewrite Nat.Div0.add_mod_idemp_r in Hf.
  replace (i + (j + n - i))%nat with (j + 1 * n)%nat in Hf by lia.
  rewrite Nat.Div0.mod_add, Nat.mod_small in Hf by lia. by simplify_eq.
Qed.

Lemma walk_reaches_witness :
  exists k, (k < 3)%nat /\ walk [7; 1; 4] k 7 DirectionClockwise = Ok 4.
Proof.
  apply (walk_reaches [7; 1; 4] [1; 4; 7]); [vm_compute; reflexivity| |]; set_solver.
Defined.

End Dice.
