(* ===== verification/Roster.v ===== *)
(** * Frozen participants

    Every game engine freezes the same data at session start: a participant is
    a canonical user id on a stable seat, and a player state extends it with an
    activity flag.  This file holds the operations the engines share over such
    rosters ([ValidateParticipants], [canonicalParticipants], [playerIndex],
    [activeCount], [nextActiveUser] and the seat-order loop of [Validate]),
    stated once over the interface [Seated]; the engine files instantiate it
    with their own [PlayerState] and wrap the errors in their own codes. *)

From S2P Require Import Prelude Identifier.

Module Roster.

(** [Participant] of the engines' [types.go]. *)
Record Participant := mkParticipant {
  UserID : string;
  SeatIndex : Z;
}.

#[global] Instance Participant_eq_dec : EqDecision Participant.
Proof. solve_decision. Defined.

(** What an engine's [PlayerState] offers to the shared roster operations. *)
Class Seated (P : Type) := {
  userOf : P -> string;
  seatOf : P -> Z;
  activeOf : P -> bool;
}.

(** The rejections of [ValidateParticipants], in the order it checks them. *)
Inductive RosterFault :=
| FaultCount | FaultIdentity | FaultDuplicateUser | FaultDuplicateSeat.

(** The loop of [ValidateParticipants]; [users] and [seats] are its two maps. *)
Fixpoint checkEntries (users : list string) (seats : list Z) (participants : list Participant)
  : result RosterFault unit :=
  match participants with
  | [] => Ok tt
  | participant :: rest =>
      if negb (is_ok (Identifier.ParseIdentifier (UserID participant))) then Err FaultIdentity
      else if bool_decide (UserID participant ∈ users) then Err FaultDuplicateUser
      else if bool_decide (SeatIndex participant ∈ seats) then Err FaultDuplicateSeat
      else checkEntries (UserID participant :: users) (SeatIndex participant :: seats) rest
  end.

Definition checkRoster (minimum maximum : nat) (participants : list Participant)
  : result RosterFault unit :=
  if (length participants <? minimum)%nat || (maximum <? length participants)%nat
  then Err FaultCount
  else checkEntries [] [] participants.

(** [canonicalParticipants]: the defensive copy in seat order. *)
Definition bySeat (participants : list Participant) : list Participant :=
  sort_by SeatIndex participants.

Section Operations.
Context {P : Type} `{Seated P}.

(** The participant snapshot [Validate] rebuilds from the players. *)
Definition participantOf (player : P) : Participant :=
  mkParticipant (userOf player) (seatOf player).

Definition playerIndex (players : list P) (userID : string) : option nat :=
  find_index (fun player => String.eqb (userOf player) userID) players.

Definition activeCount (players : list P) : nat := countb activeOf players.

(** [playerIndex(players, userID) >= 0]. *)
Definition isFrozen (players : list P) (userID : string) : bool :=
  match playerIndex players userID with Some _ => true | None => false end.

(** [index >= 0 && players[index].Active]. *)
Definition isActive `{Inhabited P} (players : list P) (userID : string) : bool :=
  match playerIndex players userID with
  | Some index => activeOf (players !!! index)
  | None => false
  end.

(** [index > 0 && Players[index-1].SeatIndex >= player.SeatIndex]. *)
Fixpoint seatsOutOfOrder (players : list P) : bool :=
  match players with
  | a :: (b :: _) as rest => (seatOf b <=? seatOf a) || seatsOutOfOrder rest
  | _ => false
  end.

(** The candidate loop of [nextActiveUser] over the visited indexes. *)
Fixpoint firstActive `{Inhabited P} (players : list P) (indexes : list nat) : option string :=
  match indexes with
  | [] => None
  | index :: rest =>
      let candidate := players !!! index in
      if activeOf candidate then Some (userOf candidate) else firstActive players rest
  end.

(** [(current + offset) % len(Players)] for [offset = 1 .. len(Players)]. *)
Definition forwardIndexes (current n : nat) : list nat :=
  (fun offset => (current + offset) mod n)%nat <$> seq 1 n.

(** Users of [ValidateParticipants]-accepted rosters are pairwise distinct,
    and so are their seats. *)
Definition distinct (players : list P) : Prop :=
  NoDup (userOf <$> players) /\ NoDup (seatOf <$> players).

Definition activeUser (players : list P) (userID : string) : Prop :=
  exists p, p ∈ players /\ userOf p = userID /\ activeOf p = true.

Definition frozenUser (players : list P) (userID : string) : Prop :=
  exists p, p ∈ players /\ userOf p = userID.
End Operations.

(** ** Participant validation *)
Definition validIdentity (p : Participant) : Prop :=
  is_ok (Identifier.ParseIdentifier (UserID p)) = true.

Lemma validIdentity_nonempty p : validIdentity p -> UserID p <> ""%string.
Proof.
  unfold validIdentity. destruct (Identifier.ParseIdentifier _) eqn:E; [|done].
  intros _. by apply Identifier.ParseIdentifier_nonempty in E as [? _].
Qed.

Lemma checkEntries_iff users seats participants :
  checkEntries users seats participants = Ok tt <->
  Forall validIdentity participants /\
  NoDup (UserID <$> participants) /\ NoDup (SeatIndex <$> participants) /\
  (forall p, p ∈ participants -> (UserID p ∉ users) /\ (SeatIndex p ∉ seats)).
Proof.
  revert users seats. induction participants as [|p ps IH]; intros users seats; cbn [checkEntries].
  - split; [|done]. intros _. repeat split; try constructor; by inversion H.
  - rewrite !fmap_cons, !NoDup_cons, Forall_cons. unfold validIdentity at 1. split.
    + intros H. inv_results H. to_prop. apply IH in H as (Hv & Hu & Hs & Hf).
      rewrite !list_elem_of_fmap. split_and!; try done.
      * intros (q & Hq & [Hin _]%Hf). apply Hin. rewrite Hq. constructor.
      * intros (q & Hq & [_ Hin]%Hf). apply Hin. rewrite Hq. constructor.
      * intros q [->|[Hqu Hqs]%Hf]%elem_of_cons; [done|].
        rewrite not_elem_of_cons in Hqu. rewrite not_elem_of_cons in Hqs. tauto.
    + intros ((Hp & Hv) & (Hu & Hun) & (Hs & Hsn) & Hf).
      rewrite Hp. cbn [negb]. destruct (Hf p (list_elem_of_here _ _)) as [Hfu Hfs].
      rewrite !bool_decide_eq_false_2 by done. apply IH. split_and!; try done.
      intros q Hq. destruct (Hf q) as [? ?]; [by constructor|].
      rewrite !not_elem_of_cons. split_and!; try done; intros Heq.
      * apply Hu. rewrite <- Heq. by apply list_elem_of_fmap_2.
      * apply Hs. rewrite <- Heq. by apply list_elem_of_fmap_2.
Qed.

(** What an accepted roster is. *)
Record ValidRoster (minimum maximum : nat) (participants : list Participant) : Prop := {
  roster_count : (minimum <= length participants <= maximum)%nat;
  roster_identities : Forall validIdentity participants;
  roster_users : NoDup (UserID <$> participants);
  roster_seats : NoDup (SeatIndex <$> participants);
}.

Lemma checkRoster_iff minimum maximum participants :
  checkRoster minimum maximum participants = Ok tt <-> ValidRoster minimum maximum participants.
Proof.
  unfold checkRoster. split.
  - intros H. inv_results H. apply orb_false_elim in E as [E1%Nat.ltb_ge E2%Nat.ltb_ge].
    apply checkEntries_iff in H as (? & ? & ? & _). by split.
  - intros [Hc Hi Hu Hs].
    replace ((length participants <? minimum)%nat || (maximum <? length participants)%nat) with false.
    + apply checkEntries_iff. split_and!; try done. intros p _. split; apply not_elem_of_nil.
    + symmetry. apply orb_false_intro; apply Nat.ltb_ge; lia.
Qed.

#[global] Instance ValidRoster_perm minimum maximum :
  Proper ((≡ₚ) ==> iff) (ValidRoster minimum maximum).
Proof.
  intros l1 l2 Hp. split; intros [Hc Hi Hu Hs]; split;
    by (rewrite Hp || rewrite <- Hp).
Qed.

(** Canonicalisation keeps the roster and orders it strictly by seat. *)
Lemma bySeat_valid minimum maximum participants :
  ValidRoster minimum maximum participants ->
  ValidRoster minimum maximum (bySeat participants) /\
  StronglySorted (fun x y => SeatIndex x < SeatIndex y) (bySeat participants) /\
  bySeat participants ≡ₚ participants.
Proof.
  intros Hv. pose proof (sort_by_Permutation SeatIndex participants) as Hp.
  split_and!; [by rewrite Hp| |done]. apply sort_by_strict. apply Hv.
Qed.

(** ** Player lookups and turn order *)
Section Lookups.
Context {P : Type} `{Seated P} `{Inhabited P}.
Implicit Types (players : list P) (p q : P).

Lemma playerIndex_Some players userID i :
  playerIndex players userID = Some i ->
  exists p, players !! i = Some p /\ userOf p = userID /\ players !!! i = p.
Proof.
  intros (p & Hp & Hu & _)%find_index_Some. apply eqb_string_true in Hu.
  exists p. split_and!; [done|done|]. by apply list_lookup_total_correct.
Qed.

Lemma playerIndex_None players userID :
  playerIndex players userID = None <-> ~ frozenUser players userID.
Proof.
  unfold playerIndex, frozenUser. rewrite find_index_None. split.
  - intros Hn (p & Hp & Hu). specialize (Hn p Hp). apply eqb_string_false in Hn. done.
  - intros Hn p Hp. apply eqb_string_false. intros Hu. apply Hn. eauto.
Qed.

Lemma playerIndex_is_Some players userID :
  is_Some (playerIndex players userID) <-> frozenUser players userID.
Proof.
  destruct (playerIndex players userID) as [i|] eqn:E.
  - split; [|by eauto]. intros _. apply playerIndex_Some in E as (p & Hp & Hu & _).
    exists p. split; [|done]. by eapply list_elem_of_lookup_2.
  - apply playerIndex_None in E. split; [by intros []|done].
Qed.

(** Player indexes depend on the frozen user ids only. *)
Lemma playerIndex_users players players' userID :
  userOf <$> players = userOf <$> players' ->
  playerIndex players userID = playerIndex players' userID.
Proof.
  intros Heq. unfold playerIndex.
  rewrite <- (find_index_fmap userOf (fun u => String.eqb u userID) players).
  rewrite <- (find_index_fmap userOf (fun u => String.eqb u userID) players').
  by rewrite Heq.
Qed.

Lemma playerIndex_lookup players i p :
  NoDup (userOf <$> players) -> players !! i = Some p ->
  playerIndex players (userOf p) = Some i.
Proof.
  intros Hnd Hp. apply (find_index_unique _ _ _ p); [done|by apply eqb_string_true|].
  intros j q Hq Hu. apply eqb_string_true in Hu.
  eapply (NoDup_lookup _ _ _ (userOf p) Hnd); rewrite list_lookup_fmap.
  - by rewrite Hq, <- Hu.
  - by rewrite Hp.
Qed.

Lemma activeUser_index players userID :
  NoDup (userOf <$> players) ->
  activeUser players userID <->
  exists i, playerIndex players userID = Some i /\ activeOf (players !!! i) = true.
Proof.
  intros Hnd. split.
  - intros (p & [i Hi]%list_elem_of_lookup_1 & <- & Ha). exists i.
    split; [by apply playerIndex_lookup|]. by rewrite (list_lookup_total_correct _ _ _ Hi).
  - intros (i & Hi & Ha). apply playerIndex_Some in Hi as (p & Hp & Hu & Heq). subst p.
    eexists. split_and!; [by eapply list_elem_of_lookup_2|done|done].
Qed.

Lemma activeUser_frozen players userID :
  activeUser players userID -> frozenUser players userID.
Proof. intros (p & ? & ? & _). by exists p. Qed.

Lemma seatsOutOfOrder_false players :
  seatsOutOfOrder players = false <-> StronglySorted (fun x y => seatOf x < seatOf y) players.
Proof.
  induction players as [|a l IH]; [split; [constructor|done]|].
  destruct l as [|b l]; [split; [repeat constructor|done]|].
  cbn [seatsOutOfOrder] in *. rewrite orb_false_iff, IH, Z.leb_gt. split.
  - intros [Hlt Hs]. constructor; [done|]. constructor; [done|].
    apply StronglySorted_inv in Hs as [_ Hb]. eapply Forall_impl; [exact Hb|]. cbn. lia.
  - intros [Hs Ha]%StronglySorted_inv. split; [|done]. by apply Forall_inv in Ha.
Qed.

Lemma firstActive_Some players indexes userID :
  firstActive players indexes = Some userID ->
  exists i, i ∈ indexes /\ activeOf (players !!! i) = true /\ userOf (players !!! i) = userID.
Proof.
  induction indexes as [|i l IH]; cbn [firstActive]; [done|].
  destruct (activeOf (players !!! i)) eqn:Ha.
  - intros [= <-]. exists i. split_and!; [constructor|done|done].
  - intros (j & Hj & ? & ?)%IH. exists j. split_and!; [by constructor|done|done].
Qed.

Lemma firstActive_None players indexes :
  firstActive players indexes = None -> forall i, i ∈ indexes -> activeOf (players !!! i) = false.
Proof.
  induction indexes as [|j l IH]; cbn [firstActive]; intros Hn i Hi; [inversion Hi|].
  destruct (activeOf (players !!! j)) eqn:Ha; [done|].
  apply elem_of_cons in Hi as [->|]; auto.
Qed.

Lemma forwardIndexes_elem current n i :
  (current < n)%nat -> (i < n)%nat -> i ∈ forwardIndexes current n.
Proof.
  intros Hc Hi. unfold forwardIndexes. rewrite list_elem_of_fmap.
  exists (if decide (current < i) then i - current else n + i - current)%nat.
  rewrite elem_of_seq. case_decide.
  - split; [|lia]. replace (current + (i - current))%nat with i by lia.
    by rewrite Nat.mod_small.
  - split; [|lia]. replace (current + (n + i - current))%nat with (i + 1 * n)%nat by lia.
    by rewrite Nat.Div0.mod_add, Nat.mod_small.
Qed.

Lemma forwardIndexes_bound current n i :
  i ∈ forwardIndexes current n -> (i < n)%nat.
Proof.
  intros (o & -> & Ho%elem_of_seq)%list_elem_of_fmap. apply Nat.mod_upper_bound. lia.
Qed.

(** The rotation visits every other player before coming back. *)
Lemma forwardIndexes_split current n :
  (current < n)%nat ->
  exists others, forwardIndexes current n = others ++ [current] /\ current ∉ others.
Proof.
  intros Hc. unfold forwardIndexes.
  exists ((fun offset => (current + offset) mod n)%nat <$> seq 1 (n - 1)). split.
  - assert (Hseq : seq 1 n = seq 1 (n - 1) ++ [n]).
    { destruct n as [|n]; [lia|]. rewrite seq_S. by replace (S n - 1)%nat with n by lia. }
    rewrite Hseq, fmap_app. f_equal. cbn [fmap list_fmap].
    replace (current + n)%nat with (current + 1 * n)%nat by lia.
    by rewrite Nat.Div0.mod_add, Nat.mod_small.
  - intros (o & Ho & Hin%elem_of_seq)%list_elem_of_fmap.
    destruct (decide (current + o < n)%nat).
    + rewrite Nat.mod_small in Ho by lia. lia.
    + replace (current + o)%nat with (current + o - n + 1 * n)%nat in Ho by lia.
      rewrite Nat.Div0.mod_add, Nat.mod_small in Ho by lia. lia.
Qed.

Lemma firstActive_app players l1 l2 :
  firstActive players (l1 ++ l2) =
  match firstActive players l1 with Some u => Some u | None => firstActive players l2 end.
Proof.
  induction l1 as [|i l1 IH]; cbn [app firstActive]; [done|].
  by destruct (activeOf (players !!! i)).
Qed.

(** The scan returns the nearest active successor. *)
Lemma firstActive_seq players (f : nat -> nat) start n userID :
  firstActive players (f <$> seq start n) = Some userID ->
  exists k, (start <= k < start + n)%nat /\
    userOf (players !!! f k) = userID /\ activeOf (players !!! f k) = true /\
    forall j, (start <= j < k)%nat -> activeOf (players !!! f j) = false.
Proof.
  revert start. induction n as [|n IH]; intros start; cbn [seq fmap list_fmap firstActive]; [done|].
  destruct (activeOf (players !!! f start)) eqn:Ha.
  - intros [= <-]. exists start. split_and!; [lia|lia|done|done|]. lia.
  - intros (k & Hk & Hu & Hak & Hskip)%IH. exists k. split_and!; [lia|lia|done|done|].
    intros j Hj. destruct (decide (j = start)) as [->|]; [done|]. apply Hskip. lia.
Qed.

Lemma activeCount_other players current p :
  players !! current = Some p -> activeOf p = true -> (2 <= activeCount players)%nat ->
  exists i q, i <> current /\ players !! i = Some q /\ activeOf q = true.
Proof.
  intros Hp Hact Hcount. unfold activeCount, countb in Hcount. revert current Hp.
  induction players as [|a l IH]; intros current Hp; [done|]. cbn [List.filter] in Hcount.
  assert (Hex : (1 <= length (List.filter activeOf l))%nat ->
            exists j q, l !! j = Some q /\ activeOf q = true).
  { destruct (List.filter activeOf l) as [|q rest] eqn:E; cbn; [lia|]. intros _.
    assert (Hq : List.In q (List.filter activeOf l)) by (rewrite E; by left).
    apply filter_In in Hq as [Hq Haq]. apply list_elem_of_In, list_elem_of_lookup_1 in Hq as [j Hj].
    eauto. }
  destruct current as [|current]; cbn in Hp.
  - simplify_eq. rewrite Hact in Hcount. cbn in Hcount. destruct Hex as (j & q & Hj & Hq); [lia|].
    exists (S j), q. done.
  - destruct (activeOf a) eqn:Ea; [by exists 0%nat, a|].
    destruct (IH Hcount current Hp) as (i & q & Hne & Hi & Hq). exists (S i), q.
    split_and!; [lia|done|done].
Qed.

(** Two active players make the successor of an active player another one. *)
Lemma firstActive_other players current p :
  NoDup (userOf <$> players) -> players !! current = Some p -> activeOf p = true ->
  (2 <= activeCount players)%nat ->
  exists u, firstActive players (forwardIndexes current (length players)) = Some u /\ u <> userOf p.
Proof.
  intros Hnd Hp Hact Hcount. pose proof (lookup_lt_Some _ _ _ Hp) as Hlt.
  destruct (forwardIndexes_split current (length players) Hlt) as (others & Heq & Hnotin).
  destruct (activeCount_other players current p Hp Hact Hcount) as (i & q & Hne & Hi & Hq).
  assert (Hin : i ∈ others).
  { pose proof (forwardIndexes_elem current (length players) i Hlt (lookup_lt_Some _ _ _ Hi)) as Hin.
    rewrite Heq in Hin. apply elem_of_app in Hin as [?|Hin]; [done|].
    by apply list_elem_of_singleton in Hin. }
  rewrite Heq, firstActive_app. destruct (firstActive players others) as [u|] eqn:E.
  - exists u. split; [done|]. apply firstActive_Some in E as (j & Hj & Haj & <-).
    assert (Hjl : (j < length players)%nat).
    { eapply (forwardIndexes_bound current). rewrite Heq. apply elem_of_app. by left. }
    intros Hu. apply Hnotin. replace current with j; [done|].
    eapply (NoDup_lookup _ _ _ (userOf p) Hnd); rewrite list_lookup_fmap.
    + rewrite (list_lookup_lookup_total_lt _ _ Hjl). cbn. by rewrite Hu.
    + by rewrite Hp.
  - pose proof (firstActive_None _ _ E i Hin) as Hn.
    by rewrite (list_lookup_total_correct _ _ _ Hi), Hq in Hn.
Qed.

(** Deactivating one active player lowers the active count by one. *)
Lemma activeCount_deactivate players i p q :
  players !! i = Some p -> activeOf p = true -> activeOf q = false ->
  activeCount players = S (activeCount (<[i := q]> players)).
Proof.
  unfold activeCount, countb. revert i. induction players as [|a l IH]; intros i Hi Hp Hq; [done|].
  destruct i as [|i]; cbn in Hi.
  - simplify_eq. cbn. by rewrite Hp, Hq.
  - change (<[S i:=q]> (a :: l)) with (a :: <[i:=q]> l). cbn [List.filter].
    destruct (activeOf a); cbn [length]; by rewrite (IH i Hi Hp Hq).
Qed.

Lemma activeCount_insert_same players i p q :
  players !! i = Some p -> activeOf q = activeOf p ->
  activeCount (<[i := q]> players) = activeCount players.
Proof.
  unfold activeCount, countb. revert i. induction players as [|a l IH]; intros i Hi Hq; [done|].
  destruct i as [|i]; cbn in Hi.
  - simplify_eq. cbn. rewrite Hq. by destruct (activeOf p).
  - change (<[S i:=q]> (a :: l)) with (a :: <[i:=q]> l). cbn [List.filter].
    destruct (activeOf a); cbn [length]; by rewrite (IH i Hi Hq).
Qed.

Lemma fmap_insert_same {B} (f : P -> B) players i p q :
  players !! i = Some p -> f q = f p -> f <$> <[i := q]> players = f <$> players.
Proof.
  intros Hi Hq. rewrite list_fmap_insert, Hq. apply list_insert_id.
  by rewrite list_lookup_fmap, Hi.
Qed.

Lemma isFrozen_iff players u : isFrozen players u = true <-> frozenUser players u.
Proof.
  unfold isFrozen. rewrite <- playerIndex_is_Some.
  by destruct (playerIndex players u).
Qed.

Lemma isActive_iff players u :
  NoDup (userOf <$> players) -> isActive players u = true <-> activeUser players u.
Proof.
  intros Hnd. rewrite (activeUser_index players u Hnd). unfold isActive.
  destruct (playerIndex players u) as [i|]; split; try done.
  - eauto.
  - intros (j & ? & ?). by simplify_eq.
  - by intros (j & ? & ?).
Qed.

Lemma participants_users (l l' : list P) :
  participantOf <$> l = participantOf <$> l' -> userOf <$> l = userOf <$> l'.
Proof. intros Heq. apply (f_equal (fmap UserID)) in Heq. by rewrite <- !list_fmap_compose in Heq. Qed.

Lemma participants_seats (l l' : list P) :
  participantOf <$> l = participantOf <$> l' -> seatOf <$> l = seatOf <$> l'.
Proof. intros Heq. apply (f_equal (fmap SeatIndex)) in Heq. by rewrite <- !list_fmap_compose in Heq. Qed.

Lemma order_seats (l : list P) :
  StronglySorted (fun x y => seatOf x < seatOf y) l <-> StronglySorted Z.lt (seatOf <$> l).
Proof.
  induction l as [|a l IH]; cbn; [split; constructor|].
  split; intros [Hs Ha]%StronglySorted_inv; constructor; [by apply IH| |by apply IH|].
  - rewrite Forall_fmap. eapply Forall_impl; [exact Ha|]. done.
  - rewrite Forall_fmap in Ha. eapply Forall_impl; [exact Ha|]. done.
Qed.

Lemma isFrozen_users l l' u : userOf <$> l = userOf <$> l' -> isFrozen l u = isFrozen l' u.
Proof. intros Heq. unfold isFrozen. by rewrite (playerIndex_users _ _ _ Heq). Qed.

Lemma frozenUser_users (l l' : list P) u :
  userOf <$> l = userOf <$> l' -> frozenUser l u -> frozenUser l' u.
Proof. intros Heq. rewrite <- !isFrozen_iff. by rewrite (isFrozen_users _ _ _ Heq). Qed.

Lemma isActive_isFrozen players u : isActive players u = true -> isFrozen players u = true.
Proof. unfold isActive, isFrozen. by destruct (playerIndex players u). Qed.

End Lookups.

End Roster.
