(* ===== verification/Engine.v ===== *)
(** * The engine interface

    What the session runtime relies on in every game engine: a transition
    function, the snapshot validity the engine promises to keep, and terminal
    states.  The engines provide [EngineOps] and discharge [EngineLaws]; the
    theorems on whole sessions below are proved once against the interface.

    [play] is the runtime's use of an engine: inputs are applied one at a
    time, a rejected input leaves the snapshot as it is. *)

From S2P Require Import Prelude.

Class EngineOps (S I E Er : Type) := {
  engine_step : S -> I -> result Er (S * list E);
  (** Inputs whose integers fit their Go types. *)
  engine_input : I -> Prop;
  (** States built by the engine's constructor. *)
  engine_initial : S -> Prop;
  engine_valid : S -> Prop;
  engine_finished : S -> bool;
}.

Class EngineLaws (S I E Er : Type) `{EngineOps S I E Er} := {
  initial_valid s : engine_initial s -> engine_valid s;
  step_valid s i s' es :
    engine_valid s -> engine_input i -> engine_step s i = Ok (s', es) -> engine_valid s';
  finished_rejects s i :
    engine_finished s = true -> is_ok (engine_step s i) = false;
}.

Section Sessions.
Context {S I E Er : Type} `{EngineLaws S I E Er}.

Inductive reachable : S -> Prop :=
| reachable_initial s : engine_initial s -> reachable s
| reachable_step s i s' es :
    reachable s -> engine_input i -> engine_step s i = Ok (s', es) -> reachable s'.

Fixpoint play (s : S) (inputs : list I) : S * list E :=
  match inputs with
  | [] => (s, [])
  | i :: rest =>
      match engine_step s i with
      | Ok (s', es) => let '(final, more) := play s' rest in (final, es ++ more)
      | Err _ => play s rest
      end
  end.

(** The inputs of a session that the engine accepts. *)
Fixpoint accepted (s : S) (inputs : list I) : nat :=
  match inputs with
  | [] => 0
  | i :: rest =>
      match engine_step s i with
      | Ok (s', _) => Datatypes.S (accepted s' rest)
      | Err _ => accepted s rest
      end
  end.

Lemma reachable_valid s : reachable s -> engine_valid s.
Proof.
  induction 1 as [s Hi|s i s' es _ IH Hin Hstep]; [by apply initial_valid|].
  by eapply step_valid.
Qed.

Lemma play_reachable s inputs :
  reachable s -> Forall engine_input inputs -> reachable (fst (play s inputs)).
Proof.
  intros Hr Hin. revert s Hr. induction Hin as [|i inputs Hi _ IH]; intros s Hr; cbn [play]; [done|].
  destruct (engine_step s i) as [[s' es]|e] eqn:E1; [|by apply IH].
  specialize (IH s'). destruct (play s' inputs) as [final more]. apply IH.
  by eapply reachable_step.
Qed.

Lemma play_finished s inputs :
  engine_finished s = true -> play s inputs = (s, []).
Proof.
  intros Hf. induction inputs as [|i inputs IH]; cbn [play]; [done|].
  pose proof (finished_rejects s i Hf) as Hr. by destruct (engine_step s i).
Qed.

(** A measure that every accepted input decreases bounds their number. *)
Lemma accepted_bounded (measure : S -> nat) s inputs :
  (forall s i s' es, engine_valid s -> engine_input i -> engine_step s i = Ok (s', es) ->
     (measure s' < measure s)%nat) ->
  engine_valid s -> Forall engine_input inputs -> (accepted s inputs <= measure s)%nat.
Proof.
  intros Hm Hv Hin. revert s Hv. induction Hin as [|i inputs Hi _ IH]; intros s Hv; cbn [accepted]; [lia|].
  destruct (engine_step s i) as [[s' es]|e] eqn:E1; [|by apply IH].
  pose proof (Hm s i s' es Hv Hi E1). pose proof (IH s' (step_valid s i s' es Hv Hi E1)). lia.
Qed.
End Sessions.
