(* ===== verification/LiarsDice.v ===== *)
(** * Liar's dice: the authoritative engine

    Model of [games/liars-dice/engine] ([types.go], [config.go], [bid.go],
    [state.go], [errors.go]).  A [*Bid] is an [option Bid], [nil] slices and
    empty slices are both [[]], [Phase] and [BidMode] keep their [uint8] values
    because decoded snapshots may hold any of them.  The properties are in
    [LiarsDiceFacts]. *)

From S2P Require Import Prelude Identifier Dice Roster.

Module LiarsDice.
Import Roster.

(** ** errors.go *)
Inductive ErrorCode :=
| CodeInvalidConfig | CodeInvalidParticipants | CodeInvalidState | CodeMalformedPayload
| CodeNotCurrentActor | CodeActionExpired | CodeBidRequired | CodeBidTooLow | CodeBidNotHigher
| CodeBidQuantityOverflow | CodeInvalidFace | CodeInvalidBidMode | CodeFaceOneMustBeStrict
| CodeStrictDisabled | CodeFlyingDisabled | CodeParticipantInactive | CodeTimerMismatch
| CodeTimerNotDue | CodeSessionFinished | CodePenaltyOverflow | CodeRoundOverflow
| CodeUnsupportedMigration | CodeProjectionUnavailable.

#[global] Instance ErrorCode_eq_dec : EqDecision ErrorCode.
Proof. solve_decision. Defined.

Abbreviation res := (result (RuleError ErrorCode)).

Definition ruleError {A : Type} (code : ErrorCode) (detail : string) : res A :=
  Err (mkRuleError code detail).

(** ** types.go *)
Definition CurrentSchemaVersion : Z := 1.
Definition MinimumPlayers : nat := 2.
Definition MaximumPlayers : nat := 8.
Definition MinimumDicePerPlayer : Z := 3.
Definition MaximumDicePerPlayer : Z := 6.

Definition PhaseRolling : Z := 1.
Definition PhaseBidding : Z := 2.
Definition PhaseRevealing : Z := 3.
Definition PhaseRoundSettled : Z := 4.
Definition PhaseFinished : Z := 5.

Definition BidModeFlying : Z := 1.
Definition BidModeStrict : Z := 2.

Definition SettlementOpened : string := "opened".
Definition SettlementTimeout : string := "timeout".
Definition FinishHostRequested : string := "host_requested".
Definition FinishInsufficientParticipants : string := "insufficient_participants".

Record Config := mkConfig {
  c_DicePerPlayer : Z;
  c_OnesWild : bool;
  c_StrictEnabled : bool;
  c_FlyingEnabled : bool;
  c_FirstBidMinimum : Z;
  c_PenaltyTicks : Z;
  c_ActionTimeoutSeconds : Z;
}.

Record Bid := mkBid {
  b_Quantity : Z;
  b_Face : Z;
  b_Mode : Z;
}.

#[global] Instance Bid_eq_dec : EqDecision Bid.
Proof. solve_decision. Defined.

Record PlayerState := mkPlayer {
  p_UserID : string;
  p_SeatIndex : Z;
  p_Active : bool;
  p_PenaltyTicks : Z;
}.

#[global] Instance PlayerState_eta : Eta PlayerState := fun r =>
  mkPlayer (p_UserID r) (p_SeatIndex r) (p_Active r) (p_PenaltyTicks r).
#[global] Instance PlayerState_inhabited : Inhabited PlayerState :=
  populate (mkPlayer "" 0 false 0).
#[global] Instance PlayerState_seated : Seated PlayerState :=
  {| userOf := p_UserID; seatOf := p_SeatIndex; activeOf := p_Active |}.

Record PrivateRoll := mkRoll {
  r_UserID : string;
  r_Faces : list Z;
}.

Record Settlement := mkSettlement {
  s_Round : Z;
  s_LoserUserID : string;
  s_PenaltyTicks : Z;
  s_ActualQuantity : Z;
  s_Reason : string;
  s_OpenerUserID : string;
  s_Bid : option Bid;
  s_RevealedDice : list PrivateRoll;
}.

Definition zeroSettlement : Settlement := mkSettlement 0 "" 0 0 "" "" None [].

Record State := mkState {
  SchemaVersion : Z;
  Phase : Z;
  Round : Z;
  config : Config;
  Players : list PlayerState;
  FirstActorUserID : string;
  CurrentActorUserID : string;
  LastBidderUserID : string;
  CurrentBid : option Bid;
  ActionDeadlineUnixMillis : Z;
  PrivateDice : list PrivateRoll;
  LastSettlement : Settlement;
  FinishReason : string;
}.

#[global] Instance State_eta : Eta State := fun r =>
  mkState (SchemaVersion r) (Phase r) (Round r) (config r) (Players r) (FirstActorUserID r)
    (CurrentActorUserID r) (LastBidderUserID r) (CurrentBid r) (ActionDeadlineUnixMillis r)
    (PrivateDice r) (LastSettlement r) (FinishReason r).

Record ActionTimer := mkTimer {
  t_Round : Z;
  t_UserID : string;
  t_DeadlineUnixMillis : Z;
}.

Definition EventRoundStarted : string := "round.started".
Definition EventBidPlaced : string := "bid.placed".
Definition EventDiceRevealed : string := "dice.revealed".
Definition EventRoundSettled : string := "round.settled".
Definition EventParticipantRevoked : string := "participant.revoked".
Definition EventSessionFinished : string := "session.finished".

Record Event := mkEvent {
  e_Kind : string;
  e_Round : Z;
  e_UserID : string;
  e_FirstActor : string;
  e_Players : list Participant;
  e_Bid : option Bid;
  e_Dice : list PrivateRoll;
  e_LoserUserID : string;
  e_PenaltyTicks : Z;
  e_NextRound : Z;
  e_ActualQuantity : Z;
  e_Reason : string;
  e_OpenerUserID : string;
}.

#[global] Instance Event_eta : Eta Event := fun r =>
  mkEvent (e_Kind r) (e_Round r) (e_UserID r) (e_FirstActor r) (e_Players r) (e_Bid r) (e_Dice r)
    (e_LoserUserID r) (e_PenaltyTicks r) (e_NextRound r) (e_ActualQuantity r) (e_Reason r)
    (e_OpenerUserID r).

Definition zeroEvent : Event := mkEvent "" 0 "" "" [] None [] "" 0 0 0 "" "".

Definition cloneBid (value : option Bid) : option Bid :=
  match value with
  | None => None
  | Some b => Some (mkBid (b_Quantity b) (b_Face b) (b_Mode b))
  end.

Definition cloneRolls (values : list PrivateRoll) : list PrivateRoll :=
  (fun value => mkRoll (r_UserID value) (r_Faces value)) <$> values.

Definition cloneSettlement (value : Settlement) : Settlement :=
  mkSettlement (s_Round value) (s_LoserUserID value) (s_PenaltyTicks value) (s_ActualQuantity value)
    (s_Reason value) (s_OpenerUserID value) (cloneBid (s_Bid value)) (cloneRolls (s_RevealedDice value)).

Definition Clone (state : State) : State :=
  state <| CurrentBid := cloneBid (CurrentBid state) |>
        <| PrivateDice := cloneRolls (PrivateDice state) |>
        <| LastSettlement := cloneSettlement (LastSettlement state) |>.

(** ** config.go *)
Definition DefaultConfig (playerCount : Z) : Config :=
  mkConfig 5 true true true playerCount Dice.TicksPerUnit 30.

Definition Config_Validate (config : Config) (playerCount : nat) : res unit :=
  if (playerCount <? MinimumPlayers)%nat || (MaximumPlayers <? playerCount)%nat
     || (c_DicePerPlayer config <? MinimumDicePerPlayer)
     || (MaximumDicePerPlayer <? c_DicePerPlayer config)
     || (c_FirstBidMinimum config =? 0) || (Z.of_nat playerCount <? c_FirstBidMinimum config)
     || (c_PenaltyTicks config <? Dice.TicksPerUnit / 2)
     || (Dice.TicksPerUnit * 2 <? c_PenaltyTicks config)
     || c_FlyingEnabled config && negb (c_StrictEnabled config)
     || negb (c_ActionTimeoutSeconds config =? 0)
        && ((c_ActionTimeoutSeconds config <? 10) || (120 <? c_ActionTimeoutSeconds config))
  then ruleError CodeInvalidConfig "configuration is outside frozen rules"
  else Ok tt.

Definition rosterDetail (fault : RosterFault) : string :=
  match fault with
  | FaultCount => "participant count is unsupported"
  | FaultIdentity => "participant identity is invalid"
  | FaultDuplicateUser => "participant identity is duplicated"
  | FaultDuplicateSeat => "participant seat is duplicated"
  end.

Definition ValidateParticipants (participants : list Participant) : res unit :=
  match checkRoster MinimumPlayers MaximumPlayers participants with
  | Ok _ => Ok tt
  | Err fault => ruleError CodeInvalidParticipants (rosterDetail fault)
  end.

Definition canonicalParticipants (participants : list Participant) : res (list Participant) :=
  let* _ := ValidateParticipants participants in
  Ok (bySeat participants).

(** ** bid.go *)
Definition bidAtLeast (next anchor : Bid) (equalityAllowed : bool) : bool :=
  if b_Quantity anchor <? b_Quantity next then true
  else if b_Quantity next <? b_Quantity anchor then false
  else if equalityAllowed then b_Face anchor <=? b_Face next
  else b_Face anchor <? b_Face next.

(** The well-formedness test repeated in [ValidateBid], [Validate] and
    [validateSettlement]. *)
Definition bidMalformed (config : Config) (bid : Bid) : bool :=
  (b_Quantity bid =? 0) || (b_Face bid <? 1) || (6 <? b_Face bid)
  || negb (b_Mode bid =? BidModeFlying) && negb (b_Mode bid =? BidModeStrict)
  || (b_Mode bid =? BidModeStrict) && negb (c_StrictEnabled config)
  || (b_Face bid =? 1) && negb (b_Mode bid =? BidModeStrict).

Definition ValidateBid (config : Config) (previous : option Bid) (next : Bid) : res unit :=
  if b_Quantity next =? 0 then ruleError CodeBidTooLow "quantity must be positive"
  else if (b_Face next <? 1) || (6 <? b_Face next)
  then ruleError CodeInvalidFace "face must be between one and six"
  else if negb (b_Mode next =? BidModeFlying) && negb (b_Mode next =? BidModeStrict)
  then ruleError CodeInvalidBidMode "bid mode is unknown"
  else if (b_Mode next =? BidModeStrict) && negb (c_StrictEnabled config)
  then ruleError CodeStrictDisabled "strict bids are disabled"
  else if (b_Face next =? 1) && negb (b_Mode next =? BidModeStrict)
  then ruleError CodeFaceOneMustBeStrict "face one cannot be flying"
  else match previous with
  | None =>
      if b_Quantity next <? c_FirstBidMinimum config
      then ruleError CodeBidTooLow "first bid is below the frozen minimum"
      else Ok tt
  | Some previous =>
      if bidMalformed config previous then ruleError CodeInvalidState "previous bid is invalid"
      else if b_Mode previous =? b_Mode next then
        if bidAtLeast next previous false then Ok tt
        else ruleError CodeBidNotHigher "same-mode bid did not increase"
      else
        let* quantity :=
          if b_Mode previous =? BidModeStrict then
            if negb (c_FlyingEnabled config)
            then ruleError CodeFlyingDisabled "strict-to-flying conversion is disabled"
            else if b_Face previous =? 1
            then ruleError CodeBidNotHigher "face one strict cannot switch directly to flying"
            else if maxUint32 / 2 <? b_Quantity previous
            then ruleError CodeBidQuantityOverflow "strict-to-flying anchor overflows uint32"
            else Ok (u32 (b_Quantity previous * 2))
          else Ok (u32 (b_Quantity previous / 2 + 1)) in
        let anchor := mkBid quantity (b_Face previous) (b_Mode next) in
        if bidAtLeast next anchor true then Ok tt
        else ruleError CodeBidNotHigher "mode-switch bid is below its conversion anchor"
  end.

(** The face test of [CountBid]'s inner loop. *)
Definition countsFor (config : Config) (bid : Bid) (face : Z) : bool :=
  (face =? b_Face bid)
  || (b_Mode bid =? BidModeFlying) && c_OnesWild config && negb (b_Face bid =? 1) && (face =? 1).

Definition CountBid (state : State) (bid : Bid) : Z :=
  let active := p_UserID <$> List.filter p_Active (Players state) in
  foldl (fun count roll =>
           if bool_decide (r_UserID roll ∈ active)
           then foldl (fun count face =>
                         if countsFor (config state) bid face then u32 (count + 1) else count)
                      count (r_Faces roll)
           else count)
        0 (PrivateDice state).

(** ** state.go *)
Definition validUnixMillis (value : Z) : bool := 0 <? value.

Definition deadlineUnixMillis (config : Config) (nowUnixMillis : Z) : res Z :=
  if c_ActionTimeoutSeconds config =? 0 then Ok 0
  else
    let offset := c_ActionTimeoutSeconds config * 1000 in
    if maxInt64 - offset <? nowUnixMillis
    then ruleError CodeInvalidState "action deadline overflows unix milliseconds"
    else Ok (nowUnixMillis + offset).

Definition nextActiveUser (state : State) (current : string) : res string :=
  match playerIndex (Players state) current with
  | None => ruleError CodeInvalidState "turn anchor is not frozen"
  | Some currentIndex =>
      match firstActive (Players state) (forwardIndexes currentIndex (length (Players state))) with
      | Some userID => Ok userID
      | None => ruleError CodeInvalidState "no active turn successor exists"
      end
  end.

Definition removeRoll (values : list PrivateRoll) (userID : string) : list PrivateRoll :=
  cloneRolls (List.filter (fun value => negb (String.eqb (r_UserID value) userID)) values).

Definition finishState (state : State) (reason : string) : State * Event :=
  (state <| Phase := PhaseFinished |>
         <| FinishReason := reason |>
         <| CurrentActorUserID := ""%string |>
         <| ActionDeadlineUnixMillis := 0 |>
         <| PrivateDice := [] |>,
   zeroEvent <| e_Kind := EventSessionFinished |>
             <| e_Round := Round state |>
             <| e_Reason := reason |>).

(** The roll loops of [Validate] and [validateSettlement]: [seen] is the map of
    users met so far, [owned] the ownership test. *)
Fixpoint rollsFault (config : Config) (owned : string -> bool) (seen : list string)
    (rolls : list PrivateRoll) : option nat :=
  match rolls with
  | [] => None
  | roll :: rest =>
      if negb (owned (r_UserID roll))
         || negb (Z.of_nat (length (r_Faces roll)) =? c_DicePerPlayer config)
      then Some 0%nat
      else if bool_decide (r_UserID roll ∈ seen) then Some 1%nat
      else if negb (forallb Dice.Face_Valid (r_Faces roll)) then Some 2%nat
      else rollsFault config owned (r_UserID roll :: seen) rest
  end.

Definition privateRollDetail (fault : nat) : string :=
  match fault with
  | 0%nat => "private roll ownership or size is invalid"
  | 1%nat => "private roll is duplicated"
  | _ => "private roll contains an invalid face"
  end.

Definition revealedRollDetail (fault : nat) : string :=
  match fault with
  | 0%nat => "revealed roll ownership or size is invalid"
  | 1%nat => "revealed roll is duplicated"
  | _ => "revealed roll contains an invalid face"
  end.

Definition is_none {A : Type} (o : option A) : bool :=
  match o with None => true | Some _ => false end.

Definition validateSettlement (state : State) : res unit :=
  let settlement := LastSettlement state in
  if s_Round settlement =? 0 then
    if negb (String.eqb (s_LoserUserID settlement) "") || negb (s_PenaltyTicks settlement =? 0)
       || negb (s_ActualQuantity settlement =? 0) || negb (String.eqb (s_Reason settlement) "")
       || negb (String.eqb (s_OpenerUserID settlement) "") || negb (is_none (s_Bid settlement))
       || negb (length (s_RevealedDice settlement) =? 0)%nat
    then ruleError CodeInvalidState "empty settlement retains result data"
    else Ok tt
  else if negb (u32 (s_Round settlement + 1) =? Round state)
     || String.eqb (s_LoserUserID settlement) ""
     || negb (s_PenaltyTicks settlement =? c_PenaltyTicks (config state))
     || negb (String.eqb (s_Reason settlement) SettlementOpened)
        && negb (String.eqb (s_Reason settlement) SettlementTimeout)
     || String.eqb (s_Reason settlement) SettlementOpened
        && (is_none (s_Bid settlement) || String.eqb (s_OpenerUserID settlement) ""
            || (length (s_RevealedDice settlement) =? 0)%nat)
     || String.eqb (s_Reason settlement) SettlementTimeout
        && (negb (String.eqb (s_OpenerUserID settlement) "")
            || negb (s_ActualQuantity settlement =? 0)
            || negb (length (s_RevealedDice settlement) =? 0)%nat)
  then ruleError CodeInvalidState "last settlement is malformed"
  else if negb (isFrozen (Players state) (s_LoserUserID settlement))
  then ruleError CodeInvalidState "last settlement loser is not frozen"
  else if negb (String.eqb (s_OpenerUserID settlement) "")
          && negb (isFrozen (Players state) (s_OpenerUserID settlement))
  then ruleError CodeInvalidState "last settlement opener is not frozen"
  else if match s_Bid settlement with
          | Some bid => bidMalformed (config state) bid
          | None => false
          end
  then ruleError CodeInvalidState "last settlement bid is malformed"
  else match rollsFault (config state) (isFrozen (Players state)) [] (s_RevealedDice settlement) with
       | Some fault => ruleError CodeInvalidState (revealedRollDetail fault)
       | None => Ok tt
       end.

Definition Validate (state : State) : res unit :=
  if negb (SchemaVersion state =? CurrentSchemaVersion) || (Round state =? 0)
     || negb (Phase state =? PhaseBidding) && negb (Phase state =? PhaseFinished)
     || (length (Players state) <? MinimumPlayers)%nat
     || (MaximumPlayers <? length (Players state))%nat
  then ruleError CodeInvalidState "state header is invalid"
  else if seatsOutOfOrder (Players state)
  then ruleError CodeInvalidState "players are not in canonical seat order"
  else if negb (is_ok (ValidateParticipants (participantOf <$> Players state)))
          || negb (is_ok (Config_Validate (config state) (length (Players state))))
  then ruleError CodeInvalidState "frozen participants or configuration is invalid"
  else
    let* _ := validateSettlement state in
    if negb (isFrozen (Players state) (FirstActorUserID state))
    then ruleError CodeInvalidState "first actor is not frozen"
    else if is_none (CurrentBid state) && negb (String.eqb (LastBidderUserID state) "")
            || negb (is_none (CurrentBid state)) && String.eqb (LastBidderUserID state) ""
    then ruleError CodeInvalidState "current bid and bidder disagree"
    else if negb (String.eqb (LastBidderUserID state) "")
            && negb (isFrozen (Players state) (LastBidderUserID state))
    then ruleError CodeInvalidState "last bidder is not frozen"
    else if match CurrentBid state with
            | Some bid => bidMalformed (config state) bid
            | None => false
            end
    then ruleError CodeInvalidState "current bid is malformed"
    else if Phase state =? PhaseFinished then
      if String.eqb (FinishReason state) "" || negb (String.eqb (CurrentActorUserID state) "")
         || negb (ActionDeadlineUnixMillis state =? 0) || negb (length (PrivateDice state) =? 0)%nat
      then ruleError CodeInvalidState "finished state retains live turn data"
      else Ok tt
    else if negb (String.eqb (FinishReason state) "")
    then ruleError CodeInvalidState "bidding state carries a finish reason"
    else if (activeCount (Players state) <? MinimumPlayers)%nat
    then ruleError CodeInvalidState "bidding state has insufficient active players"
    else if negb (isActive (Players state) (CurrentActorUserID state))
    then ruleError CodeInvalidState "current actor is not active"
    else if (c_ActionTimeoutSeconds (config state) =? 0) && negb (ActionDeadlineUnixMillis state =? 0)
            || negb (c_ActionTimeoutSeconds (config state) =? 0)
               && (ActionDeadlineUnixMillis state <=? 0)
    then ruleError CodeInvalidState "deadline does not match timer configuration"
    else if negb (length (PrivateDice state) =? activeCount (Players state))%nat
    then ruleError CodeInvalidState "private rolls do not match active players"
    else match rollsFault (config state) (isActive (Players state)) [] (PrivateDice state) with
         | Some fault => ruleError CodeInvalidState (privateRollDetail fault)
         | None => Ok tt
         end.

(** The stream identifier of [startRound]'s dice loop. *)
Definition streamOf (round seat : Z) : Z := Z.lor (u64 (Z.shiftl round 32)) seat.

(** One iteration of [startRound]'s dice loop. *)
Definition rollFor (seed : list Z) (round dicePerPlayer : Z) (player : PlayerState) : res PrivateRoll :=
  match Dice.Roll seed (streamOf round (p_SeatIndex player)) dicePerPlayer with
  | Err _ => ruleError CodeInvalidState "deterministic dice generation failed"
  | Ok faces => Ok (mkRoll (p_UserID player) faces)
  end.

Definition startRound (state : State) (round : Z) (first : string) (nowUnixMillis : Z) (seed : list Z)
  : res (State * Event) :=
  if negb (isActive (Players state) first)
  then ruleError CodeInvalidState "round starter is not active"
  else
    let next := (Clone state) <| SchemaVersion := CurrentSchemaVersion |>
                            <| Phase := PhaseBidding |>
                            <| Round := round |>
                            <| FirstActorUserID := first |>
                            <| CurrentActorUserID := first |>
                            <| LastBidderUserID := ""%string |>
                            <| CurrentBid := None |> in
    let* actionDeadline := deadlineUnixMillis (config next) nowUnixMillis in
    let* rolls := map_result (rollFor seed round (c_DicePerPlayer (config next)))
                             (List.filter p_Active (Players next)) in
    Ok (next <| ActionDeadlineUnixMillis := actionDeadline |>
             <| PrivateDice := rolls |>,
        zeroEvent <| e_Kind := EventRoundStarted |>
                  <| e_Round := round |>
                  <| e_FirstActor := first |>).

(** The loop of [NewState] that finds the starting participant. *)
Fixpoint startingUser (participants : list Participant) (startingSeat : Z) (first : string) : string :=
  match participants with
  | [] => first
  | p :: rest =>
      startingUser rest startingSeat (if SeatIndex p =? startingSeat then UserID p else first)
  end.

Definition newPlayer (p : Participant) : PlayerState := mkPlayer (UserID p) (SeatIndex p) true 0.

Definition NewState (cfg : Config) (participants : list Participant) (startingSeat nowUnixMillis : Z)
    (seed : list Z) : res (State * list Event) :=
  let* canonical := canonicalParticipants participants in
  let* _ := Config_Validate cfg (length canonical) in
  if negb (validUnixMillis nowUnixMillis)
  then ruleError CodeInvalidState "deterministic time is required"
  else
    let players := newPlayer <$> canonical in
    let first := startingUser canonical startingSeat "" in
    if String.eqb first ""
    then ruleError CodeInvalidParticipants "starting seat is not frozen in the session"
    else
      let state := mkState CurrentSchemaVersion PhaseRolling 1 cfg players "" "" "" None 0 []
                     zeroSettlement "" in
      let* '(state, event) := startRound state 1 first nowUnixMillis seed in
      Ok (state, [event <| e_Players := canonical |>]).

Definition validateAction (state : State) (actor : string) (nowUnixMillis : Z) : res Z :=
  let* _ := Validate state in
  if Phase state =? PhaseFinished
  then ruleError CodeSessionFinished "session no longer accepts actions"
  else if negb (String.eqb (CurrentActorUserID state) actor)
  then ruleError CodeNotCurrentActor "actor does not own the current turn"
  else if negb (validUnixMillis nowUnixMillis)
  then ruleError CodeInvalidState "deterministic time is required"
  else if negb (ActionDeadlineUnixMillis state =? 0) && (ActionDeadlineUnixMillis state <=? nowUnixMillis)
  then ruleError CodeActionExpired "turn deadline has elapsed"
  else Ok nowUnixMillis.

Definition PlaceBid (state : State) (actor : string) (bid : Bid) (nowUnixMillis : Z)
  : res (State * list Event) :=
  let* nowUnixMillis := validateAction state actor nowUnixMillis in
  let* _ := ValidateBid (config state) (CurrentBid state) bid in
  let next := Clone state in
  let* nextActor := nextActiveUser next actor in
  let next := next <| CurrentBid := cloneBid (Some bid) |>
                   <| LastBidderUserID := actor |>
                   <| CurrentActorUserID := nextActor |> in
  let* actionDeadline := deadlineUnixMillis (config next) nowUnixMillis in
  Ok (next <| ActionDeadlineUnixMillis := actionDeadline |>,
      [zeroEvent <| e_Kind := EventBidPlaced |>
                 <| e_Round := Round state |>
                 <| e_UserID := actor |>
                 <| e_Bid := cloneBid (Some bid) |>]).

Definition settleAndRestart (state : State) (loser reason opener : string) (actual : Z) (reveal : bool)
    (nowUnixMillis : Z) (seed : list Z) : res (State * list Event) :=
  let next := Clone state in
  match playerIndex (Players next) loser with
  | None => ruleError CodeInvalidState "settlement loser is not frozen"
  | Some index =>
      let player := Players next !!! index in
      match Dice.Ticks_Add (p_PenaltyTicks player) (c_PenaltyTicks (config next)) with
      | Err _ => ruleError CodePenaltyOverflow "penalty ticks overflow"
      | Ok penalty =>
          let next := next <| Players := <[index := player <| p_PenaltyTicks := penalty |>]> (Players next) |> in
          let revealed := if reveal then cloneRolls (PrivateDice state) else [] in
          let next := next <| LastSettlement :=
                mkSettlement (Round state) loser (c_PenaltyTicks (config next)) actual reason opener
                  (cloneBid (CurrentBid state)) revealed |> in
          if Round state =? maxUint32
          then ruleError CodeRoundOverflow "round counter cannot advance"
          else
            let* first := if negb (p_Active (Players next !!! index))
                          then nextActiveUser next loser
                          else Ok loser in
            let events :=
              (if reveal
               then [zeroEvent <| e_Kind := EventDiceRevealed |>
                               <| e_Round := Round state |>
                               <| e_Dice := cloneRolls revealed |>]
               else []) ++
              [zeroEvent <| e_Kind := EventRoundSettled |>
                         <| e_Round := Round state |>
                         <| e_LoserUserID := loser |>
                         <| e_PenaltyTicks := c_PenaltyTicks (config next) |>
                         <| e_NextRound := u32 (Round state + 1) |>
                         <| e_ActualQuantity := actual |>
                         <| e_Reason := reason |>
                         <| e_OpenerUserID := opener |>
                         <| e_Bid := cloneBid (CurrentBid state) |>] in
            let* '(next, started) := startRound next (u32 (Round state + 1)) first nowUnixMillis seed in
            Ok (next, events ++ [started])
      end
  end.

Definition OpenDice (state : State) (actor : string) (nowUnixMillis : Z) (seed : list Z)
  : res (State * list Event) :=
  let* nowUnixMillis := validateAction state actor nowUnixMillis in
  match CurrentBid state with
  | None => ruleError CodeBidRequired "open requires a previous bid"
  | Some bid =>
      if String.eqb (LastBidderUserID state) ""
      then ruleError CodeBidRequired "open requires a previous bid"
      else
        let actual := CountBid state bid in
        let loser := if b_Quantity bid <=? actual then actor else LastBidderUserID state in
        settleAndRestart state loser SettlementOpened actor actual true nowUnixMillis seed
  end.

Definition HandleTimeout (state : State) (timer : ActionTimer) (nowUnixMillis : Z) (seed : list Z)
  : res (State * list Event) :=
  let* _ := Validate state in
  if Phase state =? PhaseFinished
  then ruleError CodeSessionFinished "session no longer accepts timers"
  else if negb (validUnixMillis nowUnixMillis)
  then ruleError CodeInvalidState "deterministic time is required"
  else if negb (t_Round timer =? Round state)
          || negb (String.eqb (t_UserID timer) (CurrentActorUserID state))
          || (t_DeadlineUnixMillis timer =? 0)
          || negb (t_DeadlineUnixMillis timer =? ActionDeadlineUnixMillis state)
  then ruleError CodeTimerMismatch "timer does not match the current turn"
  else if nowUnixMillis <? ActionDeadlineUnixMillis state
  then ruleError CodeTimerNotDue "timer fired before its persisted deadline"
  else settleAndRestart state (CurrentActorUserID state) SettlementTimeout "" 0 false nowUnixMillis seed.

Definition RevokeParticipant (state : State) (userID : string) (nowUnixMillis : Z) (seed : list Z)
  : res (State * list Event) :=
  let* _ := Validate state in
  if Phase state =? PhaseFinished
  then ruleError CodeSessionFinished "session no longer accepts participant changes"
  else if negb (validUnixMillis nowUnixMillis)
  then ruleError CodeInvalidState "deterministic time is required"
  else
    let next := Clone state in
    match playerIndex (Players next) userID with
    | None => ruleError CodeParticipantInactive "participant is absent or already inactive"
    | Some index =>
        let player := Players next !!! index in
        if negb (p_Active player)
        then ruleError CodeParticipantInactive "participant is absent or already inactive"
        else
          let wasCurrent := String.eqb (CurrentActorUserID next) userID in
          let next := next <| Players := <[index := player <| p_Active := false |>]> (Players next) |>
                           <| PrivateDice := removeRoll (PrivateDice next) userID |> in
          let events := [zeroEvent <| e_Kind := EventParticipantRevoked |>
                                   <| e_Round := Round state |>
                                   <| e_UserID := userID |>] in
          if (activeCount (Players next) <? MinimumPlayers)%nat then
            let '(finished, finishEvent) := finishState next FinishInsufficientParticipants in
            Ok (finished, events ++ [finishEvent])
          else if negb wasCurrent then Ok (next, events)
          else if Round next =? maxUint32
          then ruleError CodeRoundOverflow "round counter cannot advance"
          else
            let* first := nextActiveUser next userID in
            let next := next <| LastSettlement := zeroSettlement |> in
            let* '(next, started) := startRound next (u32 (Round next + 1)) first nowUnixMillis seed in
            Ok (next, events ++ [started])
    end.

Definition Finish (state : State) (reason : string) : res (State * list Event) :=
  let* _ := Validate state in
  if Phase state =? PhaseFinished
  then ruleError CodeSessionFinished "session is already finished"
  else
    let reason := if String.eqb reason "" then FinishHostRequested else reason in
    let '(finished, event) := finishState (Clone state) reason in
    Ok (finished, [event]).

Definition CurrentTimer (state : State) : option ActionTimer :=
  if negb (Phase state =? PhaseBidding) || (ActionDeadlineUnixMillis state =? 0) then None
  else Some (mkTimer (Round state) (CurrentActorUserID state) (ActionDeadlineUnixMillis state)).

(** ** Sessions

    One input of the session runtime; [step] dispatches it the way
    [module.go] does. *)
Inductive Input :=
| InPlaceBid (actor : string) (bid : Bid) (now : Z)
| InOpenDice (actor : string) (now : Z) (seed : list Z)
| InTimeout (timer : ActionTimer) (now : Z) (seed : list Z)
| InRevoke (userID : string) (now : Z) (seed : list Z)
| InFinish (reason : string).

Definition step (state : State) (input : Input) : res (State * list Event) :=
  match input with
  | InPlaceBid actor bid now => PlaceBid state actor bid now
  | InOpenDice actor now seed => OpenDice state actor now seed
  | InTimeout timer now seed => HandleTimeout state timer now seed
  | InRevoke userID now seed => RevokeParticipant state userID now seed
  | InFinish reason => Finish state reason
  end.

End LiarsDice.
