(* ===== verification/LiarsDiceFacts.v ===== *)
(** * Liar's dice: properties of the engine *)

From S2P Require Import Prelude Identifier Dice Roster Engine LiarsDice.

Module LiarsDiceFacts.
Import Roster LiarsDice.

(** ** Clones are values *)
Lemma cloneBid_id b : cloneBid b = b.
Proof. by destruct b as [[]|]. Qed.

Lemma cloneRolls_id l : cloneRolls l = l.
Proof. unfold cloneRolls. induction l as [|[] l IH]; cbn; [done|]. by f_equal. Qed.

Lemma Clone_id s : Clone s = s.
Proof.
  destruct s as [? ? ? ? ? ? ? ? ? ? ? [] ?]. unfold Clone, cloneSettlement. cbn.
  by rewrite !cloneBid_id, !cloneRolls_id.
Qed.
#[export] Hint Rewrite Clone_id cloneBid_id cloneRolls_id : values.


(** ** The validity of a snapshot as a proposition *)
Lemma ValidateParticipants_iff ps :
  ValidateParticipants ps = Ok tt <-> ValidRoster MinimumPlayers MaximumPlayers ps.
Proof.
  unfold ValidateParticipants. rewrite <- checkRoster_iff.
  destruct (checkRoster _ _ ps) as [[]|f]; split; done.
Qed.

(** A set of rolls, each owned by a distinct accepted user. *)
Record ValidRolls (cfg : Config) (owned : string -> bool) (rolls : list PrivateRoll) : Prop := {
  rolls_owned : Forall (fun r => owned (r_UserID r) = true) rolls;
  rolls_size : Forall (fun r => Z.of_nat (length (r_Faces r)) = c_DicePerPlayer cfg) rolls;
  rolls_faces : Forall (fun r => forallb Dice.Face_Valid (r_Faces r) = true) rolls;
  rolls_users : NoDup (r_UserID <$> rolls);
}.

Lemma rollsFault_None cfg owned seen rolls :
  rollsFault cfg owned seen rolls = None <->
  ValidRolls cfg owned rolls /\ Forall (fun r => r_UserID r ∉ seen) rolls.
Proof.
  revert seen. induction rolls as [|r rolls IH]; intros seen; cbn [rollsFault].
  - split; [|done]. intros _. split; repeat constructor.
  - split.
    + destruct (_ || _) eqn:E1; [done|]. case_bool_decide as E2; [done|].
      destruct (forallb _ _) eqn:E3; cbn [negb]; [|done].
      intros [[H1 H2 H3 H4] H5]%IH. to_prop. rewrite Forall_forall in H5. split.
      * split; try by constructor. cbn. constructor; [|done].
        intros (q & Hq & Hin)%list_elem_of_fmap. apply (H5 q Hin). rewrite Hq. constructor.
      * constructor; [done|]. apply Forall_forall. intros q Hq Hin. apply (H5 q Hq). by constructor.
    + intros [[H1 H2 H3 H4] H5].
      apply Forall_cons in H1 as [H1 H1'], H2 as [H2 H2'], H3 as [H3 H3'], H5 as [H5 H5'].
      cbn in H4. apply NoDup_cons in H4 as [H4 H4'].
      rewrite H1, (proj2 (Z.eqb_eq _ _) H2), H3. cbn [negb orb].
      rewrite bool_decide_eq_false_2 by done. apply IH. split; [by split|].
      apply Forall_forall. intros q Hq. rewrite Forall_forall in H5'.
      rewrite not_elem_of_cons. split; [|by apply H5'].
      intros Heq. apply H4. rewrite <- Heq. by apply list_elem_of_fmap_2.
Qed.

Definition BidderAgrees (s : State) : Prop :=
  match CurrentBid s with
  | None => LastBidderUserID s = ""%string
  | Some b => LastBidderUserID s <> ""%string /\ frozenUser (Players s) (LastBidderUserID s) /\
              bidMalformed (config s) b = false
  end.

Record Finished (s : State) : Prop := {
  fin_reason : FinishReason s <> ""%string;
  fin_actor : CurrentActorUserID s = ""%string;
  fin_deadline : ActionDeadlineUnixMillis s = 0;
  fin_dice : PrivateDice s = [];
}.

Definition DeadlineMatches (s : State) : Prop :=
  (c_ActionTimeoutSeconds (config s) = 0 -> ActionDeadlineUnixMillis s = 0) /\
  (c_ActionTimeoutSeconds (config s) <> 0 -> 0 < ActionDeadlineUnixMillis s).

Record Bidding (s : State) : Prop := {
  bid_reason : FinishReason s = ""%string;
  bid_active : (MinimumPlayers <= activeCount (Players s))%nat;
  bid_actor : isActive (Players s) (CurrentActorUserID s) = true;
  bid_deadline : DeadlineMatches s;
  bid_count : length (PrivateDice s) = activeCount (Players s);
  bid_rolls : ValidRolls (config s) (isActive (Players s)) (PrivateDice s);
}.

Record WellFormed (s : State) : Prop := {
  wf_schema : SchemaVersion s = CurrentSchemaVersion;
  wf_round : Round s <> 0;
  wf_roster : ValidRoster MinimumPlayers MaximumPlayers (participantOf <$> Players s);
  wf_order : StronglySorted (fun x y => seatOf x < seatOf y) (Players s);
  wf_config : Config_Validate (config s) (length (Players s)) = Ok tt;
  wf_settlement : validateSettlement s = Ok tt;
  wf_first : frozenUser (Players s) (FirstActorUserID s);
  wf_bidder : BidderAgrees s;
  wf_phase : Phase s = PhaseBidding /\ Bidding s \/ Phase s = PhaseFinished /\ Finished s;
}.

Lemma wf_users s : WellFormed s -> NoDup (userOf <$> Players s).
Proof.
  intros [_ _ [_ _ Hu _] _ _ _ _ _ _]. by rewrite <- list_fmap_compose in Hu.
Qed.

Lemma rolls_check (code : ErrorCode) (detail : nat -> string) (fault : option nat) :
  match fault with Some f => ruleError code (detail f) | None => Ok tt end = Ok tt <-> fault = None.
Proof. by destruct fault. Qed.

(** One early return of [Validate] that does not fire. *)
Ltac pass_check :=
  match goal with
  | |- (if ?c then _ else _) = Ok tt =>
      let E := fresh "E" in destruct c eqn:E; [exfalso|clear E]
  end.

Lemma Validate_sound s : Validate s = Ok tt -> WellFormed s.
Proof.
  unfold Validate. intros H. do 3 inv_result H.
  destruct (validateSettlement s) as [[]|] eqn:Hset; cbn [bind_result] in H; [|done].
  do 4 inv_result H. apply orb_false_elim in E1 as [E1 E1'].
  apply negb_false_iff, is_ok_unit in E1, E1'. apply ValidateParticipants_iff in E1.
  apply negb_false_iff, isFrozen_iff in E2. apply seatsOutOfOrder_false in E0.
  assert (Hb : BidderAgrees s).
  { unfold BidderAgrees. destruct (CurrentBid s); bool_cases; try done;
      (split_and!; try done); by apply isFrozen_iff. }
  assert (Hph : Phase s = PhaseBidding \/ Phase s = PhaseFinished).
  { clear -E. bool_cases; auto. }
  assert (SchemaVersion s = CurrentSchemaVersion /\ Round s <> 0) as [Hv Hr].
  { clear -E. by bool_cases. }
  split; try done. clear E E3 E4 E5.
  destruct Hph as [Hph|Hph]; rewrite Hph in H;
    cbn [Z.eqb PhaseBidding PhaseFinished Pos.eqb] in H; [left|right]; (split; [done|]).
  - do 5 inv_result H. apply rolls_check, rollsFault_None in H as [Hro _].
    split; try done; bool_cases; try done; split; intros; lia.
  - inv_result H. bool_cases. split; try done. by destruct (PrivateDice s).
Qed.

Lemma Validate_complete s : WellFormed s -> Validate s = Ok tt.
Proof.
  intros Hwf. pose proof Hwf as [Hv Hr Hro Ho Hc Hs Hf Hb Hp]. unfold Validate.
  pose proof (roster_count _ _ _ Hro) as Hlen. rewrite length_fmap in Hlen.
  pass_check. { bool_cases; try lia; try done; destruct Hp as [[? _]|[? _]]; done. }
  pass_check. { apply seatsOutOfOrder_false in Ho. congruence. }
  pass_check. { bool_cases; [|by rewrite Hc in *].
    apply ValidateParticipants_iff in Hro. by rewrite Hro in *. }
  rewrite Hs. cbn [bind_result].
  pass_check. { to_prop. apply isFrozen_iff in Hf. congruence. }
  assert (Hb' : match CurrentBid s with
    | None => LastBidderUserID s = ""%string
    | Some b => LastBidderUserID s <> ""%string /\
                isFrozen (Players s) (LastBidderUserID s) = true /\ bidMalformed (config s) b = false
    end).
  { unfold BidderAgrees in Hb. destruct (CurrentBid s); [by rewrite isFrozen_iff|done]. }
  do 3 (pass_check; [destruct (CurrentBid s); cbn [is_none negb] in *; bool_cases; (done || congruence)|]).
  destruct Hp as [[-> [H1 H2 H3 H4 H5 H6]]|[-> [H1 H2 H3 H4]]]; cbn [Z.eqb PhaseBidding PhaseFinished Pos.eqb].
  - pass_check. { by bool_cases. }
    pass_check. { bool_cases. lia. }
    pass_check. { bool_cases. congruence. }
    pass_check. { destruct H4. bool_cases; lia. }
    pass_check. { by bool_cases. }
    apply rolls_check, rollsFault_None. split; [done|].
    apply Forall_forall. intros r _. apply not_elem_of_nil.
  - pass_check; [|done]. rewrite H4 in E. by bool_cases.
Qed.

Lemma Validate_WellFormed s : Validate s = Ok tt <-> WellFormed s.
Proof. split; [apply Validate_sound|apply Validate_complete]. Qed.

(** ** What the operations keep *)

(** The frozen part of a session: participants and configuration. *)
Record Frozen (s : State) : Prop := {
  fz_roster : ValidRoster MinimumPlayers MaximumPlayers (participantOf <$> Players s);
  fz_order : StronglySorted (fun x y => seatOf x < seatOf y) (Players s);
  fz_config : Config_Validate (config s) (length (Players s)) = Ok tt;
}.

Definition same_frozen (s s' : State) : Prop :=
  participantOf <$> Players s' = participantOf <$> Players s /\ config s' = config s.

Lemma wf_Frozen s : WellFormed s -> Frozen s.
Proof. by intros []. Qed.

Lemma fz_users s : Frozen s -> NoDup (userOf <$> Players s).
Proof. intros [[_ _ Hu _] _ _]. by rewrite <- list_fmap_compose in Hu. Qed.

Lemma same_frozen_Frozen s s' : same_frozen s s' -> Frozen s -> Frozen s'.
Proof.
  intros [Hp Hc] [Hr Ho Hv]. split.
  - by rewrite Hp.
  - apply order_seats. rewrite (participants_seats _ _ Hp). by apply order_seats.
  - rewrite Hc. apply (f_equal length) in Hp. rewrite !length_fmap in Hp. by rewrite Hp.
Qed.

Lemma same_frozen_trans s1 s2 s3 : same_frozen s1 s2 -> same_frozen s2 s3 -> same_frozen s1 s3.
Proof. intros [? ?] [? ?]. split; congruence. Qed.

(** Updating a player without touching its identity keeps the roster. *)
Lemma same_participants_insert (l : list PlayerState) i p q :
  l !! i = Some p -> p_UserID q = p_UserID p -> p_SeatIndex q = p_SeatIndex p ->
  participantOf <$> <[i := q]> l = participantOf <$> l.
Proof.
  intros Hi Hu Hs. apply (fmap_insert_same participantOf _ _ p); [done|].
  unfold participantOf. cbn. by rewrite Hu, Hs.
Qed.

Lemma frozen_nonempty s u : Frozen s -> frozenUser (Players s) u -> u <> ""%string.
Proof.
  intros [[_ Hv _ _] _ _] (p & Hp & Hu). rewrite Forall_forall in Hv. rewrite <- Hu.
  apply (validIdentity_nonempty (participantOf p)), Hv. by apply list_elem_of_fmap_2.
Qed.

Lemma rollsFault_ext cfg owned owned' seen rolls :
  (forall u, owned u = owned' u) -> rollsFault cfg owned seen rolls = rollsFault cfg owned' seen rolls.
Proof.
  intros H. revert seen. induction rolls as [|r rolls IH]; intros seen; cbn [rollsFault]; [done|].
  by rewrite H, IH.
Qed.

(** Settlement validity only looks at the settlement, the round, the
    configuration and the frozen users. *)
Lemma validateSettlement_frame s s' :
  LastSettlement s' = LastSettlement s -> Round s' = Round s -> config s' = config s ->
  userOf <$> Players s' = userOf <$> Players s ->
  validateSettlement s' = validateSettlement s.
Proof.
  intros Hl Hr Hc Hu. unfold validateSettlement. rewrite Hl, Hr, Hc.
  rewrite !(isFrozen_users _ _ _ Hu).
  by rewrite (rollsFault_ext _ _ (isFrozen (Players s)) _ _ (fun u => isFrozen_users _ _ u Hu)).
Qed.

Lemma validateSettlement_zero s :
  LastSettlement s = zeroSettlement -> validateSettlement s = Ok tt.
Proof. intros H. unfold validateSettlement. by rewrite H. Qed.

(** ** Starting a round *)
Lemma startRound_inv s round first now seed s' ev :
  startRound s round first now seed = Ok (s', ev) ->
  isActive (Players s) first = true /\
  exists deadline rolls,
    deadlineUnixMillis (config s) now = Ok deadline /\
    map_result (rollFor seed round (c_DicePerPlayer (config s))) (List.filter p_Active (Players s))
      = Ok rolls /\
    s' = mkState CurrentSchemaVersion PhaseBidding round (config s) (Players s) first first "" None
           deadline rolls (LastSettlement s) (FinishReason s) /\
    ev = zeroEvent <| e_Kind := EventRoundStarted |> <| e_Round := round |> <| e_FirstActor := first |>.
Proof.
  unfold startRound. rewrite Clone_id. intros H. inv_result H. to_prop. split; [done|].
  cbv zeta in H. cbn [config update] in H. inv_results H. eauto 10.
Qed.

Lemma deadline_matches cfg now deadline n :
  Config_Validate cfg n = Ok tt -> validUnixMillis now = true ->
  deadlineUnixMillis cfg now = Ok deadline ->
  (c_ActionTimeoutSeconds cfg = 0 -> deadline = 0) /\
  (c_ActionTimeoutSeconds cfg <> 0 -> now < deadline <= maxInt64).
Proof.
  unfold Config_Validate, validUnixMillis, deadlineUnixMillis. intros Hc Hn H.
  inv_result Hc. clear Hc. inv_results H; to_prop; [done|]. split; intros; [done|].
  bool_cases; lia.
Qed.

Lemma rollFor_inv seed round n p r :
  rollFor seed round n p = Ok r ->
  r_UserID r = p_UserID p /\ length (r_Faces r) = Z.to_nat n /\
  forallb Dice.Face_Valid (r_Faces r) = true.
Proof.
  unfold rollFor. destruct (Dice.Roll _ _ _) as [faces|] eqn:E; [|done]. intros [= <-]. cbn.
  apply Dice.Roll_faces in E as [Hl Hf]. split_and!; [done|done|].
  apply forallb_forall. intros f Hin. rewrite Forall_forall in Hf. apply Hf.
  by apply list_elem_of_In.
Qed.

Lemma filter_users_sublist (players : list PlayerState) :
  p_UserID <$> List.filter p_Active players `sublist_of` p_UserID <$> players.
Proof.
  induction players as [|p l IH]; cbn; [constructor|].
  destruct (p_Active p); cbn; by constructor.
Qed.

(** The dice of a freshly started round: one roll per active player. *)
Lemma rolls_of_round seed round cfg n players rolls :
  Config_Validate cfg n = Ok tt -> NoDup (userOf <$> players) ->
  map_result (rollFor seed round (c_DicePerPlayer cfg)) (List.filter p_Active players) = Ok rolls ->
  r_UserID <$> rolls = p_UserID <$> List.filter p_Active players /\
  length rolls = activeCount players /\
  ValidRolls cfg (isActive players) rolls.
Proof.
  intros Hc Hnd H. apply map_result_Ok in H.
  assert (Hu : r_UserID <$> rolls = p_UserID <$> List.filter p_Active players).
  { clear -H. induction H as [|p r ps rs Hp _ IH]; [done|]. cbn.
    apply rollFor_inv in Hp as [-> _]. by rewrite IH. }
  assert (Hd : 0 <= c_DicePerPlayer cfg).
  { unfold Config_Validate in Hc. inv_result Hc. clear Hc. to_prop. unfold MinimumDicePerPlayer in *. lia. }
  split_and!; [done|by rewrite <- (Forall2_length _ _ _ H)|].
  assert (Hr : forall r, r ∈ rolls -> exists p, p ∈ List.filter p_Active players /\
                rollFor seed round (c_DicePerPlayer cfg) p = Ok r).
  { intros r [i Hi]%list_elem_of_lookup_1.
    destruct (Forall2_lookup_r _ _ _ _ _ H Hi) as (p & Hp & Heq).
    exists p. split; [by eapply list_elem_of_lookup_2|done]. }
  split; try apply Forall_forall; try intros r (p & Hp & (Hur & Hlr & Hfr)%rollFor_inv)%Hr.
  - apply (isActive_iff _ _ Hnd). apply list_elem_of_In, filter_In in Hp as [Hp Ha].
    exists p. split_and!; [by apply list_elem_of_In|done|done].
  - rewrite Hlr. lia.
  - done.
  - rewrite Hu. exact (sublist_NoDup _ _ Hnd (filter_users_sublist players)).
Qed.

Lemma startRound_WellFormed s round first now seed s' ev :
  Frozen s -> FinishReason s = ""%string -> (MinimumPlayers <= activeCount (Players s))%nat ->
  validUnixMillis now = true -> round <> 0 ->
  validateSettlement (s <| Round := round |>) = Ok tt ->
  startRound s round first now seed = Ok (s', ev) ->
  WellFormed s' /\ same_frozen s s'.
Proof.
  intros Hz Hreason Hact Hnow Hround Hset H. pose proof (fz_users _ Hz) as Hnd.
  pose proof Hz as [Hro Ho Hc]. apply startRound_inv in H as (Hf & dl & rolls & Hdl & Hrolls & -> & _).
  destruct (rolls_of_round _ _ _ _ _ _ Hc Hnd Hrolls) as (_ & Hlen & Hvr).
  destruct (deadline_matches _ _ _ _ Hc Hnow Hdl) as [Hd0 Hd1].
  unfold validUnixMillis in Hnow. to_prop.
  split; [|done]. split; try done.
  - apply activeUser_frozen. by apply (isActive_iff _ _ Hnd).
  - left. split; [done|]. split; cbn; try done. split; cbn; [done|]. intros Hne. specialize (Hd1 Hne). lia.
Qed.

(** ** Settling a round *)
Lemma validateSettlement_intro s :
  Frozen s ->
  s_Round (LastSettlement s) <> 0 -> u32 (s_Round (LastSettlement s) + 1) = Round s ->
  frozenUser (Players s) (s_LoserUserID (LastSettlement s)) ->
  s_PenaltyTicks (LastSettlement s) = c_PenaltyTicks (config s) ->
  s_Reason (LastSettlement s) = SettlementOpened /\ s_Bid (LastSettlement s) <> None /\
    frozenUser (Players s) (s_OpenerUserID (LastSettlement s)) /\ s_RevealedDice (LastSettlement s) <> []
  \/ s_Reason (LastSettlement s) = SettlementTimeout /\ s_OpenerUserID (LastSettlement s) = ""%string /\
    s_ActualQuantity (LastSettlement s) = 0 /\ s_RevealedDice (LastSettlement s) = [] ->
  (forall b, s_Bid (LastSettlement s) = Some b -> bidMalformed (config s) b = false) ->
  ValidRolls (config s) (isFrozen (Players s)) (s_RevealedDice (LastSettlement s)) ->
  validateSettlement s = Ok tt.
Proof.
  intros Hz H0 Hr Hl Hp Hreason Hb Hv. unfold validateSettlement.
  pose proof (frozen_nonempty _ _ Hz Hl) as Hln. apply isFrozen_iff in Hl.
  rewrite (proj2 (Z.eqb_neq _ _) H0).
  pass_check. { destruct Hreason as [(He & Hbid & Ho & Hrd)|(He & Ho & Ha & Hrd)]; rewrite He in E.
    - pose proof (frozen_nonempty _ _ Hz Ho). bool_cases; try done.
      + by destruct (s_Bid _).
      + by destruct (s_RevealedDice _).
    - rewrite Ho, Ha, Hrd in E. by bool_cases. }
  pass_check. { to_prop. congruence. }
  pass_check. { destruct Hreason as [(_ & _ & Ho%isFrozen_iff & _)|(_ & Ho & _ & _)]; to_prop; congruence. }
  pass_check. { destruct (s_Bid (LastSettlement s)) eqn:Eb; [|done]. by rewrite (Hb _ eq_refl) in E. }
  apply rolls_check, rollsFault_None. split; [done|]. apply Forall_forall. intros r _. apply not_elem_of_nil.
Qed.

Lemma ValidRolls_weaken cfg owned owned' rolls :
  (forall u, owned u = true -> owned' u = true) -> ValidRolls cfg owned rolls -> ValidRolls cfg owned' rolls.
Proof. intros H [H1 H2 H3 H4]. split; try done. eapply Forall_impl; [exact H1|]. auto. Qed.

Lemma wf_bidding s : WellFormed s -> Phase s <> PhaseFinished -> Phase s = PhaseBidding /\ Bidding s.
Proof. intros [_ _ _ _ _ _ _ _ [H|[H _]]] Hp; [done|]. by rewrite H in Hp. Qed.

Lemma nextActiveUser_inv s current u :
  nextActiveUser s current = Ok u ->
  frozenUser (Players s) current /\
  exists i, activeOf (Players s !!! i) = true /\ userOf (Players s !!! i) = u /\ (i < length (Players s))%nat.
Proof.
  unfold nextActiveUser. destruct (playerIndex _ _) as [c|] eqn:Ec; [|done].
  destruct (firstActive _ _) as [v|] eqn:Ef; [|done]. intros [= <-]. split.
  - apply playerIndex_is_Some. eauto.
  - apply firstActive_Some in Ef as (i & Hi & Ha & Hu). exists i. split_and!; [done|done|].
    by apply forwardIndexes_bound in Hi.
Qed.

Lemma nextActiveUser_active s current u :
  NoDup (userOf <$> Players s) -> nextActiveUser s current = Ok u ->
  isActive (Players s) u = true.
Proof.
  intros Hnd (_ & i & Ha & Hu & Hi)%nextActiveUser_inv. apply (isActive_iff _ _ Hnd).
  apply lookup_lt_is_Some_2 in Hi as [p Hp]. rewrite (list_lookup_total_correct _ _ _ Hp) in Ha, Hu.
  exists p. split_and!; [by eapply list_elem_of_lookup_2|done|done].
Qed.

(** What settling a round computes, whatever the reason. *)
Lemma settleAndRestart_inv s loser reason opener actual reveal now seed s' es :
  settleAndRestart s loser reason opener actual reveal now seed = Ok (s', es) ->
  exists index player penalty first ev,
    Players s !! index = Some player /\ p_UserID player = loser /\
    playerIndex (Players s) loser = Some index /\
    Dice.Ticks_Add (p_PenaltyTicks player) (c_PenaltyTicks (config s)) = Ok penalty /\
    Round s <> maxUint32 /\
    (if p_Active player then first = loser
     else nextActiveUser (s <| Players := <[index := player <| p_PenaltyTicks := penalty |>]> (Players s) |>
              <| LastSettlement := mkSettlement (Round s) loser (c_PenaltyTicks (config s)) actual reason
                   opener (CurrentBid s) (if reveal then PrivateDice s else []) |>) loser = Ok first) /\
    startRound (s <| Players := <[index := player <| p_PenaltyTicks := penalty |>]> (Players s) |>
                  <| LastSettlement := mkSettlement (Round s) loser (c_PenaltyTicks (config s)) actual reason
                       opener (CurrentBid s) (if reveal then PrivateDice s else []) |>)
               (u32 (Round s + 1)) first now seed = Ok (s', ev) /\
    es = (if reveal then [zeroEvent <| e_Kind := EventDiceRevealed |> <| e_Round := Round s |>
                                    <| e_Dice := PrivateDice s |>] else []) ++
         [zeroEvent <| e_Kind := EventRoundSettled |> <| e_Round := Round s |>
                    <| e_LoserUserID := loser |> <| e_PenaltyTicks := c_PenaltyTicks (config s) |>
                    <| e_NextRound := u32 (Round s + 1) |> <| e_ActualQuantity := actual |>
                    <| e_Reason := reason |> <| e_OpenerUserID := opener |>
                    <| e_Bid := CurrentBid s |>] ++ [ev].
Proof.
  unfold settleAndRestart. rewrite Clone_id, !cloneBid_id, cloneRolls_id. cbv zeta.
  destruct (playerIndex (Players s) loser) as [index|] eqn:Ei; [|done].
  pose proof (playerIndex_Some _ _ _ Ei) as (player & Hp & Hu & Htot). rewrite Htot.
  destruct (Dice.Ticks_Add _ _) as [penalty|] eqn:Et; [|done]. intros H.
  inv_result H. to_prop. inv_result H. rename value into first.
  destruct (startRound _ _ _ _ _) as [[s1 ev]|] eqn:Es; cbn [bind_result] in H; [|done].
  injection H as <- <-. exists index, player, penalty, first, ev.
  split_and!; try done.
  - cbn [Players update] in E0. rewrite list_lookup_total_insert_eq in E0
      by (eapply lookup_lt_Some; exact Hp). cbn in E0.
    destruct (p_Active player); cbn in E0; [congruence|done].
  - rewrite <- app_assoc. rewrite cloneRolls_id. by destruct reveal.
Qed.

Lemma activeCount_penalty (players : list PlayerState) i p v :
  players !! i = Some p ->
  activeCount (<[i := p <| p_PenaltyTicks := v |>]> players) = activeCount players.
Proof. intros Hp. by apply (activeCount_insert_same _ _ p). Qed.

Lemma settleAndRestart_WellFormed s loser reason opener actual reveal now seed s' es :
  WellFormed s -> Phase s <> PhaseFinished -> is_u32 (Round s) -> validUnixMillis now = true ->
  reason = SettlementOpened /\ CurrentBid s <> None /\ frozenUser (Players s) opener /\ reveal = true
  \/ reason = SettlementTimeout /\ opener = ""%string /\ actual = 0 /\ reveal = false ->
  settleAndRestart s loser reason opener actual reveal now seed = Ok (s', es) ->
  WellFormed s' /\ same_frozen s s'.
Proof.
  intros Hwf Hph Hround Hnow Hreason H. pose proof (wf_Frozen _ Hwf) as Hz.
  destruct (wf_bidding _ Hwf Hph) as [_ Hbid].
  apply settleAndRestart_inv in H as
    (index & player & penalty & first & ev & Hp & Hu & Hidx & _ & Hmax & _ & Hstart & _).
  pose proof (u32_succ _ Hround Hmax) as Hsucc.
  match type of Hstart with startRound ?x _ _ _ _ = _ => set (sx := x) in Hstart end.
  assert (Hsame : same_frozen s sx).
  { split; [|done]. subst sx. cbn [Players update]. by apply (same_participants_insert _ _ player). }
  pose proof (same_frozen_Frozen _ _ Hsame Hz) as Hzx.
  assert (Husers : userOf <$> Players sx = userOf <$> Players s)
    by (apply participants_users, Hsame).
  assert (Hfz : forall u, frozenUser (Players s) u -> frozenUser (Players sx) u)
    by (intros u; apply frozenUser_users; by rewrite Husers).
  assert (Hwf' : WellFormed s' /\ same_frozen sx s').
  { eapply (startRound_WellFormed sx); try exact Hstart; try done.
    - apply Hbid.
    - subst sx. cbn [Players update]. rewrite activeCount_penalty by done. apply Hbid.
    - rewrite Hsucc. destruct Hround. lia.
    - apply validateSettlement_intro; try done.
      + by destruct Hzx.
      + cbn. apply Hwf.
      + cbn. apply Hfz, playerIndex_is_Some. eauto.
      + cbn. destruct Hreason as [(-> & Hb & Ho & ->)|(-> & -> & -> & ->)]; [left|right]; [|done].
        split_and!; try done; [by apply Hfz|]. intros Hnil.
        pose proof (bid_count _ Hbid) as Hc. pose proof (bid_active _ Hbid) as Hm.
        rewrite Hnil in Hc. unfold MinimumPlayers in Hm. cbn in Hc. lia.
      + cbn. intros b Hb. pose proof (wf_bidder _ Hwf) as Hag. unfold BidderAgrees in Hag.
        rewrite Hb in Hag. tauto.
      + cbn. destruct reveal; [|split; constructor].
        eapply ValidRolls_weaken; [|apply Hbid]. intros u Hau.
        rewrite (isFrozen_users _ _ _ Husers). by apply isActive_isFrozen. }
  destruct Hwf' as [? ?]. split; [done|]. by eapply same_frozen_trans.
Qed.

(** ** The operations keep snapshots valid *)
Lemma validateAction_inv s actor now n :
  validateAction s actor now = Ok n ->
  WellFormed s /\ Phase s <> PhaseFinished /\ CurrentActorUserID s = actor /\
  validUnixMillis now = true /\ n = now /\
  (ActionDeadlineUnixMillis s = 0 \/ now < ActionDeadlineUnixMillis s).
Proof.
  unfold validateAction. intros H. inv_result H. destruct value. apply Validate_WellFormed in E.
  do 4 inv_result H. inv_result H. split_and!; try done; bool_cases; auto.
Qed.

Lemma ValidateBid_wellformed cfg previous next :
  ValidateBid cfg previous next = Ok tt -> bidMalformed cfg next = false.
Proof.
  unfold ValidateBid, bidMalformed. intros H. do 5 inv_result H. apply orb_false_elim in E0 as [E0 E0'].
  by rewrite E0, E0'.
Qed.

Lemma PlaceBid_inv s actor bid now s' es :
  PlaceBid s actor bid now = Ok (s', es) ->
  WellFormed s /\ Phase s = PhaseBidding /\ CurrentActorUserID s = actor /\
  validUnixMillis now = true /\ ValidateBid (config s) (CurrentBid s) bid = Ok tt /\
  (ActionDeadlineUnixMillis s = 0 \/ now < ActionDeadlineUnixMillis s) /\
  exists nextActor deadline,
    nextActiveUser s actor = Ok nextActor /\ deadlineUnixMillis (config s) now = Ok deadline /\
    s' = s <| CurrentBid := Some bid |> <| LastBidderUserID := actor |>
           <| CurrentActorUserID := nextActor |> <| ActionDeadlineUnixMillis := deadline |> /\
    es = [zeroEvent <| e_Kind := EventBidPlaced |> <| e_Round := Round s |>
                    <| e_UserID := actor |> <| e_Bid := Some bid |>].
Proof.
  unfold PlaceBid. rewrite Clone_id. intros H. inv_result H.
  apply validateAction_inv in E as (Hwf & Hph & Hact & Hnow & -> & Hdl).
  destruct (wf_bidding _ Hwf Hph) as [Hb _]. inv_result H. destruct value. inv_result H.
  cbv zeta in H. inv_result H. by_value H. injection H as <- <-.
  split_and!; try done. by exists value, value0.
Qed.

Lemma PlaceBid_WellFormed s actor bid now s' es :
  PlaceBid s actor bid now = Ok (s', es) -> WellFormed s' /\ same_frozen s s'.
Proof.
  intros (Hwf & Hph & Hact & Hnow & Hvb & _ & next & deadline & Hnext & Hdl & -> & _)%PlaceBid_inv.
  split; [|done]. pose proof (wf_Frozen _ Hwf) as Hz. pose proof (fz_users _ Hz) as Hnd.
  destruct (wf_bidding _ Hwf) as [_ Hb]; [by rewrite Hph|].
  destruct (deadline_matches _ _ _ _ (fz_config _ Hz) Hnow Hdl) as [Hd0 Hd1].
  assert (Hfa : frozenUser (Players s) actor).
  { apply isFrozen_iff, isActive_isFrozen. rewrite <- Hact. apply Hb. }
  unfold validUnixMillis in Hnow. to_prop.
  destruct Hwf as [H1 H2 H3 H4 H5 H6 H7 H8 H9]. split; try done.
  - cbn. split_and!; [by eapply frozen_nonempty|done|by eapply ValidateBid_wellformed].
  - left. split; [done|]. destruct Hb as [B1 B2 B3 B4 B5 B6]. split; try done.
    + cbn. by eapply nextActiveUser_active.
    + split; [done|]. intros Hne. cbn in *. specialize (Hd1 Hne). lia.
Qed.

Lemma OpenDice_inv s actor now seed s' es :
  OpenDice s actor now seed = Ok (s', es) ->
  WellFormed s /\ Phase s = PhaseBidding /\ CurrentActorUserID s = actor /\
  validUnixMillis now = true /\
  exists bid, CurrentBid s = Some bid /\
    settleAndRestart s (if b_Quantity bid <=? CountBid s bid then actor else LastBidderUserID s)
      SettlementOpened actor (CountBid s bid) true now seed = Ok (s', es).
Proof.
  unfold OpenDice. intros H. inv_result H.
  apply validateAction_inv in E as (Hwf & Hph & Hact & Hnow & -> & _).
  destruct (wf_bidding _ Hwf Hph) as [Hb _].
  destruct (CurrentBid s) as [bid|] eqn:Eb; [|done]. inv_result H. eauto 10.
Qed.

Lemma OpenDice_WellFormed s actor now seed s' es :
  is_u32 (Round s) -> OpenDice s actor now seed = Ok (s', es) -> WellFormed s' /\ same_frozen s s'.
Proof.
  intros Hr (Hwf & Hph & Hact & Hnow & bid & Hb & H)%OpenDice_inv.
  destruct (wf_bidding _ Hwf) as [_ Hbid]; [by rewrite Hph|].
  eapply settleAndRestart_WellFormed; try exact H; try done; [by rewrite Hph|].
  left. split_and!; [done|by rewrite Hb| |done].
  apply isFrozen_iff, isActive_isFrozen. rewrite <- Hact. apply Hbid.
Qed.

Lemma HandleTimeout_inv s timer now seed s' es :
  HandleTimeout s timer now seed = Ok (s', es) ->
  WellFormed s /\ Phase s = PhaseBidding /\ validUnixMillis now = true /\
  timer = mkTimer (Round s) (CurrentActorUserID s) (ActionDeadlineUnixMillis s) /\
  ActionDeadlineUnixMillis s <> 0 /\ ActionDeadlineUnixMillis s <= now /\
  settleAndRestart s (CurrentActorUserID s) SettlementTimeout "" 0 false now seed = Ok (s', es).
Proof.
  unfold HandleTimeout. intros H. inv_result H. destruct value. apply Validate_WellFormed in E.
  do 4 inv_result H. to_prop. destruct (wf_bidding _ E) as [Hb _]; [done|].
  split_and!; try done; [|congruence]. destruct timer; cbn in *. congruence.
Qed.

Lemma HandleTimeout_WellFormed s timer now seed s' es :
  is_u32 (Round s) -> HandleTimeout s timer now seed = Ok (s', es) -> WellFormed s' /\ same_frozen s s'.
Proof.
  intros Hr (Hwf & Hph & Hnow & _ & _ & _ & H)%HandleTimeout_inv.
  eapply settleAndRestart_WellFormed; try exact H; try done; [by rewrite Hph|]. by right.
Qed.

(** Facts of a state that do not mention the live turn. *)
Record Settled (s : State) : Prop := {
  se_schema : SchemaVersion s = CurrentSchemaVersion;
  se_round : Round s <> 0;
  se_frozen : Frozen s;
  se_settlement : validateSettlement s = Ok tt;
  se_first : frozenUser (Players s) (FirstActorUserID s);
  se_bidder : BidderAgrees s;
}.

Lemma wf_Settled s : WellFormed s -> Settled s.
Proof. intros Hwf. pose proof (wf_Frozen _ Hwf). by destruct Hwf. Qed.

Lemma Settled_WellFormed s :
  Settled s -> (Phase s = PhaseBidding /\ Bidding s \/ Phase s = PhaseFinished /\ Finished s) -> WellFormed s.
Proof. by intros [? ? [] ? ? ?]. Qed.

Lemma finishState_WellFormed s reason :
  Settled s -> reason <> ""%string -> WellFormed (fst (finishState s reason)).
Proof.
  intros [H1 H2 [] H4 H5 H6] Hr. split; try done. right. split; [done|]. by split.
Qed.

(** The session without [userID]: its seat is inactive, its roll is gone. *)
Definition withoutPlayer (s : State) (index : nat) (player : PlayerState) (userID : string) : State :=
  s <| Players := <[index := player <| p_Active := false |>]> (Players s) |>
    <| PrivateDice := List.filter (fun r => negb (String.eqb (r_UserID r) userID)) (PrivateDice s) |>.

Definition revokedEvent (s : State) (userID : string) : Event :=
  zeroEvent <| e_Kind := EventParticipantRevoked |> <| e_Round := Round s |> <| e_UserID := userID |>.

Inductive RevokeResult (s : State) (userID : string) (now : Z) (seed : list Z) (next : State)
  : State -> list Event -> Prop :=
| revoke_finish :
    (activeCount (Players next) < MinimumPlayers)%nat ->
    RevokeResult s userID now seed next (fst (finishState next FinishInsufficientParticipants))
      [revokedEvent s userID; snd (finishState next FinishInsufficientParticipants)]
| revoke_bystander :
    (MinimumPlayers <= activeCount (Players next))%nat -> CurrentActorUserID s <> userID ->
    RevokeResult s userID now seed next next [revokedEvent s userID]
| revoke_restart first s' ev :
    (MinimumPlayers <= activeCount (Players next))%nat -> CurrentActorUserID s = userID ->
    Round s <> maxUint32 -> nextActiveUser next userID = Ok first ->
    startRound (next <| LastSettlement := zeroSettlement |>) (u32 (Round s + 1)) first now seed = Ok (s', ev) ->
    RevokeResult s userID now seed next s' [revokedEvent s userID; ev].

Lemma RevokeParticipant_inv s userID now seed s' es :
  RevokeParticipant s userID now seed = Ok (s', es) ->
  WellFormed s /\ Phase s = PhaseBidding /\ validUnixMillis now = true /\
  exists index player,
    Players s !! index = Some player /\ p_UserID player = userID /\ p_Active player = true /\
    RevokeResult s userID now seed (withoutPlayer s index player userID) s' es.
Proof.
  unfold RevokeParticipant. rewrite Clone_id. intros H. inv_result H. destruct value.
  apply Validate_WellFormed in E. do 2 inv_result H. to_prop.
  destruct (wf_bidding _ E) as [Hb _]; [done|]. split_and!; try done. cbv zeta in H.
  destruct (playerIndex (Players s) userID) as [index|] eqn:Ei; [|done].
  pose proof (playerIndex_Some _ _ _ Ei) as (player & Hp & Hu & Htot). rewrite Htot in H.
  inv_result H. to_prop. exists index, player. split_and!; try done.
  unfold removeRoll in H. by_value H. fold (withoutPlayer s index player userID) in H.
  change (Round (withoutPlayer s index player userID)) with (Round s) in H.
  destruct (_ <? _)%nat eqn:Ec; [apply Nat.ltb_lt in Ec|apply Nat.ltb_ge in Ec].
  { cbn [finishState] in H. injection H as <- <-. by apply (revoke_finish s userID now seed _ Ec). }
  destruct (String.eqb _ userID) eqn:Eu; cbn [negb] in H; to_prop.
  2: { injection H as <- <-. by apply revoke_bystander. }
  do 2 inv_result H. to_prop.
  change (Round ((withoutPlayer s index player userID) <| LastSettlement := zeroSettlement |>)) with (Round s) in H.
  destruct (startRound _ _ _ _ _) as [[s1 ev]|] eqn:Es; cbn [bind_result] in H; [|done].
  injection H as <- <-. by eapply revoke_restart.
Qed.

(** The rolls of a bidding state belong to exactly the active players. *)
Lemma rolls_cover s u :
  NoDup (userOf <$> Players s) -> Bidding s -> isActive (Players s) u = true ->
  u ∈ (r_UserID <$> PrivateDice s).
Proof.
  intros Hnd [_ _ _ _ Hc [Ho _ _ Hu]] Ha.
  assert (Hincl : (r_UserID <$> PrivateDice s) ⊆ (p_UserID <$> List.filter p_Active (Players s))).
  { intros v (r & -> & Hr)%list_elem_of_fmap. rewrite Forall_forall in Ho. specialize (Ho r Hr).
    apply (isActive_iff _ _ Hnd) in Ho as (p & Hp & <- & Hpa). apply list_elem_of_fmap_2.
    apply list_elem_of_In, filter_In. split; [by apply list_elem_of_In|done]. }
  assert (Hin : u ∈ (p_UserID <$> List.filter p_Active (Players s))).
  { apply (isActive_iff _ _ Hnd) in Ha as (p & Hp & <- & Hpa). apply list_elem_of_fmap_2.
    apply list_elem_of_In, filter_In. split; [by apply list_elem_of_In|done]. }
  apply list_elem_of_In. apply list_elem_of_In in Hin. revert u Ha Hin. intros u _.
  apply NoDup_length_incl.
  - by apply NoDup_ListNoDup.
  - rewrite !length_map. unfold activeCount, countb in Hc. cbn in Hc. by rewrite Hc.
  - intros v Hv. apply list_elem_of_In, Hincl. by apply list_elem_of_In.
Qed.

Lemma filter_remove_length (rolls : list PrivateRoll) u :
  NoDup (r_UserID <$> rolls) -> u ∈ (r_UserID <$> rolls) ->
  length rolls = S (length (List.filter (fun r => negb (String.eqb (r_UserID r) u)) rolls)).
Proof.
  induction rolls as [|r rolls IH]; cbn; intros Hnd Hin; [inversion Hin|].
  apply NoDup_cons in Hnd as [Hr Hnd]. destruct (String.eqb (r_UserID r) u) eqn:E; cbn; to_prop.
  - f_equal. rewrite E in Hr. clear -Hr. induction rolls as [|q rolls IH]; [done|]. cbn in *.
    rewrite not_elem_of_cons in Hr. destruct Hr as [Hq Hr].
    rewrite (proj2 (eqb_string_false (r_UserID q) u)) by congruence. cbn. by rewrite <- IH.
  - f_equal. apply IH; [done|]. apply elem_of_cons in Hin as [->|]; done.
Qed.

Section Revocation.
Context (s : State) (index : nat) (player : PlayerState) (userID : string).
Hypothesis (Hwf : WellFormed s) (Hbid : Bidding s).
Hypothesis (Hp : Players s !! index = Some player) (Hu : p_UserID player = userID)
           (Ha : p_Active player = true).
#[local] Abbreviation next := (withoutPlayer s index player userID).

Lemma withoutPlayer_frozen : same_frozen s next.
Proof. split; [|done]. by apply (same_participants_insert _ _ player). Qed.

Lemma withoutPlayer_users : userOf <$> Players next = userOf <$> Players s.
Proof. apply participants_users, withoutPlayer_frozen. Qed.

Lemma withoutPlayer_Settled : Settled next.
Proof.
  destruct (wf_Settled _ Hwf) as [H1 H2 H3 H4 H5 H6].
  assert (Hfz : forall u, frozenUser (Players s) u -> frozenUser (Players next) u).
  { intros u. apply frozenUser_users. by rewrite withoutPlayer_users. }
  split; try done.
  - by apply (same_frozen_Frozen s), H3; apply withoutPlayer_frozen.
  - rewrite <- H4. apply validateSettlement_frame; try done. apply withoutPlayer_users.
  - by apply Hfz.
  - unfold BidderAgrees in *. cbn. destruct (CurrentBid s); [|done].
    destruct H6 as (? & ? & ?). split_and!; try done. by apply Hfz.
Qed.

(** Every other player keeps its activity. *)
Lemma withoutPlayer_active v :
  v <> userID -> isActive (Players next) v = isActive (Players s) v.
Proof.
  intros Hne. unfold isActive. rewrite (playerIndex_users _ _ _ withoutPlayer_users).
  destruct (playerIndex (Players s) v) as [i|] eqn:Ei; [|done].
  pose proof (playerIndex_Some _ _ _ Ei) as (q & Hq & Hqu & Htot).
  assert (Hni : i <> index) by (intros ->; simplify_eq; done).
  cbn [withoutPlayer Players update]. by rewrite list_lookup_total_insert_ne.
Qed.

Lemma withoutPlayer_count : activeCount (Players s) = S (activeCount (Players next)).
Proof. by apply (activeCount_deactivate _ _ player). Qed.

Lemma withoutPlayer_Bidding :
  (MinimumPlayers <= activeCount (Players next))%nat -> CurrentActorUserID s <> userID -> Bidding next.
Proof.
  intros Hmin Hcur. pose proof (wf_users _ Hwf) as Hnd.
  pose proof Hbid as [B1 B2 B3 B4 B5 B6]. split; try done.
  - cbn [CurrentActorUserID withoutPlayer update]. by rewrite withoutPlayer_active.
  - assert (Hin : userID ∈ (r_UserID <$> PrivateDice s)).
    { apply rolls_cover; try done. apply (isActive_iff _ _ Hnd). exists player.
      split_and!; [by eapply list_elem_of_lookup_2|done|done]. }
    pose proof (filter_remove_length _ _ (rolls_users _ _ _ B6) Hin) as Hl.
    pose proof withoutPlayer_count as Hc. rewrite <- B5 in Hc. cbn. cbn in Hc. lia.
  - destruct B6 as [R1 R2 R3 R4].
    assert (Hsub : List.filter (fun r => negb (String.eqb (r_UserID r) userID)) (PrivateDice s)
                   `sublist_of` PrivateDice s).
    { clear. induction (PrivateDice s) as [|r l IH]; cbn; [done|]. destruct (negb _); by constructor. }
    split; cbn [withoutPlayer PrivateDice config update].
    + apply Forall_forall. intros r [Hr Hne]%list_elem_of_In%filter_In. to_prop.
      rewrite withoutPlayer_active by done. rewrite Forall_forall in R1.
      apply R1. by apply list_elem_of_In.
    + apply Forall_forall. intros r [Hr _]%list_elem_of_In%filter_In.
      rewrite Forall_forall in R2. by apply R2, list_elem_of_In.
    + apply Forall_forall. intros r [Hr _]%list_elem_of_In%filter_In.
      rewrite Forall_forall in R3. by apply R3, list_elem_of_In.
    + eapply sublist_NoDup; [exact R4|]. by apply fmap_sublist.
Qed.
End Revocation.

Lemma RevokeParticipant_WellFormed s userID now seed s' es :
  is_u32 (Round s) -> RevokeParticipant s userID now seed = Ok (s', es) ->
  WellFormed s' /\ same_frozen s s'.
Proof.
  intros Hr (Hwf & Hph & Hnow & index & player & Hp & Hu & Ha & Hres)%RevokeParticipant_inv.
  destruct (wf_bidding _ Hwf) as [_ Hbid]; [by rewrite Hph|].
  pose proof (withoutPlayer_Settled s index player userID Hwf Hp) as Hse.
  pose proof (withoutPlayer_frozen s index player userID Hp) as Hfz.
  inversion Hres as [Hc Hs He|Hc Hne Hs He|first s1 ev Hc Heq Hmax Hnext Hstart Hs He]; subst s' es.
  - split; [|done]. by apply finishState_WellFormed.
  - split; [|done]. apply Settled_WellFormed; [done|]. left. split; [done|].
    by apply (withoutPlayer_Bidding s index player userID Hwf Hbid Hp Hu Ha).
  - assert (Hx : WellFormed s1 /\ same_frozen (withoutPlayer s index player userID) s1).
    { apply startRound_WellFormed in Hstart; try done.
      - by destruct (se_frozen _ Hse).
      - apply Hbid.
      - rewrite u32_succ by done. destruct Hr. lia. }
    destruct Hx. split; [done|]. by eapply same_frozen_trans.
Qed.

Lemma Finish_inv s reason s' es :
  Finish s reason = Ok (s', es) ->
  WellFormed s /\ Phase s = PhaseBidding /\
  exists r, r <> ""%string /\ (reason <> ""%string -> r = reason) /\
            s' = fst (finishState s r) /\ es = [snd (finishState s r)].
Proof.
  unfold Finish. rewrite Clone_id. intros H. inv_result H. destruct value.
  apply Validate_WellFormed in E. inv_result H. to_prop.
  destruct (wf_bidding _ E) as [Hb _]; [done|]. split_and!; try done. cbn in H.
  injection H as <- <-. eexists. split_and!; [| |reflexivity|reflexivity];
    destruct (String.eqb reason "") eqn:Er; to_prop; done.
Qed.

Lemma Finish_WellFormed s reason s' es :
  Finish s reason = Ok (s', es) -> WellFormed s' /\ same_frozen s s'.
Proof.
  intros (Hwf & _ & r & Hr & _ & -> & _)%Finish_inv. split; [|done].
  by apply finishState_WellFormed, Hr; apply wf_Settled.
Qed.

Lemma startingUser_spec participants seat first :
  startingUser participants seat first = first \/
  exists p, p ∈ participants /\ SeatIndex p = seat /\ startingUser participants seat first = UserID p.
Proof.
  revert first. induction participants as [|p ps IH]; intros first; cbn [startingUser]; [by left|].
  destruct (IH (if SeatIndex p =? seat then UserID p else first)) as [Heq|(q & Hq & Hs & Heq)].
  - rewrite Heq. destruct (SeatIndex p =? seat) eqn:E; to_prop; [right|by left].
    exists p. split_and!; [constructor|done|done].
  - right. exists q. split_and!; [by constructor|done|done].
Qed.

Lemma newPlayer_participants (l : list Participant) : participantOf <$> (newPlayer <$> l) = l.
Proof. rewrite <- list_fmap_compose. induction l as [|[] l IH]; cbn; [done|]. by f_equal. Qed.

Lemma NewState_inv cfg participants seat now seed s es :
  NewState cfg participants seat now seed = Ok (s, es) ->
  ValidRoster MinimumPlayers MaximumPlayers participants /\
  Config_Validate cfg (length participants) = Ok tt /\ validUnixMillis now = true /\
  exists ev, startRound (mkState CurrentSchemaVersion PhaseRolling 1 cfg (newPlayer <$> bySeat participants)
      "" "" "" None 0 [] zeroSettlement "") 1 (startingUser (bySeat participants) seat "") now seed = Ok (s, ev) /\
    es = [ev <| e_Players := bySeat participants |>].
Proof.
  unfold NewState, canonicalParticipants. intros H. inv_result H. inv_result E. destruct value0.
  apply ValidateParticipants_iff in E0. injection E as <-.
  pose proof (bySeat_valid _ _ _ E0) as (_ & _ & Hp).
  inv_result H. destruct value. rewrite (Permutation_length Hp) in E.
  do 2 inv_result H. to_prop. cbv zeta in H.
  destruct (startRound _ _ _ _ _) as [[s1 ev]|] eqn:Es; cbn [bind_result] in H; [|done].
  injection H as <- <-. eauto 10.
Qed.

Lemma NewState_WellFormed cfg participants seat now seed s es :
  NewState cfg participants seat now seed = Ok (s, es) -> WellFormed s.
Proof.
  intros (Hro & Hc & Hnow & ev & Hstart & _)%NewState_inv.
  destruct (bySeat_valid _ _ _ Hro) as (Hb & Hsort & Hp).
  apply startRound_WellFormed in Hstart; [tauto|..]; try done.
  - split; cbn [Players config].
    + by rewrite newPlayer_participants.
    + apply order_seats. rewrite <- list_fmap_compose.
      clear -Hsort. induction Hsort as [|p l _ IH Hall]; cbn; constructor; [done|].
      apply Forall_fmap. eapply Forall_impl; [exact Hall|]. done.
    + by rewrite length_fmap, (Permutation_length Hp).
  - cbn [Players]. unfold activeCount, countb.
    assert (Hall : List.filter activeOf (newPlayer <$> bySeat participants) = newPlayer <$> bySeat participants).
    { clear. induction (bySeat participants) as [|p l IH]; cbn; [done|]. by f_equal. }
    rewrite Hall, length_fmap. apply Hb.
Qed.

(** ** Machine-integer typing *)
Definition TypedConfig (c : Config) : Prop :=
  is_u32 (c_DicePerPlayer c) /\ is_u32 (c_FirstBidMinimum c) /\ is_u32 (c_PenaltyTicks c) /\
  is_u32 (c_ActionTimeoutSeconds c).

Definition TypedPlayer (p : PlayerState) : Prop := is_u32 (p_SeatIndex p) /\ is_u32 (p_PenaltyTicks p).

Definition TypedBid (b : Bid) : Prop := is_u32 (b_Quantity b) /\ is_u32 (b_Face b) /\ is_u8 (b_Mode b).

Definition TypedRoll (r : PrivateRoll) : Prop := Forall is_u8 (r_Faces r).

Record TypedSettlement (v : Settlement) : Prop := {
  ts_round : is_u32 (s_Round v);
  ts_penalty : is_u32 (s_PenaltyTicks v);
  ts_actual : is_u32 (s_ActualQuantity v);
  ts_bid : forall b, s_Bid v = Some b -> TypedBid b;
  ts_dice : Forall TypedRoll (s_RevealedDice v);
}.

(** Every integer of the snapshot is a value of its Go type. *)
Record Typed (s : State) : Prop := {
  ty_round : is_u32 (Round s);
  ty_config : TypedConfig (config s);
  ty_players : Forall TypedPlayer (Players s);
  ty_bid : forall b, CurrentBid s = Some b -> TypedBid b;
  ty_deadline : is_i64 (ActionDeadlineUnixMillis s);
  ty_schema : is_u32 (SchemaVersion s);
  ty_phase : is_u8 (Phase s);
  ty_dice : Forall TypedRoll (PrivateDice s);
  ty_settlement : TypedSettlement (LastSettlement s);
}.

Definition TypedInput (i : Input) : Prop :=
  match i with
  | InPlaceBid _ bid now => TypedBid bid /\ is_i64 now
  | InOpenDice _ now _ | InTimeout _ now _ | InRevoke _ now _ => is_i64 now
  | InFinish _ => True
  end.

Lemma deadline_typed c now d :
  TypedConfig c -> is_i64 now -> deadlineUnixMillis c now = Ok d -> is_i64 d.
Proof.
  unfold TypedConfig, deadlineUnixMillis, is_i64, is_u32, maxUint32. intros Hc Hn H.
  inv_results H; to_prop; unfold maxInt64 in *; lia.
Qed.

Lemma rolls_typed seed round count players rolls :
  map_result (rollFor seed round count) players = Ok rolls -> Forall TypedRoll rolls.
Proof.
  intros H%map_result_Ok. induction H as [|p roll players rolls Hp _ IH]; constructor; [|done].
  unfold rollFor in Hp. destruct (Dice.Roll _ _ _) as [faces|] eqn:E; [|done]. injection Hp as <-.
  apply Dice.Roll_faces in E as [_ E]. eapply Forall_impl; [exact E|].
  intros f Hf. unfold Dice.Face_Valid in Hf. to_prop. unfold is_u8. lia.
Qed.

(** The counter is a [uint32] whatever the dice. *)
Lemma CountBid_typed s bid : is_u32 (CountBid s bid).
Proof.
  assert (Hfaces : forall faces count, is_u32 count ->
    is_u32 (foldl (fun count face => if countsFor (config s) bid face then u32 (count + 1) else count) count faces)).
  { induction faces as [|f faces IH]; intros count Hc; cbn; [done|]. apply IH. destruct (countsFor _ _ _); [apply u32_range|done]. }
  unfold CountBid. cbv zeta. generalize (p_UserID <$> List.filter p_Active (Players s)). intros active.
  assert (Hc : is_u32 0) by done. revert Hc. generalize 0.
  induction (PrivateDice s) as [|roll rolls IH]; intros count Hc; cbn; [done|].
  apply IH. case_bool_decide; [by apply Hfaces|done].
Qed.

Lemma startRound_Typed s round first now seed s' ev :
  Typed s -> is_u32 round -> is_i64 now -> startRound s round first now seed = Ok (s', ev) -> Typed s'.
Proof.
  intros [T1 T2 T3 T4 T5 T6 T7 T8 T9] Hr Hn (_ & d & rolls & Hd & Hrolls & -> & _)%startRound_inv.
  split; try done; cbn; [by eapply deadline_typed|by eapply rolls_typed].
Qed.

Lemma Typed_insert s index player :
  Typed s -> TypedPlayer player -> Typed (s <| Players := <[index := player]> (Players s) |>).
Proof. intros [T1 T2 T3 T4 T5 T6 T7 T8 T9] Hp. split; try done. cbn. by apply Forall_insert. Qed.

Lemma settleAndRestart_Typed s loser reason opener actual reveal now seed s' es :
  Typed s -> is_i64 now -> is_u32 actual ->
  settleAndRestart s loser reason opener actual reveal now seed = Ok (s', es) -> Typed s'.
Proof.
  intros Ht Hn Hact (index & player & penalty & first & ev & Hp & _ & _ & Hadd & _ & _ & Hstart & _)%settleAndRestart_inv.
  pose proof Ht as [T1 T2 T3 T4 T5 T6 T7 T8 T9]. pose proof (Forall_lookup_1 _ _ _ _ T3 Hp) as [Hs1 Hs2].
  apply Dice.Ticks_Add_Ok in Hadd as [_ Hpen]; [|done|apply T2].
  eapply startRound_Typed; [|apply u32_range|exact Hn|exact Hstart].
  destruct (Typed_insert s index (player <| p_PenaltyTicks := penalty |>) Ht) as [U1 U2 U3 U4 U5 U6 U7 U8 U9]; [done|].
  split; try done. cbn. split; cbn; try done; [apply T2|]. by destruct reveal.
Qed.

Lemma step_Typed s i s' es : Typed s -> TypedInput i -> step s i = Ok (s', es) -> Typed s'.
Proof.
  intros Ht Hi H. destruct i as [actor bid now|actor now seed|timer now seed|userID now seed|reason];
    cbn [step TypedInput] in *.
  - apply PlaceBid_inv in H as (_ & _ & _ & _ & _ & _ & next & d & _ & Hd & -> & _).
    destruct Hi as [Hb Hn]. destruct Ht as [T1 T2 T3 T4 T5 T6 T7 T8 T9]. split; try done; cbn.
    + by intros b [= <-].
    + by eapply deadline_typed.
  - apply OpenDice_inv in H as (_ & _ & _ & _ & bid & _ & H). eapply settleAndRestart_Typed; [done|done| |exact H]. apply CountBid_typed.
  - apply HandleTimeout_inv in H as (_ & _ & _ & _ & _ & _ & H). by eapply settleAndRestart_Typed in H.
  - apply RevokeParticipant_inv in H as (_ & _ & _ & index & player & Hp & _ & _ & Hres).
    pose proof (Forall_lookup_1 _ _ _ _ (ty_players _ Ht) Hp) as [Hs1 Hs2].
    destruct (Typed_insert s index (player <| p_Active := false |>) Ht) as [U1 U2 U3 U4 U5 U6 U7 U8 U9]; [done|].
    assert (Hw : Typed (withoutPlayer s index player userID)).
    { split; try done. cbn. apply Forall_forall. intros roll Hroll%list_elem_of_In%filter_In. destruct Hroll as [Hroll _]. rewrite Forall_forall in U8. by apply U8, list_elem_of_In. }
    destruct Hres as [_|_ _|first s1 ev _ _ _ _ Hstart].
    + destruct Hw. by split.
    + done.
    + eapply startRound_Typed; [|apply u32_range|exact Hi|exact Hstart]. destruct Hw. by split.
  - apply Finish_inv in H as (_ & _ & r & _ & _ & -> & _). destruct Ht. by split.
Qed.

Lemma step_WellFormed s i s' es :
  is_u32 (Round s) -> step s i = Ok (s', es) -> WellFormed s' /\ same_frozen s s'.
Proof.
  intros Hr H. destruct i; cbn [step] in H.
  - by eapply PlaceBid_WellFormed.
  - by eapply OpenDice_WellFormed.
  - by eapply HandleTimeout_WellFormed.
  - by eapply RevokeParticipant_WellFormed.
  - by eapply Finish_WellFormed.
Qed.

(** Every operation starts by validating the snapshot it is given. *)
Lemma step_requires_valid s i s' es :
  step s i = Ok (s', es) -> WellFormed s /\ Phase s = PhaseBidding.
Proof.
  destruct i; cbn [step]; intros H.
  - by apply PlaceBid_inv in H as (? & ? & _).
  - by apply OpenDice_inv in H as (? & ? & _).
  - by apply HandleTimeout_inv in H as (? & ? & _).
  - by apply RevokeParticipant_inv in H as (? & ? & _).
  - by apply Finish_inv in H as (? & ? & _).
Qed.

(** ** The engine interface *)
Definition Initial (s : State) : Prop :=
  exists cfg participants seat now seed es,
    TypedConfig cfg /\ Forall (fun p => is_u32 (SeatIndex p)) participants /\ is_i64 now /\
    NewState cfg participants seat now seed = Ok (s, es).

#[global] Instance liars_ops : EngineOps State Input Event (RuleError ErrorCode) := {|
  engine_step := step;
  engine_input := TypedInput;
  engine_initial := Initial;
  engine_valid s := Validate s = Ok tt /\ Typed s;
  engine_finished s := Phase s =? PhaseFinished;
|}.

Lemma Initial_Typed s : Initial s -> Typed s.
Proof.
  intros (cfg & ps & seat & now & seed & es & Hc & Hs & Hn & H).
  apply NewState_inv in H as (Hro & _ & _ & ev & Hstart & _).
  eapply startRound_Typed; [| |exact Hn|exact Hstart]; [|unfold is_u32, maxUint32; lia].
  split; cbn; try done. apply Forall_fmap, Forall_forall. intros p Hp.
  rewrite Forall_forall in Hs. split; [|done]. cbn. apply Hs.
  destruct (bySeat_valid _ _ _ Hro) as (_ & _ & Hperm). by rewrite <- Hperm.
Qed.

#[global] Instance liars_laws : EngineLaws State Input Event (RuleError ErrorCode).
Proof.
  split; cbn.
  - intros s Hi. split; [|by apply Initial_Typed]. apply Validate_WellFormed.
    destruct Hi as (? & ? & ? & ? & ? & ? & _ & _ & _ & H). by eapply NewState_WellFormed.
  - intros s i s' es [_ Ht] Hi H. split; [|by eapply step_Typed].
    apply Validate_WellFormed. eapply step_WellFormed; [apply Ht|exact H].
  - intros s i Hf. destruct (step s i) as [[s' es]|] eqn:E; [|done].
    apply step_requires_valid in E as [_ Hp]. by rewrite Hp in Hf.
Qed.

End LiarsDiceFacts.
