(* ===== verification/LiarsDiceTheorems.v ===== *)
(** * Liar's dice: theorems

    The properties of the engine a session relies on, each with a witness on a
    concrete three-player session ([demo]) whose dice are really rolled. *)

From S2P Require Import Prelude Identifier Dice Roster Engine LiarsDice LiarsDiceFacts.

Module LiarsDiceTheorems.
Import Roster LiarsDice LiarsDiceFacts.

(** ** A concrete session *)
Definition demo_seed : list Z := Z.of_nat <$> seq 1 32.
Definition demo_participants : list Participant :=
  [mkParticipant "carol" 7; mkParticipant "alice" 1; mkParticipant "bob" 4].
Definition demo_config : Config := DefaultConfig 3.

Definition state_of (r : res (State * list Event)) (default : State) : State :=
  match r with Ok (s, _) => s | Err _ => default end.
Definition events_of (r : res (State * list Event)) : list Event :=
  match r with Ok (_, es) => es | Err _ => [] end.

Definition zeroState : State :=
  mkState 0 0 0 demo_config [] "" "" "" None 0 [] zeroSettlement "".

(** Round one, alice to bid. *)
Definition demo_start : State :=
  Eval vm_compute in state_of (NewState demo_config demo_participants 1 1000 demo_seed) zeroState.
(** Alice bid three flying fives, bob to act. *)
Definition demo_bid : Bid := mkBid 3 5 BidModeFlying.
Definition demo_second : State :=
  Eval vm_compute in state_of (PlaceBid demo_start "alice" demo_bid 2000) zeroState.
(** Bob opened: round two. *)
Definition demo_opened : State :=
  Eval vm_compute in state_of (OpenDice demo_second "bob" 3000 demo_seed) zeroState.

Example demo_start_ok :
  is_ok (NewState demo_config demo_participants 1 1000 demo_seed) = true.
Proof. vm_compute. reflexivity. Qed.


Lemma demo_initial : Initial demo_start.
Proof.
  exists demo_config, demo_participants, 1, 1000, demo_seed,
    (events_of (NewState demo_config demo_participants 1 1000 demo_seed)).
  split_and!.
  - in_range.
  - repeat constructor; in_range.
  - in_range.
  - vm_compute. reflexivity.
Qed.

Lemma demo_second_reachable : reachable demo_second.
Proof.
  eapply (reachable_step demo_start (InPlaceBid "alice" demo_bid 2000)
            demo_second (events_of (PlaceBid demo_start "alice" demo_bid 2000))).
  - apply reachable_initial, demo_initial.
  - in_range.
  - vm_compute. reflexivity.
Qed.

(** ** Snapshots *)

(** C33: Every snapshot a session can reach, from any accepted start and by any
    sequence of accepted bids, openings, timeouts, revocations and finishes,
    passes the engine's own [Validate] and keeps every integer inside its Go
    type. *)
Theorem session_always_valid s :
  reachable s -> Validate s = Ok tt /\ Typed s.
Proof. intros H. exact (reachable_valid s H). Qed.

Lemma session_always_valid_witness : reachable demo_second /\ Validate demo_second = Ok tt.
Proof.
  split; [apply demo_second_reachable|].
  apply (session_always_valid demo_second demo_second_reachable).
Defined.

(** No accepted input ever changes the frozen participants (identity and
    seat of every player) or the frozen configuration. *)
Theorem step_keeps_frozen s i s' es :
  is_u32 (Round s) -> step s i = Ok (s', es) ->
  participantOf <$> Players s' = participantOf <$> Players s /\ config s' = config s.
Proof. intros Hr H. by apply (step_WellFormed s i s' es Hr) in H as [_ ?]. Qed.

Lemma step_keeps_frozen_witness :
  participantOf <$> Players demo_opened = participantOf <$> Players demo_second /\
  config demo_opened = config demo_second.
Proof.
  apply (step_keeps_frozen demo_second (InOpenDice "bob" 3000 demo_seed) demo_opened
           (events_of (OpenDice demo_second "bob" 3000 demo_seed))); [in_range|].
  vm_compute. reflexivity.
Defined.

(** ** Bidding *)

(** The progress measure of bidding: strict quantities weigh double, then the
    face, then flying over strict. *)
Definition bid_rank (b : Bid) : Z :=
  16 * (if b_Mode b =? BidModeFlying then b_Quantity b else 2 * b_Quantity b)
  + 2 * b_Face b + (if b_Mode b =? BidModeFlying then 1 else 0).

Lemma bidMalformed_false cfg b :
  bidMalformed cfg b = false ->
  b_Quantity b <> 0 /\ 1 <= b_Face b <= 6 /\
  (b_Mode b = BidModeFlying /\ b_Face b <> 1 \/ b_Mode b = BidModeStrict /\ c_StrictEnabled cfg = true).
Proof.
  unfold bidMalformed. intros H. to_prop. split_and!; try lia.
  unfold BidModeFlying, BidModeStrict in *. bool_cases; try lia; auto.
Qed.

Lemma bidAtLeast_inv next anchor equalityAllowed :
  bidAtLeast next anchor equalityAllowed = true ->
  b_Quantity anchor < b_Quantity next \/
  b_Quantity anchor = b_Quantity next /\
  (b_Face anchor < b_Face next \/ equalityAllowed = true /\ b_Face anchor = b_Face next).
Proof.
  unfold bidAtLeast. intros H.
  destruct (b_Quantity anchor <? b_Quantity next) eqn:E1; [left; lia|].
  destruct (b_Quantity next <? b_Quantity anchor) eqn:E2; [done|]. right.
  split; [lia|]. destruct equalityAllowed; to_prop; [|lia].
  destruct (decide (b_Face anchor = b_Face next)); [by right|left; lia].
Qed.

(** The conversion anchor of a mode switch. *)
Lemma ValidateBid_inv cfg previous next :
  TypedBid previous -> TypedBid next -> ValidateBid cfg (Some previous) next = Ok tt ->
  bidMalformed cfg previous = false /\
  (b_Mode previous = b_Mode next /\ bidAtLeast next previous false = true \/
   b_Mode previous = BidModeStrict /\ b_Mode next = BidModeFlying /\
     bidAtLeast next (mkBid (b_Quantity previous * 2) (b_Face previous) (b_Mode next)) true = true \/
   b_Mode previous = BidModeFlying /\ b_Mode next = BidModeStrict /\
     bidAtLeast next (mkBid (b_Quantity previous / 2 + 1) (b_Face previous) (b_Mode next)) true = true).
Proof.
  intros Hp Hn H. pose proof (ValidateBid_wellformed _ _ _ H) as Hwn.
  apply bidMalformed_false in Hwn as (_ & _ & Hmn).
  unfold ValidateBid in H. do 6 inv_result H. split; [done|].
  pose proof (bidMalformed_false _ _ E4) as (Hq & _ & Hmp).
  destruct Hp as (Hpq & _ & _).
  inv_result H; [inv_result H; to_prop; by left|]. right.
  inv_result H. inv_result H. to_prop. unfold BidModeFlying, BidModeStrict in *.
  inv_results E6; to_prop.
  - left. split_and!; [done|lia|]. rewrite u32_small in E7; [done|].
    unfold is_u32, maxUint32 in *. change (4294967295 / 2) with 2147483647 in *. lia.
  - right. split_and!; [lia|lia|]. rewrite u32_small in E7; [done|].
    unfold is_u32, maxUint32 in *. pose proof (Z.div_le_upper_bound (b_Quantity previous) 2 2147483648).
    pose proof (Z.div_pos (b_Quantity previous) 2). lia.
Qed.

Lemma bid_rank_step cfg previous next :
  TypedBid previous -> TypedBid next -> ValidateBid cfg (Some previous) next = Ok tt ->
  bid_rank previous < bid_rank next.
Proof.
  intros Hp Hn H. pose proof (ValidateBid_wellformed _ _ _ H) as Hwn.
  apply ValidateBid_inv in H as [Hwp Hcases]; [|done|done].
  apply bidMalformed_false in Hwn as (_ & Hfn & _), Hwp as (_ & Hfp & _).
  unfold bid_rank. destruct Hcases as [(Hm & Hb)|[(Hm & Hm' & Hb)|(Hm & Hm' & Hb)]];
    apply bidAtLeast_inv in Hb; cbn [b_Quantity b_Face] in Hb.
  - rewrite Hm. destruct (b_Mode next =? BidModeFlying); destruct Hb as [?|[? [?|[? ?]]]]; try done; lia.
  - rewrite Hm, Hm'. cbn [Z.eqb BidModeFlying BidModeStrict Pos.eqb]. lia.
  - rewrite Hm, Hm'. cbn [Z.eqb BidModeFlying BidModeStrict Pos.eqb].
    pose proof (Z.div_mod (b_Quantity previous) 2). pose proof (Z.mod_pos_bound (b_Quantity previous) 2). lia.
Qed.

(** Every accepted bid of a round, also across strict and flying mode
    switches, strictly increases the rank of the standing bid, so no claim is
    ever repeated and no conversion loop exists. *)
Theorem bid_rank_increases cfg previous next :
  TypedBid previous -> TypedBid next -> ValidateBid cfg (Some previous) next = Ok tt ->
  bid_rank previous < bid_rank next.
Proof. apply bid_rank_step. Qed.

(** A strict claim of four sixes answered by eight flying sixes. *)
Lemma bid_rank_increases_witness :
  bid_rank (mkBid 4 6 BidModeStrict) < bid_rank (mkBid 8 6 BidModeFlying).
Proof.
  apply (bid_rank_increases demo_config); [in_range|in_range|]. vm_compute. reflexivity.
Defined.

(** The bids accepted one after another in one round. *)
Fixpoint accepted_bids (cfg : Config) (previous : option Bid) (bids : list Bid) : bool :=
  match bids with
  | [] => true
  | b :: rest => is_ok (ValidateBid cfg previous b) && accepted_bids cfg (Some b) rest
  end.

Lemma accepted_bids_rank cfg previous bids :
  TypedBid previous -> Forall TypedBid bids -> accepted_bids cfg (Some previous) bids = true ->
  bid_rank previous + Z.of_nat (length bids) <= bid_rank (default previous (last bids)).
Proof.
  revert previous. induction bids as [|b bids IH]; intros previous Hp Hb H; cbn [accepted_bids] in H.
  - cbn. lia.
  - apply andb_prop in H as [Hv Hr]. apply is_ok_unit in Hv. inversion Hb as [|? ? Hb1 Hb2]; subst.
    pose proof (ValidateBid_wellformed _ _ _ Hv) as Hw.
    assert (Hlt : bid_rank previous < bid_rank b) by by eapply bid_rank_step.
    specialize (IH b Hb1 Hb2 Hr). rewrite last_cons. cbn [length].
    destruct (last bids); cbn in *; lia.
Qed.

Lemma bid_rank_bound cfg b :
  TypedBid b -> bidMalformed cfg b = false -> 0 < bid_rank b <= 137438953453.
Proof.
  intros (Hq & _ & _) (? & Hf & _)%bidMalformed_false. unfold bid_rank, is_u32, maxUint32 in *.
  destruct (b_Mode b =? BidModeFlying); lia.
Qed.

Lemma accepted_bids_wellformed cfg previous bids b :
  accepted_bids cfg previous bids = true -> b ∈ bids -> bidMalformed cfg b = false.
Proof.
  revert previous. induction bids as [|a bids IH]; intros previous H Hb; [inversion Hb|].
  cbn [accepted_bids] in H. apply andb_prop in H as [Hv Hr]. apply is_ok_unit in Hv.
  apply elem_of_cons in Hb as [->|Hb]; [by eapply ValidateBid_wellformed|by eapply IH].
Qed.

(** Bidding terminates: whatever the configuration, the accepted bids of
    one round (the first from the empty table) never number more than the
    largest rank, so a round cannot be prolonged for ever by raising. *)
Theorem bidding_terminates cfg bids :
  Forall TypedBid bids -> accepted_bids cfg None bids = true ->
  Z.of_nat (length bids) <= 137438953453.
Proof.
  intros Ht H. destruct bids as [|b bids]; [cbn; lia|].
  pose proof (accepted_bids_wellformed cfg None (b :: bids)) as Hw.
  specialize (Hw (default b (last bids)) H). cbn [accepted_bids] in H. apply andb_prop in H as [_ H].
  apply Forall_cons in Ht as [Hb Ht]. pose proof (accepted_bids_rank cfg b bids Hb Ht H) as Hrank.
  destruct (bid_rank_bound cfg b) as [Hpos _]; [done| |].
  { destruct bids as [|b' bids]; [apply Hw; constructor|]. cbn [accepted_bids] in H.
    apply andb_prop in H as [H _]. apply is_ok_unit in H. apply ValidateBid_inv in H; [by destruct H|done|].
    by apply Forall_cons in Ht as [? _]. }
  assert (Hin : default b (last bids) ∈ b :: bids).
  { destruct (last bids) as [l|] eqn:E; cbn; [|constructor]. constructor. by apply last_Some_elem_of. }
  destruct (bid_rank_bound cfg (default b (last bids))) as [_ Hmax].
  - destruct (last bids) as [l|] eqn:E; cbn; [|done]. rewrite Forall_forall in Ht.
    by apply Ht, last_Some_elem_of.
  - by apply Hw.
  - cbn [length]. lia.
Qed.

(** Three flying fives, three strict sixes, six flying sixes. *)
Lemma bidding_terminates_witness :
  accepted_bids demo_config None [demo_bid; mkBid 3 6 BidModeStrict; mkBid 6 6 BidModeFlying] = true /\
  Z.of_nat (length [demo_bid; mkBid 3 6 BidModeStrict; mkBid 6 6 BidModeFlying]) <= 137438953453.
Proof.
  split; [vm_compute; reflexivity|]. apply (bidding_terminates demo_config).
  - repeat constructor; in_range.
  - vm_compute. reflexivity.
Defined.

(** ** Counting *)

Lemma count_faces cfg bid faces count :
  0 <= count -> count + Z.of_nat (length faces) <= maxUint32 ->
  foldl (fun count face => if countsFor cfg bid face then u32 (count + 1) else count) count faces
  = count + Z.of_nat (countb (countsFor cfg bid) faces).
Proof.
  revert count. induction faces as [|f faces IH]; intros count H0 Hmax; cbn in *; [lia|].
  unfold countb in *. cbn. destruct (countsFor cfg bid f) eqn:E; cbn [length].
  - rewrite u32_small by (unfold is_u32; lia). rewrite IH; lia.
  - rewrite IH; lia.
Qed.

(** All the dice on the table. *)
Definition tableDice (s : State) : list Z := concat (r_Faces <$> PrivateDice s).

Lemma count_rolls cfg bid (active : list string) rolls count :
  Forall (fun r => r_UserID r ∈ active) rolls -> 0 <= count ->
  count + Z.of_nat (length (concat (r_Faces <$> rolls))) <= maxUint32 ->
  foldl (fun count roll =>
           if bool_decide (r_UserID roll ∈ active)
           then foldl (fun count face => if countsFor cfg bid face then u32 (count + 1) else count)
                      count (r_Faces roll)
           else count) count rolls
  = count + Z.of_nat (countb (countsFor cfg bid) (concat (r_Faces <$> rolls))).
Proof.
  intros Ha. revert count. induction Ha as [|r rolls Hr _ IH]; intros count H0 Hmax.
  { unfold countb. cbn. lia. }
  cbn [foldl fmap list_fmap concat] in *. rewrite bool_decide_eq_true_2 by done. rewrite length_app in Hmax. rewrite countb_app.
  pose proof (countb_le (countsFor cfg bid) (r_Faces r)).
  rewrite count_faces by lia. rewrite IH; lia.
Qed.

Lemma concat_length_le (rolls : list PrivateRoll) n :
  Forall (fun r => Z.of_nat (length (r_Faces r)) = n) rolls ->
  Z.of_nat (length (concat (r_Faces <$> rolls))) = Z.of_nat (length rolls) * n.
Proof. induction 1 as [|r rolls Hr _ IH]; cbn; [lia|]. rewrite length_app. lia. Qed.

Lemma tableDice_length s :
  WellFormed s -> Bidding s ->
  Z.of_nat (length (tableDice s)) = Z.of_nat (activeCount (Players s)) * c_DicePerPlayer (config s) /\
  Z.of_nat (length (tableDice s)) <= 48.
Proof.
  intros Hwf Hb. unfold tableDice. rewrite (concat_length_le _ _ (rolls_size _ _ _ (bid_rolls _ Hb))).
  rewrite (bid_count _ Hb). split; [done|].
  pose proof (countb_le activeOf (Players s)) as Hle. fold (activeCount (Players s)) in Hle.
  pose proof (roster_count _ _ _ (wf_roster _ Hwf)) as Hc. rewrite length_fmap in Hc.
  pose proof (wf_config _ Hwf) as Hcfg. unfold Config_Validate in Hcfg. inv_result Hcfg. to_prop.
  unfold MaximumPlayers, MaximumDicePerPlayer, MinimumDicePerPlayer in *. nia.
Qed.

Lemma CountBid_exact s bid :
  WellFormed s -> Bidding s ->
  CountBid s bid = Z.of_nat (countb (countsFor (config s) bid) (tableDice s)).
Proof.
  intros Hwf Hb. unfold CountBid. destruct (tableDice_length s Hwf Hb) as [_ Hlen].
  rewrite count_rolls; [unfold tableDice; lia| |lia|unfold tableDice, maxUint32 in *; lia].
  eapply Forall_impl; [apply (rolls_owned _ _ _ (bid_rolls _ Hb))|]. cbn. intros r Hr.
  apply (isActive_iff _ _ (wf_users _ Hwf)) in Hr as (p & Hp & <- & Ha).
  apply list_elem_of_fmap_2, list_elem_of_In, filter_In. split; [by apply list_elem_of_In|done].
Qed.

(** How many dice of the table show a face. *)
Definition showing (face : Z) (dice : list Z) : Z := Z.of_nat (countb (Z.eqb face) dice).

(** Ones stand for the face of a flying bid on another face, where the session
    plays them wild. *)
Definition onesJoin (cfg : Config) (bid : Bid) : Prop :=
  b_Mode bid = BidModeFlying /\ c_OnesWild cfg = true /\ b_Face bid <> 1.

#[local] Instance onesJoin_dec cfg bid : Decision (onesJoin cfg bid).
Proof. unfold onesJoin. apply _. Defined.

Lemma countsFor_showing cfg bid dice :
  Z.of_nat (countb (countsFor cfg bid) dice) = showing (b_Face bid) dice + (if decide (onesJoin cfg bid) then showing 1 dice else 0).
Proof.
  unfold showing. induction dice as [|face dice IH]; [by destruct (decide _)|].
  assert (Hface : countsFor cfg bid face = (b_Face bid =? face) || bool_decide (onesJoin cfg bid) && (1 =? face)).
  { unfold countsFor. rewrite (Z.eqb_sym face (b_Face bid)), (Z.eqb_sym face 1). f_equal. f_equal.
    case_bool_decide as Hj; unfold onesJoin in Hj;
      destruct (Z.eqb_spec (b_Mode bid) BidModeFlying), (c_OnesWild cfg), (Z.eqb_spec (b_Face bid) 1); cbn; tauto. }
  unfold countb in *. cbn [List.filter]. rewrite Hface.
  assert (Hone : onesJoin cfg bid -> (b_Face bid =? face) && (1 =? face) = false) by (unfold onesJoin; lia).
  case_bool_decide as Hj; destruct (decide (onesJoin cfg bid)); try done;
    destruct (b_Face bid =? face), (1 =? face); cbn [orb andb length] in *; try lia; by specialize (Hone Hj).
Qed.

(** C35: In a live round [CountBid] is the number of dice on the table that
    show the face of the bid, and, exactly for a flying bid on another face where
    ones are wild, of those that show a one as well; the unsigned counter skips
    no roll and never wraps, and the table holds exactly [DicePerPlayer] dice for
    every active player, at most 48. *)
Theorem CountBid_counts_table s bid :
  Validate s = Ok tt -> Phase s = PhaseBidding ->
  CountBid s bid = showing (b_Face bid) (tableDice s) + (if decide (onesJoin (config s) bid) then showing 1 (tableDice s) else 0) /\
  Z.of_nat (length (tableDice s)) = Z.of_nat (activeCount (Players s)) * c_DicePerPlayer (config s) /\
  Z.of_nat (length (tableDice s)) <= 48.
Proof.
  intros Hwf%Validate_WellFormed Hp. destruct (wf_bidding _ Hwf) as [_ Hb]; [by rewrite Hp|].
  split; [|by apply tableDice_length]. rewrite <- countsFor_showing. by apply CountBid_exact.
Qed.

Lemma CountBid_counts_table_witness :
  CountBid demo_second demo_bid = showing 5 (tableDice demo_second) + showing 1 (tableDice demo_second) /\
  length (tableDice demo_second) = 15%nat.
Proof.
  split; [|vm_compute; reflexivity].
  apply (CountBid_counts_table demo_second demo_bid); vm_compute; reflexivity.
Defined.

(** ** Settlement *)
Definition penaltyOf (s : State) (userID : string) : Z :=
  match playerIndex (Players s) userID with
  | Some index => p_PenaltyTicks (Players s !!! index)
  | None => 0
  end.

(** Exactly one participant pays, the configured amount; the next round starts
    on an empty table. *)
Record PaidBy (s s' : State) (loser : string) : Prop := {
  paid_frozen : frozenUser (Players s) loser;
  paid_exact u : penaltyOf s' u =
    penaltyOf s u + (if String.eqb u loser then c_PenaltyTicks (config s) else 0);
  paid_active : p_Active <$> Players s' = p_Active <$> Players s;
  paid_round : Round s' = Round s + 1;
  paid_table : CurrentBid s' = None /\ LastBidderUserID s' = ""%string;
}.

Lemma penaltyOf_insert s s' index player penalty u :
  NoDup (userOf <$> Players s) -> Players s !! index = Some player ->
  Players s' = <[index := player <| p_PenaltyTicks := penalty |>]> (Players s) ->
  penaltyOf s' u = if String.eqb u (p_UserID player) then penalty else penaltyOf s u.
Proof.
  intros Hnd Hp Heq. unfold penaltyOf.
  assert (Hu : userOf <$> Players s' = userOf <$> Players s).
  { rewrite Heq. by apply (fmap_insert_same userOf _ _ player). }
  rewrite (playerIndex_users _ _ u Hu), Heq.
  pose proof (playerIndex_lookup _ _ _ Hnd Hp) as Hidx. change (userOf player) with (p_UserID player) in Hidx.
  destruct (String.eqb u (p_UserID player)) eqn:E; to_prop.
  - subst u. rewrite Hidx. rewrite list_lookup_total_insert_eq; [done|]. by eapply lookup_lt_Some.
  - destruct (playerIndex (Players s) u) as [j|] eqn:Ej; [|done].
    rewrite list_lookup_total_insert_ne; [done|]. intros <-. apply E.
    apply playerIndex_Some in Ej as (q & Hq & <- & _). by simplify_eq.
Qed.

Lemma settle_PaidBy s loser reason opener actual reveal now seed s' es :
  WellFormed s -> Typed s ->
  settleAndRestart s loser reason opener actual reveal now seed = Ok (s', es) -> PaidBy s s' loser.
Proof.
  intros Hwf Ht H. apply settleAndRestart_inv in H as
    (index & player & penalty & first & ev & Hp & Hu & Hidx & Hadd & Hmax & _ & Hstart & _).
  apply startRound_inv in Hstart as (_ & d & rolls & _ & _ & -> & _).
  pose proof (Forall_lookup_1 _ _ _ _ (ty_players _ Ht) Hp) as [_ Hpen].
  apply Dice.Ticks_Add_Ok in Hadd as [Hadd _]; [|done|apply (ty_config _ Ht)].
  split; cbn [Players Round CurrentBid LastBidderUserID]; try done.
  - apply playerIndex_is_Some. eauto.
  - intros u. rewrite (penaltyOf_insert s _ index player penalty u (wf_users _ Hwf) Hp) by done.
    rewrite Hu. destruct (String.eqb u loser) eqn:E; to_prop; [|lia].
    subst u. unfold penaltyOf. rewrite Hidx, (list_lookup_total_correct _ _ _ Hp). lia.
  - by apply (fmap_insert_same p_Active _ _ player).
  - apply u32_succ; [apply Ht|done].
Qed.

(** Opening the dice settles the standing claim exactly: the challenger
    pays iff the dice on the table that support the bid reach the claimed
    quantity, otherwise the last bidder pays; exactly the configured ticks are
    added to exactly that player, nobody's activity changes, the round number
    advances by one and the new round starts without a bid. *)
Theorem OpenDice_settles s actor now seed s' es :
  Typed s -> OpenDice s actor now seed = Ok (s', es) ->
  exists bid, CurrentBid s = Some bid /\ actor = CurrentActorUserID s /\
    PaidBy s s' (if b_Quantity bid <=? Z.of_nat (countb (countsFor (config s) bid) (tableDice s))
                 then actor else LastBidderUserID s).
Proof.
  intros Ht (Hwf & Hp & Ha & _ & bid & Hb & H)%OpenDice_inv.
  destruct (wf_bidding _ Hwf) as [_ Hbid]; [by rewrite Hp|].
  exists bid. split_and!; [done|done|]. rewrite <- CountBid_exact by done.
  by eapply settle_PaidBy.
Qed.

Lemma demo_second_typed : Typed demo_second.
Proof. apply (reachable_valid demo_second demo_second_reachable). Qed.

Lemma OpenDice_settles_witness :
  exists bid, CurrentBid demo_second = Some bid /\ "bob"%string = CurrentActorUserID demo_second /\
    PaidBy demo_second demo_opened
      (if b_Quantity bid <=? Z.of_nat (countb (countsFor (config demo_second) bid) (tableDice demo_second))
       then "bob" else LastBidderUserID demo_second).
Proof.
  apply (OpenDice_settles demo_second "bob" 3000 demo_seed demo_opened
           (events_of (OpenDice demo_second "bob" 3000 demo_seed)) demo_second_typed).
  vm_compute. reflexivity.
Defined.

(** A timeout charges exactly the actor whose deadline elapsed, reveals no
    dice and starts the next round; it is accepted only for the timer of the
    current turn at or after its persisted deadline. *)
Theorem HandleTimeout_settles s timer now seed s' es :
  Typed s -> HandleTimeout s timer now seed = Ok (s', es) ->
  CurrentTimer s = Some timer /\ t_DeadlineUnixMillis timer <= now /\
  PaidBy s s' (CurrentActorUserID s) /\ s_RevealedDice (LastSettlement s') = [] /\
  Forall (fun e => e_Dice e = []) es.
Proof.
  intros Ht (Hwf & Hp & _ & -> & Hd & Hnow & H)%HandleTimeout_inv.
  pose proof (settle_PaidBy _ _ _ _ _ _ _ _ _ _ Hwf Ht H) as Hpaid.
  apply settleAndRestart_inv in H as
    (index & player & penalty & first & ev & _ & _ & _ & _ & _ & _ & Hstart & ->).
  apply startRound_inv in Hstart as (_ & d & rolls & _ & _ & -> & ->).
  split_and!; try done; [|repeat constructor].
  unfold CurrentTimer. rewrite Hp. apply Z.eqb_neq in Hd. by rewrite Hd.
Qed.

Definition demo_timer : ActionTimer := mkTimer 1 "bob" 32000.

Lemma HandleTimeout_settles_witness :
  CurrentTimer demo_second = Some demo_timer /\
  PaidBy demo_second (state_of (HandleTimeout demo_second demo_timer 32000 demo_seed) zeroState) "bob".
Proof.
  split; [vm_compute; reflexivity|].
  apply (HandleTimeout_settles demo_second demo_timer 32000 demo_seed _
           (events_of (HandleTimeout demo_second demo_timer 32000 demo_seed)) demo_second_typed).
  vm_compute. reflexivity.
Defined.

(** ** Secrecy of the dice *)

Lemma startRound_dice s round first now seed s' ev :
  startRound s round first now seed = Ok (s', ev) -> e_Dice ev = [].
Proof. by intros (_ & d & rolls & _ & _ & _ & ->)%startRound_inv. Qed.

(** C34: Public events never leak private dice: an accepted input emits dice
    only in the reveal event of an opening, and then exactly the rolls of the
    round that the opening just ended; bids, timeouts, revocations and finishes
    emit none. *)
Theorem events_reveal_only_opened s i s' es e :
  step s i = Ok (s', es) -> e ∈ es -> e_Dice e <> [] ->
  (exists actor now seed, i = InOpenDice actor now seed) /\
  e_Kind e = EventDiceRevealed /\ e_Dice e = PrivateDice s /\ e_Round e = Round s /\
  Round s <> Round s'.
Proof.
  intros H He Hd. destruct i; cbn [step] in H.
  - apply PlaceBid_inv in H as (_ & _ & _ & _ & _ & _ & ? & ? & _ & _ & _ & ->).
    by apply list_elem_of_singleton in He as ->.
  - apply OpenDice_inv in H as (Hwf & _ & _ & _ & bid & _ & H).
    apply settleAndRestart_inv in H as
      (index & player & penalty & first & ev & _ & _ & _ & _ & Hmax & _ & Hstart & ->).
    pose proof (startRound_dice _ _ _ _ _ _ _ Hstart) as Hev.
    apply startRound_inv in Hstart as (_ & ? & ? & _ & _ & -> & _).
    cbn [app] in He. rewrite !elem_of_cons in He. destruct He as [->|[->|[->|He]]]; try done; [|inversion He].
    split_and!; [by eauto|done|done|done|]. cbn [Round]. unfold u32.
    pose proof (Z.mod_pos_bound (Round s + 1) 4294967296). intros Heq.
    rewrite (Z.mod_small (Round s + 1)) in Heq; unfold maxUint32 in *; lia.
  - apply HandleTimeout_inv in H as (_ & _ & _ & _ & _ & _ & H).
    apply settleAndRestart_inv in H as
      (index & player & penalty & first & ev & _ & _ & _ & _ & _ & _ & Hstart & ->).
    pose proof (startRound_dice _ _ _ _ _ _ _ Hstart) as Hev.
    cbn [app] in He. rewrite !elem_of_cons in He. destruct He as [->|[->|He]]; [done|done|inversion He].
  - apply RevokeParticipant_inv in H as (_ & _ & _ & index & player & _ & _ & _ & Hres).
    destruct Hres as [_|_ _|first s1 ev _ _ _ _ Hstart];
      try pose proof (startRound_dice _ _ _ _ _ _ _ Hstart) as Hev;
      rewrite !elem_of_cons in He; repeat destruct He as [->|He]; done || inversion He.
  - apply Finish_inv in H as (_ & _ & r & _ & _ & _ & ->).
    by apply list_elem_of_singleton in He as ->.
Qed.

Lemma events_reveal_only_opened_witness :
  exists e, e ∈ events_of (step demo_second (InOpenDice "bob" 3000 demo_seed)) /\ e_Dice e <> [] /\
    e_Dice e = PrivateDice demo_second.
Proof.
  exists (default zeroEvent (head (events_of (step demo_second (InOpenDice "bob" 3000 demo_seed))))).
  assert (Hin : default zeroEvent (head (events_of (step demo_second (InOpenDice "bob" 3000 demo_seed))))
    ∈ events_of (step demo_second (InOpenDice "bob" 3000 demo_seed))) by (vm_compute; left).
  assert (Hd : e_Dice (default zeroEvent
    (head (events_of (step demo_second (InOpenDice "bob" 3000 demo_seed))))) <> []) by (vm_compute; discriminate).
  split_and!; [exact Hin|exact Hd|].
  apply (events_reveal_only_opened demo_second (InOpenDice "bob" 3000 demo_seed) demo_opened
           (events_of (step demo_second (InOpenDice "bob" 3000 demo_seed))) _); [|exact Hin|exact Hd].
  vm_compute. reflexivity.
Defined.

(** ** Turns and timers *)

Lemma nextActiveUser_other s actor :
  WellFormed s -> Bidding s -> isActive (Players s) actor = true ->
  exists u, nextActiveUser s actor = Ok u /\ u <> actor.
Proof.
  intros Hwf Hb Ha. unfold isActive in Ha. unfold nextActiveUser.
  destruct (playerIndex (Players s) actor) as [i|] eqn:Ei; [|done].
  apply playerIndex_Some in Ei as (p & Hp & <- & Htot). rewrite Htot in Ha.
  destruct (firstActive_other (Players s) i p (wf_users _ Hwf) Hp Ha (bid_active _ Hb)) as (u & Hf & Hne).
  exists u. by rewrite Hf.
Qed.

(** The turn passes clockwise: after an accepted bid the next actor is the
    nearest active player after the bidder in seat order (every seat skipped
    is inactive), and it is never the bidder. *)
Theorem PlaceBid_turn s actor bid now s' es :
  PlaceBid s actor bid now = Ok (s', es) ->
  CurrentActorUserID s' <> actor /\
  exists i k, playerIndex (Players s) actor = Some i /\ (1 <= k <= length (Players s))%nat /\
    let next j := Players s !!! ((i + j) mod length (Players s))%nat in
    p_UserID (next k) = CurrentActorUserID s' /\ p_Active (next k) = true /\
    forall j, (1 <= j < k)%nat -> p_Active (next j) = false.
Proof.
  intros (Hwf & Hp & Ha & _ & _ & _ & next & d & Hn & _ & -> & _)%PlaceBid_inv.
  destruct (wf_bidding _ Hwf) as [_ Hb]; [by rewrite Hp|]. cbn [CurrentActorUserID update].
  destruct (nextActiveUser_other s actor Hwf Hb) as (u & Hu & Hne).
  { rewrite <- Ha. apply Hb. }
  rewrite Hn in Hu. injection Hu as <-. split; [done|].
  unfold nextActiveUser in Hn. destruct (playerIndex (Players s) actor) as [i|] eqn:Ei; [|done].
  destruct (firstActive _ _) eqn:Ef; [|done]. injection Hn as ->.
  unfold forwardIndexes in Ef.
  destruct (firstActive_seq (Players s) _ _ _ _ Ef) as (k & Hk & Hku & Hka & Hskip).
  exists i, k. split_and!; [done|lia|lia|done|done|done].
Qed.

Lemma PlaceBid_turn_witness : CurrentActorUserID demo_second <> "alice"%string.
Proof.
  apply (PlaceBid_turn demo_start "alice" demo_bid 2000 demo_second
           (events_of (PlaceBid demo_start "alice" demo_bid 2000))).
  vm_compute. reflexivity.
Defined.

Lemma settle_advances s loser reason opener actual reveal now seed s' es :
  Typed s -> settleAndRestart s loser reason opener actual reveal now seed = Ok (s', es) ->
  Phase s' = PhaseBidding /\ Round s' = Round s + 1.
Proof.
  intros Ht (? & ? & ? & ? & ? & _ & _ & _ & _ & Hmax & _ & Hs & _)%settleAndRestart_inv.
  apply startRound_inv in Hs as (_ & ? & ? & _ & _ & -> & _). split; [done|].
  apply u32_succ; [apply Ht|done].
Qed.

(** Timers are single-use: once a bid, an opening or a timeout has been
    accepted, delivering the timer of the previous turn again is rejected as a
    mismatch whatever the time and seed, so no turn is penalised twice. *)
Theorem stale_timer_rejected s i s' es timer now seed :
  Typed s -> (forall u n sd, i <> InRevoke u n sd) -> (forall r, i <> InFinish r) ->
  step s i = Ok (s', es) -> CurrentTimer s = Some timer -> validUnixMillis now = true ->
  HandleTimeout s' timer now seed = ruleError CodeTimerMismatch "timer does not match the current turn".
Proof.
  intros Ht Hr Hf H Hc Hn.
  pose proof (step_WellFormed s i s' es (ty_round _ Ht) H) as [Hwf' _].
  assert (Hstale : Phase s' = PhaseBidding /\
            (t_Round timer <> Round s' \/ t_UserID timer <> CurrentActorUserID s')).
  { unfold CurrentTimer in Hc. destruct (_ || _); [done|]. injection Hc as <-. cbn [t_Round t_UserID].
    destruct i as [actor bid n|actor n sd|tm n sd|u n sd|r]; cbn [step] in H.
    - apply PlaceBid_inv in H as (Hwf & Hp & Ha & _ & _ & _ & next & d & Hnext & _ & -> & _).
      split; [done|]. right. destruct (wf_bidding _ Hwf) as [_ Hb]; [by rewrite Hp|].
      destruct (nextActiveUser_other s actor Hwf Hb) as (v & Hv & Hne).
      { rewrite <- Ha. apply Hb. }
      rewrite Hnext in Hv. injection Hv as <-. cbn. by rewrite Ha.
    - apply OpenDice_inv in H as (Hwf & _ & _ & _ & bid & _ & H).
      destruct (settle_advances _ _ _ _ _ _ _ _ _ _ Ht H) as [? ->]. split; [done|]. left. lia.
    - apply HandleTimeout_inv in H as (Hwf & _ & _ & _ & _ & _ & H).
      destruct (settle_advances _ _ _ _ _ _ _ _ _ _ Ht H) as [? ->]. split; [done|]. left. lia.
    - by destruct (Hr u n sd).
    - by destruct (Hf r). }
  destruct Hstale as [Hp Hstale]. unfold HandleTimeout.
  rewrite (proj2 (Validate_WellFormed s') Hwf'), Hp, Hn. cbn [bind_result Z.eqb PhaseBidding PhaseFinished Pos.eqb negb].
  replace (_ || _) with true; [done|]. symmetry.
  destruct Hstale as [Hst|Hst].
  - apply Z.eqb_neq in Hst. by rewrite Hst.
  - apply String.eqb_neq in Hst. by rewrite Hst, !orb_true_r.
Qed.

Lemma stale_timer_rejected_witness :
  HandleTimeout demo_opened demo_timer 99000 demo_seed =
    ruleError CodeTimerMismatch "timer does not match the current turn".
Proof.
  apply (stale_timer_rejected demo_second (InOpenDice "bob" 3000 demo_seed) demo_opened
           (events_of (step demo_second (InOpenDice "bob" 3000 demo_seed)))).
  - apply demo_second_typed.
  - discriminate.
  - discriminate.
  - vm_compute. reflexivity.
  - vm_compute. reflexivity.
  - reflexivity.
Defined.

(** ** Progress *)

(** Every active player's dice of the round can be drawn from the seed; see
    [Dice.Roll] for the only ways a draw fails. *)
Definition drawable (s : State) (round : Z) (seed : list Z) : Prop :=
  forall p, p ∈ Players s -> p_Active p = true ->
    is_ok (rollFor seed round (c_DicePerPlayer (config s)) p) = true.

Lemma startRound_total s round first now seed :
  isActive (Players s) first = true -> TypedConfig (config s) -> c_ActionTimeoutSeconds (config s) <= 120 ->
  now <= maxInt64 - 120000 -> drawable s round seed ->
  exists s' ev, startRound s round first now seed = Ok (s', ev).
Proof.
  intros Ha Hty Hcfg Hnow Hdraw. unfold startRound. rewrite Clone_id, Ha. cbn [negb]. cbv zeta.
  cbn [config Players update].
  assert (Hd : exists d, deadlineUnixMillis (config s) now = Ok d).
  { unfold deadlineUnixMillis. destruct (_ =? 0); [eauto|].
    replace (maxInt64 - _ <? now) with false by lia. eauto. }
  destruct Hd as [d ->]. cbn [bind_result].
  destruct (map_result_total (rollFor seed round (c_DicePerPlayer (config s)))
              (List.filter p_Active (Players s))) as [rolls ->]; [|cbn; eauto].
  intros p [Hp Hpa]%list_elem_of_In%filter_In. apply Hdraw; [by apply list_elem_of_In|done].
Qed.

Lemma settleAndRestart_total s loser reason opener actual reveal now seed :
  isActive (Players s) loser = true -> Typed s -> c_PenaltyTicks (config s) <= 8 ->
  c_ActionTimeoutSeconds (config s) <= 120 -> now <= maxInt64 - 120000 -> Round s < maxUint32 ->
  penaltyOf s loser <= maxUint32 - 8 -> drawable s (Round s + 1) seed ->
  exists s' es, settleAndRestart s loser reason opener actual reveal now seed = Ok (s', es).
Proof.
  intros Hact Ht Hcp Hct Hnow Hround Hpen Hdraw. unfold settleAndRestart. rewrite Clone_id.
  unfold penaltyOf in Hpen. unfold isActive in Hact.
  destruct (playerIndex (Players s) loser) as [i|] eqn:Ei; [|done].
  pose proof (playerIndex_Some _ _ _ Ei) as (p & Hp & Hu & Htot). rewrite Htot in *.
  pose proof (Forall_lookup_1 _ _ _ _ (ty_players _ Ht) Hp) as [_ Hpt].
  rewrite (Dice.Ticks_Add_total _ _ Hpt) by apply (ty_config _ Ht).
  replace (maxUint32 <? _) with false by lia. cbv zeta.
  replace (Round s =? maxUint32) with false by lia. cbn [Players update].
  rewrite list_lookup_total_insert_eq by (by eapply lookup_lt_Some). cbn [p_Active update]. change (p_Active p) with (activeOf p). rewrite Hact.
  cbn [negb bind_result]. rewrite u32_succ by (try apply Ht; lia).
  match goal with |- context [startRound ?sx ?r loser now seed] =>
    destruct (startRound_total sx r loser now seed) as (s' & ev & Hs) end;
    [| | |exact Hnow| |rewrite Hs; cbn; eauto]; cbn [Players config update].
  - unfold isActive. rewrite (playerIndex_users _ (Players s)) by (by apply (fmap_insert_same userOf _ _ p)).
    rewrite Ei, list_lookup_total_insert_eq by (by eapply lookup_lt_Some). done.
  - apply Ht.
  - done.
  - intros q Hq Hqa. cbn [Players update config] in *.
    apply list_elem_of_lookup_1 in Hq as [j Hj]. destruct (decide (j = i)) as [->|Hne].
    + rewrite list_lookup_insert_eq in Hj by (by eapply lookup_lt_Some). injection Hj as <-.
      apply (Hdraw p); [by eapply list_elem_of_lookup_2|done].
    + rewrite list_lookup_insert_ne in Hj by done.
      apply Hdraw; [by eapply list_elem_of_lookup_2|done].
Qed.

(** A due timer cannot get stuck: in every valid snapshot with a running
    timer, delivering exactly that timer at or after its deadline is accepted,
    as long as the round number, the penalty counters and the clock have not
    run out of their integer types and the seed yields the dice. *)
Theorem due_timer_settles s timer now seed :
  Validate s = Ok tt -> Typed s -> CurrentTimer s = Some timer ->
  t_DeadlineUnixMillis timer <= now <= maxInt64 - 120000 ->
  Round s < maxUint32 -> penaltyOf s (CurrentActorUserID s) <= maxUint32 - 8 ->
  drawable s (Round s + 1) seed ->
  exists s' es, HandleTimeout s timer now seed = Ok (s', es).
Proof.
  intros Hv Ht Hc Hnow Hround Hpen Hdraw. pose proof Hv as Hwf. apply Validate_WellFormed in Hwf.
  unfold CurrentTimer in Hc. destruct (_ || _) eqn:E; [done|]. injection Hc as <-.
  apply orb_false_elim in E as [Hph%negb_false_iff%Z.eqb_eq Hd%Z.eqb_neq].
  cbn [t_DeadlineUnixMillis] in *. destruct (wf_bidding _ Hwf) as [_ Hb]; [by rewrite Hph|].
  assert (Hpos : 0 < ActionDeadlineUnixMillis s).
  { destruct (bid_deadline _ Hb). destruct (decide (c_ActionTimeoutSeconds (config s) = 0)); auto. }
  assert (Hcfg : c_PenaltyTicks (config s) <= 8 /\ c_ActionTimeoutSeconds (config s) <= 120).
  { pose proof (wf_config _ Hwf) as Hcfg. unfold Config_Validate in Hcfg. inv_result Hcfg.
    unfold Dice.TicksPerUnit in *. clear Hcfg. bool_cases; lia. }
  assert (Hm : (t_Round (mkTimer (Round s) (CurrentActorUserID s) (ActionDeadlineUnixMillis s)) =? Round s) &&
      String.eqb (CurrentActorUserID s) (CurrentActorUserID s) = true)
    by (cbn; by rewrite Z.eqb_refl, String.eqb_refl).
  destruct (settleAndRestart_total s (CurrentActorUserID s) SettlementTimeout "" 0 false now seed)
    as (s' & es & Hs); try done; try lia; [apply Hb|]. exists s', es. rewrite <- Hs.
  unfold HandleTimeout. rewrite Hv, Hph. cbn [bind_result t_Round t_UserID t_DeadlineUnixMillis] in *.
  apply andb_prop in Hm as [-> ->]. rewrite Z.eqb_refl. unfold validUnixMillis.
  replace (0 <? now) with true by lia. replace (ActionDeadlineUnixMillis s =? 0) with false by lia.
  replace (now <? ActionDeadlineUnixMillis s) with false by lia. done.
Qed.

Lemma due_timer_settles_witness :
  exists s' es, HandleTimeout demo_second demo_timer 32000 demo_seed = Ok (s', es).
Proof.
  apply (due_timer_settles demo_second demo_timer 32000 demo_seed).
  - vm_compute. reflexivity.
  - apply demo_second_typed.
  - vm_compute. reflexivity.
  - vm_compute. split; discriminate.
  - vm_compute. reflexivity.
  - vm_compute. discriminate.
  - intros p Hp _. unfold demo_second in Hp. cbn [Players] in Hp.
    repeat (apply elem_of_cons in Hp as [->|Hp]; [vm_compute; reflexivity|]). inversion Hp.
Defined.

(** ** Termination and randomness streams *)

(** A finished session is frozen for good: no sequence of inputs, of any
    kind, changes its state or emits an event. *)
Theorem finished_session_absorbs s inputs :
  Phase s = PhaseFinished -> play s inputs = (s, []).
Proof. intros Hp. apply play_finished. cbn. by rewrite Hp. Qed.

Lemma finished_session_absorbs_witness :
  play (state_of (Finish demo_second "") zeroState) [InPlaceBid "bob" (mkBid 9 5 1) 2500; InFinish ""]
  = (state_of (Finish demo_second "") zeroState, []).
Proof. apply finished_session_absorbs. vm_compute. reflexivity. Defined.

Lemma streamOf_sum round seat :
  is_u32 round -> is_u32 seat -> streamOf round seat = round * 2 ^ 32 + seat.
Proof.
  unfold is_u32, maxUint32, streamOf, u64. intros Hr Hs. rewrite Z.shiftl_mul_pow2 by lia.
  rewrite Z.mod_small by lia.
  assert (Hland : Z.land (round * 2 ^ 32) seat = 0).
  { apply Z.bits_inj'. intros n Hn. rewrite Z.land_spec, Z.bits_0. destruct (decide (n < 32)).
    - by rewrite Z.mul_pow2_bits_low.
    - rewrite <- (Z.mod_small seat (2 ^ 32)) by lia. rewrite Z.mod_pow2_bits_high by lia.
      apply andb_false_r. }
  by rewrite <- Z.lxor_lor, <- Z.add_nocarry_lxor.
Qed.

(** The randomness streams of a session are pairwise distinct: the stream
    [round<<32 | seat] identifies the round and the seat, so no two players and
    no two rounds ever share a dice stream of the seed. *)
Theorem streams_distinct round seat round' seat' :
  is_u32 round -> is_u32 seat -> is_u32 round' -> is_u32 seat' ->
  streamOf round seat = streamOf round' seat' -> round = round' /\ seat = seat'.
Proof.
  intros H1 H2 H3 H4. rewrite !streamOf_sum by done. unfold is_u32, maxUint32 in *.
  change (2 ^ 32) with 4294967296. lia.
Qed.

Lemma streams_distinct_witness : 2 = 2 /\ 7 = 7.
Proof. apply streams_distinct; [in_range|in_range|in_range|in_range|reflexivity]. Defined.

End LiarsDiceTheorems.
