(* ===== verification/Dice789.v ===== *)
(** * Dice 7-8-9: the authoritative engine

    Model of [games/dice-789/engine] ([types.go], [config.go], [state.go],
    [actions.go], [errors.go]).  [Phase], [Direction] and [ContinueMode] keep
    their unsigned values and [ResultKind] its string, because decoded
    snapshots may hold any of them; [nil] and empty slices are both [[]].
    Pool and penalty arithmetic is written at [uint32] width.  The properties
    are in [Dice789Facts] and [Dice789Theorems]. *)

From S2P Require Import Prelude Identifier Dice Roster.

Module Dice789.
Import Roster.

(** ** errors.go *)
Inductive ErrorCode :=
| CodeInvalidConfig | CodeInvalidParticipants | CodeInvalidState | CodeInvalidAction
| CodeSessionFinished | CodeNotCurrentActor | CodeNotHost | CodeWrongPhase | CodeTimerMismatch
| CodeTimerNotDue | CodeParticipantInactive | CodeTargetInvalid | CodePoolAmountInvalid
| CodePoolOverflow | CodePenaltyOverflow | CodeRoundOverflow | CodeSeedInvalid
| CodeContinueModeInvalid | CodeDropReportClosed | CodeActionExpired | CodeMalformedPayload
| CodeUnsupportedMigration | CodeProjectionUnavailable.

#[global] Instance ErrorCode_eq_dec : EqDecision ErrorCode.
Proof. solve_decision. Defined.

Abbreviation res := (result (RuleError ErrorCode)).

Definition ruleError {A : Type} (code : ErrorCode) (message : string) : res A :=
  Err (mkRuleError code message).

(** ** types.go *)
Definition PhaseAwaitingRoll : Z := 1.
Definition PhaseResultPending : Z := 2.
Definition PhaseAwaitingAdd : Z := 3.
Definition PhaseAwaitingTarget : Z := 4.
Definition PhaseAwaitingContinue : Z := 5.
Definition PhaseTurnSettled : Z := 6.
Definition PhaseFinished : Z := 7.

Definition DirectionClockwise : Z := 1.
Definition DirectionCounterClockwise : Z := 2.

Definition ResultNone : string := "none".
Definition ResultSeven : string := "seven".
Definition ResultEight : string := "eight".
Definition ResultNine : string := "nine".
Definition ResultDoubleOne : string := "double_one".
Definition ResultDoubleFour : string := "double_four".
Definition ResultDoubleSix : string := "double_six".
Definition ResultOrdinaryPair : string := "ordinary_pair".
Definition ResultOther : string := "other".
Definition ResultDropped : string := "dropped".
Definition ResultRollTimeout : string := "roll_timeout".
Definition ResultCancelled : string := "cancelled".

Definition FinishHostRequested : string := "host_requested".
Definition FinishInsufficientParticipants : string := "insufficient_participants".
Definition FinishPlatformCancelled : string := "platform_cancelled".

Record PlayerState := mkPlayer {
  p_UserID : string;
  p_SeatIndex : Z;
  p_Active : bool;
  p_PenaltyTicks : Z;
}.

#[global] Instance PlayerState_eta : Eta PlayerState := fun r =>
  mkPlayer (p_UserID r) (p_SeatIndex r) (p_Active r) (p_PenaltyTicks r).
#[global] Instance PlayerState_inhabited : Inhabited PlayerState :=
  populate (mkPlayer "" 0 false 0).
#[global] Instance PlayerState_seated : Seated PlayerState :=
  {| userOf := p_UserID; seatOf := p_SeatIndex; activeOf := p_Active |}.

Record PoolLayer := mkLayer { l_Ticks : Z }.

Record TurnSettlement := mkSettlement {
  s_Turn : Z;
  s_SourceUserID : string;
  s_DieOne : Z;
  s_DieTwo : Z;
  s_Sum : Z;
  s_Result : string;
  s_TargetUserID : string;
  s_PoolBeforeTicks : Z;
  s_PoolAfterTicks : Z;
  s_PoolBefore : list PoolLayer;
  s_PoolAfter : list PoolLayer;
  s_EffectTicks : Z;
  s_PenaltyUserID : string;
  s_PenaltyTicks : Z;
  s_DirectionBefore : Z;
  s_DirectionAfter : Z;
  s_NextUserID : string;
  s_Reason : string;
  s_AuditRef : string;
  s_DropReason : string;
}.

#[global] Instance TurnSettlement_eta : Eta TurnSettlement := fun r =>
  mkSettlement (s_Turn r) (s_SourceUserID r) (s_DieOne r) (s_DieTwo r) (s_Sum r) (s_Result r)
    (s_TargetUserID r) (s_PoolBeforeTicks r) (s_PoolAfterTicks r) (s_PoolBefore r) (s_PoolAfter r)
    (s_EffectTicks r) (s_PenaltyUserID r) (s_PenaltyTicks r) (s_DirectionBefore r)
    (s_DirectionAfter r) (s_NextUserID r) (s_Reason r) (s_AuditRef r) (s_DropReason r).

(** [TurnSettlement{Result: ResultNone}]. *)
Definition emptySettlement : TurnSettlement :=
  mkSettlement 0 "" 0 0 0 ResultNone "" 0 0 [] [] 0 "" 0 0 0 "" "" "" "".

(** ** config.go: types *)
Definition CurrentSchemaVersion : Z := 1.
Definition MinimumPlayers : nat := 2.
Definition MaximumPlayers : nat := 12.
Definition MinimumLayers : Z := 1.
Definition MaximumLayers : Z := 6.
Definition MaximumLayerCapacity : Z := 64.

Definition ContinueOptional : Z := 1.
Definition ContinueForcedReroll : Z := 2.
Definition ContinueForcedPass : Z := 3.

Record Config := mkConfig {
  c_InitialPoolTicks : Z;
  c_LayerCapacityTicks : Z;
  c_AddStepTicks : Z;
  c_MaxLayers : Z;
  c_StackedPool : bool;
  c_OrdinaryPairsReverse : bool;
  c_DoubleOneEnabled : bool;
  c_DoubleFourEnabled : bool;
  c_DoubleSixEnabled : bool;
  c_ContinueMode : Z;
  c_LastDigitMatch : bool;
  c_ActionTimeoutSeconds : Z;
  c_DropReportWindowSeconds : Z;
}.

#[global] Instance Config_eta : Eta Config := fun r =>
  mkConfig (c_InitialPoolTicks r) (c_LayerCapacityTicks r) (c_AddStepTicks r) (c_MaxLayers r)
    (c_StackedPool r) (c_OrdinaryPairsReverse r) (c_DoubleOneEnabled r) (c_DoubleFourEnabled r)
    (c_DoubleSixEnabled r) (c_ContinueMode r) (c_LastDigitMatch r) (c_ActionTimeoutSeconds r)
    (c_DropReportWindowSeconds r).

Record State := mkState {
  SchemaVersion : Z;
  Phase : Z;
  Turn : Z;
  HostUserID : string;
  Players : list PlayerState;
  CurrentUserID : string;
  SourceUserID : string;
  TargetUserID : string;
  Direction : Z;
  Pool : list PoolLayer;
  TotalPoolTicks : Z;
  DieOne : Z;
  DieTwo : Z;
  Sum : Z;
  ActionDeadlineUnixMillis : Z;
  config : Config;
  PendingResult : string;
  PendingPoolBeforeTicks : Z;
  PendingDirectionBefore : Z;
  LastSettlement : TurnSettlement;
  FinishReason : string;
}.

#[global] Instance State_eta : Eta State := fun r =>
  mkState (SchemaVersion r) (Phase r) (Turn r) (HostUserID r) (Players r) (CurrentUserID r)
    (SourceUserID r) (TargetUserID r) (Direction r) (Pool r) (TotalPoolTicks r) (DieOne r) (DieTwo r)
    (Sum r) (ActionDeadlineUnixMillis r) (config r) (PendingResult r) (PendingPoolBeforeTicks r)
    (PendingDirectionBefore r) (LastSettlement r) (FinishReason r).

Record ActionTimer := mkTimer {
  t_Turn : Z;
  t_Phase : Z;
  t_CurrentUserID : string;
  t_SourceUserID : string;
  t_TargetUserID : string;
  t_PendingResult : string;
  t_DeadlineUnixMillis : Z;
}.

Definition EventTurnStarted : string := "turn.started".
Definition EventDiceRolled : string := "dice.rolled".
Definition EventEffectSelected : string := "effect.selected".
Definition EventTargetSelected : string := "target.selected".
Definition EventPoolChanged : string := "pot.changed".
Definition EventPenaltyRecorded : string := "penalty.recorded".
Definition EventDirectionChanged : string := "direction.changed".
Definition EventTurnSettled : string := "turn.settled".
Definition EventTurnDropped : string := "turn.dropped_reported".
Definition EventParticipantRevoked : string := "participant.revoked".
Definition EventSessionFinished : string := "session.finished".

Record Event := mkEvent {
  e_Kind : string;
  e_Turn : Z;
  e_InitialConfig : option Config;
  e_InitialParticipants : list Participant;
  e_InitialPool : list PoolLayer;
  e_InitialTotalPoolTicks : Z;
  e_UserID : string;
  e_SourceUserID : string;
  e_TargetUserID : string;
  e_DieOne : Z;
  e_DieTwo : Z;
  e_Sum : Z;
  e_Result : string;
  e_PhaseBefore : Z;
  e_PhaseAfter : Z;
  e_Direction : Z;
  e_DirectionBefore : Z;
  e_PoolBeforeTicks : Z;
  e_PoolAfterTicks : Z;
  e_PoolBefore : list PoolLayer;
  e_PoolAfter : list PoolLayer;
  e_EffectTicks : Z;
  e_PenaltyTicks : Z;
  e_PenaltyBeforeTicks : Z;
  e_PenaltyAfterTicks : Z;
  e_NextUserID : string;
  e_Reason : string;
  e_AuditRef : string;
  e_OperatorUserID : string;
  e_PendingEffectCancelled : bool;
  e_TargetSelectionReopened : bool;
}.

#[global] Instance Event_eta : Eta Event := fun r =>
  mkEvent (e_Kind r) (e_Turn r) (e_InitialConfig r) (e_InitialParticipants r) (e_InitialPool r)
    (e_InitialTotalPoolTicks r) (e_UserID r) (e_SourceUserID r) (e_TargetUserID r) (e_DieOne r)
    (e_DieTwo r) (e_Sum r) (e_Result r) (e_PhaseBefore r) (e_PhaseAfter r) (e_Direction r)
    (e_DirectionBefore r) (e_PoolBeforeTicks r) (e_PoolAfterTicks r) (e_PoolBefore r) (e_PoolAfter r)
    (e_EffectTicks r) (e_PenaltyTicks r) (e_PenaltyBeforeTicks r) (e_PenaltyAfterTicks r)
    (e_NextUserID r) (e_Reason r) (e_AuditRef r) (e_OperatorUserID r) (e_PendingEffectCancelled r)
    (e_TargetSelectionReopened r).

Definition zeroEvent : Event :=
  mkEvent "" 0 None [] [] 0 "" "" "" 0 0 0 "" 0 0 0 0 0 0 [] [] 0 0 0 0 "" "" "" "" false false.

(** [events[0]] assignments: every caller builds a non-empty slice. *)
Definition setFirst (f : Event -> Event) (events : list Event) : list Event :=
  match events with
  | [] => []
  | event :: rest => f event :: rest
  end.

Definition cloneSettlement (value : TurnSettlement) : TurnSettlement :=
  value <| s_PoolBefore := [] ++ s_PoolBefore value |> <| s_PoolAfter := [] ++ s_PoolAfter value |>.

Definition Clone (state : State) : State :=
  state <| Players := [] ++ Players state |>
        <| Pool := [] ++ Pool state |>
        <| LastSettlement := cloneSettlement (LastSettlement state) |>.

(** ** config.go *)
Definition DefaultConfig (stacked : bool) : Config :=
  let config := mkConfig 2 8 1 1 stacked true true true true ContinueOptional false 30 5 in
  if stacked then config <| c_MaxLayers := 3 |> else config.

Definition Config_Validate (config : Config) (playerCount : nat) : res unit :=
  if (playerCount <? MinimumPlayers)%nat || (MaximumPlayers <? playerCount)%nat
     || (64 <? c_InitialPoolTicks config) || (c_LayerCapacityTicks config =? 0)
     || (MaximumLayerCapacity <? c_LayerCapacityTicks config)
     || (c_AddStepTicks config =? 0) || (16 <? c_AddStepTicks config)
     || negb (c_LayerCapacityTicks config mod c_AddStepTicks config =? 0)
     || (c_MaxLayers config <? MinimumLayers) || (MaximumLayers <? c_MaxLayers config)
     || negb (c_StackedPool config) && negb (c_MaxLayers config =? 1)
     || c_StackedPool config && (c_MaxLayers config <? 2)
     || (c_ContinueMode config <? ContinueOptional) || (ContinueForcedPass <? c_ContinueMode config)
     || negb (c_ActionTimeoutSeconds config =? 0)
        && ((c_ActionTimeoutSeconds config <? 10) || (120 <? c_ActionTimeoutSeconds config))
     || (c_DropReportWindowSeconds config <? 3) || (15 <? c_DropReportWindowSeconds config)
  then ruleError CodeInvalidConfig "configuration is outside frozen rules"
  else if (maxUint32 <? u64 (c_LayerCapacityTicks config * c_MaxLayers config))
          || (u64 (c_LayerCapacityTicks config * c_MaxLayers config) <? c_InitialPoolTicks config)
  then ruleError CodePoolOverflow "pool capacity is invalid"
  else Ok tt.

Definition rosterDetail (fault : RosterFault) : string :=
  match fault with
  | FaultCount => "participant count is unsupported"
  | FaultIdentity => "participant identity is empty"
  | FaultDuplicateUser => "participant identity is duplicated"
  | FaultDuplicateSeat => "participant seat is duplicated"
  end.

Definition ValidateParticipants (participants : list Participant) : res unit :=
  match checkRoster MinimumPlayers MaximumPlayers participants with
  | Ok _ => Ok tt
  | Err fault => ruleError CodeInvalidParticipants (rosterDetail fault)
  end.

(** ** state.go *)
Definition canonicalParticipants (participants : list Participant) : res (list Participant) :=
  let* _ := ValidateParticipants participants in
  Ok (bySeat participants).

Definition validUnixMillis (value : Z) : bool := 0 <? value.

Definition deadlineUnixMillis (now seconds : Z) : res Z :=
  if negb (validUnixMillis now) then ruleError CodeInvalidState "deterministic time is required"
  else if seconds =? 0 then Ok 0
  else
    let delta := seconds * 1000 in
    if maxInt64 - delta <? now then ruleError CodeInvalidState "deadline overflows unix milliseconds"
    else Ok (now + delta).

Definition deadlineMatches (state : State) (seconds : Z) : bool :=
  (seconds =? 0) && (ActionDeadlineUnixMillis state =? 0)
  || negb (seconds =? 0) && (0 <? ActionDeadlineUnixMillis state).

Definition Direction_Valid (direction : Z) : bool :=
  (direction =? DirectionClockwise) || (direction =? DirectionCounterClockwise).

Definition validRollResult (result : string) : bool :=
  String.eqb result ResultSeven || String.eqb result ResultEight || String.eqb result ResultNine
  || String.eqb result ResultDoubleOne || String.eqb result ResultDoubleFour
  || String.eqb result ResultDoubleSix || String.eqb result ResultOrdinaryPair
  || String.eqb result ResultOther.

Definition validSettledResult (result : string) : bool :=
  validRollResult result || String.eqb result ResultDropped || String.eqb result ResultRollTimeout
  || String.eqb result ResultCancelled.

(** [one, two in 1..6] and [sum == one+two]. *)
Definition diceShown (one two sum : Z) : bool :=
  (1 <=? one) && (one <=? 6) && (1 <=? two) && (two <=? 6) && (sum =? u32 (one + two)).

Definition settlementDiceValid (settlement : TurnSettlement) : bool :=
  if String.eqb (s_Result settlement) ResultRollTimeout
     || String.eqb (s_Result settlement) ResultCancelled && (s_DieOne settlement =? 0)
        && (s_DieTwo settlement =? 0)
  then (s_DieOne settlement =? 0) && (s_DieTwo settlement =? 0) && (s_Sum settlement =? 0)
  else diceShown (s_DieOne settlement) (s_DieTwo settlement) (s_Sum settlement).

Definition activePlayer (state : State) (userID : string) : bool := isActive (Players state) userID.

Definition totalCapacity (config : Config) : res Z :=
  if maxUint32 <? u64 (c_LayerCapacityTicks config * c_MaxLayers config)
  then ruleError CodePoolOverflow "pool capacity overflows uint32"
  else Ok (u32 (c_LayerCapacityTicks config * c_MaxLayers config)).

(** The discarded error leaves the zero value. *)
Definition mustCapacity (config : Config) : Z :=
  match totalCapacity config with Ok value => value | Err _ => 0 end.

(** The layer loop of [poolFromTotal]; [fuel] bounds its iterations, and the
    total itself is always enough (see [poolLayers_total]). *)
Fixpoint poolLayers (fuel : nat) (capacity remaining : Z) : list PoolLayer :=
  match fuel with
  | O => []
  | S fuel' =>
      if 0 <? remaining then
        let value := if remaining <? capacity then remaining else capacity in
        mkLayer value :: poolLayers fuel' capacity (u32 (remaining - value))
      else []
  end.

Definition poolFromTotal (config : Config) (total : Z) : res (list PoolLayer) :=
  match totalCapacity config with
  | Err _ => ruleError CodePoolOverflow "pool total exceeds capacity"
  | Ok capacity =>
      if capacity <? total then ruleError CodePoolOverflow "pool total exceeds capacity"
      else if total =? 0 then Ok [mkLayer 0]
      else Ok (poolLayers (Z.to_nat total) (c_LayerCapacityTicks config) total)
  end.

Definition poolLayersTotal (layers : list PoolLayer) : Z :=
  foldl (fun total layer => u32 (total + l_Ticks layer)) 0 layers.

(** The layer loop of [validatePool] from [index] on. *)
Fixpoint checkLayers (config : Config) (count index : nat) (total : Z) (layers : list PoolLayer)
  : res Z :=
  match layers with
  | [] => Ok total
  | layer :: rest =>
      if (c_LayerCapacityTicks config <? l_Ticks layer)
         || (index <? count - 1)%nat && negb (l_Ticks layer =? c_LayerCapacityTicks config)
         || (1 <? count)%nat && (index =? count - 1)%nat && (l_Ticks layer =? 0)
      then ruleError CodeInvalidState "pool layer layout is non-canonical"
      else match Dice.Ticks_Add total (l_Ticks layer) with
           | Err _ => ruleError CodeInvalidState "pool layer sum overflows"
           | Ok total => checkLayers config count (S index) total rest
           end
  end.

Definition validatePool (state : State) : res unit :=
  match totalCapacity (config state) with
  | Err _ => ruleError CodeInvalidState "pool header is invalid"
  | Ok capacity =>
      if (length (Pool state) =? 0)%nat || (c_MaxLayers (config state) <? Z.of_nat (length (Pool state)))
         || (capacity <? TotalPoolTicks state)
      then ruleError CodeInvalidState "pool header is invalid"
      else if negb (c_StackedPool (config state)) && negb (length (Pool state) =? 1)%nat
      then ruleError CodeInvalidState "single-layer pool has extra layers"
      else
        let* total := checkLayers (config state) (length (Pool state)) 0 0 (Pool state) in
        if negb (total =? TotalPoolTicks state)
        then ruleError CodeInvalidState "pool layer sum differs from total"
        else Ok tt
  end.

Definition validFinishReason (value : string) : bool :=
  String.eqb value FinishHostRequested || String.eqb value FinishInsufficientParticipants
  || String.eqb value FinishPlatformCancelled.

Definition validatePhase (state : State) : res unit :=
  let diceValid := diceShown (DieOne state) (DieTwo state) (Sum state) in
  let actionTimeout := c_ActionTimeoutSeconds (config state) in
  if Phase state =? PhaseAwaitingRoll then
    if negb (String.eqb (SourceUserID state) "") || negb (String.eqb (TargetUserID state) "")
       || negb (DieOne state =? 0) || negb (DieTwo state =? 0) || negb (Sum state =? 0)
       || negb (String.eqb (PendingResult state) ResultNone)
       || negb (PendingPoolBeforeTicks state =? 0) || negb (PendingDirectionBefore state =? 0)
       || negb (deadlineMatches state actionTimeout)
    then ruleError CodeInvalidState "awaiting-roll state is malformed"
    else Ok tt
  else if Phase state =? PhaseResultPending then
    if negb (String.eqb (SourceUserID state) (CurrentUserID state))
       || negb (activePlayer state (SourceUserID state)) || negb (String.eqb (TargetUserID state) "")
       || negb diceValid || negb (validRollResult (PendingResult state))
       || negb (PendingPoolBeforeTicks state =? TotalPoolTicks state)
       || negb (Direction_Valid (PendingDirectionBefore state))
       || negb (deadlineMatches state (c_DropReportWindowSeconds (config state)))
    then ruleError CodeInvalidState "result-pending state is malformed"
    else Ok tt
  else if Phase state =? PhaseAwaitingAdd then
    let validSeven := String.eqb (PendingResult state) ResultSeven
                      && String.eqb (TargetUserID state) ""
                      && String.eqb (CurrentUserID state) (SourceUserID state) in
    let validDoubleSix := String.eqb (PendingResult state) ResultDoubleSix
                          && String.eqb (TargetUserID state) (CurrentUserID state)
                          && negb (String.eqb (TargetUserID state) (SourceUserID state)) in
    if negb diceValid || negb (activePlayer state (SourceUserID state))
       || negb (activePlayer state (CurrentUserID state))
       || negb (Direction_Valid (PendingDirectionBefore state))
       || negb validSeven && negb validDoubleSix || negb (deadlineMatches state actionTimeout)
    then ruleError CodeInvalidState "awaiting-add state is malformed"
    else Ok tt
  else if Phase state =? PhaseAwaitingTarget then
    if negb diceValid || negb (String.eqb (CurrentUserID state) (SourceUserID state))
       || negb (activePlayer state (SourceUserID state)) || negb (String.eqb (TargetUserID state) "")
       || negb (Direction_Valid (PendingDirectionBefore state))
       || negb (String.eqb (PendingResult state) ResultDoubleOne)
          && negb (String.eqb (PendingResult state) ResultDoubleSix)
       || negb (deadlineMatches state actionTimeout)
    then ruleError CodeInvalidState "awaiting-target state is malformed"
    else Ok tt
  else if Phase state =? PhaseAwaitingContinue then
    if negb diceValid || negb (String.eqb (CurrentUserID state) (SourceUserID state))
       || negb (activePlayer state (SourceUserID state)) || negb (String.eqb (TargetUserID state) "")
       || negb (Direction_Valid (PendingDirectionBefore state))
       || negb (String.eqb (PendingResult state) ResultSeven)
          && negb (String.eqb (PendingResult state) ResultEight)
          && negb (String.eqb (PendingResult state) ResultNine)
       || (mustCapacity (config state) <? PendingPoolBeforeTicks state)
       || negb (s_Turn (LastSettlement state) =? Turn state)
       || negb (deadlineMatches state actionTimeout)
    then ruleError CodeInvalidState "awaiting-continue state is malformed"
    else Ok tt
  else ruleError CodeInvalidState "phase cannot be persisted".

Definition partialAppliedEffect (state : State) (settlement : TurnSettlement) : bool :=
  (s_Turn settlement =? Turn state) && String.eqb (s_NextUserID settlement) ""
  && (String.eqb (s_Result settlement) ResultSeven || String.eqb (s_Result settlement) ResultEight
      || String.eqb (s_Result settlement) ResultNine)
  && ((Phase state =? PhaseAwaitingContinue) || (Phase state =? PhaseFinished)).

Definition validateSettlement (state : State) : res unit :=
  let settlement := LastSettlement state in
  if s_Turn settlement =? 0 then
    if negb (String.eqb (s_SourceUserID settlement) "") || negb (s_DieOne settlement =? 0)
       || negb (s_DieTwo settlement =? 0) || negb (s_Sum settlement =? 0)
       || negb (String.eqb (s_Result settlement) ResultNone)
       || negb (String.eqb (s_TargetUserID settlement) "") || negb (s_PoolBeforeTicks settlement =? 0)
       || negb (s_PoolAfterTicks settlement =? 0) || negb (length (s_PoolBefore settlement) =? 0)%nat
       || negb (length (s_PoolAfter settlement) =? 0)%nat || negb (s_EffectTicks settlement =? 0)
       || negb (String.eqb (s_PenaltyUserID settlement) "") || negb (s_PenaltyTicks settlement =? 0)
       || negb (s_DirectionBefore settlement =? 0) || negb (s_DirectionAfter settlement =? 0)
       || negb (String.eqb (s_NextUserID settlement) "") || negb (String.eqb (s_Reason settlement) "")
       || negb (String.eqb (s_AuditRef settlement) "") || negb (String.eqb (s_DropReason settlement) "")
    then ruleError CodeInvalidState "empty settlement retains data"
    else Ok tt
  else
    let partial := partialAppliedEffect state settlement in
    if (Turn state <? s_Turn settlement) || (s_Turn settlement =? Turn state) && negb partial
       || negb (isFrozen (Players state) (s_SourceUserID settlement))
       || String.eqb (s_NextUserID settlement) "" && negb partial
       || negb (String.eqb (s_NextUserID settlement) "")
          && negb (isFrozen (Players state) (s_NextUserID settlement))
       || negb (validSettledResult (s_Result settlement)) || negb (settlementDiceValid settlement)
       || negb (Direction_Valid (s_DirectionBefore settlement))
       || negb (Direction_Valid (s_DirectionAfter settlement)) || String.eqb (s_Reason settlement) ""
    then ruleError CodeInvalidState "last settlement header is malformed"
    else if (mustCapacity (config state) <? s_PoolBeforeTicks settlement)
            || (mustCapacity (config state) <? s_PoolAfterTicks settlement)
    then ruleError CodeInvalidState "last settlement pool is outside capacity"
    else if negb (poolLayersTotal (s_PoolBefore settlement) =? s_PoolBeforeTicks settlement)
            || negb (poolLayersTotal (s_PoolAfter settlement) =? s_PoolAfterTicks settlement)
    then ruleError CodeInvalidState "last settlement layer snapshots disagree with totals"
    else
      let result := s_Result settlement in
      let drinking := String.eqb result ResultEight || String.eqb result ResultNine
                      || String.eqb result ResultDoubleOne || String.eqb result ResultDoubleFour
                      || String.eqb result ResultDropped in
      let adding := String.eqb result ResultSeven || String.eqb result ResultDoubleSix in
      let* _ :=
        if drinking then
          if String.eqb (s_PenaltyUserID settlement) ""
             || negb (s_PenaltyTicks settlement =? s_EffectTicks settlement)
             || (s_PoolBeforeTicks settlement <? s_PoolAfterTicks settlement)
             || negb (u32 (s_PoolBeforeTicks settlement - s_PoolAfterTicks settlement)
                      =? s_EffectTicks settlement)
          then ruleError CodeInvalidState "drinking settlement violates tick conservation"
          else Ok tt
        else if adding then
          if negb (String.eqb (s_PenaltyUserID settlement) "") || negb (s_PenaltyTicks settlement =? 0)
             || (s_PoolAfterTicks settlement <? s_PoolBeforeTicks settlement)
             || negb (u32 (s_PoolAfterTicks settlement - s_PoolBeforeTicks settlement)
                      =? s_EffectTicks settlement)
          then ruleError CodeInvalidState "add settlement violates tick conservation"
          else Ok tt
        else if negb (s_EffectTicks settlement =? 0) || negb (s_PenaltyTicks settlement =? 0)
                || negb (String.eqb (s_PenaltyUserID settlement) "")
                || negb (s_PoolBeforeTicks settlement =? s_PoolAfterTicks settlement)
        then ruleError CodeInvalidState "no-effect settlement changed ticks"
        else Ok tt in
      if negb (String.eqb (s_TargetUserID settlement) "")
         && negb (isFrozen (Players state) (s_TargetUserID settlement))
      then ruleError CodeInvalidState "last settlement target is not frozen"
      else if String.eqb result ResultDropped then
        if String.eqb (s_AuditRef settlement) "" || String.eqb (s_DropReason settlement) ""
        then ruleError CodeInvalidState "dropped settlement lacks audit detail"
        else Ok tt
      else if negb (String.eqb (s_AuditRef settlement) "") || negb (String.eqb (s_DropReason settlement) "")
      then ruleError CodeInvalidState "non-dropped settlement retains drop audit detail"
      else Ok tt.

Definition Validate (state : State) : res unit :=
  if negb (SchemaVersion state =? CurrentSchemaVersion) || (Turn state =? 0)
     || (Phase state <? PhaseAwaitingRoll) || (PhaseFinished <? Phase state)
     || (Phase state =? PhaseTurnSettled)
     || (length (Players state) <? MinimumPlayers)%nat || (MaximumPlayers <? length (Players state))%nat
     || negb (Direction_Valid (Direction state))
  then ruleError CodeInvalidState "state header is invalid"
  else if seatsOutOfOrder (Players state)
  then ruleError CodeInvalidState "players are not in stable seat order"
  else if negb (existsb (fun player => String.eqb (p_UserID player) (HostUserID state)) (Players state))
          || negb (is_ok (ValidateParticipants (participantOf <$> Players state)))
          || negb (is_ok (Config_Validate (config state) (length (Players state))))
  then ruleError CodeInvalidState "frozen participants, host, or configuration is invalid"
  else
    let* _ := validatePool state in
    let* _ := validateSettlement state in
    if Phase state =? PhaseFinished then
      if negb (validFinishReason (FinishReason state)) || negb (String.eqb (CurrentUserID state) "")
         || negb (String.eqb (SourceUserID state) "") || negb (String.eqb (TargetUserID state) "")
         || negb (ActionDeadlineUnixMillis state =? 0) || negb (DieOne state =? 0)
         || negb (DieTwo state =? 0) || negb (Sum state =? 0)
         || negb (String.eqb (PendingResult state) ResultNone)
         || negb (PendingPoolBeforeTicks state =? 0) || negb (PendingDirectionBefore state =? 0)
      then ruleError CodeInvalidState "finished state retains live turn data"
      else Ok tt
    else if negb (String.eqb (FinishReason state) "")
            || (activeCount (Players state) <? MinimumPlayers)%nat
            || negb (activePlayer state (CurrentUserID state))
    then ruleError CodeInvalidState "active turn ownership is invalid"
    else validatePhase state.

Definition CurrentTimer (state : State) : option ActionTimer :=
  if (Phase state =? PhaseFinished) || (Phase state =? PhaseTurnSettled)
     || (ActionDeadlineUnixMillis state =? 0)
  then None
  else Some (mkTimer (Turn state) (Phase state) (CurrentUserID state) (SourceUserID state)
               (TargetUserID state) (PendingResult state) (ActionDeadlineUnixMillis state)).

(** [selectResult] reads the configuration, the two dice and their sum. *)
Definition selectResult (config : Config) (dieOne dieTwo sum : Z) : string :=
  let bySum :=
    let sum := if c_LastDigitMatch config then sum mod 10 else sum in
    if sum =? 7 then ResultSeven
    else if sum =? 8 then ResultEight
    else if sum =? 9 then ResultNine
    else ResultOther in
  if dieOne =? dieTwo then
    if (dieOne =? 1) && c_DoubleOneEnabled config then ResultDoubleOne
    else if (dieOne =? 4) && c_DoubleFourEnabled config then ResultDoubleFour
    else if (dieOne =? 6) && c_DoubleSixEnabled config then ResultDoubleSix
    else if c_OrdinaryPairsReverse config then ResultOrdinaryPair
    else bySum
  else bySum.

Definition ClassifyRoll (config : Config) (dieOne dieTwo : Z) : res string :=
  if (dieOne <? 1) || (6 <? dieOne) || (dieTwo <? 1) || (6 <? dieTwo)
  then ruleError CodeInvalidAction "dice faces must be in 1..6"
  else Ok (selectResult config dieOne dieTwo (u32 (dieOne + dieTwo))).

(** The indexes visited by [nextActiveUser]: Go's [%] truncates, negative
    remainders are moved up by the length. *)
Definition traversalIndex (start : nat) (step : Z) (n offset : nat) : nat :=
  let index := Z.rem (Z.of_nat start + step * Z.of_nat offset) (Z.of_nat n) in
  Z.to_nat (if index <? 0 then index + Z.of_nat n else index).

Definition nextActiveUser (state : State) (afterUserID : string) : res string :=
  match playerIndex (Players state) afterUserID with
  | None => ruleError CodeInvalidState "turn traversal origin is not frozen"
  | Some start =>
      if negb (Direction_Valid (Direction state))
      then ruleError CodeInvalidState "turn traversal origin is not frozen"
      else
        let step := if Direction state =? DirectionCounterClockwise then -1 else 1 in
        let n := length (Players state) in
        match firstActive (Players state) (traversalIndex start step n <$> seq 1 n) with
        | Some userID => Ok userID
        | None => ruleError CodeInvalidState "no active next player exists"
        end
  end.

Definition reverseDirection (value : Z) : Z :=
  if value =? DirectionClockwise then DirectionCounterClockwise else DirectionClockwise.

Definition startTurn (state : State) (actor : string) (nowUnixMillis : Z) : res (State * Event) :=
  if negb (activePlayer state actor) || negb (validUnixMillis nowUnixMillis)
  then ruleError CodeInvalidState "next actor or deterministic time is invalid"
  else
    let* deadline := deadlineUnixMillis nowUnixMillis (c_ActionTimeoutSeconds (config state)) in
    let next := (Clone state) <| Phase := PhaseAwaitingRoll |>
                  <| CurrentUserID := actor |>
                  <| SourceUserID := ""%string |>
                  <| TargetUserID := ""%string |>
                  <| DieOne := 0 |> <| DieTwo := 0 |> <| Sum := 0 |>
                  <| PendingResult := ResultNone |>
                  <| PendingPoolBeforeTicks := 0 |>
                  <| PendingDirectionBefore := 0 |>
                  <| ActionDeadlineUnixMillis := deadline |> in
    Ok (next, zeroEvent <| e_Kind := EventTurnStarted |> <| e_Turn := Turn next |>
                        <| e_UserID := actor |> <| e_NextUserID := actor |>
                        <| e_Direction := Direction next |>).

(** The participant loop of [NewState]. *)
Fixpoint startingUser (participants : list Participant) (startingSeat : Z) (first : string) : string :=
  match participants with
  | [] => first
  | p :: rest =>
      startingUser rest startingSeat (if SeatIndex p =? startingSeat then UserID p else first)
  end.

Definition newPlayer (p : Participant) : PlayerState := mkPlayer (UserID p) (SeatIndex p) true 0.

Definition NewState (cfg : Config) (participants : list Participant) (hostUserID : string)
    (startingSeat nowUnixMillis : Z) (seed : list Z) : res (State * list Event) :=
  let* canonical := canonicalParticipants participants in
  let* _ := Config_Validate cfg (length canonical) in
  if negb (validUnixMillis nowUnixMillis)
  then ruleError CodeInvalidState "deterministic time is required"
  else
    let players := newPlayer <$> canonical in
    let hostFound := existsb (fun p => String.eqb (UserID p) hostUserID) canonical in
    let first := startingUser canonical startingSeat "" in
    if negb hostFound || String.eqb first ""
    then ruleError CodeInvalidParticipants "host and starting seat must be frozen participants"
    else
      let* pool := poolFromTotal cfg (c_InitialPoolTicks cfg) in
      let state := mkState CurrentSchemaVersion PhaseAwaitingRoll 1 hostUserID players "" "" ""
                     DirectionClockwise pool (c_InitialPoolTicks cfg) 0 0 0 0 cfg "" 0 0
                     emptySettlement "" in
      let* '(state, event) := startTurn state first nowUnixMillis in
      match Dice.Roll seed (Turn state) 2 with
      | Err _ => ruleError CodeSeedInvalid "deterministic seed is invalid"
      | Ok _ =>
          Ok (state, [event <| e_InitialConfig := Some cfg |>
                            <| e_InitialParticipants := canonical |>
                            <| e_InitialPool := Pool state |>
                            <| e_InitialTotalPoolTicks := TotalPoolTicks state |>])
      end.

(** ** actions.go: helpers *)
Definition validateActor (state : State) (actor : string) (phase now : Z) (timer : bool) : res unit :=
  let* _ := Validate state in
  if Phase state =? PhaseFinished then ruleError CodeSessionFinished "session is finished"
  else if negb (Phase state =? phase)
  then ruleError CodeWrongPhase "action is not valid in this phase"
  else if negb (String.eqb actor (CurrentUserID state)) || negb (activePlayer state actor)
  then ruleError CodeNotCurrentActor "actor does not own current action"
  else if negb (validUnixMillis now)
  then ruleError CodeInvalidAction "deterministic action time is invalid"
  else if negb timer && negb (ActionDeadlineUnixMillis state =? 0)
          && (ActionDeadlineUnixMillis state <=? now)
  then ruleError CodeActionExpired "action deadline has passed"
  else Ok tt.

Definition validateHost (state : State) (actor : string) (now : Z) : res unit :=
  let* _ := Validate state in
  if negb (Phase state =? PhaseResultPending)
  then ruleError CodeDropReportClosed "host confirmation window is closed"
  else if negb (String.eqb actor (HostUserID state)) || negb (activePlayer state actor)
  then ruleError CodeNotHost "only the active frozen host may confirm or report"
  else if negb (validUnixMillis now) || (ActionDeadlineUnixMillis state <=? now)
  then ruleError CodeActionExpired "host confirmation window has expired"
  else Ok tt.

Definition validateAddAmount (state : State) (amount : Z) : res unit :=
  let remaining := u32 (mustCapacity (config state) - TotalPoolTicks state) in
  let step := c_AddStepTicks (config state) in
  if remaining <? amount
  then ruleError CodePoolAmountInvalid "pool add exceeds remaining capacity"
  else if remaining =? 0 then
    if negb (amount =? 0) then ruleError CodePoolAmountInvalid "full pool accepts only zero add"
    else Ok tt
  else if remaining <? step then
    if negb (amount =? remaining)
    then ruleError CodePoolAmountInvalid "final pool remainder must be filled"
    else Ok tt
  else if (amount =? remaining) || (0 <? amount) && (amount mod step =? 0) then Ok tt
  else ruleError CodePoolAmountInvalid "pool add is not aligned to configured step".

Definition minimumAddAmount (state : State) : Z :=
  let remaining := u32 (mustCapacity (config state) - TotalPoolTicks state) in
  if remaining =? 0 then 0
  else if remaining <? c_AddStepTicks (config state) then remaining
  else c_AddStepTicks (config state).

Definition poolChangedEvent (state : State) (actor : string) (beforeLayers afterLayers : list PoolLayer)
    (before after effect : Z) : Event :=
  zeroEvent <| e_Kind := EventPoolChanged |> <| e_Turn := Turn state |> <| e_UserID := actor |>
            <| e_SourceUserID := SourceUserID state |> <| e_TargetUserID := TargetUserID state |>
            <| e_Result := PendingResult state |>
            <| e_PoolBeforeTicks := before |> <| e_PoolAfterTicks := after |>
            <| e_PoolBefore := beforeLayers |> <| e_PoolAfter := afterLayers |>
            <| e_EffectTicks := effect |>.

Definition setPoolTotal (state : State) (total : Z) : res State :=
  let* pool := poolFromTotal (config state) total in
  Ok (state <| Pool := pool |> <| TotalPoolTicks := total |>).

Definition addPenalty (state : State) (userID : string) (amount : Z) : res State :=
  match playerIndex (Players state) userID with
  | None => ruleError CodeParticipantInactive "penalty target is inactive"
  | Some index =>
      let player := Players state !!! index in
      if negb (p_Active player)
      then ruleError CodeParticipantInactive "penalty target is inactive"
      else match Dice.Ticks_Add (p_PenaltyTicks player) amount with
           | Err _ => ruleError CodePenaltyOverflow "player penalty exceeds uint32"
           | Ok value =>
               Ok (state <| Players := <[index := player <| p_PenaltyTicks := value |>]> (Players state) |>)
           end
  end.

(** [players[playerIndex(players, userID)].PenaltyTicks]; the callers have
    checked that the user is frozen, so the index is never [-1]. *)
Definition penaltyOf (players : list PlayerState) (userID : string) : Z :=
  match playerIndex players userID with
  | Some index => p_PenaltyTicks (players !!! index)
  | None => 0
  end.

Definition finishState (state : State) (reason : string) : State * Event :=
  (state <| Phase := PhaseFinished |> <| FinishReason := reason |>
         <| CurrentUserID := ""%string |> <| SourceUserID := ""%string |> <| TargetUserID := ""%string |>
         <| DieOne := 0 |> <| DieTwo := 0 |> <| Sum := 0 |>
         <| ActionDeadlineUnixMillis := 0 |>
         <| PendingResult := ResultNone |>
         <| PendingPoolBeforeTicks := 0 |>
         <| PendingDirectionBefore := 0 |>,
   zeroEvent <| e_Kind := EventSessionFinished |> <| e_Turn := Turn state |> <| e_Reason := reason |>).

Definition settlementFromState (state : State) (override target reason : string) : TurnSettlement :=
  let result := if String.eqb override ResultNone then PendingResult state else override in
  let source := if String.eqb (SourceUserID state) "" then CurrentUserID state else SourceUserID state in
  let beforePool := match poolFromTotal (config state) (PendingPoolBeforeTicks state) with
                    | Ok pool => pool
                    | Err _ => []
                    end in
  let before := PendingPoolBeforeTicks state in
  let after := TotalPoolTicks state in
  let settlement :=
    mkSettlement (Turn state) source (DieOne state) (DieTwo state) (Sum state) result target
      before after beforePool (Pool state) 0 "" 0 (PendingDirectionBefore state) (Direction state)
      "" reason "" "" in
  let settlement := if s_DirectionBefore settlement =? 0
                    then settlement <| s_DirectionBefore := Direction state |>
                    else settlement in
  if String.eqb result ResultSeven || String.eqb result ResultDoubleSix
  then settlement <| s_EffectTicks := u32 (after - before) |>
  else if String.eqb result ResultEight || String.eqb result ResultNine
          || String.eqb result ResultDoubleFour
  then settlement <| s_EffectTicks := u32 (before - after) |> <| s_PenaltyUserID := source |>
                  <| s_PenaltyTicks := u32 (before - after) |>
  else if String.eqb result ResultDoubleOne
  then settlement <| s_EffectTicks := u32 (before - after) |> <| s_PenaltyUserID := target |>
                  <| s_PenaltyTicks := u32 (before - after) |>
  else if String.eqb result ResultDropped
  then settlement <| s_EffectTicks := u32 (before - after) |> <| s_PenaltyUserID := source |>
                  <| s_PenaltyTicks := u32 (before - after) |>
  else settlement.

Definition finishTurn (state : State) (sourceUserID nextActor : string) (now : Z)
  : res (State * list Event) :=
  let* nextActor := if String.eqb nextActor "" then nextActiveUser state sourceUserID
                    else Ok nextActor in
  if Turn state =? maxUint32 then ruleError CodeRoundOverflow "turn counter cannot advance"
  else
    let next := Clone state in
    let next := next <| LastSettlement := (LastSettlement next) <| s_NextUserID := nextActor |>
                                            <| s_DirectionAfter := Direction next |> |> in
    let settlement := cloneSettlement (LastSettlement next) in
    let next := next <| Turn := u32 (Turn next + 1) |> in
    let* '(next, started) := startTurn next nextActor now in
    let settled :=
      zeroEvent <| e_Kind := EventTurnSettled |> <| e_Turn := s_Turn settlement |>
        <| e_UserID := s_SourceUserID settlement |> <| e_SourceUserID := s_SourceUserID settlement |>
        <| e_TargetUserID := s_TargetUserID settlement |> <| e_DieOne := s_DieOne settlement |>
        <| e_DieTwo := s_DieTwo settlement |> <| e_Sum := s_Sum settlement |>
        <| e_Result := s_Result settlement |> <| e_DirectionBefore := s_DirectionBefore settlement |>
        <| e_Direction := s_DirectionAfter settlement |>
        <| e_PoolBeforeTicks := s_PoolBeforeTicks settlement |>
        <| e_PoolAfterTicks := s_PoolAfterTicks settlement |>
        <| e_PoolBefore := s_PoolBefore settlement |> <| e_PoolAfter := s_PoolAfter settlement |>
        <| e_EffectTicks := s_EffectTicks settlement |> <| e_PenaltyTicks := s_PenaltyTicks settlement |>
        <| e_NextUserID := nextActor |> <| e_Reason := s_Reason settlement |>
        <| e_AuditRef := s_AuditRef settlement |> in
    Ok (next, [settled; started]).

(** ** actions.go: operations *)
Definition applyRoll (state : State) (actor : string) (dieOne dieTwo nowUnixMillis : Z)
  : res (State * list Event) :=
  let* _ := validateActor state actor PhaseAwaitingRoll nowUnixMillis false in
  if (dieOne <? 1) || (6 <? dieOne) || (dieTwo <? 1) || (6 <? dieTwo)
  then ruleError CodeInvalidAction "dice faces must be in 1..6"
  else
    let next := (Clone state) <| Phase := PhaseResultPending |> <| SourceUserID := actor |>
                  <| CurrentUserID := actor |> <| TargetUserID := ""%string |>
                  <| DieOne := dieOne |> <| DieTwo := dieTwo |> <| Sum := u32 (dieOne + dieTwo) |> in
    let* selected := ClassifyRoll (config next) (DieOne next) (DieTwo next) in
    let next := next <| PendingResult := selected |>
                     <| PendingPoolBeforeTicks := TotalPoolTicks next |>
                     <| PendingDirectionBefore := Direction next |> in
    let* deadline := deadlineUnixMillis nowUnixMillis (c_DropReportWindowSeconds (config next)) in
    let next := next <| ActionDeadlineUnixMillis := deadline |> in
    Ok (next, [zeroEvent <| e_Kind := EventDiceRolled |> <| e_Turn := Turn state |>
                 <| e_UserID := actor |> <| e_SourceUserID := actor |> <| e_DieOne := DieOne next |>
                 <| e_DieTwo := DieTwo next |> <| e_Sum := Sum next |>
                 <| e_Result := PendingResult next |>]).

Definition Roll (state : State) (actor : string) (nowUnixMillis : Z) (seed : list Z)
  : res (State * list Event) :=
  let* _ := validateActor state actor PhaseAwaitingRoll nowUnixMillis false in
  match Dice.Roll seed (Turn state) 2 with
  | Err _ => ruleError CodeSeedInvalid "deterministic seed is invalid"
  | Ok faces => applyRoll state actor (faces !!! 0%nat) (faces !!! 1%nat) nowUnixMillis
  end.

Definition applyDrink (state : State) (target : string) (amount : Z) (reason : string)
    (events : list Event) : res (State * list Event) :=
  let next := Clone state in
  let beforeLayers := Pool next in
  let before := TotalPoolTicks next in
  let penaltyBefore := penaltyOf (Players next) target in
  let amount := if before <? amount then before else amount in
  let* next := addPenalty next target amount in
  let* next := setPoolTotal next (u32 (before - amount)) in
  Ok (next,
      events ++
      [poolChangedEvent state target beforeLayers (Pool next) before (TotalPoolTicks next) amount;
       zeroEvent <| e_Kind := EventPenaltyRecorded |> <| e_Turn := Turn state |> <| e_UserID := target |>
         <| e_SourceUserID := SourceUserID state |> <| e_TargetUserID := target |>
         <| e_Result := PendingResult state |> <| e_PenaltyTicks := amount |>
         <| e_PenaltyBeforeTicks := penaltyBefore |>
         <| e_PenaltyAfterTicks := penaltyOf (Players next) target |> <| e_Reason := reason |>]).

Definition applyDrinkAndContinue (state : State) (target : string) (amount : Z) (reason : string)
    (events : list Event) (now : Z) : res (State * list Event) :=
  let* '(next, events) := applyDrink state target amount reason events in
  let next := next <| LastSettlement := settlementFromState next ResultNone "" reason |> in
  let next := next <| Phase := PhaseAwaitingContinue |> <| CurrentUserID := SourceUserID next |>
                   <| TargetUserID := ""%string |> in
  let* deadline := deadlineUnixMillis now (c_ActionTimeoutSeconds (config next)) in
  let next := next <| ActionDeadlineUnixMillis := deadline |> in
  Ok (next, setFirst (fun e => e <| e_PhaseAfter := Phase next |>) events).

(** [next.ActionDeadlineUnixMillis, _ = deadlineUnixMillis(...)]: the error is
    discarded and the zero deadline assigned. *)
Definition deadlineOrZero (now seconds : Z) : Z :=
  match deadlineUnixMillis now seconds with Ok deadline => deadline | Err _ => 0 end.

(** The common tail of [applyLanded]'s settling branches. *)
Definition settleLanded (next : State) (source nextActor : string) (now : Z) (events : list Event)
  : res (State * list Event) :=
  let* '(settled, settledEvents) := finishTurn next source nextActor now in
  Ok (settled, setFirst (fun e => e <| e_PhaseAfter := Phase settled |>) events ++ settledEvents).

Definition applyLanded (state : State) (nowUnixMillis : Z) (cause : string) : res (State * list Event) :=
  if negb (Phase state =? PhaseResultPending) || negb (validRollResult (PendingResult state))
  then ruleError CodeWrongPhase "landed confirmation requires result_pending"
  else
    let next := Clone state in
    let events := [zeroEvent <| e_Kind := EventEffectSelected |> <| e_Turn := Turn state |>
                     <| e_UserID := SourceUserID state |> <| e_SourceUserID := SourceUserID state |>
                     <| e_Result := PendingResult state |> <| e_Reason := cause |>] in
    let source := SourceUserID state in
    let pending := PendingResult state in
    if String.eqb pending ResultSeven then
      let next := next <| CurrentUserID := source |> in
      let '(next, events) :=
        if TotalPoolTicks next =? mustCapacity (config next) then
          (next <| LastSettlement := settlementFromState next ResultNone "" "seven_add" |>
                <| Phase := PhaseAwaitingContinue |>,
           events ++ [poolChangedEvent state source (Pool state) (Pool state) (TotalPoolTicks state)
                        (TotalPoolTicks state) 0])
        else (next <| Phase := PhaseAwaitingAdd |>, events) in
      Ok (next <| ActionDeadlineUnixMillis :=
                    deadlineOrZero nowUnixMillis (c_ActionTimeoutSeconds (config next)) |>,
          setFirst (fun e => e <| e_PhaseAfter := Phase next |>) events)
    else if String.eqb pending ResultEight then
      applyDrinkAndContinue next source (Dice.HalfCeil (TotalPoolTicks state)) "eight" events nowUnixMillis
    else if String.eqb pending ResultNine then
      applyDrinkAndContinue next source (TotalPoolTicks state) "nine" events nowUnixMillis
    else if String.eqb pending ResultDoubleOne || String.eqb pending ResultDoubleSix then
      let next := next <| Phase := PhaseAwaitingTarget |> <| CurrentUserID := source |>
                       <| ActionDeadlineUnixMillis :=
                            deadlineOrZero nowUnixMillis (c_ActionTimeoutSeconds (config next)) |> in
      Ok (next, setFirst (fun e => e <| e_PhaseAfter := Phase next |>) events)
    else if String.eqb pending ResultDoubleFour then
      let* '(next, events) :=
        applyDrink next source (Dice.HalfCeil (TotalPoolTicks state)) "double_four" events in
      let next := next <| LastSettlement := settlementFromState next ResultNone "" "double_four" |> in
      settleLanded next source source nowUnixMillis events
    else if String.eqb pending ResultOrdinaryPair then
      let before := Direction next in
      let '(next, events) :=
        if (3 <=? activeCount (Players next))%nat then
          let next := next <| Direction := reverseDirection (Direction next) |> in
          (next, events ++ [zeroEvent <| e_Kind := EventDirectionChanged |> <| e_Turn := Turn state |>
                              <| e_UserID := source |> <| e_DirectionBefore := before |>
                              <| e_Direction := Direction next |> <| e_Result := ResultOrdinaryPair |>])
        else (next, events) in
      let next := next <| LastSettlement := settlementFromState next ResultNone "" "ordinary_pair" |> in
      let nextActor := if (activeCount (Players next) =? 2)%nat then source else ""%string in
      settleLanded next source nextActor nowUnixMillis events
    else
      let next := next <| LastSettlement := settlementFromState next ResultNone "" "pass" |> in
      settleLanded next source "" nowUnixMillis events.

Definition ConfirmLanded (state : State) (actor : string) (nowUnixMillis : Z) : res (State * list Event) :=
  let* _ := validateHost state actor nowUnixMillis in
  applyLanded state nowUnixMillis "confirmed".

Definition ReportDropped (state : State) (actor auditRef reason : string) (nowUnixMillis : Z)
  : res (State * list Event) :=
  let* _ := validateHost state actor nowUnixMillis in
  if String.eqb auditRef "" || String.eqb reason ""
  then ruleError CodeInvalidAction "drop report requires an audit reference and reason"
  else
    let next := Clone state in
    let penaltyBefore := penaltyOf (Players next) (SourceUserID next) in
    let beforeLayers := Pool next in
    let before := TotalPoolTicks next in
    let* next := addPenalty next (SourceUserID next) before in
    let* next := setPoolTotal next 0 in
    let next := next <| LastSettlement :=
                  (settlementFromState next ResultDropped (SourceUserID next) "dropped")
                    <| s_AuditRef := auditRef |> <| s_DropReason := reason |> |> in
    let* '(settled, settledEvents) := finishTurn next (SourceUserID next) "" nowUnixMillis in
    let events :=
      [zeroEvent <| e_Kind := EventTurnDropped |> <| e_Turn := Turn state |> <| e_UserID := actor |>
         <| e_SourceUserID := SourceUserID state |> <| e_Reason := reason |> <| e_AuditRef := auditRef |>;
       poolChangedEvent state (SourceUserID state) beforeLayers (s_PoolAfter (LastSettlement settled))
         before 0 before;
       zeroEvent <| e_Kind := EventPenaltyRecorded |> <| e_Turn := Turn state |>
         <| e_UserID := SourceUserID state |> <| e_SourceUserID := SourceUserID state |>
         <| e_Result := ResultDropped |> <| e_PenaltyTicks := before |>
         <| e_PenaltyBeforeTicks := penaltyBefore |>
         <| e_PenaltyAfterTicks := penaltyOf (Players settled) (SourceUserID state) |>
         <| e_Reason := "dropped"%string |>] in
    Ok (settled, events ++ settledEvents).

Definition addToPool (state : State) (actor : string) (amount nowUnixMillis : Z) (timer : bool)
  : res (State * list Event) :=
  let* _ := validateActor state actor PhaseAwaitingAdd nowUnixMillis timer in
  let* _ := validateAddAmount state amount in
  let next := Clone state in
  let beforeLayers := Pool next in
  let before := TotalPoolTicks next in
  let* next := setPoolTotal next (u32 (before + amount)) in
  let event := poolChangedEvent state actor beforeLayers (Pool next) before (TotalPoolTicks next) amount in
  let events := [if timer then event <| e_Reason := "timeout_add"%string |> else event] in
  if String.eqb (PendingResult state) ResultDoubleSix then
    let target := TargetUserID state in
    let reason := if timer then "timeout_add"%string else "double_six_add"%string in
    let next := next <| LastSettlement := settlementFromState next ResultNone target reason |> in
    let* '(settled, settledEvents) := finishTurn next (SourceUserID state) "" nowUnixMillis in
    Ok (settled, events ++ settledEvents)
  else
    let next := next <| LastSettlement := settlementFromState next ResultNone "" "seven_add" |> in
    let next := next <| Phase := PhaseAwaitingContinue |> <| CurrentUserID := SourceUserID next |>
                     <| TargetUserID := ""%string |> in
    let* deadline := deadlineUnixMillis nowUnixMillis (c_ActionTimeoutSeconds (config next)) in
    Ok (next <| ActionDeadlineUnixMillis := deadline |>, events).

Definition AddToPool (state : State) (actor : string) (amount nowUnixMillis : Z) : res (State * list Event) :=
  addToPool state actor amount nowUnixMillis false.

Definition chooseTarget (state : State) (actor target : string) (nowUnixMillis : Z) (timer : bool)
  : res (State * list Event) :=
  let* _ := validateActor state actor PhaseAwaitingTarget nowUnixMillis timer in
  if String.eqb target "" || String.eqb target actor || negb (activePlayer state target)
  then ruleError CodeTargetInvalid "target must be a different active participant"
  else
    let next := (Clone state) <| TargetUserID := target |> in
    let event := zeroEvent <| e_Kind := EventTargetSelected |> <| e_Turn := Turn state |>
                   <| e_UserID := actor |> <| e_SourceUserID := actor |> <| e_TargetUserID := target |>
                   <| e_Result := PendingResult state |> in
    let events := [if timer then event <| e_Reason := "timeout_target"%string |> else event] in
    if String.eqb (PendingResult state) ResultDoubleOne then
      let beforeLayers := Pool next in
      let before := TotalPoolTicks next in
      let penaltyBefore := penaltyOf (Players next) target in
      let* next := addPenalty next target before in
      let* next := setPoolTotal next 0 in
      let reason := if timer then "timeout_target"%string else "double_one"%string in
      let next := next <| LastSettlement := settlementFromState next ResultNone target reason |> in
      let* '(settled, settledEvents) := finishTurn next actor target nowUnixMillis in
      let poolEvent := (poolChangedEvent state target beforeLayers (s_PoolAfter (LastSettlement settled))
                          before 0 before) <| e_TargetUserID := target |> in
      Ok (settled,
          events ++
          [poolEvent;
           zeroEvent <| e_Kind := EventPenaltyRecorded |> <| e_Turn := Turn state |>
             <| e_UserID := target |> <| e_SourceUserID := actor |> <| e_TargetUserID := target |>
             <| e_Result := ResultDoubleOne |> <| e_PenaltyTicks := before |>
             <| e_PenaltyBeforeTicks := penaltyBefore |>
             <| e_PenaltyAfterTicks := penaltyOf (Players settled) target |>
             <| e_Reason := "double_one"%string |>] ++ settledEvents)
    else
      let next := next <| CurrentUserID := target |> <| Phase := PhaseAwaitingAdd |> in
      let* deadline := deadlineUnixMillis nowUnixMillis (c_ActionTimeoutSeconds (config next)) in
      Ok (next <| ActionDeadlineUnixMillis := deadline |>, events).

Definition ChooseTarget (state : State) (actor target : string) (nowUnixMillis : Z) : res (State * list Event) :=
  chooseTarget state actor target nowUnixMillis false.

Definition continueTurn (state : State) (actor : string) (reroll : bool) (nowUnixMillis : Z) (timer : bool)
  : res (State * list Event) :=
  let* _ := validateActor state actor PhaseAwaitingContinue nowUnixMillis timer in
  let mode := c_ContinueMode (config state) in
  if reroll && (mode =? ContinueForcedPass) || negb reroll && (mode =? ContinueForcedReroll)
  then ruleError CodeContinueModeInvalid "continue action is disabled by frozen mode"
  else
    let next := Clone state in
    let nextActor := if reroll then actor else ""%string in
    let reason := match timer, reroll with
                  | false, false => "pass"%string
                  | false, true => "reroll"%string
                  | true, true => "timeout_reroll"%string
                  | true, false => "timeout_pass"%string
                  end in
    let next := next <| LastSettlement := settlementFromState next ResultNone "" reason |> in
    finishTurn next actor nextActor nowUnixMillis.

Definition Reroll (state : State) (actor : string) (nowUnixMillis : Z) : res (State * list Event) :=
  continueTurn state actor true nowUnixMillis false.

Definition Pass (state : State) (actor : string) (nowUnixMillis : Z) : res (State * list Event) :=
  continueTurn state actor false nowUnixMillis false.

Definition timerMatches (state : State) (timer : ActionTimer) : bool :=
  (t_Turn timer =? Turn state) && (t_Phase timer =? Phase state)
  && String.eqb (t_CurrentUserID timer) (CurrentUserID state)
  && String.eqb (t_SourceUserID timer) (SourceUserID state)
  && String.eqb (t_TargetUserID timer) (TargetUserID state)
  && String.eqb (t_PendingResult timer) (PendingResult state)
  && negb (t_DeadlineUnixMillis timer =? 0)
  && (t_DeadlineUnixMillis timer =? ActionDeadlineUnixMillis state).

Definition HandleTimeout (state : State) (timer : ActionTimer) (nowUnixMillis : Z)
  : res (State * list Event) :=
  let* _ := Validate state in
  if Phase state =? PhaseFinished
  then ruleError CodeSessionFinished "session no longer accepts timers"
  else if negb (timerMatches state timer)
  then ruleError CodeTimerMismatch "timer does not match current pending effect"
  else if negb (validUnixMillis nowUnixMillis) || (nowUnixMillis <? ActionDeadlineUnixMillis state)
  then ruleError CodeTimerNotDue "timer fired before its deadline"
  else if Phase state =? PhaseAwaitingRoll then
    let next := (Clone state) <| SourceUserID := CurrentUserID state |>
                  <| PendingResult := ResultRollTimeout |>
                  <| PendingPoolBeforeTicks := TotalPoolTicks state |>
                  <| PendingDirectionBefore := Direction state |> in
    let next := next <| LastSettlement := settlementFromState next ResultRollTimeout "" "roll_timeout" |> in
    finishTurn next (CurrentUserID state) "" nowUnixMillis
  else if Phase state =? PhaseResultPending then applyLanded state nowUnixMillis "result_timeout"
  else if Phase state =? PhaseAwaitingAdd then
    addToPool state (CurrentUserID state) (minimumAddAmount state) nowUnixMillis true
  else if Phase state =? PhaseAwaitingTarget then
    let* target := nextActiveUser state (SourceUserID state) in
    chooseTarget state (SourceUserID state) target nowUnixMillis true
  else if Phase state =? PhaseAwaitingContinue then
    continueTurn state (SourceUserID state) (c_ContinueMode (config state) =? ContinueForcedReroll)
      nowUnixMillis true
  else ruleError CodeWrongPhase "phase has no timeout fallback".

Definition RevokeParticipant (state : State) (userID : string) (nowUnixMillis : Z)
  : res (State * list Event) :=
  let* _ := Validate state in
  if Phase state =? PhaseFinished
  then ruleError CodeSessionFinished "session no longer accepts participant changes"
  else if negb (validUnixMillis nowUnixMillis)
  then ruleError CodeInvalidState "deterministic time is required"
  else match playerIndex (Players state) userID with
  | None => ruleError CodeParticipantInactive "participant is absent or already inactive"
  | Some index =>
      if negb (p_Active (Players state !!! index))
      then ruleError CodeParticipantInactive "participant is absent or already inactive"
      else
        let next := Clone state in
        let next := next <| Players := <[index := (Players next !!! index) <| p_Active := false |>]> (Players next) |> in
        let revoked := zeroEvent <| e_Kind := EventParticipantRevoked |> <| e_Turn := Turn state |>
                         <| e_UserID := userID |> <| e_PhaseBefore := Phase state |>
                         <| e_SourceUserID := SourceUserID state |>
                         <| e_TargetUserID := TargetUserID state |> <| e_Result := PendingResult state |> in
        let revoked := if Phase state =? PhaseAwaitingRoll
                       then revoked <| e_SourceUserID := CurrentUserID state |> else revoked in
        if (activeCount (Players next) <? MinimumPlayers)%nat then
          let revoked := revoked <| e_PendingEffectCancelled :=
                           (Phase state =? PhaseResultPending) || (Phase state =? PhaseAwaitingAdd)
                           || (Phase state =? PhaseAwaitingTarget) |> in
          let '(finished, finishEvent) := finishState next FinishInsufficientParticipants in
          Ok (finished, [revoked; finishEvent])
        else if (Phase state =? PhaseAwaitingAdd) && String.eqb (PendingResult state) ResultDoubleSix
                && String.eqb userID (TargetUserID state) then
          let revoked := revoked <| e_TargetSelectionReopened := true |> in
          let next := next <| TargetUserID := ""%string |> <| CurrentUserID := SourceUserID next |>
                           <| Phase := PhaseAwaitingTarget |> in
          let* deadline := deadlineUnixMillis nowUnixMillis (c_ActionTimeoutSeconds (config next)) in
          Ok (next <| ActionDeadlineUnixMillis := deadline |>, [revoked])
        else if String.eqb userID (SourceUserID state)
                || (Phase state =? PhaseAwaitingRoll) && String.eqb userID (CurrentUserID state) then
          let next :=
            if Phase state =? PhaseAwaitingContinue then
              next <| LastSettlement :=
                        settlementFromState next ResultNone "" "source_revoked_after_effect" |>
            else
              let next := if Phase state =? PhaseAwaitingRoll
                          then next <| SourceUserID := userID |>
                                    <| PendingPoolBeforeTicks := TotalPoolTicks next |>
                                    <| PendingDirectionBefore := Direction next |>
                          else next in
              next <| LastSettlement := settlementFromState next ResultCancelled "" "cancelled" |> in
          let* '(settled, settledEvents) := finishTurn next userID "" nowUnixMillis in
          let revoked := revoked
            <| e_PendingEffectCancelled := negb (Phase state =? PhaseAwaitingRoll)
                 && String.eqb (s_Result (LastSettlement next)) ResultCancelled |>
            <| e_NextUserID := match settledEvents with e :: _ => e_NextUserID e | [] => ""%string end |> in
          Ok (settled, revoked :: settledEvents)
        else Ok (next, [revoked])
  end.

Definition Finish (state : State) (reason : string) : res (State * list Event) :=
  let* _ := Validate state in
  if Phase state =? PhaseFinished
  then ruleError CodeSessionFinished "session is already finished"
  else
    let reason := if String.eqb reason "" then FinishHostRequested else reason in
    if negb (String.eqb reason FinishHostRequested) && negb (String.eqb reason FinishPlatformCancelled)
    then ruleError CodeInvalidAction "finish reason is unsupported"
    else
      let '(finished, event) := finishState (Clone state) reason in
      Ok (finished, [event]).

(** ** Sessions

    One input of the session runtime, dispatched the way the module does. *)
Inductive Input :=
| InRoll (actor : string) (now : Z) (seed : list Z)
| InConfirmLanded (actor : string) (now : Z)
| InReportDropped (actor auditRef reason : string) (now : Z)
| InAddToPool (actor : string) (amount now : Z)
| InChooseTarget (actor target : string) (now : Z)
| InReroll (actor : string) (now : Z)
| InPass (actor : string) (now : Z)
| InTimeout (timer : ActionTimer) (now : Z)
| InRevoke (userID : string) (now : Z)
| InFinish (reason : string).

Definition step (state : State) (input : Input) : res (State * list Event) :=
  match input with
  | InRoll actor now seed => Roll state actor now seed
  | InConfirmLanded actor now => ConfirmLanded state actor now
  | InReportDropped actor auditRef reason now => ReportDropped state actor auditRef reason now
  | InAddToPool actor amount now => AddToPool state actor amount now
  | InChooseTarget actor target now => ChooseTarget state actor target now
  | InReroll actor now => Reroll state actor now
  | InPass actor now => Pass state actor now
  | InTimeout timer now => HandleTimeout state timer now
  | InRevoke userID now => RevokeParticipant state userID now
  | InFinish reason => Finish state reason
  end.

End Dice789.
