(* ===== verification/Dice789Facts.v ===== *)
(** * Dice 7-8-9: properties of the engine

    The pool layout, the validity of a snapshot as a proposition, the ledger
    invariant that [Validate] alone does not state (the pool before the pending
    effect), and the preservation of both by every operation. *)

From S2P Require Import Prelude Identifier Dice Roster Engine Dice789.

Module Dice789Facts.
Import Roster Dice789.

Lemma Clone789_id s : Clone s = s.
Proof. by destruct s as [? ? ? ? ? ? ? ? ? ? ? ? ? ? ? ? ? ? ? [] ?]. Qed.

#[export] Hint Rewrite Clone789_id : values.

Lemma cloneSettlement_id t : cloneSettlement t = t.
Proof. by destruct t. Qed.

(** ** Typed values *)
Definition TypedConfig (c : Config) : Prop :=
  is_u32 (c_InitialPoolTicks c) /\ is_u32 (c_LayerCapacityTicks c) /\ is_u32 (c_AddStepTicks c) /\
  is_u32 (c_MaxLayers c) /\ is_u32 (c_ActionTimeoutSeconds c) /\ is_u32 (c_DropReportWindowSeconds c).

Definition TypedPlayer (p : PlayerState) : Prop := is_u32 (p_SeatIndex p) /\ is_u32 (p_PenaltyTicks p).

(** What the hard bounds of the configuration give. *)
Record ConfigBounds (c : Config) : Prop := {
  cb_initial : 0 <= c_InitialPoolTicks c <= c_LayerCapacityTicks c * c_MaxLayers c;
  cb_layer : 1 <= c_LayerCapacityTicks c <= 64;
  cb_step : 1 <= c_AddStepTicks c <= 16;
  cb_layers : 1 <= c_MaxLayers c <= 6;
  cb_single : c_StackedPool c = false -> c_MaxLayers c = 1;
  cb_timeout : 0 <= c_ActionTimeoutSeconds c <= 120;
  cb_drop : 3 <= c_DropReportWindowSeconds c <= 15;
  cb_mode : c_ContinueMode c = 1 \/ c_ContinueMode c = 2 \/ c_ContinueMode c = 3;
}.

Lemma Config_Validate_bounds c n : TypedConfig c -> Config_Validate c n = Ok tt -> ConfigBounds c.
Proof.
  unfold TypedConfig, Config_Validate, is_u32, maxUint32, MaximumLayerCapacity, MinimumLayers, MaximumLayers.
  intros Ht H. inv_result H. to_prop. unfold ContinueOptional, ContinueForcedPass in *.
  assert (Hu : u64 (c_LayerCapacityTicks c * c_MaxLayers c) = c_LayerCapacityTicks c * c_MaxLayers c).
  { unfold u64. apply Z.mod_small. nia. }
  rewrite Hu in *. inv_result H. to_prop. split; try lia.
  intros Hs. rewrite Hs in *. bool_cases; done.
Qed.

Definition capacityOf (c : Config) : Z := c_LayerCapacityTicks c * c_MaxLayers c.

Lemma totalCapacity_bounds c : ConfigBounds c -> totalCapacity c = Ok (capacityOf c) /\ capacityOf c <= 384.
Proof.
  intros [_ H1 _ H2 _ _ _ _]. unfold totalCapacity, u64, u32, capacityOf, maxUint32.
  rewrite !Z.mod_small by nia. split; [|nia].
  by replace (4294967295 <? c_LayerCapacityTicks c * c_MaxLayers c) with false by nia.
Qed.

Lemma mustCapacity_bounds c : ConfigBounds c -> mustCapacity c = capacityOf c.
Proof. intros H. unfold mustCapacity. by destruct (totalCapacity_bounds c H) as [-> _]. Qed.

(** ** The pool layout *)

(** [m] full layers below one partial or full one. *)
Definition stack (capacity : Z) (m : nat) (top : Z) : list PoolLayer :=
  replicate m (mkLayer capacity) ++ [mkLayer top].

Lemma split_total capacity total :
  0 < capacity -> 0 < total ->
  exists m top, total = Z.of_nat m * capacity + top /\ 0 < top <= capacity.
Proof.
  intros Hc Ht. exists (Z.to_nat ((total - 1) / capacity)), ((total - 1) mod capacity + 1).
  pose proof (Z.div_mod (total - 1) capacity). pose proof (Z.mod_pos_bound (total - 1) capacity Hc).
  pose proof (Z.div_pos (total - 1) capacity). lia.
Qed.

(** The loop of [poolFromTotal] terminates within [total] iterations and
    produces the stack. *)
Lemma poolLayers_total capacity m top fuel :
  0 < top <= capacity -> Z.of_nat m * capacity + top <= Z.of_nat fuel ->
  Z.of_nat m * capacity + top <= maxUint32 ->
  poolLayers fuel capacity (Z.of_nat m * capacity + top) = stack capacity m top.
Proof.
  intros Htop. revert m. induction fuel as [|fuel IH]; intros m Hf Hmax; [nia|].
  cbn [poolLayers]. replace (0 <? _) with true by nia. unfold stack in *.
  destruct m as [|m]; cbn [replicate app].
  - cbn [Z.of_nat] in *. rewrite Z.mul_0_l, Z.add_0_l in *.
    replace (if top <? capacity then top else capacity) with top by (destruct (top <? capacity) eqn:?; lia).
    rewrite Z.sub_diag. destruct fuel; [done|]. done.
  - assert (0 <= Z.of_nat m * capacity) by nia. rewrite Nat2Z.inj_succ, <- Z.add_1_r in *.
    replace ((Z.of_nat m + 1) * capacity + top <? capacity) with false by lia. f_equal.
    replace (u32 ((Z.of_nat m + 1) * capacity + top - capacity)) with (Z.of_nat m * capacity + top).
    + apply IH; lia.
    + rewrite u32_small; unfold is_u32, maxUint32 in *; lia.
Qed.

Definition sumTicks (layers : list PoolLayer) : Z := foldr (fun l t => l_Ticks l + t) 0 layers.

Lemma sumTicks_stack capacity m top : sumTicks (stack capacity m top) = Z.of_nat m * capacity + top.
Proof. unfold stack, sumTicks. induction m as [|m IH]; cbn [replicate app foldr l_Ticks] in *; [lia|]. rewrite IH. lia. Qed.

Lemma poolFromTotal_Ok c total pool :
  ConfigBounds c -> 0 <= total ->
  poolFromTotal c total = Ok pool <->
  total <= capacityOf c /\
  (total = 0 /\ pool = [mkLayer 0] \/
   exists m top, total = Z.of_nat m * c_LayerCapacityTicks c + top /\ 0 < top <= c_LayerCapacityTicks c /\
                 pool = stack (c_LayerCapacityTicks c) m top).
Proof.
  intros Hc Ht. unfold poolFromTotal. destruct (totalCapacity_bounds c Hc) as [-> Hmax].
  pose proof (cb_layer _ Hc) as Hl. destruct (capacityOf c <? total) eqn:E; to_prop.
  { split; [done|]. intros [? _]. lia. }
  assert (Hrun : forall m top, total = Z.of_nat m * c_LayerCapacityTicks c + top ->
            0 < top <= c_LayerCapacityTicks c ->
            poolLayers (Z.to_nat total) (c_LayerCapacityTicks c) total = stack (c_LayerCapacityTicks c) m top).
  { intros m top -> Htop. apply poolLayers_total; unfold maxUint32; lia. }
  destruct (total =? 0) eqn:E0; to_prop.
  - split.
    + intros [= <-]. split; [done|]. by left.
    + intros [_ [[_ ->]|(m & top & H1 & H2 & _)]]; [done|]. nia.
  - destruct (split_total (c_LayerCapacityTicks c) total) as (m & top & Hmt & Htop); [lia|lia|].
    rewrite (Hrun m top Hmt Htop). split.
    + intros [= <-]. split; [done|]. right. eauto 10.
    + intros [_ [[? _]|(m' & top' & H1 & H2 & ->)]]; [done|]. by rewrite <- (Hrun m top), <- (Hrun m' top').
Qed.

Lemma poolLayersTotal_sum layers :
  Forall (fun l => 0 <= l_Ticks l) layers -> sumTicks layers <= maxUint32 ->
  poolLayersTotal layers = sumTicks layers.
Proof.
  unfold poolLayersTotal. intros Hl Hmax.
  assert (Hgen : forall t, 0 <= t -> t + sumTicks layers <= maxUint32 ->
            foldl (fun total layer => u32 (total + l_Ticks layer)) t layers = t + sumTicks layers).
  { clear Hmax. induction Hl as [|l layers Hl1 Hl2 IH]; intros t Ht Hm; [cbn; lia|].
    change (sumTicks (l :: layers)) with (l_Ticks l + sumTicks layers) in *. cbn [foldl].
    assert (0 <= sumTicks layers) by (clear -Hl2; unfold sumTicks; induction Hl2; cbn; lia).
    rewrite u32_small by (unfold is_u32; lia). rewrite IH; lia. }
  rewrite Hgen; lia.
Qed.

Lemma stack_nonneg capacity m top :
  0 <= capacity -> 0 <= top -> Forall (fun l => 0 <= l_Ticks l) (stack capacity m top).
Proof.
  intros Hc Ht. unfold stack. apply Forall_app. split; [|by repeat constructor].
  apply Forall_replicate. done.
Qed.

Lemma poolFromTotal_total c total pool :
  ConfigBounds c -> 0 <= total -> poolFromTotal c total = Ok pool ->
  poolLayersTotal pool = total /\ total <= capacityOf c.
Proof.
  intros Hc Ht H. pose proof (cb_layer _ Hc). destruct (totalCapacity_bounds c Hc) as [_ Hmax].
  apply poolFromTotal_Ok in H as [Hle [[-> ->]|(m & top & -> & Htop & ->)]]; [done| |done|done].
  split; [|done]. rewrite poolLayersTotal_sum; [by rewrite sumTicks_stack| |].
  - apply stack_nonneg; lia.
  - rewrite sumTicks_stack. unfold maxUint32. lia.
Qed.

Lemma poolFromTotal_exists c total :
  ConfigBounds c -> 0 <= total <= capacityOf c -> exists pool, poolFromTotal c total = Ok pool.
Proof.
  intros Hc Ht. destruct (decide (total = 0)) as [->|].
  - exists [mkLayer 0]. apply poolFromTotal_Ok; [done|lia|]. split; [lia|by left].
  - pose proof (cb_layer _ Hc).
    destruct (split_total (c_LayerCapacityTicks c) total) as (m & top & -> & Htop); [lia|lia|].
    eexists. apply poolFromTotal_Ok; [done|lia|]. split; [lia|]. right. eauto 10.
Qed.

(** The layer loop of [validatePool] accepts exactly the stacks. *)
Lemma checkLayers_stack c count index total m top :
  (index + m + 1 = count)%nat -> 0 <= total -> 1 <= c_LayerCapacityTicks c ->
  0 <= top <= c_LayerCapacityTicks c -> ((1 < count)%nat -> top <> 0) ->
  total + Z.of_nat m * c_LayerCapacityTicks c + top <= maxUint32 ->
  checkLayers c count index total (stack (c_LayerCapacityTicks c) m top)
  = Ok (total + Z.of_nat m * c_LayerCapacityTicks c + top).
Proof.
  intros Hi Ht Hl Htop Hne Hmax. revert index total Hi Ht Hmax.
  assert (Hadd : forall a b, 0 <= a -> 0 <= b -> a + b <= maxUint32 -> Dice.Ticks_Add a b = Ok (a + b)).
  { intros a b ? ? ?. rewrite Dice.Ticks_Add_total by (unfold is_u32; lia).
    by replace (maxUint32 <? a + b) with false by lia. }
  induction m as [|m IH]; intros index total Hi Ht Hmax; unfold stack in *;
    cbn [replicate app checkLayers l_Ticks].
  - replace (c_LayerCapacityTicks c <? top) with false by lia.
    replace (index <? count - 1)%nat with false by (symmetry; apply Nat.ltb_ge; lia).
    replace ((1 <? count)%nat && (index =? count - 1)%nat && (top =? 0)) with false.
    + cbn [orb andb]. rewrite Hadd by lia. f_equal. lia.
    + destruct (Nat.ltb_spec 1 count); [|done]. replace (top =? 0) with false by lia.
      by rewrite andb_false_r.
  - rewrite Z.ltb_irrefl, Z.eqb_refl. replace (index =? count - 1)%nat with false by (symmetry; apply Nat.eqb_neq; lia).
    cbn [negb orb]. rewrite !andb_false_r. cbn [orb andb]. rewrite Hadd by nia.
    rewrite IH by nia. f_equal. nia.
Qed.

Lemma checkLayers_inv c count index total layers final :
  (index + length layers = count)%nat -> layers <> [] -> 0 <= total <= maxUint32 ->
  Forall (fun l => is_u32 (l_Ticks l)) layers -> 1 <= c_LayerCapacityTicks c ->
  checkLayers c count index total layers = Ok final ->
  exists m top, layers = stack (c_LayerCapacityTicks c) m top /\ 0 <= top <= c_LayerCapacityTicks c /\
    ((1 < count)%nat -> top <> 0) /\ final = total + Z.of_nat m * c_LayerCapacityTicks c + top.
Proof.
  revert index total. induction layers as [|l layers IH]; intros index total Hi Hne Ht Hl Hc H; [done|].
  cbn [checkLayers] in H. apply Forall_cons in Hl as [Hl1 Hl2]. inv_result H.
  destruct (Dice.Ticks_Add total (l_Ticks l)) as [t'|] eqn:Ea; [|done].
  apply Dice.Ticks_Add_Ok in Ea as [-> Hrange]; [|done|done].
  apply orb_false_elim in E as [[E1 E2]%orb_false_elim E3]. to_prop. destruct l as [ticks]. cbn [l_Ticks] in *.
  destruct layers as [|l' layers].
  - cbn in H. injection H as <-. exists 0%nat, ticks. unfold is_u32 in Hl1. cbn in Hi.
    split_and!; [done|lia|lia| |lia]. intros Hcount ->.
    rewrite (proj2 (Nat.ltb_lt _ _) Hcount), (proj2 (Nat.eqb_eq index (count - 1))) in E3 by lia. done.
  - cbn [length] in Hi. destruct (IH (S index) (total + ticks)) as (m & top & -> & Htop & Hz & ->);
      [cbn; lia|done|done|done|done|done|].
    rewrite (proj2 (Nat.ltb_lt index (count - 1))) in E2 by lia. cbn [andb] in E2. to_prop. subst ticks.
    exists (S m), top. split_and!; [done|lia|lia|done|lia].
Qed.

Lemma validatePool_sound s :
  ConfigBounds (config s) -> Forall (fun l => is_u32 (l_Ticks l)) (Pool s) -> 0 <= TotalPoolTicks s ->
  validatePool s = Ok tt -> poolFromTotal (config s) (TotalPoolTicks s) = Ok (Pool s).
Proof.
  intros Hc Hl Ht H. rewrite poolFromTotal_Ok by done. unfold validatePool in H.
  destruct (totalCapacity_bounds _ Hc) as [Hcapeq Hmax]. rewrite Hcapeq in H.
  pose proof (cb_layer _ Hc) as Hcap. do 2 inv_result H. inv_result H. inv_result H.
  apply orb_false_elim in E as [E E']. apply orb_false_elim in E as [E Elen]. to_prop.
  apply Nat.eqb_neq in E. subst value.
  apply checkLayers_inv in E1 as (m & top & Heq & Htop & Hz & Hsum); [|lia| |unfold maxUint32; lia|done|lia].
  2: { intros Hn. by rewrite Hn in E. }
  split; [done|]. rewrite Heq in Hz. unfold stack in Hz. rewrite length_app, length_replicate in Hz. cbn in Hz.
  destruct (decide (top = 0)) as [->|].
  - left. destruct m as [|m]; [|exfalso; apply Hz; lia]. split; [lia|done].
  - right. exists m, top. split_and!; [lia|lia|lia|done].
Qed.

Lemma validatePool_complete s :
  ConfigBounds (config s) -> 0 <= TotalPoolTicks s ->
  poolFromTotal (config s) (TotalPoolTicks s) = Ok (Pool s) -> validatePool s = Ok tt.
Proof.
  intros Hc Ht H. apply poolFromTotal_Ok in H as [Hle Hshape]; [|done|done]. unfold validatePool.
  destruct (totalCapacity_bounds _ Hc) as [-> Hmax].
  pose proof (cb_layer _ Hc) as Hcap. pose proof (cb_layers _ Hc) as Hlay.
  assert (Hst : exists m top, Pool s = stack (c_LayerCapacityTicks (config s)) m top /\
            0 <= top <= c_LayerCapacityTicks (config s) /\ ((1 < S m)%nat -> top <> 0) /\
            TotalPoolTicks s = Z.of_nat m * c_LayerCapacityTicks (config s) + top /\
            Z.of_nat (S m) <= c_MaxLayers (config s)).
  { destruct Hshape as [[H0 ->]|(m & top & H0 & Htop & ->)].
    - exists 0%nat, 0. split_and!; try done; lia.
    - exists m, top. unfold capacityOf in Hle. split_and!; [done|lia|lia|lia|done|nia]. }
  clear Hshape. destruct Hst as (m & top & Hp & Htop & Hz & Hsum & Hm). rewrite Hp.
  assert (Hlen : length (stack (c_LayerCapacityTicks (config s)) m top) = S m).
  { unfold stack. rewrite length_app, length_replicate. cbn. lia. }
  rewrite Hlen, (proj2 (Z.ltb_ge _ _) Hm), (proj2 (Z.ltb_ge _ _) Hle).
  replace (S m =? 0)%nat with false by done. cbn [orb].
  replace (negb (c_StackedPool (config s)) && negb (S m =? 1)%nat) with false.
  2: { destruct (c_StackedPool (config s)) eqn:Es; [done|]. pose proof (cb_single _ Hc Es).
       replace m with 0%nat by lia. done. }
  rewrite checkLayers_stack; [|lia|lia|lia|lia|done|unfold maxUint32; lia]. cbn [bind_result].
  by rewrite Hsum, Z.add_0_l, Z.eqb_refl.
Qed.

(** ** Settlements *)

(** The conservation rule [validateSettlement] applies by result class. *)
Definition tickRule (t : TurnSettlement) : Prop :=
  if String.eqb (s_Result t) ResultEight || String.eqb (s_Result t) ResultNine
     || String.eqb (s_Result t) ResultDoubleOne || String.eqb (s_Result t) ResultDoubleFour
     || String.eqb (s_Result t) ResultDropped
  then s_PenaltyUserID t <> ""%string /\ s_PenaltyTicks t = s_EffectTicks t /\
       s_PoolAfterTicks t <= s_PoolBeforeTicks t /\
       u32 (s_PoolBeforeTicks t - s_PoolAfterTicks t) = s_EffectTicks t
  else if String.eqb (s_Result t) ResultSeven || String.eqb (s_Result t) ResultDoubleSix
  then s_PenaltyUserID t = ""%string /\ s_PenaltyTicks t = 0 /\
       s_PoolBeforeTicks t <= s_PoolAfterTicks t /\
       u32 (s_PoolAfterTicks t - s_PoolBeforeTicks t) = s_EffectTicks t
  else s_EffectTicks t = 0 /\ s_PenaltyTicks t = 0 /\ s_PenaltyUserID t = ""%string /\
       s_PoolBeforeTicks t = s_PoolAfterTicks t.

(** The part of a settlement that does not mention the next turn. *)
Record SettlementOK (cfg : Config) (players : list PlayerState) (t : TurnSettlement) : Prop := {
  so_turn : s_Turn t <> 0;
  so_source : frozenUser players (s_SourceUserID t);
  so_result : validSettledResult (s_Result t) = true;
  so_dice : settlementDiceValid t = true;
  so_direction : Direction_Valid (s_DirectionBefore t) = true;
  so_reason : s_Reason t <> ""%string;
  so_before : s_PoolBeforeTicks t <= mustCapacity cfg;
  so_after : s_PoolAfterTicks t <= mustCapacity cfg;
  so_layers : poolLayersTotal (s_PoolBefore t) = s_PoolBeforeTicks t /\
              poolLayersTotal (s_PoolAfter t) = s_PoolAfterTicks t;
  so_ticks : tickRule t;
  so_target : s_TargetUserID t = ""%string \/ frozenUser players (s_TargetUserID t);
  so_audit : if String.eqb (s_Result t) ResultDropped
             then s_AuditRef t <> ""%string /\ s_DropReason t <> ""%string
             else s_AuditRef t = ""%string /\ s_DropReason t = ""%string;
}.

Lemma eqb_ne a b : a <> b -> String.eqb a b = false.
Proof. apply String.eqb_neq. Qed.

Lemma validateSettlement789_intro s :
  SettlementOK (config s) (Players s) (LastSettlement s) ->
  Direction_Valid (s_DirectionAfter (LastSettlement s)) = true ->
  s_Turn (LastSettlement s) < Turn s /\ frozenUser (Players s) (s_NextUserID (LastSettlement s)) /\
    s_NextUserID (LastSettlement s) <> ""%string
  \/ partialAppliedEffect s (LastSettlement s) = true ->
  validateSettlement s = Ok tt.
Proof.
  intros [Ht Hs Hr Hd Hb Hre Hcb Hca [Hl1 Hl2] Htick Htar Haud] Hda Hcase. unfold validateSettlement.
  rewrite (proj2 (Z.eqb_neq _ _) Ht), (proj2 (isFrozen_iff _ _) Hs), Hr, Hd, Hb, Hda, (eqb_ne _ _ Hre).
  rewrite Hl1, Hl2, !Z.eqb_refl, (proj2 (Z.ltb_ge _ _) Hcb), (proj2 (Z.ltb_ge _ _) Hca).
  cbn [negb orb].
  replace (_ || _) with false; cycle 1.
  { symmetry. destruct Hcase as [(Hlt & Hn & Hne)|Hp].
    - rewrite (eqb_ne _ _ Hne), (proj2 (isFrozen_iff _ _) Hn).
      replace (Turn s <? _) with false by lia. replace (_ =? Turn s) with false by lia. done.
    - rewrite Hp. unfold partialAppliedEffect in Hp.
      apply andb_prop in Hp as [[[Heq%Z.eqb_eq Hn]%andb_prop _]%andb_prop _]. rewrite Hn, Heq.
      by rewrite Z.ltb_irrefl, !andb_false_r. }
  cbn [orb]. replace (match _ with true => _ | false => _ end) with (Ok (E := RuleError ErrorCode) tt); cycle 1.
  { symmetry. unfold tickRule in Htick. destruct (_ || _).
    - destruct Htick as (H1 & H2 & H3 & H4).
      rewrite (eqb_ne _ _ H1), H2, H4, !Z.eqb_refl, (proj2 (Z.ltb_ge _ _) H3). done.
    - destruct (_ || _); destruct Htick as (-> & H2 & H3 & H4).
      + rewrite H2, H4, !Z.eqb_refl, (proj2 (Z.ltb_ge _ _) H3). done.
      + rewrite H2, H3, H4, !Z.eqb_refl. done. }
  cbn [bind_result]. replace (negb _ && negb _) with false; cycle 1.
  { symmetry. destruct Htar as [->|Htar]; [done|]. by rewrite (proj2 (isFrozen_iff _ _) Htar), andb_false_r. }
  destruct (String.eqb (s_Result _) ResultDropped); destruct Haud as [H1 H2].
  - by rewrite (eqb_ne _ _ H1), (eqb_ne _ _ H2).
  - by rewrite H1, H2.
Qed.

(** Settlement validity is monotone in the partial-effect exception and
    otherwise reads the settlement, the turn, the configuration and the frozen
    users only. *)
Lemma validateSettlement_mono s s' :
  LastSettlement s' = LastSettlement s -> Turn s' = Turn s -> config s' = config s ->
  userOf <$> Players s' = userOf <$> Players s ->
  (partialAppliedEffect s (LastSettlement s) = true -> partialAppliedEffect s' (LastSettlement s) = true) ->
  validateSettlement s = Ok tt -> validateSettlement s' = Ok tt.
Proof.
  intros Hl Ht Hc Hu Hp H. unfold validateSettlement in *. rewrite Hl, Ht, Hc, !(isFrozen_users _ _ _ Hu).
  destruct (s_Turn (LastSettlement s) =? 0); [done|].
  destruct (partialAppliedEffect s (LastSettlement s)); [by rewrite (Hp eq_refl)|].
  destruct (partialAppliedEffect s' (LastSettlement s)); [|done].
  inv_result H. cbn [negb] in E. rewrite andb_true_r in E. apply orb_false_elim in E as [E ?].
  repeat (apply orb_false_elim in E as [E ?]). cbn [negb]. rewrite !andb_false_r.
  repeat match goal with Hb : _ = false |- _ => rewrite Hb end. cbn [orb]. exact H.
Qed.

(** When the partial-effect exception cannot hold before the change. *)
Lemma partial_phase s t :
  Phase s <> PhaseAwaitingContinue -> Phase s <> PhaseFinished -> partialAppliedEffect s t = false.
Proof.
  intros H1 H2. unfold partialAppliedEffect. apply Z.eqb_neq in H1, H2. rewrite H1, H2. apply andb_false_r.
Qed.

(** Dice of a settled turn, by result. *)
Inductive SettledCase (x : State) (r target : string) : Prop :=
| settled_add :
    r = ResultSeven \/ r = ResultDoubleSix -> PendingPoolBeforeTicks x <= TotalPoolTicks x ->
    diceShown (DieOne x) (DieTwo x) (Sum x) = true -> SettledCase x r target
| settled_drink :
    r = ResultEight \/ r = ResultNine \/ r = ResultDoubleFour \/ r = ResultDropped ->
    TotalPoolTicks x <= PendingPoolBeforeTicks x ->
    diceShown (DieOne x) (DieTwo x) (Sum x) = true -> SettledCase x r target
| settled_target :
    r = ResultDoubleOne -> target <> ""%string -> TotalPoolTicks x <= PendingPoolBeforeTicks x ->
    diceShown (DieOne x) (DieTwo x) (Sum x) = true -> SettledCase x r target
| settled_still :
    r = ResultOrdinaryPair \/ r = ResultOther \/ r = ResultCancelled ->
    PendingPoolBeforeTicks x = TotalPoolTicks x ->
    diceShown (DieOne x) (DieTwo x) (Sum x) = true -> SettledCase x r target
| settled_unrolled :
    r = ResultRollTimeout \/ r = ResultCancelled -> PendingPoolBeforeTicks x = TotalPoolTicks x ->
    DieOne x = 0 -> DieTwo x = 0 -> Sum x = 0 -> SettledCase x r target.

Definition effectiveResult (x : State) (override : string) : string :=
  if String.eqb override ResultNone then PendingResult x else override.

(** The frozen header and the pool. *)
Record Core (s : State) : Prop := {
  co_schema : SchemaVersion s = CurrentSchemaVersion;
  co_turn : Turn s <> 0 /\ is_u32 (Turn s);
  co_direction : Direction_Valid (Direction s) = true;
  co_roster : ValidRoster MinimumPlayers MaximumPlayers (participantOf <$> Players s);
  co_order : StronglySorted (fun x y => seatOf x < seatOf y) (Players s);
  co_host : frozenUser (Players s) (HostUserID s);
  co_config : Config_Validate (config s) (length (Players s)) = Ok tt;
  co_bounds : ConfigBounds (config s);
  co_players : Forall TypedPlayer (Players s);
  co_pool : poolFromTotal (config s) (TotalPoolTicks s) = Ok (Pool s);
  co_total : 0 <= TotalPoolTicks s;
}.

Lemma core_users s : Core s -> NoDup (userOf <$> Players s).
Proof. intros Hc. pose proof (roster_users _ _ _ (co_roster _ Hc)) as Hu. by rewrite <- list_fmap_compose in Hu. Qed.

Lemma core_nonempty s u : Core s -> frozenUser (Players s) u -> u <> ""%string.
Proof.
  intros Hc (p & Hp & Hu). pose proof (roster_identities _ _ _ (co_roster _ Hc)) as Hv.
  rewrite Forall_forall in Hv. rewrite <- Hu.
  apply (validIdentity_nonempty (participantOf p)), Hv. by apply list_elem_of_fmap_2.
Qed.

Lemma core_active s u : activePlayer s u = true -> frozenUser (Players s) u.
Proof. intros H. by apply isFrozen_iff, isActive_isFrozen. Qed.

Lemma core_capacity s : Core s -> TotalPoolTicks s <= capacityOf (config s) <= 384.
Proof.
  intros Hc. pose proof (co_bounds _ Hc) as Hb. destruct (totalCapacity_bounds _ Hb) as [_ ?].
  destruct (poolFromTotal_total _ _ _ Hb (co_total _ Hc) (co_pool _ Hc)). lia.
Qed.

Lemma diceShown_nonzero a b c : diceShown a b c = true -> (a =? 0) = false.
Proof. unfold diceShown. intros H. to_prop. apply Z.eqb_neq. lia. Qed.

(** A settlement built by the engine is valid. *)
Lemma settlementFromState_OK x override target reason auditRef dropReason :
  Core x -> frozenUser (Players x) (SourceUserID x) ->
  0 <= PendingPoolBeforeTicks x <= capacityOf (config x) ->
  Direction_Valid (PendingDirectionBefore x) = true -> reason <> ""%string ->
  target = ""%string \/ frozenUser (Players x) target ->
  SettledCase x (effectiveResult x override) target ->
  (if String.eqb (effectiveResult x override) ResultDropped
   then auditRef <> ""%string /\ dropReason <> ""%string
   else auditRef = ""%string /\ dropReason = ""%string) ->
  SettlementOK (config x) (Players x)
    ((settlementFromState x override target reason) <| s_AuditRef := auditRef |> <| s_DropReason := dropReason |>).
Proof.
  intros Hc Hs Hppb Hpdb Hr Ht Hcase Haud. pose proof (co_bounds _ Hc) as Hb.
  pose proof (core_capacity _ Hc) as Hcap. pose proof (co_total _ Hc) as Htot.
  destruct (poolFromTotal_exists _ _ Hb Hppb) as [before Hbefore].
  destruct (poolFromTotal_total _ _ _ Hb (proj1 Hppb) Hbefore) as [Hbl _].
  destruct (poolFromTotal_total _ _ _ Hb Htot (co_pool _ Hc)) as [Hal _].
  assert (Hpd0 : (PendingDirectionBefore x =? 0) = false).
  { destruct (PendingDirectionBefore x =? 0) eqn:E; [|done]. to_prop. by rewrite E in Hpdb. }
  pose proof (core_nonempty _ _ Hc Hs) as Hsne.
  unfold settlementFromState. fold (effectiveResult x override). set (r := effectiveResult x override) in *.
  rewrite (eqb_ne _ _ Hsne), Hbefore. cbn [s_DirectionBefore]. rewrite Hpd0.
  destruct Hcase as [Hr' Hle Hd|Hr' Hle Hd|Hr' Hne Hle Hd|Hr' Heq Hd|Hr' Heq H1 H2 H3];
    [destruct Hr' as [Hr'|Hr']|destruct Hr' as [Hr'|[Hr'|[Hr'|Hr']]]| |destruct Hr' as [Hr'|[Hr'|Hr']]|destruct Hr' as [Hr'|Hr']];
    rewrite Hr' in *; cbn in Haud |- *; split; cbn; rewrite ?mustCapacity_bounds by done;
    unfold tickRule, settlementDiceValid; cbn; rewrite ?H1, ?H2, ?H3; cbn; try done; try lia;
    try apply (co_turn _ Hc).
  by rewrite (diceShown_nonzero _ _ _ Hd).
Qed.

(** ** Live and finished snapshots *)
Definition Rolled (s : State) : Prop :=
  diceShown (DieOne s) (DieTwo s) (Sum s) = true /\ activePlayer s (SourceUserID s) = true /\
  Direction_Valid (PendingDirectionBefore s) = true.

Definition actionDeadline (s : State) : Prop :=
  deadlineMatches s (c_ActionTimeoutSeconds (config s)) = true.

(** Each persisted phase, with the ledger facts [Validate] does not check:
    before an effect is applied the recorded pool is the current one, after it
    the pool moved in the direction of the effect. *)
Inductive LivePhase (s : State) : Prop :=
| live_roll :
    Phase s = PhaseAwaitingRoll -> activePlayer s (CurrentUserID s) = true ->
    SourceUserID s = ""%string -> TargetUserID s = ""%string ->
    DieOne s = 0 -> DieTwo s = 0 -> Sum s = 0 -> PendingResult s = ResultNone ->
    PendingPoolBeforeTicks s = 0 -> PendingDirectionBefore s = 0 -> actionDeadline s -> LivePhase s
| live_pending :
    Phase s = PhaseResultPending -> Rolled s -> CurrentUserID s = SourceUserID s ->
    TargetUserID s = ""%string -> validRollResult (PendingResult s) = true ->
    PendingPoolBeforeTicks s = TotalPoolTicks s ->
    deadlineMatches s (c_DropReportWindowSeconds (config s)) = true -> LivePhase s
| live_add_seven :
    Phase s = PhaseAwaitingAdd -> Rolled s -> CurrentUserID s = SourceUserID s ->
    TargetUserID s = ""%string -> PendingResult s = ResultSeven ->
    PendingPoolBeforeTicks s = TotalPoolTicks s -> actionDeadline s -> LivePhase s
| live_add_six :
    Phase s = PhaseAwaitingAdd -> Rolled s -> CurrentUserID s = TargetUserID s ->
    activePlayer s (TargetUserID s) = true -> TargetUserID s <> SourceUserID s ->
    PendingResult s = ResultDoubleSix ->
    PendingPoolBeforeTicks s = TotalPoolTicks s -> actionDeadline s -> LivePhase s
| live_target :
    Phase s = PhaseAwaitingTarget -> Rolled s -> CurrentUserID s = SourceUserID s ->
    TargetUserID s = ""%string ->
    PendingResult s = ResultDoubleOne \/ PendingResult s = ResultDoubleSix ->
    PendingPoolBeforeTicks s = TotalPoolTicks s -> actionDeadline s -> LivePhase s
| live_continue :
    Phase s = PhaseAwaitingContinue -> Rolled s -> CurrentUserID s = SourceUserID s ->
    TargetUserID s = ""%string ->
    PendingResult s = ResultSeven /\ PendingPoolBeforeTicks s <= TotalPoolTicks s \/
    (PendingResult s = ResultEight \/ PendingResult s = ResultNine) /\
      TotalPoolTicks s <= PendingPoolBeforeTicks s ->
    0 <= PendingPoolBeforeTicks s <= capacityOf (config s) ->
    s_Turn (LastSettlement s) = Turn s -> actionDeadline s -> LivePhase s.

Record Live (s : State) : Prop := {
  lv_core : Core s;
  lv_settlement : validateSettlement s = Ok tt;
  lv_reason : FinishReason s = ""%string;
  lv_active : (MinimumPlayers <= activeCount (Players s))%nat;
  lv_phase : LivePhase s;
}.

Record Done (s : State) : Prop := {
  dn_core : Core s;
  dn_settlement : validateSettlement s = Ok tt;
  dn_phase : Phase s = PhaseFinished;
  dn_reason : validFinishReason (FinishReason s) = true;
  dn_users : CurrentUserID s = ""%string /\ SourceUserID s = ""%string /\ TargetUserID s = ""%string;
  dn_deadline : ActionDeadlineUnixMillis s = 0;
  dn_dice : DieOne s = 0 /\ DieTwo s = 0 /\ Sum s = 0;
  dn_pending : PendingResult s = ResultNone /\ PendingPoolBeforeTicks s = 0 /\ PendingDirectionBefore s = 0;
}.

Definition Good (s : State) : Prop := Live s \/ Done s.

Lemma ValidateParticipants789_iff ps :
  ValidateParticipants ps = Ok tt <-> ValidRoster MinimumPlayers MaximumPlayers ps.
Proof.
  unfold ValidateParticipants. rewrite <- checkRoster_iff.
  destruct (checkRoster _ _ ps) as [[]|f]; split; done.
Qed.

Lemma existsb_host (players : list PlayerState) host :
  existsb (fun player => String.eqb (p_UserID player) host) players = true <-> frozenUser players host.
Proof.
  rewrite existsb_exists. unfold frozenUser. split.
  - intros (p & Hp & Hu). apply eqb_string_true in Hu. exists p. split; [by apply list_elem_of_In|done].
  - intros (p & Hp & Hu). exists p. split; [by apply list_elem_of_In|by apply eqb_string_true].
Qed.

Lemma LivePhase_phase s : LivePhase s -> 1 <= Phase s <= 5.
Proof. intros []; rewrite H; unfold PhaseAwaitingRoll, PhaseResultPending, PhaseAwaitingAdd, PhaseAwaitingTarget, PhaseAwaitingContinue; lia. Qed.

Lemma LivePhase_current s : LivePhase s -> activePlayer s (CurrentUserID s) = true.
Proof. intros [? ?|? (_ & Ha & _) ->|? (_ & Ha & _) ->|? (_ & Ha & _) ->|? (_ & Ha & _) ->|? (_ & Ha & _) ->]; done. Qed.

Lemma LivePhase_valid s : ConfigBounds (config s) -> LivePhase s -> validatePhase s = Ok tt.
Proof.
  intros Hb Hl. unfold validatePhase.
  destruct Hl as [Hp Ha H1 H2 H3 H4 H5 H6 H7 H8 H9|Hp (Hd & Ha & Hdir) H1 H2 H3 H4 H5|
    Hp (Hd & Ha & Hdir) H1 H2 H3 H4 H5|Hp (Hd & Ha & Hdir) H1 H2 H3 H4 H5 H6|
    Hp (Hd & Ha & Hdir) H1 H2 H3 H4 H5|Hp (Hd & Ha & Hdir) H1 H2 H3 H4 H5 H6]; rewrite Hp; cbn [Z.eqb Pos.eqb
      PhaseAwaitingRoll PhaseResultPending PhaseAwaitingAdd PhaseAwaitingTarget PhaseAwaitingContinue].
  - unfold actionDeadline in H9. by rewrite H1, H2, H3, H4, H5, H6, H7, H8, H9.
  - by rewrite Hd, Ha, Hdir, H1, H2, H3, H4, H5, !String.eqb_refl, Z.eqb_refl.
  - unfold actionDeadline in H5. by rewrite Hd, H1, H2, H3, H5, Ha, Hdir, !String.eqb_refl.
  - unfold actionDeadline in H6. by rewrite Hd, Ha, Hdir, H1, H2, H4, H6, (eqb_ne _ _ H3), !String.eqb_refl.
  - unfold actionDeadline in H5. rewrite Hd, H1, Ha, Hdir, H2, H5, !String.eqb_refl; by destruct H3 as [-> | ->].
  - unfold actionDeadline in H6. rewrite Hd, H1, Ha, Hdir, H2, H5, H6, !String.eqb_refl, Z.eqb_refl, mustCapacity_bounds by done.
    replace (capacityOf (config s) <? PendingPoolBeforeTicks s) with false by lia.
    by destruct H3 as [[-> _]|[[-> | ->] _]].
Qed.

Lemma Core_header s :
  Core s -> 1 <= Phase s <= 7 -> Phase s <> 6 ->
  Validate s =
    let* _ := validateSettlement s in
    if Phase s =? PhaseFinished then
      if negb (validFinishReason (FinishReason s)) || negb (String.eqb (CurrentUserID s) "")
         || negb (String.eqb (SourceUserID s) "") || negb (String.eqb (TargetUserID s) "")
         || negb (ActionDeadlineUnixMillis s =? 0) || negb (DieOne s =? 0)
         || negb (DieTwo s =? 0) || negb (Sum s =? 0)
         || negb (String.eqb (PendingResult s) ResultNone)
         || negb (PendingPoolBeforeTicks s =? 0) || negb (PendingDirectionBefore s =? 0)
      then ruleError CodeInvalidState "finished state retains live turn data"
      else Ok tt
    else if negb (String.eqb (FinishReason s) "")
            || (activeCount (Players s) <? MinimumPlayers)%nat || negb (activePlayer s (CurrentUserID s))
    then ruleError CodeInvalidState "active turn ownership is invalid"
    else validatePhase s.
Proof.
  intros Hc Hp1 Hp2. unfold Validate. pose proof (roster_count _ _ _ (co_roster _ Hc)) as Hlen.
  rewrite length_fmap in Hlen. destruct (co_turn _ Hc) as [Ht _].
  rewrite (co_schema _ Hc), (proj2 (Z.eqb_neq _ _) Ht), (co_direction _ Hc), Z.eqb_refl.
  rewrite (proj2 (Nat.ltb_ge _ _) (proj1 Hlen)), (proj2 (Nat.ltb_ge _ _) (proj2 Hlen)).
  replace (Phase s <? PhaseAwaitingRoll) with false by (unfold PhaseAwaitingRoll; lia).
  replace (PhaseFinished <? Phase s) with false by (unfold PhaseFinished; lia).
  replace (Phase s =? PhaseTurnSettled) with false by (unfold PhaseTurnSettled; lia).
  cbn [negb orb]. rewrite (proj2 (seatsOutOfOrder_false _) (co_order _ Hc)).
  rewrite (proj2 (existsb_host _ _) (co_host _ Hc)), (co_config _ Hc),
    (proj2 (ValidateParticipants789_iff _) (co_roster _ Hc)).
  by rewrite (validatePool_complete s (co_bounds _ Hc) (co_total _ Hc) (co_pool _ Hc)).
Qed.

Lemma Good_Validate s : Good s -> Validate s = Ok tt.
Proof.
  intros [[Hc Hs Hr Ha Hp]|[Hc Hs Hp Hr (H1 & H2 & H3) Hd (H4 & H5 & H6) (H7 & H8 & H9)]].
  - pose proof (LivePhase_phase _ Hp). rewrite Core_header by (done || lia). rewrite Hs. cbn [bind_result].
    replace (Phase s =? PhaseFinished) with false by (unfold PhaseFinished; lia).
    rewrite Hr, (proj2 (Nat.ltb_ge _ _) Ha), (LivePhase_current _ Hp). cbn [negb orb String.eqb].
    apply LivePhase_valid; [apply Hc|done].
  - rewrite Core_header; [|done|rewrite Hp; unfold PhaseFinished; lia|by rewrite Hp].
    by rewrite Hs, Hp, Hr, H1, H2, H3, H4, H5, H6, H7, H8, H9, Hd.
Qed.

(** ** Ending a turn *)
Lemma finishTurn_inv x source nextActor now s' es :
  finishTurn x source nextActor now = Ok (s', es) ->
  exists next d,
    (if String.eqb nextActor "" then nextActiveUser x source = Ok next else next = nextActor) /\
    Turn x <> maxUint32 /\ activePlayer x next = true /\ 0 < now /\
    deadlineUnixMillis now (c_ActionTimeoutSeconds (config x)) = Ok d /\
    s' = mkState (SchemaVersion x) PhaseAwaitingRoll (u32 (Turn x + 1)) (HostUserID x) (Players x) next "" ""
           (Direction x) (Pool x) (TotalPoolTicks x) 0 0 0 d (config x) ResultNone 0 0
           ((LastSettlement x) <| s_NextUserID := next |> <| s_DirectionAfter := Direction x |>)
           (FinishReason x).
Proof.
  unfold finishTurn. rewrite Clone789_id. intros H. inv_result H. rename value into next.
  inv_result H. to_prop. cbv zeta in H.
  match type of H with (let* ' _ := startTurn ?a ?b ?c in _) = _ => destruct (startTurn a b c) as [[y ev]|] eqn:Es end;
    cbn [bind_result] in H; [|done].
  injection H as <- _. unfold startTurn in Es. inv_result Es. to_prop. inv_result Es. inv_result Es.
  exists next, value. split_and!; try done.
  - destruct (String.eqb nextActor ""); congruence.
  - unfold validUnixMillis in *. to_prop. lia.
Qed.

Lemma deadline_live now seconds d :
  0 <= seconds -> deadlineUnixMillis now seconds = Ok d ->
  (seconds =? 0) && (d =? 0) || negb (seconds =? 0) && (0 <? d) = true.
Proof.
  unfold deadlineUnixMillis, validUnixMillis. intros Hs H. inv_result H. to_prop.
  destruct (seconds =? 0) eqn:E0; [by injection H as <-|]. to_prop. inv_results H. cbn. lia.
Qed.

(** The participants, the host and the configuration never change. *)
Definition same_frozen (s s' : State) : Prop :=
  participantOf <$> Players s' = participantOf <$> Players s /\ config s' = config s /\
  HostUserID s' = HostUserID s.

Lemma same_frozen_refl s : same_frozen s s.
Proof. done. Qed.

Lemma same_frozen789_trans s1 s2 s3 : same_frozen s1 s2 -> same_frozen s2 s3 -> same_frozen s1 s3.
Proof. intros (? & ? & ?) (? & ? & ?). split_and!; congruence. Qed.

(** Core facts survive any change of the turn data. *)
Lemma Core_frame s s' :
  Core s -> SchemaVersion s' = SchemaVersion s -> Turn s' <> 0 -> is_u32 (Turn s') ->
  Direction_Valid (Direction s') = true -> same_frozen s s' -> Forall TypedPlayer (Players s') ->
  poolFromTotal (config s') (TotalPoolTicks s') = Ok (Pool s') -> 0 <= TotalPoolTicks s' -> Core s'.
Proof.
  intros [C1 C2 C3 C4 C5 C6 C7 C8 C9 C10 C11] Hv Ht1 Ht2 Hd (Hp & Hc & Hh) Hty Hpool Htot.
  pose proof (participants_users _ _ Hp) as Hu. split; try done.
  - congruence.
  - by rewrite Hp.
  - apply order_seats. rewrite (participants_seats _ _ Hp). by apply order_seats.
  - rewrite Hh. by eapply frozenUser_users.
  - rewrite Hc. apply (f_equal length) in Hp. rewrite !length_fmap in Hp. by rewrite Hp.
  - by rewrite Hc.
Qed.

(** The shape of a state about to end its turn. *)
Record Settling (x : State) : Prop := {
  sg_core : Core x;
  sg_reason : FinishReason x = ""%string;
  sg_active : (MinimumPlayers <= activeCount (Players x))%nat;
  sg_settlement : SettlementOK (config x) (Players x) (LastSettlement x);
  sg_turn : s_Turn (LastSettlement x) = Turn x;
}.

Lemma finishTurn_Live x source nextActor now s' es :
  Settling x -> finishTurn x source nextActor now = Ok (s', es) -> Live s' /\ same_frozen x s'.
Proof.
  intros [Hc Hr Ha Hs Ht] (next & d & _ & Hmax & Hact & _ & Hd & ->)%finishTurn_inv.
  destruct (co_turn _ Hc) as [Ht1 Ht2]. pose proof (u32_succ _ Ht2 Hmax) as Hsucc.
  assert (Hfr : frozenUser (Players x) next) by by apply core_active.
  split; [|done]. split; cbn [Players FinishReason]; try done.
  - destruct Hc. split; cbn; try done. split; [|apply u32_range].
    rewrite Hsucc. unfold is_u32 in Ht2. lia.
  - apply validateSettlement789_intro; cbn [LastSettlement config Players].
    + destruct Hs. by split.
    + apply Hc.
    + left. cbn. rewrite Hsucc, Ht. split_and!; [lia|done|by eapply core_nonempty].
  - apply live_roll; cbn; try done. unfold actionDeadline, deadlineMatches. cbn.
    eapply deadline_live; [|exact Hd]. apply (cb_timeout _ (co_bounds _ Hc)).
Qed.

(** ** Guards *)
Lemma validateActor_inv s actor phase now timer :
  Good s -> validateActor s actor phase now timer = Ok tt ->
  Live s /\ Phase s = phase /\ actor = CurrentUserID s /\ 0 < now /\
  (timer = false -> ActionDeadlineUnixMillis s = 0 \/ now < ActionDeadlineUnixMillis s).
Proof.
  intros Hg H. unfold validateActor in H. rewrite (Good_Validate _ Hg) in H. cbn [bind_result] in H.
  do 5 inv_result H. to_prop. destruct Hg as [Hl|Hd]; [|by rewrite (dn_phase _ Hd) in E].
  unfold validUnixMillis in *. split_and!; try done; [lia|]. intros ->. cbn in E3. bool_cases; [by left|right; lia].
Qed.

Lemma validateHost_inv s actor now :
  Good s -> validateHost s actor now = Ok tt ->
  Live s /\ Phase s = PhaseResultPending /\ actor = HostUserID s /\ activePlayer s actor = true /\
  0 < now < ActionDeadlineUnixMillis s.
Proof.
  intros Hg H. unfold validateHost in H. rewrite (Good_Validate _ Hg) in H. cbn [bind_result] in H.
  do 3 inv_result H. to_prop. destruct Hg as [Hl|Hd]; [|by rewrite (dn_phase _ Hd) in E].
  unfold validUnixMillis in *. split_and!; try done; lia.
Qed.

Ltac wrong_phase :=
  match goal with
  | H1 : Phase ?s = _, H2 : Phase ?s = _ |- _ => rewrite H1 in H2; discriminate H2
  end.

Lemma live_at_roll s : LivePhase s -> Phase s = PhaseAwaitingRoll ->
  activePlayer s (CurrentUserID s) = true /\ SourceUserID s = ""%string /\ TargetUserID s = ""%string /\
  DieOne s = 0 /\ DieTwo s = 0 /\ Sum s = 0.
Proof. intros [] Hp; try wrong_phase. done. Qed.

Lemma live_at_pending s : ConfigBounds (config s) -> LivePhase s -> Phase s = PhaseResultPending ->
  Rolled s /\ CurrentUserID s = SourceUserID s /\ TargetUserID s = ""%string /\
  validRollResult (PendingResult s) = true /\ PendingPoolBeforeTicks s = TotalPoolTicks s /\
  0 < ActionDeadlineUnixMillis s.
Proof.
  intros Hb [] Hp; try wrong_phase. pose proof (cb_drop _ Hb). split_and!; try done.
  unfold deadlineMatches in *. bool_cases; lia.
Qed.

Lemma validRollResult_cases r :
  validRollResult r = true ->
  r = ResultSeven \/ r = ResultEight \/ r = ResultNine \/ r = ResultDoubleOne \/ r = ResultDoubleFour \/
  r = ResultDoubleSix \/ r = ResultOrdinaryPair \/ r = ResultOther.
Proof. unfold validRollResult. intros H. bool_cases; auto 10. Qed.

Lemma selectResult_valid cfg a b sum : validRollResult (selectResult cfg a b sum) = true.
Proof.
  unfold selectResult. cbv zeta.
  repeat match goal with |- context [if ?c then _ else _] => destruct c; try done end.
Qed.

(** ** Rolling *)
Lemma applyRoll_Live s actor a b now s' es :
  Good s -> applyRoll s actor a b now = Ok (s', es) -> Live s' /\ same_frozen s s'.
Proof.
  intros Hg H. unfold applyRoll in H. inv_result H. destruct value.
  apply validateActor_inv in E as ([Hc Hs Hr Ha Hl] & Hp & -> & Hn & _); [|done].
  inv_result H. by_value H. cbn [config DieOne DieTwo update] in H.
  unfold ClassifyRoll in H. rewrite E in H. cbn [bind_result] in H. inv_result H. inv_result H.
  destruct (live_at_roll _ Hl Hp) as (Hact & Hsrc & Htar & _). split; [|done]. to_prop.
  split; cbn; try done.
  - destruct Hc. by split.
  - eapply (validateSettlement_mono s); cbn; try done.
    intros Hpart. rewrite partial_phase in Hpart by (rewrite Hp; done). done.
  - apply live_pending; cbn; try done.
    + split_and!; [|done|apply Hc]. unfold diceShown. cbn. rewrite Z.eqb_refl. lia.
    + apply selectResult_valid.
    + unfold deadlineMatches. cbn. eapply deadline_live; [|exact E0].
      pose proof (cb_drop _ (co_bounds _ Hc)). lia.
Qed.

Lemma Roll_Live s actor now seed s' es :
  Good s -> Roll s actor now seed = Ok (s', es) -> Live s' /\ same_frozen s s'.
Proof.
  intros Hg H. unfold Roll in H. inv_result H. destruct (Dice.Roll _ _ _) as [faces|]; [|done].
  by eapply applyRoll_Live.
Qed.

(** ** Moving ticks from the pool to a player *)
Definition sumPenalties (players : list PlayerState) : Z :=
  foldr (fun p t => p_PenaltyTicks p + t) 0 players.

Lemma sumPenalties_insert (players : list PlayerState) i p q :
  players !! i = Some p ->
  sumPenalties (<[i := q]> players) = sumPenalties players - p_PenaltyTicks p + p_PenaltyTicks q.
Proof.
  unfold sumPenalties. revert i. induction players as [|a l IH]; intros i Hi; [done|].
  destruct i as [|i]; cbn in Hi.
  - simplify_eq. cbn. lia.
  - change (<[S i:=q]> (a :: l)) with (a :: <[i:=q]> l). cbn [foldr]. rewrite (IH i Hi). lia.
Qed.

(** [y] is [x] after [target] drank [amount] ticks of the pool. *)
Record Drunk (x y : State) (target : string) (amount : Z) : Prop := {
  dr_shape : exists players pool,
    y = x <| Players := players |> <| Pool := pool |> <| TotalPoolTicks := TotalPoolTicks x - amount |>;
  dr_core : Core y;
  dr_frozen : same_frozen x y;
  dr_active u : activePlayer y u = activePlayer x u;
  dr_count : activeCount (Players y) = activeCount (Players x);
  dr_sum : sumPenalties (Players y) = sumPenalties (Players x) + amount;
  dr_penalty u : penaltyOf (Players y) u = penaltyOf (Players x) u + (if String.eqb u target then amount else 0);
  dr_target : activePlayer x target = true;
}.

Lemma isActive_insert_same (players : list PlayerState) i p q u :
  players !! i = Some p -> p_UserID q = p_UserID p -> p_Active q = p_Active p ->
  isActive (<[i := q]> players) u = isActive players u.
Proof.
  intros Hi Hu Ha. unfold isActive.
  rewrite (playerIndex_users _ players) by (by apply (fmap_insert_same userOf _ _ p)).
  destruct (playerIndex players u) as [j|]; [|done]. destruct (decide (j = i)) as [->|].
  - rewrite list_lookup_total_insert_eq by (by eapply lookup_lt_Some).
    by rewrite (list_lookup_total_correct _ _ _ Hi).
  - by rewrite list_lookup_total_insert_ne.
Qed.

Lemma penaltyOf789_insert (players : list PlayerState) i p v u :
  NoDup (userOf <$> players) -> players !! i = Some p ->
  penaltyOf (<[i := p <| p_PenaltyTicks := v |>]> players) u
  = if String.eqb u (p_UserID p) then v else penaltyOf players u.
Proof.
  intros Hnd Hi. unfold penaltyOf.
  rewrite (playerIndex_users _ players) by (by apply (fmap_insert_same userOf _ _ p)).
  pose proof (playerIndex_lookup _ _ _ Hnd Hi) as Hidx. change (userOf p) with (p_UserID p) in Hidx.
  destruct (String.eqb u (p_UserID p)) eqn:E; to_prop.
  - subst u. rewrite Hidx, list_lookup_total_insert_eq; [done|]. by eapply lookup_lt_Some.
  - destruct (playerIndex players u) as [j|] eqn:Ej; [|done].
    rewrite list_lookup_total_insert_ne; [done|]. intros <-. apply E.
    apply playerIndex_Some in Ej as (q & Hq & <- & _). by simplify_eq.
Qed.

Lemma drink_inv x target amount total y z :
  Core x -> 0 <= amount <= TotalPoolTicks x -> total = TotalPoolTicks x - amount ->
  addPenalty x target amount = Ok y -> setPoolTotal y total = Ok z -> Drunk x z target amount.
Proof.
  intros Hc Ha -> Hp Hset. unfold addPenalty in Hp.
  destruct (playerIndex (Players x) target) as [i|] eqn:Ei; [|done].
  pose proof (playerIndex_Some _ _ _ Ei) as (p & Hi & Hu & Htot). rewrite Htot in Hp.
  inv_result Hp. to_prop. destruct (Dice.Ticks_Add _ _) as [v|] eqn:Ev; [|done]. injection Hp as <-.
  pose proof (Forall_lookup_1 _ _ _ _ (co_players _ Hc) Hi) as [Hseat Hpen].
  pose proof (core_capacity _ Hc) as Hcap.
  apply Dice.Ticks_Add_Ok in Ev as [-> Hv]; [|done|unfold is_u32, maxUint32; lia].
  unfold setPoolTotal in Hset. inv_result Hset. cbn [config update] in E0. injection Hset as <-.
  set (q := p <| p_PenaltyTicks := p_PenaltyTicks p + amount |>).
  assert (Hsame : participantOf <$> <[i := q]> (Players x) = participantOf <$> Players x)
    by (by apply (fmap_insert_same participantOf _ _ p)).
  split.
  - by exists (<[i := q]> (Players x)), value.
  - destruct (co_turn _ Hc). eapply (Core_frame x); cbn; try done; [apply Hc|by apply Forall_insert; [apply Hc|]|lia].
  - done.
  - intros u. by apply (isActive_insert_same _ _ p).
  - by apply (activeCount_insert_same _ _ p).
  - cbn. rewrite (sumPenalties_insert _ _ p) by done. cbn. lia.
  - intros u. change (penaltyOf (<[i := q]> (Players x)) u =
      penaltyOf (Players x) u + (if String.eqb u target then amount else 0)).
    unfold q. rewrite (penaltyOf789_insert _ _ p) by (done || apply core_users, Hc).
    change (userOf p) with (p_UserID p) in Hu. rewrite Hu. destruct (String.eqb u target) eqn:Eu; [|lia].
    to_prop. subst u. unfold penaltyOf. by rewrite Ei, Htot.
  - unfold activePlayer, isActive. by rewrite Ei, Htot.
Qed.

Lemma applyDrink_inv x target amount reason events y es :
  Core x -> 0 <= amount <= TotalPoolTicks x ->
  applyDrink x target amount reason events = Ok (y, es) -> Drunk x y target amount.
Proof.
  intros Hc Ha H. unfold applyDrink in H. by_value H.
  replace (TotalPoolTicks x <? amount) with false in H by lia.
  inv_result H. inv_result H. injection H as <- _. eapply drink_inv; [done|done| |done|exact E0].
  rewrite u32_small; [done|]. pose proof (core_capacity _ Hc). unfold is_u32, maxUint32. lia.
Qed.

Lemma Core_settle x t : Core x -> Core (x <| LastSettlement := t |>).
Proof. intros []. by split. Qed.

Lemma settlement_turn x override target reason :
  s_Turn (settlementFromState x override target reason) = Turn x.
Proof.
  unfold settlementFromState. cbv zeta.
  repeat match goal with |- context [if ?c then _ else _] => destruct c; try done end.
Qed.

(** A drunk state settles under the pending drinking result. *)
Lemma Drunk_Settling x y target amount override aim reason auditRef dropReason :
  Live x -> Drunk x y target amount -> 0 <= amount ->
  diceShown (DieOne x) (DieTwo x) (Sum x) = true ->
  activePlayer x (SourceUserID x) = true -> Direction_Valid (PendingDirectionBefore x) = true ->
  PendingPoolBeforeTicks x = TotalPoolTicks x -> reason <> ""%string ->
  aim = ""%string \/ frozenUser (Players x) aim ->
  effectiveResult x override = ResultEight \/ effectiveResult x override = ResultNine \/
    effectiveResult x override = ResultDoubleFour \/ effectiveResult x override = ResultDropped \/
    effectiveResult x override = ResultDoubleOne /\ aim <> ""%string ->
  (if String.eqb (effectiveResult x override) ResultDropped
   then auditRef <> ""%string /\ dropReason <> ""%string
   else auditRef = ""%string /\ dropReason = ""%string) ->
  Settling (y <| LastSettlement := (settlementFromState y override aim reason)
                   <| s_AuditRef := auditRef |> <| s_DropReason := dropReason |> |>).
Proof.
  intros [Hcx _ Hr Ha _] [(players & pool & ->) Hc Hf Hact Hcnt _ _ _] Hpos Hd Hsrc Hdir Hppb Hre Haim Hres Haud.
  assert (Hu : userOf <$> players = userOf <$> Players x) by (apply participants_users, Hf).
  pose proof (core_capacity _ Hcx) as Hcap. pose proof (co_total _ Hcx) as Htot.
  cbn [Players update] in Hcnt.
  assert (HS := settlementFromState_OK _ override aim reason auditRef dropReason Hc).
  ospecialize* HS; cbn [Players SourceUserID PendingPoolBeforeTicks config PendingDirectionBefore update]; try done.
  { apply isFrozen_iff, isActive_isFrozen. rewrite <- Hact in Hsrc. exact Hsrc. }
  { lia. }
  { destruct Haim as [?|Haim]; [by left|right]. by eapply frozenUser_users. }
  { change (effectiveResult _ override) with (effectiveResult x override).
    destruct Hres as [Hres|[Hres|[Hres|[Hres|[Hres Hne]]]]];
      [apply settled_drink|apply settled_drink|apply settled_drink|apply settled_drink|apply settled_target];
      cbn; auto; lia. }
  split; [by apply Core_settle|done|by cbn [Players update]; rewrite Hcnt|exact HS|].
  cbn. by rewrite settlement_turn.
Qed.

Lemma settlement_fields x override target reason :
  let t := settlementFromState x override target reason in
  t <| s_AuditRef := ""%string |> <| s_DropReason := ""%string |> = t /\
  s_NextUserID t = ""%string /\ s_DirectionAfter t = Direction x /\
  s_Result t = effectiveResult x override /\ s_PoolAfterTicks t = TotalPoolTicks x.
Proof.
  unfold settlementFromState, effectiveResult. cbv zeta.
  repeat match goal with |- context [if ?c then _ else _] => destruct c; try done end.
Qed.

(** The turn data a settlement is computed from. *)
Record Settleable (x : State) : Prop := {
  sb_core : Core x;
  sb_reason : FinishReason x = ""%string;
  sb_active : (MinimumPlayers <= activeCount (Players x))%nat;
  sb_source : frozenUser (Players x) (SourceUserID x);
  sb_before : 0 <= PendingPoolBeforeTicks x <= capacityOf (config x);
  sb_direction : Direction_Valid (PendingDirectionBefore x) = true;
}.

Lemma Settle_intro x override target reason :
  Settleable x -> reason <> ""%string -> target = ""%string \/ frozenUser (Players x) target ->
  SettledCase x (effectiveResult x override) target ->
  effectiveResult x override <> ResultDropped ->
  Settling (x <| LastSettlement := settlementFromState x override target reason |>).
Proof.
  intros [Hc Hr Ha Hs Hp Hd] Hre Ht Hcase Hnd.
  destruct (settlement_fields x override target reason) as (Hid & _).
  split; [by apply Core_settle|done|done| |cbn; by rewrite settlement_turn].
  cbn [config Players LastSettlement update]. rewrite <- Hid.
  apply settlementFromState_OK; try done. by rewrite (eqb_ne _ _ Hnd).
Qed.

Lemma Live_Settleable x :
  Live x -> Rolled x -> 0 <= PendingPoolBeforeTicks x <= capacityOf (config x) -> Settleable x.
Proof. intros [Hc _ Hr Ha _] (_ & Hs & Hd) Hp. split; try done. by apply core_active. Qed.

Lemma Drunk_continue_Settling x y target amount reason :
  Live x -> Rolled x -> Drunk x y target amount -> 0 <= amount -> reason <> ""%string ->
  PendingPoolBeforeTicks x = TotalPoolTicks x ->
  PendingResult x = ResultEight \/ PendingResult x = ResultNine \/ PendingResult x = ResultDoubleFour ->
  Settling (y <| LastSettlement := settlementFromState y ResultNone "" reason |>).
Proof.
  intros Hl (Hd & Hs & Hdir) Hdr Ha Hre Hp Hres.
  destruct (settlement_fields y ResultNone "" reason) as (Hid & _). rewrite <- Hid.
  eapply Drunk_Settling; try done; [by left| |];
    change (effectiveResult x ResultNone) with (PendingResult x); destruct Hres as [-> | [-> | ->]]; try done; auto.
Qed.

(** Keeping the turn open after a 7/8/9 effect. *)
Definition continued (z : State) (d : Z) : State :=
  z <| Phase := PhaseAwaitingContinue |> <| CurrentUserID := SourceUserID z |>
    <| TargetUserID := ""%string |> <| ActionDeadlineUnixMillis := d |>.

Lemma Settling_continue z now d :
  Settling z -> Rolled z -> s_NextUserID (LastSettlement z) = ""%string ->
  Direction_Valid (s_DirectionAfter (LastSettlement z)) = true ->
  s_Result (LastSettlement z) = PendingResult z ->
  PendingResult z = ResultSeven /\ PendingPoolBeforeTicks z <= TotalPoolTicks z \/
    (PendingResult z = ResultEight \/ PendingResult z = ResultNine) /\
    TotalPoolTicks z <= PendingPoolBeforeTicks z ->
  0 <= PendingPoolBeforeTicks z <= capacityOf (config z) ->
  deadlineUnixMillis now (c_ActionTimeoutSeconds (config z)) = Ok d ->
  Live (continued z d).
Proof.
  intros [Hc Hr Ha Hs Ht] Hro Hn Hda Hres Hcase Hppb Hd. unfold continued. split; try done.
  - destruct Hc. by split.
  - apply validateSettlement789_intro; [done|done|]. right. unfold partialAppliedEffect. cbn.
    rewrite Ht, Hn, Hres, Z.eqb_refl. by destruct Hcase as [[-> _]|[[-> | ->] _]].
  - apply live_continue; cbn; try done. unfold actionDeadline, deadlineMatches. cbn.
    eapply deadline_live; [|exact Hd]. apply (cb_timeout _ (co_bounds _ Hc)).
Qed.

Lemma Rolled_frame x y :
  Rolled x -> DieOne y = DieOne x -> DieTwo y = DieTwo x -> Sum y = Sum x ->
  SourceUserID y = SourceUserID x -> PendingDirectionBefore y = PendingDirectionBefore x ->
  (forall u, activePlayer y u = activePlayer x u) -> Rolled y.
Proof. intros (H1 & H2 & H3) E1 E2 E3 E4 E5 Ha. unfold Rolled. by rewrite E1, E2, E3, E4, E5, Ha. Qed.

Lemma applyDrinkAndContinue_Live x amount reason events now s' es :
  Live x -> Rolled x -> 0 <= amount <= TotalPoolTicks x -> reason <> ""%string ->
  PendingPoolBeforeTicks x = TotalPoolTicks x ->
  PendingResult x = ResultEight \/ PendingResult x = ResultNine ->
  applyDrinkAndContinue x (SourceUserID x) amount reason events now = Ok (s', es) ->
  Live s' /\ same_frozen x s'.
Proof.
  intros Hl Hro Ha Hre Hp Hres H. unfold applyDrinkAndContinue in H.
  destruct (applyDrink _ _ _ _ _) as [[y ev]|] eqn:Ed; cbn [bind_result] in H; [|done].
  pose proof (applyDrink_inv _ _ _ _ _ _ _ (lv_core _ Hl) Ha Ed) as Hdr.
  assert (HS := Drunk_continue_Settling x y _ _ reason Hl Hro Hdr (proj1 Ha) Hre Hp).
  assert (HS' : Settling (y <| LastSettlement := settlementFromState y ResultNone "" reason |>))
    by (apply HS; tauto).
  clear HS. pose proof (dr_frozen _ _ _ _ Hdr) as Hf.
  destruct (settlement_fields y ResultNone "" reason) as (_ & Hnx & Hda & Hrs & _).
  cbv zeta in H. inv_result H. injection H as <- _. split; [|exact Hf].
  destruct (dr_shape _ _ _ _ Hdr) as (players & pool & Hy).
  pose proof (core_capacity _ (lv_core _ Hl)) as Hcap. pose proof (co_total _ (lv_core _ Hl)) as Htot.
  change (Live (continued (y <| LastSettlement := settlementFromState y ResultNone "" reason |>) value)).
  apply (Settling_continue _ now);
    [done| |exact Hnx| | | | |exact E].
  - eapply (Rolled_frame x); [done|..]; try (by rewrite Hy). apply (dr_active _ _ _ _ Hdr).
  - cbn. rewrite Hda. apply (co_direction _ (dr_core _ _ _ _ Hdr)).
  - exact Hrs.
  - right. rewrite Hy. cbn. split; [done|lia].
  - rewrite Hy. cbn. lia.
Qed.

(** ** Landed results *)
Definition headroom (now : Z) : Prop := now <= maxInt64 - 120000.

Lemma deadline_total now seconds :
  0 < now -> headroom now -> 0 <= seconds <= 120 ->
  deadlineUnixMillis now seconds = Ok (deadlineOrZero now seconds).
Proof.
  unfold headroom, deadlineOrZero, deadlineUnixMillis, validUnixMillis. intros Hn Hh Hs.
  replace (0 <? now) with true by lia. cbn [negb]. destruct (seconds =? 0); [done|].
  by replace (maxInt64 - seconds * 1000 <? now) with false by lia.
Qed.

(** A landed result at a moment whose action deadline is no [int64]. *)
Definition late (s : State) (now : Z) : Prop :=
  c_ActionTimeoutSeconds (config s) <> 0 /\ maxInt64 - c_ActionTimeoutSeconds (config s) * 1000 < now.

Definition onTime (s : State) (now : Z) : Prop :=
  deadlineUnixMillis now (c_ActionTimeoutSeconds (config s)) = Ok (deadlineOrZero now (c_ActionTimeoutSeconds (config s))).

Lemma onTime_or_late s now : 0 < now ->
  onTime s now \/ late s now /\ deadlineOrZero now (c_ActionTimeoutSeconds (config s)) = 0 /\
    forall d, deadlineUnixMillis now (c_ActionTimeoutSeconds (config s)) <> Ok d.
Proof.
  unfold onTime, late, deadlineOrZero, deadlineUnixMillis, validUnixMillis. intros Hn.
  replace (0 <? now) with true by lia. cbn [negb]. destruct (Z.eqb_spec (c_ActionTimeoutSeconds (config s)) 0); [by left|].
  destruct (Z.ltb_spec (maxInt64 - c_ActionTimeoutSeconds (config s) * 1000) now); [right|by left]. done.
Qed.

(** What a late landed result leaves: a snapshot of the same session whose
    deadline is missing. *)
Record Stuck (s : State) : Prop := {
  sk_core : Core s;
  sk_phase : Phase s = PhaseAwaitingAdd \/ Phase s = PhaseAwaitingTarget \/ Phase s = PhaseAwaitingContinue;
  sk_deadline : ActionDeadlineUnixMillis s = 0;
  sk_timeout : c_ActionTimeoutSeconds (config s) <> 0;
}.

Lemma Stuck_invalid s : Stuck s -> is_ok (Validate s) = false.
Proof.
  intros [Hc Hp Hd Ht]. destruct (Validate s) as [[]|] eqn:E; [exfalso|done].
  assert (Hm : deadlineMatches s (c_ActionTimeoutSeconds (config s)) = false) by (unfold deadlineMatches; rewrite Hd; lia).
  assert (Hph : is_ok (validatePhase s) = false).
  { unfold validatePhase. rewrite Hm.
    destruct Hp as [-> | [-> | ->]]; cbn [Z.eqb Pos.eqb PhaseAwaitingRoll PhaseResultPending PhaseAwaitingAdd PhaseAwaitingTarget PhaseAwaitingContinue];
      rewrite !orb_true_r; done. }
  rewrite Core_header in E; [|done|unfold PhaseAwaitingAdd, PhaseAwaitingTarget, PhaseAwaitingContinue in *; lia
    |unfold PhaseAwaitingAdd, PhaseAwaitingTarget, PhaseAwaitingContinue, PhaseTurnSettled in *; lia].
  inv_result E. replace (Phase s =? PhaseFinished) with false in E
    by (unfold PhaseAwaitingAdd, PhaseAwaitingTarget, PhaseAwaitingContinue, PhaseFinished in *; lia).
  inv_result E. by rewrite E in Hph.
Qed.

Lemma same_current s : CurrentUserID s = SourceUserID s -> s <| CurrentUserID := SourceUserID s |> = s.
Proof. destruct s. cbn. by intros ->. Qed.

Lemma continued_same z d :
  CurrentUserID z = SourceUserID z -> TargetUserID z = ""%string ->
  continued z d = z <| Phase := PhaseAwaitingContinue |> <| ActionDeadlineUnixMillis := d |>.
Proof. unfold continued. destruct z. cbn. by intros -> ->. Qed.

Lemma settleLanded_inv x source nextActor now events s' es :
  settleLanded x source nextActor now events = Ok (s', es) ->
  exists es0, finishTurn x source nextActor now = Ok (s', es0).
Proof.
  unfold settleLanded. intros H. destruct (finishTurn _ _ _ _) as [[y ev]|]; cbn in H; [|done].
  injection H as <- _. eauto.
Qed.

Lemma HalfCeil_range t : 0 <= t <= 384 -> 0 <= Dice.HalfCeil t <= t.
Proof.
  intros H. rewrite Dice.HalfCeil_spec by (unfold is_u32, maxUint32; lia).
  split; [apply Z.div_pos; lia|]. apply Z.lt_succ_r, Z.div_lt_upper_bound; lia.
Qed.

(** A live state moved to another phase of the same turn, before its effect. *)
Lemma Live_rephase s phase current target d :
  Live s -> Phase s <> PhaseAwaitingContinue ->
  LivePhase (s <| Phase := phase |> <| CurrentUserID := current |> <| TargetUserID := target |>
               <| ActionDeadlineUnixMillis := d |>) ->
  Live (s <| Phase := phase |> <| CurrentUserID := current |> <| TargetUserID := target |>
          <| ActionDeadlineUnixMillis := d |>).
Proof.
  intros [Hc Hs Hr Ha Hl] Hp Hl'. split; try done.
  - destruct Hc. by split.
  - eapply (validateSettlement_mono s); try done. intros Hpart.
    pose proof (LivePhase_phase _ Hl). rewrite partial_phase in Hpart; [done|done|unfold PhaseFinished; lia].
Qed.

Section Landed.
Context (s : State) (now : Z).
Hypothesis (Hlive : Live s) (Hphase : Phase s = PhaseResultPending).
Hypothesis (Hnow : 0 < now) (Hroom : onTime s now).

Let Hpend := live_at_pending s (co_bounds _ (lv_core _ Hlive)) (lv_phase _ Hlive) Hphase.

Lemma landed_capacity : 0 <= TotalPoolTicks s <= capacityOf (config s) /\ capacityOf (config s) <= 384.
Proof. pose proof (core_capacity _ (lv_core _ Hlive)). pose proof (co_total _ (lv_core _ Hlive)). lia. Qed.

Lemma landed_Settleable : Settleable s.
Proof.
  destruct Hpend as (Hro & _ & _ & _ & Hppb & _). apply Live_Settleable; [done|done|].
  pose proof landed_capacity. lia.
Qed.

Lemma landed_deadline :
  deadlineUnixMillis now (c_ActionTimeoutSeconds (config s))
  = Ok (deadlineOrZero now (c_ActionTimeoutSeconds (config s))).
Proof. exact Hroom. Qed.

Lemma landed_actionDeadline :
  deadlineMatches (s <| ActionDeadlineUnixMillis := deadlineOrZero now (c_ActionTimeoutSeconds (config s)) |>)
    (c_ActionTimeoutSeconds (config s)) = true.
Proof.
  unfold deadlineMatches. cbn. eapply deadline_live; [|exact landed_deadline].
  apply (cb_timeout _ (co_bounds _ (lv_core _ Hlive))).
Qed.

Lemma landed_seven_add :
  PendingResult s = ResultSeven ->
  Live (s <| Phase := PhaseAwaitingAdd |>
          <| ActionDeadlineUnixMillis := deadlineOrZero now (c_ActionTimeoutSeconds (config s)) |>).
Proof.
  destruct Hpend as (Hro & Hcur & Htar & _ & Hppb & _). intros Hres.
  set (d := deadlineOrZero now (c_ActionTimeoutSeconds (config s))).
  replace (s <| Phase := PhaseAwaitingAdd |> <| ActionDeadlineUnixMillis := d |>) with
    (s <| Phase := PhaseAwaitingAdd |> <| CurrentUserID := SourceUserID s |> <| TargetUserID := ""%string |>
       <| ActionDeadlineUnixMillis := d |>) by (clear -Hcur Htar; destruct s; cbn in *; by subst).
  apply Live_rephase; [done|by rewrite Hphase|]. apply live_add_seven; try done. exact landed_actionDeadline.
Qed.

Lemma landed_target :
  PendingResult s = ResultDoubleOne \/ PendingResult s = ResultDoubleSix ->
  Live (s <| Phase := PhaseAwaitingTarget |> <| CurrentUserID := SourceUserID s |>
          <| ActionDeadlineUnixMillis := deadlineOrZero now (c_ActionTimeoutSeconds (config s)) |>).
Proof.
  destruct Hpend as (Hro & Hcur & Htar & _ & Hppb & _). intros Hres.
  set (d := deadlineOrZero now (c_ActionTimeoutSeconds (config s))).
  replace (s <| Phase := PhaseAwaitingTarget |> <| CurrentUserID := SourceUserID s |>
             <| ActionDeadlineUnixMillis := d |>) with
    (s <| Phase := PhaseAwaitingTarget |> <| CurrentUserID := SourceUserID s |> <| TargetUserID := ""%string |>
       <| ActionDeadlineUnixMillis := d |>) by (clear -Htar; destruct s; cbn in *; by subst).
  apply Live_rephase; [done|by rewrite Hphase|]. apply live_target; try done. exact landed_actionDeadline.
Qed.

Lemma landed_seven_full :
  PendingResult s = ResultSeven ->
  Live (s <| LastSettlement := settlementFromState s ResultNone "" "seven_add" |>
          <| Phase := PhaseAwaitingContinue |>
          <| ActionDeadlineUnixMillis := deadlineOrZero now (c_ActionTimeoutSeconds (config s)) |>).
Proof.
  destruct Hpend as (Hro & Hcur & Htar & _ & Hppb & _). intros Hres. pose proof landed_capacity as Hcap.
  set (z := s <| LastSettlement := settlementFromState s ResultNone "" "seven_add" |>).
  destruct (settlement_fields s ResultNone "" "seven_add") as (_ & Hnx & Hda & Hrs & _).
  rewrite <- (continued_same z) by done. apply (Settling_continue z now); try done.
  - apply Settle_intro; [apply landed_Settleable|done|by left| |].
    + apply settled_add; [left; exact Hres|lia|apply Hro].
    + change (effectiveResult s ResultNone) with (PendingResult s). by rewrite Hres.
  - cbn. rewrite Hda. apply (lv_core _ Hlive).
  - left. split; [done|cbn; lia].
  - cbn. lia.
Qed.

(** The results that only pass the turn on. *)
Lemma landed_still direction reason nextActor s' es :
  PendingResult s = ResultOrdinaryPair \/ PendingResult s = ResultOther ->
  Direction_Valid direction = true -> reason <> ""%string ->
  let x := s <| Direction := direction |> in
  finishTurn (x <| LastSettlement := settlementFromState x ResultNone "" reason |>) (SourceUserID s) nextActor now
    = Ok (s', es) ->
  Live s' /\ same_frozen s s'.
Proof.
  intros Hres Hdir Hre x H. destruct Hpend as (Hro & _ & _ & _ & Hppb & _).
  eapply finishTurn_Live in H as [? ?]; [done|]. destruct landed_Settleable as [Hc Hr Ha Hs Hp Hd].
  apply Settle_intro; [|done|by left| |].
  - split; try done. destruct Hc. by split.
  - apply settled_still; [|done|apply Hro].
    change (effectiveResult x ResultNone) with (PendingResult s). tauto.
  - change (effectiveResult x ResultNone) with (PendingResult s). by destruct Hres as [-> | ->].
Qed.

Lemma applyLanded_Live cause s' es :
  applyLanded s now cause = Ok (s', es) -> Live s' /\ same_frozen s s'.
Proof.
  destruct Hpend as (Hro & Hcur & Htar & Hval & Hppb & _). pose proof landed_capacity as Hcap.
  unfold applyLanded. rewrite Clone789_id, Hphase, Hval. cbn [negb orb Z.eqb Pos.eqb PhaseResultPending].
  rewrite (same_current s Hcur). cbv zeta.
  destruct (validRollResult_cases _ Hval) as [Hr|[Hr|[Hr|[Hr|[Hr|[Hr|[Hr|Hr]]]]]]]; rewrite Hr; cbn [String.eqb Ascii.eqb Bool.eqb orb
      ResultSeven ResultEight ResultNine ResultDoubleOne ResultDoubleFour ResultDoubleSix ResultOrdinaryPair ResultOther].
  - destruct (TotalPoolTicks s =? _); intros H; injection H as <- _; (split; [|done]).
    + by apply landed_seven_full.
    + by apply landed_seven_add.
  - apply applyDrinkAndContinue_Live; try done; [apply HalfCeil_range; lia|by left].
  - apply applyDrinkAndContinue_Live; try done; [lia|by right].
  - intros H; injection H as <- _. split; [|done]. apply landed_target. by left.
  - intros H. destruct (applyDrink _ _ _ _ _) as [[y ev]|] eqn:Ed; cbn [bind_result] in H; [|done].
    apply applyDrink_inv in Ed; [|apply Hlive|apply HalfCeil_range; lia].
    apply settleLanded_inv in H as [es0 H]. pose proof (dr_frozen _ _ _ _ Ed) as Hf.
    eapply finishTurn_Live in H as [Hl' Hf']; [split; [done|by eapply same_frozen789_trans]|].
    eapply Drunk_continue_Settling; try done; [apply HalfCeil_range; lia|by right; right].
  - intros H; injection H as <- _. split; [|done]. apply landed_target. by right.
  - destruct (3 <=? _)%nat; intros H; apply settleLanded_inv in H as [es0 H].
    + eapply landed_still in H; try done; [by left|]. unfold reverseDirection. by destruct (_ =? _).
    + eapply (landed_still (Direction s)) in H; try done; [by left|apply (lv_core _ Hlive)].
  - intros H. apply settleLanded_inv in H as [es0 H].
    eapply (landed_still (Direction s)) in H; try done; [by right|apply (lv_core _ Hlive)].
Qed.
End Landed.

(** A late result settles nothing: the branches that pass the turn on or drink
    report the overflow, the others drop it and leave no deadline. *)
Lemma applyLanded_Stuck s now cause s' es :
  Live s -> Phase s = PhaseResultPending -> late s now -> deadlineOrZero now (c_ActionTimeoutSeconds (config s)) = 0 ->
  (forall d, deadlineUnixMillis now (c_ActionTimeoutSeconds (config s)) <> Ok d) ->
  applyLanded s now cause = Ok (s', es) -> Stuck s' /\ same_frozen s s'.
Proof.
  intros Hl Hp [Ht _] Hz Hd. pose proof (lv_core _ Hl) as Hc.
  destruct (live_at_pending s (co_bounds _ Hc) (lv_phase _ Hl) Hp) as (_ & Hcur & _ & Hval & _).
  assert (Hset : forall x nextActor events s'' es'', config x = config s ->
    settleLanded x (SourceUserID s) nextActor now events = Ok (s'', es'') -> False).
  { intros x na ev s'' es'' Hx (es0 & Hf)%settleLanded_inv. apply finishTurn_inv in Hf as (_ & d & _ & _ & _ & _ & Hf & _).
    rewrite Hx in Hf. by apply Hd in Hf. }
  assert (Hdrunk : forall a r ev y e, applyDrink s (SourceUserID s) a r ev = Ok (y, e) -> config y = config s).
  { intros a r ev y e H. unfold applyDrink in H. by_value H.
    destruct (addPenalty _ _ _) as [z|] eqn:E1; cbn [bind_result] in H; [|done].
    destruct (setPoolTotal _ _) as [w|] eqn:E2; cbn [bind_result] in H; [|done]. injection H as <- _.
    unfold setPoolTotal in E2. inv_result E2. injection E2 as <-. cbn. unfold addPenalty in E1.
    destruct (playerIndex _ _); [|done]. inv_result E1. destruct (Dice.Ticks_Add _ _); [|done]. by injection E1 as <-. }
  assert (Hcont : forall a r ev s'' es'', applyDrinkAndContinue s (SourceUserID s) a r ev now = Ok (s'', es'') -> False).
  { intros a r ev s'' es'' H. unfold applyDrinkAndContinue in H.
    destruct (applyDrink _ _ _ _ _) as [[y e]|] eqn:Ey; cbn [bind_result] in H; [|done]. cbv zeta in H. cbn [config update] in H.
    rewrite (Hdrunk _ _ _ _ _ Ey) in H. inv_result H. by destruct (Hd value). }
  unfold applyLanded. rewrite Clone789_id, Hp, Hval. cbn [negb orb Z.eqb Pos.eqb PhaseResultPending].
  rewrite (same_current s Hcur). cbv zeta.
  destruct (validRollResult_cases _ Hval) as [Hr|[Hr|[Hr|[Hr|[Hr|[Hr|[Hr|Hr]]]]]]]; rewrite Hr; cbn [String.eqb Ascii.eqb Bool.eqb orb
      ResultSeven ResultEight ResultNine ResultDoubleOne ResultDoubleFour ResultDoubleSix ResultOrdinaryPair ResultOther].
  - destruct (TotalPoolTicks s =? _); intros H; injection H as <- _; (split; [|done]); (split; cbn; [destruct Hc; by split|by eauto|done|done]).
  - by intros ?%Hcont.
  - by intros ?%Hcont.
  - intros H; injection H as <- _. split; [|done]. split; cbn; [destruct Hc; by split|by eauto|done|done].
  - intros H. destruct (applyDrink _ _ _ _ _) as [[y ev]|] eqn:Ey; cbn [bind_result] in H; [|done].
    apply Hset in H; [done|]. cbn. by eapply Hdrunk.
  - intros H; injection H as <- _. split; [|done]. split; cbn; [destruct Hc; by split|by eauto|done|done].
  - destruct (3 <=? _)%nat; intros H; by apply Hset in H.
  - intros H. by apply Hset in H.
Qed.

(** The two inputs that land a result. *)
Definition landsLate (s : State) (now : Z) (s' : State) : Prop := Phase s = PhaseResultPending /\ late s now /\ Stuck s'.

Lemma applyLanded_kept s now cause s' es :
  Live s -> Phase s = PhaseResultPending -> 0 < now -> applyLanded s now cause = Ok (s', es) ->
  (Live s' \/ landsLate s now s') /\ same_frozen s s'.
Proof.
  intros Hl Hp Hn H. destruct (onTime_or_late s now Hn) as [Ht|(Hlate & Hz & Hd)].
  - apply applyLanded_Live in H as [? ?]; [|done..]. split; [by left|done].
  - apply applyLanded_Stuck in H as [? ?]; [|done..]. split; [by right|done].
Qed.

Lemma ConfirmLanded_kept s actor now s' es :
  Good s -> ConfirmLanded s actor now = Ok (s', es) -> (Live s' \/ landsLate s now s') /\ same_frozen s s'.
Proof.
  intros Hg H. unfold ConfirmLanded in H. inv_result H. destruct value.
  apply validateHost_inv in E as (Hl & Hp & _ & _ & Hn); [|done].
  eapply applyLanded_kept; [exact Hl|exact Hp| |exact H]. lia.
Qed.

Lemma ReportDropped_Live s actor auditRef reason now s' es :
  Good s -> ReportDropped s actor auditRef reason now = Ok (s', es) -> Live s' /\ same_frozen s s'.
Proof.
  intros Hg H. unfold ReportDropped in H. inv_result H. destruct value.
  apply validateHost_inv in E as (Hl & Hp & _ & _ & Hn); [|done].
  destruct (live_at_pending s (co_bounds _ (lv_core _ Hl)) (lv_phase _ Hl) Hp) as ((Hd & Hs & Hdir) & Hcur & Htar & Hval & Hppb & _).
  inv_result H. by_value H. inv_result H. rename value into y. inv_result H.
  rename value into z. destruct (finishTurn _ _ _ _) as [[s1 ev]|] eqn:Ef; cbn [bind_result] in H; [|done].
  injection H as <- _. pose proof (co_total _ (lv_core _ Hl)) as Htot.
  assert (Hdr : Drunk s z (SourceUserID s) (TotalPoolTicks s))
    by (eapply drink_inv; [apply Hl|lia| |exact E0|exact E1]; lia).
  eapply finishTurn_Live in Ef as [Hl' Hf']; [split; [done|]|].
  - eapply same_frozen789_trans; [apply (dr_frozen _ _ _ _ Hdr)|exact Hf'].
  - destruct (dr_shape _ _ _ _ Hdr) as (players & pool & Hz).
    assert (Hsrc : SourceUserID z = SourceUserID s) by (by rewrite Hz). rewrite Hsrc. to_prop.
    eapply (Drunk_Settling s z); try done; [right; by apply core_active|right; right; right; by left].
Qed.

(** ** Adding *)
Lemma remaining_exact s :
  Core s -> u32 (mustCapacity (config s) - TotalPoolTicks s) = capacityOf (config s) - TotalPoolTicks s.
Proof.
  intros Hc. rewrite mustCapacity_bounds by apply Hc. pose proof (core_capacity _ Hc). pose proof (co_total _ Hc).
  apply u32_small. unfold is_u32, maxUint32. lia.
Qed.

Lemma validateAddAmount_bound s amount :
  Core s -> validateAddAmount s amount = Ok tt -> amount <= capacityOf (config s) - TotalPoolTicks s.
Proof.
  intros Hc H. unfold validateAddAmount in H. cbv zeta in H. rewrite (remaining_exact s Hc) in H.
  destruct (_ <? amount) eqn:E; [done|]. to_prop. lia.
Qed.

Lemma live_at_add s : LivePhase s -> Phase s = PhaseAwaitingAdd ->
  Rolled s /\ PendingPoolBeforeTicks s = TotalPoolTicks s /\
  (PendingResult s = ResultSeven /\ CurrentUserID s = SourceUserID s /\ TargetUserID s = ""%string \/
   PendingResult s = ResultDoubleSix /\ CurrentUserID s = TargetUserID s /\
     activePlayer s (TargetUserID s) = true /\ TargetUserID s <> SourceUserID s).
Proof. intros [] Hp; try wrong_phase; auto 10. Qed.

(** The pool grown by a legal amount. *)
Lemma setPool_grow s total y :
  Live s -> 0 <= total -> setPoolTotal s total = Ok y ->
  Core y /\ total <= capacityOf (config s) /\
  exists pool, y = s <| Pool := pool |> <| TotalPoolTicks := total |>.
Proof.
  intros Hl Ht H. unfold setPoolTotal in H. inv_result H. injection H as <-.
  destruct (poolFromTotal_total _ _ _ (co_bounds _ (lv_core _ Hl)) Ht E) as [_ Hle].
  split_and!; [|done|by eauto]. destruct (co_turn _ (lv_core _ Hl)).
  eapply (Core_frame s); try done; apply Hl.
Qed.

Lemma addToPool_inv s actor amount now timer s' es :
  Good s -> 0 <= amount -> addToPool s actor amount now timer = Ok (s', es) ->
  Live s /\ Phase s = PhaseAwaitingAdd /\ 0 < now /\ amount <= capacityOf (config s) - TotalPoolTicks s /\
  exists pool y, y = s <| Pool := pool |> <| TotalPoolTicks := TotalPoolTicks s + amount |> /\ Core y /\
    (PendingResult s = ResultDoubleSix /\
       (exists es0, finishTurn (y <| LastSettlement := settlementFromState y ResultNone (TargetUserID s)
          (if timer then "timeout_add" else "double_six_add") |>) (SourceUserID s) "" now = Ok (s', es0)) \/
     PendingResult s = ResultSeven /\ exists d,
       deadlineUnixMillis now (c_ActionTimeoutSeconds (config s)) = Ok d /\
       s' = continued (y <| LastSettlement := settlementFromState y ResultNone "" "seven_add" |>) d).
Proof.
  intros Hg Ha H. unfold addToPool in H. inv_result H. destruct value.
  apply validateActor_inv in E as (Hl & Hp & -> & Hn & _); [|done].
  inv_result H. destruct value. by_value H.
  pose proof (validateAddAmount_bound _ _ (lv_core _ Hl) E) as Hle.
  pose proof (core_capacity _ (lv_core _ Hl)) as Hcap. pose proof (co_total _ (lv_core _ Hl)) as Htot.
  rewrite u32_small in H by (unfold is_u32, maxUint32; lia).
  inv_result H. apply setPool_grow in E0 as (Hcy & _ & pool & Hy); [|done|lia].
  split_and!; try done. exists pool, value. split_and!; [done|done|].
  destruct (live_at_add _ (lv_phase _ Hl) Hp) as (_ & _ & [(Hr & _)|(Hr & _)]); rewrite Hr in *;
    cbn [String.eqb Ascii.eqb Bool.eqb ResultSeven ResultDoubleSix] in H.
  - right. split; [done|]. inv_result H. injection H as <- _. subst value. eauto.
  - left. split; [done|]. destruct (finishTurn _ _ _ _) as [[s1 ev]|] eqn:Ef; cbn [bind_result] in H; [|done].
    injection H as <- _. destruct timer; eauto.
Qed.

Lemma addToPool_Live s actor amount now timer s' es :
  Good s -> 0 <= amount -> addToPool s actor amount now timer = Ok (s', es) -> Live s' /\ same_frozen s s'.
Proof.
  intros Hg Ha H. apply addToPool_inv in H as (Hl & Hp & Hn & Hle & pool & y & Hy & Hcy & Hcase); [|done|done].
  destruct (live_at_add _ (lv_phase _ Hl) Hp) as (Hro & Hppb & Hwho).
  pose proof (core_capacity _ (lv_core _ Hl)) as Hcap. pose proof (co_total _ (lv_core _ Hl)) as Htot.
  assert (Hsb : Settleable y).
  { split; try (by rewrite Hy; apply Hl); [done| | |by rewrite Hy; apply Hro].
    - rewrite Hy. by apply core_active, Hro.
    - rewrite Hy. cbn. lia. }
  assert (Hf : same_frozen s y) by (by rewrite Hy).
  assert (Hset : SettledCase y (PendingResult s) "" /\ forall t, SettledCase y (PendingResult s) t).
  { assert (forall t, SettledCase y (PendingResult s) t); [|done]. intros t.
    apply settled_add; [|rewrite Hy; cbn; lia|rewrite Hy; apply Hro].
    destruct Hwho as [(-> & _)|(-> & _)]; auto. }
  destruct Hcase as [(Hr & es0 & Hfin)|(Hr & d & Hd & ->)].
  - eapply finishTurn_Live in Hfin as [Hl' Hf']; [split; [done|by eapply same_frozen789_trans]|].
    apply Settle_intro; [done|by destruct timer| |by rewrite Hy in *; apply Hset|rewrite Hy; unfold effectiveResult; cbn; by rewrite Hr].
    right. destruct Hwho as [(Hr' & _)|(_ & _ & Hact & _)]; [by rewrite Hr in Hr'|].
    rewrite Hy. by apply core_active.
  - split; [|by rewrite Hy].
    destruct (settlement_fields y ResultNone "" "seven_add") as (_ & Hnx & Hda & Hrs & _).
    apply (Settling_continue _ now); try done.
    + apply Settle_intro; [done|done|by left|by rewrite Hy in *; apply Hset|rewrite Hy; unfold effectiveResult; cbn; by rewrite Hr].
    + by rewrite Hy.
    + cbn. rewrite Hda. apply Hcy.
    + left. rewrite Hy. cbn. split; [done|lia].
    + rewrite Hy. cbn. lia.
    + by rewrite Hy.
Qed.

(** ** Choosing a target *)
Lemma live_at_target s : LivePhase s -> Phase s = PhaseAwaitingTarget ->
  Rolled s /\ CurrentUserID s = SourceUserID s /\ TargetUserID s = ""%string /\
  (PendingResult s = ResultDoubleOne \/ PendingResult s = ResultDoubleSix) /\
  PendingPoolBeforeTicks s = TotalPoolTicks s.
Proof. intros [] Hp; try wrong_phase; auto 10. Qed.

Lemma chooseTarget_inv s actor target now timer s' es :
  Good s -> chooseTarget s actor target now timer = Ok (s', es) ->
  Live s /\ Phase s = PhaseAwaitingTarget /\ actor = CurrentUserID s /\ 0 < now /\
  target <> ""%string /\ target <> actor /\ activePlayer s target = true /\
  (PendingResult s = ResultDoubleOne /\ (exists z es0,
     Drunk (s <| TargetUserID := target |>) z target (TotalPoolTicks s) /\
     finishTurn (z <| LastSettlement := settlementFromState z ResultNone target
        (if timer then "timeout_target" else "double_one") |>) actor target now = Ok (s', es0)) \/
   PendingResult s = ResultDoubleSix /\ exists d,
     deadlineUnixMillis now (c_ActionTimeoutSeconds (config s)) = Ok d /\
     s' = s <| Phase := PhaseAwaitingAdd |> <| CurrentUserID := target |> <| TargetUserID := target |>
            <| ActionDeadlineUnixMillis := d |>).
Proof.
  intros Hg H. unfold chooseTarget in H. inv_result H. destruct value.
  apply validateActor_inv in E as (Hl & Hp & -> & Hn & _); [|done].
  inv_result H. by_value H. to_prop. split_and!; try done.
  pose proof (co_total _ (lv_core _ Hl)) as Htot.
  destruct (live_at_target _ (lv_phase _ Hl) Hp) as (_ & _ & _ & [Hr|Hr] & _); rewrite Hr in *;
    cbn [String.eqb Ascii.eqb Bool.eqb ResultDoubleOne ResultDoubleSix] in H.
  - left. split; [done|]. inv_result H. inv_result H.
    destruct (finishTurn _ _ _ _) as [[s1 ev]|] eqn:Ef; cbn [bind_result] in H; [|done]. injection H as <- _.
    eexists _, ev. split; [|destruct timer; exact Ef].
    eapply drink_inv; [|cbn; lia| |eassumption|eassumption]; [|cbn; lia].
    pose proof (lv_core _ Hl) as []. by split.
  - right. split; [done|]. inv_result H. injection H as <- _. eexists. split; [done|]. done.
Qed.

Lemma chooseTarget_Live s actor target now timer s' es :
  Good s -> chooseTarget s actor target now timer = Ok (s', es) -> Live s' /\ same_frozen s s'.
Proof.
  intros Hg H. apply chooseTarget_inv in H as (Hl & Hp & -> & Hn & Hne & Hna & Hact & Hcase); [|done].
  destruct (live_at_target _ (lv_phase _ Hl) Hp) as (Hro & Hcur & Htar & _ & Hppb).
  pose proof (co_total _ (lv_core _ Hl)) as Htot.
  destruct Hcase as [(Hr & z & es0 & Hdr & Hfin)|(Hr & d & Hd & ->)].
  - eapply finishTurn_Live in Hfin as [Hl' Hf'].
    { split; [done|]. eapply same_frozen789_trans; [apply (dr_frozen _ _ _ _ Hdr)|exact Hf']. }
    set (reason := if timer then "timeout_target"%string else "double_one"%string).
    destruct (settlement_fields z ResultNone target reason) as (Hid & _). fold reason. rewrite <- Hid.
    destruct Hro as (Hd & Hs & Hdir). destruct Hdr as [(players & pool & Hz) Hc Hf Ha Hcnt _ _ _].
    pose proof (core_capacity _ (lv_core _ Hl)) as Hcap.
    assert (Hu : userOf <$> players = userOf <$> Players s).
    { rewrite Hz in Hf. apply participants_users, Hf. }
    assert (HS : SettlementOK (config z) (Players z)
      ((settlementFromState z ResultNone target reason) <| s_AuditRef := ""%string |> <| s_DropReason := ""%string |>)).
    { apply settlementFromState_OK; try (by rewrite Hz).
      - done.
      - apply core_active. rewrite Ha. by rewrite Hz.
      - rewrite Hz. cbn. lia.
      - subst reason. by destruct timer.
      - right. apply core_active. by rewrite Ha.
      - apply settled_target; [rewrite Hz; exact Hr|done|rewrite Hz; cbn; lia|rewrite Hz; done].
      - rewrite Hz. unfold effectiveResult. cbn. by rewrite Hr. }
    split; [by apply Core_settle|rewrite Hz; apply Hl|cbn [Players update]; rewrite Hcnt; apply Hl|exact HS|].
    rewrite Hid. cbn. by rewrite settlement_turn.
  - split; [|done]. apply Live_rephase; [done|by rewrite Hp|]. apply live_add_six; try done.
    + cbn. by rewrite <- Hcur.
    + unfold actionDeadline, deadlineMatches. cbn. eapply deadline_live; [|exact Hd].
      apply (cb_timeout _ (co_bounds _ (lv_core _ Hl))).
Qed.

(** ** Continuing *)
Lemma live_at_continue s : LivePhase s -> Phase s = PhaseAwaitingContinue ->
  Rolled s /\ CurrentUserID s = SourceUserID s /\ 0 <= PendingPoolBeforeTicks s <= capacityOf (config s) /\
  (PendingResult s = ResultSeven /\ PendingPoolBeforeTicks s <= TotalPoolTicks s \/
   (PendingResult s = ResultEight \/ PendingResult s = ResultNine) /\
     TotalPoolTicks s <= PendingPoolBeforeTicks s).
Proof. intros [] Hp; try wrong_phase; auto 10. Qed.

(** The applied 7/8/9 effect can be settled again. *)
Lemma continue_case x :
  diceShown (DieOne x) (DieTwo x) (Sum x) = true ->
  PendingResult x = ResultSeven /\ PendingPoolBeforeTicks x <= TotalPoolTicks x \/
  (PendingResult x = ResultEight \/ PendingResult x = ResultNine) /\
    TotalPoolTicks x <= PendingPoolBeforeTicks x ->
  SettledCase x (effectiveResult x ResultNone) "" /\ effectiveResult x ResultNone <> ResultDropped.
Proof.
  intros Hd Hcase. change (effectiveResult x ResultNone) with (PendingResult x).
  split; [|by destruct Hcase as [[-> _]|[[-> | ->] _]]].
  destruct Hcase as [[Hr Hle]|[Hr Hle]]; [apply settled_add|apply settled_drink]; tauto.
Qed.

Lemma continueTurn_inv s actor reroll now timer s' es :
  Good s -> continueTurn s actor reroll now timer = Ok (s', es) ->
  Live s /\ Phase s = PhaseAwaitingContinue /\ actor = CurrentUserID s /\
  exists reason, reason <> ""%string /\
    finishTurn (s <| LastSettlement := settlementFromState s ResultNone "" reason |>) actor
      (if reroll then actor else "") now = Ok (s', es).
Proof.
  intros Hg H. unfold continueTurn in H. inv_result H. destruct value.
  apply validateActor_inv in E as (Hl & Hp & -> & Hn & _); [|done].
  inv_result H. by_value H. split_and!; try done.
  eexists. split; [|exact H]. by destruct timer, reroll.
Qed.

Lemma continueTurn_Live s actor reroll now timer s' es :
  Good s -> continueTurn s actor reroll now timer = Ok (s', es) -> Live s' /\ same_frozen s s'.
Proof.
  intros Hg (Hl & Hp & _ & reason & Hre & H)%continueTurn_inv; [|done].
  destruct (live_at_continue _ (lv_phase _ Hl) Hp) as (Hro & _ & Hppb & Hcase).
  eapply finishTurn_Live in H; [exact H|]. destruct (continue_case s (proj1 Hro) Hcase).
  apply Settle_intro; try done; [by apply Live_Settleable|by left].
Qed.

(** ** Timers *)
Lemma minimumAddAmount_nonneg s : Core s -> 0 <= minimumAddAmount s.
Proof.
  intros Hc. unfold minimumAddAmount. cbv zeta. pose proof (cb_step _ (co_bounds _ Hc)).
  pose proof (u32_range (mustCapacity (config s) - TotalPoolTicks s)) as [? _].
  destruct (_ =? 0); [lia|]. destruct (_ <? _); lia.
Qed.

Lemma roll_timeout_Settling s :
  Live s -> Phase s = PhaseAwaitingRoll ->
  let x := s <| SourceUserID := CurrentUserID s |> <| PendingResult := ResultRollTimeout |>
             <| PendingPoolBeforeTicks := TotalPoolTicks s |> <| PendingDirectionBefore := Direction s |> in
  Settling (x <| LastSettlement := settlementFromState x ResultRollTimeout "" "roll_timeout" |>).
Proof.
  intros Hl Hp x. destruct (live_at_roll _ (lv_phase _ Hl) Hp) as (Hact & _ & _ & H1 & H2 & H3).
  pose proof (core_capacity _ (lv_core _ Hl)) as Hcap. pose proof (co_total _ (lv_core _ Hl)) as Htot.
  apply Settle_intro; [|done|by left|by apply settled_unrolled; [left|..]|done].
  split; try apply Hl.
  - pose proof (lv_core _ Hl) as []. by split.
  - by apply core_active.
  - cbn. lia.
Qed.

Lemma HandleTimeout789_inv s timer now s' es :
  Good s -> HandleTimeout s timer now = Ok (s', es) ->
  Live s /\ CurrentTimer s = Some timer /\ 0 < now /\ ActionDeadlineUnixMillis s <= now /\
  (Phase s = PhaseAwaitingRoll /\
     finishTurn (let x := s <| SourceUserID := CurrentUserID s |> <| PendingResult := ResultRollTimeout |>
             <| PendingPoolBeforeTicks := TotalPoolTicks s |> <| PendingDirectionBefore := Direction s |> in
        x <| LastSettlement := settlementFromState x ResultRollTimeout "" "roll_timeout" |>)
       (CurrentUserID s) "" now = Ok (s', es) \/
   Phase s = PhaseResultPending /\ applyLanded s now "result_timeout" = Ok (s', es) \/
   Phase s = PhaseAwaitingAdd /\
     addToPool s (CurrentUserID s) (minimumAddAmount s) now true = Ok (s', es) \/
   Phase s = PhaseAwaitingTarget /\ (exists target, chooseTarget s (SourceUserID s) target now true = Ok (s', es)) \/
   Phase s = PhaseAwaitingContinue /\
     (exists reroll, continueTurn s (SourceUserID s) reroll now true = Ok (s', es))).
Proof.
  intros Hg H. unfold HandleTimeout in H. rewrite (Good_Validate _ Hg) in H. cbn [bind_result] in H.
  do 3 inv_result H. apply negb_false_iff in E0. unfold timerMatches in E0. to_prop.
  destruct Hg as [Hl|Hd]; [|by rewrite (dn_phase _ Hd) in E]. unfold validUnixMillis in *. to_prop.
  pose proof (LivePhase_phase _ (lv_phase _ Hl)) as Hph.
  split; [done|]. split.
  { unfold CurrentTimer. replace (Phase s =? PhaseFinished) with false by (unfold PhaseFinished; lia).
    replace (Phase s =? PhaseTurnSettled) with false by (unfold PhaseTurnSettled; lia).
    destruct timer; cbn in *. subst. by replace (ActionDeadlineUnixMillis s =? 0) with false by lia. }
  split; [lia|]. split; [lia|]. by_value H.
  destruct (Phase s =? PhaseAwaitingRoll) eqn:P1; to_prop; [by left|right].
  destruct (Phase s =? PhaseResultPending) eqn:P2; to_prop; [by left|right].
  destruct (Phase s =? PhaseAwaitingAdd) eqn:P3; to_prop; [by left|right].
  destruct (Phase s =? PhaseAwaitingTarget) eqn:P4; to_prop; [left|right].
  - split; [done|]. inv_result H. eauto.
  - destruct (Phase s =? PhaseAwaitingContinue) eqn:P5; to_prop; [|done]. eauto.
Qed.

Lemma HandleTimeout_kept s timer now s' es :
  Good s -> HandleTimeout s timer now = Ok (s', es) -> (Live s' \/ landsLate s now s') /\ same_frozen s s'.
Proof.
  intros Hg (Hl & _ & Hn & _ & Hcases)%HandleTimeout789_inv; [|done].
  assert (Hlive : Live s' /\ same_frozen s s' -> (Live s' \/ landsLate s now s') /\ same_frozen s s') by (intros [? ?]; split; [by left|done]).
  destruct Hcases as [(Hp & H)|[(Hp & H)|[(Hp & H)|[(Hp & target & H)|(Hp & reroll & H)]]]].
  - apply Hlive. eapply finishTurn_Live in H; [exact H|]. by apply roll_timeout_Settling.
  - by eapply applyLanded_kept.
  - apply Hlive. eapply addToPool_Live; [done| |exact H]. apply minimumAddAmount_nonneg, Hl.
  - by eapply Hlive, chooseTarget_Live.
  - by eapply Hlive, continueTurn_Live.
Qed.

(** ** Revocation and finishing *)
Lemma finishState_Done x reason :
  Core x -> validateSettlement x = Ok tt -> validFinishReason reason = true ->
  Done (fst (finishState x reason)).
Proof.
  intros Hc Hs Hr. split; try done.
  - destruct Hc. by split.
  - eapply (validateSettlement_mono x); try done. unfold partialAppliedEffect. intros H. to_prop.
    cbn. by rewrite H, Z.eqb_refl, H1, H2.
Qed.

Lemma isActive_deactivate (players : list PlayerState) i p u :
  players !! i = Some p -> NoDup (userOf <$> players) ->
  isActive (<[i := p <| p_Active := false |>]> players) u
  = isActive players u && negb (String.eqb u (p_UserID p)).
Proof.
  intros Hi Hnd. unfold isActive.
  rewrite (playerIndex_users _ players) by (by apply (fmap_insert_same userOf _ _ p)).
  destruct (playerIndex players u) as [j|] eqn:Ej; [|done].
  apply playerIndex_Some in Ej as (q & Hq & <- & Hqt). destruct (decide (j = i)) as [->|Hne].
  - rewrite list_lookup_total_insert_eq by (by eapply lookup_lt_Some). rewrite Hi in Hq. injection Hq as <-.
    change (userOf p) with (p_UserID p). by rewrite String.eqb_refl, andb_false_r.
  - rewrite list_lookup_total_insert_ne by done. rewrite (eqb_ne (userOf q)); [by rewrite andb_true_r|].
    intros Heq. apply Hne. eapply (NoDup_lookup _ _ _ (userOf p) Hnd); rewrite list_lookup_fmap.
    + rewrite Hq. cbn. by f_equal.
    + by rewrite Hi.
Qed.

Definition withoutPlayer (s : State) (i : nat) (p : PlayerState) : State :=
  s <| Players := <[i := p <| p_Active := false |>]> (Players s) |>.

Section Revoked.
Context (s : State) (i : nat) (p : PlayerState).
Hypothesis (Hlive : Live s) (Hp : Players s !! i = Some p).

Let next := withoutPlayer s i p.

Lemma revoked_frozen : same_frozen s next.
Proof. split_and!; [|done|done]. by apply (fmap_insert_same participantOf _ _ p). Qed.

Lemma revoked_Core : Core next.
Proof.
  pose proof (lv_core _ Hlive) as Hc. destruct (co_turn _ Hc).
  eapply (Core_frame s); try done; try apply Hc; [apply revoked_frozen|].
  apply Forall_insert; [apply Hc|]. by pose proof (Forall_lookup_1 _ _ _ _ (co_players _ Hc) Hp) as [? ?].
Qed.

Lemma revoked_settlement : validateSettlement next = Ok tt.
Proof.
  eapply (validateSettlement_mono s); try done; [|apply Hlive]. apply participants_users, revoked_frozen.
Qed.

Lemma revoked_active u : activePlayer next u = activePlayer s u && negb (String.eqb u (p_UserID p)).
Proof. apply isActive_deactivate; [done|]. apply core_users, Hlive. Qed.

Lemma revoked_still u : activePlayer s u = true -> u <> p_UserID p -> activePlayer next u = true.
Proof. intros Ha Hne. rewrite revoked_active, Ha, (eqb_ne _ _ Hne). done. Qed.

Lemma revoked_frozenUser u : frozenUser (Players s) u -> frozenUser (Players next) u.
Proof. apply frozenUser_users. symmetry. apply participants_users, revoked_frozen. Qed.

Lemma revoked_bystander :
  (MinimumPlayers <= activeCount (Players next))%nat -> p_UserID p <> SourceUserID s ->
  ~ (Phase s = PhaseAwaitingRoll /\ p_UserID p = CurrentUserID s) ->
  ~ (Phase s = PhaseAwaitingAdd /\ PendingResult s = ResultDoubleSix /\ p_UserID p = TargetUserID s) ->
  Live next.
Proof.
  intros Hcnt Hsrc Hroll Hsix. split; [apply revoked_Core|apply revoked_settlement|apply Hlive|done|].
  assert (Hro : Rolled s -> Rolled next).
  { intros (Hd & Hs & Hdir). split_and!; try done. apply revoked_still; [done|by intros Heq; apply Hsrc]. }
  destruct (lv_phase _ Hlive) as [H1 H2 H3 H4 H5 H6 H7 H8 H9 H10 H11|H1 H2 H3 H4 H5 H6 H7|H1 H2 H3 H4 H5 H6 H7|
    H1 H2 H3 H4 H5 H6 H7 H8|H1 H2 H3 H4 H5 H6 H7|H1 H2 H3 H4 H5 H6 H7 H8].
  - apply live_roll; try done. apply revoked_still; [done|]. intros Heq. by apply Hroll.
  - apply live_pending; try done. by apply Hro.
  - apply live_add_seven; try done. by apply Hro.
  - apply live_add_six; try done; [by apply Hro|]. apply revoked_still; [done|]. intros Heq. by apply Hsix.
  - apply live_target; try done. by apply Hro.
  - apply live_continue; try done. by apply Hro.
Qed.

Lemma revoked_reopen now d :
  (MinimumPlayers <= activeCount (Players next))%nat -> Phase s = PhaseAwaitingAdd ->
  PendingResult s = ResultDoubleSix -> p_UserID p = TargetUserID s ->
  deadlineUnixMillis now (c_ActionTimeoutSeconds (config s)) = Ok d ->
  Live (next <| TargetUserID := ""%string |> <| CurrentUserID := SourceUserID s |>
             <| Phase := PhaseAwaitingTarget |> <| ActionDeadlineUnixMillis := d |>).
Proof.
  intros Hcnt Hph Hr Hu Hd.
  destruct (live_at_add _ (lv_phase _ Hlive) Hph) as (Hro & Hppb & [(Hr' & _)|(_ & _ & _ & Hne)]); [by rewrite Hr in Hr'|].
  split; [destruct revoked_Core; by split| |apply Hlive|done|].
  - eapply (validateSettlement_mono next); try done; [|apply revoked_settlement].
    intros Hpart. rewrite partial_phase in Hpart; [done| |]; change (Phase next) with (Phase s); by rewrite Hph.
  - apply live_target; try done; [|by right|].
    + destruct Hro as (H1 & H2 & H3). split_and!; try done. apply revoked_still; [done|].
      intros Heq. apply Hne. by rewrite <- Hu, <- Heq.
    + unfold actionDeadline, deadlineMatches. cbn. eapply deadline_live; [|exact Hd].
      apply (cb_timeout _ (co_bounds _ (lv_core _ Hlive))).
Qed.

Lemma revoked_Settleable :
  (MinimumPlayers <= activeCount (Players next))%nat -> Rolled s ->
  0 <= PendingPoolBeforeTicks s <= capacityOf (config s) -> Settleable next.
Proof.
  intros Hcnt (_ & Hs & Hdir) Hppb. split; try done; [apply revoked_Core|apply Hlive|].
  apply revoked_frozenUser. by apply core_active.
Qed.

Lemma revoked_continue_Settling reason :
  (MinimumPlayers <= activeCount (Players next))%nat -> Phase s = PhaseAwaitingContinue -> reason <> ""%string ->
  Settling (next <| LastSettlement := settlementFromState next ResultNone "" reason |>).
Proof.
  intros Hcnt Hph Hre. destruct (live_at_continue _ (lv_phase _ Hlive) Hph) as (Hro & _ & Hppb & Hcase).
  destruct (continue_case next (proj1 Hro) Hcase).
  apply Settle_intro; try done; [by apply revoked_Settleable|by left].
Qed.

Lemma revoked_cancel_Settling :
  (MinimumPlayers <= activeCount (Players next))%nat ->
  Phase s <> PhaseAwaitingContinue -> Phase s <> PhaseAwaitingRoll ->
  Settling (next <| LastSettlement := settlementFromState next ResultCancelled "" "cancelled" |>).
Proof.
  intros Hcnt H1 H2.
  assert (Rolled s /\ PendingPoolBeforeTicks s = TotalPoolTicks s) as [Hro Hppb].
  { destruct (lv_phase _ Hlive); done. }
  pose proof (core_capacity _ (lv_core _ Hlive)). pose proof (co_total _ (lv_core _ Hlive)).
  apply Settle_intro; [apply revoked_Settleable; [done|done|lia]|done|by left| |done].
  apply settled_still; [by right; right|done|apply Hro].
Qed.

Lemma revoked_roll_Settling :
  (MinimumPlayers <= activeCount (Players next))%nat -> Phase s = PhaseAwaitingRoll ->
  frozenUser (Players s) (p_UserID p) ->
  let x := next <| SourceUserID := p_UserID p |> <| PendingPoolBeforeTicks := TotalPoolTicks s |>
                <| PendingDirectionBefore := Direction s |> in
  Settling (x <| LastSettlement := settlementFromState x ResultCancelled "" "cancelled" |>).
Proof.
  intros Hcnt Hph Hf x. destruct (live_at_roll _ (lv_phase _ Hlive) Hph) as (_ & _ & _ & H1 & H2 & H3).
  pose proof (core_capacity _ (lv_core _ Hlive)). pose proof (co_total _ (lv_core _ Hlive)).
  apply Settle_intro; [|done|by left|by apply settled_unrolled; [right|..]|done].
  split; try done.
  - destruct revoked_Core. by split.
  - apply Hlive.
  - by apply revoked_frozenUser.
  - subst x next. cbn. lia.
  - apply (lv_core _ Hlive).
Qed.
End Revoked.

(** What revoking a participant does, by branch. *)
Inductive RevokeResult (s : State) (userID : string) (now : Z) (next s' : State) : Prop :=
| revoke_finish :
    (activeCount (Players next) < MinimumPlayers)%nat ->
    s' = fst (finishState next FinishInsufficientParticipants) -> RevokeResult s userID now next s'
| revoke_reopen d :
    (MinimumPlayers <= activeCount (Players next))%nat -> Phase s = PhaseAwaitingAdd ->
    PendingResult s = ResultDoubleSix -> userID = TargetUserID s ->
    deadlineUnixMillis now (c_ActionTimeoutSeconds (config s)) = Ok d ->
    s' = next <| TargetUserID := ""%string |> <| CurrentUserID := SourceUserID s |>
              <| Phase := PhaseAwaitingTarget |> <| ActionDeadlineUnixMillis := d |> ->
    RevokeResult s userID now next s'
| revoke_settle x es0 :
    (MinimumPlayers <= activeCount (Players next))%nat -> Settling x -> same_frozen s x ->
    Players x = Players next -> TotalPoolTicks x = TotalPoolTicks s -> Turn x = Turn s ->
    finishTurn x userID "" now = Ok (s', es0) -> RevokeResult s userID now next s'
| revoke_bystander :
    Live next -> s' = next -> RevokeResult s userID now next s'.

Lemma RevokeParticipant789_inv s userID now s' es :
  Good s -> RevokeParticipant s userID now = Ok (s', es) ->
  Live s /\ 0 < now /\ exists i p,
    Players s !! i = Some p /\ p_UserID p = userID /\ p_Active p = true /\
    RevokeResult s userID now (withoutPlayer s i p) s'.
Proof.
  intros Hg H. unfold RevokeParticipant in H. rewrite (Good_Validate _ Hg) in H. cbn [bind_result] in H.
  do 2 inv_result H. destruct (playerIndex (Players s) userID) as [i|] eqn:Ei; [|done].
  pose proof (playerIndex_Some _ _ _ Ei) as (p & Hp & Hu & Htot). rewrite Htot in H.
  inv_result H. by_value H. rewrite Htot in H. unfold validUnixMillis in *.
  destruct Hg as [Hl|Hd]; [|rewrite (dn_phase _ Hd) in E; done]. to_prop. split; [done|]. split; [lia|].
  exists i, p. split_and!; try done. fold (withoutPlayer s i p) in H. change (userOf p) with (p_UserID p) in Hu.
  pose proof (revoked_frozen s i p Hp) as Hfr.
  destruct (activeCount (Players (withoutPlayer s i p)) <? MinimumPlayers)%nat eqn:Ec.
  { apply Nat.ltb_lt in Ec. injection H as <- _. by apply revoke_finish. }
  apply Nat.ltb_ge in Ec.
  destruct (_ && String.eqb userID (TargetUserID s)) eqn:Esix.
  { to_prop. inv_result H. injection H as <- _. by eapply revoke_reopen. }
  destruct (String.eqb userID (SourceUserID s) || _) eqn:Esrc.
  - match type of H with context [finishTurn ?a _ _ _] => set (x := a) in H end.
    destruct (finishTurn x userID "" now) as [[s1 ev]|] eqn:Ef; cbn [bind_result] in H; [|done].
    injection H as <- _.
    assert (Hx : Settling x /\ same_frozen s x /\ Players x = Players (withoutPlayer s i p) /\
                 TotalPoolTicks x = TotalPoolTicks s /\ Turn x = Turn s).
    { subst x. destruct (Phase s =? PhaseAwaitingContinue) eqn:P1; to_prop.
      - split_and!; try done. by apply revoked_continue_Settling.
      - destruct (Phase s =? PhaseAwaitingRoll) eqn:P2; to_prop.
        + split_and!; try done. rewrite <- Hu.
          assert (Hfz : frozenUser (Players s) (p_UserID p)).
          { exists p. split; [by eapply list_elem_of_lookup_2|done]. }
          exact (revoked_roll_Settling s i p Hl Hp Ec P2 Hfz).
        + split_and!; try done. by apply revoked_cancel_Settling. }
    destruct Hx as (? & ? & ? & ? & ?). by eapply revoke_settle.
  - injection H as <- _. apply revoke_bystander; [|done]. apply orb_false_elim in Esrc as [Es1 Es2]. to_prop.
    apply revoked_bystander; try done; rewrite Hu; [done| |].
    + intros [P1 P2]. rewrite P1, P2, String.eqb_refl in Es2. done.
    + intros (P1 & P2 & P3). rewrite P1, P2, P3, !String.eqb_refl in Esix. done.
Qed.

Lemma RevokeParticipant_Good s userID now s' es :
  Good s -> RevokeParticipant s userID now = Ok (s', es) -> Good s' /\ same_frozen s s'.
Proof.
  intros Hg (Hl & Hn & i & p & Hp & Hu & Ha & Hres)%RevokeParticipant789_inv; [|done].
  pose proof (revoked_frozen s i p Hp) as Hfr.
  destruct Hres as [Hc ->|d Hc H1 H2 H3 Hd ->|x es0 Hc HS Hf _ _ _ Hfin|Hl' ->].
  - split; [|done]. right. apply finishState_Done; [by apply revoked_Core|by apply revoked_settlement|done].
  - split; [|done]. left. eapply revoked_reopen; try done. congruence.
  - eapply finishTurn_Live in Hfin as [? ?]; [|done]. split; [by left|eapply same_frozen789_trans; [exact Hf|done]].
  - split; [by left|done].
Qed.

Lemma Finish789_inv s reason s' es :
  Good s -> Finish s reason = Ok (s', es) ->
  Live s /\ exists r, validFinishReason r = true /\ s' = fst (finishState s r).
Proof.
  intros Hg H. unfold Finish in H. rewrite (Good_Validate _ Hg) in H. cbn [bind_result] in H.
  inv_result H. destruct Hg as [Hl|Hd]; [|rewrite (dn_phase _ Hd) in E; done]. split; [done|].
  by_value H. inv_result H.
  set (r := if String.eqb reason "" then FinishHostRequested else reason) in *.
  injection H as <- _. exists r. split; [|done]. apply andb_false_iff in E0 as [E0|E0]; to_prop; by rewrite E0.
Qed.

Lemma Finish_Done s reason s' es :
  Good s -> Finish s reason = Ok (s', es) -> Done s' /\ same_frozen s s'.
Proof.
  intros Hg (Hl & r & Hr & ->)%Finish789_inv; [|done]. split; [|done].
  apply finishState_Done; [apply Hl|apply Hl|done].
Qed.

(** ** Session start *)
Lemma startingUser789_spec participants seat first :
  startingUser participants seat first = first \/
  exists p, p ∈ participants /\ SeatIndex p = seat /\ startingUser participants seat first = UserID p.
Proof.
  revert first. induction participants as [|p ps IH]; intros first; cbn [startingUser]; [by left|].
  destruct (IH (if SeatIndex p =? seat then UserID p else first)) as [Heq|(q & Hq & Hs & Heq)].
  - rewrite Heq. destruct (SeatIndex p =? seat) eqn:E; to_prop; [right|by left].
    exists p. split_and!; [constructor|done|done].
  - right. exists q. split_and!; [by constructor|done|done].
Qed.

Lemma newPlayer789_participants (l : list Participant) : participantOf <$> (newPlayer <$> l) = l.
Proof. rewrite <- list_fmap_compose. induction l as [|[] l IH]; cbn; [done|]. by f_equal. Qed.

Lemma newPlayer_activeCount (l : list Participant) : activeCount (newPlayer <$> l) = length l.
Proof. unfold activeCount, countb. induction l as [|p l IH]; cbn; [done|]. by f_equal. Qed.

Lemma NewState_Live cfg participants host seat now seed s es :
  TypedConfig cfg -> Forall (fun p => is_u32 (SeatIndex p)) participants ->
  NewState cfg participants host seat now seed = Ok (s, es) -> Live s.
Proof.
  intros Hty Hseats H. unfold NewState, canonicalParticipants in H.
  destruct (ValidateParticipants participants) as [[]|] eqn:Ev; cbn [bind_result] in H; [|done].
  apply ValidateParticipants789_iff in Ev. destruct (bySeat_valid _ _ _ Ev) as (Hro & Hsort & Hperm).
  inv_result H. destruct value. do 2 inv_result H. cbv zeta in H. inv_result H. rename value into pool.
  apply orb_false_elim in E1 as [E1 _]. to_prop.
  match type of H with (let* ' _ := startTurn ?a ?b ?c in _) = _ => set (x := a) in H;
    destruct (startTurn x b c) as [[y ev]|] eqn:Es end; cbn [bind_result] in H; [|done].
  destruct (Dice.Roll _ _ _); [|done]. injection H as <- _.
  pose proof (Config_Validate_bounds _ _ Hty E) as Hb. pose proof (cb_initial _ Hb) as Hinit.
  assert (Hc : Core x).
  { subst x. split; cbn [SchemaVersion Turn Direction Players HostUserID config TotalPoolTicks Pool]; try done.
    - rewrite newPlayer789_participants. exact Hro.
    - apply order_seats. rewrite <- list_fmap_compose. clear -Hsort.
      induction Hsort as [|p l _ IH Hall]; cbn; constructor; [done|]. rewrite Forall_fmap. done.
    - apply existsb_exists in E1 as (p & Hp & Hu). apply eqb_string_true in Hu.
      exists (newPlayer p). split; [apply list_elem_of_fmap_2; by apply list_elem_of_In|done].
    - by rewrite length_fmap.
    - apply Forall_fmap, Forall_forall. intros p Hp. rewrite Forall_forall in Hseats.
      split; [|done]. cbn. apply Hseats. by rewrite <- Hperm.
    - lia. }
  unfold startTurn in Es. inv_result Es. to_prop. inv_result Es. injection Es as <- _. rewrite Clone789_id.
  split; try done.
  - destruct Hc. by split.
  - cbn [Players update]. subst x. cbn [Players]. rewrite newPlayer_activeCount. apply (roster_count _ _ _ Hro).
  - apply live_roll; try done. unfold actionDeadline, deadlineMatches. cbn. eapply deadline_live; [|eassumption].
    apply (cb_timeout _ Hb).
Qed.

(** ** Every input *)

(** Amounts are [uint32]; the clock may be any number. *)
Definition TypedInput (i : Input) : Prop :=
  match i with
  | InAddToPool _ amount _ => is_u32 amount
  | _ => True
  end.

(** The input lands a result too late for an action deadline. *)
Definition lateInput (s : State) (i : Input) (s' : State) : Prop :=
  match i with
  | InConfirmLanded _ now | InTimeout _ now => landsLate s now s'
  | _ => False
  end.

Lemma step_kept s i s' es :
  Good s -> TypedInput i -> step s i = Ok (s', es) -> (Good s' \/ lateInput s i s') /\ same_frozen s s'.
Proof.
  intros Hg Hi H.
  assert (Hlive : Live s' /\ same_frozen s s' -> (Good s' \/ lateInput s i s') /\ same_frozen s s')
    by (intros [? ?]; split; [by left; left|done]).
  destruct i; cbn [step TypedInput lateInput] in *.
  - by eapply Hlive, Roll_Live.
  - apply ConfirmLanded_kept in H as [[?|?] ?]; [|by split; [right|]|done]. split; [by left; left|done].
  - by eapply Hlive, ReportDropped_Live.
  - eapply Hlive, addToPool_Live; [done| |exact H]. apply Hi.
  - by eapply Hlive, chooseTarget_Live.
  - by eapply Hlive, continueTurn_Live.
  - by eapply Hlive, continueTurn_Live.
  - apply HandleTimeout_kept in H as [[?|?] ?]; [|by split; [right|]|done]. split; [by left; left|done].
  - apply RevokeParticipant_Good in H as [? ?]; [|done]. split; [by left|done].
  - apply Finish_Done in H as [? ?]; [|done]. split; [by left; right|done].
Qed.

(** Every operation validates the snapshot it is given. *)
Lemma step_validates s i : is_ok (step s i) = true -> Validate s = Ok tt.
Proof.
  destruct (Validate s) as [[]|] eqn:E; [done|]. intros H. exfalso. revert H.
  destruct i; cbn [step];
    unfold Roll, ConfirmLanded, ReportDropped, AddToPool, addToPool, ChooseTarget, chooseTarget, Reroll, Pass,
      continueTurn, HandleTimeout, RevokeParticipant, Finish, validateActor, validateHost; rewrite E; done.
Qed.

(** Every operation refuses a finished session. *)
Lemma finished_step s i : Phase s = PhaseFinished -> is_ok (step s i) = false.
Proof.
  intros Hp. destruct i; cbn [step];
    unfold Roll, ConfirmLanded, ReportDropped, AddToPool, addToPool, ChooseTarget, chooseTarget, Reroll, Pass,
      continueTurn, HandleTimeout, RevokeParticipant, Finish, validateActor, validateHost;
    destruct (Validate s) as [[]|]; cbn [bind_result]; try done; by rewrite Hp.
Qed.

Definition Initial (s : State) : Prop :=
  exists cfg participants host seat now seed es,
    TypedConfig cfg /\ Forall (fun p => is_u32 (SeatIndex p)) participants /\
    NewState cfg participants host seat now seed = Ok (s, es).

#[global] Instance dice789_ops : EngineOps State Input Event (RuleError ErrorCode) := {|
  engine_step := step;
  engine_input := TypedInput;
  engine_initial := Initial;
  engine_valid s := Good s \/ Stuck s;
  engine_finished s := Phase s =? PhaseFinished;
|}.

#[global] Instance dice789_laws : EngineLaws State Input Event (RuleError ErrorCode).
Proof.
  split; cbn.
  - intros s (? & ? & ? & ? & ? & ? & ? & Hty & Hse & H). left; left. by eapply NewState_Live.
  - intros s i s' es [Hg|Hs] Hi H.
    + apply step_kept in H as [[?|Hlate] _]; [by left| |done|done]. right. by destruct i; try done; destruct Hlate as (_ & _ & ?).
    + apply Stuck_invalid in Hs. assert (Hv : Validate s = Ok tt) by (apply (step_validates s i); by rewrite H). by rewrite Hv in Hs.
  - intros s i Hf. to_prop. by apply finished_step.
Qed.

(** A session that accepts an input is good, whatever its clocks were. *)
Lemma reachable_Good s i s' es : reachable s -> step s i = Ok (s', es) -> Good s.
Proof.
  intros [Hg|Hs]%reachable_valid H; [done|]. apply Stuck_invalid in Hs.
  assert (Hv : Validate s = Ok tt) by (apply (step_validates s i); by rewrite H). by rewrite Hv in Hs.
Qed.

Lemma reachable_Core s : reachable s -> Core s.
Proof. intros [[[]|[]]|[]]%reachable_valid; done. Qed.

End Dice789Facts.
