(* ===== verification/Dice789Theorems.v ===== *)
(** * Dice 7-8-9: theorems

    The properties of the engine a session relies on, each with a witness on a
    concrete three-player session whose dice are really rolled. *)

From S2P Require Import Prelude Identifier Dice Roster Engine Dice789 Dice789Facts.

Module Dice789Theorems.
Import Roster Dice789 Dice789Facts.

(** ** A concrete session *)
Definition demo789_seed : list Z := Z.of_nat <$> seq 1 32.
Definition demo789_participants : list Participant :=
  [mkParticipant "carol" 7; mkParticipant "alice" 1; mkParticipant "bob" 4].

Definition stateOf (r : res (State * list Event)) : State :=
  match r with
  | Ok (s, _) => s
  | Err _ => mkState 0 0 0 "" [] "" "" "" 0 [] 0 0 0 0 0 (DefaultConfig true) "" 0 0 emptySettlement ""
  end.
Definition eventsOf (r : res (State * list Event)) : list Event :=
  match r with Ok (_, es) => es | Err _ => [] end.

(** Turn one, bob to roll, bob is the host, two ticks in the pool. *)
Definition demo789_start : State :=
  Eval vm_compute in stateOf (NewState (DefaultConfig true) demo789_participants "bob" 4 1000 demo789_seed).
(** Bob rolled six and one: a seven waits for the host. *)
Definition demo789_rolled : State :=
  Eval vm_compute in stateOf (Roll demo789_start "bob" 2000 demo789_seed).
(** Landed: bob may add to the pool. *)
Definition demo789_add : State :=
  Eval vm_compute in stateOf (ConfirmLanded demo789_rolled "bob" 3000).

Lemma demo789_start_reachable : reachable demo789_start.
Proof.
  apply reachable_initial.
  exists (DefaultConfig true), demo789_participants, "bob"%string, 4, 1000, demo789_seed,
    (eventsOf (NewState (DefaultConfig true) demo789_participants "bob" 4 1000 demo789_seed)).
  split_and!; [in_range|repeat constructor; in_range|]. vm_compute. reflexivity.
Qed.

Lemma demo789_rolled_reachable : reachable demo789_rolled.
Proof.
  eapply (reachable_step demo789_start (InRoll "bob" 2000 demo789_seed) demo789_rolled
            (eventsOf (Roll demo789_start "bob" 2000 demo789_seed)) demo789_start_reachable I).
  vm_compute. reflexivity.
Qed.

Lemma demo789_add_reachable : reachable demo789_add.
Proof.
  eapply (reachable_step demo789_rolled (InConfirmLanded "bob" 3000) demo789_add
            (eventsOf (ConfirmLanded demo789_rolled "bob" 3000)) demo789_rolled_reachable).
  - exact I.
  - vm_compute. reflexivity.
Qed.

(** ** Snapshots *)

(** What is known of a snapshot the engine itself refuses: the input before it
    landed a result less than the action timeout before the end of the [int64]
    clock, it has no deadline, and no input is accepted any more. *)
Definition landedTooLate (s : State) : Prop :=
  exists s0 i now es,
    reachable s0 /\ Validate s0 = Ok tt /\ step s0 i = Ok (s, es) /\
    ((exists actor, i = InConfirmLanded actor now) \/ (exists timer, i = InTimeout timer now)) /\
    Phase s0 = PhaseResultPending /\ maxInt64 - c_ActionTimeoutSeconds (config s0) * 1000 < now /\
    ActionDeadlineUnixMillis s = 0 /\ forall i', is_ok (step s i') = false.

(** C36: A 7-8-9 session keeps its snapshots valid.  Whatever inputs and clocks
    a session gets, the pool never holds more ticks than its frozen capacity, and
    every snapshot passes the engine's own [Validate], with one exception: a
    result landed, by the host or by its timer, so close to the end of the
    [int64] clock that its action deadline overflows (see
    [landed_deadline_overflow]).  Such a snapshot ends the session: it accepts no
    input. *)
Theorem session789_always_valid s :
  reachable s ->
  TotalPoolTicks s <= c_LayerCapacityTicks (config s) * c_MaxLayers (config s) /\
  (Validate s = Ok tt \/ landedTooLate s).
Proof.
  intros Hr. split.
  { pose proof (reachable_Core _ Hr) as Hc. pose proof (core_capacity _ Hc). unfold capacityOf in *. lia. }
  destruct Hr as [s Hi|s0 i s es Hr Hi H].
  - left. destruct Hi as (? & ? & ? & ? & ? & ? & ? & Hty & Hse & H). apply Good_Validate. left. by eapply NewState_Live.
  - pose proof (reachable_Good _ _ _ _ Hr H) as Hg. destruct (step_kept _ _ _ _ Hg Hi H) as [[Hg'|Hlate] _]; [left; by apply Good_Validate|right].
    assert (exists now, landsLate s0 now s /\ ((exists actor, i = InConfirmLanded actor now) \/ (exists timer, i = InTimeout timer now)))
      as (now & (Hp & [_ Hnow] & Hs) & Hi') by (destruct i; try done; eauto 6).
    exists s0, i, now, es. split_and!; try done; [by apply Good_Validate|apply Hs|].
    intros i'. destruct (is_ok (step s i')) eqn:E; [|done]. apply step_validates in E. apply Stuck_invalid in Hs. by rewrite E in Hs.
Qed.

Lemma session789_always_valid_witness : TotalPoolTicks demo789_add <= 24 /\ Validate demo789_add = Ok tt.
Proof.
  destruct (session789_always_valid demo789_add demo789_add_reachable) as [Hpool [Hv|(s0 & i & now & es & _ & _ & _ & _ & _ & _ & Hd & _)]];
    [by split|discriminate Hd].
Defined.

(** No accepted input ever changes the frozen participants, the host or the
    configuration of a reachable session. *)
Theorem step789_keeps_frozen s i s' es :
  reachable s -> TypedInput i -> step s i = Ok (s', es) ->
  participantOf <$> Players s' = participantOf <$> Players s /\ config s' = config s /\
  HostUserID s' = HostUserID s.
Proof. intros Hr Hi H. pose proof (reachable_Good _ _ _ _ Hr H) as Hg. by eapply step_kept. Qed.

Lemma step789_keeps_frozen_witness : config demo789_add = config demo789_rolled.
Proof.
  apply (step789_keeps_frozen demo789_rolled (InConfirmLanded "bob" 3000) demo789_add
           (eventsOf (ConfirmLanded demo789_rolled "bob" 3000)) demo789_rolled_reachable).
  - exact I.
  - vm_compute. reflexivity.
Defined.

(** The pool layout is canonical: [validatePool] accepts a snapshot's layers
    exactly when they are the ones [poolFromTotal] builds from the recorded
    total, so the layers and the total can never disagree. *)
Theorem validatePool_canonical s n :
  TypedConfig (config s) -> Config_Validate (config s) n = Ok tt ->
  Forall (fun l => is_u32 (l_Ticks l)) (Pool s) -> 0 <= TotalPoolTicks s ->
  validatePool s = Ok tt <-> poolFromTotal (config s) (TotalPoolTicks s) = Ok (Pool s).
Proof.
  intros Hty Hc Hl Ht. pose proof (Config_Validate_bounds _ _ Hty Hc) as Hb. split.
  - by apply validatePool_sound.
  - by apply validatePool_complete.
Qed.

Lemma validatePool_canonical_witness :
  let s := demo789_add <| Pool := [mkLayer 8; mkLayer 8; mkLayer 3] |> <| TotalPoolTicks := 19 |> in
  validatePool s = Ok tt <-> poolFromTotal (config s) (TotalPoolTicks s) = Ok (Pool s).
Proof.
  intros s. apply (validatePool_canonical s 3).
  - in_range.
  - vm_compute. reflexivity.
  - repeat constructor; in_range.
  - vm_compute. discriminate.
Defined.

(** Splitting a total into layers loses nothing: every total within the
    capacity is split, and adding the layers up gives the total back. *)
Theorem poolFromTotal_roundtrip cfg n total :
  TypedConfig cfg -> Config_Validate cfg n = Ok tt ->
  0 <= total <= c_LayerCapacityTicks cfg * c_MaxLayers cfg ->
  exists pool, poolFromTotal cfg total = Ok pool /\ poolLayersTotal pool = total.
Proof.
  intros Hty Hc Ht. pose proof (Config_Validate_bounds _ _ Hty Hc) as Hb.
  destruct (poolFromTotal_exists cfg total Hb Ht) as [pool Hpool]. exists pool. split; [done|].
  eapply poolFromTotal_total; [done| |done]. lia.
Qed.

Lemma poolFromTotal_roundtrip_witness :
  exists pool, poolFromTotal (DefaultConfig true) 19 = Ok pool /\ poolLayersTotal pool = 19.
Proof.
  apply (poolFromTotal_roundtrip (DefaultConfig true) 3); [in_range|vm_compute; reflexivity|].
  vm_compute. split; discriminate.
Defined.

(** ** Conservation of ticks *)
Definition ledger (s : State) : Z := TotalPoolTicks s + sumPenalties (Players s).

(** The ticks an input puts into play; only adding does. *)
Definition addedTicks (s : State) (i : Input) : Z :=
  match i with
  | InAddToPool _ amount _ => amount
  | InTimeout _ _ => if Phase s =? PhaseAwaitingAdd then minimumAddAmount s else 0
  | _ => 0
  end.

Lemma finishTurn_ledger x source nextActor now s' es :
  finishTurn x source nextActor now = Ok (s', es) ->
  ledger s' = ledger x /\ Players s' = Players x /\ TotalPoolTicks s' = TotalPoolTicks x.
Proof. by intros (next & d & _ & _ & _ & _ & _ & ->)%finishTurn_inv. Qed.

Lemma Drunk_ledger x y target amount : Drunk x y target amount -> ledger y = ledger x.
Proof.
  intros Hd. unfold ledger. rewrite (dr_sum _ _ _ _ Hd).
  destruct (dr_shape _ _ _ _ Hd) as (players & pool & ->). cbn. lia.
Qed.

(** What a landed result takes out of the pool. *)
Definition drained (s : State) : Z :=
  if String.eqb (PendingResult s) ResultNine then TotalPoolTicks s
  else if String.eqb (PendingResult s) ResultEight || String.eqb (PendingResult s) ResultDoubleFour
  then Dice.HalfCeil (TotalPoolTicks s)
  else 0.

Definition paysOnly (s s' : State) (target : string) (amount : Z) : Prop :=
  TotalPoolTicks s' = TotalPoolTicks s - amount /\
  (forall u, penaltyOf (Players s') u = penaltyOf (Players s) u + (if String.eqb u target then amount else 0)) /\
  ledger s' = ledger s.

Lemma Drunk_pays x y s' target amount :
  Drunk x y target amount -> Players s' = Players y -> TotalPoolTicks s' = TotalPoolTicks y ->
  paysOnly x s' target amount.
Proof.
  intros Hd Hp Ht. pose proof (Drunk_ledger _ _ _ _ Hd) as Hl. unfold paysOnly, ledger in *. rewrite Hp, Ht.
  split_and!; [|apply Hd|done]. by destruct (dr_shape _ _ _ _ Hd) as (players & pool & ->).
Qed.

Lemma paysOnly_zero s s' target :
  Players s' = Players s -> TotalPoolTicks s' = TotalPoolTicks s -> paysOnly s s' target 0.
Proof.
  intros Hp Ht. unfold paysOnly, ledger. rewrite Hp, Ht. split_and!; [lia| |lia].
  intros u. destruct (String.eqb u target); lia.
Qed.

Lemma applyDrinkAndContinue_pays x target amount reason events now s' es :
  Core x -> 0 <= amount <= TotalPoolTicks x ->
  applyDrinkAndContinue x target amount reason events now = Ok (s', es) -> paysOnly x s' target amount.
Proof.
  intros Hc Ha H. unfold applyDrinkAndContinue in H.
  destruct (applyDrink _ _ _ _ _) as [[y ev]|] eqn:Ed; cbn [bind_result] in H; [|done].
  cbv zeta in H. inv_result H. injection H as <- _. apply applyDrink_inv in Ed; [|done|done].
  by eapply Drunk_pays.
Qed.

Lemma settleLanded_pays x source nextActor now events s' es :
  settleLanded x source nextActor now events = Ok (s', es) ->
  Players s' = Players x /\ TotalPoolTicks s' = TotalPoolTicks x.
Proof. intros (es0 & H)%settleLanded_inv. by apply finishTurn_ledger in H as (_ & ? & ?). Qed.

Lemma applyLanded_pays s now cause s' es :
  Live s -> Phase s = PhaseResultPending -> applyLanded s now cause = Ok (s', es) ->
  paysOnly s s' (SourceUserID s) (drained s).
Proof.
  intros Hl Hp. pose proof (lv_core _ Hl) as Hc.
  destruct (live_at_pending s (co_bounds _ Hc) (lv_phase _ Hl) Hp) as (_ & Hcur & _ & Hval & _).
  pose proof (core_capacity _ Hc) as Hcap. pose proof (co_total _ Hc) as Htot.
  unfold applyLanded, drained. rewrite Clone789_id, Hp, Hval. cbn [negb orb Z.eqb Pos.eqb PhaseResultPending].
  rewrite (same_current s Hcur). cbv zeta.
  destruct (validRollResult_cases _ Hval) as [Hr|[Hr|[Hr|[Hr|[Hr|[Hr|[Hr|Hr]]]]]]]; rewrite Hr; cbn [String.eqb Ascii.eqb Bool.eqb orb
      ResultSeven ResultEight ResultNine ResultDoubleOne ResultDoubleFour ResultDoubleSix ResultOrdinaryPair ResultOther].
  - destruct (TotalPoolTicks s =? _); intros H; injection H as <- _; by apply paysOnly_zero.
  - apply applyDrinkAndContinue_pays; [done|]. apply HalfCeil_range. lia.
  - apply applyDrinkAndContinue_pays; [done|lia].
  - intros H; injection H as <- _; by apply paysOnly_zero.
  - intros H. destruct (applyDrink _ _ _ _ _) as [[y ev]|] eqn:Ed; cbn [bind_result] in H; [|done].
    apply applyDrink_inv in Ed; [|done|apply HalfCeil_range; lia].
    apply settleLanded_pays in H as [H1 H2]. by eapply Drunk_pays.
  - intros H; injection H as <- _; by apply paysOnly_zero.
  - destruct (3 <=? _)%nat; intros [H1 H2]%settleLanded_pays; by apply paysOnly_zero.
  - intros [H1 H2]%settleLanded_pays; by apply paysOnly_zero.
Qed.

(** A confirmed result has exactly the effect of its rule: an eight and a
    double four make the source drink the rounded-up half of the pool, a nine
    the whole pool, every other result leaves all ticks where they are; the
    source is the only participant whose penalty changes. Only the active host
    can confirm, in the result window. *)
Theorem ConfirmLanded_effect s actor now s' es :
  reachable s -> ConfirmLanded s actor now = Ok (s', es) ->
  actor = HostUserID s /\ Phase s = PhaseResultPending /\ now < ActionDeadlineUnixMillis s /\
  paysOnly s s' (SourceUserID s) (drained s).
Proof.
  intros Hr H. pose proof (reachable_Good s (InConfirmLanded actor now) _ _ Hr H) as Hg. unfold ConfirmLanded in H. inv_result H. destruct value.
  apply validateHost_inv in E as (Hl & Hp & -> & _ & Hn); [|done].
  split_and!; [done|done|lia|]. by eapply applyLanded_pays.
Qed.

Lemma ConfirmLanded_effect_witness :
  paysOnly demo789_rolled demo789_add (SourceUserID demo789_rolled) (drained demo789_rolled).
Proof.
  apply (ConfirmLanded_effect demo789_rolled "bob" 3000 demo789_add
           (eventsOf (ConfirmLanded demo789_rolled "bob" 3000)) demo789_rolled_reachable).
  vm_compute. reflexivity.
Defined.

Lemma ReportDropped_inv s actor auditRef reason now s' es :
  Good s -> ReportDropped s actor auditRef reason now = Ok (s', es) ->
  Live s /\ Phase s = PhaseResultPending /\ actor = HostUserID s /\ auditRef <> ""%string /\ reason <> ""%string /\
  paysOnly s s' (SourceUserID s) (TotalPoolTicks s).
Proof.
  intros Hg H. unfold ReportDropped in H. inv_result H. destruct value.
  apply validateHost_inv in E as (Hl & Hp & -> & _ & Hn); [|done].
  inv_result H. to_prop. by_value H. inv_result H. rename value into y. inv_result H.
  rename value into z. destruct (finishTurn _ _ _ _) as [[s1 ev]|] eqn:Ef; cbn [bind_result] in H; [|done].
  injection H as <- _. pose proof (co_total _ (lv_core _ Hl)) as Htot.
  assert (Hdr : Drunk s z (SourceUserID s) (TotalPoolTicks s)).
  { eapply drink_inv; [apply Hl|lia| |eassumption|eassumption]. lia. }
  apply finishTurn_ledger in Ef as (_ & Hpl & Htt). split_and!; try done. by eapply Drunk_pays.
Qed.

(** A reported drop costs the source the whole pool: the pool is emptied
    onto the source's penalty and onto nobody else's; only the frozen host can
    report, with an audit reference and a reason. *)
Theorem ReportDropped_effect s actor auditRef reason now s' es :
  reachable s -> ReportDropped s actor auditRef reason now = Ok (s', es) ->
  actor = HostUserID s /\ auditRef <> ""%string /\ reason <> ""%string /\
  TotalPoolTicks s' = 0 /\ paysOnly s s' (SourceUserID s) (TotalPoolTicks s).
Proof.
  intros Hr H. pose proof (reachable_Good s (InReportDropped actor auditRef reason now) _ _ Hr H) as Hg.
  apply ReportDropped_inv in H as (Hl & Hp & Ha & Hr1 & Hr2 & Hpay); [|done].
  split_and!; try done. destruct Hpay as (-> & _). lia.
Qed.

Lemma ReportDropped_effect_witness :
  TotalPoolTicks (stateOf (ReportDropped demo789_rolled "bob" "audit-1" "fell" 3000)) = 0.
Proof.
  apply (ReportDropped_effect demo789_rolled "bob" "audit-1" "fell" 3000 _
           (eventsOf (ReportDropped demo789_rolled "bob" "audit-1" "fell" 3000)) demo789_rolled_reachable).
  vm_compute. reflexivity.
Defined.

Lemma addToPool_ledger s actor amount now timer s' es :
  Good s -> 0 <= amount -> addToPool s actor amount now timer = Ok (s', es) -> ledger s' = ledger s + amount.
Proof.
  intros Hg Ha (Hl & _ & _ & _ & pool & y & Hy & _ & Hcase)%addToPool_inv; [|done|done].
  assert (Hled : ledger y = ledger s + amount).
  { rewrite Hy. unfold ledger. cbn [TotalPoolTicks Players update]. lia. }
  rewrite <- Hled. destruct Hcase as [(_ & es0 & H)|(_ & d & _ & ->)]; [|done].
  by apply finishTurn_ledger in H as (-> & _).
Qed.

Lemma chooseTarget_ledger s actor target now timer s' es :
  Good s -> chooseTarget s actor target now timer = Ok (s', es) -> ledger s' = ledger s.
Proof.
  intros Hg (_ & _ & _ & _ & _ & _ & _ & [(_ & z & es0 & Hd & H)|(_ & d & _ & ->)])%chooseTarget_inv; [| |done].
  - apply finishTurn_ledger in H as (-> & _). by apply Drunk_ledger in Hd.
  - done.
Qed.

Lemma continueTurn_ledger s actor reroll now timer s' es :
  Good s -> continueTurn s actor reroll now timer = Ok (s', es) -> ledger s' = ledger s.
Proof.
  intros Hg (_ & _ & _ & reason & _ & H)%continueTurn_inv; [|done]. by apply finishTurn_ledger in H as (-> & _).
Qed.

Lemma HandleTimeout_ledger s timer now s' es :
  Good s -> HandleTimeout s timer now = Ok (s', es) ->
  ledger s' = ledger s + (if Phase s =? PhaseAwaitingAdd then minimumAddAmount s else 0).
Proof.
  intros Hg (Hl & _ & _ & _ & Hcases)%HandleTimeout789_inv; [|done].
  destruct Hcases as [(Hp & H)|[(Hp & H)|[(Hp & H)|[(Hp & target & H)|(Hp & reroll & H)]]]]; rewrite Hp;
    cbn [Z.eqb Pos.eqb PhaseAwaitingRoll PhaseResultPending PhaseAwaitingAdd PhaseAwaitingTarget PhaseAwaitingContinue].
  - apply finishTurn_ledger in H as (-> & _). unfold ledger. cbn [TotalPoolTicks Players update]. lia.
  - apply applyLanded_pays in H as (_ & _ & ->); [lia|done|done].
  - apply addToPool_ledger in H; [done|done|]. apply minimumAddAmount_nonneg, Hl.
  - apply chooseTarget_ledger in H; [lia|done].
  - apply continueTurn_ledger in H; [lia|done].
Qed.

Lemma sumPenalties_deactivate (players : list PlayerState) i p :
  players !! i = Some p -> sumPenalties (<[i := p <| p_Active := false |>]> players) = sumPenalties players.
Proof. intros Hi. rewrite (sumPenalties_insert _ _ p) by done. cbn. lia. Qed.

Lemma RevokeParticipant_ledger s userID now s' es :
  Good s -> RevokeParticipant s userID now = Ok (s', es) -> ledger s' = ledger s.
Proof.
  intros Hg (Hl & _ & i & p & Hp & _ & _ & Hres)%RevokeParticipant789_inv; [|done].
  assert (Hn : ledger (withoutPlayer s i p) = ledger s).
  { unfold ledger, withoutPlayer. cbn. by rewrite sumPenalties_deactivate. }
  destruct Hres as [_ ->|d _ _ _ _ _ ->|x es0 _ _ _ Hx1 Hx2 _ Hfin|_ ->]; try done.
  apply finishTurn_ledger in Hfin as (-> & _). unfold ledger in *. rewrite Hx1, Hx2. done.
Qed.

(** C37: Ticks are conserved: in every reachable session, an accepted input keeps
    the sum of the pool and of all the penalties, except that adding to the
    pool (by an action, or by the timeout that adds the minimum) puts exactly
    the added amount into play. Drinking, drops, targets, revocations and
    finishing only move ticks. *)
Theorem ticks_conserved s i s' es :
  reachable s -> TypedInput i -> step s i = Ok (s', es) ->
  TotalPoolTicks s' + sumPenalties (Players s') =
  TotalPoolTicks s + sumPenalties (Players s) + addedTicks s i.
Proof.
  intros Hr Hi H. pose proof (reachable_Good _ _ _ _ Hr H) as Hg. change (ledger s' = ledger s + addedTicks s i).
  destruct i; cbn [step TypedInput addedTicks] in *; rewrite ?Z.add_0_r.
  - unfold Roll in H. inv_result H. destruct (Dice.Roll _ _ _) as [faces|]; [|done].
    unfold applyRoll in H. inv_result H. inv_result H. by_value H.
    inv_result H. inv_result H. by injection H as <- _.
  - unfold ConfirmLanded in H. inv_result H. destruct value.
    apply validateHost_inv in E as (Hl & Hp & _ & _ & _); [|done].
    by apply applyLanded_pays in H as (_ & _ & ->).
  - by apply ReportDropped_inv in H as (_ & _ & _ & _ & _ & _ & _ & ->).
  - eapply addToPool_ledger; [done| |exact H]. apply Hi.
  - by eapply chooseTarget_ledger.
  - by eapply continueTurn_ledger.
  - by eapply continueTurn_ledger.
  - by eapply HandleTimeout_ledger.
  - by eapply RevokeParticipant_ledger.
  - by apply Finish789_inv in H as (_ & r & _ & ->).
Qed.

Lemma ticks_conserved_witness :
  TotalPoolTicks (stateOf (AddToPool demo789_add "bob" 5 4000)) +
    sumPenalties (Players (stateOf (AddToPool demo789_add "bob" 5 4000))) =
  TotalPoolTicks demo789_add + sumPenalties (Players demo789_add) + 5.
Proof.
  apply (ticks_conserved demo789_add (InAddToPool "bob" 5 4000) _
           (eventsOf (AddToPool demo789_add "bob" 5 4000)) demo789_add_reachable).
  - in_range.
  - vm_compute. reflexivity.
Defined.

(** ** Turn order *)
Definition stepOf (direction : Z) : Z := if direction =? DirectionCounterClockwise then -1 else 1.

(** Go's truncated remainder with the correction is the mathematical modulus. *)
Lemma traversalIndex_mod start step n offset :
  (0 < n)%nat ->
  traversalIndex start step n offset = Z.to_nat ((Z.of_nat start + step * Z.of_nat offset) mod Z.of_nat n).
Proof.
  intros Hn. unfold traversalIndex. set (a := Z.of_nat start + step * Z.of_nat offset). set (m := Z.of_nat n).
  assert (Hm : 0 < m) by lia. f_equal. assert (Hq : a = m * Z.quot a m + Z.rem a m) by (apply Z.quot_rem; lia).
  assert (Hb : Z.abs (Z.rem a m) < m).
  { pose proof (Z.rem_bound_abs a m). rewrite (Z.abs_eq m) in * by lia. lia. }
  clearbody m. generalize dependent (Z.rem a m). generalize (Z.quot a m). intros q r Hq Hb.
  destruct (r <? 0) eqn:E; to_prop.
  - apply (Z.mod_unique _ _ (q - 1)); lia.
  - apply (Z.mod_unique _ _ q); lia.
Qed.

Lemma traversal_bound start step n offset :
  (0 < n)%nat -> (traversalIndex start step n offset < n)%nat.
Proof.
  intros Hn. rewrite traversalIndex_mod by done.
  pose proof (Z.mod_pos_bound (Z.of_nat start + step * Z.of_nat offset) (Z.of_nat n)). lia.
Qed.

(** Every other index is visited before the walk comes back to its origin. *)
Lemma traversal_reaches start direction n j :
  (start < n)%nat -> (j < n)%nat ->
  exists k, (1 <= k <= n)%nat /\ traversalIndex start (stepOf direction) n k = j /\ (j <> start -> (k < n)%nat).
Proof.
  intros Hs Hj. set (st := stepOf direction). assert (Hst : st = 1 \/ st = -1).
  { subst st. unfold stepOf. destruct (_ =? _); auto. }
  clearbody st. set (d := st * (Z.of_nat j - Z.of_nat start)).
  assert (Hdm : d = Z.of_nat n * (d / Z.of_nat n) + d mod Z.of_nat n) by (apply Z.div_mod; lia).
  assert (Hk : 0 <= d mod Z.of_nat n < Z.of_nat n) by (apply Z.mod_pos_bound; lia).
  generalize dependent (d mod Z.of_nat n). generalize (d / Z.of_nat n). intros q k Hdm Hk. subst d.
  destruct (decide (k = 0)) as [->|Hk0].
  - assert (Hq : q = 0) by (destruct Hst; subst st; nia). subst q.
    assert (j = start) by (destruct Hst; subst st; lia). subst j. exists n. split_and!; [lia|lia| |done].
    rewrite traversalIndex_mod by lia. rewrite Z.mod_add by lia. rewrite Z.mod_small by lia. lia.
  - exists (Z.to_nat k). split_and!; [lia|lia| |lia]. rewrite traversalIndex_mod by lia.
    rewrite Z2Nat.id by lia.
    replace (Z.of_nat start + st * k) with (Z.of_nat j + (- st * q) * Z.of_nat n)
      by (destruct Hst; subst st; lia).
    rewrite Z.mod_add by lia. rewrite Z.mod_small by lia. lia.
Qed.

Lemma traversal_return start direction n k :
  (start < n)%nat -> (1 <= k < n)%nat -> traversalIndex start (stepOf direction) n k <> start.
Proof.
  intros Hs Hk Heq. rewrite traversalIndex_mod in Heq by lia.
  assert (Hst : stepOf direction = 1 \/ stepOf direction = -1).
  { unfold stepOf. destruct (_ =? _); auto. }
  set (a := Z.of_nat start + stepOf direction * Z.of_nat k) in *.
  assert (Hdm : a = Z.of_nat n * (a / Z.of_nat n) + a mod Z.of_nat n) by (apply Z.div_mod; lia).
  assert (Hb : 0 <= a mod Z.of_nat n < Z.of_nat n) by (apply Z.mod_pos_bound; lia).
  generalize dependent (a mod Z.of_nat n). generalize (a / Z.of_nat n). intros q r Heq Hdm Hb. subst a.
  assert (Hq : stepOf direction * Z.of_nat k = Z.of_nat n * q) by lia.
  clear -Hst Hq Hk. destruct Hst as [Hst|Hst]; rewrite Hst in Hq.
  - assert (q <= 0 \/ 1 <= q) as [?|?] by lia; nia.
  - assert (q <= -1 \/ 0 <= q) as [?|?] by lia; nia.
Qed.

(** The turn passes to the nearest active player in the current direction:
    [nextActiveUser] walks the frozen seats from the given player, up or down
    by the session's direction and around the table, and returns the first
    active one; every player it skips is inactive. *)
Theorem nextActiveUser_nearest s after u :
  nextActiveUser s after = Ok u ->
  exists i k, playerIndex (Players s) after = Some i /\ (1 <= k <= length (Players s))%nat /\
    let seat j := Players s !!! Z.to_nat
      ((Z.of_nat i + stepOf (Direction s) * Z.of_nat j) mod Z.of_nat (length (Players s))) in
    p_UserID (seat k) = u /\ p_Active (seat k) = true /\
    forall j, (1 <= j < k)%nat -> p_Active (seat j) = false.
Proof.
  unfold nextActiveUser. destruct (playerIndex (Players s) after) as [i|] eqn:Ei; [|done].
  destruct (Direction_Valid (Direction s)); cbn [negb]; [|done].
  destruct (firstActive _ _) as [v|] eqn:Ef; [|done]. intros [= ->].
  destruct (firstActive_seq (Players s) _ _ _ _ Ef) as (k & Hk & Hu & Ha & Hskip).
  assert (Hlen : (0 < length (Players s))%nat).
  { apply playerIndex_Some in Ei as (p & Hp & _). apply lookup_lt_Some in Hp. lia. }
  exists i, k. split_and!; [done|lia|lia| | |].
  - by rewrite traversalIndex_mod in Hu.
  - by rewrite traversalIndex_mod in Ha.
  - intros j Hj. specialize (Hskip j Hj). by rewrite traversalIndex_mod in Hskip.
Qed.

(** Counter-clockwise from bob is alice. *)
Lemma nextActiveUser_nearest_witness :
  nextActiveUser (demo789_add <| Direction := DirectionCounterClockwise |>) "bob" = Ok "alice"%string /\
  exists i k, playerIndex (Players demo789_add) "bob" = Some i /\ (1 <= k <= 3)%nat.
Proof.
  split; [vm_compute; reflexivity|].
  destruct (nextActiveUser_nearest (demo789_add <| Direction := DirectionCounterClockwise |>) "bob" "alice")
    as (i & k & Hi & Hk & _); [vm_compute; reflexivity|].
  exists i, k. split; [exact Hi|exact Hk].
Defined.

Lemma nextActiveUser_total s u :
  Core s -> frozenUser (Players s) u -> (1 <= activeCount (Players s))%nat ->
  exists v, nextActiveUser s u = Ok v /\ activePlayer s v = true.
Proof.
  intros Hc Hf Hcnt. apply playerIndex_is_Some in Hf as [i Hi]. unfold nextActiveUser. rewrite Hi, (co_direction _ Hc).
  cbn [negb]. pose proof (playerIndex_Some _ _ _ Hi) as (p & Hp & _). apply lookup_lt_Some in Hp.
  assert (Hex : exists j q, Players s !! j = Some q /\ activeOf q = true).
  { unfold activeCount, countb in Hcnt. destruct (List.filter activeOf (Players s)) as [|q rest] eqn:E; [cbn in Hcnt; lia|].
    assert (Hq : List.In q (List.filter activeOf (Players s))) by (rewrite E; by left).
    apply filter_In in Hq as [Hq Ha]. apply list_elem_of_In, list_elem_of_lookup_1 in Hq as [j Hj]. eauto. }
  destruct Hex as (j & q & Hj & Ha).
  destruct (traversal_reaches i (Direction s) (length (Players s)) j) as (k & Hk & Hkj & _);
    [done|by eapply lookup_lt_Some|]. unfold stepOf in Hkj.
  destruct (firstActive _ _) as [v|] eqn:Ef.
  - exists v. split; [done|]. apply firstActive_Some in Ef as (l & Hl & Hal & Hul).
    apply list_elem_of_fmap in Hl as (o & -> & _).
    apply (isActive_iff _ _ (core_users _ Hc)). eexists. split_and!; [|exact Hul|exact Hal].
    eapply list_elem_of_lookup_2, list_lookup_lookup_total_lt. apply traversal_bound. lia.
  - pose proof (firstActive_None _ _ Ef j) as Hno. rewrite (list_lookup_total_correct _ _ _ Hj), Ha in Hno.
    discriminate Hno. apply list_elem_of_fmap. exists k. split; [done|]. apply elem_of_seq. lia.
Qed.

(** With two active players the successor of an active one is another. *)
Lemma nextActiveUser789_other s u v :
  Core s -> activePlayer s u = true -> (2 <= activeCount (Players s))%nat ->
  nextActiveUser s u = Ok v -> v <> u.
Proof.
  intros Hc Ha Hcnt H. unfold nextActiveUser in H. unfold activePlayer, isActive in Ha.
  destruct (playerIndex (Players s) u) as [i|] eqn:Ei; [|done].
  pose proof (playerIndex_Some _ _ _ Ei) as (p & Hp & Hu & Htot). rewrite Htot in Ha.
  rewrite (co_direction _ Hc) in H. cbn [negb] in H. destruct (firstActive _ _) as [w|] eqn:Ef; [|done].
  injection H as ->. destruct (firstActive_seq (Players s) _ _ _ _ Ef) as (k & Hk & Hku & Hka & Hskip).
  destruct (activeCount_other _ _ _ Hp Ha Hcnt) as (j & q & Hne & Hj & Hq).
  pose proof (lookup_lt_Some _ _ _ Hp) as Hil. pose proof (lookup_lt_Some _ _ _ Hj) as Hjl.
  destruct (traversal_reaches i (Direction s) (length (Players s)) j Hil Hjl) as (k' & Hk' & Hkj & Hlt).
  unfold stepOf in Hkj. specialize (Hlt Hne).
  assert (Hkk : (k <= k')%nat).
  { destruct (decide (k <= k')%nat); [done|]. assert (Hbad := Hskip k' ltac:(lia)).
    rewrite Hkj, (list_lookup_total_correct _ _ _ Hj), Hq in Hbad. done. }
  assert (Hret := traversal_return i (Direction s) (length (Players s)) k Hil ltac:(lia)). unfold stepOf in Hret.
  intros ->. apply Hret. rewrite <- Hu in Hku.
  eapply (NoDup_lookup _ _ _ (userOf p) (core_users _ Hc)); rewrite list_lookup_fmap.
  - rewrite list_lookup_lookup_total_lt by (apply traversal_bound; lia). exact (f_equal Some Hku).
  - by rewrite Hp.
Qed.

(** ** Progress of timers *)

(** Integer room left in a session: the turn counter, the clock and the
    penalties (a pool holds at most 384 ticks). *)
Record Room (s : State) (now : Z) : Prop := {
  rm_turn : Turn s < maxUint32;
  rm_now : 0 < now;
  rm_clock : headroom now;
  rm_penalties : Forall (fun p => p_PenaltyTicks p <= maxUint32 - 384) (Players s);
}.

Lemma finishTurn_total x source nextActor now :
  Core x -> Turn x < maxUint32 -> 0 < now -> headroom now ->
  activePlayer x nextActor = true \/
    nextActor = ""%string /\ frozenUser (Players x) source /\ (1 <= activeCount (Players x))%nat ->
  exists s' es, finishTurn x source nextActor now = Ok (s', es).
Proof.
  intros Hc Ht Hn Hh Hnext. unfold finishTurn.
  assert (Hact : exists v, (if String.eqb nextActor "" then nextActiveUser x source else Ok nextActor) = Ok v /\
            activePlayer x v = true).
  { destruct Hnext as [Ha|(-> & Hf & Hcnt)]; [|by apply nextActiveUser_total].
    exists nextActor. rewrite eqb_ne; [done|]. eapply core_nonempty; [done|by apply core_active]. }
  destruct Hact as (v & -> & Ha). cbn [bind_result]. replace (Turn x =? maxUint32) with false by lia.
  rewrite Clone789_id. cbv zeta. unfold startTurn.
  match goal with |- context [activePlayer ?y v] => change (activePlayer y v) with (activePlayer x v) end.
  rewrite Ha. unfold validUnixMillis. replace (0 <? now) with true by lia. cbn [negb orb config update].
  rewrite deadline_total; [cbn; eauto|done|done|]. apply (cb_timeout _ (co_bounds _ Hc)).
Qed.

Lemma drink_total x target amount :
  Core x -> activePlayer x target = true -> 0 <= amount <= TotalPoolTicks x ->
  Forall (fun p => p_PenaltyTicks p <= maxUint32 - 384) (Players x) ->
  exists y z, addPenalty x target amount = Ok y /\ setPoolTotal y (TotalPoolTicks x - amount) = Ok z /\
    Drunk x z target amount.
Proof.
  intros Hc Ha Hamt Hpen. pose proof (core_capacity _ Hc) as Hcap.
  assert (Hy : exists y, addPenalty x target amount = Ok y /\ config y = config x).
  { unfold activePlayer, isActive in Ha. unfold addPenalty.
    destruct (playerIndex (Players x) target) as [i|] eqn:Ei; [|done].
    pose proof (playerIndex_Some _ _ _ Ei) as (p & Hp & _ & Htot). rewrite Htot in *.
    change (activeOf p) with (p_Active p) in Ha. rewrite Ha. cbn [negb].
    pose proof (Forall_lookup_1 _ _ _ _ (co_players _ Hc) Hp) as [_ Hu32].
    pose proof (Forall_lookup_1 _ _ _ _ Hpen Hp) as Hroom. cbn in Hroom.
    rewrite Dice.Ticks_Add_total; [|done|unfold is_u32, maxUint32; lia].
    replace (maxUint32 <? _) with false by lia. eauto. }
  destruct Hy as (y & Hy & Hcfg).
  destruct (poolFromTotal_exists (config x) (TotalPoolTicks x - amount) (co_bounds _ Hc)) as [pool Hpool]; [lia|].
  assert (Hz : setPoolTotal y (TotalPoolTicks x - amount)
               = Ok (y <| Pool := pool |> <| TotalPoolTicks := TotalPoolTicks x - amount |>)).
  { unfold setPoolTotal. by rewrite Hcfg, Hpool. }
  eexists _, _. split_and!; [exact Hy|exact Hz|]. by eapply drink_inv.
Qed.

Lemma applyDrink_total x target amount reason events :
  Core x -> activePlayer x target = true -> 0 <= amount <= TotalPoolTicks x ->
  Forall (fun p => p_PenaltyTicks p <= maxUint32 - 384) (Players x) ->
  exists y es, applyDrink x target amount reason events = Ok (y, es) /\ Drunk x y target amount.
Proof.
  intros Hc Ha Hamt Hpen. destruct (drink_total x target amount Hc Ha Hamt Hpen) as (y & z & Hy & Hz & Hd).
  unfold applyDrink. rewrite Clone789_id. cbv zeta. replace (TotalPoolTicks x <? amount) with false by lia.
  rewrite Hy. cbn [bind_result]. pose proof (core_capacity _ Hc).
  rewrite u32_small by (unfold is_u32, maxUint32; lia). rewrite Hz. cbn [bind_result]. eauto.
Qed.

Lemma Drunk_facts x y target amount :
  Drunk x y target amount -> Turn y = Turn x /\ config y = config x /\ SourceUserID y = SourceUserID x.
Proof. intros Hd. by destruct (dr_shape _ _ _ _ Hd) as (players & pool & ->). Qed.

Lemma applyDrinkAndContinue_total x target amount reason events now :
  Live x -> activePlayer x target = true -> 0 <= amount <= TotalPoolTicks x -> Room x now ->
  exists s' es, applyDrinkAndContinue x target amount reason events now = Ok (s', es).
Proof.
  intros Hl Ha Hamt [_ Hn Hh Hpen].
  destruct (applyDrink_total x target amount reason events (lv_core _ Hl) Ha Hamt Hpen) as (y & es & Hy & Hd).
  unfold applyDrinkAndContinue. rewrite Hy. cbn [bind_result]. cbv zeta. cbn [config update].
  destruct (Drunk_facts _ _ _ _ Hd) as (_ & Hcfg & _). rewrite Hcfg.
  rewrite deadline_total; [cbn; eauto|done|done|]. apply (cb_timeout _ (co_bounds _ (lv_core _ Hl))).
Qed.

Lemma settleLanded_total x source nextActor now events :
  (exists s' es, finishTurn x source nextActor now = Ok (s', es)) ->
  exists s' es, settleLanded x source nextActor now events = Ok (s', es).
Proof. intros (s' & es & H). unfold settleLanded. rewrite H. cbn. eauto. Qed.

Lemma applyLanded_total s now cause :
  Live s -> Phase s = PhaseResultPending -> Room s now ->
  exists s' es, applyLanded s now cause = Ok (s', es).
Proof.
  intros Hl Hp Hroom. pose proof (lv_core _ Hl) as Hc. pose proof Hroom as [Ht Hn Hh Hpen].
  destruct (live_at_pending s (co_bounds _ Hc) (lv_phase _ Hl) Hp) as ((_ & Hsrc & _) & Hcur & _ & Hval & _).
  pose proof (core_capacity _ Hc) as Hcap. pose proof (co_total _ Hc) as Htot.
  assert (Hcnt : (1 <= activeCount (Players s))%nat) by (pose proof (lv_active _ Hl); unfold MinimumPlayers in *; lia).
  assert (Hfro : frozenUser (Players s) (SourceUserID s)) by by apply core_active.
  assert (Hhalf : 0 <= Dice.HalfCeil (TotalPoolTicks s) <= TotalPoolTicks s) by (apply HalfCeil_range; lia).
  unfold applyLanded. rewrite Clone789_id, Hp, Hval. cbn [negb orb Z.eqb Pos.eqb PhaseResultPending].
  rewrite (same_current s Hcur). cbv zeta.
  destruct (validRollResult_cases _ Hval) as [Hr|[Hr|[Hr|[Hr|[Hr|[Hr|[Hr|Hr]]]]]]]; rewrite Hr; cbn [String.eqb Ascii.eqb Bool.eqb orb
      ResultSeven ResultEight ResultNine ResultDoubleOne ResultDoubleFour ResultDoubleSix ResultOrdinaryPair ResultOther].
  - destruct (TotalPoolTicks s =? _); eauto.
  - by apply applyDrinkAndContinue_total.
  - apply applyDrinkAndContinue_total; [done|done|lia|done].
  - eauto.
  - match goal with |- context [applyDrink s ?t ?a ?r ?e] =>
      destruct (applyDrink_total s t a r e Hc Hsrc Hhalf Hpen) as (y & es & Hy & Hd) end.
    rewrite Hy. cbn [bind_result]. apply settleLanded_total.
    destruct (Drunk_facts _ _ _ _ Hd) as (Hty & _ & _).
    apply finishTurn_total; [apply Core_settle, Hd|by cbn; rewrite Hty|done|done|left].
    pose proof (dr_active _ _ _ _ Hd (SourceUserID s)) as Ha. by rewrite Hsrc in Ha.
  - eauto.
  - assert (Hfin : forall x nextActor, Core x -> Players x = Players s -> Turn x = Turn s ->
        nextActor = SourceUserID s \/ nextActor = ""%string ->
        exists s' es, finishTurn x (SourceUserID s) nextActor now = Ok (s', es)).
    { intros x nextActor Hcx Hpx Htx Hna. apply finishTurn_total; [done|by rewrite Htx|done|done|].
      unfold activePlayer. rewrite Hpx. destruct Hna as [-> | ->]; [by left|by right]. }
    destruct (3 <=? _)%nat; apply settleLanded_total, Hfin; try done;
      try (destruct (activeCount _ =? 2)%nat; by auto); apply Core_settle; [|done].
    destruct Hc. split; try done. cbn. unfold reverseDirection. by destruct (_ =? _).
  - apply settleLanded_total, finishTurn_total; try done; [by apply Core_settle|by right].
Qed.

Lemma validateActor_timer s phase now :
  Live s -> Phase s = phase -> 0 < now -> validateActor s (CurrentUserID s) phase now true = Ok tt.
Proof.
  intros Hl Hp Hn. unfold validateActor. rewrite (Good_Validate s) by by left. cbn [bind_result].
  pose proof (LivePhase_phase _ (lv_phase _ Hl)) as Hph.
  replace (Phase s =? PhaseFinished) with false by (unfold PhaseFinished; lia).
  rewrite Hp, Z.eqb_refl, String.eqb_refl, (LivePhase_current _ (lv_phase _ Hl)). unfold validUnixMillis.
  by replace (0 <? now) with true by lia.
Qed.

Lemma minimumAddAmount_legal s :
  Core s -> validateAddAmount s (minimumAddAmount s) = Ok tt /\
  0 <= minimumAddAmount s <= capacityOf (config s) - TotalPoolTicks s.
Proof.
  intros Hc. unfold validateAddAmount, minimumAddAmount. cbv zeta. rewrite (remaining_exact s Hc).
  pose proof (core_capacity _ Hc) as Hcap. pose proof (cb_step _ (co_bounds _ Hc)) as Hst.
  set (rest := capacityOf (config s) - TotalPoolTicks s) in *. set (st := c_AddStepTicks (config s)) in *.
  destruct (rest =? 0) eqn:E0; to_prop; [rewrite E0; split; [done|lia]|].
  destruct (rest <? st) eqn:E1; to_prop.
  - rewrite Z.ltb_irrefl, Z.eqb_refl. split; [done|lia].
  - replace (rest <? st) with false by lia. rewrite Z.mod_same by lia. replace (0 <? st) with true by lia.
    split; [by rewrite orb_true_r|lia].
Qed.

(** The timeout of an add always finds a legal amount: the minimum add of a
    reachable session is accepted by the add rules, and it is the amount the
    shared [NextAddAmount] computes from the capacity and the configured step. *)
Theorem minimum_add_accepted s :
  reachable s ->
  validateAddAmount s (minimumAddAmount s) = Ok tt /\
  Dice.NextAddAmount (mustCapacity (config s)) (TotalPoolTicks s) (c_AddStepTicks (config s))
    = Ok (minimumAddAmount s).
Proof.
  intros Hc%reachable_Core. split; [by apply minimumAddAmount_legal|]. unfold Dice.NextAddAmount, Dice.Remaining, minimumAddAmount. cbv zeta.
  rewrite (remaining_exact s Hc), (mustCapacity_bounds _ (co_bounds _ Hc)).
  pose proof (core_capacity _ Hc) as Hcap. pose proof (cb_step _ (co_bounds _ Hc)) as Hst.
  pose proof (co_total _ Hc) as Htot.
  replace (c_AddStepTicks (config s) =? 0) with false by lia.
  replace (capacityOf (config s) <? TotalPoolTicks s) with false by lia. cbn [bind_result].
  destruct (_ =? 0); [done|]. by destruct (_ <? _).
Qed.

Lemma minimum_add_accepted_witness :
  validateAddAmount demo789_add (minimumAddAmount demo789_add) = Ok tt /\ minimumAddAmount demo789_add = 1.
Proof.
  split; [|vm_compute; reflexivity]. apply (minimum_add_accepted demo789_add demo789_add_reachable).
Defined.

Section TimerProgress.
Context (s : State) (now : Z).
Hypothesis (Hlive : Live s) (Hroom : Room s now).

Lemma active_enough : (1 <= activeCount (Players s))%nat.
Proof. pose proof (lv_active _ Hlive). unfold MinimumPlayers in *. lia. Qed.

Lemma timer_add :
  Phase s = PhaseAwaitingAdd ->
  exists s' es, addToPool s (CurrentUserID s) (minimumAddAmount s) now true = Ok (s', es).
Proof.
  intros Hp. pose proof (lv_core _ Hlive) as Hc. destruct Hroom as [Ht Hn Hh _].
  destruct (live_at_add _ (lv_phase _ Hlive) Hp) as ((_ & Hsrc & _) & _ & Hwho).
  destruct (minimumAddAmount_legal s Hc) as [Hok Hle].
  pose proof (core_capacity _ Hc) as Hcap. pose proof (co_total _ Hc) as Htot.
  unfold addToPool. rewrite validateActor_timer, Hok by done. cbn [bind_result]. rewrite Clone789_id. cbv zeta.
  rewrite u32_small by (unfold is_u32, maxUint32; lia).
  destruct (poolFromTotal_exists (config s) (TotalPoolTicks s + minimumAddAmount s) (co_bounds _ Hc)) as [pool Hpool]; [lia|].
  unfold setPoolTotal. rewrite Hpool. cbn [bind_result].
  destruct (String.eqb (PendingResult s) ResultDoubleSix).
  - match goal with |- context [finishTurn ?x ?a ?b ?c] => destruct (finishTurn_total x a b c) as (s1 & ev & ->) end;
      [|done|done|done|right; split_and!; [done|by apply core_active|apply active_enough]|cbn; eauto].
    apply Core_settle. destruct (co_turn _ Hc). eapply (Core_frame s); try done; try apply Hc. cbn. lia.
  - cbn [config update]. rewrite deadline_total; [cbn; eauto|done|done|]. apply (cb_timeout _ (co_bounds _ Hc)).
Qed.

Lemma timer_target :
  Phase s = PhaseAwaitingTarget ->
  exists s' es, (let* target := nextActiveUser s (SourceUserID s) in
                 chooseTarget s (SourceUserID s) target now true) = Ok (s', es).
Proof.
  intros Hp. pose proof (lv_core _ Hlive) as Hc. destruct Hroom as [Ht Hn Hh Hpen].
  destruct (live_at_target _ (lv_phase _ Hlive) Hp) as ((_ & Hsrc & _) & Hcur & _ & _ & _).
  destruct (nextActiveUser_total s (SourceUserID s) Hc (core_active _ _ Hsrc) active_enough) as (u & Hu & Hau).
  assert (Hne : u <> SourceUserID s) by (eapply nextActiveUser789_other; [done|done|apply (lv_active _ Hlive)|done]).
  assert (Hnu : u <> ""%string) by (eapply core_nonempty; [done|by apply core_active]).
  rewrite Hu. cbn [bind_result]. unfold chooseTarget. rewrite <- Hcur in *. rewrite validateActor_timer by done.
  cbn [bind_result]. rewrite (eqb_ne _ _ Hnu), (eqb_ne _ _ Hne), Hau. cbn [orb negb]. rewrite Clone789_id. cbv zeta.
  destruct (String.eqb (PendingResult s) ResultDoubleOne).
  - set (x := s <| TargetUserID := u |>). pose proof (co_total _ Hc).
    assert (Hcx : Core x) by (destruct Hc; by split).
    destruct (drink_total x u (TotalPoolTicks s) Hcx Hau) as (y & z & Hy & Hz & Hd); [cbn; lia|done|].
    change (TotalPoolTicks x) with (TotalPoolTicks s) in *. rewrite Hy. cbn [bind_result].
    rewrite Z.sub_diag in Hz. rewrite Hz. cbn [bind_result]. destruct (Drunk_facts _ _ _ _ Hd) as (Hty & _ & _).
    match goal with |- context [finishTurn ?x ?a ?b ?c] => destruct (finishTurn_total x a b c) as (s1 & ev & ->) end;
      [apply Core_settle, Hd|by cbn; rewrite Hty|done|done| |cbn; eauto].
    left. pose proof (dr_active _ _ _ _ Hd u) as Ha. change (activePlayer x u) with (activePlayer s u) in Ha.
    by rewrite Hau in Ha.
  - cbn [config update]. rewrite deadline_total; [cbn; eauto|done|done|]. apply (cb_timeout _ (co_bounds _ Hc)).
Qed.

Lemma timer_continue :
  Phase s = PhaseAwaitingContinue ->
  exists s' es, continueTurn s (SourceUserID s) (c_ContinueMode (config s) =? ContinueForcedReroll) now true = Ok (s', es).
Proof.
  intros Hp. pose proof (lv_core _ Hlive) as Hc. destruct Hroom as [Ht Hn Hh _].
  destruct (live_at_continue _ (lv_phase _ Hlive) Hp) as ((_ & Hsrc & _) & Hcur & _ & _).
  unfold continueTurn. rewrite <- Hcur in *. rewrite validateActor_timer by done. cbn [bind_result].
  unfold ContinueForcedReroll, ContinueForcedPass. cbv zeta. rewrite Clone789_id.
  assert (Hmode : (c_ContinueMode (config s) =? 2) && (c_ContinueMode (config s) =? 3)
           || negb (c_ContinueMode (config s) =? 2) && (c_ContinueMode (config s) =? 2) = false) by lia.
  rewrite Hmode. apply finishTurn_total; [by apply Core_settle|done|done|done|].
  destruct (_ =? 2); [by left|right]. split_and!; [done|by apply core_active|apply active_enough].
Qed.

Lemma timer_roll :
  exists s' es, finishTurn (let x := s <| SourceUserID := CurrentUserID s |> <| PendingResult := ResultRollTimeout |>
             <| PendingPoolBeforeTicks := TotalPoolTicks s |> <| PendingDirectionBefore := Direction s |> in
        x <| LastSettlement := settlementFromState x ResultRollTimeout "" "roll_timeout" |>)
       (CurrentUserID s) "" now = Ok (s', es).
Proof.
  destruct Hroom as [Ht Hn Hh _]. apply finishTurn_total; [|done|done|done|].
  - apply Core_settle. destruct (lv_core _ Hlive). by split.
  - right. split_and!; [done| |exact active_enough].
    exact (core_active s _ (LivePhase_current _ (lv_phase _ Hlive))).
Qed.
End TimerProgress.

(** A due timer cannot get stuck: in every reachable session with a running
    timer, whatever its phase, delivering exactly that timer at or after its
    deadline is accepted and applies the deterministic fallback, as long as the
    turn counter, the penalties and the clock have room. *)
Theorem due_timer789_settles s timer now :
  reachable s -> CurrentTimer s = Some timer -> t_DeadlineUnixMillis timer <= now -> Room s now ->
  exists s' es, HandleTimeout s timer now = Ok (s', es).
Proof.
  intros Hg%reachable_valid Hc Hdue Hroom. unfold CurrentTimer in Hc.
  destruct (_ || _) eqn:E; [done|]. injection Hc as <-. cbn [t_DeadlineUnixMillis] in Hdue.
  apply orb_false_elim in E as [E Ed]. apply orb_false_elim in E as [Ef _].
  destruct Hg as [[Hl|Hd]|Hs]; [|by rewrite (dn_phase _ Hd) in Ef|by rewrite (sk_deadline _ Hs) in Ed]. pose proof Hroom as [_ Hn _ _].
  unfold HandleTimeout. rewrite (Good_Validate s) by by left. cbn [bind_result]. rewrite Ef.
  assert (Hm : timerMatches s (mkTimer (Turn s) (Phase s) (CurrentUserID s) (SourceUserID s) (TargetUserID s)
                 (PendingResult s) (ActionDeadlineUnixMillis s)) = true).
  { unfold timerMatches. cbn. by rewrite !Z.eqb_refl, !String.eqb_refl, Ed. }
  rewrite Hm. unfold validUnixMillis. replace (0 <? now) with true by lia.
  replace (now <? _) with false by lia. cbn [negb orb]. rewrite Clone789_id. cbv zeta.
  destruct (lv_phase _ Hl) as [Hp|Hp|Hp|Hp|Hp|Hp]; rewrite Hp;
    cbn [Z.eqb Pos.eqb PhaseAwaitingRoll PhaseResultPending PhaseAwaitingAdd PhaseAwaitingTarget PhaseAwaitingContinue].
  - by apply timer_roll.
  - by apply applyLanded_total.
  - by apply timer_add.
  - by apply timer_add.
  - by apply timer_target.
  - by apply timer_continue.
Qed.

Lemma due_timer789_settles_witness :
  exists s' es, HandleTimeout demo789_add (mkTimer 1 3 "bob" "bob" "" "seven" 33000) 33000 = Ok (s', es).
Proof.
  apply (due_timer789_settles demo789_add _ 33000 demo789_add_reachable).
  - vm_compute. reflexivity.
  - cbn. lia.
  - split; [vm_compute; reflexivity|lia|vm_compute; discriminate|]. repeat constructor; vm_compute; discriminate.
Defined.

(** ** Stale timers *)
Definition moved (s s' : State) : Prop := Turn s' <> Turn s \/ Phase s' <> Phase s.

Lemma finishTurn_moved s x source nextActor now s' es :
  Core s -> Turn x = Turn s -> finishTurn x source nextActor now = Ok (s', es) -> moved s s'.
Proof.
  intros Hc Ht (next & d & _ & Hmax & _ & _ & _ & ->)%finishTurn_inv. left. cbn. rewrite Ht in *.
  rewrite u32_succ; [lia|apply (co_turn _ Hc)|done].
Qed.

Lemma applyLanded_moved s now cause s' es :
  Live s -> Phase s = PhaseResultPending -> applyLanded s now cause = Ok (s', es) -> moved s s'.
Proof.
  intros Hl Hp. pose proof (lv_core _ Hl) as Hc.
  destruct (live_at_pending s (co_bounds _ Hc) (lv_phase _ Hl) Hp) as (_ & Hcur & _ & Hval & _).
  assert (Hset : forall x nextActor events s'' es'', Turn x = Turn s ->
    settleLanded x (SourceUserID s) nextActor now events = Ok (s'', es'') -> moved s s'').
  { intros x na ev s'' es'' Ht (es0 & Hf)%settleLanded_inv. by eapply finishTurn_moved. }
  assert (Hcont : forall a r ev s'' es'',
    applyDrinkAndContinue s (SourceUserID s) a r ev now = Ok (s'', es'') -> moved s s'').
  { intros a r ev s'' es'' H. unfold applyDrinkAndContinue in H.
    destruct (applyDrink _ _ _ _ _) as [[y e]|]; cbn [bind_result] in H; [|done].
    cbv zeta in H. inv_result H. injection H as <- _. right. by rewrite Hp. }
  unfold applyLanded. rewrite Clone789_id, Hp, Hval. cbn [negb orb Z.eqb Pos.eqb PhaseResultPending].
  rewrite (same_current s Hcur). cbv zeta.
  destruct (validRollResult_cases _ Hval) as [Hr|[Hr|[Hr|[Hr|[Hr|[Hr|[Hr|Hr]]]]]]]; rewrite Hr; cbn [String.eqb Ascii.eqb Bool.eqb orb
      ResultSeven ResultEight ResultNine ResultDoubleOne ResultDoubleFour ResultDoubleSix ResultOrdinaryPair ResultOther].
  - destruct (TotalPoolTicks s =? _); intros H; injection H as <- _; right; by rewrite Hp.
  - apply Hcont.
  - apply Hcont.
  - intros H; injection H as <- _. right. by rewrite Hp.
  - intros H. unfold applyDrink in H. by_value H.
    destruct (addPenalty _ _ _) as [y|] eqn:E1; cbn [bind_result] in H; [|done].
    destruct (setPoolTotal _ _) as [z|] eqn:E2; cbn [bind_result] in H; [|done].
    eapply Hset; [|exact H]. cbn. unfold setPoolTotal in E2. inv_result E2. injection E2 as <-. cbn.
    unfold addPenalty in E1. destruct (playerIndex _ _); [|done]. inv_result E1.
    destruct (Dice.Ticks_Add _ _); [|done]. by injection E1 as <-.
  - intros H; injection H as <- _. right. by rewrite Hp.
  - destruct (3 <=? _)%nat; by apply Hset.
  - by apply Hset.
Qed.

Lemma addToPool_moved s actor amount now timer s' es :
  Good s -> 0 <= amount -> addToPool s actor amount now timer = Ok (s', es) -> moved s s'.
Proof.
  intros Hg Ha (Hl & Hp & _ & _ & pool & y & Hy & _ & Hcase)%addToPool_inv; [|done|done].
  destruct Hcase as [(_ & es0 & H)|(_ & d & _ & ->)]; [|right; by rewrite Hp].
  eapply finishTurn_moved; [apply Hl| |exact H]. by rewrite Hy.
Qed.

Lemma chooseTarget_moved s actor target now timer s' es :
  Good s -> chooseTarget s actor target now timer = Ok (s', es) -> moved s s'.
Proof.
  intros Hg (Hl & Hp & _ & _ & _ & _ & _ & [(_ & z & es0 & Hd & H)|(_ & d & _ & ->)])%chooseTarget_inv; [| |done].
  - eapply finishTurn_moved; [apply Hl| |exact H]. cbn. by destruct (Drunk_facts _ _ _ _ Hd) as (-> & _).
  - right. by rewrite Hp.
Qed.

Lemma continueTurn_moved s actor reroll now timer s' es :
  Good s -> continueTurn s actor reroll now timer = Ok (s', es) -> moved s s'.
Proof.
  intros Hg (Hl & _ & _ & reason & _ & H)%continueTurn_inv; [|done].
  eapply finishTurn_moved; [apply Hl| |exact H]. done.
Qed.

Lemma HandleTimeout_moved s timer now s' es :
  Good s -> HandleTimeout s timer now = Ok (s', es) -> moved s s'.
Proof.
  intros Hg (Hl & _ & _ & _ & Hcases)%HandleTimeout789_inv; [|done].
  destruct Hcases as [(Hp & H)|[(Hp & H)|[(Hp & H)|[(Hp & target & H)|(Hp & reroll & H)]]]].
  - eapply finishTurn_moved; [apply Hl| |exact H]. done.
  - by eapply applyLanded_moved.
  - eapply addToPool_moved; [done| |exact H]. apply minimumAddAmount_nonneg, Hl.
  - by eapply chooseTarget_moved.
  - by eapply continueTurn_moved.
Qed.

(** The inputs that act on the current turn. *)
Definition actsOnTurn (i : Input) : bool :=
  match i with InRevoke _ _ | InFinish _ => false | _ => true end.

Lemma step_moved s i s' es :
  Good s -> TypedInput i -> actsOnTurn i = true -> step s i = Ok (s', es) -> (Live s' \/ Stuck s') /\ moved s s'.
Proof.
  intros Hg Hi Ha H. destruct i; cbn [step TypedInput actsOnTurn] in *; try done.
  - split; [left; by eapply Roll_Live|]. unfold Roll in H. inv_result H. destruct value.
    apply validateActor_inv in E as (_ & Hp & _); [|done]. destruct (Dice.Roll _ _ _) as [faces|]; [|done].
    unfold applyRoll in H. inv_result H. inv_result H. cbv zeta in H. inv_result H. inv_result H.
    injection H as <- _. right. by rewrite Hp.
  - split; [apply ConfirmLanded_kept in H as [[?|(_ & _ & ?)] _]; by eauto|]. unfold ConfirmLanded in H. inv_result H. destruct value.
    apply validateHost_inv in E as (Hl & Hp & _); [|done]. by eapply applyLanded_moved.
  - split; [left; by eapply ReportDropped_Live|]. unfold ReportDropped in H. inv_result H. destruct value.
    apply validateHost_inv in E as (Hl & Hp & _ & _ & Hn); [|done]. inv_result H. rewrite Clone789_id in H.
    cbv zeta in H. inv_result H. inv_result H.
    destruct (finishTurn _ _ _ _) as [[s1 ev]|] eqn:Ef; cbn [bind_result] in H; [|done]. injection H as <- _.
    pose proof (co_total _ (lv_core _ Hl)). eapply finishTurn_moved; [apply Hl| |exact Ef]. cbn.
    assert (Hd : Drunk s value0 (SourceUserID s) (TotalPoolTicks s))
      by (eapply drink_inv; [apply Hl|lia| |eassumption|eassumption]; lia).
    by destruct (Drunk_facts _ _ _ _ Hd) as (-> & _).
  - destruct Hi as [Hi _]. split; [left; by eapply addToPool_Live|by eapply addToPool_moved].
  - split; [left; by eapply chooseTarget_Live|by eapply chooseTarget_moved].
  - split; [left; by eapply continueTurn_Live|by eapply continueTurn_moved].
  - split; [left; by eapply continueTurn_Live|by eapply continueTurn_moved].
  - split; [|by eapply HandleTimeout_moved]. apply HandleTimeout_kept in H as [[?|(_ & _ & ?)] _]; by eauto.
Qed.

(** Timers are single-use: after any accepted roll, confirmation, drop,
    add, target, continuation or timeout that leaves a valid snapshot, the timer
    of the previous step is rejected as a mismatch, so no step is ever resolved
    twice. *)
Theorem stale_timer789_rejected s i s' es timer now :
  reachable s -> TypedInput i -> actsOnTurn i = true -> step s i = Ok (s', es) ->
  Validate s' = Ok tt -> CurrentTimer s = Some timer ->
  HandleTimeout s' timer now = ruleError CodeTimerMismatch "timer does not match current pending effect".
Proof.
  intros Hr Hi Ha H Hv Hc. pose proof (reachable_Good _ _ _ _ Hr H) as Hg.
  destruct (step_moved s i s' es Hg Hi Ha H) as [[Hl|Hs%Stuck_invalid] Hm]; [|by rewrite Hv in Hs].
  unfold CurrentTimer in Hc. destruct (_ || _); [done|]. injection Hc as <-.
  unfold HandleTimeout. rewrite (Good_Validate s') by by left. cbn [bind_result].
  pose proof (LivePhase_phase _ (lv_phase _ Hl)).
  replace (Phase s' =? PhaseFinished) with false by (unfold PhaseFinished; lia).
  replace (timerMatches s' _) with false; [done|]. symmetry. unfold timerMatches. cbn.
  destruct Hm as [Hm|Hm].
  - by replace (Turn s =? Turn s') with false by lia.
  - replace (Phase s =? Phase s') with false by lia. by rewrite andb_false_r.
Qed.

Lemma stale_timer789_rejected_witness :
  HandleTimeout demo789_add (mkTimer 1 2 "bob" "bob" "" "seven" 7000) 99000 =
    ruleError CodeTimerMismatch "timer does not match current pending effect".
Proof.
  apply (stale_timer789_rejected demo789_rolled (InConfirmLanded "bob" 3000) demo789_add
           (eventsOf (ConfirmLanded demo789_rolled "bob" 3000)) _ 99000 demo789_rolled_reachable).
  - exact I.
  - reflexivity.
  - vm_compute. reflexivity.
  - vm_compute. reflexivity.
  - vm_compute. reflexivity.
Defined.

(** ** Classification *)

(** Classifying a roll is total on faces, always yields a landable result
    and does not depend on the order of the two dice; values outside 1..6 are
    refused. *)
Theorem ClassifyRoll_total cfg a b :
  match ClassifyRoll cfg a b with
  | Ok r => 1 <= a <= 6 /\ 1 <= b <= 6 /\ validRollResult r = true /\ ClassifyRoll cfg b a = Ok r
  | Err e => Code e = CodeInvalidAction /\ (a < 1 \/ 6 < a \/ b < 1 \/ 6 < b)
  end.
Proof.
  unfold ClassifyRoll. destruct (_ || _) eqn:E.
  - split; [done|]. bool_cases; lia.
  - to_prop. split_and!; [lia|lia|lia|lia|apply selectResult_valid|].
    replace (_ || _) with false by lia. rewrite (Z.add_comm b a). unfold selectResult. cbv zeta.
    rewrite (Z.eqb_sym b a). destruct (a =? b) eqn:Eab; [|done]. to_prop. by subst b.
Qed.

(** ** The ignored overflow of landed deadlines *)
Definition overflow_rolled : State :=
  Eval vm_compute in
    stateOf (Roll (stateOf (NewState (DefaultConfig true) demo789_participants "bob" 4 (maxInt64 - 31000) demo789_seed))
               "bob" (maxInt64 - 8000) demo789_seed).

(** [applyLanded] discards the overflow error of [deadlineUnixMillis] where
    every other operation returns it: near the end of the [int64] clock a
    confirmation is accepted but returns a snapshot with a zero deadline that
    the engine's own [Validate] rejects, so the session cannot continue. *)
Theorem landed_deadline_overflow :
  Validate overflow_rolled = Ok tt /\
  exists s' es, ConfirmLanded overflow_rolled "bob" (maxInt64 - 7000) = Ok (s', es) /\
    ActionDeadlineUnixMillis s' = 0 /\ is_ok (Validate s') = false /\
    deadlineUnixMillis (maxInt64 - 7000) (c_ActionTimeoutSeconds (config s'))
      = ruleError CodeInvalidState "deadline overflows unix milliseconds".
Proof.
  split; [vm_compute; reflexivity|].
  exists (stateOf (ConfirmLanded overflow_rolled "bob" (maxInt64 - 7000))),
    (eventsOf (ConfirmLanded overflow_rolled "bob" (maxInt64 - 7000))).
  split_and!; vm_compute; reflexivity.
Qed.

End Dice789Theorems.
