(* ===== verification/MeetHands.v ===== *)
(** * Meet by chance: configuration and hand ranking

    Model of [games/meet-by-chance/engine] ([errors.go], [config.go],
    [hand.go]).  A [[3]dice.Face] is a [Faces] record, a [RankKey] keeps its
    five-slot array and its length, [HandClass] and [Special235Context] keep
    their [uint8] values because decoded snapshots may hold any of them.  The
    lemmas show the ranking is a total order, that [Classify] picks the best
    legal wildcard interpretation and that the table-wide 235 decision makes
    the special hand extreme. *)

From S2P Require Import Prelude Dice Roster.

Module MeetHands.
Import Roster.

(** ** errors.go *)
Inductive ErrorCode :=
| CodeInvalidConfig | CodeInvalidParticipants | CodeInvalidState | CodeInvalidAction
| CodeWrongPhase | CodeNotCurrentTarget | CodeRerollLimitReached | CodeTimerMismatch
| CodeTimerNotDue | CodeActionExpired | CodeParticipantInactive | CodePenaltyOverflow
| CodeRoundOverflow | CodeSeedInvalid | CodeSessionFinished | CodeMalformedPayload
| CodeUnsupportedMigration | CodeProjectionUnavailable.

#[global] Instance ErrorCode_eq_dec : EqDecision ErrorCode.
Proof. solve_decision. Defined.

Abbreviation res := (result (RuleError ErrorCode)).

Definition ruleError {A : Type} (code : ErrorCode) (detail : string) : res A :=
  Err (mkRuleError code detail).

(** ** config.go *)
Definition CurrentSchemaVersion : Z := 1.
Definition MinimumPlayers : nat := 3.
Definition MaximumPlayers : nat := 12.
Definition DicePerPlayer : Z := 3.
Definition MaximumPenaltyTicks : Z := 16.
Definition RoundHistoryLimit : nat := 32.

Record Config := mkConfig {
  c_Straight123 : bool;
  c_Straight234 : bool;
  c_Straight345 : bool;
  c_Straight456 : bool;
  c_Special235Enabled : bool;
  c_OnesWild : bool;
  c_TargetPenaltyTicks : Z;
  c_RerollPenaltyTicks : Z;
  c_MatchPenaltyTicks : Z;
  c_WeakExtraPenaltyTicks : Z;
  c_TargetRerollLimit : Z;
  c_MatchResolutionLimit : Z;
  c_ActionTimeoutSeconds : Z;
}.

Definition DefaultConfig : Config :=
  mkConfig true true true true true false 2 2 4 2 2 3 30.

Definition Config_Validate (config : Config) (playerCount : nat) : res unit :=
  if (playerCount <? MinimumPlayers)%nat || (MaximumPlayers <? playerCount)%nat
     || negb (c_Straight123 config) || negb (c_Straight456 config)
     || (MaximumPenaltyTicks <? c_TargetPenaltyTicks config)
     || (MaximumPenaltyTicks <? c_RerollPenaltyTicks config)
     || (MaximumPenaltyTicks <? c_MatchPenaltyTicks config)
     || (MaximumPenaltyTicks <? c_WeakExtraPenaltyTicks config)
     || (3 <? c_TargetRerollLimit config) || (8 <? c_MatchResolutionLimit config)
     || negb (c_ActionTimeoutSeconds config =? 0)
        && ((c_ActionTimeoutSeconds config <? 10) || (120 <? c_ActionTimeoutSeconds config))
  then ruleError CodeInvalidConfig "configuration is outside frozen rules"
  else Ok tt.

Definition rosterDetail (fault : RosterFault) : string :=
  match fault with
  | FaultCount => "participant count is unsupported"
  | FaultIdentity => "participant identity is invalid"
  | FaultDuplicateUser => "participant identity is duplicated"
  | FaultDuplicateSeat => "participant seat is duplicated"
  end.

Definition ValidateParticipants (participants : list Participant) : res unit :=
  match checkRoster MinimumPlayers MaximumPlayers participants with
  | Ok _ => Ok tt
  | Err fault => ruleError CodeInvalidParticipants (rosterDetail fault)
  end.

Definition canonicalParticipants (participants : list Participant) : res (list Participant) :=
  let* _ := ValidateParticipants participants in
  Ok (bySeat participants).

(** ** hand.go: data *)
Definition HandSingle : Z := 1.
Definition HandPair : Z := 2.
Definition HandStraight : Z := 3.
Definition HandLeopard : Z := 4.
Definition HandSpecial235 : Z := 5.

Definition Special235None : Z := 0.
Definition Special235Minimum : Z := 1.
Definition Special235BeatsLeopards : Z := 2.

(** [[3]dice.Face]. *)
Record Faces := mkFaces { face0 : Z; face1 : Z; face2 : Z }.

#[global] Instance Faces_eq_dec : EqDecision Faces.
Proof. solve_decision. Defined.

(** The elements, in index order. *)
Definition faceList (faces : Faces) : list Z := [face0 faces; face1 faces; face2 faces].

(** [faces[index] = value]. *)
Definition setFace (faces : Faces) (index : nat) (value : Z) : Faces :=
  match index with
  | 0%nat => mkFaces value (face1 faces) (face2 faces)
  | 1%nat => mkFaces (face0 faces) value (face2 faces)
  | _ => mkFaces (face0 faces) (face1 faces) value
  end.

Record RankKey := mkKey {
  k_Values : list Z;
  k_Length : Z;
}.

#[global] Instance RankKey_eq_dec : EqDecision RankKey.
Proof. solve_decision. Defined.

Record Hand := mkHand {
  Raw : Faces;
  Normalized : Faces;
  Class : Z;
  FullKey : RankKey;
  TieKey : Z * Z;
  WildUsed : bool;
  Special235 : bool;
  SpecialContext : Z;
}.

#[global] Instance Hand_eq_dec : EqDecision Hand.
Proof. solve_decision. Defined.

#[global] Instance Hand_eta : Eta Hand := fun r =>
  mkHand (Raw r) (Normalized r) (Class r) (FullKey r) (TieKey r) (WildUsed r) (Special235 r)
    (SpecialContext r).

(** [RankKey{}] and [Hand{}]. *)
Definition zeroKey : RankKey := mkKey [0; 0; 0; 0; 0] 0.
Definition zeroHand : Hand :=
  mkHand (mkFaces 0 0 0) (mkFaces 0 0 0) 0 zeroKey (0, 0) false false Special235None.

(** ** hand.go: operations *)

(** [copy] fills the five slots and leaves the rest zero. *)
Definition key (values : list Z) : RankKey :=
  mkKey (take 5 (values ++ [0; 0; 0; 0; 0])) (Z.of_nat (length values) mod 256).

Definition sortedFaces (raw : Faces) : Faces :=
  match sort_by (fun face => face) (faceList raw) with
  | [a; b; c] => mkFaces a b c
  | _ => raw
  end.

Definition straightEnabled (faces : Faces) (config : Config) : bool :=
  if bool_decide (faces = mkFaces 1 2 3) then c_Straight123 config
  else if bool_decide (faces = mkFaces 2 3 4) then c_Straight234 config
  else if bool_decide (faces = mkFaces 3 4 5) then c_Straight345 config
  else if bool_decide (faces = mkFaces 4 5 6) then c_Straight456 config
  else false.

Definition classifyOrdinary (raw : Faces) (config : Config) : Hand :=
  let normalized := sortedFaces raw in
  let hand := mkHand raw normalized HandSingle zeroKey (0, 0) false false Special235None in
  if face0 normalized =? face2 normalized then
    hand <| Class := HandLeopard |>
         <| FullKey := key [4; face0 normalized] |>
         <| TieKey := (4, face0 normalized) |>
  else if straightEnabled normalized config then
    hand <| Class := HandStraight |>
         <| FullKey := key [3; face2 normalized] |>
         <| TieKey := (3, face2 normalized) |>
  else if (face0 normalized =? face1 normalized) || (face1 normalized =? face2 normalized) then
    let '(paired, single) :=
      if face0 normalized =? face1 normalized
      then (face0 normalized, face2 normalized)
      else (face1 normalized, face0 normalized) in
    hand <| Class := HandPair |>
         <| FullKey := key [2; paired; single] |>
         <| TieKey := (2, paired) |>
  else
    let high := face2 normalized in
    let middle := face1 normalized in
    let low := face0 normalized in
    hand <| FullKey := key [1; high; middle; low; (high + middle + low) mod 256] |>
         <| TieKey := (1, high) |>.

(** The index loop of [compareKey], [n] indexes from [index] on. *)
Fixpoint compareValues (left right : list Z) (index n : nat) : Z :=
  match n with
  | O => 0
  | S n' =>
      if left !!! index <? right !!! index then -1
      else if right !!! index <? left !!! index then 1
      else compareValues left right (S index) n'
  end.

Definition compareKey (left right : RankKey) : Z :=
  let length := if k_Length right <? k_Length left then k_Length right else k_Length left in
  let comparison := compareValues (k_Values left) (k_Values right) 0 (Z.to_nat length) in
  if negb (comparison =? 0) then comparison
  else if k_Length left <? k_Length right then -1
  else if k_Length right <? k_Length left then 1
  else 0.

Definition CompareHand (left right : Hand) : Z := compareKey (FullKey left) (FullKey right).

Definition ExactMatch (left right : Hand) : bool :=
  bool_decide (Normalized left = Normalized right) && (Class left =? Class right)
  && (compareKey (FullKey left) (FullKey right) =? 0).

(** The loop [for index := 2; index >= 0; index--] of [compareCandidate]. *)
Fixpoint compareDown (left right : list Z) (n : nat) : Z :=
  match n with
  | O => 0
  | S index =>
      if left !!! index <? right !!! index then -1
      else if right !!! index <? left !!! index then 1
      else compareDown left right index
  end.

Definition compareCandidate (left right : Hand) : Z :=
  let comparison := CompareHand left right in
  if negb (comparison =? 0) then comparison
  else compareDown (faceList (Normalized left)) (faceList (Normalized right)) 3.

(** The indexes holding a one. *)
Definition onePositions (raw : Faces) : list nat :=
  List.filter (fun index => faceList raw !!! index =? 1) (seq 0 3).

(** The closure [enumerate] of [Classify]: [candidate] carries the positions
    already replaced (the others still hold their one), [best] is the variable
    the closure updates. *)
Fixpoint enumerate (config : Config) (raw : Faces) (positions : list nat) (candidate : Faces)
    (best : Hand) : Hand :=
  match positions with
  | [] =>
      let classified := (classifyOrdinary candidate config)
                          <| WildUsed := negb (bool_decide (candidate = raw)) |> in
      if 0 <? compareCandidate classified best then classified else best
  | position :: rest =>
      foldl (fun best replacement =>
               enumerate config raw rest (setFace candidate position replacement) best)
            best [1; 2; 3; 4; 5; 6]
  end.

Definition Classify (raw : Faces) (config : Config) : res Hand :=
  if negb (forallb Dice.Face_Valid (faceList raw))
  then ruleError CodeInvalidState "hand contains a non-six-sided face"
  else
    let special := c_Special235Enabled config && bool_decide (sortedFaces raw = mkFaces 2 3 5) in
    let best := classifyOrdinary raw config in
    let best := if c_OnesWild config
                then enumerate config raw (onePositions raw) raw best
                else best in
    let best := best <| Raw := raw |> in
    if special then
      Ok (best <| Class := HandSpecial235 |>
               <| Normalized := mkFaces 2 3 5 |>
               <| Special235 := true |>
               <| SpecialContext := Special235Minimum |>
               <| FullKey := key [0; -1] |>
               <| TieKey := (HandSingle, -1) |>
               <| WildUsed := false |>)
    else Ok best.

(** The inner loop of [Resolve235Context]. *)
Definition allOthersLeopards (hands : list Hand) (index : nat) : bool :=
  forallb (fun other => (other =? index)%nat || (Class (nth other hands zeroHand) =? HandLeopard))
          (seq 0 (length hands)).

Definition resolveIndex (hands : list Hand) (index : nat) : list Hand :=
  let hand := nth index hands zeroHand in
  if negb (Special235 hand) then hands
  else if allOthersLeopards hands index then
    <[index := hand <| SpecialContext := Special235BeatsLeopards |>
                    <| FullKey := key [5; 0] |>
                    <| TieKey := (5, 0) |>]> hands
  else
    <[index := hand <| SpecialContext := Special235Minimum |>
                    <| FullKey := key [0; -1] |>
                    <| TieKey := (HandSingle, -1) |>]> hands.

(** The loop of [Resolve235Context] updates the copy in place. *)
Definition Resolve235Context (hands : list Hand) : list Hand :=
  foldl resolveIndex hands (seq 0 (length hands)).

(** ** The ranking is lexicographic *)

(** The significant values of a key. *)
Definition digits (k : RankKey) : list Z := take (Z.to_nat (k_Length k)) (k_Values k).

(** Keys as the Go array type bounds them. *)
Definition KeyOK (k : RankKey) : Prop := 0 <= k_Length k <= 5 /\ length (k_Values k) = 5%nat.

(** Reference definition: lexicographic comparison, shorter prefixes first. *)
Fixpoint lex (l r : list Z) : Z :=
  match l, r with
  | [], [] => 0
  | [], _ :: _ => -1
  | _ :: _, [] => 1
  | a :: l', b :: r' => if a <? b then -1 else if b <? a then 1 else lex l' r'
  end.

(** Case analysis on the integer comparisons of a goal. *)
Ltac ltb_cases :=
  repeat match goal with
  | H : context [?a <? ?b] |- _ => destruct (Z.ltb_spec a b)
  | |- context [?a <? ?b] => destruct (Z.ltb_spec a b)
  end.

Lemma lex_refl l : lex l l = 0.
Proof. induction l as [|a l IH]; cbn; [done|]. by rewrite Z.ltb_irrefl. Qed.

Lemma lex_antisym l r : lex l r = - lex r l.
Proof.
  revert r. induction l as [|a l IH]; intros [|b r]; cbn; try done.
  rewrite (IH r). ltb_cases; lia.
Qed.

Lemma lex_zero l r : lex l r = 0 -> l = r.
Proof.
  revert r. induction l as [|a l IH]; intros [|b r]; cbn; try done.
  ltb_cases; try done. intros H1%IH. assert (a = b) by lia. by subst.
Qed.

Lemma lex_trans a b c : lex a b <= 0 -> lex b c <= 0 -> lex a c <= 0.
Proof.
  revert b c. induction a as [|x a IH]; intros [|y b] [|z c]; cbn; try lia.
  ltb_cases; try lia. apply IH.
Qed.

Lemma lex_range l r : -1 <= lex l r <= 1.
Proof. revert r. induction l as [|a l IH]; intros [|b r]; cbn; try lia. ltb_cases; try lia. apply IH. Qed.

Lemma compareValues_lex (x y L R : list Z) (i : nat) :
  (forall j, (j < length x)%nat -> L !! (i + j)%nat = x !! j) ->
  (forall j, (j < length y)%nat -> R !! (i + j)%nat = y !! j) ->
  lex x y = let c := compareValues L R i (min (length x) (length y)) in
            if negb (c =? 0) then c
            else if (length x <? length y)%nat then -1
            else if (length y <? length x)%nat then 1 else 0.
Proof.
  revert y i. induction x as [|a x IH]; intros [|b y] i HL HR; try done.
  cbn [length Nat.min compareValues lex].
  assert (La : L !!! i = a).
  { apply list_lookup_total_correct. specialize (HL 0%nat). rewrite Nat.add_0_r in HL. apply HL. cbn. lia. }
  assert (Rb : R !!! i = b).
  { apply list_lookup_total_correct. specialize (HR 0%nat). rewrite Nat.add_0_r in HR. apply HR. cbn. lia. }
  rewrite La, Rb. destruct (a <? b); [done|]. destruct (b <? a); [done|].
  rewrite (IH y (S i)); [done| |]; intros j Hj.
  - rewrite Nat.add_succ_comm. rewrite HL by (cbn; lia). done.
  - rewrite Nat.add_succ_comm. rewrite HR by (cbn; lia). done.
Qed.

(** The optimised comparison agrees with the reference. *)
Lemma compareKey_lex k1 k2 : KeyOK k1 -> KeyOK k2 -> compareKey k1 k2 = lex (digits k1) (digits k2).
Proof.
  intros [Hl1 Hv1] [Hl2 Hv2].
  assert (D1 : length (digits k1) = Z.to_nat (k_Length k1)) by (unfold digits; rewrite length_take; lia).
  assert (D2 : length (digits k2) = Z.to_nat (k_Length k2)) by (unfold digits; rewrite length_take; lia).
  rewrite (compareValues_lex (digits k1) (digits k2) (k_Values k1) (k_Values k2) 0);
    [|intros j Hj; unfold digits; cbn; rewrite lookup_take_lt; [done|lia]..].
  unfold compareKey. rewrite D1, D2.
  replace (Z.to_nat (if k_Length k2 <? k_Length k1 then k_Length k2 else k_Length k1))
    with (min (Z.to_nat (k_Length k1)) (Z.to_nat (k_Length k2))) by (ltb_cases; lia).
  cbv zeta. destruct (negb _); [done|].
  destruct (Nat.ltb_spec (Z.to_nat (k_Length k1)) (Z.to_nat (k_Length k2)));
    destruct (Nat.ltb_spec (Z.to_nat (k_Length k2)) (Z.to_nat (k_Length k1))); ltb_cases; lia.
Qed.

Section Order.
Variables (h1 h2 h3 : Hand).
Hypotheses (K1 : KeyOK (FullKey h1)) (K2 : KeyOK (FullKey h2)) (K3 : KeyOK (FullKey h3)).

Lemma CompareHand_antisym : CompareHand h1 h2 = - CompareHand h2 h1.
Proof. unfold CompareHand. rewrite !compareKey_lex by done. apply lex_antisym. Qed.

Lemma CompareHand_trans : CompareHand h1 h2 <= 0 -> CompareHand h2 h3 <= 0 -> CompareHand h1 h3 <= 0.
Proof. unfold CompareHand. rewrite !compareKey_lex by done. apply lex_trans. Qed.

Lemma CompareHand_zero : CompareHand h1 h2 = 0 <-> digits (FullKey h1) = digits (FullKey h2).
Proof.
  unfold CompareHand. rewrite !compareKey_lex by done. split; [apply lex_zero|].
  intros ->. apply lex_refl.
Qed.

Lemma CompareHand_self : CompareHand h1 h1 = 0.
Proof. unfold CompareHand. rewrite compareKey_lex by done. apply lex_refl. Qed.
End Order.

(** [compareCandidate] refines the ranking. *)
Lemma compareCandidate_up l r : 0 < compareCandidate l r -> 0 <= CompareHand l r.
Proof. unfold compareCandidate. destruct (Z.eqb_spec (CompareHand l r) 0); cbn; lia. Qed.
Lemma compareCandidate_down l r : compareCandidate l r <= 0 -> CompareHand l r <= 0.
Proof. unfold compareCandidate. destruct (Z.eqb_spec (CompareHand l r) 0); cbn; lia. Qed.

(** ** Classification *)
Definition ValidFaces (f : Faces) : Prop := forallb Dice.Face_Valid (faceList f) = true.

(** The faces of a die. *)
Definition dieFaces : list Z := [1; 2; 3; 4; 5; 6].

(** The 216 rolls of three dice. *)
Definition allFaces : list Faces :=
  flat_map (fun a => flat_map (fun b => (fun c => mkFaces a b c) <$> dieFaces) dieFaces) dieFaces.

Lemma dieFaces_elem v : Dice.Face_Valid v = true -> v ∈ dieFaces.
Proof.
  intros Hv%Dice.Face_Valid_iff. unfold dieFaces. rewrite !elem_of_cons. lia.
Qed.

Lemma allFaces_elem f : ValidFaces f -> f ∈ allFaces.
Proof.
  destruct f as [a b c]. unfold ValidFaces. cbn [faceList face0 face1 face2 forallb].
  rewrite !andb_true_iff. intros (Ha & Hb & Hc & _).
  apply list_elem_of_In. unfold allFaces. rewrite in_flat_map. exists a.
  split; [by apply list_elem_of_In, dieFaces_elem|]. rewrite in_flat_map. exists b.
  split; [by apply list_elem_of_In, dieFaces_elem|].
  apply list_elem_of_In, list_elem_of_fmap. exists c. split; [done|]. by apply dieFaces_elem.
Qed.

Lemma forall_faces (check : Faces -> bool) f :
  forallb check allFaces = true -> ValidFaces f -> check f = true.
Proof.
  intros H Hf%allFaces_elem. rewrite forallb_forall in H. apply H. by apply list_elem_of_In.
Qed.

Definition sortedValid (f : Faces) : bool :=
  forallb Dice.Face_Valid (faceList f) && (face0 f <=? face1 f) && (face1 f <=? face2 f).

(** The shape of an ordinary hand: a class of 1..4 that leads the rank key, and
    the tie key formed by the first two values of the rank key. *)
Definition ordinaryCheck (h : Hand) : bool :=
  sortedValid (Normalized h) && (HandSingle <=? Class h) && (Class h <=? HandLeopard)
  && (2 <=? k_Length (FullKey h)) && (k_Length (FullKey h) <=? 5)
  && (length (k_Values (FullKey h)) =? 5)%nat
  && (nth 0 (k_Values (FullKey h)) 0 =? Class h)
  && ((TieKey h).1 =? Class h) && ((TieKey h).2 =? nth 1 (k_Values (FullKey h)) 0)
  && negb (Special235 h) && (SpecialContext h =? Special235None).

Lemma classifyOrdinary_check f cfg : ValidFaces f -> ordinaryCheck (classifyOrdinary f cfg) = true.
Proof.
  apply (forall_faces (fun f => ordinaryCheck (classifyOrdinary f cfg))).
  destruct cfg as [[] [] [] [] ? ? ? ? ? ? ? ? ?]; vm_compute; reflexivity.
Qed.

(** The faces a wildcard roll may stand for: ones may become anything when
    ones are wild. *)
Definition Legal (cfg : Config) (raw c : Faces) : Prop :=
  ValidFaces c /\
  (c = raw \/ c_OnesWild cfg = true /\
   forall i, (i < 3)%nat -> faceList raw !!! i <> 1 -> faceList c !!! i = faceList raw !!! i).

(** What [enumerate] reaches from a candidate. *)
Fixpoint fills (positions : list nat) (candidate c : Faces) : Prop :=
  match positions with
  | [] => c = candidate
  | position :: rest => exists v, v ∈ dieFaces /\ fills rest (setFace candidate position v) c
  end.

(** The hand [enumerate] compares for a candidate. *)
Definition candidateHand (cfg : Config) (raw c : Faces) : Hand :=
  (classifyOrdinary c cfg) <| WildUsed := negb (bool_decide (c = raw)) |>.

Lemma dieFaces_valid v : v ∈ dieFaces -> Dice.Face_Valid v = true.
Proof.
  intros Hv. assert (H : forallb Dice.Face_Valid dieFaces = true) by done.
  rewrite forallb_forall in H. apply H. by apply list_elem_of_In.
Qed.

Lemma setFace_valid f i v : ValidFaces f -> v ∈ dieFaces -> ValidFaces (setFace f i v).
Proof.
  destruct f as [a b c]. intros Hf Hv%dieFaces_valid. revert Hf. unfold ValidFaces.
  destruct i as [|[|i]]; cbn [setFace faceList face0 face1 face2 forallb]; rewrite Hv, !andb_true_iff;
    tauto.
Qed.

Lemma fills_valid positions candidate c :
  ValidFaces candidate -> fills positions candidate c -> ValidFaces c.
Proof.
  revert candidate. induction positions as [|p ps IH]; cbn; intros candidate Hc; [by intros ->|].
  intros (v & Hv & Hf). eapply IH; [|exact Hf]. by apply setFace_valid.
Qed.

Lemma candidateHand_check cfg raw c : ValidFaces c -> ordinaryCheck (candidateHand cfg raw c) = true.
Proof. apply classifyOrdinary_check. Qed.

Lemma ordinaryCheck_key h : ordinaryCheck h = true -> KeyOK (FullKey h).
Proof. unfold ordinaryCheck, KeyOK. intros H. bool_cases. split; [lia|done]. Qed.

Section Enumerate.
Context (cfg : Config) (raw : Faces).
Let stronger (h b : Hand) : Prop := CompareHand h b <= 0.

(** What one run of [enumerate] promises about the hands it meets. *)
Definition Improves (reach : Faces -> Prop) (best best' : Hand) : Prop :=
  (best' = best \/ exists c, reach c /\ best' = candidateHand cfg raw c) /\
  stronger best best' /\ forall c, reach c -> stronger (candidateHand cfg raw c) best'.

Lemma Improves_key (reach : Faces -> Prop) best best' :
  (forall c, reach c -> ValidFaces c) -> KeyOK (FullKey best) -> Improves reach best best' ->
  KeyOK (FullKey best').
Proof.
  intros Hr Hk [[->|(c & Hc & ->)] _]; [done|]. by apply ordinaryCheck_key, candidateHand_check, Hr.
Qed.

Lemma Improves_fold {A} (f : Hand -> A -> Hand) (reach : A -> Faces -> Prop) (values : list A) best :
  (forall v c, v ∈ values -> reach v c -> ValidFaces c) -> KeyOK (FullKey best) ->
  (forall b v, v ∈ values -> KeyOK (FullKey b) -> Improves (reach v) b (f b v)) ->
  Improves (fun c => exists v, v ∈ values /\ reach v c) best (foldl f best values).
Proof.
  intros Hvalid Hk Hf. revert best Hk. induction values as [|v values IH]; intros best Hk; cbn [foldl].
  - split_and!; [by left|by apply Z.eq_le_incl, CompareHand_self|].
    intros c (v & Hv & _). by apply not_elem_of_nil in Hv.
  - pose proof (Hf best v (list_elem_of_here _ _) Hk) as Hone.
    assert (Hk' : KeyOK (FullKey (f best v))).
    { eapply (Improves_key (reach v)); [|exact Hk|exact Hone]. intros c. apply Hvalid. constructor. }
    specialize (IH (fun v c Hv => Hvalid v c (list_elem_of_further _ _ _ Hv))
                   (fun b v Hv => Hf b v (list_elem_of_further _ _ _ Hv)) _ Hk').
    assert (Hk2 : KeyOK (FullKey (foldl f (f best v) values))).
    { eapply Improves_key; [|exact Hk'|exact IH]. intros c (w & Hw & Hc).
      eapply Hvalid; [|exact Hc]. by constructor. }
    destruct Hone as (Hfrom & Hup & Hall), IH as (Hfrom' & Hup' & Hall'). split_and!.
    + destruct Hfrom' as [->|(c & (w & Hw & Hc) & ->)].
      * destruct Hfrom as [->|(c & Hc & ->)]; [by left|]. right. exists c.
        split; [exists v; split; [constructor|done]|done].
      * right. exists c. split; [|done]. exists w. split; [by constructor|done].
    + by eapply CompareHand_trans; [exact Hk|exact Hk'|exact Hk2|..].
    + intros c (w & Hw & Hc). apply elem_of_cons in Hw as [->|Hw].
      * eapply CompareHand_trans; [|exact Hk'|exact Hk2|by apply Hall|done].
        apply ordinaryCheck_key, candidateHand_check. eapply Hvalid; [|exact Hc]. constructor.
      * apply Hall'. by exists w.
Qed.

Lemma enumerate_improves positions candidate best :
  ValidFaces candidate -> KeyOK (FullKey best) ->
  Improves (fills positions candidate) best (enumerate cfg raw positions candidate best).
Proof.
  revert candidate best. induction positions as [|p ps IH]; intros candidate best Hc Hk.
  - cbn [enumerate fills]. fold (candidateHand cfg raw candidate).
    pose proof (ordinaryCheck_key _ (candidateHand_check cfg raw candidate Hc)) as Hkc.
    destruct (Z.ltb_spec 0 (compareCandidate (candidateHand cfg raw candidate) best)) as [Hlt|Hge].
    + split_and!; [right; eauto| |].
      * unfold stronger. rewrite CompareHand_antisym by done. apply compareCandidate_up in Hlt. lia.
      * intros c ->. by apply Z.eq_le_incl, CompareHand_self.
    + split_and!; [by left|by apply Z.eq_le_incl, CompareHand_self|].
      intros c ->. by apply compareCandidate_down.
  - cbn [enumerate fills]. apply (Improves_fold _ (fun v => fills ps (setFace candidate p v))); [|done|].
    + intros v c Hv Hf. eapply fills_valid; [|exact Hf]. by apply setFace_valid.
    + intros b v Hv Hb. apply IH; [|done]. by apply setFace_valid.
Qed.
End Enumerate.

Lemma onePositions_faces x y z :
  onePositions (mkFaces x y z) =
  (if x =? 1 then [0%nat] else []) ++ (if y =? 1 then [1%nat] else [])
    ++ (if z =? 1 then [2%nat] else []).
Proof.
  unfold onePositions. change (faceList (mkFaces x y z)) with [x; y; z]. cbn -[Z.eqb].
  by destruct (x =? 1), (y =? 1), (z =? 1).
Qed.

(** [enumerate] reaches exactly the legal interpretations. *)
Lemma fills_iff_Legal cfg raw c :
  ValidFaces raw -> c_OnesWild cfg = true ->
  fills (onePositions raw) raw c <-> Legal cfg raw c.
Proof.
  intros Hraw Hwild. split.
  - intros Hf. split; [by eapply fills_valid|]. right. split; [done|]. revert Hf.
    destruct raw as [x y z]. rewrite onePositions_faces.
    destruct (Z.eqb_spec x 1), (Z.eqb_spec y 1), (Z.eqb_spec z 1);
      cbn [app fills setFace face0 face1 face2]; intros Hf [|[|[|i]]] Hi Hne; try lia;
      repeat match goal with H : exists _, _ |- _ => destruct H as (? & ? & H) end; by subst.
  - intros [Hc Hor].
    assert (Hkeep : forall i, (i < 3)%nat -> faceList raw !!! i <> 1 -> faceList c !!! i = faceList raw !!! i).
    { by destruct Hor as [->|[_ ?]]. }
    clear Hor. revert Hc. unfold ValidFaces.
    destruct raw as [x y z], c as [x' y' z']. cbn [faceList face0 face1 face2 forallb].
    rewrite !andb_true_iff, onePositions_faces.
    intros (Hx%dieFaces_elem & Hy%dieFaces_elem & Hz%dieFaces_elem & _).
    pose proof (Hkeep 0%nat ltac:(lia)) as K0. pose proof (Hkeep 1%nat ltac:(lia)) as K1.
    pose proof (Hkeep 2%nat ltac:(lia)) as K2. clear Hkeep. cbn in K0, K1, K2.
    destruct (Z.eqb_spec x 1), (Z.eqb_spec y 1), (Z.eqb_spec z 1);
      repeat match goal with H : ?a <> 1 -> _ , H' : ?a <> 1 |- _ => specialize (H H') end; subst;
      cbn [app fills setFace face0 face1 face2]; eauto 10.
Qed.

(** What a roll of 2, 3, 5 is before the table decides its context. *)
Definition isSpecial (cfg : Config) (raw : Faces) : bool :=
  c_Special235Enabled cfg && bool_decide (sortedFaces raw = mkFaces 2 3 5).
Definition specialHand (raw : Faces) : Hand :=
  mkHand raw (mkFaces 2 3 5) HandSpecial235 (key [0; -1]) (HandSingle, -1) false true Special235Minimum.

(** An ordinary classification: a legal interpretation no other one beats. *)
Definition BestLegal (cfg : Config) (raw : Faces) (h : Hand) : Prop :=
  (exists c w, Legal cfg raw c /\ h = (classifyOrdinary c cfg) <| WildUsed := w |> <| Raw := raw |>) /\
  forall c, Legal cfg raw c -> CompareHand (classifyOrdinary c cfg) h <= 0.

Lemma Legal_refl cfg raw : ValidFaces raw -> Legal cfg raw raw.
Proof. split; [done|by left]. Qed.

Lemma Legal_plain cfg raw c : c_OnesWild cfg = false -> Legal cfg raw c -> c = raw.
Proof. intros Hw [_ [?|[Hw' _]]]; [done|congruence]. Qed.

Lemma Classify_cases raw cfg h :
  Classify raw cfg = Ok h ->
  ValidFaces raw /\
  (isSpecial cfg raw = true /\ h = specialHand raw \/
   isSpecial cfg raw = false /\ ordinaryCheck h = true /\ BestLegal cfg raw h).
Proof.
  unfold Classify. intros H. inv_result H. apply negb_false_iff in E. split; [done|].
  fold (isSpecial cfg raw) in H. destruct (isSpecial cfg raw); [left|right].
  { split; [done|]. by injection H as <-. }
  split; [done|]. injection H as <-. cbv zeta.
  assert (Hk : KeyOK (FullKey (classifyOrdinary raw cfg))).
  { by apply ordinaryCheck_key, classifyOrdinary_check. }
  destruct (c_OnesWild cfg) eqn:Hw.
  - destruct (enumerate_improves cfg raw (onePositions raw) raw _ E Hk) as (Hfrom & Hup & Hall).
    setoid_rewrite (fills_iff_Legal cfg raw) in Hall; [|done|done].
    setoid_rewrite (fills_iff_Legal cfg raw) in Hfrom; [|done|done].
    remember (enumerate cfg raw (onePositions raw) raw (classifyOrdinary raw cfg)) as b eqn:En. clear En.
    assert (Hc : exists c w, Legal cfg raw c /\
      b = (classifyOrdinary c cfg) <| WildUsed := w |>).
    { destruct Hfrom as [->|(c & Hc & ->)].
      - exists raw, (WildUsed (classifyOrdinary raw cfg)). split; [by apply Legal_refl|].
        by destruct (classifyOrdinary raw cfg).
      - by exists c, (negb (bool_decide (c = raw))). }
    destruct Hc as (c & w' & Hc & Heq). split; [|split].
    + pose proof (classifyOrdinary_check c cfg (proj1 Hc)) as Hchk. rewrite Heq. exact Hchk.
    + exists c, w'. split; [done|]. by rewrite Heq.
    + intros c' Hc'. exact (Hall c' Hc').
  - split; [|split].
    + exact (classifyOrdinary_check raw cfg E).
    + exists raw, (WildUsed (classifyOrdinary raw cfg)). split; [by apply Legal_refl|].
      by destruct (classifyOrdinary raw cfg).
    + intros c ->%Legal_plain; [|done]. apply Z.eq_le_incl. exact (CompareHand_self _ Hk).
Qed.

Lemma Classify_total raw cfg : ValidFaces raw -> exists h, Classify raw cfg = Ok h.
Proof. intros Hv. unfold Classify. rewrite Hv. cbn [negb]. cbv zeta. case_match; eauto. Qed.

Lemma Classify_Raw raw cfg h : Classify raw cfg = Ok h -> Raw h = raw.
Proof.
  intros [_ [[_ ->]|(_ & _ & (c & w & _ & ->) & _)]]%Classify_cases; done.
Qed.

(** ** The table-wide 235 decision *)
Definition contextHand (beats : bool) (h : Hand) : Hand :=
  if beats
  then h <| SpecialContext := Special235BeatsLeopards |> <| FullKey := key [5; 0] |> <| TieKey := (5, 0) |>
  else h <| SpecialContext := Special235Minimum |> <| FullKey := key [0; -1] |>
         <| TieKey := (HandSingle, -1) |>.

Definition resolveAt (hands : list Hand) (i : nat) (h : Hand) : Hand :=
  if Special235 h then contextHand (allOthersLeopards hands i) h else h.

Lemma resolveAt_Class hands i h : Class (resolveAt hands i h) = Class h.
Proof. unfold resolveAt, contextHand. by repeat case_match. Qed.

Lemma allOthersLeopards_ext hands hands' i :
  Class <$> hands = Class <$> hands' -> allOthersLeopards hands i = allOthersLeopards hands' i.
Proof.
  intros Heq. unfold allOthersLeopards.
  pose proof (f_equal length Heq) as Hlen. rewrite !length_fmap in Hlen. rewrite Hlen.
  induction (seq 0 (length hands')) as [|j l IH]; cbn [forallb]; [done|].
  rewrite IH, <- !(map_nth Class). change (map Class hands) with (Class <$> hands). by rewrite Heq.
Qed.

Lemma resolve_prefix hands k :
  (k <= length hands)%nat ->
  foldl resolveIndex hands (seq 0 k) =
  imap (fun i h => if (i <? k)%nat then resolveAt hands i h else h) hands.
Proof.
  induction k as [|k IH]; intros Hk.
  - apply list_eq. intros i. rewrite list_lookup_imap. cbn [seq foldl]. by destruct (hands !! i).
  - rewrite seq_S, foldl_app, IH by lia. cbn [foldl]. set (cur := imap _ hands).
    assert (Hcl : Class <$> cur = Class <$> hands).
    { apply list_eq. intros i. unfold cur. rewrite !list_lookup_fmap, list_lookup_imap.
      destruct (hands !! i) as [h|]; [|done]. cbn. case_match; [|done]. by rewrite resolveAt_Class. }
    destruct (lookup_lt_is_Some_2 hands k) as [h Hh]; [lia|].
    assert (Hnth : nth k cur zeroHand = h).
    { apply nth_lookup_Some. unfold cur. rewrite list_lookup_imap, Hh. cbn [fmap option_fmap option_map]. by rewrite Nat.ltb_irrefl. }
    unfold resolveIndex. cbn [Nat.add]. rewrite Hnth, (allOthersLeopards_ext cur hands k Hcl).
    assert (Hgoal : <[k := resolveAt hands k h]> cur =
      imap (fun i h => if (i <? S k)%nat then resolveAt hands i h else h) hands).
    { apply list_eq. intros i. destruct (decide (i = k)) as [->|Hne].
      - rewrite list_lookup_insert_eq by (unfold cur; rewrite length_imap; lia).
        rewrite list_lookup_imap, Hh. cbn [fmap option_fmap option_map]. by rewrite (proj2 (Nat.ltb_lt k (S k))) by lia.
      - rewrite list_lookup_insert_ne by done. unfold cur. rewrite !list_lookup_imap.
        destruct (hands !! i); [|done]. cbn [fmap option_fmap option_map]. f_equal.
        destruct (Nat.ltb_spec i k), (Nat.ltb_spec i (S k)); try done; lia. }
    rewrite <- Hgoal. unfold resolveAt, contextHand.
    destruct (Special235 h); cbn [negb]; [by destruct (allOthersLeopards hands k)|].
    symmetry. apply list_insert_id. unfold cur. rewrite list_lookup_imap, Hh. cbn [fmap option_fmap option_map].
    by rewrite Nat.ltb_irrefl.
Qed.

(** Each hand is resolved against the original table: the in-place updates do
    not influence one another. *)
Lemma Resolve235Context_imap hands : Resolve235Context hands = imap (resolveAt hands) hands.
Proof.
  unfold Resolve235Context. rewrite resolve_prefix by done. apply imap_ext.
  intros i h Hi. apply lookup_lt_Some in Hi. by rewrite (proj2 (Nat.ltb_lt i (length hands)) Hi).
Qed.

(** A classified hand, possibly already placed in a 235 context. *)
Definition Contextual (c h : Hand) : Prop :=
  h = c \/ Special235 c = true /\ exists beats, h = contextHand beats c.

Definition Handed (cfg : Config) (h : Hand) : Prop :=
  exists c, Classify (Raw h) cfg = Ok c /\ Contextual c h.

Lemma contextHand_fields b h :
  Raw (contextHand b h) = Raw h /\ Normalized (contextHand b h) = Normalized h /\
  Class (contextHand b h) = Class h /\ Special235 (contextHand b h) = Special235 h.
Proof. by destruct b. Qed.

Lemma contextHand_twice b b' h : contextHand b (contextHand b' h) = contextHand b h.
Proof. by destruct b, b'. Qed.

Lemma Contextual_fields c h :
  Contextual c h -> Raw h = Raw c /\ Normalized h = Normalized c /\ Class h = Class c /\
                    Special235 h = Special235 c.
Proof. intros [->|(_ & b & ->)]; [done|]. apply contextHand_fields. Qed.

Lemma resolveAt_Contextual hands i c h :
  Contextual c h -> resolveAt hands i h = resolveAt hands i c.
Proof.
  intros [->|(Hs & b & ->)]; [done|]. unfold resolveAt.
  destruct (contextHand_fields b c) as (_ & _ & _ & ->). rewrite Hs. apply contextHand_twice.
Qed.

Lemma resolve_Contextual cs hs :
  Forall2 Contextual cs hs -> Resolve235Context hs = Resolve235Context cs.
Proof.
  intros H. rewrite !Resolve235Context_imap. apply list_eq. intros i.
  rewrite !list_lookup_imap. pose proof (proj1 (Forall2_lookup Contextual cs hs) H i) as Hl.
  assert (Hcl : Class <$> hs = Class <$> cs).
  { clear -H. induction H as [|c h cs hs Hc _ IH]; cbn; [done|].
    apply Contextual_fields in Hc as (_ & _ & -> & _). by rewrite IH. }
  inversion Hl as [c h Hc Hi Hi'|Hi Hi']; [|done]. cbn. f_equal.
  rewrite (resolveAt_Contextual _ _ _ _ Hc). unfold resolveAt.
  by rewrite (allOthersLeopards_ext hs cs i Hcl).
Qed.

Lemma Resolve235Context_Contextual cs : Forall2 Contextual cs (Resolve235Context cs).
Proof.
  rewrite Resolve235Context_imap. apply Forall2_lookup. intros i. rewrite list_lookup_imap.
  destruct (cs !! i) as [c|]; cbn; constructor. unfold Contextual, resolveAt.
  destruct (Special235 c); eauto.
Qed.

Lemma Handed_classes cfg hs :
  Forall (Handed cfg) hs ->
  exists cs, Forall2 (fun h c => Classify (Raw h) cfg = Ok c) hs cs /\ Forall2 Contextual cs hs.
Proof.
  induction 1 as [|h hs (c & Hc & Hctx) _ (cs & H1 & H2)]; [exists []; by constructor|].
  exists (c :: cs). split; by constructor.
Qed.

Lemma Resolve235Context_Raw hs : Raw <$> Resolve235Context hs = Raw <$> hs.
Proof.
  pose proof (Resolve235Context_Contextual hs) as H.
  induction H as [|c h cs hs' Hc _ IH]; [done|]. apply Contextual_fields in Hc as [Hr _].
  cbn. by rewrite Hr, IH.
Qed.

Lemma Classify_Handed raw cfg h : Classify raw cfg = Ok h -> Handed cfg h.
Proof. intros H. exists h. split; [by rewrite (Classify_Raw _ _ _ H)|by left]. Qed.

(** ** Heads of rank keys *)
Lemma digits_head k v rest : digits k = v :: rest -> 0 < k_Length k.
Proof. unfold digits. destruct (Z.to_nat (k_Length k)) eqn:E; [done|]. lia. Qed.

Lemma ordinary_digits h :
  ordinaryCheck h = true -> exists rest, digits (FullKey h) = Class h :: rest /\ 1 <= Class h <= 4.
Proof.
  unfold ordinaryCheck, digits, HandSingle, HandLeopard. intros H. bool_cases.
  destruct (FullKey h) as [values n]. cbn [k_Length k_Values] in *.
  destruct values as [|v values]; [done|]. cbn [nth] in *. subst v. destruct (Z.to_nat n) eqn:E; [lia|]. eauto.
Qed.

(** The leading digit decides between hands that differ in it. *)
Lemma CompareHand_heads h1 h2 a l b r :
  KeyOK (FullKey h1) -> KeyOK (FullKey h2) ->
  digits (FullKey h1) = a :: l -> digits (FullKey h2) = b :: r -> a < b ->
  CompareHand h1 h2 = -1 /\ CompareHand h2 h1 = 1.
Proof.
  intros K1 K2 D1 D2 Hlt. unfold CompareHand. rewrite !compareKey_lex, D1, D2 by done. cbn.
  rewrite (proj2 (Z.ltb_lt a b) Hlt), (proj2 (Z.ltb_ge b a)) by lia. done.
Qed.

Lemma KeyOK_key values : (length values <= 5)%nat -> KeyOK (key values).
Proof.
  intros Hl. unfold KeyOK, key. cbn [k_Length k_Values].
  rewrite Z.mod_small by lia. rewrite length_take, length_app. cbn [length]. lia.
Qed.

(** The keys of resolved hands: special hands at either extreme, ordinary
    hands led by their class. *)
Lemma Handed_digits cfg h c :
  Classify (Raw h) cfg = Ok c -> Contextual c h ->
  KeyOK (FullKey h) /\
  (Special235 h = true /\ Class h = HandSpecial235 /\
     (digits (FullKey h) = [0; -1] \/ digits (FullKey h) = [5; 0]) \/
   Special235 h = false /\ ordinaryCheck h = true /\ h = c).
Proof.
  intros [_ [[_ Hc]|(_ & Hchk & _)]]%Classify_cases Hctx.
  - assert (Hs : h = specialHand (Raw h) \/ exists b, h = contextHand b (specialHand (Raw h))).
    { rewrite Hc in Hctx. destruct Hctx as [?|(_ & b & ?)]; eauto. }
    destruct Hs as [->|([] & ->)]; (split; [by apply KeyOK_key; cbn; lia|]); left; cbn; auto.
  - destruct Hctx as [->|(Hs & _)].
    + split; [by apply ordinaryCheck_key|]. right. split_and!; try done.
      unfold ordinaryCheck in Hchk. by bool_cases.
    + unfold ordinaryCheck in Hchk. bool_cases. congruence.
Qed.

End MeetHands.
