(* ===== verification/MeetByChance.v ===== *)
(** * Meet by chance: the authoritative engine

    Model of [games/meet-by-chance/engine] ([types.go], [match.go], [state.go],
    [actions.go]) on top of the hands of [MeetHands].  The roller the Go code
    passes by pointer is an explicit value threaded through the functions that
    roll; [nil] and empty slices are both [[]]; phases keep their [uint8]
    values. *)

From stdpp Require Import gmap.
From S2P Require Import Prelude Dice Roster MeetHands.

Module MeetByChance.
Import Roster MeetHands.

(** ** types.go *)
Definition PhaseRolling : Z := 1.
Definition PhaseRevealing : Z := 2.
Definition PhaseResolvingMatch : Z := 3.
Definition PhaseTargetDecision : Z := 4.
Definition PhaseTargetRolling : Z := 5.
Definition PhaseRoundSettled : Z := 6.
Definition PhaseFinished : Z := 7.

Definition FinishHostRequested : string := "host_requested".
Definition FinishInsufficientParticipants : string := "insufficient_participants".
Definition FinishPlatformCancelled : string := "platform_cancelled".

Record PlayerState := mkPlayer {
  p_UserID : string;
  p_SeatIndex : Z;
  p_Active : bool;
  p_IncludedInCurrentResolution : bool;
  p_TargetedThisRound : bool;
  p_PenaltyTicks : Z;
  p_Hand : Hand;
}.

#[global] Instance PlayerState_eta : Eta PlayerState := fun r =>
  mkPlayer (p_UserID r) (p_SeatIndex r) (p_Active r) (p_IncludedInCurrentResolution r)
    (p_TargetedThisRound r) (p_PenaltyTicks r) (p_Hand r).
#[global] Instance PlayerState_inhabited : Inhabited PlayerState :=
  populate (mkPlayer "" 0 false false false 0 zeroHand).
#[global] Instance PlayerState_seated : Seated PlayerState :=
  {| userOf := p_UserID; seatOf := p_SeatIndex; activeOf := p_Active |}.
#[global] Instance PlayerState_eq_dec : EqDecision PlayerState.
Proof. solve_decision. Defined.

(** [MatchKind] of match.go. *)
Definition MatchExact : string := "exact".
Definition MatchHigh : string := "high".
Definition MatchLow : string := "low".
Definition MatchCapped : string := "capped".

Record MatchGroup := mkGroup {
  g_Kind : string;
  g_UserIDs : list string;
  g_WeakestUserID : string;
}.

Record MatchResolution := mkResolution {
  m_Batch : Z;
  m_Groups : list MatchGroup;
  m_Capped : bool;
}.

Record RoundSettlement := mkSettlement {
  s_Round : Z;
  s_TargetUserID : string;
  s_Reason : string;
  s_TargetRerollCount : Z;
  s_TargetStreak : Z;
  s_MatchResolutionCount : Z;
  s_Players : list PlayerState;
}.

Definition zeroSettlement : RoundSettlement := mkSettlement 0 "" "" 0 0 0 [].

Record State := mkState {
  SchemaVersion : Z;
  Phase : Z;
  Round : Z;
  HostUserID : string;
  config : Config;
  Players : list PlayerState;
  TargetUserID : string;
  TargetRerollCount : Z;
  TargetStreak : Z;
  MatchResolutionCount : Z;
  ActionDeadlineUnixMillis : Z;
  MatchHistory : list MatchResolution;
  LastSettlement : RoundSettlement;
  RoundHistory : list RoundSettlement;
  FinishReason : string;
}.

#[global] Instance State_eta : Eta State := fun r =>
  mkState (SchemaVersion r) (Phase r) (Round r) (HostUserID r) (config r) (Players r)
    (TargetUserID r) (TargetRerollCount r) (TargetStreak r) (MatchResolutionCount r)
    (ActionDeadlineUnixMillis r) (MatchHistory r) (LastSettlement r) (RoundHistory r)
    (FinishReason r).

Record ActionTimer := mkTimer {
  t_Round : Z;
  t_TargetUserID : string;
  t_TargetRerollCount : Z;
  t_TargetStreak : Z;
  t_MatchResolutionCount : Z;
  t_DeadlineUnixMillis : Z;
}.

Definition EventRoundStarted : string := "round.started".
Definition EventDiceRevealed : string := "dice.revealed".
Definition EventHandClassified : string := "hand.classified".
Definition EventMatchResolved : string := "match.resolved".
Definition EventTargetSelected : string := "target.selected".
Definition EventTargetRerolled : string := "target.rerolled".
Definition EventPenaltyRecorded : string := "penalty.recorded".
Definition EventRoundSettled : string := "round.settled".
Definition EventParticipantRevoked : string := "participant.revoked".
Definition EventSessionFinished : string := "session.finished".

Record Event := mkEvent {
  e_Kind : string;
  e_Round : Z;
  e_Batch : Z;
  e_InitialConfig : option Config;
  e_InitialParticipants : list Participant;
  e_UserID : string;
  e_PreviousUserID : string;
  e_UserIDs : list string;
  e_WeakestUserID : string;
  e_MatchGroups : list MatchGroup;
  e_Players : list PlayerState;
  e_Hand : Hand;
  e_MatchKind : string;
  e_PenaltyTicks : Z;
  e_PenaltyBeforeTicks : Z;
  e_PenaltyAfterTicks : Z;
  e_TargetRerollCount : Z;
  e_TargetStreak : Z;
  e_MatchResolutionCount : Z;
  e_FirstSelectionThisRound : bool;
  e_Capped : bool;
  e_RoundCancelled : bool;
  e_NextRound : Z;
  e_ActivePlayerCount : Z;
  e_Reason : string;
  e_OperatorUserID : string;
  e_Settlement : RoundSettlement;
}.

#[global] Instance Event_eta : Eta Event := fun r =>
  mkEvent (e_Kind r) (e_Round r) (e_Batch r) (e_InitialConfig r) (e_InitialParticipants r)
    (e_UserID r) (e_PreviousUserID r) (e_UserIDs r) (e_WeakestUserID r) (e_MatchGroups r)
    (e_Players r) (e_Hand r) (e_MatchKind r) (e_PenaltyTicks r) (e_PenaltyBeforeTicks r)
    (e_PenaltyAfterTicks r) (e_TargetRerollCount r) (e_TargetStreak r)
    (e_MatchResolutionCount r) (e_FirstSelectionThisRound r) (e_Capped r) (e_RoundCancelled r)
    (e_NextRound r) (e_ActivePlayerCount r) (e_Reason r) (e_OperatorUserID r) (e_Settlement r).

Definition zeroEvent : Event :=
  mkEvent "" 0 0 None [] "" "" [] "" [] [] zeroHand "" 0 0 0 0 0 0 false false false 0 0 "" ""
    zeroSettlement.

Definition clonePlayers (players : list PlayerState) : list PlayerState := [] ++ players.

Definition cloneSettlement (value : RoundSettlement) : RoundSettlement :=
  mkSettlement (s_Round value) (s_TargetUserID value) (s_Reason value) (s_TargetRerollCount value)
    (s_TargetStreak value) (s_MatchResolutionCount value) (clonePlayers (s_Players value)).

Definition cloneSettlements (values : list RoundSettlement) : list RoundSettlement :=
  cloneSettlement <$> values.

Definition cloneGroups (groups : list MatchGroup) : list MatchGroup :=
  (fun group => mkGroup (g_Kind group) ([] ++ g_UserIDs group) (g_WeakestUserID group)) <$> groups.

Definition cloneMatchHistory (values : list MatchResolution) : list MatchResolution :=
  (fun value => mkResolution (m_Batch value) (cloneGroups (m_Groups value)) (m_Capped value))
    <$> values.

Definition Clone (state : State) : State :=
  state <| Players := clonePlayers (Players state) |>
        <| MatchHistory := cloneMatchHistory (MatchHistory state) |>
        <| LastSettlement := cloneSettlement (LastSettlement state) |>
        <| RoundHistory := cloneSettlements (RoundHistory state) |>.

(** ** match.go *)
Definition activeHandPlayers (players : list PlayerState) : list PlayerState :=
  List.filter p_Active players.

Definition stableUsers (players : list PlayerState) : list string :=
  p_UserID <$> sort_by p_SeatIndex ([] ++ players).

(** The inner loop of [exactGroups] for the player [leftPlayer]: the unused players
    to its right that match it exactly, and the updated [used] flags. *)
Fixpoint exactMembers (leftPlayer : PlayerState) (rest : list (PlayerState * bool))
  : list PlayerState * list (PlayerState * bool) :=
  match rest with
  | [] => ([], [])
  | (rightPlayer, used) :: rest' =>
      let '(members, marked) := exactMembers leftPlayer rest' in
      if negb used && ExactMatch (p_Hand leftPlayer) (p_Hand rightPlayer)
      then (rightPlayer :: members, (rightPlayer, true) :: marked)
      else (members, (rightPlayer, used) :: marked)
  end.

(** The outer loop over the players with their [used] flags; the flags of the
    players already passed are not read again. *)
Fixpoint exactLoop (fuel : nat) (players : list (PlayerState * bool)) : list MatchGroup :=
  match fuel, players with
  | S fuel', (leftPlayer, used) :: rest =>
      if used then exactLoop fuel' rest
      else
        let '(members, marked) := exactMembers leftPlayer rest in
        if (1 <? length (leftPlayer :: members))%nat
        then mkGroup MatchExact (stableUsers (leftPlayer :: members)) "" :: exactLoop fuel' marked
        else exactLoop fuel' marked
  | _, _ => []
  end.

Definition exactGroups (players : list PlayerState) : list MatchGroup :=
  exactLoop (length players) ((fun player => (player, false)) <$> players).

(** [byTie]: every tie key with its players in slice order. *)
Definition byTie (active : list PlayerState) : gmap (Z * Z) (list PlayerState) :=
  foldl (fun groups player =>
           let tieKey := TieKey (p_Hand player) in
           <[tieKey := default [] (groups !! tieKey) ++ [player]]> groups)
        ∅ active.

(** The comparison of the [sort.Slice] call on the tie keys. *)
Definition tie_le (left right : Z * Z) : Prop :=
  left.1 < right.1 \/ left.1 = right.1 /\ left.2 <= right.2.
#[global] Instance tie_le_dec (left right : Z * Z) : Decision (tie_le left right).
Proof. unfold tie_le. apply _. Defined.

Definition sharedKeys (groups : gmap (Z * Z) (list PlayerState)) : list (Z * Z) :=
  fst <$> List.filter (fun entry => (1 <? length entry.2)%nat) (map_to_list groups).

Definition FindMatchGroups (players : list PlayerState) : list MatchGroup :=
  let active := activeHandPlayers players in
  let exact := exactGroups active in
  if (0 <? length exact)%nat then exact
  else
    let groups := byTie active in
    match merge_sort tie_le (sharedKeys groups) with
    | [] => []
    | lowKey :: rest =>
        let highKey := List.last rest lowKey in
        let lowUsers := stableUsers (default [] (groups !! lowKey)) in
        if bool_decide (lowKey = highKey)
        then [mkGroup MatchLow lowUsers (nth 0 lowUsers ""%string)]
        else [mkGroup MatchHigh (stableUsers (default [] (groups !! highKey))) "";
              mkGroup MatchLow lowUsers (nth 0 lowUsers ""%string)]
    end.

(** ** state.go: helpers *)
Definition validUnixMillis (value : Z) : bool := 0 <? value.

Definition deadlineUnixMillis (now seconds : Z) : res Z :=
  if negb (validUnixMillis now)
  then ruleError CodeInvalidState "deterministic time is required"
  else if seconds =? 0 then Ok 0
  else
    let delta := seconds * 1000 in
    if maxInt64 - delta <? now
    then ruleError CodeInvalidState "deadline overflows unix milliseconds"
    else Ok (now + delta).

Definition activeUsers (players : list PlayerState) : list string :=
  p_UserID <$> List.filter p_Active players.

Definition stableUsersFromSet (players : list PlayerState) (selected : list string) : list string :=
  p_UserID <$> List.filter (fun player => bool_decide (p_UserID player ∈ selected)) players.

Definition validFinishReason (value : string) : bool :=
  String.eqb value FinishHostRequested || String.eqb value FinishInsufficientParticipants
  || String.eqb value FinishPlatformCancelled.

Record deterministicRoller := mkRoller {
  seed : list Z;
  stream : Z;
}.

Definition roll (roller : deterministicRoller) (count : Z) : res (list Z * deterministicRoller) :=
  let roller := mkRoller (seed roller) (u64 (stream roller + 1)) in
  match Dice.Roll (seed roller) (stream roller) count with
  | Err _ => ruleError CodeSeedInvalid "deterministic seed is invalid"
  | Ok faces => Ok (faces, roller)
  end.

Definition addPenalty (state : State) (userID : string) (amount : Z) (reason : string) (batch : Z)
  : res (State * Event) :=
  let next := Clone state in
  match playerIndex (Players next) userID with
  | None => ruleError CodeParticipantInactive "penalty target is inactive"
  | Some index =>
      let player := Players next !!! index in
      if negb (p_Active player)
      then ruleError CodeParticipantInactive "penalty target is inactive"
      else
        let before := p_PenaltyTicks player in
        match Dice.Ticks_Add before amount with
        | Err _ => ruleError CodePenaltyOverflow "player penalty exceeds uint32"
        | Ok after =>
            Ok (next <| Players := <[index := player <| p_PenaltyTicks := after |>]> (Players next) |>,
                zeroEvent <| e_Kind := EventPenaltyRecorded |>
                          <| e_Round := Round next |>
                          <| e_Batch := batch |>
                          <| e_UserID := userID |>
                          <| e_PenaltyTicks := amount |>
                          <| e_PenaltyBeforeTicks := before |>
                          <| e_PenaltyAfterTicks := after |>
                          <| e_Reason := reason |>)
        end
  end.

(** The loop of [lowestActiveUser]; [lowest] is the index variable ([-1] is
    [None]), [index] the loop index of the head of [rest]. *)
Fixpoint lowestLoop (players : list PlayerState) (index : nat) (rest : list PlayerState)
    (lowest : option nat) : option nat :=
  match rest with
  | [] => lowest
  | player :: rest' =>
      let lowest' :=
        if negb (p_Active player) then lowest
        else match lowest with
             | None => Some index
             | Some low =>
                 if CompareHand (p_Hand player) (p_Hand (players !!! low)) <? 0
                 then Some index else lowest
             end in
      lowestLoop players (S index) rest' lowest'
  end.

Definition lowestActiveUser (state : State) : res string :=
  match lowestLoop (Players state) 0 (Players state) None with
  | None => ruleError CodeInvalidState "no active target exists"
  | Some lowest => Ok (p_UserID (Players state !!! lowest))
  end.

Definition targetStrictlyStrongest (state : State) (target : string) : bool :=
  match playerIndex (Players state) target with
  | None => false
  | Some index =>
      if negb (p_Active (Players state !!! index)) then false
      else forallb (fun other =>
                      (other =? index)%nat || negb (p_Active (Players state !!! other))
                      || (0 <? CompareHand (p_Hand (Players state !!! index))
                                           (p_Hand (Players state !!! other))))
                   (seq 0 (length (Players state)))
  end.

(** Writes the hands back to the players selected by [included], in order:
    the write loops of [resolvePlayer235] and the reads of
    [validateCurrentHands]. *)
Fixpoint writeHands (included : PlayerState -> bool) (players : list PlayerState) (hands : list Hand)
  : list PlayerState :=
  match players with
  | [] => []
  | player :: rest =>
      if included player then
        match hands with
        | hand :: hands' => player <| p_Hand := hand |> :: writeHands included rest hands'
        | [] => player :: rest
        end
      else player :: writeHands included rest hands
  end.

Definition resolvePlayer235 (state : State) : State :=
  let hands := p_Hand <$> List.filter p_Active (Players state) in
  state <| Players := writeHands p_Active (Players state) (Resolve235Context hands) |>.

(** [IncludedInCurrentResolution = Active] for every player. *)
Definition includeActive (players : list PlayerState) : list PlayerState :=
  (fun player => player <| p_IncludedInCurrentResolution := p_Active player |>) <$> players.

(** The classification loop of [rollUsers]. *)
Fixpoint assignHands (cfg : Config) (faces : list Z) (userIndex : nat) (users : list string)
    (players : list PlayerState) : res (list PlayerState) :=
  match users with
  | [] => Ok players
  | userID :: rest =>
      match playerIndex players userID with
      | None => ruleError CodeParticipantInactive "roll set contains an inactive player"
      | Some index =>
          if negb (p_Active (players !!! index))
          then ruleError CodeParticipantInactive "roll set contains an inactive player"
          else
            let offset := (userIndex * Z.to_nat DicePerPlayer)%nat in
            let raw := mkFaces (faces !!! offset) (faces !!! (offset + 1)%nat)
                               (faces !!! (offset + 2)%nat) in
            let* hand := Classify raw cfg in
            assignHands cfg faces (S userIndex) rest
              (<[index := (players !!! index) <| p_Hand := hand |>]> players)
      end
  end.

Definition rollUsers (state : State) (roller : deterministicRoller) (users : list string) (batch : Z)
    (reason : string) : res (State * list Event * deterministicRoller) :=
  if (length users =? 0)%nat then ruleError CodeInvalidState "roll set is empty"
  else
    let next := Clone state in
    let next := next <| Players := includeActive (Players next) |> in
    let* '(faces, roller) := roll roller (u32 (u32 (Z.of_nat (length users)) * DicePerPlayer)) in
    let* players := assignHands (config next) faces 0 users (Players next) in
    let next := resolvePlayer235 (next <| Players := players |>) in
    let revealed :=
      (fun userID => Players next !!! default 0%nat (playerIndex (Players next) userID)) <$> users in
    Ok (next,
        (zeroEvent <| e_Kind := EventDiceRevealed |>
                   <| e_Round := Round next |>
                   <| e_Batch := batch |>
                   <| e_Players := clonePlayers revealed |>
                   <| e_Reason := reason |>)
        :: ((fun player =>
               zeroEvent <| e_Kind := EventHandClassified |>
                         <| e_Round := Round next |>
                         <| e_Batch := batch |>
                         <| e_UserID := p_UserID player |>
                         <| e_Hand := p_Hand player |>
                         <| e_Reason := reason |>)
              <$> List.filter p_IncludedInCurrentResolution (Players next)),
        roller).

(** ** state.go: validation *)
Definition validateHandBasic (hand : Hand) : res unit :=
  if negb (forallb Dice.Face_Valid (faceList (Raw hand)))
  then ruleError CodeInvalidState "player hand has invalid raw dice"
  else
    let normalized := Normalized hand in
    if negb (Dice.Face_Valid (face0 normalized))
       || (negb (Dice.Face_Valid (face1 normalized)) || (face1 normalized <? face0 normalized))
       || (negb (Dice.Face_Valid (face2 normalized)) || (face2 normalized <? face1 normalized))
    then ruleError CodeInvalidState "player hand normalization is invalid"
    else if (Class hand <? HandSingle) || (HandSpecial235 <? Class hand)
            || (k_Length (FullKey hand) =? 0) || (5 <? k_Length (FullKey hand))
    then ruleError CodeInvalidState "player hand rank is invalid"
    else Ok tt.

(** [validateCurrentHands] reads the configuration and the players only. *)
Definition validateCurrentHands (cfg : Config) (players : list PlayerState) : res unit :=
  let included := List.filter p_IncludedInCurrentResolution players in
  let* hands :=
    map_result (fun player =>
                  match Classify (Raw (p_Hand player)) cfg with
                  | Err _ => ruleError CodeInvalidState "active hand cannot be classified"
                  | Ok classified => Ok classified
                  end) included in
  let resolved := Resolve235Context hands in
  if forallb (fun '(player, hand) => bool_decide (p_Hand player = hand)) (zip included resolved)
  then Ok tt
  else ruleError CodeInvalidState "active hand classification is stale".

(** The user loop over one group of [validateMatchHistory]; [seen] is the map
    of the users met in the resolution. *)
Fixpoint checkGroupUsers (players : list PlayerState) (users : list string) (seen : list string)
  : res (list string) :=
  match users with
  | [] => Ok seen
  | userID :: rest =>
      if negb (isFrozen players userID)
      then ruleError CodeInvalidState "match history references an unknown player"
      else if bool_decide (userID ∈ seen)
      then ruleError CodeInvalidState "match history groups overlap"
      else checkGroupUsers players rest (userID :: seen)
  end.

Definition knownKind (kind : string) : bool :=
  String.eqb kind MatchExact || String.eqb kind MatchHigh || String.eqb kind MatchLow
  || String.eqb kind MatchCapped.

Definition checkGroup (players : list PlayerState) (seen : list string) (group : MatchGroup)
  : res (list string) :=
  if negb (knownKind (g_Kind group)) || (length (g_UserIDs group) <? 2)%nat
  then ruleError CodeInvalidState "match history group is invalid"
  else checkGroupUsers players (g_UserIDs group) seen.

Fixpoint checkResolutions (state : State) (lastBatch : Z) (values : list MatchResolution) : res unit :=
  match values with
  | [] => Ok tt
  | resolution :: rest =>
      if (m_Batch resolution <? lastBatch) || (MatchResolutionCount state <? m_Batch resolution)
         || m_Capped resolution && (length (m_Groups resolution) =? 0)%nat
      then ruleError CodeInvalidState "match history batch is invalid"
      else
        let* _ := fold_result (checkGroup (Players state)) [] (m_Groups resolution) in
        checkResolutions state (m_Batch resolution) rest
  end.

Definition validateMatchHistory (state : State) : res unit :=
  if c_MatchResolutionLimit (config state) + 1 <? Z.of_nat (length (MatchHistory state))
  then ruleError CodeInvalidState "match history exceeds its bounded resolution count"
  else checkResolutions state 0 (MatchHistory state).

(** The participant loop of [validateSettlement]; returns [targetFound]. *)
Fixpoint checkSettled (target : string) (settled players : list PlayerState) (targetFound : bool)
  : res bool :=
  match settled, players with
  | player :: settled', frozen :: players' =>
      if negb (String.eqb (p_UserID player) (p_UserID frozen))
         || negb (p_SeatIndex player =? p_SeatIndex frozen)
      then ruleError CodeInvalidState "round settlement participants changed"
      else
        let* _ := validateHandBasic (p_Hand player) in
        checkSettled target settled' players'
          (targetFound || String.eqb (p_UserID player) target && p_Active player
                          && p_TargetedThisRound player)
  | _, _ => Ok targetFound
  end.

Definition validateSettlement (state : State) (settlement : RoundSettlement) : res unit :=
  if s_Round settlement =? 0 then
    if negb (String.eqb (s_TargetUserID settlement) "") || negb (String.eqb (s_Reason settlement) "")
       || negb (length (s_Players settlement) =? 0)%nat
       || negb (s_TargetRerollCount settlement =? 0) || negb (s_TargetStreak settlement =? 0)
       || negb (s_MatchResolutionCount settlement =? 0)
    then ruleError CodeInvalidState "empty settlement retains data"
    else Ok tt
  else if (Round state <=? s_Round settlement) || String.eqb (s_TargetUserID settlement) ""
          || String.eqb (s_Reason settlement) ""
          || negb (length (s_Players settlement) =? length (Players state))%nat
          || (c_TargetRerollLimit (config state) <? s_TargetRerollCount settlement)
          || (s_TargetRerollCount settlement <? s_TargetStreak settlement)
          || (c_MatchResolutionLimit (config state) <? s_MatchResolutionCount settlement)
  then ruleError CodeInvalidState "round settlement is malformed"
  else
    let* targetFound :=
      checkSettled (s_TargetUserID settlement) (s_Players settlement) (Players state) false in
    if negb targetFound then ruleError CodeInvalidState "round settlement target is invalid"
    else if negb (is_ok (validateCurrentHands (config state) (s_Players settlement)))
    then ruleError CodeInvalidState "round settlement hands are stale"
    else Ok tt.

Definition settlementsEqual (left right : RoundSettlement) : bool :=
  (s_Round left =? s_Round right) && String.eqb (s_TargetUserID left) (s_TargetUserID right)
  && String.eqb (s_Reason left) (s_Reason right)
  && (s_TargetRerollCount left =? s_TargetRerollCount right)
  && (s_TargetStreak left =? s_TargetStreak right)
  && (s_MatchResolutionCount left =? s_MatchResolutionCount right)
  && (length (s_Players left) =? length (s_Players right))%nat
  && forallb (fun '(p, q) => bool_decide (p = q)) (zip (s_Players left) (s_Players right)).

(** The ordering loop of [validateRoundHistory]. *)
Fixpoint checkRounds (state : State) (previousRound : Z) (values : list RoundSettlement) : res unit :=
  match values with
  | [] => Ok tt
  | settlement :: rest =>
      if s_Round settlement <=? previousRound
      then ruleError CodeInvalidState "round history is not strictly ordered"
      else
        let* _ := validateSettlement state settlement in
        checkRounds state (s_Round settlement) rest
  end.

Definition validateRoundHistory (state : State) : res unit :=
  if (RoundHistoryLimit <? length (RoundHistory state))%nat
  then ruleError CodeInvalidState "round history exceeds its retention limit"
  else
    let* _ := validateSettlement state (LastSettlement state) in
    match RoundHistory state with
    | [] =>
        if negb (s_Round (LastSettlement state) =? 0)
        then ruleError CodeInvalidState "last settlement is missing from round history"
        else Ok tt
    | _ =>
        let* _ := checkRounds state 0 (RoundHistory state) in
        if negb (settlementsEqual (LastSettlement state)
                                  (List.last (RoundHistory state) zeroSettlement))
        then ruleError CodeInvalidState "last settlement differs from round history"
        else Ok tt
    end.

(** The player loop of [Validate]. *)
Fixpoint checkPlayers (previous : option PlayerState) (players : list PlayerState) : res unit :=
  match players with
  | [] => Ok tt
  | player :: rest =>
      if match previous with
         | Some before => p_SeatIndex player <=? p_SeatIndex before
         | None => false
         end
      then ruleError CodeInvalidState "players are not in canonical seat order"
      else if p_Active player && negb (p_IncludedInCurrentResolution player)
      then ruleError CodeInvalidState "active player is missing from the current resolution"
      else
        let* _ := validateHandBasic (p_Hand player) in
        checkPlayers (Some player) rest
  end.

Definition Validate (state : State) : res unit :=
  if negb (SchemaVersion state =? CurrentSchemaVersion) || (Round state =? 0)
     || (length (Players state) <? MinimumPlayers)%nat
     || (MaximumPlayers <? length (Players state))%nat
     || negb (Phase state =? PhaseTargetDecision) && negb (Phase state =? PhaseFinished)
     || negb (is_ok (Config_Validate (config state) (length (Players state))))
  then ruleError CodeInvalidState "state header is invalid"
  else
    let* _ := checkPlayers None (Players state) in
    let hostFound := existsb (fun player => String.eqb (p_UserID player) (HostUserID state))
                             (Players state) in
    if negb hostFound || negb (is_ok (ValidateParticipants (participantOf <$> Players state)))
       || (c_TargetRerollLimit (config state) <? TargetRerollCount state)
       || (TargetRerollCount state <? TargetStreak state)
       || (c_MatchResolutionLimit (config state) <? MatchResolutionCount state)
    then ruleError CodeInvalidState "frozen participants, host, or counters are invalid"
    else
      let* _ := validateCurrentHands (config state) (Players state) in
      let* _ := validateMatchHistory state in
      let* _ := validateRoundHistory state in
      if Phase state =? PhaseFinished then
        if negb (validFinishReason (FinishReason state)) || negb (String.eqb (TargetUserID state) "")
           || negb (ActionDeadlineUnixMillis state =? 0)
        then ruleError CodeInvalidState "finished state retains a target decision"
        else Ok tt
      else
        let targetIndex := playerIndex (Players state) (TargetUserID state) in
        if negb (String.eqb (FinishReason state) "")
           || (activeCount (Players state) <? MinimumPlayers)%nat
           || match targetIndex with
              | None => true
              | Some index => negb (p_Active (Players state !!! index))
                              || negb (p_TargetedThisRound (Players state !!! index))
              end
           || (c_ActionTimeoutSeconds (config state) =? 0)
              && negb (ActionDeadlineUnixMillis state =? 0)
           || negb (c_ActionTimeoutSeconds (config state) =? 0)
              && (ActionDeadlineUnixMillis state <=? 0)
        then ruleError CodeInvalidState "target decision is malformed"
        else Ok tt.

(** ** state.go: rounds *)

(** The penalty loop over the users of one group. *)
Fixpoint penalizeUsers (state : State) (users : list string) (amount : Z) (reason : string)
    (batch : Z) : res (State * list Event) :=
  match users with
  | [] => Ok (state, [])
  | userID :: rest =>
      let* '(next, penalty) := addPenalty state userID amount reason batch in
      let* '(next, events) := penalizeUsers next rest amount reason batch in
      Ok (next, penalty :: events)
  end.

Definition penalizeGroup (state : State) (group : MatchGroup) (batch : Z)
  : res (State * list Event) :=
  let* '(next, events) :=
    penalizeUsers state (g_UserIDs group) (c_MatchPenaltyTicks (config state))
      (String.append "match_" (g_Kind group)) batch in
  if String.eqb (g_Kind group) MatchLow && negb (String.eqb (g_WeakestUserID group) "") then
    let* '(next, penalty) :=
      addPenalty next (g_WeakestUserID group) (c_WeakExtraPenaltyTicks (config next))
        "match_low_extra" batch in
    Ok (next, events ++ [penalty])
  else Ok (next, events).

Fixpoint penalizeGroups (state : State) (groups : list MatchGroup) (batch : Z)
  : res (State * list Event) :=
  match groups with
  | [] => Ok (state, [])
  | group :: rest =>
      let* '(next, events) := penalizeGroup state group batch in
      let* '(next, more) := penalizeGroups next rest batch in
      Ok (next, events ++ more)
  end.

(** One uncapped iteration of the loop of [resolveMatches]. *)
Definition resolveBatch (next : State) (roller : deterministicRoller) (groups : list MatchGroup)
  : res (State * list Event * deterministicRoller) :=
  let batch := u32 (MatchResolutionCount next + 1) in
  let next := next <| MatchResolutionCount := batch |>
                   <| MatchHistory := MatchHistory next
                        ++ [mkResolution batch (cloneGroups groups) false] |> in
  let resolvedEvent := zeroEvent <| e_Kind := EventMatchResolved |>
                                 <| e_Round := Round next |>
                                 <| e_Batch := batch |>
                                 <| e_MatchGroups := cloneGroups groups |>
                                 <| e_PenaltyTicks := c_MatchPenaltyTicks (config next) |>
                                 <| e_MatchResolutionCount := batch |>
                                 <| e_Reason := "match_resolved"%string |> in
  let* '(next, penalties) := penalizeGroups next groups batch in
  let rerollSet := concat (g_UserIDs <$> groups) in
  let users := stableUsersFromSet (Players next) rerollSet in
  let* '(rolled, revealEvents, roller) := rollUsers next roller users batch "match_reroll" in
  Ok (rolled, resolvedEvent :: penalties ++ revealEvents, roller).

(** The capped exit of the loop. *)
Definition capResolution (next : State) (groups : list MatchGroup) : State * Event :=
  (next <| MatchHistory := MatchHistory next
             ++ [mkResolution (MatchResolutionCount next) (cloneGroups groups) true] |>,
   zeroEvent <| e_Kind := EventMatchResolved |>
             <| e_Round := Round next |>
             <| e_Batch := MatchResolutionCount next |>
             <| e_MatchGroups := cloneGroups groups |>
             <| e_Capped := true |>
             <| e_MatchResolutionCount := MatchResolutionCount next |>
             <| e_Reason := "match_resolution_capped"%string |>).

(** The [for] loop of [resolveMatches]; [None] when the fuel runs out. *)
Fixpoint resolveLoop (fuel : nat) (next : State) (roller : deterministicRoller) (events : list Event)
  : option (res (State * list Event * deterministicRoller)) :=
  match fuel with
  | O => None
  | S fuel' =>
      let groups := FindMatchGroups (Players next) in
      if (length groups =? 0)%nat then Some (Ok (next, events, roller))
      else if c_MatchResolutionLimit (config next) <=? MatchResolutionCount next then
        let '(capped, event) := capResolution next groups in
        Some (Ok (capped, events ++ [event], roller))
      else match resolveBatch next roller groups with
           | Err e => Some (Err e)
           | Ok (rolled, batchEvents, roller) => resolveLoop fuel' rolled roller (events ++ batchEvents)
           end
  end.

(** Every batch increments the resolution count, so the iterations left before
    the cap bound the loop; the last branch is never taken
    ([MeetByChanceFacts.resolveLoop_terminates]). *)
Definition resolveFuel (state : State) : nat :=
  S (Z.to_nat (c_MatchResolutionLimit (config state) - MatchResolutionCount state)).

Definition resolveMatches (state : State) (roller : deterministicRoller)
  : res (State * list Event * deterministicRoller) :=
  match resolveLoop (resolveFuel state) (Clone state) roller [] with
  | Some outcome => outcome
  | None => ruleError CodeInvalidState "match resolution ran out of fuel"
  end.

(** The field updates of [selectTarget] up to the deadline. *)
Definition markTarget (state : State) (targetIndex : nat) (target previous : string) : State :=
  state <| Phase := PhaseTargetDecision |>
        <| TargetUserID := target |>
        <| Players := <[targetIndex := (Players state !!! targetIndex) <| p_TargetedThisRound := true |>]>
                        (Players state) |>
        <| TargetStreak := if negb (String.eqb previous target) then 0 else TargetStreak state |>.

(** The [target.selected] fact. *)
Definition targetSelected (next : State) (target previous reason : string) (firstSelection : bool)
  : Event :=
  zeroEvent <| e_Kind := EventTargetSelected |>
            <| e_Round := Round next |>
            <| e_UserID := target |>
            <| e_PreviousUserID := previous |>
            <| e_TargetRerollCount := TargetRerollCount next |>
            <| e_TargetStreak := TargetStreak next |>
            <| e_MatchResolutionCount := MatchResolutionCount next |>
            <| e_PenaltyTicks := if firstSelection then c_TargetPenaltyTicks (config next) else 0 |>
            <| e_FirstSelectionThisRound := firstSelection |>
            <| e_Reason := reason |>.

Definition selectTarget (state : State) (previous : string) (now : Z) (reason : string)
  : res (State * list Event) :=
  let* target := lowestActiveUser state in
  let next := Clone state in
  let targetIndex := default 0%nat (playerIndex (Players next) target) in
  let firstSelection := negb (p_TargetedThisRound (Players next !!! targetIndex)) in
  let next := markTarget next targetIndex target previous in
  let* actionDeadline := deadlineUnixMillis now (c_ActionTimeoutSeconds (config next)) in
  let next := next <| ActionDeadlineUnixMillis := actionDeadline |> in
  let selected := targetSelected next target previous reason firstSelection in
  if firstSelection then
    let* '(next, penalty) :=
      addPenalty next target (c_TargetPenaltyTicks (config next)) "target_selected" 0 in
    Ok (next, [selected; penalty])
  else Ok (next, [selected]).

(** The reset of the round fields at the head of [startRound]. *)
Definition resetRound (state : State) : State :=
  let next := Clone state in
  next <| Phase := PhaseRolling |>
       <| TargetUserID := ""%string |>
       <| TargetRerollCount := 0 |>
       <| TargetStreak := 0 |>
       <| MatchResolutionCount := 0 |>
       <| ActionDeadlineUnixMillis := 0 |>
       <| MatchHistory := [] |>
       <| Players := (fun player => player <| p_TargetedThisRound := false |>
                                           <| p_IncludedInCurrentResolution := p_Active player |>)
                     <$> Players next |>.

Definition startRound (state : State) (roller : deterministicRoller) (now : Z) (initial : bool)
    (participants : list Participant) : res (State * list Event * deterministicRoller) :=
  let next := resetRound state in
  let started := zeroEvent <| e_Kind := EventRoundStarted |>
                           <| e_Round := Round next |>
                           <| e_Reason := "round_started"%string |> in
  let started := if initial
                 then started <| e_InitialConfig := Some (config next) |>
                              <| e_InitialParticipants := [] ++ participants |>
                 else started in
  let users := activeUsers (Players next) in
  let* '(rolled, revealEvents, roller) := rollUsers next roller users 0 "round_started" in
  let* '(resolved, matchEvents, roller) := resolveMatches rolled roller in
  let* '(selected, targetEvents) := selectTarget resolved "" now "initial_target" in
  Ok (selected, ([started] ++ revealEvents) ++ (matchEvents ++ targetEvents), roller).

Definition newPlayer (p : Participant) : PlayerState :=
  mkPlayer (UserID p) (SeatIndex p) true false false 0 zeroHand.

Definition NewState (cfg : Config) (participants : list Participant) (hostUserID : string)
    (nowUnixMillis : Z) (randomSeed : list Z) : res (State * list Event) :=
  let* canonical := canonicalParticipants participants in
  let* _ := Config_Validate cfg (length canonical) in
  if negb (validUnixMillis nowUnixMillis)
  then ruleError CodeInvalidState "deterministic time is required"
  else
    let players := newPlayer <$> canonical in
    let hostFound := existsb (fun p => String.eqb (UserID p) hostUserID) canonical in
    if negb hostFound
    then ruleError CodeInvalidParticipants "host must be a frozen participant"
    else
      let state := mkState CurrentSchemaVersion PhaseRolling 1 hostUserID cfg players "" 0 0 0 0 []
                     zeroSettlement [] "" in
      let* '(next, events, _) :=
        startRound state (mkRoller randomSeed 0) nowUnixMillis true canonical in
      Ok (next, events).

Definition CurrentTimer (state : State) : option ActionTimer :=
  if negb (Phase state =? PhaseTargetDecision) || (ActionDeadlineUnixMillis state =? 0) then None
  else Some (mkTimer (Round state) (TargetUserID state) (TargetRerollCount state)
               (TargetStreak state) (MatchResolutionCount state) (ActionDeadlineUnixMillis state)).

(** ** actions.go *)
Definition validateTargetAction (state : State) (actor : string) (now : Z) (timer : bool) : res unit :=
  let* _ := Validate state in
  if Phase state =? PhaseFinished then ruleError CodeSessionFinished "session is finished"
  else if negb (String.eqb actor (TargetUserID state)) || negb (isActive (Players state) actor)
  then ruleError CodeNotCurrentTarget "actor is not the current target"
  else if negb (validUnixMillis now)
  then ruleError CodeInvalidAction "deterministic action time is invalid"
  else if negb timer && negb (ActionDeadlineUnixMillis state =? 0)
          && (ActionDeadlineUnixMillis state <=? now)
  then ruleError CodeActionExpired "target action deadline has passed"
  else Ok tt.

Definition finishState (state : State) (reason operator : string) : State * Event :=
  (state <| Phase := PhaseFinished |>
         <| FinishReason := reason |>
         <| TargetUserID := ""%string |>
         <| ActionDeadlineUnixMillis := 0 |>,
   zeroEvent <| e_Kind := EventSessionFinished |>
             <| e_Round := Round state |>
             <| e_Reason := reason |>
             <| e_OperatorUserID := operator |>).

(** The settlement [settleAndStart] records. *)
Definition settlementOf (state : State) (target reason : string) : RoundSettlement :=
  mkSettlement (Round state) target reason (TargetRerollCount state) (TargetStreak state)
    (MatchResolutionCount state) (clonePlayers (Players state)).

(** The append with retention of the last [RoundHistoryLimit] settlements. *)
Definition retainHistory (history : list RoundSettlement) (settlement : RoundSettlement)
  : list RoundSettlement :=
  let history := history ++ [cloneSettlement settlement] in
  if (RoundHistoryLimit <? length history)%nat
  then drop (length history - RoundHistoryLimit) history
  else history.

Definition settleAndStart (state : State) (target reason : string) (now : Z)
    (roller : deterministicRoller) : res (State * list Event) :=
  if Round state =? maxUint32 then ruleError CodeRoundOverflow "round counter cannot advance"
  else
    let next := Clone state in
    let settlement := settlementOf next target reason in
    let next := next <| LastSettlement := settlement |>
                     <| RoundHistory := retainHistory (RoundHistory next) settlement |> in
    let settled := zeroEvent <| e_Kind := EventRoundSettled |>
                             <| e_Round := Round next |>
                             <| e_UserID := target |>
                             <| e_Reason := reason |>
                             <| e_Settlement := cloneSettlement settlement |> in
    let next := next <| Round := u32 (Round next + 1) |> in
    let* '(started, startEvents, _) := startRound next roller now false [] in
    Ok (started, [settled] ++ startEvents).

Definition Reroll (state : State) (actor : string) (nowUnixMillis : Z) (randomSeed : list Z)
  : res (State * list Event) :=
  let* _ := validateTargetAction state actor nowUnixMillis false in
  if c_TargetRerollLimit (config state) <=? TargetRerollCount state
  then ruleError CodeRerollLimitReached "target reroll limit is exhausted"
  else
    let next := Clone state in
    let* '(next, penalty) :=
      addPenalty next actor (c_RerollPenaltyTicks (config next)) "target_reroll" 0 in
    let next := next <| TargetRerollCount := u32 (TargetRerollCount next + 1) |>
                     <| TargetStreak := u32 (TargetStreak next + 1) |> in
    let rerolled := zeroEvent <| e_Kind := EventTargetRerolled |>
                              <| e_Round := Round next |>
                              <| e_UserID := actor |>
                              <| e_TargetRerollCount := TargetRerollCount next |>
                              <| e_TargetStreak := TargetStreak next |>
                              <| e_MatchResolutionCount := MatchResolutionCount next |>
                              <| e_PenaltyTicks := c_RerollPenaltyTicks (config next) |>
                              <| e_Reason := "target_reroll"%string |> in
    let* '(rolled, revealEvents, roller) :=
      rollUsers next (mkRoller randomSeed 0) [actor] 0 "target_reroll" in
    let* '(resolved, matchEvents, roller) := resolveMatches rolled roller in
    let events := [rerolled; penalty] ++ revealEvents ++ matchEvents in
    if targetStrictlyStrongest resolved actor then
      let* '(settled, settleEvents) :=
        settleAndStart resolved actor "target_surpassed" nowUnixMillis roller in
      Ok (settled, events ++ settleEvents)
    else if c_TargetRerollLimit (config resolved) <=? TargetRerollCount resolved then
      let* '(settled, settleEvents) :=
        settleAndStart resolved actor "reroll_limit" nowUnixMillis roller in
      Ok (settled, events ++ settleEvents)
    else
      let* '(selected, targetEvents) :=
        selectTarget resolved actor nowUnixMillis "post_reroll_target" in
      Ok (selected, events ++ targetEvents).

Definition Stand (state : State) (actor : string) (nowUnixMillis : Z) (randomSeed : list Z)
  : res (State * list Event) :=
  let* _ := validateTargetAction state actor nowUnixMillis false in
  settleAndStart (Clone state) actor "stand" nowUnixMillis (mkRoller randomSeed 0).

(** The token comparison of [HandleTimeout]. *)
Definition timerMismatch (state : State) (timer : ActionTimer) : bool :=
  negb (t_Round timer =? Round state)
  || negb (String.eqb (t_TargetUserID timer) (TargetUserID state))
  || negb (t_TargetRerollCount timer =? TargetRerollCount state)
  || negb (t_TargetStreak timer =? TargetStreak state)
  || negb (t_MatchResolutionCount timer =? MatchResolutionCount state)
  || (t_DeadlineUnixMillis timer =? 0)
  || negb (t_DeadlineUnixMillis timer =? ActionDeadlineUnixMillis state).

Definition HandleTimeout (state : State) (timer : ActionTimer) (nowUnixMillis : Z)
    (randomSeed : list Z) : res (State * list Event) :=
  let* _ := Validate state in
  if Phase state =? PhaseFinished
  then ruleError CodeSessionFinished "session no longer accepts timers"
  else if timerMismatch state timer
  then ruleError CodeTimerMismatch "timer does not match the current target decision"
  else if negb (validUnixMillis nowUnixMillis) || (nowUnixMillis <? ActionDeadlineUnixMillis state)
  then ruleError CodeTimerNotDue "timer fired before its deadline"
  else settleAndStart (Clone state) (TargetUserID state) "timeout_stand" nowUnixMillis
         (mkRoller randomSeed 0).

Definition RevokeParticipant (state : State) (userID : string) (nowUnixMillis : Z)
    (randomSeed : list Z) : res (State * list Event) :=
  let* _ := Validate state in
  if Phase state =? PhaseFinished
  then ruleError CodeSessionFinished "session no longer accepts participant changes"
  else if negb (validUnixMillis nowUnixMillis)
  then ruleError CodeInvalidState "deterministic time is required"
  else match playerIndex (Players state) userID with
  | None => ruleError CodeParticipantInactive "participant is absent or already inactive"
  | Some index =>
      if negb (p_Active (Players state !!! index))
      then ruleError CodeParticipantInactive "participant is absent or already inactive"
      else
        let next := Clone state in
        let next := next <| Players := <[index := (Players next !!! index) <| p_Active := false |>]>
                                         (Players next) |> in
        let wasTarget := String.eqb userID (TargetUserID state) in
        let revoked := zeroEvent <| e_Kind := EventParticipantRevoked |>
                                 <| e_Round := Round state |>
                                 <| e_UserID := userID |>
                                 <| e_Reason := "participant_revoked"%string |>
                                 <| e_TargetRerollCount := TargetRerollCount state |>
                                 <| e_TargetStreak := TargetStreak state |>
                                 <| e_MatchResolutionCount := MatchResolutionCount state |>
                                 <| e_RoundCancelled := wasTarget |>
                                 <| e_ActivePlayerCount := u32 (Z.of_nat (activeCount (Players next))) |> in
        if (activeCount (Players next) <? MinimumPlayers)%nat then
          let '(finished, finishEvent) := finishState next FinishInsufficientParticipants "" in
          Ok (finished, [revoked; finishEvent])
        else if negb wasTarget then Ok (next, [revoked])
        else if Round state =? maxUint32
        then ruleError CodeRoundOverflow "round counter cannot advance"
        else
          let revoked := revoked <| e_NextRound := u32 (Round state + 1) |> in
          let next := next <| Round := u32 (Round next + 1) |> in
          let* '(started, startEvents, _) :=
            startRound next (mkRoller randomSeed 0) nowUnixMillis false [] in
          Ok (started, [revoked] ++ startEvents)
  end.

Definition Finish (state : State) (reason operatorUserID : string) : res (State * list Event) :=
  let* _ := Validate state in
  if Phase state =? PhaseFinished
  then ruleError CodeSessionFinished "session is already finished"
  else
    let reason := if String.eqb reason "" then FinishHostRequested else reason in
    if negb (validFinishReason reason)
    then ruleError CodeInvalidAction "finish reason is unsupported"
    else if String.eqb reason FinishHostRequested && String.eqb operatorUserID ""
            || negb (String.eqb reason FinishHostRequested) && negb (String.eqb operatorUserID "")
    then ruleError CodeInvalidAction "finish operator does not match the resolution cause"
    else
      let '(finished, event) := finishState (Clone state) reason operatorUserID in
      Ok (finished, [event]).

(** ** Sessions *)
Inductive Input :=
| InReroll (actor : string) (now : Z) (randomSeed : list Z)
| InStand (actor : string) (now : Z) (randomSeed : list Z)
| InTimeout (timer : ActionTimer) (now : Z) (randomSeed : list Z)
| InRevoke (userID : string) (now : Z) (randomSeed : list Z)
| InFinish (reason operatorUserID : string).

Definition step (state : State) (input : Input) : res (State * list Event) :=
  match input with
  | InReroll actor now randomSeed => Reroll state actor now randomSeed
  | InStand actor now randomSeed => Stand state actor now randomSeed
  | InTimeout timer now randomSeed => HandleTimeout state timer now randomSeed
  | InRevoke userID now randomSeed => RevokeParticipant state userID now randomSeed
  | InFinish reason operatorUserID => Finish state reason operatorUserID
  end.

End MeetByChance.
