(* ===== verification/MeetByChanceFacts.v ===== *)
(** * Meet by chance: properties of the engine

    Snapshot validity as propositions ([Base], [Core], [Deciding], [Over]),
    match groups, and the preservation of the session invariant [Good] by every
    operation, which discharges the engine interface of [Engine]. *)

From stdpp Require Import gmap.
From S2P Require Import Prelude Dice Roster Engine MeetHands MeetByChance.

Module MeetByChanceFacts.
Import Roster MeetHands MeetByChance.

(** Inversion of a successful result that leaves the values folded. *)
Lemma Ok_pair_inj {E A B} (a a' : A) (b b' : B) : @Ok E _ (a, b) = Ok (a', b') -> a = a' /\ b = b'.
Proof. by intros [= -> ->]. Qed.

(** ** Clones are values *)
Lemma cloneSettlementM_id st : cloneSettlement st = st.
Proof. by destruct st. Qed.

Lemma cloneGroups_id gs : cloneGroups gs = gs.
Proof. unfold cloneGroups. induction gs as [|[] gs IH]; cbn; [done|]. by f_equal. Qed.

Lemma cloneMatchHistory_id values : cloneMatchHistory values = values.
Proof.
  unfold cloneMatchHistory. induction values as [|[] values IH]; cbn [fmap list_fmap]; [done|].
  rewrite IH. cbn. by rewrite cloneGroups_id.
Qed.

Lemma cloneSettlements_id values : cloneSettlements values = values.
Proof.
  unfold cloneSettlements. induction values as [|st values IH]; cbn [fmap list_fmap]; [done|].
  by rewrite IH, cloneSettlementM_id.
Qed.

Lemma CloneM_id s : Clone s = s.
Proof.
  unfold Clone. rewrite cloneMatchHistory_id, cloneSettlementM_id, cloneSettlements_id. by destruct s.
Qed.
#[export] Hint Rewrite CloneM_id : values.


Lemma ValidateParticipantsM_iff ps :
  ValidateParticipants ps = Ok tt <-> ValidRoster MinimumPlayers MaximumPlayers ps.
Proof.
  unfold ValidateParticipants. rewrite <- checkRoster_iff.
  destruct (checkRoster _ _ ps) as [[]|f]; split; done.
Qed.

(** ** Hands *)
Definition HandBasic (p : PlayerState) : Prop := validateHandBasic (p_Hand p) = Ok tt.

Lemma validateHandBasic_intro h :
  ValidFaces (Raw h) -> sortedValid (Normalized h) = true ->
  1 <= Class h <= 5 -> 1 <= k_Length (FullKey h) <= 5 -> validateHandBasic h = Ok tt.
Proof.
  intros Hr Hn Hc Hk. unfold validateHandBasic. rewrite Hr. cbn [negb]. cbv zeta.
  unfold sortedValid in Hn. cbn [faceList forallb] in Hn. to_prop.
  repeat match goal with H : Dice.Face_Valid _ = true |- _ => rewrite H; clear H end.
  rewrite (proj2 (Z.ltb_ge (face1 (Normalized h)) (face0 (Normalized h)))) by done.
  rewrite (proj2 (Z.ltb_ge (face2 (Normalized h)) (face1 (Normalized h)))) by done.
  cbn [negb orb]. unfold HandSingle, HandSpecial235.
  rewrite (proj2 (Z.ltb_ge _ _)), (proj2 (Z.ltb_ge _ _)), (proj2 (Z.eqb_neq _ _)), (proj2 (Z.ltb_ge _ _))
    by lia.
  done.
Qed.

Lemma Handed_basic cfg h : Handed cfg h -> validateHandBasic h = Ok tt.
Proof.
  intros (c & Hc & Hctx). pose proof Hc as [Hv _]%Classify_cases.
  destruct (Contextual_fields _ _ Hctx) as (_ & Hn & _).
  destruct (Handed_digits cfg h c Hc Hctx) as [[Hl _] [(Hs & Hcl & Hd)|(_ & Hchk & _)]].
  - apply validateHandBasic_intro; [done| |by rewrite Hcl|].
    + rewrite Hn. apply Classify_cases in Hc as [_ [[_ ->]|(_ & Hchk & _)]]; [done|].
      unfold ordinaryCheck in Hchk. by bool_cases.
    + destruct Hd as [Hd|Hd]; apply digits_head in Hd; lia.
  - unfold ordinaryCheck, HandSingle, HandLeopard in Hchk. bool_cases.
    apply validateHandBasic_intro; [done|done|lia|lia].
Qed.

(** The included hands are the resolved classification of their dice. *)
Definition HandsCurrent (cfg : Config) (players : list PlayerState) : Prop :=
  exists cs,
    Forall2 (fun h c => Classify (Raw h) cfg = Ok c)
            (p_Hand <$> List.filter p_IncludedInCurrentResolution players) cs /\
    p_Hand <$> List.filter p_IncludedInCurrentResolution players = Resolve235Context cs.

Lemma forallb_zip_eq (inc : list PlayerState) (hands : list Hand) :
  length inc = length hands ->
  forallb (fun '(player, hand) => bool_decide (p_Hand player = hand)) (zip inc hands) = true
    <-> p_Hand <$> inc = hands.
Proof.
  revert hands. induction inc as [|p inc IH]; intros [|h hands] Hl; cbn; try done.
  rewrite andb_true_iff, bool_decide_eq_true, IH by (cbn in Hl; lia).
  split; [by intros [-> ->]|by intros [= -> ->]].
Qed.

Lemma validateCurrentHands_iff cfg players :
  validateCurrentHands cfg players = Ok tt <-> HandsCurrent cfg players.
Proof.
  unfold validateCurrentHands, HandsCurrent.
  set (inc := List.filter p_IncludedInCurrentResolution players).
  set (f := fun player => match Classify (Raw (p_Hand player)) cfg with
                          | Ok c => Ok c | Err _ => ruleError CodeInvalidState _ end).
  assert (Hf : forall p c, f p = Ok c <-> Classify (Raw (p_Hand p)) cfg = Ok c).
  { intros p c. unfold f. by destruct (Classify _ _). }
  assert (Hlen : forall cs, length (Resolve235Context cs) = length cs).
  { intros cs. by rewrite Resolve235Context_imap, length_imap. }
  split.
  - destruct (map_result f inc) as [cs|] eqn:E; cbn [bind_result]; [|done].
    intros H. inv_result H. apply map_result_Ok in E. exists cs. split.
    + rewrite Forall2_fmap_l. eapply Forall2_impl; [exact E|]. intros p c. apply Hf.
    + apply forallb_zip_eq; [|done]. by rewrite Hlen, (Forall2_length _ _ _ E).
  - intros (cs & Hcs & Heq). rewrite Forall2_fmap_l in Hcs.
    rewrite (proj2 (map_result_Ok f inc cs)).
    + assert (Hl : length inc = length (Resolve235Context cs)) by by rewrite Hlen, (Forall2_length _ _ _ Hcs).
      cbn [bind_result]. by rewrite (proj2 (forallb_zip_eq inc (Resolve235Context cs) Hl) Heq).
    + eapply Forall2_impl; [exact Hcs|]. intros p c. apply Hf.
Qed.

Lemma HandsCurrent_Handed cfg players p :
  HandsCurrent cfg players -> p ∈ players -> p_IncludedInCurrentResolution p = true ->
  Handed cfg (p_Hand p).
Proof.
  intros (cs & Hcs & Heq) Hp Hinc.
  assert (Hin : p_Hand p ∈ p_Hand <$> List.filter p_IncludedInCurrentResolution players).
  { apply list_elem_of_fmap_2, list_elem_of_In, filter_In. split; [by apply list_elem_of_In|done]. }
  apply list_elem_of_lookup_1 in Hin as [i Hi].
  destruct (Forall2_lookup_l _ _ _ _ _ Hcs Hi) as (c & Hc & Hcl).
  exists c. split; [done|]. rewrite Heq in Hi.
  destruct (Forall2_lookup_l _ _ _ _ _ (Resolve235Context_Contextual cs) Hc) as (h & Hh & Hctx).
  congruence.
Qed.

(** ** The player loop of [Validate] *)
Record PlayersOK (players : list PlayerState) : Prop := {
  po_order : StronglySorted (fun x y => seatOf x < seatOf y) players;
  po_included : forall p, p ∈ players -> p_Active p = true -> p_IncludedInCurrentResolution p = true;
  po_hands : forall p, p ∈ players -> HandBasic p;
}.

Lemma checkPlayers_order prev players :
  checkPlayers prev players = Ok tt <->
  (match prev with Some q => seatsOutOfOrder (q :: players) | None => seatsOutOfOrder players end) = false /\
  (forall p, p ∈ players -> p_Active p = true -> p_IncludedInCurrentResolution p = true) /\
  (forall p, p ∈ players -> HandBasic p).
Proof.
  revert prev. induction players as [|a l IH]; intros prev; cbn [checkPlayers].
  { destruct prev; split; try done; intros _; split_and!; try done; intros q Hq; by apply not_elem_of_nil in Hq. }
  assert (Hsplit : (match prev with Some q => seatsOutOfOrder (q :: a :: l) | None => seatsOutOfOrder (a :: l) end)
    = (match prev with Some before => p_SeatIndex a <=? p_SeatIndex before | None => false end
       || seatsOutOfOrder (a :: l))%bool).
  { by destruct prev. }
  rewrite Hsplit. clear Hsplit.
  destruct (match prev with Some _ => _ | None => _ end) eqn:E1; cbn [orb]; [by split; intros; destruct_and?|].
  destruct (p_Active a && negb (p_IncludedInCurrentResolution a)) eqn:E2.
  { split; [done|]. intros (_ & Hi & _). to_prop.
    by rewrite (Hi a (list_elem_of_here _ _)) in *. }
  destruct (validateHandBasic (p_Hand a)) as [[]|] eqn:E3; cbn [bind_result].
  - rewrite IH. split.
    + intros (Ho & Hi & Hb). split_and!; [done| |];
        intros p Hp; apply elem_of_cons in Hp as [->|Hp]; try by auto. intros Ha. rewrite Ha in E2. by destruct (p_IncludedInCurrentResolution a).
    + intros (Ho & Hi & Hb). split_and!; [done| |]; intros p Hp; [apply Hi|apply Hb]; by constructor.
  - split; [done|]. intros (_ & _ & Hb). specialize (Hb a (list_elem_of_here _ _)).
    unfold HandBasic in Hb. congruence.
Qed.

Lemma checkPlayers_iff players : checkPlayers None players = Ok tt <-> PlayersOK players.
Proof.
  rewrite checkPlayers_order, seatsOutOfOrder_false. split; [by intros (? & ? & ?)|by intros []].
Qed.

(** ** Settlements and histories *)
Definition Roster_eq (l l' : list PlayerState) : Prop := participantOf <$> l = participantOf <$> l'.

Lemma checkSettled_frame target settled l l' found :
  Roster_eq l l' -> checkSettled target settled l found = checkSettled target settled l' found.
Proof.
  unfold Roster_eq. revert l l' found. induction settled as [|p settled IH]; intros l l' found Heq; [done|].
  destruct l as [|a l], l' as [|a' l']; try done. cbn in Heq. injection Heq as Hu Hs Hl.
  cbn [checkSettled]. rewrite Hu, Hs. destruct (_ || _); [done|].
  destruct (validateHandBasic _); cbn [bind_result]; [|done]. by apply IH.
Qed.

(** A settlement of an earlier round stays valid in later rounds. *)
Lemma validateSettlementM_mono s s' st :
  config s' = config s -> Roster_eq (Players s') (Players s) -> Round s <= Round s' ->
  validateSettlement s st = Ok tt -> validateSettlement s' st = Ok tt.
Proof.
  intros Hc Hp Hr. unfold validateSettlement. destruct (s_Round st =? 0); [done|].
  pose proof (f_equal length Hp) as Hl. rewrite !length_fmap in Hl.
  rewrite Hc, Hl, (checkSettled_frame _ _ _ _ _ Hp).
  intros H. inv_result H. rewrite !orb_false_iff in *. destruct_and!.
  rewrite (proj2 (Z.leb_gt _ _)) by (to_prop; lia).
  repeat match goal with H : _ = false |- _ => rewrite H; clear H end. done.
Qed.

Lemma validateSettlementM_round s st :
  validateSettlement s st = Ok tt -> s_Round st <> 0 -> s_Round st < Round s.
Proof.
  unfold validateSettlement. intros H Hne. rewrite (proj2 (Z.eqb_neq _ _) Hne) in H. inv_result H.
  to_prop. lia.
Qed.

Lemma checkSettled_found target settled players found :
  Roster_eq settled players -> (forall p, p ∈ settled -> HandBasic p) ->
  checkSettled target settled players found =
  Ok (found || existsb (fun p => String.eqb (p_UserID p) target && p_Active p && p_TargetedThisRound p) settled).
Proof.
  unfold Roster_eq. revert players found. induction settled as [|p settled IH]; intros [|q players] found Heq Hb;
    try done; cbn [checkSettled existsb]; [by rewrite orb_false_r|].
  cbn in Heq. injection Heq as Hu Hs Hl. rewrite Hu, Hs, String.eqb_refl, Z.eqb_refl. cbn [negb orb].
  rewrite (Hb p (list_elem_of_here _ _)). cbn [bind_result]. rewrite IH; [|done|].
  - by rewrite orb_assoc.
  - intros r Hr. apply Hb. by constructor.
Qed.

Lemma checkRounds_mono s s' prev prev' values :
  config s' = config s -> Roster_eq (Players s') (Players s) -> Round s <= Round s' -> prev' <= prev ->
  checkRounds s prev values = Ok tt -> checkRounds s' prev' values = Ok tt.
Proof.
  intros Hc Hp Hr. revert prev prev'. induction values as [|st values IH]; intros prev prev' Hle; [done|].
  cbn [checkRounds]. intros H. inv_result H. to_prop. rewrite (proj2 (Z.leb_gt _ _)) by lia.
  destruct (validateSettlement s st) as [[]|] eqn:Est; cbn [bind_result] in H; [|done].
  rewrite (validateSettlementM_mono s s' st Hc Hp Hr Est). cbn [bind_result]. by eapply IH; [|exact H].
Qed.

Lemma checkRounds_drop s prev values n :
  checkRounds s prev values = Ok tt -> checkRounds s prev (drop n values) = Ok tt.
Proof.
  revert prev values. induction n as [|n IH]; intros prev [|st values] H; try done.
  cbn [drop]. apply IH. cbn [checkRounds] in H. inv_result H. to_prop.
  destruct (validateSettlement s st) as [[]|]; cbn [bind_result] in H; [|done].
  eapply checkRounds_mono; [..|exact H]; try done; lia.
Qed.

(** Appending the settlement of the round just left. *)
Lemma checkRounds_snoc s s' prev values st :
  config s' = config s -> Roster_eq (Players s') (Players s) -> Round s <= Round s' ->
  0 <= prev < Round s -> s_Round st = Round s -> validateSettlement s' st = Ok tt ->
  checkRounds s prev values = Ok tt -> checkRounds s' prev (values ++ [st]) = Ok tt.
Proof.
  intros Hc Hp Hr Hprev Hst Hv. revert prev Hprev.
  induction values as [|x values IH]; intros prev Hprev H; cbn [app checkRounds] in *.
  - rewrite (proj2 (Z.leb_gt _ _)) by lia. by rewrite Hv.
  - inv_result H. to_prop. destruct (validateSettlement s x) as [[]|] eqn:Ex; cbn [bind_result] in H; [|done].
    rewrite (validateSettlementM_mono s s' x Hc Hp Hr Ex).
    cbn [bind_result]. apply IH; [|done]. pose proof (validateSettlementM_round s x Ex). lia.
Qed.

Lemma settlementsEqual_refl st : settlementsEqual st st = true.
Proof.
  unfold settlementsEqual. rewrite !Z.eqb_refl, !String.eqb_refl, Nat.eqb_refl. cbn [andb].
  induction (s_Players st) as [|p l IH]; [done|]. cbn. by rewrite bool_decide_eq_true_2.
Qed.

(** Match history: frame and append. *)
Lemma checkGroupUsers_frame l l' users seen :
  userOf <$> l = userOf <$> l' -> checkGroupUsers l users seen = checkGroupUsers l' users seen.
Proof.
  intros Hu. revert seen. induction users as [|u users IH]; intros seen; cbn [checkGroupUsers]; [done|].
  by rewrite (isFrozen_users _ _ _ Hu), IH.
Qed.

Lemma checkGroups_frame l l' groups seen :
  userOf <$> l = userOf <$> l' ->
  fold_result (checkGroup l) seen groups = fold_result (checkGroup l') seen groups.
Proof.
  intros Hu. revert seen. induction groups as [|g groups IH]; intros seen; cbn [fold_result]; [done|].
  unfold checkGroup at 1 3. rewrite (checkGroupUsers_frame _ _ _ _ Hu).
  destruct (_ || _); [done|]. destruct (checkGroupUsers _ _ _); cbn [bind_result]; [|done]. apply IH.
Qed.

Lemma checkResolutions_mono s s' last values :
  userOf <$> Players s' = userOf <$> Players s -> MatchResolutionCount s <= MatchResolutionCount s' ->
  checkResolutions s last values = Ok tt -> checkResolutions s' last values = Ok tt.
Proof.
  intros Hu Hm. revert last. induction values as [|r values IH]; intros last; cbn [checkResolutions]; [done|].
  intros H. inv_result H. to_prop.
  rewrite (proj2 (Z.ltb_ge _ _)), (proj2 (Z.ltb_ge _ _)) by lia. cbn [orb]. rewrite (checkGroups_frame _ _ _ _ Hu).
  match goal with H : _ && _ = false |- _ => rewrite H end.
  destruct (fold_result _ _ _); cbn [bind_result] in *; [|done]. by apply IH.
Qed.

Lemma checkResolutions_snoc s last values r :
  checkResolutions s last values = Ok tt -> last <= MatchResolutionCount s ->
  m_Batch r = MatchResolutionCount s -> m_Groups r <> [] ->
  is_ok (fold_result (checkGroup (Players s)) [] (m_Groups r)) = true ->
  checkResolutions s last (values ++ [r]) = Ok tt.
Proof.
  intros H Hlast Hb Hg Hok. revert last H Hlast.
  induction values as [|x values IH]; intros last H Hlast; cbn [app checkResolutions] in *.
  - rewrite Hb, (proj2 (Z.ltb_ge _ _)), (proj2 (Z.ltb_ge _ _)) by lia. cbn [orb].
    destruct (m_Groups r) eqn:Eg; [done|]. rewrite andb_false_r. by destruct (fold_result _ _ _).
  - inv_result H. to_prop.
    destruct (fold_result _ _ (m_Groups x)); cbn [bind_result] in *; [|done]. apply IH; [done|lia].
Qed.

(** The checks of a resolution accept pairwise disjoint groups of frozen users. *)
Lemma checkGroupUsers_Ok l users seen :
  NoDup users -> (forall u, u ∈ users -> u ∉ seen) -> (forall u, u ∈ users -> isFrozen l u = true) ->
  exists seen', checkGroupUsers l users seen = Ok seen' /\ forall u, u ∈ seen' <-> u ∈ users \/ u ∈ seen.
Proof.
  revert seen. induction users as [|u users IH]; intros seen Hnd Hs Hf; cbn [checkGroupUsers].
  - exists seen. split; [done|]. intros v. rewrite elem_of_nil. tauto.
  - apply NoDup_cons in Hnd as [Hu Hnd]. rewrite (Hf u (list_elem_of_here _ _)). cbn [negb].
    rewrite bool_decide_eq_false_2 by (apply Hs; constructor).
    destruct (IH (u :: seen)) as (seen' & -> & Hin); [done| | |].
    + intros v Hv. rewrite not_elem_of_cons. split; [by intros ->|]. apply Hs. by constructor.
    + intros v Hv. apply Hf. by constructor.
    + exists seen'. split; [done|]. intros v. rewrite Hin, !elem_of_cons. tauto.
Qed.

Record GroupsOK (players : list PlayerState) (groups : list MatchGroup) : Prop := {
  go_shape : Forall (fun g => knownKind (g_Kind g) = true /\ (2 <= length (g_UserIDs g))%nat) groups;
  go_disjoint : NoDup (concat (g_UserIDs <$> groups));
  go_active : forall u, u ∈ concat (g_UserIDs <$> groups) -> activeUser players u;
}.

Lemma checkGroups_Ok l groups seen :
  Forall (fun g => knownKind (g_Kind g) = true /\ (2 <= length (g_UserIDs g))%nat) groups ->
  NoDup (concat (g_UserIDs <$> groups)) ->
  (forall u, u ∈ concat (g_UserIDs <$> groups) -> (u ∉ seen) /\ isFrozen l u = true) ->
  is_ok (fold_result (checkGroup l) seen groups) = true.
Proof.
  intros Hg. revert seen. induction Hg as [|g groups [Hk Hl] _ IH]; intros seen Hnd Hu; [done|].
  cbn [fold_result fmap list_fmap concat] in *. apply NoDup_app in Hnd as (Hnd & Hdis & Hnd').
  unfold checkGroup. rewrite Hk, (proj2 (Nat.ltb_ge _ _) Hl). cbn [negb orb].
  destruct (checkGroupUsers_Ok l (g_UserIDs g) seen) as (seen' & -> & Hin);
    [done|intros u Hin; apply Hu, elem_of_app; by left..|].
  cbn [bind_result]. apply IH; [done|]. intros u Hin'. split.
  - rewrite Hin. intros [Hgu|Hs]; [by eapply Hdis|].
    destruct (Hu u) as [Hn _]; [apply elem_of_app; by right|done].
  - apply Hu, elem_of_app. by right.
Qed.

Lemma GroupsOK_check players groups :
  NoDup (userOf <$> players) -> GroupsOK players groups ->
  is_ok (fold_result (checkGroup players) [] groups) = true.
Proof.
  intros Hnd [Hs Hd Ha]. apply checkGroups_Ok; [done|done|]. intros u Hu.
  split; [apply not_elem_of_nil|]. apply isFrozen_iff, activeUser_frozen. by apply Ha.
Qed.

(** ** Match groups *)
Lemma stableUsers_perm players : stableUsers players ≡ₚ (p_UserID <$> players).
Proof. unfold stableUsers. cbn [app]. by rewrite (sort_by_Permutation p_SeatIndex players). Qed.

Lemma stableUsers_length players : length (stableUsers players) = length players.
Proof. by rewrite (stableUsers_perm players), length_fmap. Qed.

(** The players whose [used] flag is still clear. *)
Definition unused (l : list (PlayerState * bool)) : list PlayerState :=
  fst <$> List.filter (fun e => negb e.2) l.

Lemma exactMembers_perm leftPlayer rest members marked :
  exactMembers leftPlayer rest = (members, marked) ->
  unused rest ≡ₚ members ++ unused marked.
Proof.
  revert members marked. induction rest as [|[p used] rest IH]; intros members marked; cbn [exactMembers].
  { by intros [= <- <-]. }
  destruct (exactMembers leftPlayer rest) as [members' marked'].
  specialize (IH members' marked' eq_refl). unfold unused in *.
  destruct used; cbn [negb andb].
  { intros [= <- <-]. cbn. done. }
  destruct (ExactMatch _ _); intros [= <- <-]; cbn.
  - by rewrite IH.
  - rewrite IH. apply Permutation_middle.
Qed.

(** Every group has a known kind and two members; together they are taken
    from the unused players, each at most once. *)
Lemma exactLoop_groups fuel l :
  Forall (fun g => knownKind (g_Kind g) = true /\ (2 <= length (g_UserIDs g))%nat) (exactLoop fuel l) /\
  exists leftover, concat (g_UserIDs <$> exactLoop fuel l) ++ leftover ≡ₚ (p_UserID <$> unused l).
Proof.
  revert l. induction fuel as [|fuel IH]; intros l; cbn [exactLoop].
  { split; [constructor|]. by exists (p_UserID <$> unused l). }
  destruct l as [|[p used] rest]; [split; [constructor|by exists []]|].
  destruct used; [exact (IH rest)|].
  destruct (exactMembers p rest) as [members marked] eqn:E. apply exactMembers_perm in E.
  destruct (IH marked) as (Hshape & leftover & Hperm).
  assert (Hun : (p_UserID <$> unused ((p, false) :: rest))
                ≡ₚ (p_UserID <$> (p :: members)) ++ (p_UserID <$> unused marked)).
  { rewrite <- fmap_app. apply (fmap_Permutation p_UserID). change (unused ((p, false) :: rest)) with (p :: unused rest).
    cbn [app]. by rewrite E. }
  destruct (Nat.ltb_spec 1 (length (p :: members))).
  - split.
    + constructor; [|done]. cbn [g_Kind g_UserIDs]. split; [done|]. rewrite stableUsers_length. lia.
    + exists leftover. cbn [fmap list_fmap concat g_UserIDs].
      rewrite Hun, <- Hperm, <- app_assoc. by rewrite (stableUsers_perm (p :: members)).
  - split; [done|]. exists (leftover ++ (p_UserID <$> (p :: members))).
    rewrite app_assoc, Hperm, Hun. apply Permutation_app_comm.
Qed.

Lemma unused_fresh players : unused ((fun player => (player, false)) <$> players) = players.
Proof. unfold unused. induction players as [|p l IH]; cbn; [done|]. by f_equal. Qed.

(** [byTie] groups the players by tie key, in slice order. *)
Definition tied (k : Z * Z) (active : list PlayerState) : list PlayerState :=
  List.filter (fun p => bool_decide (TieKey (p_Hand p) = k)) active.

Lemma byTie_lookup active k :
  default [] (byTie active !! k) = tied k active.
Proof.
  unfold byTie, tied. induction active as [|p active IH] using rev_ind; [done|].
  rewrite foldl_snoc. cbv zeta. rewrite List.filter_app. cbn [List.filter].
  destruct (decide (TieKey (p_Hand p) = k)) as [<-|Hne].
  - rewrite lookup_insert_eq, bool_decide_eq_true_2 by done. cbn [default]. by rewrite IH.
  - rewrite lookup_insert_ne, bool_decide_eq_false_2 by done. by rewrite app_nil_r, IH.
Qed.

Lemma sharedKeys_elem active k :
  k ∈ sharedKeys (byTie active) <-> (1 < length (tied k active))%nat.
Proof.
  rewrite <- byTie_lookup. unfold sharedKeys. rewrite list_elem_of_fmap. split.
  - intros ([k' g] & -> & Hin). apply list_elem_of_In, filter_In in Hin as [Hin Hl].
    apply list_elem_of_In, elem_of_map_to_list in Hin. cbn in *. rewrite Hin. by apply Nat.ltb_lt.
  - intros Hl. destruct (byTie active !! k) as [g|] eqn:E; cbn in Hl; [|lia].
    exists (k, g). split; [done|]. apply list_elem_of_In, filter_In.
    split; [by apply list_elem_of_In, elem_of_map_to_list|by apply Nat.ltb_lt].
Qed.

Lemma merge_keys_elem active k :
  k ∈ merge_sort tie_le (sharedKeys (byTie active)) <-> k ∈ sharedKeys (byTie active).
Proof. by rewrite (merge_sort_Permutation tie_le (sharedKeys (byTie active))). Qed.

(** No two active players share a tie key when no group is found. *)
Lemma tied_NoDup active :
  (forall k, (length (tied k active) <= 1)%nat) -> NoDup ((fun p => TieKey (p_Hand p)) <$> active).
Proof.
  induction active as [|p active IH]; intros H; [constructor|]. cbn. apply NoDup_cons. split.
  - intros (q & Hq & Hin)%list_elem_of_fmap. specialize (H (TieKey (p_Hand p))). unfold tied in H.
    cbn [List.filter] in H. rewrite bool_decide_eq_true_2 in H by done. cbn [length] in H.
    assert (Hq' : List.In q (tied (TieKey (p_Hand p)) active)).
    { apply filter_In. split; [by apply list_elem_of_In|]. by apply bool_decide_eq_true. }
    unfold tied in Hq'. destruct (List.filter _ active); [done|cbn in H; lia].
  - apply IH. intros k. specialize (H k). unfold tied in *. cbn [List.filter] in H.
    case_bool_decide; cbn [length] in H; lia.
Qed.

Lemma tied_users k active :
  (p_UserID <$> tied k active) `sublist_of` (p_UserID <$> active).
Proof.
  unfold tied. induction active as [|p l IH]; cbn; [constructor|].
  case_bool_decide; cbn; by constructor.
Qed.

(** Groups of distinct tie keys are disjoint. *)
Lemma tied_disjoint k1 k2 active :
  k1 <> k2 -> NoDup (p_UserID <$> active) ->
  NoDup ((p_UserID <$> tied k1 active) ++ (p_UserID <$> tied k2 active)).
Proof.
  intros Hne Hnd. apply NoDup_app. split_and!; [by eapply sublist_NoDup, tied_users| |by eapply sublist_NoDup, tied_users].
  intros u (p & -> & Hp)%list_elem_of_fmap (q & Hu & Hq)%list_elem_of_fmap.
  apply list_elem_of_In, filter_In in Hp as [Hp Hk1], Hq as [Hq Hk2].
  apply bool_decide_eq_true in Hk1, Hk2. apply list_elem_of_In in Hp, Hq.
  assert (p = q); [|congruence].
  apply list_elem_of_lookup_1 in Hp as [i Hi], Hq as [j Hj].
  assert (i = j); [|congruence].
  eapply (NoDup_lookup _ _ _ (p_UserID p) Hnd); rewrite list_lookup_fmap; [by rewrite Hi|by rewrite Hj, Hu].
Qed.

Lemma last_elem {A} (l : list A) d : List.last l d = d \/ List.last l d ∈ l.
Proof.
  induction l as [|a l IH]; [by left|]. right. cbn. destruct l as [|b l]; [constructor|].
  assert (Hl : List.last (b :: l) d ∈ b :: l); [|by constructor].
  clear. induction l as [|c l IH] in b |- *; [constructor|]. constructor. apply IH.
Qed.

Lemma activeHandPlayers_elem players p :
  p ∈ activeHandPlayers players <-> p ∈ players /\ p_Active p = true.
Proof. unfold activeHandPlayers. rewrite list_elem_of_In, filter_In, <- list_elem_of_In. done. Qed.

Lemma activeHandPlayers_users players :
  (p_UserID <$> activeHandPlayers players) `sublist_of` (p_UserID <$> players).
Proof.
  unfold activeHandPlayers. induction players as [|p l IH]; cbn; [constructor|].
  destruct (p_Active p); cbn; by constructor.
Qed.

(** The batch groups: two or more active members each, pairwise disjoint. *)
Lemma FindMatchGroups_OK players :
  NoDup (userOf <$> players) -> GroupsOK players (FindMatchGroups players).
Proof.
  intros Hnd. set (active := activeHandPlayers players).
  assert (Hnda : NoDup (p_UserID <$> active)) by (eapply sublist_NoDup, activeHandPlayers_users; exact Hnd).
  assert (Hact : forall u, u ∈ p_UserID <$> active -> activeUser players u).
  { intros u (p & -> & [Hp Ha]%activeHandPlayers_elem)%list_elem_of_fmap. by exists p. }
  assert (Hshared : forall k, k ∈ merge_sort tie_le (sharedKeys (byTie active)) ->
            (2 <= length (stableUsers (default [] (byTie active !! k))))%nat).
  { intros k Hk%merge_keys_elem%sharedKeys_elem. rewrite stableUsers_length, byTie_lookup. lia. }
  assert (Htied : forall k, stableUsers (default [] (byTie active !! k)) ≡ₚ (p_UserID <$> tied k active)).
  { intros k. by rewrite stableUsers_perm, byTie_lookup. }
  unfold FindMatchGroups. fold active. cbv zeta. destruct (Nat.ltb_spec 0 (length (exactGroups active))).
  - destruct (exactLoop_groups (length active) ((fun p => (p, false)) <$> active)) as (Hs & left & Hperm).
    rewrite unused_fresh in Hperm. unfold exactGroups. split; [done| |].
    + rewrite <- Hperm in Hnda. by apply NoDup_app in Hnda as [? _].
    + intros u Hu. apply Hact. rewrite <- Hperm. apply elem_of_app. by left.
  - destruct (merge_sort tie_le _) as [|low rest] eqn:E; [by split; [constructor|constructor|intros u Hu%not_elem_of_nil]|].
    set (high := List.last rest low).
    assert (Hlow : low ∈ low :: rest) by constructor.
    assert (Hhigh : high ∈ low :: rest).
    { destruct (last_elem rest low) as [Heq|Hin]; [unfold high; rewrite Heq; constructor|by constructor]. }
    case_bool_decide as Heq.
    + split; cbn [fmap list_fmap concat g_UserIDs]; rewrite ?app_nil_r.
      * repeat constructor. by apply Hshared.
      * rewrite Htied. by eapply sublist_NoDup, tied_users.
      * intros u. rewrite Htied. intros Hu. apply Hact. by eapply elem_of_sublist, tied_users.
    + split; cbn [fmap list_fmap concat g_UserIDs]; rewrite ?app_nil_r.
      * constructor; [split; [done|by apply Hshared]|]. constructor; [split; [done|by apply Hshared]|constructor].
      * rewrite !Htied. apply tied_disjoint; [by apply not_eq_sym|done].
      * intros u. rewrite !Htied. intros [Hu|Hu]%elem_of_app; apply Hact; by eapply elem_of_sublist, tied_users.
Qed.

(** When no group is found the active tie keys are pairwise distinct. *)
Lemma FindMatchGroups_nil players :
  FindMatchGroups players = [] ->
  NoDup ((fun p => TieKey (p_Hand p)) <$> activeHandPlayers players).
Proof.
  unfold FindMatchGroups. cbv zeta. destruct (Nat.ltb_spec 0 (length (exactGroups (activeHandPlayers players)))) as [Hl|_].
  { intros Heq. rewrite Heq in Hl. cbn in Hl. lia. }
  destruct (merge_sort tie_le _) as [|low rest] eqn:E; [|by case_bool_decide].
  intros _. apply tied_NoDup. intros k. apply Nat.nlt_ge. intros Hk%sharedKeys_elem%merge_keys_elem.
  rewrite E in Hk. by apply not_elem_of_nil in Hk.
Qed.

(** ** The validity of a snapshot as propositions *)
Definition hosted (s : State) : Prop := frozenUser (Players s) (HostUserID s).

(** Header, frozen participants, counters and histories; the integers fit
    their Go types. *)
Record Base (s : State) : Prop := {
  b_schema : SchemaVersion s = CurrentSchemaVersion;
  b_round : 0 < Round s <= maxUint32;
  b_roster : ValidRoster MinimumPlayers MaximumPlayers (participantOf <$> Players s);
  b_order : StronglySorted (fun x y => seatOf x < seatOf y) (Players s);
  b_config : Config_Validate (config s) (length (Players s)) = Ok tt;
  b_host : hosted s;
  b_reroll : 0 <= TargetRerollCount s <= c_TargetRerollLimit (config s);
  b_streak : 0 <= TargetStreak s <= TargetRerollCount s;
  b_count : 0 <= MatchResolutionCount s <= c_MatchResolutionLimit (config s);
  b_matches : checkResolutions s 0 (MatchHistory s) = Ok tt;
  b_rounds : validateRoundHistory s = Ok tt;
}.

(** A base state whose hands are the resolved classification of their dice. *)
Record Core (s : State) : Prop := {
  co_base : Base s;
  co_players : PlayersOK (Players s);
  co_hands : HandsCurrent (config s) (Players s);
}.

Definition DeadlineOK (s : State) : Prop :=
  (c_ActionTimeoutSeconds (config s) = 0 -> ActionDeadlineUnixMillis s = 0) /\
  (c_ActionTimeoutSeconds (config s) <> 0 -> 0 < ActionDeadlineUnixMillis s).

(** The player [u] is active and has been targeted in this round. *)
Definition targeted (players : list PlayerState) (u : string) : Prop :=
  exists p, p ∈ players /\ p_UserID p = u /\ p_Active p = true /\ p_TargetedThisRound p = true.

Record Deciding (s : State) : Prop := {
  de_phase : Phase s = PhaseTargetDecision;
  de_reason : FinishReason s = ""%string;
  de_active : (MinimumPlayers <= activeCount (Players s))%nat;
  de_target : targeted (Players s) (TargetUserID s);
  de_deadline : DeadlineOK s;
}.

Record Over (s : State) : Prop := {
  ov_phase : Phase s = PhaseFinished;
  ov_reason : validFinishReason (FinishReason s) = true;
  ov_target : TargetUserID s = ""%string;
  ov_deadline : ActionDeadlineUnixMillis s = 0;
}.

(** The bound [validateMatchHistory] puts on the match history. *)
Definition HistoryFits (s : State) : Prop :=
  Z.of_nat (length (MatchHistory s)) <= c_MatchResolutionLimit (config s) + 1.

(** What the engine does keep: batches are counted until the limit, and only
    the capped entries exceed the count. *)
Definition HistoryBound (s : State) : Prop :=
  (Z.of_nat (length (MatchHistory s)) <= MatchResolutionCount s \/
   MatchResolutionCount s = c_MatchResolutionLimit (config s)) /\
  Z.of_nat (length (MatchHistory s)) <= c_MatchResolutionLimit (config s) + 2.

Record Good (s : State) : Prop := {
  gd_core : Core s;
  gd_phase : Deciding s \/ Over s;
  gd_history : HistoryBound s;
}.

Lemma base_users s : Base s -> NoDup (userOf <$> Players s).
Proof. intros H. pose proof (roster_users _ _ _ (b_roster _ H)) as Hu. by rewrite <- list_fmap_compose in Hu. Qed.

Lemma targeted_index s :
  NoDup (userOf <$> Players s) ->
  match playerIndex (Players s) (TargetUserID s) with
  | None => true
  | Some index => negb (p_Active (Players s !!! index)) || negb (p_TargetedThisRound (Players s !!! index))
  end = false <-> targeted (Players s) (TargetUserID s).
Proof.
  intros Hnd. split.
  - destruct (playerIndex _ _) as [i|] eqn:E; [|done]. apply playerIndex_Some in E as (p & Hp & Hu & Heq).
    rewrite Heq. intros H. to_prop. exists p. split_and!; try done. by eapply list_elem_of_lookup_2.
  - intros (p & [i Hi]%list_elem_of_lookup_1 & <- & Ha & Ht). change (p_UserID p) with (userOf p).
    rewrite (playerIndex_lookup _ _ _ Hnd Hi), (list_lookup_total_correct _ _ _ Hi), Ha, Ht. done.
Qed.

Lemma hosted_existsb s :
  existsb (fun player => String.eqb (p_UserID player) (HostUserID s)) (Players s) = true <-> hosted s.
Proof.
  rewrite existsb_exists. unfold hosted, frozenUser. split.
  - intros (p & Hp%list_elem_of_In & Hu%eqb_string_true). by exists p.
  - intros (p & Hp%list_elem_of_In & Hu). exists p. split; [done|]. by apply eqb_string_true.
Qed.

(** One early return of the validation that does not fire. *)
Ltac pass_guard :=
  match goal with
  | |- (if ?c then _ else _) = _ =>
      let E := fresh "E" in destruct c eqn:E; [exfalso|clear E]
  end.

(** Once the invariant holds the outcome of [Validate] is decided by the length
    of the match history alone. *)
Lemma Validate_history s :
  Core s -> Deciding s \/ Over s ->
  Validate s = if c_MatchResolutionLimit (config s) + 1 <? Z.of_nat (length (MatchHistory s))
               then ruleError CodeInvalidState "match history exceeds its bounded resolution count"
               else Ok tt.
Proof.
  intros [Hb Hp Hh] Hph. pose proof (base_users _ Hb) as Hnd.
  destruct Hb as [Hv Hr Hro Ho Hc Hho Hrr Hst Hct Hm Hrd]. unfold Validate.
  pose proof (roster_count _ _ _ Hro) as Hlen. rewrite length_fmap in Hlen.
  assert (Hphase : Phase s = PhaseTargetDecision \/ Phase s = PhaseFinished).
  { destruct Hph as [[? _ _ _ _]|[? _ _ _]]; auto. }
  pass_guard. { rewrite Hc in *. bool_cases; try lia; try done; destruct Hphase; congruence. }
  rewrite (proj2 (checkPlayers_iff _) Hp). cbn [bind_result]. cbv zeta.
  rewrite (proj2 (hosted_existsb s) Hho), (proj2 (ValidateParticipantsM_iff _) Hro). cbn [negb orb is_ok].
  pass_guard. { bool_cases; lia. }
  rewrite (proj2 (validateCurrentHands_iff _ _) Hh). cbn [bind_result].
  unfold validateMatchHistory. destruct (_ <? Z.of_nat _); [done|]. rewrite Hm. cbn [bind_result].
  rewrite Hrd. cbn [bind_result].
  destruct Hph as [[H1 H2 H3 H4 [H5 H6]]|[H1 H2 H3 H4]]; rewrite H1; cbn [Z.eqb PhaseTargetDecision PhaseFinished Pos.eqb].
  - pass_guard; [|done]. rewrite !orb_true_iff in E. destruct E as [[[[E|E]|E]|E]|E].
    + by rewrite H2 in E.
    + bool_cases. lia.
    + apply (targeted_index s Hnd) in H4. congruence.
    + bool_cases. auto.
    + bool_cases. specialize (H6 ltac:(done)). lia.
  - rewrite H2, H3, H4. done.
Qed.

Lemma Validate_fits s : Core s -> Deciding s \/ Over s -> Validate s = Ok tt <-> HistoryFits s.
Proof.
  intros Hc Hp. rewrite (Validate_history s Hc Hp). unfold HistoryFits.
  destruct (Z.ltb_spec (c_MatchResolutionLimit (config s) + 1) (Z.of_nat (length (MatchHistory s))));
    split; try done; lia.
Qed.

(** ** Frames *)

Lemma validateRoundHistory_frame s s' :
  config s' = config s -> Roster_eq (Players s') (Players s) -> Round s <= Round s' ->
  LastSettlement s' = LastSettlement s -> RoundHistory s' = RoundHistory s ->
  validateRoundHistory s = Ok tt -> validateRoundHistory s' = Ok tt.
Proof.
  intros Ec Ep Er El Erh. unfold validateRoundHistory. rewrite Erh, El.
  destruct (_ <? _)%nat; [done|].
  destruct (validateSettlement s (LastSettlement s)) as [[]|] eqn:Est; cbn [bind_result]; [|done].
  rewrite (validateSettlementM_mono s s' _ Ec Ep Er Est). cbn [bind_result].
  destruct (RoundHistory s) as [|x l] eqn:Erh'; [done|].
  destruct (checkRounds s 0 (x :: l)) as [[]|] eqn:Ecr; cbn [bind_result]; [|done].
  by rewrite (checkRounds_mono s s' 0 0 _ Ec Ep Er ltac:(lia) Ecr).
Qed.

(** [Base] does not look at hands, flags, phase, target or deadline. *)
Lemma Base_frame s s' :
  SchemaVersion s' = SchemaVersion s -> Round s' = Round s -> HostUserID s' = HostUserID s ->
  config s' = config s -> Roster_eq (Players s') (Players s) ->
  TargetRerollCount s' = TargetRerollCount s -> TargetStreak s' = TargetStreak s ->
  MatchResolutionCount s' = MatchResolutionCount s -> MatchHistory s' = MatchHistory s ->
  LastSettlement s' = LastSettlement s -> RoundHistory s' = RoundHistory s ->
  Base s -> Base s'.
Proof.
  intros Ev Er Eh Ec Ep Et Es Em Emh El Erh [Hv Hr Hro Ho Hc Hho Hrr Hst Hct Hm Hrd].
  pose proof (participants_users _ _ Ep) as Eu.
  assert (Hl : length (Players s') = length (Players s)).
  { pose proof (f_equal length Ep) as Hl. by rewrite !length_fmap in Hl. }
  split; rewrite ?Ev, ?Er, ?Ec, ?Et, ?Es, ?Em, ?Hl; try done.
  - by rewrite Ep.
  - apply order_seats. rewrite (participants_seats _ _ Ep). by apply order_seats.
  - unfold hosted. rewrite Eh. by apply (frozenUser_users _ _ _ (eq_sym Eu)).
  - rewrite Emh. eapply checkResolutions_mono; [exact Eu| |exact Hm]. lia.
  - eapply validateRoundHistory_frame; [exact Ec|exact Ep| |exact El|exact Erh|exact Hrd]. lia.
Qed.

(** Slices that agree through a projection [v] agree in what [v] keeps. *)
Section Views.
Context (v : PlayerState -> PlayerState).

Lemma view_cons p l p' l' :
  v <$> (p :: l) = v <$> (p' :: l') -> v p = v p' /\ v <$> l = v <$> l'.
Proof. intros H. split; [exact (f_equal (hd (v p)) H)|exact (f_equal tail H)]. Qed.

Lemma view_filter {B} (f : PlayerState -> B) (b : PlayerState -> bool) l l' :
  (forall p, f (v p) = f p) -> (forall p, b (v p) = b p) ->
  v <$> l = v <$> l' -> f <$> List.filter b l = f <$> List.filter b l'.
Proof.
  intros Hf Hb. revert l'. induction l as [|p l IH]; intros [|p' l'] Heq; try done.
  destruct (view_cons _ _ _ _ Heq) as [Hp Hl]. cbn [List.filter].
  assert (Hbp : b p = b p') by by rewrite <- (Hb p), <- (Hb p'), Hp.
  assert (Hfp : f p = f p') by by rewrite <- (Hf p), <- (Hf p'), Hp.
  rewrite Hbp. destruct (b p'); cbn [fmap list_fmap]; [|by apply IH]. rewrite Hfp. f_equal. by apply IH.
Qed.

Lemma view_fmap {B} (f : PlayerState -> B) (l l' : list PlayerState) :
  (forall p, f (v p) = f p) -> v <$> l = v <$> l' -> f <$> l = f <$> l'.
Proof.
  intros Hf. revert l'. induction l as [|p l IH]; intros [|p' l'] Heq; try done.
  destruct (view_cons _ _ _ _ Heq) as [Hp Hl]. cbn [fmap list_fmap]. f_equal; [|by apply IH].
  by rewrite <- (Hf p), <- (Hf p'), Hp.
Qed.

Lemma view_elem (l l' : list PlayerState) p :
  v <$> l = v <$> l' -> p ∈ l -> exists p', p' ∈ l' /\ v p' = v p.
Proof.
  intros Heq Hp. assert (Hin : v p ∈ v <$> l') by (rewrite <- Heq; by apply list_elem_of_fmap_2).
  apply list_elem_of_fmap in Hin as (p' & ? & ?). by exists p'.
Qed.

Lemma view_activeCount (l l' : list PlayerState) :
  (forall p, p_Active (v p) = p_Active p) -> v <$> l = v <$> l' -> activeCount l = activeCount l'.
Proof.
  intros Ha Heq. unfold activeCount, countb.
  pose proof (f_equal length (view_filter (fun _ => tt) p_Active l l' (fun _ => eq_refl) Ha Heq)) as Hl.
  by rewrite !length_fmap in Hl.
Qed.
End Views.

(** The projection that keeps what charging a penalty keeps. *)
Definition noPenalty (p : PlayerState) : PlayerState := p <| p_PenaltyTicks := 0 |>.

(** [s'] is [s] after charging penalties. *)
Definition Charged (s s' : State) : Prop :=
  s' = s <| Players := Players s' |> /\ noPenalty <$> Players s' = noPenalty <$> Players s.

Lemma Charged_refl s : Charged s s.
Proof. by split; [destruct s|]. Qed.

Lemma Charged_trans s1 s2 s3 : Charged s1 s2 -> Charged s2 s3 -> Charged s1 s3.
Proof. intros [-> H1] [-> H2]. split; [done|]. cbn in *. congruence. Qed.

Lemma Charged_roster s s' : Charged s s' -> Roster_eq (Players s') (Players s).
Proof. intros [_ H]. by eapply (view_fmap noPenalty participantOf). Qed.

(** Projections that keep identity, activity, inclusion and hand keep the
    validity of the table. *)
Lemma table_view (v : PlayerState -> PlayerState) cfg (l l' : list PlayerState) :
  (forall p, participantOf (v p) = participantOf p) -> (forall p, p_Active (v p) = p_Active p) ->
  (forall p, p_IncludedInCurrentResolution (v p) = p_IncludedInCurrentResolution p) ->
  (forall p, p_Hand (v p) = p_Hand p) ->
  v <$> l' = v <$> l -> PlayersOK l -> HandsCurrent cfg l -> PlayersOK l' /\ HandsCurrent cfg l'.
Proof.
  intros Hpart Ha Hi Hh Heq [Ho Hinc Hbas] Hcur. split.
  - assert (Hro : Roster_eq l' l) by by apply (view_fmap v participantOf). split.
    + apply order_seats. rewrite (participants_seats _ _ Hro). by apply order_seats.
    + intros p (q & Hq & Heqp)%(view_elem v _ _ _ Heq). specialize (Hinc q Hq).
      by rewrite <- (Ha q), <- (Hi q), Heqp, Ha, Hi in Hinc.
    + intros p (q & Hq & Heqp)%(view_elem v _ _ _ Heq). specialize (Hbas q Hq).
      unfold HandBasic in *. by rewrite <- (Hh q), Heqp, Hh in Hbas.
  - unfold HandsCurrent in *. by rewrite (view_filter v p_Hand p_IncludedInCurrentResolution l' l Hh Hi Heq).
Qed.

Lemma Charged_Core s s' : Charged s s' -> Core s -> Core s'.
Proof.
  intros Hch [Hb Hp Hh]. pose proof (Charged_roster _ _ Hch) as Hro. destruct Hch as [Heq Hnp].
  destruct (table_view noPenalty (config s) _ _ (fun _ => eq_refl) (fun _ => eq_refl) (fun _ => eq_refl)
              (fun _ => eq_refl) Hnp Hp Hh) as [Hp' Hh'].
  split; [|done|by rewrite Heq]. eapply Base_frame; [..|exact Hb]; by rewrite Heq.
Qed.

Lemma addPenalty_inv s u amount reason batch s' ev :
  addPenalty s u amount reason batch = Ok (s', ev) ->
  exists i p after, playerIndex (Players s) u = Some i /\ Players s !! i = Some p /\ p_UserID p = u /\
    p_Active p = true /\ Dice.Ticks_Add (p_PenaltyTicks p) amount = Ok after /\
    s' = s <| Players := <[i := p <| p_PenaltyTicks := after |>]> (Players s) |> /\
    e_PenaltyTicks ev = amount /\ e_UserID ev = u /\ e_Kind ev = EventPenaltyRecorded.
Proof.
  unfold addPenalty. rewrite CloneM_id. cbv zeta. intros H.
  destruct (playerIndex (Players s) u) as [i|] eqn:Ei; [|done].
  apply playerIndex_Some in Ei as Hi. destruct Hi as (p & Hp & Hu & Heq). rewrite Heq in H. clear Heq.
  inv_result H. destruct (Dice.Ticks_Add _ _) as [after|] eqn:Et; [|done]. inv_results H.
  to_prop. exists i, p, after. done.
Qed.

Lemma addPenalty_Charged s u amount reason batch s' ev :
  addPenalty s u amount reason batch = Ok (s', ev) -> Charged s s'.
Proof.
  intros (i & p & after & _ & Hp & _ & _ & _ & -> & _)%addPenalty_inv. split; [done|].
  cbn [Players update]. by apply (fmap_insert_same noPenalty _ _ p).
Qed.

Lemma penalizeUsers_Charged s users amount reason batch s' evs :
  penalizeUsers s users amount reason batch = Ok (s', evs) -> Charged s s'.
Proof.
  revert s s' evs. induction users as [|u users IH]; intros s s' evs; cbn [penalizeUsers].
  { intros [= <- <-]. apply Charged_refl. }
  intros H. inv_result H. destruct value as [s1 ev]. inv_result H. destruct value as [s2 evs']. inv_results H.
  eapply Charged_trans; [by eapply addPenalty_Charged|by eapply IH].
Qed.

Lemma penalizeGroups_Charged s groups batch s' evs :
  penalizeGroups s groups batch = Ok (s', evs) -> Charged s s'.
Proof.
  revert s s' evs. induction groups as [|g groups IH]; intros s s' evs; cbn [penalizeGroups].
  { intros [= <- <-]. apply Charged_refl. }
  intros H. inv_result H. destruct value as [s1 ev]. inv_result H. destruct value as [s2 evs']. inv_results H.
  eapply Charged_trans; [|by eapply IH]. unfold penalizeGroup in E. inv_result E. destruct value as [s3 evs3].
  apply penalizeUsers_Charged in E1. destruct (_ && _).
  - inv_result E. destruct value as [s4 ev4]. injection E as <- <-.
    eapply Charged_trans; [exact E1|by eapply addPenalty_Charged].
  - by injection E as <- <-.
Qed.

(** ** Rolling *)

(** [l'] is [l] with new hands, each satisfying [R] with its player. *)
Definition Rehanded (R : PlayerState -> Hand -> Prop) (l l' : list PlayerState) : Prop :=
  Forall2 (fun p p' => p' = p <| p_Hand := p_Hand p' |> /\ R p (p_Hand p')) l l'.

Lemma Rehanded_intro R l l' :
  length l' = length l ->
  (forall i p, l !! i = Some p -> exists h, l' !! i = Some (p <| p_Hand := h |>) /\ R p h) ->
  Rehanded R l l'.
Proof.
  intros Hl Hi. apply Forall2_same_length_lookup. split; [done|]. intros i p p' Hp Hp'.
  destruct (Hi i p Hp) as (h & Hh & HR). rewrite Hp' in Hh. injection Hh as ->. done.
Qed.

Lemma Rehanded_lookup R l l' i p :
  Rehanded R l l' -> l !! i = Some p -> exists h, l' !! i = Some (p <| p_Hand := h |>) /\ R p h.
Proof.
  intros H Hi. destruct (Forall2_lookup_l _ _ _ _ _ H Hi) as (p' & Hp' & Heq & HR).
  exists (p_Hand p'). by rewrite <- Heq.
Qed.

Lemma Rehanded_elem R l l' p' :
  Rehanded R l l' -> p' ∈ l' -> exists p, p ∈ l /\ p' = p <| p_Hand := p_Hand p' |> /\ R p (p_Hand p').
Proof.
  intros H [i Hi]%list_elem_of_lookup_1. destruct (Forall2_lookup_r _ _ _ _ _ H Hi) as (p & Hp & Heq & HR).
  exists p. split; [by eapply list_elem_of_lookup_2|done].
Qed.

(** What assigning fresh hands to [users] does. *)
Definition Assigned (cfg : Config) (users : list string) (p : PlayerState) (h : Hand) : Prop :=
  (h = p_Hand p \/ Handed cfg h) /\ (p_UserID p ∈ users -> Handed cfg h) /\
  (p_Active p = false -> h = p_Hand p).

Lemma assignHands_spec cfg faces n users players players' :
  NoDup (userOf <$> players) -> assignHands cfg faces n users players = Ok players' ->
  Rehanded (Assigned cfg users) players players'.
Proof.
  revert n players. induction users as [|u users IH]; intros n players Hnd; cbn [assignHands].
  { intros [= <-]. apply Rehanded_intro; [done|]. intros i p Hp. exists (p_Hand p).
    split; [by destruct p|]. split_and!; [by left|by intros ?%not_elem_of_nil|done]. }
  destruct (playerIndex players u) as [i|] eqn:Ei; [|done].
  apply playerIndex_Some in Ei as (q & Hq & Hu & Heq). rewrite Heq. intros H. inv_result H.
  apply negb_false_iff in E. inv_result H. rename value into hand. apply Classify_Handed in E0.
  pose proof (lookup_lt_Some _ _ _ Hq) as Hlt.
  assert (Hnd' : NoDup (userOf <$> <[i := q <| p_Hand := hand |>]> players)).
  { by rewrite (fmap_insert_same userOf _ _ q). }
  apply IH in H; [|done]. apply Rehanded_intro.
  { by rewrite <- (Forall2_length _ _ _ H), length_insert. }
  intros j p Hp. destruct (decide (j = i)) as [->|Hne].
  - assert (p = q) as -> by congruence.
    destruct (Rehanded_lookup _ _ _ i (q <| p_Hand := hand |>) H) as (h & Hh & Hor & Hin & Hina).
    { by apply list_lookup_insert_eq. }
    exists h. split; [exact Hh|]. assert (HH : Handed cfg h) by (destruct Hor as [->|]; done).
    split_and!; [by right|done|]. intros Hf. congruence.
  - destruct (Rehanded_lookup _ _ _ j p H) as (h & Hh & Hor & Hin & Hina).
    { by rewrite list_lookup_insert_ne. }
    exists h. split; [done|]. split_and!; try done. intros [Hu'|?]%elem_of_cons; [|by apply Hin].
    exfalso. apply Hne. eapply (NoDup_lookup _ _ _ u Hnd); rewrite list_lookup_fmap.
    + rewrite Hp. cbn. by rewrite Hu'.
    + rewrite Hq. cbn. f_equal. exact Hu.
Qed.

Lemma writeHands_spec (inc : PlayerState -> bool) players hands :
  (forall p h, inc (p <| p_Hand := h |>) = inc p) -> length hands = length (List.filter inc players) ->
  p_Hand <$> List.filter inc (writeHands inc players hands) = hands /\
  Rehanded (fun p h => (inc p = true -> h ∈ hands) /\ (inc p = false -> h = p_Hand p))
           players (writeHands inc players hands).
Proof.
  intros Hinc. revert hands. induction players as [|p players IH]; intros hands Hl; cbn [writeHands].
  { destruct hands; [|done]. split; [done|constructor]. }
  cbn [List.filter] in Hl. destruct (inc p) eqn:Ep.
  - destruct hands as [|h hands]; [done|]. cbn [length] in Hl. injection Hl as Hl.
    destruct (IH hands Hl) as [Heq HR]. cbn [List.filter]. rewrite Hinc, Ep. cbn [fmap list_fmap].
    split; [by rewrite Heq|]. constructor.
    + split; [done|]. split; [intros _; constructor|congruence].
    + eapply Forall2_impl; [exact HR|]. intros q q' [Hq [Hin Hout]]. split; [done|].
      split; [intros Hi; constructor; by apply Hin|done].
  - destruct (IH hands Hl) as [Heq HR]. cbn [List.filter]. rewrite Ep. split; [done|].
    constructor; [|done]. split; [by destruct p|]. split; [congruence|done].
Qed.

(** Everything of a player but the hand and the resolution flag. *)
Definition bare (p : PlayerState) : PlayerState :=
  p <| p_Hand := zeroHand |> <| p_IncludedInCurrentResolution := false |>.

Lemma Rehanded_bare R l l' : Rehanded R l l' -> bare <$> l' = bare <$> l.
Proof.
  induction 1 as [|p p' l l' [Heq _] _ IH]; [done|]. cbn [fmap list_fmap]. rewrite IH, Heq. done.
Qed.

Lemma Rehanded_filter R (inc : PlayerState -> bool) l l' :
  (forall p h, inc (p <| p_Hand := h |>) = inc p) -> Rehanded R l l' ->
  Rehanded R (List.filter inc l) (List.filter inc l').
Proof.
  intros Hinc. induction 1 as [|p p' l l' [Heq HR] _ IH]; [constructor|]. cbn [List.filter].
  rewrite Heq, Hinc. destruct (inc p); [|done]. constructor; [|done].
  split; [by rewrite <- Heq|by rewrite <- Heq].
Qed.

Lemma includeActive_elem l p :
  p ∈ includeActive l -> p_IncludedInCurrentResolution p = p_Active p /\
  exists q, q ∈ l /\ p = q <| p_IncludedInCurrentResolution := p_Active q |>.
Proof. intros (q & -> & Hq)%list_elem_of_fmap. split; [done|]. by exists q. Qed.

Lemma includeActive_bare l : bare <$> includeActive l = bare <$> l.
Proof. unfold includeActive. rewrite <- list_fmap_compose. by apply list_fmap_ext. Qed.

Lemma filter_included l :
  (forall p, p ∈ l -> p_IncludedInCurrentResolution p = p_Active p) ->
  List.filter p_IncludedInCurrentResolution l = List.filter p_Active l.
Proof.
  induction l as [|p l IH]; intros H; cbn [List.filter]; [done|].
  rewrite (H p (list_elem_of_here _ _)), IH; [done|]. intros q Hq. apply H. by constructor.
Qed.

(** Re-resolving the active hands of a table whose included players are the
    active ones brings the classification up to date. *)
Lemma resolvePlayer235_current cfg players :
  (forall p, p ∈ players -> p_IncludedInCurrentResolution p = p_Active p) ->
  (forall p, p ∈ players -> p_Active p = true -> Handed cfg (p_Hand p)) ->
  let players' := writeHands p_Active players (Resolve235Context (p_Hand <$> List.filter p_Active players)) in
  HandsCurrent cfg players' /\
  Rehanded (fun p h => (p_Active p = true -> Handed cfg h) /\ (p_Active p = false -> h = p_Hand p))
           players players'.
Proof.
  intros Hinc Hh players'. set (hs := p_Hand <$> List.filter p_Active players) in *.
  assert (Hlen : length (Resolve235Context hs) = length (List.filter p_Active players)).
  { rewrite Resolve235Context_imap, length_imap. unfold hs. by rewrite length_fmap. }
  destruct (writeHands_spec p_Active players (Resolve235Context hs) (fun _ _ => eq_refl) Hlen) as [Hw HR].
  fold players' in Hw, HR.
  destruct (Handed_classes cfg hs) as (cs & Hcs & Hctx).
  { apply Forall_forall. intros h (p & -> & Hp)%list_elem_of_fmap.
    apply list_elem_of_In, filter_In in Hp as [Hp Ha]. apply Hh; [by apply list_elem_of_In|done]. }
  rewrite (resolve_Contextual cs hs Hctx) in Hw.
  assert (Hraw : Forall2 (fun h c => Classify (Raw h) cfg = Ok c) (Resolve235Context cs) cs).
  { rewrite <- (resolve_Contextual cs hs Hctx).
    pose proof (Resolve235Context_Contextual hs) as Hc2. clear -Hcs Hc2.
    revert Hc2. generalize (Resolve235Context hs). induction Hcs as [|h c hs cs Hc _ IH]; intros rs Hc2; inversion Hc2; subst; constructor; [|by apply IH].
    match goal with H : Contextual h _ |- _ => apply Contextual_fields in H as [-> _] end. done. }
  assert (Hin' : forall p, p ∈ players' -> p_IncludedInCurrentResolution p = p_Active p).
  { intros p (q & Hq & -> & _)%(Rehanded_elem _ _ _ _ HR). exact (Hinc q Hq). }
  assert (Hcur : HandsCurrent cfg players').
  { exists cs. rewrite (filter_included _ Hin'), Hw. done. }
  split; [done|]. apply Rehanded_intro; [by rewrite (Forall2_length _ _ _ HR)|].
  intros i p Hp. destruct (Rehanded_lookup _ _ _ _ _ HR Hp) as (h & Hh' & Ht & Hf). exists h.
  split; [done|]. split; [|done]. intros Ha.
  change (Handed cfg (p_Hand (p <| p_Hand := h |>))).
  apply (HandsCurrent_Handed cfg players' (p <| p_Hand := h |>) Hcur); [by eapply list_elem_of_lookup_2|].
  cbn. rewrite (Hinc p); [done|]. by eapply list_elem_of_lookup_2.
Qed.

(** What a roll, a penalty or a match batch never touches of a player: identity,
    activity and targeting. *)
Definition still (p : PlayerState) : PlayerState := bare (noPenalty p).

(** [s'] is [s] with new hands, penalties and match batches. *)
Definition Moved (s s' : State) : Prop :=
  s' = s <| Players := Players s' |> <| MatchResolutionCount := MatchResolutionCount s' |>
         <| MatchHistory := MatchHistory s' |> /\
  still <$> Players s' = still <$> Players s.

Lemma Moved_refl s : Moved s s.
Proof. by split; [destruct s|]. Qed.

Lemma Moved_trans s1 s2 s3 : Moved s1 s2 -> Moved s2 s3 -> Moved s1 s3.
Proof. intros [-> H1] [-> H2]. split; [done|]. cbn in *. congruence. Qed.

Lemma still_of (v : PlayerState -> PlayerState) (l l' : list PlayerState) :
  (forall p, still (v p) = still p) -> v <$> l = v <$> l' -> still <$> l = still <$> l'.
Proof. apply view_fmap. Qed.

Lemma Charged_Moved s s' : Charged s s' -> Moved s s'.
Proof. intros [Heq Hp]. split; [rewrite Heq; by destruct s|]. by apply (still_of noPenalty). Qed.

Lemma Moved_roster s s' : Moved s s' -> Roster_eq (Players s') (Players s).
Proof. intros [_ H]. by eapply (view_fmap still participantOf). Qed.

Lemma Moved_activeCount s s' : Moved s s' -> activeCount (Players s') = activeCount (Players s).
Proof. intros [_ H]. by apply (view_activeCount still). Qed.

(** Targeting survives a move. *)
Lemma still_targeted (l l' : list PlayerState) u : still <$> l' = still <$> l -> targeted l u -> targeted l' u.
Proof.
  intros Heq (p & Hp & Hu & Ha & Ht). destruct (view_elem still _ _ _ (eq_sym Heq) Hp) as (q & Hq & Hs).
  exists q. destruct p, q. injection Hs. intros. cbn in *. by subst.
Qed.

Lemma core_Handed s p : Core s -> p ∈ Players s -> p_Active p = true -> Handed (config s) (p_Hand p).
Proof.
  intros [_ [_ Hi _] Hh] Hp Ha. eapply HandsCurrent_Handed; [exact Hh|done|]. by apply Hi.
Qed.

Lemma rollUsers_spec s roller users batch reason s' evs roller' :
  Base s ->
  (forall p, p ∈ Players s -> p_Active p = true -> p_UserID p ∈ users \/ Handed (config s) (p_Hand p)) ->
  (forall p, p ∈ Players s -> p_Active p = false -> HandBasic p) ->
  rollUsers s roller users batch reason = Ok (s', evs, roller') ->
  Core s' /\ s' = s <| Players := Players s' |> /\ bare <$> Players s' = bare <$> Players s.
Proof.
  intros Hb Hact Hina. unfold rollUsers. rewrite CloneM_id. intros H. inv_result H. cbv zeta in H.
  inv_result H. destruct value as [faces roller1]. inv_result H. rename value into players.
  cbn [Players config update] in E1. injection H as Hs' _ _.
  assert (Hnd : NoDup (userOf <$> includeActive (Players s))).
  { unfold includeActive. rewrite <- list_fmap_compose. exact (base_users _ Hb). }
  pose proof (assignHands_spec _ _ _ _ _ _ Hnd E1) as Has.
  assert (Hinc : forall p, p ∈ players -> p_IncludedInCurrentResolution p = p_Active p).
  { intros p (q & Hq & -> & _)%(Rehanded_elem _ _ _ _ Has). by apply includeActive_elem in Hq as [? _]. }
  assert (Hhand : forall p, p ∈ players -> p_Active p = true -> Handed (config s) (p_Hand p)).
  { intros p Hp Ha. destruct (Rehanded_elem _ _ _ _ Has Hp) as (q & Hq & Heq & Hor & Hin & _).
    apply includeActive_elem in Hq as (_ & r & Hr & ->). rewrite Heq in Ha.
    destruct (Hact r Hr Ha) as [Hu|HH]; [by apply Hin|]. destruct Hor as [->|]; done. }
  destruct (resolvePlayer235_current (config s) players Hinc Hhand) as [Hcur HR].
  set (players' := writeHands _ _ _) in *.
  assert (Hpl : s' = s <| Players := players' |>) by (rewrite <- Hs'; done).
  assert (Hbare : bare <$> players' = bare <$> Players s).
  { by rewrite (Rehanded_bare _ _ _ HR), (Rehanded_bare _ _ _ Has), includeActive_bare. }
  assert (Hro : Roster_eq players' (Players s)) by (by eapply (view_fmap bare participantOf)).
  split; [|by rewrite Hpl]. rewrite Hpl. split.
  - eapply Base_frame; [..|exact Hb]; done.
  - split; cbn [Players update].
    + apply order_seats. rewrite (participants_seats _ _ Hro). apply order_seats, Hb.
    + intros p (q & Hq & -> & _)%(Rehanded_elem _ _ _ _ HR). cbn. by rewrite (Hinc q Hq).
    + intros p Hp. destruct (Rehanded_elem _ _ _ _ HR Hp) as (q & Hq & Heq & Ht & Hf).
      unfold HandBasic. destruct (p_Active q) eqn:Ea; [by eapply Handed_basic, Ht|].
      rewrite Hf by done. destruct (Rehanded_elem _ _ _ _ Has Hq) as (r & Hr & Heqr & _ & _ & Hfr).
      assert (Har : p_Active r = false) by (by rewrite Heqr in Ea).
      rewrite (Hfr Har). apply includeActive_elem in Hr as (_ & r0 & Hr0 & ->). exact (Hina r0 Hr0 Har).
  - exact Hcur.
Qed.

Lemma rollUsers_Core s roller users batch reason s' evs roller' :
  Core s -> rollUsers s roller users batch reason = Ok (s', evs, roller') -> Core s' /\ Moved s s' /\
  MatchResolutionCount s' = MatchResolutionCount s /\ MatchHistory s' = MatchHistory s.
Proof.
  intros Hc H. apply rollUsers_spec in H as (Hc' & Heq & Hbare);
    [|apply Hc|intros p Hp Ha; right; by eapply core_Handed|intros p Hp _; by apply (po_hands _ (co_players _ Hc))].
  split; [done|]. split; [|by rewrite Heq]. split; [rewrite Heq; by destruct s|].
  apply (still_of bare); [|done]. by intros [].
Qed.

(** ** Match resolution *)
Lemma Base_history s count history :
  Base s -> 0 <= count <= c_MatchResolutionLimit (config s) ->
  checkResolutions (s <| MatchResolutionCount := count |>) 0 history = Ok tt ->
  Base (s <| MatchResolutionCount := count |> <| MatchHistory := history |>).
Proof.
  intros [Hv Hr Hro Ho Hc Hho Hrr Hst Hct Hm Hrd] Hcount Hh. split; try done.
  - by eapply checkResolutions_mono; [| |exact Hh].
  - by eapply validateRoundHistory_frame; [| | | | |exact Hrd].
Qed.

Lemma limits_small s :
  Base s -> c_MatchResolutionLimit (config s) <= 8 /\ c_TargetRerollLimit (config s) <= 3.
Proof.
  intros Hb. pose proof (b_config _ Hb) as Hc. unfold Config_Validate in Hc. inv_result Hc. by to_prop.
Qed.

(** Recording a resolution of the current groups under a new count. *)
Lemma record_resolution s count capped :
  Core s -> MatchResolutionCount s <= count <= c_MatchResolutionLimit (config s) ->
  FindMatchGroups (Players s) <> [] ->
  Core (s <| MatchResolutionCount := count |>
          <| MatchHistory := MatchHistory s
               ++ [mkResolution count (cloneGroups (FindMatchGroups (Players s))) capped] |>).
Proof.
  intros [Hb Hp Hh] Hcount Hne. split; [|done|done]. apply Base_history; [done| |].
  - pose proof (b_count _ Hb). lia.
  - apply checkResolutions_snoc; try done.
    + eapply checkResolutions_mono; [| |apply (b_matches _ Hb)]; [done|]. cbn. lia.
    + cbn. pose proof (b_count _ Hb). lia.
    + cbn. by rewrite cloneGroups_id.
    + cbn [m_Groups Players update]. rewrite cloneGroups_id.
      apply GroupsOK_check; [by apply base_users|]. apply FindMatchGroups_OK. by apply base_users.
Qed.

Lemma resolveBatch_spec s roller s' evs roller' :
  Core s -> MatchResolutionCount s < c_MatchResolutionLimit (config s) ->
  FindMatchGroups (Players s) <> [] ->
  resolveBatch s roller (FindMatchGroups (Players s)) = Ok (s', evs, roller') ->
  Core s' /\ Moved s s' /\ MatchResolutionCount s' = MatchResolutionCount s + 1 /\
  length (MatchHistory s') = S (length (MatchHistory s)).
Proof.
  intros Hc Hlt Hne. pose proof (limits_small s (co_base _ Hc)) as [Hlim _].
  pose proof (b_count _ (co_base _ Hc)) as Hcount.
  unfold resolveBatch. rewrite (u32_small (MatchResolutionCount s + 1)) by (unfold is_u32, maxUint32; lia).
  cbv zeta. intros H. set (s1 := s <| MatchResolutionCount := _ |> <| MatchHistory := _ |>) in H.
  assert (Hc1 : Core s1) by (apply record_resolution; [done|lia|done]).
  assert (Hm1 : Moved s s1) by done.
  inv_result H. destruct value as [s2 pens]. apply penalizeGroups_Charged in E.
  pose proof (Charged_Core _ _ E Hc1) as Hc2.
  inv_result H. destruct value as [[s3 reveals] roller3]. injection H as <- _ _.
  apply rollUsers_Core in E0 as (Hc3 & Hm3 & Hn3 & Hh3); [|done].
  split; [done|]. split; [by eapply Moved_trans; [exact Hm1|eapply Moved_trans; [by apply Charged_Moved|]]|].
  destruct E as [Heq _]. rewrite Hn3, Hh3, Heq. cbn. rewrite length_app. cbn. split; [done|lia].
Qed.

(** The entries of the match history beyond the resolution count. *)
Definition excess (s : State) : Z := Z.of_nat (length (MatchHistory s)) - MatchResolutionCount s.

(** The outcome of the resolution loop: either no group is left, or the limit
    is reached and one capped entry was recorded. *)
Definition Resolved (s s' : State) : Prop :=
  Core s' /\ Moved s s' /\ MatchResolutionCount s <= MatchResolutionCount s' /\
  (FindMatchGroups (Players s') = [] /\ excess s' = excess s \/
   excess s' = excess s + 1 /\ MatchResolutionCount s' = c_MatchResolutionLimit (config s') /\
   exists groups, last (MatchHistory s') = Some (mkResolution (MatchResolutionCount s') groups true)).

Lemma resolveLoop_spec fuel s roller evs s' evs' roller' :
  Core s -> resolveLoop fuel s roller evs = Some (Ok (s', evs', roller')) -> Resolved s s'.
Proof.
  revert s roller evs. induction fuel as [|fuel IH]; intros s roller evs Hc; cbn [resolveLoop]; [done|].
  destruct (FindMatchGroups (Players s)) as [|g gs] eqn:Eg.
  { intros [= <- _ _]. split_and!; [done|apply Moved_refl|done|by left]. }
  rewrite <- Eg. assert (Hne : FindMatchGroups (Players s) <> []) by by rewrite Eg.
  destruct (Nat.eqb_spec (length (FindMatchGroups (Players s))) 0) as [E0|_]; [by destruct (FindMatchGroups _)|].
  pose proof (b_count _ (co_base _ Hc)) as Hcount.
  destruct (Z.leb_spec (c_MatchResolutionLimit (config s)) (MatchResolutionCount s)) as [Hcap|Hlt].
  - cbn [capResolution]. intros [= <- _ _]. split_and!.
    + exact (record_resolution s (MatchResolutionCount s) true Hc ltac:(lia) Hne).
    + done.
    + done.
    + right. unfold excess. cbn [MatchHistory MatchResolutionCount config update]. rewrite length_app. cbn [length].
      split_and!; [lia|lia|]. eexists. by rewrite last_snoc.
  - destruct (resolveBatch s roller (FindMatchGroups (Players s))) as [[[s1 ev1] r1]|] eqn:Eb; [|done].
    apply resolveBatch_spec in Eb as (Hc1 & Hm1 & Hn1 & Hl1); [|done..].
    intros (Hc' & Hm' & Hle & Hor)%IH; [|done]. split_and!; [done|by eapply Moved_trans|lia|].
    assert (Hex : excess s1 = excess s) by (unfold excess; rewrite Hn1, Hl1; lia).
    by rewrite Hex in Hor.
Qed.

(** The fuel of [resolveMatches] suffices, and more does not change the result. *)
Lemma resolveLoop_terminates fuel s roller evs :
  Core s -> (Z.to_nat (c_MatchResolutionLimit (config s) - MatchResolutionCount s) < fuel)%nat ->
  exists outcome, resolveLoop fuel s roller evs = Some outcome /\
    forall more, (fuel <= more)%nat -> resolveLoop more s roller evs = Some outcome.
Proof.
  revert s roller evs. induction fuel as [|fuel IH]; intros s roller evs Hc Hfuel; [lia|].
  destruct (FindMatchGroups (Players s)) as [|g gs] eqn:Eg.
  { exists (Ok (s, evs, roller)). split; [|intros [|more] Hm; [lia|]]; cbn [resolveLoop]; by rewrite Eg. }
  assert (Hne : FindMatchGroups (Players s) <> []) by by rewrite Eg.
  assert (Hl : (length (FindMatchGroups (Players s)) =? 0)%nat = false) by by rewrite Eg.
  destruct (Z.leb_spec (c_MatchResolutionLimit (config s)) (MatchResolutionCount s)) as [Hcap|Hlt].
  { apply Z.leb_le in Hcap. eexists. split; [|intros [|more] Hm; [lia|]]; cbn [resolveLoop]; by rewrite Hl, Hcap. }
  apply Z.leb_gt in Hlt as Hlt'.
  destruct (resolveBatch s roller (FindMatchGroups (Players s))) as [[[s1 ev1] r1]|e] eqn:Eb.
  - apply resolveBatch_spec in Eb as Hb; [|done..]. destruct Hb as (Hc1 & [Heq _] & Hn1 & _).
    assert (Hlim : c_MatchResolutionLimit (config s1) = c_MatchResolutionLimit (config s)) by by rewrite Heq.
    destruct (IH s1 r1 (evs ++ ev1) Hc1) as (outcome & Ho & Hmore); [rewrite Hlim, Hn1; lia|].
    exists outcome. split; [|intros [|more] Hm; [lia|]]; cbn [resolveLoop]; rewrite Hl, Hlt', Eb; [done|].
    apply Hmore. lia.
  - exists (Err e). split; [|intros [|more] Hm; [lia|]]; cbn [resolveLoop]; by rewrite Hl, Hlt', Eb.
Qed.

Lemma resolveMatches_spec s roller s' evs roller' :
  Core s -> resolveMatches s roller = Ok (s', evs, roller') -> Resolved s s'.
Proof.
  intros Hc. unfold resolveMatches. rewrite CloneM_id.
  destruct (resolveLoop _ _ _ _) as [[x|e]|] eqn:E; [|done|done]. intros [= ->].
  by eapply resolveLoop_spec.
Qed.

(** ** Selecting the target *)
Lemma deadlineM_ok s now d :
  Base s -> deadlineUnixMillis now (c_ActionTimeoutSeconds (config s)) = Ok d ->
  (c_ActionTimeoutSeconds (config s) = 0 -> d = 0) /\ (c_ActionTimeoutSeconds (config s) <> 0 -> 0 < d).
Proof.
  intros Hb H. pose proof (b_config _ Hb) as Hc. unfold Config_Validate in Hc. inv_result Hc. clear Hc.
  unfold deadlineUnixMillis, validUnixMillis in H. inv_result H. inv_result H; [inv_results H; to_prop; split; [done|lia]|].
  inv_results H. bool_cases; split; lia.
Qed.

(** The scan keeps the index of the weakest active hand met so far. *)
Lemma lowestLoop_Some players index rest lowest i :
  (forall j p, rest !! j = Some p -> players !! (index + j)%nat = Some p) ->
  (forall l, lowest = Some l -> exists p, players !! l = Some p /\ p_Active p = true) ->
  lowestLoop players index rest lowest = Some i ->
  exists p, players !! i = Some p /\ p_Active p = true.
Proof.
  revert index lowest. induction rest as [|q rest IH]; intros index lowest Hrest Hlow; cbn [lowestLoop].
  { intros H. by apply Hlow. }
  apply IH.
  - intros j p Hj. rewrite Nat.add_succ_comm. by apply Hrest.
  - specialize (Hrest 0%nat q eq_refl). rewrite Nat.add_0_r in Hrest.
    intros l Hl. destruct (p_Active q) eqn:Ea; cbn [negb] in Hl; [|by apply Hlow].
    destruct lowest as [low|]; [|by simplify_eq; eauto].
    destruct (_ <? 0); [by simplify_eq; eauto|by apply Hlow].
Qed.

Lemma lowestActiveUser_active s target :
  lowestActiveUser s = Ok target ->
  exists i p, Players s !! i = Some p /\ p_Active p = true /\ p_UserID p = target.
Proof.
  unfold lowestActiveUser. destruct (lowestLoop _ _ _ _) as [i|] eqn:E; [|done]. intros [= <-].
  apply lowestLoop_Some in E as (p & Hp & Ha); [|done|done].
  exists i, p. by rewrite (list_lookup_total_correct _ _ _ Hp).
Qed.

(** Everything of a player but penalty and targeting. *)
Definition quiet (p : PlayerState) : PlayerState := p <| p_PenaltyTicks := 0 |> <| p_TargetedThisRound := false |>.

Lemma Base_streak s x : Base s -> 0 <= x <= TargetRerollCount s -> Base (s <| TargetStreak := x |>).
Proof.
  intros [Hv Hr Hro Ho Hc Hho Hrr Hst Hct Hm Hrd] Hx. split; try done.
  - by eapply checkResolutions_mono; [| |exact Hm].
  - by eapply validateRoundHistory_frame; [| | | | |exact Hrd].
Qed.

(** The state [selectTarget] builds before a first-selection penalty. *)
Definition marked (s : State) (i : nat) (p : PlayerState) (previous : string) (deadline : Z) : State :=
  (markTarget s i (p_UserID p) previous) <| ActionDeadlineUnixMillis := deadline |>.

Lemma selectTarget_inv s previous now reason s' evs :
  Base s -> selectTarget s previous now reason = Ok (s', evs) ->
  exists i p deadline,
    lowestActiveUser s = Ok (p_UserID p) /\ Players s !! i = Some p /\ p_Active p = true /\
    deadlineUnixMillis now (c_ActionTimeoutSeconds (config s)) = Ok deadline /\
    ((p_TargetedThisRound p = true /\ s' = marked s i p previous deadline) \/
     (p_TargetedThisRound p = false /\ exists ev,
        addPenalty (marked s i p previous deadline) (p_UserID p) (c_TargetPenaltyTicks (config s))
          "target_selected" 0 = Ok (s', ev))).
Proof.
  intros Hb H. unfold selectTarget in H. inv_result H. rename value into target.
  destruct (lowestActiveUser_active s target E) as (i & p & Hp & Ha & <-).
  assert (Hi : default 0%nat (playerIndex (Players s) (p_UserID p)) = i).
  { change (p_UserID p) with (userOf p). by rewrite (playerIndex_lookup _ _ _ (base_users _ Hb) Hp). }
  rewrite CloneM_id, Hi, (list_lookup_total_correct _ _ _ Hp) in H.
  exists i, p. inv_result H. rename value into deadline. exists deadline.
  split_and!; [done|done|done|done|].
  destruct (negb (p_TargetedThisRound p)) eqn:Et; to_prop.
  - right. split; [done|]. inv_result H. destruct value as [s1 ev]. apply Ok_pair_inj in H as [<- _].
    assert (Hcfg : config (marked s i p previous deadline) = config s) by done.
    exists ev. rewrite <- Hcfg. exact E1.
  - left. split; [done|]. by apply Ok_pair_inj in H as [<- _].
Qed.

Lemma quiet_marked s i p previous deadline :
  Players s !! i = Some p -> quiet <$> Players (marked s i p previous deadline) = quiet <$> Players s.
Proof.
  intros Hp. cbn. rewrite (list_lookup_total_correct _ _ _ Hp). by apply (fmap_insert_same quiet _ _ p).
Qed.

Lemma marked_Core s i p previous deadline :
  Core s -> Players s !! i = Some p -> Core (marked s i p previous deadline).
Proof.
  intros [Hb Hp Hh] Hi. pose proof (quiet_marked s i p previous deadline Hi) as Hq.
  destruct (table_view quiet (config s) _ _ (fun _ => eq_refl) (fun _ => eq_refl) (fun _ => eq_refl)
              (fun _ => eq_refl) Hq Hp Hh) as [Hp' Hh'].
  split; [|done|done].
  assert (Hb' : Base (s <| TargetStreak := TargetStreak (marked s i p previous deadline) |>)).
  { apply Base_streak; [done|]. pose proof (b_streak _ Hb). pose proof (b_reroll _ Hb). cbn.
    destruct (String.eqb _ _); cbn; lia. }
  eapply Base_frame; [..|exact Hb']; try done. by apply (view_fmap quiet participantOf).
Qed.

(** What selecting a target keeps of the state. *)
Definition Selected (s s' : State) : Prop :=
  Round s' = Round s /\ config s' = config s /\ TargetRerollCount s' = TargetRerollCount s /\
  MatchResolutionCount s' = MatchResolutionCount s /\ MatchHistory s' = MatchHistory s /\
  LastSettlement s' = LastSettlement s /\ RoundHistory s' = RoundHistory s /\
  HostUserID s' = HostUserID s /\ quiet <$> Players s' = quiet <$> Players s.

Lemma selectTarget_spec s previous now reason s' evs :
  Core s -> (MinimumPlayers <= activeCount (Players s))%nat -> FinishReason s = ""%string ->
  selectTarget s previous now reason = Ok (s', evs) ->
  Core s' /\ Deciding s' /\ Selected s s' /\ lowestActiveUser s = Ok (TargetUserID s').
Proof.
  intros Hc Hact Hfin H. pose proof (co_base _ Hc) as Hb.
  apply selectTarget_inv in H as (i & p & deadline & Hlow & Hp & Ha & Hdl & Hor); [|done].
  pose proof (marked_Core s i p previous deadline Hc Hp) as Hc1.
  pose proof (quiet_marked s i p previous deadline Hp) as Hq.
  destruct (deadlineM_ok s now deadline Hb Hdl) as [Hd0 Hd1].
  assert (Hd : Deciding (marked s i p previous deadline)).
  { split; [done|done| | |done].
    - by rewrite (view_activeCount quiet _ (Players s)).
    - exists (p <| p_TargetedThisRound := true |>). split_and!; try done. cbn.
      rewrite (list_lookup_total_correct _ _ _ Hp). eapply list_elem_of_lookup_2, list_lookup_insert_eq. by eapply lookup_lt_Some. }
  destruct Hor as [[_ ->]|[_ [ev Hpen]]]; [done|].
  pose proof (addPenalty_Charged _ _ _ _ _ _ _ Hpen) as Hch. pose proof (Charged_Core _ _ Hch Hc1) as Hc'.
  destruct Hch as [Heq Hnp]. rewrite Heq in *. split_and!; [done| | |done].
  - destruct Hd as [H1 H2 H3 H4 H5]. split; try done.
    + cbn [Players update] in *. by rewrite (view_activeCount noPenalty _ _ (fun _ => eq_refl) Hnp).
    + apply (still_targeted (Players (marked s i p previous deadline))); [|exact H4].
      by apply (still_of noPenalty).
  - split_and!; try done. rewrite <- Hq. by apply (view_fmap noPenalty quiet).
Qed.

(** ** Starting a round *)

(** What never changes in a session, and what a new round keeps. *)
Definition Kept (s s' : State) : Prop :=
  config s' = config s /\ HostUserID s' = HostUserID s /\ Roster_eq (Players s') (Players s).

Lemma Kept_trans s1 s2 s3 : Kept s1 s2 -> Kept s2 s3 -> Kept s1 s3.
Proof. unfold Kept, Roster_eq. intros (? & ? & ?) (? & ? & ?). split_and!; congruence. Qed.

Lemma Moved_Kept s s' : Moved s s' -> Kept s s'.
Proof. intros H. pose proof (Moved_roster _ _ H) as Hr. destruct H as [Heq _]. split_and!; [by rewrite Heq..|done]. Qed.

Lemma Selected_Kept s s' : Selected s s' -> Kept s s'.
Proof.
  intros (_ & ? & _ & _ & _ & _ & _ & ? & Hq). split_and!; try done. by apply (view_fmap quiet participantOf).
Qed.

Lemma resetRound_eq s :
  resetRound s = s <| Phase := PhaseRolling |> <| TargetUserID := ""%string |> <| TargetRerollCount := 0 |>
    <| TargetStreak := 0 |> <| MatchResolutionCount := 0 |> <| ActionDeadlineUnixMillis := 0 |>
    <| MatchHistory := [] |>
    <| Players := (fun player => player <| p_TargetedThisRound := false |>
                                        <| p_IncludedInCurrentResolution := p_Active player |>) <$> Players s |>.
Proof. unfold resetRound. by rewrite CloneM_id. Qed.

Lemma resetRound_roster s : Roster_eq (Players (resetRound s)) (Players s).
Proof.
  rewrite resetRound_eq. unfold Roster_eq. cbn [Players update]. rewrite <- list_fmap_compose. by apply list_fmap_ext.
Qed.

Lemma resetRound_Base s : Base s -> Base (resetRound s).
Proof.
  intros [Hv Hr Hro Ho Hc Hho Hrr Hst Hct Hm Hrd]. pose proof (resetRound_roster s) as Hp.
  assert (Hcfg : config (resetRound s) = config s) by by rewrite resetRound_eq.
  split.
  - by rewrite resetRound_eq.
  - by rewrite resetRound_eq.
  - by rewrite Hp.
  - apply order_seats. rewrite (participants_seats _ _ Hp). by apply order_seats.
  - rewrite Hcfg. apply (f_equal length) in Hp. rewrite !length_fmap in Hp. by rewrite Hp.
  - unfold hosted. replace (HostUserID (resetRound s)) with (HostUserID s) by by rewrite resetRound_eq.
    by apply (frozenUser_users _ _ _ (eq_sym (participants_users _ _ Hp))).
  - rewrite resetRound_eq. cbn. lia.
  - rewrite resetRound_eq. cbn. lia.
  - rewrite resetRound_eq. cbn. lia.
  - by rewrite resetRound_eq.
  - eapply validateRoundHistory_frame; [..|exact Hrd]; by rewrite resetRound_eq.
Qed.

Lemma resetRound_elem s p :
  p ∈ Players (resetRound s) -> exists q, q ∈ Players s /\
    p = q <| p_TargetedThisRound := false |> <| p_IncludedInCurrentResolution := p_Active q |>.
Proof.
  rewrite resetRound_eq. cbn [Players update]. intros (q & -> & Hq)%list_elem_of_fmap. by exists q.
Qed.

Lemma resetRound_activeCount s : activeCount (Players (resetRound s)) = activeCount (Players s).
Proof.
  rewrite resetRound_eq. cbn [Players update]. unfold activeCount, countb.
  induction (Players s) as [|p l IH]; [done|]. cbn [fmap list_fmap List.filter].
  change (activeOf (p <| p_TargetedThisRound := false |> <| p_IncludedInCurrentResolution := p_Active p |>))
    with (activeOf p). destruct (activeOf p); cbn [length]; by rewrite IH.
Qed.

(** The history after the resolution loop, whatever it was before. *)
Lemma Resolved_history s s' :
  Resolved s s' -> config s' = config s ->
  (excess s <= 0 \/ MatchResolutionCount s = c_MatchResolutionLimit (config s)) -> HistoryFits s ->
  HistoryBound s'.
Proof.
  intros (Hc & _ & Hle & Hor) Hcfg Hex Hfit. pose proof (b_count _ (co_base _ Hc)) as Hcount.
  unfold HistoryBound, HistoryFits, excess in *. rewrite Hcfg in *.
  destruct Hor as [[_ He]|(He & Hlim & _)]; split; lia.
Qed.

Record Fresh (s' : State) : Prop := {
  fr_core : Core s';
  fr_deciding : Deciding s';
  fr_history : HistoryBound s';
  fr_fits : HistoryFits s';
}.

Lemma startRound_spec s roller now initial participants s' evs roller' :
  Base s -> (MinimumPlayers <= activeCount (Players s))%nat -> FinishReason s = ""%string ->
  (forall p, p ∈ Players s -> p_Active p = false -> HandBasic p) ->
  startRound s roller now initial participants = Ok (s', evs, roller') ->
  Fresh s' /\ Kept s s' /\ Round s' = Round s /\ LastSettlement s' = LastSettlement s /\
  RoundHistory s' = RoundHistory s /\ TargetRerollCount s' = 0.
Proof.
  intros Hb Hact Hfin Hina H. unfold startRound in H. inv_result H. destruct value as [[s1 ev1] r1].
  apply rollUsers_spec in E as (Hc1 & Heq1 & Hbare);
    [|by apply resetRound_Base| |].
  2: { intros p Hp Ha. left. unfold activeUsers. apply list_elem_of_fmap_2, list_elem_of_In, filter_In.
       split; [by apply list_elem_of_In|done]. }
  2: { intros p (q & Hq & ->)%resetRound_elem Ha. exact (Hina q Hq Ha). }
  inv_result H. destruct value as [[s2 ev2] r2]. apply resolveMatches_spec in E; [|done].
  pose proof E as (Hc2 & Hm2 & Hle2 & Hor2). inv_result H. destruct value as [s3 ev3].
  assert (Hf1 : FinishReason s1 = ""%string) by (rewrite Heq1, resetRound_eq; exact Hfin).
  assert (Ha1 : activeCount (Players s1) = activeCount (Players s)).
  { rewrite <- (resetRound_activeCount s). by apply (view_activeCount bare). }
  apply selectTarget_spec in E0 as (Hc3 & Hd3 & Hsel & _); [|done| |].
  2: { by rewrite (Moved_activeCount _ _ Hm2), Ha1. }
  2: { destruct Hm2 as [-> _]. exact Hf1. }
  apply Ok_pair_inj in H as [H _]. apply pair_equal_spec in H as [<- _].
  pose proof Hsel as (Hr3 & Hcfg3 & Ht3 & Hn3 & Hh3 & Hl3 & Hrh3 & _).
  assert (Hcfg2 : config s2 = config s1) by (destruct Hm2 as [-> _]; done).
  assert (Hex1 : excess s1 = 0 /\ MatchResolutionCount s1 = 0) by (rewrite Heq1, resetRound_eq; done).
  pose proof (b_count _ (co_base _ Hc2)) as Hcount2.
  assert (Hb2 : HistoryBound s2).
  { apply (Resolved_history s1); [done|done|lia|]. unfold HistoryFits. unfold excess in Hex1.
    pose proof (b_count _ (co_base _ Hc1)). lia. }
  assert (Hfit2 : HistoryFits s2).
  { unfold HistoryFits. unfold excess in *. destruct Hor2 as [[_ ?]|(? & ? & _)]; lia. }
  split_and!.
  - split; [done|done|unfold HistoryBound; by rewrite Hh3, Hn3, Hcfg3|unfold HistoryFits; by rewrite Hh3, Hcfg3].
  - eapply Kept_trans; [|by apply Selected_Kept]. eapply Kept_trans; [|by apply Moved_Kept].
    split_and!; [by rewrite Heq1, resetRound_eq..|]. unfold Roster_eq. rewrite <- (resetRound_roster s).
    by apply (view_fmap bare participantOf).
  - rewrite Hr3. destruct Hm2 as [-> _]. by rewrite Heq1, resetRound_eq.
  - rewrite Hl3. destruct Hm2 as [-> _]. by rewrite Heq1, resetRound_eq.
  - rewrite Hrh3. destruct Hm2 as [-> _]. by rewrite Heq1, resetRound_eq.
  - rewrite Ht3. destruct Hm2 as [-> _]. by rewrite Heq1, resetRound_eq.
Qed.

(** ** Settling a round *)
Lemma base_nonempty s u : Base s -> frozenUser (Players s) u -> u <> ""%string.
Proof.
  intros Hb (p & Hp & Hu). pose proof (roster_identities _ _ _ (b_roster _ Hb)) as Hv.
  rewrite Forall_forall in Hv. rewrite <- Hu. apply (validIdentity_nonempty (participantOf p)), Hv.
  by apply list_elem_of_fmap_2.
Qed.

Lemma targeted_frozen players u : targeted players u -> frozenUser players u.
Proof. intros (p & ? & ? & _). by exists p. Qed.

(** The bookkeeping of [settleAndStart] before the next round starts. *)
Definition settledState (s : State) (target reason : string) : State :=
  s <| LastSettlement := settlementOf s target reason |>
    <| RoundHistory := retainHistory (RoundHistory s) (settlementOf s target reason) |>
    <| Round := Round s + 1 |>.

Lemma settlementOf_valid s target reason s' :
  Core s -> targeted (Players s) target -> reason <> ""%string ->
  config s' = config s -> Roster_eq (Players s') (Players s) -> Round s < Round s' ->
  validateSettlement s' (settlementOf s target reason) = Ok tt.
Proof.
  intros [Hb Hp Hh] Ht Hreason Hc Hro Hr. unfold validateSettlement, settlementOf, clonePlayers. cbn [app].
  cbn [s_Round s_TargetUserID s_Reason s_TargetRerollCount s_TargetStreak s_MatchResolutionCount s_Players].
  pose proof (b_round _ Hb). pose proof (b_reroll _ Hb). pose proof (b_streak _ Hb). pose proof (b_count _ Hb).
  rewrite (proj2 (Z.eqb_neq (Round s) 0)), Hc by lia.
  pose proof (f_equal length Hro) as Hl. rewrite !length_fmap in Hl. rewrite Hl, Nat.eqb_refl.
  rewrite (proj2 (eqb_string_false target "")) by (eapply base_nonempty, targeted_frozen; done).
  rewrite (proj2 (eqb_string_false reason "")) by done.
  rewrite (proj2 (Z.leb_gt _ _)), !(proj2 (Z.ltb_ge _ _)) by lia. cbn [orb negb].
  rewrite (checkSettled_frame _ _ _ _ _ Hro), checkSettled_found; [|done|apply Hp]. cbn [bind_result orb].
  replace (existsb _ _) with true.
  - cbn [negb]. by rewrite (proj2 (validateCurrentHands_iff _ _) Hh).
  - symmetry. apply existsb_exists. destruct Ht as (p & Hin & Hu & Ha & Htr). exists p.
    split; [by apply list_elem_of_In|]. by rewrite (proj2 (eqb_string_true _ _) Hu), Ha, Htr.
Qed.

Lemma retainHistory_spec history st :
  (length (retainHistory history st) <= RoundHistoryLimit)%nat /\
  exists n, retainHistory history st = drop n history ++ [st].
Proof.
  unfold retainHistory. rewrite cloneSettlementM_id. cbv zeta.
  destruct (Nat.ltb_spec RoundHistoryLimit (length (history ++ [st]))) as [Hlt|Hge].
  - split; [rewrite length_drop; lia|]. rewrite length_app in *. cbn [length] in *.
    exists (length history + 1 - RoundHistoryLimit)%nat. rewrite drop_app_le; [done|]. unfold RoundHistoryLimit. lia.
  - split; [done|]. by exists 0%nat.
Qed.

Lemma last_snoc_default {A} (l : list A) x d : List.last (l ++ [x]) d = x.
Proof. apply last_last. Qed.

Lemma validateRoundHistory_inv s :
  validateRoundHistory s = Ok tt -> checkRounds s 0 (RoundHistory s) = Ok tt.
Proof.
  unfold validateRoundHistory. intros H. inv_result H. destruct (validateSettlement _ _) as [[]|]; cbn [bind_result] in H; [|done].
  destruct (RoundHistory s) as [|x l]; [done|]. by destruct (checkRounds s 0 (x :: l)) as [[]|].
Qed.

Lemma settledState_history s target reason :
  Core s -> targeted (Players s) target -> reason <> ""%string ->
  validateRoundHistory (settledState s target reason) = Ok tt.
Proof.
  intros Hc Ht Hreason. pose proof (co_base _ Hc) as Hb. set (n := settledState s target reason).
  assert (Hv : validateSettlement n (settlementOf s target reason) = Ok tt).
  { apply settlementOf_valid; try done. unfold n, settledState. cbn. lia. }
  pose proof (b_round _ Hb) as Hround.
  destruct (retainHistory_spec (RoundHistory s) (settlementOf s target reason)) as [Hlen (k & Hk)].
  assert (Hcr : checkRounds n 0 (RoundHistory n) = Ok tt).
  { change (RoundHistory n) with (retainHistory (RoundHistory s) (settlementOf s target reason)). rewrite Hk.
    apply (checkRounds_snoc s); try done.
    - unfold n, settledState. cbn. lia.
    - lia.
    - apply checkRounds_drop, validateRoundHistory_inv, Hb. }
  unfold validateRoundHistory. change (LastSettlement n) with (settlementOf s target reason).
  change (RoundHistory n) with (retainHistory (RoundHistory s) (settlementOf s target reason)) in *.
  rewrite (proj2 (Nat.ltb_ge _ _) Hlen), Hv. cbn [bind_result]. rewrite Hcr, Hk, last_snoc_default, settlementsEqual_refl.
  cbn [bind_result negb]. by destruct (drop k (RoundHistory s)).
Qed.

Lemma settledState_Base s target reason :
  Core s -> targeted (Players s) target -> reason <> ""%string -> Round s <> maxUint32 ->
  Base (settledState s target reason).
Proof.
  intros Hc Ht Hreason Hr. pose proof (settledState_history s target reason Hc Ht Hreason) as Hrh.
  destruct (co_base _ Hc) as [Hv Hround Hro Ho Hcfg Hho Hrr Hst Hct Hm Hrd].
  split; try done.
  - unfold settledState. cbn. lia.
  - by eapply checkResolutions_mono; [| |exact Hm].
Qed.

Lemma settleAndStart_spec s target reason now roller s' evs :
  Core s -> (MinimumPlayers <= activeCount (Players s))%nat -> FinishReason s = ""%string ->
  targeted (Players s) target -> reason <> ""%string ->
  settleAndStart s target reason now roller = Ok (s', evs) ->
  Fresh s' /\ Kept s s' /\ Round s' = Round s + 1 /\ TargetRerollCount s' = 0 /\
  LastSettlement s' = settlementOf s target reason /\
  RoundHistory s' = retainHistory (RoundHistory s) (settlementOf s target reason).
Proof.
  intros Hc Hact Hfin Ht Hreason H. unfold settleAndStart in H. by_value H. inv_result H. to_prop.
  pose proof (b_round _ (co_base _ Hc)) as Hround.
  assert (Hu : u32 (Round s + 1) = Round s + 1) by (apply u32_succ; [unfold is_u32; lia|done]).
  inv_result H. destruct value as [[s1 ev1] r1]. apply Ok_pair_inj in H as [<- _].
  assert (E' : startRound (settledState s target reason) roller now false [] = Ok (s1, ev1, r1)).
  { rewrite <- E0. unfold settledState. rewrite <- Hu. done. }
  apply startRound_spec in E' as (Hf & Hk & Hr' & Hl & Hrh & Ht0); try done.
  - by apply settledState_Base.
  - intros p Hp _. by apply (po_hands _ (co_players _ Hc)).
Qed.

(** ** Actions *)
Lemma Fresh_Good s : Fresh s -> Good s.
Proof. intros [? ? ? _]. split; [done|by left|done]. Qed.

Lemma Good_fits s : Good s -> Validate s = Ok tt <-> HistoryFits s.
Proof. intros [Hc Hp _]. by apply Validate_fits. Qed.

(** The guards shared by the operations. *)
Lemma guard_deciding s :
  Good s -> Validate s = Ok tt -> Phase s <> PhaseFinished -> Deciding s /\ HistoryFits s.
Proof.
  intros Hg Hv Hp. split; [|by apply Good_fits]. destruct (gd_phase _ Hg) as [?|[]]; done.
Qed.

Lemma validateTargetAction_inv s actor now timer :
  validateTargetAction s actor now timer = Ok tt ->
  Validate s = Ok tt /\ Phase s <> PhaseFinished /\ actor = TargetUserID s /\ validUnixMillis now = true /\
  (timer = false -> ActionDeadlineUnixMillis s <> 0 -> now < ActionDeadlineUnixMillis s).
Proof.
  unfold validateTargetAction. intros H. destruct (Validate s) as [[]|] eqn:Ev; cbn [bind_result] in H; [|done].
  repeat inv_result H. bool_cases; split_and!; try done; intros; subst; try done; lia.
Qed.

Lemma Base_reroll s r t :
  Base s -> 0 <= t <= r -> r <= c_TargetRerollLimit (config s) ->
  Base (s <| TargetRerollCount := r |> <| TargetStreak := t |>).
Proof.
  intros [Hv Hr Hro Ho Hc Hho Hrr Hst Hct Hm Hrd] Ht Hlim. split; try done.
  - cbn. lia.
  - by eapply checkResolutions_mono; [| |exact Hm].
  - by eapply validateRoundHistory_frame; [| | | | |exact Hrd].
Qed.

(** The state [Reroll] rolls from. *)
Definition rerolling (s : State) : State :=
  s <| TargetRerollCount := TargetRerollCount s + 1 |> <| TargetStreak := TargetStreak s + 1 |>.

(** The course of an accepted reroll. *)
Lemma Reroll_inv s actor now seed0 s' evs :
  Good s -> Reroll s actor now seed0 = Ok (s', evs) ->
  Deciding s /\ HistoryFits s /\ actor = TargetUserID s /\ validUnixMillis now = true /\
  TargetRerollCount s < c_TargetRerollLimit (config s) /\
  exists s1 ev s2 evs2 r2 s3 evs3 r3,
    addPenalty s actor (c_RerollPenaltyTicks (config s)) "target_reroll" 0 = Ok (s1, ev) /\
    rollUsers (rerolling s1) (mkRoller seed0 0) [actor] 0 "target_reroll" = Ok (s2, evs2, r2) /\
    resolveMatches s2 r2 = Ok (s3, evs3, r3) /\
    (targetStrictlyStrongest s3 actor = true /\
       (exists evs4, settleAndStart s3 actor "target_surpassed" now r3 = Ok (s', evs4)) \/
     targetStrictlyStrongest s3 actor = false /\ c_TargetRerollLimit (config s3) <= TargetRerollCount s3 /\
       (exists evs4, settleAndStart s3 actor "reroll_limit" now r3 = Ok (s', evs4)) \/
     targetStrictlyStrongest s3 actor = false /\ TargetRerollCount s3 < c_TargetRerollLimit (config s3) /\
       (exists evs4, selectTarget s3 actor now "post_reroll_target" = Ok (s', evs4))).
Proof.
  intros Hg H. unfold Reroll in H. inv_result H. destruct value.
  apply validateTargetAction_inv in E as (Hv & Hph & Ha & Hn & _).
  destruct (guard_deciding s Hg Hv Hph) as [Hd Hfit]. inv_result H. to_prop. by_value H.
  inv_result H. destruct value as [s1 ev].
  assert (Hu : forall z, 0 <= z <= 3 -> u32 (z + 1) = z + 1).
  { intros z Hz. apply u32_small. unfold is_u32, maxUint32. lia. }
  pose proof (co_base _ (gd_core _ Hg)) as Hb. pose proof (limits_small s Hb) as [_ Hl3].
  pose proof (b_reroll _ Hb). pose proof (b_streak _ Hb).
  assert (Hs1 : TargetRerollCount s1 = TargetRerollCount s /\ TargetStreak s1 = TargetStreak s).
  { apply addPenalty_Charged in E0 as [-> _]. done. }
  destruct Hs1 as [Hs1 Hs1'].
  rewrite (Hu (TargetRerollCount s1)), (Hu (TargetStreak s1)) in H by lia.
  change (s1 <| TargetRerollCount := TargetRerollCount s1 + 1 |> <| TargetStreak := TargetStreak s1 + 1 |>)
    with (rerolling s1) in H.
  inv_result H. destruct value as [[s2 evs2] r2]. inv_result H. destruct value as [[s3 evs3] r3].
  split_and!; try done. exists s1, ev, s2, evs2, r2, s3, evs3, r3. split_and!; [done|done|done|].
  destruct (targetStrictlyStrongest s3 actor) eqn:Es.
  - left. split; [done|]. inv_result H. destruct value as [s4 evs4]. apply Ok_pair_inj in H as [<- _]. by exists evs4.
  - right. destruct (Z.leb_spec (c_TargetRerollLimit (config s3)) (TargetRerollCount s3)).
    + left. split_and!; [done|done|]. inv_result H. destruct value as [s4 evs4].
      apply Ok_pair_inj in H as [<- _]. by exists evs4.
    + right. split_and!; [done|done|]. inv_result H. destruct value as [s4 evs4].
      apply Ok_pair_inj in H as [<- _]. by exists evs4.
Qed.

(** The table after the automatic batches of a reroll. *)
Lemma Reroll_resolved s actor s1 ev s2 evs2 r2 s3 evs3 r3 seed0 :
  Good s -> Deciding s -> HistoryFits s -> TargetRerollCount s < c_TargetRerollLimit (config s) ->
  addPenalty s actor (c_RerollPenaltyTicks (config s)) "target_reroll" 0 = Ok (s1, ev) ->
  rollUsers (rerolling s1) (mkRoller seed0 0) [actor] 0 "target_reroll" = Ok (s2, evs2, r2) ->
  resolveMatches s2 r2 = Ok (s3, evs3, r3) ->
  Core s3 /\ Moved (rerolling s) s3 /\ HistoryBound s3 /\ Resolved s2 s3 /\
  MatchHistory s2 = MatchHistory s /\ MatchResolutionCount s2 = MatchResolutionCount s.
Proof.
  intros Hg Hd Hfit Hlt Hpen Hroll Hres. pose proof (co_base _ (gd_core _ Hg)) as Hb.
  pose proof (addPenalty_Charged _ _ _ _ _ _ _ Hpen) as Hch.
  pose proof (Charged_Core _ _ Hch (gd_core _ Hg)) as Hc1.
  assert (Hm1 : Moved (rerolling s) (rerolling s1)).
  { destruct (Charged_Moved _ _ Hch) as [Heq Hst]. split; [|exact Hst]. destruct Hch as [-> _]. done. }
  assert (Hs1 : config s1 = config s /\ TargetRerollCount s1 = TargetRerollCount s /\ TargetStreak s1 = TargetStreak s
                /\ MatchHistory s1 = MatchHistory s /\ MatchResolutionCount s1 = MatchResolutionCount s).
  { destruct Hch as [-> _]. done. }
  destruct Hs1 as (Hcfg1 & Hr1 & Ht1 & Hh1 & Hn1). pose proof (b_reroll _ Hb). pose proof (b_streak _ Hb).
  assert (Hc1' : Core (rerolling s1)).
  { destruct Hc1 as [Hb1 Hp1 Hh]. split; [|done|done]. apply Base_reroll; [done|rewrite Hr1, Ht1; lia|].
    rewrite Hcfg1, Hr1. lia. }
  apply rollUsers_Core in Hroll as (Hc2 & Hm2 & Hn2 & Hh2); [|done].
  apply resolveMatches_spec in Hres as Hres'; [|done]. pose proof Hres' as (Hc3 & Hm3 & _).
  assert (Hcfg2 : config s2 = config s) by (destruct Hm2 as [-> _]; exact Hcfg1).
  change (MatchResolutionCount (rerolling s1)) with (MatchResolutionCount s1) in Hn2.
  change (MatchHistory (rerolling s1)) with (MatchHistory s1) in Hh2.
  split_and!; [done| | |done|by rewrite Hh2|by rewrite Hn2].
  - eapply Moved_trans; [exact Hm1|]. by eapply Moved_trans.
  - apply (Resolved_history s2); [done|by destruct Hm3 as [-> _]| |].
    + unfold excess. rewrite Hh2, Hh1, Hn2, Hn1, Hcfg2.
      destruct (gd_history _ Hg) as [[?|?] _]; [left; lia|by right].
    + unfold HistoryFits. rewrite Hh2, Hh1, Hcfg2. exact Hfit.
Qed.

Lemma Reroll_Good s actor now seed0 s' evs :
  Good s -> Reroll s actor now seed0 = Ok (s', evs) -> Good s' /\ Kept s s'.
Proof.
  intros Hg H.
  apply Reroll_inv in H as (Hd & Hfit & -> & Hn & Hlt & s1 & ev & s2 & evs2 & r2 & s3 & evs3 & r3 & Hp & Hr & Hm & Hor);
    [|done].
  destruct (Reroll_resolved _ _ _ _ _ _ _ _ _ _ _ Hg Hd Hfit Hlt Hp Hr Hm) as (Hc3 & Hm3 & Hh3 & _).
  assert (Hk3 : Kept s s3) by (eapply Kept_trans; [|exact (Moved_Kept _ _ Hm3)]; done).
  assert (Hact : (MinimumPlayers <= activeCount (Players s3))%nat).
  { rewrite (Moved_activeCount _ _ Hm3). apply (de_active _ Hd). }
  assert (Hfin : FinishReason s3 = ""%string) by (destruct Hm3 as [-> _]; apply (de_reason _ Hd)).
  assert (Ht3 : targeted (Players s3) (TargetUserID s)).
  { destruct Hm3 as [_ Hst]. by eapply still_targeted; [exact Hst|apply (de_target _ Hd)]. }
  destruct Hor as [(_ & evs4 & H)|[(_ & _ & evs4 & H)|(_ & _ & evs4 & H)]].
  - apply settleAndStart_spec in H as (Hf & Hk & _); try done.
    split; [by apply Fresh_Good|by eapply Kept_trans].
  - apply settleAndStart_spec in H as (Hf & Hk & _); try done.
    split; [by apply Fresh_Good|by eapply Kept_trans].
  - apply selectTarget_spec in H as (Hc' & Hd' & Hsel & _); try done.
    split; [|by eapply Kept_trans; [|apply Selected_Kept]]. split; [done|by left|].
    destruct Hsel as (_ & Hcfg & _ & Hn' & Hh' & _). unfold HistoryBound. by rewrite Hcfg, Hn', Hh'.
Qed.

Lemma Stand_inv s actor now seed0 s' evs :
  Good s -> Stand s actor now seed0 = Ok (s', evs) ->
  Deciding s /\ actor = TargetUserID s /\ settleAndStart s actor "stand" now (mkRoller seed0 0) = Ok (s', evs).
Proof.
  intros Hg H. unfold Stand in H. inv_result H. destruct value.
  apply validateTargetAction_inv in E as (Hv & Hph & Ha & _). by_value H.
  by destruct (guard_deciding s Hg Hv Hph) as [Hd _].
Qed.

Lemma HandleTimeoutM_inv s timer now seed0 s' evs :
  Good s -> HandleTimeout s timer now seed0 = Ok (s', evs) ->
  Deciding s /\ timerMismatch s timer = false /\ validUnixMillis now = true /\ ActionDeadlineUnixMillis s <= now /\
  settleAndStart s (TargetUserID s) "timeout_stand" now (mkRoller seed0 0) = Ok (s', evs).
Proof.
  intros Hg H. unfold HandleTimeout in H. destruct (Validate s) as [[]|] eqn:Ev; cbn [bind_result] in H; [|done].
  repeat inv_result H. by_value H. to_prop. by destruct (guard_deciding s Hg Ev E) as [Hd _].
Qed.

(** Standing, by choice or by timeout. *)
Lemma stand_Fresh s reason now roller s' evs :
  Good s -> Deciding s -> reason <> ""%string ->
  settleAndStart s (TargetUserID s) reason now roller = Ok (s', evs) ->
  Fresh s' /\ Kept s s' /\ Round s' = Round s + 1 /\ TargetRerollCount s' = 0 /\
  LastSettlement s' = settlementOf s (TargetUserID s) reason /\
  RoundHistory s' = retainHistory (RoundHistory s) (settlementOf s (TargetUserID s) reason).
Proof.
  intros Hg Hd Hr H. apply settleAndStart_spec in H; try done; [apply Hg|apply Hd|apply Hd|apply Hd].
Qed.

(** ** Revocation and finish *)
Definition inactiveAt (s : State) (i : nat) (p : PlayerState) : State :=
  s <| Players := <[i := p <| p_Active := false |>]> (Players s) |>.

Definition dormant (p : PlayerState) : PlayerState := p <| p_Active := false |>.

Lemma dormant_inactiveAt s i p :
  Players s !! i = Some p -> dormant <$> Players (inactiveAt s i p) = dormant <$> Players s.
Proof. intros Hp. by apply (fmap_insert_same dormant _ _ p). Qed.

Lemma inactiveAt_roster s i p :
  Players s !! i = Some p -> Roster_eq (Players (inactiveAt s i p)) (Players s).
Proof. intros Hp. by eapply (view_fmap dormant participantOf); [|apply dormant_inactiveAt]. Qed.

Lemma insert_elem {A} (l : list A) i x y : y ∈ <[i := x]> l -> y = x \/ y ∈ l.
Proof.
  intros [j Hj]%list_elem_of_lookup_1. apply list_lookup_insert_Some in Hj as [(_ & -> & _)|(_ & Hj)]; [by left|].
  right. by eapply list_elem_of_lookup_2.
Qed.

Lemma inactiveAt_Core s i p : Core s -> Players s !! i = Some p -> Core (inactiveAt s i p).
Proof.
  intros [Hb [Ho Hi Hbas] Hh] Hp. pose proof (inactiveAt_roster s i p Hp) as Hro.
  pose proof (list_elem_of_lookup_2 _ _ _ Hp) as Hin.
  split.
  - by eapply Base_frame; [..|exact Hb].
  - split.
    + apply order_seats. rewrite (participants_seats _ _ Hro). by apply order_seats.
    + intros q [->|Hq]%insert_elem Ha; [done|by apply Hi].
    + intros q [->|Hq]%insert_elem; [exact (Hbas p Hin)|by apply Hbas].
  - unfold HandsCurrent in *.
    change (config (inactiveAt s i p)) with (config s).
    by rewrite (view_filter dormant p_Hand p_IncludedInCurrentResolution _ _ (fun _ => eq_refl) (fun _ => eq_refl)
                 (dormant_inactiveAt s i p Hp)).
Qed.

Lemma inactiveAt_targeted s i p u :
  Players s !! i = Some p -> p_UserID p <> u -> targeted (Players s) u -> targeted (Players (inactiveAt s i p)) u.
Proof.
  intros Hp Hne (q & [j Hj]%list_elem_of_lookup_1 & Hu & Ha & Ht). exists q. split_and!; try done.
  eapply (list_elem_of_lookup_2 _ j). cbn. rewrite list_lookup_insert_ne; [done|]. intros ->. congruence.
Qed.

Lemma Base_round s r : Base s -> Round s <= r <= maxUint32 -> Base (s <| Round := r |>).
Proof.
  intros [Hv Hr Hro Ho Hc Hho Hrr Hst Hct Hm Hrd] Hr'. split; try done.
  - cbn. lia.
  - by eapply checkResolutions_mono; [| |exact Hm].
  - eapply validateRoundHistory_frame; [| | | | |exact Hrd]; try done. cbn. lia.
Qed.

Lemma finishState_Good s reason operator :
  Core s -> HistoryBound s -> validFinishReason reason = true -> Good (finishState s reason operator).1.
Proof.
  intros Hc Hh Hr. split; [|right; done|exact Hh]. destruct Hc as [Hb Hp Hcur]. split; [|done|done].
  by eapply Base_frame; [..|exact Hb].
Qed.

(** The three outcomes of an accepted revocation. *)
Lemma RevokeParticipantM_inv s u now seed0 s' evs :
  Good s -> RevokeParticipant s u now seed0 = Ok (s', evs) ->
  Deciding s /\ HistoryFits s /\ exists i p,
    Players s !! i = Some p /\ p_UserID p = u /\ p_Active p = true /\
    let n := inactiveAt s i p in
    ((activeCount (Players n) < MinimumPlayers)%nat /\ s' = (finishState n FinishInsufficientParticipants "").1 \/
     (MinimumPlayers <= activeCount (Players n))%nat /\ u <> TargetUserID s /\ s' = n \/
     (MinimumPlayers <= activeCount (Players n))%nat /\ u = TargetUserID s /\ Round s <> maxUint32 /\
       exists evs1 r1, startRound (n <| Round := Round s + 1 |>) (mkRoller seed0 0) now false [] = Ok (s', evs1, r1)).
Proof.
  intros Hg H. unfold RevokeParticipant in H. destruct (Validate s) as [[]|] eqn:Ev; cbn [bind_result] in H; [|done].
  do 2 inv_result H. to_prop. destruct (guard_deciding s Hg Ev E) as [Hd Hfit].
  split_and!; [done|done|]. destruct (playerIndex (Players s) u) as [i|] eqn:Ei; [|done].
  apply playerIndex_Some in Ei as (p & Hp & Hu & Heq). rewrite Heq in H. inv_result H. to_prop.
  rewrite CloneM_id, Heq in H. exists i, p. split_and!; [done|done|done|]. cbv zeta.
  change (s <| Players := <[i:=p <| p_Active := false |>]> (Players s) |>) with (inactiveAt s i p) in H.
  set (n := inactiveAt s i p) in *.
  assert (Hu32 : Round s <> maxUint32 -> u32 (Round n + 1) = Round s + 1).
  { intros Hne. apply u32_succ; [|done]. pose proof (b_round _ (co_base _ (gd_core _ Hg))). unfold is_u32. cbn. lia. }
  destruct (Nat.ltb_spec (activeCount (Players n)) MinimumPlayers) as [Hlt|Hge].
  { left. split; [done|]. by apply Ok_pair_inj in H as [<- _]. }
  right. destruct (String.eqb u (TargetUserID s)) eqn:Et.
  - right. inv_result H; [done|]. clear E2. inv_result H. apply eqb_string_true in Et. to_prop.
    split_and!; [done|done|done|]. rewrite (Hu32 E2) in H. inv_result H. destruct value as [[s1 ev1] r1]. apply Ok_pair_inj in H as [<- _]. eauto.
  - left. apply eqb_string_false in Et. split_and!; [done|done|]. by apply Ok_pair_inj in H as [<- _].
Qed.

Lemma RevokeParticipantM_Good s u now seed0 s' evs :
  Good s -> RevokeParticipant s u now seed0 = Ok (s', evs) -> Good s' /\ Kept s s'.
Proof.
  intros Hg H. apply RevokeParticipantM_inv in H as (Hd & Hfit & i & p & Hp & Hu & Ha & Hor); [|done]. cbv zeta in Hor.
  pose proof (inactiveAt_Core s i p (gd_core _ Hg) Hp) as Hc. pose proof (inactiveAt_roster s i p Hp) as Hro.
  assert (Hk : Kept s (inactiveAt s i p)) by done.
  destruct Hor as [[Hlt ->]|[(Hge & Hne & ->)|(Hge & Heq & Hr & evs1 & r1 & H)]].
  - split; [|done]. by apply finishState_Good; [|apply Hg|].
  - split; [|done]. split; [done|left|apply Hg]. destruct Hd as [H1 H2 H3 H4 H5]. split; try done.
    apply inactiveAt_targeted; [done|by rewrite Hu|done].
  - pose proof (b_round _ (co_base _ Hc)) as Hrd.
    change (Round (inactiveAt s i p)) with (Round s) in Hrd.
    apply startRound_spec in H as (Hf & Hk' & _); [| |done|by apply Hd|].
    + split; [by apply Fresh_Good|]. eapply Kept_trans; [exact Hk|]. exact Hk'.
    + apply Base_round; [apply Hc|]. cbn. lia.
    + intros q Hq _. by apply (po_hands _ (co_players _ Hc)).
Qed.

Lemma FinishM_Good s reason operator s' evs :
  Good s -> Finish s reason operator = Ok (s', evs) -> Good s' /\ Kept s s' /\ Phase s' = PhaseFinished.
Proof.
  intros Hg H. unfold Finish in H. destruct (Validate s) as [[]|] eqn:Ev; cbn [bind_result] in H; [|done].
  inv_result H. cbv zeta in H. do 2 inv_result H. by_value H. apply Ok_pair_inj in H as [<- _]. to_prop.
  split_and!; try done. by apply (finishState_Good s _ operator); [apply Hg|apply Hg|].
Qed.

(** ** Sessions *)
Definition TypedConfig (c : Config) : Prop :=
  is_u32 (c_TargetPenaltyTicks c) /\ is_u32 (c_RerollPenaltyTicks c) /\ is_u32 (c_MatchPenaltyTicks c) /\
  is_u32 (c_WeakExtraPenaltyTicks c) /\ is_u32 (c_TargetRerollLimit c) /\ is_u32 (c_MatchResolutionLimit c) /\
  is_u32 (c_ActionTimeoutSeconds c).

Lemma newPlayerM_participants (ps : list Participant) : participantOf <$> (newPlayer <$> ps) = ps.
Proof. induction ps as [|[] ps IH]; cbn; [done|]. by f_equal. Qed.

Lemma newPlayerM_active (ps : list Participant) : activeCount (newPlayer <$> ps) = length ps.
Proof. unfold activeCount, countb. induction ps as [|p ps IH]; cbn; [done|]. by f_equal. Qed.

Lemma NewStateM_Fresh cfg participants host now seed0 s evs :
  TypedConfig cfg -> NewState cfg participants host now seed0 = Ok (s, evs) ->
  Fresh s /\ config s = cfg /\ HostUserID s = host /\ participantOf <$> Players s = bySeat participants /\
  Round s = 1.
Proof.
  intros (_ & _ & _ & _ & Ht1 & Ht2 & _) H. unfold NewState, canonicalParticipants in H.
  destruct (ValidateParticipants participants) as [[]|] eqn:Ev; cbn [bind_result] in H; [|done].
  apply ValidateParticipantsM_iff in Ev. destruct (bySeat_valid _ _ _ Ev) as (Hro & Hsort & Hperm).
  inv_result H. destruct value. do 2 inv_result H. to_prop. inv_result H. destruct value as [[s1 ev1] r1].
  apply Ok_pair_inj in H as [<- _]. unfold is_u32 in Ht1, Ht2.
  apply startRound_spec in E2 as (Hf & (Hcfg & Hhost & Hros) & Hr & _); try done.
  - split_and!; try done. rewrite Hros. cbn [Players]. apply newPlayerM_participants.
  - split; try done; cbn [config Players Round TargetRerollCount TargetStreak MatchResolutionCount]; try lia.
    + by rewrite newPlayerM_participants.
    + apply order_seats. rewrite <- list_fmap_compose.
      change (seatOf ∘ newPlayer) with SeatIndex. clear -Hsort. induction Hsort as [|p l _ IH Hp]; cbn; [constructor|].
      constructor; [done|]. by rewrite Forall_fmap.
    + by rewrite length_fmap.
    + apply existsb_exists in E1 as (p & Hp & Hu). apply eqb_string_true in Hu. exists (newPlayer p).
      cbn [Players]. split; [|done]. by apply list_elem_of_fmap_2, list_elem_of_In.
  - cbn [Players]. rewrite newPlayerM_active. apply (roster_count _ _ _ Hro).
  - cbn [Players]. intros p (q & -> & _)%list_elem_of_fmap. done.
Qed.

Lemma stepM_Good s i s' es : Good s -> step s i = Ok (s', es) -> Good s' /\ Kept s s'.
Proof.
  intros Hg H. destruct i; cbn [step] in H.
  - by eapply Reroll_Good.
  - apply Stand_inv in H as (Hd & -> & H); [|done].
    apply stand_Fresh in H as (Hf & Hk & _); try done. split; [by apply Fresh_Good|done].
  - apply HandleTimeoutM_inv in H as (Hd & _ & _ & _ & H); [|done].
    apply stand_Fresh in H as (Hf & Hk & _); try done. split; [by apply Fresh_Good|done].
  - by eapply RevokeParticipantM_Good.
  - apply FinishM_Good in H as (? & ? & _); done.
Qed.

(** Every operation starts by validating the snapshot. *)
Lemma stepM_requires_valid s i s' es : step s i = Ok (s', es) -> Validate s = Ok tt /\ Phase s <> PhaseFinished.
Proof.
  destruct i; cbn [step]; unfold Reroll, Stand, HandleTimeout, RevokeParticipant, Finish, validateTargetAction;
    (destruct (Validate s) as [[]|]; cbn [bind_result]; [|done]); destruct (Z.eqb_spec (Phase s) PhaseFinished); done.
Qed.

Definition Initial (s : State) : Prop :=
  exists cfg participants host now seed0 es,
    TypedConfig cfg /\ NewState cfg participants host now seed0 = Ok (s, es).

#[global] Instance meet_ops : EngineOps State Input Event (RuleError ErrorCode) := {|
  engine_step := step;
  engine_input _ := True;
  engine_initial := Initial;
  engine_valid := Good;
  engine_finished s := Phase s =? PhaseFinished;
|}.

#[global] Instance meet_laws : EngineLaws State Input Event (RuleError ErrorCode).
Proof.
  split; cbn.
  - intros s (? & ? & ? & ? & ? & ? & Hty & H). by apply NewStateM_Fresh in H as [?%Fresh_Good _].
  - intros s i s' es Hg _ H. by eapply stepM_Good.
  - intros s i Hf. to_prop. destruct (step s i) as [[s' es]|] eqn:E; [|done].
    by apply stepM_requires_valid in E as [_ ?].
Qed.

End MeetByChanceFacts.
