(* ===== verification/MeetLedger.v ===== *)
(** * Meet by chance: the penalty ledger

    Every change of a player's cumulative penalty is published as a
    [penalty.recorded] fact.  [Accounted s s' es] says that the facts [es]
    explain exactly the difference between [s] and [s']; it is proved for each
    operation of the engine and composes along a session. *)

From stdpp Require Import gmap.
From S2P Require Import Prelude Dice Roster Engine MeetHands MeetByChance MeetByChanceFacts.

Module MeetLedger.
Import Roster MeetHands MeetByChance MeetByChanceFacts.

(** The cumulative penalty of a user. *)
Definition penaltyOf (s : State) (u : string) : Z :=
  match playerIndex (Players s) u with
  | Some i => p_PenaltyTicks (Players s !!! i)
  | None => 0
  end.

(** The ticks the facts record against a user. *)
Definition chargeOf (u : string) (e : Event) : Z :=
  if String.eqb (e_Kind e) EventPenaltyRecorded && String.eqb (e_UserID e) u then e_PenaltyTicks e else 0.
Definition chargedTo (u : string) (es : list Event) : Z := foldr (fun e sum => chargeOf u e + sum) 0 es.

Definition Paid (s : State) : Prop := Forall (fun p => 0 <= p_PenaltyTicks p) (Players s).

Definition NonnegConfig (c : Config) : Prop :=
  0 <= c_TargetPenaltyTicks c /\ 0 <= c_RerollPenaltyTicks c /\ 0 <= c_MatchPenaltyTicks c /\
  0 <= c_WeakExtraPenaltyTicks c.

Definition Accounted (s s' : State) (es : list Event) : Prop :=
  config s' = config s /\
  (NonnegConfig (config s) -> Paid s ->
   Paid s' /\ forall u, penaltyOf s' u = penaltyOf s u + chargedTo u es).

(** Facts that charge nobody. *)
Definition Silent (es : list Event) : Prop := Forall (fun e => e_Kind e <> EventPenaltyRecorded) es.

Lemma chargedTo_app u es1 es2 : chargedTo u (es1 ++ es2) = chargedTo u es1 + chargedTo u es2.
Proof. unfold chargedTo. induction es1 as [|e es IH]; cbn; [done|]. rewrite IH. lia. Qed.

Lemma Silent_charge u es : Silent es -> chargedTo u es = 0.
Proof.
  induction 1 as [|e es He _ IH]; [done|]. unfold chargedTo in *. cbn [foldr]. rewrite IH. unfold chargeOf.
  by rewrite (proj2 (eqb_string_false _ _) He).
Qed.

Lemma Accounted_trans s1 s2 s3 es1 es2 :
  Accounted s1 s2 es1 -> Accounted s2 s3 es2 -> Accounted s1 s3 (es1 ++ es2).
Proof.
  intros [Hc1 H1] [Hc2 H2]. split; [congruence|]. intros Hn Hp. destruct (H1 Hn Hp) as [Hp2 Hl1].
  rewrite <- Hc1 in Hn. destruct (H2 Hn Hp2) as [Hp3 Hl2]. split; [done|]. intros u.
  rewrite Hl2, Hl1, chargedTo_app. lia.
Qed.

(** What the ledger reads of a player. *)
Definition account (p : PlayerState) : string * Z := (p_UserID p, p_PenaltyTicks p).

Lemma account_penaltyOf s s' u :
  account <$> Players s' = account <$> Players s -> penaltyOf s' u = penaltyOf s u.
Proof.
  intros Heq. unfold penaltyOf.
  assert (Hu : userOf <$> Players s' = userOf <$> Players s).
  { apply (f_equal (fmap fst)) in Heq. by rewrite <- !list_fmap_compose in Heq. }
  rewrite (playerIndex_users _ _ _ Hu). destruct (playerIndex (Players s) u) as [i|] eqn:Ei; [|done].
  apply playerIndex_Some in Ei as (p & Hp & _ & ->).
  assert (Hi : (account <$> Players s') !! i = Some (account p)) by by rewrite Heq, list_lookup_fmap, Hp.
  rewrite list_lookup_fmap in Hi. destruct (Players s' !! i) as [p'|] eqn:Hp'; [|done].
  rewrite (list_lookup_total_correct _ _ _ Hp'). cbn in Hi. by injection Hi.
Qed.

Lemma Accounted_same s s' es :
  config s' = config s -> account <$> Players s' = account <$> Players s -> Silent es -> Accounted s s' es.
Proof.
  intros Hc Heq Hs. split; [done|]. intros _ Hp. split.
  - unfold Paid in *. assert (Hf : Forall (fun a : string * Z => 0 <= a.2) (account <$> Players s)) by by rewrite Forall_fmap.
    rewrite <- Heq, Forall_fmap in Hf. exact Hf.
  - intros u. rewrite (account_penaltyOf s s' u Heq), (Silent_charge u es Hs). lia.
Qed.

Lemma Accounted_refl s : Accounted s s [].
Proof. by apply Accounted_same; [| |constructor]. Qed.

(** Silent facts may be added anywhere. *)
Lemma Accounted_silent s s' es1 es2 :
  Silent es1 -> Accounted s s' es2 -> Accounted s s' (es1 ++ es2).
Proof. intros Hs H. eapply Accounted_trans; [|exact H]. by apply Accounted_same. Qed.

Lemma Silent_one e : e_Kind e <> EventPenaltyRecorded -> Silent [e].
Proof. repeat constructor. done. Qed.

(** One fact that charges nobody, alone and before others. *)
Lemma Accounted_fact s s' e :
  config s' = config s -> account <$> Players s' = account <$> Players s -> e_Kind e <> EventPenaltyRecorded ->
  Accounted s s' [e].
Proof. intros Hc Ha He. apply Accounted_same; [done|done|]. by apply Silent_one. Qed.

Lemma Accounted_after s s' e es :
  e_Kind e <> EventPenaltyRecorded -> Accounted s s' es -> Accounted s s' (e :: es).
Proof. intros He Ha. apply (Accounted_silent _ _ [e]); [by apply Silent_one|done]. Qed.

(** ** Charging *)
Lemma addPenalty_Accounted s u amount reason batch s' ev :
  0 <= amount \/ ~ NonnegConfig (config s) ->
  addPenalty s u amount reason batch = Ok (s', ev) -> Accounted s s' [ev].
Proof.
  intros Hamt H. apply addPenalty_inv in H as (i & p & after & Hi & Hp & Hu & Ha & Ht & -> & He1 & He2 & He3).
  split; [done|]. intros Hn Hpaid. assert (Hamt' : 0 <= amount) by (destruct Hamt; [done|contradiction]).
  unfold Paid in Hpaid. rewrite Forall_forall in Hpaid.
  pose proof (Hpaid p (list_elem_of_lookup_2 _ _ _ Hp)) as Hp0.
  assert (after = p_PenaltyTicks p + amount) as ->.
  { unfold Dice.Ticks_Add in Ht. inv_result Ht. to_prop. injection Ht as <-. apply u32_small. unfold is_u32. lia. }
  split.
  - apply Forall_forall. intros q [->|Hq]%insert_elem; [cbn; lia|by apply Hpaid].
  - intros v. unfold penaltyOf. cbn [Players update].
    assert (Husers : userOf <$> <[i:=p <| p_PenaltyTicks := p_PenaltyTicks p + amount |>]> (Players s) = userOf <$> Players s).
    { by apply (fmap_insert_same userOf _ _ p). }
    rewrite (playerIndex_users _ _ _ Husers). unfold chargedTo. cbn [foldr]. unfold chargeOf.
    rewrite He1, He2, He3. cbn [String.eqb]. rewrite (proj2 (eqb_string_true EventPenaltyRecorded _) eq_refl). cbn [andb].
    destruct (String.eqb u v) eqn:Euv; [apply eqb_string_true in Euv as <-|apply eqb_string_false in Euv].
    + rewrite Hi, (list_lookup_total_correct _ _ _ Hp).
      rewrite (list_lookup_total_correct _ i (p <| p_PenaltyTicks := p_PenaltyTicks p + amount |>)).
      * cbn. lia.
      * apply list_lookup_insert_eq. by eapply lookup_lt_Some.
    + destruct (playerIndex (Players s) v) as [j|] eqn:Ej; [|lia].
      apply playerIndex_Some in Ej as (q & Hq & Hv & ->).
      rewrite (list_lookup_total_correct _ j q); [lia|]. rewrite list_lookup_insert_ne; [done|].
      intros ->. apply Euv. rewrite Hp in Hq. injection Hq as <-. exact (eq_trans (eq_sym Hu) Hv).
Qed.

Lemma penalizeUsers_Accounted s users amount reason batch s' evs :
  0 <= amount \/ ~ NonnegConfig (config s) ->
  penalizeUsers s users amount reason batch = Ok (s', evs) -> Accounted s s' evs.
Proof.
  revert s s' evs. induction users as [|u users IH]; intros s s' evs Ha; cbn [penalizeUsers].
  { intros [= <- <-]. apply Accounted_refl. }
  intros H. inv_result H. destruct value as [s1 ev]. inv_result H. destruct value as [s2 evs']. inv_results H.
  apply addPenalty_Accounted in E; [|done]. pose proof E as [Hc _].
  apply (Accounted_trans s s1 s' [ev] evs'); [done|]. by eapply IH; [rewrite Hc|].
Qed.

Lemma charge_config (f : Config -> Z) c :
  (NonnegConfig c -> 0 <= f c) -> 0 <= f c \/ ~ NonnegConfig c.
Proof. intros H. destruct (Z_le_dec 0 (f c)); [by left|right]. intros Hn. by apply H in Hn. Qed.

Lemma penalizeGroups_Accounted s groups batch s' evs :
  penalizeGroups s groups batch = Ok (s', evs) -> Accounted s s' evs.
Proof.
  revert s s' evs. induction groups as [|g groups IH]; intros s s' evs; cbn [penalizeGroups].
  { intros [= <- <-]. apply Accounted_refl. }
  intros H. inv_result H. destruct value as [s1 ev]. inv_result H. destruct value as [s2 evs']. inv_results H.
  apply (Accounted_trans s s1); [|by apply IH]. unfold penalizeGroup in E. inv_result E. destruct value as [s3 evs3].
  apply penalizeUsers_Accounted in E1; [|by apply (charge_config c_MatchPenaltyTicks); intros (_ & _ & ? & _)].
  destruct (_ && _).
  - inv_result E. destruct value as [s4 ev4]. injection E as <- <-.
    apply (Accounted_trans s s3); [done|]. eapply addPenalty_Accounted; [|exact E2].
    apply (charge_config c_WeakExtraPenaltyTicks). by intros (_ & _ & _ & ?).
  - by injection E as <- <-.
Qed.

(** ** Rolling and resolving *)
Lemma assignHands_account cfg faces n users players players' :
  assignHands cfg faces n users players = Ok players' -> account <$> players' = account <$> players.
Proof.
  revert n players. induction users as [|u users IH]; intros n players; cbn [assignHands]; [by intros [= <-]|].
  destruct (playerIndex players u) as [i|] eqn:Ei; [|done].
  apply playerIndex_Some in Ei as (p & Hp & _ & ->). intros H. do 2 inv_result H.
  apply IH in H. rewrite H. by apply (fmap_insert_same account _ _ p).
Qed.

Lemma writeHands_account inc players hands : account <$> writeHands inc players hands = account <$> players.
Proof.
  revert hands. induction players as [|p l IH]; intros hands; cbn [writeHands]; [done|].
  destruct (inc p); [destruct hands|]; cbn [fmap list_fmap]; try done; by rewrite IH.
Qed.

Lemma rollUsers_Accounted s roller users batch reason s' evs roller' :
  rollUsers s roller users batch reason = Ok (s', evs, roller') -> Accounted s s' evs.
Proof.
  unfold rollUsers. rewrite CloneM_id. intros H. inv_result H. inv_result H. destruct value as [faces r1].
  inv_result H. rename value into players. apply Ok_pair_inj in H as [H _]. apply pair_equal_spec in H as [<- <-].
  apply assignHands_account in E1. cbn [Players update] in E1.
  apply Accounted_same; [done| |].
  - unfold resolvePlayer235. cbn [Players update]. rewrite writeHands_account, E1. unfold includeActive.
    rewrite <- list_fmap_compose. by apply list_fmap_ext.
  - constructor; [done|]. rewrite Forall_fmap. apply Forall_forall. done.
Qed.

Lemma resolveBatch_Accounted s roller groups s' evs roller' :
  resolveBatch s roller groups = Ok (s', evs, roller') -> Accounted s s' evs.
Proof.
  unfold resolveBatch. intros H. inv_result H. destruct value as [s1 pens].
  inv_result H. destruct value as [[s2 reveals] r2]. apply Ok_pair_inj in H as [H _].
  apply pair_equal_spec in H as [<- <-]. apply penalizeGroups_Accounted in E. apply rollUsers_Accounted in E0.
  apply Accounted_after; [done|]. eapply Accounted_trans; [|exact E0].
  eapply (Accounted_trans s _ _ []); [|exact E]. by apply Accounted_same; [| |constructor].
Qed.

Lemma resolveLoop_Accounted fuel s roller evs s' evs' roller' :
  resolveLoop fuel s roller evs = Some (Ok (s', evs', roller')) ->
  exists more, evs' = evs ++ more /\ Accounted s s' more.
Proof.
  revert s roller evs. induction fuel as [|fuel IH]; intros s roller evs; cbn [resolveLoop]; [done|].
  destruct (_ =? _)%nat. { intros [= <- <- _]. exists []. rewrite app_nil_r. split; [done|apply Accounted_refl]. }
  destruct (_ <=? _).
  - cbn [capResolution]. intros H. injection H. intros _ <- <-. eexists. split; [done|].
    by apply Accounted_fact.
  - destruct (resolveBatch _ _ _) as [[[s1 ev1] r1]|] eqn:E; [|done]. intros (more & -> & Hm)%IH.
    apply resolveBatch_Accounted in E. exists (ev1 ++ more). rewrite app_assoc. split; [done|].
    by eapply Accounted_trans.
Qed.

Lemma resolveMatches_Accounted s roller s' evs roller' :
  resolveMatches s roller = Ok (s', evs, roller') -> Accounted s s' evs.
Proof.
  unfold resolveMatches. rewrite CloneM_id. destruct (resolveLoop _ _ _ _) as [[x|]|] eqn:E; [|done|done].
  intros [= ->]. by apply resolveLoop_Accounted in E as (more & -> & ?).
Qed.

(** ** Rounds *)
Lemma insert_total_account (l : list PlayerState) i (f : PlayerState -> PlayerState) :
  (forall p, account (f p) = account p) -> account <$> <[i := f (l !!! i)]> l = account <$> l.
Proof.
  intros Hf. destruct (decide (i < length l)%nat) as [Hlt|Hge].
  - apply (fmap_insert_same account _ _ (l !!! i)); [|apply Hf]. by apply list_lookup_lookup_total_lt.
  - rewrite list_insert_ge; [done|lia].
Qed.

Lemma selectTarget_Accounted s previous now reason s' evs :
  selectTarget s previous now reason = Ok (s', evs) -> Accounted s s' evs.
Proof.
  unfold selectTarget. rewrite CloneM_id. intros H. inv_result H. inv_result H. rename value into target, value0 into deadline.
  set (i := default 0%nat (playerIndex (Players s) target)) in *.
  set (n := (markTarget s i target previous) <| ActionDeadlineUnixMillis := deadline |>) in H.
  assert (Hn : Accounted s n []).
  { apply Accounted_same; [done| |constructor]. unfold n. cbn [Players update markTarget].
    by apply (insert_total_account (Players s) i (fun p => p <| p_TargetedThisRound := true |>)). }
  destruct (negb (p_TargetedThisRound (Players s !!! i))).
  - inv_result H. destruct value as [s1 ev]. apply Ok_pair_inj in H as [<- <-].
    apply Accounted_after; [done|]. apply (Accounted_trans s n _ []); [done|].
    eapply addPenalty_Accounted; [|exact E1]. apply (charge_config c_TargetPenaltyTicks). by intros (? & _).
  - apply Ok_pair_inj in H as [<- <-]. apply (Accounted_trans s n _ []); [done|].
    by apply Accounted_fact.
Qed.

Lemma resetRound_Accounted s : Accounted s (resetRound s) [].
Proof.
  rewrite resetRound_eq. apply Accounted_same; [done| |constructor]. cbn [Players update].
  rewrite <- list_fmap_compose. by apply list_fmap_ext.
Qed.

Lemma startRound_Accounted s roller now initial participants s' evs roller' :
  startRound s roller now initial participants = Ok (s', evs, roller') -> Accounted s s' evs.
Proof.
  unfold startRound. intros H. inv_result H. destruct value as [[s1 ev1] r1]. inv_result H.
  destruct value as [[s2 ev2] r2]. inv_result H. destruct value as [s3 ev3].
  apply Ok_pair_inj in H as [H _]. apply pair_equal_spec in H as [<- <-].
  apply rollUsers_Accounted in E. apply resolveMatches_Accounted in E0. apply selectTarget_Accounted in E1.
  rewrite <- app_assoc. apply Accounted_after; [by destruct initial|].
  apply (Accounted_trans s (resetRound s) _ [] _ (resetRound_Accounted s)).
  eapply Accounted_trans; [exact E|]. by eapply Accounted_trans.
Qed.

Lemma settleAndStart_Accounted s target reason now roller s' evs :
  settleAndStart s target reason now roller = Ok (s', evs) -> Accounted s s' evs.
Proof.
  unfold settleAndStart. rewrite CloneM_id. intros H. inv_result H. inv_result H. destruct value as [[s1 ev1] r1].
  apply Ok_pair_inj in H as [<- <-]. apply Accounted_after; [done|].
  apply startRound_Accounted in E0. eapply (Accounted_trans s _ _ []); [|exact E0].
  by apply Accounted_same; [| |constructor].
Qed.

Lemma Reroll_Accounted s actor now seed0 s' evs :
  Reroll s actor now seed0 = Ok (s', evs) -> Accounted s s' evs.
Proof.
  unfold Reroll. rewrite CloneM_id. intros H. inv_result H. destruct value. inv_result H. inv_result H. destruct value as [s1 pen].
  inv_result H. destruct value as [[s2 ev2] r2]. inv_result H. destruct value as [[s3 ev3] r3].
  apply addPenalty_Accounted in E1; [|apply (charge_config c_RerollPenaltyTicks); by intros (_ & ? & _)].
  apply rollUsers_Accounted in E2. apply resolveMatches_Accounted in E3.
  match type of E2 with Accounted ?n _ _ => set (n1 := n) in * end.
  assert (Hn1 : Accounted s1 n1 []) by (by apply Accounted_same; [| |constructor]).
  match type of H with context [[?r; pen]] => set (rerolled := r) in H end.
  assert (H3 : Accounted s s3 ([rerolled; pen] ++ ev2 ++ ev3)).
  { change ([rerolled; pen] ++ ev2 ++ ev3) with ([rerolled] ++ [pen] ++ [] ++ ev2 ++ ev3).
    apply Accounted_silent; [by apply Silent_one|]. eapply Accounted_trans; [exact E1|].
    eapply Accounted_trans; [exact Hn1|]. by eapply Accounted_trans. }
  destruct (targetStrictlyStrongest s3 actor); [|destruct (c_TargetRerollLimit (config s3) <=? _)];
    inv_result H; destruct value as [s4 ev4]; apply Ok_pair_inj in H as [<- <-];
    (eapply Accounted_trans; [exact H3|]); first [by eapply settleAndStart_Accounted|by eapply selectTarget_Accounted].
Qed.

Lemma RevokeParticipant_Accounted s u now seed0 s' evs :
  RevokeParticipant s u now seed0 = Ok (s', evs) -> Accounted s s' evs.
Proof.
  unfold RevokeParticipant. rewrite CloneM_id. intros H. inv_result H. destruct value. do 2 inv_result H.
  destruct (playerIndex (Players s) u) as [i|]; [|done]. inv_result H.
  match type of H with context [activeCount (Players ?n)] => set (n1 := n) in H end.
  assert (Hn1 : Accounted s n1 []).
  { apply Accounted_same; [done| |constructor]. unfold n1. cbn [Players update].
    by apply (insert_total_account (Players s) i (fun p => p <| p_Active := false |>)). }
  destruct (_ <? _)%nat; [|destruct (negb (String.eqb u (TargetUserID s)))].
  - cbn [finishState] in H. apply Ok_pair_inj in H as [<- <-].
    apply (Accounted_trans s n1 _ [] _ Hn1). apply Accounted_same; [done|done|]. by repeat constructor.
  - apply Ok_pair_inj in H as [<- <-]. apply (Accounted_trans s n1 _ [] _ Hn1).
    by apply Accounted_fact.
  - do 2 inv_result H. destruct value as [[s1 ev1] r1]. apply Ok_pair_inj in H as [<- <-].
    apply startRound_Accounted in E4. apply Accounted_after; [done|].
    apply (Accounted_trans s n1 _ [] _ Hn1). eapply (Accounted_trans n1 _ _ []); [|exact E4].
    by apply Accounted_same; [| |constructor].
Qed.

Lemma step_Accounted s i s' es : step s i = Ok (s', es) -> Accounted s s' es.
Proof.
  destruct i; cbn [step].
  - apply Reroll_Accounted.
  - unfold Stand. rewrite CloneM_id. intros H. inv_result H. by eapply settleAndStart_Accounted.
  - unfold HandleTimeout. rewrite CloneM_id. intros H. inv_result H. do 3 inv_result H.
    by eapply settleAndStart_Accounted.
  - apply RevokeParticipant_Accounted.
  - unfold Finish. rewrite CloneM_id. intros H. inv_result H. inv_result H. cbv zeta in H. do 2 inv_result H.
    apply Ok_pair_inj in H as [<- <-]. by apply Accounted_fact.
Qed.

(** ** Whole sessions *)
Lemma play_Accounted s inputs : Accounted s (fst (play s inputs)) (snd (play s inputs)).
Proof.
  revert s. induction inputs as [|i inputs IH]; intros s; cbn [play]; [apply Accounted_refl|].
  destruct (engine_step s i) as [[s' es]|] eqn:E; [|apply IH]. specialize (IH s').
  destruct (play s' inputs) as [final more]. cbn [fst snd] in *. eapply Accounted_trans; [|exact IH].
  by apply (step_Accounted s i).
Qed.

(** The constructor publishes the penalties of the first round too. *)
Lemma NewState_ledger cfg participants host now seed0 s es u :
  TypedConfig cfg -> NewState cfg participants host now seed0 = Ok (s, es) ->
  config s = cfg /\ Paid s /\ penaltyOf s u = chargedTo u es.
Proof.
  intros (H1 & H2 & H3 & H4 & _) H. unfold NewState in H. inv_result H. rename value into canonical.
  inv_result H. do 2 inv_result H. inv_result H. destruct value0 as [[s1 ev1] r1].
  apply Ok_pair_inj in H as [<- <-]. apply startRound_Accounted in E3 as [Hc HA]. cbn [config] in *.
  assert (Hp0 : Forall (fun p => p_PenaltyTicks p = 0) (newPlayer <$> canonical)).
  { rewrite Forall_fmap. apply Forall_forall. done. }
  unfold is_u32 in *. destruct HA as [Hpaid Hl].
  - unfold NonnegConfig. lia.
  - unfold Paid. cbn [Players]. eapply Forall_impl; [exact Hp0|]. cbn. lia.
  - split_and!; [done|done|]. rewrite Hl.
    enough (Hz : penaltyOf (mkState CurrentSchemaVersion PhaseRolling 1 host cfg (newPlayer <$> canonical)
                   "" 0 0 0 0 [] zeroSettlement [] "") u = 0) by lia.
    unfold penaltyOf. cbn [Players]. destruct (playerIndex _ u) as [i|] eqn:Ei; [|done].
    apply playerIndex_Some in Ei as (p & Hp & _ & ->). rewrite Forall_forall in Hp0.
    apply Hp0. by eapply list_elem_of_lookup_2.
Qed.

End MeetLedger.
