(* ===== verification/MeetByChanceTheorems.v ===== *)
(** * Meet by chance: theorems

    The properties of hands, match groups, targets, penalties and timers a
    session relies on, each with a witness on concrete sessions whose dice are
    really rolled. *)

From stdpp Require Import gmap.
From S2P Require Import Prelude Dice Roster Engine MeetHands MeetByChance MeetByChanceFacts MeetLedger.

Module MeetByChanceTheorems.
Import Roster MeetHands MeetByChance MeetByChanceFacts MeetLedger.

(** ** Concrete sessions *)
Definition meet_seed (n : Z) : list Z := n :: replicate 31 0.
Definition meet_three : list Participant :=
  [mkParticipant "carol" 7; mkParticipant "alice" 1; mkParticipant "bob" 4].
Definition meet_twelve : list Participant :=
  (fun '(u, i) => mkParticipant u (Z.of_nat i)) <$>
    zip ["ann"; "bob"; "cat"; "dan"; "eve"; "fay"; "gus"; "hal"; "ivy"; "jon"; "kim"; "lee"]%string (seq 0 12).

Definition meetState (r : res (State * list Event)) : State :=
  match r with
  | Ok (s, _) => s
  | Err _ => mkState 0 0 0 "" DefaultConfig [] "" 0 0 0 0 [] zeroSettlement [] ""
  end.
Definition meetEvents (r : res (State * list Event)) : list Event :=
  match r with Ok (_, es) => es | Err _ => [] end.

Definition meet_start : State :=
  Eval vm_compute in meetState (NewState DefaultConfig meet_three "bob" 1000 (meet_seed 1)).
Definition meet_rerolled : State :=
  Eval vm_compute in meetState (Reroll meet_start (TargetUserID meet_start) 2000 (meet_seed 2)).
Definition meet_crowd : State :=
  Eval vm_compute in meetState (NewState DefaultConfig meet_twelve "ann" 1000 (meet_seed 1)).

Lemma meet_start_reachable : reachable meet_start.
Proof.
  apply reachable_initial.
  exists DefaultConfig, meet_three, "bob"%string, 1000, (meet_seed 1),
    (meetEvents (NewState DefaultConfig meet_three "bob" 1000 (meet_seed 1))).
  split; [in_range|]. vm_compute. reflexivity.
Qed.

Lemma meet_rerolled_reachable : reachable meet_rerolled.
Proof.
  eapply (reachable_step meet_start (InReroll "bob" 2000 (meet_seed 2)) meet_rerolled
            (meetEvents (Reroll meet_start "bob" 2000 (meet_seed 2))) meet_start_reachable I).
  vm_compute. reflexivity.
Qed.

(** ** Snapshots *)

(** With at most one reroll per round every reroll settles, so the match
    history never outgrows its bound. *)
Lemma single_reroll_fits s :
  reachable s -> c_TargetRerollLimit (config s) <= 1 -> HistoryFits s.
Proof.
  induction 1 as [s (cfg & ps & host & now & seed0 & es & Hty & H)|s i s' es Hr IH _ Hstep]; intros Hlim.
  { by apply NewStateM_Fresh in H as [[] _]. }
  pose proof (reachable_valid _ Hr) as Hg. cbn [engine_valid engine_step meet_ops] in Hg, Hstep.
  pose proof Hstep as [Hg' (Hcfg & _)]%stepM_Good; [|done]. rewrite Hcfg in Hlim. specialize (IH Hlim).
  destruct i; cbn [step] in Hstep.
  - apply Reroll_inv in Hstep as (Hd & _ & -> & _ & Hlt & s1 & ev & s2 & evs2 & r2 & s3 & evs3 & r3 & Hp & Hro & Hm & Hor); [|done].
    destruct (Reroll_resolved _ _ _ _ _ _ _ _ _ _ _ Hg Hd IH Hlt Hp Hro Hm) as (Hc3 & Hm3 & _).
    pose proof (b_reroll _ (co_base _ (gd_core _ Hg))).
    assert (Hact : (MinimumPlayers <= activeCount (Players s3))%nat).
    { rewrite (Moved_activeCount _ _ Hm3). apply (de_active _ Hd). }
    assert (Hfin : FinishReason s3 = ""%string) by (destruct Hm3 as [-> _]; apply (de_reason _ Hd)).
    assert (Ht3 : targeted (Players s3) (TargetUserID s)).
    { destruct Hm3 as [_ Hst]. by eapply still_targeted; [exact Hst|apply (de_target _ Hd)]. }
    assert (Hcnt : TargetRerollCount s3 = TargetRerollCount s + 1 /\ config s3 = config s).
    { destruct Hm3 as [-> _]. done. }
    destruct Hor as [(_ & evs4 & H4)|[(_ & _ & evs4 & H4)|(_ & Hlt3 & _)]].
    + by apply settleAndStart_spec in H4 as ([] & _).
    + by apply settleAndStart_spec in H4 as ([] & _).
    + destruct Hcnt as [Hcnt Hcfg3]. rewrite Hcnt, Hcfg3 in Hlt3. lia.
  - apply Stand_inv in Hstep as (Hd & -> & H4); [|done]. by apply stand_Fresh in H4 as ([] & _).
  - apply HandleTimeoutM_inv in Hstep as (Hd & _ & _ & _ & H4); [|done]. by apply stand_Fresh in H4 as ([] & _).
  - apply RevokeParticipantM_inv in Hstep as (Hd & _ & j & p & Hp & Hu & Ha & Hor); [|done].
    destruct Hor as [[_ ->]|[(_ & _ & ->)|(Hge & _ & Hne & evs1 & r1 & H4)]]; [exact IH|exact IH|].
    pose proof (inactiveAt_Core s j p (gd_core _ Hg) Hp) as Hc. pose proof (b_round _ (co_base _ Hc)) as Hrd.
    apply startRound_spec in H4 as ([] & _); try done; [|apply Hd|].
    + apply Base_round; [apply Hc|]. cbn in *. lia.
    + intros q Hq _. by apply (po_hands _ (co_players _ Hc)).
  - unfold Finish in Hstep. destruct (Validate s) as [[]|]; cbn [bind_result] in Hstep; [|done].
    inv_result Hstep. cbv zeta in Hstep. do 2 inv_result Hstep. rewrite CloneM_id in Hstep.
    apply Ok_pair_inj in Hstep as [<- _]. exact IH.
Qed.

(** C38: In every snapshot a session can reach, the frozen roster is in seat
    order, the hand of every player of the resolution is the table-wide
    classification of its dice and all counters are within the frozen limits;
    [Validate] accepts it exactly when the match history has at most
    [MatchResolutionLimit + 1] entries, which always holds when at most one
    reroll is allowed; the history never exceeds that bound by more than one. *)
Theorem meet_session_valid s :
  reachable s ->
  StronglySorted (fun x y => p_SeatIndex x < p_SeatIndex y) (Players s) /\
  validateCurrentHands (config s) (Players s) = Ok tt /\
  0 <= TargetStreak s <= TargetRerollCount s /\ TargetRerollCount s <= c_TargetRerollLimit (config s) /\
  0 <= MatchResolutionCount s <= c_MatchResolutionLimit (config s) /\
  Z.of_nat (length (MatchHistory s)) <= c_MatchResolutionLimit (config s) + 2 /\
  (Validate s = Ok tt <-> Z.of_nat (length (MatchHistory s)) <= c_MatchResolutionLimit (config s) + 1) /\
  (c_TargetRerollLimit (config s) <= 1 -> Validate s = Ok tt).
Proof.
  intros Hr. pose proof (reachable_valid _ Hr) as Hg. cbn [engine_valid meet_ops] in Hg.
  pose proof (gd_core _ Hg) as [Hb Hp Hh]. split_and!.
  - apply Hb.
  - by apply validateCurrentHands_iff.
  - apply (b_streak _ Hb).
  - apply (b_streak _ Hb).
  - apply (b_reroll _ Hb).
  - apply (b_count _ Hb).
  - apply (b_count _ Hb).
  - apply (gd_history _ Hg).
  - by apply Good_fits.
  - intros Hlim. apply Good_fits; [done|]. by apply single_reroll_fits.
Qed.

Lemma meet_session_valid_witness :
  Validate meet_rerolled = Ok tt /\ validateCurrentHands (config meet_rerolled) (Players meet_rerolled) = Ok tt.
Proof.
  destruct (meet_session_valid meet_rerolled meet_rerolled_reachable) as (_ & Hh & _ & _ & _ & _ & Hv & _).
  split; [|exact Hh]. apply Hv. vm_compute. discriminate.
Defined.

(** The bound of [validateMatchHistory] is too tight: with the default
    configuration and twelve players a capped first resolution already fills the
    history, so a capped first reroll that does not settle the round returns a
    snapshot with [MatchResolutionLimit + 2] entries, which the engine's own
    [Validate] rejects and on which every further operation fails. *)
Theorem capped_reroll_invalid :
  exists s es s' es',
    NewState DefaultConfig meet_twelve "ann" 1000 (meet_seed 1) = Ok (s, es) /\
    Validate s = Ok tt /\
    Reroll s (TargetUserID s) 2000 (meet_seed 2) = Ok (s', es') /\
    Validate s' = ruleError CodeInvalidState "match history exceeds its bounded resolution count" /\
    forall i, is_ok (step s' i) = false.
Proof.
  exists meet_crowd, (meetEvents (NewState DefaultConfig meet_twelve "ann" 1000 (meet_seed 1))),
    (meetState (Reroll meet_crowd (TargetUserID meet_crowd) 2000 (meet_seed 2))),
    (meetEvents (Reroll meet_crowd (TargetUserID meet_crowd) 2000 (meet_seed 2))).
  assert (Hv : Validate (meetState (Reroll meet_crowd (TargetUserID meet_crowd) 2000 (meet_seed 2)))
    = ruleError CodeInvalidState "match history exceeds its bounded resolution count") by (vm_compute; reflexivity).
  split_and!; [vm_compute; reflexivity..|exact Hv|].
  intros i. destruct (step _ i) as [[s' es]|] eqn:E; [|done]. apply stepM_requires_valid in E as [E _].
  rewrite Hv in E. done.
Qed.

(** ** Match resolution *)

(** C40: The automatic resolution loop terminates on every sound table: fuel
    beyond the batches left before the cap never changes its outcome.  When it
    succeeds, either no two active players share a tie key any more, or the
    frozen limit is reached and the last history entry records the cap. *)
Theorem match_resolution_terminates s roller :
  Core s ->
  exists outcome,
    (forall fuel, (resolveFuel s <= fuel)%nat -> resolveLoop fuel s roller [] = Some outcome) /\
    resolveMatches s roller = outcome /\
    forall s' evs roller', outcome = Ok (s', evs, roller') ->
      MatchResolutionCount s <= MatchResolutionCount s' <= c_MatchResolutionLimit (config s) /\
      (NoDup ((fun p => TieKey (p_Hand p)) <$> activeHandPlayers (Players s')) \/
       MatchResolutionCount s' = c_MatchResolutionLimit (config s) /\
       exists groups, last (MatchHistory s') = Some (mkResolution (MatchResolutionCount s') groups true)).
Proof.
  intros Hc. destruct (resolveLoop_terminates (resolveFuel s) s roller [] Hc) as (outcome & Ho & Hmore).
  { unfold resolveFuel. lia. }
  assert (Hrm : resolveMatches s roller = outcome) by (unfold resolveMatches; by rewrite CloneM_id, Ho).
  exists outcome. split_and!; [exact Hmore|done|]. intros s' evs roller' Heq. rewrite Heq in Hrm.
  apply resolveMatches_spec in Hrm as (Hc' & Hm & Hle & Hor); [|done].
  assert (Hcfg : config s' = config s) by (destruct Hm as [-> _]; done).
  pose proof (b_count _ (co_base _ Hc')) as Hcount. rewrite Hcfg in *. split; [lia|].
  destruct Hor as [[Hnil _]|(_ & Hlim & Hcap)]; [left; by apply FindMatchGroups_nil|right; done].
Qed.

Lemma match_resolution_terminates_witness :
  exists outcome, resolveLoop 9 meet_crowd (mkRoller (meet_seed 3) 0) [] = Some outcome.
Proof.
  assert (Hc : Core meet_crowd).
  { apply (NewStateM_Fresh DefaultConfig meet_twelve "ann" 1000 (meet_seed 1) meet_crowd
             (meetEvents (NewState DefaultConfig meet_twelve "ann" 1000 (meet_seed 1)))).
    - in_range.
    - vm_compute. reflexivity. }
  destruct (match_resolution_terminates meet_crowd (mkRoller (meet_seed 3) 0) Hc) as (outcome & Hf & _).
  exists outcome. apply Hf. vm_compute. lia.
Defined.

(** The groups of one batch are simultaneous and fair: every group has a
    known kind and at least two members, no player is in two groups, and only
    active players are drawn in. *)
Theorem match_groups_disjoint players :
  NoDup (p_UserID <$> players) ->
  Forall (fun g => knownKind (g_Kind g) = true /\ (2 <= length (g_UserIDs g))%nat) (FindMatchGroups players) /\
  NoDup (concat (g_UserIDs <$> FindMatchGroups players)) /\
  forall u, u ∈ concat (g_UserIDs <$> FindMatchGroups players) -> isActive players u = true.
Proof.
  intros Hnd. destruct (FindMatchGroups_OK players Hnd) as [Hs Hd Ha]. split_and!; [done|done|].
  intros u Hu. apply isActive_iff; [exact Hnd|]. by apply Ha.
Qed.

Lemma match_groups_disjoint_witness :
  FindMatchGroups (Players meet_crowd) <> [] /\
  NoDup (concat (g_UserIDs <$> FindMatchGroups (Players meet_crowd))).
Proof.
  split; [vm_compute; discriminate|]. apply (match_groups_disjoint (Players meet_crowd)).
  apply (bool_decide_unpack _). vm_compute. exact I.
Defined.

(** ** Hands *)

(** Every roll of three dice is classified as the strongest interpretation
    the wildcard rule allows: the chosen hand is the ordinary classification of
    a legal substitution of ones, no legal substitution beats it, and the
    original dice are kept; 2-3-5 is the special hand where enabled, anything
    but six-sided faces is refused. *)
Theorem Classify_strongest raw cfg :
  match Classify raw cfg with
  | Ok h =>
      ValidFaces raw /\ Raw h = raw /\
      if isSpecial cfg raw then h = specialHand raw
      else (exists c w, Legal cfg raw c /\ h = (classifyOrdinary c cfg) <| WildUsed := w |> <| Raw := raw |>) /\
           forall c, Legal cfg raw c -> CompareHand (classifyOrdinary c cfg) h <= 0
  | Err e => Code e = CodeInvalidState /\ ~ ValidFaces raw
  end.
Proof.
  destruct (Classify raw cfg) as [h|e] eqn:E.
  - pose proof (Classify_Raw _ _ _ E) as Hraw. apply Classify_cases in E as [Hv [[-> Hh]|(-> & _ & Hbest)]]; done.
  - split.
    + unfold Classify in E. destruct (negb _); [by injection E as <-|]. cbv zeta in E. by case_match.
    + intros Hv. destruct (Classify_total raw cfg Hv) as [h Hh]. congruence.
Qed.

(** A hand of a resolved table with its classification. *)
Lemma table_lookup cfg raws cs i h :
  Forall2 (fun raw c => Classify raw cfg = Ok c) raws cs -> Resolve235Context cs !! i = Some h ->
  exists c, cs !! i = Some c /\ h = resolveAt cs i c /\ Classify (Raw h) cfg = Ok c /\ Contextual c h.
Proof.
  intros Hf Hi. destruct (Forall2_lookup_r _ _ _ _ _ (Resolve235Context_Contextual cs) Hi) as (c & Hc & Hctx).
  destruct (Forall2_lookup_r _ _ _ _ _ Hf Hc) as (raw & _ & Hcl). exists c. split_and!; [done| |by rewrite (proj1 (Contextual_fields _ _ Hctx)), (Classify_Raw _ _ _ Hcl)|done].
  rewrite Resolve235Context_imap, list_lookup_imap, Hc in Hi. by injection Hi as <-.
Qed.

Lemma allOthersLeopards_iff hands i :
  allOthersLeopards hands i = true <->
  forall j h, hands !! j = Some h -> j <> i -> Class h = HandLeopard.
Proof.
  unfold allOthersLeopards. rewrite forallb_forall. split.
  - intros H j h Hj Hne. specialize (H j). rewrite in_seq in H. pose proof (lookup_lt_Some _ _ _ Hj).
    specialize (H ltac:(lia)). rewrite (nth_lookup_Some _ _ _ _ Hj) in H. bool_cases; [lia|done].
  - intros H j Hj%in_seq. destruct (lookup_lt_is_Some_2 hands j ltac:(lia)) as [h Hh].
    rewrite (nth_lookup_Some _ _ _ _ Hh). destruct (Nat.eqb_spec j i) as [|Hne]; [done|].
    by rewrite (H j h Hh Hne).
Qed.

(** The table-wide 235 decision makes a special hand extreme: if every
    other hand is a leopard it strictly beats all of them, otherwise no hand of
    the table is weaker. *)
Theorem special235_extreme cfg raws cs i h :
  Forall2 (fun raw c => Classify raw cfg = Ok c) raws cs ->
  Resolve235Context cs !! i = Some h -> Special235 h = true ->
  (forall j other, Resolve235Context cs !! j = Some other -> j <> i ->
     Class other = HandLeopard /\ CompareHand h other = 1) \/
  (forall j other, Resolve235Context cs !! j = Some other -> CompareHand h other <= 0).
Proof.
  intros Hf Hi Hs. destruct (table_lookup _ _ _ _ _ Hf Hi) as (c & Hc & Hh & Hcl & Hctx).
  destruct (Handed_digits cfg h c Hcl Hctx) as [Hk _].
  assert (Hsc : Special235 c = true) by (by rewrite <- (proj2 (proj2 (proj2 (Contextual_fields _ _ Hctx))))).
  unfold resolveAt in Hh. rewrite Hsc in Hh.
  destruct (allOthersLeopards cs i) eqn:Ea; cbn [contextHand] in Hh; [left|right]; intros j o Ho.
  - intros Hne. destruct (table_lookup _ _ _ _ _ Hf Ho) as (co & Hco & _ & Hclo & Hctxo).
    pose proof (proj1 (allOthersLeopards_iff cs i) Ea j co Hco Hne) as Hleo.
    rewrite <- (proj1 (proj2 (proj2 (Contextual_fields _ _ Hctxo)))) in Hleo. split; [done|].
    destruct (Handed_digits cfg o co Hclo Hctxo) as [Hko [(_ & Hcls & _)|(_ & Hchk & _)]]; [by rewrite Hleo in Hcls|].
    destruct (ordinary_digits o Hchk) as (rest & Hd & Hr).
    eapply (CompareHand_heads o h _ _ 5 [0] Hko Hk Hd); [by rewrite Hh|lia].
  - destruct (table_lookup _ _ _ _ _ Hf Ho) as (co & Hco & Hoeq & Hclo & Hctxo).
    assert (Hd0 : digits (FullKey h) = [0; -1]) by by rewrite Hh.
    destruct (Handed_digits cfg o co Hclo Hctxo) as [Hko [(_ & _ & [Hd|Hd])|(_ & Hchk & _)]].
    + apply Z.eq_le_incl, CompareHand_zero; [done|done|by rewrite Hd].
    + destruct (CompareHand_heads h o 0 [-1] 5 [0] Hk Hko Hd0 Hd ltac:(lia)) as [-> _]. lia.
    + destruct (ordinary_digits o Hchk) as (rest & Hd & Hr).
      destruct (CompareHand_heads h o 0 [-1] _ rest Hk Hko Hd0 Hd ltac:(lia)) as [-> _]. lia.
Qed.

(** A 2-3-5 among two leopards. *)
Definition meet_raws : list Faces := [mkFaces 5 2 3; mkFaces 6 6 6; mkFaces 1 1 1].
Definition meet_table : list Hand :=
  Eval vm_compute in
    match map_result (fun raw => Classify raw DefaultConfig) meet_raws with Ok cs => cs | Err _ => [] end.
Definition meet_resolved : list Hand := Eval vm_compute in Resolve235Context meet_table.

Lemma special235_extreme_witness :
  CompareHand (nth 0 meet_resolved zeroHand) (nth 1 meet_resolved zeroHand) = 1.
Proof.
  assert (Hf : Forall2 (fun raw c => Classify raw DefaultConfig = Ok c) meet_raws meet_table).
  { repeat constructor. }
  assert (Hr : Resolve235Context meet_table = meet_resolved) by (vm_compute; reflexivity).
  destruct (special235_extreme DefaultConfig meet_raws meet_table 0 (nth 0 meet_resolved zeroHand) Hf) as [Hall|Hall].
  - rewrite Hr. reflexivity.
  - reflexivity.
  - apply (Hall 1%nat); [rewrite Hr; reflexivity|discriminate].
  - exfalso. apply (Hall 1%nat (nth 1 meet_resolved zeroHand)); [rewrite Hr; reflexivity|]. vm_compute. reflexivity.
Defined.

(** ** Targets *)

(** The scan of [lowestActiveUser] after [n] players. *)
Definition ScanInv (players : list PlayerState) (n : nat) (lowest : option nat) : Prop :=
  match lowest with
  | None => forall j q, (j < n)%nat -> players !! j = Some q -> p_Active q = false
  | Some l => exists p, (l < n)%nat /\ players !! l = Some p /\ p_Active p = true /\
      forall j q, (j < n)%nat -> players !! j = Some q -> p_Active q = true ->
        CompareHand (p_Hand p) (p_Hand q) <= 0 /\ ((j < l)%nat -> CompareHand (p_Hand p) (p_Hand q) < 0)
  end.

Lemma CompareHand_lt_trans h1 h2 h3 :
  KeyOK (FullKey h1) -> KeyOK (FullKey h2) -> KeyOK (FullKey h3) ->
  CompareHand h1 h2 < 0 -> CompareHand h2 h3 <= 0 -> CompareHand h1 h3 < 0.
Proof.
  intros K1 K2 K3 H12 H23. pose proof (CompareHand_trans h1 h2 h3 K1 K2 K3 ltac:(lia) H23) as H13.
  destruct (Z.eq_dec (CompareHand h1 h3) 0) as [H0|]; [|lia]. exfalso.
  apply CompareHand_zero in H0; [|done|done]. unfold CompareHand in *. rewrite !compareKey_lex in * by done.
  rewrite H0, lex_antisym in H12. lia.
Qed.

Lemma lowestLoop_scan players rest index lowest :
  (forall p, p ∈ players -> p_Active p = true -> KeyOK (FullKey (p_Hand p))) ->
  drop index players = rest -> ScanInv players index lowest ->
  ScanInv players (length players) (lowestLoop players index rest lowest).
Proof.
  intros Hk. revert index lowest. induction rest as [|q rest IH]; intros index lowest Hdrop Hinv; cbn [lowestLoop].
  { assert (Hlen : (length players <= index)%nat) by (apply (f_equal length) in Hdrop; rewrite length_drop in Hdrop; cbn in Hdrop; lia).
    destruct lowest as [l|]; cbn in *.
    - destruct Hinv as (p & Hl & Hp & Ha & Hall). exists p. split_and!; [by eapply lookup_lt_Some|done|done|].
      intros j q Hj. apply Hall. lia.
    - intros j q Hj. apply Hinv. lia. }
  assert (Hq : players !! index = Some q).
  { rewrite <- (Nat.add_0_r index), <- lookup_drop, Hdrop. done. }
  apply IH; [by rewrite <- (Nat.add_1_r index), <- drop_drop, Hdrop|].
  pose proof (Hk q (list_elem_of_lookup_2 _ _ _ Hq)) as Hkq.
  destruct (p_Active q) eqn:Ea; cbn [negb].
  - destruct lowest as [l|]; cbn [ScanInv] in Hinv.
    + destruct Hinv as (p & Hl & Hp & Hap & Hall). rewrite (list_lookup_total_correct _ _ _ Hp).
      pose proof (Hk p (list_elem_of_lookup_2 _ _ _ Hp) Hap) as Hkp. specialize (Hkq eq_refl).
      destruct (Z.ltb_spec (CompareHand (p_Hand q) (p_Hand p)) 0) as [Hlt|Hge].
      * exists q. split_and!; [lia|done|done|]. intros j r Hj Hr Har.
        destruct (decide (j = index)) as [->|Hne].
        { rewrite Hq in Hr. injection Hr as <-. split; [by apply Z.eq_le_incl, CompareHand_self|lia]. }
        destruct (Hall j r ltac:(lia) Hr Har) as [Hle _].
        pose proof (CompareHand_lt_trans _ _ _ Hkq Hkp (Hk r (list_elem_of_lookup_2 _ _ _ Hr) Har) Hlt Hle). lia.
      * exists p. split_and!; [lia|done|done|]. intros j r Hj Hr Har.
        destruct (decide (j = index)) as [->|Hne]; [|apply Hall; [lia|done|done]].
        rewrite Hq in Hr. injection Hr as <-. rewrite CompareHand_antisym by done. lia.
    + exists q. specialize (Hkq eq_refl). split_and!; [lia|done|done|]. intros j r Hj Hr Har.
      destruct (decide (j = index)) as [->|Hne].
      * rewrite Hq in Hr. injection Hr as <-. split; [by apply Z.eq_le_incl, CompareHand_self|lia].
      * rewrite (Hinv j r ltac:(lia) Hr) in Har. done.
  - destruct lowest as [l|]; cbn [ScanInv] in *.
    + destruct Hinv as (p & Hl & Hp & Hap & Hall). exists p. split_and!; [lia|done|done|]. intros j r Hj Hr Har.
      destruct (decide (j = index)) as [->|Hne]; [congruence|]. apply Hall; [lia|done|done].
    + intros j r Hj Hr. destruct (decide (j = index)) as [->|Hne]; [congruence|]. apply (Hinv j r); [lia|done].
Qed.

(** The selected target holds the weakest active hand of the table, the
    lowest seat deciding ties; selecting never fails for want of a target while
    somebody is active. *)
Theorem target_is_weakest s :
  Core s ->
  match lowestActiveUser s with
  | Ok target => exists i p,
      Players s !! i = Some p /\ p_UserID p = target /\ p_Active p = true /\
      forall j q, Players s !! j = Some q -> p_Active q = true ->
        CompareHand (p_Hand p) (p_Hand q) <= 0 /\ ((j < i)%nat -> CompareHand (p_Hand p) (p_Hand q) < 0)
  | Err e => Code e = CodeInvalidState /\ activeCount (Players s) = 0%nat
  end.
Proof.
  intros Hc. assert (Hk : forall p, p ∈ Players s -> p_Active p = true -> KeyOK (FullKey (p_Hand p))).
  { intros p Hp Ha. destruct (core_Handed s p Hc Hp Ha) as (c & Hcl & Hctx).
    by destruct (Handed_digits _ _ _ Hcl Hctx) as [? _]. }
  pose proof (lowestLoop_scan (Players s) (Players s) 0 None Hk (drop_0 _) ltac:(intros j q Hj; lia)) as Hinv.
  unfold lowestActiveUser. destruct (lowestLoop _ _ _ _) as [l|]; cbn [ScanInv] in Hinv.
  - destruct Hinv as (p & Hl & Hp & Ha & Hall). exists l, p. rewrite (list_lookup_total_correct _ _ _ Hp).
    split_and!; [done|done|done|]. intros j q Hq. exact (Hall j q (lookup_lt_Some _ _ _ Hq) Hq).
  - split; [done|]. unfold activeCount, countb. destruct (List.filter activeOf (Players s)) as [|p l] eqn:E; [done|].
    assert (Hin : List.In p (List.filter activeOf (Players s))) by (rewrite E; by left).
    apply filter_In in Hin as [Hin Ha]. apply list_elem_of_In, list_elem_of_lookup_1 in Hin as [j Hj].
    pose proof (Hinv j p (lookup_lt_Some _ _ _ Hj) Hj) as Hf. cbn in Ha. congruence.
Qed.

Lemma target_is_weakest_witness :
  exists i p, Players meet_start !! i = Some p /\ p_UserID p = "bob"%string /\ p_Active p = true.
Proof.
  pose proof (target_is_weakest meet_start (gd_core _ (reachable_valid _ meet_start_reachable))) as H.
  vm_compute in H. destruct H as (i & p & Hp & Hu & Ha & _). exists i, p. split_and!; [exact Hp|exact Hu|exact Ha].
Defined.

(** ** Penalties *)

(** C39: The published facts are a complete penalty ledger: for every session
    and every sequence of inputs, accepted or rejected, the cumulative penalty
    of each player is the sum of the [penalty.recorded] facts naming them. *)
Theorem penalties_accounted cfg participants host now seed0 s es inputs u :
  TypedConfig cfg -> NewState cfg participants host now seed0 = Ok (s, es) ->
  penaltyOf (fst (play s inputs)) u = chargedTo u (es ++ snd (play s inputs)).
Proof.
  intros Hty H. destruct (NewState_ledger _ _ _ _ _ _ _ u Hty H) as (Hc & Hp & Hl).
  destruct (play_Accounted s inputs) as [_ HA]. destruct Hty as (H1 & H2 & H3 & H4 & _). unfold is_u32 in *.
  destruct HA as [_ HA]; [rewrite Hc; unfold NonnegConfig; lia|done|]. by rewrite HA, Hl, chargedTo_app.
Qed.

Lemma penalties_accounted_witness :
  let inputs := [InReroll "bob" 2000 (meet_seed 2); InStand "carol" 2500 (meet_seed 5);
                 InStand "bob" 3000 (meet_seed 4)] in
  penaltyOf (fst (play meet_start inputs)) "bob" =
    chargedTo "bob" (meetEvents (NewState DefaultConfig meet_three "bob" 1000 (meet_seed 1))
                     ++ snd (play meet_start inputs)).
Proof.
  apply (penalties_accounted DefaultConfig meet_three "bob" 1000 (meet_seed 1)).
  - in_range.
  - vm_compute. reflexivity.
Defined.

(** ** Timers *)

(** Progress of a session: rounds, then rerolls within the round. *)
Definition After (s s' : State) : Prop :=
  Round s < Round s' \/ Round s' = Round s /\ TargetRerollCount s < TargetRerollCount s'.

(** Inputs that end the current target decision when accepted: everything but
    the revocation of a bystander. *)
Definition decides (s : State) (i : Input) : bool :=
  match i with InRevoke u _ _ => String.eqb u (TargetUserID s) | _ => true end.

Lemma Reroll_After s actor now seed0 s' evs :
  Good s -> Reroll s actor now seed0 = Ok (s', evs) -> After s s'.
Proof.
  intros Hg H.
  apply Reroll_inv in H as (Hd & Hfit & -> & _ & Hlt & s1 & ev & s2 & evs2 & r2 & s3 & evs3 & r3 & Hp & Hr & Hm & Hor);
    [|done].
  destruct (Reroll_resolved _ _ _ _ _ _ _ _ _ _ _ Hg Hd Hfit Hlt Hp Hr Hm) as (Hc3 & Hm3 & _).
  assert (Hact : (MinimumPlayers <= activeCount (Players s3))%nat).
  { rewrite (Moved_activeCount _ _ Hm3). apply (de_active _ Hd). }
  assert (Ht3 : targeted (Players s3) (TargetUserID s)).
  { destruct Hm3 as [_ Hst]. by eapply still_targeted; [exact Hst|apply (de_target _ Hd)]. }
  assert (H3 : Round s3 = Round s /\ TargetRerollCount s3 = TargetRerollCount s + 1 /\ FinishReason s3 = ""%string).
  { destruct Hm3 as [-> _]. split_and!; [done|done|apply (de_reason _ Hd)]. }
  destruct H3 as (Hr3 & Hn3 & Hf3). unfold After.
  destruct Hor as [(_ & evs4 & H)|[(_ & _ & evs4 & H)|(_ & _ & evs4 & H)]].
  - apply settleAndStart_spec in H as (_ & _ & -> & _); try done. lia.
  - apply settleAndStart_spec in H as (_ & _ & -> & _); try done. lia.
  - apply selectTarget_spec in H as (_ & _ & (-> & _ & -> & _) & _); try done. lia.
Qed.

Lemma Finish_same s reason operator s' evs :
  Finish s reason operator = Ok (s', evs) ->
  Phase s' = PhaseFinished /\ Round s' = Round s /\ TargetRerollCount s' = TargetRerollCount s.
Proof.
  unfold Finish. rewrite CloneM_id. intros H. do 2 inv_result H. cbv zeta in H. do 2 inv_result H.
  by apply Ok_pair_inj in H as [<- _].
Qed.

Lemma RevokeParticipant_After s u now seed0 s' evs :
  Good s -> RevokeParticipant s u now seed0 = Ok (s', evs) ->
  (Phase s' = PhaseFinished \/ u <> TargetUserID s) /\ Round s' = Round s /\ TargetRerollCount s' = TargetRerollCount s
  \/ After s s'.
Proof.
  intros Hg H. apply RevokeParticipantM_inv in H as (Hd & _ & j & p & Hp & Hu & Ha & Hor); [|done].
  destruct Hor as [[_ ->]|[(_ & Hne & ->)|(Hge & _ & Hne & evs1 & r1 & H)]].
  - left. split_and!; [by left|done|done].
  - left. split_and!; [by right|done|done].
  - right. left. pose proof (inactiveAt_Core s j p (gd_core _ Hg) Hp) as Hc.
    pose proof (b_round _ (co_base _ Hc)) as Hrd. change (Round (inactiveAt s j p)) with (Round s) in Hrd.
    apply startRound_spec in H as (_ & _ & -> & _); try done; [cbn; lia| |apply Hd|].
    + apply Base_round; [apply Hc|]. cbn. lia.
    + intros q Hq _. by apply (po_hands _ (co_players _ Hc)).
Qed.

Lemma step_progress s i s' es :
  Good s -> step s i = Ok (s', es) ->
  (Phase s' = PhaseFinished \/ decides s i = false) /\ Round s' = Round s /\ TargetRerollCount s' = TargetRerollCount s
  \/ After s s'.
Proof.
  intros Hg H. destruct i; cbn [step decides] in *.
  - right. by eapply Reroll_After.
  - right. apply Stand_inv in H as (Hd & -> & H); [|done]. apply stand_Fresh in H as (_ & _ & Hr & _); try done.
    left. lia.
  - right. apply HandleTimeoutM_inv in H as (Hd & _ & _ & _ & H); [|done].
    apply stand_Fresh in H as (_ & _ & Hr & _); try done. left. lia.
  - apply RevokeParticipant_After in H as [([?|?] & ? & ?)|?]; [left..|by right|done];
      (split_and!; [|done|done]); [by left|right]. by apply eqb_string_false.
  - left. apply Finish_same in H as (? & ? & ?). split_and!; [by left|done|done].
Qed.

(** The decision a timer of [s] was issued for is gone. *)
Definition Expired (s s' : State) : Prop := Phase s' = PhaseFinished \/ After s s'.

Lemma Expired_play s s' inputs : Good s' -> Expired s s' -> Expired s (fst (play s' inputs)).
Proof.
  revert s'. induction inputs as [|i inputs IH]; intros s' Hg He; cbn [play]; [done|].
  destruct (engine_step s' i) as [[s1 es]|] eqn:E; [|by apply IH]. cbn [engine_step meet_ops] in E.
  assert (He1 : Expired s s1).
  { apply stepM_requires_valid in E as Hn. destruct Hn as [_ Hn]. destruct He as [?|He]; [done|].
    apply step_progress in E as [([?|_] & Hr & Ht)|Ha]; [by left|right|right|done]; unfold After in *; lia. }
  apply stepM_Good in E as [Hg1 _]; [|done]. specialize (IH s1 Hg1 He1). by destruct (play s1 inputs).
Qed.

Lemma Expired_rejected s s' timer now seed0 :
  CurrentTimer s = Some timer -> Expired s s' -> is_ok (HandleTimeout s' timer now seed0) = false.
Proof.
  unfold CurrentTimer. destruct (_ || _); [done|]. intros [= <-] He. unfold HandleTimeout.
  destruct (Validate s') as [[]|]; cbn [bind_result]; [|done].
  destruct (Z.eqb_spec (Phase s') PhaseFinished) as [|Hne]; [done|]. destruct He as [?|He]; [done|].
  assert (Hmis : timerMismatch s' (mkTimer (Round s) (TargetUserID s) (TargetRerollCount s) (TargetStreak s)
            (MatchResolutionCount s) (ActionDeadlineUnixMillis s)) = true); [|by rewrite Hmis].
  unfold timerMismatch. cbn [t_Round t_TargetRerollCount]. destruct He as [Hr|[Hr Ht]].
  - by rewrite (proj2 (Z.eqb_neq (Round s) (Round s'))) by lia.
  - rewrite (proj2 (Z.eqb_neq (TargetRerollCount s) (TargetRerollCount s'))) by lia.
    cbn [negb]. by rewrite !orb_true_r.
Qed.

(** A timer settles at most the decision it was issued for: once that
    decision is answered, timed out, cancelled or the session finishes, the
    timer is rejected in every later snapshot of the session, whatever inputs
    arrive in between. *)
Theorem meet_timer_single_use s i s' es timer inputs now seed0 :
  reachable s -> CurrentTimer s = Some timer ->
  step s i = Ok (s', es) -> decides s i = true ->
  is_ok (HandleTimeout (fst (play s' inputs)) timer now seed0) = false.
Proof.
  intros Hg%reachable_valid Ht H Hd. apply stepM_Good in H as Hg'; [|done]. destruct Hg' as [Hg' _].
  apply (Expired_rejected s); [done|]. apply Expired_play; [done|].
  apply step_progress in H as [([?|Hf] & _)|Ha]; [by left|congruence|by right|done].
Qed.

Lemma meet_timer_single_use_witness :
  is_ok (HandleTimeout (fst (play meet_rerolled [InStand "bob" 3000 (meet_seed 4)]))
           (mkTimer 1 "bob" 0 0 0 31000) 40000 (meet_seed 6)) = false.
Proof.
  apply (meet_timer_single_use meet_start (InReroll "bob" 2000 (meet_seed 2)) meet_rerolled
           (meetEvents (Reroll meet_start "bob" 2000 (meet_seed 2))) _ _ _ _ meet_start_reachable).
  - reflexivity.
  - vm_compute. reflexivity.
  - reflexivity.
Defined.

End MeetByChanceTheorems.
