(* ===== verification/GoLib.v ===== *)
(** * Strings, times and identifiers of the platform

    What the platform packages use of Go's standard library beside the integers
    of [Prelude]: [strings.TrimSpace] on UTF-8 bytes, [time.Time] instants and
    [uuid.UUID] values.

    A [time.Time] is the number of nanoseconds since its zero value (January 1,
    year 1, UTC), so [IsZero] is comparison with 0 and the location, which the
    platform always sets to UTC, is dropped.  A [uuid.UUID] is its 128 bits as
    an integer, [uuid.Nil] is 0. *)

From Stdlib Require Import Ascii.
From S2P Require Import Prelude.

Module GoLib.

(** ** Identifiers *)
Definition UUID : Type := Z.
Definition Nil : UUID := 0.

(** ** Instants *)
Definition Time : Type := Z.
Definition IsZero (t : Time) : bool := t =? 0.
Definition Before (t u : Time) : bool := t <? u.
Definition After (t u : Time) : bool := u <? t.

(** [time.Microsecond] in nanoseconds. *)
Definition Microsecond : Z := 1000.

(** [t.Truncate(d)] rounds down to a multiple of [d] since the zero time. *)
Definition Truncate (t d : Z) : Time := t - t mod d.

(** Nanoseconds from the zero time to the Unix epoch. *)
Definition unixEpoch : Z := 62135596800 * 1000000000.

(** [UnixNano] wraps around outside the range of an [int64]. *)
Definition UnixNano (t : Time) : Z :=
  (t - unixEpoch + 9223372036854775808) mod 18446744073709551616 - 9223372036854775808.

(** ** [strings.TrimSpace] *)

(** The UTF-8 encodings of the code points [unicode.IsSpace] accepts: the ASCII
    ones, U+0085, U+00A0, U+1680, U+2000 to U+200A, U+2028, U+2029, U+202F,
    U+205F and U+3000. *)
Definition spaceRunes : list (list Z) :=
  [[9]; [10]; [11]; [12]; [13]; [32]; [194; 133]; [194; 160]; [225; 154; 128]]
  ++ ((fun last => [226; 128; last]) <$> [128; 129; 130; 131; 132; 133; 134; 135; 136; 137; 138;
                                          168; 169; 175])
  ++ [[226; 129; 159]; [227; 128; 128]].

Definition byteOf (c : ascii) : Z := Z.of_N (N_of_ascii c).
Definition bytesOf (s : string) : list Z := byteOf <$> String.list_ascii_of_string s.

Fixpoint dropPrefix {A : Type} (key : A -> Z) (prefix : list Z) (l : list A) : option (list A) :=
  match prefix, l with
  | [], _ => Some l
  | b :: prefix', c :: l' => if key c =? b then dropPrefix key prefix' l' else None
  | _, [] => None
  end.

(** One rune of the list at the head of the bytes. *)
Fixpoint dropRune (runes : list (list Z)) (l : list ascii) : option (list ascii) :=
  match runes with
  | [] => None
  | rune :: rest =>
      match dropPrefix byteOf rune l with
      | Some l' => Some l'
      | None => dropRune rest l
      end
  end.

Fixpoint trimRunes (runes : list (list Z)) (fuel : nat) (l : list ascii) : list ascii :=
  match fuel with
  | O => l
  | S fuel' =>
      match dropRune runes l with
      | Some l' => trimRunes runes fuel' l'
      | None => l
      end
  end.

(** Every rune has at least one byte, so the number of bytes is enough fuel. *)
Definition trimLeft (l : list ascii) : list ascii := trimRunes spaceRunes (length l) l.
Definition trimRight (l : list ascii) : list ascii :=
  reverse (trimRunes (reverse <$> spaceRunes) (length l) (reverse l)).

Definition TrimSpace (s : string) : string :=
  String.string_of_list_ascii (trimRight (trimLeft (String.list_ascii_of_string s))).

(** ** Properties *)
Lemma Truncate_idem t d : 0 < d -> Truncate (Truncate t d) d = Truncate t d.
Proof.
  intros Hd. unfold Truncate. rewrite Zminus_mod_idemp_r, Z.sub_diag, Z.mod_0_l by lia. lia.
Qed.

Lemma Truncate_mono t u d : 0 < d -> t <= u -> Truncate t d <= Truncate u d.
Proof.
  intros Hd Htu. unfold Truncate.
  assert (forall z, z - z mod d = d * (z / d)) as Hq by (intros z; pose proof (Z.div_mod z d); lia).
  rewrite !Hq. apply Z.mul_le_mono_nonneg_l; [lia|]. by apply Z.div_le_mono.
Qed.

Lemma dropPrefix_app {A} (key : A -> Z) p l m l' :
  dropPrefix key p l = Some l' -> dropPrefix key p (l ++ m) = Some (l' ++ m).
Proof.
  revert l. induction p as [|b p IH]; intros l H; cbn in *; [by simplify_eq|].
  destruct l as [|c l]; [done|]. cbn. destruct (key c =? b); [|done]. by apply IH.
Qed.

Lemma dropPrefix_length {A} (key : A -> Z) p l l' :
  dropPrefix key p l = Some l' -> exists x, l = x ++ l' /\ length x = length p.
Proof.
  revert l. induction p as [|b p IH]; intros l H; cbn in *.
  - simplify_eq. by exists [].
  - destruct l as [|c l]; [done|]. destruct (key c =? b); [|done].
    destruct (IH _ H) as (x & -> & Hl). exists (c :: x). cbn. by rewrite Hl.
Qed.

Section Trim.
Context (runes : list (list Z)) (Hrunes : Forall (fun rune => rune <> []) runes).

Lemma dropRune_split l l' :
  dropRune runes l = Some l' -> exists x, l = x ++ l' /\ x <> [].
Proof.
  revert Hrunes. induction runes as [|rune rest IH]; intros Hr; cbn; [done|].
  apply Forall_cons in Hr as [Hr Hrest].
  destruct (dropPrefix byteOf rune l) as [l1|] eqn:E; [|by apply IH]. intros [= ->].
  apply dropPrefix_length in E as (x & -> & Hx). exists x. split; [done|]. intros ->.
  destruct rune; [done|]. cbn in Hx. lia.
Qed.

(** A prefix of bytes without a leading rune has none either. *)
Lemma dropRune_prefix l m : dropRune runes (l ++ m) = None -> dropRune runes l = None.
Proof.
  clear Hrunes. induction runes as [|rune rest IH]; cbn; [done|].
  destruct (dropPrefix byteOf rune l) as [l1|] eqn:E.
  - by rewrite (dropPrefix_app _ _ _ m _ E).
  - destruct (dropPrefix byteOf rune (l ++ m)); [done|]. exact IH.
Qed.

Lemma trimRunes_done fuel l :
  (length l <= fuel)%nat -> dropRune runes (trimRunes runes fuel l) = None.
Proof.
  revert l. induction fuel as [|fuel IH]; intros l Hl; cbn [trimRunes].
  - destruct l; [|cbn in Hl; lia]. destruct (dropRune runes []) as [l'|] eqn:E; [|done].
    apply dropRune_split in E as (x & Hx & Hne). by destruct x.
  - destruct (dropRune runes l) as [l'|] eqn:E; [|done]. apply IH.
    apply dropRune_split in E as (x & -> & Hne). rewrite length_app in Hl. destruct x; [done|]. cbn in Hl. lia.
Qed.

Lemma trimRunes_split fuel l : exists x, l = x ++ trimRunes runes fuel l.
Proof.
  revert l. induction fuel as [|fuel IH]; intros l; cbn [trimRunes]; [by exists []|].
  destruct (dropRune runes l) as [l'|] eqn:E; [|by exists []].
  apply dropRune_split in E as (x & -> & _). destruct (IH l') as [y Hy]. exists (x ++ y).
  by rewrite <- app_assoc, <- Hy.
Qed.

Lemma trimRunes_fixed fuel l : dropRune runes l = None -> trimRunes runes fuel l = l.
Proof. intros H. destruct fuel; cbn; [done|]. by rewrite H. Qed.
End Trim.

Lemma spaceRunes_nonempty : Forall (fun rune => rune <> []) spaceRunes.
Proof. cbn. repeat constructor; done. Qed.

Lemma spaceRunes_rev_nonempty : Forall (fun rune => rune <> []) (reverse <$> spaceRunes).
Proof. cbn. repeat constructor; done. Qed.

(** Trimming twice is trimming once. *)
Lemma TrimSpace_idem s : TrimSpace (TrimSpace s) = TrimSpace s.
Proof.
  unfold TrimSpace. rewrite String.list_ascii_of_string_of_list_ascii. f_equal.
  set (l := trimLeft (String.list_ascii_of_string s)). set (r := trimRight l).
  assert (Hl : dropRune spaceRunes l = None).
  { apply trimRunes_done; [apply spaceRunes_nonempty|done]. }
  assert (Hr : dropRune (reverse <$> spaceRunes) (reverse r) = None).
  { unfold r, trimRight. rewrite reverse_involutive.
    apply trimRunes_done; [apply spaceRunes_rev_nonempty|by rewrite length_reverse]. }
  assert (Hp : exists x, l = r ++ x).
  { destruct (trimRunes_split _ spaceRunes_rev_nonempty (length l) (reverse l)) as [x Hx].
    exists (reverse x). unfold r, trimRight. rewrite <- reverse_app, <- Hx. by rewrite reverse_involutive. }
  destruct Hp as [x Hx].
  assert (Hlr : trimLeft r = r).
  { unfold trimLeft. apply trimRunes_fixed. apply (dropRune_prefix _ _ x). by rewrite <- Hx. }
  rewrite Hlr. unfold trimRight. rewrite trimRunes_fixed by done. by rewrite reverse_involutive.
Qed.

Example TrimSpace_ascii : TrimSpace "  liars-dice	 " = "liars-dice"%string.
Proof. vm_compute. reflexivity. Qed.

(** Its equations are enough from here on; only evaluation unfolds it. *)
#[global] Opaque TrimSpace.

End GoLib.
