(* ===== verification/Room.v ===== *)
(** * The room aggregate

    Model of [platform/room] ([errors.go], [model.go], [admin.go]): the
    continuous room, its members, the pause governance and every command on it.

    A [Room] is a struct around one [RoomSnapshot] and is represented by it.
    Enumerations keep their strings, because a persisted snapshot may hold any.

    Commands take the room by value, but the copy shares the backing array of
    [Members].  [Restore] allocates a new array, so the room a command returns
    never shares one with the room it was called on; a command that writes the
    array in place does change its receiver.  Such a command therefore returns
    its outcome together with the receiver as it is afterwards; the others
    return their outcome only. *)

From S2P Require Import Prelude GoLib.

Module Room.
Import GoLib.

(** ** errors.go *)
Inductive RoomError :=
| ErrInvalidRoomInput | ErrRoomVersionConflict | ErrRoomStatus | ErrRoomClosed | ErrAdmissionClosed
| ErrRoomFull | ErrMemberNotFound | ErrHostRequired | ErrCannotRemoveHost | ErrSessionActive
| ErrSessionNotFound | ErrInsufficientParticipants | ErrParticipantLimitExceeded | ErrWaitingNotFound
| ErrRoomVersionOverflow | ErrRoomNotFound | ErrRoomCodeUnavailable | ErrUsernameConflict
| ErrRoomRepositoryUnavailable | ErrRoomIntegrity | ErrGameUnavailable | ErrGameSelectionConflict
| ErrPauseParticipantRequired | ErrPauseRequestExists | ErrPauseRequestNotFound | ErrGameAlreadyPaused
| ErrGameNotPaused | ErrHostTransferTargetInvalid
(** [rules.go] *)
| ErrPendingStartInvalid.

#[global] Instance RoomError_eq_dec : EqDecision RoomError.
Proof. solve_decision. Defined.

Abbreviation res := (result RoomError).

(** ** model.go: data *)
Definition VisibilityPrivate : string := "private".
Definition VisibilityPublic : string := "public".

Definition AdmissionOpen : string := "open".
Definition AdmissionApproval : string := "approval".
Definition AdmissionClosed : string := "closed".

Definition RoomStatusLobby : string := "lobby".
Definition RoomStatusPlaying : string := "playing".
Definition RoomStatusPostGame : string := "post_game".
Definition RoomStatusClosed : string := "closed".

Definition MemberRoleParticipant : string := "participant".
Definition MemberRoleSpectator : string := "spectator".
Definition MemberRoleWaiting : string := "waiting".

Definition JoinIntentParticipant : string := MemberRoleParticipant.
Definition JoinIntentSpectator : string := MemberRoleSpectator.

Definition PauseSourceHost : string := "host".
Definition PauseSourceApprovedRequest : string := "approved_request".

Definition DefaultSelectedGameID : string := "liars-dice".

Record Version := mkVersion {
  v_Room : Z;
  v_Membership : Z;
}.

#[global] Instance Version_eq_dec : EqDecision Version.
Proof. solve_decision. Defined.

Record MemberSnapshot := mkMember {
  m_UserID : UUID;
  m_Role : string;
  m_RequestedRole : string;
  m_SeatIndex : Z;
  m_JoinedAt : Time;
  m_LastSeenAt : Time;
}.

#[global] Instance MemberSnapshot_eq_dec : EqDecision MemberSnapshot.
Proof. solve_decision. Defined.
#[global] Instance MemberSnapshot_inhabited : Inhabited MemberSnapshot :=
  populate (mkMember 0 "" "" 0 0 0).
#[global] Instance MemberSnapshot_eta : Eta MemberSnapshot := fun r =>
  mkMember (m_UserID r) (m_Role r) (m_RequestedRole r) (m_SeatIndex r) (m_JoinedAt r) (m_LastSeenAt r).

Record FrozenParticipant := mkFrozen {
  f_UserID : UUID;
  f_SeatIndex : Z;
}.

Record PendingPauseRequest := mkPending {
  q_ID : UUID;
  q_SessionID : UUID;
  q_RequestedByUserID : UUID;
  q_RequestedAt : Time;
}.

Record ActivePause := mkPause {
  a_ID : UUID;
  a_SessionID : UUID;
  a_Source : string;
  a_RequestedByUserID : UUID;
  a_PausedByUserID : UUID;
  a_PausedAt : Time;
}.

Definition noRequest : PendingPauseRequest := mkPending Nil Nil Nil 0.
Definition noPause : ActivePause := mkPause Nil Nil "" Nil Nil 0.

Record RoomSnapshot := mkRoom {
  ID : UUID;
  RoomCode : string;
  visibility : string;
  Status : string;
  HostUserID : UUID;
  ParticipantCapacity : Z;
  ParticipantAdmission : string;
  SpectatorAdmission : string;
  Members : list MemberSnapshot;
  ActiveSessionID : UUID;
  ActiveGameID : string;
  LastFinishedSessionID : UUID;
  LastFinishedGameID : string;
  PendingPause : PendingPauseRequest;
  CurrentPause : ActivePause;
  SelectedGameID : string;
  RoomVersion : Z;
  MembershipVersion : Z;
  OwnershipEpoch : Z;
  CreatedAt : Time;
  UpdatedAt : Time;
}.

#[global] Instance RoomSnapshot_eta : Eta RoomSnapshot := fun r =>
  mkRoom (ID r) (RoomCode r) (visibility r) (Status r) (HostUserID r) (ParticipantCapacity r)
    (ParticipantAdmission r) (SpectatorAdmission r) (Members r) (ActiveSessionID r) (ActiveGameID r)
    (LastFinishedSessionID r) (LastFinishedGameID r) (PendingPause r) (CurrentPause r)
    (SelectedGameID r) (RoomVersion r) (MembershipVersion r) (OwnershipEpoch r) (CreatedAt r)
    (UpdatedAt r).

Definition Room : Type := RoomSnapshot.

Record JoinResult := mkJoinResult {
  j_Member : MemberSnapshot;
  j_Created : bool;
  j_Changed : bool;
}.

Record ApprovalResult := mkApprovalResult {
  p_Member : MemberSnapshot;
  p_Version : Version;
}.

Record SessionStart := mkSessionStart {
  s_SessionID : UUID;
  s_GameID : string;
  s_Participants : list FrozenParticipant;
  s_Version : Version;
  s_StartedAt : Time;
}.

Record RemovalResult := mkRemovalResult {
  r_Removed : MemberSnapshot;
  r_ParticipantRevoked : bool;
  r_SessionID : UUID;
  r_SourceEventID : UUID;
  r_Version : Version;
}.

(** ** model.go: validity of values *)
Definition Visibility_Valid (v : string) : bool :=
  String.eqb v VisibilityPrivate || String.eqb v VisibilityPublic.

Definition AdmissionMode_Valid (mode : string) : bool :=
  String.eqb mode AdmissionOpen || String.eqb mode AdmissionApproval || String.eqb mode AdmissionClosed.

Definition RoomStatus_Valid (status : string) : bool :=
  String.eqb status RoomStatusLobby || String.eqb status RoomStatusPlaying
  || String.eqb status RoomStatusPostGame || String.eqb status RoomStatusClosed.

Definition admissionMutable (status : string) : bool :=
  String.eqb status RoomStatusLobby || String.eqb status RoomStatusPostGame.

Definition MemberRole_Valid (role : string) : bool :=
  String.eqb role MemberRoleParticipant || String.eqb role MemberRoleSpectator
  || String.eqb role MemberRoleWaiting.

Definition JoinIntent_Valid (intent : string) : bool :=
  String.eqb intent JoinIntentParticipant || String.eqb intent JoinIntentSpectator.

Definition PauseSource_Valid (source : string) : bool :=
  String.eqb source PauseSourceHost || String.eqb source PauseSourceApprovedRequest.

(** The loop over the characters of [validateRoomCode]; a byte outside ASCII
    belongs to a character outside both ranges. *)
Definition codeByte (b : Z) : bool := (65 <=? b) && (b <=? 90) || (48 <=? b) && (b <=? 57).

Definition validateRoomCode (value : string) : res unit :=
  if (String.length value <? 4)%nat || (16 <? String.length value)%nat
     || negb (String.eqb (TrimSpace value) value)
  then Err ErrInvalidRoomInput
  else if negb (forallb codeByte (bytesOf value)) then Err ErrInvalidRoomInput
  else Ok tt.

Definition canonicalRoomTime (value : Time) : Time :=
  if IsZero value then 0 else Truncate value Microsecond.

Definition pendingPauseRequestZero (value : PendingPauseRequest) : bool :=
  (q_ID value =? Nil) && (q_SessionID value =? Nil) && (q_RequestedByUserID value =? Nil)
  && IsZero (q_RequestedAt value).

Definition activePauseZero (value : ActivePause) : bool :=
  (a_ID value =? Nil) && (a_SessionID value =? Nil) && String.eqb (a_Source value) ""
  && (a_RequestedByUserID value =? Nil) && (a_PausedByUserID value =? Nil) && IsZero (a_PausedAt value).

Definition memberFromSnapshot (members : list MemberSnapshot) (userID : UUID) : option MemberSnapshot :=
  List.find (fun member => m_UserID member =? userID) members.

Definition validatePauseGovernance (snapshot : RoomSnapshot) : res unit :=
  let pending := PendingPause snapshot in
  let active := CurrentPause snapshot in
  let pendingSet := negb (pendingPauseRequestZero pending) in
  let activeSet := negb (activePauseZero active) in
  if pendingSet && activeSet then Err ErrInvalidRoomInput
  else if (pendingSet || activeSet) && negb (String.eqb (Status snapshot) RoomStatusPlaying)
  then Err ErrInvalidRoomInput
  else if pendingSet
          && ((q_ID pending =? Nil) || negb (q_SessionID pending =? ActiveSessionID snapshot)
              || (q_RequestedByUserID pending =? Nil) || IsZero (q_RequestedAt pending)
              || Before (q_RequestedAt pending) (CreatedAt snapshot)
              || After (q_RequestedAt pending) (UpdatedAt snapshot)
              || match memberFromSnapshot (Members snapshot) (q_RequestedByUserID pending) with
                 | None => true
                 | Some member => negb (String.eqb (m_Role member) MemberRoleParticipant)
                 end
              || (q_RequestedByUserID pending =? HostUserID snapshot))
  then Err ErrInvalidRoomInput
  else if activeSet
          && ((a_ID active =? Nil) || negb (a_SessionID active =? ActiveSessionID snapshot)
              || negb (PauseSource_Valid (a_Source active)) || (a_PausedByUserID active =? Nil)
              || IsZero (a_PausedAt active) || Before (a_PausedAt active) (CreatedAt snapshot)
              || After (a_PausedAt active) (UpdatedAt snapshot))
  then Err ErrInvalidRoomInput
  else if activeSet && String.eqb (a_Source active) PauseSourceHost
          && negb (a_RequestedByUserID active =? Nil)
  then Err ErrInvalidRoomInput
  else if activeSet && String.eqb (a_Source active) PauseSourceApprovedRequest
          && (a_RequestedByUserID active =? Nil)
  then Err ErrInvalidRoomInput
  else Ok tt.

(** ** model.go: [Restore] *)

(** The normalising assignments at its head. *)
Definition normalizeSnapshot (snapshot : RoomSnapshot) : RoomSnapshot :=
  let selected := TrimSpace (SelectedGameID snapshot) in
  snapshot
    <| RoomCode := TrimSpace (RoomCode snapshot) |>
    <| SelectedGameID := if String.eqb selected "" then DefaultSelectedGameID else selected |>
    <| CreatedAt := canonicalRoomTime (CreatedAt snapshot) |>
    <| UpdatedAt := canonicalRoomTime (UpdatedAt snapshot) |>
    <| PendingPause :=
         mkPending (q_ID (PendingPause snapshot)) (q_SessionID (PendingPause snapshot))
           (q_RequestedByUserID (PendingPause snapshot))
           (canonicalRoomTime (q_RequestedAt (PendingPause snapshot))) |>
    <| CurrentPause :=
         mkPause (a_ID (CurrentPause snapshot)) (a_SessionID (CurrentPause snapshot))
           (a_Source (CurrentPause snapshot)) (a_RequestedByUserID (CurrentPause snapshot))
           (a_PausedByUserID (CurrentPause snapshot))
           (canonicalRoomTime (a_PausedAt (CurrentPause snapshot))) |>
    <| OwnershipEpoch := if OwnershipEpoch snapshot =? 0 then 1 else OwnershipEpoch snapshot |>.

(** The checks before the member loop. *)
Definition headerInvalid (snapshot : RoomSnapshot) : bool :=
  (ID snapshot =? Nil) || (HostUserID snapshot =? Nil) || String.eqb (SelectedGameID snapshot) ""
  || negb (is_ok (validateRoomCode (RoomCode snapshot)))
  || negb (Visibility_Valid (visibility snapshot)) || negb (RoomStatus_Valid (Status snapshot))
  || (ParticipantCapacity snapshot =? 0)
  || negb (AdmissionMode_Valid (ParticipantAdmission snapshot))
  || negb (AdmissionMode_Valid (SpectatorAdmission snapshot)) || (RoomVersion snapshot =? 0)
  || (MembershipVersion snapshot =? 0) || IsZero (CreatedAt snapshot)
  || Before (UpdatedAt snapshot) (CreatedAt snapshot).

Definition lifecycleInvalid (snapshot : RoomSnapshot) : bool :=
  let lastFinishedSet := negb (LastFinishedSessionID snapshot =? Nil)
                         || negb (String.eqb (LastFinishedGameID snapshot) "") in
  negb (Bool.eqb (LastFinishedSessionID snapshot =? Nil) (String.eqb (LastFinishedGameID snapshot) ""))
  || (if String.eqb (Status snapshot) RoomStatusPlaying then
        (ActiveSessionID snapshot =? Nil) || String.eqb (ActiveGameID snapshot) ""
        || negb (String.eqb (ParticipantAdmission snapshot) AdmissionClosed)
      else negb (ActiveSessionID snapshot =? Nil) || negb (String.eqb (ActiveGameID snapshot) ""))
  || (String.eqb (Status snapshot) RoomStatusLobby || String.eqb (Status snapshot) RoomStatusPlaying)
     && lastFinishedSet
  || String.eqb (Status snapshot) RoomStatusPostGame && negb lastFinishedSet
  || String.eqb (Status snapshot) RoomStatusClosed
     && (negb (String.eqb (ParticipantAdmission snapshot) AdmissionClosed)
         || negb (String.eqb (SpectatorAdmission snapshot) AdmissionClosed))
  || (length (Members snapshot) =? 0)%nat
  || (ParticipantCapacity snapshot + 1000000 <? Z.of_nat (length (Members snapshot))).

Definition canonicalMember (member : MemberSnapshot) : MemberSnapshot :=
  member <| m_JoinedAt := canonicalRoomTime (m_JoinedAt member) |>
         <| m_LastSeenAt := canonicalRoomTime (m_LastSeenAt member) |>.

(** The first check of the member loop. *)
Definition memberInvalid (snapshot : RoomSnapshot) (member : MemberSnapshot) : bool :=
  (m_UserID member =? Nil) || negb (MemberRole_Valid (m_Role member)) || IsZero (m_JoinedAt member)
  || Before (m_LastSeenAt member) (m_JoinedAt member)
  || Before (m_JoinedAt member) (CreatedAt snapshot)
  || After (m_LastSeenAt member) (UpdatedAt snapshot).

(** The switch on the role, without the seat map. *)
Definition roleInvalid (member : MemberSnapshot) : bool :=
  if String.eqb (m_Role member) MemberRoleParticipant then negb (String.eqb (m_RequestedRole member) "")
  else if String.eqb (m_Role member) MemberRoleSpectator then
    negb (String.eqb (m_RequestedRole member) "") || negb (m_SeatIndex member =? 0)
  else if String.eqb (m_Role member) MemberRoleWaiting then
    negb (String.eqb (m_RequestedRole member) MemberRoleParticipant)
    && negb (String.eqb (m_RequestedRole member) MemberRoleSpectator)
    || negb (m_SeatIndex member =? 0)
  else false.

(** The member loop: [seen] and [seenSeats] are its maps; it returns the copied
    members with [participantCount] and [hostFound]. *)
Fixpoint restoreMembers (snapshot : RoomSnapshot) (seen : list UUID) (seenSeats : list Z)
    (participantCount : nat) (hostFound : bool) (members : list MemberSnapshot)
  : res (list MemberSnapshot * nat * bool) :=
  match members with
  | [] => Ok ([], participantCount, hostFound)
  | source :: rest =>
      let member := canonicalMember source in
      let participant := String.eqb (m_Role member) MemberRoleParticipant in
      if memberInvalid snapshot member then Err ErrInvalidRoomInput
      else if bool_decide (m_UserID member ∈ seen) then Err ErrInvalidRoomInput
      else if roleInvalid member then Err ErrInvalidRoomInput
      else if participant && bool_decide (m_SeatIndex member ∈ seenSeats) then Err ErrInvalidRoomInput
      else if (m_UserID member =? HostUserID snapshot) && negb participant then Err ErrInvalidRoomInput
      else
        let* '(copied, count, found) :=
          restoreMembers snapshot (m_UserID member :: seen)
            (if participant then m_SeatIndex member :: seenSeats else seenSeats)
            (if participant then S participantCount else participantCount)
            (hostFound || (m_UserID member =? HostUserID snapshot)) rest in
        Ok (member :: copied, count, found)
  end.

Definition Restore (source : RoomSnapshot) : res Room :=
  let snapshot := normalizeSnapshot source in
  if headerInvalid snapshot then Err ErrInvalidRoomInput
  else if lifecycleInvalid snapshot then Err ErrInvalidRoomInput
  else
    let* '(members, participantCount, hostFound) :=
      restoreMembers snapshot [] [] 0 false (Members snapshot) in
    if negb hostFound || (participantCount =? 0)%nat
       || (ParticipantCapacity snapshot <? Z.of_nat participantCount)
    then Err ErrInvalidRoomInput
    else
      let snapshot := snapshot <| Members := members |> in
      let* _ := validatePauseGovernance snapshot in
      Ok snapshot.

(** ** model.go: construction and reads *)
Definition NewWithAdmission (id hostUserID : UUID) (roomCode visibility : string)
    (participantCapacity : Z) (participantAdmission spectatorAdmission : string) (createdAt : Time)
  : res Room :=
  let createdAt := canonicalRoomTime createdAt in
  if (id =? Nil) || (hostUserID =? Nil) || IsZero createdAt then Err ErrInvalidRoomInput
  else
    let* _ := validateRoomCode roomCode in
    if negb (Visibility_Valid visibility) || (participantCapacity =? 0)
       || negb (AdmissionMode_Valid participantAdmission)
       || negb (AdmissionMode_Valid spectatorAdmission)
    then Err ErrInvalidRoomInput
    else
      Restore (mkRoom id roomCode visibility RoomStatusLobby hostUserID participantCapacity
                 participantAdmission spectatorAdmission
                 [mkMember hostUserID MemberRoleParticipant "" 0 createdAt createdAt]
                 Nil "" Nil "" noRequest noPause DefaultSelectedGameID 1 1 0 createdAt createdAt).

Definition New (id hostUserID : UUID) (roomCode visibility : string) (participantCapacity : Z)
    (createdAt : Time) : res Room :=
  NewWithAdmission id hostUserID roomCode visibility participantCapacity AdmissionOpen AdmissionOpen
    createdAt.

(** The defensive copy. *)
Definition Snapshot (room : Room) : RoomSnapshot := room <| Members := [] ++ Members room |>.

Definition versionOf (room : Room) : Version := mkVersion (RoomVersion room) (MembershipVersion room).

Definition Member (room : Room) (userID : UUID) : option MemberSnapshot :=
  List.find (fun member => m_UserID member =? userID) (Members room).

Definition checkHost (room : Room) (userID : UUID) : res unit :=
  if negb (userID =? HostUserID room) then Err ErrHostRequired else Ok tt.

Definition checkVersion (room : Room) (expected : Version) : res unit :=
  if negb (bool_decide (expected = versionOf room)) then Err ErrRoomVersionConflict else Ok tt.

Definition isParticipant (member : MemberSnapshot) : bool :=
  String.eqb (m_Role member) MemberRoleParticipant.

(** The seat loop of [nextSeat], over the seats from [seat] on.  With more seats
    than used ones a free one is met before the fuel of one more than the used
    seats is spent. *)
Fixpoint firstFreeSeat (used : list Z) (capacity seat : Z) (fuel : nat) : option Z :=
  match fuel with
  | O => None
  | S fuel' =>
      if seat <? capacity then
        if bool_decide (seat ∈ used) then firstFreeSeat used capacity (seat + 1) fuel' else Some seat
      else None
  end.

Definition nextSeat (room : Room) : option Z :=
  let used := m_SeatIndex <$> List.filter isParticipant (Members room) in
  firstFreeSeat used (ParticipantCapacity room) 0 (S (length used)).

Definition bumpVersions (snapshot : RoomSnapshot) (membershipChanged : bool) (at_ : Time)
  : res RoomSnapshot :=
  if (RoomVersion snapshot =? maxUint64)
     || membershipChanged && (MembershipVersion snapshot =? maxUint64)
  then Err ErrRoomVersionOverflow
  else Ok (snapshot <| RoomVersion := u64 (RoomVersion snapshot + 1) |>
                    <| MembershipVersion := if membershipChanged
                                            then u64 (MembershipVersion snapshot + 1)
                                            else MembershipVersion snapshot |>
                    <| UpdatedAt := at_ |>).

(** The common tail of the commands: [bumpVersions] and [Restore]. *)
Definition commit (next : RoomSnapshot) (membershipChanged : bool) (at_ : Time) : res Room :=
  let* next := bumpVersions next membershipChanged at_ in
  Restore next.

(** ** model.go: commands *)

(** [mode] of [Join]. *)
Definition admissionFor (room : Room) (intent : string) : string :=
  if String.eqb intent JoinIntentSpectator then SpectatorAdmission room else ParticipantAdmission room.

(** The member [Join] builds for a new user. *)
Definition admitMember (room : Room) (userID : UUID) (intent : string) (at_ : Time) : res MemberSnapshot :=
  let mode := admissionFor room intent in
  if String.eqb (Status room) RoomStatusPlaying && String.eqb intent JoinIntentParticipant
  then Ok (mkMember userID MemberRoleWaiting MemberRoleParticipant 0 at_ at_)
  else if String.eqb mode AdmissionOpen then
    if String.eqb intent JoinIntentParticipant then
      match nextSeat room with
      | None => Err ErrRoomFull
      | Some seat => Ok (mkMember userID MemberRoleParticipant "" seat at_ at_)
      end
    else Ok (mkMember userID MemberRoleSpectator "" 0 at_ at_)
  else if String.eqb mode AdmissionApproval then Ok (mkMember userID MemberRoleWaiting intent 0 at_ at_)
  else if String.eqb mode AdmissionClosed then Err ErrAdmissionClosed
  else Err ErrInvalidRoomInput.

(** The in-place write of [Join] for a spectator who queues for the next game. *)
Definition queueMember (member : MemberSnapshot) : MemberSnapshot :=
  member <| m_Role := MemberRoleWaiting |> <| m_RequestedRole := MemberRoleParticipant |>
         <| m_SeatIndex := 0 |>.

Definition memberIndex (members : list MemberSnapshot) (userID : UUID) : option nat :=
  find_index (fun member => m_UserID member =? userID) members.

Definition Join (room : Room) (userID : UUID) (intent : string) (expected : Version) (at_ : Time)
  : res (Room * JoinResult) * Room :=
  let at_ := canonicalRoomTime at_ in
  if (userID =? Nil) || negb (JoinIntent_Valid intent) || IsZero at_
  then (Err ErrInvalidRoomInput, room)
  else match checkVersion room expected with
  | Err e => (Err e, room)
  | Ok _ =>
      match memberIndex (Members room) userID with
      | Some index =>
          let existing := Members room !!! index in
          if String.eqb (Status room) RoomStatusPlaying && String.eqb intent JoinIntentParticipant
             && String.eqb (m_Role existing) MemberRoleSpectator
          then
            let existing := queueMember existing in
            let next := room <| Members := <[index := existing]> (Members room) |> in
            ((let* updated := commit next true at_ in
              Ok (updated, mkJoinResult existing false true)), next)
          else (Ok (room, mkJoinResult existing false false), room)
      | None =>
          if String.eqb (Status room) RoomStatusClosed then (Err ErrRoomClosed, room)
          else
            ((let* member := admitMember room userID intent at_ in
              let next := room <| Members := ([] ++ Members room) ++ [member] |> in
              let* updated := commit next true at_ in
              Ok (updated, mkJoinResult member true true)), room)
      end
  end.

Definition SetAdmission (room : Room) (hostUserID : UUID) (participant spectator : string)
    (expected : Version) (at_ : Time) : res Room :=
  let at_ := canonicalRoomTime at_ in
  if (hostUserID =? Nil) || negb (AdmissionMode_Valid participant)
     || negb (AdmissionMode_Valid spectator) || IsZero at_
  then Err ErrInvalidRoomInput
  else
    let* _ := checkHost room hostUserID in
    let* _ := checkVersion room expected in
    if negb (admissionMutable (Status room)) then Err ErrRoomStatus
    else commit (room <| ParticipantAdmission := participant |> <| SpectatorAdmission := spectator |>)
           false at_.

Definition SelectGame (room : Room) (hostUserID : UUID) (gameID : string) (expected : Version)
    (at_ : Time) : res Room :=
  let gameID := TrimSpace gameID in
  let at_ := canonicalRoomTime at_ in
  if (hostUserID =? Nil) || String.eqb gameID "" || IsZero at_ then Err ErrInvalidRoomInput
  else
    let* _ := checkHost room hostUserID in
    let* _ := checkVersion room expected in
    if negb (admissionMutable (Status room)) then Err ErrRoomStatus
    else if String.eqb (SelectedGameID room) gameID then Ok room
    else commit (room <| SelectedGameID := gameID |>) false at_.

(** The promotion of one waiting member. *)
Definition promote (room : Room) (member : MemberSnapshot) : res MemberSnapshot :=
  if String.eqb (m_RequestedRole member) MemberRoleParticipant then
    match nextSeat room with
    | None => Err ErrRoomFull
    | Some seat => Ok (member <| m_Role := MemberRoleParticipant |> <| m_RequestedRole := ""%string |>
                              <| m_SeatIndex := seat |>)
    end
  else Ok (member <| m_Role := MemberRoleSpectator |> <| m_RequestedRole := ""%string |>).

Definition ApproveWaiting (room : Room) (hostUserID userID : UUID) (expected : Version) (at_ : Time)
  : res (Room * ApprovalResult) * Room :=
  let at_ := canonicalRoomTime at_ in
  if (hostUserID =? Nil) || (userID =? Nil) || IsZero at_ then (Err ErrInvalidRoomInput, room)
  else match (let* _ := checkHost room hostUserID in checkVersion room expected) with
  | Err e => (Err e, room)
  | Ok _ =>
      if negb (admissionMutable (Status room)) then (Err ErrRoomStatus, room)
      else match find_index (fun member => (m_UserID member =? userID)
                                           && String.eqb (m_Role member) MemberRoleWaiting)
                            (Members room) with
      | None => (Err ErrWaitingNotFound, room)
      | Some index =>
          match promote room (Members room !!! index) with
          | Err e => (Err e, room)
          | Ok promoted =>
              let next := room <| Members := <[index := promoted]> (Members room) |> in
              ((let* updated := commit next true at_ in
                Ok (updated, mkApprovalResult promoted (versionOf updated))), next)
          end
      end
  end.

Definition freeze (member : MemberSnapshot) : FrozenParticipant :=
  mkFrozen (m_UserID member) (m_SeatIndex member).

Definition StartSession (room : Room) (hostUserID sessionID : UUID) (gameID : string)
    (minimumParticipants maximumParticipants : Z) (expected : Version) (at_ : Time)
  : res (Room * SessionStart) :=
  let at_ := canonicalRoomTime at_ in
  if (hostUserID =? Nil) || (sessionID =? Nil) || String.eqb (TrimSpace gameID) ""
     || (minimumParticipants =? 0) || (maximumParticipants <? minimumParticipants) || IsZero at_
  then Err ErrInvalidRoomInput
  else
    let* _ := checkHost room hostUserID in
    let* _ := checkVersion room expected in
    if String.eqb (Status room) RoomStatusClosed then Err ErrRoomClosed
    else if negb (String.eqb (Status room) RoomStatusLobby)
            && negb (String.eqb (Status room) RoomStatusPostGame)
    then Err ErrRoomStatus
    else if negb (ActiveSessionID room =? Nil) then Err ErrSessionActive
    else
      let participants := freeze <$> List.filter isParticipant (Members room) in
      if Z.of_nat (length participants) <? minimumParticipants then Err ErrInsufficientParticipants
      else if maximumParticipants <? Z.of_nat (length participants) then Err ErrParticipantLimitExceeded
      else
        let next := room <| Status := RoomStatusPlaying |> <| ActiveSessionID := sessionID |>
                         <| ActiveGameID := TrimSpace gameID |>
                         <| ParticipantAdmission := AdmissionClosed |>
                         <| LastFinishedSessionID := Nil |> <| LastFinishedGameID := ""%string |> in
        let* updated := commit next false at_ in
        Ok (updated, mkSessionStart sessionID (ActiveGameID next) participants (versionOf updated) at_).

Definition RequestPause (room : Room) (actorUserID requestID sessionID : UUID) (expected : Version)
    (at_ : Time) : res Room :=
  let at_ := canonicalRoomTime at_ in
  if (actorUserID =? Nil) || (requestID =? Nil) || (sessionID =? Nil) || IsZero at_
  then Err ErrInvalidRoomInput
  else
    let* _ := checkVersion room expected in
    if negb (String.eqb (Status room) RoomStatusPlaying) || negb (ActiveSessionID room =? sessionID)
    then Err ErrSessionNotFound
    else if negb (a_ID (CurrentPause room) =? Nil) then Err ErrGameAlreadyPaused
    else if negb (q_ID (PendingPause room) =? Nil) then Err ErrPauseRequestExists
    else if match Member room actorUserID with
            | None => true
            | Some member => negb (String.eqb (m_Role member) MemberRoleParticipant)
            end || (actorUserID =? HostUserID room)
    then Err ErrPauseParticipantRequired
    else commit (room <| PendingPause := mkPending requestID sessionID actorUserID at_ |>) false at_.

Definition RejectPause (room : Room) (hostUserID requestID : UUID) (expected : Version) (at_ : Time)
  : res Room :=
  let at_ := canonicalRoomTime at_ in
  if (hostUserID =? Nil) || (requestID =? Nil) || IsZero at_ then Err ErrInvalidRoomInput
  else
    let* _ := checkHost room hostUserID in
    let* _ := checkVersion room expected in
    if negb (q_ID (PendingPause room) =? requestID) then Err ErrPauseRequestNotFound
    else commit (room <| PendingPause := noRequest |>) false at_.

Definition Pause (room : Room) (hostUserID pauseID sessionID requestID : UUID) (expected : Version)
    (at_ : Time) : res Room :=
  let at_ := canonicalRoomTime at_ in
  if (hostUserID =? Nil) || (pauseID =? Nil) || (sessionID =? Nil) || IsZero at_
  then Err ErrInvalidRoomInput
  else
    let* _ := checkHost room hostUserID in
    let* _ := checkVersion room expected in
    if negb (String.eqb (Status room) RoomStatusPlaying) || negb (ActiveSessionID room =? sessionID)
    then Err ErrSessionNotFound
    else if negb (a_ID (CurrentPause room) =? Nil) then Err ErrGameAlreadyPaused
    else
      let* '(source, requestedBy) :=
        if negb (requestID =? Nil) then
          if negb (q_ID (PendingPause room) =? requestID)
             || negb (q_SessionID (PendingPause room) =? sessionID)
          then Err ErrPauseRequestNotFound
          else Ok (PauseSourceApprovedRequest, q_RequestedByUserID (PendingPause room))
        else Ok (PauseSourceHost, Nil) in
      commit (room <| PendingPause := noRequest |>
                   <| CurrentPause := mkPause pauseID sessionID source requestedBy hostUserID at_ |>)
        false at_.

Definition Resume (room : Room) (hostUserID sessionID : UUID) (expected : Version) (at_ : Time)
  : res Room :=
  let at_ := canonicalRoomTime at_ in
  if (hostUserID =? Nil) || (sessionID =? Nil) || IsZero at_ then Err ErrInvalidRoomInput
  else
    let* _ := checkHost room hostUserID in
    let* _ := checkVersion room expected in
    if negb (String.eqb (Status room) RoomStatusPlaying) || negb (ActiveSessionID room =? sessionID)
    then Err ErrSessionNotFound
    else if (a_ID (CurrentPause room) =? Nil) || negb (a_SessionID (CurrentPause room) =? sessionID)
    then Err ErrGameNotPaused
    else commit (room <| CurrentPause := noPause |>) false at_.

(** Clears the pending request when [userID] made it. *)
Definition dropRequestOf (room : RoomSnapshot) (userID : UUID) : RoomSnapshot :=
  if q_RequestedByUserID (PendingPause room) =? userID then room <| PendingPause := noRequest |> else room.

Definition TransferHost (room : Room) (hostUserID targetUserID : UUID) (expectedOwnershipEpoch : Z)
    (expected : Version) (at_ : Time) : res Room :=
  let at_ := canonicalRoomTime at_ in
  if (hostUserID =? Nil) || (targetUserID =? Nil) || (expectedOwnershipEpoch =? 0) || IsZero at_
  then Err ErrInvalidRoomInput
  else
    let* _ := checkHost room hostUserID in
    let* _ := checkVersion room expected in
    if negb (OwnershipEpoch room =? expectedOwnershipEpoch) then Err ErrRoomVersionConflict
    else if String.eqb (Status room) RoomStatusClosed then Err ErrRoomClosed
    else if match Member room targetUserID with
            | None => true
            | Some target => negb (String.eqb (m_Role target) MemberRoleParticipant)
            end || (targetUserID =? hostUserID)
    then Err ErrHostTransferTargetInvalid
    else if OwnershipEpoch room =? maxUint64 then Err ErrRoomVersionOverflow
    else
      let next := room <| HostUserID := targetUserID |>
                       <| OwnershipEpoch := u64 (OwnershipEpoch room + 1) |> in
      commit (dropRequestOf next targetUserID) false at_.

(** The state in which [FinishSession], [CancelSession] and
    [CancelSessionAndClose] leave a session. *)
Definition endSession (room : Room) (status : string) (lastSessionID : UUID) (lastGameID : string)
  : RoomSnapshot :=
  room <| Status := status |> <| ActiveSessionID := Nil |> <| ActiveGameID := ""%string |>
       <| ParticipantAdmission := AdmissionClosed |>
       <| LastFinishedSessionID := lastSessionID |> <| LastFinishedGameID := lastGameID |>
       <| PendingPause := noRequest |> <| CurrentPause := noPause |>.

Definition FinishSession (room : Room) (sessionID : UUID) (expected : Version) (at_ : Time) : res Room :=
  let at_ := canonicalRoomTime at_ in
  if (sessionID =? Nil) || IsZero at_ then Err ErrInvalidRoomInput
  else
    let* _ := checkVersion room expected in
    if negb (String.eqb (Status room) RoomStatusPlaying) then Err ErrRoomStatus
    else if negb (ActiveSessionID room =? sessionID) then Err ErrSessionNotFound
    else commit (endSession room RoomStatusPostGame sessionID (ActiveGameID room)) false at_.

Definition CancelSession (room : Room) (sessionID : UUID) (expected : Version) (at_ : Time) : res Room :=
  let at_ := canonicalRoomTime at_ in
  if (sessionID =? Nil) || IsZero at_ then Err ErrInvalidRoomInput
  else
    let* _ := checkVersion room expected in
    if negb (String.eqb (Status room) RoomStatusPlaying) then Err ErrRoomStatus
    else if negb (ActiveSessionID room =? sessionID) then Err ErrSessionNotFound
    else commit (endSession room RoomStatusLobby Nil "") false at_.

Definition CancelSessionAndClose (room : Room) (hostUserID sessionID : UUID) (expected : Version)
    (at_ : Time) : res Room :=
  let at_ := canonicalRoomTime at_ in
  if (hostUserID =? Nil) || (sessionID =? Nil) || IsZero at_ then Err ErrInvalidRoomInput
  else
    let* _ := checkHost room hostUserID in
    let* _ := checkVersion room expected in
    if negb (String.eqb (Status room) RoomStatusPlaying) then Err ErrRoomStatus
    else if negb (ActiveSessionID room =? sessionID) then Err ErrSessionNotFound
    else commit ((endSession room RoomStatusClosed Nil "") <| SpectatorAdmission := AdmissionClosed |>)
           false at_.

(** The array behind [append(s[:index], s[index+1:]...)] afterwards: the tail is
    moved one place to the left in place and the last element stays. *)
Definition shiftLeft (index : nat) (members : list MemberSnapshot) : list MemberSnapshot :=
  take index members ++ drop (S index) members ++ drop (length members - 1) members.

(** The slice that expression returns. *)
Definition deleteAt (index : nat) (members : list MemberSnapshot) : list MemberSnapshot :=
  take index members ++ drop (S index) members.

(** The removal [RemoveMember] and [RemoveMemberByAdmin] share. *)
Definition removeMember (room : Room) (userID : UUID) (at_ : Time) : res (Room * RemovalResult) * Room :=
  if userID =? HostUserID room then (Err ErrCannotRemoveHost, room)
  else match memberIndex (Members room) userID with
  | None => (Err ErrMemberNotFound, room)
  | Some removedIndex =>
      let removed := Members room !!! removedIndex in
      let next := room <| Members := deleteAt removedIndex (Members room) |> in
      ((let* updated := commit (dropRequestOf next userID) true at_ in
        Ok (updated,
            mkRemovalResult removed
              (String.eqb (Status room) RoomStatusPlaying
               && String.eqb (m_Role removed) MemberRoleParticipant)
              (ActiveSessionID room) Nil (versionOf updated))),
       room <| Members := shiftLeft removedIndex (Members room) |>)
  end.

Definition RemoveMember (room : Room) (hostUserID userID : UUID) (expected : Version) (at_ : Time)
  : res (Room * RemovalResult) * Room :=
  let at_ := canonicalRoomTime at_ in
  if (hostUserID =? Nil) || (userID =? Nil) || IsZero at_ then (Err ErrInvalidRoomInput, room)
  else match (let* _ := checkHost room hostUserID in checkVersion room expected) with
  | Err e => (Err e, room)
  | Ok _ => removeMember room userID at_
  end.

(** The closing of a room without a session. *)
Definition closeIdle (room : Room) (at_ : Time) : res Room :=
  if String.eqb (Status room) RoomStatusPlaying then Err ErrSessionActive
  else if String.eqb (Status room) RoomStatusClosed then Ok room
  else commit (room <| Status := RoomStatusClosed |> <| ParticipantAdmission := AdmissionClosed |>
                    <| SpectatorAdmission := AdmissionClosed |>
                    <| PendingPause := noRequest |> <| CurrentPause := noPause |>) false at_.

Definition Close (room : Room) (hostUserID : UUID) (expected : Version) (at_ : Time) : res Room :=
  let at_ := canonicalRoomTime at_ in
  if (hostUserID =? Nil) || IsZero at_ then Err ErrInvalidRoomInput
  else
    let* _ := checkHost room hostUserID in
    let* _ := checkVersion room expected in
    closeIdle room at_.

(** ** admin.go *)
Definition SetAdmissionByAdmin (room : Room) (actorID : UUID) (participant spectator : string)
    (expected : Version) (at_ : Time) : res Room :=
  let at_ := canonicalRoomTime at_ in
  if (actorID =? Nil) || negb (AdmissionMode_Valid participant)
     || negb (AdmissionMode_Valid spectator) || IsZero at_
  then Err ErrInvalidRoomInput
  else
    let* _ := checkVersion room expected in
    if negb (admissionMutable (Status room)) then Err ErrRoomStatus
    else commit (room <| ParticipantAdmission := participant |> <| SpectatorAdmission := spectator |>)
           false at_.

Definition RemoveMemberByAdmin (room : Room) (actorID userID : UUID) (expected : Version) (at_ : Time)
  : res (Room * RemovalResult) * Room :=
  let at_ := canonicalRoomTime at_ in
  if (actorID =? Nil) || (userID =? Nil) || IsZero at_ then (Err ErrInvalidRoomInput, room)
  else match checkVersion room expected with
  | Err e => (Err e, room)
  | Ok _ => removeMember room userID at_
  end.

Definition CloseWaitingByAdmin (room : Room) (actorID : UUID) (expected : Version) (at_ : Time)
  : res Room :=
  let at_ := canonicalRoomTime at_ in
  if (actorID =? Nil) || IsZero at_ then Err ErrInvalidRoomInput
  else
    let* _ := checkVersion room expected in
    closeIdle room at_.

(** ** Commands as data *)
Inductive Command :=
| CmdJoin (userID : UUID) (intent : string)
| CmdSetAdmission (hostUserID : UUID) (participant spectator : string)
| CmdSelectGame (hostUserID : UUID) (gameID : string)
| CmdApproveWaiting (hostUserID userID : UUID)
| CmdStartSession (hostUserID sessionID : UUID) (gameID : string) (minimum maximum : Z)
| CmdRequestPause (actorUserID requestID sessionID : UUID)
| CmdRejectPause (hostUserID requestID : UUID)
| CmdPause (hostUserID pauseID sessionID requestID : UUID)
| CmdResume (hostUserID sessionID : UUID)
| CmdTransferHost (hostUserID targetUserID : UUID) (expectedOwnershipEpoch : Z)
| CmdFinishSession (sessionID : UUID)
| CmdCancelSession (sessionID : UUID)
| CmdCancelSessionAndClose (hostUserID sessionID : UUID)
| CmdRemoveMember (hostUserID userID : UUID)
| CmdClose (hostUserID : UUID)
| CmdSetAdmissionByAdmin (actorID : UUID) (participant spectator : string)
| CmdRemoveMemberByAdmin (actorID userID : UUID)
| CmdCloseWaitingByAdmin (actorID : UUID).

Definition roomOf {A : Type} (outcome : res (Room * A)) : res Room :=
  let* '(room, _) := outcome in Ok room.

(** The room a command returns. *)
Definition exec (room : Room) (command : Command) (expected : Version) (at_ : Time) : res Room :=
  match command with
  | CmdJoin userID intent => roomOf (fst (Join room userID intent expected at_))
  | CmdSetAdmission hostUserID participant spectator =>
      SetAdmission room hostUserID participant spectator expected at_
  | CmdSelectGame hostUserID gameID => SelectGame room hostUserID gameID expected at_
  | CmdApproveWaiting hostUserID userID =>
      roomOf (fst (ApproveWaiting room hostUserID userID expected at_))
  | CmdStartSession hostUserID sessionID gameID minimum maximum =>
      roomOf (StartSession room hostUserID sessionID gameID minimum maximum expected at_)
  | CmdRequestPause actorUserID requestID sessionID =>
      RequestPause room actorUserID requestID sessionID expected at_
  | CmdRejectPause hostUserID requestID => RejectPause room hostUserID requestID expected at_
  | CmdPause hostUserID pauseID sessionID requestID =>
      Pause room hostUserID pauseID sessionID requestID expected at_
  | CmdResume hostUserID sessionID => Resume room hostUserID sessionID expected at_
  | CmdTransferHost hostUserID targetUserID epoch =>
      TransferHost room hostUserID targetUserID epoch expected at_
  | CmdFinishSession sessionID => FinishSession room sessionID expected at_
  | CmdCancelSession sessionID => CancelSession room sessionID expected at_
  | CmdCancelSessionAndClose hostUserID sessionID =>
      CancelSessionAndClose room hostUserID sessionID expected at_
  | CmdRemoveMember hostUserID userID => roomOf (fst (RemoveMember room hostUserID userID expected at_))
  | CmdClose hostUserID => Close room hostUserID expected at_
  | CmdSetAdmissionByAdmin actorID participant spectator =>
      SetAdmissionByAdmin room actorID participant spectator expected at_
  | CmdRemoveMemberByAdmin actorID userID =>
      roomOf (fst (RemoveMemberByAdmin room actorID userID expected at_))
  | CmdCloseWaitingByAdmin actorID => CloseWaitingByAdmin room actorID expected at_
  end.

End Room.
