(* ===== verification/RoomFacts.v ===== *)
(** * The room aggregate: properties

    [Restore] as a proposition ([WF]), the invariant [Sound] of the rooms the
    commands build, and for every command that it keeps the invariant and that
    [Restore] never refuses what it builds. *)

From S2P Require Import Prelude GoLib Room.

Module RoomFacts.
Import GoLib Room.

(** ** Canonical times *)
Lemma canonicalRoomTime_idem t : canonicalRoomTime (canonicalRoomTime t) = canonicalRoomTime t.
Proof.
  unfold canonicalRoomTime, IsZero. destruct (t =? 0) eqn:E; [done|].
  destruct (Truncate t Microsecond =? 0) eqn:E2; to_prop; [done|]. by apply Truncate_idem.
Qed.

Lemma canonicalRoomTime_zero : canonicalRoomTime 0 = 0.
Proof. done. Qed.

Lemma canonicalMember_idem m : canonicalMember (canonicalMember m) = canonicalMember m.
Proof. destruct m. unfold canonicalMember, update. cbn [m_UserID m_Role m_RequestedRole m_SeatIndex m_JoinedAt m_LastSeenAt]. by rewrite !canonicalRoomTime_idem. Qed.

Lemma canonicalMember_fields m :
  m_UserID (canonicalMember m) = m_UserID m /\ m_Role (canonicalMember m) = m_Role m /\
  m_RequestedRole (canonicalMember m) = m_RequestedRole m /\ m_SeatIndex (canonicalMember m) = m_SeatIndex m.
Proof. done. Qed.

Definition selectedOr (selected : string) : string :=
  if String.eqb (TrimSpace selected) "" then DefaultSelectedGameID else TrimSpace selected.

Lemma selectedOr_idem s : selectedOr (selectedOr s) = selectedOr s.
Proof.
  unfold selectedOr. destruct (String.eqb (TrimSpace s) "") eqn:E; [by vm_compute|].
  by rewrite TrimSpace_idem, E.
Qed.

Lemma normalizeSnapshot_eq s :
  normalizeSnapshot s =
  mkRoom (ID s) (TrimSpace (RoomCode s)) (visibility s) (Status s) (HostUserID s) (ParticipantCapacity s)
    (ParticipantAdmission s) (SpectatorAdmission s) (Members s) (ActiveSessionID s) (ActiveGameID s)
    (LastFinishedSessionID s) (LastFinishedGameID s)
    (mkPending (q_ID (PendingPause s)) (q_SessionID (PendingPause s)) (q_RequestedByUserID (PendingPause s))
       (canonicalRoomTime (q_RequestedAt (PendingPause s))))
    (mkPause (a_ID (CurrentPause s)) (a_SessionID (CurrentPause s)) (a_Source (CurrentPause s))
       (a_RequestedByUserID (CurrentPause s)) (a_PausedByUserID (CurrentPause s))
       (canonicalRoomTime (a_PausedAt (CurrentPause s))))
    (selectedOr (SelectedGameID s)) (RoomVersion s) (MembershipVersion s)
    (if OwnershipEpoch s =? 0 then 1 else OwnershipEpoch s) (canonicalRoomTime (CreatedAt s))
    (canonicalRoomTime (UpdatedAt s)).
Proof. reflexivity. Qed.

(** The fields of a snapshot in constructor form. *)
Ltac fields :=
  cbn [ID RoomCode visibility Status HostUserID ParticipantCapacity ParticipantAdmission
       SpectatorAdmission Members ActiveSessionID ActiveGameID LastFinishedSessionID LastFinishedGameID
       PendingPause CurrentPause SelectedGameID RoomVersion MembershipVersion OwnershipEpoch CreatedAt
       UpdatedAt q_ID q_SessionID q_RequestedByUserID q_RequestedAt a_ID a_SessionID a_Source
       a_RequestedByUserID a_PausedByUserID a_PausedAt].

Lemma normalizeSnapshot_idem s : normalizeSnapshot (normalizeSnapshot s) = normalizeSnapshot s.
Proof.
  rewrite (normalizeSnapshot_eq (normalizeSnapshot s)), (normalizeSnapshot_eq s). fields.
  rewrite !canonicalRoomTime_idem, TrimSpace_idem, selectedOr_idem. f_equal.
  destruct (OwnershipEpoch s =? 0) eqn:E; [done|]. by rewrite E.
Qed.

(** ** [Restore] as a proposition *)

(** The checks on one copied member that do not involve the others. *)
Definition memberOK (s : RoomSnapshot) (m : MemberSnapshot) : bool :=
  negb (memberInvalid s m) && negb (roleInvalid m)
  && negb ((m_UserID m =? HostUserID s) && negb (isParticipant m)).

Definition users (ms : list MemberSnapshot) : list UUID := m_UserID <$> ms.
Definition participants (ms : list MemberSnapshot) : list MemberSnapshot := List.filter isParticipant ms.
Definition seats (ms : list MemberSnapshot) : list Z := m_SeatIndex <$> participants ms.

(** The room [Restore] builds when it accepts. *)
Definition canonicalRoom (s : RoomSnapshot) : Room :=
  let s := normalizeSnapshot s in s <| Members := canonicalMember <$> Members s |>.

Record WF (s : RoomSnapshot) : Prop := {
  wf_canonical : canonicalRoom s = s;
  wf_header : headerInvalid s = false;
  wf_lifecycle : lifecycleInvalid s = false;
  wf_members : Forall (fun m => memberOK s m = true) (Members s);
  wf_users : NoDup (users (Members s));
  wf_seats : NoDup (seats (Members s));
  wf_host : HostUserID s ∈ users (Members s);
  wf_capacity : Z.of_nat (length (participants (Members s))) <= ParticipantCapacity s;
  wf_pause : validatePauseGovernance s = Ok tt;
}.

Lemma participants_cons m ms :
  participants (m :: ms) = if isParticipant m then m :: participants ms else participants ms.
Proof. done. Qed.

(** The member loop accepts exactly the lists whose copies pass the member
    checks and repeat neither users nor seats. *)
Definition Admissible (s : RoomSnapshot) (seen : list UUID) (taken : list Z) (ms : list MemberSnapshot) : Prop :=
  Forall (fun m => memberOK s m = true) ms /\
  NoDup (users ms) /\ Forall (fun u => u ∉ seen) (users ms) /\
  NoDup (seats ms) /\ Forall (fun z => z ∉ taken) (seats ms).

Lemma Admissible_cons s seen taken m ms :
  Admissible s seen taken (m :: ms) <->
  memberOK s m = true /\ (m_UserID m ∉ seen) /\ (isParticipant m = true -> m_SeatIndex m ∉ taken) /\
  Admissible s (m_UserID m :: seen) (if isParticipant m then m_SeatIndex m :: taken else taken) ms.
Proof.
  unfold Admissible, users, seats. rewrite participants_cons, fmap_cons, !NoDup_cons, !Forall_cons.
  split.
  - intros ((Hm & Hms) & (Hu & Hun) & (Hs & Hsn) & Hz & Hzn). split_and!; try done.
    + intros Hp. rewrite Hp in Hzn. by apply Forall_cons in Hzn as [? _].
    + rewrite Forall_forall in Hsn |- *. intros u Hin. rewrite not_elem_of_cons. split; [|by apply Hsn].
      by intros ->.
    + destruct (isParticipant m); [|done]. by apply NoDup_cons in Hz as [_ ?].
    + destruct (isParticipant m); [|done]. apply NoDup_cons in Hz as [Hz _]. apply Forall_cons in Hzn as [_ Hzn].
      rewrite Forall_forall in Hzn |- *. intros z Hin. rewrite not_elem_of_cons. split; [|by apply Hzn].
      by intros ->.
  - intros (Hm & Hu & Hs & Hms & Hun & Hsn & Hz & Hzn).
    assert (Hseen : forall u, u ∈ m_UserID <$> ms -> u <> m_UserID m /\ u ∉ seen).
    { intros u Hin. rewrite Forall_forall in Hsn. specialize (Hsn u Hin). by rewrite not_elem_of_cons in Hsn. }
    split_and!; try done.
    + intros Hin. by destruct (Hseen _ Hin).
    + rewrite Forall_forall. intros u Hin. by apply Hseen.
    + destruct (isParticipant m); [|done]. apply NoDup_cons. split; [|done]. intros Hin.
      rewrite Forall_forall in Hzn. specialize (Hzn _ Hin). rewrite not_elem_of_cons in Hzn. by destruct Hzn.
    + destruct (isParticipant m); [|done]. apply Forall_cons. split; [by apply Hs|].
      rewrite Forall_forall in Hzn |- *. intros z Hin. specialize (Hzn z Hin).
      rewrite not_elem_of_cons in Hzn. by destruct Hzn.
Qed.

Lemma restoreMembers_iff s seen taken n h ms out :
  restoreMembers s seen taken n h ms = Ok out <->
  let ms' := canonicalMember <$> ms in
  out = (ms', (n + length (participants ms'))%nat, h || existsb (fun m => m_UserID m =? HostUserID s) ms') /\
  Admissible s seen taken ms'.
Proof.
  revert seen taken n h out. induction ms as [|m ms IH]; intros seen taken n h out; cbv zeta.
  - cbn. rewrite Nat.add_0_r, orb_false_r. split.
    + intros [= <-]. split; [done|]. unfold Admissible, users, seats. cbn. repeat constructor.
    + by intros [-> _].
  - rewrite fmap_cons, Admissible_cons. cbn [restoreMembers existsb]. rewrite participants_cons.
    set (c := canonicalMember m). fold (isParticipant c). unfold memberOK at 1. split.
    + intros H. do 5 inv_result H. inv_result H. destruct value as [[copied count] found]. injection H as <-.
      apply IH in E4 as [Hout Hadm]. cbv zeta in Hout. apply pair_equal_spec in Hout as [[-> ->]%pair_equal_spec ->].
      to_prop. split_and!; try done.
      * f_equal; [|by rewrite orb_assoc]. f_equal. destruct (isParticipant c); cbn [length]; lia.
      * intros Hp. rewrite Hp in E2. cbn in E2. by apply bool_decide_eq_false in E2.
    + intros (-> & Hm & Hu & Hs & Hadm). to_prop. rewrite H, H1, H0.
      rewrite bool_decide_eq_false_2 by done.
      assert (isParticipant c && bool_decide (m_SeatIndex c ∈ taken) = false) as ->.
      { destruct (isParticipant c) eqn:Ep; [|done]. by rewrite bool_decide_eq_false_2 by auto. }
      erewrite (proj2 (IH _ _ _ _ _)); [|split; [reflexivity|exact Hadm]]. cbn [bind_result].
      rewrite orb_assoc. do 3 f_equal. destruct (isParticipant c); cbn [length]; lia.
Qed.

Lemma existsb_hostMember s : existsb (fun m => m_UserID m =? HostUserID s) (Members s) = true <->
  HostUserID s ∈ users (Members s).
Proof.
  unfold users. rewrite existsb_exists, list_elem_of_fmap. split.
  - intros (m & Hm & E). to_prop. exists m. by rewrite list_elem_of_In.
  - intros (m & E & Hm). exists m. rewrite list_elem_of_In in Hm. by rewrite E, Z.eqb_refl.
Qed.

Lemma normalize_Members s l :
  normalizeSnapshot (s <| Members := l |>) = (normalizeSnapshot s) <| Members := l |>.
Proof. by rewrite !normalizeSnapshot_eq. Qed.

Lemma canonicalMembers_idem (ms : list MemberSnapshot) : canonicalMember <$> (canonicalMember <$> ms) = canonicalMember <$> ms.
Proof. rewrite <- list_fmap_compose. apply list_fmap_ext. intros i m _. apply canonicalMember_idem. Qed.

Lemma canonicalRoom_idem s : canonicalRoom (canonicalRoom s) = canonicalRoom s.
Proof.
  unfold canonicalRoom. cbv zeta. rewrite normalize_Members, normalizeSnapshot_idem.
  set (n := normalizeSnapshot s).
  change (Members (n <| Members := canonicalMember <$> Members n |>)) with (canonicalMember <$> Members n).
  change (Members (n <| Members := canonicalMember <$> Members n |>)) with (canonicalMember <$> Members n).
  rewrite canonicalMembers_idem. clearbody n. by destruct n.
Qed.

(** The host is a participant, so there is one. *)
Lemma host_participant s :
  Forall (fun m => memberOK s m = true) (Members s) -> HostUserID s ∈ users (Members s) ->
  exists m, m ∈ participants (Members s) /\ m_UserID m = HostUserID s.
Proof.
  unfold users. rewrite list_elem_of_fmap. intros Hok (m & Hm & Hin). exists m. split; [|done].
  unfold participants. rewrite list_elem_of_In, filter_In, <- list_elem_of_In. split; [done|].
  rewrite Forall_forall in Hok. specialize (Hok m Hin). unfold memberOK in Hok. to_prop.
  rewrite <- Hm, Z.eqb_refl in H0. cbn in H0. by to_prop.
Qed.

Lemma header_Members s l : headerInvalid (s <| Members := l |>) = headerInvalid s.
Proof. reflexivity. Qed.

Lemma lifecycle_Members s l :
  length l = length (Members s) -> lifecycleInvalid (s <| Members := l |>) = lifecycleInvalid s.
Proof.
  intros H. unfold lifecycleInvalid. change (Members (s <| Members := l |>)) with l. rewrite H. reflexivity.
Qed.

(** [Restore] after the normalisation. *)
Definition checkSnapshot (n : RoomSnapshot) : res Room :=
  if headerInvalid n then Err ErrInvalidRoomInput
  else if lifecycleInvalid n then Err ErrInvalidRoomInput
  else
    let* '(members, participantCount, hostFound) := restoreMembers n [] [] 0 false (Members n) in
    if negb hostFound || (participantCount =? 0)%nat || (ParticipantCapacity n <? Z.of_nat participantCount)
    then Err ErrInvalidRoomInput
    else let* _ := validatePauseGovernance (n <| Members := members |>) in Ok (n <| Members := members |>).

Definition withCanonical (n : RoomSnapshot) : RoomSnapshot := n <| Members := canonicalMember <$> Members n |>.

Lemma Restore_checked s : Restore s = checkSnapshot (normalizeSnapshot s).
Proof. unfold Restore, checkSnapshot. cbv zeta. reflexivity. Qed.

Lemma canonicalRoom_checked s : canonicalRoom s = withCanonical (normalizeSnapshot s).
Proof. unfold canonicalRoom, withCanonical. cbv zeta. reflexivity. Qed.

Lemma checkSnapshot_inv n r :
  checkSnapshot n = Ok r -> canonicalRoom (withCanonical n) = withCanonical n ->
  r = withCanonical n /\ WF (withCanonical n).
Proof.
  unfold checkSnapshot. intros H Hcan. do 2 inv_result H. inv_result H. destruct value as [[ms count] found].
  do 2 inv_result H. destruct value. injection H as <-.
  apply restoreMembers_iff in E1 as [Hout (Hok & Hu & _ & Hs & _)].
  cbv zeta in Hout. apply pair_equal_spec in Hout as [[-> ->]%pair_equal_spec ->]. cbn [orb Nat.add] in E2.
  to_prop. split; [reflexivity|]. split; try assumption.
  - unfold withCanonical. by rewrite lifecycle_Members by apply length_fmap.
  - by apply existsb_hostMember.
Qed.

Lemma checkSnapshot_WF n : WF (withCanonical n) -> checkSnapshot n = Ok (withCanonical n).
Proof.
  intros Hwf. unfold checkSnapshot. pose proof (wf_header _ Hwf) as Hh. pose proof (wf_lifecycle _ Hwf) as Hl.
  unfold withCanonical in Hh, Hl. rewrite header_Members in Hh. rewrite lifecycle_Members in Hl by apply length_fmap.
  rewrite Hh, Hl.
  erewrite (proj2 (restoreMembers_iff _ _ _ _ _ _ _)).
  2: { split; [reflexivity|]. split_and!; [apply (wf_members _ Hwf)|apply (wf_users _ Hwf)| |apply (wf_seats _ Hwf)|].
       all: apply Forall_forall; intros x _; apply not_elem_of_nil. }
  cbn [bind_result orb Nat.add].
  pose proof (proj2 (existsb_hostMember _) (wf_host _ Hwf)) as He.
  destruct (host_participant _ (wf_members _ Hwf) (wf_host _ Hwf)) as (m & Hm & _).
  pose proof (wf_capacity _ Hwf) as Hcap. pose proof (wf_pause _ Hwf) as Hp.
  unfold withCanonical in *. revert He Hm Hcap Hp.
  change (Members (n <| Members := canonicalMember <$> Members n |>)) with (canonicalMember <$> Members n).
  change (HostUserID (n <| Members := canonicalMember <$> Members n |>)) with (HostUserID n).
  change (ParticipantCapacity (n <| Members := canonicalMember <$> Members n |>)) with (ParticipantCapacity n).
  intros -> Hm Hcap ->. cbn [negb orb bind_result].
  replace (length (participants (canonicalMember <$> Members n)) =? 0)%nat with false.
  2: { symmetry. apply Nat.eqb_neq. destruct (participants (canonicalMember <$> Members n)); [by apply not_elem_of_nil in Hm|done]. }
  by replace (ParticipantCapacity n <? _) with false by lia.
Qed.

(** [Restore] accepts exactly the snapshots whose canonical form is well formed,
    and returns that form. *)
Lemma Restore_iff s r : Restore s = Ok r <-> r = canonicalRoom s /\ WF (canonicalRoom s).
Proof.
  rewrite Restore_checked, canonicalRoom_checked. split.
  - intros H. apply checkSnapshot_inv; [done|]. rewrite <- canonicalRoom_checked. apply canonicalRoom_idem.
  - intros [-> H]. by apply checkSnapshot_WF.
Qed.

Lemma Restore_WF s r : Restore s = Ok r -> WF r.
Proof. intros [-> H]%Restore_iff. done. Qed.

Lemma WF_Restore s : WF s -> Restore s = Ok s.
Proof. intros H. apply Restore_iff. by rewrite (wf_canonical _ H). Qed.

(** ** The lifecycle and the pause governance as propositions *)
Record LifeOK (s : RoomSnapshot) : Prop := {
  lf_last : LastFinishedSessionID s = Nil <-> LastFinishedGameID s = ""%string;
  lf_playing : Status s = RoomStatusPlaying ->
    ActiveSessionID s <> Nil /\ ActiveGameID s <> ""%string /\ ParticipantAdmission s = AdmissionClosed;
  lf_idle : Status s <> RoomStatusPlaying -> ActiveSessionID s = Nil /\ ActiveGameID s = ""%string;
  lf_fresh : Status s = RoomStatusLobby \/ Status s = RoomStatusPlaying -> LastFinishedSessionID s = Nil;
  lf_post : Status s = RoomStatusPostGame -> LastFinishedSessionID s <> Nil;
  lf_closed : Status s = RoomStatusClosed ->
    ParticipantAdmission s = AdmissionClosed /\ SpectatorAdmission s = AdmissionClosed;
  lf_some : Members s <> [];
  lf_bound : Z.of_nat (length (Members s)) <= ParticipantCapacity s + 1000000;
}.

Lemma lifecycle_iff s : lifecycleInvalid s = false <-> LifeOK s.
Proof.
  unfold lifecycleInvalid. cbv zeta. split.
  - intros H. to_prop. apply Bool.eqb_prop in H.
    assert (Hlast : LastFinishedSessionID s = Nil <-> LastFinishedGameID s = ""%string).
    { rewrite <- Z.eqb_eq, <- eqb_string_true. by rewrite H. }
    assert (Hset : negb (LastFinishedSessionID s =? Nil) || negb (String.eqb (LastFinishedGameID s) "")
                   = negb (LastFinishedSessionID s =? Nil)).
    { rewrite H. by destruct (String.eqb _ _). }
    rewrite Hset in *. split; try done.
    + intros Hst. rewrite (proj2 (eqb_string_true _ _) Hst) in H5. to_prop. done.
    + intros Hst. rewrite (proj2 (eqb_string_false _ _) Hst) in H5. to_prop. done.
    + intros Hst. assert (String.eqb (Status s) RoomStatusLobby || String.eqb (Status s) RoomStatusPlaying = true) as Ht.
      { rewrite orb_true_iff, !eqb_string_true. done. }
      rewrite Ht in H4. cbn in H4. by to_prop.
    + intros Hst. rewrite (proj2 (eqb_string_true _ _) Hst) in H3. cbn in H3. by to_prop.
    + intros Hst. rewrite (proj2 (eqb_string_true _ _) Hst) in H2. cbn in H2. to_prop. done.
    + intros Hnil. rewrite Hnil in H1. done.
  - intros [Hlast Hplay Hidle Hfresh Hpost Hclosed Hsome Hbound].
    assert (Hset : (LastFinishedSessionID s =? Nil) = String.eqb (LastFinishedGameID s) "").
    { apply eq_bool_prop_intro. rewrite !Is_true_true, Z.eqb_eq, eqb_string_true. done. }
    rewrite Hset, Bool.eqb_reflx, orb_diag. cbn [negb orb].
    assert (Hn : (length (Members s) =? 0)%nat = false) by (apply Nat.eqb_neq; by destruct (Members s)).
    rewrite Hn. replace (ParticipantCapacity s + 1000000 <? _) with false by lia. rewrite !orb_false_r.
    rewrite <- Hset. repeat (apply orb_false_intro).
    + destruct (String.eqb (Status s) RoomStatusPlaying) eqn:E; to_prop.
      * destruct (Hplay E) as (H1 & H2 & ->). apply Z.eqb_neq in H1. apply eqb_string_false in H2. by rewrite H1, H2.
      * destruct (Hidle E) as (-> & ->). done.
    + destruct (_ || _) eqn:E; [|done]. apply orb_true_iff in E. rewrite !eqb_string_true in E.
      by rewrite (Hfresh E).
    + destruct (String.eqb (Status s) RoomStatusPostGame) eqn:E; [|done]. to_prop. cbn.
      apply negb_false_iff, negb_true_iff, Z.eqb_neq. auto.
    + destruct (String.eqb (Status s) RoomStatusClosed) eqn:E; [|done]. to_prop.
      by destruct (Hclosed E) as [-> ->].
Qed.

(** A request is absent or belongs to the session in play and to a participant
    who is not the host. *)
Definition RequestOK (s : RoomSnapshot) (q : PendingPauseRequest) : Prop :=
  Status s = RoomStatusPlaying /\ q_ID q <> Nil /\ q_SessionID q = ActiveSessionID s /\
  q_RequestedByUserID q <> Nil /\ q_RequestedAt q <> 0 /\
  CreatedAt s <= q_RequestedAt q <= UpdatedAt s /\
  (exists m, memberFromSnapshot (Members s) (q_RequestedByUserID q) = Some m /\ isParticipant m = true) /\
  q_RequestedByUserID q <> HostUserID s.

Definition PausedOK (s : RoomSnapshot) (a : ActivePause) : Prop :=
  Status s = RoomStatusPlaying /\ a_ID a <> Nil /\ a_SessionID a = ActiveSessionID s /\
  PauseSource_Valid (a_Source a) = true /\ a_PausedByUserID a <> Nil /\ a_PausedAt a <> 0 /\
  CreatedAt s <= a_PausedAt a <= UpdatedAt s /\
  (a_Source a = PauseSourceHost <-> a_RequestedByUserID a = Nil).

Definition GovernanceOK (s : RoomSnapshot) : Prop :=
  (PendingPause s = noRequest /\ CurrentPause s = noPause) \/
  (RequestOK s (PendingPause s) /\ CurrentPause s = noPause) \/
  (PendingPause s = noRequest /\ PausedOK s (CurrentPause s)).

Lemma pendingZero_iff q : pendingPauseRequestZero q = true <-> q = noRequest.
Proof.
  destruct q as [i se r t]. unfold pendingPauseRequestZero, noRequest, IsZero, Nil. cbn. split.
  - intros H. to_prop. by subst.
  - intros [= -> -> -> ->]. done.
Qed.

Lemma pauseZero_iff a : activePauseZero a = true <-> a = noPause.
Proof.
  destruct a as [i se so r p t]. unfold activePauseZero, noPause, IsZero, Nil. cbn. split.
  - intros H. to_prop. by subst.
  - intros [= -> -> -> -> -> ->]. done.
Qed.

Lemma PauseSource_cases source : PauseSource_Valid source = true ->
  source = PauseSourceHost \/ source = PauseSourceApprovedRequest.
Proof. unfold PauseSource_Valid. rewrite orb_true_iff, !eqb_string_true. done. Qed.

Lemma request_check_iff s q :
  (q_ID q =? Nil) || negb (q_SessionID q =? ActiveSessionID s)
  || (q_RequestedByUserID q =? Nil) || IsZero (q_RequestedAt q)
  || Before (q_RequestedAt q) (CreatedAt s) || After (q_RequestedAt q) (UpdatedAt s)
  || match memberFromSnapshot (Members s) (q_RequestedByUserID q) with
     | None => true
     | Some member => negb (String.eqb (m_Role member) MemberRoleParticipant)
     end
  || (q_RequestedByUserID q =? HostUserID s) = false /\ Status s = RoomStatusPlaying <-> RequestOK s q.
Proof.
  unfold RequestOK, IsZero, Before, After. split.
  - intros [H Hst]. to_prop. split_and!; try done.
    destruct (memberFromSnapshot _ _) as [m|]; [|done]. to_prop. exists m. split; [done|].
    unfold isParticipant. by apply eqb_string_true.
  - intros (Hst & H1 & H2 & H3 & H4 & H5 & (m & -> & Hm) & H6). split; [|done]. unfold isParticipant in Hm. rewrite Hm.
    repeat (apply orb_false_intro); try done; try by apply Z.eqb_neq.
    + by rewrite H2, Z.eqb_refl.
    + apply Z.ltb_ge. lia.
    + apply Z.ltb_ge. lia.
Qed.

Lemma pause_check_iff s a :
  ((a_ID a =? Nil) || negb (a_SessionID a =? ActiveSessionID s)
   || negb (PauseSource_Valid (a_Source a)) || (a_PausedByUserID a =? Nil)
   || IsZero (a_PausedAt a) || Before (a_PausedAt a) (CreatedAt s)
   || After (a_PausedAt a) (UpdatedAt s) = false /\
   String.eqb (a_Source a) PauseSourceHost && negb (a_RequestedByUserID a =? Nil) = false /\
   String.eqb (a_Source a) PauseSourceApprovedRequest && (a_RequestedByUserID a =? Nil) = false /\
   Status s = RoomStatusPlaying) <-> PausedOK s a.
Proof.
  unfold PausedOK, IsZero, Before, After. split.
  - intros (H & Hh & Ha & Hst). to_prop. split_and!; try done.
    match goal with Hs : PauseSource_Valid _ = true |- _ => apply PauseSource_cases in Hs as [Hs|Hs]; rewrite Hs in * end;
      cbn in Hh, Ha; to_prop; [by split|]. split; [done|congruence].
  - intros (Hst & H1 & H2 & H3 & H4 & H5 & H6 & H7). split_and!; [| | |done].
    + rewrite H3. repeat (apply orb_false_intro); try done; try by apply Z.eqb_neq.
      * by rewrite H2, Z.eqb_refl.
      * apply Z.ltb_ge. lia.
      * apply Z.ltb_ge. lia.
    + destruct (String.eqb _ _) eqn:E; [|done]. to_prop. apply H7 in E. by rewrite E.
    + destruct (String.eqb _ _) eqn:E; [|done]. to_prop. cbn. apply Z.eqb_neq. intros Hn. apply H7 in Hn. by rewrite Hn in E.
Qed.

Lemma governance_iff s : validatePauseGovernance s = Ok tt <-> GovernanceOK s.
Proof.
  unfold validatePauseGovernance, GovernanceOK. cbv zeta.
  destruct (pendingPauseRequestZero (PendingPause s)) eqn:Eq, (activePauseZero (CurrentPause s)) eqn:Ea; cbn [negb andb orb].
  - apply pendingZero_iff in Eq. apply pauseZero_iff in Ea. split; [by left|done].
  - apply pendingZero_iff in Eq. assert (CurrentPause s <> noPause) as Hn by (rewrite <- pauseZero_iff; congruence).
    split.
    + intros H. repeat inv_result H. right; right. split; [done|]. apply pause_check_iff.
      match goal with Hst : negb _ = false |- _ => apply negb_false_iff, eqb_string_true in Hst end. done.
    + intros [[_ ?]|[[_ ?]|[_ Hp]]]; [done|done|]. apply pause_check_iff in Hp as (-> & -> & -> & ->). done.
  - apply pauseZero_iff in Ea. assert (PendingPause s <> noRequest) as Hn by (rewrite <- pendingZero_iff; congruence).
    split.
    + intros H. repeat inv_result H. right; left. split; [|done]. apply request_check_iff.
      match goal with Hst : negb _ = false |- _ => apply negb_false_iff, eqb_string_true in Hst end. done.
    + intros [[? _]|[[Hp _]|[? _]]]; [done| |done]. apply request_check_iff in Hp as (-> & ->). done.
  - split; [done|]. intros [[Hn _]|[[_ Hn]|[Hn _]]].
    + apply pendingZero_iff in Hn. congruence.
    + apply pauseZero_iff in Hn. congruence.
    + apply pendingZero_iff in Hn. congruence.
Qed.

(** ** Building well-formed rooms *)
Definition canonicalTime (t : Time) : Prop := canonicalRoomTime t = t.

Record Canon (s : RoomSnapshot) : Prop := {
  cn_code : TrimSpace (RoomCode s) = RoomCode s;
  cn_selected : TrimSpace (SelectedGameID s) = SelectedGameID s;
  cn_created : canonicalTime (CreatedAt s);
  cn_updated : canonicalTime (UpdatedAt s);
  cn_requested : canonicalTime (q_RequestedAt (PendingPause s));
  cn_paused : canonicalTime (a_PausedAt (CurrentPause s));
  cn_epoch : OwnershipEpoch s <> 0;
  cn_joined : Forall (fun m => canonicalTime (m_JoinedAt m)) (Members s);
  cn_seen : Forall (fun m => canonicalTime (m_LastSeenAt m)) (Members s);
}.

Record HeaderOK (s : RoomSnapshot) : Prop := {
  hd_id : ID s <> Nil;
  hd_host : HostUserID s <> Nil;
  hd_selected : SelectedGameID s <> ""%string;
  hd_code : is_ok (validateRoomCode (RoomCode s)) = true;
  hd_visibility : Visibility_Valid (visibility s) = true;
  hd_status : RoomStatus_Valid (Status s) = true;
  hd_capacity : ParticipantCapacity s <> 0;
  hd_participants : AdmissionMode_Valid (ParticipantAdmission s) = true;
  hd_spectators : AdmissionMode_Valid (SpectatorAdmission s) = true;
  hd_version : RoomVersion s <> 0;
  hd_membership : MembershipVersion s <> 0;
  hd_created : CreatedAt s <> 0;
  hd_updated : CreatedAt s <= UpdatedAt s;
}.

Lemma header_iff s : headerInvalid s = false <-> HeaderOK s.
Proof.
  unfold headerInvalid, IsZero, Before. split.
  - intros H. to_prop. by split.
  - intros []. repeat (apply orb_false_intro); try (by apply Z.eqb_neq); try (by apply negb_false_iff).
    + by apply eqb_string_false.
    + by apply Z.ltb_ge.
Qed.

Lemma members_canonical ms :
  canonicalMember <$> ms = ms <->
  Forall (fun m => canonicalTime (m_JoinedAt m)) ms /\ Forall (fun m => canonicalTime (m_LastSeenAt m)) ms.
Proof.
  induction ms as [|[u r q z j l] ms IH]; [by split|]. rewrite fmap_cons, !Forall_cons. unfold canonicalTime in *.
  cbn [m_JoinedAt m_LastSeenAt]. split.
  - intros [= -> -> H]. apply IH in H as [? ?]. done.
  - intros [[Hj Hjs] [Hl Hls]]. f_equal; [|by apply IH]. unfold canonicalMember, update. cbn -[canonicalRoomTime].
    by rewrite Hj, Hl.
Qed.

Lemma canonical_iff s : SelectedGameID s <> ""%string -> canonicalRoom s = s <-> Canon s.
Proof.
  destruct s as [? code ? ? ? ? ? ? ms ? ? ? ? [? ? ? qt] [? ? ? ? ? pt] selected ? ? epoch ct ut].
  cbn [SelectedGameID]. intros Hsel.
  unfold canonicalRoom. rewrite normalizeSnapshot_eq. fields. unfold update. fields. unfold selectedOr. split.
  - intros H. injection H as Hcode Hms Hq Hp Hs He Hc Hu. apply members_canonical in Hms as [Hj Hl].
    split; try done; cbn.
    + destruct (String.eqb (TrimSpace selected) "") eqn:E; [|done]. subst selected. by vm_compute.
    + destruct (epoch =? 0) eqn:E; to_prop; [|done]. lia.
  - intros [Hcode Hs Hc Hu Hq Hp He Hj Hl]. cbn in *. unfold canonicalTime in *.
    rewrite Hcode, Hs, Hc, Hu, Hq, Hp. rewrite (proj2 (members_canonical ms)) by done.
    rewrite (proj2 (eqb_string_false _ _) Hsel), (proj2 (Z.eqb_neq _ _) He). done.
Qed.

Lemma WF_parts s :
  WF s <->
  Canon s /\ HeaderOK s /\ LifeOK s /\ Forall (fun m => memberOK s m = true) (Members s) /\
  NoDup (users (Members s)) /\ NoDup (seats (Members s)) /\ HostUserID s ∈ users (Members s) /\
  Z.of_nat (length (participants (Members s))) <= ParticipantCapacity s /\ GovernanceOK s.
Proof.
  split.
  - intros [Hc Hh Hl Hm Hu Hs Hho Hca Hp]. apply header_iff in Hh. apply canonical_iff in Hc; [|apply Hh].
    apply lifecycle_iff in Hl. apply governance_iff in Hp. done.
  - intros (Hc & Hh & Hl & Hm & Hu & Hs & Hho & Hca & Hp). pose proof (hd_selected _ Hh).
    apply header_iff in Hh. apply canonical_iff in Hc; [|done].
    apply lifecycle_iff in Hl. apply governance_iff in Hp. by split.
Qed.

(** A member that passes the checks, field by field. *)
Definition TimesOK (s : RoomSnapshot) (m : MemberSnapshot) : Prop :=
  m_JoinedAt m <> 0 /\ m_JoinedAt m <= m_LastSeenAt m /\ CreatedAt s <= m_JoinedAt m /\
  m_LastSeenAt m <= UpdatedAt s.

Lemma memberOK_iff s m :
  memberOK s m = true <->
  m_UserID m <> Nil /\ MemberRole_Valid (m_Role m) = true /\ TimesOK s m /\ roleInvalid m = false /\
  (m_UserID m = HostUserID s -> isParticipant m = true).
Proof.
  unfold memberOK, memberInvalid, TimesOK, IsZero, Before, After. split.
  - intros H. to_prop. split_and!; try done. intros Hh. rewrite (proj2 (Z.eqb_eq _ _) Hh) in H0. cbn in H0. by to_prop.
  - intros (H1 & H2 & (H3 & H4 & H5 & H6) & H7 & H8). rewrite H2, H7. cbn [negb orb andb].
    rewrite (proj2 (Z.eqb_neq _ _) H1), (proj2 (Z.eqb_neq _ _) H3).
    rewrite !(proj2 (Z.ltb_ge _ _)) by lia. cbn.
    destruct (m_UserID m =? HostUserID s) eqn:E; [|done]. to_prop. by rewrite (H8 E).
Qed.

(** ** Versions and time *)
Definition touched (s : RoomSnapshot) (changed : bool) (at_ : Time) : RoomSnapshot :=
  s <| RoomVersion := RoomVersion s + 1 |>
    <| MembershipVersion := if changed then MembershipVersion s + 1 else MembershipVersion s |>
    <| UpdatedAt := at_ |>.

Record Sound (r : Room) : Prop := {
  so_wf : WF r;
  so_seats : Forall (fun z => 0 <= z < ParticipantCapacity r) (seats (Members r));
  so_version : 1 <= RoomVersion r <= maxUint64;
  so_membership : 1 <= MembershipVersion r <= maxUint64;
  so_epoch : 1 <= OwnershipEpoch r <= maxUint64;
}.

Lemma TimesOK_later s s' m :
  CreatedAt s' = CreatedAt s -> UpdatedAt s <= UpdatedAt s' -> TimesOK s m -> TimesOK s' m.
Proof. intros Hc Hu (H1 & H2 & H3 & H4). unfold TimesOK. rewrite Hc. split_and!; [done|done|done|lia]. Qed.

Lemma memberOK_later s s' m :
  CreatedAt s' = CreatedAt s -> HostUserID s' = HostUserID s -> UpdatedAt s <= UpdatedAt s' ->
  memberOK s m = true -> memberOK s' m = true.
Proof.
  intros Hc Hh Hu. rewrite !memberOK_iff, Hh. intros (H1 & H2 & H3 & H4 & H5). split_and!; try done.
  by apply (TimesOK_later s).
Qed.

(** A well-formed room stays so when its versions and its time advance. *)
Lemma WF_touched s changed at_ :
  WF s -> 1 <= RoomVersion s -> 1 <= MembershipVersion s -> canonicalTime at_ -> UpdatedAt s <= at_ ->
  WF (touched s changed at_).
Proof.
  rewrite !WF_parts. intros ([? ? ? ? ? ? ? ? ?] & [] & [] & Hm & Hu & Hs & Hho & Hca & Hg) Hv Hmv Hat Hle.
  split_and!; try done.
  - split; try done; cbn; try lia. destruct changed; lia.
  - rewrite Forall_forall in Hm |- *. intros m Hin. by apply (memberOK_later s), Hm.
  - destruct Hg as [Hg|[[(H1 & H2 & H3 & H4 & H5 & H6 & H7 & H8) Hp]|[Hq (H1 & H2 & H3 & H4 & H5 & H6 & H7 & H8)]]].
    + by left.
    + right; left. split; [|done]. split_and!; try done; [apply H6|]. etrans; [apply H6|done].
    + right; right. split; [done|]. split_and!; try done; [apply H7|]. etrans; [apply H7|done].
Qed.

Lemma commit_inv next changed at_ r :
  commit next changed at_ = Ok r ->
  RoomVersion next <> maxUint64 /\ (changed = true -> MembershipVersion next <> maxUint64) /\
  r = canonicalRoom (next <| RoomVersion := u64 (RoomVersion next + 1) |>
                          <| MembershipVersion := if changed then u64 (MembershipVersion next + 1)
                                                  else MembershipVersion next |>
                          <| UpdatedAt := at_ |>) /\ WF r.
Proof.
  unfold commit, bumpVersions. destruct (_ || _) eqn:E; cbn [bind_result]; [done|]. intros H. to_prop.
  apply Restore_iff in H as [-> Hwf]. split_and!; [done| |done|done].
  intros ->. by apply Z.eqb_neq.
Qed.

Lemma u64_succ z : 0 <= z <= maxUint64 -> z <> maxUint64 -> u64 (z + 1) = z + 1.
Proof. unfold u64, maxUint64. intros. apply Z.mod_small. lia. Qed.

(** [commit] succeeds on what is well formed once touched. *)
Lemma commit_Ok next changed at_ :
  WF (touched next changed at_) -> 1 <= RoomVersion next <= maxUint64 -> 1 <= MembershipVersion next <= maxUint64 ->
  RoomVersion next <> maxUint64 -> (changed = true -> MembershipVersion next <> maxUint64) ->
  commit next changed at_ = Ok (touched next changed at_).
Proof.
  intros Hwf Hv Hm Hnv Hnm. unfold commit, bumpVersions.
  rewrite (proj2 (Z.eqb_neq _ _) Hnv). cbn [orb].
  assert (changed && (MembershipVersion next =? maxUint64) = false) as ->.
  { destruct changed; [|done]. apply Z.eqb_neq. auto. }
  cbn [bind_result]. rewrite (u64_succ (RoomVersion next)) by (lia || done).
  replace (if changed then u64 (MembershipVersion next + 1) else MembershipVersion next)
    with (if changed then MembershipVersion next + 1 else MembershipVersion next).
  2: { destruct changed; [|done]. rewrite u64_succ; [done|lia|auto]. }
  by apply WF_Restore.
Qed.

(** ** Seats *)
Lemma firstFreeSeat_Some used capacity seat fuel z :
  firstFreeSeat used capacity seat fuel = Some z ->
  seat <= z < capacity /\ (z ∉ used) /\ forall k, seat <= k < z -> k ∈ used.
Proof.
  revert seat. induction fuel as [|fuel IH]; intros seat H; cbn in H; [done|].
  destruct (seat <? capacity) eqn:E; [|done]. to_prop. destruct (bool_decide _) eqn:Eu.
  - apply bool_decide_eq_true in Eu. apply IH in H as (H1 & H2 & H3). split_and!; [lia|lia|done|].
    intros k Hk. destruct (decide (k = seat)) as [->|]; [done|]. apply H3. lia.
  - apply bool_decide_eq_false in Eu. simplify_eq. split_and!; [lia|lia|done|lia].
Qed.

Lemma firstFreeSeat_None used capacity seat fuel :
  firstFreeSeat used capacity seat fuel = None ->
  forall k, seat <= k < capacity -> k < seat + Z.of_nat fuel -> k ∈ used.
Proof.
  revert seat. induction fuel as [|fuel IH]; intros seat H k Hk Hf; cbn in H; [lia|].
  destruct (seat <? capacity) eqn:E; to_prop; [|lia]. destruct (bool_decide _) eqn:Eu; [|done].
  apply bool_decide_eq_true in Eu. destruct (decide (k = seat)) as [->|]; [done|].
  apply (IH (seat + 1)); [done|lia|lia].
Qed.

(** [nextSeat] returns the least free seat, and none only when all are taken. *)
Lemma nextSeat_Some r z :
  nextSeat r = Some z ->
  0 <= z < ParticipantCapacity r /\ (z ∉ seats (Members r)) /\ forall k, 0 <= k < z -> k ∈ seats (Members r).
Proof. apply firstFreeSeat_Some. Qed.

Lemma nextSeat_None r k : nextSeat r = None -> 0 <= k < ParticipantCapacity r -> k ∈ seats (Members r).
Proof.
  unfold nextSeat. cbv zeta. fold (participants (Members r)). fold (seats (Members r)). intros H Hk.
  pose proof (firstFreeSeat_None _ _ _ _ H) as Hn.
  destruct (decide (k < Z.of_nat (S (length (seats (Members r)))))) as [|Hbig]; [by apply Hn; lia|].
  exfalso. assert (Hsub : seqZ 0 (Z.of_nat (S (length (seats (Members r))))) ⊆+ seats (Members r)).
  { apply NoDup_submseteq; [apply NoDup_seqZ|]. intros z Hz. apply elem_of_seqZ in Hz. apply Hn; lia. }
  apply submseteq_length in Hsub. rewrite length_seqZ in Hsub. lia.
Qed.

(** A free seat leaves room for one more participant. *)
Lemma free_seat_capacity r z :
  Sound r -> nextSeat r = Some z -> Z.of_nat (length (participants (Members r))) < ParticipantCapacity r.
Proof.
  intros Hso Hz. apply nextSeat_Some in Hz as (Hr & Hfree & _).
  assert (Hsub : z :: seats (Members r) ⊆+ seqZ 0 (ParticipantCapacity r)).
  { apply NoDup_submseteq.
    - apply NoDup_cons. split; [done|]. apply (wf_seats _ (so_wf _ Hso)).
    - intros k [->|Hk]%elem_of_cons; apply elem_of_seqZ; [lia|].
      pose proof (so_seats _ Hso) as Hs. rewrite Forall_forall in Hs. specialize (Hs k Hk). lia. }
  apply submseteq_length in Hsub. rewrite length_seqZ in Hsub. cbn in Hsub.
  unfold seats in Hsub. rewrite length_fmap in Hsub. lia.
Qed.

(** ** Lists of members up to order *)
#[global] Instance participants_Permutation : Proper ((≡ₚ) ==> (≡ₚ)) participants.
Proof.
  intros l1 l2 H. induction H.
  - done.
  - rewrite !participants_cons. destruct (isParticipant x); [by f_equiv|done].
  - rewrite !participants_cons. destruct (isParticipant x), (isParticipant y); try done. apply Permutation_swap.
  - by etrans.
Qed.

#[global] Instance seats_Permutation : Proper ((≡ₚ) ==> (≡ₚ)) seats.
Proof. intros l1 l2 H. unfold seats. by rewrite H. Qed.

#[global] Instance users_Permutation : Proper ((≡ₚ) ==> (≡ₚ)) users.
Proof. intros l1 l2 H. unfold users. by rewrite H. Qed.

Lemma memberFromSnapshot_iff ms u m :
  NoDup (users ms) -> memberFromSnapshot ms u = Some m <-> m ∈ ms /\ m_UserID m = u.
Proof.
  unfold memberFromSnapshot, users. intros Hnd. split.
  - intros H. apply find_some in H as [Hin E]. to_prop. by rewrite list_elem_of_In.
  - intros [Hin Hu]. destruct (find _ ms) as [m'|] eqn:E.
    + apply find_some in E as [Hin' E']. to_prop. rewrite <- list_elem_of_In in Hin'.
      apply list_elem_of_lookup in Hin as [i Hi], Hin' as [j Hj].
      assert (i = j) as ->.
      { eapply NoDup_lookup; [exact Hnd| |]; rewrite list_lookup_fmap; [by rewrite Hi|].
        rewrite Hj. cbn. by rewrite E', Hu. }
      congruence.
    + exfalso. eapply find_none in E; [|by apply list_elem_of_In]. cbn in E. to_prop. done.
Qed.

Lemma Member_from r u : Member r u = memberFromSnapshot (Members r) u.
Proof. done. Qed.

Lemma memberIndex_Some ms u i :
  memberIndex ms u = Some i -> exists m, ms !! i = Some m /\ ms !!! i = m /\ m_UserID m = u.
Proof.
  intros (m & Hm & E & _)%find_index_Some. to_prop. exists m. split_and!; [done| |done].
  by apply list_lookup_total_correct.
Qed.

Lemma memberIndex_None ms u : memberIndex ms u = None <-> (u ∉ users ms).
Proof.
  unfold memberIndex, users. rewrite find_index_None, list_elem_of_fmap. split.
  - intros H (m & -> & Hm). specialize (H m Hm). cbn in H. by rewrite Z.eqb_refl in H.
  - intros H m Hm. apply Z.eqb_neq. intros <-. apply H. by exists m.
Qed.

Lemma deleteAt_delete i ms : deleteAt i ms = delete i ms.
Proof. unfold deleteAt. by rewrite delete_take_drop. Qed.

Lemma insert_Permutation {A} i (ms : list A) m m' :
  ms !! i = Some m -> <[i := m']> ms ≡ₚ m' :: delete i ms.
Proof.
  intros Hi. assert (Hlt : (i < length ms)%nat) by by eapply lookup_lt_Some.
  rewrite insert_take_drop, delete_take_drop by done. by rewrite <- Permutation_middle.
Qed.

(** The list conditions of [WF] and [Sound], for another list of members. *)
Record ListOK (s : RoomSnapshot) (ms : list MemberSnapshot) : Prop := {
  lo_times : Forall (fun m => canonicalTime (m_JoinedAt m) /\ canonicalTime (m_LastSeenAt m)) ms;
  lo_members : Forall (fun m => memberOK s m = true) ms;
  lo_users : NoDup (users ms);
  lo_seats : NoDup (seats ms);
  lo_range : Forall (fun z => 0 <= z < ParticipantCapacity s) (seats ms);
  lo_host : HostUserID s ∈ users ms;
  lo_capacity : Z.of_nat (length (participants ms)) <= ParticipantCapacity s;
  lo_bound : Z.of_nat (length ms) <= ParticipantCapacity s + 1000000;
}.

Lemma Sound_ListOK s : Sound s -> ListOK s (Members s).
Proof.
  intros Hso. pose proof (so_wf _ Hso) as Hwf. apply WF_parts in Hwf as (Hc & _ & Hl & ? & ? & ? & ? & ? & _).
  split; try done; [|apply Hso|apply Hl]. destruct Hc as [_ _ _ _ _ _ _ Hj Hs].
  rewrite Forall_forall in Hj, Hs |- *. intros m Hm. split; [by apply Hj|by apply Hs].
Qed.

#[global] Instance ListOK_Permutation s : Proper ((≡ₚ) ==> iff) (ListOK s).
Proof.
  assert (forall l1 l2, l1 ≡ₚ l2 -> ListOK s l1 -> ListOK s l2) as Hhalf.
  { intros l1 l2 H [H1 H2 H3 H4 H5 H6 H7 H8]. split; by rewrite <- H. }
  intros l1 l2 H. split; by apply Hhalf.
Qed.

(** Adding a member nobody knows on a seat nobody has. *)
Lemma ListOK_add s ms m :
  ListOK s ms -> canonicalTime (m_JoinedAt m) -> canonicalTime (m_LastSeenAt m) -> memberOK s m = true ->
  (m_UserID m ∉ users ms) ->
  (isParticipant m = true -> (m_SeatIndex m ∉ seats ms) /\ 0 <= m_SeatIndex m < ParticipantCapacity s /\
                             Z.of_nat (length (participants ms)) < ParticipantCapacity s) ->
  Z.of_nat (length ms) < ParticipantCapacity s + 1000000 ->
  ListOK s (m :: ms).
Proof.
  intros [H1 H2 H3 H4 H5 H6 H7 H8] Hj Hl Hm Hu Hp Hb. split.
  - by constructor.
  - by constructor.
  - unfold users. rewrite fmap_cons. by apply NoDup_cons.
  - unfold seats. rewrite participants_cons. destruct (isParticipant m); [|done]. apply NoDup_cons.
    split; [by apply Hp|done].
  - unfold seats. rewrite participants_cons. destruct (isParticipant m); [|done]. apply Forall_cons.
    split; [by apply Hp|done].
  - unfold users. rewrite fmap_cons. by apply elem_of_cons; right.
  - rewrite participants_cons. destruct (isParticipant m); [|done]. cbn. destruct Hp as (_ & _ & ?); [done|lia].
  - cbn. lia.
Qed.

(** Forgetting a member who is not the host. *)
Lemma ListOK_forget s ms m :
  ListOK s (m :: ms) -> m_UserID m <> HostUserID s -> ListOK s ms.
Proof.
  intros [H1 H2 H3 H4 H5 H6 H7 H8] Hh. unfold users, seats in *. rewrite participants_cons in *.
  rewrite fmap_cons in *. apply NoDup_cons in H3 as [_ H3]. apply Forall_cons in H1 as [_ H1].
  apply Forall_cons in H2 as [_ H2]. apply elem_of_cons in H6 as [?|H6]; [congruence|].
  cbn in H8. split; try done; unfold users, seats.
  - destruct (isParticipant m); [|done]. by apply NoDup_cons in H4 as [_ ?].
  - destruct (isParticipant m); [|done]. by apply Forall_cons in H5 as [_ ?].
  - destruct (isParticipant m); [|done]. cbn in H7. lia.
  - lia.
Qed.

(** Replacing the members of a sound room. *)
Lemma Sound_members s ms :
  Sound s -> ListOK s ms -> GovernanceOK (s <| Members := ms |>) -> Sound (s <| Members := ms |>).
Proof.
  intros [Hwf Hr Hv Hm He] [H1 H2 H3 H4 H5 H6 H7 H8] Hg. split; try done. apply WF_parts in Hwf.
  destruct Hwf as ([] & [] & [] & _ & _ & _ & _ & _ & _). apply WF_parts. split_and!; try done.
  - split; try done; cbn; rewrite Forall_forall in H1 |- *; intros m Hin; by apply H1.
  - split; try done. cbn. intros ->. unfold users in H6. by apply not_elem_of_nil in H6.
Qed.

(** ** Commands as guards followed by one commit

    [plan] evaluates the guards of a command: it fails, or leaves the room as it
    is ([None]), or names the snapshot to commit and whether the membership
    changed. *)
Definition plan (room : Room) (command : Command) (expected : Version) (at_ : Time)
  : res (option (RoomSnapshot * bool)) :=
  let asHost (hostUserID : UUID) := let* _ := checkHost room hostUserID in checkVersion room expected in
  let inSession (sessionID : UUID) :=
    if negb (String.eqb (Status room) RoomStatusPlaying) || negb (ActiveSessionID room =? sessionID)
    then Err ErrSessionNotFound else Ok tt in
  let ending (sessionID : UUID) :=
    if negb (String.eqb (Status room) RoomStatusPlaying) then Err ErrRoomStatus
    else if negb (ActiveSessionID room =? sessionID) then Err ErrSessionNotFound else Ok tt in
  let removal (userID : UUID) :=
    if userID =? HostUserID room then Err ErrCannotRemoveHost
    else match memberIndex (Members room) userID with
    | None => Err ErrMemberNotFound
    | Some index =>
        Ok (Some (dropRequestOf (room <| Members := deleteAt index (Members room) |>) userID, true))
    end in
  let admission (participant spectator : string) :=
    if negb (admissionMutable (Status room)) then Err ErrRoomStatus
    else Ok (Some (room <| ParticipantAdmission := participant |> <| SpectatorAdmission := spectator |>, false)) in
  let closing :=
    if String.eqb (Status room) RoomStatusPlaying then Err ErrSessionActive
    else if String.eqb (Status room) RoomStatusClosed then Ok None
    else Ok (Some (room <| Status := RoomStatusClosed |> <| ParticipantAdmission := AdmissionClosed |>
                        <| SpectatorAdmission := AdmissionClosed |>
                        <| PendingPause := noRequest |> <| CurrentPause := noPause |>, false)) in
  match command with
  | CmdJoin userID intent =>
      if (userID =? Nil) || negb (JoinIntent_Valid intent) || IsZero at_ then Err ErrInvalidRoomInput
      else
        let* _ := checkVersion room expected in
        match memberIndex (Members room) userID with
        | Some index =>
            let existing := Members room !!! index in
            if String.eqb (Status room) RoomStatusPlaying && String.eqb intent JoinIntentParticipant
               && String.eqb (m_Role existing) MemberRoleSpectator
            then Ok (Some (room <| Members := <[index := queueMember existing]> (Members room) |>, true))
            else Ok None
        | None =>
            if String.eqb (Status room) RoomStatusClosed then Err ErrRoomClosed
            else
              let* member := admitMember room userID intent at_ in
              Ok (Some (room <| Members := Members room ++ [member] |>, true))
        end
  | CmdSetAdmission hostUserID participant spectator =>
      if (hostUserID =? Nil) || negb (AdmissionMode_Valid participant)
         || negb (AdmissionMode_Valid spectator) || IsZero at_
      then Err ErrInvalidRoomInput
      else let* _ := asHost hostUserID in admission participant spectator
  | CmdSelectGame hostUserID gameID =>
      if (hostUserID =? Nil) || String.eqb (TrimSpace gameID) "" || IsZero at_ then Err ErrInvalidRoomInput
      else
        let* _ := asHost hostUserID in
        if negb (admissionMutable (Status room)) then Err ErrRoomStatus
        else if String.eqb (SelectedGameID room) (TrimSpace gameID) then Ok None
        else Ok (Some (room <| SelectedGameID := TrimSpace gameID |>, false))
  | CmdApproveWaiting hostUserID userID =>
      if (hostUserID =? Nil) || (userID =? Nil) || IsZero at_ then Err ErrInvalidRoomInput
      else
        let* _ := asHost hostUserID in
        if negb (admissionMutable (Status room)) then Err ErrRoomStatus
        else match find_index (fun member => (m_UserID member =? userID)
                                             && String.eqb (m_Role member) MemberRoleWaiting)
                              (Members room) with
        | None => Err ErrWaitingNotFound
        | Some index =>
            let* promoted := promote room (Members room !!! index) in
            Ok (Some (room <| Members := <[index := promoted]> (Members room) |>, true))
        end
  | CmdStartSession hostUserID sessionID gameID minimum maximum =>
      if (hostUserID =? Nil) || (sessionID =? Nil) || String.eqb (TrimSpace gameID) ""
         || (minimum =? 0) || (maximum <? minimum) || IsZero at_
      then Err ErrInvalidRoomInput
      else
        let* _ := asHost hostUserID in
        if String.eqb (Status room) RoomStatusClosed then Err ErrRoomClosed
        else if negb (String.eqb (Status room) RoomStatusLobby)
                && negb (String.eqb (Status room) RoomStatusPostGame)
        then Err ErrRoomStatus
        else if negb (ActiveSessionID room =? Nil) then Err ErrSessionActive
        else if Z.of_nat (length (freeze <$> participants (Members room))) <? minimum
        then Err ErrInsufficientParticipants
        else if maximum <? Z.of_nat (length (freeze <$> participants (Members room)))
        then Err ErrParticipantLimitExceeded
        else Ok (Some (room <| Status := RoomStatusPlaying |> <| ActiveSessionID := sessionID |>
                            <| ActiveGameID := TrimSpace gameID |>
                            <| ParticipantAdmission := AdmissionClosed |>
                            <| LastFinishedSessionID := Nil |> <| LastFinishedGameID := ""%string |>, false))
  | CmdRequestPause actorUserID requestID sessionID =>
      if (actorUserID =? Nil) || (requestID =? Nil) || (sessionID =? Nil) || IsZero at_
      then Err ErrInvalidRoomInput
      else
        let* _ := checkVersion room expected in
        let* _ := inSession sessionID in
        if negb (a_ID (CurrentPause room) =? Nil) then Err ErrGameAlreadyPaused
        else if negb (q_ID (PendingPause room) =? Nil) then Err ErrPauseRequestExists
        else if match Member room actorUserID with
                | None => true
                | Some member => negb (String.eqb (m_Role member) MemberRoleParticipant)
                end || (actorUserID =? HostUserID room)
        then Err ErrPauseParticipantRequired
        else Ok (Some (room <| PendingPause := mkPending requestID sessionID actorUserID at_ |>, false))
  | CmdRejectPause hostUserID requestID =>
      if (hostUserID =? Nil) || (requestID =? Nil) || IsZero at_ then Err ErrInvalidRoomInput
      else
        let* _ := asHost hostUserID in
        if negb (q_ID (PendingPause room) =? requestID) then Err ErrPauseRequestNotFound
        else Ok (Some (room <| PendingPause := noRequest |>, false))
  | CmdPause hostUserID pauseID sessionID requestID =>
      if (hostUserID =? Nil) || (pauseID =? Nil) || (sessionID =? Nil) || IsZero at_
      then Err ErrInvalidRoomInput
      else
        let* _ := asHost hostUserID in
        let* _ := inSession sessionID in
        if negb (a_ID (CurrentPause room) =? Nil) then Err ErrGameAlreadyPaused
        else
          let* '(source, requestedBy) :=
            if negb (requestID =? Nil) then
              if negb (q_ID (PendingPause room) =? requestID)
                 || negb (q_SessionID (PendingPause room) =? sessionID)
              then Err ErrPauseRequestNotFound
              else Ok (PauseSourceApprovedRequest, q_RequestedByUserID (PendingPause room))
            else Ok (PauseSourceHost, Nil) in
          Ok (Some (room <| PendingPause := noRequest |>
                         <| CurrentPause := mkPause pauseID sessionID source requestedBy hostUserID at_ |>, false))
  | CmdResume hostUserID sessionID =>
      if (hostUserID =? Nil) || (sessionID =? Nil) || IsZero at_ then Err ErrInvalidRoomInput
      else
        let* _ := asHost hostUserID in
        let* _ := inSession sessionID in
        if (a_ID (CurrentPause room) =? Nil) || negb (a_SessionID (CurrentPause room) =? sessionID)
        then Err ErrGameNotPaused
        else Ok (Some (room <| CurrentPause := noPause |>, false))
  | CmdTransferHost hostUserID targetUserID epoch =>
      if (hostUserID =? Nil) || (targetUserID =? Nil) || (epoch =? 0) || IsZero at_
      then Err ErrInvalidRoomInput
      else
        let* _ := asHost hostUserID in
        if negb (OwnershipEpoch room =? epoch) then Err ErrRoomVersionConflict
        else if String.eqb (Status room) RoomStatusClosed then Err ErrRoomClosed
        else if match Member room targetUserID with
                | None => true
                | Some target => negb (String.eqb (m_Role target) MemberRoleParticipant)
                end || (targetUserID =? hostUserID)
        then Err ErrHostTransferTargetInvalid
        else if OwnershipEpoch room =? maxUint64 then Err ErrRoomVersionOverflow
        else Ok (Some (dropRequestOf (room <| HostUserID := targetUserID |>
                                           <| OwnershipEpoch := u64 (OwnershipEpoch room + 1) |>)
                         targetUserID, false))
  | CmdFinishSession sessionID =>
      if (sessionID =? Nil) || IsZero at_ then Err ErrInvalidRoomInput
      else
        let* _ := checkVersion room expected in
        let* _ := ending sessionID in
        Ok (Some (endSession room RoomStatusPostGame sessionID (ActiveGameID room), false))
  | CmdCancelSession sessionID =>
      if (sessionID =? Nil) || IsZero at_ then Err ErrInvalidRoomInput
      else
        let* _ := checkVersion room expected in
        let* _ := ending sessionID in
        Ok (Some (endSession room RoomStatusLobby Nil "", false))
  | CmdCancelSessionAndClose hostUserID sessionID =>
      if (hostUserID =? Nil) || (sessionID =? Nil) || IsZero at_ then Err ErrInvalidRoomInput
      else
        let* _ := asHost hostUserID in
        let* _ := ending sessionID in
        Ok (Some ((endSession room RoomStatusClosed Nil "") <| SpectatorAdmission := AdmissionClosed |>, false))
  | CmdRemoveMember hostUserID userID =>
      if (hostUserID =? Nil) || (userID =? Nil) || IsZero at_ then Err ErrInvalidRoomInput
      else let* _ := asHost hostUserID in removal userID
  | CmdClose hostUserID =>
      if (hostUserID =? Nil) || IsZero at_ then Err ErrInvalidRoomInput
      else let* _ := asHost hostUserID in closing
  | CmdSetAdmissionByAdmin actorID participant spectator =>
      if (actorID =? Nil) || negb (AdmissionMode_Valid participant)
         || negb (AdmissionMode_Valid spectator) || IsZero at_
      then Err ErrInvalidRoomInput
      else let* _ := checkVersion room expected in admission participant spectator
  | CmdRemoveMemberByAdmin actorID userID =>
      if (actorID =? Nil) || (userID =? Nil) || IsZero at_ then Err ErrInvalidRoomInput
      else let* _ := checkVersion room expected in removal userID
  | CmdCloseWaitingByAdmin actorID =>
      if (actorID =? Nil) || IsZero at_ then Err ErrInvalidRoomInput
      else let* _ := checkVersion room expected in closing
  end.

Definition execute (room : Room) (outcome : res (option (RoomSnapshot * bool))) (at_ : Time) : res Room :=
  let* todo := outcome in
  match todo with
  | None => Ok room
  | Some (next, changed) => commit next changed at_
  end.

Lemma commit_roomOf {A} next changed at_ (f : Room -> A) :
  roomOf (let* updated := commit next changed at_ in Ok (updated, f updated)) = commit next changed at_.
Proof. unfold roomOf. by destruct (commit next changed at_). Qed.

(** Every command is its plan, executed. *)
Lemma exec_plan room command expected at_ :
  exec room command expected at_ =
  execute room (plan room command expected (canonicalRoomTime at_)) (canonicalRoomTime at_).
Proof.
  destruct command; cbn [exec plan]; cbv zeta;
    unfold Join, SetAdmission, SelectGame, ApproveWaiting, StartSession, RequestPause, RejectPause, Pause,
      Resume, TransferHost, FinishSession, CancelSession, CancelSessionAndClose, RemoveMember, Close,
      SetAdmissionByAdmin, RemoveMemberByAdmin, CloseWaitingByAdmin, removeMember, closeIdle; cbv zeta;
    unfold participants;
    repeat (first
      [ done
      | rewrite commit_roomOf; done
      | match goal with
        | |- context [bind_result (checkHost ?r ?h) _] => destruct (checkHost r h) as [[]|]
        | |- context [checkVersion ?r ?v] => destruct (checkVersion r v) as [[]|]
        | |- context [match memberIndex ?l ?u with _ => _ end] => destruct (memberIndex l u)
        | |- context [match find_index ?p ?l with _ => _ end] => destruct (find_index p l)
        | |- context [promote ?r ?m] => destruct (promote r m)
        | |- context [admitMember ?r ?u ?i ?t] => destruct (admitMember r u i t)
        | |- context [if ?b then _ else _] => destruct b
        end; cbn [bind_result execute roomOf fst app] ]).
Qed.

End RoomFacts.
