(* ===== verification/RoomInvariant.v ===== *)
(** * The room aggregate: the invariant

    [Sound] is kept by every command, and the snapshot a command builds at a
    time that has not gone back is always accepted by [Restore]. *)

From S2P Require Import Prelude GoLib Room RoomFacts.

Module RoomInvariant.
Import GoLib Room RoomFacts.

Lemma Sound_touched s changed at_ :
  Sound s -> canonicalTime at_ -> UpdatedAt s <= at_ -> RoomVersion s <> maxUint64 ->
  (changed = true -> MembershipVersion s <> maxUint64) -> Sound (touched s changed at_).
Proof.
  intros [Hwf Hr Hv Hm He] Hat Hle Hnv Hnm. split; [|done| | |done].
  - apply WF_touched; [done|lia|lia|done|done].
  - change (1 <= RoomVersion s + 1 <= maxUint64). lia.
  - change (1 <= (if changed then MembershipVersion s + 1 else MembershipVersion s) <= maxUint64).
    destruct changed; [|done]. specialize (Hnm eq_refl). lia.
Qed.

(** Rebuilds [Sound] around a change of the fields outside the member list and
    leaves the parts of [WF] that the change may affect. *)
Ltac reopen Hso :=
  let Hwf := fresh "Hwf" in
  destruct Hso as [Hwf Hran Hver Hmem Hepo];
  apply WF_parts in Hwf as ([? ? ? ? ? ? ? ? ?] & [] & [] & Hms & Hus & Hse & Hho & Hca & Hgo);
  split; [apply WF_parts; split_and!|..]; try assumption;
  try (split; solve [assumption | done]).

Lemma idle_governance s :
  Sound s -> Status s <> RoomStatusPlaying -> PendingPause s = noRequest /\ CurrentPause s = noPause.
Proof.
  intros Hso Hst. pose proof (wf_pause _ (so_wf _ Hso)) as Hg. apply governance_iff in Hg.
  by destruct Hg as [[? ?]|[[(? & _) _]|[_ (? & _)]]].
Qed.

Lemma mutable_cases status :
  admissionMutable status = true -> status = RoomStatusLobby \/ status = RoomStatusPostGame.
Proof. unfold admissionMutable. rewrite orb_true_iff, !eqb_string_true. done. Qed.

Lemma mutable_idle s : Sound s -> admissionMutable (Status s) = true ->
  Status s <> RoomStatusPlaying /\ Status s <> RoomStatusClosed.
Proof. intros _ [-> | ->]%mutable_cases; done. Qed.

Section Settings.
Context (s : Room) (Hso : Sound s).

Lemma Sound_admission participant spectator :
  AdmissionMode_Valid participant = true -> AdmissionMode_Valid spectator = true ->
  admissionMutable (Status s) = true ->
  Sound (s <| ParticipantAdmission := participant |> <| SpectatorAdmission := spectator |>).
Proof.
  intros Hp Hs Hmut. by destruct (mutable_idle s Hso Hmut) as [Hnp Hnc]; reopen Hso.
Qed.

Lemma Sound_selected game :
  TrimSpace game = game -> game <> ""%string -> Sound (s <| SelectedGameID := game |>).
Proof. intros Ht Hne. reopen Hso. Qed.

Lemma Sound_start session game :
  session <> Nil -> game <> ""%string -> Status s <> RoomStatusPlaying ->
  Sound (s <| Status := RoomStatusPlaying |> <| ActiveSessionID := session |> <| ActiveGameID := game |>
           <| ParticipantAdmission := AdmissionClosed |>
           <| LastFinishedSessionID := Nil |> <| LastFinishedGameID := ""%string |>).
Proof.
  intros Hse' Hg Hst. destruct (idle_governance s Hso Hst) as [Hq Hp]. reopen Hso. by left.
Qed.

Lemma Sound_close :
  Status s <> RoomStatusPlaying ->
  Sound (s <| Status := RoomStatusClosed |> <| ParticipantAdmission := AdmissionClosed |>
           <| SpectatorAdmission := AdmissionClosed |>
           <| PendingPause := noRequest |> <| CurrentPause := noPause |>).
Proof.
  intros Hst. reopen Hso.
  - split; try done; [intros _; by apply lf_idle0|by intros [?|?]].
  - by left.
Qed.

Lemma Sound_ended status session game spectator :
  (status = RoomStatusPostGame /\ session <> Nil /\ game <> ""%string /\ spectator = SpectatorAdmission s) \/
  (status = RoomStatusLobby /\ session = Nil /\ game = ""%string /\ spectator = SpectatorAdmission s) \/
  (status = RoomStatusClosed /\ session = Nil /\ game = ""%string /\ spectator = AdmissionClosed) ->
  Sound ((endSession s status session game) <| SpectatorAdmission := spectator |>).
Proof.
  intros Hcase. reopen Hso.
  - split; try assumption; destruct Hcase as [(-> & _ & _ & ->)|[(-> & _ & _ & ->)|(-> & _ & _ & ->)]]; done.
  - destruct Hcase as [(-> & ? & ? & ->)|[(-> & -> & -> & ->)|(-> & -> & -> & ->)]]; split; try done;
      by intros [?|?].
  - by left.
Qed.

Lemma Sound_request request session actor :
  Status s = RoomStatusPlaying -> session = ActiveSessionID s -> request <> Nil -> actor <> Nil ->
  UpdatedAt s <> 0 -> CurrentPause s = noPause -> actor <> HostUserID s ->
  (exists m, memberFromSnapshot (Members s) actor = Some m /\ isParticipant m = true) ->
  Sound (s <| PendingPause := mkPending request session actor (UpdatedAt s) |>).
Proof.
  intros Hst -> Hr Ha Hu Hp Hh Hm. reopen Hso. right; left. split; [|done].
  by split_and!.
Qed.

Lemma Sound_noRequest : Sound (s <| PendingPause := noRequest |>).
Proof.
  reopen Hso. destruct Hgo as [[_ ?]|[[_ ?]|[? ?]]]; [by left|by left|by right; right].
Qed.

Lemma Sound_paused pause session source requested host :
  Status s = RoomStatusPlaying -> session = ActiveSessionID s -> pause <> Nil -> host <> Nil ->
  UpdatedAt s <> 0 -> PauseSource_Valid source = true -> (source = PauseSourceHost <-> requested = Nil) ->
  Sound (s <| PendingPause := noRequest |>
           <| CurrentPause := mkPause pause session source requested host (UpdatedAt s) |>).
Proof.
  intros Hst -> Hp Hh Hu Hv Hr. reopen Hso. right; right. split; [done|]. by split_and!.
Qed.

Lemma Sound_resumed : Sound (s <| CurrentPause := noPause |>).
Proof.
  reopen Hso. destruct Hgo as [[? _]|[[? _]|[? _]]]; [by left|by right; left|by left].
Qed.
End Settings.

(** ** Members *)
Lemma Governance_members s ms :
  Sound s -> NoDup (users ms) ->
  (forall m, m ∈ Members s -> isParticipant m = true -> m_UserID m = q_RequestedByUserID (PendingPause s) -> m ∈ ms) ->
  GovernanceOK (s <| Members := ms |>).
Proof.
  intros Hso Hnd Hkeep. pose proof (wf_pause _ (so_wf _ Hso)) as Hg. apply governance_iff in Hg.
  destruct Hg as [?|[[(H1 & H2 & H3 & H4 & H5 & [H6 H6'] & (m & Hm & Hp) & H8) Hc]|?]]; [by left| |by right; right].
  right; left. split; [|done]. split_and!; try done. exists m. split; [|done].
  apply memberFromSnapshot_iff in Hm as [Hin Hu]; [|apply (wf_users _ (so_wf _ Hso))].
  apply memberFromSnapshot_iff; [done|]. split; [|done]. by apply Hkeep.
Qed.

Lemma ListOK_nonhost s m : ListOK s (Members s) -> m ∈ Members s -> isParticipant m = false -> m_UserID m <> HostUserID s.
Proof.
  intros Hl Hin Hp Hh. pose proof (lo_members _ _ Hl) as Hm. rewrite Forall_forall in Hm.
  specialize (Hm m Hin). apply memberOK_iff in Hm as (_ & _ & _ & _ & Hpart). by rewrite (Hpart Hh) in Hp.
Qed.

(** A member as [Join] and [ApproveWaiting] build it. *)
Record Entry (s : RoomSnapshot) (m : MemberSnapshot) : Prop := {
  en_joined : canonicalTime (m_JoinedAt m);
  en_seen : canonicalTime (m_LastSeenAt m);
  en_ok : memberOK s m = true;
  en_seat : isParticipant m = true ->
    (m_SeatIndex m ∉ seats (Members s)) /\ 0 <= m_SeatIndex m < ParticipantCapacity s /\
    Z.of_nat (length (participants (Members s))) < ParticipantCapacity s;
}.

Lemma Sound_append s m :
  Sound s -> Entry s m -> (m_UserID m ∉ users (Members s)) ->
  Z.of_nat (length (Members s)) < ParticipantCapacity s + 1000000 ->
  Sound (s <| Members := Members s ++ [m] |>).
Proof.
  intros Hso [Hj Hl Hok Hseat] Hu Hb.
  assert (Hlist : ListOK s (Members s ++ [m])).
  { rewrite <- Permutation_cons_append. apply ListOK_add; try done. by apply Sound_ListOK. }
  apply Sound_members; [done|done|]. apply Governance_members; [done|apply Hlist|].
  intros q Hq _ _. apply elem_of_app. by left.
Qed.

Lemma delete_sub {A} (l : list A) i x y : l !! i = Some x -> y ∈ l -> y <> x -> y ∈ delete i l.
Proof.
  intros Hi Hy Hne. rewrite (delete_Permutation l i x Hi) in Hy. by apply elem_of_cons in Hy as [?|?].
Qed.

(** Replacing a member without a seat. *)
Lemma Sound_replace s i m m' :
  Sound s -> Members s !! i = Some m -> isParticipant m = false -> m_UserID m' = m_UserID m -> Entry s m' ->
  Sound (s <| Members := <[i := m']> (Members s) |>).
Proof.
  intros Hso Hi Hp Hu [Hj Hl Hok Hseat]. pose proof (Sound_ListOK s Hso) as Hls.
  assert (Hin : m ∈ Members s) by by eapply list_elem_of_lookup_2.
  pose proof (ListOK_nonhost s m Hls Hin Hp) as Hh.
  pose proof (delete_Permutation _ _ _ Hi) as Hperm.
  assert (Hlen : length (Members s) = S (length (delete i (Members s)))) by (rewrite Hperm at 1; done).
  pose proof (lo_bound _ _ Hls) as Hbound.
  rewrite Hperm in Hls.
  assert (Hparts : participants (Members s) ≡ₚ participants (delete i (Members s))).
  { rewrite Hperm at 1. by rewrite participants_cons, Hp. }
  assert (Hlist : ListOK s (<[i := m']> (Members s))).
  { rewrite (insert_Permutation _ _ _ m' Hi). apply ListOK_add; try done.
    - by apply (ListOK_forget _ _ m).
    - pose proof (lo_users _ _ Hls) as Hnd. unfold users in Hnd. rewrite fmap_cons in Hnd.
      apply NoDup_cons in Hnd as [Hnd _]. by rewrite Hu.
    - intros Hp'. destruct (Hseat Hp') as (H1 & H2 & H3). unfold seats in *. rewrite <- Hparts. done.
    - lia. }
  apply Sound_members; [done|done|]. apply Governance_members; [done|apply Hlist|].
  intros q Hq Hqp _. rewrite (insert_Permutation _ _ _ m' Hi). apply elem_of_cons. right.
  apply (delete_sub _ _ m); [done|done|]. intros ->. congruence.
Qed.

Lemma Sound_remove s i m :
  Sound s -> Members s !! i = Some m -> m_UserID m <> HostUserID s ->
  Sound (dropRequestOf (s <| Members := delete i (Members s) |>) (m_UserID m)).
Proof.
  intros Hso Hi Hh.
  assert (Hgen : forall t, Sound t -> Members t = Members s -> HostUserID t = HostUserID s ->
            q_RequestedByUserID (PendingPause t) <> m_UserID m -> Sound (t <| Members := delete i (Members s) |>)).
  { intros t Ht Hmt Hht Hq. rewrite <- Hmt in *. rewrite <- Hht in Hh.
    pose proof (Sound_ListOK t Ht) as Hls. rewrite (delete_Permutation _ _ _ Hi) in Hls.
    apply ListOK_forget in Hls; [|done]. apply Sound_members; [done|done|].
    apply Governance_members; [done|apply Hls|]. intros q Hqin _ Hqu. apply (delete_sub _ _ m); [done|done|].
    intros ->. congruence. }
  unfold dropRequestOf. change (PendingPause (s <| Members := delete i (Members s) |>)) with (PendingPause s).
  destruct (q_RequestedByUserID (PendingPause s) =? m_UserID m) eqn:E; to_prop.
  - change (Sound ((s <| PendingPause := noRequest |>) <| Members := delete i (Members s) |>)).
    apply Hgen; [by apply Sound_noRequest|done|done|].
    pose proof (lo_members _ _ (Sound_ListOK s Hso)) as Hm. rewrite Forall_forall in Hm.
    specialize (Hm m (list_elem_of_lookup_2 _ _ _ Hi)). apply memberOK_iff in Hm as (Hn & _). by apply not_eq_sym.
  - by apply Hgen.
Qed.

Lemma Sound_transfer s target m :
  Sound s -> memberFromSnapshot (Members s) target = Some m -> isParticipant m = true -> target <> Nil ->
  OwnershipEpoch s <> maxUint64 ->
  Sound (dropRequestOf (s <| HostUserID := target |> <| OwnershipEpoch := u64 (OwnershipEpoch s + 1) |>) target).
Proof.
  intros Hso Hm Hp Ht Hepoch.
  pose proof (wf_users _ (so_wf _ Hso)) as Hnd. pose proof (so_epoch _ Hso) as He.
  rewrite u64_succ by (lia || done).
  apply memberFromSnapshot_iff in Hm as [Hin Hu]; [|done].
  assert (Hhost : forall n, n ∈ Members s -> m_UserID n = target -> isParticipant n = true).
  { intros n Hn Hun. assert (n = m) as ->; [|done].
    assert (Some n = Some m) as [= ->]; [|done].
    rewrite <- (proj2 (memberFromSnapshot_iff (Members s) target n Hnd)) by done.
    by rewrite <- (proj2 (memberFromSnapshot_iff (Members s) target m Hnd)) by done. }
  assert (Hgen : forall t, Sound t -> Members t = Members s -> OwnershipEpoch t = OwnershipEpoch s ->
            q_RequestedByUserID (PendingPause t) <> target ->
            Sound (t <| HostUserID := target |> <| OwnershipEpoch := OwnershipEpoch t + 1 |>)).
  { intros t Hso' Hmt Het Hq. rewrite <- Hmt in *. rewrite <- Het in *. reopen Hso'.
    - split; try done. change (OwnershipEpoch t + 1 <> 0). lia.
    - rewrite Forall_forall in Hms |- *. intros n Hn. specialize (Hms n Hn).
      apply memberOK_iff in Hms as (? & ? & ? & ? & _). apply memberOK_iff. split_and!; try done. by apply Hhost.
    - unfold users. apply list_elem_of_fmap. by exists m.
    - destruct Hgo as [?|[[(H1 & H2 & H3 & H4 & H5 & [H6 H6'] & H7 & H8) Hc]|?]]; [by left| |by right; right].
      right; left. split; [|done]. by split_and!.
    - change (1 <= OwnershipEpoch t + 1 <= maxUint64). lia. }
  unfold dropRequestOf.
  change (PendingPause (s <| HostUserID := target |> <| OwnershipEpoch := OwnershipEpoch s + 1 |>)) with (PendingPause s).
  destruct (q_RequestedByUserID (PendingPause s) =? target) eqn:E; to_prop.
  - change (Sound ((s <| PendingPause := noRequest |>) <| HostUserID := target |>
                     <| OwnershipEpoch := OwnershipEpoch (s <| PendingPause := noRequest |>) + 1 |>)).
    apply Hgen; [by apply Sound_noRequest|done|done|by apply not_eq_sym].
  - by apply Hgen.
Qed.

(** ** The members the commands build *)
Lemma entry_times s : Sound s -> UpdatedAt s <> 0 -> forall u role requested seat,
  TimesOK s (mkMember u role requested seat (UpdatedAt s) (UpdatedAt s)).
Proof.
  intros Hso Hu u role requested seat. pose proof (wf_header _ (so_wf _ Hso)) as Hh. apply header_iff in Hh.
  unfold TimesOK. cbn [m_JoinedAt m_LastSeenAt]. destruct Hh. split_and!; try done; apply Z.le_refl.
Qed.

Lemma updated_canonical s : Sound s -> canonicalTime (UpdatedAt s).
Proof. intros Hso. pose proof (so_wf _ Hso) as Hwf. apply WF_parts in Hwf as ([] & _). done. Qed.

Lemma admit_Entry s u intent m :
  Sound s -> UpdatedAt s <> 0 -> u <> Nil -> (u ∉ users (Members s)) -> JoinIntent_Valid intent = true ->
  admitMember s u intent (UpdatedAt s) = Ok m -> Entry s m /\ m_UserID m = u.
Proof.
  intros Hso Hupd Hu Hfresh Hint H.
  assert (Hh : u <> HostUserID s) by (intros ->; apply Hfresh, (wf_host _ (so_wf _ Hso))).
  assert (Hentry : forall role requested seat,
            MemberRole_Valid role = true ->
            roleInvalid (mkMember u role requested seat (UpdatedAt s) (UpdatedAt s)) = false ->
            (role = MemberRoleParticipant -> nextSeat s = Some seat) ->
            Entry s (mkMember u role requested seat (UpdatedAt s) (UpdatedAt s))).
  { intros role requested seat Hrole Hinv Hseat. split; try by apply updated_canonical.
    - apply memberOK_iff. split_and!; try done. by apply entry_times.
    - unfold isParticipant. cbn [m_Role m_SeatIndex]. intros Hp. apply eqb_string_true, Hseat in Hp.
      pose proof (free_seat_capacity _ _ Hso Hp). by apply nextSeat_Some in Hp as (? & ? & _). }
  assert (Hcase : intent = MemberRoleParticipant \/ intent = MemberRoleSpectator).
  { unfold JoinIntent_Valid in Hint. rewrite orb_true_iff, !eqb_string_true in Hint. done. }
  unfold admitMember in H. cbv zeta in H. repeat inv_result H.
  - split; [|done]. by apply Hentry.
  - destruct (nextSeat s) as [z|] eqn:Ez; [|done]. inv_result H. split; [|done]. by apply Hentry.
  - split; [|done]. by apply Hentry.
  - split; [|done]. apply Hentry; [done| |done]. unfold roleInvalid. cbn. by destruct Hcase as [-> | ->].
Qed.

Lemma promote_Entry s i m m' :
  Sound s -> Members s !! i = Some m -> m_Role m = MemberRoleWaiting ->
  promote s m = Ok m' -> Entry s m' /\ m_UserID m' = m_UserID m.
Proof.
  intros Hso Hi Hrole H. pose proof (Sound_ListOK s Hso) as Hls.
  assert (Hin : m ∈ Members s) by by eapply list_elem_of_lookup_2.
  pose proof (lo_times _ _ Hls) as Ht. rewrite Forall_forall in Ht. destruct (Ht m Hin) as [Hj Hl].
  pose proof (lo_members _ _ Hls) as Hm. rewrite Forall_forall in Hm. specialize (Hm m Hin).
  assert (Hp : isParticipant m = false) by (unfold isParticipant; by rewrite Hrole).
  pose proof (ListOK_nonhost s m Hls Hin Hp) as Hh.
  apply memberOK_iff in Hm as (Hn & _ & Htimes & Hinv & _).
  unfold promote in H. repeat inv_result H.
  - destruct (nextSeat s) as [z|] eqn:Ez; [|done]. inv_result H. split; [|done].
    pose proof (free_seat_capacity _ _ Hso Ez) as Hcap. apply nextSeat_Some in Ez as (Hz & Hfree & _).
    split; try done. by apply memberOK_iff.
  - split; [|done]. split; try done. apply memberOK_iff. split_and!; try done.
    unfold roleInvalid in *. rewrite Hrole in Hinv. cbn in Hinv |- *. by apply orb_false_iff in Hinv as [_ Hz].
Qed.

Lemma queue_Entry s i m :
  Sound s -> Members s !! i = Some m -> isParticipant m = false -> Entry s (queueMember m).
Proof.
  intros Hso Hi Hp. pose proof (Sound_ListOK s Hso) as Hls.
  assert (Hin : m ∈ Members s) by by eapply list_elem_of_lookup_2.
  pose proof (lo_times _ _ Hls) as Ht. rewrite Forall_forall in Ht. destruct (Ht m Hin) as [Hj Hl].
  pose proof (lo_members _ _ Hls) as Hm. rewrite Forall_forall in Hm. specialize (Hm m Hin).
  pose proof (ListOK_nonhost s m Hls Hin Hp) as Hh. apply memberOK_iff in Hm as (Hn & _ & Htimes & _ & _).
  split; try done. by apply memberOK_iff.
Qed.

(** ** The snapshot a command builds *)
Lemma checkVersion_inv r v : checkVersion r v = Ok tt -> v = versionOf r.
Proof. unfold checkVersion. intros H. inv_result H. by to_prop. Qed.

Lemma checkHost_inv r h : checkHost r h = Ok tt -> h = HostUserID r.
Proof. unfold checkHost. intros H. inv_result H. by to_prop. Qed.

(** A present request belongs to somebody. *)
Lemma request_requester s :
  Sound s -> q_ID (PendingPause s) <> Nil -> q_RequestedByUserID (PendingPause s) <> Nil.
Proof.
  intros Hso Hq. pose proof (wf_pause _ (so_wf _ Hso)) as Hg. apply governance_iff in Hg.
  destruct Hg as [[E _]|[[(_ & _ & _ & ? & _) _]|[E _]]]; [|done|]; by rewrite E in Hq.
Qed.

Lemma no_pause s : Sound s -> a_ID (CurrentPause s) = Nil -> CurrentPause s = noPause.
Proof.
  intros Hso Ha. pose proof (wf_pause _ (so_wf _ Hso)) as Hg. apply governance_iff in Hg.
  by destruct Hg as [[_ ?]|[[_ ?]|[_ (_ & ? & _)]]].
Qed.

Lemma member_guard r u :
  match Member r u with
  | None => true
  | Some member => negb (String.eqb (m_Role member) MemberRoleParticipant)
  end = false -> exists m, memberFromSnapshot (Members r) u = Some m /\ isParticipant m = true.
Proof.
  rewrite Member_from. destruct (memberFromSnapshot _ _) as [m|]; [|done]. intros H. to_prop. exists m.
  split; [done|]. by apply eqb_string_true.
Qed.

Section Plan.
Context (r : Room) (Hso : Sound r) (at_ : Time) (Hat : canonicalTime at_) (Hle : UpdatedAt r <= at_)
        (Hnz : at_ <> 0) (Hnv : RoomVersion r <> maxUint64).

Let quiet : Room := touched r false at_.
Let moved : Room := touched r true at_.

Lemma quiet_Sound : Sound quiet.
Proof. by apply Sound_touched. Qed.

Lemma moved_Sound : MembershipVersion r <> maxUint64 -> Sound moved.
Proof. intros H. by apply Sound_touched. Qed.

Lemma remove_planned userID i m :
  MembershipVersion r <> maxUint64 -> userID <> HostUserID r ->
  Members r !! i = Some m -> m_UserID m = userID ->
  Sound (touched (dropRequestOf (r <| Members := deleteAt i (Members r) |>) userID) true at_).
Proof.
  intros Hm Hh Hi Hu. pose proof (moved_Sound Hm) as Hmv. rewrite deleteAt_delete. subst userID.
  assert (touched (dropRequestOf (r <| Members := delete i (Members r) |>) (m_UserID m)) true at_
          = dropRequestOf (moved <| Members := delete i (Members r) |>) (m_UserID m)) as ->.
  { unfold dropRequestOf.
    change (PendingPause (moved <| Members := delete i (Members r) |>)) with (PendingPause r).
    change (PendingPause (r <| Members := delete i (Members r) |>)) with (PendingPause r).
    by destruct (_ =? _). }
  by apply (Sound_remove moved i m).
Qed.

Lemma join_planned userID intent next changed :
  plan r (CmdJoin userID intent) (versionOf r) at_ = Ok (Some (next, changed)) ->
  MembershipVersion r <> maxUint64 -> Z.of_nat (length (Members r)) < ParticipantCapacity r + 1000000 ->
  changed = true /\ Sound (touched next changed at_).
Proof.
  intros H Hm Hb. pose proof (moved_Sound Hm) as Hmv. cbn [plan] in H. inv_result H. inv_result H. to_prop.
  destruct (memberIndex (Members r) userID) as [i|] eqn:Ei.
  - inv_result H. to_prop. injection H as <- <-. split; [done|].
    apply memberIndex_Some in Ei as (m & Hi & Hm' & Hu). rewrite Hm' in *.
    change (Sound (moved <| Members := <[i := queueMember m]> (Members moved) |>)).
    assert (Hp : isParticipant m = false).
    { unfold isParticipant. match goal with Hw : m_Role m = _ |- _ => by rewrite Hw end. }
    apply (Sound_replace moved i m); [done|done|done|done|]. by apply (queue_Entry moved i).
  - inv_result H. inv_result H. injection H as <- <-. split; [done|]. apply memberIndex_None in Ei.
    change (Sound (moved <| Members := Members moved ++ [value0] |>)).
    destruct (admit_Entry moved userID intent value0) as [He Hu]; try done.
    apply Sound_append; [done|done| |done]. by rewrite Hu.
Qed.

Lemma approve_planned hostUserID userID next changed :
  plan r (CmdApproveWaiting hostUserID userID) (versionOf r) at_ = Ok (Some (next, changed)) ->
  MembershipVersion r <> maxUint64 -> changed = true /\ Sound (touched next changed at_).
Proof.
  intros H Hm. pose proof (moved_Sound Hm) as Hmv. cbn [plan] in H. inv_result H. inv_result H. inv_result H.
  destruct (find_index _ _) as [i|] eqn:Ei; [|done]. inv_result H. injection H as <- <-. split; [done|].
  apply find_index_Some in Ei as (m & Hi & Hguard & _). to_prop.
  rewrite (list_lookup_total_correct _ _ _ Hi) in E2.
  change (Sound (moved <| Members := <[i := value0]> (Members moved) |>)).
  destruct (promote_Entry moved i m value0) as [He Hu]; [done|done|done|exact E2|].
  apply (Sound_replace moved i m); [done|done| |done|done]. unfold isParticipant.
  match goal with Hw : m_Role m = _ |- _ => by rewrite Hw end.
Qed.

(** Commands that leave the members alone. *)
Lemma settings_planned command next changed :
  plan r command (versionOf r) at_ = Ok (Some (next, changed)) -> changed = false ->
  Sound (touched next false at_).
Proof.
  intros H ->. pose proof quiet_Sound as Hq.
  destruct command; cbn [plan] in H; cbv zeta in H; repeat inv_result H;
    repeat match goal with Hi : (if ?b then Err _ else _) = Ok _ |- _ => destruct b eqn:?; [discriminate Hi|] end;
    to_prop; try done;
    try match goal with Hj : match memberIndex _ _ with _ => _ end = _ |- _ =>
      destruct (memberIndex _ _); repeat inv_result Hj; done end;
    try match goal with Hj : match find_index _ _ with _ => _ end = _ |- _ =>
      destruct (find_index _ _); repeat inv_result Hj; done end.
  - by apply (Sound_admission quiet Hq).
  - apply (Sound_selected quiet Hq); [apply TrimSpace_idem|done].
  - apply (Sound_start quiet Hq sessionID (TrimSpace gameID)); [assumption|assumption|]. intros Hst. change (Status quiet) with (Status r) in Hst.
    by rewrite Hst in *.
  - match goal with Hg : match Member _ _ with _ => _ end = false |- _ => apply member_guard in Hg as Hm end.
    apply (Sound_request quiet Hq requestID sessionID actorUserID); try done. by apply no_pause.
  - by apply (Sound_noRequest quiet Hq).
  - destruct value1 as [source requested]. injection H as <-.
    assert (Hsource : PauseSource_Valid source = true /\ (source = PauseSourceHost <-> requested = Nil)).
    { repeat inv_result E3; to_prop.
      - split; [done|]. split; [done|]. intros Hn.
        pose proof (request_requester r Hso) as Hreq. exfalso. apply Hreq; [congruence|done].
      - done. }
    destruct Hsource as [Hsv Hsr]. by apply (Sound_paused quiet Hq pauseID sessionID source requested hostUserID).
  - by apply (Sound_resumed quiet Hq).
  - match goal with Hg : match Member _ _ with _ => _ end = false |- _ => apply member_guard in Hg as (m & Hm & Hp) end.
    assert (touched (dropRequestOf (r <| HostUserID := targetUserID |>
                                      <| OwnershipEpoch := u64 (OwnershipEpoch r + 1) |>) targetUserID) false at_
            = dropRequestOf (quiet <| HostUserID := targetUserID |>
                               <| OwnershipEpoch := u64 (OwnershipEpoch quiet + 1) |>) targetUserID) as ->.
    { unfold dropRequestOf.
      change (PendingPause (quiet <| HostUserID := targetUserID |>
                              <| OwnershipEpoch := u64 (OwnershipEpoch quiet + 1) |>)) with (PendingPause r).
      change (PendingPause (r <| HostUserID := targetUserID |>
                              <| OwnershipEpoch := u64 (OwnershipEpoch r + 1) |>)) with (PendingPause r).
      by destruct (_ =? _). }
    by apply (Sound_transfer quiet targetUserID m).
  - apply (Sound_ended quiet Hq RoomStatusPostGame sessionID (ActiveGameID r) (SpectatorAdmission r)). left.
    pose proof (wf_lifecycle _ (so_wf _ Hso)) as Hl. apply lifecycle_iff in Hl.
    destruct (lf_playing _ Hl) as (_ & ? & _); [done|]. done.
  - apply (Sound_ended quiet Hq RoomStatusLobby Nil "" (SpectatorAdmission r)). right; left. done.
  - apply (Sound_ended quiet Hq RoomStatusClosed Nil "" AdmissionClosed). right; right. done.
  - by apply (Sound_close quiet Hq).
  - by apply (Sound_admission quiet Hq).
  - by apply (Sound_close quiet Hq).
Qed.

(** Whatever a command plans to commit is sound, so [Restore] accepts it. *)
Lemma plan_Sound command next changed :
  plan r command (versionOf r) at_ = Ok (Some (next, changed)) ->
  (changed = true -> MembershipVersion r <> maxUint64) ->
  Z.of_nat (length (Members r)) < ParticipantCapacity r + 1000000 ->
  Sound (touched next changed at_).
Proof.
  intros H Hm Hb. destruct changed; [specialize (Hm eq_refl)|by eapply settings_planned].
  destruct command; try (exfalso; cbn [plan] in H; cbv zeta in H; repeat inv_result H;
    try match type of H with (let (_, _) := ?v in _) = _ => destruct v end; done).
  - by eapply join_planned.
  - by eapply approve_planned.
  - cbn [plan] in H. cbv zeta in H. repeat inv_result H. to_prop.
    destruct (memberIndex _ _) as [i|] eqn:Ei; [|done]. injection H as <-.
    apply memberIndex_Some in Ei as (m & Hi & _ & Hu). by apply (remove_planned userID i m).
  - cbn [plan] in H. cbv zeta in H. repeat inv_result H. to_prop.
    destruct (memberIndex _ _) as [i|] eqn:Ei; [|done]. injection H as <-.
    apply memberIndex_Some in Ei as (m & Hi & _ & Hu). by apply (remove_planned userID i m).
Qed.
End Plan.

End RoomInvariant.
