(* ===== verification/RoomHistory.v ===== *)
(** * The room aggregate: histories

    What one accepted command does to the versions and to the fields it does not
    own, the soundness of every room a history reaches, and the fact that a
    version names one snapshot of a history. *)

From S2P Require Import Prelude GoLib Room RoomFacts RoomInvariant.

Module RoomHistory.
Import GoLib Room RoomFacts RoomInvariant.

(** ** Frames *)

(** The identity of a room, which no command changes. *)
Definition SameRoom (r r' : RoomSnapshot) : Prop :=
  ID r' = ID r /\ RoomCode r' = RoomCode r /\ visibility r' = visibility r /\
  ParticipantCapacity r' = ParticipantCapacity r /\ CreatedAt r' = CreatedAt r.

Lemma canonicalRoom_frame s :
  WF (canonicalRoom s) ->
  Members (canonicalRoom s) = canonicalMember <$> Members s /\ Status (canonicalRoom s) = Status s /\
  HostUserID (canonicalRoom s) = HostUserID s /\ ActiveSessionID (canonicalRoom s) = ActiveSessionID s /\
  LastFinishedSessionID (canonicalRoom s) = LastFinishedSessionID s /\
  ParticipantCapacity (canonicalRoom s) = ParticipantCapacity s /\ ID (canonicalRoom s) = ID s /\
  visibility (canonicalRoom s) = visibility s /\ RoomVersion (canonicalRoom s) = RoomVersion s /\
  MembershipVersion (canonicalRoom s) = MembershipVersion s.
Proof. intros _. rewrite canonicalRoom_checked. unfold withCanonical. by rewrite normalizeSnapshot_eq. Qed.

Lemma participants_canonical (ms : list MemberSnapshot) :
  participants (canonicalMember <$> ms) = canonicalMember <$> participants ms.
Proof.
  induction ms as [|m ms IH]; [done|]. rewrite fmap_cons, !participants_cons, IH.
  change (isParticipant (canonicalMember m)) with (isParticipant m). by destruct (isParticipant m).
Qed.

Lemma seats_canonical (ms : list MemberSnapshot) : seats (canonicalMember <$> ms) = seats ms.
Proof. unfold seats. rewrite participants_canonical, <- list_fmap_compose. done. Qed.

Lemma users_canonical (ms : list MemberSnapshot) : users (canonicalMember <$> ms) = users ms.
Proof. unfold users. rewrite <- list_fmap_compose. done. Qed.

(** What the snapshot a command builds keeps of the room. *)
Record Planned (r : Room) (next : RoomSnapshot) : Prop := {
  pl_same : SameRoom r next;
  pl_version : RoomVersion next = RoomVersion r;
  pl_membership : MembershipVersion next = MembershipVersion r;
  pl_epoch : OwnershipEpoch next = OwnershipEpoch r \/
             OwnershipEpoch r <> maxUint64 /\ OwnershipEpoch next = OwnershipEpoch r + 1;
  pl_seats : Forall (fun z => 0 <= z < ParticipantCapacity r) (seats (Members next));
}.

Lemma Planned_same r next :
  Sound r -> SameRoom r next -> RoomVersion next = RoomVersion r -> MembershipVersion next = MembershipVersion r ->
  OwnershipEpoch next = OwnershipEpoch r -> Members next = Members r -> Planned r next.
Proof. intros Hso Hs Hv Hm He Hms. split; try done; [by left|]. rewrite Hms. apply Hso. Qed.

Lemma seats_insert i (ms : list MemberSnapshot) m m' z :
  ms !! i = Some m -> z ∈ seats (<[i := m']> ms) -> z ∈ seats ms \/ (isParticipant m' = true /\ z = m_SeatIndex m').
Proof.
  intros Hi Hz. rewrite (insert_Permutation _ _ _ m' Hi) in Hz. rewrite (delete_Permutation _ _ _ Hi).
  unfold seats in *. rewrite participants_cons in *. destruct (isParticipant m').
  - rewrite fmap_cons in Hz. apply elem_of_cons in Hz as [->|Hz]; [by right|left].
    destruct (isParticipant m); [|done]. rewrite fmap_cons. by apply elem_of_cons; right.
  - left. destruct (isParticipant m); [|done]. rewrite fmap_cons. by apply elem_of_cons; right.
Qed.

Lemma seats_delete i (ms : list MemberSnapshot) m z :
  ms !! i = Some m -> z ∈ seats (delete i ms) -> z ∈ seats ms.
Proof.
  intros Hi Hz. rewrite (delete_Permutation _ _ _ Hi). unfold seats in *. rewrite participants_cons.
  destruct (isParticipant m); [|done]. rewrite fmap_cons. by apply elem_of_cons; right.
Qed.

Lemma admit_seat r u intent at_ m :
  admitMember r u intent at_ = Ok m -> isParticipant m = true -> 0 <= m_SeatIndex m < ParticipantCapacity r.
Proof.
  unfold admitMember. cbv zeta. intros H Hp. repeat inv_result H; try done.
  destruct (nextSeat r) as [z|] eqn:Ez; [|done]. injection H as <-. by apply nextSeat_Some in Ez as (? & _).
Qed.

Lemma promote_seat r m m' :
  promote r m = Ok m' -> isParticipant m' = true -> 0 <= m_SeatIndex m' < ParticipantCapacity r.
Proof.
  unfold promote. intros H Hp. repeat inv_result H; try done.
  destruct (nextSeat r) as [z|] eqn:Ez; [|done]. injection H as <-. by apply nextSeat_Some in Ez as (? & _).
Qed.

Lemma dropRequestOf_fields s u :
  Members (dropRequestOf s u) = Members s /\ SameRoom s (dropRequestOf s u) /\
  RoomVersion (dropRequestOf s u) = RoomVersion s /\ MembershipVersion (dropRequestOf s u) = MembershipVersion s /\
  OwnershipEpoch (dropRequestOf s u) = OwnershipEpoch s /\ Status (dropRequestOf s u) = Status s /\
  HostUserID (dropRequestOf s u) = HostUserID s /\ ActiveSessionID (dropRequestOf s u) = ActiveSessionID s /\
  LastFinishedSessionID (dropRequestOf s u) = LastFinishedSessionID s.
Proof. unfold dropRequestOf. by destruct (_ =? _). Qed.

(** ** What an accepted command does

    [Effect r at_ c next changed]: command [c] on room [r] at time [at_] commits
    the snapshot [next]. *)
Inductive Effect (r : Room) (at_ : Time) : Command -> RoomSnapshot -> bool -> Prop :=
| effQueue u i m :
    Members r !! i = Some m -> m_UserID m = u -> m_Role m = MemberRoleSpectator ->
    Status r = RoomStatusPlaying ->
    Effect r at_ (CmdJoin u JoinIntentParticipant)
      (r <| Members := <[i := queueMember m]> (Members r) |>) true
| effJoin u intent m :
    (u ∉ users (Members r)) -> Status r <> RoomStatusClosed -> JoinIntent_Valid intent = true ->
    admitMember r u intent at_ = Ok m ->
    Effect r at_ (CmdJoin u intent) (r <| Members := Members r ++ [m] |>) true
| effAdmission c participant spectator :
    c = CmdSetAdmission (HostUserID r) participant spectator \/
    (exists actor, c = CmdSetAdmissionByAdmin actor participant spectator) ->
    admissionMutable (Status r) = true ->
    Effect r at_ c (r <| ParticipantAdmission := participant |> <| SpectatorAdmission := spectator |>) false
| effSelect gameID :
    admissionMutable (Status r) = true ->
    Effect r at_ (CmdSelectGame (HostUserID r) gameID) (r <| SelectedGameID := TrimSpace gameID |>) false
| effApprove u i m m' :
    Members r !! i = Some m -> m_UserID m = u -> m_Role m = MemberRoleWaiting ->
    admissionMutable (Status r) = true -> promote r m = Ok m' ->
    Effect r at_ (CmdApproveWaiting (HostUserID r) u)
      (r <| Members := <[i := m']> (Members r) |>) true
| effStart sessionID gameID minimum maximum :
    sessionID <> Nil -> admissionMutable (Status r) = true ->
    minimum <= Z.of_nat (length (participants (Members r))) <= maximum ->
    Effect r at_ (CmdStartSession (HostUserID r) sessionID gameID minimum maximum)
      (r <| Status := RoomStatusPlaying |> <| ActiveSessionID := sessionID |>
         <| ActiveGameID := TrimSpace gameID |> <| ParticipantAdmission := AdmissionClosed |>
         <| LastFinishedSessionID := Nil |> <| LastFinishedGameID := ""%string |>) false
| effRequest u requestID m :
    Status r = RoomStatusPlaying -> Member r u = Some m -> isParticipant m = true ->
    u <> HostUserID r -> a_ID (CurrentPause r) = Nil -> q_ID (PendingPause r) = Nil ->
    Effect r at_ (CmdRequestPause u requestID (ActiveSessionID r))
      (r <| PendingPause := mkPending requestID (ActiveSessionID r) u at_ |>) false
| effReject :
    Effect r at_ (CmdRejectPause (HostUserID r) (q_ID (PendingPause r)))
      (r <| PendingPause := noRequest |>) false
| effPause pauseID requestID source requestedBy :
    Status r = RoomStatusPlaying -> a_ID (CurrentPause r) = Nil ->
    Effect r at_ (CmdPause (HostUserID r) pauseID (ActiveSessionID r) requestID)
      (r <| PendingPause := noRequest |>
         <| CurrentPause := mkPause pauseID (ActiveSessionID r) source requestedBy (HostUserID r) at_ |>) false
| effResume :
    Status r = RoomStatusPlaying ->
    Effect r at_ (CmdResume (HostUserID r) (ActiveSessionID r)) (r <| CurrentPause := noPause |>) false
| effTransfer target m :
    Status r <> RoomStatusClosed -> Member r target = Some m -> isParticipant m = true ->
    target <> HostUserID r -> OwnershipEpoch r <> maxUint64 ->
    Effect r at_ (CmdTransferHost (HostUserID r) target (OwnershipEpoch r))
      (dropRequestOf (r <| HostUserID := target |>
                        <| OwnershipEpoch := u64 (OwnershipEpoch r + 1) |>) target) false
| effFinish :
    Status r = RoomStatusPlaying ->
    Effect r at_ (CmdFinishSession (ActiveSessionID r))
      (endSession r RoomStatusPostGame (ActiveSessionID r) (ActiveGameID r)) false
| effCancel :
    Status r = RoomStatusPlaying ->
    Effect r at_ (CmdCancelSession (ActiveSessionID r)) (endSession r RoomStatusLobby Nil "") false
| effCancelClose :
    Status r = RoomStatusPlaying ->
    Effect r at_ (CmdCancelSessionAndClose (HostUserID r) (ActiveSessionID r))
      ((endSession r RoomStatusClosed Nil "") <| SpectatorAdmission := AdmissionClosed |>) false
| effRemove c u i m :
    c = CmdRemoveMember (HostUserID r) u \/ (exists actor, c = CmdRemoveMemberByAdmin actor u) ->
    Members r !! i = Some m -> m_UserID m = u -> u <> HostUserID r ->
    Effect r at_ c (dropRequestOf (r <| Members := delete i (Members r) |>) u) true
| effClose c :
    c = CmdClose (HostUserID r) \/ (exists actor, c = CmdCloseWaitingByAdmin actor) ->
    admissionMutable (Status r) = true ->
    Effect r at_ c
      (r <| Status := RoomStatusClosed |> <| ParticipantAdmission := AdmissionClosed |>
         <| SpectatorAdmission := AdmissionClosed |>
         <| PendingPause := noRequest |> <| CurrentPause := noPause |>) false.

(** Opens the guards of [plan r c v at_ = Ok _]. *)
Ltac guards H :=
  cbn [plan] in H; cbv zeta in H;
  repeat match type of H with
  | bind_result ?c _ = Ok _ => inv_result H
  | (if ?b then _ else _) = Ok _ => inv_result H
  | (let (_, _) := ?v in _) = _ => destruct v
  end;
  repeat match goal with Hi : bind_result (checkHost _ _) _ = Ok _ |- _ => inv_result Hi end;
  repeat match goal with Hi : (if ?b then Err _ else _) = Ok _ |- _ => inv_result Hi end;
  repeat match goal with
  | v : unit |- _ => destruct v
  | Hi : checkVersion _ _ = Ok tt |- _ => apply checkVersion_inv in Hi
  | Hi : checkHost _ _ = Ok tt |- _ => apply checkHost_inv in Hi
  end; to_prop; subst.

Lemma plan_version r c v at_ todo : plan r c v at_ = Ok todo -> v = versionOf r.
Proof. intros H. destruct c; guards H; done. Qed.

Lemma idle_status r :
  WF r -> Status r <> RoomStatusPlaying -> Status r <> RoomStatusClosed -> admissionMutable (Status r) = true.
Proof.
  intros Hwf Hp Hc. pose proof (wf_header _ Hwf) as Hh. apply header_iff, hd_status in Hh.
  unfold RoomStatus_Valid in Hh. unfold admissionMutable. rewrite !orb_true_iff, !eqb_string_true in *. tauto.
Qed.

(** The guards of a command, inverted once and for all. *)
Lemma plan_Effect r c v at_ next changed :
  WF r -> plan r c v at_ = Ok (Some (next, changed)) -> Effect r at_ c next changed.
Proof.
  intros Hwf H. destruct c; guards H;
    try match type of H with match memberIndex ?l ?u with _ => _ end = _ => destruct (memberIndex l u) as [i|] eqn:Ei end;
    try match type of H with match find_index ?p ?l with _ => _ end = _ => destruct (find_index p l) as [i|] eqn:Ei end;
    try discriminate H; repeat match type of H with
      | bind_result ?c _ = Ok _ => inv_result H
      | (if ?b then _ else _) = Ok _ => inv_result H end; to_prop;
    injection H as <- <-;
    try (apply memberIndex_Some in Ei as (m & Hi & Hit & Hu); try rewrite Hit in *).
  - subst. by eapply effQueue.
  - apply memberIndex_None in Ei. by apply effJoin.
  - apply effAdmission; [by left|done].
  - by apply effSelect.
  - apply find_index_Some in Ei as (m & Hi & Hg & _). rewrite (list_lookup_total_correct _ _ _ Hi) in *. to_prop.
    by eapply effApprove.
  - apply effStart; [done| |].
    + match goal with Hg : _ && _ = false |- _ => revert Hg end.
      unfold admissionMutable. by destruct (String.eqb _ _), (String.eqb _ _).
    + rewrite length_fmap in *. lia.
  - match goal with Hg : match Member _ _ with _ => _ end = false |- _ => apply member_guard in Hg as (m & Hm & Hp) end.
    by eapply effRequest.
  - apply effReject.
  - by apply effPause.
  - by apply effResume.
  - match goal with Hg : match Member _ _ with _ => _ end = false |- _ => apply member_guard in Hg as (m & Hm & Hp) end.
    by eapply effTransfer.
  - by apply effFinish.
  - by apply effCancel.
  - by apply effCancelClose.
  - rewrite deleteAt_delete. eapply effRemove; [by left|done|done|done].
  - apply effClose; [by left|by apply idle_status].
  - apply effAdmission; [by right; eexists|done].
  - rewrite deleteAt_delete. eapply effRemove; [by right; eexists|done|done|done].
  - apply effClose; [by right; eexists|by apply idle_status].
Qed.

Lemma Effect_Planned r at_ c next changed : Sound r -> Effect r at_ c next changed -> Planned r next.
Proof.
  intros Hso Heff. pose proof (so_seats _ Hso) as Hs. pose proof (so_epoch _ Hso) as He.
  destruct Heff; try (by apply Planned_same).
  - split; try done; [by left|]. rewrite Forall_forall in Hs |- *. intros z Hz.
    eapply seats_insert in Hz as [Hz|[Hp _]]; [by apply Hs|done|done].
  - split; try done; [by left|]. rewrite Forall_forall in Hs |- *. intros z Hz.
    change (z ∈ seats (Members r ++ [m])) in Hz. unfold seats, participants in Hz.
    rewrite List.filter_app, fmap_app, elem_of_app in Hz. destruct Hz as [Hz|Hz]; [by apply Hs|].
    cbn in Hz. destruct (isParticipant m) eqn:Ep; [|by apply not_elem_of_nil in Hz].
    apply list_elem_of_singleton in Hz as ->. by eapply admit_seat.
  - split; try done; [by left|]. rewrite Forall_forall in Hs |- *. intros z Hz.
    eapply seats_insert in Hz as [Hz|[Hp ->]]; [by apply Hs|by eapply promote_seat|done].
  - set (t := r <| HostUserID := target |> <| OwnershipEpoch := u64 (OwnershipEpoch r + 1) |>).
    destruct (dropRequestOf_fields t target) as (Hm & Hsm & Hv & Hmv & Hep & _).
    split; [exact Hsm|by rewrite Hv|by rewrite Hmv| |by rewrite Hm]. right. split; [done|].
    rewrite Hep. apply (u64_succ (OwnershipEpoch r)); [lia|done].
  - set (t := r <| Members := delete i (Members r) |>).
    destruct (dropRequestOf_fields t u) as (Hm & Hsm & Hv & Hmv & Hep & _).
    split; [exact Hsm|by rewrite Hv|by rewrite Hmv|left; exact Hep|]. rewrite Hm.
    rewrite Forall_forall in Hs |- *. intros z Hz. eapply seats_delete in Hz; [|done]. by apply Hs.
Qed.

(** ** One accepted command *)

(** What [commit] returns, up to the canonical form. *)
Record Committed (r : Room) (next : RoomSnapshot) (changed : bool) (at_ : Time) (r' : Room) : Prop := {
  cm_room : r' = canonicalRoom (touched next changed at_);
  cm_wf : WF r';
  cm_planned : Planned r next;
  cm_nomax : RoomVersion r <> maxUint64 /\ (changed = true -> MembershipVersion r <> maxUint64);
}.

Lemma exec_inv r c v at_ r' :
  Sound r -> exec r c v at_ = Ok r' ->
  v = versionOf r /\
  (r' = r \/
   exists next changed, Effect r (canonicalRoomTime at_) c next changed /\
     Committed r next changed (canonicalRoomTime at_) r').
Proof.
  rewrite exec_plan. unfold execute. intros Hso H. inv_result H. pose proof (plan_version _ _ _ _ _ E) as ->.
  split; [done|]. destruct value as [[next changed]|]; [right|left; congruence].
  exists next, changed. pose proof (plan_Effect _ _ _ _ _ _ (so_wf _ Hso) E) as He. split; [done|].
  pose proof (Effect_Planned _ _ _ _ _ Hso He) as Hp. apply commit_inv in H as (Hv & Hm & Hr & Hwf).
  pose proof (pl_version _ _ Hp) as Ev. pose proof (pl_membership _ _ Hp) as Em. rewrite Ev in Hv. rewrite Em in Hm.
  split; [|done|done|done]. rewrite Hr. unfold touched. f_equal. rewrite Ev, Em.
  pose proof (so_version _ Hso). pose proof (so_membership _ Hso). rewrite (u64_succ (RoomVersion r)) by (lia || done).
  destruct changed; [|done]. rewrite u64_succ; [done|lia|auto].
Qed.

Lemma canonical_epoch s : OwnershipEpoch s <> 0 -> OwnershipEpoch (canonicalRoom s) = OwnershipEpoch s.
Proof.
  intros H. rewrite canonicalRoom_checked. unfold withCanonical. rewrite normalizeSnapshot_eq.
  change ((if OwnershipEpoch s =? 0 then 1 else OwnershipEpoch s) = OwnershipEpoch s).
  by rewrite (proj2 (Z.eqb_neq _ _) H).
Qed.

(** The fields of the committed room. *)
Lemma Committed_fields r next changed at_ r' :
  Sound r -> Committed r next changed at_ r' ->
  Members r' = canonicalMember <$> Members next /\ Status r' = Status next /\
  HostUserID r' = HostUserID next /\ ActiveSessionID r' = ActiveSessionID next /\
  LastFinishedSessionID r' = LastFinishedSessionID next /\
  ParticipantCapacity r' = ParticipantCapacity r /\ RoomVersion r' = RoomVersion r + 1 /\
  MembershipVersion r' = MembershipVersion r + (if changed then 1 else 0) /\
  OwnershipEpoch r' = OwnershipEpoch next /\ ID r' = ID r /\ visibility r' = visibility r.
Proof.
  intros Hso [Hr Hwf [(Hid & _ & Hvis & Hcap & _) Hv Hm Hep _] _]. pose proof (so_epoch _ Hso).
  subst r'. destruct (canonicalRoom_frame _ Hwf) as (E1 & E2 & E3 & E4 & E5 & E6 & E7 & E8 & E9 & E10).
  rewrite canonical_epoch by (change (OwnershipEpoch next <> 0); lia).
  rewrite E1, E2, E3, E4, E5, E6, E7, E8, E9, E10. split_and!; try done.
  - change (RoomVersion next + 1 = RoomVersion r + 1). by rewrite Hv.
  - change ((if changed then MembershipVersion next + 1 else MembershipVersion next)
            = MembershipVersion r + (if changed then 1 else 0)). rewrite Hm. destruct changed; lia.
Qed.

Lemma Committed_Sound r next changed at_ r' : Sound r -> Committed r next changed at_ r' -> Sound r'.
Proof.
  intros Hso Hc. destruct (Committed_fields _ _ _ _ _ Hso Hc) as (Em & _ & _ & _ & _ & Ec & Ev & Emv & Ee & _).
  destruct Hc as [_ Hwf [_ _ _ Hep Hs] [Hv Hm]]. destruct Hso as [_ _ Hv' Hm' He'].
  split; [done| | | |].
  - by rewrite Em, Ec, seats_canonical.
  - rewrite Ev. lia.
  - rewrite Emv. destruct changed; [|lia]. specialize (Hm eq_refl). lia.
  - rewrite Ee. lia.
Qed.

Lemma exec_Sound r c v at_ r' : Sound r -> exec r c v at_ = Ok r' -> Sound r'.
Proof.
  intros Hso H. destruct (exec_inv _ _ _ _ _ Hso H) as (_ & [->|(next & changed & _ & Hc)]); [done|].
  by eapply Committed_Sound.
Qed.

(** ** Histories *)

(** A created room is sound. *)
Lemma NewWithAdmission_Sound id host code vis capacity padm sadm at_ r :
  0 <= capacity -> NewWithAdmission id host code vis capacity padm sadm at_ = Ok r -> Sound r.
Proof.
  unfold NewWithAdmission. cbv zeta. intros Hcap H. do 3 inv_result H.
  apply Restore_iff in H as [-> Hwf]. to_prop.
  match goal with Hn : capacity <> 0 |- _ => rename Hn into Hnz end.
  destruct (canonicalRoom_frame _ Hwf) as (E1 & _ & _ & _ & _ & E6 & _ & _ & E9 & E10).
  split; [done| | | |].
  - rewrite E1, E6, seats_canonical. change (Forall (fun z => 0 <= z < capacity) [0]).
    apply Forall_singleton. lia.
  - rewrite E9. done.
  - rewrite E10. done.
  - rewrite canonicalRoom_checked. unfold withCanonical. by rewrite normalizeSnapshot_eq.
Qed.

(** One accepted command, and the rooms a created room can become. *)
Definition accepts (r r' : Room) : Prop := exists c v at_, exec r c v at_ = Ok r'.

Inductive built : Room -> Prop :=
| built_new id host code vis capacity padm sadm at_ r :
    0 <= capacity -> NewWithAdmission id host code vis capacity padm sadm at_ = Ok r -> built r
| built_step r r' : built r -> accepts r r' -> built r'.

Lemma built_Sound r : built r -> Sound r.
Proof.
  induction 1 as [* Hcap H|r r' _ IH (c & v & at_ & H)]; [by eapply NewWithAdmission_Sound|].
  by eapply exec_Sound.
Qed.

(** A property that holds between a sound room and the rooms it commits holds
    along histories. *)
Lemma history_ind (P : Room -> Room -> Prop) :
  (forall r, P r r) -> (forall r1 r2 r3, P r1 r2 -> P r2 r3 -> P r1 r3) ->
  (forall r c at_ next changed r', Sound r -> Sound r' -> Effect r at_ c next changed ->
     Committed r next changed at_ r' -> P r r') ->
  forall r r', Sound r -> rtc accepts r r' -> P r r'.
Proof.
  intros Hrefl Htrans Hstep r r' Hso H. revert Hso.
  induction H as [r|r1 r2 r3 (c & v & at_ & H) _ IH]; intros Hso; [apply Hrefl|].
  pose proof (exec_Sound _ _ _ _ _ Hso H) as Hso2. eapply Htrans; [|by apply IH].
  destruct (exec_inv _ _ _ _ _ Hso H) as (_ & [->|(next & changed & He & Hc)]); [apply Hrefl|].
  by eapply Hstep.
Qed.

(** Versions only grow, and a version is never used twice. *)
Lemma history_versions r r' :
  Sound r -> rtc accepts r r' ->
  r' = r \/ RoomVersion r < RoomVersion r' /\ MembershipVersion r <= MembershipVersion r'.
Proof.
  apply (history_ind (fun r r' =>
    r' = r \/ RoomVersion r < RoomVersion r' /\ MembershipVersion r <= MembershipVersion r')).
  - by left.
  - intros r1 r2 r3 [->|[H1 H2]] [->|[H3 H4]]; [by left|by right|by right|right; lia].
  - intros r1 c at_ next changed r2 Hso _ _ Hc. right.
    destruct (Committed_fields _ _ _ _ _ Hso Hc) as (_ & _ & _ & _ & _ & _ & -> & -> & _).
    destruct changed; lia.
Qed.

(** The host of the snapshot a command commits. *)
Lemma Effect_host r at_ c next changed :
  Sound r -> Effect r at_ c next changed ->
  HostUserID next = HostUserID r /\ OwnershipEpoch next = OwnershipEpoch r \/
  OwnershipEpoch next = OwnershipEpoch r + 1.
Proof.
  intros Hso He. pose proof (so_epoch _ Hso). destruct He; try (by left).
  - right. match goal with |- OwnershipEpoch (dropRequestOf ?t ?u) = _ =>
      destruct (dropRequestOf_fields t u) as (_ & _ & _ & _ & -> & _) end.
    apply (u64_succ (OwnershipEpoch r)); [lia|done].
  - left. match goal with |- context [dropRequestOf ?t ?u] =>
      destruct (dropRequestOf_fields t u) as (_ & _ & _ & _ & -> & _ & -> & _) end. done.
Qed.

Lemma history_epoch r r' :
  Sound r -> rtc accepts r r' ->
  HostUserID r' = HostUserID r /\ OwnershipEpoch r' = OwnershipEpoch r \/
  OwnershipEpoch r < OwnershipEpoch r'.
Proof.
  apply (history_ind (fun r r' => HostUserID r' = HostUserID r /\ OwnershipEpoch r' = OwnershipEpoch r \/
    OwnershipEpoch r < OwnershipEpoch r')).
  - by left.
  - intros r1 r2 r3 [[H1 H2]|H1] [[H3 H4]|H3]; [left; split; congruence|right; lia|right; lia|right; lia].
  - intros r1 c at_ next changed r2 Hso _ He Hc.
    destruct (Committed_fields _ _ _ _ _ Hso Hc) as (_ & _ & -> & _ & _ & _ & _ & _ & -> & _).
    destruct (Effect_host _ _ _ _ _ Hso He) as [[-> ->]| ->]; [by left|right; lia].
Qed.

End RoomHistory.
