(* ===== verification/RoomSpec.v ===== *)
(** * The room aggregate: abstract specification and refinement

    What a room promises to its clients: a phase, a host, admission policies and
    one place per member.  [spec_step] gives the rules; [exec_refines] shows that
    every command [platform/room] accepts is one of them, or leaves the table as
    it is.  The guarantees about seats during a session are proved on the rules. *)

From stdpp Require Import gmap.
From S2P Require Import Prelude GoLib Room RoomFacts RoomInvariant RoomHistory.

Module RoomSpec.
Import GoLib Room RoomFacts RoomInvariant RoomHistory.

(** ** The table *)
Inductive Phase := Lobby | Playing (session : UUID) | PostGame (session : UUID) | Closed.
Inductive Policy := Open | Approval | Shut.
Inductive Wish := ToPlay | ToWatch.
Inductive Place := Seat (index : Z) | Watching | Queued (wish : Wish).

Record Table := mkTable {
  t_phase : Phase;
  t_host : UUID;
  t_capacity : Z;
  t_playing : Policy;
  t_watching : Policy;
  t_places : gmap UUID Place;
}.

#[global] Instance Table_eta : Eta Table := fun t =>
  mkTable (t_phase t) (t_host t) (t_capacity t) (t_playing t) (t_watching t) (t_places t).

Definition idle (p : Phase) : Prop := p = Lobby \/ exists s, p = PostGame s.

(** The least seat nobody has. *)
Definition LeastFree (t : Table) (z : Z) : Prop :=
  0 <= z < t_capacity t /\ (forall u, t_places t !! u <> Some (Seat z)) /\
  forall k, 0 <= k < z -> exists u, t_places t !! u = Some (Seat k).

Definition policyFor (t : Table) (w : Wish) : Policy :=
  match w with ToPlay => t_playing t | ToWatch => t_watching t end.

(** ** The rules *)
Inductive spec_step (t : Table) : Table -> Prop :=
| spSit u z :
    t_places t !! u = None -> idle (t_phase t) -> t_playing t = Open -> LeastFree t z ->
    spec_step t (t <| t_places := <[u := Seat z]> (t_places t) |>)
| spWatch u :
    t_places t !! u = None -> t_phase t <> Closed -> t_watching t = Open ->
    spec_step t (t <| t_places := <[u := Watching]> (t_places t) |>)
| spWait u w :
    t_places t !! u = None -> t_phase t <> Closed ->
    policyFor t w = Approval \/ w = ToPlay /\ (exists s, t_phase t = Playing s) ->
    spec_step t (t <| t_places := <[u := Queued w]> (t_places t) |>)
| spQueue u s :
    t_places t !! u = Some Watching -> t_phase t = Playing s ->
    spec_step t (t <| t_places := <[u := Queued ToPlay]> (t_places t) |>)
| spSeatWaiting u z :
    t_places t !! u = Some (Queued ToPlay) -> idle (t_phase t) -> LeastFree t z ->
    spec_step t (t <| t_places := <[u := Seat z]> (t_places t) |>)
| spShowIn u :
    t_places t !! u = Some (Queued ToWatch) -> idle (t_phase t) ->
    spec_step t (t <| t_places := <[u := Watching]> (t_places t) |>)
| spPolicies p w :
    idle (t_phase t) -> spec_step t (t <| t_playing := p |> <| t_watching := w |>)
| spStart s :
    s <> Nil -> idle (t_phase t) -> spec_step t (t <| t_phase := Playing s |> <| t_playing := Shut |>)
| spFinish s :
    t_phase t = Playing s -> spec_step t (t <| t_phase := PostGame s |> <| t_playing := Shut |>)
| spCancel s :
    t_phase t = Playing s -> spec_step t (t <| t_phase := Lobby |> <| t_playing := Shut |>)
| spClose :
    t_phase t <> Closed ->
    spec_step t (t <| t_phase := Closed |> <| t_playing := Shut |> <| t_watching := Shut |>)
| spHandOver u z :
    t_places t !! u = Some (Seat z) -> u <> t_host t -> t_phase t <> Closed ->
    spec_step t (t <| t_host := u |>)
| spLeave u p :
    t_places t !! u = Some p -> u <> t_host t ->
    spec_step t (t <| t_places := delete u (t_places t) |>).

(** ** Consequences of the rules *)
Record TableOK (t : Table) : Prop := {
  tk_host : exists z, t_places t !! t_host t = Some (Seat z);
  tk_seats : forall u z, t_places t !! u = Some (Seat z) -> 0 <= z < t_capacity t;
  tk_apart : forall u u' z, t_places t !! u = Some (Seat z) -> t_places t !! u' = Some (Seat z) -> u = u';
}.

(** A member other than the host may take any place but a seat somebody has. *)
Lemma TableOK_place t u p :
  TableOK t -> u <> t_host t ->
  (forall z, p = Seat z -> 0 <= z < t_capacity t /\ forall u', t_places t !! u' <> Some (Seat z)) ->
  TableOK (t <| t_places := <[u := p]> (t_places t) |>).
Proof.
  intros [[z Hh] Hs Ha] Hu Hp. split; cbn.
  - exists z. by rewrite lookup_insert_ne.
  - intros u' z' H. apply lookup_insert_Some in H as [[<- ->]|[_ H]]; [by apply Hp|by eapply Hs].
  - intros u1 u2 z' H1 H2. apply lookup_insert_Some in H1 as [[<- ->]|[_ H1]], H2 as [[<- E2]|[_ H2]];
      [done| | |by eapply Ha].
    + by destruct (proj2 (Hp _ eq_refl) u2).
    + subst p. by destruct (proj2 (Hp _ eq_refl) u1).
Qed.

Lemma spec_step_TableOK t t' : spec_step t t' -> TableOK t -> TableOK t'.
Proof.
  intros H Hok.
  assert (Hhost : forall u, t_places t !! u = None -> u <> t_host t).
  { intros u Hu ->. destruct (tk_host _ Hok) as [z Hz]. congruence. }
  assert (Hplace : forall u p, t_places t !! u = Some p -> (forall z, p <> Seat z) -> u <> t_host t).
  { intros u p Hu Hp ->. destruct (tk_host _ Hok) as [z Hz]. apply (Hp z). congruence. }
  destruct H; try (apply TableOK_place; [done|by eauto|]; try done);
    try (destruct Hok as [? ? ?]; by split).
  - intros z' [= <-]. destruct H2 as (? & ? & _). done.
  - intros z' [= <-]. destruct H1 as (? & ? & _). done.
  - destruct Hok as [? ? ?]. split; [by exists z|done|done].
  - destruct Hok as [[z Hz] Hs Ha]. split; cbn.
    + exists z. by rewrite lookup_delete_ne.
    + intros u' z' Hu'. apply lookup_delete_Some in Hu' as [_ Hu']. by eapply Hs.
    + intros u1 u2 z' H1 H2. apply lookup_delete_Some in H1 as [_ H1], H2 as [_ H2]. by eapply Ha.
Qed.

(** While a session is played nobody takes a seat or changes seats. *)
Lemma spec_step_seats t t' s u z :
  spec_step t t' -> t_phase t = Playing s -> t_places t' !! u = Some (Seat z) -> t_places t !! u = Some (Seat z).
Proof.
  intros H Hp.
  assert (Hni : idle (t_phase t) -> False) by (rewrite Hp; intros [?|[? ?]]; done).
  destruct H; try done; unfold update; cbn [eta Table_eta t_places]; try (by intros; exfalso; auto);
    try (intros Hl; apply lookup_insert_Some in Hl as [[_ ?]|[_ ?]]; done).
  intros Hl. by apply lookup_delete_Some in Hl as [_ ?].
Qed.

(** Closed tables stay closed, and admit nobody. *)
Lemma spec_step_closed t t' :
  spec_step t t' -> t_phase t = Closed ->
  t_phase t' = Closed /\ t_host t' = t_host t /\ t_places t' ⊆ t_places t.
Proof.
  intros H Hc. assert (Hni : idle (t_phase t) -> False) by (rewrite Hc; intros [?|[? ?]]; done).
  destruct H; try congruence; try (by exfalso; auto). split_and!; [done|done|apply delete_subseteq].
Qed.

(** ** The table of a room *)
Definition wishOf (role : string) : Wish :=
  if String.eqb role MemberRoleParticipant then ToPlay else ToWatch.

Definition placeOf (m : MemberSnapshot) : Place :=
  if isParticipant m then Seat (m_SeatIndex m)
  else if String.eqb (m_Role m) MemberRoleWaiting then Queued (wishOf (m_RequestedRole m))
  else Watching.

Definition phaseOf (r : Room) : Phase :=
  if String.eqb (Status r) RoomStatusLobby then Lobby
  else if String.eqb (Status r) RoomStatusPlaying then Playing (ActiveSessionID r)
  else if String.eqb (Status r) RoomStatusPostGame then PostGame (LastFinishedSessionID r)
  else Closed.

Definition policyOf (mode : string) : Policy :=
  if String.eqb mode AdmissionOpen then Open
  else if String.eqb mode AdmissionApproval then Approval else Shut.

Definition placesOf (ms : list MemberSnapshot) : gmap UUID Place :=
  list_to_map ((fun m => (m_UserID m, placeOf m)) <$> ms).

Definition tableOf (r : Room) : Table :=
  mkTable (phaseOf r) (HostUserID r) (ParticipantCapacity r) (policyOf (ParticipantAdmission r))
    (policyOf (SpectatorAdmission r)) (placesOf (Members r)).

(** ** Member lists and places *)
Lemma keys_users ms : ((fun m => (m_UserID m, placeOf m)) <$> ms).*1 = users ms.
Proof. unfold users. rewrite <- list_fmap_compose. done. Qed.

Lemma places_cons m ms : placesOf (m :: ms) = <[m_UserID m := placeOf m]> (placesOf ms).
Proof. done. Qed.

Lemma places_Permutation ms ms' : NoDup (users ms) -> ms ≡ₚ ms' -> placesOf ms = placesOf ms'.
Proof.
  intros Hnd H. apply list_to_map_proper; [by rewrite keys_users|by apply fmap_Permutation].
Qed.

Lemma places_None ms u : (u ∉ users ms) <-> placesOf ms !! u = None.
Proof. unfold placesOf. rewrite <- not_elem_of_list_to_map, keys_users. done. Qed.

Lemma places_Some ms u p :
  NoDup (users ms) -> placesOf ms !! u = Some p <-> exists m, m ∈ ms /\ m_UserID m = u /\ placeOf m = p.
Proof.
  intros Hnd. unfold placesOf. rewrite <- elem_of_list_to_map by (by rewrite keys_users).
  rewrite list_elem_of_fmap. split.
  - intros (m & [= -> ->] & Hm). by exists m.
  - intros (m & Hm & <- & <-). by exists m.
Qed.

Lemma places_snoc ms m :
  (m_UserID m ∉ users ms) -> NoDup (users ms) ->
  placesOf (ms ++ [m]) = <[m_UserID m := placeOf m]> (placesOf ms).
Proof.
  intros Hfresh Hnd. rewrite <- places_cons. symmetry. apply places_Permutation.
  - unfold users. rewrite fmap_cons. by apply NoDup_cons.
  - rewrite Permutation_app_comm. done.
Qed.

Lemma places_delete ms i m :
  NoDup (users ms) -> ms !! i = Some m -> placesOf (delete i ms) = delete (m_UserID m) (placesOf ms).
Proof.
  intros Hnd Hi. pose proof (delete_Permutation _ _ _ Hi) as Hp.
  rewrite (places_Permutation _ _ Hnd Hp), places_cons. rewrite Hp in Hnd.
  unfold users in Hnd. rewrite fmap_cons in Hnd. apply NoDup_cons in Hnd as [Hn _].
  rewrite delete_insert_id; [done|]. by apply places_None.
Qed.

Lemma places_insert ms i m m' :
  NoDup (users ms) -> ms !! i = Some m -> m_UserID m' = m_UserID m ->
  placesOf (<[i := m']> ms) = <[m_UserID m := placeOf m']> (placesOf ms).
Proof.
  intros Hnd Hi Hu. pose proof (insert_Permutation i ms m m' Hi) as Hp.
  rewrite (places_Permutation (<[i := m']> ms) (m' :: delete i ms)), places_cons; [| |exact Hp].
  - by rewrite Hu, (places_delete _ _ _ Hnd Hi), insert_delete_eq.
  - rewrite Hp. rewrite (delete_Permutation _ _ _ Hi) in Hnd. unfold users in *.
    rewrite !fmap_cons in *. by rewrite Hu.
Qed.

Lemma places_canonical ms : placesOf (canonicalMember <$> ms) = placesOf ms.
Proof. unfold placesOf. rewrite <- list_fmap_compose. done. Qed.

Lemma seats_places ms z :
  NoDup (users ms) -> z ∈ seats ms <-> exists u, placesOf ms !! u = Some (Seat z).
Proof.
  intros Hnd. unfold seats, participants. rewrite list_elem_of_fmap. split.
  - intros (m & -> & Hm). rewrite list_elem_of_In, filter_In, <- list_elem_of_In in Hm. destruct Hm as [Hm Hp].
    exists (m_UserID m). apply places_Some; [done|]. exists m. unfold placeOf. by rewrite Hp.
  - intros (u & Hu). apply places_Some in Hu as (m & Hm & _ & Hpl); [|done]. unfold placeOf in Hpl.
    destruct (isParticipant m) eqn:Hp; [|by destruct (String.eqb _ _)]. injection Hpl as <-. exists m.
    split; [done|]. by rewrite list_elem_of_In, filter_In, <- list_elem_of_In.
Qed.

Lemma nextSeat_LeastFree r z : Sound r -> nextSeat r = Some z -> LeastFree (tableOf r) z.
Proof.
  intros Hso (Hr & Hfree & Hleast)%nextSeat_Some. pose proof (wf_users _ (so_wf _ Hso)) as Hnd.
  split_and!; [apply Hr|apply Hr| |].
  - intros u Hu. apply Hfree, seats_places; [done|]. by exists u.
  - intros k Hk. apply (seats_places (Members r)); [done|]. by apply Hleast.
Qed.

(** ** The simulation *)
Lemma table_canonical s : tableOf (canonicalRoom s) = tableOf s.
Proof.
  rewrite canonicalRoom_checked. unfold withCanonical. rewrite normalizeSnapshot_eq. unfold tableOf.
  f_equal. apply places_canonical.
Qed.

Lemma table_touched s changed at_ : tableOf (touched s changed at_) = tableOf s.
Proof. reflexivity. Qed.

Lemma mutable_idle_phase r : admissionMutable (Status r) = true -> idle (phaseOf r).
Proof. intros [H|H]%mutable_cases; unfold phaseOf; rewrite H; [by left|right; by eexists]. Qed.

Lemma playing_phase r : Status r = RoomStatusPlaying -> phaseOf r = Playing (ActiveSessionID r).
Proof. intros H. unfold phaseOf. by rewrite H. Qed.

Lemma phase_open r : WF r -> Status r <> RoomStatusClosed -> phaseOf r <> Closed.
Proof.
  intros Hwf Hn. pose proof (wf_header _ Hwf) as Hh. apply header_iff, hd_status in Hh.
  unfold RoomStatus_Valid in Hh. rewrite !orb_true_iff, !eqb_string_true in Hh. unfold phaseOf.
  destruct Hh as [[[E|E]|E]|E]; [by rewrite E..|done].
Qed.

Lemma open_idle r : WF r -> Status r <> RoomStatusClosed -> Status r <> RoomStatusPlaying -> idle (phaseOf r).
Proof. intros. by apply mutable_idle_phase, idle_status. Qed.

(** What [admitMember] decides, by intent. *)
Lemma admit_cases r u intent at_ m :
  JoinIntent_Valid intent = true -> admitMember r u intent at_ = Ok m ->
  m_UserID m = u /\
  ((placeOf m = Queued ToPlay /\ (Status r = RoomStatusPlaying \/ policyOf (ParticipantAdmission r) = Approval)) \/
   (Status r <> RoomStatusPlaying /\ policyOf (ParticipantAdmission r) = Open /\
    exists z, placeOf m = Seat z /\ nextSeat r = Some z) \/
   (placeOf m = Watching /\ policyOf (SpectatorAdmission r) = Open) \/
   (placeOf m = Queued ToWatch /\ policyOf (SpectatorAdmission r) = Approval)).
Proof.
  unfold JoinIntent_Valid. rewrite orb_true_iff, !eqb_string_true. intros Hcase H.
  unfold admitMember, admissionFor in H. unfold policyOf.
  destruct Hcase as [-> | ->].
  - change (String.eqb JoinIntentParticipant JoinIntentSpectator) with false in H.
    change (String.eqb JoinIntentParticipant JoinIntentParticipant) with true in H. cbv zeta in H.
    rewrite andb_true_r in H. destruct (String.eqb (Status r) _) eqn:Ep; to_prop.
    { injection H as <-. split; [done|]. left. split; [done|by left]. }
    destruct (String.eqb _ AdmissionOpen) eqn:Eo.
    { destruct (nextSeat r) as [z|] eqn:Ez; [|done]. injection H as <-. split; [done|]. right; left.
      split_and!; [done|done|]. by exists z. }
    inv_result H; [|inv_result H; done]. injection H as <-. split; [done|]. left. split; [done|by right].
  - change (String.eqb JoinIntentSpectator JoinIntentSpectator) with true in H.
    change (String.eqb JoinIntentSpectator JoinIntentParticipant) with false in H. cbv zeta in H.
    rewrite andb_false_r in H. destruct (String.eqb _ AdmissionOpen) eqn:Eo.
    { injection H as <-. split; [done|]. right; right; left. done. }
    inv_result H; [|inv_result H; done]. injection H as <-. split; [done|]. right; right; right. done.
Qed.

(** A newcomer's place follows the policies. *)
Lemma admit_refines r u intent at_ m :
  Sound r -> (u ∉ users (Members r)) -> Status r <> RoomStatusClosed -> JoinIntent_Valid intent = true ->
  admitMember r u intent at_ = Ok m -> spec_step (tableOf r) (tableOf (r <| Members := Members r ++ [m] |>)).
Proof.
  intros Hso Hfresh Hst Hint H. pose proof (so_wf _ Hso) as Hwf. pose proof (phase_open _ Hwf Hst) as Hopen.
  apply admit_cases in H as [<- Hplace]; [|done].
  assert (Hnone : t_places (tableOf r) !! m_UserID m = None) by by apply places_None.
  assert (tableOf (r <| Members := Members r ++ [m] |>)
          = (tableOf r) <| t_places := <[m_UserID m := placeOf m]> (t_places (tableOf r)) |>) as ->.
  { unfold tableOf, update. cbn. f_equal. apply places_snoc; [done|]. apply (wf_users _ Hwf). }
  destruct Hplace as [[-> [Hp|Hp]]|[(Hp & Ho & z & -> & Hz)|[[-> Ho]|[-> Ho]]]].
  - apply spWait; [done|done|right]. split; [done|]. exists (ActiveSessionID r). by apply playing_phase.
  - apply spWait; [done|done|by left].
  - apply spSit; [done|by apply open_idle|done|by apply nextSeat_LeastFree].
  - by apply spWatch.
  - apply spWait; [done|done|by left].
Qed.

(** A promoted member gets the place asked for. *)
Lemma promote_place r i m m' :
  Sound r -> Members r !! i = Some m -> m_Role m = MemberRoleWaiting -> promote r m = Ok m' ->
  m_UserID m' = m_UserID m /\
  ((placeOf m = Queued ToPlay /\ exists z, placeOf m' = Seat z /\ nextSeat r = Some z) \/
   (placeOf m = Queued ToWatch /\ placeOf m' = Watching)).
Proof.
  intros Hso Hi Hr H. unfold promote in H.
  assert (Hm : placeOf m = Queued (wishOf (m_RequestedRole m))) by (unfold placeOf, isParticipant; by rewrite Hr).
  unfold wishOf in Hm. destruct (String.eqb _ _).
  - destruct (nextSeat r) as [z|] eqn:Ez; [|done]. injection H as <-. split; [done|left]. split; [done|]. by exists z.
  - injection H as <-. split; [done|by right].
Qed.

Lemma table_members r ms :
  tableOf (r <| Members := ms |>) = (tableOf r) <| t_places := placesOf ms |>.
Proof. reflexivity. Qed.

Lemma table_dropRequest s u : tableOf (dropRequestOf s u) = tableOf s.
Proof. unfold dropRequestOf. by destruct (_ =? _). Qed.

Lemma Effect_refines r at_ c next changed :
  Sound r -> Effect r at_ c next changed -> spec_step (tableOf r) (tableOf next) \/ tableOf next = tableOf r.
Proof.
  intros Hso He. pose proof (so_wf _ Hso) as Hwf. pose proof (wf_users _ Hwf) as Hnd.
  destruct He as [u i m Hi Hu Hr Hp|u intent m Hfresh Hst Hint Ha|c p s Hc Hmut|g Hmut|u i m m' Hi Hu Hr Hmut Hp
    |s g lo hi Hs Hmut Hn| | | | |u m Hst Hm Hpa Hu _|Hp|Hp|Hp|c u i m Hc Hi Hu Hh|c Hc Hmut];
    try (right; reflexivity); left.
  - rewrite table_members, (places_insert _ _ _ _ Hnd Hi) by done. eapply spQueue.
    + apply places_Some; [done|]. exists m. split_and!; [by eapply list_elem_of_lookup_2|done|].
      unfold placeOf, isParticipant. by rewrite Hr.
    + by apply playing_phase.
  - by eapply admit_refines.
  - by apply (spPolicies (tableOf r) (policyOf p) (policyOf s)), mutable_idle_phase.
  - destruct (promote_place _ _ _ _ Hso Hi Hr Hp) as [Hu' Hpl].
    rewrite table_members, (places_insert _ _ _ _ Hnd Hi) by done.
    assert (Hm : t_places (tableOf r) !! m_UserID m = Some (placeOf m)).
    { apply places_Some; [done|]. exists m. split_and!; [by eapply list_elem_of_lookup_2|done|done]. }
    destruct Hpl as [(Hq & z & -> & Hz)|[Hq ->]]; rewrite Hq in Hm.
    + apply spSeatWaiting; [done|by apply mutable_idle_phase|by apply nextSeat_LeastFree].
    + apply spShowIn; [done|by apply mutable_idle_phase].
  - by apply (spStart (tableOf r) s), mutable_idle_phase.
  - rewrite table_dropRequest. apply memberFromSnapshot_iff in Hm as [Hin Hmu]; [|done].
    apply (spHandOver (tableOf r) u (m_SeatIndex m)); [|done|by apply phase_open].
    apply places_Some; [done|]. exists m. split_and!; [done|done|]. unfold placeOf. by rewrite Hpa.
  - by apply (spFinish (tableOf r) (ActiveSessionID r)), playing_phase.
  - by apply (spCancel (tableOf r) (ActiveSessionID r)), playing_phase.
  - apply (spClose (tableOf r)). change (phaseOf r <> Closed). by rewrite playing_phase.
  - rewrite table_dropRequest, table_members, (places_delete _ _ _ Hnd Hi).
    apply (spLeave (tableOf r) (m_UserID m) (placeOf m)); [|by rewrite Hu].
    apply places_Some; [done|]. exists m. split_and!; [by eapply list_elem_of_lookup_2|done|done].
  - apply (spClose (tableOf r)). apply phase_open; [done|]. by apply mutable_cases in Hmut as [-> | ->].
Qed.

End RoomSpec.
