(* ===== verification/RoomTheorems.v ===== *)
(** * The room aggregate: theorems

    The properties of rooms created by [NewWithAdmission] and changed by the
    commands of [model.go] and [admin.go]. *)

From stdpp Require Import gmap.
From S2P Require Import Prelude GoLib Room RoomFacts RoomInvariant RoomHistory RoomSpec.

Module RoomTheorems.
Import GoLib Room RoomFacts RoomInvariant RoomHistory RoomSpec.

(** ** Concrete rooms for the witnesses *)
Definition second : Z := 1000000000.

Definition okRoom (outcome : res Room) : Room := match outcome with Ok r => r | Err _ => mkRoom 0 "" "" "" 0 0 "" "" [] 0 "" 0 "" noRequest noPause "" 0 0 0 0 0 end.

(** Host 11, with players 12 and 13 and the spectator 14, at versions 4/4. *)
Definition newRoom : Room := okRoom (New 1 11 "ABCD" VisibilityPublic 3 (10 * second)).
Definition with12 : Room := okRoom (exec newRoom (CmdJoin 12 JoinIntentParticipant) (versionOf newRoom) (11 * second)).
Definition with13 : Room := okRoom (exec with12 (CmdJoin 13 JoinIntentParticipant) (versionOf with12) (12 * second)).
Definition with14 : Room := okRoom (exec with13 (CmdJoin 14 JoinIntentSpectator) (versionOf with13) (13 * second)).
Definition playing : Room :=
  okRoom (exec with14 (CmdStartSession 11 71 "liars-dice" 2 4) (versionOf with14) (14 * second)).
Definition queued : Room :=
  okRoom (exec playing (CmdJoin 14 JoinIntentParticipant) (versionOf playing) (15 * second)).
Definition transferred : Room :=
  okRoom (exec playing (CmdTransferHost 11 12 1) (versionOf playing) (15 * second)).

Lemma accepts_exec r c v at_ r' : exec r c v at_ = Ok r' -> accepts r r'.
Proof. intros H. by exists c, v, at_. Qed.

Lemma newRoom_built : built newRoom.
Proof. by eapply (built_new 1 11 "ABCD" VisibilityPublic 3 AdmissionOpen AdmissionOpen (10 * second)); [|vm_compute]. Qed.

Lemma with12_step : accepts newRoom with12.
Proof. eapply (accepts_exec _ (CmdJoin 12 JoinIntentParticipant) (versionOf newRoom) (11 * second)). by vm_compute. Qed.
Lemma with13_step : accepts with12 with13.
Proof. eapply (accepts_exec _ (CmdJoin 13 JoinIntentParticipant) (versionOf with12) (12 * second)). by vm_compute. Qed.
Lemma with14_step : accepts with13 with14.
Proof. eapply (accepts_exec _ (CmdJoin 14 JoinIntentSpectator) (versionOf with13) (13 * second)). by vm_compute. Qed.
Lemma playing_step : accepts with14 playing.
Proof. eapply (accepts_exec _ (CmdStartSession 11 71 "liars-dice" 2 4) (versionOf with14) (14 * second)). by vm_compute. Qed.
Lemma queued_step : accepts playing queued.
Proof. eapply (accepts_exec _ (CmdJoin 14 JoinIntentParticipant) (versionOf playing) (15 * second)). by vm_compute. Qed.
Lemma transferred_step : accepts playing transferred.
Proof. eapply (accepts_exec _ (CmdTransferHost 11 12 1) (versionOf playing) (15 * second)). by vm_compute. Qed.

Lemma with14_built : built with14.
Proof. eauto using built_step, newRoom_built, with12_step, with13_step, with14_step. Qed.
Lemma playing_built : built playing.
Proof. eauto using built_step, with14_built, playing_step. Qed.

(** ** Refinement *)

(** The table of a room just created. *)
Definition newTable (host : UUID) (capacity : Z) (p w : Policy) : Table :=
  mkTable Lobby host capacity p w {[ host := Seat 0 ]}.

Lemma New_table id host code vis capacity padm sadm at_ r :
  NewWithAdmission id host code vis capacity padm sadm at_ = Ok r ->
  tableOf r = newTable host capacity (policyOf padm) (policyOf sadm).
Proof.
  unfold NewWithAdmission. cbv zeta. intros H. do 3 inv_result H.
  apply Restore_iff in H as [-> _]. rewrite table_canonical. reflexivity.
Qed.

Lemma exec_table r c v at_ r' :
  Sound r -> exec r c v at_ = Ok r' -> spec_step (tableOf r) (tableOf r') \/ tableOf r' = tableOf r.
Proof.
  intros Hso H. destruct (exec_inv _ _ _ _ _ Hso H) as (_ & [->|(next & changed & He & Hc)]); [by right|].
  rewrite (cm_room _ _ _ _ _ Hc), table_canonical, table_touched. by eapply Effect_refines.
Qed.

Lemma built_spec r : built r -> exists host capacity p w, rtc spec_step (newTable host capacity p w) (tableOf r).
Proof.
  induction 1 as [id host code vis capacity padm sadm at_ r _ H|r r' Hb IH (c & v & at_ & H)].
  - rewrite (New_table _ _ _ _ _ _ _ _ _ H). do 4 eexists. reflexivity.
  - destruct IH as (host & capacity & p & w & IH). exists host, capacity, p, w.
    destruct (exec_table _ _ _ _ _ (built_Sound _ Hb) H) as [Hs| ->]; [|done]. by eapply rtc_r.
Qed.

(** C1: The room aggregate implements the abstract room: whatever sequence of
    commands was accepted since the room was created, its table (phase, host,
    policies, one place per member) is one the rules of [spec_step] reach from a
    new table, and each further command the code accepts is a rule applied to the
    table or leaves the table as it is. *)
Theorem room_refines_spec r :
  built r ->
  (exists host capacity p w, rtc spec_step (newTable host capacity p w) (tableOf r)) /\
  forall c v at_ r', exec r c v at_ = Ok r' ->
    spec_step (tableOf r) (tableOf r') \/ tableOf r' = tableOf r.
Proof.
  intros Hb. split; [by apply built_spec|]. intros c v at_ r' H. eapply exec_table; [by apply built_Sound|done].
Qed.

Lemma room_refines_spec_witness :
  built with14 /\ (spec_step (tableOf with14) (tableOf playing) \/ tableOf playing = tableOf with14).
Proof.
  split; [apply with14_built|].
  apply (proj2 (room_refines_spec with14 with14_built)
           (CmdStartSession 11 71 "liars-dice" 2 4) (versionOf with14) (14 * second)). by vm_compute.
Defined.

(** ** Validation *)

(** C5: Every room the commands can build is a value of its type: restoring it
    accepts it and changes nothing, no user and no seat occurs twice, the host is
    a participant, every participant has a seat below the capacity, and versions
    and ownership epoch are non-zero 64-bit numbers. *)
Theorem built_room_valid r :
  built r ->
  Restore r = Ok r /\ NoDup (users (Members r)) /\ NoDup (seats (Members r)) /\
  (exists m, Member r (HostUserID r) = Some m /\ isParticipant m = true) /\
  Forall (fun z => 0 <= z < ParticipantCapacity r) (seats (Members r)) /\
  1 <= RoomVersion r <= maxUint64 /\ 1 <= MembershipVersion r <= maxUint64 /\
  1 <= OwnershipEpoch r <= maxUint64.
Proof.
  intros Hb. apply built_Sound in Hb as [Hwf Hr Hv Hm He]. pose proof (wf_users _ Hwf) as Hnd.
  split_and!; try done; try lia; [by apply WF_Restore|apply Hwf|].
  destruct (host_participant _ (wf_members _ Hwf) (wf_host _ Hwf)) as (m & Hin & Hu). exists m.
  unfold participants in Hin. rewrite list_elem_of_In, filter_In, <- list_elem_of_In in Hin.
  destruct Hin as [Hin Hp]. split; [|done]. by apply memberFromSnapshot_iff.
Qed.

Lemma built_room_valid_witness : built playing /\ Restore playing = Ok playing.
Proof. split; [apply playing_built|]. apply (built_room_valid playing playing_built). Defined.

Lemma plan_time r c v at_ todo : plan r c v at_ = Ok todo -> IsZero at_ = false.
Proof. intros H. destruct c; guards H; done. Qed.

(** On the rooms the commands build, the validation that ends every command
    never refuses: at a time that has not gone back, in a room whose member list
    is not at its limit, a command whose guards pass commits exactly the planned
    snapshot with its versions advanced, and fails only on an exhausted counter. *)
Theorem guards_suffice r c v at_ :
  built r -> UpdatedAt r <= canonicalRoomTime at_ ->
  Z.of_nat (length (Members r)) < ParticipantCapacity r + 1000000 ->
  exec r c v at_ =
  let* todo := plan r c v (canonicalRoomTime at_) in
  match todo with
  | None => Ok r
  | Some (next, changed) =>
      if (RoomVersion r =? maxUint64) || changed && (MembershipVersion r =? maxUint64)
      then Err ErrRoomVersionOverflow
      else Ok (touched next changed (canonicalRoomTime at_))
  end.
Proof.
  intros Hb Hle Hlen. pose proof (built_Sound _ Hb) as Hso. rewrite exec_plan. unfold execute.
  destruct (plan r c v (canonicalRoomTime at_)) as [[[next changed]|]|] eqn:E; [|done|done]. cbn [bind_result].
  pose proof (plan_version _ _ _ _ _ E) as ->. pose proof (plan_time _ _ _ _ _ E) as Hz.
  pose proof (Effect_Planned _ _ _ _ _ Hso (plan_Effect _ _ _ _ _ _ (so_wf _ Hso) E)) as Hp.
  pose proof (pl_version _ _ Hp) as Ev. pose proof (pl_membership _ _ Hp) as Em.
  destruct ((RoomVersion r =? maxUint64) || _) eqn:Eo.
  - unfold commit, bumpVersions. by rewrite Ev, Em, Eo.
  - to_prop. assert (Hm : changed = true -> MembershipVersion r <> maxUint64) by (intros ->; by apply Z.eqb_neq).
    unfold IsZero in Hz. to_prop.
    pose proof (plan_Sound r Hso (canonicalRoomTime at_) (canonicalRoomTime_idem at_) Hle Hz
                  ltac:(assumption) c next changed E Hm Hlen) as Hs.
    pose proof (so_version _ Hso). pose proof (so_membership _ Hso).
    apply commit_Ok; [apply Hs|by rewrite Ev|by rewrite Em|by rewrite Ev|by rewrite Em].
Qed.

Lemma guards_suffice_witness :
  built with14 /\
  exec with14 (CmdRemoveMember 11 13) (versionOf with14) (20 * second) =
  Ok (touched (with14 <| Members := delete 2%nat (Members with14) |>) true (20 * second)).
Proof.
  split; [apply with14_built|].
  rewrite (guards_suffice with14 (CmdRemoveMember 11 13) (versionOf with14) (20 * second) with14_built);
    [by vm_compute|by vm_compute|by vm_compute].
Defined.

(** ** Sessions *)

(** One accepted command after which session [s] is still played. *)
Definition during (s : UUID) (r r' : Room) : Prop :=
  accepts r r' /\ Status r' = RoomStatusPlaying /\ ActiveSessionID r' = s.

(** The participants of a room, as its table shows them. *)
Lemma participant_seat r m :
  Sound r -> m ∈ Members r -> m_Role m = MemberRoleParticipant ->
  t_places (tableOf r) !! m_UserID m = Some (Seat (m_SeatIndex m)).
Proof.
  intros Hso Hin Hr. apply (places_Some (Members r)); [apply (wf_users _ (so_wf _ Hso))|]. exists m.
  split_and!; [done|done|]. unfold placeOf, isParticipant. by rewrite Hr.
Qed.

Lemma seat_frozen r u z :
  Sound r -> t_places (tableOf r) !! u = Some (Seat z) ->
  mkFrozen u z ∈ freeze <$> List.filter isParticipant (Members r).
Proof.
  intros Hso H. apply (places_Some (Members r)) in H as (m & Hin & <- & Hp); [|apply (wf_users _ (so_wf _ Hso))].
  unfold placeOf in Hp. destruct (isParticipant m) eqn:E; [|by destruct (String.eqb _ _)].
  injection Hp as <-. apply list_elem_of_fmap. exists m. split; [done|].
  by rewrite list_elem_of_In, filter_In, <- list_elem_of_In.
Qed.

(** Seats only get free while the session lasts. *)
Lemma during_seats s r r' :
  Sound r -> Status r = RoomStatusPlaying -> ActiveSessionID r = s -> rtc (during s) r r' ->
  Sound r' /\ forall u z, t_places (tableOf r') !! u = Some (Seat z) -> t_places (tableOf r) !! u = Some (Seat z).
Proof.
  intros Hso Hst Hs H. revert Hso Hst Hs.
  induction H as [r|r1 r2 r3 [(c & v & at_ & H) [Hst2 Hs2]] _ IH]; intros Hso Hst Hs; [done|].
  pose proof (exec_Sound _ _ _ _ _ Hso H) as Hso2.
  destruct (IH Hso2 Hst2 Hs2) as [Hso3 Hseats]. split; [done|]. intros u z Hu. specialize (Hseats _ _ Hu).
  destruct (exec_table _ _ _ _ _ Hso H) as [Hstep| <-]; [|done].
  by eapply (spec_step_seats _ _ (ActiveSessionID r1)); [exact Hstep|apply playing_phase|].
Qed.

Lemma StartSession_exec r host s game lo hi v at_ r0 start :
  StartSession r host s game lo hi v at_ = Ok (r0, start) -> exec r (CmdStartSession host s game lo hi) v at_ = Ok r0.
Proof. intros H. cbn [exec]. by rewrite H. Qed.

(** The record of a started session. *)
Lemma StartSession_record r host s game lo hi v at_ r0 start :
  StartSession r host s game lo hi v at_ = Ok (r0, start) ->
  s_SessionID start = s /\ s_Participants start = freeze <$> List.filter isParticipant (Members r) /\
  s_Version start = versionOf r0 /\ lo <= Z.of_nat (length (s_Participants start)) <= hi.
Proof.
  unfold StartSession. cbv zeta. intros H. do 8 inv_result H. inv_result H. injection H as <- <-.
  to_prop. split_and!; try done; cbn; lia.
Qed.

(** C4: The roster of a session is frozen: as long as the session is played,
    whatever commands are accepted, every participant of the room is one of the
    participants recorded when the session started, on the same seat; and their
    number was within the bounds of the game. *)
Theorem session_roster_frozen r host s game lo hi v at_ r0 start r1 :
  built r -> StartSession r host s game lo hi v at_ = Ok (r0, start) -> rtc (during s) r0 r1 ->
  lo <= Z.of_nat (length (s_Participants start)) <= hi /\
  forall m, m ∈ Members r1 -> m_Role m = MemberRoleParticipant ->
    mkFrozen (m_UserID m) (m_SeatIndex m) ∈ s_Participants start.
Proof.
  intros Hb H Hd. pose proof (built_Sound _ Hb) as Hso.
  destruct (StartSession_record _ _ _ _ _ _ _ _ _ _ H) as (_ & Hpart & _ & Hn). split; [done|].
  pose proof (StartSession_exec _ _ _ _ _ _ _ _ _ _ H) as Hex.
  pose proof (exec_Sound _ _ _ _ _ Hso Hex) as Hso0.
  destruct (exec_inv _ _ _ _ _ Hso Hex) as (_ & [->|(next & changed & He & Hc)]).
  { exfalso. unfold StartSession in H. cbv zeta in H. do 8 inv_result H. inv_result H. injection H as -> _.
    apply commit_inv in E7 as (_ & _ & Hr & _).
    assert (Status r = RoomStatusPlaying) as Hst by (rewrite Hr; reflexivity). to_prop. rewrite Hst in *. done. }
  destruct (Committed_fields _ _ _ _ _ Hso Hc) as (Hms & Hst & _ & Hact & _). inversion He; subst;
    try by match goal with Hx : _ \/ _ |- _ => destruct Hx as [?|[? ?]] end.
  assert (Hplaces : t_places (tableOf r0) = t_places (tableOf r)).
  { unfold tableOf. cbn [t_places]. rewrite Hms. apply places_canonical. }
  destruct (during_seats s r0 r1) as [Hso1 Hseats]; [done|rewrite Hst; reflexivity|rewrite Hact; reflexivity|done|].
  intros m Hin Hr. rewrite Hpart. apply seat_frozen; [done|]. rewrite <- Hplaces. apply Hseats.
  by apply participant_seat.
Qed.

Definition playingStart : SessionStart :=
  mkSessionStart 71 "liars-dice" [mkFrozen 11 0; mkFrozen 12 1; mkFrozen 13 2] (mkVersion 5 4) (14 * second).

Lemma session_roster_frozen_witness :
  built with14 /\ StartSession with14 11 71 "liars-dice" 2 4 (versionOf with14) (14 * second) = Ok (playing, playingStart) /\
  rtc (during 71) playing queued /\
  (forall m, m ∈ Members queued -> m_Role m = MemberRoleParticipant ->
     mkFrozen (m_UserID m) (m_SeatIndex m) ∈ s_Participants playingStart).
Proof.
  assert (H : StartSession with14 11 71 "liars-dice" 2 4 (versionOf with14) (14 * second) = Ok (playing, playingStart))
    by by vm_compute.
  assert (Hd : rtc (during 71) playing queued).
  { eapply rtc_l; [|reflexivity]. split; [apply queued_step|]. split; by vm_compute. }
  split_and!; [apply with14_built|exact H|exact Hd|].
  apply (session_roster_frozen with14 11 71 "liars-dice" 2 4 (versionOf with14) (14 * second) playing playingStart
           queued with14_built H Hd).
Defined.

(** ** Fencing *)

(** A version names one state of the room: once any command has changed the
    room, no command carrying the version from before is ever accepted again, so
    of two commands prepared from the same snapshot at most one takes effect. *)
Theorem stale_version_refused r r' c at_ :
  built r -> rtc accepts r r' -> r' <> r -> is_ok (exec r' c (versionOf r) at_) = false.
Proof.
  intros Hb H Hne. apply built_Sound in Hb.
  assert (Hso' : Sound r').
  { clear Hne. induction H as [|r1 r2 r3 (c' & v & t & H) _ IH]; [done|]. apply IH. by eapply exec_Sound. }
  destruct (history_versions _ _ Hb H) as [|[Hlt _]]; [done|].
  destruct (exec r' c (versionOf r) at_) as [r''|] eqn:E; [|done].
  destruct (exec_inv _ _ _ _ _ Hso' E) as [Hv _]. unfold versionOf in Hv. injection Hv as Hv _. lia.
Qed.

Lemma stale_version_refused_witness :
  built playing /\ rtc accepts playing queued /\
  is_ok (exec queued (CmdCancelSession 71) (versionOf playing) (16 * second)) = false.
Proof.
  assert (H : rtc accepts playing queued) by (eapply rtc_l; [apply queued_step|reflexivity]).
  split_and!; [apply playing_built|exact H|].
  apply (stale_version_refused playing queued (CmdCancelSession 71) (16 * second) playing_built H).
  intros E. apply (f_equal RoomVersion) in E. revert E. by vm_compute.
Defined.

(** The host a command claims to be. *)
Definition claimedHost (c : Command) : option UUID :=
  match c with
  | CmdSetAdmission h _ _ | CmdSelectGame h _ | CmdApproveWaiting h _ | CmdStartSession h _ _ _ _
  | CmdRejectPause h _ | CmdPause h _ _ _ | CmdResume h _ | CmdTransferHost h _ _
  | CmdCancelSessionAndClose h _ | CmdRemoveMember h _ | CmdClose h => Some h
  | _ => None
  end.

Lemma plan_host r c v at_ todo h : plan r c v at_ = Ok todo -> claimedHost c = Some h -> h = HostUserID r.
Proof. intros H Hh. destruct c; try discriminate Hh; injection Hh as <-; guards H; done. Qed.

(** The ownership epoch fences the host: along every history the host changes
    only together with a strictly larger epoch, so equal epochs mean the same
    host, and a user who is no longer the host has every host command refused. *)
Theorem ownership_epoch_fences_host r r' :
  built r -> rtc accepts r r' ->
  (OwnershipEpoch r' = OwnershipEpoch r -> HostUserID r' = HostUserID r) /\
  OwnershipEpoch r <= OwnershipEpoch r' /\
  (HostUserID r' <> HostUserID r ->
   forall c v at_, claimedHost c = Some (HostUserID r) -> is_ok (exec r' c v at_) = false).
Proof.
  intros Hb H. destruct (history_epoch _ _ (built_Sound _ Hb) H) as [[Hh He]|Hlt].
  - split_and!; [done|lia|done].
  - split_and!; [lia|lia|]. intros Hn c v at_ Hc. rewrite exec_plan. unfold execute.
    destruct (plan _ _ _ _) as [todo|] eqn:E; [|done].
    by destruct Hn; rewrite (plan_host _ _ _ _ _ _ E Hc).
Qed.

Lemma ownership_epoch_fences_host_witness :
  built playing /\ rtc accepts playing transferred /\
  is_ok (exec transferred (CmdClose 11) (versionOf transferred) (16 * second)) = false.
Proof.
  assert (H : rtc accepts playing transferred) by (eapply rtc_l; [apply transferred_step|reflexivity]).
  split_and!; [apply playing_built|exact H|].
  apply (ownership_epoch_fences_host playing transferred playing_built H); by vm_compute.
Defined.

End RoomTheorems.
