(* ===== verification/RoomStore.v ===== *)
(** * The room repository

    Model of [platform/persistence/postgres/room_repository.go] with the
    statements of [sqlcgen/room.sql.go] it runs and the transaction runner of
    [transaction.go].

    The tables are values; a nullable column is an [option].  A transaction is a
    function on the tables whose statements may each fail: [fault n] is the error
    the [n]-th step of the transaction meets (a lost connection, a constraint or
    trigger of the schema, a serialization failure, the commit itself), if any.
    A failed transaction leaves the tables as they were. *)

From stdpp Require Import gmap.
From S2P Require Import Prelude GoLib Room.

Module RoomStore.
Import GoLib Room.

(** ** Machine integers of the columns *)
Definition maxInt32 : Z := 2147483647.
Definition i32 (z : Z) : Z := (z + 2147483648) mod 4294967296 - 2147483648.
Definition i64 (z : Z) : Z := (z + 9223372036854775808) mod 18446744073709551616 - 9223372036854775808.

(** ** Rows *)
Record PartyRoom := mkPartyRoom {
  row_RoomID : option UUID;
  row_RoomCode : string;
  row_Visibility : string;
  row_Status : string;
  row_HostUserID : option UUID;
  row_ParticipantCapacity : Z;
  row_ParticipantAdmission : string;
  row_SpectatorAdmission : string;
  row_ActiveSessionID : option UUID;
  row_ActiveGameID : option string;
  row_LastFinishedSessionID : option UUID;
  row_LastFinishedGameID : option string;
  row_SelectedGameID : string;
  row_OwnershipEpoch : Z;
  row_PauseRequestID : option UUID;
  row_PauseRequestSessionID : option UUID;
  row_PauseRequestedByUserID : option UUID;
  row_PauseRequestedAt : option Time;
  row_ActivePauseID : option UUID;
  row_ActivePauseSessionID : option UUID;
  row_ActivePauseSource : option string;
  row_ActivePauseRequestedByUserID : option UUID;
  row_ActivePausePausedByUserID : option UUID;
  row_ActivePausePausedAt : option Time;
  row_RoomVersion : Z;
  row_MembershipVersion : Z;
  row_CreatedAt : option Time;
  row_UpdatedAt : option Time;
}.

Record RoomMember := mkRoomMember {
  rm_RoomID : option UUID;
  rm_UserID : option UUID;
  rm_Role : string;
  rm_RequestedRole : option string;
  rm_SeatIndex : option Z;
  rm_JoinedAt : option Time;
  rm_LastSeenAt : option Time;
  rm_DisplayUsername : option string;
  rm_UsernameKey : option string;
}.

Record PendingStartRow := mkPendingStartRow {
  ps_PendingStartID : UUID;
  ps_RoomID : UUID;
  ps_CancelToken : string;
  ps_GameID : string;
  ps_ConfigRevision : Z;
  ps_ExpectedRoomVersion : Z;
  ps_ExpectedMembershipVersion : Z;
  ps_OwnershipEpoch : Z;
  ps_OperationID : string;
  ps_RequestDigest : list Z;
  ps_DeadlineAt : option Time;
  ps_CreatedAt : option Time;
  ps_CancelledAt : option Time;
  ps_ConsumedAt : option Time;
}.
#[global] Instance PendingStartRow_eta : Eta PendingStartRow := fun p =>
  mkPendingStartRow (ps_PendingStartID p) (ps_RoomID p) (ps_CancelToken p) (ps_GameID p) (ps_ConfigRevision p)
    (ps_ExpectedRoomVersion p) (ps_ExpectedMembershipVersion p) (ps_OwnershipEpoch p) (ps_OperationID p)
    (ps_RequestDigest p) (ps_DeadlineAt p) (ps_CreatedAt p) (ps_CancelledAt p) (ps_ConsumedAt p).

(** ** revocation.go: the fact a removal publishes *)
Definition RemovalActorHost : string := "host".
Definition RemovalActorAdmin : string := "admin".
Definition RemovalReasonHostRemoved : string := "host_removed".
Definition RemovalReasonRoomBanned : string := "room_banned".
Definition RemovalReasonAdminRemoved : string := "admin_removed".
Definition RemovalReasonAccountSuspended : string := "account_suspended".

Record ParticipantRevocationFact := mkFact {
  fact_EventID : UUID;
  fact_RoomID : UUID;
  fact_SessionID : UUID;
  fact_UserID : UUID;
  fact_ActorKind : string;
  fact_ActorID : UUID;
  fact_Reason : string;
  fact_MembershipVersion : Z;
  fact_OccurredAt : Time;
}.

#[global] Instance ParticipantRevocationFact_eq_dec : EqDecision ParticipantRevocationFact.
Proof. solve_decision. Defined.

Definition Fact_Valid (fact : ParticipantRevocationFact) : bool :=
  let occurredAt := canonicalRoomTime (fact_OccurredAt fact) in
  if (fact_EventID fact =? Nil) || (fact_RoomID fact =? Nil) || (fact_SessionID fact =? Nil)
     || (fact_UserID fact =? Nil) || (fact_ActorID fact =? Nil) || (fact_MembershipVersion fact =? 0)
     || IsZero occurredAt
  then false
  else if String.eqb (fact_ActorKind fact) RemovalActorHost then
    String.eqb (fact_Reason fact) RemovalReasonHostRemoved
    || String.eqb (fact_Reason fact) RemovalReasonRoomBanned
  else if String.eqb (fact_ActorKind fact) RemovalActorAdmin then
    String.eqb (fact_Reason fact) RemovalReasonAdminRemoved
    || String.eqb (fact_Reason fact) RemovalReasonAccountSuspended
  else false.

(** ** Tables *)
Record Database := mkDatabase {
  party_rooms : gmap UUID PartyRoom;
  room_members : gmap UUID (list RoomMember);
  room_activity_leases : gmap UUID (option Time);
  room_pending_starts : list PendingStartRow;
  (** Events of [outbox_events] by identifier, with the fact they carry, and the
      pending rows of [game_system_inbox] by source event: session and creation. *)
  outbox_events : gmap UUID ParticipantRevocationFact;
  game_system_inbox : gmap UUID (UUID * option Time);
}.

#[global] Instance Database_eta : Eta Database := fun d =>
  mkDatabase (party_rooms d) (room_members d) (room_activity_leases d) (room_pending_starts d)
    (outbox_events d) (game_system_inbox d).

Definition emptyDatabase : Database := mkDatabase ∅ ∅ ∅ [] ∅ ∅.

(** ** Conversions to and from columns *)
Definition uuidToPG (value : UUID) : option UUID := Some value.
Definition timeToPG (value : Time) : option Time :=
  if IsZero value then None else Some (Truncate value Microsecond).
Definition textToPG (value : string) : option string := if String.eqb value "" then None else Some value.
Definition optionalUUIDToPG (value : UUID) : option UUID := if value =? Nil then None else uuidToPG value.
Definition optionalUUIDFromPG (value : option UUID) : UUID := default Nil value.
Definition optionalTextFromPG (value : option string) : string := default ""%string value.
Definition optionalTimeToPG (value : Time) : option Time := if IsZero value then None else timeToPG value.
Definition optionalTimeFromPG (value : option Time) : Time := default 0 value.
Definition optionalSeatToPG (member : MemberSnapshot) : option Z :=
  if negb (String.eqb (m_Role member) MemberRoleParticipant) then None else Some (i32 (m_SeatIndex member)).
Definition optionalSeatFromPG (value : option Z) : Z :=
  match value with None => 0 | Some seat => u32 seat end.
Definition optionalMemberRoleFromPG (value : option string) : string := default ""%string value.

Definition createPartyRoomParams (snapshot : RoomSnapshot) : PartyRoom :=
  mkPartyRoom (uuidToPG (ID snapshot)) (RoomCode snapshot) (visibility snapshot) (Status snapshot)
    (uuidToPG (HostUserID snapshot)) (i32 (ParticipantCapacity snapshot))
    (ParticipantAdmission snapshot) (SpectatorAdmission snapshot)
    (optionalUUIDToPG (ActiveSessionID snapshot)) (textToPG (ActiveGameID snapshot))
    (optionalUUIDToPG (LastFinishedSessionID snapshot)) (textToPG (LastFinishedGameID snapshot))
    (SelectedGameID snapshot) (i64 (OwnershipEpoch snapshot))
    (optionalUUIDToPG (q_ID (PendingPause snapshot)))
    (optionalUUIDToPG (q_SessionID (PendingPause snapshot)))
    (optionalUUIDToPG (q_RequestedByUserID (PendingPause snapshot)))
    (optionalTimeToPG (q_RequestedAt (PendingPause snapshot)))
    (optionalUUIDToPG (a_ID (CurrentPause snapshot)))
    (optionalUUIDToPG (a_SessionID (CurrentPause snapshot))) (textToPG (a_Source (CurrentPause snapshot)))
    (optionalUUIDToPG (a_RequestedByUserID (CurrentPause snapshot)))
    (optionalUUIDToPG (a_PausedByUserID (CurrentPause snapshot)))
    (optionalTimeToPG (a_PausedAt (CurrentPause snapshot)))
    (i64 (RoomVersion snapshot)) (i64 (MembershipVersion snapshot))
    (timeToPG (CreatedAt snapshot)) (timeToPG (UpdatedAt snapshot)).

(** The columns the update sets are those of the row above except the key, the
    code and the creation time; the condition has the expected ones. *)
Record UpdatePartyRoomCASParams := mkUpdateParams {
  up_row : PartyRoom;
  up_RoomID : UUID;
  up_RoomCode : string;
  up_ExpectedRoomVersion : Z;
  up_ExpectedMembershipVersion : Z;
  up_ExpectedOwnershipEpoch : Z;
}.

Definition updatePartyRoomParams (before after : RoomSnapshot) : UpdatePartyRoomCASParams :=
  mkUpdateParams (createPartyRoomParams after) (ID before) (RoomCode before)
    (i64 (RoomVersion before)) (i64 (MembershipVersion before)) (i64 (OwnershipEpoch before)).

Definition createRoomMemberParams (roomID : UUID) (member : MemberSnapshot)
    (username : option string * option string) : RoomMember :=
  mkRoomMember (uuidToPG roomID) (uuidToPG (m_UserID member)) (m_Role member)
    (textToPG (m_RequestedRole member)) (optionalSeatToPG member)
    (timeToPG (m_JoinedAt member)) (timeToPG (m_LastSeenAt member)) (fst username) (snd username).

Definition memberFromRow (roomID : UUID) (row : RoomMember) : res MemberSnapshot :=
  match rm_RoomID row, rm_UserID row, rm_JoinedAt row, rm_LastSeenAt row with
  | Some id, Some user, Some joined, Some seen =>
      if negb (id =? roomID) then Err ErrRoomIntegrity
      else Ok (mkMember user (rm_Role row) (optionalMemberRoleFromPG (rm_RequestedRole row))
                 (optionalSeatFromPG (rm_SeatIndex row)) joined seen)
  | _, _, _, _ => Err ErrRoomIntegrity
  end.

Definition roomFromRows (row : PartyRoom) (members : list RoomMember) : res Room :=
  match row_RoomID row, row_HostUserID row, row_CreatedAt row, row_UpdatedAt row with
  | Some id, Some host, Some created, Some updated =>
      if (row_ParticipantCapacity row <=? 0) || (row_RoomVersion row <=? 0)
         || (row_MembershipVersion row <=? 0) || (row_OwnershipEpoch row <=? 0)
      then Err ErrRoomIntegrity
      else
        let* mapped := map_result (memberFromRow id) members in
        match Restore (mkRoom id (row_RoomCode row) (row_Visibility row) (row_Status row) host
                (u32 (row_ParticipantCapacity row)) (row_ParticipantAdmission row)
                (row_SpectatorAdmission row) mapped
                (optionalUUIDFromPG (row_ActiveSessionID row)) (optionalTextFromPG (row_ActiveGameID row))
                (optionalUUIDFromPG (row_LastFinishedSessionID row))
                (optionalTextFromPG (row_LastFinishedGameID row))
                (mkPending (optionalUUIDFromPG (row_PauseRequestID row))
                   (optionalUUIDFromPG (row_PauseRequestSessionID row))
                   (optionalUUIDFromPG (row_PauseRequestedByUserID row))
                   (optionalTimeFromPG (row_PauseRequestedAt row)))
                (mkPause (optionalUUIDFromPG (row_ActivePauseID row))
                   (optionalUUIDFromPG (row_ActivePauseSessionID row))
                   (optionalTextFromPG (row_ActivePauseSource row))
                   (optionalUUIDFromPG (row_ActivePauseRequestedByUserID row))
                   (optionalUUIDFromPG (row_ActivePausePausedByUserID row))
                   (optionalTimeFromPG (row_ActivePausePausedAt row)))
                (row_SelectedGameID row) (u64 (row_RoomVersion row)) (u64 (row_MembershipVersion row))
                (u64 (row_OwnershipEpoch row)) created updated) with
        | Ok room => Ok room
        | Err _ => Err ErrRoomIntegrity
        end
  | _, _, _, _ => Err ErrRoomIntegrity
  end.

(** ** Guards of the repository *)
Definition validateRoomPersistenceWidths (snapshot : RoomSnapshot) : res unit :=
  if (maxInt32 <? ParticipantCapacity snapshot) || (maxInt64 <? RoomVersion snapshot)
     || (maxInt64 <? MembershipVersion snapshot) || (maxInt64 <? OwnershipEpoch snapshot)
  then Err ErrInvalidRoomInput
  else if existsb (fun member => maxInt32 <? m_SeatIndex member) (Members snapshot)
  then Err ErrInvalidRoomInput
  else Ok tt.

Definition validateRoomTransition (before after : RoomSnapshot) : res unit :=
  let* _ := validateRoomPersistenceWidths before in
  let* _ := validateRoomPersistenceWidths after in
  if negb (ID before =? ID after) || negb (String.eqb (RoomCode before) (RoomCode after))
     || negb (CreatedAt before =? CreatedAt after)
     || negb (OwnershipEpoch after =? OwnershipEpoch before)
        && negb (OwnershipEpoch after =? u64 (OwnershipEpoch before + 1))
     || negb (RoomVersion after =? u64 (RoomVersion before + 1))
     || negb (MembershipVersion after =? MembershipVersion before)
        && negb (MembershipVersion after =? u64 (MembershipVersion before + 1))
  then Err ErrInvalidRoomInput
  else Ok tt.

Definition validRoomRemovalActor (fact : ParticipantRevocationFact) (before : RoomSnapshot) : bool :=
  if String.eqb (fact_ActorKind fact) RemovalActorHost then fact_ActorID fact =? HostUserID before
  else if String.eqb (fact_ActorKind fact) RemovalActorAdmin then negb (fact_ActorID fact =? Nil)
  else false.

Definition removedParticipantTransition (before after : RoomSnapshot) (userID : UUID) : bool :=
  if negb (String.eqb (Status before) RoomStatusPlaying) || (ActiveSessionID before =? Nil)
     || negb (RoomVersion after =? u64 (RoomVersion before + 1))
     || negb (MembershipVersion after =? u64 (MembershipVersion before + 1))
  then false
  else if negb (existsb (fun member => (m_UserID member =? userID)
                                       && String.eqb (m_Role member) MemberRoleParticipant) (Members before))
  then false
  else negb (existsb (fun member => m_UserID member =? userID) (Members after)).

(** ** Errors *)
Inductive DbError :=
| ErrNoRows
| PgError (code constraint : string)
| DomainError (e : RoomError)
(** A statement given up because its context is done. *)
| ContextError
| DriverError.

(** The error of a repository operation: one of the domain, or the error of the
    finished context. *)
Inductive StoreError := Domain (e : RoomError) | ContextDone.

Abbreviation sres := (result StoreError).

Definition mapRoomRepositoryError (ctxDone : bool) (err : DbError) (noRowsError : RoomError) : StoreError :=
  match err with
  | ErrNoRows => Domain noRowsError
  | _ =>
      if ctxDone then ContextDone
      else match err with
      | PgError code constraint =>
          if String.eqb code "23505" then
            if String.eqb constraint "party_rooms_room_code_unique" then Domain ErrRoomCodeUnavailable
            else if String.eqb constraint "room_members_username_key_unique" then Domain ErrUsernameConflict
            else Domain ErrRoomVersionConflict
          else if String.eqb code "23503" || String.eqb code "23514" then Domain ErrRoomIntegrity
          else if String.eqb code "40001" || String.eqb code "40P01" then Domain ErrRoomVersionConflict
          else Domain ErrRoomRepositoryUnavailable
      | DomainError ErrRoomIntegrity => Domain ErrRoomIntegrity
      | DomainError ErrInvalidRoomInput => Domain ErrInvalidRoomInput
      | _ => Domain ErrRoomRepositoryUnavailable
      end
  end.

(** ** Statements *)
Definition tx (A : Type) : Type := Database * nat -> result DbError (A * (Database * nat)).

Definition tx_ret {A} (a : A) : tx A := fun s => Ok (a, s).
Definition tx_fail {A} (e : DbError) : tx A := fun _ => Err e.
Definition tx_bind {A B} (m : tx A) (f : A -> tx B) : tx B := fun s => let* '(a, s') := m s in f a s'.
Definition tx_lift {A} (r : res A) : tx A :=
  match r with Ok a => tx_ret a | Err e => tx_fail (DomainError e) end.

Declare Scope tx_scope.
Delimit Scope tx_scope with tx.
Notation "'do*' x := m 'in' f" := (tx_bind m (fun x => f))
  (at level 200, x pattern, m at level 100, f at level 200) : tx_scope.

Section Repository.
(** The steps that fail, whether the context is done, and the name and key of an
    account that is active or suspended. *)
Context (fault : nat -> option DbError) (ctxDone : bool) (currentUsername : UUID -> option (string * string)).

Local Open Scope tx_scope.

Definition statement {A} (f : Database -> result DbError (A * Database)) : tx A := fun '(d, n) =>
  match fault n with
  | Some e => Err e
  | None => let* '(a, d') := f d in Ok (a, (d', S n))
  end.

(** [TransactionRunner.Run]: begin is step 0 and the commit the step after the
    last statement. *)
Definition Run {A} (work : tx A) (d : Database) : result DbError A * Database :=
  match fault 0%nat with
  | Some e => (Err e, d)
  | None =>
      match work (d, 1%nat) with
      | Err e => (Err e, d)
      | Ok (a, (d', n)) => match fault n with Some e => (Err e, d) | None => (Ok a, d') end
      end
  end.

Definition CreatePartyRoom (row : PartyRoom) (roomID : UUID) : tx PartyRoom := statement (fun d =>
  if bool_decide (is_Some (party_rooms d !! roomID)) then Err (PgError "23505" "party_rooms_pkey")
  else if existsb (fun entry => String.eqb (row_RoomCode (snd entry)) (row_RoomCode row)) (map_to_list (party_rooms d))
  then Err (PgError "23505" "party_rooms_room_code_unique")
  else Ok (row, d <| party_rooms := <[roomID := row]> (party_rooms d) |>)).

Definition CreateRoomActivityLease (roomID : UUID) (at_ : Time) : tx unit := statement (fun d =>
  Ok (tt, d <| room_activity_leases := <[roomID := timeToPG at_]> (room_activity_leases d) |>)).

Definition membersOf (d : Database) (roomID : UUID) : list RoomMember := default [] (room_members d !! roomID).

(** The trigger [fill_room_member_username] of the schema. *)
Definition fillUsername (row : RoomMember) : result DbError RoomMember :=
  match currentUsername (default Nil (rm_UserID row)) with
  | Some (display, key) =>
      Ok (mkRoomMember (rm_RoomID row) (rm_UserID row) (rm_Role row) (rm_RequestedRole row) (rm_SeatIndex row)
            (rm_JoinedAt row) (rm_LastSeenAt row) (Some display) (Some key))
  | None =>
      match rm_DisplayUsername row, rm_UsernameKey row with
      | Some _, Some _ => Ok row
      | _, _ => Err (PgError "23514" "")
      end
  end.

Definition CreateRoomMember (roomID : UUID) (row : RoomMember) : tx unit := statement (fun d =>
  if existsb (fun other => bool_decide (rm_UserID other = rm_UserID row)) (membersOf d roomID)
  then Err (PgError "23505" "room_members_pkey")
  else
    let* filled := fillUsername row in
    Ok (tt, d <| room_members := <[roomID := membersOf d roomID ++ [filled]]> (room_members d) |>)).

(** [ORDER BY joined_at, user_id]. *)
Definition memberBefore (left right : RoomMember) : Prop :=
  default 0 (rm_JoinedAt left) < default 0 (rm_JoinedAt right) \/
  default 0 (rm_JoinedAt left) = default 0 (rm_JoinedAt right) /\
  default Nil (rm_UserID left) <= default Nil (rm_UserID right).

#[global] Instance memberBefore_dec : RelDecision memberBefore.
Proof. intros l r. unfold memberBefore. solve_decision. Defined.

Definition ListRoomMembers (roomID : UUID) : tx (list RoomMember) := statement (fun d =>
  Ok (merge_sort memberBefore (membersOf d roomID), d)).

Definition DeleteRoomMembers (roomID : UUID) : tx unit := statement (fun d =>
  Ok (tt, d <| room_members := delete roomID (room_members d) |>)).

Definition GetPartyRoomForShare (roomID : UUID) : tx PartyRoom := statement (fun d =>
  match party_rooms d !! roomID with Some row => Ok (row, d) | None => Err ErrNoRows end).

Definition GetPartyRoomByCodeForShare (code : string) : tx PartyRoom := statement (fun d =>
  match List.find (fun entry => String.eqb (row_RoomCode (snd entry)) code) (map_to_list (party_rooms d)) with
  | Some (_, row) => Ok (row, d)
  | None => Err ErrNoRows
  end).

Definition UpdatePartyRoomCAS (params : UpdatePartyRoomCASParams) : tx PartyRoom := statement (fun d =>
  match party_rooms d !! up_RoomID params with
  | None => Err ErrNoRows
  | Some row =>
      if String.eqb (row_RoomCode row) (up_RoomCode params)
         && (row_OwnershipEpoch row =? up_ExpectedOwnershipEpoch params)
         && (row_RoomVersion row =? up_ExpectedRoomVersion params)
         && (row_MembershipVersion row =? up_ExpectedMembershipVersion params)
      then
        let set := up_row params in
        let updated :=
          mkPartyRoom (row_RoomID row) (row_RoomCode row) (row_Visibility set) (row_Status set)
            (row_HostUserID set) (row_ParticipantCapacity set) (row_ParticipantAdmission set)
            (row_SpectatorAdmission set) (row_ActiveSessionID set) (row_ActiveGameID set)
            (row_LastFinishedSessionID set) (row_LastFinishedGameID set) (row_SelectedGameID set)
            (row_OwnershipEpoch set) (row_PauseRequestID set) (row_PauseRequestSessionID set)
            (row_PauseRequestedByUserID set) (row_PauseRequestedAt set) (row_ActivePauseID set)
            (row_ActivePauseSessionID set) (row_ActivePauseSource set)
            (row_ActivePauseRequestedByUserID set) (row_ActivePausePausedByUserID set)
            (row_ActivePausePausedAt set) (row_RoomVersion set) (row_MembershipVersion set)
            (row_CreatedAt row) (row_UpdatedAt set) in
        Ok (updated, d <| party_rooms := <[up_RoomID params := updated]> (party_rooms d) |>)
      else Err ErrNoRows
  end).

Definition CancelActiveRoomPendingStarts (cancelledAt : Time) (roomID : UUID) (epoch : Z) : tx unit :=
  statement (fun d =>
    Ok (tt, d <| room_pending_starts :=
      (fun start =>
         if (ps_RoomID start =? roomID) && (ps_OwnershipEpoch start =? epoch)
            && bool_decide (ps_CancelledAt start = None) && bool_decide (ps_ConsumedAt start = None)
         then start <| ps_CancelledAt := timeToPG cancelledAt |>
         else start) <$> room_pending_starts d |>)).

(** [OutboxEventRepository.Insert]: an identifier in use holds the same event,
    which is then left in place, or the insertion is refused. *)
Definition InsertOutboxEvent (fact : ParticipantRevocationFact) : tx unit := statement (fun d =>
  match outbox_events d !! fact_EventID fact with
  | Some existing => if bool_decide (existing = fact) then Ok (tt, d) else Err DriverError
  | None => Ok (tt, d <| outbox_events := <[fact_EventID fact := fact]> (outbox_events d) |>)
  end).

Definition CreateGameSystemInboxPending (sessionID eventID : UUID) (createdAt : Time) : tx unit :=
  statement (fun d =>
    if bool_decide (is_Some (game_system_inbox d !! eventID))
    then Err (PgError "23505" "game_system_inbox_source_unique")
    else Ok (tt, d <| game_system_inbox := <[eventID := (sessionID, timeToPG createdAt)]> (game_system_inbox d) |>)).

(** ** Transactions *)
Fixpoint createMembers (roomID : UUID) (username : UUID -> option string * option string)
    (members : list MemberSnapshot) : tx unit :=
  match members with
  | [] => tx_ret tt
  | member :: rest =>
      do* _ := CreateRoomMember roomID (createRoomMemberParams roomID member (username (m_UserID member))) in
      createMembers roomID username rest
  end.

Definition Create (room : Room) (d : Database) : sres Room * Database :=
  let snapshot := Snapshot room in
  if negb (RoomVersion snapshot =? 1) || negb (MembershipVersion snapshot =? 1)
     || negb (String.eqb (Status snapshot) RoomStatusLobby)
  then (Err (Domain ErrInvalidRoomInput), d)
  else match validateRoomPersistenceWidths snapshot with
  | Err e => (Err (Domain e), d)
  | Ok _ =>
      let '(outcome, d') := Run (
        do* row := CreatePartyRoom (createPartyRoomParams snapshot) (ID snapshot) in
        do* _ := CreateRoomActivityLease (ID snapshot) (CreatedAt snapshot) in
        do* _ := createMembers (ID snapshot) (fun _ => (None, None)) (Members snapshot) in
        do* members := ListRoomMembers (ID snapshot) in
        tx_lift (roomFromRows row members)) d in
      match outcome with
      | Err err => (Err (mapRoomRepositoryError ctxDone err ErrRoomCodeUnavailable), d')
      | Ok stored => (Ok stored, d')
      end
  end.

Definition get (read : tx PartyRoom) (d : Database) : sres Room :=
  match fst (Run (do* row := read in
                  do* members := ListRoomMembers (default Nil (row_RoomID row)) in
                  tx_lift (roomFromRows row members)) d) with
  | Err err => Err (mapRoomRepositoryError ctxDone err ErrRoomNotFound)
  | Ok loaded => Ok loaded
  end.

Definition GetByID (roomID : UUID) (d : Database) : sres Room :=
  if roomID =? Nil then Err (Domain ErrInvalidRoomInput) else get (GetPartyRoomForShare roomID) d.

Definition GetByCode (roomCode : string) (d : Database) : sres Room :=
  match validateRoomCode roomCode with
  | Err e => Err (Domain e)
  | Ok _ => get (GetPartyRoomByCodeForShare roomCode) d
  end.

(** The names the rows in place carry, for the rows that replace them. *)
Definition usernamesOf (members : list RoomMember) (userID : UUID) : option string * option string :=
  match List.find (fun row => bool_decide (rm_UserID row = Some userID)) members with
  | Some row => (rm_DisplayUsername row, rm_UsernameKey row)
  | None => (None, None)
  end.

Definition updateRoomAggregateCAS (before after : RoomSnapshot) : tx Room :=
  do* row := UpdatePartyRoomCAS (updatePartyRoomParams before after) in
  do* _ := (if OwnershipEpoch after =? u64 (OwnershipEpoch before + 1)
            then CancelActiveRoomPendingStarts (UpdatedAt after) (ID after) (i64 (OwnershipEpoch before))
            else tx_ret tt) in
  do* existing := ListRoomMembers (ID after) in
  do* _ := DeleteRoomMembers (ID after) in
  do* _ := createMembers (ID after) (usernamesOf existing) (Members after) in
  do* members := ListRoomMembers (ID after) in
  tx_lift (roomFromRows row members).

Definition UpdateCAS (current next : Room) (d : Database) : sres Room * Database :=
  let before := Snapshot current in
  let after := Snapshot next in
  match validateRoomTransition before after with
  | Err e => (Err (Domain e), d)
  | Ok _ =>
      let '(outcome, d') := Run (updateRoomAggregateCAS before after) d in
      match outcome with
      | Err err => (Err (mapRoomRepositoryError ctxDone err ErrRoomVersionConflict), d')
      | Ok stored => (Ok stored, d')
      end
  end.

(** The event is given by the fact it carries: [ParseParticipantRevokedEvent]
    returns it when it is valid. *)
Definition CommitRemoval (current next : Room) (event : ParticipantRevocationFact) (d : Database)
  : sres Room * Database :=
  let before := Snapshot current in
  let after := Snapshot next in
  match validateRoomTransition before after with
  | Err e => (Err (Domain e), d)
  | Ok _ =>
      if negb (Fact_Valid event) || negb (fact_RoomID event =? ID before)
         || negb (fact_SessionID event =? ActiveSessionID before)
         || negb (validRoomRemovalActor event before)
         || negb (fact_MembershipVersion event =? MembershipVersion after)
         || negb (fact_OccurredAt event =? UpdatedAt after)
         || negb (removedParticipantTransition before after (fact_UserID event))
      then (Err (Domain ErrInvalidRoomInput), d)
      else
        let '(outcome, d') := Run (
          do* updated := updateRoomAggregateCAS before after in
          do* _ := InsertOutboxEvent event in
          do* _ := CreateGameSystemInboxPending (fact_SessionID event) (fact_EventID event) (fact_OccurredAt event) in
          tx_ret updated) d in
        match outcome with
        | Err err => (Err (mapRoomRepositoryError ctxDone err ErrRoomVersionConflict), d')
        | Ok stored => (Ok stored, d')
        end
  end.
End Repository.

End RoomStore.
