(* ===== verification/RoomService.v ===== *)
(** * The room service

    Model of [platform/room/service.go]: authorization and orchestration between
    the aggregate and its repository.

    Every handler reads the room in one transaction and writes it in another.
    Other requests may commit in between, so a handler takes two states of the
    database: [d0], which its read sees, and [d1], on which its write runs; it
    returns its outcome and the database after the write.  [Env] has what the
    handler does not control: the clock, the identifiers and codes it draws, the
    failures of its two transactions. *)

From stdpp Require Import gmap.
From S2P Require Import Prelude GoLib Room RoomStore.

Module RoomService.
Import GoLib Room RoomStore.

Record Env := mkEnv {
  now : Time;
  (** [uuid.NewV7]; [None] when it fails. *)
  newID : option UUID;
  readFault : nat -> option DbError;
  writeFault : nat -> option DbError;
  ctxDone : bool;
  usernames : UUID -> option (string * string);
}.

Record RoomSelector := mkSelector { sel_ID : UUID; sel_Code : string }.

Abbreviation reply A := (sres A * Database)%type.

Definition reject {A} (e : RoomError) (d : Database) : reply A := (Err (Domain e), d).

Definition maximumRoomCodeAttempts : nat := 8.

Definition requiredVersion (value : Version) : bool := (0 <? v_Room value) && (0 <? v_Membership value).

Definition optionalExpectedVersion (current expected : Version) : res Version :=
  if (v_Room expected =? 0) && (v_Membership expected =? 0) then Ok current
  else if negb (requiredVersion expected) then Err ErrRoomVersionConflict
  else Ok expected.

Section Service.
Context (env : Env).

Let read (roomID : UUID) (d : Database) : sres Room := GetByID (readFault env) (ctxDone env) roomID d.
Let write (current next : Room) (d : Database) : reply Room :=
  UpdateCAS (writeFault env) (ctxDone env) (usernames env) current next d.

Definition resolve (selector : RoomSelector) (d0 : Database) : sres Room :=
  let code := TrimSpace (sel_Code selector) in
  if Bool.eqb (sel_ID selector =? Nil) (String.eqb code "") then Err (Domain ErrInvalidRoomInput)
  else if negb (sel_ID selector =? Nil) then read (sel_ID selector) d0
  else match validateRoomCode code with
  | Err e => Err (Domain e)
  | Ok _ => GetByCode (readFault env) (ctxDone env) code d0
  end.

(** The attempts of [CreateRoom]: each draws a code and its own failures. *)
Fixpoint createAttempts (roomID actorUserID : UUID) (vis : string) (capacity : Z) (participant spectator : string)
    (attempts : nat) (codes : nat -> option string) (faults : nat -> nat -> option DbError) (d : Database)
  : reply Room :=
  match attempts with
  | O => reject ErrRoomCodeUnavailable d
  | S attempts' =>
      match codes attempts' with
      | None => reject ErrInvalidRoomInput d
      | Some code =>
          match NewWithAdmission roomID actorUserID code vis capacity participant spectator (now env) with
          | Err e => reject e d
          | Ok candidate =>
              match Create (faults attempts') (ctxDone env) (usernames env) candidate d with
              | (Ok created, d') => (Ok created, d')
              | (Err (Domain ErrRoomCodeUnavailable), d') =>
                  createAttempts roomID actorUserID vis capacity participant spectator attempts' codes faults d'
              | (Err e, d') => (Err e, d')
              end
          end
      end
  end.

Definition CreateRoom (actorUserID : UUID) (vis : string) (capacity : Z) (participant spectator : string)
    (codes : nat -> option string) (faults : nat -> nat -> option DbError) (d : Database) : reply Room :=
  if actorUserID =? Nil then reject ErrInvalidRoomInput d
  else match newID env with
  | None => reject ErrInvalidRoomInput d
  | Some roomID =>
      createAttempts roomID actorUserID vis capacity participant spectator maximumRoomCodeAttempts codes faults d
  end.

Definition GetRoom (actorUserID : UUID) (selector : RoomSelector) (d0 : Database) : sres Room :=
  if actorUserID =? Nil then Err (Domain ErrInvalidRoomInput)
  else match resolve selector d0 with
  | Err e => Err e
  | Ok room =>
      if negb (bool_decide (is_Some (Member room actorUserID)))
         && negb (String.eqb (visibility (Snapshot room)) VisibilityPublic)
      then Err (Domain ErrRoomNotFound)
      else Ok room
  end.

Definition JoinRoom (actorUserID : UUID) (selector : RoomSelector) (intent : string) (expected : Version)
    (d0 d1 : Database) : reply (Room * JoinResult) :=
  if (actorUserID =? Nil) || negb (JoinIntent_Valid intent) then reject ErrInvalidRoomInput d1
  else match resolve selector d0 with
  | Err e => (Err e, d1)
  | Ok room =>
      if negb (bool_decide (is_Some (Member room actorUserID)))
         && String.eqb (visibility (Snapshot room)) VisibilityPrivate && String.eqb (sel_Code selector) ""
      then reject ErrRoomNotFound d1
      else match optionalExpectedVersion (versionOf room) expected with
      | Err e => reject e d1
      | Ok expected =>
          match Join room actorUserID intent expected (now env) with
          | (Err e, _) => reject e d1
          | (Ok (next, result), room) =>
              if negb (j_Changed result) then (Ok (room, result), d1)
              else match write room next d1 with
              | (Err e, d') => (Err e, d')
              | (Ok stored, d') =>
                  match Member stored actorUserID with
                  | None => (Err (Domain ErrRoomIntegrity), d')
                  | Some member =>
                      (Ok (stored, mkJoinResult member (j_Created result) (j_Changed result)), d')
                  end
              end
          end
      end
  end.

Definition ApproveMember (actorUserID roomID userID : UUID) (expected : Version) (d0 d1 : Database)
  : reply (Room * ApprovalResult) :=
  if (actorUserID =? Nil) || (roomID =? Nil) || (userID =? Nil) then reject ErrInvalidRoomInput d1
  else if negb (requiredVersion expected) then reject ErrRoomVersionConflict d1
  else match read roomID d0 with
  | Err e => (Err e, d1)
  | Ok room =>
      match ApproveWaiting room actorUserID userID expected (now env) with
      | (Err e, _) => reject e d1
      | (Ok (next, result), room) =>
          match write room next d1 with
          | (Err e, d') => (Err e, d')
          | (Ok stored, d') => (Ok (stored, mkApprovalResult (p_Member result) (versionOf stored)), d')
          end
      end
  end.

Definition SetAdmission (actorUserID roomID : UUID) (participant spectator : string) (expected : Version)
    (d0 d1 : Database) : reply Room :=
  if (actorUserID =? Nil) || (roomID =? Nil) then reject ErrInvalidRoomInput d1
  else if negb (requiredVersion expected) then reject ErrRoomVersionConflict d1
  else match read roomID d0 with
  | Err e => (Err e, d1)
  | Ok room =>
      match Room.SetAdmission room actorUserID participant spectator expected (now env) with
      | Err e => reject e d1
      | Ok next => write room next d1
      end
  end.

Definition SelectGame (actorUserID roomID : UUID) (gameID : string) (expected : Version) (d0 d1 : Database)
  : reply Room :=
  if (actorUserID =? Nil) || (roomID =? Nil) || String.eqb (TrimSpace gameID) "" then reject ErrInvalidRoomInput d1
  else if negb (requiredVersion expected) then reject ErrRoomVersionConflict d1
  else match read roomID d0 with
  | Err e => (Err e, d1)
  | Ok current =>
      match Room.SelectGame current actorUserID gameID expected (now env) with
      | Err e => reject e d1
      | Ok next =>
          if bool_decide (versionOf next = versionOf current) then (Ok current, d1)
          else write current next d1
      end
  end.

Definition RequestPause (actorUserID roomID sessionID : UUID) (expected : Version) (d0 d1 : Database)
  : reply Room :=
  if (actorUserID =? Nil) || (roomID =? Nil) || (sessionID =? Nil) then reject ErrInvalidRoomInput d1
  else if negb (requiredVersion expected) then reject ErrRoomVersionConflict d1
  else match newID env with
  | None => reject ErrInvalidRoomInput d1
  | Some requestID =>
      match read roomID d0 with
      | Err e => (Err e, d1)
      | Ok current =>
          match Room.RequestPause current actorUserID requestID sessionID expected (now env) with
          | Err e => reject e d1
          | Ok next => write current next d1
          end
      end
  end.

Definition RejectPause (actorUserID roomID requestID : UUID) (expected : Version) (d0 d1 : Database)
  : reply Room :=
  if (actorUserID =? Nil) || (roomID =? Nil) || (requestID =? Nil) then reject ErrInvalidRoomInput d1
  else if negb (requiredVersion expected) then reject ErrRoomVersionConflict d1
  else match read roomID d0 with
  | Err e => (Err e, d1)
  | Ok current =>
      match Room.RejectPause current actorUserID requestID expected (now env) with
      | Err e => reject e d1
      | Ok next => write current next d1
      end
  end.

Definition TransferHost (actorUserID roomID targetUserID : UUID) (ownershipEpoch : Z) (expected : Version)
    (d0 d1 : Database) : reply Room :=
  if (actorUserID =? Nil) || (roomID =? Nil) || (targetUserID =? Nil) || (ownershipEpoch =? 0)
  then reject ErrInvalidRoomInput d1
  else if negb (requiredVersion expected) then reject ErrRoomVersionConflict d1
  else match read roomID d0 with
  | Err e => (Err e, d1)
  | Ok current =>
      match Room.TransferHost current actorUserID targetUserID ownershipEpoch expected (now env) with
      | Err e => reject e d1
      | Ok next => write current next d1
      end
  end.

(** [NewParticipantRevokedEvent], up to the encoding of the fact. *)
Definition NewParticipantRevokedEvent (fact : ParticipantRevocationFact) : res ParticipantRevocationFact :=
  let fact := mkFact (fact_EventID fact) (fact_RoomID fact) (fact_SessionID fact) (fact_UserID fact)
                (fact_ActorKind fact) (fact_ActorID fact) (fact_Reason fact) (fact_MembershipVersion fact)
                (canonicalRoomTime (fact_OccurredAt fact)) in
  if negb (Fact_Valid fact) then Err ErrInvalidRoomInput else Ok fact.

Definition RemoveMember (actorUserID roomID userID : UUID) (reason : string) (expected : Version)
    (d0 d1 : Database) : reply (Room * RemovalResult) :=
  if (actorUserID =? Nil) || (roomID =? Nil) || (userID =? Nil)
     || negb (String.eqb reason RemovalReasonHostRemoved)
  then reject ErrInvalidRoomInput d1
  else if negb (requiredVersion expected) then reject ErrRoomVersionConflict d1
  else match read roomID d0 with
  | Err e => (Err e, d1)
  | Ok room =>
      match Room.RemoveMember room actorUserID userID expected (now env) with
      | (Err e, _) => reject e d1
      | (Ok (next, result), room) =>
          let finish (outcome : reply Room) (sourceEventID : UUID) : reply (Room * RemovalResult) :=
            match outcome with
            | (Err e, d') => (Err e, d')
            | (Ok stored, d') =>
                (Ok (stored, mkRemovalResult (r_Removed result) (r_ParticipantRevoked result)
                               (r_SessionID result) sourceEventID (versionOf stored)), d')
            end in
          if r_ParticipantRevoked result then
            match newID env with
            | None => reject ErrInvalidRoomInput d1
            | Some eventID =>
                match NewParticipantRevokedEvent
                        (mkFact eventID (ID (Snapshot room)) (r_SessionID result) (m_UserID (r_Removed result))
                           RemovalActorHost actorUserID reason (v_Membership (versionOf next))
                           (UpdatedAt (Snapshot next))) with
                | Err e => reject e d1
                | Ok event =>
                    finish (CommitRemoval (writeFault env) (ctxDone env) (usernames env) room next event d1) eventID
                end
            end
          else finish (write room next d1) (r_SourceEventID result)
      end
  end.

Definition CloseRoom (actorUserID roomID : UUID) (expected : Version) (d0 d1 : Database) : reply Room :=
  if (actorUserID =? Nil) || (roomID =? Nil) then reject ErrInvalidRoomInput d1
  else if negb (requiredVersion expected) then reject ErrRoomVersionConflict d1
  else match read roomID d0 with
  | Err e => (Err e, d1)
  | Ok room =>
      match Close room actorUserID expected (now env) with
      | Err e => reject e d1
      | Ok next =>
          if bool_decide (versionOf next = versionOf room) then (Ok room, d1) else write room next d1
      end
  end.

(** ** Requests that change a room *)
Inductive Request :=
| ReqJoin (selector : RoomSelector) (intent : string) (expected : Version)
| ReqApprove (roomID userID : UUID) (expected : Version)
| ReqSetAdmission (roomID : UUID) (participant spectator : string) (expected : Version)
| ReqSelectGame (roomID : UUID) (gameID : string) (expected : Version)
| ReqRequestPause (roomID sessionID : UUID) (expected : Version)
| ReqRejectPause (roomID requestID : UUID) (expected : Version)
| ReqTransferHost (roomID targetUserID : UUID) (ownershipEpoch : Z) (expected : Version)
| ReqRemove (roomID userID : UUID) (reason : string) (expected : Version)
| ReqClose (roomID : UUID) (expected : Version).

Definition roomReply {A} (outcome : reply (Room * A)) : reply Room :=
  match outcome with
  | (Ok (room, _), d) => (Ok room, d)
  | (Err e, d) => (Err e, d)
  end.

Definition serve (actorUserID : UUID) (request : Request) (d0 d1 : Database) : reply Room :=
  match request with
  | ReqJoin selector intent expected => roomReply (JoinRoom actorUserID selector intent expected d0 d1)
  | ReqApprove roomID userID expected => roomReply (ApproveMember actorUserID roomID userID expected d0 d1)
  | ReqSetAdmission roomID participant spectator expected =>
      SetAdmission actorUserID roomID participant spectator expected d0 d1
  | ReqSelectGame roomID gameID expected => SelectGame actorUserID roomID gameID expected d0 d1
  | ReqRequestPause roomID sessionID expected => RequestPause actorUserID roomID sessionID expected d0 d1
  | ReqRejectPause roomID requestID expected => RejectPause actorUserID roomID requestID expected d0 d1
  | ReqTransferHost roomID targetUserID ownershipEpoch expected =>
      TransferHost actorUserID roomID targetUserID ownershipEpoch expected d0 d1
  | ReqRemove roomID userID reason expected =>
      roomReply (RemoveMember actorUserID roomID userID reason expected d0 d1)
  | ReqClose roomID expected => CloseRoom actorUserID roomID expected d0 d1
  end.
End Service.

End RoomService.
