(* ===== verification/RoomStoreFacts.v ===== *)
(** * The room repository: properties

    Rows and rooms convert into each other without loss, and the effect of every
    transaction of the repository on the tables. *)

From stdpp Require Import gmap.
From S2P Require Import Prelude GoLib Room RoomFacts RoomInvariant RoomHistory RoomStore.

Module RoomStoreFacts.
Import GoLib Room RoomFacts RoomInvariant RoomHistory RoomStore.

(** ** Columns *)
Lemma i32_small z : 0 <= z <= maxInt32 -> i32 z = z.
Proof. unfold i32, maxInt32. intros. rewrite Z.mod_small; lia. Qed.

Lemma i64_small z : 0 <= z <= maxInt64 -> i64 z = z.
Proof. unfold i64, maxInt64. intros. rewrite Z.mod_small; lia. Qed.

Lemma u64_small z : 0 <= z <= maxUint64 -> u64 z = z.
Proof. unfold u64, maxUint64. intros. rewrite Z.mod_small; lia. Qed.

Lemma optionalUUID_roundtrip u : optionalUUIDFromPG (optionalUUIDToPG u) = u.
Proof. unfold optionalUUIDFromPG, optionalUUIDToPG, uuidToPG. destruct (u =? Nil) eqn:E; to_prop; [by subst|done]. Qed.

Lemma text_roundtrip t : optionalTextFromPG (textToPG t) = t.
Proof. unfold optionalTextFromPG, textToPG. destruct (String.eqb t "") eqn:E; to_prop; [by subst|done]. Qed.

Lemma timeToPG_some t : canonicalTime t -> t <> 0 -> timeToPG t = Some t.
Proof.
  unfold canonicalTime, canonicalRoomTime, timeToPG, IsZero. intros H Hn.
  rewrite (proj2 (Z.eqb_neq _ _) Hn) in *. by rewrite H.
Qed.

Lemma optionalTime_roundtrip t : canonicalTime t -> optionalTimeFromPG (optionalTimeToPG t) = t.
Proof.
  intros H. unfold optionalTimeFromPG, optionalTimeToPG, IsZero. destruct (t =? 0) eqn:E; to_prop; [by subst|].
  by rewrite timeToPG_some.
Qed.

(** ** Rooms that fit their columns *)
Record Storable (s : Room) : Prop := {
  st_sound : Sound s;
  st_created : 0 < CreatedAt s;
  st_widths : validateRoomPersistenceWidths s = Ok tt;
}.

Lemma widths_iff s : validateRoomPersistenceWidths s = Ok tt <->
  ParticipantCapacity s <= maxInt32 /\ RoomVersion s <= maxInt64 /\ MembershipVersion s <= maxInt64 /\
  OwnershipEpoch s <= maxInt64 /\ Forall (fun m => m_SeatIndex m <= maxInt32) (Members s).
Proof.
  unfold validateRoomPersistenceWidths. split.
  - intros H. do 2 inv_result H. to_prop. split_and!; try done. apply Forall_forall. intros m Hm.
    match goal with He : existsb _ _ = false |- _ => rename He into Hex end.
    destruct (maxInt32 <? m_SeatIndex m) eqn:E; [|lia].
    assert (existsb (fun member => maxInt32 <? m_SeatIndex member) (Members s) = true); [|congruence].
    apply existsb_exists. exists m. by rewrite <- list_elem_of_In.
  - intros (H1 & H2 & H3 & H4 & Hm). rewrite !(proj2 (Z.ltb_ge _ _)) by done. cbn.
    destruct (existsb _ _) eqn:E; [|done]. apply existsb_exists in E as (m & Hin & E).
    rewrite Forall_forall in Hm. rewrite <- list_elem_of_In in Hin. specialize (Hm m Hin). lia.
Qed.

Lemma Storable_bounds s : Storable s ->
  0 < ParticipantCapacity s <= maxInt32 /\ 1 <= RoomVersion s <= maxInt64 /\
  1 <= MembershipVersion s <= maxInt64 /\ 1 <= OwnershipEpoch s <= maxInt64.
Proof.
  intros [Hso _ Hw]. apply widths_iff in Hw as (H1 & H2 & H3 & H4 & _). destruct Hso as [Hwf Hs [? _] [? _] [? _]].
  split_and!; try done.
  destruct (host_participant _ (wf_members _ Hwf) (wf_host _ Hwf)) as (m & Hin & _).
  rewrite Forall_forall in Hs. assert (m_SeatIndex m ∈ seats (Members s)) as Hz.
  { unfold seats. apply list_elem_of_fmap. by exists m. }
  specialize (Hs _ Hz). lia.
Qed.

(** The order of the members does not matter. *)
Lemma Sound_order s ms : Sound s -> ms ≡ₚ Members s -> Sound (s <| Members := ms |>).
Proof.
  intros Hso Hp. pose proof (so_wf _ Hso) as Hwf. pose proof (wf_users _ Hwf) as Hnd.
  apply Sound_members; [done|rewrite Hp; by apply Sound_ListOK|].
  pose proof (wf_pause _ Hwf) as Hg. apply governance_iff in Hg.
  destruct Hg as [?|[[(H1 & H2 & H3 & H4 & H5 & H6 & (m & Hm & Hpm) & H8) Hc]|?]]; [by left| |by right; right].
  right; left. split; [|done]. split_and!; try done; [apply H6|apply H6|]. exists m. split; [|done].
  apply memberFromSnapshot_iff in Hm as [Hin Hu]; [|done].
  apply memberFromSnapshot_iff; [change (NoDup (users ms)); by rewrite Hp|].
  split; [change (m ∈ ms); by rewrite Hp|done].
Qed.

Lemma Storable_order s ms : Storable s -> ms ≡ₚ Members s -> Storable (s <| Members := ms |>).
Proof.
  intros [Hso Hc Hw] Hp. split; [by apply Sound_order|done|].
  apply widths_iff in Hw as (H1 & H2 & H3 & H4 & Hm). apply widths_iff. split_and!; try done.
  change (Forall (fun m => m_SeatIndex m <= maxInt32) ms). by rewrite Hp.
Qed.

(** ** Member rows *)
Definition rowFor (id : UUID) (m : MemberSnapshot) (row : RoomMember) : Prop :=
  exists names, row = createRoomMemberParams id m names.

Lemma memberFromRow_ok s m row :
  Storable s -> m ∈ Members s -> rowFor (ID s) m row -> memberFromRow (ID s) row = Ok m.
Proof.
  intros [Hso Hc Hw] Hin [names ->]. apply widths_iff in Hw as (Hcap & _).
  pose proof (Sound_ListOK _ Hso) as Hls.
  pose proof (lo_times _ _ Hls) as Ht. rewrite Forall_forall in Ht. destruct (Ht m Hin) as [Hj Hl].
  pose proof (lo_members _ _ Hls) as Hm. rewrite Forall_forall in Hm. specialize (Hm m Hin).
  apply memberOK_iff in Hm as (Hu & Hrole & (Hj0 & Hjl & Hcj & Hlu) & Hinv & _).
  unfold memberFromRow, createRoomMemberParams, uuidToPG. cbn [rm_RoomID rm_UserID rm_JoinedAt rm_LastSeenAt rm_Role rm_RequestedRole rm_SeatIndex].
  rewrite !timeToPG_some by (done || lia). rewrite Z.eqb_refl. cbn [negb].
  replace (optionalMemberRoleFromPG (textToPG (m_RequestedRole m))) with (m_RequestedRole m)
    by (symmetry; apply text_roundtrip).
  replace (optionalSeatFromPG (optionalSeatToPG m)) with (m_SeatIndex m); [by destruct m|].
  unfold optionalSeatToPG. destruct (String.eqb (m_Role m) MemberRoleParticipant) eqn:Ep; cbn [negb optionalSeatFromPG].
  - assert (m_SeatIndex m ∈ seats (Members s)) as Hz.
    { unfold seats, participants. apply list_elem_of_fmap. exists m. split; [done|].
      by rewrite list_elem_of_In, filter_In, <- list_elem_of_In. }
    pose proof (so_seats _ Hso) as Hs. rewrite Forall_forall in Hs. specialize (Hs _ Hz).
    rewrite i32_small by lia. symmetry. apply u32_small. unfold is_u32, maxUint32, maxInt32 in *. lia.
  - unfold MemberRole_Valid in Hrole. rewrite Ep in Hrole. unfold roleInvalid in Hinv. rewrite Ep in Hinv.
    destruct (String.eqb (m_Role m) MemberRoleSpectator); [by to_prop|].
    destruct (String.eqb (m_Role m) MemberRoleWaiting); [by to_prop|done].
Qed.

Lemma map_result_rows s ms rows :
  Storable s -> (forall m, m ∈ ms -> m ∈ Members s) -> Forall2 (rowFor (ID s)) ms rows ->
  map_result (memberFromRow (ID s)) rows = Ok ms.
Proof.
  intros Hs Hsub H. induction H as [|m row ms rows Hr _ IH]; [done|]. cbn [map_result].
  rewrite (memberFromRow_ok s m row) by (done || apply Hsub; apply elem_of_cons; by left). cbn [bind_result].
  rewrite IH; [done|]. intros m' Hm'. apply Hsub, elem_of_cons. by right.
Qed.

(** ** The room row *)
Lemma roomFromRows_ok s ms rows :
  Storable s -> ms ≡ₚ Members s -> map_result (memberFromRow (ID s)) rows = Ok ms ->
  roomFromRows (createPartyRoomParams s) rows = Ok (s <| Members := ms |>).
Proof.
  intros Hs Hp Hrows. pose proof (Storable_bounds _ Hs) as (Hcap & Hv & Hm & He). destruct Hs as [Hso Hc Hw].
  pose proof (Sound_order _ _ Hso Hp) as Hso'. pose proof (so_wf _ Hso) as Hwf. apply WF_parts in Hwf as (Hcan & Hh & _).
  destruct Hcan as [_ _ Hcc Hcu Hcq Hcp _ _ _]. pose proof (hd_updated _ Hh) as Hup.
  assert (Hlift : forall z, 1 <= z <= maxInt64 -> i64 z = z /\ u64 z = z).
  { intros z Hz. rewrite i64_small by lia. split; [done|]. apply u64_small. unfold maxInt64, maxUint64 in *. lia. }
  destruct (Hlift _ Hv) as [Ev Ev'], (Hlift _ Hm) as [Em Em'], (Hlift _ He) as [Ee Ee'].
  unfold roomFromRows, createPartyRoomParams, uuidToPG.
  cbn [row_RoomID row_RoomCode row_Visibility row_Status row_HostUserID row_ParticipantCapacity
       row_ParticipantAdmission row_SpectatorAdmission row_ActiveSessionID row_ActiveGameID
       row_LastFinishedSessionID row_LastFinishedGameID row_SelectedGameID row_OwnershipEpoch row_PauseRequestID
       row_PauseRequestSessionID row_PauseRequestedByUserID row_PauseRequestedAt row_ActivePauseID
       row_ActivePauseSessionID row_ActivePauseSource row_ActivePauseRequestedByUserID
       row_ActivePausePausedByUserID row_ActivePausePausedAt row_RoomVersion row_MembershipVersion
       row_CreatedAt row_UpdatedAt].
  rewrite !timeToPG_some by (done || lia). rewrite Ev, Em, Ee, i32_small by lia.
  rewrite !(proj2 (Z.leb_gt _ _)) by lia. cbn [orb]. rewrite Hrows. cbn [bind_result].
  rewrite !optionalUUID_roundtrip, !text_roundtrip, !optionalTime_roundtrip by done.
  rewrite Ev', Em', Ee', u32_small by (unfold is_u32, maxUint32, maxInt32 in *; lia).
  assert (mkRoom (ID s) (RoomCode s) (visibility s) (Status s) (HostUserID s) (ParticipantCapacity s)
            (ParticipantAdmission s) (SpectatorAdmission s) ms (ActiveSessionID s) (ActiveGameID s)
            (LastFinishedSessionID s) (LastFinishedGameID s)
            (mkPending (q_ID (PendingPause s)) (q_SessionID (PendingPause s)) (q_RequestedByUserID (PendingPause s))
               (q_RequestedAt (PendingPause s)))
            (mkPause (a_ID (CurrentPause s)) (a_SessionID (CurrentPause s)) (a_Source (CurrentPause s))
               (a_RequestedByUserID (CurrentPause s)) (a_PausedByUserID (CurrentPause s)) (a_PausedAt (CurrentPause s)))
            (SelectedGameID s) (RoomVersion s) (MembershipVersion s) (OwnershipEpoch s) (CreatedAt s) (UpdatedAt s)
          = s <| Members := ms |>) as ->.
  { destruct s as [? ? ? ? ? ? ? ? ? ? ? ? ? [? ? ? ?] [? ? ? ? ? ?] ? ? ? ? ? ?]. reflexivity. }
  by rewrite (WF_Restore _ (so_wf _ Hso')).
Qed.

(** ** The room the tables hold *)
Definition loadRoom (d : Database) (id : UUID) : res Room :=
  match party_rooms d !! id with
  | None => Err ErrRoomNotFound
  | Some row => roomFromRows row (merge_sort memberBefore (membersOf d (default Nil (row_RoomID row))))
  end.

Definition holds (d : Database) (s : Room) : Prop :=
  party_rooms d !! ID s = Some (createPartyRoomParams s) /\
  Forall2 (rowFor (ID s)) (Members s) (membersOf d (ID s)).

Lemma Forall2_Permutation_r {A B} (R : A -> B -> Prop) l k k' :
  Forall2 R l k -> k ≡ₚ k' -> exists l', l' ≡ₚ l /\ Forall2 R l' k'.
Proof.
  intros H Hp. revert l H. induction Hp as [|y k k' _ IH|y1 y2 k|k1 k2 k3 _ IH1 _ IH2]; intros l H.
  - exists l. split; [done|]. exact H.
  - inversion H as [|x ? l' ? Hx Hl]; subst. destruct (IH _ Hl) as (l'' & Hp & Hf). exists (x :: l'').
    split; [by rewrite Hp|by constructor].
  - inversion H as [|x1 ? l1 ? Hx1 Hl1]; subst. inversion Hl1 as [|x2 ? l2 ? Hx2 Hl2]; subst.
    exists (x2 :: x1 :: l2). split; [apply Permutation_swap|by repeat constructor].
  - destruct (IH1 _ H) as (l1 & Hp1 & Hf1). destruct (IH2 _ Hf1) as (l2 & Hp2 & Hf2). exists l2.
    split; [by rewrite Hp2|done].
Qed.

(** What is held can be loaded, up to the order of the members. *)
Lemma holds_load d s :
  Storable s -> holds d s ->
  exists ms, ms ≡ₚ Members s /\ loadRoom d (ID s) = Ok (s <| Members := ms |>).
Proof.
  intros Hs [Hrow Hms]. unfold loadRoom. rewrite Hrow. cbn [createPartyRoomParams row_RoomID uuidToPG default].
  destruct (Forall2_Permutation_r _ _ _ (merge_sort memberBefore (membersOf d (ID s))) Hms) as (ms & Hp & Hf).
  { symmetry. apply merge_sort_Permutation. }
  exists ms. split; [done|]. apply roomFromRows_ok; [done|done|].
  apply map_result_rows; [done| |done]. intros m Hm. by rewrite <- Hp.
Qed.

(** Tables that agree on a room. *)
Definition sameRoomIn (id : UUID) (d d' : Database) : Prop :=
  party_rooms d' !! id = party_rooms d !! id /\ room_members d' !! id = room_members d !! id.

Definition sameElsewhere (id : UUID) (d d' : Database) : Prop := forall k, k <> id -> sameRoomIn k d d'.

Lemma sameRoomIn_load id d d' :
  sameRoomIn id d d' -> (forall row, party_rooms d !! id = Some row -> row_RoomID row = Some id) ->
  loadRoom d' id = loadRoom d id.
Proof.
  intros [Hr Hm] Hid. unfold loadRoom, membersOf. rewrite Hr. destruct (party_rooms d !! id) as [row|] eqn:E; [|done].
  rewrite (Hid row eq_refl). change (default Nil (Some id)) with id. by rewrite Hm.
Qed.

Lemma sameRoomIn_holds s d d' : sameRoomIn (ID s) d d' -> holds d s -> holds d' s.
Proof. intros [Hr Hm] [H1 H2]. unfold holds, membersOf in *. by rewrite Hr, Hm. Qed.

(** ** Statements and transactions *)
Section Transactions.
Context (fault : nat -> option DbError) (ctxDone : bool) (names : UUID -> option (string * string)).

Lemma statement_inv {A} (f : Database -> result DbError (A * Database)) d n a d' n' :
  statement fault f (d, n) = Ok (a, (d', n')) -> f d = Ok (a, d').
Proof.
  unfold statement. destruct (fault n); [done|]. intros H. inv_result H. destruct value as [a1 d1].
  by injection H as <- <- <-.
Qed.

Lemma tx_bind_inv {A B} (m : tx A) (f : A -> tx B) d n b d' n' :
  tx_bind m f (d, n) = Ok (b, (d', n')) ->
  exists a d1 n1, m (d, n) = Ok (a, (d1, n1)) /\ f a (d1, n1) = Ok (b, (d', n')).
Proof. unfold tx_bind. intros H. inv_result H. destruct value as [a [d1 n1]]. by exists a, d1, n1. Qed.

Lemma Run_inv {A} (work : tx A) d out d' :
  Run fault work d = (out, d') ->
  (exists e, out = Err e /\ d' = d) \/ (exists a n, out = Ok a /\ work (d, 1%nat) = Ok (a, (d', n))).
Proof.
  unfold Run. destruct (fault 0%nat); [intros [= <- <-]; left; by eexists|].
  destruct (work (d, 1%nat)) as [[a [d1 n]]|e]; [|intros [= <- <-]; left; by eexists].
  destruct (fault n); intros [= <- <-]; [left; by eexists|right; by eexists _, _].
Qed.

Lemma fillUsername_rowFor id m row row' :
  rowFor id m row -> fillUsername names row = Ok row' -> rowFor id m row'.
Proof.
  intros [nm ->]. unfold fillUsername, createRoomMemberParams. cbn.
  destruct (names _) as [[display key]|].
  - intros [= <-]. by exists (Some display, Some key).
  - destruct nm as [[display|] [key|]]; try done. cbn. intros [= <-]. by exists (Some display, Some key).
Qed.

(** The rows [createMembers] adds. *)
Lemma createMembers_inv id username ms d n u d' n' :
  createMembers fault names id username ms (d, n) = Ok (u, (d', n')) ->
  party_rooms d' = party_rooms d /\ (forall k, k <> id -> room_members d' !! k = room_members d !! k) /\
  exists rows, membersOf d' id = membersOf d id ++ rows /\ Forall2 (rowFor id) ms rows.
Proof.
  revert d n. induction ms as [|m ms IH]; intros d n H; cbn [createMembers] in H.
  - injection H as _ <- _. split_and!; [done|done|]. exists []. by rewrite app_nil_r.
  - apply tx_bind_inv in H as ([] & d1 & n1 & H1 & H2). apply statement_inv in H1.
    destruct (existsb _ _); [done|]. inv_result H1. rename value into filled. injection H1 as <-.
    apply IH in H2 as (Hr & Hk & rows & Hm & Hf). split_and!; [done| |].
    + intros k Hne. rewrite Hk by done. cbn. by rewrite lookup_insert_ne.
    + exists (filled :: rows). split.
      * rewrite Hm. unfold membersOf at 1. cbn. rewrite lookup_insert_eq. cbn. by rewrite <- app_assoc.
      * constructor; [|done]. eapply fillUsername_rowFor; [|done]. by eexists.
Qed.

(** What one update of the aggregate does to the tables. *)
Lemma updateRoomAggregateCAS_inv before after d n stored d' n' :
  updateRoomAggregateCAS fault names before after (d, n) = Ok (stored, (d', n')) -> ID after = ID before ->
  exists row row',
    party_rooms d !! ID before = Some row /\ row_RoomCode row = RoomCode before /\
    row_OwnershipEpoch row = i64 (OwnershipEpoch before) /\ row_RoomVersion row = i64 (RoomVersion before) /\
    row_MembershipVersion row = i64 (MembershipVersion before) /\
    party_rooms d' !! ID before = Some row' /\
    (row_RoomID row = Some (ID after) -> row_RoomCode row = RoomCode after ->
     row_CreatedAt row = timeToPG (CreatedAt after) -> row' = createPartyRoomParams after) /\
    Forall2 (rowFor (ID after)) (Members after) (membersOf d' (ID after)) /\
    roomFromRows row' (merge_sort memberBefore (membersOf d' (ID after))) = Ok stored /\
    sameElsewhere (ID before) d d'.
Proof.
  intros H Hid. unfold updateRoomAggregateCAS in H.
  apply tx_bind_inv in H as (row' & d1 & n1 & H1 & H). apply statement_inv in H1.
  cbn [updatePartyRoomParams up_RoomID up_RoomCode up_ExpectedOwnershipEpoch up_ExpectedRoomVersion
       up_ExpectedMembershipVersion up_row] in H1.
  destruct (party_rooms d !! ID before) as [row|] eqn:Erow; [|done].
  destruct (_ && _) eqn:Eg in H1; [|done].
  apply andb_prop in Eg as [[[Ecode Eepoch]%andb_prop Ever]%andb_prop Emem].
  apply eqb_string_true in Ecode. apply Z.eqb_eq in Eepoch, Ever, Emem.
  injection H1 as Hrow' Hd1. exists row, row'.
  apply tx_bind_inv in H as (u2 & d2 & n2 & H2 & H).
  assert (party_rooms d2 = party_rooms d1 /\ room_members d2 = room_members d1) as [Hp2 Hm2].
  { destruct (_ =? _) in H2; [|by injection H2 as _ <- _]. apply statement_inv in H2. by injection H2 as _ <-. }
  apply tx_bind_inv in H as (existing & d3 & n3 & H3 & H). apply statement_inv in H3. injection H3 as _ <-.
  apply tx_bind_inv in H as (u4 & d4 & n4 & H4 & H). apply statement_inv in H4. injection H4 as _ Hd4.
  apply tx_bind_inv in H as (u5 & d5 & n5 & H5 & H). apply createMembers_inv in H5 as (Hp5 & Hm5 & rows & Hrows & Hf).
  apply tx_bind_inv in H as (members & d6 & n6 & H6 & H). apply statement_inv in H6. injection H6 as Hmembers <-.
  unfold tx_lift in H. destruct (roomFromRows row' members) as [r|] eqn:Er; [|done]. injection H as -> <- _.
  assert (Hrooms : party_rooms d5 = <[ID before := row']> (party_rooms d)).
  { rewrite Hp5, <- Hd4. cbn. rewrite Hp2, <- Hd1, Hrow'. done. }
  assert (Hmem4 : room_members d4 = delete (ID after) (room_members d)).
  { rewrite <- Hd4. cbn. by rewrite Hm2, <- Hd1. }
  assert (Hnew : membersOf d5 (ID after) = rows).
  { rewrite Hrows. unfold membersOf at 1. by rewrite Hmem4, lookup_delete_eq. }
  split_and!; try done; try (by symmetry).
  - by rewrite Hrooms, lookup_insert_eq.
  - intros E1 E2 E3. rewrite <- Hrow'. unfold createPartyRoomParams. rewrite E1, E2, E3. reflexivity.
  - by rewrite Hnew.
  - by rewrite Hmembers.
  - intros k Hk. split; [by rewrite Hrooms, lookup_insert_ne|]. rewrite Hm5 by congruence.
    by rewrite Hmem4, lookup_delete_ne by congruence.
Qed.
End Transactions.

End RoomStoreFacts.
