(* ===== verification/RoomSystem.v ===== *)
(** * Rooms under concurrency

    Any number of requests read rooms and commit transitions computed from what
    they read, in any interleaving of their transactions and with any failures.
    [sys_step] is one transaction of one request; the invariant [SysOK] of the
    reachable states gives that every stored room can be loaded and is sound, and
    that a write takes effect only on the very room it was computed from. *)

From stdpp Require Import gmap.
From S2P Require Import Prelude GoLib Room RoomFacts RoomInvariant RoomHistory RoomStore RoomStoreFacts.

Module RoomSystem.
Import GoLib Room RoomFacts RoomInvariant RoomHistory RoomStore RoomStoreFacts.

(** ** What the transactions do *)
Lemma Snapshot_id r : Snapshot r = r.
Proof. by destruct r. Qed.

(** The effect of a committed write of [next], computed from [current]. *)
Record Written (current next stored : Room) (d d' : Database) : Prop := {
  wr_transition : validateRoomTransition current next = Ok tt;
  wr_rows : exists row row',
    party_rooms d !! ID current = Some row /\ row_RoomCode row = RoomCode current /\
    row_RoomVersion row = i64 (RoomVersion current) /\
    party_rooms d' !! ID current = Some row' /\
    (row_RoomID row = Some (ID next) -> row_RoomCode row = RoomCode next ->
     row_CreatedAt row = timeToPG (CreatedAt next) -> row' = createPartyRoomParams next) /\
    Forall2 (rowFor (ID next)) (Members next) (membersOf d' (ID next)) /\
    roomFromRows row' (merge_sort memberBefore (membersOf d' (ID next))) = Ok stored;
  wr_frame : sameElsewhere (ID current) d d';
}.

Lemma transition_id before after : validateRoomTransition before after = Ok tt ->
  ID after = ID before /\ RoomCode after = RoomCode before /\ CreatedAt after = CreatedAt before /\
  RoomVersion after = u64 (RoomVersion before + 1) /\
  validateRoomPersistenceWidths before = Ok tt /\ validateRoomPersistenceWidths after = Ok tt.
Proof.
  unfold validateRoomTransition. intros H. do 3 inv_result H.
  repeat match goal with v : unit |- _ => destruct v end. to_prop. done.
Qed.

Section Effects.
Context (fault : nat -> option DbError) (ctxDone : bool) (names : UUID -> option (string * string)).

Lemma UpdateCAS_effect current next d out d' :
  UpdateCAS fault ctxDone names current next d = (out, d') ->
  (exists e, out = Err e /\ d' = d) \/ (exists stored, out = Ok stored /\ Written current next stored d d').
Proof.
  unfold UpdateCAS. rewrite !Snapshot_id. cbv zeta.
  destruct (validateRoomTransition current next) as [[]|] eqn:Et; [|intros [= <- <-]; left; by eexists].
  destruct (Run fault _ d) as [o d1] eqn:E. apply Run_inv in E as [(e & -> & ->)|(r & n & -> & Hw)].
  - intros [= <- <-]. left. by eexists.
  - intros [= <- <-]. right. exists r. split; [done|]. destruct (transition_id _ _ Et) as (Hid & _).
    apply updateRoomAggregateCAS_inv in Hw as (row & row' & H1 & H2 & _ & H4 & _ & H6 & H7 & H8 & H9 & H10); [|done].
    split; [done| |done]. exists row, row'. done.
Qed.

(** A removal is written together with its event and its inbox entry. *)
Lemma CommitRemoval_effect current next event d out d' :
  CommitRemoval fault ctxDone names current next event d = (out, d') ->
  (exists e, out = Err e /\ d' = d) \/
  (exists stored, out = Ok stored /\ Written current next stored d d' /\
     removedParticipantTransition current next (fact_UserID event) = true /\
     outbox_events d' !! fact_EventID event = Some event /\
     exists at_, game_system_inbox d' !! fact_EventID event = Some (fact_SessionID event, at_)).
Proof.
  unfold CommitRemoval. rewrite !Snapshot_id. cbv zeta.
  destruct (validateRoomTransition current next) as [[]|] eqn:Et; [|intros [= <- <-]; left; by eexists].
  destruct (_ || _) eqn:Eguard; [intros [= <- <-]; left; by eexists|]. apply orb_false_iff in Eguard as [_ Eguard].
  destruct (Run fault _ d) as [o d1] eqn:E. apply Run_inv in E as [(e & -> & ->)|(r & n & -> & Hw)].
  - intros [= <- <-]. left. by eexists.
  - intros [= <- <-]. right. exists r. split; [done|]. destruct (transition_id _ _ Et) as (Hid & _).
    apply tx_bind_inv in Hw as (r' & d2 & n2 & Hw & H).
    apply updateRoomAggregateCAS_inv in Hw as (row & row' & H1 & H2 & _ & H4 & _ & H6 & H7 & H8 & H9 & H10); [|done].
    apply tx_bind_inv in H as (u3 & d3 & n3 & H3 & H). apply statement_inv in H3.
    apply tx_bind_inv in H as (u5 & d5 & n5 & H5 & H). apply statement_inv in H5.
    destruct (bool_decide _) in H5; [done|]. injection H5 as _ Hd5. injection H as -> <- _.
    assert (party_rooms d3 = party_rooms d2 /\ room_members d3 = room_members d2 /\
            outbox_events d3 !! fact_EventID event = Some event) as (Hp3 & Hm3 & Ho3).
    { destruct (outbox_events d2 !! _) as [old|] eqn:Eo.
      - destruct (bool_decide _) eqn:Eb; [|done]. apply bool_decide_eq_true in Eb. by injection H3 as _ <-; subst.
      - injection H3 as _ <-. split_and!; [done|done|]. cbn. by rewrite lookup_insert_eq. }
    assert (Hp : party_rooms d5 = party_rooms d2) by by rewrite <- Hd5.
    assert (Hm : room_members d5 = room_members d2) by by rewrite <- Hd5.
    split_and!; [|by apply negb_false_iff in Eguard|by rewrite <- Hd5|].
    + split; [done| |].
      * exists row, row'. unfold membersOf in *. rewrite Hp, Hm. done.
      * intros k Hk. unfold sameRoomIn. rewrite Hp, Hm. by apply H10.
    + eexists. rewrite <- Hd5. cbn. by rewrite lookup_insert_eq.
Qed.

Lemma GetByID_load id d r :
  (forall row, party_rooms d !! id = Some row -> row_RoomID row = Some id) ->
  GetByID fault ctxDone id d = Ok r -> loadRoom d id = Ok r.
Proof.
  intros Hid. unfold GetByID, get. destruct (id =? Nil); [done|].
  destruct (Run fault _ d) as [o d1] eqn:E. cbn [fst]. apply Run_inv in E as [(e & -> & ->)|(a & n & -> & Hw)]; [done|].
  intros [= ->]. apply tx_bind_inv in Hw as (row & d2 & n2 & H2 & H). apply statement_inv in H2.
  unfold loadRoom. destruct (party_rooms d !! id) as [row0|] eqn:Er; [|done]. injection H2 as -> <-.
  apply tx_bind_inv in H as (ms & d3 & n3 & H3 & H). apply statement_inv in H3. injection H3 as <- <-.
  unfold tx_lift in H. destruct (roomFromRows row _) as [r0|] eqn:Ef; [|done]. by injection H as -> _ _.
Qed.

Lemma GetByCode_load code d r :
  (forall id row, party_rooms d !! id = Some row -> row_RoomID row = Some id) ->
  GetByCode fault ctxDone code d = Ok r -> exists id, loadRoom d id = Ok r.
Proof.
  intros Hid. unfold GetByCode, get. destruct (validateRoomCode code); [|done].
  destruct (Run fault _ d) as [o d1] eqn:E. cbn [fst]. apply Run_inv in E as [(e & -> & ->)|(a & n & -> & Hw)]; [done|].
  intros [= ->]. apply tx_bind_inv in Hw as (row & d2 & n2 & H2 & H). apply statement_inv in H2.
  destruct (List.find _ _) as [[id row0]|] eqn:Er; [|done]. injection H2 as -> <-.
  apply find_some in Er as [Hin _]. apply list_elem_of_In, elem_of_map_to_list in Hin.
  exists id. unfold loadRoom. rewrite Hin.
  apply tx_bind_inv in H as (ms & d3 & n3 & H3 & H). apply statement_inv in H3. injection H3 as <- <-.
  unfold tx_lift in H. destruct (roomFromRows row _) as [r0|] eqn:Ef; [|done]. by injection H as -> _ _.
Qed.

(** A created room is held under an identifier that was free. *)
Lemma Create_effect room d out d' :
  Create fault ctxDone names room d = (out, d') ->
  (exists e, out = Err e /\ d' = d) \/
  (exists stored, out = Ok stored /\ validateRoomPersistenceWidths room = Ok tt /\
     party_rooms d !! ID room = None /\
     party_rooms d' !! ID room = Some (createPartyRoomParams room) /\
     (room_members d !! ID room = None ->
      Forall2 (rowFor (ID room)) (Members room) (membersOf d' (ID room))) /\
     sameElsewhere (ID room) d d').
Proof.
  unfold Create. rewrite !Snapshot_id. cbv zeta. destruct (_ || _); [intros [= <- <-]; left; by eexists|].
  destruct (validateRoomPersistenceWidths room) as [[]|] eqn:Ew; [|intros [= <- <-]; left; by eexists].
  destruct (Run fault _ d) as [o d1] eqn:E. apply Run_inv in E as [(e & -> & ->)|(r & n & -> & Hw)];
    [intros [= <- <-]; left; by eexists|].
  intros [= <- <-]. right. exists r. split_and!; [done|done|..].
  all: apply tx_bind_inv in Hw as (row & d2 & n2 & H2 & H); apply statement_inv in H2;
    destruct (bool_decide _) eqn:Eb in H2; [done|]; apply bool_decide_eq_false, eq_None_not_Some in Eb;
    destruct (existsb _ _); [done|]; injection H2 as <- Hd2;
    apply tx_bind_inv in H as (u3 & d3 & n3 & H3 & H); apply statement_inv in H3; injection H3 as _ Hd3;
    apply tx_bind_inv in H as (u4 & d4 & n4 & H4 & H); apply createMembers_inv in H4 as (Hp4 & Hm4 & rows & Hrows & Hf);
    apply tx_bind_inv in H as (ms & d5 & n5 & H5 & H); apply statement_inv in H5; injection H5 as <- <-;
    unfold tx_lift in H; destruct (roomFromRows _ _) as [r0|] eqn:Ef; [|done]; injection H as -> <- _;
    assert (Hrooms : party_rooms d4 = <[ID room := createPartyRoomParams room]> (party_rooms d))
      by (rewrite Hp4, <- Hd3; cbn; rewrite <- Hd2; done);
    assert (Hmem : room_members d3 = room_members d) by (rewrite <- Hd3; cbn; rewrite <- Hd2; done).
  - done.
  - by rewrite Hrooms, lookup_insert_eq.
  - intros Hn. rewrite Hrows. unfold membersOf at 1. by rewrite Hmem, Hn.
  - intros k Hk. split; [by rewrite Hrooms, lookup_insert_ne|]. by rewrite Hm4, Hmem by done.
Qed.
End Effects.

(** ** Interleaved requests

    A state is the tables and the rooms the requests have read so far. *)
Inductive sys_step : Database * list Room -> Database * list Room -> Prop :=
| sysCreate fault ctxDone names d seen id host code vis capacity padm sadm at_ room out d' :
    0 < at_ -> 0 <= capacity -> NewWithAdmission id host code vis capacity padm sadm at_ = Ok room ->
    Create fault ctxDone names room d = (out, d') ->
    sys_step (d, seen) (d', seen)
| sysGetByID fault ctxDone d seen id r :
    GetByID fault ctxDone id d = Ok r -> sys_step (d, seen) (d, r :: seen)
| sysGetByCode fault ctxDone d seen code r :
    GetByCode fault ctxDone code d = Ok r -> sys_step (d, seen) (d, r :: seen)
| sysUpdate fault ctxDone names d seen current ms c v at_ next out d' :
    current ∈ seen -> exec current c v at_ = Ok next ->
    UpdateCAS fault ctxDone names (current <| Members := ms |>) next d = (out, d') ->
    sys_step (d, seen) (d', seen)
| sysRemoval fault ctxDone names d seen current ms c v at_ next event out d' :
    current ∈ seen -> exec current c v at_ = Ok next ->
    CommitRemoval fault ctxDone names (current <| Members := ms |>) next event d = (out, d') ->
    sys_step (d, seen) (d', seen).

Definition reachable (state : Database * list Room) : Prop := rtc sys_step (emptyDatabase, []) state.

(** A read room and the row that is now in place of the one it was read from. *)
Definition Seen (d : Database) (r : Room) : Prop :=
  Storable r /\
  exists row, party_rooms d !! ID r = Some row /\ row_CreatedAt row = timeToPG (CreatedAt r) /\
    row_RoomCode row = RoomCode r /\ RoomVersion r <= row_RoomVersion row /\
    (RoomVersion r = row_RoomVersion row -> loadRoom d (ID r) = Ok r).

Record SysOK (d : Database) (seen : list Room) : Prop := {
  sy_rooms : forall id row, party_rooms d !! id = Some row -> exists s, Storable s /\ ID s = id /\ holds d s;
  sy_members : forall id, party_rooms d !! id = None -> room_members d !! id = None;
  sy_seen : Forall (Seen d) seen;
}.

Lemma SysOK_ids d seen id row :
  SysOK d seen -> party_rooms d !! id = Some row -> row_RoomID row = Some id.
Proof.
  intros Hok H. destruct (sy_rooms _ _ Hok _ _ H) as (s & _ & <- & [Hrow _]). rewrite Hrow in H. by injection H as <-.
Qed.

Lemma SysOK_load d seen id row :
  SysOK d seen -> party_rooms d !! id = Some row -> exists r, loadRoom d id = Ok r /\ Storable r /\ Seen d r /\ ID r = id.
Proof.
  intros Hok H. destruct (sy_rooms _ _ Hok _ _ H) as (s & Hs & <- & Hh).
  destruct (holds_load _ _ Hs Hh) as (ms & Hp & Hl). exists (s <| Members := ms |>).
  pose proof (Storable_order _ _ Hs Hp) as Hs'. split_and!; [done|done| |done]. split; [done|].
  exists (createPartyRoomParams s). split_and!; [apply Hh|done|done| |done].
  change (RoomVersion s <= i64 (RoomVersion s)). destruct (Storable_bounds _ Hs) as (_ & ? & _).
  rewrite i64_small by lia. lia.
Qed.

Lemma Seen_frame d d' r id :
  SysOK d [] -> sameElsewhere id d d' -> ID r <> id -> Seen d r -> Seen d' r.
Proof.
  intros Hok Hsame Hne [Hs (row & H1 & H2 & H3 & H4 & H5)]. split; [done|]. exists row.
  destruct (Hsame _ Hne) as [Hr Hm]. split_and!; [by rewrite Hr|done|done|done|].
  intros Hv. rewrite <- (H5 Hv). apply sameRoomIn_load; [done|]. intros row' Hrow'. by eapply SysOK_ids.
Qed.

(** Loading what was just read. *)
Lemma SysOK_read d seen r id : SysOK d seen -> loadRoom d id = Ok r -> SysOK d (r :: seen).
Proof.
  intros Hok Hl. split; [apply Hok|apply Hok|]. constructor; [|apply Hok].
  destruct (party_rooms d !! id) as [row|] eqn:E; [|by unfold loadRoom in Hl; rewrite E in Hl].
  destruct (SysOK_load _ _ _ _ Hok E) as (r' & Hl' & _ & Hseen & _). congruence.
Qed.

(** A committed write replaces the room it was computed from. *)
Lemma SysOK_written d seen current ms c v at_ next stored d' :
  SysOK d seen -> current ∈ seen -> exec current c v at_ = Ok next ->
  Written (current <| Members := ms |>) next stored d d' ->
  SysOK d' seen /\ loadRoom d (ID current) = Ok current /\ Storable next /\ holds d' next /\ ID next = ID current /\
  loadRoom d' (ID current) = Ok stored.
Proof.
  intros Hok Hin Hex [Ht (row & row' & H1 & H2 & H3 & H4 & H5 & H6 & H7) Hframe].
  pose proof (sy_seen _ _ Hok) as Hall. rewrite Forall_forall in Hall.
  destruct (Hall _ Hin) as [Hs (row0 & G1 & G2 & G3 & G4 & G5)].
  change (ID (current <| Members := ms |>)) with (ID current) in *.
  rewrite H1 in G1. injection G1 as <-.
  destruct (transition_id _ _ Ht) as (Eid & Ecode & Ecreated & Ever & _ & Hw).
  change (ID next = ID current) in Eid. change (RoomCode next = RoomCode current) in Ecode.
  change (CreatedAt next = CreatedAt current) in Ecreated. change (RoomVersion next = u64 (RoomVersion current + 1)) in Ever.
  change (row_RoomVersion row = i64 (RoomVersion current)) in H3.
  pose proof (Storable_bounds _ Hs) as (_ & Hb & _). rewrite i64_small in H3 by lia.
  assert (Ever' : RoomVersion next = RoomVersion current + 1).
  { rewrite Ever. apply u64_small. unfold maxInt64, maxUint64 in *. lia. }
  assert (Hnext : Storable next).
  { split; [by eapply exec_Sound; [apply Hs|]|rewrite Ecreated; apply Hs|done]. }
  pose proof (Storable_bounds _ Hnext) as (_ & Hb' & _).
  assert (Hrow' : row' = createPartyRoomParams next).
  { apply H5; [rewrite Eid; by eapply SysOK_ids|congruence|by rewrite Ecreated]. }
  assert (Hholds : holds d' next).
  { split; [rewrite Eid; by rewrite H4, Hrow'|done]. }
  split_and!; try done; [|by apply G5|].
  - split.
    + intros id r Hr. destruct (decide (id = ID current)) as [->|Hne]; [by exists next|].
      destruct (Hframe _ Hne) as [Hp Hm]. rewrite Hp in Hr.
      destruct (sy_rooms _ _ Hok _ _ Hr) as (s & Hss & <- & Hh). exists s. split_and!; [done|done|].
      by eapply sameRoomIn_holds.
    + intros id Hn. destruct (decide (id = ID current)) as [->|Hne]; [congruence|].
      destruct (Hframe _ Hne) as [Hp Hm]. rewrite Hm. apply (sy_members _ _ Hok). by rewrite <- Hp.
    + apply Forall_forall. intros r Hr. destruct (decide (ID r = ID current)) as [Heq|Hne].
      * destruct (Hall _ Hr) as [Hsr (rw & R1 & R2 & R3 & R4 & _)]. rewrite Heq, H1 in R1. injection R1 as <-.
        split; [done|]. exists row'. rewrite Heq. rewrite Hrow'.
        change (row_RoomVersion (createPartyRoomParams next)) with (i64 (RoomVersion next)).
        rewrite i64_small by lia. split_and!; [by rewrite H4, Hrow'| | |lia|lia].
        -- rewrite <- R2, G2. cbn. by rewrite Ecreated.
        -- cbn. congruence.
      * eapply Seen_frame; [|done|done|by apply Hall]. destruct Hok. by split.
  - unfold loadRoom. rewrite H4, Hrow'. cbn [createPartyRoomParams row_RoomID uuidToPG].
    change (default Nil (Some (ID next))) with (ID next). by rewrite <- Hrow'.
Qed.

Lemma New_fields id host code vis capacity padm sadm at_ r :
  NewWithAdmission id host code vis capacity padm sadm at_ = Ok r -> CreatedAt r = canonicalRoomTime at_ /\ canonicalRoomTime at_ <> 0.
Proof.
  unfold NewWithAdmission. cbv zeta. intros H. do 3 inv_result H. to_prop.
  apply Restore_iff in H as [-> _]. rewrite canonicalRoom_checked. unfold withCanonical. rewrite normalizeSnapshot_eq.
  unfold IsZero in *. to_prop. split; [apply canonicalRoomTime_idem|done].
Qed.

Lemma canonicalRoomTime_pos t : 0 < t -> 0 <= canonicalRoomTime t.
Proof.
  intros H. unfold canonicalRoomTime, IsZero. rewrite (proj2 (Z.eqb_neq _ _)) by lia.
  unfold Truncate, Microsecond. pose proof (Z.mod_le t 1000). lia.
Qed.

Lemma sys_step_SysOK state state' : sys_step state state' -> SysOK state.1 state.2 -> SysOK state'.1 state'.2.
Proof.
  intros [fault ctx names d seen id host code vis capacity padm sadm at_ room out d' Hpos Hcap Hnew Hc
         |fault ctx d seen id r Hg|fault ctx d seen code r Hg
         |fault ctx names d seen current ms c v at_ next out d' Hin Hex Hu
         |fault ctx names d seen current ms c v at_ next event out d' Hin Hex Hu] Hok; cbn [fst snd] in *.
  - apply Create_effect in Hc as [(e & -> & ->)|(stored & -> & Hw & Hnone & Hrow & Hms & Hframe)]; [done|].
    destruct (New_fields _ _ _ _ _ _ _ _ _ Hnew) as [Hcr Hnz]. pose proof (canonicalRoomTime_pos _ Hpos).
    assert (Hs : Storable room).
    { split; [exact (NewWithAdmission_Sound _ _ _ _ _ _ _ _ _ Hcap Hnew)|rewrite Hcr; lia|done]. }
    assert (Hholds : holds d' room).
    { split; [done|]. apply Hms, (sy_members _ _ Hok), Hnone. }
    split.
    + intros k r Hr. destruct (decide (k = ID room)) as [->|Hne]; [by exists room|].
      destruct (Hframe _ Hne) as [Hp Hm]. rewrite Hp in Hr.
      destruct (sy_rooms _ _ Hok _ _ Hr) as (s & Hss & <- & Hh). exists s. split_and!; [done|done|].
      by eapply sameRoomIn_holds.
    + intros k Hn. destruct (decide (k = ID room)) as [->|Hne]; [congruence|].
      destruct (Hframe _ Hne) as [Hp Hm]. rewrite Hm. apply (sy_members _ _ Hok). by rewrite <- Hp.
    + pose proof (sy_seen _ _ Hok) as Hall. rewrite Forall_forall in Hall |- *. intros r Hr.
      pose proof (Hall _ Hr) as Hseen. destruct (Hseen) as [_ (row & Hrr & _)].
      eapply Seen_frame; [|done| |done]; [destruct Hok; by split|congruence].
  - eapply SysOK_read; [done|]. eapply GetByID_load; [|done]. intros row Hrow. by eapply SysOK_ids.
  - apply GetByCode_load in Hg as [id Hl]; [by eapply SysOK_read|]. intros id row Hrow. by eapply SysOK_ids.
  - apply UpdateCAS_effect in Hu as [(e & -> & ->)|(stored & -> & Hw)]; [done|]. by eapply SysOK_written.
  - apply CommitRemoval_effect in Hu as [(e & -> & ->)|(stored & -> & Hw & _)]; [done|]. by eapply SysOK_written.
Qed.

Lemma reachable_SysOK state : reachable state -> SysOK state.1 state.2.
Proof.
  intros H. refine (rtc_ind_r (R := sys_step) (fun s => SysOK s.1 s.2) (emptyDatabase, []) _ _ state H).
  - split; cbn; [intros id row Hr; by rewrite lookup_empty in Hr|intros; apply lookup_empty|constructor].
  - intros s s' _ Hstep IH. by eapply sys_step_SysOK.
Qed.

End RoomSystem.
