(* ===== verification/RoomServiceTheorems.v ===== *)
(** * The room service: theorems

    What clients of [platform/room] get under concurrency: stored rooms always
    load, a request takes effect atomically on the stored room or not at all, and
    the removal of an active participant. *)

From stdpp Require Import gmap.
From S2P Require Import Prelude GoLib Room RoomFacts RoomInvariant RoomHistory RoomStore RoomStoreFacts.
From S2P Require Import RoomService RoomSystem RoomTheorems.

Module RoomServiceTheorems.
Import GoLib Room RoomFacts RoomInvariant RoomHistory RoomStore RoomStoreFacts RoomService RoomSystem.
Import RoomTheorems(second, newRoom).

Definition noFault (n : nat) : option DbError := None.

(** ** Loading *)
Lemma GetByID_noFault id d row :
  id <> Nil -> party_rooms d !! id = Some row -> row_RoomID row = Some id ->
  GetByID noFault false id d =
  match loadRoom d id with Ok r => Ok r | Err e => Err (mapRoomRepositoryError false (DomainError e) ErrRoomNotFound) end.
Proof.
  intros Hn Hrow Hid. unfold GetByID. rewrite (proj2 (Z.eqb_neq _ _) Hn).
  unfold get, Run, tx_bind, GetPartyRoomForShare, ListRoomMembers, statement, noFault, loadRoom. rewrite Hrow.
  cbn [bind_result]. unfold tx_lift, tx_ret, tx_fail. by destruct (roomFromRows row _).
Qed.

(** C3: Whatever requests ran before, in whatever interleaving and with whatever
    failures, every room that is stored can be loaded: a read that meets no
    failure returns a room that restores to itself, or reports that there is none
    under this identifier; it never reports an integrity error. *)
Theorem stored_rooms_load d seen id :
  reachable (d, seen) -> id <> Nil ->
  match GetByID noFault false id d with
  | Ok r => ID r = id /\ Restore r = Ok r
  | Err e => e = Domain ErrRoomNotFound /\ party_rooms d !! id = None
  end.
Proof.
  intros Hr Hn. apply reachable_SysOK in Hr. cbn in Hr. destruct (party_rooms d !! id) as [row|] eqn:E.
  - pose proof (SysOK_ids _ _ _ _ Hr E) as Hid. destruct (SysOK_load _ _ _ _ Hr E) as (r & Hl & Hs & _ & Hi).
    rewrite (GetByID_noFault _ _ _ Hn E Hid), Hl. split; [done|]. apply WF_Restore, Hs.
  - unfold GetByID. rewrite (proj2 (Z.eqb_neq _ _) Hn).
    unfold get, Run, tx_bind, GetPartyRoomForShare, statement, noFault. by rewrite E.
Qed.

Definition anyName (u : UUID) : option (string * string) := Some ("ada", "ada")%string.

(** The tables after the creation of [newRoom]. *)
Definition db1 : Database := snd (Create noFault false anyName newRoom emptyDatabase).

Lemma db1_step : sys_step (emptyDatabase, []) (db1, []).
Proof.
  eapply (sysCreate noFault false anyName emptyDatabase [] 1 11 "ABCD" VisibilityPublic 3 AdmissionOpen AdmissionOpen
            (10 * second) newRoom (fst (Create noFault false anyName newRoom emptyDatabase)) db1);
    [done|done|by vm_compute|by vm_compute].
Qed.

Lemma db1_read : sys_step (db1, []) (db1, [newRoom]).
Proof. eapply (sysGetByID noFault false db1 [] 1). by vm_compute. Qed.

Lemma db1_reachable : reachable (db1, [newRoom]).
Proof. unfold reachable. eapply rtc_l; [apply db1_step|]. eapply rtc_l; [apply db1_read|]. reflexivity. Qed.

Lemma stored_rooms_load_witness :
  reachable (db1, [newRoom]) /\
  match GetByID noFault false 1 db1 with
  | Ok r => ID r = 1 /\ Restore r = Ok r
  | Err e => e = Domain ErrRoomNotFound /\ party_rooms db1 !! (1 : UUID) = None
  end.
Proof. split; [apply db1_reachable|]. apply (stored_rooms_load db1 [newRoom] 1 db1_reachable). done. Defined.

(** C8: Persistence loses nothing: the columns written for a room and its members,
    read back in whatever order, give the room again, members possibly reordered,
    for every room the commands build whose numbers fit the columns. *)
Theorem room_rows_roundtrip s names rows :
  built s -> 0 < CreatedAt s -> validateRoomPersistenceWidths s = Ok tt ->
  rows ≡ₚ ((fun m => createRoomMemberParams (ID s) m (names m)) <$> Members s) ->
  exists ms, ms ≡ₚ Members s /\ roomFromRows (createPartyRoomParams s) rows = Ok (s <| Members := ms |>).
Proof.
  intros Hb Hc Hw Hp. assert (Hs : Storable s) by (split; [by apply built_Sound|done|done]).
  destruct (Forall2_Permutation_r (rowFor (ID s)) (Members s)
              ((fun m => createRoomMemberParams (ID s) m (names m)) <$> Members s) rows) as (ms & Hms & Hf); [|done|].
  - apply Forall2_fmap_r. apply Forall_Forall2_diag, Forall_forall. intros m _. by exists (names m).
  - exists ms. split; [done|]. apply roomFromRows_ok; [done|done|].
    apply map_result_rows; [done| |done]. intros m Hm. by rewrite <- Hms.
Qed.

Lemma room_rows_roundtrip_witness :
  exists ms, ms ≡ₚ Members RoomTheorems.playing /\
    roomFromRows (createPartyRoomParams RoomTheorems.playing)
      (reverse ((fun m => createRoomMemberParams 1 m (None, None)) <$> Members RoomTheorems.playing))
    = Ok (RoomTheorems.playing <| Members := ms |>).
Proof.
  apply (room_rows_roundtrip RoomTheorems.playing (fun _ => (None, None)) _ RoomTheorems.playing_built);
    [by vm_compute|by vm_compute|apply reverse_Permutation].
Defined.

(** ** Atomic effect *)

(** What a request may do: nothing, or one command of the aggregate applied to
    the room that is stored when it commits. *)
Definition Atomic (d1 : Database) (answer : Room) (d2 : Database) : Prop :=
  d2 = d1 \/
  exists id room c v at_ next ms,
    loadRoom d1 id = Ok room /\ exec room c v at_ = Ok next /\
    ms ≡ₚ Members next /\ answer = next <| Members := ms |> /\ loadRoom d2 id = Ok answer.

Lemma Written_atomic d seen current ms c v at_ next stored d' :
  SysOK d seen -> current ∈ seen -> exec current c v at_ = Ok next ->
  Written (current <| Members := ms |>) next stored d d' -> Atomic d stored d'.
Proof.
  intros Hok Hin Hex Hw. right.
  destruct (SysOK_written _ _ _ _ _ _ _ _ _ _ Hok Hin Hex Hw) as (_ & Hl & Hn & Hh & Hid & Hl').
  destruct (holds_load _ _ Hn Hh) as (ms' & Hp & Hl2). rewrite Hid, Hl' in Hl2. injection Hl2 as ->.
  by exists (ID current), current, c, v, at_, next, ms'.
Qed.

(** A handler may run after any other transactions: what it read stays seen. *)
Lemma sys_step_mono d seen d' seen' big :
  sys_step (d, seen) (d', seen') -> seen ⊆ big ->
  exists big', sys_step (d, big) (d', big') /\ seen' ⊆ big' /\ big ⊆ big'.
Proof.
  intros H Hsub. inversion H as [| | | |]; subst.
  - exists big. split_and!; [by eapply sysCreate|done|done].
  - exists (r :: big). split_and!; [by eapply sysGetByID|set_solver|set_solver].
  - exists (r :: big). split_and!; [by eapply sysGetByCode|set_solver|set_solver].
  - exists big. split_and!; [eapply sysUpdate; [by apply Hsub|done|done]|done|done].
  - exists big. split_and!; [eapply sysRemoval; [by apply Hsub|done|done]|done|done].
Qed.

Lemma sys_rtc_mono state state' big :
  rtc sys_step state state' -> state.2 ⊆ big ->
  exists big', rtc sys_step (state.1, big) (state'.1, big') /\ big ⊆ big'.
Proof.
  intros H. revert big. induction H as [[d seen]|[d1 s1] [d2 s2] [d3 s3] Hstep _ IH]; intros big Hsub; cbn in *.
  - by exists big.
  - destruct (sys_step_mono _ _ _ _ _ Hstep Hsub) as (big2 & Hs & Hsub2 & Hb).
    destruct (IH big2 Hsub2) as (big3 & Hr & Hb3). exists big3. split; [by eapply rtc_l|set_solver].
Qed.

Section Handlers.
Context (env : Env) (d0 d1 : Database) (seen0 seen1 : list Room).
Hypothesis Hreach : reachable (d0, seen0).
Hypothesis Hlater : rtc sys_step (d0, seen0) (d1, seen1).

Lemma read_seen r : sys_step (d0, seen0) (d0, r :: seen0) -> exists seen, SysOK d1 seen /\ r ∈ seen.
Proof.
  intros Hread. destruct (sys_rtc_mono _ _ (r :: seen0) Hlater) as (big & Hr & Hb); [cbn; set_solver|].
  exists big. split; [|apply Hb; set_solver]. apply (reachable_SysOK (d1, big)).
  unfold reachable in *. etrans; [exact Hreach|]. eapply rtc_l; [exact Hread|exact Hr].
Qed.

Lemma GetByID_seen fault ctx id r :
  GetByID fault ctx id d0 = Ok r -> exists seen, SysOK d1 seen /\ r ∈ seen.
Proof. intros H. apply read_seen. by eapply sysGetByID. Qed.

Lemma resolve_seen selector r : resolve env selector d0 = Ok r -> exists seen, SysOK d1 seen /\ r ∈ seen.
Proof.
  unfold resolve. cbv zeta. destruct (Bool.eqb _ _); [done|]. destruct (negb _).
  - intros H. by eapply GetByID_seen.
  - destruct (validateRoomCode _); [|done]. intros H. apply read_seen. by eapply sysGetByCode.
Qed.

Lemma update_atomic r seen ms c v at_ next fault ctx names stored d2 :
  SysOK d1 seen -> r ∈ seen -> exec r c v at_ = Ok next ->
  UpdateCAS fault ctx names (r <| Members := ms |>) next d1 = (Ok stored, d2) -> Atomic d1 stored d2.
Proof.
  intros Hok Hin Hex H. apply UpdateCAS_effect in H as [(e & [=] & _)|(s & [= <-] & Hw)].
  by eapply Written_atomic.
Qed.

Lemma same_members (r : Room) : r <| Members := Members r |> = r.
Proof. by destruct r. Qed.

(** A command writes nothing of its receiver but the members. *)
Lemma Join_receiver r u i v t : exists ms, snd (Join r u i v t) = r <| Members := ms |>.
Proof.
  unfold Join. cbv zeta. destruct (_ || _); [by eexists (Members r); rewrite same_members|].
  destruct (checkVersion _ _); [|by eexists (Members r); rewrite same_members].
  destruct (memberIndex _ _); [destruct (_ && _)|destruct (String.eqb _ _)]; cbn [snd];
    try (by eexists (Members r); rewrite same_members). by eexists.
Qed.

Lemma ApproveWaiting_receiver r h u v t : exists ms, snd (ApproveWaiting r h u v t) = r <| Members := ms |>.
Proof.
  unfold ApproveWaiting. cbv zeta. destruct (_ || _); [by eexists (Members r); rewrite same_members|].
  destruct (bind_result _ _); [|by eexists (Members r); rewrite same_members].
  destruct (negb _); [by eexists (Members r); rewrite same_members|].
  destruct (find_index _ _); [|by eexists (Members r); rewrite same_members].
  destruct (promote _ _); cbn [snd]; [by eexists|by eexists (Members r); rewrite same_members].
Qed.

Lemma RemoveMember_receiver r h u v t : exists ms, snd (Room.RemoveMember r h u v t) = r <| Members := ms |>.
Proof.
  unfold Room.RemoveMember, removeMember. cbv zeta. destruct (_ || _); [by eexists (Members r); rewrite same_members|].
  destruct (bind_result _ _); [|by eexists (Members r); rewrite same_members].
  destruct (_ =? _); [by eexists (Members r); rewrite same_members|].
  destruct (memberIndex _ _); cbn [snd]; [by eexists|by eexists (Members r); rewrite same_members].
Qed.

Lemma write_plain r seen c v at_ next fault ctx names stored d2 :
  SysOK d1 seen -> r ∈ seen -> exec r c v at_ = Ok next ->
  UpdateCAS fault ctx names r next d1 = (Ok stored, d2) -> Atomic d1 stored d2.
Proof. intros Hok Hin Hex H. eapply (update_atomic r seen (Members r)); [done|done|done|]. by rewrite same_members. Qed.

Lemma removal_atomic r seen ms c v at_ next event fault ctx names stored d2 :
  SysOK d1 seen -> r ∈ seen -> exec r c v at_ = Ok next ->
  CommitRemoval fault ctx names (r <| Members := ms |>) next event d1 = (Ok stored, d2) -> Atomic d1 stored d2.
Proof.
  intros Hok Hin Hex H. apply CommitRemoval_effect in H as [(e & [=] & _)|(s & [= <-] & Hw & _)].
  by eapply Written_atomic.
Qed.

(** Opens the guards of a handler that answered. *)
Ltac answered H :=
  repeat match type of H with
  | (if ?b then reject _ _ else _) = _ => destruct b; [discriminate H|]
  | match newID ?e with _ => _ end = _ => destruct (newID e); [|discriminate H]
  end;
  match type of H with
  | context [GetByID ?f ?c ?i ?d] =>
      let Hr := fresh "Hread" in destruct (GetByID f c i d) as [room|] eqn:Hr; [|discriminate H];
      apply GetByID_seen in Hr as (seen & Hok & Hin)
  end.

Lemma join_atomic actor selector intent expected answer d2 :
  roomReply (JoinRoom env actor selector intent expected d0 d1) = (Ok answer, d2) -> Atomic d1 answer d2.
Proof.
  unfold JoinRoom. intros H. destruct (_ || _); [done|].
  destruct (resolve env selector d0) as [room|] eqn:Hread; [|done]. apply resolve_seen in Hread as (seen & Hok & Hin).
  destruct (_ && _ && _); [done|]. destruct (optionalExpectedVersion _ _) as [v|]; [|done].
  destruct (Join_receiver room actor intent v (now env)) as [ms Hrec].
  destruct (Join room actor intent v (now env)) as [[[next res]|] r'] eqn:Ej; [|done]. cbn [snd] in Hrec. subst r'.
  assert (Hex : exec room (CmdJoin actor intent) v (now env) = Ok next) by (cbn [exec]; by rewrite Ej).
  destruct (negb _); [injection H as _ <-; by left|].
  destruct (UpdateCAS _ _ _ _ _ _) as [[stored|] d'] eqn:Eu; [|done].
  destruct (Member stored actor); [|done]. injection H as <- <-. by eapply update_atomic.
Qed.

Lemma approve_atomic actor roomID userID expected answer d2 :
  roomReply (ApproveMember env actor roomID userID expected d0 d1) = (Ok answer, d2) -> Atomic d1 answer d2.
Proof.
  unfold ApproveMember. intros H. destruct (_ || _); [done|]. destruct (negb _); [done|].
  destruct (GetByID _ _ _ _) as [room|] eqn:Hread; [|done]. apply GetByID_seen in Hread as (seen & Hok & Hin).
  destruct (ApproveWaiting_receiver room actor userID expected (now env)) as [ms Hrec].
  destruct (ApproveWaiting room actor userID expected (now env)) as [[[next res]|] r'] eqn:Ej; [|done].
  cbn [snd] in Hrec. subst r'.
  assert (Hex : exec room (CmdApproveWaiting actor userID) expected (now env) = Ok next) by (cbn [exec]; by rewrite Ej).
  destruct (UpdateCAS _ _ _ _ _ _) as [[stored|] d'] eqn:Eu; [|done]. injection H as <- <-. by eapply update_atomic.
Qed.

Lemma remove_atomic actor roomID userID reason expected answer d2 :
  roomReply (RemoveMember env actor roomID userID reason expected d0 d1) = (Ok answer, d2) -> Atomic d1 answer d2.
Proof.
  unfold RemoveMember. intros H. destruct (_ || _); [done|]. destruct (negb _); [done|].
  destruct (GetByID _ _ _ _) as [room|] eqn:Hread; [|done]. apply GetByID_seen in Hread as (seen & Hok & Hin).
  destruct (RemoveMember_receiver room actor userID expected (now env)) as [ms Hrec].
  destruct (Room.RemoveMember room actor userID expected (now env)) as [[[next res]|] r'] eqn:Ej; [|done].
  cbn [snd] in Hrec. subst r'.
  assert (Hex : exec room (CmdRemoveMember actor userID) expected (now env) = Ok next) by (cbn [exec]; by rewrite Ej).
  cbv zeta in H. destruct (r_ParticipantRevoked res).
  - destruct (newID env); [|done]. destruct (NewParticipantRevokedEvent _); [|done].
    destruct (CommitRemoval _ _ _ _ _ _ _) as [[stored|] d'] eqn:Eu; [|done]. injection H as <- <-.
    by eapply removal_atomic.
  - destruct (UpdateCAS _ _ _ _ _ _) as [[stored|] d'] eqn:Eu; [|done]. injection H as <- <-. by eapply update_atomic.
Qed.

Lemma serve_atomic actor request answer d2 :
  serve env actor request d0 d1 = (Ok answer, d2) -> Atomic d1 answer d2.
Proof.
  intros H. destruct request; cbn [serve] in H;
    [by eapply join_atomic|by eapply approve_atomic|..|by eapply remove_atomic|];
    unfold SetAdmission, SelectGame, RequestPause, RejectPause, TransferHost, CloseRoom in H; answered H;
    match type of H with
    | match ?c with Ok _ => _ | Err _ => _ end = _ => destruct c as [next|] eqn:Hcmd; [|discriminate H]
    end;
    try match type of H with (if ?b then _ else _) = _ => destruct b; [injection H as _ <-; by left|] end.
  - by eapply (write_plain room seen (CmdSetAdmission actor participant spectator) expected (now env)).
  - by eapply (write_plain room seen (CmdSelectGame actor gameID) expected (now env)).
  - by eapply (write_plain room seen (CmdRequestPause actor u sessionID) expected (now env)).
  - by eapply (write_plain room seen (CmdRejectPause actor requestID) expected (now env)).
  - by eapply (write_plain room seen (CmdTransferHost actor targetUserID ownershipEpoch) expected (now env)).
  - by eapply (write_plain room seen (CmdClose actor) expected (now env)).
Qed.
End Handlers.

(** C2: Requests are atomic.  A handler reads the room in one transaction and
    writes it in a later one, and any other requests may commit in between; when
    it answers with a room it either changed nothing, or it applied one command
    of the aggregate to exactly the room that was stored at the moment of its
    commit, and the answer is the room that is stored afterwards.  No update of
    a concurrent request is lost. *)
Theorem requests_are_atomic env actor request d0 d1 seen0 seen1 answer d2 :
  reachable (d0, seen0) -> rtc sys_step (d0, seen0) (d1, seen1) ->
  serve env actor request d0 d1 = (Ok answer, d2) -> Atomic d1 answer d2.
Proof. intros Hr Hl H. exact (serve_atomic env d0 d1 seen0 seen1 Hr Hl _ _ _ _ H). Qed.

Definition quietEnv (t : Time) : Env := mkEnv t (Some 900) noFault noFault false anyName.

Lemma requests_are_atomic_witness :
  reachable (db1, [newRoom]) /\
  exists answer d2,
    serve (quietEnv (11 * second)) 12 (ReqJoin (mkSelector 1 "") JoinIntentParticipant (mkVersion 1 1)) db1 db1
      = (Ok answer, d2) /\ RoomVersion answer = 2 /\ Atomic db1 answer d2.
Proof.
  split; [apply db1_reachable|].
  eexists _, _. split; [vm_compute; reflexivity|]. split; [reflexivity|].
  apply (requests_are_atomic (quietEnv (11 * second)) 12 (ReqJoin (mkSelector 1 "") JoinIntentParticipant (mkVersion 1 1))
           db1 db1 [newRoom] [newRoom] _ _ db1_reachable (rtc_refl _ _)).
  by vm_compute.
Defined.

(** ** Removing an active participant *)

(** After the in-place shift the removed user is gone from the receiver too,
    unless it was the last of the list. *)
Lemma shiftLeft_users ms i m :
  NoDup (users ms) -> ms !! i = Some m -> (S i < length ms)%nat -> (m_UserID m ∉ users (shiftLeft i ms)).
Proof.
  intros Hnd Hi Hlt Hin. unfold users in Hin. apply list_elem_of_fmap in Hin as (m' & Hu & Hin).
  assert (Hpos : exists j, ms !! j = Some m' /\ j <> i).
  { unfold shiftLeft in Hin. rewrite !elem_of_app in Hin. destruct Hin as [Hin|[Hin|Hin]];
      apply list_elem_of_lookup in Hin as [j Hj].
    - apply lookup_take_Some in Hj as [Hj Hlj]. exists j. split; [done|lia].
    - rewrite lookup_drop in Hj. exists (S i + j)%nat. split; [done|lia].
    - rewrite lookup_drop in Hj. exists (length ms - 1 + j)%nat. split; [done|lia]. }
  destruct Hpos as (j & Hj & Hne). apply Hne. eapply NoDup_lookup; [exact Hnd| |].
  - unfold users. rewrite list_lookup_fmap, Hj. cbn. reflexivity.
  - unfold users. rewrite list_lookup_fmap, Hi. cbn. by rewrite Hu.
Qed.

Lemma removeMember_inv r h u v t next res r' :
  Room.RemoveMember r h u v t = (Ok (next, res), r') ->
  exists i m, Members r !! i = Some m /\ m_UserID m = u /\ r_Removed res = m /\
    r' = r <| Members := shiftLeft i (Members r) |>.
Proof.
  unfold Room.RemoveMember, removeMember. cbv zeta. destruct (_ || _); [done|].
  destruct (bind_result _ _); [|done]. destruct (_ =? _); [done|].
  destruct (memberIndex (Members r) u) as [i|] eqn:Ei; [|done].
  intros H. apply pair_equal_spec in H as [H <-]. inv_result H. injection H as _ <-.
  apply memberIndex_Some in Ei as (m & Hi & Hm & Hu). exists i, m. by rewrite Hm.
Qed.

Lemma CommitRemoval_guard fault ctx names current next event d :
  removedParticipantTransition current next (fact_UserID event) = false ->
  exists e, CommitRemoval fault ctx names current next event d = (Err (Domain e), d).
Proof.
  intros H. unfold CommitRemoval. cbv zeta. rewrite !Snapshot_id.
  destruct (validateRoomTransition current next) as [|e]; [|by exists e].
  rewrite H, !orb_true_r. by exists ErrInvalidRoomInput.
Qed.

(** C7: Removing an active participant who is not the last member of the room
    always fails.  The aggregate accepts the removal, but it shifts the member
    list it shares with the room the handler read, so the repository, which looks
    for the removed participant in that room, no longer finds it and refuses the
    transition: whatever is stored and whatever the failures, the handler answers
    with an error and nothing is written. *)
Theorem active_removal_refused env actor roomID userID expected d0 d1 room next res room' :
  GetByID (readFault env) (ctxDone env) roomID d0 = Ok room -> WF room ->
  Room.RemoveMember room actor userID expected (now env) = (Ok (next, res), room') ->
  r_ParticipantRevoked res = true -> m_UserID <$> last (Members room) <> Some userID ->
  exists e, RemoveMember env actor roomID userID RemovalReasonHostRemoved expected d0 d1 = (Err (Domain e), d1).
Proof.
  intros Hread Hwf Hrem Hrev Hlast. unfold RemoveMember.
  destruct (_ || _); [by eexists|]. destruct (negb _); [by eexists|]. rewrite Hread, Hrem. cbv zeta. rewrite Hrev.
  destruct (newID env) as [eventID|]; [|by eexists].
  destruct (removeMember_inv _ _ _ _ _ _ _ _ Hrem) as (i & m & Hi & Hu & Hm & Hr').
  destruct (NewParticipantRevokedEvent _) as [event|] eqn:Ee; [|by eexists].
  assert (Huser : fact_UserID event = userID).
  { unfold NewParticipantRevokedEvent in Ee. inv_result Ee. injection Ee as <-. cbn. by rewrite Hm. }
  assert (Hlt : (S i < length (Members room))%nat).
  { pose proof (lookup_lt_Some _ _ _ Hi). destruct (decide (S i = length (Members room))) as [He|]; [|lia].
    destruct Hlast. rewrite last_lookup, <- He. cbn [Nat.pred]. rewrite Hi. cbn. by rewrite Hu. }
  pose proof (shiftLeft_users _ _ _ (wf_users _ Hwf) Hi Hlt) as Hgone. rewrite Hu in Hgone.
  destruct (CommitRemoval_guard (writeFault env) (ctxDone env) (usernames env) room' next event d1) as [e ->];
    [|by eexists].
  unfold removedParticipantTransition. destruct (_ || _); [done|].
  destruct (existsb _ (Members room')) eqn:Ex; [|done]. exfalso. apply existsb_exists in Ex as (m' & Hin & Ex).
  apply andb_prop in Ex as [Ex _]. apply Z.eqb_eq in Ex. rewrite Huser in Ex.
  apply Hgone. unfold users. apply list_elem_of_fmap. exists m'. split; [done|].
  rewrite list_elem_of_In. rewrite Hr' in Hin. exact Hin.
Qed.

(** The room of the witness: host 11, participants 12 and 13, session 71. *)
Definition db2 : Database :=
  snd (serve (quietEnv (11 * second)) 12 (ReqJoin (mkSelector 1 "") JoinIntentParticipant (mkVersion 1 1)) db1 db1).
Definition db3 : Database :=
  snd (serve (quietEnv (12 * second)) 13 (ReqJoin (mkSelector 1 "") JoinIntentParticipant (mkVersion 2 2)) db2 db2).
Definition room3 : Room := RoomTheorems.okRoom (loadRoom db3 1).
Definition room4 : Room :=
  RoomTheorems.okRoom (exec room3 (CmdStartSession 11 71 "liars-dice" 2 4) (versionOf room3) (14 * second)).
Definition db4 : Database := snd (UpdateCAS noFault false anyName room3 room4 db3).

Lemma active_removal_refused_witness :
  is_ok (fst (Room.RemoveMember room4 11 12 (mkVersion 4 3) (15 * second))) = true /\
  exists e, RemoveMember (quietEnv (15 * second)) 11 1 12 RemovalReasonHostRemoved (mkVersion 4 3) db4 db4
            = (Err (Domain e), db4).
Proof.
  split; [by vm_compute|].
  assert (Hr : Restore room4 = Ok room4) by by vm_compute.
  eapply (active_removal_refused (quietEnv (15 * second)) 11 1 12 (mkVersion 4 3) db4 db4 room4).
  - vm_compute. reflexivity.
  - exact (Restore_WF _ _ Hr).
  - vm_compute. reflexivity.
  - reflexivity.
  - by vm_compute.
Defined.

(** ** What is stored of a removal *)
(** The members of a room that loads come from its member rows, which name it. *)
Lemma roomFromRows_members row rows r :
  roomFromRows row rows = Ok r ->
  WF r /\ row_RoomID row = Some (ID r) /\
  forall m, m ∈ Members r -> exists mr, mr ∈ rows /\ rm_RoomID mr = Some (ID r) /\ rm_UserID mr = Some (m_UserID m).
Proof.
  unfold roomFromRows. destruct (row_RoomID row) as [id|]; [|done]. destruct (row_HostUserID row); [|done].
  destruct (row_CreatedAt row); [|done]. destruct (row_UpdatedAt row); [|done]. destruct (_ || _); [done|].
  destruct (map_result _ rows) as [ms|] eqn:Em; [|done]. cbn [bind_result].
  destruct (Restore _) as [r0|] eqn:Er; [|done]. intros [= ->]. apply Restore_iff in Er as [-> Hwf].
  split_and!; [done|done|]. intros m Hm. unfold canonicalRoom in Hm. cbn in Hm.
  apply list_elem_of_fmap in Hm as (m0 & -> & Hm). apply list_elem_of_lookup in Hm as [i Hi].
  apply map_result_Ok in Em. destruct (Forall2_lookup_r _ _ _ _ _ Em Hi) as (mr & Hin & Hf).
  exists mr. split; [by eapply list_elem_of_lookup_2|]. unfold memberFromRow in Hf. destruct (rm_RoomID mr) as [k|]; [|done].
  destruct (rm_UserID mr); [|done]. destruct (rm_JoinedAt mr); [|done]. destruct (rm_LastSeenAt mr); [|done].
  destruct (negb _) eqn:Ek; [done|]. apply negb_false_iff, Z.eqb_eq in Ek as ->. by injection Hf as <-.
Qed.

(** A committed write of a room without a user leaves a room that loads, without
    a row of that user. *)
Lemma Written_without current next stored d d' u :
  Written current next stored d d' -> existsb (fun member => m_UserID member =? u) (Members next) = false ->
  loadRoom d' (ID current) = Ok stored /\ ID stored = ID current /\
  Forall (fun mr => rm_UserID mr <> Some u) (membersOf d' (ID current)) /\ (u ∉ users (Members stored)).
Proof.
  intros [Ht (row & row' & _ & _ & _ & Hrow & _ & Hrows & Hload) _] Hgone.
  destruct (transition_id _ _ Ht) as (Hid & _). rewrite Hid in *.
  destruct (roomFromRows_members _ _ _ Hload) as (Hwf & Hkey & Hm).
  assert (Hof : forall mr, mr ∈ membersOf d' (ID current) -> exists m, m ∈ Members next /\ rowFor (ID current) m mr).
  { intros mr Hin. apply list_elem_of_lookup in Hin as [i Hi].
    destruct (Forall2_lookup_r _ _ _ _ _ Hrows Hi) as (m & Hm' & Hr). exists m. split; [|done].
    by eapply list_elem_of_lookup_2. }
  assert (Hno : forall mr, mr ∈ membersOf d' (ID current) -> rm_UserID mr <> Some u).
  { intros mr (m & Hin & nm & ->)%Hof [= Hu]. cut (existsb (fun member => m_UserID member =? u) (Members next) = true).
    { congruence. } apply existsb_exists. exists m. rewrite <- list_elem_of_In. split; [done|]. by apply Z.eqb_eq. }
  assert (Hmine : forall m, m ∈ Members stored ->
            ID stored = ID current /\ m_UserID m <> u).
  { intros m (mr & Hin & Hr & Hu)%Hm. rewrite merge_sort_Permutation in Hin. split.
    - destruct (Hof _ Hin) as (m' & _ & nm & ->). cbn in Hr. by injection Hr.
    - intros <-. by destruct (Hno _ Hin). }
  assert (Hsame : ID stored = ID current).
  { pose proof (wf_host _ Hwf) as Hh. unfold users in Hh. apply list_elem_of_fmap in Hh as (m & _ & Hin). by apply (Hmine m). }
  split_and!; [|done|by apply Forall_forall|].
  - unfold loadRoom. rewrite Hrow, Hkey, Hsame. exact Hload.
  - unfold users. intros (m & Hu & Hin)%list_elem_of_fmap. by apply (Hmine m Hin).
Qed.

Lemma removedParticipant_gone before after u :
  removedParticipantTransition before after u = true ->
  existsb (fun member => m_UserID member =? u) (Members after) = false.
Proof. unfold removedParticipantTransition. destruct (_ || _); [done|]. destruct (negb _); [done|]. by intros ?%negb_true_iff. Qed.

(** C6: A removal that interrupts a session is never silent: when the handler
    reports that a participant was revoked, the database holds in the same commit
    the removal (the room it answers with loads from the tables, no member row of
    that room is of the removed user, and the user is no member of the room), the
    durable event that names the room, the session and the removed user, and the
    entry in the inbox of the runtime for that event.  The room is the requested
    one, when the row read under the requested id carries that id. *)
Theorem revocation_published env actor roomID userID reason expected d0 d1 room res d2 :
  RemoveMember env actor roomID userID reason expected d0 d1 = (Ok (room, res), d2) ->
  r_ParticipantRevoked res = true ->
  exists event at_,
    outbox_events d2 !! r_SourceEventID res = Some event /\
    game_system_inbox d2 !! r_SourceEventID res = Some (r_SessionID res, at_) /\
    fact_UserID event = userID /\ fact_SessionID event = r_SessionID res /\ fact_ActorID event = actor /\
    fact_RoomID event <> Nil /\ fact_RoomID event = ID room /\
    loadRoom d2 (ID room) = Ok room /\ (userID ∉ users (Members room)) /\
    Forall (fun row => rm_UserID row <> Some userID) (membersOf d2 (ID room)) /\
    ((forall row, party_rooms d0 !! roomID = Some row -> row_RoomID row = Some roomID) -> ID room = roomID).
Proof.
  unfold RemoveMember. intros H Hrev. destruct (_ || _); [done|]. destruct (negb _); [done|].
  destruct (GetByID _ _ _ _) as [current|] eqn:Eg; [|done].
  destruct (Room.RemoveMember current actor userID expected (now env)) as [[[next r]|] r'] eqn:Ej; [|done].
  destruct (removeMember_inv _ _ _ _ _ _ _ _ Ej) as (i & m & _ & Hu & Hm & Hr').
  cbv zeta in H. destruct (r_ParticipantRevoked r) eqn:Er.
  - destruct (newID env) as [eventID|]; [|done].
    destruct (NewParticipantRevokedEvent _) as [event|] eqn:Ee; [|done].
    destruct (CommitRemoval _ _ _ _ _ _ _) as [[stored|] d'] eqn:Ec; [|done]. injection H as <- <- <-.
    unfold NewParticipantRevokedEvent in Ee. inv_result Ee. injection Ee as <-.
    apply CommitRemoval_effect in Ec as [(e & [=] & _)|(s & [= <-] & Hw & Hgone & Ho & at_ & Hi)].
    apply removedParticipant_gone in Hgone.
    destruct (Written_without _ _ _ _ _ _ Hw Hgone) as (Hload & Hid & Hrows & Hnot).
    cbn in Ho, Hi, Hrows, Hnot. rewrite Hm, Hu in *. rewrite <- Hid in Hload, Hrows.
    eexists _, at_. cbn [r_SourceEventID r_SessionID]. split_and!; try done.
    + cbn. apply negb_false_iff in E. unfold Fact_Valid in E. cbv zeta in E.
      destruct (_ || _) eqn:Eb in E; [done|]. cbn in Eb. to_prop. done.
    + intros Hkey. pose proof (GetByID_load _ _ _ _ _ Hkey Eg) as Hl. rewrite Hid, Hr'. cbn.
      unfold loadRoom in Hl. destruct (party_rooms d0 !! roomID) as [row|] eqn:Erow; [|done].
      apply roomFromRows_members in Hl as (_ & Hk & _). rewrite (Hkey _ eq_refl) in Hk. by injection Hk.
  - destruct (UpdateCAS _ _ _ _ _ _) as [[stored|] d']; [|done]. injection H as _ <- _. cbn in Hrev. congruence.
Qed.

Lemma revocation_published_witness :
  exists room res d2,
    RemoveMember (quietEnv (15 * second)) 11 1 13 RemovalReasonHostRemoved (mkVersion 4 3) db4 db4 = (Ok (room, res), d2) /\
    r_ParticipantRevoked res = true /\ is_Some (outbox_events d2 !! (900 : UUID)).
Proof.
  eexists _, _, _. split; [vm_compute; reflexivity|]. split; [reflexivity|].
  edestruct (revocation_published (quietEnv (15 * second)) 11 1 13 RemovalReasonHostRemoved (mkVersion 4 3) db4 db4)
    as (event & at_ & Ho & _); [vm_compute; reflexivity|reflexivity|].
  eexists. exact Ho.
Defined.

End RoomServiceTheorems.
