(* ===== verification/ThreeCards.v ===== *)
(** * Three rounds: the deck

    Model of [games/three-rounds/engine]: the error surface ([errors.go]), the
    configuration ([config.go]) and the 54-card deck with its shuffle and deal
    ([cards.go]).

    A [uint8] or [uint64] is an integer, a [CardID] a string, a seed the list
    of its 32 bytes.  Outcomes of a Go call that are not values are constructors
    of [Failure]: a returned [*RuleError], a run-time panic (an index out of
    range), and [OutOfFuel] for the one unbounded loop of the package, the
    rejection loop of [ShuffleDeck], whose fuel is the number of draws allowed
    for one position. *)

From Stdlib Require Import Ascii.
From stdpp Require Import gmap.
From S2P Require Import Prelude Sha256 Roster GoLib.

Module ThreeCards.
Import Roster.

(** ** errors.go *)
Inductive ErrorCode :=
| CodeInvalidConfig | CodeInvalidParticipants | CodeInvalidState | CodeInvalidAction
| CodeWrongPhase | CodeActionExpired | CodeTimerMismatch | CodeTimerNotDue
| CodeParticipantInactive | CodeCardInvalid | CodeCardCountInvalid | CodeSelectionExists
| CodeRoundMismatch | CodeSessionFinished | CodeSeedInvalid | CodeUnsupportedMigration
| CodeProjectionUnavailable | CodeMalformedPayload.

#[global] Instance ErrorCode_eq_dec : EqDecision ErrorCode.
Proof. solve_decision. Defined.

Inductive Failure :=
| Rule (error : RuleError ErrorCode)
| Panic
| OutOfFuel.

Definition res (A : Type) : Type := result Failure A.

Definition ruleError {A : Type} (code : ErrorCode) (detail : string) : res A :=
  Err (Rule (mkRuleError code detail)).

(** [ErrorCodeOf]: the empty code is [None]. *)
Definition ErrorCodeOf (failure : Failure) : option ErrorCode :=
  match failure with Rule error => Some (Code error) | _ => None end.

(** [values[i]]: an index out of range panics. *)
Definition at_index {A : Type} (values : list A) (i : nat) : res A :=
  match values !! i with Some value => Ok value | None => Err Panic end.

(** ** config.go *)
Definition MinimumPlayers : nat := 2.
Definition MaximumPlayers : nat := 9.
Definition DefaultRoundOneTime : Z := 30.
Definition DefaultRoundTwoTime : Z := 45.
Definition DefaultResultTime : Z := 5.
Definition DefaultFinalTime : Z := 10.

Record Config := mkConfig {
  RoundOneTimeoutSeconds : Z;
  RoundTwoTimeoutSeconds : Z;
  RoundResultSeconds : Z;
  FinalResultSeconds : Z;
}.

Definition DefaultConfig : Config :=
  mkConfig DefaultRoundOneTime DefaultRoundTwoTime DefaultResultTime DefaultFinalTime.

Definition selectionTimeoutValid (value : Z) : bool :=
  (value =? 0) || (10 <=? value) && (value <=? 120).

Definition Config_Validate (config : Config) (playerCount : nat) : res unit :=
  if (playerCount <? MinimumPlayers)%nat || (MaximumPlayers <? playerCount)%nat
  then ruleError CodeInvalidParticipants "player count is outside the supported range"
  else if negb (selectionTimeoutValid (RoundOneTimeoutSeconds config))
          || negb (selectionTimeoutValid (RoundTwoTimeoutSeconds config))
  then ruleError CodeInvalidConfig "selection timeout must be 0 or 10-120 seconds"
  else if (RoundResultSeconds config <? 2) || (15 <? RoundResultSeconds config)
  then ruleError CodeInvalidConfig "result timeout must be 2-15 seconds"
  else if (FinalResultSeconds config <? 5) || (30 <? FinalResultSeconds config)
  then ruleError CodeInvalidConfig "final timeout must be 5-30 seconds"
  else Ok tt.

(** ** cards.go: the deck *)
Definition CardID : Type := string.

Inductive Suit := SuitNone | SuitDiamond | SuitClub | SuitHeart | SuitSpade.
Inductive cardKind := cardNormal | cardSmallJoker | cardBigJoker.

#[global] Instance Suit_eq_dec : EqDecision Suit.
Proof. solve_decision. Defined.
#[global] Instance cardKind_eq_dec : EqDecision cardKind.
Proof. solve_decision. Defined.

Record Card := mkCard {
  ID : CardID;
  Ordinal : Z;
  Rank : Z;
  suit : Suit;
  Kind : cardKind;
}.

#[global] Instance Card_eq_dec : EqDecision Card.
Proof. solve_decision. Defined.

(** [Card{}]. *)
Definition zeroCard : Card := mkCard "" 0 0 SuitNone cardNormal.
#[global] Instance Card_inhabited : Inhabited Card := populate zeroCard.

Definition CurrentSchemaVersion : Z := 1.
Definition RoundHistoryLimit : nat := 3.
Definition ShuffleDomain : string := "game-night/three-rounds/shuffle/v1".
Definition SmallJokerID : CardID := "SJ".
Definition BigJokerID : CardID := "BJ".
Definition zeroSeedHash : string := "ff936adffbb79dadd336fceaf7b6ccadf36b9c0fe43ab94a3867c0504e685b5f".

(** Wrap-around of [uint8] arithmetic. *)
Definition u8 (z : Z) : Z := z mod 256.

Definition byteChar (b : Z) : ascii := ascii_of_N (Z.to_N b).

(** The digit loop of [itoa]; the ten-byte buffer bounds its turns. *)
Fixpoint itoaLoop (fuel : nat) (value : Z) (buffer : string) : string :=
  match fuel with
  | O => buffer
  | S fuel' =>
      if 0 <? value
      then itoaLoop fuel' (value / 10) (String (byteChar (48 + value mod 10)) buffer)
      else buffer
  end.

Definition itoa (value : Z) : string :=
  if value =? 0 then "0"%string else itoaLoop 10 value ""%string.

Definition makeCardID (rank : Z) (s : Suit) : CardID :=
  let value :=
    if rank =? 11 then "J"%string
    else if rank =? 12 then "Q"%string
    else if rank =? 13 then "K"%string
    else if rank =? 14 then "A"%string
    else itoa rank in
  match s with
  | SuitDiamond => (value +:+ "D")%string
  | SuitClub => (value +:+ "C")%string
  | SuitHeart => (value +:+ "H")%string
  | SuitSpade => (value +:+ "S")%string
  | SuitNone => ""%string
  end.

(** The two nested loops visit the ranks 2 to 14 and, for each, the suits. *)
Definition deckLoops : list (Z * Suit) :=
  cprod (seqZ 2 13) [SuitDiamond; SuitClub; SuitHeart; SuitSpade].

Definition buildDeck : list Card :=
  let '(result, ordinal) :=
    foldl (fun '(result, ordinal) '(rank, s) =>
             (result ++ [mkCard (makeCardID rank s) ordinal rank s cardNormal], u8 (ordinal + 1)))
          ([], 0) deckLoops in
  result ++ [mkCard SmallJokerID ordinal 15 SuitNone cardSmallJoker;
             mkCard BigJokerID (u8 (ordinal + 1)) 16 SuitNone cardBigJoker].

Definition buildCardMap (cards : list Card) : gmap CardID Card :=
  foldl (fun result card => <[ID card := card]> result) ∅ cards.

Definition deckOrdered : list Card := buildDeck.
Definition cardByID : gmap CardID Card := buildCardMap deckOrdered.
Definition normalDeck : list Card := take 52 deckOrdered.

(** [cardByID[id]]: a missing key reads as the zero card. *)
Definition cardOf (id : CardID) : Card := default zeroCard (cardByID !! id).

Definition ParseCardID (value : string) : option Card :=
  match cardByID !! value with
  | None => None
  | Some card =>
      if negb (String.eqb value (GoLib.TrimSpace value)) then None else Some card
  end.

Definition OrderedDeck : list Card := [] ++ deckOrdered.

(** ** cards.go: the shuffle *)
Record shuffleStream := mkStream {
  seed : list Z;
  counter : Z;
  buffer : list Z;
  offset : nat;
}.

Definition newShuffleStream (seed : list Z) : shuffleStream := mkStream seed 0 [] 0.

(** [binary.BigEndian.PutUint64] and [binary.BigEndian.Uint64]. *)
Definition putUint64BE (v : Z) : list Z :=
  (fun shift => Z.land (Z.shiftr v shift) 255) <$> [56; 48; 40; 32; 24; 16; 8; 0].
Definition uint64BE (bytes : list Z) : Z := foldl (fun value b => value * 256 + b) 0 bytes.

Definition nextU64 (stream : shuffleStream) : res (Z * shuffleStream) :=
  let stream :=
    if (length (buffer stream) <? offset stream + 8)%nat then
      let block := GoLib.bytesOf ShuffleDomain ++ [0] ++ seed stream ++ putUint64BE (counter stream) in
      mkStream (seed stream) (u64 (counter stream + 1)) (Sha256.Sum256 block) 0
    else stream in
  let value := uint64BE (take 8 (drop (offset stream) (buffer stream))) in
  Ok (value, mkStream (seed stream) (counter stream) (buffer stream) (offset stream + 8)).

(** [^uint64(0) - (^uint64(0) % n)]. *)
Definition shuffleLimit (n : Z) : Z := maxUint64 - maxUint64 mod n.

(** The rejection loop for one position. *)
Fixpoint drawBelow (fuel : nat) (limit : Z) (stream : shuffleStream) : res (Z * shuffleStream) :=
  match fuel with
  | O => Err OutOfFuel
  | S fuel' =>
      match nextU64 stream with
      | Err _ => ruleError CodeSeedInvalid "shuffle seed stream failed"
      | Ok (x, stream) => if x <? limit then Ok (x, stream) else drawBelow fuel' limit stream
      end
  end.

(** [deck[i], deck[j] = deck[j], deck[i]]. *)
Definition swap (i j : nat) (deck : list Card) : list Card :=
  <[i := deck !!! j]> (<[j := deck !!! i]> deck).

(** The loop over the positions [i, i-1, ..., 1]. *)
Fixpoint shuffleLoop (fuel i : nat) (deck : list Card) (stream : shuffleStream) : res (list Card) :=
  match i with
  | O => Ok deck
  | S i' =>
      let n := Z.of_nat i + 1 in
      let* '(x, stream) := drawBelow fuel (shuffleLimit n) stream in
      let j := Z.to_nat (x mod n) in
      shuffleLoop fuel i' (swap i j deck) stream
  end.

Definition ShuffleDeck (fuel : nat) (seed : list Z) : res (list Card) :=
  let deck := OrderedDeck in
  shuffleLoop fuel (length deck - 1) deck (newShuffleStream seed).

(** ** cards.go: the deal *)
Definition dealCard (deck : list Card) (dealt : gmap string (list CardID) * nat)
    (participant : Participant) : res (gmap string (list CardID) * nat) :=
  let '(hands, index) := dealt in
  let* card := at_index deck index in
  Ok (<[UserID participant := default [] (hands !! UserID participant) ++ [ID card]]> hands, S index).

Definition DealHands (participants : list Participant) (deck : list Card)
  : res (gmap string (list CardID) * list Card) :=
  if (length participants <? MinimumPlayers)%nat || (MaximumPlayers <? length participants)%nat
     || negb (length deck =? length deckOrdered)%nat
  then ruleError CodeInvalidParticipants "deal inputs are malformed"
  else
    let hands := foldl (fun hands participant => <[UserID participant := []]> hands) ∅ participants in
    let* '(hands, index) :=
      fold_result (fun dealt (_ : nat) => fold_result (dealCard deck) dealt participants)
                  (hands, 0%nat) (seq 0 6) in
    Ok (hands, drop index deck).

(** ** cards.go: card values *)
Definition rankStrength (card : Card) : Z :=
  match Kind card with
  | cardBigJoker => 16
  | cardSmallJoker => 15
  | cardNormal => Rank card
  end.

Definition suitStrength (card : Card) : Z :=
  match suit card with
  | SuitSpade => 4 | SuitHeart => 3 | SuitClub => 2 | SuitDiamond => 1 | SuitNone => 0
  end.

Definition suitAscending (card : Card) : Z :=
  match suit card with
  | SuitDiamond => 1 | SuitClub => 2 | SuitHeart => 3 | SuitSpade => 4 | SuitNone => 0
  end.

Definition halfPoints (card : Card) : Z :=
  match Kind card with
  | cardBigJoker | cardSmallJoker => 1
  | cardNormal =>
      if Rank card =? 14 then 2
      else if (Rank card =? 11) || (Rank card =? 12) || (Rank card =? 13) then 1
      else u8 (Rank card * 2)
  end.

Definition normalCardOrdinal (card : Card) : option Z :=
  match Kind card with cardNormal => Some (Ordinal card) | _ => None end.

Definition sortCardsByOrdinal (cards : list Card) : list Card := sort_by Ordinal cards.

Definition sortCardIDsByOrdinal (values : list CardID) : list CardID :=
  sort_by (fun id => Ordinal (cardOf id)) values.

(** [encodeHex] and [deckDigest]. *)
Definition hexDigit (v : Z) : ascii :=
  default "0"%char (String.list_ascii_of_string "0123456789abcdef" !! Z.to_nat v).

Fixpoint encodeHex (value : list Z) : string :=
  match value with
  | [] => ""%string
  | current :: rest =>
      String (hexDigit (Z.shiftr current 4))
        (String (hexDigit (Z.land current 15)) (encodeHex rest))
  end.

Definition deckDigest (cards : list Card) : string :=
  encodeHex (Sha256.Sum256 (GoLib.bytesOf (String.concat "," (ID <$> cards)))).
End ThreeCards.
