(* ===== verification/ThreeDeck.v ===== *)
(** * Three rounds: facts about the deck

    The 54 cards have distinct ids and ordinals and [ParseCardID] knows exactly
    them; a shuffle is the Fisher-Yates exchange of its draws, every order of
    the deck comes from exactly one sequence of draws, and a draw takes each of
    its values for the same number of 64-bit words; a deal hands every
    participant six cards and partitions the deck. *)

From stdpp Require Import gmap.
From S2P Require Import Prelude Sha256 Roster GoLib ThreeCards.

Module ThreeDeck.
Import Roster ThreeCards.

(** ** The deck *)
Lemma deck_ids_NoDup : NoDup (ID <$> deckOrdered).
Proof. apply (bool_decide_unpack _). vm_compute. exact I. Qed.

Lemma deck_ordinals_NoDup : NoDup (Ordinal <$> deckOrdered).
Proof. apply (bool_decide_unpack _). vm_compute. exact I. Qed.

Lemma deck_length : length deckOrdered = 54%nat.
Proof. vm_compute. reflexivity. Qed.

(** A lookup table built by insertion holds its cards under their ids. *)
Lemma buildCardMap_lookup cards id card :
  NoDup (ID <$> cards) -> buildCardMap cards !! id = Some card <-> card ∈ cards /\ ID card = id.
Proof.
  unfold buildCardMap. induction cards as [|c cards IH] using rev_ind; intros Hn.
  - cbn. rewrite lookup_empty. set_solver.
  - rewrite foldl_app. cbn [foldl]. rewrite fmap_app in Hn.
    apply NoDup_app in Hn as (Hn & Hd & _).
    destruct (decide (ID c = id)) as [<-|Hne].
    + rewrite lookup_insert_eq. split.
      * intros [= <-]. split; [set_solver|done].
      * intros [Hin Hid]. apply elem_of_app in Hin as [Hin|Hin]; [|set_solver].
        exfalso. apply (Hd (ID card)); [apply list_elem_of_fmap; eauto|rewrite Hid; set_solver].
    + rewrite lookup_insert_ne by done. rewrite (IH Hn). set_solver.
Qed.

Lemma cardByID_lookup id card : cardByID !! id = Some card <-> card ∈ deckOrdered /\ ID card = id.
Proof. apply buildCardMap_lookup, deck_ids_NoDup. Qed.

(** The card ids of the deck. *)
Definition known (id : CardID) : Prop := id ∈ ID <$> deckOrdered.

Lemma known_card id : known id <-> exists card, cardByID !! id = Some card.
Proof.
  unfold known. rewrite list_elem_of_fmap. setoid_rewrite cardByID_lookup. naive_solver.
Qed.

Lemma known_cardOf id : known id -> cardOf id ∈ deckOrdered /\ ID (cardOf id) = id.
Proof. intros [card Hc]%known_card. unfold cardOf. rewrite Hc. cbn. by apply cardByID_lookup. Qed.

Lemma cardOf_ID card : card ∈ deckOrdered -> cardOf (ID card) = card.
Proof. intros Hin. unfold cardOf. by rewrite (proj2 (cardByID_lookup (ID card) card)). Qed.

Lemma cardOf_inj id id' : known id -> known id' -> cardOf id = cardOf id' -> id = id'.
Proof. intros [_ H]%known_cardOf [_ H']%known_cardOf E. congruence. Qed.

(** No deck id has surrounding white space, so the second test of
    [ParseCardID] never fires. *)
Lemma deck_ids_trimmed : Forall (fun card => GoLib.TrimSpace (ID card) = ID card) deckOrdered.
Proof.
  assert (H : forallb (fun card => String.eqb (GoLib.TrimSpace (ID card)) (ID card)) deckOrdered = true)
    by (vm_compute; reflexivity).
  apply Forall_forall. intros card Hin. apply list_elem_of_In in Hin.
  apply String.eqb_eq. by apply (proj1 (forallb_forall _ _) H).
Qed.

Lemma ParseCardID_Some id card : ParseCardID id = Some card <-> cardByID !! id = Some card.
Proof.
  unfold ParseCardID. destruct (cardByID !! id) as [c|] eqn:E; [|done].
  apply cardByID_lookup in E as [Hin <-].
  rewrite (proj1 (Forall_forall _ _) deck_ids_trimmed c Hin), String.eqb_refl. done.
Qed.

Lemma ParseCardID_None id : ParseCardID id = None <-> ~ known id.
Proof.
  rewrite known_card. setoid_rewrite <- ParseCardID_Some.
  destruct (ParseCardID id) as [c|]; split; [done| |intros _ [c Hc]; done|done].
  intros H. exfalso. eauto.
Qed.

(** Parsing and printing cards. *)
Lemma ParseCardID_ID card : card ∈ deckOrdered -> ParseCardID (ID card) = Some card.
Proof. intros Hin. by apply ParseCardID_Some, cardByID_lookup. Qed.

(** A boolean fact about every card holds once it evaluates to true. *)
Lemma deck_forall (P : Card -> bool) :
  forallb P deckOrdered = true -> forall card, card ∈ deckOrdered -> P card = true.
Proof. intros H card Hin. apply list_elem_of_In in Hin. by apply (proj1 (forallb_forall _ _) H). Qed.

Lemma deck_ordinal_inj c c' :
  c ∈ deckOrdered -> c' ∈ deckOrdered -> Ordinal c = Ordinal c' -> c = c'.
Proof.
  intros Hc Hc' E. apply list_elem_of_lookup in Hc as [i Hi], Hc' as [j Hj].
  assert (i = j) as ->; [|congruence].
  eapply (NoDup_lookup (Ordinal <$> deckOrdered)); [apply deck_ordinals_NoDup| |];
    rewrite list_lookup_fmap; [by rewrite Hi|by rewrite Hj, E].
Qed.

(** ** The shuffle *)

(** The exchanges of a shuffle, from its draws. *)
Fixpoint swaps (i : nat) (draws : list nat) (deck : list Card) : list Card :=
  match i, draws with
  | S i', j :: draws' => swaps i' draws' (swap i j deck)
  | _, _ => deck
  end.

(** One draw per position [i, i-1, ..., 1], none above its position. *)
Fixpoint legalDraws (i : nat) (draws : list nat) : Prop :=
  match i, draws with
  | O, [] => True
  | S i', j :: draws' => (j <= i)%nat /\ legalDraws i' draws'
  | _, _ => False
  end.

Lemma swap_length i j deck : length (swap i j deck) = length deck.
Proof. unfold swap. by rewrite !length_insert. Qed.

Lemma swap_lookup i j deck k :
  (i < length deck)%nat -> (j < length deck)%nat ->
  swap i j deck !! k = deck !! (if decide (k = i) then j else if decide (k = j) then i else k).
Proof.
  intros Hi Hj. unfold swap.
  destruct (decide (k = i)) as [->|Hki].
  - rewrite list_lookup_insert_eq by (rewrite length_insert; lia). by rewrite list_lookup_lookup_total_lt.
  - rewrite list_lookup_insert_ne by done. destruct (decide (k = j)) as [->|Hkj].
    + rewrite list_lookup_insert_eq by lia. by rewrite list_lookup_lookup_total_lt.
    + by rewrite list_lookup_insert_ne by done.
Qed.

Lemma swap_Permutation i j deck :
  (i < length deck)%nat -> (j < length deck)%nat -> swap i j deck ≡ₚ deck.
Proof.
  intros Hi Hj. apply Permutation_inj. split; [apply swap_length|].
  exists (fun k => if decide (k = i) then j else if decide (k = j) then i else k). split.
  - intros a b. repeat case_decide; lia.
  - intros k. by apply swap_lookup.
Qed.

Lemma swap_app i j front back :
  (i < length front)%nat -> (j < length front)%nat -> swap i j (front ++ back) = swap i j front ++ back.
Proof.
  intros Hi Hj. unfold swap. rewrite !lookup_total_app_l by lia.
  by rewrite !insert_app_l by (rewrite ?length_insert; lia).
Qed.

Lemma swaps_app i draws front back :
  (i < length front)%nat -> legalDraws i draws ->
  swaps i draws (front ++ back) = swaps i draws front ++ back.
Proof.
  revert draws front. induction i as [|i IH]; intros [|j draws] front Hl Hd; try done.
  cbn [swaps]. destruct Hd as [Hj Hd].
  rewrite swap_app by lia. apply IH; [rewrite swap_length; lia|done].
Qed.

Lemma swaps_Permutation i draws deck :
  (i < length deck)%nat -> legalDraws i draws -> swaps i draws deck ≡ₚ deck.
Proof.
  revert draws deck. induction i as [|i IH]; intros [|j draws] deck Hl Hd; try done.
  cbn [swaps]. destruct Hd as [Hj Hd].
  rewrite IH; [|rewrite swap_length; lia|done]. apply swap_Permutation; lia.
Qed.

(** Splitting off the position a step of the shuffle settles. *)
Lemma swap_snoc i j front :
  length front = S i -> (j <= i)%nat ->
  exists init x, swap i j front = init ++ [x] /\ length init = i /\ front !! j = Some x.
Proof.
  intros Hl Hj. pose proof (swap_length i j front) as Hs.
  pose proof (swap_lookup i j front i ltac:(lia) ltac:(lia)) as Hk. rewrite decide_True in Hk by done.
  destruct (swap i j front) as [|y l] eqn:E using rev_ind; [cbn in Hs; lia|].
  clear IHl. rewrite length_app in Hs. cbn in Hs.
  exists l, y. split_and!; [done|lia|]. rewrite <- Hk, lookup_app_r by lia.
  by replace (i - length l)%nat with 0%nat by lia.
Qed.

Lemma swap_snoc_init i j front init x :
  (i < length front)%nat -> (j < length front)%nat -> swap i j front = init ++ [x] ->
  init ++ [x] ≡ₚ front.
Proof. intros Hi Hj <-. by apply swap_Permutation. Qed.

(** Every order of distinct cards comes from exactly one sequence of draws. *)
Lemma swaps_bijective i front target :
  length front = S i -> NoDup front -> target ≡ₚ front ->
  exists! draws, legalDraws i draws /\ swaps i draws front = target.
Proof.
  revert front target. induction i as [|i IH]; intros front target Hl Hn Hp.
  - destruct front as [|x [|]]; try done. apply Permutation_singleton_r in Hp as ->.
    exists []. split; [done|]. by intros [|] [? _].
  - assert (Ht : length target = S (S i)) by (by rewrite Hp).
    destruct target as [|y init' _] using rev_ind; [done|].
    rewrite length_app in Ht. cbn in Ht.
    assert (y ∈ front) as [j Hj]%list_elem_of_lookup by (rewrite <- Hp; set_solver).
    assert (j < length front)%nat as Hjl by (apply lookup_lt_Some in Hj; lia).
    destruct (swap_snoc (S i) j front Hl ltac:(lia)) as (init & x & Hs & Hil & Hx).
    assert (x = y) as -> by congruence.
    assert (Hpi : init ++ [y] ≡ₚ front) by (by eapply (swap_snoc_init (S i) j); eauto; lia).
    assert (Hni : NoDup init) by (rewrite <- Hpi in Hn; by apply NoDup_app in Hn as (? & _)).
    assert (Hpt : init' ≡ₚ init) by (rewrite <- Hpi in Hp; by apply Permutation_app_inv_r in Hp).
    destruct (IH init init' Hil Hni Hpt) as (draws & [Hd Hsw] & Hu).
    exists (j :: draws). split.
    + cbn [legalDraws swaps]. rewrite Hs. split; [split; [lia|done]|]. rewrite swaps_app by (done || lia). by rewrite Hsw.
    + intros [|j' draws'] [Hd' Hsw']; [done|]. destruct Hd' as [Hj' Hd'].
      destruct (swap_snoc (S i) j' front Hl Hj') as (init2 & x2 & Hs2 & Hil2 & Hx2).
      cbn [swaps] in Hsw'. rewrite Hs2, swaps_app in Hsw' by (done || lia).
      apply app_inj_tail in Hsw' as [Hsw' ->].
      assert (j' = j) as -> by exact (NoDup_lookup _ _ _ _ Hn Hx2 Hj).
      rewrite Hs in Hs2. apply app_inj_tail in Hs2 as [<- _].
      f_equal. by apply Hu.
Qed.

Lemma drawBelow_bound fuel limit stream x stream' :
  drawBelow fuel limit stream = Ok (x, stream') -> x < limit.
Proof.
  revert stream. induction fuel as [|fuel IH]; intros stream; cbn [drawBelow]; [done|].
  destruct (nextU64 stream) as [[y s]|e]; [|done].
  destruct (y <? limit) eqn:E; [|apply IH]. intros [= <- <-]. lia.
Qed.

Lemma shuffleLoop_swaps fuel i deck stream shuffled :
  shuffleLoop fuel i deck stream = Ok shuffled ->
  exists draws, legalDraws i draws /\ shuffled = swaps i draws deck.
Proof.
  revert deck stream. induction i as [|i IH]; intros deck stream H; cbn [shuffleLoop] in H.
  - exists []. by simplify_eq.
  - destruct (drawBelow _ _ _) as [[x s]|e] eqn:E; cbn [bind_result] in H; [|done].
    apply IH in H as (draws & Hd & ->).
    exists (Z.to_nat (x mod (Z.of_nat (S i) + 1)) :: draws). cbn [legalDraws swaps]. split; [|done].
    split; [|done]. pose proof (Z.mod_pos_bound x (Z.of_nat (S i) + 1) ltac:(lia)). lia.
Qed.

Lemma ShuffleDeck_swaps fuel seed shuffled :
  ShuffleDeck fuel seed = Ok shuffled ->
  exists draws, legalDraws 53 draws /\ shuffled = swaps 53 draws deckOrdered.
Proof. apply shuffleLoop_swaps. Qed.

Lemma ShuffleDeck_Permutation fuel seed shuffled :
  ShuffleDeck fuel seed = Ok shuffled -> shuffled ≡ₚ deckOrdered.
Proof.
  intros (draws & Hd & ->)%ShuffleDeck_swaps. apply swaps_Permutation; [|done].
  rewrite deck_length. lia.
Qed.

(** Fuel only bounds the draws: a shuffle that returned does not depend on it. *)
Lemma drawBelow_fuel fuel fuel' limit stream r :
  (fuel <= fuel')%nat -> drawBelow fuel limit stream = Ok r -> drawBelow fuel' limit stream = Ok r.
Proof.
  revert fuel' stream. induction fuel as [|fuel IH]; intros fuel' stream Hle H; [done|].
  destruct fuel' as [|fuel']; [lia|]. cbn [drawBelow] in *.
  destruct (nextU64 stream) as [[y s]|e]; [|done].
  destruct (y <? limit); [done|]. apply IH; [lia|done].
Qed.

Lemma shuffleLoop_fuel fuel fuel' i deck stream shuffled :
  (fuel <= fuel')%nat -> shuffleLoop fuel i deck stream = Ok shuffled ->
  shuffleLoop fuel' i deck stream = Ok shuffled.
Proof.
  intros Hle. revert deck stream.
  induction i as [|i IH]; intros deck stream H; cbn [shuffleLoop] in *; [done|].
  destruct (drawBelow fuel _ stream) as [[x s]|e] eqn:E; cbn [bind_result] in H; [|done].
  rewrite (drawBelow_fuel _ _ _ _ _ Hle E). cbn [bind_result]. by apply IH.
Qed.

Lemma ShuffleDeck_fuel fuel fuel' seed shuffled :
  (fuel <= fuel')%nat -> ShuffleDeck fuel seed = Ok shuffled -> ShuffleDeck fuel' seed = Ok shuffled.
Proof. apply shuffleLoop_fuel. Qed.

(** A failed shuffle is one that ran out of fuel. *)
Lemma drawBelow_Err fuel limit stream e : drawBelow fuel limit stream = Err e -> e = OutOfFuel.
Proof.
  revert stream. induction fuel as [|fuel IH]; intros stream; cbn [drawBelow]; [congruence|].
  destruct (nextU64 stream) as [[y s]|e'] eqn:E; [|done].
  destruct (_ <? _); [done|]. apply IH.
Qed.

Lemma ShuffleDeck_Err fuel seed e : ShuffleDeck fuel seed = Err e -> e = OutOfFuel.
Proof.
  unfold ShuffleDeck. generalize (length OrderedDeck - 1)%nat as i.
  generalize OrderedDeck as deck. generalize (newShuffleStream seed) as stream.
  intros stream deck i. revert stream deck.
  induction i as [|i IH]; intros stream deck H; cbn [shuffleLoop] in *; [done|].
  destruct (drawBelow fuel _ stream) as [[x s]|e'] eqn:E; cbn [bind_result] in H; [by eapply IH|].
  simplify_eq. by eapply drawBelow_Err.
Qed.

(** The accepted words are a whole number of blocks of [n]. *)
Lemma shuffleLimit_blocks n :
  0 < n <= maxUint64 ->
  shuffleLimit n = maxUint64 / n * n /\ 0 < shuffleLimit n /\ maxUint64 - shuffleLimit n < n.
Proof.
  intros [Hn Hm]. unfold shuffleLimit. pose proof (Z.div_mod maxUint64 n ltac:(lia)).
  pose proof (Z.mod_pos_bound maxUint64 n Hn).
  assert (1 <= maxUint64 / n) by (apply Z.div_le_lower_bound; lia). nia.
Qed.

(** *** The words of a seed

    Word [k] of the stream is the [k mod 4]-th group of eight bytes of the hash
    of the domain, a zero byte, the seed and the block number [k / 4]. *)
Definition streamBlock (seed : list Z) (q : nat) : list Z :=
  Sha256.Sum256 (GoLib.bytesOf ShuffleDomain ++ [0] ++ seed ++ putUint64BE (u64 (Z.of_nat q))).
Definition streamWord (seed : list Z) (k : nat) : Z :=
  uint64BE (take 8 (drop (8 * (k mod 4)) (streamBlock seed (k / 4)))).

(** The stream after [k] words. *)
Definition streamAt (seed : list Z) (k : nat) (stream : shuffleStream) : Prop :=
  k = 0%nat /\ stream = newShuffleStream seed \/
  exists q o, k = (4 * q + o + 1)%nat /\ (o < 4)%nat /\
    stream = mkStream seed (u64 (Z.of_nat q + 1)) (streamBlock seed q) (8 * (o + 1)).

Lemma word_at seed q o : (o < 4)%nat -> streamWord seed (4 * q + o) = uint64BE (take 8 (drop (8 * o) (streamBlock seed q))).
Proof.
  intros Ho. unfold streamWord.
  assert (((4 * q + o) mod 4)%nat = o /\ ((4 * q + o) / 4)%nat = q) as [-> ->]; [|done].
  pose proof (Nat.div_mod_eq (4 * q + o) 4). pose proof (Nat.mod_upper_bound (4 * q + o) 4 ltac:(done)). lia.
Qed.

Lemma nextU64_word sd k stream : streamAt sd k stream ->
  exists stream', nextU64 stream = Ok (streamWord sd k, stream') /\ streamAt sd (S k) stream'.
Proof.
  assert (Hnew : forall q, exists stream',
    nextU64 (mkStream sd (u64 (Z.of_nat q)) [] 0) = Ok (streamWord sd (4 * q), stream') /\ streamAt sd (S (4 * q)) stream').
  { intros q. eexists. split.
    - rewrite <- (Nat.add_0_r (4 * q)), word_at by lia. reflexivity.
    - right. exists q, 0%nat. split_and!; [lia|lia|]. cbn [seed counter buffer offset]. f_equal.
      unfold u64, maxUint64. by rewrite Zplus_mod_idemp_l. }
  intros [[-> ->]|(q & o & -> & Ho & ->)]; [exact (Hnew 0%nat)|].
  assert (Hlen : length (streamBlock sd q) = 32%nat) by apply Sha256.Sum256_length.
  destruct (decide (o = 3)%nat) as [->|Hne].
  - destruct (Hnew (S q)) as (stream' & Hw & Hs). replace (4 * q + 3 + 1)%nat with (4 * S q)%nat by lia.
    exists stream'. split; [|done]. rewrite <- Hw. unfold nextU64. cbn [seed counter buffer offset length]. rewrite Hlen.
    replace (Z.of_nat (S q)) with (Z.of_nat q + 1) by lia. reflexivity.
  - eexists. unfold nextU64. cbn [seed counter buffer offset]. rewrite Hlen.
    replace (32 <? 8 * (o + 1) + 8)%nat with false by (symmetry; apply Nat.ltb_ge; lia). cbn [seed counter buffer offset]. split.
    + rewrite <- (Nat.add_assoc (4 * q)), word_at by lia. reflexivity.
    + right. exists q, (o + 1)%nat. split_and!; [lia|lia|]. f_equal. lia.
Qed.

Lemma uint64BE_range bytes : Forall is_u8 bytes -> (length bytes <= 8)%nat -> 0 <= uint64BE bytes <= maxUint64.
Proof.
  intros Hb Hl. unfold uint64BE.
  assert (H : forall v, 0 <= v -> 0 <= foldl (fun value b => value * 256 + b) v bytes < (v + 1) * 256 ^ Z.of_nat (length bytes)).
  { clear Hl. induction Hb as [|b bytes Hb _ IH]; intros v Hv; cbn [foldl length]; [lia|]. unfold is_u8 in Hb.
    specialize (IH (v * 256 + b) ltac:(lia)). rewrite Nat2Z.inj_succ, Z.pow_succ_r by lia.
    assert (0 < 256 ^ Z.of_nat (length bytes)) by (apply Z.pow_pos_nonneg; lia). nia. }
  specialize (H 0 ltac:(lia)). assert (256 ^ Z.of_nat (length bytes) <= 256 ^ 8) by (apply Z.pow_le_mono_r; lia).
  change (256 ^ 8) with 18446744073709551616 in *. unfold maxUint64. lia.
Qed.

Lemma streamWord_range seed k : 0 <= streamWord seed k <= maxUint64.
Proof.
  apply uint64BE_range; [|rewrite length_take; lia]. apply Forall_take, Forall_drop, Sha256.Sum256_bytes.
Qed.

(** The greatest multiple of [n] below [2^64]. *)
Definition fairLimit (n : Z) : Z := maxUint64 / n * n.

(** The draws a seed determines: for each position [i, i-1, ..., 1] the first
    word from the [k]-th on below the limit, as a remainder. *)
Fixpoint drawnFrom (seed : list Z) (i k : nat) (draws : list nat) : Prop :=
  match i, draws with
  | O, [] => True
  | S i', j :: draws' =>
      let n := Z.of_nat i + 1 in
      exists k', (k <= k')%nat /\ (forall l, (k <= l < k')%nat -> fairLimit n <= streamWord seed l) /\
        streamWord seed k' < fairLimit n /\ Z.of_nat j = streamWord seed k' mod n /\ drawnFrom seed i' (S k') draws'
  | _, _ => False
  end.

Lemma drawnFrom_legal seed i k draws : drawnFrom seed i k draws -> legalDraws i draws.
Proof.
  revert k draws. induction i as [|i IH]; intros k [|j draws] H; try done. cbn [drawnFrom legalDraws] in H |- *. cbv zeta in H.
  destruct H as (k' & _ & _ & _ & Hj & H). split; [|by eapply IH].
  pose proof (Z.mod_pos_bound (streamWord seed k') (Z.of_nat (S i) + 1) ltac:(lia)). lia.
Qed.

Lemma drawBelow_first fuel limit seed k stream x stream' : streamAt seed k stream ->
  drawBelow fuel limit stream = Ok (x, stream') ->
  exists k', (k <= k')%nat /\ (forall l, (k <= l < k')%nat -> limit <= streamWord seed l) /\
    x = streamWord seed k' /\ streamWord seed k' < limit /\ streamAt seed (S k') stream'.
Proof.
  revert k stream. induction fuel as [|fuel IH]; intros k stream Hat H; cbn [drawBelow] in H; [done|].
  destruct (nextU64_word _ _ _ Hat) as (s1 & Hn & Hat1). rewrite Hn in H. destruct (streamWord seed k <? limit) eqn:E.
  - injection H as <- <-. exists k. split_and!; [lia|lia|done|lia|done].
  - apply (IH (S k)) in H as (k' & Hk & Hl & Hx & Hlt & Hat'); [|done]. exists k'. split_and!; try done; [lia|].
    intros l Hl'. destruct (decide (l = k)) as [->|]; [lia|apply Hl; lia].
Qed.

Lemma shuffleLoop_drawn fuel i seed k deck stream shuffled : (i <= 53)%nat -> streamAt seed k stream ->
  shuffleLoop fuel i deck stream = Ok shuffled -> exists draws, drawnFrom seed i k draws /\ shuffled = swaps i draws deck.
Proof.
  revert k deck stream. induction i as [|i IH]; intros k deck stream Hi Hat H; cbn [shuffleLoop] in H.
  - exists []. by simplify_eq.
  - destruct (drawBelow _ _ _) as [[x s]|e] eqn:E; cbn [bind_result] in H; [|done].
    destruct (drawBelow_first _ _ _ _ _ _ _ Hat E) as (k' & Hk & Hl & Hx & Hlt & Hat'). subst x. clear E.
    destruct (IH (S k') _ _ ltac:(lia) Hat' H) as (draws & Hd & ->).
    assert (Hlim : shuffleLimit (Z.of_nat (S i) + 1) = fairLimit (Z.of_nat (S i) + 1))
      by (apply shuffleLimit_blocks; unfold maxUint64; lia).
    rewrite Hlim in Hl, Hlt. exists (Z.to_nat (streamWord seed k' mod (Z.of_nat (S i) + 1)) :: draws). split; [|reflexivity]. exists k'. split_and!; try done.
    rewrite Z2Nat.id; [done|]. apply Z.mod_pos_bound. lia.
Qed.

Lemma ShuffleDeck_drawn fuel seed shuffled :
  ShuffleDeck fuel seed = Ok shuffled -> exists draws, drawnFrom seed 53 0 draws /\ shuffled = swaps 53 draws deckOrdered.
Proof. apply shuffleLoop_drawn; [lia|by left]. Qed.

(** Each draw below [n] is hit by the same number of accepted words. *)
Lemma draw_fibre n j x :
  0 < n -> 0 <= j < n ->
  0 <= x < fairLimit n /\ x mod n = j <-> exists q, 0 <= q < maxUint64 / n /\ x = q * n + j.
Proof.
  intros Hn Hj. unfold fairLimit. split.
  - intros [Hx <-]. exists (x / n). pose proof (Z.div_mod x n ltac:(lia)).
    split; [|lia]. split; [apply Z.div_pos; lia|]. apply Z.div_lt_upper_bound; lia.
  - intros (q & Hq & ->). split; [nia|]. rewrite Z.add_comm, Z_mod_plus_full. apply Z.mod_small. lia.
Qed.

(** ** The deal *)
Section Deal.
Context (deck : list Card).

(** What the participant at position [i] of [n] is dealt. *)
Definition handAt (n i : nat) : list CardID :=
  (fun k => ID (deck !!! (k * n + i)%nat)) <$> seq 0 6.

Lemma dealRound_spec participants hands base :
  NoDup (UserID <$> participants) -> (base + length participants <= length deck)%nat ->
  exists hands',
    fold_result (dealCard deck) (hands, base) participants = Ok (hands', (base + length participants)%nat)
    /\ (forall u, u ∉ UserID <$> participants -> hands' !! u = hands !! u)
    /\ (forall i p, participants !! i = Some p ->
          hands' !! UserID p = Some (default [] (hands !! UserID p) ++ [ID (deck !!! (base + i)%nat)])).
Proof.
  revert hands base. induction participants as [|p rest IH]; intros hands base Hn Hb; cbn [fold_result].
  - exists hands. cbn. rewrite Nat.add_0_r. split_and!; [done..|]. intros i q; by rewrite lookup_nil.
  - cbn in Hn, Hb. apply NoDup_cons in Hn as [Hp Hn].
    unfold dealCard at 1, at_index.
    destruct (lookup_lt_is_Some_2 deck base ltac:(lia)) as [card Hc]. rewrite Hc. cbn [bind_result].
    destruct (IH (<[UserID p := default [] (hands !! UserID p) ++ [ID card]]> hands) (S base) Hn ltac:(cbn in Hb; lia))
      as (hands' & -> & Hout & Hin).
    exists hands'. cbn [length]. split_and!; [f_equal; f_equal; lia| |].
    + intros u Hu. cbn in Hu. rewrite Hout by set_solver. rewrite lookup_insert_ne by set_solver. done.
    + intros [|i] q Hq; cbn in Hq.
      * simplify_eq. rewrite Hout by done. rewrite lookup_insert_eq, Nat.add_0_r.
        by rewrite (list_lookup_total_correct _ _ _ Hc).
      * rewrite (Hin i q Hq), lookup_insert_ne; [by replace (S base + i)%nat with (base + S i)%nat by lia|].
        intros E. apply Hp. rewrite E. apply list_elem_of_fmap. exists q. split; [done|].
        by eapply list_elem_of_lookup_2.
Qed.

Lemma dealRounds_spec participants (rounds : list nat) hands base :
  NoDup (UserID <$> participants) ->
  (base + length rounds * length participants <= length deck)%nat ->
  exists hands',
    fold_result (fun dealt (_ : nat) => fold_result (dealCard deck) dealt participants) (hands, base) rounds
    = Ok (hands', (base + length rounds * length participants)%nat)
    /\ (forall u, u ∉ UserID <$> participants -> hands' !! u = hands !! u)
    /\ (forall i p, participants !! i = Some p -> forall dealt, hands !! UserID p = Some dealt ->
          hands' !! UserID p =
          Some (dealt ++ ((fun k => ID (deck !!! (base + k * length participants + i)%nat))
                            <$> seq 0 (length rounds)))).
Proof.
  intros Hn. revert hands base. induction rounds as [|r rounds IH]; intros hands base Hb; cbn [fold_result].
  - exists hands. cbn. rewrite Nat.add_0_r. split_and!; [done..|]. intros i p Hp dealt ->.
    by rewrite app_nil_r.
  - cbn in Hb.
    destruct (dealRound_spec participants hands base Hn ltac:(lia)) as (hands1 & -> & Hout1 & Hin1).
    cbn [bind_result].
    destruct (IH hands1 (base + length participants)%nat ltac:(lia)) as (hands' & -> & Hout & Hin).
    exists hands'. cbn [length]. split_and!; [f_equal; f_equal; lia| |].
    + intros u Hu. by rewrite Hout, Hout1.
    + intros i p Hp dealt Hd. pose proof (Hin1 i p Hp) as H1. rewrite Hd in H1. cbn in H1.
      rewrite (Hin i p Hp _ H1). rewrite <- app_assoc. cbn [app seq fmap list_fmap].
      rewrite <- fmap_S_seq, <- list_fmap_compose. cbn. rewrite Nat.add_0_r.
      do 3 f_equal. apply list_fmap_ext. intros k ? _. cbn. do 2 f_equal. lia.
Qed.

Lemma emptyHands_lookup participants u :
  u ∈ UserID <$> participants ->
  foldl (fun hands participant => <[UserID participant := @nil CardID]> hands)
        (∅ : gmap string (list CardID)) participants !! u = Some [].
Proof.
  induction participants as [|p rest IH] using rev_ind; [set_solver|].
  rewrite foldl_app, fmap_app. cbn [foldl]. intros Hu.
  destruct (decide (UserID p = u)) as [<-|Hne]; [by rewrite lookup_insert_eq|].
  rewrite lookup_insert_ne by done. apply IH. set_solver.
Qed.

Lemma DealHands_spec participants :
  NoDup (UserID <$> participants) -> (2 <= length participants <= 9)%nat -> length deck = 54%nat ->
  exists hands,
    DealHands participants deck = Ok (hands, drop (6 * length participants) deck)
    /\ forall i p, participants !! i = Some p ->
         hands !! UserID p = Some (handAt (length participants) i).
Proof.
  intros Hn Hlen Hdeck. unfold DealHands, MinimumPlayers, MaximumPlayers.
  replace (length participants <? 2)%nat with false by (symmetry; apply Nat.ltb_ge; lia).
  replace (9 <? length participants)%nat with false by (symmetry; apply Nat.ltb_ge; lia).
  rewrite deck_length, Hdeck, Nat.eqb_refl. cbn [orb negb].
  edestruct (dealRounds_spec participants (seq 0 6)) as (hands & -> & _ & Hin); [done|cbn; lia|].
  cbn [bind_result length seq]. exists hands. split; [done|].
  intros i p Hp. rewrite (Hin i p Hp []); [done|]. apply emptyHands_lookup.
  apply list_elem_of_fmap. exists p. split; [done|]. by eapply list_elem_of_lookup_2.
Qed.
End Deal.

(** The deck positions of six rounds over [n] seats, seat by seat. *)
Definition dealPositions (n : nat) : list nat :=
  seq 0 n ≫= fun i => (fun k => (k * n + i)%nat) <$> seq 0 6.

Lemma dealPositions_perm n : (2 <= n <= 9)%nat -> dealPositions n ≡ₚ seq 0 (6 * n).
Proof.
  intros Hn. rewrite <- (merge_sort_Permutation le (dealPositions n)).
  assert (merge_sort le (dealPositions n) = seq 0 (6 * n)) as ->; [|done].
  do 10 (destruct n as [|n]; [first [lia|vm_compute; reflexivity]|]). lia.
Qed.

Lemma handAt_length deck n i : length (handAt deck n i) = 6%nat.
Proof. unfold handAt. by rewrite length_fmap. Qed.

Lemma take_total_seq (deck : list Card) m :
  (m <= length deck)%nat -> (fun k => deck !!! k) <$> seq 0 m = take m deck.
Proof.
  revert deck. induction m as [|m IH]; intros deck Hm; [done|].
  destruct deck as [|c deck]; [cbn in Hm; lia|]. cbn [take seq fmap list_fmap].
  f_equal. rewrite <- fmap_S_seq, <- list_fmap_compose. apply IH. cbn in Hm. lia.
Qed.

(** The hands of all seats together are the first cards of the deck. *)
Lemma hands_partition deck n :
  (2 <= n <= 9)%nat -> length deck = 54%nat ->
  (seq 0 n ≫= handAt deck n) ≡ₚ ID <$> take (6 * n) deck.
Proof.
  intros Hn Hd.
  assert ((seq 0 n ≫= handAt deck n) = (fun k => ID (deck !!! k)) <$> dealPositions n) as ->.
  { unfold dealPositions. induction (seq 0 n) as [|i l IH]; [done|].
    rewrite !bind_cons, fmap_app, IH. reflexivity. }
  rewrite (dealPositions_perm n Hn), <- take_total_seq by lia.
  by rewrite <- list_fmap_compose.
Qed.
Lemma normal_in_deck c : c ∈ normalDeck -> c ∈ deckOrdered.
Proof. apply (subseteq_take 52 deckOrdered). Qed.

(** From here on the deck is its equations; only evaluation unfolds it. *)
#[global] Opaque deckOrdered normalDeck cardByID.
End ThreeDeck.
