(* ===== verification/ThreeHands.v ===== *)
(** * Three rounds: comparing and choosing cards

    Model of the evaluation half of [games/three-rounds/engine/logic.go]: the
    comparisons of the three rounds, the choice made for a player who runs out
    of time, and the joker resolution of the third round.

    Go sorts its slices in place; the functions that sort a slice they own
    ([classifyThird], [maybeBestThird]) rebind the sorted list here.  A pair of
    variables [best], [hasBest] is an option. *)

From S2P Require Import Prelude ThreeCards.

Module ThreeHands.
Import ThreeCards.

(** [cmp.Compare] on integers, and the chain
    [if diff := ...; diff != 0 { return diff }]. *)
Definition Compare (left right : Z) : Z :=
  if left <? right then -1 else if right <? left then 1 else 0.
Definition orElse (diff rest : Z) : Z := if diff =? 0 then rest else diff.

Definition cardsFromIDs (cardIDs : list CardID) : list Card := cardOf <$> cardIDs.

Definition canonicalSelection (cardIDs : list CardID) : list CardID :=
  sortCardIDsByOrdinal ([] ++ cardIDs).

(** The inner loop of [removeCards]: drops the first occurrence. *)
Fixpoint removeFirst (target : CardID) (remaining : list CardID) : list CardID :=
  match remaining with
  | [] => []
  | cardID :: rest => if String.eqb cardID target then rest else cardID :: removeFirst target rest
  end.

Definition removeCards (values selected : list CardID) : list CardID :=
  foldl (fun remaining target => removeFirst target remaining) ([] ++ values) selected.

(** ** Round one *)
Record roundOneComparison := mkRoundOne {
  r1_RankStrength : Z;
  r1_SuitStrength : Z;
}.

Definition compareRoundOne (left right : roundOneComparison) : Z :=
  orElse (Compare (r1_RankStrength left) (r1_RankStrength right))
         (Compare (r1_SuitStrength left) (r1_SuitStrength right)).

Definition compareAutoRoundOne (left right : roundOneComparison) : Z :=
  orElse (Compare (r1_RankStrength left) (r1_RankStrength right))
         (Compare (r1_SuitStrength left) (r1_SuitStrength right)).

(** ** Round two *)
Record roundTwoComparison := mkRoundTwo {
  r2_Busted : bool;
  r2_TotalHalfPoints : Z;
  r2_RankStrengthsDesc : Z * Z;
}.

Definition evaluateRoundTwo (cards : list Card) : res roundTwoComparison :=
  let* first := at_index cards 0 in
  let* second := at_index cards 1 in
  let ranks := (rankStrength first, rankStrength second) in
  let ranks := if ranks.1 <? ranks.2 then (ranks.2, ranks.1) else ranks in
  let total := u8 (halfPoints first + halfPoints second) in
  Ok (mkRoundTwo (21 <? total) total ranks).

Definition compareRoundTwo (left right : roundTwoComparison) : Z :=
  if negb (Bool.eqb (r2_Busted left) (r2_Busted right))
  then (if r2_Busted left then -1 else 1)
  else orElse (Compare (r2_TotalHalfPoints left) (r2_TotalHalfPoints right))
         (orElse (Compare (r2_RankStrengthsDesc left).1 (r2_RankStrengthsDesc right).1)
                 (Compare (r2_RankStrengthsDesc left).2 (r2_RankStrengthsDesc right).2)).

Record roundTwoAutoKey := mkAutoKey {
  k_Busted : bool;
  k_TotalHalfPoints : Z;
  k_RankAsc : Z * Z;
  k_Ordinals : Z * Z;
}.

Definition buildRoundTwoAutoKey (cards : list Card) : res roundTwoAutoKey :=
  let* evaluation := evaluateRoundTwo cards in
  let* first := at_index cards 0 in
  let* second := at_index cards 1 in
  let rankAsc := (rankStrength first, rankStrength second) in
  let rankAsc := if rankAsc.2 <? rankAsc.1 then (rankAsc.2, rankAsc.1) else rankAsc in
  let ordinals := (Ordinal first, Ordinal second) in
  let ordinals := if ordinals.2 <? ordinals.1 then (ordinals.2, ordinals.1) else ordinals in
  Ok (mkAutoKey (r2_Busted evaluation) (r2_TotalHalfPoints evaluation) rankAsc ordinals).

Definition compareRoundTwoAuto (left right : roundTwoAutoKey) : Z :=
  if negb (Bool.eqb (k_Busted left) (k_Busted right))
  then (if k_Busted left then 1 else -1)
  else orElse (Compare (k_TotalHalfPoints left) (k_TotalHalfPoints right))
         (orElse (Compare (k_RankAsc left).1 (k_RankAsc right).1)
            (orElse (Compare (k_RankAsc left).2 (k_RankAsc right).2)
               (orElse (Compare (k_Ordinals left).1 (k_Ordinals right).1)
                       (Compare (k_Ordinals left).2 (k_Ordinals right).2)))).

(** ** Selection on timeout *)
Definition autoComparison (card : Card) : roundOneComparison :=
  mkRoundOne (rankStrength card) (suitAscending card).

(** One turn of the round-one loop over [best] and [bestIndex]. *)
Definition autoRoundOneStep (cards : list Card) (acc : roundOneComparison * nat) (index : nat)
  : roundOneComparison * nat :=
  let '(best, bestIndex) := acc in
  let current := autoComparison (cards !!! index) in
  if compareAutoRoundOne current best <? 0 then (current, index) else (best, bestIndex).

(** One turn of the inner round-two loop. *)
Definition autoRoundTwoStep (cards : list Card) (left : nat)
    (best : option (list CardID * roundTwoAutoKey)) (right : nat)
  : res (option (list CardID * roundTwoAutoKey)) :=
  let* key := buildRoundTwoAutoKey [cards !!! left; cards !!! right] in
  let current := (canonicalSelection [ID (cards !!! left); ID (cards !!! right)], key) in
  match best with
  | None => Ok (Some current)
  | Some (_, bestKey) => Ok (if compareRoundTwoAuto key bestKey <? 0 then Some current else best)
  end.

(** [autoSelect] reads the remaining hand of its player and the round. *)
Definition autoSelect (remainingHand : list CardID) (round : Z) : res (list CardID) :=
  let cards := cardsFromIDs remainingHand in
  let n := length cards in
  if round =? 1 then
    let* first := at_index cards 0 in
    let '(_, bestIndex) :=
      foldl (autoRoundOneStep cards) (autoComparison first, 0%nat) (seq 1 (n - 1)) in
    Ok [ID (cards !!! bestIndex)]
  else
    let* best :=
      fold_result (fun best left =>
                     fold_result (autoRoundTwoStep cards left) best (seq (left + 1) (n - (left + 1))))
                  None (seq 0 n) in
    match best with
    | None => ruleError CodeCardInvalid "round two auto-selection could not find a legal combination"
    | Some (cardIDs, _) => Ok cardIDs
    end.

(** ** Round three *)
Definition HandSingle : Z := 1.
Definition HandPair : Z := 2.
Definition HandStraight : Z := 3.
Definition HandFlush : Z := 4.
Definition HandStraightFlush : Z := 5.
Definition HandTrips : Z := 6.

Record WildcardSubstitution := mkSubstitution {
  w_WildcardCardID : CardID;
  w_SubstitutedCardID : CardID;
  w_CardOrdinal : Z;
}.

Record WildcardResolution := mkWildcard {
  w_Substitutions : list WildcardSubstitution;
  w_ResolvedCards : list CardID;
}.

Definition zeroWildcard : WildcardResolution := mkWildcard [] [].

(** [thirdComparison] and [classifiedThird] have the same fields. *)
Record thirdComparison := mkThird {
  t_HandClass : Z;
  t_CompareValues : list Z;
}.

Record thirdResolution := mkThirdResolution {
  t_Comparison : thirdComparison;
  t_ResolvedCards : list CardID;
  t_WildcardResolution : WildcardResolution;
}.

(** The index loops of [compareThirdResult] and [compareOrdinalKey]. *)
Fixpoint compareLoop (left right : list Z) : Z :=
  match left, right with
  | x :: left', y :: right' => orElse (Compare x y) (compareLoop left' right')
  | _, _ => 0
  end.

Definition compareOrdinalKey (left right : list Z) : Z :=
  orElse (compareLoop left right) (Compare (Z.of_nat (length left)) (Z.of_nat (length right))).

Definition compareThirdResult (left right : thirdComparison) : Z :=
  orElse (Compare (t_HandClass left) (t_HandClass right))
    (orElse (compareLoop (t_CompareValues left) (t_CompareValues right))
            (Compare (Z.of_nat (length (t_CompareValues left)))
                     (Z.of_nat (length (t_CompareValues right))))).

Definition straightHigh (ranks : list Z) : res (bool * Z) :=
  let sorted := sort_by id ranks in
  let* s0 := at_index sorted 0 in
  let* s1 := at_index sorted 1 in
  let* s2 := at_index sorted 2 in
  if (s0 =? 2) && (s1 =? 3) && (s2 =? 14) then Ok (true, 3)
  else if (u8 (s0 + 1) =? s1) && (u8 (s1 + 1) =? s2) then Ok (true, s2)
  else Ok (false, 0).

Definition classifyThird (cards : list Card) : res thirdComparison :=
  let cards := sortCardsByOrdinal cards in
  let* c0 := at_index cards 0 in
  let* c1 := at_index cards 1 in
  let* c2 := at_index cards 2 in
  let ranks := [Rank c0; Rank c1; Rank c2] in
  let sortedDesc := sort_by Z.opp ranks in
  let flush := negb (bool_decide (suit c0 = SuitNone)) && bool_decide (suit c0 = suit c1)
               && bool_decide (suit c1 = suit c2) in
  if (Rank c0 =? Rank c1) && (Rank c1 =? Rank c2) then Ok (mkThird HandTrips [Rank c0])
  else
    let* '(straight, high) := straightHigh ranks in
    if straight then
      Ok (if flush then mkThird HandStraightFlush [high] else mkThird HandStraight [high])
    else if flush then Ok (mkThird HandFlush sortedDesc)
    else if (Rank c0 =? Rank c1) || (Rank c0 =? Rank c2) || (Rank c1 =? Rank c2) then
      let '(pairRank, kicker) :=
        if Rank c0 =? Rank c1 then (Rank c0, Rank c2)
        else if Rank c0 =? Rank c2 then (Rank c0, Rank c1)
        else (Rank c1, Rank c0) in
      Ok (mkThird HandPair [pairRank; kicker])
    else Ok (mkThird HandSingle sortedDesc).

Definition toResolvedCardIDs (cards : list Card) : list CardID :=
  ID <$> sortCardsByOrdinal ([] ++ cards).

Definition substitutionOrdinals (value : WildcardResolution) : list Z :=
  w_CardOrdinal <$> w_Substitutions value.

(** The substitution loop of [maybeBestThird]. *)
Fixpoint substitutionLoop (index : nat) (jokerOrder assignments : list Card)
  : res (list WildcardSubstitution) :=
  match assignments with
  | [] => Ok []
  | assigned :: rest =>
      let* joker := at_index jokerOrder index in
      let* more := substitutionLoop (S index) jokerOrder rest in
      Ok (mkSubstitution (ID joker) (ID assigned) (Ordinal assigned) :: more)
  end.

Definition maybeBestThird (current : option thirdResolution)
    (jokerOrder candidate assignments : list Card) : res (bool * thirdResolution) :=
  let* classified := classifyThird candidate in
  let candidate := sortCardsByOrdinal candidate in
  let resolvedCards := toResolvedCardIDs candidate in
  let substitutionKey := Ordinal <$> assignments in
  let* substitutions := substitutionLoop 0 jokerOrder assignments in
  let resolution := mkWildcard substitutions ([] ++ resolvedCards) in
  let next :=
    mkThirdResolution (mkThird (t_HandClass classified) ([] ++ t_CompareValues classified))
      resolvedCards resolution in
  match current with
  | None => Ok (true, next)
  | Some current =>
      let diff := compareThirdResult (t_Comparison next) (t_Comparison current) in
      if negb (diff =? 0) then Ok (0 <? diff, next)
      else Ok (compareOrdinalKey substitutionKey (substitutionOrdinals (t_WildcardResolution current)) <? 0,
               next)
  end.

(** The first loop of [resolveThirdHand]: [jokers], [real] and [used]. *)
Definition splitJokers (cards : list Card) : list Card * list Card * list Z :=
  foldl (fun '(jokers, real, used) card =>
           match Kind card with
           | cardNormal => (jokers, real ++ [card], Ordinal card :: used)
           | _ => (jokers ++ [card], real, used)
           end)
        ([], [], []) cards.

Definition tryAssignment (real jokerOrder : list Card) (best : option thirdResolution)
    (assignments : list Card) : res (option thirdResolution) :=
  let candidate := real ++ assignments in
  let* '(improved, resolved) := maybeBestThird best jokerOrder candidate assignments in
  Ok (if improved then Some resolved else best).

(** The inner loop over [second]. *)
Definition secondLoop (real jokerOrder : list Card) (used : list Z) (first : nat)
    (best : option thirdResolution) : res (option thirdResolution) :=
  fold_result (fun best second =>
                 if (second =? first)%nat then Ok best
                 else if bool_decide (Ordinal (normalDeck !!! second) ∈ used) then Ok best
                 else tryAssignment real jokerOrder best [normalDeck !!! first; normalDeck !!! second])
              best (seq 0 (length normalDeck)).

(** The outer loop over [first]. *)
Definition firstLoop (real jokerOrder : list Card) (used : list Z) : res (option thirdResolution) :=
  fold_result (fun best first =>
                 if bool_decide (Ordinal (normalDeck !!! first) ∈ used) then Ok best
                 else if (length jokerOrder =? 1)%nat
                 then tryAssignment real jokerOrder best [normalDeck !!! first]
                 else secondLoop real jokerOrder used first best)
              None (seq 0 (length normalDeck)).

Definition resolveThirdHand (cards : list Card) : res thirdResolution :=
  let '(jokers, real, used) := splitJokers cards in
  if (length jokers =? 0)%nat then
    let* result := classifyThird real in
    let real := sortCardsByOrdinal real in
    Ok (mkThirdResolution (mkThird (t_HandClass result) (t_CompareValues result))
          (toResolvedCardIDs real) zeroWildcard)
  else if (2 <? length jokers)%nat
  then ruleError CodeInvalidState "third round cannot contain more than two jokers"
  else
    let jokerOrder :=
      [BigJokerID; SmallJokerID] ≫= fun wanted => List.filter (fun joker => String.eqb (ID joker) wanted) jokers in
    let* best := firstLoop real jokerOrder used in
    match best with
    | None => ruleError CodeInvalidState "third round wildcard resolution found no candidate"
    | Some best => Ok best
    end.
End ThreeHands.
