(* ===== verification/ThreeHandsFacts.v ===== *)
(** * Three rounds: facts about comparisons and choices

    Every comparison of the engine is a total preorder ([CmpOrder]); the loops
    that keep a best candidate return one no candidate beats.  From these come
    the laws of [autoSelect] and of the joker resolution. *)

From S2P Require Import Prelude ThreeCards ThreeDeck ThreeHands.

Module ThreeHandsFacts.
Import ThreeCards ThreeDeck ThreeHands.

(** ** Comparisons *)

(** What a Go comparison function promises: swapping its arguments flips the
    sign, and "not greater" is transitive. *)
Class CmpOrder {A : Type} (cmp : A -> A -> Z) : Prop := {
  cmp_flip x y : cmp y x = - cmp x y;
  cmp_trans x y z : cmp x y <= 0 -> cmp y z <= 0 -> cmp x z <= 0;
}.

Section Cmp.
Context {A : Type} (cmp : A -> A -> Z) `{!CmpOrder cmp}.

Lemma cmp_refl x : cmp x x = 0.
Proof. pose proof (cmp_flip (cmp := cmp) x x). lia. Qed.

Lemma cmp_lt_trans x y z : cmp x y < 0 -> cmp y z <= 0 -> cmp x z < 0.
Proof.
  intros H1 H2. destruct (Z.lt_ge_cases (cmp x z) 0) as [?|H3]; [done|].
  pose proof (cmp_flip (cmp := cmp) x z). pose proof (cmp_flip (cmp := cmp) x y).
  pose proof (cmp_trans (cmp := cmp) y z x H2 ltac:(lia)). lia.
Qed.

Lemma cmp_lt_trans' x y z : cmp x y <= 0 -> cmp y z < 0 -> cmp x z < 0.
Proof.
  intros H1 H2. destruct (Z.lt_ge_cases (cmp x z) 0) as [?|H3]; [done|].
  pose proof (cmp_flip (cmp := cmp) x z). pose proof (cmp_flip (cmp := cmp) y z).
  pose proof (cmp_trans (cmp := cmp) z x y ltac:(lia) H1). lia.
Qed.

Lemma cmp_eq_trans x y z : cmp x y = 0 -> cmp y z = 0 -> cmp x z = 0.
Proof.
  intros H1 H2. pose proof (cmp_trans (cmp := cmp) x y z ltac:(lia) ltac:(lia)).
  pose proof (cmp_flip (cmp := cmp) x y). pose proof (cmp_flip (cmp := cmp) y z). pose proof (cmp_flip (cmp := cmp) x z).
  pose proof (cmp_trans (cmp := cmp) z y x ltac:(lia) ltac:(lia)). lia.
Qed.
End Cmp.

#[global] Instance Compare_order : CmpOrder Compare.
Proof.
  split; intros; unfold Compare in *;
    repeat match goal with
           | H : context [?a <? ?b] |- _ => destruct (Z.ltb_spec a b)
           | |- context [?a <? ?b] => destruct (Z.ltb_spec a b)
           end; lia.
Qed.

Lemma Compare_0 x y : Compare x y = 0 <-> x = y.
Proof. unfold Compare. destruct (Z.ltb_spec x y), (Z.ltb_spec y x); lia. Qed.

Lemma Compare_neg x y : Compare x y < 0 <-> x < y.
Proof. unfold Compare. destruct (Z.ltb_spec x y), (Z.ltb_spec y x); lia. Qed.

Lemma Compare_le x y : Compare x y <= 0 <-> x <= y.
Proof. unfold Compare. destruct (Z.ltb_spec x y), (Z.ltb_spec y x); lia. Qed.

(** Comparing a component, the other way round, and one after another. *)
Lemma cmp_on {A B} (f : A -> B) (cmp : B -> B -> Z) :
  CmpOrder cmp -> CmpOrder (fun x y => cmp (f x) (f y)).
Proof. intros H. split; intros; [apply cmp_flip|by eapply cmp_trans]. Qed.

Lemma cmp_reverse {A} (cmp : A -> A -> Z) : CmpOrder cmp -> CmpOrder (fun x y => cmp y x).
Proof. intros H. split; intros; [apply cmp_flip|by eapply cmp_trans]. Qed.

Lemma orElse_flip a b : orElse (- a) (- b) = - orElse a b.
Proof. unfold orElse. destruct (Z.eqb_spec a 0), (Z.eqb_spec (- a) 0); lia. Qed.

Lemma orElse_neg a b : orElse a b < 0 <-> a < 0 \/ a = 0 /\ b < 0.
Proof. unfold orElse. destruct (Z.eqb_spec a 0); lia. Qed.
Lemma orElse_le a b : orElse a b <= 0 <-> a < 0 \/ a = 0 /\ b <= 0.
Proof. unfold orElse. destruct (Z.eqb_spec a 0); lia. Qed.
Lemma orElse_0 a b : orElse a b = 0 <-> a = 0 /\ b = 0.
Proof. unfold orElse. destruct (Z.eqb_spec a 0); lia. Qed.
Lemma orElse_assoc a b c : orElse (orElse a b) c = orElse a (orElse b c).
Proof.
  unfold orElse. destruct (Z.eqb_spec a 0) as [|n]; [done|].
  by destruct (Z.eqb_spec a 0).
Qed.

Lemma cmp_lex {A} (first second : A -> A -> Z) :
  CmpOrder first -> CmpOrder second -> CmpOrder (fun x y => orElse (first x y) (second x y)).
Proof.
  intros H1 H2. split.
  - intros x y. rewrite (cmp_flip (cmp := first) x y), (cmp_flip (cmp := second) x y).
    apply orElse_flip.
  - intros x y z. rewrite !orElse_le. intros [Hxy|[Hxy Hxy']] [Hyz|[Hyz Hyz']].
    + left. apply (cmp_lt_trans first x y z); lia.
    + left. apply (cmp_lt_trans first x y z); lia.
    + left. apply (cmp_lt_trans' first x y z); lia.
    + right. split; [by apply (cmp_eq_trans first x y z)|by apply (cmp_trans x y z)].
Qed.

#[global] Instance compareRoundOne_order : CmpOrder compareRoundOne.
Proof. apply cmp_lex; apply cmp_on, _. Qed.

#[global] Instance compareAutoRoundOne_order : CmpOrder compareAutoRoundOne.
Proof. apply cmp_lex; apply cmp_on, _. Qed.

Lemma compareRoundTwo_lex left right :
  compareRoundTwo left right =
  orElse (Compare (Z.b2z (negb (r2_Busted left))) (Z.b2z (negb (r2_Busted right))))
    (orElse (Compare (r2_TotalHalfPoints left) (r2_TotalHalfPoints right))
       (orElse (Compare (r2_RankStrengthsDesc left).1 (r2_RankStrengthsDesc right).1)
               (Compare (r2_RankStrengthsDesc left).2 (r2_RankStrengthsDesc right).2))).
Proof. unfold compareRoundTwo. by destruct (r2_Busted left), (r2_Busted right). Qed.

Lemma cmp_ext {A} (cmp cmp' : A -> A -> Z) :
  (forall x y, cmp x y = cmp' x y) -> CmpOrder cmp' -> CmpOrder cmp.
Proof. intros E H. split; intros *; rewrite !E; [apply cmp_flip|apply cmp_trans]. Qed.

#[global] Instance compareRoundTwo_order : CmpOrder compareRoundTwo.
Proof.
  eapply cmp_ext; [apply compareRoundTwo_lex|].
  apply cmp_lex; [apply cmp_on, _|]. apply cmp_lex; [apply cmp_on, _|].
  apply cmp_lex; [apply (cmp_on (fun x => (r2_RankStrengthsDesc x).1) Compare _)
                 |apply (cmp_on (fun x => (r2_RankStrengthsDesc x).2) Compare _)].
Qed.

Lemma compareRoundTwoAuto_lex left right :
  compareRoundTwoAuto left right =
  orElse (Compare (Z.b2z (k_Busted left)) (Z.b2z (k_Busted right)))
    (orElse (Compare (k_TotalHalfPoints left) (k_TotalHalfPoints right))
       (orElse (Compare (k_RankAsc left).1 (k_RankAsc right).1)
          (orElse (Compare (k_RankAsc left).2 (k_RankAsc right).2)
             (orElse (Compare (k_Ordinals left).1 (k_Ordinals right).1)
                     (Compare (k_Ordinals left).2 (k_Ordinals right).2))))).
Proof. unfold compareRoundTwoAuto. by destruct (k_Busted left), (k_Busted right). Qed.

#[global] Instance compareRoundTwoAuto_order : CmpOrder compareRoundTwoAuto.
Proof.
  eapply cmp_ext; [apply compareRoundTwoAuto_lex|].
  apply cmp_lex; [apply cmp_on, _|]. apply cmp_lex; [apply cmp_on, _|].
  apply cmp_lex; [apply (cmp_on (fun x => (k_RankAsc x).1) Compare _)|].
  apply cmp_lex; [apply (cmp_on (fun x => (k_RankAsc x).2) Compare _)|].
  apply cmp_lex; [apply (cmp_on (fun x => (k_Ordinals x).1) Compare _)
                 |apply (cmp_on (fun x => (k_Ordinals x).2) Compare _)].
Qed.

Lemma compareOrdinalKey_cons x y left right :
  compareOrdinalKey (x :: left) (y :: right) = orElse (Compare x y) (compareOrdinalKey left right).
Proof.
  unfold compareOrdinalKey. cbn [compareLoop length]. rewrite orElse_assoc. do 2 f_equal.
  unfold Compare.
  destruct (Z.ltb_spec (Z.of_nat (length left)) (Z.of_nat (length right))),
    (Z.ltb_spec (Z.of_nat (S (length left))) (Z.of_nat (S (length right)))),
    (Z.ltb_spec (Z.of_nat (length right)) (Z.of_nat (length left))),
    (Z.ltb_spec (Z.of_nat (S (length right))) (Z.of_nat (S (length left)))); lia.
Qed.

Lemma compareOrdinalKey_nil l :
  compareOrdinalKey [] l = (if l is [] then 0 else -1) /\ compareOrdinalKey l [] = (if l is [] then 0 else 1).
Proof. destruct l; split; done. Qed.

#[global] Instance compareOrdinalKey_order : CmpOrder compareOrdinalKey.
Proof.
  split.
  - intros x. induction x as [|a x IH]; intros [|b y]; try done.
    rewrite !compareOrdinalKey_cons, IH, (cmp_flip (cmp := Compare) a b). apply orElse_flip.
  - intros x. induction x as [|a x IH]; intros [|b y] [|c z]; try done;
      rewrite ?compareOrdinalKey_cons, ?orElse_le.
    intros [Hab|[Hab Hxy]] [Hbc|[Hbc Hyz]].
    + left. apply (cmp_lt_trans Compare a b c); lia.
    + left. apply (cmp_lt_trans Compare a b c); lia.
    + left. apply (cmp_lt_trans' Compare a b c); lia.
    + right. split; [by apply (cmp_eq_trans Compare a b c)|by eapply IH].
Qed.

Lemma compareOrdinalKey_0 l l' : compareOrdinalKey l l' = 0 <-> l = l'.
Proof.
  revert l'. induction l as [|x l IH]; intros [|y l']; try done.
  rewrite compareOrdinalKey_cons, orElse_0, Compare_0, IH. split; [by intros [-> ->]|by intros [= -> ->]].
Qed.

#[global] Instance compareThirdResult_order : CmpOrder compareThirdResult.
Proof.
  apply cmp_lex; [apply cmp_on, _|].
  apply (cmp_on t_CompareValues compareOrdinalKey _).
Qed.

(** ** Loops that keep the best candidate *)
Section Best.
Context {R : Type} (cmp : R -> R -> Z) `{!CmpOrder cmp}.

Definition keepBest (best : option R) (x : R) : option R :=
  match best with
  | None => Some x
  | Some b => Some (if cmp x b <? 0 then x else b)
  end.

Lemma keepBest_from b l :
  exists r, foldl keepBest (Some b) l = Some r /\ r ∈ b :: l /\ forall x, x ∈ b :: l -> cmp r x <= 0.
Proof.
  revert b. induction l as [|x l IH]; intros b; cbn [foldl keepBest].
  - exists b. split_and!; [done|set_solver|]. intros x ->%list_elem_of_singleton. by rewrite cmp_refl.
  - destruct (Z.ltb_spec (cmp x b) 0) as [E|E].
    + destruct (IH x) as (r & Hr & Hin & Hall). exists r. split_and!; [done|set_solver|].
      intros y Hy. apply elem_of_cons in Hy as [->|Hy]; [|by apply Hall].
      apply (cmp_trans r x b); [apply Hall; set_solver|lia].
    + destruct (IH b) as (r & Hr & Hin & Hall). exists r. split_and!; [done|set_solver|].
      intros y Hy. pose proof (cmp_flip x b).
      assert (cmp r b <= 0) by (apply Hall; set_solver).
      apply elem_of_cons in Hy as [->|[->|Hy]%elem_of_cons]; [done| |apply Hall; set_solver].
      apply (cmp_trans r b x); lia.
Qed.

Lemma keepBest_spec l :
  l <> [] -> exists r, foldl keepBest None l = Some r /\ r ∈ l /\ forall x, x ∈ l -> cmp r x <= 0.
Proof. destruct l as [|b l]; [done|]. intros _. apply keepBest_from. Qed.
End Best.

(** A fallible loop whose turns are turns of [keepBest]. *)
Lemma fold_keepBest {E A R} (cmp : R -> R -> Z) (value : A -> R)
    (f : option R -> A -> result E (option R)) l best :
  (forall best x, x ∈ l -> f best x = Ok (keepBest cmp best (value x))) ->
  fold_result f best l = Ok (foldl (keepBest cmp) best (value <$> l)).
Proof.
  revert best. induction l as [|x l IH]; intros best Hf; cbn; [done|].
  rewrite Hf by set_solver. cbn [bind_result]. apply IH. intros b y Hy. apply Hf. set_solver.
Qed.

(** Nested loops are one loop over the pairs they visit. *)
Lemma fold_result_nested {E S A B} (inner : A -> list B) (f : A -> S -> B -> result E S) l s :
  fold_result (fun acc a => fold_result (f a) acc (inner a)) s l =
  fold_result (fun acc '(a, b) => f a acc b) s (l ≫= fun a => pair a <$> inner a).
Proof.
  revert s. induction l as [|a l IH]; intros s; cbn [fold_result]; [done|].
  rewrite bind_cons, fold_result_app. rewrite fold_result_fmap.
  destruct (fold_result (f a) s (inner a)); cbn [bind_result]; [apply IH|done].
Qed.

(** [continue] on a test is a filtered loop. *)
Lemma fold_result_continue {E S A} (skip : A -> bool) (f : S -> A -> result E S) l s :
  fold_result (fun acc a => if skip a then Ok acc else f acc a) s l =
  fold_result f s (List.filter (fun a => negb (skip a)) l).
Proof.
  revert s. induction l as [|a l IH]; intros s; cbn; [done|].
  destruct (skip a); cbn; [apply IH|]. destruct (f s a); cbn; [apply IH|done].
Qed.

(** ** Selection on timeout *)

(** The round-one strength of a card id. *)
Definition strengthOf (id : CardID) : roundOneComparison :=
  mkRoundOne (rankStrength (cardOf id)) (suitStrength (cardOf id)).

Lemma autoComparison_strength id : autoComparison (cardOf id) = strengthOf id.
Proof. unfold autoComparison, strengthOf, suitAscending, suitStrength. by destruct (suit _). Qed.

Lemma at_index_Some {A} (l : list A) i x : l !! i = Some x -> at_index l i = Ok x.
Proof. unfold at_index. by intros ->. Qed.

Lemma cardsFromIDs_total hand i id : hand !! i = Some id -> cardsFromIDs hand !!! i = cardOf id.
Proof. intros Hi. apply list_lookup_total_correct. unfold cardsFromIDs. by rewrite list_lookup_fmap, Hi. Qed.

(** The loop keeps the least [(comparison, index)] pair by its comparison. *)
Lemma autoRoundOne_keepBest cards acc l :
  Some (foldl (autoRoundOneStep cards) acc l) =
  foldl (keepBest (fun x y => compareAutoRoundOne x.1 y.1)) (Some acc)
        ((fun index => (autoComparison (cards !!! index), index)) <$> l).
Proof.
  revert acc. induction l as [|i l IH]; intros [best j]; [done|].
  cbn [foldl fmap list_fmap keepBest autoRoundOneStep fst]. destruct (_ <? 0); apply IH.
Qed.

Lemma autoSelect_one hand :
  hand <> [] -> Forall known hand ->
  exists id, autoSelect hand 1 = Ok [id] /\ id ∈ hand
             /\ forall id', id' ∈ hand -> compareRoundOne (strengthOf id) (strengthOf id') <= 0.
Proof.
  intros Hne Hk. unfold autoSelect. cbn [Z.eqb Pos.eqb].
  destruct (hand !! 0%nat) as [id0|] eqn:H0; [|by destruct hand].
  assert (Hfirst : cardsFromIDs hand !! 0%nat = Some (cardOf id0))
    by (unfold cardsFromIDs; by rewrite list_lookup_fmap, H0).
  rewrite (at_index_Some _ _ _ Hfirst). cbn [bind_result].
  set (cards := cardsFromIDs hand). set (value := fun index => (autoComparison (cards !!! index), index)).
  pose proof (autoRoundOne_keepBest cards (autoComparison (cardOf id0), 0%nat) (seq 1 (length cards - 1))) as Hk'.
  pose proof (cmp_on (fst (A := roundOneComparison) (B := nat)) compareAutoRoundOne _).
  destruct (keepBest_from (fun x y => compareAutoRoundOne x.1 y.1) (autoComparison (cardOf id0), 0%nat)
              (value <$> seq 1 (length cards - 1))) as ([best i] & Hr & Hin & Hall).
  fold value in Hk'. rewrite Hr in Hk'. injection Hk' as ->.
  assert (Hv : (autoComparison (cardOf id0), 0%nat) = value 0%nat).
  { unfold value, cards. by rewrite (cardsFromIDs_total _ _ _ H0). }
  assert (Hlen : length cards = length hand) by (apply length_fmap).
  assert (Hpos : (0 < length hand)%nat) by (destruct hand; [done|cbn; lia]).
  rewrite Hv, <- fmap_cons in Hin, Hall.
  replace (0%nat :: seq 1 (length cards - 1)) with (seq 0 (length hand)) in Hin, Hall
    by (rewrite Hlen; destruct (length hand); [lia|]; cbn; by rewrite Nat.sub_0_r).
  apply list_elem_of_fmap in Hin as (i' & [= -> ->] & [_ Hi]%elem_of_seq).
  destruct (lookup_lt_is_Some_2 hand i' ltac:(lia)) as [id Hid].
  exists id. assert (Hin : id ∈ hand) by (by eapply list_elem_of_lookup_2).
  unfold cards. rewrite (cardsFromIDs_total _ _ _ Hid). split_and!; [|done|].
  - do 2 f_equal. apply known_cardOf. by eapply Forall_forall.
  - intros id' [j Hj]%list_elem_of_lookup. apply lookup_lt_Some in Hj as Hjl.
    assert (Hv' : value j ∈ value <$> seq 0 (length hand)) by (apply list_elem_of_fmap_2, elem_of_seq; lia).
    apply Hall in Hv'. unfold value, cards in Hv'. cbn [fst] in Hv'.
    by rewrite (cardsFromIDs_total _ _ _ Hid), (cardsFromIDs_total _ _ _ Hj), !autoComparison_strength in Hv'.
Qed.

(** The round-two evaluation and selection key of two cards. *)
Definition twoComparison (c d : Card) : roundTwoComparison :=
  let total := u8 (halfPoints c + halfPoints d) in
  mkRoundTwo (21 <? total) total
    (if rankStrength c <? rankStrength d then (rankStrength d, rankStrength c)
     else (rankStrength c, rankStrength d)).

Definition autoKey (c d : Card) : roundTwoAutoKey :=
  mkAutoKey (r2_Busted (twoComparison c d)) (r2_TotalHalfPoints (twoComparison c d))
    (if rankStrength d <? rankStrength c then (rankStrength d, rankStrength c)
     else (rankStrength c, rankStrength d))
    (if Ordinal d <? Ordinal c then (Ordinal d, Ordinal c) else (Ordinal c, Ordinal d)).

Lemma evaluateRoundTwo_two c d : evaluateRoundTwo [c; d] = Ok (twoComparison c d).
Proof. unfold evaluateRoundTwo, twoComparison, at_index. cbn. by destruct (_ <? rankStrength d). Qed.

Lemma buildRoundTwoAutoKey_two c d : buildRoundTwoAutoKey [c; d] = Ok (autoKey c d).
Proof.
  unfold buildRoundTwoAutoKey. rewrite evaluateRoundTwo_two. unfold autoKey, at_index. cbn.
  destruct (rankStrength d <? rankStrength c), (Ordinal d <? Ordinal c); reflexivity.
Qed.

(** The index pairs the nested loops visit. *)
Definition indexPairs (n : nat) : list (nat * nat) :=
  seq 0 n ≫= fun left => pair left <$> seq (left + 1) (n - (left + 1)).

Lemma indexPairs_elem n i j : (i, j) ∈ indexPairs n <-> (i < j < n)%nat.
Proof.
  unfold indexPairs. rewrite list_elem_of_bind. split.
  - intros (l & Hin & Hl). apply list_elem_of_fmap in Hin as (r & [= -> ->] & Hr).
    apply elem_of_seq in Hr, Hl. lia.
  - intros H. exists i. split; [apply list_elem_of_fmap; exists j; split; [done|]|]; apply elem_of_seq; lia.
Qed.

Lemma autoSelect_two hand :
  (2 <= length hand)%nat -> Forall known hand ->
  exists i j a b, (i < j)%nat /\ hand !! i = Some a /\ hand !! j = Some b
    /\ autoSelect hand 2 = Ok (canonicalSelection [a; b])
    /\ forall i' j' a' b', (i' < j')%nat -> hand !! i' = Some a' -> hand !! j' = Some b' ->
         compareRoundTwoAuto (autoKey (cardOf a) (cardOf b)) (autoKey (cardOf a') (cardOf b')) <= 0.
Proof.
  intros Hlen Hk. unfold autoSelect. cbn [Z.eqb Pos.eqb]. set (cards := cardsFromIDs hand).
  assert (Hc : length cards = length hand) by apply length_fmap. rewrite Hc.
  rewrite (fold_result_nested (fun left => seq (left + 1) (length hand - (left + 1)))
             (autoRoundTwoStep cards)).
  fold (indexPairs (length hand)).
  set (value := fun '(i, j) => (canonicalSelection [ID (cards !!! i); ID (cards !!! j)],
                                autoKey (cards !!! i) (cards !!! j))).
  pose proof (cmp_on (snd (A := list CardID) (B := roundTwoAutoKey)) compareRoundTwoAuto _) as Hord.
  rewrite (fold_keepBest (fun x y => compareRoundTwoAuto x.2 y.2) value).
  2: { intros best [i j] _. unfold autoRoundTwoStep. rewrite buildRoundTwoAutoKey_two. cbn [bind_result].
       destruct best as [[ids key]|]; [|done]. cbn [keepBest value fst snd]. by destruct (_ <? 0). }
  destruct (keepBest_spec (fun x y => compareRoundTwoAuto x.2 y.2) (value <$> indexPairs (length hand)))
    as (r & -> & Hin & Hall).
  { assert (H01 : (0, 1)%nat ∈ indexPairs (length hand)) by (apply indexPairs_elem; lia).
    destruct (indexPairs _); [by apply not_elem_of_nil in H01|done]. }
  cbn [bind_result]. apply list_elem_of_fmap in Hin as ([i j] & -> & Hij).
  apply indexPairs_elem in Hij as Hij'.
  destruct (lookup_lt_is_Some_2 hand i ltac:(lia)) as [a Ha], (lookup_lt_is_Some_2 hand j ltac:(lia)) as [b Hb].
  assert (Hval : forall i j a b, hand !! i = Some a -> hand !! j = Some b ->
            value (i, j) = (canonicalSelection [a; b], autoKey (cardOf a) (cardOf b))).
  { intros i0 j0 a0 b0 H1 H2. unfold value, cards.
    rewrite (cardsFromIDs_total _ _ _ H1), (cardsFromIDs_total _ _ _ H2).
    assert (known a0 /\ known b0) as [K1 K2]
      by (split; eapply Forall_forall; try done; by eapply list_elem_of_lookup_2).
    by rewrite (proj2 (known_cardOf _ K1)), (proj2 (known_cardOf _ K2)). }
  exists i, j, a, b. rewrite (Hval _ _ _ _ Ha Hb) in *. split_and!; [lia|done..|].
  intros i' j' a' b' Hlt H1 H2. specialize (Hall (value (i', j'))). rewrite (Hval _ _ _ _ H1 H2) in Hall.
  apply Hall. rewrite <- (Hval _ _ _ _ H1 H2). apply list_elem_of_fmap_2, indexPairs_elem.
  apply lookup_lt_Some in H2. lia.
Qed.

(** ** Selecting and removing cards *)
Lemma canonicalSelection_perm ids : canonicalSelection ids ≡ₚ ids.
Proof. apply sort_by_Permutation. Qed.

Lemma removeFirst_perm target l : target ∈ l -> target :: removeFirst target l ≡ₚ l.
Proof.
  induction l as [|c l IH]; intros Hin; [by apply not_elem_of_nil in Hin|]. cbn.
  destruct (String.eqb c target) eqn:E; [apply String.eqb_eq in E; by subst|].
  apply String.eqb_neq in E. apply elem_of_cons in Hin as [->|Hin]; [done|].
  rewrite Permutation_swap. by rewrite IH.
Qed.

Lemma removeCards_perm values selected :
  NoDup selected -> selected ⊆ values -> selected ++ removeCards values selected ≡ₚ values.
Proof.
  unfold removeCards. cbn [app]. revert values. induction selected as [|x l IH]; intros values Hn Hs; [done|].
  apply NoDup_cons in Hn as [Hx Hn]. cbn [foldl app].
  assert (Hp : x :: removeFirst x values ≡ₚ values) by (apply removeFirst_perm; set_solver).
  rewrite (IH (removeFirst x values) Hn).
  - exact Hp.
  - intros y Hy. assert (y ∈ x :: removeFirst x values) as Hy' by (rewrite Hp; set_solver).
    apply elem_of_cons in Hy' as [->|?]; done.
Qed.
End ThreeHandsFacts.
