(* ===== verification/ThreeThird.v ===== *)
(** * Three rounds: the third-round hand

    The class of a three-card hand against a declarative definition of the six
    classes ([ThreeThird]).  [resolveThirdHand] tries every substitution of the
    jokers of a hand by distinct normal cards outside it and keeps the best
    hand, the least substitution among equals; [ThreeWild] states what a legal
    substitution is and proves that the loops return the best one. *)

From S2P Require Import Prelude ThreeCards ThreeDeck ThreeHands ThreeHandsFacts.

Module ThreeThird.
Import ThreeCards ThreeDeck ThreeHands ThreeHandsFacts.

(** ** Classes of hands *)

(** Three distinct normal cards of the deck. *)
Definition normalHand (cards : list Card) : Prop :=
  length cards = 3%nat /\ NoDup cards /\ forall c, c ∈ cards -> c ∈ normalDeck.

Definition isTrips (r : Z) (cards : list Card) : Prop := Rank <$> cards = [r; r; r].

(** [h] is the highest card of the run; ace, two, three counts as a run to three. *)
Definition isStraight (h : Z) (cards : list Card) : Prop :=
  Rank <$> cards ≡ₚ [h - 2; h - 1; h] \/ h = 3 /\ Rank <$> cards ≡ₚ [2; 3; 14].

Definition isFlush (cards : list Card) : Prop := exists s, forall c, c ∈ cards -> suit c = s.

Definition isPair (p k : Z) (cards : list Card) : Prop := p <> k /\ Rank <$> cards ≡ₚ [p; p; k].

Definition descending (values : list Z) (cards : list Card) : Prop :=
  values ≡ₚ Rank <$> cards /\ StronglySorted Z.ge values.

(** The classes, from the strongest down, with the values compared inside them. *)
Inductive Ranked (cards : list Card) : thirdComparison -> Prop :=
| ranked_trips r : isTrips r cards -> Ranked cards (mkThird HandTrips [r])
| ranked_straight_flush h :
    isStraight h cards -> isFlush cards -> Ranked cards (mkThird HandStraightFlush [h])
| ranked_flush values :
    isFlush cards -> (forall h, ~ isStraight h cards) -> descending values cards ->
    Ranked cards (mkThird HandFlush values)
| ranked_straight h :
    isStraight h cards -> ~ isFlush cards -> Ranked cards (mkThird HandStraight [h])
| ranked_pair p k : isPair p k cards -> Ranked cards (mkThird HandPair [p; k])
| ranked_single values :
    ~ isFlush cards -> (forall h, ~ isStraight h cards) -> NoDup (Rank <$> cards) ->
    descending values cards -> Ranked cards (mkThird HandSingle values).

(** The printed order of the deck: rank by rank, suits ascending. *)
Lemma normal_shape c :
  c ∈ normalDeck ->
  Kind c = cardNormal /\ 2 <= Rank c <= 14 /\ 1 <= suitAscending c <= 4
  /\ Ordinal c = 4 * (Rank c - 2) + suitAscending c - 1.
Proof.
  assert (H : forallb (fun c => bool_decide (Kind c = cardNormal) && (2 <=? Rank c) && (Rank c <=? 14)
                     && (1 <=? suitAscending c) && (suitAscending c <=? 4)
                     && (Ordinal c =? 4 * (Rank c - 2) + suitAscending c - 1)) normalDeck = true)
    by (vm_compute; reflexivity).
  intros Hin. apply list_elem_of_In in Hin. apply (proj1 (forallb_forall _ _) H) in Hin.
  to_prop. split_and!; (done || lia).
Qed.

Lemma suitAscending_inj c d : suitAscending c = suitAscending d <-> suit c = suit d.
Proof. unfold suitAscending. destruct (suit c), (suit d); split; done. Qed.

Lemma sort_by_eq {A} (key : A -> Z) l l' :
  (forall x y, x ∈ l' -> y ∈ l -> key x = key y -> x = y) -> l' ≡ₚ l -> StronglySorted (key_le key) l' ->
  sort_by key l = l'.
Proof.
  intros Hinj Hp Hs. symmetry. apply (StronglySorted_unique_strong (key_le key)).
  - intros x y Hx Hy. rewrite sort_by_Permutation in Hy. unfold key_le. intros. apply Hinj; [done..|lia].
  - done.
  - apply sort_by_sorted.
  - by rewrite sort_by_Permutation.
Qed.

Ltac sorted3 := repeat (constructor; try (unfold key_le; cbn; lia)).

(** Sorted triples with the same elements are equal. *)
Lemma triple_perm a b c x y z :
  a <= b <= c -> x <= y <= z -> [a; b; c] ≡ₚ [x; y; z] <-> a = x /\ b = y /\ c = z.
Proof.
  intros H1 H2. split; [|by intros (-> & -> & ->)]. intros Hp.
  assert ([a; b; c] = [x; y; z]) as [= -> -> ->]; [|done].
  apply (StronglySorted_unique Z.le); [sorted3..|done].
Qed.

(** A hand in deck order. *)
Lemma normalHand_sorted cards :
  normalHand cards ->
  exists c0 c1 c2, sortCardsByOrdinal cards = [c0; c1; c2] /\ [c0; c1; c2] ≡ₚ cards
    /\ Ordinal c0 < Ordinal c1 < Ordinal c2 /\ c0 ∈ normalDeck /\ c1 ∈ normalDeck /\ c2 ∈ normalDeck.
Proof.
  intros (Hl & Hn & Hin). unfold sortCardsByOrdinal.
  pose proof (sort_by_Permutation Ordinal cards) as Hp.
  assert (Hno : NoDup (Ordinal <$> cards)).
  { apply NoDup_fmap_2_strong; [|done]. intros x y Hx Hy. apply deck_ordinal_inj; by apply normal_in_deck, Hin. }
  pose proof (sort_by_strict Ordinal cards Hno) as Hs.
  destruct (sort_by Ordinal cards) as [|c0 [|c1 [|c2 [|]]]];
    try (apply Permutation_length in Hp; rewrite Hl in Hp; done).
  exists c0, c1, c2.
  apply StronglySorted_inv in Hs as [Hs H0]. apply StronglySorted_inv in Hs as [Hs H1].
  rewrite !Forall_cons in H0, H1.
  split_and!; [done|done|lia|lia|..]; apply Hin; rewrite <- Hp; set_solver.
Qed.

Lemma isFlush_triple c0 c1 c2 :
  isFlush [c0; c1; c2] <-> suit c0 = suit c1 /\ suit c1 = suit c2.
Proof.
  split; [intros [s Hs]|intros [H1 H2]; exists (suit c0); intros c Hc].
  - rewrite (Hs c0), (Hs c1), (Hs c2) by set_solver. done.
  - set_unfold in Hc. destruct Hc as [->|[->|[->|[]]]]; congruence.
Qed.

#[global] Instance Ranked_perm : Proper ((≡ₚ) ==> eq ==> iff) Ranked.
Proof.
  assert (Himp : forall cards cards' c, cards ≡ₚ cards' -> Ranked cards c -> Ranked cards' c).
  { intros cards cards' c Hp Hr.
    assert (Hs : forall h, isStraight h cards' <-> isStraight h cards) by (intros h; unfold isStraight; by rewrite Hp).
    assert (Hf : isFlush cards' <-> isFlush cards) by (unfold isFlush; setoid_rewrite Hp; done).
    assert (Hd : forall v, descending v cards -> descending v cards')
      by (intros v; unfold descending; by rewrite Hp).
    destruct Hr.
    - constructor. unfold isTrips in *. symmetry. apply (replicate_Permutation 3 r). cbn. by rewrite <- H, Hp.
    - constructor; [by apply Hs|by apply Hf].
    - constructor; [by apply Hf|intros h; by rewrite Hs|by apply Hd].
    - constructor; [by apply Hs|by rewrite Hf].
    - constructor. unfold isPair in *. by rewrite <- Hp.
    - constructor; [by rewrite Hf|intros h; by rewrite Hs|by rewrite <- Hp|by apply Hd]. }
  intros cards cards' Hp c ? <-. split; by apply Himp.
Qed.

Section Triple.
Context (c0 c1 c2 : Card).
Context (N0 : c0 ∈ normalDeck) (N1 : c1 ∈ normalDeck) (N2 : c2 ∈ normalDeck).
Context (Hord : Ordinal c0 < Ordinal c1 < Ordinal c2).

Lemma triple_ranks : 2 <= Rank c0 /\ Rank c0 <= Rank c1 /\ Rank c1 <= Rank c2 /\ Rank c2 <= 14.
Proof.
  destruct (normal_shape _ N0) as (_ & ? & ? & ?), (normal_shape _ N1) as (_ & ? & ? & ?),
    (normal_shape _ N2) as (_ & ? & ? & ?). lia.
Qed.

(** Cards of one suit have different ranks. *)
Lemma triple_flush_ranks :
  isFlush [c0; c1; c2] -> Rank c0 < Rank c1 /\ Rank c1 < Rank c2.
Proof.
  intros [H1 H2]%isFlush_triple. apply suitAscending_inj in H1, H2.
  destruct (normal_shape _ N0) as (_ & ? & ? & ?), (normal_shape _ N1) as (_ & ? & ? & ?),
    (normal_shape _ N2) as (_ & ? & ? & ?). lia.
Qed.

Lemma triple_flush_bool :
  negb (bool_decide (suit c0 = SuitNone)) && bool_decide (suit c0 = suit c1)
  && bool_decide (suit c1 = suit c2) = true <-> isFlush [c0; c1; c2].
Proof.
  rewrite isFlush_triple, !andb_true_iff, !bool_decide_eq_true.
  split; [tauto|]. intros [H1 H2]. split_and!; [|done..].
  destruct (normal_shape _ N0) as (_ & _ & Hs & _). unfold suitAscending in Hs.
  destruct (suit c0); [cbn in Hs; lia|done..].
Qed.

Lemma triple_straight h :
  isStraight h [c0; c1; c2] <->
  Rank c0 = h - 2 /\ Rank c1 = h - 1 /\ Rank c2 = h \/ h = 3 /\ Rank c0 = 2 /\ Rank c1 = 3 /\ Rank c2 = 14.
Proof.
  pose proof triple_ranks. unfold isStraight. cbn [fmap list_fmap].
  by rewrite !triple_perm by lia.
Qed.

Lemma triple_pair p k :
  isPair p k [c0; c1; c2] <->
  Rank c0 = p /\ Rank c1 = p /\ Rank c2 = k /\ p <> k \/ Rank c0 = k /\ Rank c1 = p /\ Rank c2 = p /\ p <> k.
Proof.
  pose proof triple_ranks. unfold isPair. cbn [fmap list_fmap].
  destruct (Z.le_gt_cases p k).
  - rewrite triple_perm by lia. lia.
  - assert ([p; p; k] ≡ₚ [k; p; p]) as -> by (apply (Permutation_app_comm [p; p] [k])).
    rewrite triple_perm by lia. lia.
Qed.

Lemma triple_descending values :
  descending values [c0; c1; c2] <-> values = [Rank c2; Rank c1; Rank c0].
Proof.
  pose proof triple_ranks. unfold descending. cbn [fmap list_fmap].
  assert (Hp : [Rank c2; Rank c1; Rank c0] ≡ₚ [Rank c0; Rank c1; Rank c2])
    by (apply (Permutation_rev [Rank c2; Rank c1; Rank c0])).
  split.
  - intros [Hv Hs]. apply (StronglySorted_unique_strong Z.ge); [lia|done|sorted3|].
    by rewrite Hp.
  - intros ->. split; [done|sorted3].
Qed.

Lemma straightHigh_triple :
  straightHigh [Rank c0; Rank c1; Rank c2] =
  Ok (if (Rank c0 =? 2) && (Rank c1 =? 3) && (Rank c2 =? 14) then (true, 3)
      else if (Rank c0 + 1 =? Rank c1) && (Rank c1 + 1 =? Rank c2) then (true, Rank c2)
      else (false, 0)).
Proof.
  pose proof triple_ranks. unfold straightHigh.
  rewrite (sort_by_eq id _ [Rank c0; Rank c1; Rank c2]) by (done || sorted3). cbn.
  unfold u8. rewrite !Z.mod_small by lia. by repeat case_match.
Qed.

(** The class as a function of the ascending ranks. *)
Definition classOf (r0 r1 r2 : Z) (flush : bool) : thirdComparison :=
  if (r0 =? r1) && (r1 =? r2) then mkThird HandTrips [r0]
  else if (r0 =? 2) && (r1 =? 3) && (r2 =? 14)
  then mkThird (if flush then HandStraightFlush else HandStraight) [3]
  else if (r0 + 1 =? r1) && (r1 + 1 =? r2)
  then mkThird (if flush then HandStraightFlush else HandStraight) [r2]
  else if flush then mkThird HandFlush [r2; r1; r0]
  else if r0 =? r1 then mkThird HandPair [r0; r2]
  else if r1 =? r2 then mkThird HandPair [r1; r0]
  else mkThird HandSingle [r2; r1; r0].

Lemma classifyThird_triple :
  classifyThird [c0; c1; c2] =
  Ok (classOf (Rank c0) (Rank c1) (Rank c2)
        (negb (bool_decide (suit c0 = SuitNone)) && bool_decide (suit c0 = suit c1)
         && bool_decide (suit c1 = suit c2))).
Proof.
  pose proof triple_ranks as Hr. unfold classifyThird, sortCardsByOrdinal.
  rewrite (sort_by_eq Ordinal _ [c0; c1; c2]); [|..|done|sorted3].
  2: { intros x y Hx Hy. apply deck_ordinal_inj; apply normal_in_deck; set_solver. }
  unfold at_index. cbn [lookup list_lookup bind_result]. rewrite straightHigh_triple. cbn [bind_result].
  rewrite (sort_by_eq Z.opp _ [Rank c2; Rank c1; Rank c0]);
    [|intros; lia|apply (Permutation_rev [Rank c2; Rank c1; Rank c0])|sorted3].
  generalize (negb (bool_decide (suit c0 = SuitNone)) && bool_decide (suit c0 = suit c1)
              && bool_decide (suit c1 = suit c2)) as flush. intros flush. unfold classOf.
  destruct (Z.eqb_spec (Rank c0) (Rank c1)), (Z.eqb_spec (Rank c1) (Rank c2)); cbn [andb orb]; try done;
    destruct (Z.eqb_spec (Rank c0) (Rank c2)); try lia; cbn [orb];
    destruct ((Rank c0 =? 2) && (Rank c1 =? 3) && (Rank c2 =? 14)); [by destruct flush|..]; try by destruct flush.
  all: destruct (Rank c0 + 1 =? Rank c1), (Rank c1 + 1 =? Rank c2); cbn [andb]; by destruct flush.
Qed.

(** Decides the rank tests from the context, pruning the impossible branches. *)
Ltac class_cases :=
  repeat (cbn [andb];
    match goal with
    | |- context [?a =? ?b] => destruct (Z.eqb_spec a b); try (exfalso; lia)
    end); cbn [andb].

(** A hand without a run. *)
Lemma triple_no_straight :
  (forall h, ~ isStraight h [c0; c1; c2]) <->
  ~ (Rank c0 + 1 = Rank c1 /\ Rank c1 + 1 = Rank c2) /\ ~ (Rank c0 = 2 /\ Rank c1 = 3 /\ Rank c2 = 14).
Proof.
  setoid_rewrite triple_straight. split; [|lia].
  intros H. pose proof (H (Rank c2)). pose proof (H 3). lia.
Qed.

Lemma Ranked_classOf c flush :
  (flush = true <-> isFlush [c0; c1; c2]) ->
  Ranked [c0; c1; c2] c -> c = classOf (Rank c0) (Rank c1) (Rank c2) flush.
Proof.
  intros Hf HR. pose proof triple_ranks as Hr. pose proof triple_flush_ranks as Hfr. unfold classOf.
  destruct HR as [r Ht|h Hs Hfl|v Hfl Hs Hd|h Hs Hfl|p k Hp|v Hfl Hs Hn Hd].
  - unfold isTrips in Ht. cbn in Ht. injection Ht as -> -> ->. class_cases; done.
  - rewrite (proj2 Hf Hfl). apply triple_straight in Hs as [Hs|Hs]; specialize (Hfr Hfl);
      class_cases; do 2 f_equal; lia.
  - rewrite (proj2 Hf Hfl). apply triple_no_straight in Hs. apply triple_descending in Hd as ->.
    specialize (Hfr Hfl). class_cases; done.
  - destruct flush; [by destruct Hfl; apply Hf|]. apply triple_straight in Hs as [Hs|Hs];
      class_cases; do 2 f_equal; lia.
  - destruct flush; [specialize (Hfr (proj1 Hf eq_refl)); apply triple_pair in Hp; lia|].
    apply triple_pair in Hp as [Hp|Hp]; class_cases; do 2 f_equal; (lia || f_equal; lia).
  - destruct flush; [by destruct Hfl; apply Hf|]. apply triple_no_straight in Hs.
    apply triple_descending in Hd as ->. cbn in Hn. rewrite !NoDup_cons in Hn.
    destruct Hn as (Hn0 & Hn1 & _).
    assert (Rank c0 <> Rank c1 /\ Rank c1 <> Rank c2)
      by (split; intros E; [apply Hn0|apply Hn1]; rewrite E; constructor).
    class_cases; done.
Qed.

Lemma classOf_Ranked flush :
  (flush = true <-> isFlush [c0; c1; c2]) ->
  Ranked [c0; c1; c2] (classOf (Rank c0) (Rank c1) (Rank c2) flush).
Proof.
  intros Hf. pose proof triple_ranks as Hr. pose proof triple_flush_ranks as Hfr. unfold classOf.
  assert (Hd : descending [Rank c2; Rank c1; Rank c0] [c0; c1; c2]) by (by apply triple_descending).
  assert (Hnf : flush = false -> ~ isFlush [c0; c1; c2]) by (intros -> ?%Hf; done).
  destruct (decide (Rank c0 = Rank c1 /\ Rank c1 = Rank c2)) as [[E1 E2]|Hnt].
  { rewrite E1, E2, Z.eqb_refl. cbn. constructor. unfold isTrips. cbn. by rewrite E1, E2. }
  destruct (decide (Rank c0 = 2 /\ Rank c1 = 3 /\ Rank c2 = 14)) as [Hlow|Hnl].
  { class_cases; destruct flush; constructor;
      first [apply triple_straight; lia|by apply Hf|by apply Hnf]. }
  destruct (decide (Rank c0 + 1 = Rank c1 /\ Rank c1 + 1 = Rank c2)) as [Hrun|Hnr].
  { class_cases; destruct flush; constructor;
      first [apply triple_straight; lia|by apply Hf|by apply Hnf]. }
  assert (Hns : forall h, ~ isStraight h [c0; c1; c2]) by (by apply triple_no_straight).
  destruct flush.
  { class_cases; constructor; (done || by apply Hf). }
  class_cases; constructor; try done; try (apply triple_pair; lia); try (by apply Hnf).
  all: cbn; rewrite !NoDup_cons, !not_elem_of_cons; split_and!; (lia || apply not_elem_of_nil || constructor).
Qed.

End Triple.

(** [classifyThird] computes the class of the declarative ranking. *)
Lemma classifyThird_Ranked cards c :
  normalHand cards -> classifyThird cards = Ok c <-> Ranked cards c.
Proof.
  intros Hh. destruct (normalHand_sorted cards Hh) as (c0 & c1 & c2 & Hs & Hp & Ho & N0 & N1 & N2).
  assert (Hsame : classifyThird cards = classifyThird [c0; c1; c2]).
  { unfold classifyThird. rewrite Hs. unfold sortCardsByOrdinal.
    rewrite (sort_by_eq Ordinal _ [c0; c1; c2]); [done| |done|sorted3].
    intros x y Hx Hy. apply deck_ordinal_inj; apply normal_in_deck; set_solver. }
  rewrite Hsame, <- Hp, classifyThird_triple by done.
  pose proof (triple_flush_bool c0 c1 c2 N0 Ho) as Hf. split.
  - intros H. injection H as H. rewrite <- H. apply classOf_Ranked; assumption.
  - intros HR. f_equal. symmetry. apply Ranked_classOf; assumption.
Qed.

Lemma classifyThird_total cards : normalHand cards -> exists c, classifyThird cards = Ok c /\ Ranked cards c.
Proof.
  intros Hh. destruct (normalHand_sorted cards Hh) as (c0 & c1 & c2 & Hs & Hp & Ho & N0 & N1 & N2).
  pose proof (classOf_Ranked c0 c1 c2 N0 N1 N2 Ho _ (triple_flush_bool c0 c1 c2 N0 Ho)) as HR.
  rewrite Hp in HR. eexists. split; [by apply classifyThird_Ranked|done].
Qed.
End ThreeThird.

Module ThreeWild.
Import ThreeCards ThreeDeck ThreeHands ThreeHandsFacts ThreeThird.

Definition isJoker (card : Card) : bool := negb (bool_decide (Kind card = cardNormal)).
Definition jokersOf (cards : list Card) : list Card := List.filter isJoker cards.
Definition realsOf (cards : list Card) : list Card := List.filter (fun card => negb (isJoker card)) cards.

(** The jokers of a hand, the big one first. *)
Definition jokerOrderOf (cards : list Card) : list Card :=
  [BigJokerID; SmallJokerID] ≫= fun wanted =>
    List.filter (fun joker => String.eqb (ID joker) wanted) (jokersOf cards).

(** Three distinct cards of the deck. *)
Definition thirdHand (cards : list Card) : Prop :=
  length cards = 3%nat /\ NoDup cards /\ forall c, c ∈ cards -> c ∈ deckOrdered.

(** One normal card per joker, distinct and not in the hand. *)
Definition legalSubstitution (cards assigned : list Card) : Prop :=
  length assigned = length (jokersOf cards) /\ NoDup assigned
  /\ forall c, c ∈ assigned -> c ∈ normalDeck /\ c ∉ cards.

Lemma splitJokers_spec cards :
  splitJokers cards = (jokersOf cards, realsOf cards, reverse (Ordinal <$> realsOf cards)).
Proof.
  unfold splitJokers, jokersOf, realsOf. induction cards as [|c cards IH] using rev_ind; [done|].
  rewrite foldl_app, IH, !List.filter_app. cbn [foldl List.filter].
  assert (isJoker c = match Kind c with cardNormal => false | _ => true end) as ->
    by (unfold isJoker; by destruct (Kind c)).
  destruct (Kind c); cbn [negb]; rewrite ?app_nil_r, ?fmap_app, ?reverse_app; done.
Qed.

Lemma elem_of_filter_b {A} (p : A -> bool) l x : x ∈ List.filter p l <-> p x = true /\ x ∈ l.
Proof. rewrite !list_elem_of_In, filter_In. tauto. Qed.

Lemma jokersOf_elem cards c : c ∈ jokersOf cards <-> isJoker c = true /\ c ∈ cards.
Proof. apply elem_of_filter_b. Qed.

Lemma realsOf_elem cards c : c ∈ realsOf cards <-> isJoker c = false /\ c ∈ cards.
Proof. unfold realsOf. rewrite elem_of_filter_b, negb_true_iff. done. Qed.

Lemma split_perm cards : jokersOf cards ++ realsOf cards ≡ₚ cards.
Proof.
  unfold jokersOf, realsOf. induction cards as [|c cards IH]; [done|]. cbn [List.filter].
  destruct (isJoker c); cbn [negb app]; [by rewrite IH|].
  rewrite <- Permutation_middle. by rewrite IH.
Qed.

Lemma normal_of_deck c : c ∈ deckOrdered -> isJoker c = false -> c ∈ normalDeck.
Proof.
  intros Hin Hj. assert (H : forallb (fun c => isJoker c || bool_decide (c ∈ normalDeck)) deckOrdered = true)
    by (vm_compute; reflexivity).
  apply (deck_forall _ H) in Hin. rewrite Hj in Hin. by apply bool_decide_eq_true in Hin.
Qed.

Lemma normal_not_joker c : c ∈ normalDeck -> isJoker c = false.
Proof. intros (Hk & _)%normal_shape. unfold isJoker. by rewrite Hk. Qed.

Lemma joker_ids c : c ∈ deckOrdered -> isJoker c = true -> ID c = BigJokerID \/ ID c = SmallJokerID.
Proof.
  intros Hin Hj.
  assert (H : forallb (fun c => negb (isJoker c) || String.eqb (ID c) BigJokerID || String.eqb (ID c) SmallJokerID)
                deckOrdered = true) by (vm_compute; reflexivity).
  apply (deck_forall _ H) in Hin. rewrite Hj in Hin. cbn in Hin.
  apply orb_true_iff in Hin as [E|E]; apply String.eqb_eq in E; auto.
Qed.

(** The jokers of a hand, reordered. *)
Lemma jokerOrder_perm cards :
  (forall c, c ∈ cards -> c ∈ deckOrdered) -> jokerOrderOf cards ≡ₚ jokersOf cards.
Proof.
  intros Hin. unfold jokerOrderOf. rewrite !bind_cons. change ([] ≫= _) with (@nil Card). rewrite app_nil_r.
  assert (Hj : forall c, c ∈ jokersOf cards -> ID c = BigJokerID \/ ID c = SmallJokerID)
    by (intros c [Hc ?]%jokersOf_elem; by apply joker_ids; [apply Hin|]).
  induction (jokersOf cards) as [|c l IH]; [done|]. cbn [List.filter].
  assert (IHl := IH (fun c Hc => Hj c (list_elem_of_further _ _ _ Hc))).
  destruct (Hj c ltac:(by constructor)) as [E|E]; rewrite E; cbn -[List.filter];
    [by rewrite IHl|by rewrite <- Permutation_middle, IHl].
Qed.

Lemma jokers_at_most_two cards : thirdHand cards -> (length (jokersOf cards) <= 2)%nat.
Proof.
  intros (_ & Hn & Hin).
  assert (Hs : length (jokersOf cards) = length (ID <$> jokersOf cards)) by (by rewrite length_fmap).
  rewrite Hs. change 2%nat with (length [BigJokerID; SmallJokerID]).
  apply submseteq_length, NoDup_submseteq.
  - apply NoDup_fmap_2_strong.
    + intros x y [_ Hx]%jokersOf_elem [_ Hy]%jokersOf_elem E.
      rewrite <- (cardOf_ID x), <- (cardOf_ID y) by (by apply Hin). by rewrite E.
    + rewrite <- (split_perm cards) in Hn. by apply NoDup_app in Hn as (? & _).
  - intros id (c & -> & [Hj Hc]%jokersOf_elem)%list_elem_of_fmap.
    destruct (joker_ids c (Hin c Hc) Hj) as [->| ->]; set_solver.
Qed.

(** A substituted hand is a normal hand. *)
Lemma substituted_hand cards assigned :
  thirdHand cards -> legalSubstitution cards assigned -> normalHand (realsOf cards ++ assigned).
Proof.
  intros (Hl & Hn & Hin) (Hla & Hna & Ha). pose proof (split_perm cards) as Hp. split_and!.
  - rewrite length_app, Hla, <- Hl, <- (Permutation_length Hp), length_app. lia.
  - apply NoDup_app. split_and!; [|  |done].
    + rewrite <- Hp in Hn. by apply NoDup_app in Hn as (_ & _ & ?).
    + intros c [_ Hc]%realsOf_elem Hca. by apply (Ha c Hca).
  - intros c [Hc|Hc]%elem_of_app; [|by apply Ha].
    apply realsOf_elem in Hc as [Hj Hc]. apply normal_of_deck; auto.
Qed.

(** ** The loops *)

(** The substitution record of an assignment, joker by joker. *)
Definition substitutions (jokers assigned : list Card) : list WildcardSubstitution :=
  zip_with (fun joker c => mkSubstitution (ID joker) (ID c) (Ordinal c)) jokers assigned.

(** What the engine records for a hand resolved by [assigned] to class [c]. *)
Definition resolution (cards assigned : list Card) (c : thirdComparison) : thirdResolution :=
  let resolved := toResolvedCardIDs (realsOf cards ++ assigned) in
  mkThirdResolution c resolved (mkWildcard (substitutions (jokerOrderOf cards) assigned) resolved).

(** The order of preference: the better hand, then the lesser substitution. *)
Definition preference (x y : thirdResolution) : Z :=
  orElse (compareThirdResult (t_Comparison y) (t_Comparison x))
         (compareOrdinalKey (substitutionOrdinals (t_WildcardResolution x))
                            (substitutionOrdinals (t_WildcardResolution y))).

#[global] Instance preference_order : CmpOrder preference.
Proof.
  apply cmp_lex.
  - apply (cmp_on t_Comparison (fun x y => compareThirdResult y x)). apply cmp_reverse, _.
  - apply (cmp_on (fun x => substitutionOrdinals (t_WildcardResolution x)) compareOrdinalKey _).
Qed.

Lemma substitutionLoop_spec order assigned index :
  (index + length assigned <= length order)%nat ->
  substitutionLoop index order assigned = Ok (substitutions (drop index order) assigned).
Proof.
  revert index. induction assigned as [|c assigned IH]; intros index Hl; cbn [substitutionLoop].
  - unfold substitutions. by destruct (drop index order).
  - cbn in Hl. destruct (lookup_lt_is_Some_2 order index ltac:(lia)) as [joker Hj].
    rewrite (at_index_Some _ _ _ Hj). cbn [bind_result]. rewrite IH by lia. cbn [bind_result].
    by rewrite (drop_S _ _ _ Hj).
Qed.

Lemma substitutions_ordinals order assigned :
  length assigned = length order ->
  w_CardOrdinal <$> substitutions order assigned = Ordinal <$> assigned.
Proof.
  unfold substitutions. revert order. induction assigned as [|c assigned IH]; intros [|j order] Hl; try done.
  cbn. f_equal. apply IH. cbn in Hl. lia.
Qed.

Lemma toResolved_sorted cards :
  (forall c, c ∈ cards -> c ∈ deckOrdered) ->
  toResolvedCardIDs (sortCardsByOrdinal cards) = toResolvedCardIDs cards.
Proof.
  intros Hin. unfold toResolvedCardIDs, sortCardsByOrdinal. cbn [app]. f_equal.
  apply sort_by_eq; [|done|apply sort_by_sorted].
  intros x y Hx Hy. rewrite sort_by_Permutation in Hx, Hy. apply deck_ordinal_inj; auto.
Qed.

Section Hand.
Context (cards : list Card) (Hhand : thirdHand cards).

(** The value a legal substitution gets: its class and its records. *)
Definition outcome (assigned : list Card) : thirdResolution :=
  match classifyThird (realsOf cards ++ assigned) with
  | Ok c => resolution cards assigned c
  | Err _ => resolution cards assigned (mkThird 0 [])
  end.

Lemma outcome_class assigned :
  legalSubstitution cards assigned ->
  classifyThird (realsOf cards ++ assigned) = Ok (t_Comparison (outcome assigned))
  /\ Ranked (realsOf cards ++ assigned) (t_Comparison (outcome assigned))
  /\ outcome assigned = resolution cards assigned (t_Comparison (outcome assigned)).
Proof.
  intros Ha. destruct (classifyThird_total _ (substituted_hand _ _ Hhand Ha)) as (c & Hc & HR).
  unfold outcome. rewrite Hc. done.
Qed.

Lemma order_length : length (jokerOrderOf cards) = length (jokersOf cards).
Proof. apply Permutation_length, jokerOrder_perm. by destruct Hhand as (_ & _ & ?). Qed.

Lemma outcome_ordinals assigned :
  legalSubstitution cards assigned ->
  substitutionOrdinals (t_WildcardResolution (outcome assigned)) = Ordinal <$> assigned.
Proof.
  intros Ha. destruct (outcome_class assigned Ha) as (_ & _ & ->). apply substitutions_ordinals.
  rewrite order_length. apply Ha.
Qed.

(** One trial keeps the preferred of the two outcomes. *)
Lemma tryAssignment_keepBest best assigned :
  legalSubstitution cards assigned ->
  tryAssignment (realsOf cards) (jokerOrderOf cards) best assigned
  = Ok (keepBest preference best (outcome assigned)).
Proof.
  intros Ha. destruct (outcome_class assigned Ha) as (Hc & _ & Ho).
  pose proof (outcome_ordinals assigned Ha) as Hord.
  destruct (substituted_hand _ _ Hhand Ha) as (_ & _ & Hn).
  unfold tryAssignment, maybeBestThird. rewrite Hc. cbn [bind_result].
  rewrite substitutionLoop_spec, drop_0 by (rewrite order_length; destruct Ha as [-> _]; lia).
  cbn [bind_result app]. rewrite toResolved_sorted by (intros c Hc'; by apply normal_in_deck, Hn).
  assert (Hnext : mkThirdResolution
            (mkThird (t_HandClass (t_Comparison (outcome assigned)))
                     (t_CompareValues (t_Comparison (outcome assigned))))
            (toResolvedCardIDs (realsOf cards ++ assigned))
            (mkWildcard (substitutions (jokerOrderOf cards) assigned)
                        (toResolvedCardIDs (realsOf cards ++ assigned))) = outcome assigned).
  { rewrite Ho. unfold resolution. cbn. by destruct (t_Comparison (outcome assigned)). }
  rewrite Hnext. destruct best as [current|]; [|done]. cbn [keepBest].
  rewrite <- Hord. unfold preference, orElse.
  rewrite (cmp_flip (cmp := compareThirdResult) (t_Comparison (outcome assigned)) (t_Comparison current)).
  set (diff := compareThirdResult _ _).
  destruct (Z.eqb_spec diff 0) as [E|E]; destruct (Z.eqb_spec (- diff) 0) as [E'|E']; try lia;
    cbn [negb bind_result].
  - by destruct (_ <? 0).
  - destruct (Z.ltb_spec 0 diff), (Z.ltb_spec (- diff) 0); (done || lia).
Qed.

Definition usedOrdinals : list Z := reverse (Ordinal <$> realsOf cards).

Lemma used_iff c : c ∈ normalDeck -> Ordinal c ∈ usedOrdinals <-> c ∈ cards.
Proof.
  intros Hc. unfold usedOrdinals. rewrite elem_of_reverse, list_elem_of_fmap. split.
  - intros (d & E & [_ Hd]%realsOf_elem). destruct Hhand as (_ & _ & Hin).
    assert (c = d) as ->; [|done]. apply deck_ordinal_inj; [by apply normal_in_deck|by apply Hin|done].
  - intros Hin. exists c. split; [done|]. apply realsOf_elem. split; [by apply normal_not_joker|done].
Qed.

(** The indexes of the normal cards a loop does not skip. *)
Definition freeIndexes : list nat :=
  List.filter (fun i => negb (bool_decide (Ordinal (normalDeck !!! i) ∈ usedOrdinals)))
              (seq 0 (length normalDeck)).

Lemma normalDeck_index c : c ∈ normalDeck <-> exists i, i ∈ seq 0 (length normalDeck) /\ normalDeck !!! i = c.
Proof.
  rewrite list_elem_of_lookup. split.
  - intros [i Hi]. exists i. split; [apply elem_of_seq; apply lookup_lt_Some in Hi; lia|].
    by apply list_lookup_total_correct.
  - intros (i & [_ Hi]%elem_of_seq & <-). exists i. by apply list_lookup_lookup_total_lt.
Qed.

Lemma freeIndexes_elem i :
  i ∈ freeIndexes <-> (i < length normalDeck)%nat /\ normalDeck !!! i ∉ cards.
Proof.
  unfold freeIndexes. rewrite elem_of_filter_b, elem_of_seq, negb_true_iff, bool_decide_eq_false.
  split; intros [H1 H2].
  - rewrite used_iff in H1; [split; [lia|done]|]. apply normalDeck_index. exists i. split; [apply elem_of_seq; lia|done].
  - rewrite used_iff; [split; [done|lia]|]. apply normalDeck_index. exists i. split; [apply elem_of_seq; lia|done].
Qed.

Lemma normalDeck_NoDup : NoDup normalDeck.
Proof. apply (bool_decide_unpack _). vm_compute. exact I. Qed.

Lemma normalDeck_inj i j :
  (i < length normalDeck)%nat -> (j < length normalDeck)%nat -> normalDeck !!! i = normalDeck !!! j -> i = j.
Proof.
  intros Hi Hj E. apply (NoDup_lookup normalDeck i j (normalDeck !!! i) normalDeck_NoDup);
    [|rewrite E]; by apply list_lookup_lookup_total_lt.
Qed.

Lemma free_card c : c ∈ normalDeck /\ c ∉ cards <-> exists i, i ∈ freeIndexes /\ c = normalDeck !!! i.
Proof.
  split.
  - intros [(i & [_ Hi]%elem_of_seq & <-)%normalDeck_index Hc]. exists i.
    split; [apply freeIndexes_elem; split; [lia|done]|done].
  - intros (i & [Hi Hc]%freeIndexes_elem & ->). split; [|done]. apply normalDeck_index.
    exists i. split; [apply elem_of_seq; lia|done].
Qed.

(** With one joker the loop tries the free cards one by one. *)
Lemma firstLoop_one :
  length (jokersOf cards) = 1%nat ->
  exists l, firstLoop (realsOf cards) (jokerOrderOf cards) usedOrdinals
            = Ok (foldl (keepBest preference) None (outcome <$> l))
            /\ forall a, a ∈ l <-> legalSubstitution cards a.
Proof.
  intros H1. exists ((fun i => [normalDeck !!! i]) <$> freeIndexes).
  assert (Hl : forall a, a ∈ (fun i => [normalDeck !!! i]) <$> freeIndexes <-> legalSubstitution cards a).
  { intros a. rewrite list_elem_of_fmap. unfold legalSubstitution. rewrite H1. split.
    - intros (i & -> & Hi). split_and!; [done|apply NoDup_singleton|].
      intros c ->%list_elem_of_singleton. apply free_card. eauto.
    - intros (Hlen & _ & Ha). destruct a as [|c [|]]; try done.
      destruct (proj1 (free_card c)) as (i & Hi & ->); [apply Ha; by constructor|]. eauto. }
  split; [|done]. unfold firstLoop. rewrite order_length, H1. cbn [Nat.eqb].
  rewrite fold_result_continue. fold freeIndexes.
  rewrite <- list_fmap_compose. apply fold_keepBest.
  intros best i Hi. apply tryAssignment_keepBest, Hl. apply list_elem_of_fmap. eauto.
Qed.

(** With two jokers the nested loops try the ordered pairs of free cards. *)
Definition freePairs : list (nat * nat) :=
  freeIndexes ≫= fun first => pair first <$> List.filter (fun second => negb (second =? first)%nat) freeIndexes.

Lemma freePairs_elem i j : (i, j) ∈ freePairs <-> i ∈ freeIndexes /\ j ∈ freeIndexes /\ i <> j.
Proof.
  unfold freePairs. rewrite list_elem_of_bind. split.
  - intros (i' & (j' & [= -> ->] & Hj)%list_elem_of_fmap & Hi). apply elem_of_filter_b in Hj as [Hne Hj].
    apply negb_true_iff, Nat.eqb_neq in Hne. split_and!; [done..|congruence].
  - intros (Hi & Hj & Hne). exists i. split; [|done]. apply list_elem_of_fmap. exists j. split; [done|].
    apply elem_of_filter_b. split; [|done]. apply negb_true_iff, Nat.eqb_neq. congruence.
Qed.

Lemma secondLoop_free order first best :
  secondLoop (realsOf cards) order usedOrdinals first best =
  fold_result (fun best second =>
                 tryAssignment (realsOf cards) order best [normalDeck !!! first; normalDeck !!! second])
              best (List.filter (fun second => negb (second =? first)%nat) freeIndexes).
Proof.
  unfold secondLoop, freeIndexes. rewrite <- fold_result_continue, <- fold_result_continue.
  apply fold_result_ext. intros acc second _. by destruct (second =? first)%nat, (bool_decide _).
Qed.

Lemma firstLoop_two :
  length (jokersOf cards) = 2%nat ->
  exists l, firstLoop (realsOf cards) (jokerOrderOf cards) usedOrdinals
            = Ok (foldl (keepBest preference) None (outcome <$> l))
            /\ forall a, a ∈ l <-> legalSubstitution cards a.
Proof.
  intros H2. exists ((fun '(i, j) => [normalDeck !!! i; normalDeck !!! j]) <$> freePairs).
  assert (Hl : forall a, a ∈ (fun '(i, j) => [normalDeck !!! i; normalDeck !!! j]) <$> freePairs
                         <-> legalSubstitution cards a).
  { intros a. rewrite list_elem_of_fmap. unfold legalSubstitution. rewrite H2. split.
    - intros ([i j] & -> & (Hi & Hj & Hne)%freePairs_elem). split_and!; [done| |].
      + rewrite !NoDup_cons, not_elem_of_cons. split_and!; try apply not_elem_of_nil; [|constructor].
        intros E. apply Hne. apply freeIndexes_elem in Hi as [Hi _], Hj as [Hj _].
        by apply (normalDeck_inj i j Hi Hj).
      + intros c [->|[->|Hc]%elem_of_cons]%elem_of_cons; [apply free_card; eauto..|by apply not_elem_of_nil in Hc].
    - intros (Hlen & Hn & Ha). destruct a as [|c [|d [|]]]; try done.
      destruct (proj1 (free_card c)) as (i & Hi & ->); [apply Ha; by constructor|].
      destruct (proj1 (free_card d)) as (j & Hj & ->); [apply Ha; by repeat constructor|].
      exists (i, j). split; [done|]. apply freePairs_elem. split_and!; [done..|].
      intros ->. apply NoDup_cons in Hn as [Hn _]. apply Hn. constructor. }
  split; [|done]. unfold firstLoop. rewrite order_length, H2. cbn [Nat.eqb].
  rewrite fold_result_continue. fold freeIndexes.
  erewrite fold_result_ext by (intros best first _; apply secondLoop_free).
  rewrite (fold_result_nested (fun first => List.filter (fun second => negb (second =? first)%nat) freeIndexes)
             (fun first best second => tryAssignment (realsOf cards) (jokerOrderOf cards) best
                                         [normalDeck !!! first; normalDeck !!! second])).
  fold freePairs. rewrite <- list_fmap_compose. apply fold_keepBest.
  intros best [i j] Hi. apply tryAssignment_keepBest, Hl. apply list_elem_of_fmap. exists (i, j). done.
Qed.

(** At most two ordinals are used, so two of the first four cards are free. *)
Lemma two_free : jokersOf cards <> [] -> exists i j, i ∈ freeIndexes /\ j ∈ freeIndexes /\ i <> j.
Proof.
  intros Hj.
  assert (Hlen : (length usedOrdinals <= 2)%nat).
  { destruct Hhand as (Hl & _ & _). unfold usedOrdinals. rewrite length_reverse, length_fmap.
    rewrite <- (Permutation_length (split_perm cards)), length_app in Hl.
    destruct (jokersOf cards); [done|cbn in Hl; lia]. }
  assert (Hfree : forall i, (i < 4)%nat -> Z.of_nat i ∉ usedOrdinals -> i ∈ freeIndexes).
  { intros i Hi Hu. unfold freeIndexes. apply elem_of_filter_b.
    assert (length normalDeck = 52%nat) as -> by (vm_compute; reflexivity).
    split; [|apply elem_of_seq; lia]. apply negb_true_iff, bool_decide_eq_false.
    assert (Ordinal (normalDeck !!! i) = Z.of_nat i) as ->; [|done].
    do 4 (destruct i as [|i]; [vm_compute; reflexivity|]). lia. }
  assert (Hex : exists i j, (i < 4)%nat /\ (j < 4)%nat /\ i <> j
                            /\ Z.of_nat i ∉ usedOrdinals /\ Z.of_nat j ∉ usedOrdinals).
  { set (l := usedOrdinals) in *. clearbody l. clear - Hlen.
    assert (Hu : exists u v, forall z, z ∈ l -> z = u \/ z = v).
    { destruct l as [|u [|v [|]]]; cbn in Hlen; try lia; [exists 0, 0|exists u, u|exists u, v];
        intros z Hz; set_solver. }
    destruct Hu as (u & v & Hu).
    assert (Hno : forall i, Z.of_nat i <> u -> Z.of_nat i <> v -> Z.of_nat i ∉ l)
      by (intros i H1 H2 [?|?]%Hu; congruence).
    destruct (decide (u = 0 \/ v = 0)), (decide (u = 1 \/ v = 1)), (decide (u = 2 \/ v = 2));
      first [exists 0%nat, 1%nat; split_and!; solve [lia|apply Hno; lia]
            |exists 0%nat, 2%nat; split_and!; solve [lia|apply Hno; lia]
            |exists 0%nat, 3%nat; split_and!; solve [lia|apply Hno; lia]
            |exists 1%nat, 2%nat; split_and!; solve [lia|apply Hno; lia]
            |exists 1%nat, 3%nat; split_and!; solve [lia|apply Hno; lia]
            |exists 2%nat, 3%nat; split_and!; solve [lia|apply Hno; lia]]. }
  destruct Hex as (i & j & Hi & Hj' & Hne & Hu & Hv). exists i, j. auto.
Qed.

(** The jokers of a hand are resolved to its best legal substitution. *)
Lemma resolveThirdHand_jokers :
  jokersOf cards <> [] ->
  exists assigned,
    legalSubstitution cards assigned
    /\ resolveThirdHand cards = Ok (outcome assigned)
    /\ forall other, legalSubstitution cards other -> preference (outcome assigned) (outcome other) <= 0.
Proof.
  intros Hj. pose proof (jokers_at_most_two cards Hhand) as H2.
  assert (Hl : exists l, firstLoop (realsOf cards) (jokerOrderOf cards) usedOrdinals
            = Ok (foldl (keepBest preference) None (outcome <$> l))
            /\ forall a, a ∈ l <-> legalSubstitution cards a).
  { destruct (length (jokersOf cards)) as [|[|[|]]] eqn:E; [|by apply firstLoop_one|by apply firstLoop_two|lia].
    by destruct (jokersOf cards). }
  destruct Hl as (l & Hloop & Hl). destruct (two_free Hj) as (i & j & Hi & Hj' & Hne).
  assert (Hnonempty : exists a, a ∈ l).
  { destruct (proj2 (free_card _) (ex_intro _ i (conj Hi eq_refl))) as [Hin Hout].
    destruct (proj2 (free_card _) (ex_intro _ j (conj Hj' eq_refl))) as [Hin' Hout'].
    destruct (length (jokersOf cards)) as [|[|[|]]] eqn:E; [by destruct (jokersOf cards)| | |lia].
    - exists [normalDeck !!! i]. apply Hl. split_and!; [by rewrite E|apply NoDup_singleton|set_solver].
    - exists [normalDeck !!! i; normalDeck !!! j]. apply Hl. split_and!; [by rewrite E| |set_solver].
      apply NoDup_cons. split; [|apply NoDup_singleton]. rewrite list_elem_of_singleton. intros Heq.
      apply freeIndexes_elem in Hi as [Hi _], Hj' as [Hj' _]. by apply Hne, normalDeck_inj. }
  destruct (keepBest_spec preference (outcome <$> l)) as (r & Hr & Hin & Hall).
  { destruct Hnonempty as [a Ha]. destruct l; [by apply not_elem_of_nil in Ha|done]. }
  apply list_elem_of_fmap in Hin as (a & -> & Ha). exists a. split_and!; [by apply Hl| |].
  - unfold resolveThirdHand. rewrite splitJokers_spec. cbn [fst snd].
    destruct (Nat.eqb_spec (length (jokersOf cards)) 0) as [E|_]; [by destruct (jokersOf cards)|].
    destruct (Nat.ltb_spec 2 (length (jokersOf cards))); [lia|].
    fold (jokerOrderOf cards) usedOrdinals. rewrite Hloop. cbn [bind_result]. by rewrite Hr.
  - intros other Ho. apply Hall, list_elem_of_fmap_2. by apply Hl.
Qed.

(** A hand without jokers is classified as it is. *)
Lemma resolveThirdHand_plain :
  jokersOf cards = [] ->
  exists c, Ranked cards c /\ classifyThird cards = Ok c
            /\ resolveThirdHand cards = Ok (mkThirdResolution c (toResolvedCardIDs cards) zeroWildcard).
Proof.
  intros Hj. pose proof (split_perm cards) as Hp. rewrite Hj in Hp. cbn in Hp.
  destruct Hhand as (Hl & Hn & Hin).
  assert (Hreal : realsOf cards = cards).
  { revert Hj. clear. unfold realsOf, jokersOf. induction cards as [|c l IH]; [done|]. cbn.
    destruct (isJoker c); [done|]. intros H. cbn. by rewrite IH. }
  assert (Hnormal : normalHand cards).
  { split_and!; [done..|]. intros c Hc. apply normal_of_deck; [by apply Hin|].
    rewrite <- Hp in Hc. by apply realsOf_elem in Hc as [? _]. }
  destruct (classifyThird_total cards Hnormal) as (c & Hc & HR). exists c. split_and!; [done..|].
  unfold resolveThirdHand. rewrite splitJokers_spec, Hj, Hreal. cbn [length Nat.eqb].
  rewrite Hc. cbn [bind_result]. rewrite toResolved_sorted by auto. by destruct c.
Qed.

Lemma resolveThirdHand_total : exists r, resolveThirdHand cards = Ok r.
Proof.
  destruct (jokersOf cards) as [|joker rest] eqn:E.
  - destruct (resolveThirdHand_plain E) as (c & _ & _ & ->). eauto.
  - destruct resolveThirdHand_jokers as (a & _ & -> & _); [by rewrite E|]. eauto.
Qed.
End Hand.
End ThreeWild.
