(* ===== verification/ThreeRounds.v ===== *)
(** * Three rounds: the authoritative engine

    Model of [games/three-rounds/engine] ([types.go] and the state machine of
    [logic.go]) on top of the deck ([ThreeCards]) and the hand comparisons
    ([ThreeHands]).  Every operation returns the next snapshot and its events or
    a [Failure]; the trailing [return next, events, next.Validate()] of the
    source is the last bind of the function.  [nil] and empty slices are both
    [[]]; phases keep their [uint8] values. *)

From stdpp Require Import gmap.
From S2P Require Import Prelude Roster ThreeCards ThreeHands.

Module ThreeRounds.
Import Roster ThreeCards ThreeHands.

(** ** types.go *)
Definition PhaseDealing : Z := 1.
Definition PhaseRoundOneSelecting : Z := 2.
Definition PhaseRoundOneResult : Z := 3.
Definition PhaseRoundTwoSelecting : Z := 4.
Definition PhaseRoundTwoResult : Z := 5.
Definition PhaseRoundThreeResult : Z := 6.
Definition PhaseFinalResult : Z := 7.
Definition PhaseFinished : Z := 8.

Definition FinishNormalCompleted : string := "normal_completed".
Definition FinishHostRequested : string := "host_requested".
Definition FinishInsufficientParticipants : string := "insufficient_participants".

Record PendingSelection := mkPending {
  ps_Round : Z;
  ps_CardIDs : list CardID;
  ps_AutoSubmitted : bool;
}.
Definition zeroPending : PendingSelection := mkPending 0 [] false.

Record RoundOneEvaluation := mkEvaluation1 {
  e1_CardID : CardID;
  e1_RankStrength : Z;
  e1_SuitStrength : Z;
}.

Record RoundTwoEvaluation := mkEvaluation2 {
  e2_TotalHalfPoints : Z;
  e2_Busted : bool;
  e2_RankStrengthsDesc : Z * Z;
}.

Record RoundThreeEvaluation := mkEvaluation3 {
  e3_HandClass : Z;
  e3_CompareValues : list Z;
  e3_ResolvedCards : list CardID;
}.

Record PlayerReveal := mkReveal {
  rv_UserID : string;
  rv_SeatIndex : Z;
  rv_Active : bool;
  rv_CardIDs : list CardID;
  rv_AutoSubmitted : bool;
  rv_AwardedPoints : Z;
  rv_RoundOneEvaluation : RoundOneEvaluation;
  rv_RoundTwoEvaluation : RoundTwoEvaluation;
  rv_RoundThreeEvaluation : RoundThreeEvaluation;
  rv_WildcardResolution : WildcardResolution;
}.

#[global] Instance PlayerReveal_eta : Eta PlayerReveal := fun r =>
  mkReveal (rv_UserID r) (rv_SeatIndex r) (rv_Active r) (rv_CardIDs r) (rv_AutoSubmitted r)
    (rv_AwardedPoints r) (rv_RoundOneEvaluation r) (rv_RoundTwoEvaluation r)
    (rv_RoundThreeEvaluation r) (rv_WildcardResolution r).

Definition zeroReveal : PlayerReveal :=
  mkReveal "" 0 false [] false 0 (mkEvaluation1 "" 0 0) (mkEvaluation2 0 false (0, 0))
    (mkEvaluation3 0 [] []) zeroWildcard.

Record RoundSummary := mkSummary {
  sm_Round : Z;
  sm_WinnerUserIDs : list string;
  sm_Reveals : list PlayerReveal;
  sm_AllBusted : bool;
}.

#[global] Instance RoundSummary_eta : Eta RoundSummary := fun r =>
  mkSummary (sm_Round r) (sm_WinnerUserIDs r) (sm_Reveals r) (sm_AllBusted r).
Definition zeroSummary : RoundSummary := mkSummary 0 [] [] false.

Record FinalStanding := mkStanding {
  fs_UserID : string;
  fs_SeatIndex : Z;
  fs_Active : bool;
  fs_TotalPoints : Z;
  fs_WonRoundOne : bool;
  fs_WonRoundTwo : bool;
  fs_WonRoundThree : bool;
  fs_Winner : bool;
  fs_Rank : Z;
}.

#[global] Instance FinalStanding_eta : Eta FinalStanding := fun r =>
  mkStanding (fs_UserID r) (fs_SeatIndex r) (fs_Active r) (fs_TotalPoints r) (fs_WonRoundOne r)
    (fs_WonRoundTwo r) (fs_WonRoundThree r) (fs_Winner r) (fs_Rank r).

Record FinalSummary := mkFinal {
  f_Standings : list FinalStanding;
  f_WinnerUserIDs : list string;
}.
Definition zeroFinal : FinalSummary := mkFinal [] [].

Record PlayerState := mkPlayer {
  p_UserID : string;
  p_SeatIndex : Z;
  p_Active : bool;
  p_InitialHand : list CardID;
  p_RemainingHand : list CardID;
  p_PendingSelection : PendingSelection;
  p_RoundOneCards : list CardID;
  p_RoundTwoCards : list CardID;
  p_RoundThreeCards : list CardID;
  p_RoundThreeWildcardResolution : WildcardResolution;
  p_RoundOnePoints : Z;
  p_RoundTwoPoints : Z;
  p_RoundThreePoints : Z;
  p_TotalPoints : Z;
  p_WonRoundOne : bool;
  p_WonRoundTwo : bool;
  p_WonRoundThree : bool;
  p_FinalWinner : bool;
  p_FinalRank : Z;
}.

#[global] Instance PlayerState_eta : Eta PlayerState := fun r =>
  mkPlayer (p_UserID r) (p_SeatIndex r) (p_Active r) (p_InitialHand r) (p_RemainingHand r)
    (p_PendingSelection r) (p_RoundOneCards r) (p_RoundTwoCards r) (p_RoundThreeCards r)
    (p_RoundThreeWildcardResolution r) (p_RoundOnePoints r) (p_RoundTwoPoints r)
    (p_RoundThreePoints r) (p_TotalPoints r) (p_WonRoundOne r) (p_WonRoundTwo r)
    (p_WonRoundThree r) (p_FinalWinner r) (p_FinalRank r).

(** The player value [NewState] builds; every other field is its zero value. *)
Definition newPlayer (userID : string) (seatIndex : Z) (active : bool) (initial : list CardID)
  : PlayerState :=
  mkPlayer userID seatIndex active initial initial zeroPending [] [] [] zeroWildcard 0 0 0 0
    false false false false 0.

#[global] Instance PlayerState_inhabited : Inhabited PlayerState :=
  populate (newPlayer "" 0 false []).
#[global] Instance PlayerState_seated : Seated PlayerState :=
  {| userOf := p_UserID; seatOf := p_SeatIndex; activeOf := p_Active |}.

Record State := mkState {
  SchemaVersion : Z;
  Phase : Z;
  CurrentRound : Z;
  PhaseDeadlineUnixMillis : Z;
  PhaseGeneration : Z;
  config : Config;
  HostUserID : string;
  Players : list PlayerState;
  RoundHistory : list RoundSummary;
  finalSummary : FinalSummary;
  FinishReason : string;
}.

#[global] Instance State_eta : Eta State := fun r =>
  mkState (SchemaVersion r) (Phase r) (CurrentRound r) (PhaseDeadlineUnixMillis r)
    (PhaseGeneration r) (config r) (HostUserID r) (Players r) (RoundHistory r) (finalSummary r)
    (FinishReason r).

Record Timer := mkTimer {
  t_Phase : Z;
  t_Round : Z;
  t_DeadlineUnixMillis : Z;
  t_PhaseGeneration : Z;
}.

Definition EventSessionStarted : string := "session.started".
Definition EventCardsDealt : string := "cards.dealt".
Definition EventPhaseStarted : string := "phase.started".
Definition EventSelectionSubmitted : string := "selection.submitted".
Definition EventSelectionAutoSubmitted : string := "selection.auto_submitted".
Definition EventRoundRevealed : string := "round.revealed".
Definition EventRoundSettled : string := "round.settled".
Definition EventWildcardResolved : string := "wildcard.resolved".
Definition EventParticipantRevoked : string := "participant.revoked".
Definition EventSessionFinished : string := "session.finished".

Record PlayerDeal := mkDeal {
  d_UserID : string;
  d_InitialHand : list CardID;
}.

Record Event := mkEvent {
  ev_Kind : string;
  ev_Config : option Config;
  ev_Participants : list Participant;
  ev_HostUserID : string;
  ev_Deals : list PlayerDeal;
  ev_Phase : Z;
  ev_Round : Z;
  ev_DeadlineUnixMillis : Z;
  ev_PhaseGeneration : Z;
  ev_UserID : string;
  ev_AutoSubmitted : bool;
  ev_Summary : RoundSummary;
  ev_WildcardResolution : WildcardResolution;
  ev_OperatorUserID : string;
  ev_FinishReason : string;
  ev_RemovedPendingSelection : bool;
  ev_ActivePlayerCount : Z;
}.

#[global] Instance Event_eta : Eta Event := fun r =>
  mkEvent (ev_Kind r) (ev_Config r) (ev_Participants r) (ev_HostUserID r) (ev_Deals r) (ev_Phase r)
    (ev_Round r) (ev_DeadlineUnixMillis r) (ev_PhaseGeneration r) (ev_UserID r) (ev_AutoSubmitted r)
    (ev_Summary r) (ev_WildcardResolution r) (ev_OperatorUserID r) (ev_FinishReason r)
    (ev_RemovedPendingSelection r) (ev_ActivePlayerCount r).

Definition zeroEvent : Event :=
  mkEvent "" None [] "" [] 0 0 0 0 "" false zeroSummary zeroWildcard "" "" false 0.

(** ** types.go: deep copies *)
Definition clonePendingSelection (value : PendingSelection) : PendingSelection :=
  mkPending (ps_Round value) ([] ++ ps_CardIDs value) (ps_AutoSubmitted value).

Definition cloneWildcardResolution (value : WildcardResolution) : WildcardResolution :=
  mkWildcard ([] ++ w_Substitutions value) ([] ++ w_ResolvedCards value).

Definition clonePlayer (player : PlayerState) : PlayerState :=
  player <| p_InitialHand := [] ++ p_InitialHand player |>
         <| p_RemainingHand := [] ++ p_RemainingHand player |>
         <| p_PendingSelection := clonePendingSelection (p_PendingSelection player) |>
         <| p_RoundOneCards := [] ++ p_RoundOneCards player |>
         <| p_RoundTwoCards := [] ++ p_RoundTwoCards player |>
         <| p_RoundThreeCards := [] ++ p_RoundThreeCards player |>
         <| p_RoundThreeWildcardResolution :=
              cloneWildcardResolution (p_RoundThreeWildcardResolution player) |>.

Definition clonePlayers (players : list PlayerState) : list PlayerState := clonePlayer <$> players.

Definition clonePlayerReveal (value : PlayerReveal) : PlayerReveal :=
  value <| rv_CardIDs := [] ++ rv_CardIDs value |>
        <| rv_RoundThreeEvaluation :=
             mkEvaluation3 (e3_HandClass (rv_RoundThreeEvaluation value))
               ([] ++ e3_CompareValues (rv_RoundThreeEvaluation value))
               ([] ++ e3_ResolvedCards (rv_RoundThreeEvaluation value)) |>
        <| rv_WildcardResolution := cloneWildcardResolution (rv_WildcardResolution value) |>.

Definition cloneRoundSummary (value : RoundSummary) : RoundSummary :=
  value <| sm_WinnerUserIDs := [] ++ sm_WinnerUserIDs value |>
        <| sm_Reveals := clonePlayerReveal <$> sm_Reveals value |>.

Definition cloneRoundHistory (values : list RoundSummary) : list RoundSummary :=
  cloneRoundSummary <$> values.

Definition cloneFinalSummary (value : FinalSummary) : FinalSummary :=
  mkFinal ([] ++ f_Standings value) ([] ++ f_WinnerUserIDs value).

Definition Clone (state : State) : State :=
  state <| Players := clonePlayers (Players state) |>
        <| RoundHistory := cloneRoundHistory (RoundHistory state) |>
        <| finalSummary := cloneFinalSummary (finalSummary state) |>.

(** The comparison of [sortParticipants]. *)
Definition participant_le (left right : Participant) : Prop :=
  SeatIndex left < SeatIndex right
  \/ SeatIndex left = SeatIndex right /\ String.leb (UserID left) (UserID right) = true.
#[global] Instance participant_le_dec left right : Decision (participant_le left right).
Proof. unfold participant_le. apply _. Defined.

Definition sortParticipants (participants : list Participant) : list Participant :=
  merge_sort participant_le participants.

(** [slices.Sort] on user ids. *)
Definition string_le (left right : string) : Prop := String.leb left right = true.
#[global] Instance string_le_dec left right : Decision (string_le left right).
Proof. unfold string_le. apply _. Defined.
Definition sortStrings (values : list string) : list string := merge_sort string_le values.

(** ** logic.go: helpers *)
Definition validUnixMillis (value : Z) : bool := 0 <? value.

Definition addDeadline (nowUnixMillis seconds : Z) : res Z :=
  if negb (validUnixMillis nowUnixMillis)
  then ruleError CodeInvalidState "deterministic time is required"
  else if seconds =? 0 then Ok 0
  else
    let delta := seconds * 1000 in
    if maxInt64 - delta <? nowUnixMillis
    then ruleError CodeInvalidState "deadline overflows unix milliseconds"
    else Ok (nowUnixMillis + delta).

Definition deadlineForPhase (nowUnixMillis phase : Z) (cfg : Config) : res Z :=
  if phase =? PhaseRoundOneSelecting then addDeadline nowUnixMillis (RoundOneTimeoutSeconds cfg)
  else if phase =? PhaseRoundTwoSelecting then addDeadline nowUnixMillis (RoundTwoTimeoutSeconds cfg)
  else if (phase =? PhaseRoundOneResult) || (phase =? PhaseRoundTwoResult)
          || (phase =? PhaseRoundThreeResult)
  then addDeadline nowUnixMillis (RoundResultSeconds cfg)
  else if phase =? PhaseFinalResult then addDeadline nowUnixMillis (FinalResultSeconds cfg)
  else Ok 0.

Definition phaseRequiresDeadline (phase : Z) : bool :=
  (phase =? PhaseRoundOneSelecting) || (phase =? PhaseRoundTwoSelecting)
  || (phase =? PhaseRoundOneResult) || (phase =? PhaseRoundTwoResult)
  || (phase =? PhaseRoundThreeResult) || (phase =? PhaseFinalResult).

Definition selectionDeadlineEnabled (phase : Z) (cfg : Config) : bool :=
  if phase =? PhaseRoundOneSelecting then negb (RoundOneTimeoutSeconds cfg =? 0)
  else if phase =? PhaseRoundTwoSelecting then negb (RoundTwoTimeoutSeconds cfg =? 0)
  else true.

Definition validFinishReason (value : string) : bool :=
  String.eqb value FinishNormalCompleted || String.eqb value FinishHostRequested
  || String.eqb value FinishInsufficientParticipants.

Definition boolToUint8 (value : bool) : Z := if value then 1 else 0.

(** The loop of [canonicalParticipants]; [users] and [seats] are its maps. *)
Fixpoint checkParticipants (users : list string) (seats : list Z) (participants : list Participant)
  : res unit :=
  match participants with
  | [] => Ok tt
  | participant :: rest =>
      if String.eqb (UserID participant) ""
      then ruleError CodeInvalidParticipants "participant user id is empty"
      else if bool_decide (UserID participant ∈ users)
      then ruleError CodeInvalidParticipants "participant user id repeats"
      else if bool_decide (SeatIndex participant ∈ seats)
      then ruleError CodeInvalidParticipants "participant seat repeats"
      else checkParticipants (UserID participant :: users) (SeatIndex participant :: seats) rest
  end.

Definition canonicalParticipants (participants : list Participant) : res (list Participant) :=
  if (length participants <? MinimumPlayers)%nat || (MaximumPlayers <? length participants)%nat
  then ruleError CodeInvalidParticipants "participant count is outside the supported range"
  else
    let canonical := sortParticipants ([] ++ participants) in
    let* _ := checkParticipants [] [] canonical in
    Ok canonical.

Definition allActivePlayersSubmitted (state : State) : bool :=
  forallb (fun player =>
             negb (p_Active player
                   && negb (ps_Round (p_PendingSelection player) =? CurrentRound state)))
          (Players state).

(** ** logic.go: validation *)

(** The loop over the initial hand in [validatePlayerCards]; [seen] is the map
    shared by all players. *)
Fixpoint checkInitial (seen hand : list CardID) : res (list CardID) :=
  match hand with
  | [] => Ok seen
  | cardID :: rest =>
      if bool_decide (cardID ∈ seen)
      then ruleError CodeInvalidState "initial hands contain duplicate cards"
      else match ParseCardID cardID with
           | None => ruleError CodeInvalidState "state contains an unknown initial card id"
           | Some _ => checkInitial (cardID :: seen) rest
           end
  end.

(** The loop over one allocated set; [currentSeen] is shared by the four sets. *)
Fixpoint checkAllocated (currentSeen set : list CardID) : res (list CardID) :=
  match set with
  | [] => Ok currentSeen
  | cardID :: rest =>
      match ParseCardID cardID with
      | None => ruleError CodeInvalidState "state contains an unknown card id"
      | Some _ =>
          if bool_decide (cardID ∈ currentSeen)
          then ruleError CodeInvalidState "current card allocation contains duplicates"
          else checkAllocated (cardID :: currentSeen) rest
      end
  end.

Fixpoint checkPending (remaining cardIDs : list CardID) : res unit :=
  match cardIDs with
  | [] => Ok tt
  | cardID :: rest =>
      match ParseCardID cardID with
      | None => ruleError CodeInvalidState "pending selection contains an unknown card id"
      | Some _ =>
          if negb (bool_decide (cardID ∈ remaining))
          then ruleError CodeInvalidState "pending selection must remain inside the current hand"
          else checkPending remaining rest
      end
  end.

Definition validatePlayerCards (player : PlayerState) (seen : list CardID) : res (list CardID) :=
  if negb (length (p_InitialHand player) =? 6)%nat
  then ruleError CodeInvalidState "initial hand must contain exactly six cards"
  else
    let* seen := checkInitial seen (p_InitialHand player) in
    let sets := [p_RemainingHand player; p_RoundOneCards player; p_RoundTwoCards player;
                 p_RoundThreeCards player] in
    let* _ := fold_result checkAllocated [] sets in
    let currentTotal := foldl (fun total set => (total + length set)%nat) 0%nat sets in
    let* _ :=
      if negb (ps_Round (p_PendingSelection player) =? 0)
      then checkPending (p_RemainingHand player) (ps_CardIDs (p_PendingSelection player))
      else Ok tt in
    if negb (currentTotal =? 6)%nat
    then ruleError CodeInvalidState "player current card allocation is broken"
    else Ok seen.

(** The accumulators of the player loop of [Validate]. *)
Record seenPlayers := mkSeen {
  v_hostFound : bool;
  v_previous : option PlayerState;
  v_users : list string;
  v_seats : list Z;
  v_cards : list CardID;
}.

Definition validatePlayer (state : State) (seen : seenPlayers) (player : PlayerState)
  : res seenPlayers :=
  if String.eqb (p_UserID player) ""
  then ruleError CodeInvalidState "player identity is empty"
  else
    let hostFound := v_hostFound seen || String.eqb (p_UserID player) (HostUserID state) in
    if match v_previous seen with
       | Some previous => p_SeatIndex player <=? p_SeatIndex previous
       | None => false
       end
    then ruleError CodeInvalidState "players are not in stable seat order"
    else if bool_decide (p_UserID player ∈ v_users seen)
    then ruleError CodeInvalidState "player identity repeats"
    else if bool_decide (p_SeatIndex player ∈ v_seats seen)
    then ruleError CodeInvalidState "seat index repeats"
    else
      let* cards := validatePlayerCards player (v_cards seen) in
      if negb (p_TotalPoints player
               =? u8 (u8 (p_RoundOnePoints player + p_RoundTwoPoints player) + p_RoundThreePoints player))
      then ruleError CodeInvalidState "player total points are stale"
      else
        let* _ :=
          if negb (ps_Round (p_PendingSelection player) =? 0) then
            if negb (Phase state =? PhaseRoundOneSelecting) && negb (Phase state =? PhaseRoundTwoSelecting)
            then ruleError CodeInvalidState "pending selection exists outside a selecting phase"
            else if negb (ps_Round (p_PendingSelection player) =? CurrentRound state)
            then ruleError CodeInvalidState "pending selection targets another round"
            else Ok tt
          else Ok tt in
        Ok (mkSeen hostFound (Some player) (p_UserID player :: v_users seen)
              (p_SeatIndex player :: v_seats seen) cards).

(** The ordering loop over the round history. *)
Fixpoint checkHistory (previousRound : Z) (rounds : list RoundSummary) : res unit :=
  match rounds with
  | [] => Ok tt
  | round :: rest =>
      if (sm_Round round <=? previousRound) || (3 <? sm_Round round)
      then ruleError CodeInvalidState "round history ordering is invalid"
      else checkHistory (sm_Round round) rest
  end.

Definition Validate (state : State) : res unit :=
  if negb (SchemaVersion state =? CurrentSchemaVersion) || (CurrentRound state =? 0)
     || (length (Players state) <? MinimumPlayers)%nat || (MaximumPlayers <? length (Players state))%nat
  then ruleError CodeInvalidState "state header is invalid"
  else
    let* _ := Config_Validate (config state) (length (Players state)) in
    if (Phase state <? PhaseDealing) || (PhaseFinished <? Phase state)
    then ruleError CodeInvalidState "state phase is unknown"
    else
      let* seen :=
        fold_result (validatePlayer state) (mkSeen false None [] [] []) (Players state) in
      if negb (v_hostFound seen)
      then ruleError CodeInvalidState "host identity is absent"
      else if negb (validFinishReason (FinishReason state)) && negb (String.eqb (FinishReason state) "")
      then ruleError CodeInvalidState "finish reason is unknown"
      else
        let* _ :=
          if Phase state =? PhaseFinished then
            if negb (PhaseDeadlineUnixMillis state =? 0)
            then ruleError CodeInvalidState "finished state still owns a deadline"
            else Ok tt
          else if PhaseGeneration state =? 0
          then ruleError CodeInvalidState "live state phase generation is missing"
          else if negb (Phase state =? PhaseDealing) && phaseRequiresDeadline (Phase state)
                  && (PhaseDeadlineUnixMillis state <=? 0)
                  && selectionDeadlineEnabled (Phase state) (config state)
          then ruleError CodeInvalidState "phase deadline is missing"
          else Ok tt in
        if (RoundHistoryLimit <? length (RoundHistory state))%nat
        then ruleError CodeInvalidState "round history exceeds retention"
        else checkHistory 0 (RoundHistory state).

(** [return next, events, next.Validate()]. *)
Definition validated (next : State) (events : list Event) : res (State * list Event) :=
  let* _ := Validate next in Ok (next, events).

Definition phaseStarted (next : State) : Event :=
  zeroEvent <| ev_Kind := EventPhaseStarted |>
            <| ev_Phase := Phase next |>
            <| ev_Round := CurrentRound next |>
            <| ev_DeadlineUnixMillis := PhaseDeadlineUnixMillis next |>
            <| ev_PhaseGeneration := PhaseGeneration next |>.

(** ** logic.go: construction *)
Definition NewState (fuel : nat) (cfg : Config) (participants : list Participant) (hostUserID : string)
    (nowUnixMillis : Z) (seed : list Z) : res (State * list Event) :=
  let* canonical := canonicalParticipants participants in
  let* _ := Config_Validate cfg (length canonical) in
  if negb (validUnixMillis nowUnixMillis)
  then ruleError CodeInvalidState "deterministic time is required"
  else if negb (existsb (fun participant => String.eqb (UserID participant) hostUserID) canonical)
  then ruleError CodeInvalidParticipants "host must exist in the frozen participant set"
  else
    let* deck := ShuffleDeck fuel seed in
    let* '(hands, _) := DealHands canonical deck in
    let handOf := fun participant => [] ++ default [] (hands !! UserID participant) in
    let players :=
      (fun participant =>
         newPlayer (UserID participant) (SeatIndex participant) true (handOf participant)) <$> canonical in
    let deals := (fun participant => mkDeal (UserID participant) (handOf participant)) <$> canonical in
    let state :=
      mkState CurrentSchemaVersion PhaseRoundOneSelecting 1 0 1 cfg hostUserID players [] zeroFinal "" in
    let* deadline := deadlineForPhase nowUnixMillis (Phase state) cfg in
    let state := state <| PhaseDeadlineUnixMillis := deadline |> in
    validated state
      [zeroEvent <| ev_Kind := EventSessionStarted |>
                 <| ev_Config := Some cfg |>
                 <| ev_Participants := [] ++ canonical |>
                 <| ev_HostUserID := hostUserID |>;
       zeroEvent <| ev_Kind := EventCardsDealt |> <| ev_Deals := deals |>;
       zeroEvent <| ev_Kind := EventPhaseStarted |> <| ev_Phase := PhaseDealing |> <| ev_Round := 0 |>;
       phaseStarted state].

Definition CurrentTimer (state : State) : option Timer :=
  if (Phase state =? PhaseFinished) || (Phase state =? PhaseDealing) then None
  else if PhaseDeadlineUnixMillis state =? 0 then None
  else Some (mkTimer (Phase state) (CurrentRound state) (PhaseDeadlineUnixMillis state)
               (PhaseGeneration state)).

(** ** logic.go: final ranking *)
Definition reapplyFinalTotals (players : list PlayerState) : list PlayerState :=
  (fun player =>
     player <| p_TotalPoints :=
       u8 (u8 (p_RoundOnePoints player + p_RoundTwoPoints player) + p_RoundThreePoints player) |>)
  <$> players.

Definition clearFinalDecorations (players : list PlayerState) : list PlayerState :=
  (fun player => player <| p_FinalWinner := false |> <| p_FinalRank := 0 |>) <$> players.

(** One standing of the loop of [recomputeFinalDecorations]. *)
Definition decorate (players : list PlayerState) (standing : FinalStanding) : list PlayerState :=
  match playerIndex players (fs_UserID standing) with
  | None => players
  | Some index =>
      <[index := (players !!! index) <| p_FinalWinner := fs_Winner standing |>
                                     <| p_FinalRank := fs_Rank standing |>]> players
  end.

Definition recomputeFinalDecorations (state : State) : State :=
  state <| Players := foldl decorate (clearFinalDecorations (Players state))
                            (f_Standings (finalSummary state)) |>.

Definition compareStandingKey (left right : FinalStanding) : Z :=
  orElse (Compare (fs_TotalPoints left) (fs_TotalPoints right))
    (orElse (Compare (boolToUint8 (fs_WonRoundThree left)) (boolToUint8 (fs_WonRoundThree right)))
       (orElse (Compare (boolToUint8 (fs_WonRoundTwo left)) (boolToUint8 (fs_WonRoundTwo right)))
               (Compare (boolToUint8 (fs_WonRoundOne left)) (boolToUint8 (fs_WonRoundOne right))))).

(** The comparison function of the [slices.SortFunc] call. *)
Definition compareStanding (left right : FinalStanding) : Z :=
  orElse (Compare (fs_TotalPoints right) (fs_TotalPoints left))
    (orElse (Compare (boolToUint8 (fs_WonRoundThree right)) (boolToUint8 (fs_WonRoundThree left)))
       (orElse (Compare (boolToUint8 (fs_WonRoundTwo right)) (boolToUint8 (fs_WonRoundTwo left)))
          (orElse (Compare (boolToUint8 (fs_WonRoundOne right)) (boolToUint8 (fs_WonRoundOne left)))
                  (Compare (fs_SeatIndex left) (fs_SeatIndex right))))).
Definition standing_le (left right : FinalStanding) : Prop := compareStanding left right <= 0.
#[global] Instance standing_le_dec left right : Decision (standing_le left right).
Proof. unfold standing_le. apply _. Defined.

(** The ranking loop after its first turn: [previous] is [standings[index-1]]. *)
Fixpoint rankLoop (position lastDistinct : Z) (previous : FinalStanding) (standings : list FinalStanding)
  : list FinalStanding :=
  match standings with
  | [] => []
  | standing :: rest =>
      let position := u32 (position + 1) in
      let lastDistinct :=
        if negb (compareStandingKey standing previous =? 0) then position else lastDistinct in
      standing <| fs_Rank := lastDistinct |> :: rankLoop position lastDistinct standing rest
  end.

Definition standingOf (player : PlayerState) : FinalStanding :=
  mkStanding (p_UserID player) (p_SeatIndex player) (p_Active player) (p_TotalPoints player)
    (p_WonRoundOne player) (p_WonRoundTwo player) (p_WonRoundThree player) false 0.

Definition computeFinalSummary (players : list PlayerState) : FinalSummary :=
  let standings := standingOf <$> List.filter p_Active players in
  let standings := merge_sort standing_le standings in
  match standings with
  | [] => zeroFinal
  | winningKey :: rest =>
      let standings := winningKey <| fs_Rank := 1 |> :: rankLoop 1 1 winningKey rest in
      let wins := fun standing => compareStandingKey standing winningKey =? 0 in
      mkFinal ((fun standing => if wins standing then standing <| fs_Winner := true |> else standing)
                 <$> standings)
              (sortStrings (fs_UserID <$> List.filter wins standings))
  end.

Definition canonicalRoundSummary (summary : RoundSummary) : RoundSummary :=
  summary <| sm_WinnerUserIDs := sortStrings ([] ++ sm_WinnerUserIDs summary) |>
          <| sm_Reveals := sort_by rv_SeatIndex (sm_Reveals summary) |>.

(** ** logic.go: finishing *)
Definition finishWithReason (state : State) (reason operatorUserID : string) : State * list Event :=
  let finalSummaryWasPublic := (Phase state =? PhaseFinalResult) || (Phase state =? PhaseFinished) in
  let state := state <| Phase := PhaseFinished |>
                     <| PhaseDeadlineUnixMillis := 0 |>
                     <| PhaseGeneration := u32 (PhaseGeneration state + 1) |>
                     <| FinishReason := reason |> in
  let state :=
    if negb (String.eqb reason FinishNormalCompleted) then
      if finalSummaryWasPublic && negb (length (f_Standings (finalSummary state)) =? 0)%nat then
        state <| finalSummary :=
                   mkFinal ((fun standing => standing <| fs_Winner := false |>)
                              <$> f_Standings (finalSummary state)) [] |>
              <| Players := (fun player => player <| p_FinalWinner := false |>) <$> Players state |>
      else
        state <| finalSummary := zeroFinal |>
              <| Players := clearFinalDecorations (Players state) |>
    else state in
  (state, [zeroEvent <| ev_Kind := EventSessionFinished |>
                     <| ev_FinishReason := reason |>
                     <| ev_OperatorUserID := operatorUserID |>
                     <| ev_Round := CurrentRound state |>]).

Definition finishNormally (state : State) : res (State * list Event) :=
  Ok (finishWithReason (Clone state) FinishNormalCompleted "").

Definition Finish (state : State) (reason operatorUserID : string) : res (State * list Event) :=
  let* _ := Validate state in
  if Phase state =? PhaseFinished
  then ruleError CodeSessionFinished "session is already finished"
  else if Phase state =? PhaseFinalResult
  then ruleError CodeWrongPhase "host finish is closed during final result"
  else
    let reason := if String.eqb reason "" then FinishHostRequested else reason in
    if negb (String.eqb reason FinishHostRequested) || String.eqb operatorUserID ""
    then ruleError CodeInvalidAction "session.finish must carry the verified host operator"
    else Ok (finishWithReason (Clone state) reason operatorUserID).

(** ** logic.go: settling a round *)

(** The [best]/[hasBest] and winner update shared by the three settlement
    loops. *)
Definition contend {C : Type} (compare : C -> C -> Z) (best : option C) (winners : list string)
    (userID : string) (comparison : C) : option C * list string :=
  match best with
  | None => (Some comparison, [userID])
  | Some b =>
      if 0 <? compare comparison b then (Some comparison, [userID])
      else if compare comparison b =? 0 then (best, winners ++ [userID])
      else (best, winners)
  end.

(** The award loop over the reveals, shared by the three settlements: [award]
    is the update of the winner's player. *)
Fixpoint awardLoop (award : PlayerState -> PlayerState) (winners : list string)
    (reveals : list PlayerReveal) (players : list PlayerState)
  : res (list PlayerState * list PlayerReveal) :=
  match reveals with
  | [] => Ok (players, [])
  | reveal :: rest =>
      if bool_decide (rv_UserID reveal ∈ winners) then
        match playerIndex players (rv_UserID reveal) with
        | None => Err Panic
        | Some index =>
            let* '(players, rest) :=
              awardLoop award winners rest (<[index := award (players !!! index)]> players) in
            Ok (players, reveal <| rv_AwardedPoints := 1 |> :: rest)
        end
      else
        let* '(players, rest) := awardLoop award winners rest players in
        Ok (players, reveal :: rest)
  end.

Definition awardRoundOne (player : PlayerState) : PlayerState :=
  player <| p_RoundOnePoints := u8 (p_RoundOnePoints player + 1) |>
         <| p_TotalPoints := u8 (p_TotalPoints player + 1) |>
         <| p_WonRoundOne := true |>.
Definition awardRoundTwo (player : PlayerState) : PlayerState :=
  player <| p_RoundTwoPoints := u8 (p_RoundTwoPoints player + 1) |>
         <| p_TotalPoints := u8 (p_TotalPoints player + 1) |>
         <| p_WonRoundTwo := true |>.
Definition awardRoundThree (player : PlayerState) : PlayerState :=
  player <| p_RoundThreePoints := u8 (p_RoundThreePoints player + 1) |>
         <| p_TotalPoints := u8 (p_TotalPoints player + 1) |>
         <| p_WonRoundThree := true |>.

(** The player loop of [settleRoundOne]: the players it writes, the winners and
    the reveals it collects. *)
Fixpoint roundOneLoop (players : list PlayerState) (best : option roundOneComparison)
    (winners : list string) : res (list PlayerState * list string * list PlayerReveal) :=
  match players with
  | [] => Ok ([], winners, [])
  | player :: rest =>
      if negb (p_Active player) || negb (ps_Round (p_PendingSelection player) =? 1) then
        let* '(players, winners, reveals) := roundOneLoop rest best winners in
        Ok (player <| p_PendingSelection := zeroPending |> :: players, winners, reveals)
      else
        let selected := [] ++ ps_CardIDs (p_PendingSelection player) in
        let* cardID := at_index selected 0 in
        let card := cardOf cardID in
        let comparison := mkRoundOne (rankStrength card) (suitStrength card) in
        let reveal :=
          zeroReveal <| rv_UserID := p_UserID player |>
                     <| rv_SeatIndex := p_SeatIndex player |>
                     <| rv_Active := true |>
                     <| rv_CardIDs := selected |>
                     <| rv_AutoSubmitted := ps_AutoSubmitted (p_PendingSelection player) |>
                     <| rv_RoundOneEvaluation :=
                          mkEvaluation1 cardID (r1_RankStrength comparison) (r1_SuitStrength comparison) |> in
        let '(best, winners) := contend compareRoundOne best winners (p_UserID player) comparison in
        let* '(players, winners, reveals) := roundOneLoop rest best winners in
        Ok (player <| p_RoundOneCards := selected |>
                   <| p_RemainingHand := removeCards (p_RemainingHand player) selected |>
                   <| p_PendingSelection := zeroPending |> :: players,
            winners, reveal :: reveals)
  end.

Definition settleRoundOne (state : State) (nowUnixMillis : Z) : res (State * list Event) :=
  let next := Clone state in
  let* '(players, winners, reveals) := roundOneLoop (Players next) None [] in
  let* '(players, reveals) := awardLoop awardRoundOne winners reveals players in
  let players := reapplyFinalTotals players in
  let summary := canonicalRoundSummary (mkSummary 1 winners reveals false) in
  let next := next <| Players := players |>
                   <| RoundHistory := RoundHistory next ++ [summary] |>
                   <| Phase := PhaseRoundOneResult |>
                   <| PhaseGeneration := u32 (PhaseGeneration next + 1) |> in
  let* deadline := deadlineForPhase nowUnixMillis (Phase next) (config next) in
  let next := next <| PhaseDeadlineUnixMillis := deadline |> in
  validated next
    [zeroEvent <| ev_Kind := EventRoundRevealed |> <| ev_Summary := summary |> <| ev_Round := 1 |>;
     zeroEvent <| ev_Kind := EventRoundSettled |> <| ev_Summary := summary |> <| ev_Round := 1 |>;
     phaseStarted next].

(** The player loop of [settleRoundTwo], with [allBusted]. *)
Fixpoint roundTwoLoop (players : list PlayerState) (best : option roundTwoComparison)
    (winners : list string) (allBusted : bool)
  : res (list PlayerState * list string * list PlayerReveal * bool) :=
  match players with
  | [] => Ok ([], winners, [], allBusted)
  | player :: rest =>
      if negb (p_Active player) || negb (ps_Round (p_PendingSelection player) =? 2) then
        let* '(players, winners, reveals, allBusted) := roundTwoLoop rest best winners allBusted in
        Ok (player <| p_PendingSelection := zeroPending |> :: players, winners, reveals, allBusted)
      else
        let selected := [] ++ ps_CardIDs (p_PendingSelection player) in
        let* evaluation := evaluateRoundTwo (cardsFromIDs selected) in
        let reveal :=
          zeroReveal <| rv_UserID := p_UserID player |>
                     <| rv_SeatIndex := p_SeatIndex player |>
                     <| rv_Active := true |>
                     <| rv_CardIDs := selected |>
                     <| rv_AutoSubmitted := ps_AutoSubmitted (p_PendingSelection player) |>
                     <| rv_RoundTwoEvaluation :=
                          mkEvaluation2 (r2_TotalHalfPoints evaluation) (r2_Busted evaluation)
                            (r2_RankStrengthsDesc evaluation) |> in
        let '(best, winners, allBusted) :=
          if r2_Busted evaluation then (best, winners, allBusted)
          else (contend compareRoundTwo best winners (p_UserID player) evaluation, false) in
        let* '(players, winners, reveals, allBusted) := roundTwoLoop rest best winners allBusted in
        Ok (player <| p_RoundTwoCards := selected |>
                   <| p_RemainingHand := removeCards (p_RemainingHand player) selected |>
                   <| p_PendingSelection := zeroPending |> :: players,
            winners, reveal :: reveals, allBusted)
  end.

Definition settleRoundTwo (state : State) (nowUnixMillis : Z) : res (State * list Event) :=
  let next := Clone state in
  let* '(players, winners, reveals, allBusted) := roundTwoLoop (Players next) None [] true in
  let* '(players, reveals) := awardLoop awardRoundTwo winners reveals players in
  let players := reapplyFinalTotals players in
  let summary := canonicalRoundSummary (mkSummary 2 winners reveals allBusted) in
  let next := next <| Players := players |>
                   <| RoundHistory := RoundHistory next ++ [summary] |>
                   <| Phase := PhaseRoundTwoResult |>
                   <| PhaseGeneration := u32 (PhaseGeneration next + 1) |> in
  let* deadline := deadlineForPhase nowUnixMillis (Phase next) (config next) in
  let next := next <| PhaseDeadlineUnixMillis := deadline |> in
  validated next
    [zeroEvent <| ev_Kind := EventRoundRevealed |> <| ev_Summary := summary |> <| ev_Round := 2 |>;
     zeroEvent <| ev_Kind := EventRoundSettled |> <| ev_Summary := summary |> <| ev_Round := 2 |>;
     phaseStarted next].

Definition settleCurrentSelection (state : State) (nowUnixMillis : Z) : res (State * list Event) :=
  if Phase state =? PhaseRoundOneSelecting then settleRoundOne state nowUnixMillis
  else if Phase state =? PhaseRoundTwoSelecting then settleRoundTwo state nowUnixMillis
  else ruleError CodeWrongPhase "phase is not waiting for selections".

(** The player loop of [resolveRoundThree]; the wildcard events come back in
    seat order. *)
Fixpoint roundThreeLoop (players : list PlayerState) (best : option thirdComparison)
    (winners : list string)
  : res (list PlayerState * list string * list PlayerReveal * list Event) :=
  match players with
  | [] => Ok ([], winners, [], [])
  | player :: rest =>
      if negb (p_Active player) then
        let* '(players, winners, reveals, events) := roundThreeLoop rest best winners in
        Ok (player :: players, winners, reveals, events)
      else
        let cards := cardsFromIDs (p_RemainingHand player) in
        let* resolved := resolveThirdHand cards in
        let roundThreeCards := [] ++ p_RemainingHand player in
        let reveal :=
          zeroReveal <| rv_UserID := p_UserID player |>
                     <| rv_SeatIndex := p_SeatIndex player |>
                     <| rv_Active := true |>
                     <| rv_CardIDs := [] ++ roundThreeCards |>
                     <| rv_AwardedPoints := 0 |>
                     <| rv_RoundThreeEvaluation :=
                          mkEvaluation3 (t_HandClass (t_Comparison resolved))
                            ([] ++ t_CompareValues (t_Comparison resolved))
                            ([] ++ t_ResolvedCards resolved) |>
                     <| rv_WildcardResolution :=
                          cloneWildcardResolution (t_WildcardResolution resolved) |> in
        let wildcardEvents :=
          if negb (length (w_Substitutions (t_WildcardResolution resolved)) =? 0)%nat
          then [zeroEvent <| ev_Kind := EventWildcardResolved |>
                          <| ev_UserID := p_UserID player |>
                          <| ev_Round := 3 |>
                          <| ev_WildcardResolution :=
                               cloneWildcardResolution (t_WildcardResolution resolved) |>]
          else [] in
        let '(best, winners) :=
          contend compareThirdResult best winners (p_UserID player) (t_Comparison resolved) in
        let* '(players, winners, reveals, events) := roundThreeLoop rest best winners in
        Ok (player <| p_RoundThreeCards := roundThreeCards |>
                   <| p_RemainingHand := [] |>
                   <| p_RoundThreeWildcardResolution :=
                        cloneWildcardResolution (t_WildcardResolution resolved) |> :: players,
            winners, reveal :: reveals, wildcardEvents ++ events)
  end.

Definition resolveRoundThree (state : State) (nowUnixMillis : Z) : res (State * list Event) :=
  if negb (Phase state =? PhaseRoundTwoResult)
  then ruleError CodeWrongPhase "round three can only start after round two result"
  else
    let next := Clone state in
    let* '(players, winners, reveals, events) := roundThreeLoop (Players next) None [] in
    let* '(players, reveals) := awardLoop awardRoundThree winners reveals players in
    let players := reapplyFinalTotals players in
    let summary := canonicalRoundSummary (mkSummary 3 winners reveals false) in
    let next := next <| RoundHistory := RoundHistory next ++ [summary] |>
                     <| finalSummary := zeroFinal |>
                     <| Players := clearFinalDecorations players |>
                     <| Phase := PhaseRoundThreeResult |>
                     <| CurrentRound := 3 |>
                     <| PhaseGeneration := u32 (PhaseGeneration next + 1) |> in
    let* deadline := deadlineForPhase nowUnixMillis (Phase next) (config next) in
    let next := next <| PhaseDeadlineUnixMillis := deadline |> in
    validated next
      (events ++
       [zeroEvent <| ev_Kind := EventRoundRevealed |> <| ev_Summary := summary |> <| ev_Round := 3 |>;
        zeroEvent <| ev_Kind := EventRoundSettled |> <| ev_Summary := summary |> <| ev_Round := 3 |>;
        phaseStarted next]).

Definition advancePhaseAfterRoundOneResult (state : State) (nowUnixMillis : Z)
  : res (State * list Event) :=
  let next := Clone state in
  let next := next <| Phase := PhaseRoundTwoSelecting |>
                   <| CurrentRound := 2 |>
                   <| PhaseGeneration := u32 (PhaseGeneration next + 1) |> in
  let* deadline := deadlineForPhase nowUnixMillis (Phase next) (config next) in
  let next := next <| PhaseDeadlineUnixMillis := deadline |> in
  validated next [phaseStarted next].

Definition enterFinalResult (state : State) (nowUnixMillis : Z) : res (State * list Event) :=
  if negb (Phase state =? PhaseRoundThreeResult)
  then ruleError CodeWrongPhase "final result can only start after round three result"
  else
    let next := Clone state in
    let next := next <| Phase := PhaseFinalResult |>
                     <| PhaseGeneration := u32 (PhaseGeneration next + 1) |>
                     <| finalSummary := computeFinalSummary (Players next) |> in
    let* deadline := deadlineForPhase nowUnixMillis (Phase next) (config next) in
    let next := next <| PhaseDeadlineUnixMillis := deadline |> in
    let next := recomputeFinalDecorations next in
    validated next [phaseStarted next].

(** ** logic.go: commands *)

(** The card loop of [validateSelectableAction]. *)
Fixpoint checkSelection (remaining seen cardIDs : list CardID) : res unit :=
  match cardIDs with
  | [] => Ok tt
  | cardID :: rest =>
      match ParseCardID cardID with
      | None => ruleError CodeCardInvalid "selection contains an unknown card id"
      | Some _ =>
          if bool_decide (cardID ∈ seen)
          then ruleError CodeCardInvalid "selection contains duplicate card ids"
          else if negb (bool_decide (cardID ∈ remaining))
          then ruleError CodeCardInvalid "selection contains a card outside the actor hand"
          else checkSelection remaining (cardID :: seen) rest
      end
  end.

Definition validateSelectableAction (state : State) (actor : string) (round : Z)
    (cardIDs : list CardID) (nowUnixMillis : Z) : res unit :=
  let* _ := Validate state in
  if Phase state =? PhaseFinished
  then ruleError CodeSessionFinished "session is already finished"
  else if negb (Phase state =? PhaseRoundOneSelecting) && negb (Phase state =? PhaseRoundTwoSelecting)
  then ruleError CodeWrongPhase "phase does not accept round.submit_selection"
  else if negb (validUnixMillis nowUnixMillis)
  then ruleError CodeInvalidAction "deterministic action time is invalid"
  else if negb (PhaseDeadlineUnixMillis state =? 0) && (PhaseDeadlineUnixMillis state <=? nowUnixMillis)
  then ruleError CodeActionExpired "selection deadline has passed"
  else if negb (round =? CurrentRound state)
  then ruleError CodeRoundMismatch "selection targets another round"
  else
    match playerIndex (Players state) actor with
    | None => ruleError CodeParticipantInactive "actor is not an active participant"
    | Some index =>
        let player := Players state !!! index in
        if negb (p_Active player)
        then ruleError CodeParticipantInactive "actor is not an active participant"
        else if ps_Round (p_PendingSelection player) =? round
        then ruleError CodeSelectionExists "selection is already recorded"
        else
          let expectedCount := if round =? 2 then 2%nat else 1%nat in
          if negb (length cardIDs =? expectedCount)%nat
          then ruleError CodeCardCountInvalid "selection card count does not match the current round"
          else checkSelection (p_RemainingHand player) [] cardIDs
    end.

Definition SubmitSelection (state : State) (actor : string) (round : Z) (cardIDs : list CardID)
    (auto : bool) (nowUnixMillis : Z) : res (State * list Event) :=
  let* _ := validateSelectableAction state actor round cardIDs nowUnixMillis in
  let next := Clone state in
  match playerIndex (Players next) actor with
  | None => Err Panic
  | Some index =>
      let player := Players next !!! index in
      let pending := mkPending round (canonicalSelection cardIDs) auto in
      let next := next <| Players :=
                          <[index := player <| p_PendingSelection := pending |>]> (Players next) |> in
      let eventKind := if auto then EventSelectionAutoSubmitted else EventSelectionSubmitted in
      let events := [zeroEvent <| ev_Kind := eventKind |>
                               <| ev_UserID := actor |>
                               <| ev_Round := round |>
                               <| ev_AutoSubmitted := auto |>] in
      if allActivePlayersSubmitted next then
        let* '(settled, settleEvents) := settleCurrentSelection next nowUnixMillis in
        Ok (settled, events ++ settleEvents)
      else validated next events
  end.

(** The auto-submission loop of [HandleTimeout]. *)
Fixpoint autoSubmitLoop (round : Z) (players : list PlayerState) : res (list PlayerState * list Event) :=
  match players with
  | [] => Ok ([], [])
  | player :: rest =>
      if negb (p_Active player) || (ps_Round (p_PendingSelection player) =? round) then
        let* '(players, events) := autoSubmitLoop round rest in
        Ok (player :: players, events)
      else
        let* cardIDs := autoSelect (p_RemainingHand player) round in
        let* '(players, events) := autoSubmitLoop round rest in
        Ok (player <| p_PendingSelection := mkPending round cardIDs true |> :: players,
            zeroEvent <| ev_Kind := EventSelectionAutoSubmitted |>
                      <| ev_UserID := p_UserID player |>
                      <| ev_Round := round |>
                      <| ev_AutoSubmitted := true |> :: events)
  end.

Definition HandleTimeout (state : State) (timer : Timer) (nowUnixMillis : Z)
  : res (State * list Event) :=
  let* _ := Validate state in
  if Phase state =? PhaseFinished
  then ruleError CodeSessionFinished "session no longer accepts timers"
  else if negb (t_Phase timer =? Phase state) || negb (t_Round timer =? CurrentRound state)
          || negb (t_PhaseGeneration timer =? PhaseGeneration state)
          || negb (t_DeadlineUnixMillis timer =? PhaseDeadlineUnixMillis state)
  then ruleError CodeTimerMismatch "timer does not match the current phase generation"
  else if negb (validUnixMillis nowUnixMillis) || (t_DeadlineUnixMillis timer =? 0)
          || (nowUnixMillis <? t_DeadlineUnixMillis timer)
  then ruleError CodeTimerNotDue "timer fired before its deadline"
  else if (Phase state =? PhaseRoundOneSelecting) || (Phase state =? PhaseRoundTwoSelecting) then
    let next := Clone state in
    let* '(players, events) := autoSubmitLoop (CurrentRound state) (Players next) in
    let next := next <| Players := players |> in
    let* '(settled, settleEvents) := settleCurrentSelection next nowUnixMillis in
    Ok (settled, events ++ settleEvents)
  else if Phase state =? PhaseRoundOneResult then advancePhaseAfterRoundOneResult state nowUnixMillis
  else if Phase state =? PhaseRoundTwoResult then resolveRoundThree state nowUnixMillis
  else if Phase state =? PhaseRoundThreeResult then enterFinalResult state nowUnixMillis
  else if Phase state =? PhaseFinalResult then finishNormally state
  else ruleError CodeWrongPhase "phase does not own a runtime timer".

Definition RevokeParticipant (state : State) (userID : string) (nowUnixMillis : Z)
  : res (State * list Event) :=
  let* _ := Validate state in
  if Phase state =? PhaseFinished
  then ruleError CodeSessionFinished "session is already finished"
  else
    match playerIndex (Players state) userID with
    | None => ruleError CodeParticipantInactive "participant is absent or already inactive"
    | Some index =>
        if negb (p_Active (Players state !!! index))
        then ruleError CodeParticipantInactive "participant is absent or already inactive"
        else
          let next := Clone state in
          let player := Players next !!! index in
          let removedPending := ps_Round (p_PendingSelection player) =? CurrentRound next in
          let next := next <| Players :=
                              <[index := player <| p_Active := false |>
                                                <| p_PendingSelection := zeroPending |>]>
                                (Players next) |> in
          let next := recomputeFinalDecorations next in
          let activePlayers := u32 (Z.of_nat (activeCount (Players next))) in
          let events := [zeroEvent <| ev_Kind := EventParticipantRevoked |>
                                   <| ev_UserID := userID |>
                                   <| ev_Round := CurrentRound next |>
                                   <| ev_Phase := Phase next |>
                                   <| ev_RemovedPendingSelection := removedPending |>
                                   <| ev_ActivePlayerCount := activePlayers |>] in
          if activePlayers <? Z.of_nat MinimumPlayers then
            let '(finished, finishEvents) := finishWithReason next FinishInsufficientParticipants "" in
            Ok (finished, events ++ finishEvents)
          else if ((Phase next =? PhaseRoundOneSelecting) || (Phase next =? PhaseRoundTwoSelecting))
                  && allActivePlayersSubmitted next then
            let* '(settled, settleEvents) := settleCurrentSelection next nowUnixMillis in
            Ok (settled, events ++ settleEvents)
          else
            let next :=
              if (Phase next =? PhaseFinalResult) || (Phase next =? PhaseRoundThreeResult)
              then recomputeFinalDecorations next else next in
            validated next events
    end.

(** ** The inputs of the engine *)
Inductive Input :=
| InSubmit (actor : string) (round : Z) (cardIDs : list CardID) (auto : bool) (nowUnixMillis : Z)
| InTimeout (timer : Timer) (nowUnixMillis : Z)
| InRevoke (userID : string) (nowUnixMillis : Z)
| InFinish (reason operatorUserID : string).

Definition step (state : State) (input : Input) : res (State * list Event) :=
  match input with
  | InSubmit actor round cardIDs auto now => SubmitSelection state actor round cardIDs auto now
  | InTimeout timer now => HandleTimeout state timer now
  | InRevoke userID now => RevokeParticipant state userID now
  | InFinish reason operatorUserID => Finish state reason operatorUserID
  end.

(** ** module/codec.go *)

(** [EncodeState] refuses a state that does not validate; the payload it
    marshals is represented by the state itself. *)
Definition EncodeState (state : State) : res State :=
  let* _ := Validate state in Ok state.

(** The handlers of [module/module.go] run one engine operation and store its
    result with [transition], which encodes the state. *)
Definition handle (state : State) (input : Input) : res (State * list Event) :=
  let* '(next, facts) := step state input in
  let* stored := EncodeState next in
  Ok (stored, facts).
End ThreeRounds.
