(* ===== verification/ThreeSettle.v ===== *)
(** * Three rounds: the settlement loops

    The loops of [settleRoundOne], [settleRoundTwo] and [resolveRoundThree] as
    equations: the players they write are a map over the players, the reveals a
    map over those who take part, and the winners the users nobody beats
    ([contest]); the award loop marks exactly the winners. *)

From S2P Require Import Prelude Roster ThreeCards ThreeDeck ThreeHands ThreeHandsFacts ThreeRounds.

Module ThreeSettle.
Import Roster ThreeCards ThreeDeck ThreeHands ThreeHandsFacts ThreeRounds.

(** ** Clones are values *)
Lemma cloneWildcard_id w : cloneWildcardResolution w = w.
Proof. by destruct w. Qed.

Lemma clonePlayerT_id p : clonePlayer p = p.
Proof. by destruct p as [? ? ? ? ? [] ? ? ? [] ? ? ? ? ? ? ? ? ?]. Qed.

Lemma fmap_id_ext {A} (f : A -> A) (l : list A) : (forall x, f x = x) -> f <$> l = l.
Proof. intros Hf. induction l as [|x l IH]; [done|]. cbn. by rewrite Hf, IH. Qed.

Lemma cloneRevealT_id v : clonePlayerReveal v = v.
Proof. by destruct v as [? ? ? ? ? ? ? ? [] []]. Qed.

Lemma cloneSummary_id r : cloneRoundSummary r = r.
Proof.
  unfold cloneRoundSummary. rewrite (fmap_id_ext _ _ cloneRevealT_id). by destruct r.
Qed.

Lemma CloneT_id s : Clone s = s.
Proof.
  unfold Clone, clonePlayers, cloneRoundHistory.
  rewrite (fmap_id_ext _ _ clonePlayerT_id), (fmap_id_ext _ _ cloneSummary_id).
  by destruct s as [? ? ? ? ? ? ? ? ? [] ?].
Qed.
#[export] Hint Rewrite CloneT_id : values.

(** ** Contests *)
Lemma filter_none {A} (p : A -> bool) l : (forall x, x ∈ l -> p x = false) -> List.filter p l = [].
Proof.
  induction l as [|x l IH]; intros H; [done|]. cbn. rewrite H by constructor.
  apply IH. intros y Hy. apply H. by constructor.
Qed.

Lemma filter_elem {A} (p : A -> bool) l x : x ∈ List.filter p l <-> p x = true /\ x ∈ l.
Proof. rewrite !list_elem_of_In, filter_In. tauto. Qed.

Section Contest.
Context {C : Type} (compare : C -> C -> Z) `{!CmpOrder compare}.

(** The winner updates of a settlement loop, in seat order. *)
Definition contestFrom (acc : option C * list string) (entries : list (string * C))
  : option C * list string :=
  foldl (fun acc entry => contend compare acc.1 acc.2 entry.1 entry.2) acc entries.
Definition contest (entries : list (string * C)) : option C * list string :=
  contestFrom (None, []) entries.

Lemma contest_spec entries :
  match (contest entries).1 with
  | None => entries = [] /\ (contest entries).2 = []
  | Some b =>
      (exists u, (u, b) ∈ entries)
      /\ (forall u c, (u, c) ∈ entries -> compare c b <= 0)
      /\ (contest entries).2 = fst <$> List.filter (fun entry => compare entry.2 b =? 0) entries
  end.
Proof.
  unfold contest, contestFrom. induction entries as [|[u c] entries IH] using rev_ind; [done|].
  rewrite foldl_app. cbn [foldl fst snd].
  destruct (foldl _ (None, []) entries) as [[b|] w]; cbn [fst snd contend] in *.
  - destruct IH as ((v & Hv) & Hle & Hw).
    pose proof (cmp_flip (cmp := compare) c b) as Hflip.
    destruct (Z.ltb_spec 0 (compare c b)) as [Hgt|Hng]; cbn [fst snd].
    + split_and!; [exists u; set_solver| |].
      * intros u' c' [Hin|Hin]%elem_of_app.
        -- apply (cmp_trans (cmp := compare) c' b c); [by eapply Hle|lia].
        -- apply list_elem_of_singleton in Hin as [= -> ->]. by rewrite (cmp_refl compare).
      * rewrite List.filter_app, filter_none; [cbn; by rewrite (cmp_refl compare)|].
        intros [u' c'] Hin. apply Hle in Hin. apply Z.eqb_neq. cbn.
        pose proof (cmp_lt_trans' compare c' b c Hin ltac:(lia)). lia.
    + destruct (Z.eqb_spec (compare c b) 0) as [Heq|Hne]; cbn [fst snd].
      all: split_and!; [exists v; set_solver| |].
      all: try (intros u' c' [Hin|Hin]%elem_of_app; [by eapply Hle|];
                apply list_elem_of_singleton in Hin as [= -> ->]; lia).
      all: rewrite List.filter_app, fmap_app, <- Hw; cbn.
      * by rewrite Heq.
      * apply Z.eqb_neq in Hne. rewrite Hne. by rewrite app_nil_r.
  - destruct IH as [-> ->]. cbn. rewrite (cmp_refl compare). split_and!; [exists u; set_solver| |done].
    intros u' c' Hin. apply list_elem_of_singleton in Hin as [= -> ->]. by rewrite (cmp_refl compare).
Qed.

(** The winners of a contest are the users nobody beats. *)
Lemma contest_winners entries u :
  u ∈ (contest entries).2 <->
  exists c, (u, c) ∈ entries /\ forall u' c', (u', c') ∈ entries -> compare c' c <= 0.
Proof.
  pose proof (contest_spec entries) as H. destruct (contest entries).1 as [b|].
  - destruct H as ((v & Hv) & Hle & ->). rewrite list_elem_of_fmap. split.
    + intros ([u' c] & -> & [Hc Hin]%filter_elem). cbn in Hc. apply Z.eqb_eq in Hc. exists c. split; [done|].
      intros u'' c' Hin'. apply (cmp_trans (cmp := compare) c' b c); [by eapply Hle|].
      rewrite (cmp_flip (cmp := compare) c b). lia.
    + intros (c & Hin & Hmax). exists (u, c). split; [done|]. apply filter_elem. split; [|done]. cbn.
      apply Z.eqb_eq. pose proof (Hle _ _ Hin). pose proof (Hmax _ _ Hv).
      pose proof (cmp_flip (cmp := compare) c b). lia.
  - destruct H as [-> ->]. split; [by intros ?%not_elem_of_nil|]. intros (c & ?%not_elem_of_nil & _). done.
Qed.

Lemma contest_nonempty entries : entries <> [] -> (contest entries).2 <> [].
Proof.
  intros Hne. pose proof (contest_spec entries) as H. destruct (contest entries).1 as [b|] eqn:E.
  - destruct H as ((v & Hv) & _ & ->). intros Hnil.
    assert (v ∈ fst <$> List.filter (fun entry => compare entry.2 b =? 0) entries) as Hin.
    { apply list_elem_of_fmap. exists (v, b). split; [done|]. apply filter_elem.
      split; [|done]. cbn. by rewrite (cmp_refl compare). }
    rewrite Hnil in Hin. by apply not_elem_of_nil in Hin.
  - by destruct H.
Qed.

Lemma contest_sub entries : (contest entries).2 ⊆ fst <$> entries.
Proof. intros u (c & Hin & _)%contest_winners. apply list_elem_of_fmap. by exists (u, c). Qed.
End Contest.

(** ** Awards *)
Definition awarded (winners : list string) (reveal : PlayerReveal) : PlayerReveal :=
  if bool_decide (rv_UserID reveal ∈ winners) then reveal <| rv_AwardedPoints := 1 |> else reveal.
Definition crowned (award : PlayerState -> PlayerState) (winners : list string) (p : PlayerState)
  : PlayerState :=
  if bool_decide (p_UserID p ∈ winners) then award p else p.

Section Award.
Context (award : PlayerState -> PlayerState) (Huser : forall p, p_UserID (award p) = p_UserID p).

(** The award loop turn by turn: a player is crowned when a winning reveal
    names it. *)
Lemma awardLoop_turns winners reveals players :
  NoDup (rv_UserID <$> reveals) -> NoDup (p_UserID <$> players) ->
  (rv_UserID <$> reveals) ⊆ (p_UserID <$> players) ->
  awardLoop award winners reveals players =
  Ok ((fun p => if bool_decide (p_UserID p ∈ winners) && bool_decide (p_UserID p ∈ rv_UserID <$> reveals)
                then award p else p) <$> players,
      awarded winners <$> reveals).
Proof.
  revert players. induction reveals as [|reveal rest IH]; intros players Hr Hp Hsub; cbn [awardLoop].
  - rewrite fmap_id_ext; [done|]. intros p. by rewrite andb_false_r.
  - cbn in Hr. apply NoDup_cons in Hr as [Hnew Hr]. cbn [fmap list_fmap]. unfold awarded at 1.
    assert (Hrest : (rv_UserID <$> rest) ⊆ (p_UserID <$> players))
      by (intros u Hu; apply Hsub; by constructor).
    destruct (bool_decide (rv_UserID reveal ∈ winners)) eqn:E.
    + assert (Hin : rv_UserID reveal ∈ p_UserID <$> players) by (apply Hsub; constructor).
      apply list_elem_of_fmap in Hin as (p & Hu & Hin). apply list_elem_of_lookup in Hin as [i Hi].
      pose proof (playerIndex_lookup players i p Hp Hi) as Hix. cbn in Hix. rewrite Hu, Hix.
      rewrite (list_lookup_total_correct _ _ _ Hi).
      assert (Husers : p_UserID <$> <[i:=award p]> players = p_UserID <$> players)
        by (by apply (fmap_insert_same p_UserID players i p)).
      rewrite IH by (done || by rewrite Husers). cbn [bind_result]. f_equal. f_equal.
      apply list_eq. intros k. rewrite !list_lookup_fmap.
      destruct (decide (k = i)) as [->|Hk].
      * rewrite list_lookup_insert_eq by (by eapply lookup_lt_Some). rewrite Hi. cbn.
        rewrite Huser, <- Hu, E, (bool_decide_eq_false_2 _ Hnew).
        rewrite (bool_decide_eq_true_2 (rv_UserID reveal ∈ _)) by constructor. done.
      * rewrite list_lookup_insert_ne by done. destruct (players !! k) as [q|] eqn:Hq; [|done]. cbn.
        assert (p_UserID q <> rv_UserID reveal) as Hne.
        { intros E2. apply Hk. eapply (NoDup_lookup (p_UserID <$> players)); [done|rewrite list_lookup_fmap, Hq; done|].
          by rewrite list_lookup_fmap, Hi, E2, Hu. }
        f_equal. rewrite <- Hu. erewrite (bool_decide_ext (p_UserID q ∈ rv_UserID reveal :: _)); [done|].
        rewrite elem_of_cons. naive_solver.
    + rewrite IH by done. cbn [bind_result]. f_equal. f_equal. apply list_fmap_ext. intros k q _.
      destruct (bool_decide (p_UserID q ∈ winners)) eqn:Eq; [|done]. cbn [andb].
      erewrite bool_decide_ext; [done|]. rewrite elem_of_cons. split; [auto|].
      intros [Heq|?]; [|done]. rewrite Heq in Eq. congruence.
Qed.

Lemma awardLoop_spec winners reveals players :
  NoDup (rv_UserID <$> reveals) -> NoDup (p_UserID <$> players) ->
  (rv_UserID <$> reveals) ⊆ (p_UserID <$> players) -> winners ⊆ (rv_UserID <$> reveals) ->
  awardLoop award winners reveals players =
  Ok (crowned award winners <$> players, awarded winners <$> reveals).
Proof.
  intros Hr Hp Hsub Hw. rewrite awardLoop_turns by done. f_equal. f_equal.
  apply list_fmap_ext. intros k p _. unfold crowned.
  destruct (bool_decide (p_UserID p ∈ winners)) eqn:E; [|done]. apply bool_decide_eq_true in E.
  by rewrite bool_decide_eq_true_2 by (by apply Hw).
Qed.
End Award.

(** ** The player loops *)

(** The players a selection round compares: active, with a selection for it. *)
Definition plays (round : Z) (p : PlayerState) : bool :=
  p_Active p && (ps_Round (p_PendingSelection p) =? round).

(** What a player puts down, and the player after putting it down. *)
Definition choice (p : PlayerState) : list CardID := ps_CardIDs (p_PendingSelection p).

Definition oneSettled (p : PlayerState) : PlayerState :=
  if plays 1 p
  then p <| p_RoundOneCards := choice p |>
         <| p_RemainingHand := removeCards (p_RemainingHand p) (choice p) |>
         <| p_PendingSelection := zeroPending |>
  else p <| p_PendingSelection := zeroPending |>.

Definition twoSettled (p : PlayerState) : PlayerState :=
  if plays 2 p
  then p <| p_RoundTwoCards := choice p |>
         <| p_RemainingHand := removeCards (p_RemainingHand p) (choice p) |>
         <| p_PendingSelection := zeroPending |>
  else p <| p_PendingSelection := zeroPending |>.

(** Round one: the strength of the card put down. *)
Definition oneStrength (p : PlayerState) : roundOneComparison := strengthOf (default ""%string (choice p !! 0%nat)).
Definition oneEntry (p : PlayerState) : string * roundOneComparison := (p_UserID p, oneStrength p).

Definition reveal (p : PlayerState) (cards : list CardID) : PlayerReveal :=
  zeroReveal <| rv_UserID := p_UserID p |>
             <| rv_SeatIndex := p_SeatIndex p |>
             <| rv_Active := true |>
             <| rv_CardIDs := cards |>
             <| rv_AutoSubmitted := ps_AutoSubmitted (p_PendingSelection p) |>.

Definition oneReveal (p : PlayerState) : PlayerReveal :=
  (reveal p (choice p))
    <| rv_RoundOneEvaluation :=
         mkEvaluation1 (default ""%string (choice p !! 0%nat)) (r1_RankStrength (oneStrength p))
           (r1_SuitStrength (oneStrength p)) |>.

Lemma not_plays round p :
  negb (p_Active p) || negb (ps_Round (p_PendingSelection p) =? round) = negb (plays round p).
Proof. unfold plays. by destruct (p_Active p). Qed.

Lemma contestFrom_cons {C} (compare : C -> C -> Z) acc entry entries :
  contestFrom compare acc (entry :: entries) =
  contestFrom compare (contend compare acc.1 acc.2 entry.1 entry.2) entries.
Proof. done. Qed.

Lemma roundOneLoop_spec players best winners :
  (forall p, p ∈ players -> plays 1 p = true -> choice p <> []) ->
  roundOneLoop players best winners =
  Ok (oneSettled <$> players,
      (contestFrom compareRoundOne (best, winners) (oneEntry <$> List.filter (plays 1) players)).2,
      oneReveal <$> List.filter (plays 1) players).
Proof.
  revert best winners. induction players as [|p rest IH]; intros best winners Hc; cbn [roundOneLoop]; [done|].
  assert (Hrest : forall q, q ∈ rest -> plays 1 q = true -> choice q <> [])
    by (intros q Hq; apply Hc; by constructor).
  rewrite not_plays. cbn [List.filter fmap list_fmap]. unfold oneSettled at 1.
  destruct (plays 1 p) eqn:E; cbn [negb].
  - pose proof (Hc p ltac:(constructor) E) as Hne. cbn [app].
    unfold choice in Hne. destruct (ps_CardIDs (p_PendingSelection p)) as [|id ids] eqn:Eids; [done|].
    cbn [at_index lookup list_lookup bind_result]. unfold at_index. cbn [lookup list_lookup bind_result].
    cbn [fmap list_fmap]. rewrite contestFrom_cons.
    assert (Hs : oneStrength p = mkRoundOne (rankStrength (cardOf id)) (suitStrength (cardOf id)))
      by (unfold oneStrength, choice; by rewrite Eids).
    change (oneEntry p) with (p_UserID p, oneStrength p). cbn [fst snd]. rewrite Hs.
    destruct (contend compareRoundOne best winners (p_UserID p) _) as [best' winners'].
    rewrite (IH best' winners' Hrest). cbn [bind_result]. unfold oneReveal, oneSettled at 1, choice. rewrite Eids.
    unfold oneStrength, choice. rewrite Eids. done.
  - rewrite (IH best winners Hrest). done.
Qed.

(** Round two: the ten-and-a-half evaluation of the two cards put down. *)
Definition twoEval (p : PlayerState) : roundTwoComparison :=
  twoComparison (cardOf (default ""%string (choice p !! 0%nat))) (cardOf (default ""%string (choice p !! 1%nat))).
Definition twoEntry (p : PlayerState) : string * roundTwoComparison := (p_UserID p, twoEval p).
Definition twoBusted (p : PlayerState) : bool := r2_Busted (twoEval p).

Definition twoReveal (p : PlayerState) : PlayerReveal :=
  (reveal p (choice p))
    <| rv_RoundTwoEvaluation :=
         mkEvaluation2 (r2_TotalHalfPoints (twoEval p)) (r2_Busted (twoEval p))
           (r2_RankStrengthsDesc (twoEval p)) |>.

(** The players whose two cards count: those who did not go bust. *)
Definition standing (players : list PlayerState) : list PlayerState :=
  List.filter (fun p => negb (twoBusted p)) (List.filter (plays 2) players).

Lemma evaluate_choice p :
  length (choice p) = 2%nat -> evaluateRoundTwo (cardsFromIDs (choice p)) = Ok (twoEval p).
Proof.
  intros Hl. unfold twoEval. destruct (choice p) as [|a [|b [|]]]; first [discriminate Hl|apply evaluateRoundTwo_two].
Qed.

Lemma roundTwoLoop_spec players best winners allBusted :
  (forall p, p ∈ players -> plays 2 p = true -> length (choice p) = 2%nat) ->
  roundTwoLoop players best winners allBusted =
  Ok (twoSettled <$> players,
      (contestFrom compareRoundTwo (best, winners) (twoEntry <$> standing players)).2,
      twoReveal <$> List.filter (plays 2) players,
      allBusted && forallb twoBusted (List.filter (plays 2) players)).
Proof.
  revert best winners allBusted.
  induction players as [|p rest IH]; intros best winners allBusted Hc; cbn [roundTwoLoop].
  { by rewrite andb_true_r. }
  assert (Hrest : forall q, q ∈ rest -> plays 2 q = true -> length (choice q) = 2%nat)
    by (intros q Hq; apply Hc; by constructor).
  rewrite not_plays. unfold standing. cbn [List.filter fmap list_fmap]. unfold twoSettled at 1.
  destruct (plays 2 p) eqn:E; cbn [negb].
  - change ([] ++ ps_CardIDs (p_PendingSelection p)) with (choice p).
    rewrite evaluate_choice by (apply Hc; [constructor|done]). cbn [bind_result List.filter forallb fmap list_fmap].
    change (twoBusted p) with (r2_Busted (twoEval p)).
    destruct (r2_Busted (twoEval p)) eqn:Eb; cbn [negb].
    + rewrite (IH best winners allBusted Hrest). cbn [bind_result andb]. unfold twoReveal. by rewrite Eb.
    + cbn [fmap list_fmap]. rewrite contestFrom_cons. change (twoEntry p) with (p_UserID p, twoEval p). cbn [fst snd].
      destruct (contend compareRoundTwo best winners (p_UserID p) (twoEval p)) as [best' winners'].
      rewrite (IH best' winners' false Hrest). cbn [bind_result andb]. rewrite andb_false_r.
      unfold twoReveal. by rewrite Eb.
  - rewrite (IH best winners allBusted Hrest). done.
Qed.

(** Round three: the resolved remaining hand. *)
Definition thirdOf (p : PlayerState) : thirdResolution :=
  match resolveThirdHand (cardsFromIDs (p_RemainingHand p)) with
  | Ok r => r
  | Err _ => mkThirdResolution (mkThird 0 []) [] zeroWildcard
  end.
Definition threeEntry (p : PlayerState) : string * thirdComparison := (p_UserID p, t_Comparison (thirdOf p)).

Definition threeSettled (p : PlayerState) : PlayerState :=
  if p_Active p
  then p <| p_RoundThreeCards := p_RemainingHand p |>
         <| p_RemainingHand := [] |>
         <| p_RoundThreeWildcardResolution := t_WildcardResolution (thirdOf p) |>
  else p.

Definition threeReveal (p : PlayerState) : PlayerReveal :=
  zeroReveal <| rv_UserID := p_UserID p |>
             <| rv_SeatIndex := p_SeatIndex p |>
             <| rv_Active := true |>
             <| rv_CardIDs := p_RemainingHand p |>
             <| rv_RoundThreeEvaluation :=
                  mkEvaluation3 (t_HandClass (t_Comparison (thirdOf p)))
                    (t_CompareValues (t_Comparison (thirdOf p))) (t_ResolvedCards (thirdOf p)) |>
             <| rv_WildcardResolution := t_WildcardResolution (thirdOf p) |>.

Definition wildcardEvents (p : PlayerState) : list Event :=
  if negb (length (w_Substitutions (t_WildcardResolution (thirdOf p))) =? 0)%nat
  then [zeroEvent <| ev_Kind := EventWildcardResolved |>
                  <| ev_UserID := p_UserID p |>
                  <| ev_Round := 3 |>
                  <| ev_WildcardResolution := t_WildcardResolution (thirdOf p) |>]
  else [].

Lemma roundThreeLoop_spec players best winners :
  (forall p, p ∈ players -> p_Active p = true ->
     exists r, resolveThirdHand (cardsFromIDs (p_RemainingHand p)) = Ok r) ->
  roundThreeLoop players best winners =
  Ok (threeSettled <$> players,
      (contestFrom compareThirdResult (best, winners) (threeEntry <$> List.filter p_Active players)).2,
      threeReveal <$> List.filter p_Active players,
      List.filter p_Active players ≫= wildcardEvents).
Proof.
  revert best winners. induction players as [|p rest IH]; intros best winners Hc; cbn [roundThreeLoop]; [done|].
  assert (Hrest : forall q, q ∈ rest -> p_Active q = true ->
            exists r, resolveThirdHand (cardsFromIDs (p_RemainingHand q)) = Ok r)
    by (intros q Hq; apply Hc; by constructor).
  cbn [List.filter fmap list_fmap]. unfold threeSettled at 1.
  destruct (p_Active p) eqn:E; cbn [negb].
  - destruct (Hc p ltac:(constructor) E) as [r Hr]. rewrite Hr. cbn [bind_result app].
    assert (Ht : thirdOf p = r) by (unfold thirdOf; by rewrite Hr).
    cbn [fmap list_fmap]. rewrite contestFrom_cons.
    change (threeEntry p) with (p_UserID p, t_Comparison (thirdOf p)). cbn [fst snd]. rewrite Ht.
    destruct (contend compareThirdResult best winners (p_UserID p) (t_Comparison r)) as [best' winners'].
    rewrite (IH best' winners' Hrest). cbn [bind_result]. rewrite bind_cons, cloneWildcard_id.
    unfold threeReveal, wildcardEvents. rewrite Ht. done.
  - rewrite (IH best winners Hrest). done.
Qed.
End ThreeSettle.
