(* ===== verification/ThreeInvariant.v ===== *)
(** * Three rounds: the session invariant

    [Inv] is what every stored session satisfies: the roster frozen at the
    start, hands that partition distinct cards of the deck, the cards of each
    player accounted for round by round, points that equal the rounds won, and
    the round, generation, deadline and history that belong to the phase.  It
    implies every check of [Validate]. *)

From stdpp Require Import gmap.
From S2P Require Import Prelude Roster ThreeCards ThreeDeck ThreeHands ThreeHandsFacts ThreeRounds ThreeSettle.

Module ThreeInvariant.
Import Roster ThreeCards ThreeDeck ThreeHands ThreeHandsFacts ThreeRounds ThreeSettle.

(** ** What a phase means *)

(** Cards an active player has put down in each round. *)
Definition putOne (phase : Z) : nat := if phase <=? PhaseRoundOneSelecting then 0 else 1.
Definition putTwo (phase : Z) : nat := if phase <=? PhaseRoundTwoSelecting then 0 else 2.
Definition putThree (phase : Z) : nat := if phase <=? PhaseRoundTwoResult then 0 else 3.

Definition roundOf (phase : Z) : Z :=
  if phase <=? PhaseRoundOneResult then 1 else if phase <=? PhaseRoundTwoResult then 2 else 3.

(** Rounds settled so far. *)
Definition settledRounds (phase : Z) : nat :=
  if phase <=? PhaseRoundOneSelecting then 0
  else if phase <=? PhaseRoundTwoSelecting then 1
  else if phase <=? PhaseRoundTwoResult then 2 else 3.

Definition selecting (phase : Z) : Prop :=
  phase = PhaseRoundOneSelecting \/ phase = PhaseRoundTwoSelecting.

(** Cards a selection of the round holds. *)
Definition selectionSize (round : Z) : nat := if round =? 2 then 2 else 1.

(** ** Players *)
Definition allocation (p : PlayerState) : list CardID :=
  p_RemainingHand p ++ p_RoundOneCards p ++ p_RoundTwoCards p ++ p_RoundThreeCards p.

(** A recorded selection: the right number of distinct cards of the hand. *)
Record Selected (phase round : Z) (p : PlayerState) : Prop := {
  sel_phase : selecting phase;
  sel_active : p_Active p = true;
  sel_round : ps_Round (p_PendingSelection p) = round;
  sel_size : length (choice p) = selectionSize round;
  sel_nodup : NoDup (choice p);
  sel_hand : choice p ⊆ p_RemainingHand p;
}.

Record PlayerOK (phase round : Z) (p : PlayerState) : Prop := {
  po_user : p_UserID p <> ""%string;
  po_hand : length (p_InitialHand p) = 6%nat;
  po_cards : allocation p ≡ₚ p_InitialHand p;
  po_shape : p_Active p = true -> phase <> PhaseFinished ->
    length (p_RoundOneCards p) = putOne phase /\ length (p_RoundTwoCards p) = putTwo phase
    /\ length (p_RoundThreeCards p) = putThree phase;
  po_pending : p_PendingSelection p = zeroPending \/ Selected phase round p;
  po_points : p_RoundOnePoints p = boolToUint8 (p_WonRoundOne p)
    /\ p_RoundTwoPoints p = boolToUint8 (p_WonRoundTwo p)
    /\ p_RoundThreePoints p = boolToUint8 (p_WonRoundThree p);
  po_total : p_TotalPoints p = p_RoundOnePoints p + p_RoundTwoPoints p + p_RoundThreePoints p;
  po_wins : (phase <= PhaseRoundOneSelecting -> p_WonRoundOne p = false)
    /\ (phase <= PhaseRoundTwoSelecting -> p_WonRoundTwo p = false)
    /\ (phase <= PhaseRoundTwoResult -> p_WonRoundThree p = false);
}.

(** The hands dealt at the start: distinct cards of the deck. *)
Definition dealtCards (players : list PlayerState) : list CardID := players ≫= p_InitialHand.

Record RosterOK (host : string) (players : list PlayerState) : Prop := {
  ro_users : NoDup (p_UserID <$> players);
  ro_seats : StronglySorted (fun p q => p_SeatIndex p < p_SeatIndex q) players;
  ro_host : host ∈ p_UserID <$> players;
  ro_dealt : NoDup (dealtCards players);
  ro_known : Forall known (dealtCards players);
}.

Record Inv (s : State) : Prop := {
  inv_schema : SchemaVersion s = CurrentSchemaVersion;
  inv_config : Config_Validate (config s) (length (Players s)) = Ok tt;
  inv_phase : PhaseRoundOneSelecting <= Phase s <= PhaseFinished;
  inv_round : 1 <= CurrentRound s <= 3 /\ (Phase s <> PhaseFinished -> CurrentRound s = roundOf (Phase s));
  inv_generation : 0 < PhaseGeneration s <= 7
    /\ (Phase s <> PhaseFinished -> PhaseGeneration s = Phase s - 1);
  inv_deadline :
    if Phase s =? PhaseFinished then PhaseDeadlineUnixMillis s = 0
    else if selectionDeadlineEnabled (Phase s) (config s)
    then 0 < PhaseDeadlineUnixMillis s <= maxInt64
    else PhaseDeadlineUnixMillis s = 0;
  inv_roster : RosterOK (HostUserID s) (Players s);
  inv_players : Forall (PlayerOK (Phase s) (CurrentRound s)) (Players s);
  inv_active : Phase s <> PhaseFinished -> (2 <= activeCount (Players s))%nat;
  inv_history : exists k, (k <= 3)%nat /\ sm_Round <$> RoundHistory s = take k [1; 2; 3]
    /\ (Phase s <> PhaseFinished -> k = settledRounds (Phase s));
  inv_reason : if Phase s =? PhaseFinished then validFinishReason (FinishReason s) = true
    else FinishReason s = ""%string;
  inv_final : Phase s < PhaseFinalResult -> finalSummary s = zeroFinal;
  inv_standings : NoDup (fs_UserID <$> f_Standings (finalSummary s));
}.

(** ** [Inv] passes [Validate] *)
Lemma checkInitial_ok seen hand :
  NoDup hand -> Forall known hand -> (forall c, c ∈ hand -> c ∉ seen) ->
  checkInitial seen hand = Ok (reverse hand ++ seen).
Proof.
  revert seen. induction hand as [|c hand IH]; intros seen Hn Hk Hd; [done|]. cbn [checkInitial].
  apply NoDup_cons in Hn as [Hc Hn]. apply Forall_cons in Hk as [Hkc Hk].
  rewrite bool_decide_eq_false_2 by (apply Hd; constructor).
  destruct (ParseCardID c) eqn:E; [|by apply ParseCardID_None in E].
  rewrite IH; [by rewrite reverse_cons, <- app_assoc|done..|].
  intros d Hin. rewrite not_elem_of_cons. split; [by intros ->|apply Hd; by constructor].
Qed.

Lemma checkAllocated_ok seen set :
  NoDup set -> Forall known set -> (forall c, c ∈ set -> c ∉ seen) ->
  checkAllocated seen set = Ok (reverse set ++ seen).
Proof.
  revert seen. induction set as [|c set IH]; intros seen Hn Hk Hd; [done|]. cbn [checkAllocated].
  apply NoDup_cons in Hn as [Hc Hn]. apply Forall_cons in Hk as [Hkc Hk].
  destruct (ParseCardID c) eqn:E; [|by apply ParseCardID_None in E].
  rewrite bool_decide_eq_false_2 by (apply Hd; constructor).
  rewrite IH; [by rewrite reverse_cons, <- app_assoc|done..|].
  intros d Hin. rewrite not_elem_of_cons. split; [by intros ->|apply Hd; by constructor].
Qed.

Lemma checkAllocated_sets seen sets :
  NoDup (concat sets) -> Forall known (concat sets) -> (forall c, c ∈ concat sets -> c ∉ seen) ->
  exists seen', fold_result checkAllocated seen sets = Ok seen'.
Proof.
  revert seen. induction sets as [|set sets IH]; intros seen Hn Hk Hd; cbn in *; [eauto|].
  apply NoDup_app in Hn as (Hn & Hx & Hn'). apply Forall_app in Hk as [Hk Hk'].
  rewrite checkAllocated_ok; [|done..|intros c Hc; apply Hd, elem_of_app; by left]. cbn [bind_result].
  apply IH; [done..|]. intros c Hc. rewrite elem_of_app, elem_of_reverse. intros [?|?].
  - by apply (Hx c).
  - apply (Hd c); [apply elem_of_app; by right|done].
Qed.

Lemma checkPending_ok remaining ids :
  Forall known ids -> ids ⊆ remaining -> checkPending remaining ids = Ok tt.
Proof.
  induction ids as [|c ids IH]; intros Hk Hs; [done|]. cbn [checkPending].
  apply Forall_cons in Hk as [Hkc Hk].
  destruct (ParseCardID c) eqn:E; [|by apply ParseCardID_None in E].
  rewrite bool_decide_eq_true_2 by (apply Hs; constructor). cbn [negb].
  apply IH; [done|]. intros d Hd. apply Hs. by constructor.
Qed.

Section Checks.
Context (phase round : Z) (p : PlayerState) (Hp : PlayerOK phase round p).
Context (Hnd : NoDup (p_InitialHand p)) (Hk : Forall known (p_InitialHand p)).

Lemma allocation_known : Forall known (allocation p).
Proof. by rewrite (po_cards _ _ _ Hp). Qed.

Lemma allocation_nodup : NoDup (allocation p).
Proof. by rewrite (po_cards _ _ _ Hp). Qed.

Lemma allocation_length : length (allocation p) = 6%nat.
Proof. rewrite (Permutation_length (po_cards _ _ _ Hp)). apply (po_hand _ _ _ Hp). Qed.

Lemma remaining_known : Forall known (p_RemainingHand p).
Proof. pose proof allocation_known as H. unfold allocation in H. by apply Forall_app in H as [? _]. Qed.

Lemma validatePlayerCards_ok seen :
  (forall c, c ∈ p_InitialHand p -> c ∉ seen) ->
  validatePlayerCards p seen = Ok (reverse (p_InitialHand p) ++ seen).
Proof.
  intros Hd. unfold validatePlayerCards. rewrite (po_hand _ _ _ Hp). cbn [Nat.eqb negb].
  rewrite checkInitial_ok by done. cbn [bind_result].
  pose proof allocation_nodup as Han. pose proof allocation_known as Hak. pose proof allocation_length as Hal.
  unfold allocation in Han, Hak, Hal.
  destruct (checkAllocated_sets [] [p_RemainingHand p; p_RoundOneCards p; p_RoundTwoCards p; p_RoundThreeCards p])
    as [seen' ->].
  { cbn. by rewrite app_nil_r. }
  { cbn. by rewrite app_nil_r. }
  { intros c _. apply not_elem_of_nil. }
  cbn [bind_result foldl]. rewrite !length_app in Hal.
  replace (0 + _ + _ + _ + _ =? 6)%nat with true by (symmetry; apply Nat.eqb_eq; lia).
  destruct (negb _) eqn:E; [|done].
  destruct (po_pending _ _ _ Hp) as [Hz|Hs]; [by rewrite Hz in E|].
  rewrite checkPending_ok; [done| |apply (sel_hand _ _ _ Hs)].
  apply Forall_forall. intros c Hc. eapply Forall_forall; [apply remaining_known|].
  by apply (sel_hand _ _ _ Hs).
Qed.

Lemma points_total :
  p_TotalPoints p = u8 (u8 (p_RoundOnePoints p + p_RoundTwoPoints p) + p_RoundThreePoints p).
Proof.
  destruct (po_points _ _ _ Hp) as (H1 & H2 & H3). pose proof (po_total _ _ _ Hp) as Ht.
  unfold u8. rewrite H1, H2, H3 in *. rewrite Ht. unfold boolToUint8.
  destruct (p_WonRoundOne p), (p_WonRoundTwo p), (p_WonRoundThree p); reflexivity.
Qed.
End Checks.

(** The player loop of [Validate] accepts the players of a roster that starts
    after the ones already seen. *)
Lemma validatePlayers_ok s seen players :
  1 <= CurrentRound s ->
  Forall (PlayerOK (Phase s) (CurrentRound s)) players ->
  NoDup (p_UserID <$> players) -> StronglySorted (fun p q => p_SeatIndex p < p_SeatIndex q) players ->
  NoDup (dealtCards players) -> Forall known (dealtCards players) ->
  (forall p, p ∈ players -> p_UserID p ∉ v_users seen /\ p_SeatIndex p ∉ v_seats seen
     /\ (forall q, v_previous seen = Some q -> p_SeatIndex q < p_SeatIndex p)) ->
  (forall c, c ∈ dealtCards players -> c ∉ v_cards seen) ->
  exists seen', fold_result (validatePlayer s) seen players = Ok seen'
    /\ v_hostFound seen' = v_hostFound seen || existsb (fun p => String.eqb (p_UserID p) (HostUserID s)) players.
Proof.
  intros Hr. revert seen. induction players as [|p rest IH]; intros seen HF Hu Hs Hn Hk Hseen Hcards.
  { exists seen. cbn. by rewrite orb_false_r. }
  apply Forall_cons in HF as [Hp HF]. cbn in Hu. apply NoDup_cons in Hu as [Hup Hu].
  apply StronglySorted_inv in Hs as [Hs Hlt]. unfold dealtCards in Hn, Hk, Hcards.
  rewrite bind_cons in Hn, Hk, Hcards. apply NoDup_app in Hn as (Hnp & Hx & Hn).
  apply Forall_app in Hk as [Hkp Hk].
  destruct (Hseen p ltac:(constructor)) as (Hu' & Hs' & Hprev).
  assert (Hvp : validatePlayer s seen p =
    Ok (mkSeen (v_hostFound seen || String.eqb (p_UserID p) (HostUserID s)) (Some p)
          (p_UserID p :: v_users seen) (p_SeatIndex p :: v_seats seen)
          (reverse (p_InitialHand p) ++ v_cards seen))).
  { unfold validatePlayer. rewrite (proj2 (eqb_string_false _ _) (po_user _ _ _ Hp)).
    replace (match v_previous seen with Some previous => p_SeatIndex p <=? p_SeatIndex previous | None => false end)
      with false by (destruct (v_previous seen) as [q|]; [specialize (Hprev q eq_refl); lia|done]).
    rewrite (bool_decide_eq_false_2 _ Hu'), (bool_decide_eq_false_2 _ Hs').
    rewrite (validatePlayerCards_ok _ _ _ Hp Hnp Hkp) by (intros c Hc; apply Hcards, elem_of_app; by left).
    cbn [bind_result]. rewrite <- (points_total _ _ _ Hp), Z.eqb_refl. cbn [negb].
    destruct (po_pending _ _ _ Hp) as [->|Hsel]; [done|].
    destruct (negb (ps_Round (p_PendingSelection p) =? 0)); [|done].
    rewrite (sel_round _ _ _ Hsel), Z.eqb_refl. cbn [negb].
    destruct (sel_phase _ _ _ Hsel) as [->| ->]; done. }
  cbn [fold_result]. rewrite Hvp. cbn [bind_result].
  edestruct (IH (mkSeen (v_hostFound seen || String.eqb (p_UserID p) (HostUserID s)) (Some p)
          (p_UserID p :: v_users seen) (p_SeatIndex p :: v_seats seen)
          (reverse (p_InitialHand p) ++ v_cards seen))) as (seen' & -> & Hh); try done.
  - intros q Hq. destruct (Hseen q ltac:(by constructor)) as (Hqu & Hqs & _). cbn.
    assert (p_SeatIndex p < p_SeatIndex q) by (by eapply Forall_forall in Hlt).
    rewrite !not_elem_of_cons. split_and!; [|done|lia|done|intros ? [= <-]; done].
    intros E. apply Hup. rewrite <- E. by apply list_elem_of_fmap_2.
  - intros c Hc. cbn. rewrite elem_of_app, elem_of_reverse. intros [?|?]; [by apply (Hx c)|].
    apply (Hcards c); [apply elem_of_app; by right|done].
  - exists seen'. split; [done|]. rewrite Hh. cbn. by rewrite orb_assoc.
Qed.

Lemma Config_Validate_count cfg n : Config_Validate cfg n = Ok tt -> (2 <= n <= 9)%nat.
Proof.
  unfold Config_Validate, MinimumPlayers, MaximumPlayers. intros H. inv_results H. bool_cases. lia.
Qed.

Lemma history_ok k rounds :
  (k <= 3)%nat -> sm_Round <$> rounds = take k [1; 2; 3] -> checkHistory 0 rounds = Ok tt.
Proof.
  intros Hk H.
  destruct k as [|[|[|[|]]]]; [..|lia]; destruct rounds as [|a [|b [|c [|]]]]; try discriminate H; try done;
    cbn in H |- *; injection H; intros; repeat match goal with E : sm_Round _ = _ |- _ => rewrite E; clear E end; done.
Qed.

Lemma Inv_Validate s : Inv s -> Validate s = Ok tt.
Proof.
  intros H. pose proof (inv_config _ H) as Hc. pose proof (Config_Validate_count _ _ Hc) as Hn.
  pose proof (inv_round _ H) as [Hr _]. pose proof (inv_phase _ H) as Hph. unfold PhaseRoundOneSelecting, PhaseFinished in Hph.
  destruct (inv_roster _ H) as [Hu Hs Hh Hd Hk].
  unfold Validate. rewrite (inv_schema _ H), Z.eqb_refl. unfold MinimumPlayers, MaximumPlayers.
  replace (CurrentRound s =? 0) with false by lia.
  replace (length (Players s) <? 2)%nat with false by (symmetry; apply Nat.ltb_ge; lia).
  replace (9 <? length (Players s))%nat with false by (symmetry; apply Nat.ltb_ge; lia).
  cbn [negb orb]. rewrite Hc. cbn [bind_result]. unfold PhaseDealing at 1, PhaseFinished at 1.
  replace (Phase s <? 1) with false by lia. replace (8 <? Phase s) with false by lia. cbn [orb].
  destruct (validatePlayers_ok s (mkSeen false None [] [] []) (Players s)) as (seen & -> & Hhost);
    [lia|apply (inv_players _ H)|done|done|done|done| | |].
  { intros p _. cbn. split_and!; [apply not_elem_of_nil..|done]. }
  { intros c _. apply not_elem_of_nil. }
  cbn [bind_result]. rewrite Hhost. cbn [v_hostFound orb].
  replace (existsb _ _) with true.
  2: { symmetry. apply existsb_exists. apply list_elem_of_fmap in Hh as (p & Hp & Hin). exists p.
       split; [by apply list_elem_of_In|]. by rewrite Hp, String.eqb_refl. }
  cbn [negb]. pose proof (inv_reason _ H) as Hre. pose proof (inv_deadline _ H) as Hdl.
  destruct (inv_generation _ H) as [Hg _]. destruct (inv_history _ H) as (k & Hk3 & Hrounds & _).
  assert (Hlen : (length (RoundHistory s) <= 3)%nat).
  { apply (f_equal length) in Hrounds. rewrite length_fmap, length_take in Hrounds. cbn in Hrounds. lia. }
  replace (RoundHistoryLimit <? length (RoundHistory s))%nat with false by (symmetry; apply Nat.ltb_ge; exact Hlen).
  destruct (Z.eqb_spec (Phase s) PhaseFinished) as [E|E].
  - rewrite Hre. cbn [negb andb]. rewrite Hdl. cbn. exact (history_ok k _ Hk3 Hrounds).
  - rewrite Hre. cbn [negb andb]. rewrite andb_false_r.
    replace (PhaseGeneration s =? 0) with false by lia.
    destruct (selectionDeadlineEnabled (Phase s) (config s)).
    + replace (PhaseDeadlineUnixMillis s <=? 0) with false by lia. rewrite !andb_false_r. cbn. exact (history_ok k _ Hk3 Hrounds).
    + rewrite andb_false_r. cbn. exact (history_ok k _ Hk3 Hrounds).
Qed.
End ThreeInvariant.
