(* ===== verification/ThreeRoundsFacts.v ===== *)
(** * Three rounds: every operation keeps the invariant

    The operations of the engine on states that satisfy [Inv], as equations:
    each is its guard followed by an explicit next state, so the trailing
    [Validate] of the source never refuses and no index is out of range. *)

From stdpp Require Import gmap.
From S2P Require Import Prelude Roster ThreeCards ThreeDeck ThreeHands ThreeHandsFacts ThreeThird ThreeRounds ThreeSettle ThreeInvariant.

Module ThreeRoundsFacts.
Import Roster ThreeCards ThreeDeck ThreeHands ThreeHandsFacts ThreeRounds ThreeSettle ThreeInvariant.

(** ** Deadlines *)
Lemma three_config_bounds cfg n :
  Config_Validate cfg n = Ok tt ->
  (RoundOneTimeoutSeconds cfg = 0 \/ 10 <= RoundOneTimeoutSeconds cfg <= 120)
  /\ (RoundTwoTimeoutSeconds cfg = 0 \/ 10 <= RoundTwoTimeoutSeconds cfg <= 120)
  /\ 2 <= RoundResultSeconds cfg <= 15 /\ 5 <= FinalResultSeconds cfg <= 30.
Proof.
  unfold Config_Validate, selectionTimeoutValid. intros H. inv_results H. bool_cases; lia.
Qed.

Lemma addDeadline_Ok now seconds d :
  0 <= seconds -> addDeadline now seconds = Ok d ->
  0 < now /\ (seconds = 0 /\ d = 0 \/ 0 < seconds /\ d = now + seconds * 1000 /\ 0 < d <= maxInt64).
Proof.
  intros Hs H. unfold addDeadline, validUnixMillis in H. inv_results H; bool_cases; lia.
Qed.

(** The deadline a phase gets, and the one [Validate] asks for. *)
Lemma deadlineForPhase_Ok cfg n now phase d :
  Config_Validate cfg n = Ok tt -> PhaseRoundOneSelecting <= phase < PhaseFinished ->
  deadlineForPhase now phase cfg = Ok d ->
  if selectionDeadlineEnabled phase cfg then 0 < d <= maxInt64 else d = 0.
Proof.
  intros Hc Hph H. pose proof (three_config_bounds _ _ Hc) as Hb.
  unfold deadlineForPhase in H. unfold selectionDeadlineEnabled.
  unfold PhaseRoundOneSelecting, PhaseRoundTwoSelecting, PhaseRoundOneResult, PhaseRoundTwoResult,
    PhaseRoundThreeResult, PhaseFinalResult, PhaseFinished in *.
  assert (phase = 2 \/ phase = 3 \/ phase = 4 \/ phase = 5 \/ phase = 6 \/ phase = 7) as Hcases by lia.
  destruct Hcases as [->|[->|[->|[->|[->| ->]]]]]; cbn in H |- *; apply addDeadline_Ok in H; try lia.
  - destruct (Z.eqb_spec (RoundOneTimeoutSeconds cfg) 0); cbn; lia.
  - destruct (Z.eqb_spec (RoundTwoTimeoutSeconds cfg) 0); cbn; lia.
Qed.

(** Far from the end of time every phase gets its deadline. *)
Lemma deadlineForPhase_total cfg n now phase :
  Config_Validate cfg n = Ok tt -> 0 < now <= maxInt64 - 120000 ->
  exists d, deadlineForPhase now phase cfg = Ok d.
Proof.
  intros Hc Hnow. pose proof (three_config_bounds _ _ Hc) as Hb.
  assert (Hadd : forall seconds, 0 <= seconds <= 120 -> exists d, addDeadline now seconds = Ok d).
  { intros seconds Hs. unfold addDeadline, validUnixMillis. replace (0 <? now) with true by lia. cbn [negb].
    destruct (seconds =? 0); [eauto|]. replace (maxInt64 - seconds * 1000 <? now) with false by lia. eauto. }
  unfold deadlineForPhase. repeat case_match; try (apply Hadd; lia). eauto.
Qed.

(** ** Construction *)
Lemma checkParticipants_Ok users seats participants :
  checkParticipants users seats participants = Ok tt ->
  Forall (fun p => UserID p <> ""%string) participants
  /\ NoDup (UserID <$> participants) /\ (forall p, p ∈ participants -> UserID p ∉ users)
  /\ NoDup (SeatIndex <$> participants) /\ (forall p, p ∈ participants -> SeatIndex p ∉ seats).
Proof.
  revert users seats. induction participants as [|p rest IH]; intros users seats H.
  { split_and!; try constructor; intros p ?%not_elem_of_nil; done. }
  cbn [checkParticipants] in H. inv_results H. to_prop. destruct (IH _ _ H) as (Hne & Hu & Hu' & Hs & Hs').
  assert (Hpu : UserID p ∉ UserID <$> rest).
  { intros (q & Eq & Hq)%list_elem_of_fmap. apply (Hu' q Hq). rewrite Eq. constructor. }
  assert (Hps : SeatIndex p ∉ SeatIndex <$> rest).
  { intros (q & Eq & Hq)%list_elem_of_fmap. apply (Hs' q Hq). rewrite Eq. constructor. }
  cbn [fmap list_fmap]. split_and!; [by constructor|by constructor| |by constructor|].
  - intros q [->|Hq]%elem_of_cons; [done|]. intros Hin. apply (Hu' q Hq). by constructor.
  - intros q [->|Hq]%elem_of_cons; [done|]. intros Hin. apply (Hs' q Hq). by constructor.
Qed.

#[local] Instance participant_le_total : Total participant_le.
Proof.
  intros p q. unfold participant_le.
  destruct (Z.lt_trichotomy (SeatIndex p) (SeatIndex q)) as [?|[E|?]]; [by left; left| |by right; left].
  destruct (String.leb_total (UserID p) (UserID q)); [left|right]; right; split; congruence.
Qed.

Lemma sortParticipants_seats ps :
  NoDup (SeatIndex <$> sortParticipants ps) ->
  StronglySorted (fun p q => SeatIndex p < SeatIndex q) (sortParticipants ps).
Proof.
  unfold sortParticipants. pose proof (Sorted_merge_sort participant_le ps) as Hs.
  revert Hs. generalize (merge_sort participant_le ps) as l. intros l Hs Hn.
  assert (Hle : StronglySorted (key_le SeatIndex) l).
  { apply Sorted_StronglySorted; [unfold key_le; intros ???; lia|].
    induction Hs as [|p l Hl IH Hd]; constructor; [by apply IH; apply NoDup_cons in Hn as [_ ?]|].
    destruct Hd as [|q l [?|[? _]]]; constructor; unfold key_le; lia. }
  clear Hs. induction l as [|p l IH]; constructor; apply StronglySorted_inv in Hle as [Hl Hp];
    cbn in Hn; apply NoDup_cons in Hn as [Hnp Hn]; [by apply IH|].
  apply Forall_forall. intros q Hq. eapply Forall_forall in Hp; [|exact Hq]. unfold key_le in Hp.
  assert (SeatIndex p <> SeatIndex q); [|lia]. intros E. apply Hnp. rewrite E. by apply list_elem_of_fmap_2.
Qed.

Lemma canonicalParticipants_Ok ps canonical :
  canonicalParticipants ps = Ok canonical ->
  canonical ≡ₚ ps /\ (2 <= length canonical <= 9)%nat
  /\ Forall (fun p => UserID p <> ""%string) canonical /\ NoDup (UserID <$> canonical)
  /\ StronglySorted (fun p q => SeatIndex p < SeatIndex q) canonical.
Proof.
  unfold canonicalParticipants, MinimumPlayers, MaximumPlayers. intros H. cbn [app] in H.
  inv_result H. destruct (checkParticipants [] [] _) as [[]|] eqn:Ec; [|done]. injection H as <-. bool_cases.
  apply checkParticipants_Ok in Ec as (Hne & Hu & _ & Hs & _).
  assert (Hp : sortParticipants ps ≡ₚ ps) by apply merge_sort_Permutation.
  split_and!; [done|rewrite (Permutation_length Hp); lia..|done|done|by apply sortParticipants_seats].
Qed.

Lemma fmap_bind_compose {A B C} (f : A -> B) (g : B -> list C) (l : list A) :
  (f <$> l) ≫= g = l ≫= (g ∘ f).
Proof. induction l as [|x l IH]; [done|]. rewrite fmap_cons, !bind_cons. by rewrite IH. Qed.

Lemma sorted_on {A} (f : A -> Z) (l : list A) :
  StronglySorted (fun x y => f x < f y) l <-> StronglySorted Z.lt (f <$> l).
Proof.
  induction l as [|x l IH]; [split; constructor|]. cbn. split; intros [Hs Hx]%StronglySorted_inv; constructor.
  - by apply IH.
  - by rewrite Forall_fmap.
  - by apply IH.
  - by rewrite Forall_fmap in Hx.
Qed.

(** The players dealt from a shuffled deck. *)
Definition seatedPlayers (deck : list Card) (n : nat) (canonical : list Participant) : list PlayerState :=
  imap (fun i p => newPlayer (UserID p) (SeatIndex p) true (handAt deck n i)) canonical.

Lemma seatedPlayers_dealt (h : nat -> list CardID) (canonical : list Participant) :
  dealtCards (imap (fun i p => newPlayer (UserID p) (SeatIndex p) true (h i)) canonical)
  = seq 0 (length canonical) ≫= h.
Proof.
  unfold dealtCards. revert h. induction canonical as [|p rest IH]; intros h; [done|].
  rewrite imap_cons, bind_cons. cbn [length seq]. rewrite bind_cons. f_equal.
  rewrite <- fmap_S_seq, fmap_bind_compose. exact (IH (h ∘ S)).
Qed.

(** The state a session starts in. *)
Definition startState (cfg : Config) (host : string) (players : list PlayerState) (deadline : Z) : State :=
  mkState CurrentSchemaVersion PhaseRoundOneSelecting 1 deadline 1 cfg host players [] zeroFinal "".

Lemma NewState_Ok fuel cfg participants host now seed s events :
  NewState fuel cfg participants host now seed = Ok (s, events) ->
  exists canonical deck deadline,
    canonicalParticipants participants = Ok canonical
    /\ Config_Validate cfg (length canonical) = Ok tt
    /\ host ∈ UserID <$> canonical
    /\ ShuffleDeck fuel seed = Ok deck
    /\ deadlineForPhase now PhaseRoundOneSelecting cfg = Ok deadline
    /\ s = startState cfg host (seatedPlayers deck (length canonical) canonical) deadline.
Proof.
  unfold NewState. intros H.
  destruct (canonicalParticipants participants) as [canonical|] eqn:Ec; [|done]. cbn [bind_result] in H.
  destruct (Config_Validate cfg (length canonical)) as [[]|] eqn:Ev; [|done]. cbn [bind_result] in H.
  destruct (negb (validUnixMillis now)); [done|].
  destruct (existsb _ canonical) eqn:Eh; cbn [negb] in H; [|done].
  destruct (ShuffleDeck fuel seed) as [deck|] eqn:Es; [|done]. cbn [bind_result] in H.
  pose proof (canonicalParticipants_Ok _ _ Ec) as (Hp & Hn & Hne & Hu & Hs).
  pose proof (ShuffleDeck_Permutation _ _ _ Es) as Hdeck.
  assert (Hlen : length deck = 54%nat) by (rewrite (Permutation_length Hdeck); apply deck_length).
  destruct (DealHands_spec deck canonical Hu Hn Hlen) as (hands & Hd & Hhands).
  rewrite Hd in H. cbn [bind_result Phase] in H.
  destruct (deadlineForPhase now PhaseRoundOneSelecting cfg) as [deadline|] eqn:Edl; [|done].
  cbn [bind_result] in H. unfold validated in H. inv_result H. injection H as <- _.
  exists canonical, deck, deadline. split_and!; try done.
  - apply existsb_exists in Eh as (p & Hin & Heq). apply String.eqb_eq in Heq as <-.
    by apply list_elem_of_fmap_2, list_elem_of_In.
  - assert (Hplayers : (fun participant => newPlayer (UserID participant) (SeatIndex participant) true
              ([] ++ default [] (hands !! UserID participant))) <$> canonical
            = seatedPlayers deck (length canonical) canonical);
      [|unfold startState; rewrite <- Hplayers; reflexivity].
    apply list_eq. intros i. unfold seatedPlayers. rewrite list_lookup_fmap, list_lookup_imap.
    destruct (canonical !! i) as [p|] eqn:Ep; [|done]. cbn. by rewrite (Hhands i p Ep).
Qed.

Lemma seatedPlayers_field {A} (f : PlayerState -> A) (g : Participant -> A) deck n canonical :
  (forall i p, f (newPlayer (UserID p) (SeatIndex p) true (handAt deck n i)) = g p) ->
  f <$> seatedPlayers deck n canonical = g <$> canonical.
Proof.
  intros Hf. apply list_eq. intros i. unfold seatedPlayers. rewrite !list_lookup_fmap, list_lookup_imap.
  destruct (canonical !! i) as [q|]; [|done]. apply (f_equal Some), Hf.
Qed.

Lemma seatedPlayers_elem deck n canonical p :
  p ∈ seatedPlayers deck n canonical ->
  exists i q, canonical !! i = Some q /\ p = newPlayer (UserID q) (SeatIndex q) true (handAt deck n i).
Proof.
  intros [i Hi]%list_elem_of_lookup. unfold seatedPlayers in Hi. rewrite list_lookup_imap in Hi.
  destruct (canonical !! i) as [q|] eqn:E; [|done]. exists i, q. by injection Hi as <-.
Qed.

(** The hands of the players are six distinct cards each, no card twice. *)
Lemma seated_dealt deck canonical :
  deck ≡ₚ deckOrdered -> (2 <= length canonical <= 9)%nat ->
  let players := seatedPlayers deck (length canonical) canonical in
  dealtCards players ≡ₚ ID <$> take (6 * length canonical) deck
  /\ NoDup (dealtCards players) /\ Forall known (dealtCards players).
Proof.
  intros Hdeck Hn players.
  assert (Hlen : length deck = 54%nat) by (rewrite (Permutation_length Hdeck); apply deck_length).
  assert (Hd : dealtCards players ≡ₚ ID <$> take (6 * length canonical) deck).
  { unfold players, seatedPlayers. rewrite seatedPlayers_dealt. by apply hands_partition. }
  assert (Hids : NoDup (ID <$> deck)) by (rewrite Hdeck; apply deck_ids_NoDup).
  rewrite <- (take_drop (6 * length canonical) deck), fmap_app in Hids.
  split_and!; [done|rewrite Hd; by apply NoDup_app in Hids as (? & _)|].
  rewrite Hd. apply Forall_forall. intros c (card & -> & Hc)%list_elem_of_fmap.
  apply list_elem_of_fmap_2. rewrite <- Hdeck. by apply subseteq_take in Hc.
Qed.

Lemma NewState_Inv fuel cfg participants host now seed s events :
  NewState fuel cfg participants host now seed = Ok (s, events) -> Inv s.
Proof.
  intros (canonical & deck & deadline & Hc & Hcfg & Hhost & Hsh & Hdl & ->)%NewState_Ok.
  pose proof (canonicalParticipants_Ok _ _ Hc) as (_ & Hn & Hne & Hu & Hs).
  destruct (seated_dealt deck canonical (ShuffleDeck_Permutation _ _ _ Hsh) Hn) as (_ & Hnd & Hk).
  set (players := seatedPlayers deck (length canonical) canonical) in *.
  assert (Hlen : length players = length canonical) by apply length_imap.
  assert (Husers : p_UserID <$> players = UserID <$> canonical) by (by apply seatedPlayers_field).
  assert (Hseats : p_SeatIndex <$> players = SeatIndex <$> canonical) by (by apply seatedPlayers_field).
  assert (Hactive : activeCount players = length canonical).
  { unfold activeCount, countb. cbn [activeOf PlayerState_seated]. rewrite <- Hlen. f_equal.
    assert (Hall : forall p, p ∈ players -> p_Active p = true)
      by (intros p (i & q & _ & ->)%seatedPlayers_elem; done).
    clear - Hall. induction players as [|p l IH]; [done|]. cbn. rewrite Hall by constructor.
    f_equal. apply IH. intros q Hq. apply Hall. by constructor. }
  split; cbn; try done.
  - by rewrite Hlen.
  - exact (deadlineForPhase_Ok cfg _ now _ _ Hcfg ltac:(done) Hdl).
  - split; [by rewrite Husers| |by rewrite Husers|done..].
    apply sorted_on. rewrite Hseats. exact (proj1 (sorted_on SeatIndex canonical) Hs).
  - apply Forall_forall. intros p (i & q & Hq & ->)%seatedPlayers_elem. split; cbn; try done.
    + apply (proj1 (Forall_forall _ _) Hne q). by eapply list_elem_of_lookup_2.
    + by left.
  - intros _. change (2 <= activeCount players)%nat. lia.
  - exists 0%nat. split_and!; [lia|done|done].
  - constructor.
Qed.

(** ** Rosters depend on the frozen fields only *)
Lemma dealtCards_concat players : dealtCards players = concat (p_InitialHand <$> players).
Proof. unfold dealtCards. induction players as [|p l IH]; [done|]. rewrite bind_cons. cbn. by rewrite IH. Qed.

Lemma RosterOK_ext host players players' :
  p_UserID <$> players' = p_UserID <$> players -> p_SeatIndex <$> players' = p_SeatIndex <$> players ->
  p_InitialHand <$> players' = p_InitialHand <$> players -> RosterOK host players -> RosterOK host players'.
Proof.
  intros Hu Hs Hi [? Hso ? ? ?]. split; rewrite ?Hu, ?dealtCards_concat, ?Hi, <- ?dealtCards_concat; try done.
  apply sorted_on. rewrite Hs. by apply sorted_on in Hso.
Qed.

Lemma fmap_field {A} (f : PlayerState -> PlayerState) (g : PlayerState -> A) (l : list PlayerState) :
  (forall p, g (f p) = g p) -> g <$> (f <$> l) = g <$> l.
Proof. intros H. rewrite <- list_fmap_compose. apply list_fmap_ext. intros i p _. apply H. Qed.

Lemma RosterOK_map host (f : PlayerState -> PlayerState) players :
  (forall p, p_UserID (f p) = p_UserID p) -> (forall p, p_SeatIndex (f p) = p_SeatIndex p) ->
  (forall p, p_InitialHand (f p) = p_InitialHand p) ->
  RosterOK host players -> RosterOK host (f <$> players).
Proof. intros Hu Hs Hi. by apply RosterOK_ext; apply fmap_field. Qed.

Lemma activeCount_map (f : PlayerState -> PlayerState) players :
  (forall p, p_Active (f p) = p_Active p) -> activeCount (f <$> players) = activeCount players.
Proof.
  intros Hf. unfold activeCount, countb. cbn. induction players as [|p l IH]; [done|]. cbn.
  rewrite Hf. destruct (p_Active p); cbn; by rewrite IH.
Qed.

(** ** Round one *)
Definition retotal (p : PlayerState) : PlayerState :=
  p <| p_TotalPoints := u8 (u8 (p_RoundOnePoints p + p_RoundTwoPoints p) + p_RoundThreePoints p) |>.

(** The player [settleRoundOne] writes, field by field. *)
Definition afterOne (winners : list string) (p : PlayerState) : PlayerState :=
  let won := bool_decide (p_UserID p ∈ winners) in
  let points := if won then u8 (p_RoundOnePoints p + 1) else p_RoundOnePoints p in
  mkPlayer (p_UserID p) (p_SeatIndex p) (p_Active p) (p_InitialHand p)
    (if plays 1 p then removeCards (p_RemainingHand p) (choice p) else p_RemainingHand p)
    zeroPending (if plays 1 p then choice p else p_RoundOneCards p)
    (p_RoundTwoCards p) (p_RoundThreeCards p) (p_RoundThreeWildcardResolution p)
    points (p_RoundTwoPoints p) (p_RoundThreePoints p)
    (u8 (u8 (points + p_RoundTwoPoints p) + p_RoundThreePoints p))
    (won || p_WonRoundOne p) (p_WonRoundTwo p) (p_WonRoundThree p) (p_FinalWinner p) (p_FinalRank p).

Lemma afterOne_eq winners p : retotal (crowned awardRoundOne winners (oneSettled p)) = afterOne winners p.
Proof.
  unfold afterOne, crowned.
  replace (p_UserID (oneSettled p)) with (p_UserID p) by (unfold oneSettled; by destruct (plays 1 p)).
  unfold oneSettled. destruct (bool_decide _), (plays 1 p); by destruct p.
Qed.

Definition oneWinners (s : State) : list string :=
  (contest compareRoundOne (oneEntry <$> List.filter (plays 1) (Players s))).2.
Definition oneSummary (s : State) : RoundSummary :=
  canonicalRoundSummary
    (mkSummary 1 (oneWinners s)
       (awarded (oneWinners s) <$> (oneReveal <$> List.filter (plays 1) (Players s))) false).
Definition oneState (s : State) (deadline : Z) : State :=
  mkState (SchemaVersion s) PhaseRoundOneResult (CurrentRound s) deadline (u32 (PhaseGeneration s + 1))
    (config s) (HostUserID s) (afterOne (oneWinners s) <$> Players s) (RoundHistory s ++ [oneSummary s])
    (finalSummary s) (FinishReason s).

Definition roundEvents (round : Z) (summary : RoundSummary) (next : State) : list Event :=
  [zeroEvent <| ev_Kind := EventRoundRevealed |> <| ev_Summary := summary |> <| ev_Round := round |>;
   zeroEvent <| ev_Kind := EventRoundSettled |> <| ev_Summary := summary |> <| ev_Round := round |>;
   phaseStarted next].

(** Active players have put a selection down once all have submitted. *)
Lemma submitted_selected s p :
  Inv s -> allActivePlayersSubmitted s = true -> p ∈ Players s -> p_Active p = true ->
  Selected (Phase s) (CurrentRound s) p.
Proof.
  intros H Hall Hp Ha. pose proof (proj1 (Forall_forall _ _) (inv_players _ H) p Hp) as Hok.
  unfold allActivePlayersSubmitted in Hall. apply list_elem_of_In in Hp.
  apply (proj1 (forallb_forall _ _) Hall) in Hp. rewrite Ha in Hp. cbn [andb] in Hp.
  destruct (po_pending _ _ _ Hok) as [Hz|Hs]; [|done]. rewrite Hz in Hp. cbn [zeroPending ps_Round] in Hp.
  to_prop. destruct (inv_round _ H) as [Hr _]. lia.
Qed.

Lemma inactive_pending phase round p :
  PlayerOK phase round p -> p_Active p = false -> p_PendingSelection p = zeroPending.
Proof. intros Hok Ha. destruct (po_pending _ _ _ Hok) as [?|Hs]; [done|]. by rewrite (sel_active _ _ _ Hs) in Ha. Qed.

Lemma hand_nodup host players p : RosterOK host players -> p ∈ players -> NoDup (p_InitialHand p).
Proof.
  intros [_ _ _ Hd _] [i Hi]%list_elem_of_lookup. unfold dealtCards in Hd.
  rewrite <- (take_drop_middle _ _ _ Hi), bind_app in Hd. apply NoDup_app in Hd as (_ & _ & Hd).
  rewrite bind_cons in Hd. by apply NoDup_app in Hd as (? & _).
Qed.

Lemma hand_known host players p : RosterOK host players -> p ∈ players -> Forall known (p_InitialHand p).
Proof.
  intros [_ _ _ _ Hk] Hp. apply Forall_forall. intros c Hc. apply (proj1 (Forall_forall _ _) Hk).
  apply list_elem_of_bind. eauto.
Qed.

Lemma reveals_users (f : PlayerState -> PlayerReveal) (q : PlayerState -> bool) players :
  (forall p, rv_UserID (f p) = p_UserID p) ->
  rv_UserID <$> (f <$> List.filter q players) = p_UserID <$> List.filter q players.
Proof. intros Hf. rewrite <- list_fmap_compose. apply list_fmap_ext. intros i p _. apply Hf. Qed.

Lemma filter_users_nodup q players :
  NoDup (p_UserID <$> players) -> NoDup (p_UserID <$> List.filter q players).
Proof.
  induction players as [|p l IH]; [done|]. cbn. intros [Hp Hn]%NoDup_cons.
  destruct (q p); [|by apply IH]. cbn. constructor; [|by apply IH].
  intros (r & E & [_ Hr]%filter_elem)%list_elem_of_fmap. apply Hp. rewrite E. by apply list_elem_of_fmap_2.
Qed.

Lemma filter_users_sub q players : (p_UserID <$> List.filter q players) ⊆ (p_UserID <$> players).
Proof. intros u (p & -> & [_ Hp]%filter_elem)%list_elem_of_fmap. by apply list_elem_of_fmap_2. Qed.

Lemma remaining_nodup phase round p :
  PlayerOK phase round p -> NoDup (p_InitialHand p) -> NoDup (p_RemainingHand p).
Proof.
  intros Hok Hn. pose proof (allocation_nodup _ _ _ Hok Hn) as H. unfold allocation in H.
  by apply NoDup_app in H as (? & _).
Qed.

(** Putting a selection down moves its cards out of the hand. *)
Lemma put_down phase round p :
  Selected phase round p -> choice p ++ removeCards (p_RemainingHand p) (choice p) ≡ₚ p_RemainingHand p.
Proof. intros Hs. apply removeCards_perm; [apply (sel_nodup _ _ _ Hs)|apply (sel_hand _ _ _ Hs)]. Qed.

Lemma selected_plays phase round p : Selected phase round p -> plays round p = true.
Proof.
  intros Hs. unfold plays. rewrite (sel_active _ _ _ Hs), (sel_round _ _ _ Hs), Z.eqb_refl. done.
Qed.

Lemma inactive_plays round p : p_Active p = false -> plays round p = false.
Proof. intros Ha. unfold plays. by rewrite Ha. Qed.

Lemma total_small a b c :
  u8 (u8 (boolToUint8 a + boolToUint8 b) + boolToUint8 c) = boolToUint8 a + boolToUint8 b + boolToUint8 c.
Proof. destruct a, b, c; reflexivity. Qed.

Lemma afterOne_ok winners p :
  PlayerOK PhaseRoundOneSelecting 1 p ->
  (p_Active p = true -> Selected PhaseRoundOneSelecting 1 p) ->
  PlayerOK PhaseRoundOneResult 1 (afterOne winners p).
Proof.
  intros Hok Hsel. destruct (po_points _ _ _ Hok) as (P1 & P2 & P3).
  destruct (po_wins _ _ _ Hok) as (W1 & W2 & W3). specialize (W1 ltac:(done)).
  assert (Hpts : (if bool_decide (p_UserID p ∈ winners) then u8 (p_RoundOnePoints p + 1) else p_RoundOnePoints p)
                 = boolToUint8 (bool_decide (p_UserID p ∈ winners) || p_WonRoundOne p)).
  { rewrite P1, W1. by destruct (bool_decide _). }
  split; cbn [afterOne p_UserID p_InitialHand p_Active p_RoundOneCards p_RoundTwoCards p_RoundThreeCards
    p_PendingSelection p_RoundOnePoints p_RoundTwoPoints p_RoundThreePoints p_TotalPoints p_WonRoundOne
    p_WonRoundTwo p_WonRoundThree].
  - apply (po_user _ _ _ Hok).
  - apply (po_hand _ _ _ Hok).
  - rewrite <- (po_cards _ _ _ Hok). unfold allocation, afterOne. cbn.
    destruct (p_Active p) eqn:Ha; [|by rewrite inactive_plays].
    specialize (Hsel eq_refl). rewrite (selected_plays _ _ _ Hsel).
    destruct (po_shape _ _ _ Hok Ha ltac:(done)) as (S1 & _ & _).
    apply length_zero_iff_nil in S1. rewrite S1. cbn [app].
    etrans; [|apply Permutation_app_tail, (put_down _ _ _ Hsel)].
    rewrite (Permutation_app_comm (choice p) (removeCards _ _)). by rewrite <- app_assoc.
  - intros Ha _. specialize (Hsel Ha). rewrite (selected_plays _ _ _ Hsel).
    destruct (po_shape _ _ _ Hok Ha ltac:(done)) as (_ & S2 & S3).
    split_and!; [apply (sel_size _ _ _ Hsel)|done|done].
  - by left.
  - split_and!; [|done|done]. exact Hpts.
  - rewrite Hpts, P2, P3. apply total_small.
  - split_and!; [done|intros _; by apply W2|intros _; by apply W3].
Qed.

Lemma u32_next s : Inv s -> Phase s <> PhaseFinished -> u32 (PhaseGeneration s + 1) = Phase s.
Proof.
  intros H Hph. destruct (inv_generation _ H) as [Hg Hg']. rewrite (Hg' Hph). rewrite u32_small; [lia|].
  unfold is_u32, maxUint32. pose proof (inv_phase _ H). unfold PhaseRoundOneSelecting, PhaseFinished in *. lia.
Qed.

Lemma history_next (s : State) (summary : RoundSummary) n :
  Inv s -> Phase s <> PhaseFinished -> settledRounds (Phase s) = n -> (n < 3)%nat ->
  sm_Round summary = Z.of_nat n + 1 ->
  sm_Round <$> (RoundHistory s ++ [summary]) = take (S n) [1; 2; 3].
Proof.
  intros H Hph Hn Hlt Hr. destruct (inv_history _ H) as (k & _ & Hk & Hk'). rewrite fmap_app, Hk, (Hk' Hph), Hn.
  cbn [fmap list_fmap]. rewrite Hr. destruct n as [|[|[|]]]; [done..|lia].
Qed.

Lemma Forall_map {A} (f : A -> A) (P Q : A -> Prop) (l : list A) :
  Forall P l -> (forall x, x ∈ l -> P x -> Q (f x)) -> Forall Q (f <$> l).
Proof.
  intros HP Hf. apply Forall_fmap, Forall_forall. intros x Hx. apply Hf; [done|]. by eapply Forall_forall.
Qed.

(** The fields a settlement leaves alone. *)
Lemma afterOne_roster winners host players :
  RosterOK host players -> RosterOK host (afterOne winners <$> players).
Proof. by apply RosterOK_map. Qed.

(** Entering the next phase. *)
Lemma Inv_next s phase now deadline players history final :
  Inv s -> Phase s <> PhaseFinished -> phase = Phase s + 1 -> phase < PhaseFinished ->
  deadlineForPhase now phase (config s) = Ok deadline ->
  RosterOK (HostUserID s) players -> length players = length (Players s) ->
  Forall (PlayerOK phase (roundOf phase)) players -> activeCount players = activeCount (Players s) ->
  sm_Round <$> history = take (settledRounds phase) [1; 2; 3] ->
  (phase < PhaseFinalResult -> final = zeroFinal) -> NoDup (fs_UserID <$> f_Standings final) ->
  Inv (mkState (SchemaVersion s) phase (roundOf phase) deadline (u32 (PhaseGeneration s + 1)) (config s)
         (HostUserID s) players history final (FinishReason s)).
Proof.
  intros H Hnf Hph Hlt Hdl Hro Hlen HF Hac Hhist Hfin Hst. pose proof (inv_phase _ H) as Hb.
  assert (Hne : (phase =? PhaseFinished) = false) by lia.
  split; cbn [SchemaVersion Phase CurrentRound PhaseDeadlineUnixMillis PhaseGeneration config HostUserID Players
              RoundHistory finalSummary FinishReason]; try done.
  - apply (inv_schema _ H).
  - rewrite Hlen. apply (inv_config _ H).
  - lia.
  - split; [|done]. unfold roundOf. repeat case_match; lia.
  - rewrite (u32_next s H Hnf). unfold PhaseRoundOneSelecting, PhaseFinished in *. lia.
  - rewrite Hne. eapply deadlineForPhase_Ok; [apply (inv_config _ H)|lia|done].
  - intros _. rewrite Hac. by apply (inv_active _ H).
  - exists (settledRounds phase). split_and!; [|done|done]. unfold settledRounds. repeat case_match; lia.
  - rewrite Hne. pose proof (inv_reason _ H) as Hre.
    by rewrite (proj2 (Z.eqb_neq (Phase s) PhaseFinished) Hnf) in Hre.
Qed.

Lemma round_of_phase s : Inv s -> Phase s <> PhaseFinished -> CurrentRound s = roundOf (Phase s).
Proof. intros H. apply (inv_round _ H). Qed.

Lemma oneState_Inv s now deadline :
  Inv s -> Phase s = PhaseRoundOneSelecting -> allActivePlayersSubmitted s = true ->
  deadlineForPhase now PhaseRoundOneResult (config s) = Ok deadline -> Inv (oneState s deadline).
Proof.
  intros H Hph Hall Hd. assert (Hnf : Phase s <> PhaseFinished) by (by rewrite Hph).
  pose proof (round_of_phase s H Hnf) as Hr. rewrite Hph in Hr.
  unfold oneState. rewrite Hr. change (roundOf PhaseRoundOneSelecting) with (roundOf PhaseRoundOneResult).
  eapply Inv_next; [done|done|by rewrite Hph|done|done|apply afterOne_roster, H|by rewrite length_fmap| | | | |apply H].
  - eapply Forall_map; [apply (inv_players _ H)|]. intros p Hp Hok. rewrite Hph, Hr in Hok.
    apply afterOne_ok; [done|]. intros Ha. pose proof (submitted_selected s p H Hall Hp Ha) as Hs.
    by rewrite Hph, Hr in Hs.
  - by apply activeCount_map.
  - apply (history_next s _ 0 H Hnf); [by rewrite Hph|lia|done].
  - intros _. apply (inv_final _ H). by rewrite Hph.
Qed.

Lemma settleRoundOne_eq s now :
  Inv s -> Phase s = PhaseRoundOneSelecting -> allActivePlayersSubmitted s = true ->
  settleRoundOne s now =
  let* deadline := deadlineForPhase now PhaseRoundOneResult (config s) in
  Ok (oneState s deadline, roundEvents 1 (oneSummary s) (oneState s deadline)).
Proof.
  intros H Hph Hall. unfold settleRoundOne. rewrite CloneT_id.
  assert (Hr : CurrentRound s = 1).
  { destruct (inv_round _ H) as [_ Hr]. rewrite Hph in Hr. by apply Hr. }
  rewrite roundOneLoop_spec.
  2: { intros p Hp Hpl. unfold plays in Hpl. apply andb_true_iff in Hpl as [Ha _].
       pose proof (submitted_selected s p H Hall Hp Ha) as Hs. rewrite Hr in Hs.
       pose proof (sel_size _ _ _ Hs) as Hl. by destruct (choice p). }
  cbn [bind_result]. fold (contest compareRoundOne (oneEntry <$> List.filter (plays 1) (Players s))).
  fold (oneWinners s). pose proof (ro_users _ _ (inv_roster _ H)) as Hu.
  rewrite (awardLoop_spec awardRoundOne); [|done|..].
  2: { rewrite reveals_users by done. by apply filter_users_nodup. }
  2: { rewrite fmap_field; [done|]. intros p. unfold oneSettled. by destruct (plays 1 p). }
  2: { rewrite reveals_users by done. rewrite fmap_field by (intros p; unfold oneSettled; by destruct (plays 1 p)).
       apply filter_users_sub. }
  2: { rewrite reveals_users by done. unfold oneWinners. etransitivity; [apply contest_sub, _|].
       rewrite <- list_fmap_compose. done. }
  cbn [bind_result].
  assert (Hplayers : reapplyFinalTotals (crowned awardRoundOne (oneWinners s) <$> (oneSettled <$> Players s))
                     = afterOne (oneWinners s) <$> Players s).
  { unfold reapplyFinalTotals. rewrite <- !list_fmap_compose. apply list_fmap_ext. intros i p _. apply afterOne_eq. }
  rewrite Hplayers. fold (oneSummary s).
  change (Phase (update _ _ (update Phase _ _))) with PhaseRoundOneResult.
  change (config (update _ _ _)) with (config s).
  destruct (deadlineForPhase now PhaseRoundOneResult (config s)) as [deadline|] eqn:Ed; [|done].
  cbn [bind_result]. unfold validated.
  match goal with |- context [Validate ?x] => change x with (oneState s deadline) end.
  by rewrite (Inv_Validate _ (oneState_Inv s now deadline H Hph Hall Ed)).
Qed.

(** ** Round two *)
Definition afterTwo (winners : list string) (p : PlayerState) : PlayerState :=
  let won := bool_decide (p_UserID p ∈ winners) in
  let points := if won then u8 (p_RoundTwoPoints p + 1) else p_RoundTwoPoints p in
  mkPlayer (p_UserID p) (p_SeatIndex p) (p_Active p) (p_InitialHand p)
    (if plays 2 p then removeCards (p_RemainingHand p) (choice p) else p_RemainingHand p)
    zeroPending (p_RoundOneCards p) (if plays 2 p then choice p else p_RoundTwoCards p)
    (p_RoundThreeCards p) (p_RoundThreeWildcardResolution p)
    (p_RoundOnePoints p) points (p_RoundThreePoints p)
    (u8 (u8 (p_RoundOnePoints p + points) + p_RoundThreePoints p))
    (p_WonRoundOne p) (won || p_WonRoundTwo p) (p_WonRoundThree p) (p_FinalWinner p) (p_FinalRank p).

Lemma afterTwo_eq winners p : retotal (crowned awardRoundTwo winners (twoSettled p)) = afterTwo winners p.
Proof.
  unfold afterTwo, crowned.
  replace (p_UserID (twoSettled p)) with (p_UserID p) by (unfold twoSettled; by destruct (plays 2 p)).
  unfold twoSettled. destruct (bool_decide _), (plays 2 p); by destruct p.
Qed.

Definition twoWinners (s : State) : list string :=
  (contest compareRoundTwo (twoEntry <$> standing (Players s))).2.
Definition twoSummary (s : State) : RoundSummary :=
  canonicalRoundSummary
    (mkSummary 2 (twoWinners s)
       (awarded (twoWinners s) <$> (twoReveal <$> List.filter (plays 2) (Players s)))
       (forallb twoBusted (List.filter (plays 2) (Players s)))).
Definition twoState (s : State) (deadline : Z) : State :=
  mkState (SchemaVersion s) PhaseRoundTwoResult (CurrentRound s) deadline (u32 (PhaseGeneration s + 1))
    (config s) (HostUserID s) (afterTwo (twoWinners s) <$> Players s) (RoundHistory s ++ [twoSummary s])
    (finalSummary s) (FinishReason s).

Lemma afterTwo_ok winners p :
  PlayerOK PhaseRoundTwoSelecting 2 p ->
  (p_Active p = true -> Selected PhaseRoundTwoSelecting 2 p) ->
  PlayerOK PhaseRoundTwoResult 2 (afterTwo winners p).
Proof.
  intros Hok Hsel. destruct (po_points _ _ _ Hok) as (P1 & P2 & P3).
  destruct (po_wins _ _ _ Hok) as (W1 & W2 & W3). specialize (W2 ltac:(done)).
  assert (Hpts : (if bool_decide (p_UserID p ∈ winners) then u8 (p_RoundTwoPoints p + 1) else p_RoundTwoPoints p)
                 = boolToUint8 (bool_decide (p_UserID p ∈ winners) || p_WonRoundTwo p)).
  { rewrite P2, W2. by destruct (bool_decide _). }
  split; cbn [afterTwo p_UserID p_InitialHand p_Active p_RoundOneCards p_RoundTwoCards p_RoundThreeCards
    p_PendingSelection p_RoundOnePoints p_RoundTwoPoints p_RoundThreePoints p_TotalPoints p_WonRoundOne
    p_WonRoundTwo p_WonRoundThree].
  - apply (po_user _ _ _ Hok).
  - apply (po_hand _ _ _ Hok).
  - rewrite <- (po_cards _ _ _ Hok). unfold allocation, afterTwo. cbn.
    destruct (p_Active p) eqn:Ha; [|by rewrite inactive_plays].
    specialize (Hsel eq_refl). rewrite (selected_plays _ _ _ Hsel).
    destruct (po_shape _ _ _ Hok Ha ltac:(done)) as (_ & S2 & _).
    apply length_zero_iff_nil in S2. rewrite S2. cbn [app].
    etrans; [|apply Permutation_app_tail, (put_down _ _ _ Hsel)].
    rewrite (Permutation_app_comm (choice p) (removeCards _ _)), <- app_assoc. f_equiv.
    rewrite !app_assoc. f_equiv. apply Permutation_app_comm.
  - intros Ha _. specialize (Hsel Ha). rewrite (selected_plays _ _ _ Hsel).
    destruct (po_shape _ _ _ Hok Ha ltac:(done)) as (S1 & _ & S3).
    split_and!; [done|apply (sel_size _ _ _ Hsel)|done].
  - by left.
  - split_and!; [done| |done]. exact Hpts.
  - rewrite Hpts, P1, P3. apply total_small.
  - split_and!; [done|done|intros _; by apply W3].
Qed.

Lemma afterTwo_roster winners host players :
  RosterOK host players -> RosterOK host (afterTwo winners <$> players).
Proof. by apply RosterOK_map. Qed.

Lemma twoState_Inv s now deadline :
  Inv s -> Phase s = PhaseRoundTwoSelecting -> allActivePlayersSubmitted s = true ->
  deadlineForPhase now PhaseRoundTwoResult (config s) = Ok deadline -> Inv (twoState s deadline).
Proof.
  intros H Hph Hall Hd. assert (Hnf : Phase s <> PhaseFinished) by (by rewrite Hph).
  pose proof (round_of_phase s H Hnf) as Hr. rewrite Hph in Hr.
  unfold twoState. rewrite Hr. change (roundOf PhaseRoundTwoSelecting) with (roundOf PhaseRoundTwoResult).
  eapply Inv_next; [done|done|by rewrite Hph|done|done|apply afterTwo_roster, H|by rewrite length_fmap| | | | |apply H].
  - eapply Forall_map; [apply (inv_players _ H)|]. intros p Hp Hok. rewrite Hph, Hr in Hok.
    apply afterTwo_ok; [done|]. intros Ha. pose proof (submitted_selected s p H Hall Hp Ha) as Hs.
    by rewrite Hph, Hr in Hs.
  - by apply activeCount_map.
  - apply (history_next s _ 1 H Hnf); [by rewrite Hph|lia|done].
  - intros _. apply (inv_final _ H). by rewrite Hph.
Qed.

Lemma standing_sub players : (p_UserID <$> standing players) ⊆ (p_UserID <$> List.filter (plays 2) players).
Proof.
  intros u (p & -> & [_ Hp]%filter_elem)%list_elem_of_fmap. by apply list_elem_of_fmap_2.
Qed.

Lemma settleRoundTwo_eq s now :
  Inv s -> Phase s = PhaseRoundTwoSelecting -> allActivePlayersSubmitted s = true ->
  settleRoundTwo s now =
  let* deadline := deadlineForPhase now PhaseRoundTwoResult (config s) in
  Ok (twoState s deadline, roundEvents 2 (twoSummary s) (twoState s deadline)).
Proof.
  intros H Hph Hall. unfold settleRoundTwo. rewrite CloneT_id.
  assert (Hr : CurrentRound s = 2).
  { destruct (inv_round _ H) as [_ Hr]. rewrite Hph in Hr. by apply Hr. }
  rewrite roundTwoLoop_spec.
  2: { intros p Hp Hpl. unfold plays in Hpl. apply andb_true_iff in Hpl as [Ha _].
       pose proof (submitted_selected s p H Hall Hp Ha) as Hs. rewrite Hr in Hs.
       apply (sel_size _ _ _ Hs). }
  cbn [bind_result andb]. fold (contest compareRoundTwo (twoEntry <$> standing (Players s))).
  fold (twoWinners s). pose proof (ro_users _ _ (inv_roster _ H)) as Hu.
  assert (Hts : forall p, p_UserID (twoSettled p) = p_UserID p)
    by (intros p; unfold twoSettled; by destruct (plays 2 p)).
  rewrite (awardLoop_spec awardRoundTwo); [|done|..].
  2: { rewrite reveals_users by done. by apply filter_users_nodup. }
  2: { by rewrite fmap_field. }
  2: { rewrite reveals_users by done. rewrite fmap_field by done. apply filter_users_sub. }
  2: { rewrite reveals_users by done. unfold twoWinners. etransitivity; [apply contest_sub, _|].
       rewrite <- list_fmap_compose. apply standing_sub. }
  cbn [bind_result].
  assert (Hplayers : reapplyFinalTotals (crowned awardRoundTwo (twoWinners s) <$> (twoSettled <$> Players s))
                     = afterTwo (twoWinners s) <$> Players s).
  { unfold reapplyFinalTotals. rewrite <- !list_fmap_compose. apply list_fmap_ext. intros i p _. apply afterTwo_eq. }
  rewrite Hplayers. fold (twoSummary s).
  change (Phase (update _ _ (update Phase _ _))) with PhaseRoundTwoResult.
  change (config (update _ _ _)) with (config s).
  destruct (deadlineForPhase now PhaseRoundTwoResult (config s)) as [deadline|] eqn:Ed; [|done].
  cbn [bind_result]. unfold validated.
  match goal with |- context [Validate ?x] => change x with (twoState s deadline) end.
  by rewrite (Inv_Validate _ (twoState_Inv s now deadline H Hph Hall Ed)).
Qed.
End ThreeRoundsFacts.
