(* ===== verification/ThreeStandings.v ===== *)
(** * Three rounds: the final ranking

    [computeFinalSummary] against competition ranking: a player's rank is one
    more than the number of active players with a strictly better result, and
    the winners are the active players nobody beats. *)

From S2P Require Import Prelude Roster ThreeCards ThreeHands ThreeHandsFacts ThreeRounds ThreeSettle.

Module ThreeStandings.
Import Roster ThreeCards ThreeHands ThreeHandsFacts ThreeRounds ThreeSettle.

(** ** Order of standings *)
#[global] Instance compareStandingKey_order : CmpOrder compareStandingKey.
Proof.
  apply cmp_lex; [apply cmp_on, _|].
  apply cmp_lex; [apply (cmp_on (fun x => boolToUint8 (fs_WonRoundThree x)) Compare _)|].
  apply cmp_lex; [apply (cmp_on (fun x => boolToUint8 (fs_WonRoundTwo x)) Compare _)
                 |apply (cmp_on (fun x => boolToUint8 (fs_WonRoundOne x)) Compare _)].
Qed.

(** The sort compares the keys the other way round, then the seats. *)
Lemma compareStanding_key x y :
  compareStanding x y = orElse (compareStandingKey y x) (Compare (fs_SeatIndex x) (fs_SeatIndex y)).
Proof. unfold compareStanding, compareStandingKey. by rewrite !orElse_assoc. Qed.

#[global] Instance compareStanding_order : CmpOrder compareStanding.
Proof.
  eapply cmp_ext; [apply compareStanding_key|].
  apply cmp_lex; [apply cmp_reverse, _|apply cmp_on, _].
Qed.

#[local] Instance standing_le_trans : Transitive standing_le.
Proof. intros x y z. apply (cmp_trans (cmp := compareStanding)). Qed.
#[local] Instance standing_le_total : Total standing_le.
Proof.
  intros x y. unfold standing_le. pose proof (cmp_flip (cmp := compareStanding) x y). lia.
Qed.

Lemma standing_le_key x y : standing_le x y -> compareStandingKey y x <= 0.
Proof. unfold standing_le. rewrite compareStanding_key, orElse_le. lia. Qed.

(** ** Ranks *)

(** [x] has a strictly better result than [y]. *)
Definition better (y x : FinalStanding) : bool := 0 <? compareStandingKey x y.

Lemma better_key y x x' : compareStandingKey x x' = 0 -> better y x = better y x'.
Proof.
  intros E. unfold better. pose proof (cmp_flip (cmp := compareStandingKey) x x').
  pose proof (cmp_flip (cmp := compareStandingKey) y x). pose proof (cmp_flip (cmp := compareStandingKey) y x').
  destruct (Z.ltb_spec 0 (compareStandingKey x y)) as [L1|L1], (Z.ltb_spec 0 (compareStandingKey x' y)) as [L2|L2]; try done.
  - pose proof (cmp_lt_trans compareStandingKey y x x' ltac:(lia) ltac:(lia)). lia.
  - pose proof (cmp_lt_trans compareStandingKey y x' x ltac:(lia) ltac:(lia)). lia.
Qed.

Lemma better_key_l y y' x : compareStandingKey y y' = 0 -> better y x = better y' x.
Proof.
  intros E. unfold better. pose proof (cmp_flip (cmp := compareStandingKey) y y').
  pose proof (cmp_flip (cmp := compareStandingKey) y x). pose proof (cmp_flip (cmp := compareStandingKey) y' x).
  destruct (Z.ltb_spec 0 (compareStandingKey x y)) as [L1|L1], (Z.ltb_spec 0 (compareStandingKey x y')) as [L2|L2]; try done.
  - pose proof (cmp_lt_trans' compareStandingKey y' y x ltac:(lia) ltac:(lia)). lia.
  - pose proof (cmp_lt_trans' compareStandingKey y y' x ltac:(lia) ltac:(lia)). lia.
Qed.

Lemma countb_all {A} (p : A -> bool) l : (forall x, x ∈ l -> p x = true) -> countb p l = length l.
Proof.
  unfold countb. induction l as [|x l IH]; intros H; [done|]. cbn. rewrite H by constructor.
  cbn. rewrite IH; [done|]. intros y Hy. apply H. by constructor.
Qed.

Lemma countb_none {A} (p : A -> bool) l : (forall x, x ∈ l -> p x = false) -> countb p l = 0%nat.
Proof. intros H. unfold countb. by rewrite filter_none. Qed.

Lemma countb_ext {A} (p q : A -> bool) l : (forall x, x ∈ l -> p x = q x) -> countb p l = countb q l.
Proof.
  unfold countb. induction l as [|x l IH]; intros H; [done|]. cbn. rewrite H by constructor.
  destruct (q x); cbn; rewrite IH; try done; intros y Hy; apply H; by constructor.
Qed.

(** Competition rank: one more than the number of better results. *)
Definition rankIn (l : list FinalStanding) (y : FinalStanding) : Z := 1 + Z.of_nat (countb (better y) l).

Lemma rankLoop_ranks pre prev rest position lastDistinct :
  StronglySorted standing_le (pre ++ prev :: rest) ->
  Z.of_nat (length (pre ++ prev :: rest)) <= maxUint32 ->
  position = Z.of_nat (length pre) + 1 -> lastDistinct = rankIn (pre ++ [prev]) prev ->
  rankLoop position lastDistinct prev rest
  = (fun x => x <| fs_Rank := rankIn (pre ++ prev :: rest) x |>) <$> rest.
Proof.
  revert pre prev position lastDistinct.
  induction rest as [|x rest IH]; intros pre prev position lastDistinct Hs Hlen Hpos Hlast; [done|].
  cbn [rankLoop fmap list_fmap].
  assert (Hu : u32 (position + 1) = Z.of_nat (length (pre ++ [prev])) + 1).
  { rewrite !length_app in *. cbn in *. rewrite u32_small; unfold is_u32; lia. }
  assert (Happ : pre ++ prev :: x :: rest = (pre ++ [prev]) ++ x :: rest) by (by rewrite <- app_assoc).
  rewrite Happ in *.
  assert (Hbefore : forall l1 l2 a b, StronglySorted standing_le (l1 ++ l2) -> a ∈ l1 -> b ∈ l2 -> standing_le a b)
    by (intros; by eapply StronglySorted_app_1_elem_of).
  assert (Hle : forall y, y ∈ pre ++ [prev] -> compareStandingKey x y <= 0).
  { intros y Hy. apply standing_le_key. eapply Hbefore; [exact Hs|done|constructor]. }
  assert (Hafter : forall y, y ∈ x :: rest -> better x y = false).
  { intros y Hy. unfold better. apply Z.ltb_ge. apply elem_of_cons in Hy as [->|Hy].
    - by rewrite (cmp_refl compareStandingKey).
    - apply standing_le_key. apply StronglySorted_app_1_r in Hs. apply StronglySorted_inv in Hs as [_ Hs].
      by eapply Forall_forall in Hs. }
  assert (Hrank : forall tail, (forall y, y ∈ tail -> better x y = false) ->
            (if negb (compareStandingKey x prev =? 0) then u32 (position + 1) else lastDistinct)
            = rankIn ((pre ++ [prev]) ++ tail) x).
  { intros tail Ht. unfold rankIn. rewrite countb_app, (countb_none _ tail Ht), Nat.add_0_r.
    destruct (Z.eqb_spec (compareStandingKey x prev) 0) as [E|E]; cbn [negb].
    - rewrite Hlast. unfold rankIn. f_equal. f_equal. apply countb_ext. intros y Hy.
      apply better_key_l. rewrite (cmp_flip (cmp := compareStandingKey) x prev). lia.
    - rewrite Hu, countb_all; [lia|]. intros y Hy. unfold better. apply Z.ltb_lt.
      assert (Hxp : compareStandingKey x prev < 0) by (pose proof (Hle prev ltac:(apply elem_of_app; right; constructor)); lia).
      assert (Hpy : compareStandingKey prev y <= 0).
      { apply elem_of_app in Hy as [Hy| ->%list_elem_of_singleton]; [|by rewrite (cmp_refl compareStandingKey)].
        apply standing_le_key. rewrite <- app_assoc in Hs. eapply Hbefore; [exact Hs|done|constructor]. }
      pose proof (cmp_lt_trans compareStandingKey x prev y Hxp Hpy).
      pose proof (cmp_flip (cmp := compareStandingKey) x y). lia. }
  f_equal.
  - rewrite (Hrank (x :: rest) Hafter). done.
  - rewrite (Hrank [x]).
    + by apply IH.
    + intros y ->%list_elem_of_singleton. apply Hafter. constructor.
Qed.

(** ** The summary *)

(** The active players' results, in the order of the sort. *)
Definition ordered (players : list PlayerState) : list FinalStanding :=
  merge_sort standing_le (standingOf <$> List.filter p_Active players).

Lemma ordered_perm players : ordered players ≡ₚ standingOf <$> List.filter p_Active players.
Proof. apply merge_sort_Permutation. Qed.

Lemma ordered_sorted players : StronglySorted standing_le (ordered players).
Proof. apply StronglySorted_merge_sort; apply _. Qed.

(** Nobody in [l] has a better result. *)
Definition unbeaten (l : list FinalStanding) (x : FinalStanding) : bool := forallb (fun y => negb (better x y)) l.

(** A result with its rank and winner flag. *)
Definition placed (l : list FinalStanding) (x : FinalStanding) : FinalStanding :=
  x <| fs_Winner := unbeaten l x |> <| fs_Rank := rankIn l x |>.

(** The first of the sorted results is unbeaten, and the unbeaten ones are
    those with its key. *)
Lemma unbeaten_first x rest y :
  StronglySorted standing_le (x :: rest) -> y ∈ x :: rest ->
  (compareStandingKey y x =? 0) = unbeaten (x :: rest) y.
Proof.
  intros Hs Hy. apply StronglySorted_inv in Hs as [_ Hx].
  assert (Hle : forall z, z ∈ x :: rest -> compareStandingKey z x <= 0).
  { intros z [->|Hz]%elem_of_cons; [by rewrite (cmp_refl compareStandingKey)|].
    apply standing_le_key. by eapply Forall_forall in Hx. }
  apply eq_true_iff_eq. unfold unbeaten. rewrite forallb_forall, Z.eqb_eq. split.
  - intros E z Hz%list_elem_of_In. unfold better. apply negb_true_iff, Z.ltb_ge.
    apply (cmp_trans (cmp := compareStandingKey) z x y); [by apply Hle|].
    rewrite (cmp_flip (cmp := compareStandingKey) y x). lia.
  - intros H. specialize (H x ltac:(by left)). unfold better in H. apply negb_true_iff, Z.ltb_ge in H.
    pose proof (Hle y Hy). pose proof (cmp_flip (cmp := compareStandingKey) x y). lia.
Qed.

Lemma rankIn_first x rest : StronglySorted standing_le (x :: rest) -> rankIn (x :: rest) x = 1.
Proof.
  intros Hs. unfold rankIn. rewrite countb_none; [done|]. intros y [->|Hy]%elem_of_cons; unfold better; apply Z.ltb_ge.
  - by rewrite (cmp_refl compareStandingKey).
  - apply StronglySorted_inv in Hs as [_ Hs]. apply standing_le_key. by eapply Forall_forall in Hs.
Qed.

Lemma ordered_elem players y :
  y ∈ ordered players <-> exists p, p ∈ players /\ p_Active p = true /\ y = standingOf p.
Proof.
  rewrite (ordered_perm players), list_elem_of_fmap. split.
  - intros (p & -> & [Ha Hp]%filter_elem). eauto.
  - intros (p & Hp & Ha & ->). exists p. split; [done|]. by apply filter_elem.
Qed.

Lemma ordered_fresh players y : y ∈ ordered players -> fs_Winner y = false.
Proof. by intros (p & _ & _ & ->)%ordered_elem. Qed.

Lemma filter_fmap_b {A B} (f : A -> B) (p : B -> bool) (l : list A) :
  List.filter p (f <$> l) = f <$> List.filter (fun x => p (f x)) l.
Proof. induction l as [|x l IH]; [done|]. cbn. destruct (p (f x)); cbn; by rewrite IH. Qed.

Lemma computeFinalSummary_eq players :
  (length players <= 9)%nat ->
  computeFinalSummary players =
  mkFinal (placed (ordered players) <$> ordered players)
          (sortStrings (fs_UserID <$> List.filter (unbeaten (ordered players)) (ordered players))).
Proof.
  intros Hlen. unfold computeFinalSummary. fold (ordered players).
  pose proof (ordered_sorted players) as Hs. pose proof (ordered_fresh players) as Hfresh.
  assert (Hl : (length (ordered players) <= 9)%nat).
  { rewrite (Permutation_length (ordered_perm players)), length_fmap.
    pose proof (countb_le p_Active players). unfold countb in *. lia. }
  destruct (ordered players) as [|x rest]; [done|].
  assert (Hranks : x <| fs_Rank := 1 |> :: rankLoop 1 1 x rest
                   = (fun y => y <| fs_Rank := rankIn (x :: rest) y |>) <$> (x :: rest)).
  { cbn [fmap list_fmap]. rewrite (rankIn_first x rest Hs). f_equal.
    apply (rankLoop_ranks [] x rest 1 1 Hs); [unfold maxUint32; cbn [app]; lia|done|].
    unfold rankIn. cbn. unfold countb. cbn. unfold better. by rewrite (cmp_refl compareStandingKey). }
  rewrite Hranks.
  assert (Hkey : forall y k, compareStandingKey (y <| fs_Rank := k |>) x = compareStandingKey y x) by done.
  f_equal.
  - rewrite <- list_fmap_compose. apply list_fmap_ext. intros i y Hi. cbn [compose].
    apply list_elem_of_lookup_2 in Hi. rewrite Hkey, (unbeaten_first x rest y Hs Hi).
    pose proof (Hfresh y Hi) as Hf. unfold placed. destruct (unbeaten (x :: rest) y); [done|].
    destruct y. cbn in Hf. by rewrite Hf.
  - f_equal. rewrite filter_fmap_b, <- list_fmap_compose.
    rewrite (List.filter_ext_in _ (unbeaten (x :: rest))).
    + by apply list_fmap_ext.
    + intros y Hy%list_elem_of_In. rewrite Hkey. by apply unbeaten_first.
Qed.

Lemma final_users players :
  (length players <= 9)%nat ->
  fs_UserID <$> f_Standings (computeFinalSummary players) ≡ₚ p_UserID <$> List.filter p_Active players.
Proof.
  intros Hlen. rewrite computeFinalSummary_eq by done. cbn [f_Standings].
  assert (fs_UserID <$> (placed (ordered players) <$> ordered players) = fs_UserID <$> ordered players) as ->.
  { rewrite <- list_fmap_compose. by apply list_fmap_ext. }
  rewrite (ordered_perm players), <- list_fmap_compose. done.
Qed.

(** ** Decorations *)

(** The decoration the standings give a player. *)
Definition decorated (standings : list FinalStanding) (p : PlayerState) : PlayerState :=
  match List.find (fun x => String.eqb (fs_UserID x) (p_UserID p)) standings with
  | Some x => p <| p_FinalWinner := fs_Winner x |> <| p_FinalRank := fs_Rank x |>
  | None => p <| p_FinalWinner := false |> <| p_FinalRank := 0 |>
  end.

Lemma find_app_b {A} (q : A -> bool) l l' :
  List.find q (l ++ l') = match List.find q l with Some x => Some x | None => List.find q l' end.
Proof. induction l as [|x l IH]; [done|]. cbn. destruct (q x); [done|exact IH]. Qed.

Lemma decorated_user standings p : p_UserID (decorated standings p) = p_UserID p.
Proof. unfold decorated. by destruct (List.find _ _). Qed.

Lemma find_none_user u (standings : list FinalStanding) :
  u ∉ fs_UserID <$> standings -> List.find (fun x => String.eqb (fs_UserID x) u) standings = None.
Proof.
  induction standings as [|x l IH]; [done|]. cbn. rewrite not_elem_of_cons. intros [Hne Hu].
  rewrite (proj2 (eqb_string_false _ _)) by congruence. by apply IH.
Qed.

Lemma decorate_all players standings :
  NoDup (p_UserID <$> players) -> NoDup (fs_UserID <$> standings) ->
  foldl decorate (clearFinalDecorations players) standings = decorated standings <$> players.
Proof.
  intros Hp. induction standings as [|x standings IH] using rev_ind; intros Hs.
  { cbn. unfold clearFinalDecorations. by apply list_fmap_ext. }
  rewrite fmap_app in Hs. apply NoDup_app in Hs as (Hs & Hx & _).
  assert (Hnew : fs_UserID x ∉ fs_UserID <$> standings) by (intros Hin; apply (Hx _ Hin); constructor).
  rewrite foldl_app, (IH Hs). cbn [foldl]. unfold decorate.
  assert (Hother : forall p, p_UserID p <> fs_UserID x -> decorated (standings ++ [x]) p = decorated standings p).
  { intros p Hne. unfold decorated. rewrite find_app_b. destruct (List.find _ standings); [done|].
    cbn. by rewrite (proj2 (eqb_string_false _ _)) by congruence. }
  assert (Husers : p_UserID <$> (decorated standings <$> players) = p_UserID <$> players).
  { rewrite <- list_fmap_compose. apply list_fmap_ext. intros i p _. apply decorated_user. }
  destruct (playerIndex (decorated standings <$> players) (fs_UserID x)) as [i|] eqn:E.
  - apply playerIndex_Some in E as (q & Hq & Hu & ->). cbn in Hu.
    rewrite list_lookup_fmap in Hq. destruct (players !! i) as [p|] eqn:Hi; [|done]. injection Hq as <-.
    rewrite decorated_user in Hu.
    apply list_eq. intros k. rewrite !list_lookup_fmap. destruct (decide (k = i)) as [->|Hk].
    + rewrite list_lookup_insert_eq by (rewrite length_fmap; by eapply lookup_lt_Some). rewrite Hi. cbn [fmap option_fmap option_map].
      f_equal. unfold decorated. rewrite find_app_b, !find_none_user by (by rewrite Hu). cbn [List.find].
      rewrite Hu, String.eqb_refl. by destruct p.
    + rewrite list_lookup_insert_ne by done. rewrite list_lookup_fmap.
      destruct (players !! k) as [p'|] eqn:Hk'; [|done]. cbn [fmap option_fmap option_map]. f_equal. symmetry. apply Hother.
      intros Heq. apply Hk. eapply (NoDup_lookup (p_UserID <$> players)); [done|rewrite list_lookup_fmap, Hk'; done|].
      by rewrite list_lookup_fmap, Hi, Heq, <- Hu.
  - apply playerIndex_None in E. apply list_fmap_ext. intros i p Hi. symmetry. apply Hother.
    intros Heq. apply E. exists (decorated standings p). cbn. rewrite decorated_user. split; [|done].
    apply list_elem_of_fmap_2. by eapply list_elem_of_lookup_2.
Qed.
End ThreeStandings.
