(* ===== verification/ThreeSession.v ===== *)
(** * Three rounds: the operations of a session

    The remaining operations on states that satisfy [Inv]: round three, the
    final result, submissions, timeouts, revocations and the host's finish.
    [handle] keeps [Inv], which discharges the engine interface of [Engine]. *)

From stdpp Require Import gmap.
From S2P Require Import Prelude Roster Engine ThreeCards ThreeDeck ThreeHands ThreeHandsFacts ThreeThird ThreeRounds ThreeSettle ThreeInvariant ThreeRoundsFacts ThreeStandings.

Module ThreeSession.
Import Roster ThreeCards ThreeDeck ThreeHands ThreeHandsFacts ThreeWild ThreeRounds ThreeSettle ThreeInvariant
  ThreeRoundsFacts ThreeStandings.

(** ** Round three *)
Definition afterThree (winners : list string) (p : PlayerState) : PlayerState :=
  let won := bool_decide (p_UserID p ∈ winners) in
  let points := if won then u8 (p_RoundThreePoints p + 1) else p_RoundThreePoints p in
  mkPlayer (p_UserID p) (p_SeatIndex p) (p_Active p) (p_InitialHand p)
    (if p_Active p then [] else p_RemainingHand p) (p_PendingSelection p)
    (p_RoundOneCards p) (p_RoundTwoCards p)
    (if p_Active p then p_RemainingHand p else p_RoundThreeCards p)
    (if p_Active p then t_WildcardResolution (thirdOf p) else p_RoundThreeWildcardResolution p)
    (p_RoundOnePoints p) (p_RoundTwoPoints p) points
    (u8 (u8 (p_RoundOnePoints p + p_RoundTwoPoints p) + points))
    (p_WonRoundOne p) (p_WonRoundTwo p) (won || p_WonRoundThree p) false 0.

Definition undecorated (p : PlayerState) : PlayerState :=
  p <| p_FinalWinner := false |> <| p_FinalRank := 0 |>.

Lemma afterThree_eq winners p :
  undecorated (retotal (crowned awardRoundThree winners (threeSettled p))) = afterThree winners p.
Proof.
  unfold afterThree, crowned.
  replace (p_UserID (threeSettled p)) with (p_UserID p) by (unfold threeSettled; by destruct (p_Active p)).
  unfold threeSettled. generalize (thirdOf p) as r. intros r.
  destruct (bool_decide _); destruct p as [? ? [] ? ? ? ? ? ? ? ? ? ? ? ? ? ? ? ?]; reflexivity.
Qed.

Definition threeWinners (s : State) : list string :=
  (contest compareThirdResult (threeEntry <$> List.filter p_Active (Players s))).2.
Definition threeSummary (s : State) : RoundSummary :=
  canonicalRoundSummary
    (mkSummary 3 (threeWinners s)
       (awarded (threeWinners s) <$> (threeReveal <$> List.filter p_Active (Players s))) false).
Definition threeState (s : State) (deadline : Z) : State :=
  mkState (SchemaVersion s) PhaseRoundThreeResult 3 deadline (u32 (PhaseGeneration s + 1))
    (config s) (HostUserID s) (afterThree (threeWinners s) <$> Players s)
    (RoundHistory s ++ [threeSummary s]) zeroFinal (FinishReason s).
Definition threeEvents (s : State) (deadline : Z) : list Event :=
  (List.filter p_Active (Players s) ≫= wildcardEvents)
  ++ roundEvents 3 (threeSummary s) (threeState s deadline).

(** Outside the selecting phases no selection is pending. *)
Lemma pending_zero phase round p :
  PlayerOK phase round p -> ~ selecting phase -> p_PendingSelection p = zeroPending.
Proof. intros Hok Hs. destruct (po_pending _ _ _ Hok) as [?|Hsel]; [done|]. by destruct (Hs (sel_phase _ _ _ Hsel)). Qed.

Lemma remaining_length phase round p :
  PlayerOK phase round p -> p_Active p = true -> phase <> PhaseFinished ->
  length (p_RemainingHand p) = (6 - putOne phase - putTwo phase - putThree phase)%nat.
Proof.
  intros Hok Ha Hph. pose proof (allocation_length _ _ _ Hok) as Hl. unfold allocation in Hl.
  destruct (po_shape _ _ _ Hok Ha Hph) as (S1 & S2 & S3). rewrite !length_app in Hl. lia.
Qed.

Lemma remaining_thirdHand round p :
  PlayerOK PhaseRoundTwoResult round p -> NoDup (p_InitialHand p) -> Forall known (p_InitialHand p) ->
  p_Active p = true -> thirdHand (cardsFromIDs (p_RemainingHand p)).
Proof.
  intros Hok Hn Hk Ha. pose proof (remaining_known _ _ _ Hok Hk) as Hrk.
  pose proof (remaining_nodup _ _ _ Hok Hn) as Hrn. unfold cardsFromIDs. split_and!.
  - rewrite length_fmap. by apply (remaining_length _ _ _ Hok Ha).
  - apply NoDup_fmap_2_strong; [|done]. intros x y Hx Hy.
    apply cardOf_inj; by eapply Forall_forall in Hrk.
  - intros c (id & -> & Hid)%list_elem_of_fmap. apply known_cardOf. by eapply Forall_forall in Hrk.
Qed.

Lemma afterThree_ok winners p :
  PlayerOK PhaseRoundTwoResult 2 p -> PlayerOK PhaseRoundThreeResult 3 (afterThree winners p).
Proof.
  intros Hok. destruct (po_points _ _ _ Hok) as (P1 & P2 & P3).
  destruct (po_wins _ _ _ Hok) as (W1 & W2 & W3). specialize (W3 ltac:(done)).
  assert (Hpts : (if bool_decide (p_UserID p ∈ winners) then u8 (p_RoundThreePoints p + 1) else p_RoundThreePoints p)
                 = boolToUint8 (bool_decide (p_UserID p ∈ winners) || p_WonRoundThree p)).
  { rewrite P3, W3. by destruct (bool_decide _). }
  split; cbn [afterThree p_UserID p_InitialHand p_Active p_RoundOneCards p_RoundTwoCards p_RoundThreeCards
    p_PendingSelection p_RoundOnePoints p_RoundTwoPoints p_RoundThreePoints p_TotalPoints p_WonRoundOne
    p_WonRoundTwo p_WonRoundThree].
  - apply (po_user _ _ _ Hok).
  - apply (po_hand _ _ _ Hok).
  - rewrite <- (po_cards _ _ _ Hok). unfold allocation, afterThree. cbn.
    destruct (p_Active p) eqn:Ha; [|done].
    destruct (po_shape _ _ _ Hok Ha ltac:(done)) as (_ & _ & S3).
    apply length_zero_iff_nil in S3. rewrite S3, app_nil_r. cbn [app].
    rewrite (Permutation_app_comm (p_RemainingHand p)). by rewrite <- app_assoc.
  - intros Ha _. rewrite Ha. destruct (po_shape _ _ _ Hok Ha ltac:(done)) as (S1 & S2 & _).
    split_and!; [done|done|]. by apply (remaining_length _ _ _ Hok Ha).
  - left. apply (pending_zero _ _ _ Hok). by intros [?|?].
  - split_and!; [done|done|]. exact Hpts.
  - rewrite Hpts, P1, P2. apply total_small.
  - split_and!; done.
Qed.

Lemma afterThree_roster winners host players :
  RosterOK host players -> RosterOK host (afterThree winners <$> players).
Proof. by apply RosterOK_map. Qed.

Lemma threeState_Inv s now deadline :
  Inv s -> Phase s = PhaseRoundTwoResult ->
  deadlineForPhase now PhaseRoundThreeResult (config s) = Ok deadline -> Inv (threeState s deadline).
Proof.
  intros H Hph Hd. assert (Hnf : Phase s <> PhaseFinished) by (by rewrite Hph).
  pose proof (round_of_phase s H Hnf) as Hr. rewrite Hph in Hr.
  apply (Inv_next s PhaseRoundThreeResult now);
    [done|done|by rewrite Hph|done|done|apply afterThree_roster, H|by rewrite length_fmap| | | |done|constructor].
  - eapply Forall_map; [apply (inv_players _ H)|]. intros p Hp Hok. rewrite Hph, Hr in Hok. by apply afterThree_ok.
  - by apply activeCount_map.
  - apply (history_next s _ 2 H Hnf); [by rewrite Hph|lia|done].
Qed.

Lemma resolveRoundThree_eq s now :
  Inv s -> Phase s = PhaseRoundTwoResult ->
  resolveRoundThree s now =
  let* deadline := deadlineForPhase now PhaseRoundThreeResult (config s) in
  Ok (threeState s deadline, threeEvents s deadline).
Proof.
  intros H Hph. unfold resolveRoundThree. rewrite CloneT_id, Hph. cbn [Z.eqb Pos.eqb negb PhaseRoundTwoResult].
  rewrite roundThreeLoop_spec.
  2: { intros p Hp Ha. apply resolveThirdHand_total. pose proof (inv_roster _ H) as Hro.
       eapply remaining_thirdHand; [|by eapply hand_nodup|by eapply hand_known|done].
       rewrite <- Hph. by apply (proj1 (Forall_forall _ _) (inv_players _ H)). }
  cbn [bind_result]. fold (contest compareThirdResult (threeEntry <$> List.filter p_Active (Players s))).
  fold (threeWinners s). pose proof (ro_users _ _ (inv_roster _ H)) as Hu.
  assert (Hts : forall p, p_UserID (threeSettled p) = p_UserID p)
    by (intros p; unfold threeSettled; by destruct (p_Active p)).
  rewrite (awardLoop_spec awardRoundThree); [|done|..].
  2: { rewrite reveals_users by done. by apply filter_users_nodup. }
  2: { by rewrite fmap_field. }
  2: { rewrite reveals_users by done. rewrite fmap_field by done. apply filter_users_sub. }
  2: { rewrite reveals_users by done. unfold threeWinners. etransitivity; [apply contest_sub, _|].
       by rewrite <- list_fmap_compose. }
  cbn [bind_result].
  assert (Hplayers : clearFinalDecorations
      (reapplyFinalTotals (crowned awardRoundThree (threeWinners s) <$> (threeSettled <$> Players s)))
      = afterThree (threeWinners s) <$> Players s).
  { unfold clearFinalDecorations, reapplyFinalTotals. rewrite <- !list_fmap_compose.
    apply list_fmap_ext. intros i p _. apply afterThree_eq. }
  rewrite Hplayers. fold (threeSummary s).
  match goal with |- bind_result (deadlineForPhase now ?ph ?cfg) _ = _ =>
    change ph with PhaseRoundThreeResult; change cfg with (config s) end.
  destruct (deadlineForPhase now PhaseRoundThreeResult (config s)) as [deadline|] eqn:Ed; [|done].
  cbn [bind_result]. unfold validated.
  match goal with |- context [Validate ?x] => change x with (threeState s deadline) end.
  by rewrite (Inv_Validate _ (threeState_Inv s now deadline H Hph Ed)).
Qed.

(** ** Between the rounds *)
Definition secondState (s : State) (deadline : Z) : State :=
  mkState (SchemaVersion s) PhaseRoundTwoSelecting 2 deadline (u32 (PhaseGeneration s + 1))
    (config s) (HostUserID s) (Players s) (RoundHistory s) (finalSummary s) (FinishReason s).

(** A player of a result phase is one of the selecting phase that follows. *)
Lemma PlayerOK_second p :
  PlayerOK PhaseRoundOneResult 1 p -> PlayerOK PhaseRoundTwoSelecting 2 p.
Proof.
  intros Hok. pose proof (pending_zero _ _ _ Hok) as Hz. destruct Hok as [? ? ? Hsh _ ? ? (W1 & W2 & W3)].
  split; try done.
  - intros Ha _. by apply Hsh.
  - left. apply Hz. by intros [?|?].
  - split_and!; [done|intros _; by apply W2|intros _; by apply W3].
Qed.

Lemma secondState_Inv s now deadline :
  Inv s -> Phase s = PhaseRoundOneResult ->
  deadlineForPhase now PhaseRoundTwoSelecting (config s) = Ok deadline -> Inv (secondState s deadline).
Proof.
  intros H Hph Hd. assert (Hnf : Phase s <> PhaseFinished) by (by rewrite Hph).
  pose proof (round_of_phase s H Hnf) as Hr. rewrite Hph in Hr.
  apply (Inv_next s PhaseRoundTwoSelecting now);
    [done|done|by rewrite Hph|done|done|apply H|done| |done| | |apply H].
  - eapply Forall_impl; [apply (inv_players _ H)|]. intros p Hok. rewrite Hph, Hr in Hok. by apply PlayerOK_second.
  - destruct (inv_history _ H) as (k & _ & -> & Hk). by rewrite (Hk Hnf), Hph.
  - intros _. apply (inv_final _ H). by rewrite Hph.
Qed.

Lemma advance_eq s now :
  Inv s -> Phase s = PhaseRoundOneResult ->
  advancePhaseAfterRoundOneResult s now =
  let* deadline := deadlineForPhase now PhaseRoundTwoSelecting (config s) in
  Ok (secondState s deadline, [phaseStarted (secondState s deadline)]).
Proof.
  intros H Hph. unfold advancePhaseAfterRoundOneResult. rewrite CloneT_id.
  match goal with |- bind_result (deadlineForPhase now ?ph ?cfg) _ = _ =>
    change ph with PhaseRoundTwoSelecting; change cfg with (config s) end.
  destruct (deadlineForPhase now PhaseRoundTwoSelecting (config s)) as [deadline|] eqn:Ed; [|done].
  cbn [bind_result]. unfold validated.
  match goal with |- context [Validate ?x] => change x with (secondState s deadline) end.
  by rewrite (Inv_Validate _ (secondState_Inv s now deadline H Hph Ed)).
Qed.

(** ** The final result *)

(** Decorations touch neither cards nor points. *)
Lemma decorated_ok standings phase round p :
  PlayerOK phase round p -> PlayerOK phase round (decorated standings p).
Proof.
  assert (Hany : forall w k, PlayerOK phase round p ->
            PlayerOK phase round (p <| p_FinalWinner := w |> <| p_FinalRank := k |>)).
  { intros w k [? ? ? ? Hp ? ? ?]. split; try done. destruct Hp as [?|[? ? ? ? ? ?]]; [by left|]. right. by split. }
  intros Hok. unfold decorated. destruct (List.find _ _); by apply Hany.
Qed.

Lemma decorated_field {A} (g : PlayerState -> A) standings p :
  (forall w k, g (p <| p_FinalWinner := w |> <| p_FinalRank := k |>) = g p) -> g (decorated standings p) = g p.
Proof. intros Hg. unfold decorated. by destruct (List.find _ _). Qed.

Lemma decorated_roster standings host players :
  RosterOK host players -> RosterOK host (decorated standings <$> players).
Proof. apply RosterOK_map; intros p; by apply decorated_field. Qed.

Definition finalState (s : State) (deadline : Z) : State :=
  let final := computeFinalSummary (Players s) in
  mkState (SchemaVersion s) PhaseFinalResult (CurrentRound s) deadline (u32 (PhaseGeneration s + 1))
    (config s) (HostUserID s) (decorated (f_Standings final) <$> Players s) (RoundHistory s) final (FinishReason s).

Lemma players_at_most_nine s : Inv s -> (2 <= length (Players s) <= 9)%nat.
Proof. intros H. apply (Config_Validate_count _ _ (inv_config _ H)). Qed.

Lemma final_standings_nodup s :
  Inv s -> NoDup (fs_UserID <$> f_Standings (computeFinalSummary (Players s))).
Proof.
  intros H. rewrite final_users by (pose proof (players_at_most_nine s H); lia).
  apply filter_users_nodup, (inv_roster _ H).
Qed.

Lemma PlayerOK_final p : PlayerOK PhaseRoundThreeResult 3 p -> PlayerOK PhaseFinalResult 3 p.
Proof.
  intros Hok. pose proof (pending_zero _ _ _ Hok) as Hz. destruct Hok as [? ? ? Hsh _ ? ? (W1 & W2 & W3)].
  split; try done.
  - intros Ha _. by apply Hsh.
  - left. apply Hz. by intros [?|?].
Qed.

Lemma finalState_Inv s now deadline :
  Inv s -> Phase s = PhaseRoundThreeResult ->
  deadlineForPhase now PhaseFinalResult (config s) = Ok deadline -> Inv (finalState s deadline).
Proof.
  intros H Hph Hd. assert (Hnf : Phase s <> PhaseFinished) by (by rewrite Hph).
  pose proof (round_of_phase s H Hnf) as Hr. rewrite Hph in Hr.
  unfold finalState. rewrite Hr. apply (Inv_next s PhaseFinalResult now);
    [done|done|by rewrite Hph|done|done|apply decorated_roster, H|by rewrite length_fmap| | | |done
    |by apply final_standings_nodup].
  - eapply Forall_map; [apply (inv_players _ H)|]. intros p Hp Hok. rewrite Hph, Hr in Hok.
    by apply decorated_ok, PlayerOK_final.
  - apply activeCount_map. intros p. by apply decorated_field.
  - destruct (inv_history _ H) as (k & _ & -> & Hk). by rewrite (Hk Hnf), Hph.
Qed.

Lemma enterFinalResult_eq s now :
  Inv s -> Phase s = PhaseRoundThreeResult ->
  enterFinalResult s now =
  let* deadline := deadlineForPhase now PhaseFinalResult (config s) in
  Ok (finalState s deadline, [phaseStarted (finalState s deadline)]).
Proof.
  intros H Hph. unfold enterFinalResult. rewrite CloneT_id, Hph. cbn [Z.eqb Pos.eqb negb PhaseRoundThreeResult].
  match goal with |- bind_result (deadlineForPhase now ?ph ?cfg) _ = _ =>
    change ph with PhaseFinalResult; change cfg with (config s) end.
  destruct (deadlineForPhase now PhaseFinalResult (config s)) as [deadline|] eqn:Ed; [|done].
  cbn [bind_result]. unfold recomputeFinalDecorations.
  match goal with |- context [foldl decorate (clearFinalDecorations ?ps) ?sts] =>
    change ps with (Players s); change sts with (f_Standings (computeFinalSummary (Players s))) end.
  rewrite decorate_all; [|apply (inv_roster _ H)|by apply final_standings_nodup].
  unfold validated.
  match goal with |- context [Validate ?x] => change x with (finalState s deadline) end.
  by rewrite (Inv_Validate _ (finalState_Inv s now deadline H Hph Ed)).
Qed.

(** ** Replacing the players *)
Definition withPlayers (s : State) (players : list PlayerState) : State :=
  mkState (SchemaVersion s) (Phase s) (CurrentRound s) (PhaseDeadlineUnixMillis s) (PhaseGeneration s)
    (config s) (HostUserID s) players (RoundHistory s) (finalSummary s) (FinishReason s).

Lemma Inv_players s players :
  Inv s -> Phase s <> PhaseFinished -> RosterOK (HostUserID s) players ->
  length players = length (Players s) -> Forall (PlayerOK (Phase s) (CurrentRound s)) players ->
  (2 <= activeCount players)%nat -> Inv (withPlayers s players).
Proof.
  intros [H1 H2 H3 H4 H5 H6 H7 H8 H9 H10 H11 H12 H13] Hnf Hro Hlen HF Hac. split; try done.
  cbn [withPlayers Players config]. by rewrite Hlen.
Qed.

(** Replacing one player by one with the same frozen fields. *)
Lemma RosterOK_insert host players i p q :
  RosterOK host players -> players !! i = Some p -> p_UserID q = p_UserID p ->
  p_SeatIndex q = p_SeatIndex p -> p_InitialHand q = p_InitialHand p ->
  RosterOK host (<[i := q]> players).
Proof.
  intros Hro Hi Hu Hs Hh. eapply RosterOK_ext; [..|exact Hro];
    by apply (fmap_insert_same _ players i p).
Qed.

Lemma Forall_insert_b {A} (P : A -> Prop) (l : list A) i x : Forall P l -> P x -> Forall P (<[i := x]> l).
Proof. intros Hl Hx. by apply Forall_insert. Qed.

(** ** Settling the current selection *)
Definition settledState (s : State) (deadline : Z) : State :=
  if Phase s =? PhaseRoundOneSelecting then oneState s deadline else twoState s deadline.
Definition settledSummary (s : State) : RoundSummary :=
  if Phase s =? PhaseRoundOneSelecting then oneSummary s else twoSummary s.
Definition settledEvents (s : State) (deadline : Z) : list Event :=
  roundEvents (CurrentRound s) (settledSummary s) (settledState s deadline).

Lemma settle_eq s now :
  Inv s -> selecting (Phase s) -> allActivePlayersSubmitted s = true ->
  settleCurrentSelection s now =
  let* deadline := deadlineForPhase now (Phase s + 1) (config s) in
  Ok (settledState s deadline, settledEvents s deadline).
Proof.
  intros H Hsel Hall. assert (Hnf : Phase s <> PhaseFinished) by (by destruct Hsel as [->| ->]).
  pose proof (round_of_phase s H Hnf) as Hr.
  unfold settleCurrentSelection, settledEvents, settledSummary, settledState.
  destruct Hsel as [Hph|Hph]; rewrite Hph in Hr |- *; cbn [Z.eqb Pos.eqb PhaseRoundOneSelecting PhaseRoundTwoSelecting].
  - rewrite (settleRoundOne_eq s now H Hph Hall). by rewrite Hr.
  - rewrite (settleRoundTwo_eq s now H Hph Hall). by rewrite Hr.
Qed.

Lemma settle_Inv s now deadline :
  Inv s -> selecting (Phase s) -> allActivePlayersSubmitted s = true ->
  deadlineForPhase now (Phase s + 1) (config s) = Ok deadline -> Inv (settledState s deadline).
Proof.
  intros H Hsel Hall Hd. unfold settledState.
  destruct Hsel as [Hph|Hph]; rewrite Hph in Hd |- *; cbn [Z.eqb Pos.eqb PhaseRoundOneSelecting PhaseRoundTwoSelecting].
  - by eapply oneState_Inv.
  - by eapply twoState_Inv.
Qed.

Lemma settle_phase s deadline :
  selecting (Phase s) -> Phase (settledState s deadline) = Phase s + 1.
Proof. unfold settledState. by intros [-> | ->]. Qed.

(** ** Submissions *)
Lemma checkSelection_Ok remaining seen ids :
  checkSelection remaining seen ids = Ok tt <->
  Forall known ids /\ NoDup ids /\ (forall c, c ∈ ids -> c ∉ seen) /\ ids ⊆ remaining.
Proof.
  revert seen. induction ids as [|c ids IH]; intros seen; cbn [checkSelection].
  { split; [|done]. intros _. split_and!; try constructor; intros c ?%not_elem_of_nil; done. }
  destruct (ParseCardID c) as [card|] eqn:E.
  2: { split; [done|]. intros (Hk & _). apply Forall_cons in Hk as [Hk _]. by apply ParseCardID_None in E. }
  assert (Hk : known c) by (apply known_card; exists card; by apply ParseCardID_Some).
  rewrite Forall_cons, NoDup_cons.
  destruct (bool_decide (c ∈ seen)) eqn:Es; to_prop.
  { split; [done|]. intros (_ & _ & Hd & _). by destruct (Hd c ltac:(constructor)). }
  destruct (bool_decide (c ∈ remaining)) eqn:Er; to_prop; cbn [negb].
  2: { split; [done|]. intros (_ & _ & _ & Hs). destruct Er. apply Hs. constructor. }
  rewrite IH. split.
  - intros (HF & Hn & Hd & Hs). split_and!; [done|done| |done| |].
    + intros Hin. apply (Hd c Hin). constructor.
    + intros d [->|Hin]%elem_of_cons; [done|]. intros Hds. apply (Hd d Hin). by constructor.
    + intros d [->|Hin]%elem_of_cons; [done|by apply Hs].
  - intros ([_ HF] & [Hc Hn] & Hd & Hs). split_and!; [done|done| |].
    + intros d Hin [->|Hds]%elem_of_cons; [done|]. apply (Hd d); [by constructor|done].
    + intros d Hin. apply Hs. by constructor.
Qed.

Definition recorded (p : PlayerState) (round : Z) (ids : list CardID) (auto : bool) : PlayerState :=
  p <| p_PendingSelection := mkPending round ids auto |>.

(** Recording a legal selection. *)
Lemma recorded_ok phase round p ids auto :
  PlayerOK phase round p -> selecting phase -> 1 <= round -> p_Active p = true ->
  length ids = selectionSize round -> NoDup ids -> ids ⊆ p_RemainingHand p ->
  PlayerOK phase round (recorded p round ids auto).
Proof.
  intros [? ? ? ? _ ? ? ?] Hsel Hr Ha Hl Hn Hs. split; try done. right. by split.
Qed.

Definition submittedState (s : State) (i : nat) (round : Z) (ids : list CardID) (auto : bool) : State :=
  withPlayers s (<[i := recorded (Players s !!! i) round (canonicalSelection ids) auto]> (Players s)).

(** The guard of a submission. *)
Record Submittable (s : State) (actor : string) (round : Z) (ids : list CardID) (now : Z) (i : nat) : Prop := {
  sub_phase : selecting (Phase s);
  sub_now : 0 < now;
  sub_open : PhaseDeadlineUnixMillis s = 0 \/ now < PhaseDeadlineUnixMillis s;
  sub_round : round = CurrentRound s;
  sub_actor : playerIndex (Players s) actor = Some i;
  sub_active : p_Active (Players s !!! i) = true;
  sub_new : ps_Round (p_PendingSelection (Players s !!! i)) <> round;
  sub_size : length ids = selectionSize round;
  sub_known : Forall known ids;
  sub_nodup : NoDup ids;
  sub_hand : ids ⊆ p_RemainingHand (Players s !!! i);
}.

Lemma validateSelectable_Ok s actor round ids now :
  Inv s ->
  validateSelectableAction s actor round ids now = Ok tt <-> exists i, Submittable s actor round ids now i.
Proof.
  intros H. unfold validateSelectableAction. rewrite (Inv_Validate s H). cbn [bind_result]. split.
  - intros Hv.
    destruct (Phase s =? PhaseFinished) eqn:G1; [done|].
    destruct (negb (Phase s =? PhaseRoundOneSelecting) && negb (Phase s =? PhaseRoundTwoSelecting)) eqn:G2; [done|].
    destruct (negb (validUnixMillis now)) eqn:G3; [done|].
    destruct (negb (PhaseDeadlineUnixMillis s =? 0) && (PhaseDeadlineUnixMillis s <=? now)) eqn:G4; [done|].
    destruct (negb (round =? CurrentRound s)) eqn:G5; [done|].
    destruct (playerIndex (Players s) actor) as [i|] eqn:G6; [|done].
    destruct (negb (p_Active (Players s !!! i))) eqn:G7; [done|].
    destruct (ps_Round (p_PendingSelection (Players s !!! i)) =? round) eqn:G8; [done|].
    destruct (negb (length ids =? _)%nat) eqn:G9; [done|].
    apply checkSelection_Ok in Hv as (Hk & Hn & _ & Hs). unfold validUnixMillis in G3.
    exists i. apply negb_false_iff, Nat.eqb_eq in G9. to_prop. split; try done.
    + apply andb_false_iff in G2 as [G2|G2]; to_prop; [by left|by right].
    + apply andb_false_iff in G4 as [G4|G4]; to_prop; [by left|right; lia].
  - intros (i & [Hph Hnow Hopen Hround Hact Ha Hnew Hsz Hk Hn Hs]). unfold validUnixMillis.
    replace (Phase s =? PhaseFinished) with false by (by destruct Hph as [->| ->]).
    replace (negb (Phase s =? PhaseRoundOneSelecting) && negb (Phase s =? PhaseRoundTwoSelecting)) with false
      by (by destruct Hph as [->| ->]).
    replace (0 <? now) with true by lia. cbn [negb].
    replace (negb (PhaseDeadlineUnixMillis s =? 0) && (PhaseDeadlineUnixMillis s <=? now)) with false by lia.
    rewrite Hround, Z.eqb_refl. cbn [negb]. rewrite Hact, Ha. cbn [negb].
    rewrite (proj2 (Z.eqb_neq _ _)) by congruence. unfold selectionSize in Hsz. rewrite Hround in Hsz.
    rewrite Hsz, Nat.eqb_refl. cbn [negb]. apply checkSelection_Ok. split_and!; try done.
    intros c _. apply not_elem_of_nil.
Qed.

Definition submitEvent (actor : string) (round : Z) (auto : bool) : Event :=
  zeroEvent <| ev_Kind := if auto then EventSelectionAutoSubmitted else EventSelectionSubmitted |>
            <| ev_UserID := actor |>
            <| ev_Round := round |>
            <| ev_AutoSubmitted := auto |>.

Lemma index_elem s actor i :
  playerIndex (Players s) actor = Some i -> Players s !! i = Some (Players s !!! i) /\ Players s !!! i ∈ Players s
  /\ p_UserID (Players s !!! i) = actor.
Proof.
  intros (p & Hp & Hu & ->)%playerIndex_Some. split_and!; [done|by eapply list_elem_of_lookup_2|done].
Qed.

Lemma player_ok s p : Inv s -> p ∈ Players s -> PlayerOK (Phase s) (CurrentRound s) p.
Proof. intros H. by apply (proj1 (Forall_forall _ _) (inv_players _ H)). Qed.

Lemma submittedState_Inv s actor round ids auto now i :
  Inv s -> Submittable s actor round ids now i -> Inv (submittedState s i round ids auto).
Proof.
  intros H [Hph Hnow _ Hround Hact Ha _ Hsz _ Hn Hs]. destruct (index_elem s actor i Hact) as (Hi & Hin & _).
  assert (Hnf : Phase s <> PhaseFinished) by (by destruct Hph as [->| ->]).
  apply Inv_players; [done|done| | | |].
  - eapply RosterOK_insert; [apply (inv_roster _ H)|exact Hi|done..].
  - by rewrite length_insert.
  - apply Forall_insert_b; [apply (inv_players _ H)|]. destruct (inv_round _ H) as [Hr _]. rewrite Hround.
    apply recorded_ok; [by apply player_ok|done|lia|done| | |].
    + rewrite (Permutation_length (canonicalSelection_perm ids)). by rewrite <- Hround.
    + by rewrite canonicalSelection_perm.
    + intros c. rewrite canonicalSelection_perm. apply Hs.
  - rewrite (activeCount_insert_same _ i (Players s !!! i)) by done. by apply (inv_active _ H).
Qed.

Lemma SubmitSelection_eq s actor round ids auto now i :
  Inv s -> Submittable s actor round ids now i ->
  SubmitSelection s actor round ids auto now =
  let next := submittedState s i round ids auto in
  if allActivePlayersSubmitted next then
    let* deadline := deadlineForPhase now (Phase s + 1) (config s) in
    Ok (settledState next deadline, submitEvent actor round auto :: settledEvents next deadline)
  else Ok (next, [submitEvent actor round auto]).
Proof.
  intros H Hsub. unfold SubmitSelection.
  rewrite (proj2 (validateSelectable_Ok s actor round ids now H) (ex_intro _ i Hsub)). cbn [bind_result].
  rewrite CloneT_id, (sub_actor _ _ _ _ _ _ Hsub). cbv zeta.
  match goal with |- context [allActivePlayersSubmitted ?x] => change x with (submittedState s i round ids auto) end.
  pose proof (submittedState_Inv s actor round ids auto now i H Hsub) as Hnext.
  destruct (allActivePlayersSubmitted (submittedState s i round ids auto)) eqn:Hall.
  - rewrite (settle_eq _ now Hnext (sub_phase _ _ _ _ _ _ Hsub) Hall).
    change (Phase (submittedState s i round ids auto)) with (Phase s).
    change (config (submittedState s i round ids auto)) with (config s).
    by destruct (deadlineForPhase now (Phase s + 1) (config s)).
  - unfold validated. by rewrite (Inv_Validate _ Hnext).
Qed.

(** ** Timeouts *)
Definition autoChoice (round : Z) (p : PlayerState) : list CardID :=
  match autoSelect (p_RemainingHand p) round with Ok ids => ids | Err _ => [] end.
Definition awaited (round : Z) (p : PlayerState) : bool :=
  p_Active p && negb (ps_Round (p_PendingSelection p) =? round).
Definition autoFilled (round : Z) (p : PlayerState) : PlayerState :=
  if awaited round p then recorded p round (autoChoice round p) true else p.
Definition autoEvents (round : Z) (players : list PlayerState) : list Event :=
  (fun p => submitEvent (p_UserID p) round true) <$> List.filter (awaited round) players.

Lemma autoSubmitLoop_spec round players :
  (forall p, p ∈ players -> awaited round p = true -> exists ids, autoSelect (p_RemainingHand p) round = Ok ids) ->
  autoSubmitLoop round players = Ok (autoFilled round <$> players, autoEvents round players).
Proof.
  unfold autoEvents. induction players as [|p rest IH]; intros Hc; [done|]. cbn [autoSubmitLoop].
  assert (Hrest : forall q, q ∈ rest -> awaited round q = true -> exists ids, autoSelect (p_RemainingHand q) round = Ok ids)
    by (intros q Hq; apply Hc; by constructor).
  assert (negb (p_Active p) || (ps_Round (p_PendingSelection p) =? round) = negb (awaited round p)) as ->
    by (unfold awaited; by destruct (p_Active p), (_ =? _)).
  cbn [List.filter fmap list_fmap]. unfold autoFilled at 1. destruct (awaited round p) eqn:E; cbn [negb].
  - destruct (Hc p ltac:(constructor) E) as [ids Hids]. unfold autoChoice. rewrite Hids. cbn [bind_result].
    by rewrite (IH Hrest).
  - by rewrite (IH Hrest).
Qed.

(** The choice made for a player is a legal selection. *)
Lemma autoSelect_legal phase p :
  PlayerOK phase (roundOf phase) p -> selecting phase -> NoDup (p_InitialHand p) ->
  Forall known (p_InitialHand p) -> p_Active p = true ->
  exists ids, autoSelect (p_RemainingHand p) (roundOf phase) = Ok ids
    /\ length ids = selectionSize (roundOf phase) /\ NoDup ids /\ ids ⊆ p_RemainingHand p.
Proof.
  intros Hok Hsel Hn Hk Ha. pose proof (remaining_known _ _ _ Hok Hk) as Hrk.
  pose proof (remaining_nodup _ _ _ Hok Hn) as Hrn.
  assert (Hnf : phase <> PhaseFinished) by (by destruct Hsel as [->| ->]).
  pose proof (remaining_length _ _ _ Hok Ha Hnf) as Hl.
  destruct Hsel as [->| ->].
  - change (roundOf PhaseRoundOneSelecting) with 1. cbn in Hl.
    destruct (autoSelect_one (p_RemainingHand p)) as (id & -> & Hin & _); [by destruct (p_RemainingHand p)|done|].
    exists [id]. split_and!; [done|done|apply NoDup_singleton|]. by intros c ->%list_elem_of_singleton.
  - change (roundOf PhaseRoundTwoSelecting) with 2. cbn in Hl.
    destruct (autoSelect_two (p_RemainingHand p)) as (i & j & a & b & Hij & Hi & Hj & -> & _); [lia|done|].
    eexists. split_and!; [done|by rewrite (Permutation_length (canonicalSelection_perm _))| |].
    + rewrite canonicalSelection_perm. apply NoDup_cons. split; [|apply NoDup_singleton].
      rewrite list_elem_of_singleton. intros ->. pose proof (NoDup_lookup _ _ _ _ Hrn Hi Hj). lia.
    + intros c. rewrite canonicalSelection_perm. intros [->|[->|[]%not_elem_of_nil]%elem_of_cons]%elem_of_cons;
        by eapply list_elem_of_lookup_2.
Qed.

Definition filledState (s : State) : State := withPlayers s (autoFilled (CurrentRound s) <$> Players s).

Lemma autoFilled_field {A} (g : PlayerState -> A) round p :
  (forall ids, g (recorded p round ids true) = g p) -> g (autoFilled round p) = g p.
Proof. intros Hg. unfold autoFilled. by destruct (awaited round p). Qed.

Lemma filled_select s p :
  Inv s -> selecting (Phase s) -> p ∈ Players s -> p_Active p = true ->
  exists ids, autoSelect (p_RemainingHand p) (CurrentRound s) = Ok ids
    /\ length ids = selectionSize (CurrentRound s) /\ NoDup ids /\ ids ⊆ p_RemainingHand p.
Proof.
  intros H Hsel Hp Ha. assert (Hnf : Phase s <> PhaseFinished) by (by destruct Hsel as [->| ->]).
  pose proof (player_ok s p H Hp) as Hok. pose proof (inv_roster _ H) as Hro.
  rewrite (round_of_phase s H Hnf) in Hok |- *. apply autoSelect_legal; try done.
  - by eapply hand_nodup.
  - by eapply hand_known.
Qed.

Lemma filledState_Inv s : Inv s -> selecting (Phase s) -> Inv (filledState s).
Proof.
  intros H Hsel. assert (Hnf : Phase s <> PhaseFinished) by (by destruct Hsel as [->| ->]).
  apply Inv_players; [done|done| |by rewrite length_fmap| |].
  - apply RosterOK_map; [..|apply (inv_roster _ H)]; intros p; by apply autoFilled_field.
  - eapply Forall_map; [apply (inv_players _ H)|]. intros p Hp Hok. unfold autoFilled.
    destruct (awaited (CurrentRound s) p) eqn:E; [|done]. unfold awaited in E. apply andb_true_iff in E as [Ha _].
    destruct (filled_select s p H Hsel Hp Ha) as (ids & Hids & Hl & Hn & Hs).
    unfold autoChoice. rewrite Hids. destruct (inv_round _ H) as [Hr _]. apply recorded_ok; (done || lia).
  - rewrite activeCount_map; [by apply (inv_active _ H)|]. intros p. by apply autoFilled_field.
Qed.

Lemma filledState_submitted s : allActivePlayersSubmitted (filledState s) = true.
Proof.
  unfold allActivePlayersSubmitted. apply forallb_forall. intros q Hq%list_elem_of_In.
  cbn [filledState withPlayers Players CurrentRound] in *. apply list_elem_of_fmap in Hq as (p & -> & _).
  unfold autoFilled. destruct (awaited (CurrentRound s) p) eqn:E.
  - change (ps_Round (p_PendingSelection (recorded p (CurrentRound s) (autoChoice (CurrentRound s) p) true)))
      with (CurrentRound s). by rewrite Z.eqb_refl, andb_false_r.
  - unfold awaited in E. by rewrite E.
Qed.

(** A timer that is the current one of the state, and due. *)
Record Due (s : State) (timer : Timer) (now : Z) : Prop := {
  due_timer : CurrentTimer s = Some timer;
  due_now : t_DeadlineUnixMillis timer <= now;
}.

(** The next state of a timeout, from its deadline. *)
Definition timeoutState (s : State) (deadline : Z) : State :=
  if (Phase s =? PhaseRoundOneSelecting) || (Phase s =? PhaseRoundTwoSelecting)
  then settledState (filledState s) deadline
  else if Phase s =? PhaseRoundOneResult then secondState s deadline
  else if Phase s =? PhaseRoundTwoResult then threeState s deadline
  else finalState s deadline.
Definition timeoutEvents (s : State) (deadline : Z) : list Event :=
  if (Phase s =? PhaseRoundOneSelecting) || (Phase s =? PhaseRoundTwoSelecting)
  then autoEvents (CurrentRound s) (Players s) ++ settledEvents (filledState s) deadline
  else if Phase s =? PhaseRoundOneResult then [phaseStarted (secondState s deadline)]
  else if Phase s =? PhaseRoundTwoResult then threeEvents s deadline
  else [phaseStarted (finalState s deadline)].

Lemma CurrentTimer_Some s timer :
  CurrentTimer s = Some timer <->
  Phase s <> PhaseFinished /\ Phase s <> PhaseDealing /\ PhaseDeadlineUnixMillis s <> 0
  /\ timer = mkTimer (Phase s) (CurrentRound s) (PhaseDeadlineUnixMillis s) (PhaseGeneration s).
Proof.
  unfold CurrentTimer. destruct (Z.eqb_spec (Phase s) PhaseFinished), (Z.eqb_spec (Phase s) PhaseDealing),
    (Z.eqb_spec (PhaseDeadlineUnixMillis s) 0); cbn [orb]; split; try done; naive_solver.
Qed.

Lemma HandleTimeout_eq s timer now :
  Inv s -> Due s timer now ->
  HandleTimeout s timer now =
  if Phase s =? PhaseFinalResult then Ok (finishWithReason s FinishNormalCompleted "")
  else let* deadline := deadlineForPhase now (Phase s + 1) (config s) in
       Ok (timeoutState s deadline, timeoutEvents s deadline).
Proof.
  intros H [(Hnf & _ & Hd0 & ->)%CurrentTimer_Some Hnow]. cbn [t_DeadlineUnixMillis] in Hnow.
  unfold HandleTimeout. rewrite (Inv_Validate s H). cbn [bind_result].
  rewrite (proj2 (Z.eqb_neq (Phase s) PhaseFinished) Hnf).
  cbn [t_Phase t_Round t_PhaseGeneration t_DeadlineUnixMillis]. rewrite !Z.eqb_refl. cbn [negb orb].
  assert (Hpos : 0 < PhaseDeadlineUnixMillis s).
  { pose proof (inv_deadline _ H) as Hdl. rewrite (proj2 (Z.eqb_neq (Phase s) PhaseFinished) Hnf) in Hdl.
    destruct (selectionDeadlineEnabled _ _); lia. }
  unfold validUnixMillis. replace (0 <? now) with true by lia.
  rewrite (proj2 (Z.eqb_neq (PhaseDeadlineUnixMillis s) 0) Hd0).
  replace (now <? PhaseDeadlineUnixMillis s) with false by lia. cbn [negb orb].
  unfold timeoutState, timeoutEvents.
  destruct ((Phase s =? PhaseRoundOneSelecting) || (Phase s =? PhaseRoundTwoSelecting)) eqn:Esel.
  - assert (Hsel : selecting (Phase s)) by (apply orb_true_iff in Esel as [E|E]; to_prop; [by left|by right]).
    replace (Phase s =? PhaseFinalResult) with false by (by destruct Hsel as [->| ->]).
    rewrite CloneT_id, autoSubmitLoop_spec.
    2: { intros p Hp Haw. unfold awaited in Haw. apply andb_true_iff in Haw as [Ha _].
         destruct (filled_select s p H Hsel Hp Ha) as (ids & Hids & _). eauto. }
    cbn [bind_result].
    match goal with |- context [settleCurrentSelection ?x] => change x with (filledState s) end.
    rewrite (settle_eq _ now (filledState_Inv s H Hsel) Hsel (filledState_submitted s)).
    change (Phase (filledState s)) with (Phase s). change (config (filledState s)) with (config s).
    by destruct (deadlineForPhase now (Phase s + 1) (config s)).
  - pose proof (inv_phase _ H) as Hb. apply orb_false_iff in Esel as [E1 E2].
    destruct (Z.eqb_spec (Phase s) PhaseRoundOneResult) as [Hph|N3].
    { rewrite (advance_eq s now H Hph). by rewrite Hph. }
    destruct (Z.eqb_spec (Phase s) PhaseRoundTwoResult) as [Hph|N5].
    { rewrite (resolveRoundThree_eq s now H Hph). by rewrite Hph. }
    destruct (Z.eqb_spec (Phase s) PhaseRoundThreeResult) as [Hph|N6].
    { rewrite (enterFinalResult_eq s now H Hph). by rewrite Hph. }
    destruct (Z.eqb_spec (Phase s) PhaseFinalResult) as [Hph|N7].
    { unfold finishNormally. by rewrite CloneT_id. }
    exfalso. to_prop. unfold PhaseRoundOneSelecting, PhaseRoundTwoSelecting, PhaseRoundOneResult,
      PhaseRoundTwoResult, PhaseRoundThreeResult, PhaseFinalResult, PhaseFinished in *. lia.
Qed.

Lemma timeoutState_Inv s timer now deadline :
  Inv s -> Due s timer now -> Phase s <> PhaseFinalResult ->
  deadlineForPhase now (Phase s + 1) (config s) = Ok deadline ->
  Inv (timeoutState s deadline) /\ Phase (timeoutState s deadline) = Phase s + 1.
Proof.
  intros H [(Hnf & _ & _ & _)%CurrentTimer_Some _] Hn7 Hd. pose proof (inv_phase _ H) as Hb. unfold timeoutState.
  destruct ((Phase s =? PhaseRoundOneSelecting) || (Phase s =? PhaseRoundTwoSelecting)) eqn:Esel.
  - assert (Hsel : selecting (Phase s)) by (apply orb_true_iff in Esel as [E|E]; to_prop; [by left|by right]).
    split; [|by rewrite settle_phase].
    eapply settle_Inv; [by apply filledState_Inv|done|apply filledState_submitted|done].
  - apply orb_false_iff in Esel as [E1 E2].
    destruct (Z.eqb_spec (Phase s) PhaseRoundOneResult) as [Hph|N3].
    { rewrite Hph in Hd |- *. split; [by eapply secondState_Inv|done]. }
    destruct (Z.eqb_spec (Phase s) PhaseRoundTwoResult) as [Hph|N5].
    { rewrite Hph in Hd |- *. split; [by eapply threeState_Inv|done]. }
    assert (Hph : Phase s = PhaseRoundThreeResult).
    { to_prop. unfold PhaseRoundOneSelecting, PhaseRoundTwoSelecting, PhaseRoundOneResult,
        PhaseRoundTwoResult, PhaseRoundThreeResult, PhaseFinalResult, PhaseFinished in *. lia. }
    rewrite Hph in Hd |- *. split; [by eapply finalState_Inv|done].
Qed.

(** ** Finishing *)
Definition finishedPlayers (s : State) (reason : string) : list PlayerState :=
  if String.eqb reason FinishNormalCompleted then Players s
  else if ((Phase s =? PhaseFinalResult) || (Phase s =? PhaseFinished))
          && negb (length (f_Standings (finalSummary s)) =? 0)%nat
  then (fun player => player <| p_FinalWinner := false |>) <$> Players s
  else clearFinalDecorations (Players s).
Definition finishedSummary (s : State) (reason : string) : FinalSummary :=
  if String.eqb reason FinishNormalCompleted then finalSummary s
  else if ((Phase s =? PhaseFinalResult) || (Phase s =? PhaseFinished))
          && negb (length (f_Standings (finalSummary s)) =? 0)%nat
  then mkFinal ((fun standing => standing <| fs_Winner := false |>) <$> f_Standings (finalSummary s)) []
  else zeroFinal.
Definition finishedState (s : State) (reason : string) : State :=
  mkState (SchemaVersion s) PhaseFinished (CurrentRound s) 0 (u32 (PhaseGeneration s + 1)) (config s)
    (HostUserID s) (finishedPlayers s reason) (RoundHistory s) (finishedSummary s reason) reason.
Definition finishedEvents (s : State) (reason operator : string) : list Event :=
  [zeroEvent <| ev_Kind := EventSessionFinished |>
             <| ev_FinishReason := reason |>
             <| ev_OperatorUserID := operator |>
             <| ev_Round := CurrentRound s |>].

Lemma finishWithReason_eq s reason operator :
  finishWithReason s reason operator = (finishedState s reason, finishedEvents s reason operator).
Proof.
  unfold finishWithReason, finishedState, finishedPlayers, finishedSummary, finishedEvents.
  destruct (String.eqb reason FinishNormalCompleted); [done|].
  cbn [negb]. match goal with |- context [?a && negb (length (f_Standings (finalSummary ?x)) =? 0)%nat] =>
    change (finalSummary x) with (finalSummary s) end.
  by destruct (_ && _).
Qed.

(** Finishing keeps everything but phases, decorations and selections. *)
Lemma finishedPlayers_map s reason :
  exists f, finishedPlayers s reason = f <$> Players s
    /\ forall p, f p = p \/ f p = (p <| p_FinalWinner := false |>)
                 \/ f p = (p <| p_FinalWinner := false |> <| p_FinalRank := 0 |>).
Proof.
  unfold finishedPlayers. destruct (String.eqb _ _); [exists id|destruct (_ && _); eexists].
  - split; [by rewrite list_fmap_id|]. intros p. by left.
  - split; [done|]. intros p. right. by left.
  - split; [done|]. intros p. right. by right.
Qed.

Lemma PlayerOK_finished phase round p :
  PlayerOK phase round p -> p_PendingSelection p = zeroPending -> PlayerOK PhaseFinished round p.
Proof. intros [? ? ? ? _ ? ? _] Hz. split; try done. by left. Qed.

(** What [Validate] says about a pending selection. *)
Lemma fold_result_elem {E S A} (f : S -> A -> result E S) s l s' x :
  fold_result f s l = Ok s' -> x ∈ l -> exists s1 s2, f s1 x = Ok s2.
Proof.
  revert s. induction l as [|y l IH]; intros s H Hx; [by apply not_elem_of_nil in Hx|]. cbn in H.
  destruct (f s y) as [s1|] eqn:Ef; [|done]. apply elem_of_cons in Hx as [->|Hx]; [eauto|by eapply IH].
Qed.

Lemma Validate_pending t p :
  Validate t = Ok tt -> p ∈ Players t -> ps_Round (p_PendingSelection p) <> 0 -> selecting (Phase t).
Proof.
  intros H Hp Hr. unfold Validate in H. do 4 inv_result H.
  apply (fold_result_elem _ _ _ _ p) in E2 as (s1 & s2 & Hv); [|done]. unfold validatePlayer in Hv.
  do 6 inv_result Hv. rewrite (proj2 (Z.eqb_neq _ _) Hr) in Hv. cbn [negb] in Hv.
  destruct (negb (Phase t =? PhaseRoundOneSelecting) && negb (Phase t =? PhaseRoundTwoSelecting)) eqn:Es; [done|].
  apply andb_false_iff in Es as [Es|Es]; to_prop; [by left|by right].
Qed.

(** Ending a session whose players have been replaced, a departure included. *)
Section Finishing.
Context (s : State) (H : Inv s) (Hnf : Phase s <> PhaseFinished).
Context (reason : string) (Hre : validFinishReason reason = true).
Context (players : list PlayerState) (Hro : RosterOK (HostUserID s) players).
Context (Hlen : length players = length (Players s)).
Context (HF : Forall (PlayerOK (Phase s) (CurrentRound s)) players).

Lemma finished_Inv :
  (forall p, p ∈ players -> p_PendingSelection p = zeroPending) ->
  Inv (finishedState (withPlayers s players) reason).
Proof.
  intros Hz. pose proof (inv_phase _ H) as Hb.
  destruct (finishedPlayers_map (withPlayers s players) reason) as (f & Hf & Hfp).
  assert (Hfield : forall A (g : PlayerState -> A), (forall p, g (p <| p_FinalWinner := false |>) = g p) ->
            (forall p, g (p <| p_FinalWinner := false |> <| p_FinalRank := 0 |>) = g p) ->
            forall p, g (f p) = g p).
  { intros A g H1 H2 p. by destruct (Hfp p) as [->|[->| ->]]. }
  cbn [withPlayers Players] in Hf.
  split; cbn [finishedState withPlayers SchemaVersion Phase CurrentRound PhaseDeadlineUnixMillis PhaseGeneration config
    HostUserID Players RoundHistory finalSummary FinishReason]; rewrite ?Hf, ?length_fmap, ?Hlen; try done; try apply H.
  - split; [apply H|done].
  - split; [|done]. rewrite (u32_next s H Hnf). unfold PhaseRoundOneSelecting, PhaseFinished in *. lia.
  - by apply RosterOK_map; [apply Hfield..|].
  - eapply Forall_map; [apply HF|]. intros p Hp Hok.
    pose proof (PlayerOK_finished _ _ _ Hok (Hz p Hp)) as Hfin.
    destruct (Hfp p) as [->|[->| ->]]; [done|..]; destruct Hfin as [? ? ? ? Hpend ? ? ?]; split; try done;
      left; exact (Hz p Hp).
  - destruct (inv_history _ H) as (k & Hk & Hrounds & _). by exists k.
  - unfold finishedSummary. destruct (String.eqb _ _); [apply (inv_standings _ H)|].
    destruct (_ && _); [|constructor]. cbn [f_Standings]. rewrite <- list_fmap_compose. apply (inv_standings _ H).
Qed.

(** A session that ends with a selection pending does not validate, one that
    ends without does. *)
Lemma finished_validates :
  Validate (finishedState (withPlayers s players) reason) = Ok tt
  <-> forall p, p ∈ players -> p_PendingSelection p = zeroPending.
Proof.
  split; [|intros Hz; by apply Inv_Validate, finished_Inv].
  intros Hv p Hp. pose proof (proj1 (Forall_forall _ _) HF p Hp) as Hok.
  destruct (po_pending _ _ _ Hok) as [?|Hsel]; [done|]. exfalso.
  destruct (finishedPlayers_map (withPlayers s players) reason) as (f & Hf & Hfp).
  assert (Hin : f p ∈ Players (finishedState (withPlayers s players) reason)).
  { cbn [finishedState Players]. rewrite Hf. by apply list_elem_of_fmap_2. }
  assert (Hr : ps_Round (p_PendingSelection (f p)) = CurrentRound s).
  { destruct (Hfp p) as [->|[->| ->]]; apply (sel_round _ _ _ Hsel). }
  destruct (inv_round _ H) as [Hr1 _].
  destruct (Validate_pending _ _ Hv Hin ltac:(rewrite Hr; lia)) as [?|?]; done.
Qed.
End Finishing.

(** ** Revocations *)
Definition revoked (p : PlayerState) : PlayerState :=
  p <| p_Active := false |> <| p_PendingSelection := zeroPending |>.
Definition revokedState (s : State) (i : nat) : State :=
  withPlayers s (decorated (f_Standings (finalSummary s)) <$> <[i := revoked (Players s !!! i)]> (Players s)).

Lemma revoked_ok phase round p : PlayerOK phase round p -> PlayerOK phase round (revoked p).
Proof. intros [? ? ? ? _ ? ? ?]. split; try done. by left. Qed.

Lemma decorated_twice standings p : decorated standings (decorated standings p) = decorated standings p.
Proof.
  unfold decorated at 1. rewrite decorated_user. unfold decorated.
  destruct (List.find _ standings); by destruct p.
Qed.

Section Revoke.
Context (s : State) (H : Inv s) (Hnf : Phase s <> PhaseFinished).
Context (userID : string) (i : nat) (Hi : playerIndex (Players s) userID = Some i).
Context (Ha : p_Active (Players s !!! i) = true).

Lemma revoked_roster :
  RosterOK (HostUserID s) (<[i := revoked (Players s !!! i)]> (Players s)).
Proof.
  destruct (index_elem s userID i Hi) as (Hlook & _ & _).
  eapply RosterOK_insert; [apply (inv_roster _ H)|exact Hlook|done..].
Qed.

Lemma revoked_count : activeCount (Players s) = S (activeCount (Players (revokedState s i))).
Proof.
  destruct (index_elem s userID i Hi) as (Hlook & _ & _). cbn [revokedState withPlayers Players].
  rewrite activeCount_map by (intros p; by apply decorated_field).
  by apply (activeCount_deactivate _ i (Players s !!! i)).
Qed.

Lemma revokedState_ok :
  RosterOK (HostUserID s) (Players (revokedState s i))
  /\ Forall (PlayerOK (Phase s) (CurrentRound s)) (Players (revokedState s i)).
Proof.
  destruct (index_elem s userID i Hi) as (_ & Hin & _). split; [apply decorated_roster, revoked_roster|].
  cbn [revokedState withPlayers Players].
  eapply (Forall_map _ (PlayerOK (Phase s) (CurrentRound s))).
  - apply Forall_insert_b; [apply (inv_players _ H)|]. by apply revoked_ok, player_ok.
  - intros p _ Hok. by apply decorated_ok.
Qed.

Lemma revokedState_Inv : (3 <= activeCount (Players s))%nat -> Inv (revokedState s i).
Proof.
  intros Hc. destruct revokedState_ok as [Hro HF]. pose proof revoked_count as Hcount.
  apply Inv_players; [done|done|done| |done|].
  - by rewrite length_fmap, length_insert.
  - change (2 <= activeCount (Players (revokedState s i)))%nat. lia.
Qed.

Definition revokeEvent (userID : string) (i : nat) : Event :=
  zeroEvent <| ev_Kind := EventParticipantRevoked |>
            <| ev_UserID := userID |>
            <| ev_Round := CurrentRound s |>
            <| ev_Phase := Phase s |>
            <| ev_RemovedPendingSelection := ps_Round (p_PendingSelection (Players s !!! i)) =? CurrentRound s |>
            <| ev_ActivePlayerCount := Z.of_nat (activeCount (Players (revokedState s i))) |>.

Lemma RevokeParticipant_eq now :
  RevokeParticipant s userID now =
  if (activeCount (Players s) =? 2)%nat then
    Ok (finishedState (revokedState s i) FinishInsufficientParticipants,
        revokeEvent userID i :: finishedEvents s FinishInsufficientParticipants "")
  else if ((Phase s =? PhaseRoundOneSelecting) || (Phase s =? PhaseRoundTwoSelecting))
          && allActivePlayersSubmitted (revokedState s i) then
    let* deadline := deadlineForPhase now (Phase s + 1) (config s) in
    Ok (settledState (revokedState s i) deadline,
        revokeEvent userID i :: settledEvents (revokedState s i) deadline)
  else Ok (revokedState s i, [revokeEvent userID i]).
Proof.
  unfold RevokeParticipant. rewrite (Inv_Validate s H). cbn [bind_result].
  rewrite (proj2 (Z.eqb_neq (Phase s) PhaseFinished) Hnf), Hi, Ha. cbn [negb]. rewrite CloneT_id.
  assert (Hdec : recomputeFinalDecorations
            (s <| Players := <[i := revoked (Players s !!! i)]> (Players s) |>) = revokedState s i).
  { unfold recomputeFinalDecorations, revokedState.
    match goal with |- context [foldl decorate (clearFinalDecorations ?ps) ?sts] =>
      change ps with (<[i := revoked (Players s !!! i)]> (Players s)); change sts with (f_Standings (finalSummary s)) end.
    rewrite decorate_all; [done|apply revoked_roster|apply (inv_standings _ H)]. }
  assert (Hdec2 : recomputeFinalDecorations (revokedState s i) = revokedState s i).
  { unfold recomputeFinalDecorations.
    match goal with |- context [foldl decorate (clearFinalDecorations ?ps) ?sts] =>
      change ps with (Players (revokedState s i)); change sts with (f_Standings (finalSummary s)) end.
    rewrite decorate_all; [|apply revokedState_ok|apply (inv_standings _ H)].
    cbn [revokedState withPlayers Players]. rewrite <- list_fmap_compose.
    rewrite (list_fmap_ext _ (decorated (f_Standings (finalSummary s)))); [done|].
    intros k p _. apply decorated_twice. }
  cbv zeta. fold (revoked (Players s !!! i)). rewrite Hdec.
  change (CurrentRound (revokedState s i)) with (CurrentRound s).
  change (Phase (revokedState s i)) with (Phase s).
  pose proof revoked_count as Hcount. pose proof (inv_active _ H Hnf) as Hact.
  assert (Hsmall : u32 (Z.of_nat (activeCount (Players (revokedState s i))))
                   = Z.of_nat (activeCount (Players (revokedState s i)))).
  { apply u32_small. unfold is_u32, maxUint32. pose proof (players_at_most_nine s H).
    pose proof (countb_le p_Active (Players s)) as Hle. fold (activeCount (P := PlayerState) (Players s)) in Hle.
    change (countb p_Active (Players s)) with (activeCount (Players s)) in Hle. lia. }
  rewrite Hsmall. change (Z.of_nat MinimumPlayers) with 2. rewrite finishWithReason_eq.
  destruct (Nat.eqb_spec (activeCount (Players s)) 2) as [E2|N2].
  - replace (Z.of_nat (activeCount (Players (revokedState s i))) <? 2) with true by lia. done.
  - replace (Z.of_nat (activeCount (Players (revokedState s i))) <? 2) with false by lia.
    pose proof (revokedState_Inv ltac:(lia)) as Hnext.
    destruct ((Phase s =? PhaseRoundOneSelecting) || (Phase s =? PhaseRoundTwoSelecting)) eqn:Esel; cbn [andb].
    + assert (Hsel : selecting (Phase (revokedState s i)))
        by (apply orb_true_iff in Esel as [E|E]; to_prop; [by left|by right]).
      destruct (allActivePlayersSubmitted (revokedState s i)) eqn:Hall.
      * rewrite (settle_eq _ now Hnext Hsel Hall).
        change (Phase (revokedState s i)) with (Phase s). change (config (revokedState s i)) with (config s).
        by destruct (deadlineForPhase now (Phase s + 1) (config s)).
      * rewrite Hdec2. unfold validated.
        destruct ((Phase s =? PhaseFinalResult) || (Phase s =? PhaseRoundThreeResult));
          by rewrite (Inv_Validate _ Hnext).
    + rewrite Hdec2. unfold validated.
      destruct ((Phase s =? PhaseFinalResult) || (Phase s =? PhaseRoundThreeResult));
        by rewrite (Inv_Validate _ Hnext).
Qed.
End Revoke.
End ThreeSession.
