(* ===== verification/ThreeEngine.v ===== *)
(** * Three rounds: the transitions of a session

    [Outcome] lists the transitions a stored session can make, one rule per way
    an input is accepted; [handle_outcome] shows that the handlers make exactly
    these.  The invariant, the engine interface of [Engine] and a measure that
    every accepted input decreases follow by inversion of the rules.  A refused
    input is refused with a rule error: no index is out of range. *)

From stdpp Require Import gmap.
From S2P Require Import Prelude Roster Engine ThreeCards ThreeDeck ThreeHands ThreeHandsFacts ThreeRounds ThreeSettle ThreeInvariant ThreeRoundsFacts ThreeStandings ThreeSession.

Module ThreeEngine.
Import Roster ThreeCards ThreeDeck ThreeHands ThreeRounds ThreeSettle ThreeInvariant ThreeRoundsFacts ThreeStandings
  ThreeSession.

(** ** The transitions *)
Definition nonePending (players : list PlayerState) : Prop :=
  forall p, p ∈ players -> p_PendingSelection p = zeroPending.

(** The participant [userID] at index [k] may leave. *)
Record Removable (s : State) (userID : string) (k : nat) : Prop := {
  rem_live : Phase s <> PhaseFinished;
  rem_index : playerIndex (Players s) userID = Some k;
  rem_active : p_Active (Players s !!! k) = true;
}.

Inductive Outcome (s : State) : Input -> State -> list Event -> Prop :=
| Recorded actor round ids auto now k :
    Submittable s actor round ids now k ->
    allActivePlayersSubmitted (submittedState s k round ids auto) = false ->
    Outcome s (InSubmit actor round ids auto now) (submittedState s k round ids auto)
      [submitEvent actor round auto]
| Completed actor round ids auto now k deadline :
    Submittable s actor round ids now k ->
    allActivePlayersSubmitted (submittedState s k round ids auto) = true ->
    deadlineForPhase now (Phase s + 1) (config s) = Ok deadline ->
    Outcome s (InSubmit actor round ids auto now)
      (settledState (submittedState s k round ids auto) deadline)
      (submitEvent actor round auto :: settledEvents (submittedState s k round ids auto) deadline)
| Expired timer now deadline :
    Due s timer now -> Phase s <> PhaseFinalResult ->
    deadlineForPhase now (Phase s + 1) (config s) = Ok deadline ->
    Outcome s (InTimeout timer now) (timeoutState s deadline) (timeoutEvents s deadline)
| Concluded timer now :
    Due s timer now -> Phase s = PhaseFinalResult ->
    Outcome s (InTimeout timer now) (finishedState s FinishNormalCompleted)
      (finishedEvents s FinishNormalCompleted "")
| Left userID now k :
    Removable s userID k -> activeCount (Players s) <> 2%nat ->
    ~ (selecting (Phase s) /\ allActivePlayersSubmitted (revokedState s k) = true) ->
    Outcome s (InRevoke userID now) (revokedState s k) [revokeEvent s userID k]
| LeftSettled userID now k deadline :
    Removable s userID k -> activeCount (Players s) <> 2%nat ->
    selecting (Phase s) -> allActivePlayersSubmitted (revokedState s k) = true ->
    deadlineForPhase now (Phase s + 1) (config s) = Ok deadline ->
    Outcome s (InRevoke userID now) (settledState (revokedState s k) deadline)
      (revokeEvent s userID k :: settledEvents (revokedState s k) deadline)
| LeftAlone userID now k :
    Removable s userID k -> activeCount (Players s) = 2%nat -> nonePending (Players (revokedState s k)) ->
    Outcome s (InRevoke userID now) (finishedState (revokedState s k) FinishInsufficientParticipants)
      (revokeEvent s userID k :: finishedEvents s FinishInsufficientParticipants "")
| Stopped reason operator :
    Phase s <> PhaseFinished -> Phase s <> PhaseFinalResult ->
    reason = ""%string \/ reason = FinishHostRequested -> operator <> ""%string ->
    nonePending (Players s) ->
    Outcome s (InFinish reason operator) (finishedState s FinishHostRequested)
      (finishedEvents s FinishHostRequested operator).

#[global] Instance Timer_eq_dec : EqDecision Timer.
Proof. solve_decision. Defined.

(** ** The guards of the operations *)
Lemma HandleTimeout_guard s timer now :
  Inv s -> ~ Due s timer now ->
  exists code detail, HandleTimeout s timer now = ruleError code detail.
Proof.
  intros H Hd. unfold HandleTimeout. rewrite (Inv_Validate s H). cbn [bind_result].
  destruct (Z.eqb_spec (Phase s) PhaseFinished) as [|Hnf]; [eauto|].
  destruct (negb (t_Phase timer =? Phase s) || _ || _ || _) eqn:G1; [eauto|].
  destruct (negb (validUnixMillis now) || _ || _) eqn:G2; [eauto|]. exfalso. apply Hd.
  unfold validUnixMillis in G2. repeat rewrite orb_false_iff in G1, G2. destruct_and!. to_prop.
  split; [|lia]. apply CurrentTimer_Some. split_and!; [done| |lia|].
  - pose proof (inv_phase _ H). unfold PhaseRoundOneSelecting, PhaseDealing in *. lia.
  - destruct timer as [a b c d]; cbn in *. congruence.
Qed.

Lemma RevokeParticipant_guard s userID now :
  Inv s -> (forall k, ~ Removable s userID k) ->
  exists code detail, RevokeParticipant s userID now = ruleError code detail.
Proof.
  intros H Hr. unfold RevokeParticipant. rewrite (Inv_Validate s H). cbn [bind_result].
  destruct (Z.eqb_spec (Phase s) PhaseFinished) as [|Hnf]; [eauto|].
  destruct (playerIndex (Players s) userID) as [k|] eqn:Hk; [|eauto].
  destruct (p_Active (Players s !!! k)) eqn:Ha; cbn [negb]; [|eauto]. by destruct (Hr k).
Qed.

Lemma Finish_eq s reason operator :
  Inv s ->
  (exists code detail, Finish s reason operator = ruleError code detail)
  \/ (Phase s <> PhaseFinished /\ Phase s <> PhaseFinalResult
      /\ (reason = ""%string \/ reason = FinishHostRequested) /\ operator <> ""%string
      /\ Finish s reason operator
         = Ok (finishedState s FinishHostRequested, finishedEvents s FinishHostRequested operator)).
Proof.
  intros H. unfold Finish. rewrite (Inv_Validate s H). cbn [bind_result]. rewrite CloneT_id.
  destruct (Z.eqb_spec (Phase s) PhaseFinished) as [|Hnf]; [eauto|].
  destruct (Z.eqb_spec (Phase s) PhaseFinalResult) as [|Hn7]; [eauto|]. cbv zeta.
  destruct (String.eqb_spec operator "") as [|Hop]; [rewrite orb_true_r; eauto|]. rewrite orb_false_r.
  destruct (String.eqb_spec reason "") as [->|Hne].
  - right. split_and!; try done; [by left|]. cbn [negb]. by rewrite String.eqb_refl, finishWithReason_eq.
  - destruct (String.eqb_spec reason FinishHostRequested) as [->|Hh]; cbn [negb]; [|eauto].
    right. split_and!; try done; [by right|]. by rewrite finishWithReason_eq.
Qed.

(** ** The end of a session *)
Lemma withPlayers_id s : withPlayers s (Players s) = s.
Proof. by destruct s. Qed.

Lemma finish_Inv s reason :
  Inv s -> Phase s <> PhaseFinished -> validFinishReason reason = true -> nonePending (Players s) ->
  Inv (finishedState s reason).
Proof.
  intros H Hnf Hre Hz. rewrite <- (withPlayers_id s).
  apply finished_Inv; [done|done|done|apply H|done|apply H|done].
Qed.

Lemma finish_validates s reason :
  Inv s -> Phase s <> PhaseFinished -> validFinishReason reason = true ->
  Validate (finishedState s reason) = Ok tt <-> nonePending (Players s).
Proof.
  intros H Hnf Hre. rewrite <- (withPlayers_id s) at 1.
  apply finished_validates; [done|done|done|apply H|done|apply H].
Qed.

Section Leaving.
Context (s : State) (H : Inv s) (userID : string) (k : nat) (Hr : Removable s userID k).

Lemma left_players :
  RosterOK (HostUserID s) (Players (revokedState s k))
  /\ Forall (PlayerOK (Phase s) (CurrentRound s)) (Players (revokedState s k))
  /\ length (Players (revokedState s k)) = length (Players s).
Proof.
  destruct (revokedState_ok s H userID k (rem_index _ _ _ Hr)) as [Hro HF]. split_and!; [done|done|].
  cbn [revokedState withPlayers Players]. by rewrite length_fmap, length_insert.
Qed.

Lemma left_Inv : activeCount (Players s) <> 2%nat -> Inv (revokedState s k).
Proof.
  intros Hc. pose proof (inv_active _ H (rem_live _ _ _ Hr)).
  apply (revokedState_Inv s H (rem_live _ _ _ Hr) userID); [apply Hr..|lia].
Qed.

Lemma leftAlone_Inv :
  nonePending (Players (revokedState s k)) ->
  Inv (finishedState (revokedState s k) FinishInsufficientParticipants).
Proof.
  intros Hz. destruct left_players as (Hro & HF & Hlen). unfold revokedState in *.
  apply finished_Inv; [done|apply Hr|done..].
Qed.

Lemma leftAlone_validates :
  Validate (finishedState (revokedState s k) FinishInsufficientParticipants) = Ok tt
  <-> nonePending (Players (revokedState s k)).
Proof.
  destruct left_players as (Hro & HF & Hlen). unfold revokedState in *.
  apply finished_validates; [done|apply Hr|done..].
Qed.
End Leaving.

(** ** Refusals are rule errors *)
Definition refused {A} (r : res A) : Prop := exists code detail, r = ruleError code detail.
Definition ruled {A} (r : res A) : Prop := (exists value, r = Ok value) \/ refused r.

Lemma ruled_ok {A} (value : A) : ruled (Ok value). Proof. left. eauto. Qed.
Lemma ruled_err {A} code detail : ruled (A := A) (ruleError code detail). Proof. right. by eexists _, _. Qed.
Lemma ruled_bind {A B} (r : res A) (f : A -> res B) : ruled r -> (forall a, ruled (f a)) -> ruled (let* a := r in f a).
Proof. intros [[a ->]|(code & detail & ->)] Hf; [apply Hf|apply ruled_err]. Qed.
Lemma ruled_if {A} (b : bool) (r r' : res A) : ruled r -> ruled r' -> ruled (if b then r else r').
Proof. by destruct b. Qed.
Lemma ruled_fold {S A} (f : S -> A -> res S) s l :
  (forall s a, ruled (f s a)) -> ruled (fold_result f s l).
Proof.
  intros Hf. revert s. induction l as [|a l IH]; intros s; [apply ruled_ok|].
  apply (ruled_bind (f s a)); [apply Hf|apply IH].
Qed.

Create HintDb ruled.
#[local] Hint Resolve ruled_ok ruled_err ruled_bind ruled_if ruled_fold : ruled.

Lemma ruled_addDeadline now seconds : ruled (addDeadline now seconds).
Proof. unfold addDeadline. auto with ruled. Qed.
Lemma ruled_deadline now phase cfg : ruled (deadlineForPhase now phase cfg).
Proof. unfold deadlineForPhase. auto 8 using ruled_addDeadline with ruled. Qed.
Lemma ruled_Config cfg n : ruled (Config_Validate cfg n).
Proof. unfold Config_Validate. auto with ruled. Qed.
Lemma ruled_checkInitial seen hand : ruled (checkInitial seen hand).
Proof. revert seen. induction hand as [|c l IH]; intros seen; cbn; [|destruct (ParseCardID c)]; auto with ruled. Qed.
Lemma ruled_checkAllocated seen set : ruled (checkAllocated seen set).
Proof. revert seen. induction set as [|c l IH]; intros seen; cbn; [|destruct (ParseCardID c)]; auto with ruled. Qed.
Lemma ruled_checkPending remaining ids : ruled (checkPending remaining ids).
Proof. induction ids as [|c l IH]; cbn; [|destruct (ParseCardID c)]; auto with ruled. Qed.
Lemma ruled_checkHistory round rounds : ruled (checkHistory round rounds).
Proof. revert round. induction rounds as [|r l IH]; intros round; cbn; auto with ruled. Qed.
Lemma ruled_checkSelection remaining seen ids : ruled (checkSelection remaining seen ids).
Proof. revert seen. induction ids as [|c l IH]; intros seen; cbn; [|destruct (ParseCardID c)]; auto with ruled. Qed.
#[local] Hint Resolve ruled_deadline ruled_Config ruled_checkInitial ruled_checkAllocated ruled_checkPending
  ruled_checkHistory ruled_checkSelection : ruled.

Lemma ruled_validatePlayer s seen p : ruled (validatePlayer s seen p).
Proof. unfold validatePlayer, validatePlayerCards. cbv zeta. auto 20 with ruled. Qed.
#[local] Hint Resolve ruled_validatePlayer : ruled.

Lemma ruled_Validate s : ruled (Validate s).
Proof. unfold Validate. auto 20 with ruled. Qed.

Lemma ruled_selectable s actor round ids now : ruled (validateSelectableAction s actor round ids now).
Proof.
  unfold validateSelectableAction. apply ruled_bind; [apply ruled_Validate|]. intros _.
  destruct (playerIndex (Players s) actor); cbv zeta; auto 20 with ruled.
Qed.

(** ** Transitions keep the invariant *)
Lemma selecting_spec phase :
  (phase =? PhaseRoundOneSelecting) || (phase =? PhaseRoundTwoSelecting) = true <-> selecting phase.
Proof. unfold selecting. rewrite orb_true_iff, !Z.eqb_eq. done. Qed.

Lemma live_selecting phase : selecting phase -> phase <> PhaseFinished.
Proof. by intros [->| ->]. Qed.

Lemma final_none_pending s : Inv s -> ~ selecting (Phase s) -> nonePending (Players s).
Proof. intros H Hs p Hp. eapply pending_zero; [by apply player_ok|done]. Qed.

Lemma Outcome_Inv s i s' es : Inv s -> Outcome s i s' es -> Inv s'.
Proof.
  intros H. destruct 1 as [actor round ids auto now k Hs Hall|actor round ids auto now k deadline Hs Hall Hd
    |timer now deadline Hdue Hn7 Hd|timer now Hdue H7|userID now k Hr Hc _|userID now k deadline Hr Hc Hsel Hall Hd
    |userID now k Hr Hc Hz|reason operator Hnf Hn7 Hre Hop Hz].
  - by eapply submittedState_Inv.
  - eapply settle_Inv; [by eapply submittedState_Inv|apply (sub_phase _ _ _ _ _ _ Hs)|done|done].
  - by eapply timeoutState_Inv.
  - apply finish_Inv; [done|by rewrite H7|done|]. apply final_none_pending; [done|]. rewrite H7. by intros [?|?].
  - by eapply left_Inv.
  - eapply settle_Inv; [by eapply left_Inv|done..].
  - by eapply leftAlone_Inv.
  - by apply finish_Inv.
Qed.

(** ** The handlers make exactly these transitions *)
Lemma handle_stored s i s' es : step s i = Ok (s', es) -> Inv s' -> handle s i = Ok (s', es).
Proof. intros Hs H. unfold handle, EncodeState. rewrite Hs. cbn [bind_result]. by rewrite (Inv_Validate s' H). Qed.

Lemma outcome_handle s i s' es : Inv s -> Outcome s i s' es -> handle s i = Ok (s', es).
Proof.
  intros H Ho. apply handle_stored; [|by eapply Outcome_Inv].
  destruct Ho as [actor round ids auto now k Hs Hall|actor round ids auto now k deadline Hs Hall Hd
    |timer now deadline Hdue Hn7 Hd|timer now Hdue H7|userID now k [Hnf Hi Ha] Hc Hno
    |userID now k deadline [Hnf Hi Ha] Hc Hsel Hall Hd
    |userID now k [Hnf Hi Ha] Hc Hz|reason operator Hnf Hn7 Hre Hop Hz]; cbn [step].
  - rewrite (SubmitSelection_eq _ _ _ _ _ _ k H Hs). cbv zeta. by rewrite Hall.
  - rewrite (SubmitSelection_eq _ _ _ _ _ _ k H Hs). cbv zeta. by rewrite Hall, Hd.
  - rewrite (HandleTimeout_eq _ _ _ H Hdue), (proj2 (Z.eqb_neq _ _) Hn7). by rewrite Hd.
  - rewrite (HandleTimeout_eq _ _ _ H Hdue), H7, Z.eqb_refl. by rewrite finishWithReason_eq.
  - rewrite (RevokeParticipant_eq s H Hnf userID k Hi Ha), (proj2 (Nat.eqb_neq _ _) Hc).
    destruct (_ && _) eqn:E; [|done]. apply andb_true_iff in E as [?%selecting_spec ?]. by destruct Hno.
  - rewrite (RevokeParticipant_eq s H Hnf userID k Hi Ha), (proj2 (Nat.eqb_neq _ _) Hc).
    rewrite (proj2 (selecting_spec _) Hsel), Hall. cbn [andb]. by rewrite Hd.
  - by rewrite (RevokeParticipant_eq s H Hnf userID k Hi Ha), Hc.
  - unfold Finish. rewrite (Inv_Validate s H). cbn [bind_result]. rewrite CloneT_id.
    rewrite (proj2 (Z.eqb_neq _ _) Hnf), (proj2 (Z.eqb_neq _ _) Hn7).
    rewrite (proj2 (eqb_string_false _ _) Hop). destruct Hre as [->| ->]; cbn; by rewrite finishWithReason_eq.
Qed.

(** A bind whose continuation is [Ok] for a deadline. *)
Lemma handle_deadline s i now phase (f : Z -> State * list Event) :
  step s i = (let* deadline := deadlineForPhase now phase (config s) in Ok (f deadline)) ->
  refused (handle s i) \/ exists deadline, deadlineForPhase now phase (config s) = Ok deadline.
Proof.
  intros Hs. destruct (ruled_deadline now phase (config s)) as [Hd|(code & detail & Hd)]; [by right|].
  left. exists code, detail. unfold handle. by rewrite Hs, Hd.
Qed.

Lemma handle_refused s i : refused (step s i) -> refused (handle s i).
Proof. intros (code & detail & Hs). exists code, detail. unfold handle. by rewrite Hs. Qed.

Lemma handle_ending s i t es :
  step s i = Ok (t, es) -> refused (handle s i) \/ Validate t = Ok tt.
Proof.
  intros Hs. destruct (ruled_Validate t) as [[[] Hv]|(code & detail & Hv)]; [by right|].
  left. exists code, detail. unfold handle, EncodeState. rewrite Hs. cbn [bind_result]. by rewrite Hv.
Qed.

Lemma handle_cases s i :
  Inv s -> refused (handle s i) \/ exists s' es, Outcome s i s' es.
Proof.
  intros H. destruct i as [actor round ids auto now|timer now|userID now|reason operator].
  - destruct (ruled_selectable s actor round ids now) as [[[] Hv]|(code & detail & Hv)].
    2: { left. apply handle_refused. exists code, detail. cbn [step]. unfold SubmitSelection. by rewrite Hv. }
    apply (validateSelectable_Ok s actor round ids now H) in Hv as [k Hs].
    pose proof (SubmitSelection_eq s actor round ids auto now k H Hs) as Heq. cbv zeta in Heq.
    destruct (allActivePlayersSubmitted (submittedState s k round ids auto)) eqn:Hall.
    + destruct (handle_deadline s (InSubmit actor round ids auto now) _ _ _ Heq) as [?|[deadline Hd]]; [by left|].
      right. eexists _, _. by eapply Completed.
    + right. eexists _, _. by eapply Recorded.
  - destruct (decide (CurrentTimer s = Some timer /\ t_DeadlineUnixMillis timer <= now)) as [[Ht Hnow]|Hn].
    2: { left. apply handle_refused, HandleTimeout_guard; [done|]. intros [? ?]. by destruct Hn. }
    assert (Hdue : Due s timer now) by by split. pose proof (HandleTimeout_eq s timer now H Hdue) as Heq.
    destruct (Z.eqb_spec (Phase s) PhaseFinalResult) as [H7|Hn7].
    + right. eexists _, _. by apply Concluded.
    + destruct (handle_deadline s (InTimeout timer now) _ _ _ Heq) as [?|[deadline Hd]]; [by left|].
      right. eexists _, _. by eapply Expired.
  - destruct (decide (Phase s = PhaseFinished)) as [Hf|Hnf].
    { left. apply handle_refused, RevokeParticipant_guard; [done|]. intros k [? _ _]. done. }
    destruct (playerIndex (Players s) userID) as [k|] eqn:Hi.
    2: { left. apply handle_refused, RevokeParticipant_guard; [done|]. intros k [_ ? _]. congruence. }
    destruct (p_Active (Players s !!! k)) eqn:Ha.
    2: { left. apply handle_refused, RevokeParticipant_guard; [done|]. intros k' [_ ? ?]. congruence. }
    pose proof (RevokeParticipant_eq s H Hnf userID k Hi Ha now) as Heq.
    assert (Hr : Removable s userID k) by by split.
    destruct (Nat.eqb_spec (activeCount (Players s)) 2) as [Hc|Hc].
    + destruct (handle_ending s (InRevoke userID now) _ _ Heq) as [?|Hv]; [by left|].
      right. eexists _, _. eapply LeftAlone; [done|done|]. by apply (leftAlone_validates s H userID).
    + destruct (_ && _) eqn:E.
      * apply andb_true_iff in E as [Hsel%selecting_spec Hall].
        destruct (handle_deadline s (InRevoke userID now) _ _ _ Heq) as [?|[deadline Hd]]; [by left|].
        right. eexists _, _. by eapply LeftSettled.
      * right. eexists _, _. apply Left; [done|done|]. intros [Hsel%selecting_spec Hall].
        by rewrite Hsel, Hall in E.
  - destruct (Finish_eq s reason operator H) as [?|(Hnf & Hn7 & Hre & Hop & Heq)]; [left; by apply handle_refused|].
    destruct (handle_ending s (InFinish reason operator) _ _ Heq) as [?|Hv]; [by left|].
    right. eexists _, _. apply Stopped; try done. by apply (finish_validates s FinishHostRequested H).
Qed.

Theorem handle_outcome s i s' es : Inv s -> handle s i = Ok (s', es) <-> Outcome s i s' es.
Proof.
  intros H. split; [|by apply outcome_handle]. intros Hh.
  destruct (handle_cases s i H) as [(code & detail & He)|(t & fs & Ho)]; [by rewrite He in Hh|].
  pose proof (outcome_handle s i t fs H Ho) as Ht. rewrite Ht in Hh. by injection Hh as <- <-.
Qed.

Lemma handle_Inv s i s' es : Inv s -> handle s i = Ok (s', es) -> Inv s'.
Proof. intros H Hh. eapply Outcome_Inv; [done|]. by apply handle_outcome. Qed.

Lemma handle_ruled s i : Inv s -> ruled (handle s i).
Proof.
  intros H. destruct (handle_cases s i H) as [Hr|(s' & es & Ho)]; [by right|].
  left. eexists. by apply outcome_handle.
Qed.

(** ** The engine interface *)
Definition Initial (s : State) : Prop :=
  exists fuel cfg participants host now seed es, NewState fuel cfg participants host now seed = Ok (s, es).

#[global] Instance three_ops : EngineOps State Input Event Failure := {|
  engine_step := handle;
  engine_input _ := True;
  engine_initial := Initial;
  engine_valid := Inv;
  engine_finished s := Phase s =? PhaseFinished;
|}.

Lemma finished_refuses s i : Phase s = PhaseFinished -> is_ok (step s i) = false.
Proof.
  intros Hf. destruct i; cbn [step];
    unfold SubmitSelection, validateSelectableAction, HandleTimeout, RevokeParticipant, Finish;
    (destruct (Validate s); cbn [bind_result]; [|done]); by rewrite Hf.
Qed.

#[global] Instance three_laws : EngineLaws State Input Event Failure.
Proof.
  split; cbn.
  - intros s (? & ? & ? & ? & ? & ? & ? & H). by eapply NewState_Inv.
  - intros s i s' es H _ Hh. by eapply handle_Inv.
  - intros s i Hf%Z.eqb_eq. pose proof (finished_refuses s i Hf) as Hr. unfold handle. by destruct (step s i).
Qed.
End ThreeEngine.
