(* ===== verification/ThreeProgress.v ===== *)
(** * Three rounds: sessions end

    [turnsLeft] bounds the inputs a session can still accept, and timers alone
    bring a session with timed selections to its regular end. *)

From stdpp Require Import gmap.
From S2P Require Import Prelude Roster Engine ThreeCards ThreeDeck ThreeHands ThreeRounds ThreeSettle ThreeInvariant ThreeRoundsFacts ThreeStandings ThreeSession ThreeEngine.

Module ThreeProgress.
Import Roster ThreeCards ThreeDeck ThreeHands ThreeRounds ThreeSettle ThreeInvariant ThreeRoundsFacts ThreeStandings
  ThreeSession ThreeEngine.

(** ** The measure *)
Definition awaitedCount (s : State) : nat := countb (awaited (CurrentRound s)) (Players s).

(** Phases to come, players who may leave, and selections awaited in this round
    and the next. *)
Definition turnsLeft (s : State) : nat :=
  Z.to_nat (PhaseFinished - Phase s) + activeCount (Players s)
  + (if (Phase s =? PhaseRoundOneSelecting) || (Phase s =? PhaseRoundTwoSelecting) then awaitedCount s else 0)
  + (if Phase s <=? PhaseRoundOneResult then activeCount (Players s) else 0).

Lemma countb_impl {A} (p q : A -> bool) l : (forall x, p x = true -> q x = true) -> (countb p l <= countb q l)%nat.
Proof.
  intros Hpq. unfold countb. induction l as [|a l IH]; cbn; [lia|].
  destruct (p a) eqn:Ea; [rewrite (Hpq a Ea)|destruct (q a)]; cbn; lia.
Qed.

Lemma countb_map {A} (p : A -> bool) (f : A -> A) l :
  (forall x, p (f x) = true -> p x = true) -> (countb p (f <$> l) <= countb p l)%nat.
Proof.
  intros Hp. unfold countb. induction l as [|a l IH]; cbn; [lia|].
  destruct (p (f a)) eqn:Ea; [rewrite (Hp a Ea)|destruct (p a)]; cbn; lia.
Qed.

Lemma countb_insert_le {A} (p : A -> bool) l i x y :
  l !! i = Some x -> (p y = true -> p x = true) -> (countb p (<[i := y]> l) <= countb p l)%nat.
Proof.
  unfold countb. revert i. induction l as [|a l IH]; intros [|i] Hi Hp; try done.
  - cbn in *. injection Hi as ->. destruct (p y); [rewrite Hp by done|destruct (p x)]; cbn; lia.
  - specialize (IH i Hi Hp). change (<[S i := y]> (a :: l)) with (a :: <[i := y]> l). cbn [List.filter].
    destruct (p a); cbn [length]; lia.
Qed.

Lemma countb_insert_lt {A} (p : A -> bool) l i x y :
  l !! i = Some x -> p x = true -> p y = false -> (countb p (<[i := y]> l) < countb p l)%nat.
Proof.
  unfold countb. revert i. induction l as [|a l IH]; intros [|i] Hi Hx Hy; try done.
  - cbn in *. injection Hi as ->. rewrite Hx, Hy. cbn. lia.
  - specialize (IH i Hi Hx Hy). change (<[S i := y]> (a :: l)) with (a :: <[i := y]> l). cbn [List.filter].
    destruct (p a); cbn [length]; lia.
Qed.

Lemma awaited_active s : (awaitedCount s <= activeCount (Players s))%nat.
Proof. apply (countb_impl (awaited (CurrentRound s)) p_Active). intros p. unfold awaited. by destruct (p_Active p). Qed.

(** A later phase with no more active players leaves fewer turns. *)
Lemma turnsLeft_later s s' :
  PhaseRoundOneSelecting <= Phase s -> Phase s < Phase s' <= PhaseFinished ->
  (activeCount (Players s') <= activeCount (Players s))%nat -> (turnsLeft s' < turnsLeft s)%nat.
Proof.
  intros Hb Hph Hac. unfold turnsLeft. pose proof (awaited_active s').
  unfold PhaseRoundOneSelecting, PhaseRoundTwoSelecting, PhaseRoundOneResult, PhaseFinished in *.
  destruct (Z.eqb_spec (Phase s') 2), (Z.eqb_spec (Phase s') 4), (Z.leb_spec (Phase s') 3),
    (Z.eqb_spec (Phase s) 2), (Z.eqb_spec (Phase s) 4), (Z.leb_spec (Phase s) 3); cbn [orb]; lia.
Qed.

Lemma settled_active s deadline :
  activeCount (Players (settledState s deadline)) = activeCount (Players s).
Proof. unfold settledState. destruct (_ =? _); by apply activeCount_map. Qed.

Lemma filled_active s : activeCount (Players (filledState s)) = activeCount (Players s).
Proof. apply activeCount_map. intros p. by apply autoFilled_field. Qed.

Lemma timeout_active s deadline : activeCount (Players (timeoutState s deadline)) = activeCount (Players s).
Proof.
  unfold timeoutState. destruct (_ || _); [by rewrite settled_active, filled_active|].
  destruct (_ =? _); [done|]. destruct (_ =? _); [by apply activeCount_map|].
  apply activeCount_map. intros p. by apply decorated_field.
Qed.

Lemma finished_active s reason : activeCount (Players (finishedState s reason)) = activeCount (Players s).
Proof.
  destruct (finishedPlayers_map s reason) as (f & Hf & Hfp). cbn [finishedState Players]. rewrite Hf.
  apply activeCount_map. intros p. by destruct (Hfp p) as [->|[->| ->]].
Qed.

Lemma recorded_awaited s actor round ids auto now k :
  Submittable s actor round ids now k -> (awaitedCount (submittedState s k round ids auto) < awaitedCount s)%nat.
Proof.
  intros Hs. destruct (index_elem s actor k (sub_actor _ _ _ _ _ _ Hs)) as (Hk & _ & _). unfold awaitedCount.
  cbn [submittedState withPlayers Players CurrentRound]. eapply countb_insert_lt; [exact Hk|..]; unfold awaited.
  - rewrite (sub_active _ _ _ _ _ _ Hs). cbn [andb]. apply negb_true_iff, Z.eqb_neq.
    rewrite <- (sub_round _ _ _ _ _ _ Hs). apply (sub_new _ _ _ _ _ _ Hs).
  - change (ps_Round (p_PendingSelection (recorded (Players s !!! k) round (canonicalSelection ids) auto))) with round.
    rewrite (sub_round _ _ _ _ _ _ Hs), Z.eqb_refl. apply andb_false_r.
Qed.

Lemma recorded_active s actor round ids auto now k :
  Submittable s actor round ids now k ->
  activeCount (Players (submittedState s k round ids auto)) = activeCount (Players s).
Proof.
  intros Hs. destruct (index_elem s actor k (sub_actor _ _ _ _ _ _ Hs)) as (Hk & _ & _).
  by apply (activeCount_insert_same _ k (Players s !!! k)).
Qed.

Lemma left_awaited s userID k :
  Removable s userID k -> (awaitedCount (revokedState s k) <= awaitedCount s)%nat.
Proof.
  intros Hr. destruct (index_elem s userID k (rem_index _ _ _ Hr)) as (Hk & _ & _). unfold awaitedCount.
  cbn [revokedState withPlayers Players CurrentRound]. etransitivity.
  - apply countb_map. intros p. unfold awaited. by rewrite !decorated_field.
  - by eapply countb_insert_le.
Qed.

(** Every transition uses a turn. *)
Lemma Outcome_turns s i s' es : Inv s -> Outcome s i s' es -> (turnsLeft s' < turnsLeft s)%nat.
Proof.
  intros H. pose proof (inv_phase _ H) as Hb. destruct 1 as [actor round ids auto now k Hs Hall
    |actor round ids auto now k deadline Hs Hall Hd
    |timer now deadline Hdue Hn7 Hd|timer now Hdue H7|userID now k Hr Hc _|userID now k deadline Hr Hc Hsel Hall Hd
    |userID now k Hr Hc Hz|reason operator Hnf Hn7 Hre Hop Hz].
  - pose proof (recorded_awaited _ _ _ _ auto _ _ Hs). unfold turnsLeft.
    rewrite (recorded_active _ _ _ _ auto _ _ Hs). change (Phase (submittedState s k round ids auto)) with (Phase s).
    rewrite (proj2 (selecting_spec _) (sub_phase _ _ _ _ _ _ Hs)). lia.
  - pose proof (sub_phase _ _ _ _ _ _ Hs) as Hsel. apply turnsLeft_later; [lia| |].
    + rewrite (settle_phase (submittedState s k round ids auto)) by done.
      cbn [submittedState withPlayers Phase]. pose proof (live_selecting _ Hsel). lia.
    + rewrite settled_active. by rewrite (recorded_active _ _ _ _ _ _ _ Hs).
  - destruct (timeoutState_Inv s timer now deadline H Hdue Hn7 Hd) as [_ Hph].
    destruct Hdue as [(Hnf & _)%CurrentTimer_Some _].
    apply turnsLeft_later; [lia|rewrite Hph; lia|by rewrite timeout_active].
  - apply turnsLeft_later; [lia|rewrite H7; done|by rewrite finished_active].
  - pose proof (left_awaited s userID k Hr). unfold turnsLeft.
    pose proof (revoked_count s userID k (rem_index _ _ _ Hr) (rem_active _ _ _ Hr)).
    change (Phase (revokedState s k)) with (Phase s). destruct (_ || _), (_ <=? _); lia.
  - pose proof (revoked_count s userID k (rem_index _ _ _ Hr) (rem_active _ _ _ Hr)).
    apply turnsLeft_later; [lia| |rewrite settled_active; lia].
    rewrite (settle_phase (revokedState s k)) by done. cbn [revokedState withPlayers Phase].
    pose proof (live_selecting _ Hsel). lia.
  - pose proof (revoked_count s userID k (rem_index _ _ _ Hr) (rem_active _ _ _ Hr)).
    pose proof (rem_live _ _ _ Hr). apply turnsLeft_later; [lia| |rewrite finished_active; lia].
    cbn [finishedState Phase]. lia.
  - apply turnsLeft_later; [lia| |by rewrite finished_active]. cbn [finishedState Phase]. lia.
Qed.

(** ** Timers alone *)

(** Both selecting phases have a timeout. *)
Definition timed (cfg : Config) : Prop := RoundOneTimeoutSeconds cfg <> 0 /\ RoundTwoTimeoutSeconds cfg <> 0.

(** The current timer fires, [delay] milliseconds after its deadline. *)
Definition fire (delay : Z) (s : State) : option State :=
  match CurrentTimer s with
  | Some timer =>
      match handle s (InTimeout timer (t_DeadlineUnixMillis timer + delay)) with
      | Ok (s', _) => Some s'
      | Err _ => None
      end
  | None => None
  end.

Fixpoint fireTimers (n : nat) (delay : Z) (s : State) : option State :=
  match n with
  | O => Some s
  | S n => match fire delay s with Some s' => fireTimers n delay s' | None => None end
  end.

Lemma fireTimers_snoc n delay s s' t :
  fireTimers n delay s = Some s' -> fire delay s' = Some t -> fireTimers (S n) delay s = Some t.
Proof.
  revert s. induction n as [|n IH]; intros s Hn Hf.
  - injection Hn as ->. cbn [fireTimers]. by rewrite Hf.
  - cbn [fireTimers] in Hn |- *. destruct (fire delay s) as [s1|]; [|done]. by apply (IH s1).
Qed.

Lemma deadlineForPhase_upper cfg n now phase d :
  Config_Validate cfg n = Ok tt -> deadlineForPhase now phase cfg = Ok d -> 0 < now -> d <= now + 120000.
Proof.
  intros Hc Hd Hnow. pose proof (three_config_bounds _ _ Hc) as Hb.
  assert (Hadd : forall seconds, 0 <= seconds <= 120 -> addDeadline now seconds = Ok d -> d <= now + 120000)
    by (intros seconds Hs Ha; apply addDeadline_Ok in Ha; lia).
  unfold deadlineForPhase in Hd.
  repeat match type of Hd with (if ?b then _ else _) = _ => destruct b end;
    try (eapply Hadd; [|exact Hd]; lia). injection Hd as <-. lia.
Qed.

Section Timers.
Context (delay : Z) (Hdelay : 0 <= delay).

Lemma timed_deadline s :
  Inv s -> timed (config s) -> Phase s <> PhaseFinished -> 0 < PhaseDeadlineUnixMillis s.
Proof.
  intros H [T1 T2] Hnf. pose proof (inv_deadline _ H) as Hd. rewrite (proj2 (Z.eqb_neq _ _) Hnf) in Hd.
  replace (selectionDeadlineEnabled (Phase s) (config s)) with true in Hd; [lia|].
  unfold selectionDeadlineEnabled. rewrite (proj2 (Z.eqb_neq _ _) T1), (proj2 (Z.eqb_neq _ _) T2).
  by destruct (Phase s =? PhaseRoundOneSelecting), (Phase s =? PhaseRoundTwoSelecting).
Qed.

Lemma timed_due s :
  Inv s -> timed (config s) -> Phase s <> PhaseFinished ->
  exists timer, CurrentTimer s = Some timer /\ t_DeadlineUnixMillis timer = PhaseDeadlineUnixMillis s
    /\ Due s timer (t_DeadlineUnixMillis timer + delay).
Proof.
  intros H Ht Hnf. pose proof (timed_deadline s H Ht Hnf) as Hd. pose proof (inv_phase _ H) as Hb.
  eexists. assert (Hc : CurrentTimer s = Some (mkTimer (Phase s) (CurrentRound s) (PhaseDeadlineUnixMillis s)
    (PhaseGeneration s))).
  { apply CurrentTimer_Some. unfold PhaseRoundOneSelecting, PhaseDealing in *. split_and!; [done|lia|lia|done]. }
  split_and!; [exact Hc|done|]. split; [done|]. cbn. lia.
Qed.

(** One timer before the final result. *)
Lemma fire_next s :
  Inv s -> timed (config s) -> Phase s < PhaseFinalResult ->
  PhaseDeadlineUnixMillis s + delay <= maxInt64 - 120000 ->
  exists s', fire delay s = Some s' /\ Inv s' /\ Phase s' = Phase s + 1 /\ config s' = config s
    /\ PhaseDeadlineUnixMillis s' <= PhaseDeadlineUnixMillis s + delay + 120000.
Proof.
  intros H Ht H7 Hlate. assert (Hnf : Phase s <> PhaseFinished) by (unfold PhaseFinalResult, PhaseFinished in *; lia).
  destruct (timed_due s H Ht Hnf) as (timer & Hc & Hdl & Hdue). pose proof (timed_deadline s H Ht Hnf) as Hpos.
  unfold fire. rewrite Hc, Hdl in *.
  destruct (deadlineForPhase_total _ _ (PhaseDeadlineUnixMillis s + delay) (Phase s + 1) (inv_config _ H))
    as [d Hd]; [lia|].
  assert (Hn7 : Phase s <> PhaseFinalResult) by lia.
  rewrite (outcome_handle _ _ _ _ H (Expired s timer _ d Hdue Hn7 Hd)).
  destruct (timeoutState_Inv s timer _ d H Hdue Hn7 Hd) as [Hinv Hph]. eexists. split_and!; [done|done|done| |].
  - unfold timeoutState, settledState. by repeat case_match.
  - pose proof (deadlineForPhase_upper _ _ _ _ _ (inv_config _ H) Hd) as Hup.
    replace (PhaseDeadlineUnixMillis (timeoutState s d)) with d; [lia|].
    unfold timeoutState, settledState. by repeat case_match.
Qed.

(** The last timer ends the session regularly. *)
Lemma fire_last s :
  Inv s -> timed (config s) -> Phase s = PhaseFinalResult ->
  fire delay s = Some (finishedState s FinishNormalCompleted).
Proof.
  intros H Ht H7. destruct (timed_due s H Ht ltac:(by rewrite H7)) as (timer & Hc & _ & Hdue).
  unfold fire. rewrite Hc. by rewrite (outcome_handle _ _ _ _ H (Concluded s timer _ Hdue H7)).
Qed.

Lemma fireTimers_final n s :
  Inv s -> timed (config s) -> Phase s + Z.of_nat n = PhaseFinalResult ->
  PhaseDeadlineUnixMillis s + (delay + 120000) * Z.of_nat n <= maxInt64 ->
  exists t, fireTimers n delay s = Some t /\ Inv t /\ timed (config t) /\ Phase t = PhaseFinalResult.
Proof.
  revert s. induction n as [|n IH]; intros s H Ht Hn Hlate.
  - exists s. repeat (split; [done|]). lia.
  - destruct (fire_next s H Ht ltac:(lia) ltac:(nia)) as (s' & Hf & H' & Hph & Hcfg & Hd).
    cbn [fireTimers]. rewrite Hf. apply IH; [done|by rewrite Hcfg|lia|nia].
Qed.
End Timers.
End ThreeProgress.
