(* ===== verification/ThreeRecords.v ===== *)
(** * Three rounds: the recorded rounds

    The round history of a session against a direct definition of who wins a
    round: [FairRound] reads a recorded summary by itself, from the cards each
    reveal shows.  [RecordsOK] relates the history to the players' win flags;
    every transition keeps it. *)

From stdpp Require Import gmap.
From S2P Require Import Prelude Roster Engine ThreeCards ThreeDeck ThreeHands ThreeHandsFacts ThreeRounds ThreeSettle ThreeInvariant ThreeRoundsFacts ThreeStandings ThreeSession ThreeEngine.

Module ThreeRecords.
Import Roster ThreeCards ThreeDeck ThreeHands ThreeHandsFacts ThreeRounds ThreeSettle ThreeInvariant ThreeRoundsFacts
  ThreeStandings ThreeSession ThreeEngine.

(** ** What a recorded round says *)

(** The strength of the cards a reveal shows, by the rule of its round. *)
Definition shown (r : PlayerReveal) (i : nat) : Card := cardOf (default ""%string (rv_CardIDs r !! i)).
Definition revealOne (r : PlayerReveal) : roundOneComparison :=
  mkRoundOne (rankStrength (shown r 0)) (suitStrength (shown r 0)).
Definition revealTwo (r : PlayerReveal) : roundTwoComparison := twoComparison (shown r 0) (shown r 1).
Definition revealThree (r : PlayerReveal) : thirdComparison :=
  match resolveThirdHand (cardsFromIDs (rv_CardIDs r)) with
  | Ok resolved => t_Comparison resolved
  | Err _ => mkThird 0 []
  end.
Definition bust (r : PlayerReveal) : bool := r2_Busted (revealTwo r).

(** The winners are the contenders nobody beats, and each gets one point. *)
Record Fair {C} (compare : C -> C -> Z) (value : PlayerReveal -> C) (contenders : list PlayerReveal)
    (summary : RoundSummary) : Prop := {
  fair_winners u : u ∈ sm_WinnerUserIDs summary <->
    exists r, r ∈ contenders /\ rv_UserID r = u /\ forall r', r' ∈ contenders -> compare (value r') (value r) <= 0;
  fair_points r : r ∈ sm_Reveals summary ->
    rv_AwardedPoints r = boolToUint8 (bool_decide (rv_UserID r ∈ sm_WinnerUserIDs summary));
}.

(** Round one has a single winner, round two none exactly when all went bust,
    round three at least one. *)
Definition FairRound (summary : RoundSummary) : Prop :=
  let reveals := sm_Reveals summary in
  if sm_Round summary =? 1 then
    Fair compareRoundOne revealOne reveals summary /\ exists winner, sm_WinnerUserIDs summary = [winner]
  else if sm_Round summary =? 2 then
    Fair compareRoundTwo revealTwo (List.filter (fun r => negb (bust r)) reveals) summary
    /\ sm_AllBusted summary = forallb bust reveals
    /\ (sm_AllBusted summary = true <-> sm_WinnerUserIDs summary = [])
  else
    Fair compareThirdResult revealThree reveals summary /\ sm_WinnerUserIDs summary <> [].

Lemma sortStrings_perm values : sortStrings values ≡ₚ values.
Proof. apply merge_sort_Permutation. Qed.

Lemma canonical_reveals summary r : r ∈ sm_Reveals (canonicalRoundSummary summary) <-> r ∈ sm_Reveals summary.
Proof.
  change (sm_Reveals (canonicalRoundSummary summary)) with (sort_by rv_SeatIndex (sm_Reveals summary)).
  by rewrite sort_by_Permutation.
Qed.

Lemma canonical_winners summary u :
  u ∈ sm_WinnerUserIDs (canonicalRoundSummary summary) <-> u ∈ sm_WinnerUserIDs summary.
Proof.
  change (sm_WinnerUserIDs (canonicalRoundSummary summary)) with (sortStrings (sm_WinnerUserIDs summary)).
  by rewrite sortStrings_perm.
Qed.

(** Contests between players, read off their reveals. *)
Section Contests.
Context {C : Type} (compare : C -> C -> Z) `{!CmpOrder compare}.
Context (value : PlayerReveal -> C) (entry : PlayerState -> string * C) (show : PlayerState -> PlayerReveal).
Context (Huser : forall p, rv_UserID (show p) = (entry p).1) (Hvalue : forall p, value (show p) = (entry p).2).
Context (Hzero : forall p, rv_AwardedPoints (show p) = 0).
Context (Haward : forall winners r, value (awarded winners r) = value r).

Lemma awarded_user winners r : rv_UserID (awarded winners r) = rv_UserID r.
Proof. unfold awarded. by destruct (bool_decide _). Qed.

Lemma contest_fair (players : list PlayerState) (q : PlayerReveal -> bool) (round : Z) (allBusted : bool) winners :
  (forall ws r, q (awarded ws r) = q r) ->
  winners = (contest compare (entry <$> List.filter (fun p => q (show p)) players)).2 ->
  let summary := canonicalRoundSummary (mkSummary round winners (awarded winners <$> (show <$> players)) allBusted) in
  Fair compare value (List.filter q (sm_Reveals summary)) summary.
Proof.
  intros Hq Hw summary.
  assert (Hrev : forall r, r ∈ sm_Reveals summary <-> exists p, p ∈ players /\ r = awarded winners (show p)).
  { intros r. unfold summary. rewrite canonical_reveals. cbn [sm_Reveals].
    rewrite <- list_fmap_compose, list_elem_of_fmap. naive_solver. }
  assert (Hcon : forall r, r ∈ List.filter q (sm_Reveals summary) <->
            exists p, p ∈ List.filter (fun p => q (show p)) players /\ r = awarded winners (show p)).
  { intros r. rewrite filter_elem, Hrev. setoid_rewrite filter_elem. split.
    - intros (Hqr & p & Hp & ->). rewrite Hq in Hqr. eauto.
    - intros (p & [Hqp Hp] & ->). rewrite Hq. eauto. }
  assert (Hwin : forall u, u ∈ sm_WinnerUserIDs summary <-> u ∈ winners).
  { intros u. apply canonical_winners. }
  split.
  - intros u. rewrite Hwin, Hw, contest_winners by done. split.
    + intros (c & (p & Hpc & Hp)%list_elem_of_fmap & Hmax). exists (awarded winners (show p)).
      split_and!; [apply Hcon; eauto|rewrite awarded_user, Huser; by rewrite <- Hpc|].
      intros r' (p' & Hp' & ->)%Hcon. rewrite !Haward, !Hvalue, <- Hpc. cbn.
      apply (Hmax (entry p').1). rewrite <- surjective_pairing. by apply list_elem_of_fmap_2.
    + intros (r & (p & Hp & ->)%Hcon & <- & Hmax). exists (entry p).2. split.
      * rewrite awarded_user, Huser, <- surjective_pairing. by apply list_elem_of_fmap_2.
      * intros u' c' (p' & Hp' & Hin)%list_elem_of_fmap.
        specialize (Hmax (awarded winners (show p')) ltac:(apply Hcon; eauto)).
        by rewrite !Haward, !Hvalue, <- Hp' in Hmax.
  - intros r (p & Hp & ->)%Hrev. rewrite awarded_user, (bool_decide_ext _ _ (Hwin (rv_UserID (show p)))).
    unfold awarded. destruct (bool_decide _); [done|apply Hzero].
Qed.
End Contests.

(** ** The three settlements record fair rounds *)
Lemma filter_true {A} (l : list A) : List.filter (fun _ => true) l = l.
Proof. induction l as [|x l IH]; [done|]. cbn. by rewrite IH. Qed.

Lemma fair_ext {C} (compare : C -> C -> Z) value contenders contenders' summary :
  contenders = contenders' -> Fair compare value contenders summary -> Fair compare value contenders' summary.
Proof. by intros ->. Qed.

(** Distinct cards have distinct strengths in round one. *)
Lemma strength_inj c d :
  c ∈ deckOrdered -> d ∈ deckOrdered -> rankStrength c = rankStrength d -> suitStrength c = suitStrength d -> c = d.
Proof.
  intros Hc Hd Hr Hs.
  assert (H : forallb (fun c => forallb (fun d => negb (rankStrength c =? rankStrength d)
             || negb (suitStrength c =? suitStrength d) || bool_decide (c = d)) deckOrdered) deckOrdered = true)
    by (vm_compute; reflexivity).
  apply (deck_forall _ H) in Hc. apply list_elem_of_In in Hd. apply (proj1 (forallb_forall _ _) Hc) in Hd.
  rewrite Hr, Hs, !Z.eqb_refl in Hd. cbn in Hd. by apply bool_decide_eq_true in Hd.
Qed.

Lemma compareRoundOne_zero x y :
  compareRoundOne x y = 0 -> r1_RankStrength x = r1_RankStrength y /\ r1_SuitStrength x = r1_SuitStrength y.
Proof.
  unfold compareRoundOne, orElse, Compare. intros H.
  destruct (Z.ltb_spec (r1_RankStrength x) (r1_RankStrength y)), (Z.ltb_spec (r1_RankStrength y) (r1_RankStrength x)),
    (Z.ltb_spec (r1_SuitStrength x) (r1_SuitStrength y)), (Z.ltb_spec (r1_SuitStrength y) (r1_SuitStrength x));
    cbn in H; lia.
Qed.

Lemma fair_one s : Fair compareRoundOne revealOne (sm_Reveals (oneSummary s)) (oneSummary s).
Proof.
  eapply fair_ext; [apply (filter_true (sm_Reveals (oneSummary s)))|].
  apply (contest_fair compareRoundOne revealOne oneEntry oneReveal); try done.
  - intros winners r. unfold awarded. by destruct (bool_decide _).
  - unfold oneWinners. by rewrite filter_true.
Qed.

Lemma fair_two s :
  Fair compareRoundTwo revealTwo (List.filter (fun r => negb (bust r)) (sm_Reveals (twoSummary s))) (twoSummary s).
Proof.
  assert (Haw : forall winners r, revealTwo (awarded winners r) = revealTwo r)
    by (intros winners r; unfold awarded; by destruct (bool_decide _)).
  apply (contest_fair compareRoundTwo revealTwo twoEntry twoReveal); try done.
  intros ws r. unfold bust. by rewrite Haw.
Qed.

Lemma fair_three s : Fair compareThirdResult revealThree (sm_Reveals (threeSummary s)) (threeSummary s).
Proof.
  eapply fair_ext; [apply (filter_true (sm_Reveals (threeSummary s)))|].
  apply (contest_fair compareThirdResult revealThree threeEntry threeReveal); try done.
  - intros p. unfold revealThree, threeEntry, thirdOf.
    change (rv_CardIDs (threeReveal p)) with (p_RemainingHand p). by destruct (resolveThirdHand _).
  - intros winners r. unfold awarded. by destruct (bool_decide _).
  - unfold threeWinners. by rewrite filter_true.
Qed.

(** ** Winners exist *)

(** A dealt card belongs to one player. *)
Lemma dealt_owner host players p q c :
  RosterOK host players -> p ∈ players -> q ∈ players -> c ∈ p_InitialHand p -> c ∈ p_InitialHand q -> p = q.
Proof.
  intros [_ _ _ Hd _] Hp Hq Hcp Hcq. unfold dealtCards in Hd. induction players as [|x players IH];
    [by apply not_elem_of_nil in Hp|]. rewrite bind_cons in Hd. apply NoDup_app in Hd as (_ & Hx & Hd).
  apply elem_of_cons in Hp as [->|Hp], Hq as [->|Hq]; [done|..].
  - destruct (Hx c Hcp). apply list_elem_of_bind. eauto.
  - destruct (Hx c Hcq). apply list_elem_of_bind. eauto.
  - by apply IH.
Qed.

Lemma remaining_initial phase round p c : PlayerOK phase round p -> c ∈ p_RemainingHand p -> c ∈ p_InitialHand p.
Proof. intros Hok Hc. rewrite <- (po_cards _ _ _ Hok). unfold allocation. apply elem_of_app. by left. Qed.

(** The active players, when all have submitted. *)
Lemma submitted_plays s :
  Inv s -> allActivePlayersSubmitted s = true ->
  forall p, p ∈ Players s -> plays (CurrentRound s) p = p_Active p.
Proof.
  intros H Hall p Hp. destruct (p_Active p) eqn:Ha.
  - by eapply selected_plays, submitted_selected.
  - by apply inactive_plays.
Qed.

Lemma someone_active s : Inv s -> Phase s <> PhaseFinished -> exists p, p ∈ Players s /\ p_Active p = true.
Proof.
  intros H Hnf. pose proof (inv_active _ H Hnf) as Hc. unfold activeCount, countb in Hc.
  destruct (List.filter activeOf (Players s)) as [|p l] eqn:E; [cbn in Hc; lia|].
  assert (Hin : p ∈ List.filter activeOf (Players s)) by (rewrite E; constructor).
  apply filter_elem in Hin as [Ha Hp]. by exists p.
Qed.

Lemma NoDup_all_equal {A} (l : list A) x : NoDup l -> x ∈ l -> (forall y, y ∈ l -> y = x) -> l = [x].
Proof.
  intros Hn Hx Heq. destruct l as [|a l]; [by apply not_elem_of_nil in Hx|].
  rewrite (Heq a) in * by constructor. f_equal. destruct l as [|b l]; [done|].
  apply NoDup_cons in Hn as [Hn _]. destruct Hn. rewrite (Heq b) by (do 2 constructor). constructor.
Qed.

(** The winners of a contest among players, as players. *)
Lemma contest_players {C} (compare : C -> C -> Z) `{!CmpOrder compare} (value : PlayerState -> C) players :
  NoDup (p_UserID <$> players) ->
  NoDup (contest compare ((fun p => (p_UserID p, value p)) <$> players)).2.
Proof.
  intros Hn. pose proof (contest_spec compare ((fun p => (p_UserID p, value p)) <$> players)) as H.
  destruct (contest _ _).1 as [b|].
  - destruct H as (_ & _ & ->). rewrite filter_fmap_b, <- list_fmap_compose. by apply filter_users_nodup.
  - destruct H as [_ ->]. constructor.
Qed.

Section RoundOne.
Context (s : State) (H : Inv s) (Hph : Phase s = PhaseRoundOneSelecting) (Hall : allActivePlayersSubmitted s = true).

Lemma round_one_current : CurrentRound s = 1.
Proof. rewrite (round_of_phase s H) by (by rewrite Hph). by rewrite Hph. Qed.

(** What a participant of round one plays. *)
Lemma one_card p :
  p ∈ Players s -> plays 1 p = true ->
  exists c, choice p = [c] /\ c ∈ p_InitialHand p /\ known c.
Proof.
  intros Hp Hpl. assert (Ha : p_Active p = true) by (unfold plays in Hpl; by destruct (p_Active p)).
  pose proof (submitted_selected s p H Hall Hp Ha) as Hsel. pose proof (player_ok s p H Hp) as Hok.
  pose proof (sel_size _ _ _ Hsel) as Hs. rewrite round_one_current in Hs. cbn in Hs.
  destruct (choice p) as [|c [|]] eqn:Ec; try done. exists c. split; [done|].
  assert (Hc : c ∈ p_InitialHand p).
  { eapply remaining_initial; [done|]. apply (sel_hand _ _ _ Hsel). rewrite Ec. constructor. }
  split; [done|]. eapply Forall_forall; [|exact Hc]. by eapply hand_known; [apply (inv_roster _ H)|].
Qed.

Lemma one_single_winner : exists winner, sm_WinnerUserIDs (oneSummary s) = [winner].
Proof.
  assert (Hne : oneWinners s <> []).
  { apply contest_nonempty; [apply _|]. destruct (someone_active s H ltac:(by rewrite Hph)) as (p & Hp & Ha).
    pose proof (submitted_plays s H Hall p Hp) as Hpl. rewrite round_one_current, Ha in Hpl.
    intros Hnil. apply (f_equal length) in Hnil. rewrite length_fmap in Hnil.
    assert (Hin : p ∈ List.filter (plays 1) (Players s)) by (by apply filter_elem).
    destruct (List.filter (plays 1) (Players s)); [by apply not_elem_of_nil in Hin|done]. }
  destruct (oneWinners s) as [|w ws] eqn:Ew; [done|]. exists w.
  assert (Hwin : w ∈ oneWinners s) by (rewrite Ew; constructor).
  change (sm_WinnerUserIDs (oneSummary s)) with (sortStrings (oneWinners s)).
  assert (Heq : oneWinners s = [w]); [|by rewrite Heq].
  apply NoDup_all_equal; [|done|].
  - apply contest_players; [apply _|]. apply filter_users_nodup, (inv_roster _ H).
  - intros u Hu. unfold oneWinners in Hu, Hwin. apply contest_winners in Hu as (c & Hc & Hmax); [|apply _].
    apply contest_winners in Hwin as (d & Hd & Hmax'); [|apply _].
    pose proof (Hmax _ _ Hd) as H1. pose proof (Hmax' _ _ Hc) as H2.
    pose proof (cmp_flip (cmp := compareRoundOne) c d) as Hflip.
    assert (Hz : compareRoundOne d c = 0) by lia. apply compareRoundOne_zero in Hz as [Hr Hs].
    apply list_elem_of_fmap in Hc as (p & [= -> ->] & [Hpl Hp]%filter_elem).
    apply list_elem_of_fmap in Hd as (q & [= -> ->] & [Hql Hq]%filter_elem).
    destruct (one_card p Hp Hpl) as (c & Ec & Hci & Hkc), (one_card q Hq Hql) as (d & Ed & Hdi & Hkd).
    unfold oneStrength in Hr, Hs. rewrite Ec, Ed in Hr, Hs. cbn in Hr, Hs.
    assert (c = d) as <-.
    { apply cardOf_inj; [done..|]. symmetry. apply strength_inj; [by apply known_cardOf..|done|done]. }
    f_equal. by eapply dealt_owner; [apply (inv_roster _ H)|..].
Qed.
End RoundOne.

Lemma forallb_elems {A} (p : A -> bool) l l' : (forall x, x ∈ l <-> x ∈ l') -> forallb p l = forallb p l'.
Proof.
  intros He. apply eq_true_iff_eq. rewrite !forallb_forall. setoid_rewrite <- list_elem_of_In. naive_solver.
Qed.

(** Whether all hands of round two went bust, read off the reveals. *)
Lemma two_all_busted s : sm_AllBusted (twoSummary s) = forallb bust (sm_Reveals (twoSummary s)).
Proof.
  set (l := List.filter (plays 2) (Players s)). change (sm_AllBusted (twoSummary s)) with (forallb twoBusted l).
  assert (Haw : forall r, bust (awarded (twoWinners s) r) = bust r)
    by (intros r; unfold awarded; by destruct (bool_decide _)).
  rewrite (forallb_elems bust _ (awarded (twoWinners s) <$> (twoReveal <$> l)))
    by (intros r; apply canonical_reveals).
  induction l as [|p l IH]; [done|]. cbn [forallb fmap list_fmap]. rewrite Haw, IH. done.
Qed.

Lemma two_no_winner s : sm_AllBusted (twoSummary s) = true <-> sm_WinnerUserIDs (twoSummary s) = [].
Proof.
  change (sm_WinnerUserIDs (twoSummary s)) with (sortStrings (twoWinners s)).
  change (sm_AllBusted (twoSummary s)) with (forallb twoBusted (List.filter (plays 2) (Players s))).
  unfold twoWinners, standing. set (l := List.filter (plays 2) (Players s)). split.
  - intros Hb. rewrite (filter_none (fun p => negb (twoBusted p)) l); [done|].
    intros p Hp%list_elem_of_In. apply negb_false_iff. by apply (proj1 (forallb_forall _ _) Hb).
  - intros Hnil. apply forallb_forall. intros p Hp%list_elem_of_In. destruct (twoBusted p) eqn:Eb; [done|]. exfalso.
    assert (Hin : p ∈ List.filter (fun p => negb (twoBusted p)) l) by (apply filter_elem; by rewrite Eb).
    apply (contest_nonempty compareRoundTwo (twoEntry <$> List.filter (fun p => negb (twoBusted p)) l)).
    + intros E%(f_equal length). rewrite length_fmap in E. by destruct (List.filter _ l); [apply not_elem_of_nil in Hin|].
    + apply Permutation_nil_r. rewrite <- Hnil. symmetry. apply sortStrings_perm.
Qed.

Lemma three_winner s :
  Inv s -> Phase s <> PhaseFinished -> sm_WinnerUserIDs (threeSummary s) <> [].
Proof.
  intros H Hnf Hnil. change (sm_WinnerUserIDs (threeSummary s)) with (sortStrings (threeWinners s)) in Hnil.
  destruct (someone_active s H Hnf) as (p & Hp & Ha).
  apply (contest_nonempty compareThirdResult (threeEntry <$> List.filter p_Active (Players s))).
  - assert (Hin : p ∈ List.filter p_Active (Players s)) by (by apply filter_elem).
    intros E%(f_equal length). rewrite length_fmap in E. by destruct (List.filter _ _); [apply not_elem_of_nil in Hin|].
  - apply Permutation_nil_r. rewrite <- Hnil. symmetry. apply sortStrings_perm.
Qed.

(** ** Settlements of a session *)

(** [s'] settles a round from the players [t], who have all put their cards
    down. *)
Inductive Settles (t : State) : State -> Prop :=
| settles_one deadline :
    Phase t = PhaseRoundOneSelecting -> allActivePlayersSubmitted t = true -> Settles t (oneState t deadline)
| settles_two deadline :
    Phase t = PhaseRoundTwoSelecting -> allActivePlayersSubmitted t = true -> Settles t (twoState t deadline)
| settles_three deadline : Phase t = PhaseRoundTwoResult -> Settles t (threeState t deadline).

Definition summaryOf (t : State) : RoundSummary :=
  if Phase t =? PhaseRoundOneSelecting then oneSummary t
  else if Phase t =? PhaseRoundTwoSelecting then twoSummary t else threeSummary t.

Lemma settles_fair t s' : Inv t -> Settles t s' -> FairRound (summaryOf t).
Proof.
  intros H Hs. unfold FairRound, summaryOf. destruct Hs as [d Hph Hall|d Hph Hall|d Hph]; rewrite Hph;
    cbn [Z.eqb Pos.eqb PhaseRoundOneSelecting PhaseRoundTwoSelecting PhaseRoundTwoResult];
    [change (sm_Round (oneSummary t)) with 1|change (sm_Round (twoSummary t)) with 2
    |change (sm_Round (threeSummary t)) with 3]; cbn [Z.eqb Pos.eqb].
  - split; [apply fair_one|by apply one_single_winner].
  - split_and!; [apply fair_two|apply two_all_busted|apply two_no_winner].
  - split; [apply fair_three|]. apply three_winner; [done|by rewrite Hph].
Qed.

(** Who won which rounds. *)
Definition won (p : PlayerState) (round : Z) : bool :=
  if round =? 1 then p_WonRoundOne p else if round =? 2 then p_WonRoundTwo p else p_WonRoundThree p.
(** What a session never changes about a player. *)
Definition frozen (p : PlayerState) : string * Z * list CardID := (p_UserID p, p_SeatIndex p, p_InitialHand p).
Definition flags (p : PlayerState) : string * Z * list CardID * (bool * bool * bool) :=
  (frozen p, (p_WonRoundOne p, p_WonRoundTwo p, p_WonRoundThree p)).

(** A settlement appends its summary and marks its winners. *)
Lemma settles_flags t s' :
  Inv t -> Settles t s' ->
  RoundHistory s' = RoundHistory t ++ [summaryOf t]
  /\ forall p', p' ∈ Players s' -> exists p, p ∈ Players t /\ p_UserID p' = p_UserID p
       /\ forall k, 1 <= k <= 3 -> won p' k = (bool_decide (k = sm_Round (summaryOf t))
              && bool_decide (p_UserID p ∈ sm_WinnerUserIDs (summaryOf t))) || won p k.
Proof.
  assert (Hsort : forall ws u, bool_decide (u ∈ sortStrings ws) = bool_decide (u ∈ ws))
    by (intros ws u; apply bool_decide_ext; by rewrite sortStrings_perm).
  intros H Hs. unfold summaryOf. destruct Hs as [d Hph Hall|d Hph Hall|d Hph]; rewrite Hph; cbn [Z.eqb Pos.eqb
    PhaseRoundOneSelecting PhaseRoundTwoSelecting PhaseRoundTwoResult]; (split; [done|]);
    intros p' (p & -> & Hp)%list_elem_of_fmap; exists p; (split_and!; [done|done|]); intros k Hk;
    [change (sm_WinnerUserIDs (oneSummary t)) with (sortStrings (oneWinners t))
    |change (sm_WinnerUserIDs (twoSummary t)) with (sortStrings (twoWinners t))
    |change (sm_WinnerUserIDs (threeSummary t)) with (sortStrings (threeWinners t))];
    rewrite Hsort; (assert (k = 1 \/ k = 2 \/ k = 3) as [->|[->| ->]] by lia); reflexivity.
Qed.

Lemma decorated_flags standings p : flags (decorated standings p) = flags p.
Proof. by apply decorated_field. Qed.
Lemma finished_flags s reason : flags <$> Players (finishedState s reason) = flags <$> Players s.
Proof.
  destruct (finishedPlayers_map s reason) as (f & Hf & Hfp). cbn [finishedState Players]. rewrite Hf.
  rewrite <- list_fmap_compose. apply list_fmap_ext. intros i p _. cbn. by destruct (Hfp p) as [->|[->| ->]].
Qed.
Lemma revoked_flags s k : (k < length (Players s))%nat -> flags <$> Players (revokedState s k) = flags <$> Players s.
Proof.
  intros Hk. cbn [revokedState withPlayers Players]. rewrite (fmap_field _ flags) by apply decorated_flags.
  apply (fmap_insert_same flags _ k (Players s !!! k)); [by apply list_lookup_lookup_total_lt|done].
Qed.

Lemma settled_settles t deadline :
  selecting (Phase t) -> allActivePlayersSubmitted t = true -> Settles t (settledState t deadline).
Proof.
  intros [Hph|Hph] Hall; unfold settledState; rewrite Hph; cbn [Z.eqb Pos.eqb PhaseRoundOneSelecting
    PhaseRoundTwoSelecting]; by constructor.
Qed.

(** A transition keeps history and flags or settles a round. *)
Lemma Outcome_records s i s' es :
  Inv s -> Outcome s i s' es ->
  RoundHistory s' = RoundHistory s /\ flags <$> Players s' = flags <$> Players s
  \/ exists t, Inv t /\ RoundHistory t = RoundHistory s /\ flags <$> Players t = flags <$> Players s /\ Settles t s'.
Proof.
  intros H.
  assert (Hindex : forall u k, playerIndex (Players s) u = Some k -> (k < length (Players s))%nat)
    by (intros u k (Hk & _)%index_elem; by apply lookup_lt_Some in Hk).
  destruct 1 as [actor round ids auto now k Hs Hall|actor round ids auto now k deadline Hs Hall Hd
    |timer now deadline Hdue Hn7 Hd|timer now Hdue H7|userID now k Hr Hc _|userID now k deadline Hr Hc Hsel Hall Hd
    |userID now k Hr Hc Hz|reason operator Hnf Hn7 Hre Hop Hz].
  1,2: destruct (index_elem s actor k (sub_actor _ _ _ _ _ _ Hs)) as (Hk & _ & _);
    pose proof (fmap_insert_same flags (Players s) k (Players s !!! k)
      (recorded (Players s !!! k) round (canonicalSelection ids) auto) Hk eq_refl) as Hfl.
  - by left.
  - right. exists (submittedState s k round ids auto). split_and!; [by eapply submittedState_Inv|done|done|].
    apply settled_settles; [apply (sub_phase _ _ _ _ _ _ Hs)|done].
  - unfold timeoutState. destruct (_ || _) eqn:Esel.
    { apply selecting_spec in Esel. right. exists (filledState s).
      split_and!; [by apply filledState_Inv|done| |apply settled_settles; [done|apply filledState_submitted]].
      apply (fmap_field _ flags). intros p. by apply autoFilled_field. }
    destruct (Z.eqb_spec (Phase s) PhaseRoundOneResult); [by left|].
    destruct (Z.eqb_spec (Phase s) PhaseRoundTwoResult).
    { right. exists s. split_and!; try done. by constructor. }
    left. split; [done|]. cbn [finalState Players]. apply (fmap_field _ flags), decorated_flags.
  - left. split; [done|apply finished_flags].
  - left. split; [done|]. eapply revoked_flags, Hindex, Hr.
  - right. exists (revokedState s k). split_and!; [by eapply left_Inv|done|eapply revoked_flags, Hindex, Hr|].
    by apply settled_settles.
  - left. split; [done|]. rewrite finished_flags. eapply revoked_flags, Hindex, Hr.
  - left. split; [done|apply finished_flags].
Qed.

(** ** Frozen parts of a session *)
Lemma settles_frozen t s' : Settles t s' -> frozen <$> Players s' = frozen <$> Players t.
Proof. destruct 1; by apply (fmap_field _ frozen). Qed.

Lemma flags_frozen (players players' : list PlayerState) :
  flags <$> players' = flags <$> players -> frozen <$> players' = frozen <$> players.
Proof. intros E%(f_equal (fmap fst)). by rewrite <- !list_fmap_compose in E. Qed.

Lemma Outcome_frozen s i s' es :
  Inv s -> Outcome s i s' es ->
  frozen <$> Players s' = frozen <$> Players s /\ config s' = config s /\ HostUserID s' = HostUserID s.
Proof.
  intros H Ho. split.
  - destruct (Outcome_records s i s' es H Ho) as [[_ Hf]|(t & _ & _ & Hf & Hs)]; [by apply flags_frozen|].
    rewrite (settles_frozen _ _ Hs). by apply flags_frozen.
  - unfold timeoutState, settledState in *. destruct Ho; try done; unfold timeoutState, settledState; by repeat case_match.
Qed.

Lemma play_frozen s inputs :
  Inv s -> let s' := fst (play (Er := Failure) (E := Event) s inputs) in
  frozen <$> Players s' = frozen <$> Players s /\ config s' = config s /\ HostUserID s' = HostUserID s.
Proof.
  revert s. induction inputs as [|i inputs IH]; intros s H; [done|]. cbn [play].
  destruct (engine_step s i) as [[s1 es]|e] eqn:E; [|by apply IH]. cbn in E.
  specialize (IH s1 (handle_Inv _ _ _ _ H E)). apply handle_outcome in E; [|done].
  destruct (Outcome_frozen _ _ _ _ H E) as (F1 & F2 & F3). destruct (play s1 inputs) as [final more].
  cbn [fst] in *. destruct IH as (-> & -> & ->). done.
Qed.

(** ** The invariant on the records *)
Definition RecordsOK (s : State) : Prop :=
  Forall FairRound (RoundHistory s)
  /\ forall p, p ∈ Players s -> forall k, 1 <= k <= 3 ->
       won p k = true <-> exists summary, summary ∈ RoundHistory s /\ sm_Round summary = k
                                         /\ p_UserID p ∈ sm_WinnerUserIDs summary.

Lemma won_flags p q : flags p = flags q -> p_UserID p = p_UserID q /\ forall k, won p k = won q k.
Proof. unfold flags, frozen, won. intros [= -> _ _ -> -> ->]. done. Qed.

Lemma RecordsOK_ext s s' :
  RoundHistory s' = RoundHistory s -> flags <$> Players s' = flags <$> Players s -> RecordsOK s -> RecordsOK s'.
Proof.
  intros Hh Hf [HF Hw]. split; [by rewrite Hh|]. intros p' Hp'.
  assert (Hin : flags p' ∈ flags <$> Players s) by (rewrite <- Hf; by apply list_elem_of_fmap_2).
  apply list_elem_of_fmap in Hin as (p & Hpf & Hp). destruct (won_flags _ _ Hpf) as [-> Hk].
  intros k Hk3. rewrite Hk, Hh. by apply Hw.
Qed.

Lemma RecordsOK_settles t s' : Inv t -> RecordsOK t -> Settles t s' -> RecordsOK s'.
Proof.
  intros H [HF Hw] Hs. destruct (settles_flags t s' H Hs) as [Hh Hp']. split.
  - rewrite Hh. apply Forall_app. split; [done|]. constructor; [by eapply settles_fair|constructor].
  - intros p' (p & Hp & -> & Hk)%Hp' k Hk3. rewrite (Hk k Hk3), Hh.
    rewrite orb_true_iff, andb_true_iff, !bool_decide_eq_true, (Hw p Hp k Hk3).
    setoid_rewrite elem_of_app. setoid_rewrite list_elem_of_singleton. naive_solver.
Qed.

Lemma Outcome_RecordsOK s i s' es : Inv s -> RecordsOK s -> Outcome s i s' es -> RecordsOK s'.
Proof.
  intros H Hr Ho. destruct (Outcome_records s i s' es H Ho) as [[Hh Hf]|(t & Ht & Hh & Hf & Hs)].
  - by eapply RecordsOK_ext.
  - eapply RecordsOK_settles; [done| |done]. by eapply RecordsOK_ext.
Qed.

Lemma NewState_RecordsOK fuel cfg participants host now seed s events :
  NewState fuel cfg participants host now seed = Ok (s, events) -> RecordsOK s.
Proof.
  intros (canonical & deck & deadline & _ & _ & _ & _ & _ & ->)%NewState_Ok. split; [constructor|].
  intros p (i & q & _ & ->)%seatedPlayers_elem k Hk. cbn [startState RoundHistory]. split.
  - unfold won. by destruct (k =? 1), (k =? 2).
  - by intros (summary & ?%not_elem_of_nil & _).
Qed.

Lemma reachable_RecordsOK (s : State) : reachable (I := Input) (E := Event) (Er := Failure) s -> RecordsOK s.
Proof.
  induction 1 as [s (fuel & cfg & ps & host & now & seed & es & Hn)|s i s' es Hr IH _ Hstep].
  - by eapply NewState_RecordsOK.
  - pose proof (reachable_valid _ Hr) as H. cbn in Hstep. apply handle_outcome in Hstep; [|done].
    by eapply Outcome_RecordsOK.
Qed.

(** ** What events disclose *)
Definition putDown (p : PlayerState) : list CardID := p_RoundOneCards p ++ p_RoundTwoCards p ++ p_RoundThreeCards p.

(** An event without cards, or one that shows the round [s'] settles. *)
Definition Discloses (s' : State) (e : Event) : Prop :=
  ev_Deals e = [] /\ (ev_Summary e = zeroSummary \/ exists t, Inv t /\ Settles t s' /\ ev_Summary e = summaryOf t).

Lemma settles_reveals t s' r :
  Settles t s' -> r ∈ sm_Reveals (summaryOf t) ->
  exists p', p' ∈ Players s' /\ p_UserID p' = rv_UserID r /\ rv_CardIDs r ⊆ putDown p'.
Proof.
  assert (Haw : forall ws r, rv_CardIDs (awarded ws r) = rv_CardIDs r)
    by (intros ws x; unfold awarded; by destruct (bool_decide _)).
  unfold summaryOf. intros Hs. destruct Hs as [d Hph Hall|d Hph Hall|d Hph]; rewrite Hph; cbn [Z.eqb Pos.eqb
    PhaseRoundOneSelecting PhaseRoundTwoSelecting PhaseRoundTwoResult];
    intros Hr; unfold oneSummary, twoSummary, threeSummary in Hr; apply (proj1 (canonical_reveals _ r)) in Hr;
    cbn [sm_Reveals] in Hr;
    apply list_elem_of_fmap in Hr as (x & -> & (p & -> & [Hq Hp]%filter_elem)%list_elem_of_fmap);
    eexists; rewrite awarded_user, Haw; (split_and!; [by apply list_elem_of_fmap_2|done|]);
    unfold putDown, afterOne, afterTwo, afterThree; cbn; rewrite Hq; intros c Hc; rewrite !elem_of_app; auto.
Qed.

Lemma quiet s' e : ev_Deals e = [] -> ev_Summary e = zeroSummary -> Discloses s' e.
Proof. intros Hd Hs. split; [done|by left]. Qed.

Lemma round_events_disclose t s' round :
  Inv t -> Settles t s' -> Forall (Discloses s') (roundEvents round (summaryOf t) s').
Proof.
  intros H Hs. assert (Hd : forall e, ev_Deals e = [] -> ev_Summary e = summaryOf t -> Discloses s' e)
    by (intros e He1 He2; split; [done|]; right; by exists t).
  constructor; [by apply Hd|]. constructor; [by apply Hd|]. constructor; [by apply quiet|constructor].
Qed.

Lemma settled_events_disclose t deadline :
  Inv t -> selecting (Phase t) -> allActivePlayersSubmitted t = true ->
  Forall (Discloses (settledState t deadline)) (settledEvents t deadline).
Proof.
  intros H Hsel Hall. unfold settledEvents. replace (settledSummary t) with (summaryOf t).
  - apply round_events_disclose; [done|]. by apply settled_settles.
  - unfold settledSummary, summaryOf. by destruct Hsel as [->| ->].
Qed.

Lemma auto_events_quiet s' round players : Forall (Discloses s') (autoEvents round players).
Proof. apply Forall_fmap, Forall_forall. intros p _. by apply quiet. Qed.

Lemma three_events_disclose s deadline :
  Inv s -> Phase s = PhaseRoundTwoResult -> Forall (Discloses (threeState s deadline)) (threeEvents s deadline).
Proof.
  intros H Hph. apply Forall_app. split.
  - apply Forall_forall. intros e (p & He & _)%list_elem_of_bind. unfold wildcardEvents in He.
    destruct (negb _); [|by apply not_elem_of_nil in He]. apply list_elem_of_singleton in He as ->. by apply quiet.
  - replace (threeSummary s) with (summaryOf s) by (unfold summaryOf; by rewrite Hph).
    apply round_events_disclose; [done|]. by constructor.
Qed.

Lemma Outcome_discloses s i s' es : Inv s -> Outcome s i s' es -> Forall (Discloses s') es.
Proof.
  intros H. destruct 1 as [actor round ids auto now k Hs Hall|actor round ids auto now k deadline Hs Hall Hd
    |timer now deadline Hdue Hn7 Hd|timer now Hdue H7|userID now k Hr Hc _|userID now k deadline Hr Hc Hsel Hall Hd
    |userID now k Hr Hc Hz|reason operator Hnf Hn7 Hre Hop Hz].
  - constructor; [by apply quiet|constructor].
  - constructor; [by apply quiet|].
    apply settled_events_disclose; [by eapply submittedState_Inv|apply (sub_phase _ _ _ _ _ _ Hs)|done].
  - unfold timeoutEvents, timeoutState. destruct (_ || _) eqn:Esel.
    { apply selecting_spec in Esel. apply Forall_app. split; [apply auto_events_quiet|].
      apply settled_events_disclose; [by apply filledState_Inv|done|apply filledState_submitted]. }
    destruct (Z.eqb_spec (Phase s) PhaseRoundOneResult); [constructor; [by apply quiet|constructor]|].
    destruct (Z.eqb_spec (Phase s) PhaseRoundTwoResult); [by apply three_events_disclose|].
    constructor; [by apply quiet|constructor].
  - constructor; [by apply quiet|constructor].
  - constructor; [by apply quiet|constructor].
  - constructor; [by apply quiet|]. apply settled_events_disclose; [by eapply left_Inv|done..].
  - repeat (constructor; [by apply quiet|]). constructor.
  - constructor; [by apply quiet|constructor].
Qed.
End ThreeRecords.
