(* ===== verification/ThreeRoundsTheorems.v ===== *)
(** * Three rounds: theorems

    The properties a session of three rounds relies on: deck and deal, the
    judgement of hands, the recorded rounds, the transitions, timers, secrecy
    and the end of a session, each with a witness on a session that is really
    dealt and played. *)

From stdpp Require Import gmap.
From S2P Require Import Prelude Roster Engine ThreeCards ThreeDeck ThreeHands ThreeHandsFacts ThreeThird ThreeRounds ThreeSettle ThreeInvariant ThreeRoundsFacts ThreeStandings ThreeSession ThreeEngine ThreeProgress ThreeRecords.

Module ThreeRoundsTheorems.
Import Roster ThreeCards ThreeDeck ThreeHands ThreeHandsFacts ThreeThird ThreeWild ThreeRounds ThreeSettle ThreeInvariant
  ThreeRoundsFacts ThreeStandings ThreeSession ThreeEngine ThreeProgress ThreeRecords.

(** ** A concrete session *)
Definition three_seed : list Z := 7 :: replicate 31 0.
Definition three_players : list Participant :=
  [mkParticipant "cy" 5; mkParticipant "ana" 1; mkParticipant "ben" 3].

Definition threeOf (r : res (State * list Event)) : State :=
  match r with Ok (s, _) => s | Err _ => startState DefaultConfig "" [] 0 end.
Definition threeFacts (r : res (State * list Event)) : list Event :=
  match r with Ok (_, es) => es | Err _ => [] end.

Definition three_start : State :=
  Eval vm_compute in threeOf (NewState 3 DefaultConfig three_players "ben" 1000 three_seed).

(** The first card of the first player, and the state after it is chosen. *)
Definition three_card : CardID :=
  Eval vm_compute in default ""%string (p_RemainingHand (Players three_start !!! 0%nat) !! 0%nat).
Definition three_choose : Input := InSubmit "ana" 1 [three_card] false 2000.
Definition three_chosen : State := Eval vm_compute in threeOf (handle three_start three_choose).

(** The timer of a state, fired at its deadline. *)
Definition tick (s : State) : Input :=
  InTimeout (mkTimer (Phase s) (CurrentRound s) (PhaseDeadlineUnixMillis s) (PhaseGeneration s))
            (PhaseDeadlineUnixMillis s).
Definition three_result1 : State := Eval vm_compute in threeOf (handle three_chosen (tick three_chosen)).
Definition three_round2 : State := Eval vm_compute in threeOf (handle three_result1 (tick three_result1)).
Definition three_result2 : State := Eval vm_compute in threeOf (handle three_round2 (tick three_round2)).
Definition three_result3 : State := Eval vm_compute in threeOf (handle three_result2 (tick three_result2)).
Definition three_final : State := Eval vm_compute in threeOf (handle three_result3 (tick three_result3)).

Notation session := (reachable (S := State) (I := Input) (E := Event) (Er := Failure)).

Lemma three_start_reachable : session three_start.
Proof.
  apply reachable_initial. exists 3%nat, DefaultConfig, three_players, "ben"%string, 1000, three_seed,
    (threeFacts (NewState 3 DefaultConfig three_players "ben" 1000 three_seed)).
  vm_compute. reflexivity.
Qed.

Lemma handled s i s' : session s -> handle s i = Ok (s', threeFacts (handle s i)) -> session s'.
Proof. intros Hs Hh. by eapply (reachable_step s i); [|exact I|]. Qed.

Lemma three_chosen_reachable : session three_chosen.
Proof. apply (handled three_start three_choose); [apply three_start_reachable|]. vm_compute. reflexivity. Qed.
Lemma three_result2_reachable : session three_result2.
Proof.
  apply (handled three_round2 (tick three_round2)); [|vm_compute; reflexivity].
  apply (handled three_result1 (tick three_result1)); [|vm_compute; reflexivity].
  apply (handled three_chosen (tick three_chosen)); [apply three_chosen_reachable|]. vm_compute. reflexivity.
Qed.
Lemma three_result3_reachable : session three_result3.
Proof.
  apply (handled three_result2 (tick three_result2)); [apply three_result2_reachable|]. vm_compute. reflexivity.
Qed.
Lemma three_final_reachable : session three_final.
Proof.
  apply (handled three_result3 (tick three_result3)); [apply three_result3_reachable|]. vm_compute. reflexivity.
Qed.

Lemma session_Inv s : session s -> Inv s.
Proof. exact (reachable_valid s). Qed.

(** ** Sessions *)

(** C27: Every stored session passes [Validate]; the hands dealt are distinct
    cards of the deck, six each; at every moment the cards of a player are
    exactly those dealt, and the points are the rounds won; participants, seats,
    hands, configuration and host never change. *)
Theorem three_session_sound (s : State) (Hs : session s) :
  Validate s = Ok tt
  /\ NoDup (dealtCards (Players s)) /\ dealtCards (Players s) ⊆ (ID <$> deckOrdered)
  /\ (forall p, p ∈ Players s ->
        length (p_InitialHand p) = 6%nat
        /\ p_RemainingHand p ++ p_RoundOneCards p ++ p_RoundTwoCards p ++ p_RoundThreeCards p ≡ₚ p_InitialHand p
        /\ p_TotalPoints p = boolToUint8 (p_WonRoundOne p) + boolToUint8 (p_WonRoundTwo p)
                             + boolToUint8 (p_WonRoundThree p))
  /\ forall inputs : list Input,
       let s' := fst (play (Er := Failure) (E := Event) s inputs) in
       frozen <$> Players s' = frozen <$> Players s /\ config s' = config s /\ HostUserID s' = HostUserID s.
Proof.
  pose proof (session_Inv s Hs) as H. destruct (inv_roster _ H) as [_ _ _ Hd Hk].
  split_and!; [by apply Inv_Validate|done|by intros c Hc; apply (proj1 (Forall_forall _ _) Hk)| |].
  - intros p Hp. destruct (player_ok s p H Hp) as [_ Hl Hc _ _ (P1 & P2 & P3) Ht _].
    split_and!; [done|done|lia].
  - intros inputs. by apply play_frozen.
Qed.

Lemma three_session_sound_witness :
  Validate three_chosen = Ok tt /\ length (dealtCards (Players three_chosen)) = 18%nat.
Proof.
  destruct (three_session_sound three_chosen three_chosen_reachable) as (Hv & _). split; [exact Hv|].
  vm_compute. reflexivity.
Defined.

(** C26: The handlers of a stored session implement the transition system
    [Outcome]: an input is accepted exactly by one of its rules, with the state
    and facts the rule gives, and any other input is refused with a rule error;
    no handler panics. *)
Theorem handlers_refine_transitions (s : State) (i : Input) (Hs : session s) :
  (forall s' es, handle s i = Ok (s', es) <-> Outcome s i s' es)
  /\ ((forall s' es, ~ Outcome s i s' es) -> exists code detail, handle s i = ruleError code detail).
Proof.
  pose proof (session_Inv s Hs) as H. split; [intros; by apply handle_outcome|]. intros Hno.
  destruct (handle_cases s i H) as [Hr|(s' & es & Ho)]; [done|]. by destruct (Hno s' es).
Qed.

Lemma handlers_refine_transitions_witness :
  Outcome three_start three_choose three_chosen (threeFacts (handle three_start three_choose)).
Proof.
  apply (proj1 (handlers_refine_transitions three_start three_choose three_start_reachable)).
  vm_compute. reflexivity.
Defined.

(** C29: A session whose selections are timed ends by itself: from any stored
    state the pending timers, each fired when due and [delay] milliseconds late,
    are all accepted and bring the session to its regular end, with three rounds
    recorded and one, two and three cards put down by every active player. *)
Theorem three_timers_finish (s : State) (delay : Z) (n : nat) (Hs : session s) :
  timed (config s) -> 0 <= delay -> Phase s + Z.of_nat n = PhaseFinalResult ->
  PhaseDeadlineUnixMillis s + (delay + 120000) * Z.of_nat n <= maxInt64 ->
  exists t, fireTimers (S n) delay s = Some t
    /\ Phase t = PhaseFinished /\ FinishReason t = FinishNormalCompleted
    /\ sm_Round <$> RoundHistory t = [1; 2; 3]
    /\ forall p, p ∈ Players t -> p_Active p = true ->
         length (p_RoundOneCards p) = 1%nat /\ length (p_RoundTwoCards p) = 2%nat
         /\ length (p_RoundThreeCards p) = 3%nat /\ p_RemainingHand p = [].
Proof.
  intros Ht Hd Hn Hlate. pose proof (session_Inv s Hs) as H.
  destruct (fireTimers_final delay Hd n s H Ht Hn Hlate) as (t & Hf & Hi & Htt & Hph).
  assert (Hnf : Phase t <> PhaseFinished) by (by rewrite Hph).
  exists (finishedState t FinishNormalCompleted). split_and!; [|done|done| |].
  - eapply fireTimers_snoc; [exact Hf|]. by apply fire_last.
  - destruct (inv_history _ Hi) as (k & _ & Hk & Hk7). cbn [finishedState RoundHistory]. rewrite Hk, (Hk7 Hnf).
    by rewrite Hph.
  - intros p Hp Ha. cbn in Hp. pose proof (player_ok t p Hi Hp) as Hok.
    destruct (po_shape _ _ _ Hok Ha Hnf) as (S1 & S2 & S3). pose proof (remaining_length _ _ _ Hok Ha Hnf) as Hl.
    rewrite Hph in S1, S2, S3, Hl. split_and!; [done..|]. by apply length_zero_iff_nil.
Qed.

Lemma three_timers_finish_witness :
  exists t, fireTimers 6 50 three_chosen = Some t /\ FinishReason t = FinishNormalCompleted.
Proof.
  destruct (three_timers_finish three_chosen 50 5 three_chosen_reachable) as (t & Hf & _ & Hr & _);
    [split; vm_compute; discriminate|vm_compute; discriminate|vm_compute; reflexivity|vm_compute; discriminate|].
  exists t. split; [exact Hf|exact Hr].
Defined.

(** C30: A session accepts only finitely many inputs: at most six phase changes,
    two selections and one departure per participant, whatever is submitted. *)
Theorem three_session_bounded fuel cfg participants host now seed s es (inputs : list Input) :
  NewState fuel cfg participants host now seed = Ok (s, es) ->
  (accepted (E := Event) (Er := Failure) s inputs <= 6 + 3 * length participants)%nat.
Proof.
  intros Hn. pose proof (NewState_Inv _ _ _ _ _ _ _ _ Hn) as H. transitivity (turnsLeft s).
  - apply accepted_bounded; [|done|by apply Forall_true].
    intros s1 i s2 es2 H1 _ Hh. cbn in H1, Hh. apply handle_outcome in Hh; [|done]. by eapply Outcome_turns.
  - pose proof (awaited_active s) as Haw.
    assert (Hact : (activeCount (Players s) <= length participants)%nat).
    { apply NewState_Ok in Hn as (canonical & deck & deadline & Hc & _ & _ & _ & _ & ->).
      apply canonicalParticipants_Ok in Hc as (Hp & _). rewrite <- (Permutation_length Hp).
      etransitivity; [apply countb_le|]. cbn [startState Players]. unfold seatedPlayers. by rewrite length_imap. }
    pose proof (inv_phase _ H) as Hb. unfold turnsLeft. unfold PhaseFinished, PhaseRoundOneSelecting in *.
    destruct (_ || _), (_ <=? _); lia.
Qed.

Lemma three_session_bounded_witness :
  (accepted (E := Event) (Er := Failure) three_start [three_choose; three_choose; tick three_start] <= 15)%nat.
Proof.
  apply (three_session_bounded 3 DefaultConfig three_players "ben" 1000 three_seed three_start
    (threeFacts (NewState 3 DefaultConfig three_players "ben" 1000 three_seed))). vm_compute. reflexivity.
Defined.

(** ** Rounds *)

(** C28: Every recorded round names as winners exactly the contenders nobody
    beats by the cards they show, with one point each: round one has a single
    winner, round two none exactly when every pair of cards went bust, round
    three at least one.  A player's win flags are the rounds recorded as won. *)
Theorem recorded_rounds_fair (s : State) (Hs : session s) :
  Forall FairRound (RoundHistory s)
  /\ forall p, p ∈ Players s -> forall k, 1 <= k <= 3 ->
       won p k = true <-> exists summary, summary ∈ RoundHistory s /\ sm_Round summary = k
                                         /\ p_UserID p ∈ sm_WinnerUserIDs summary.
Proof. exact (reachable_RecordsOK s Hs). Qed.

Lemma recorded_rounds_fair_witness :
  length (RoundHistory three_final) = 3%nat /\ Forall FairRound (RoundHistory three_final).
Proof.
  split; [vm_compute; reflexivity|]. exact (proj1 (recorded_rounds_fair three_final three_final_reachable)).
Defined.

(** The class of three normal cards is the one of the printed rules: trips,
    straight flush, flush, straight, pair, single in this order, with ace, two,
    three as the lowest straight; every hand has exactly one class. *)
Theorem third_hand_class (cards : list Card) (Hc : normalHand cards) :
  (forall c, classifyThird cards = Ok c <-> Ranked cards c) /\ exists! c, Ranked cards c.
Proof.
  split; [intros c; by apply classifyThird_Ranked|].
  destruct (classifyThird_total cards Hc) as (c & Hok & HR). exists c. split; [done|].
  intros c' HR'. apply classifyThird_Ranked in HR'; [|done]. congruence.
Qed.

Definition three_low : list Card := Eval vm_compute in [cardOf "AS"; cardOf "2S"; cardOf "3S"].
Lemma third_hand_class_witness : Ranked three_low (mkThird HandStraightFlush [3]).
Proof.
  apply (proj1 (third_hand_class three_low ltac:(split_and!;
    [reflexivity|apply (bool_decide_unpack _); vm_compute; exact I|
     apply Forall_forall; apply (bool_decide_unpack _); vm_compute; exact I]))).
  vm_compute. reflexivity.
Defined.

(** Jokers are resolved to the player's best advantage: the hand kept is a
    legal substitution whose class no other legal substitution beats, and among
    the equally good ones it has the least cards. *)
Theorem joker_resolution_best (cards : list Card) (Hc : thirdHand cards) (Hj : jokersOf cards <> []) :
  exists assigned c,
    legalSubstitution cards assigned /\ Ranked (realsOf cards ++ assigned) c
    /\ resolveThirdHand cards = Ok (resolution cards assigned c)
    /\ forall other d, legalSubstitution cards other -> Ranked (realsOf cards ++ other) d ->
         compareThirdResult d c <= 0
         /\ (compareThirdResult d c = 0 -> compareOrdinalKey (Ordinal <$> assigned) (Ordinal <$> other) <= 0).
Proof.
  destruct (resolveThirdHand_jokers cards Hc Hj) as (assigned & Ha & Hr & Hbest).
  destruct (outcome_class cards Hc assigned Ha) as (_ & HR & Ho).
  exists assigned, (t_Comparison (outcome cards assigned)).
  split_and!; [done|done|by rewrite Hr, Ho at 1|]. intros other d Hother Hd.
  destruct (outcome_class cards Hc other Hother) as (Hcl & _ & _).
  assert (d = t_Comparison (outcome cards other)) as ->.
  { apply classifyThird_Ranked in Hd; [congruence|by apply substituted_hand]. }
  specialize (Hbest other Hother). unfold preference, orElse in Hbest.
  rewrite (outcome_ordinals cards Hc assigned Ha), (outcome_ordinals cards Hc other Hother) in Hbest.
  destruct (Z.eqb_spec (compareThirdResult (t_Comparison (outcome cards other)) (t_Comparison (outcome cards assigned))) 0)
    as [Ez|Nz]; cbn [negb] in Hbest; [split; [lia|done]|split; [lia|done]].
Qed.

Definition three_wild : list Card := Eval vm_compute in [cardOf "BJ"; cardOf "SJ"; cardOf "9H"].
Lemma joker_resolution_best_witness :
  exists assigned c, legalSubstitution three_wild assigned /\ resolveThirdHand three_wild = Ok (resolution three_wild assigned c).
Proof.
  destruct (joker_resolution_best three_wild) as (a & c & Ha & _ & Hr & _).
  - split_and!; [reflexivity|apply (bool_decide_unpack _); vm_compute; exact I|
      apply Forall_forall; apply (bool_decide_unpack _); vm_compute; exact I].
  - vm_compute. discriminate.
  - exists a, c. split; [exact Ha|exact Hr].
Defined.

(** ** Standings *)
Lemma placed_better l x y : better (placed l x) (placed l y) = better x y.
Proof. by destruct x, y. Qed.

Lemma placed_count l0 x l : countb (better (placed l0 x)) (placed l0 <$> l) = countb (better x) l.
Proof.
  unfold countb. rewrite filter_fmap_b, length_fmap. induction l as [|y l IH]; [done|].
  cbn [List.filter]. rewrite placed_better. destruct (better x y); cbn [length]; by rewrite IH.
Qed.

Lemma unbeaten_rank l x : unbeaten l x = true <-> rankIn l x = 1.
Proof.
  unfold unbeaten, rankIn, countb. induction l as [|y l IH]; [done|]. cbn [forallb List.filter].
  destruct (better x y); cbn [negb andb length]; [|exact IH]. split; [done|lia].
Qed.

(** The final result ranks exactly the active players: a rank is one plus
    the number of players with more points, or equal points and a later round
    won; the winners are the players of rank one; points and wins are the
    players' own. *)
Theorem final_standings_ranked (s : State) (now : Z) (s' : State) (es : list Event) (Hs : session s) :
  enterFinalResult s now = Ok (s', es) ->
  let standings := f_Standings (finalSummary s') in
  fs_UserID <$> standings ≡ₚ p_UserID <$> List.filter p_Active (Players s)
  /\ (forall x, x ∈ standings ->
        fs_Rank x = 1 + Z.of_nat (countb (better x) standings)
        /\ (fs_Winner x = true <-> fs_Rank x = 1)
        /\ exists p, p ∈ Players s /\ p_Active p = true /\ fs_UserID x = p_UserID p
             /\ fs_TotalPoints x = p_TotalPoints p /\ fs_WonRoundOne x = p_WonRoundOne p
             /\ fs_WonRoundTwo x = p_WonRoundTwo p /\ fs_WonRoundThree x = p_WonRoundThree p)
  /\ forall u, u ∈ f_WinnerUserIDs (finalSummary s') <->
       exists x, x ∈ standings /\ fs_UserID x = u /\ fs_Winner x = true.
Proof.
  intros Hok. pose proof (session_Inv s Hs) as H. pose proof (players_at_most_nine s H) as Hn.
  assert (Hph : Phase s = PhaseRoundThreeResult).
  { unfold enterFinalResult in Hok. destruct (Z.eqb_spec (Phase s) PhaseRoundThreeResult); [done|done]. }
  rewrite (enterFinalResult_eq s now H Hph) in Hok. inv_result Hok. injection Hok as <- _.
  cbn [finalState finalSummary]. rewrite computeFinalSummary_eq by lia. cbn [f_Standings f_WinnerUserIDs].
  set (l := ordered (Players s)). cbv zeta. split_and!.
  - rewrite <- list_fmap_compose. change (fs_UserID ∘ placed l) with fs_UserID. unfold l.
    rewrite ordered_perm, <- list_fmap_compose. done.
  - intros x (y & -> & Hy)%list_elem_of_fmap. rewrite placed_count. split_and!; [done|apply unbeaten_rank|].
    apply ordered_elem in Hy as (p & Hp & Ha & ->). exists p. split_and!; done.
  - intros u. rewrite sortStrings_perm, list_elem_of_fmap. split.
    + intros (x & -> & [Hu Hx]%filter_elem). exists (placed l x). split_and!; [by apply list_elem_of_fmap_2|done|done].
    + intros (y & (x & -> & Hx)%list_elem_of_fmap & <- & Hw). exists x. split; [done|]. by apply filter_elem.
Qed.

Lemma final_standings_ranked_witness :
  exists d, enterFinalResult three_result3 (PhaseDeadlineUnixMillis three_result3) = Ok (three_final, d)
    /\ fs_UserID <$> f_Standings (finalSummary three_final)
         ≡ₚ p_UserID <$> List.filter p_Active (Players three_result3).
Proof.
  exists (threeFacts (enterFinalResult three_result3 (PhaseDeadlineUnixMillis three_result3))).
  assert (Heq : enterFinalResult three_result3 (PhaseDeadlineUnixMillis three_result3)
    = Ok (three_final, threeFacts (enterFinalResult three_result3 (PhaseDeadlineUnixMillis three_result3))))
    by (vm_compute; reflexivity).
  split; [exact Heq|]. exact (proj1 (final_standings_ranked _ _ _ _ three_result3_reachable Heq)).
Defined.

(** ** Selections *)

(** The selection made for an idle player is the weakest of the hand: in
    round one the card every other card beats, in round two the pair least by
    the round's order among all pairs of the hand. *)
Theorem auto_selection_weakest (hand : list CardID) (Hk : Forall known hand) (Hl : (2 <= length hand)%nat) :
  (exists id, autoSelect hand 1 = Ok [id] /\ id ∈ hand
     /\ forall id', id' ∈ hand -> compareRoundOne (strengthOf id) (strengthOf id') <= 0)
  /\ exists i j a b, (i < j)%nat /\ hand !! i = Some a /\ hand !! j = Some b
     /\ autoSelect hand 2 = Ok (canonicalSelection [a; b])
     /\ forall i' j' a' b', (i' < j')%nat -> hand !! i' = Some a' -> hand !! j' = Some b' ->
          compareRoundTwoAuto (autoKey (cardOf a) (cardOf b)) (autoKey (cardOf a') (cardOf b')) <= 0.
Proof.
  split; [apply autoSelect_one; [by destruct hand; cbn in Hl; [lia|]|done]|by apply autoSelect_two].
Qed.

Lemma auto_selection_weakest_witness :
  exists id, autoSelect ["9H"; "2S"; "BJ"]%string 1 = Ok [id].
Proof.
  destruct (auto_selection_weakest ["9H"; "2S"; "BJ"]%string) as [(id & Hid & _) _];
    [unfold known; apply (bool_decide_unpack _); vm_compute; exact I|vm_compute; lia|]. exists id. exact Hid.
Defined.

(** Facts never show a card that is still in a hand: after the deal, every
    card named by a reveal has been put down by the player it is attributed to
    and is in nobody's hand. *)
Theorem events_show_put_down (s : State) (i : Input) (s' : State) (es : list Event) (Hs : session s) :
  handle s i = Ok (s', es) ->
  forall e, e ∈ es -> ev_Deals e = [] /\
    forall r c, r ∈ sm_Reveals (ev_Summary e) -> c ∈ rv_CardIDs r ->
      (exists p, p ∈ Players s' /\ p_UserID p = rv_UserID r /\ c ∈ putDown p)
      /\ forall p, p ∈ Players s' -> c ∉ p_RemainingHand p.
Proof.
  intros Hh e He. pose proof (session_Inv s Hs) as H. pose proof (handle_Inv _ _ _ _ H Hh) as H'.
  apply handle_outcome in Hh; [|done].
  destruct (proj1 (Forall_forall _ _) (Outcome_discloses _ _ _ _ H Hh) e He) as [Hd Hsum]. split; [done|].
  intros r c Hr Hc. destruct Hsum as [Hz|(t & _ & Hset & Hsum)]; [rewrite Hz in Hr; by apply not_elem_of_nil in Hr|].
  rewrite Hsum in Hr. destruct (settles_reveals t s' r Hset Hr) as (p & Hp & Hu & Hsub).
  split; [exists p; split_and!; [done|done|by apply Hsub]|]. intros q Hq Hin.
  pose proof (player_ok s' p H' Hp) as Hok. pose proof (inv_roster _ H') as Hro.
  assert (Hcp : c ∈ p_InitialHand p).
  { rewrite <- (po_cards _ _ _ Hok). unfold allocation. apply elem_of_app. right. by apply Hsub. }
  assert (Hcq : c ∈ p_InitialHand q) by (eapply remaining_initial; [by apply player_ok|done]).
  rewrite <- (dealt_owner _ _ _ _ c Hro Hp Hq Hcp Hcq) in Hin.
  pose proof (allocation_nodup _ _ _ Hok (hand_nodup _ _ _ Hro Hp)) as Hnd.
  unfold allocation in Hnd. apply NoDup_app in Hnd as (_ & Hx & _). apply (Hx c Hin). by apply Hsub.
Qed.

Lemma events_show_put_down_witness :
  Forall (fun e => ev_Deals e = []) (threeFacts (handle three_chosen (tick three_chosen))).
Proof.
  apply Forall_forall. intros e He. refine (proj1 (events_show_put_down three_chosen (tick three_chosen) three_result1
    (threeFacts (handle three_chosen (tick three_chosen))) three_chosen_reachable _ e He)).
  vm_compute. reflexivity.
Defined.

(** ** The end of a session *)

(** C32: Once a player has confirmed a selection the host cannot end the
    session: the engine accepts the request and leaves the selection pending, and
    the resulting state is refused when it is stored. *)
Theorem pending_blocks_finish (s : State) (p : PlayerState) (reason operator : string) (Hs : session s) :
  p ∈ Players s -> ps_Round (p_PendingSelection p) <> 0 -> operator <> ""%string ->
  is_ok (Finish s "" operator) = true /\ is_ok (handle s (InFinish reason operator)) = false.
Proof.
  intros Hp Hr Hop. pose proof (session_Inv s Hs) as H.
  assert (Hsel : selecting (Phase s)).
  { destruct (po_pending _ _ _ (player_ok s p H Hp)) as [Hz|Hsel]; [by rewrite Hz in Hr|apply (sel_phase _ _ _ Hsel)]. }
  split.
  - unfold Finish. rewrite (Inv_Validate s H), (proj2 (eqb_string_false _ _) Hop). cbn [bind_result].
    by destruct Hsel as [->| ->].
  - destruct (handle s (InFinish reason operator)) as [[s' es]|] eqn:Eh; [|done]. exfalso.
    apply handle_outcome in Eh; [|done]. inversion Eh as [| | | | | | |? ? _ _ _ _ Hz]; subst.
    by rewrite (Hz p Hp) in Hr.
Qed.

Lemma pending_blocks_finish_witness :
  is_ok (Finish three_chosen "" "ben") = true /\ is_ok (handle three_chosen (InFinish "" "ben")) = false.
Proof.
  apply (pending_blocks_finish three_chosen (Players three_chosen !!! 0%nat) "" "ben" three_chosen_reachable).
  - apply list_elem_of_lookup_total_2. vm_compute. lia.
  - vm_compute. discriminate.
  - discriminate.
Defined.

(** A participant revoked while the final result is shown becomes inactive
    but keeps rank and title: the final summary is not recomputed. *)
Theorem revoked_keeps_standing (s : State) (userID : string) (now : Z) (s' : State) (es : list Event) (Hs : session s) :
  Phase s = PhaseFinalResult -> handle s (InRevoke userID now) = Ok (s', es) -> Phase s' = PhaseFinalResult ->
  finalSummary s' = finalSummary s
  /\ exists p, p ∈ Players s' /\ p_UserID p = userID /\ p_Active p = false
       /\ forall x, List.find (fun y => String.eqb (fs_UserID y) userID) (f_Standings (finalSummary s)) = Some x ->
            p_FinalRank p = fs_Rank x /\ p_FinalWinner p = fs_Winner x.
Proof.
  intros Hph Hh Hph'. pose proof (session_Inv s Hs) as H. apply handle_outcome in Hh; [|done].
  inversion Hh as [| | | |? ? k Hr Hc Hno|? ? k d Hr Hc Hsel Hall Hd|? ? k Hr Hc Hz|]; subst.
  - split; [done|]. destruct (index_elem s userID k (rem_index _ _ _ Hr)) as (Hk & _ & Hu).
    exists (decorated (f_Standings (finalSummary s)) (revoked (Players s !!! k))). split_and!.
    + cbn [revokedState withPlayers Players]. apply list_elem_of_fmap_2.
      apply list_elem_of_lookup. exists k. apply list_lookup_insert_eq. by apply lookup_lt_Some in Hk.
    + rewrite decorated_user. exact Hu.
    + by apply decorated_field.
    + intros x Hx. unfold decorated. change (p_UserID (revoked (Players s !!! k))) with (p_UserID (Players s !!! k)).
      rewrite Hu. by rewrite Hx.
  - by destruct Hsel as [E|E]; rewrite Hph in E.
  - done.
Qed.

Definition three_leaving : Input := InRevoke "ana" 99000.
Definition three_left : State := Eval vm_compute in threeOf (handle three_final three_leaving).
Lemma revoked_keeps_standing_witness :
  finalSummary three_left = finalSummary three_final
  /\ "ana"%string ∈ fs_UserID <$> f_Standings (finalSummary three_left).
Proof.
  split; [|apply (bool_decide_unpack _); vm_compute; exact I].
  refine (proj1 (revoked_keeps_standing three_final "ana" 99000 three_left
    (threeFacts (handle three_final three_leaving)) three_final_reachable _ _ _)); vm_compute; reflexivity.
Defined.

(** A decoded state may hold a pending selection without cards: it validates,
    and the timer of its phase then reads past the end of the selection. *)
Definition three_corrupt : State :=
  Eval vm_compute in
    withPlayers three_start ((fun p => recorded p 1 [] false) <$> Players three_start).
Example empty_pending_panics :
  Validate three_corrupt = Ok tt /\ step three_corrupt (tick three_corrupt) = Err Panic.
Proof. split; vm_compute; reflexivity. Qed.

(** ** Deck and deal *)

(** C31: The shuffle favours no order of the deck.  It exchanges cards by one
    draw per position, each the remainder of the first word of the seed's hash
    stream, after those of the earlier positions, that lies below the greatest
    multiple of the number of choices; every order of the deck comes from exactly
    one sequence of draws; below that limit each choice is the remainder of the
    same number of words, and fewer than [n] words and the all-ones word are
    rejected. *)
Theorem shuffle_unbiased fuel seed shuffled (Hok : ShuffleDeck fuel seed = Ok shuffled) :
  (exists draws, drawnFrom seed 53 0 draws /\ legalDraws 53 draws /\ shuffled = swaps 53 draws deckOrdered)
  /\ (forall order, order ≡ₚ deckOrdered -> exists! draws, legalDraws 53 draws /\ swaps 53 draws deckOrdered = order)
  /\ (forall k, 0 <= streamWord seed k <= maxUint64)
  /\ forall n, 0 < n <= 54 ->
       maxUint64 - fairLimit n < n
       /\ forall j x, 0 <= j < n ->
            0 <= x < fairLimit n /\ x mod n = j <-> exists q, 0 <= q < maxUint64 / n /\ x = q * n + j.
Proof.
  split_and!.
  - destruct (ShuffleDeck_drawn _ _ _ Hok) as (draws & Hd & ->). exists draws. by eauto using drawnFrom_legal.
  - intros order Ho. apply swaps_bijective; [apply deck_length| |done].
    eapply NoDup_fmap_1, deck_ids_NoDup.
  - apply streamWord_range.
  - intros n Hn. split; [|intros j x Hj; apply draw_fibre; lia].
    destruct (shuffleLimit_blocks n) as (E & _ & Hb); [unfold maxUint64; lia|]. unfold fairLimit. rewrite <- E. exact Hb.
Qed.

Lemma shuffle_unbiased_witness :
  exists shuffled, ShuffleDeck 3 three_seed = Ok shuffled
    /\ exists draws, drawnFrom three_seed 53 0 draws /\ legalDraws 53 draws /\ shuffled = swaps 53 draws deckOrdered.
Proof.
  assert (Hdone : is_ok (ShuffleDeck 3 three_seed) = true) by (vm_compute; reflexivity).
  destruct (ShuffleDeck 3 three_seed) as [deck|e] eqn:Heq; [|discriminate Hdone].
  exists deck. split; [reflexivity|]. exact (proj1 (shuffle_unbiased 3 three_seed deck Heq)).
Defined.

(** A session deals the top of the shuffled deck round robin: the player at
    position [i] in seat order gets the cards at positions [i], [n + i], ..., the
    hands together are the first [6n] cards, and the seats are in ascending
    order. *)
Theorem deal_round_robin fuel cfg participants host now seed s es :
  NewState fuel cfg participants host now seed = Ok (s, es) ->
  exists deck, ShuffleDeck fuel seed = Ok deck
    /\ let n := length participants in
       length (Players s) = n
       /\ ((fun p => (p_UserID p, p_SeatIndex p)) <$> Players s)
            ≡ₚ ((fun q => (UserID q, SeatIndex q)) <$> participants)
       /\ StronglySorted (fun p q => p_SeatIndex p < p_SeatIndex q) (Players s)
       /\ (forall i p, Players s !! i = Some p ->
             p_InitialHand p = (fun k => ID (deck !!! (k * n + i)%nat)) <$> seq 0 6)
       /\ dealtCards (Players s) ≡ₚ ID <$> take (6 * n) deck.
Proof.
  intros Hn. pose proof (NewState_Inv _ _ _ _ _ _ _ _ Hn) as H.
  apply NewState_Ok in Hn as (canonical & deck & deadline & Hc & _ & _ & Hsh & _ & ->).
  pose proof (canonicalParticipants_Ok _ _ Hc) as (Hp & Hcount & _). exists deck. split; [done|]. cbv zeta.
  rewrite <- (Permutation_length Hp). cbn [startState Players]. split_and!.
  - apply length_imap.
  - rewrite <- Hp. by rewrite (seatedPlayers_field _ (fun q => (UserID q, SeatIndex q))).
  - apply (inv_roster _ H).
  - intros i p Hi. unfold seatedPlayers in Hi. rewrite list_lookup_imap in Hi.
    destruct (canonical !! i) as [q|]; [|done]. by injection Hi as <-.
  - apply (seated_dealt deck canonical); [by eapply ShuffleDeck_Permutation|done].
Qed.

Lemma deal_round_robin_witness : length (Players three_start) = 3%nat.
Proof.
  destruct (deal_round_robin 3 DefaultConfig three_players "ben" 1000 three_seed three_start
    (threeFacts (NewState 3 DefaultConfig three_players "ben" 1000 three_seed))) as (deck & _ & Hl & _);
    [vm_compute; reflexivity|exact Hl].
Defined.
End ThreeRoundsTheorems.
