(* ===== verification/Selector.v ===== *)
(** * Canonical selectors and operation identifiers

    [platform/identifier/selector.go], the operation identifiers and digests of
    [platform/idempotency/idempotency.go] and the action identifiers of
    [sdk/go/game/action_id.go]: unpadded Base64URL text that names between 16
    and 64 bytes.

    [EncodeToString] and [DecodeString] are those of Go's
    [base64.RawURLEncoding]: the decoder skips carriage returns and line feeds
    and does not look at the unused bits of the last character, which is why
    the source encodes again and compares. *)

From Stdlib Require Import Ascii.
From S2P Require Import Prelude GoLib.

Module Selector.
Import GoLib.

(** ** [base64.RawURLEncoding] *)

(** The character of a six-bit value. *)
Definition charOf (v : Z) : ascii :=
  ascii_of_N (Z.to_N (
    if v <? 26 then 65 + v
    else if v <? 52 then 97 + (v - 26)
    else if v <? 62 then 48 + (v - 52)
    else if v =? 62 then 45 else 95)).

(** The six-bit value of a character of the alphabet. *)
Definition valueOf (c : ascii) : option Z :=
  let b := byteOf c in
  if (65 <=? b) && (b <=? 90) then Some (b - 65)
  else if (97 <=? b) && (b <=? 122) then Some (b - 97 + 26)
  else if (48 <=? b) && (b <=? 57) then Some (b - 48 + 52)
  else if b =? 45 then Some 62
  else if b =? 95 then Some 63
  else None.

(** Three bytes are four six-bit values; a rest of one or two bytes gives two
    or three, the unused bits 0. *)
Fixpoint sextets (bytes : list Z) : list Z :=
  match bytes with
  | [] => []
  | [x] => [x / 4; x mod 4 * 16]
  | [x; y] => [x / 4; x mod 4 * 16 + y / 16; y mod 16 * 4]
  | x :: y :: z :: rest =>
      x / 4 :: x mod 4 * 16 + y / 16 :: y mod 16 * 4 + z / 64 :: z mod 64 :: sextets rest
  end.

(** One left-over character is not a byte. *)
Fixpoint octets (values : list Z) : option (list Z) :=
  match values with
  | [] => Some []
  | [_] => None
  | [a; b] => Some [a * 4 + b / 16]
  | [a; b; c] => Some [a * 4 + b / 16; b mod 16 * 16 + c / 4]
  | a :: b :: c :: d :: rest =>
      (fun bytes => a * 4 + b / 16 :: b mod 16 * 16 + c / 4 :: c mod 4 * 64 + d :: bytes) <$> octets rest
  end.

Definition lineBreak (c : ascii) : bool := (byteOf c =? 10) || (byteOf c =? 13).

Definition EncodeToString (bytes : list Z) : string :=
  String.string_of_list_ascii (charOf <$> sextets bytes).

Definition DecodeString (s : string) : option (list Z) :=
  values ← mapM valueOf (List.filter (fun c => negb (lineBreak c)) (String.list_ascii_of_string s));
  octets values.

(** ** [identifier.Selector] *)
Definition MinimumSelectorBytes : Z := 16.
Definition MaximumSelectorBytes : Z := 64.
Definition maximumSelectorEncodedBytes : Z := (MaximumSelectorBytes * 8 + 5) / 6.

Inductive SelectorError := ErrInvalidSelector.

Record Selector := mkSelector {
  value : string;
  byteLength : Z;
}.

Definition u8 (z : Z) : Z := z mod 256.
Definition len {A} (l : list A) : Z := Z.of_nat (length l).
Definition slen (s : string) : Z := Z.of_nat (String.length s).

Definition NewSelector (entropy : list Z) : result SelectorError Selector :=
  if (len entropy <? MinimumSelectorBytes) || (MaximumSelectorBytes <? len entropy) then Err ErrInvalidSelector
  else Ok (mkSelector (EncodeToString entropy) (u8 (len entropy))).

Definition ParseSelector (input : string) : result SelectorError Selector :=
  if maximumSelectorEncodedBytes <? slen input then Err ErrInvalidSelector
  else match DecodeString input with
  | None => Err ErrInvalidSelector
  | Some decoded =>
      if (len decoded <? MinimumSelectorBytes) || (MaximumSelectorBytes <? len decoded) then Err ErrInvalidSelector
      else if negb (String.eqb (EncodeToString decoded) input) then Err ErrInvalidSelector
      else Ok (mkSelector input (u8 (len decoded)))
  end.

Definition Value (selector : Selector) : string := value selector.
Definition ByteLength (selector : Selector) : Z := byteLength selector.

(** ** [idempotency.OperationID] and [idempotency.Digest] *)
Inductive IdempotencyError := ErrInvalidInput | ErrConflict.

Definition OperationID : Type := Selector.

(** The zero value of the struct. *)
Definition noOperation : OperationID := mkSelector "" 0.

Definition NewOperationID (entropy : list Z) : result IdempotencyError OperationID :=
  match NewSelector entropy with Ok selector => Ok selector | Err _ => Err ErrInvalidInput end.

Definition ParseOperationID (text : string) : result IdempotencyError OperationID :=
  match ParseSelector text with Ok selector => Ok selector | Err _ => Err ErrInvalidInput end.

Definition OperationID_Valid (operationID : OperationID) : bool :=
  MinimumSelectorBytes <=? ByteLength operationID.

(** A digest is its 32 bytes. *)
Definition Digest : Type := list Z.
Definition DigestSize : nat := 32.
Definition zeroDigest : Digest := replicate DigestSize 0.
Definition Digest_eqb (left right : Digest) : bool := bool_decide (left = right).

Definition NewDigest (bytes : list Z) : result IdempotencyError Digest :=
  if negb (length bytes =? DigestSize)%nat then Err ErrInvalidInput else Ok bytes.

(** ** [game.ActionID] *)
Inductive ContractError := ErrInvalidContract.

Definition MinimumActionIDBytes : Z := 16.
Definition MaximumActionIDBytes : Z := 64.
Definition maximumActionIDEncodedBytes : Z := (MaximumActionIDBytes * 8 + 5) / 6.

Definition ParseActionID (text : string) : result ContractError string :=
  if maximumActionIDEncodedBytes <? slen text then Err ErrInvalidContract
  else match DecodeString text with
  | None => Err ErrInvalidContract
  | Some decoded =>
      if (len decoded <? MinimumActionIDBytes) || (MaximumActionIDBytes <? len decoded)
         || negb (String.eqb (EncodeToString decoded) text) then Err ErrInvalidContract
      else Ok text
  end.

Definition ActionID_Valid (actionID : string) : bool := is_ok (ParseActionID actionID).

(** ** The encoding *)
Definition is_sextet (v : Z) : Prop := 0 <= v < 64.

Lemma valueOf_charOf v : is_sextet v -> valueOf (charOf v) = Some v.
Proof.
  intros [H0 H1]. assert (Hall : forallb (fun n => bool_decide (valueOf (charOf (Z.of_nat n)) = Some (Z.of_nat n))) (seq 0 64) = true)
    by (vm_compute; reflexivity).
  rewrite forallb_forall in Hall. specialize (Hall (Z.to_nat v)).
  rewrite Z2Nat.id in Hall by done. eapply bool_decide_eq_true_1, Hall, in_seq. lia.
Qed.

Lemma lineBreak_charOf v : is_sextet v -> lineBreak (charOf v) = false.
Proof.
  intros [H0 H1]. assert (Hall : forallb (fun n => negb (lineBreak (charOf (Z.of_nat n)))) (seq 0 64) = true)
    by (vm_compute; reflexivity).
  rewrite forallb_forall in Hall. specialize (Hall (Z.to_nat v)).
  rewrite Z2Nat.id in Hall by done. apply negb_true_iff, Hall, in_seq. lia.
Qed.

(** Induction three bytes at a time. *)
Lemma triple_ind {A} (P : list A -> Prop) :
  P [] -> (forall x, P [x]) -> (forall x y, P [x; y]) ->
  (forall x y z rest, P rest -> P (x :: y :: z :: rest)) -> forall l, P l.
Proof.
  intros H0 H1 H2 H3. fix IH 1. intros [|x [|y [|z rest]]]; [done|apply H1|apply H2|]. apply H3, IH.
Qed.

Ltac byte_arith := unfold is_u8, is_sextet in *; (Z.to_euclidean_division_equations; lia).

Lemma sextets_range bytes : Forall is_u8 bytes -> Forall is_sextet (sextets bytes).
Proof.
  induction bytes as [|x|x y|x y z rest IH] using triple_ind; intros H; cbn [sextets];
    rewrite ?Forall_cons in *; destruct_and?; repeat split; rewrite ?Forall_nil; try byte_arith; try done.
  by apply IH.
Qed.

Lemma octets_sextets bytes : Forall is_u8 bytes -> octets (sextets bytes) = Some bytes.
Proof.
  induction bytes as [|x|x y|x y z rest IH] using triple_ind; intros H; cbn [sextets octets];
    rewrite ?Forall_cons in *; destruct_and?; [done| | |rewrite IH by done; cbn];
    repeat f_equal; byte_arith.
Qed.

Lemma sextets_length bytes : length (sextets bytes) = ((4 * length bytes + 2) / 3)%nat.
Proof.
  induction bytes as [|x|x y|x y z rest IH] using triple_ind; try reflexivity.
  cbn [sextets length]. rewrite IH.
  replace (4 * S (S (S (length rest))) + 2)%nat with ((4 * length rest + 2) + 4 * 3)%nat by lia.
  rewrite Nat.div_add by lia. lia.
Qed.

Lemma string_of_list_length l : String.length (String.string_of_list_ascii l) = length l.
Proof. induction l as [|c l IH]; cbn; [done|]. by rewrite IH. Qed.

Lemma EncodeToString_length bytes : slen (EncodeToString bytes) = (4 * len bytes + 2) / 3.
Proof.
  unfold slen, EncodeToString, len. rewrite string_of_list_length.
  rewrite length_fmap, sextets_length, Nat2Z.inj_div. f_equal. lia.
Qed.

(** Decoding undoes encoding. *)
Lemma DecodeString_EncodeToString bytes : Forall is_u8 bytes -> DecodeString (EncodeToString bytes) = Some bytes.
Proof.
  intros H. unfold DecodeString, EncodeToString. rewrite String.list_ascii_of_string_of_list_ascii.
  pose proof (sextets_range _ H) as Hs.
  assert (Hf : List.filter (fun c => negb (lineBreak c)) (charOf <$> sextets bytes) = charOf <$> sextets bytes).
  { induction Hs as [|v l Hv _ IH]; [done|]. cbn. rewrite (lineBreak_charOf v Hv). cbn. by f_equal. }
  rewrite Hf.
  assert (Hm : mapM valueOf (charOf <$> sextets bytes) = Some (sextets bytes)).
  { apply mapM_Some. clear Hf. induction Hs as [|v l Hv _ IH]; cbn; constructor; [by apply valueOf_charOf|done]. }
  rewrite Hm. cbn. by apply octets_sextets.
Qed.

(** ** Selectors *)

(** The text of the entropy parses back to the selector it was made for. *)
Lemma ParseSelector_NewSelector entropy selector :
  Forall is_u8 entropy -> NewSelector entropy = Ok selector -> ParseSelector (Value selector) = Ok selector.
Proof.
  intros Hb H. unfold NewSelector in H. inv_results H. unfold ParseSelector, Value. cbn [value].
  rewrite EncodeToString_length. unfold maximumSelectorEncodedBytes.
  assert (MaximumSelectorBytes = 64) as HM by done.
  to_prop. destruct (Z.ltb_spec ((MaximumSelectorBytes * 8 + 5) / 6) ((4 * len entropy + 2) / 3)) as [Hlt|_].
  { exfalso. revert Hlt. rewrite HM in *. Z.to_euclidean_division_equations; lia. }
  rewrite DecodeString_EncodeToString by done. rewrite (proj2 (Z.ltb_ge _ _)) by lia.
  rewrite (proj2 (Z.ltb_ge _ _)) by lia. cbn. by rewrite String.eqb_refl.
Qed.

(** A parsed selector keeps its text, and the text is the encoding of the bytes
    it names. *)
Lemma ParseSelector_Ok input selector :
  ParseSelector input = Ok selector ->
  exists entropy, DecodeString input = Some entropy /\ EncodeToString entropy = input /\
    MinimumSelectorBytes <= len entropy <= MaximumSelectorBytes /\ selector = mkSelector input (len entropy).
Proof.
  intros H. unfold ParseSelector in H. inv_result H. destruct (DecodeString input) as [decoded|]; [|done].
  inv_results H. exists decoded. bool_cases. repeat split; try done.
  unfold u8. rewrite Z.mod_small; [done|]. unfold MinimumSelectorBytes, MaximumSelectorBytes in *. lia.
Qed.

Lemma ParseOperationID_Ok text operation :
  ParseOperationID text = Ok operation -> Value operation = text /\ OperationID_Valid operation = true.
Proof.
  unfold ParseOperationID. destruct (ParseSelector text) as [selector|] eqn:E; [|done]. intros [= <-].
  apply ParseSelector_Ok in E as (entropy & _ & _ & Hlen & ->). split; [done|]. apply Z.leb_le, Hlen.
Qed.

(** The SDK and the platform accept the same texts. *)
Lemma ActionID_Valid_ParseOperationID text : ActionID_Valid text = is_ok (ParseOperationID text).
Proof.
  unfold ActionID_Valid, ParseActionID, ParseOperationID, ParseSelector.
  change maximumActionIDEncodedBytes with maximumSelectorEncodedBytes.
  change MinimumActionIDBytes with MinimumSelectorBytes. change MaximumActionIDBytes with MaximumSelectorBytes.
  destruct (maximumSelectorEncodedBytes <? slen text); [done|]. destruct (DecodeString text) as [decoded|]; [|done].
  destruct (_ <? _); [done|]. destruct (_ <? _); [done|]. cbn [orb]. by destruct (String.eqb _ _).
Qed.

(** [OperationID] values built by the package's constructors. *)
Definition wfOperation (operation : OperationID) : Prop :=
  operation = noOperation \/ exists text, ParseOperationID text = Ok operation.

Lemma wfOperation_eq left right :
  wfOperation left -> wfOperation right -> Value left = Value right -> left = right.
Proof.
  intros [->|[t Ht]] [->|[u Hu]] Heq; [done| | |].
  - pose proof (ParseOperationID_Ok _ _ Hu) as [Hv _]. rewrite <- Heq in Hv. cbn in Hv. subst u.
    vm_compute in Hu. discriminate.
  - pose proof (ParseOperationID_Ok _ _ Ht) as [Hv _]. rewrite Heq in Hv. cbn in Hv. subst t.
    vm_compute in Ht. discriminate.
  - pose proof (ParseOperationID_Ok _ _ Ht) as [Hv _]. pose proof (ParseOperationID_Ok _ _ Hu) as [Hw _]. congruence.
Qed.

Example EncodeToString_selector : EncodeToString (replicate 16 165) = "paWlpaWlpaWlpaWlpaWlpQ"%string.
Proof. vm_compute. reflexivity. Qed.

End Selector.
