(* ===== verification/GameManifest.v ===== *)
(** * Game manifests and the module registry

    [sdk/go/game/manifest.go] and [sdk/go/game/registry.go]: the versions,
    limits and declared capabilities of a game release, and the immutable
    registry that resolves one exact release.

    The regular expression of semantic versions is modelled by the automaton it
    denotes, and proved equal to the grammar read off the expression.  A
    registered module is an argument of the registry ([Module], with
    [manifestOf] for its [Manifest] method); [None] is a nil module. *)

From Stdlib Require Import Ascii.
From stdpp Require Import gmap.
From S2P Require Import Prelude GoLib Identifier.

Module GameManifest.
Import GoLib.

Inductive GameError :=
| ErrInvalidManifest | ErrDuplicateRegistration | ErrDefaultRegistration | ErrVersionNotRegistered
| ErrGameNotRegistered | ErrContext.

Definition identifierOk (value : string) : bool := is_ok (Identifier.ParseIdentifier value).

(** ** Versions *)
Definition maximumVersionBytes : nat := 64.
Definition MaximumParticipants : Z := 64.
Definition maximumThemeVariants : nat := 32.

Definition isDigit (c : ascii) : bool := (48 <=? byteOf c) && (byteOf c <=? 57).
Definition isZero (c : ascii) : bool := byteOf c =? 48.
(** [[0-9A-Za-z-]] *)
Definition isVersionChar (c : ascii) : bool :=
  isDigit c || (65 <=? byteOf c) && (byteOf c <=? 90) || (97 <=? byteOf c) && (byteOf c <=? 122)
  || (byteOf c =? 45).
Definition isDot (c : ascii) : bool := byteOf c =? 46.
Definition isHyphen (c : ascii) : bool := byteOf c =? 45.
Definition isPlus (c : ascii) : bool := byteOf c =? 43.

(** Where the expression stands: before, after the zero of, or inside the
    number with [n] more numbers to come; before or inside a word of the
    prerelease ([build = false]) or of the build metadata. *)
Inductive VersionState :=
| NumberStart (n : nat) | NumberZero (n : nat) | NumberMore (n : nat)
| WordStart (build : bool) | WordMore (build : bool).

Definition afterNumber (n : nat) (c : ascii) : option VersionState :=
  match n with
  | S n' => if isDot c then Some (NumberStart n') else None
  | O => if isHyphen c then Some (WordStart false) else if isPlus c then Some (WordStart true) else None
  end.

Definition versionStep (state : VersionState) (c : ascii) : option VersionState :=
  match state with
  | NumberStart n => if isZero c then Some (NumberZero n) else if isDigit c then Some (NumberMore n) else None
  | NumberZero n => afterNumber n c
  | NumberMore n => if isDigit c then Some (NumberMore n) else afterNumber n c
  | WordStart build => if isVersionChar c then Some (WordMore build) else None
  | WordMore build =>
      if isVersionChar c then Some (WordMore build)
      else if isDot c then Some (WordStart build)
      else if isPlus c && negb build then Some (WordStart true) else None
  end.

Definition versionAccept (state : VersionState) : bool :=
  match state with
  | NumberZero n | NumberMore n => (n =? 0)%nat
  | WordMore _ => true
  | _ => false
  end.

Fixpoint versionMatch (state : VersionState) (text : list ascii) : bool :=
  match text with
  | [] => versionAccept state
  | c :: rest => match versionStep state c with Some state' => versionMatch state' rest | None => false end
  end.

Definition versionPattern (value : string) : bool :=
  versionMatch (NumberStart 2) (String.list_ascii_of_string value).

Definition ParseVersion (value : string) : result GameError string :=
  if (String.length value =? 0)%nat || (maximumVersionBytes <? String.length value)%nat
     || negb (versionPattern value)
  then Err ErrInvalidManifest
  else Ok value.

Definition ParseGameID (value : string) : result Identifier.ManifestError string :=
  Identifier.ParseIdentifier value.

(** ** Manifests *)
Record VersionSet := mkVersionSet { vs_Engine : string; vs_Protocol : string; vs_Client : string }.

Record VersionKey := mkVersionKey {
  GameID : string; Engine : string; Protocol : string; Client : string;
}.

#[global] Instance VersionKey_eq_dec : EqDecision VersionKey.
Proof. solve_decision. Defined.
#[global] Instance VersionKey_countable : Countable VersionKey.
Proof.
  refine (inj_countable' (fun key => (GameID key, Engine key, Protocol key, Client key))
            (fun '(g, e, p, c) => mkVersionKey g e p c) _).
  by intros [].
Defined.

Record ParticipantLimits := mkLimits {
  Minimum : Z; Maximum : Z; RecommendedMinimum : Z; RecommendedMaximum : Z;
}.
#[global] Instance limits_eta : Eta ParticipantLimits :=
  fun l => mkLimits (Minimum l) (Maximum l) (RecommendedMinimum l) (RecommendedMaximum l).

Definition SubmissionModeTurnBased : string := "turn_based".
Definition SubmissionModeSimultaneous : string := "simultaneous".
Definition SubmissionModeMixed : string := "mixed".
Definition RevealPolicyRuleControlled : string := "rule_controlled".
Definition RevealPolicyPublicAtFinish : string := "public_at_finish".
Definition RevealPolicyNever : string := "never".

Record Capabilities := mkCapabilities {
  Submission : string; cap_Timers : bool; Spectating : bool; cap_Replay : bool; Reveal : string;
}.

Definition TableShapeAdaptive : string := "adaptive".
Definition TableShapeCompactOval : string := "compact_oval".
Definition TableShapeElongatedOval : string := "elongated_oval".
Definition TableShapeRoundedTable : string := "rounded_table".
Definition OrientationResponsive : string := "responsive".
Definition OrientationPortraitPreferred : string := "portrait_preferred".
Definition OrientationLandscapePreferred : string := "landscape_preferred".
Definition ActionDockSeatAnchored : string := "seat_anchored".
Definition ActionDockBottomEdge : string := "bottom_edge".

Record PresentationPreferences := mkPresentation {
  TableShape : string; Orientation : string; ActionDock : string;
}.

Record ThemePreferences := mkThemes { theme_Default : string; Fallback : string; Variants : list string }.
#[global] Instance themes_eta : Eta ThemePreferences :=
  fun t => mkThemes (theme_Default t) (Fallback t) (Variants t).

Record Manifest := mkManifest {
  mf_GameID : string;
  Versions : VersionSet;
  mf_Participants : ParticipantLimits;
  mf_Capabilities : Capabilities;
  Presentation : PresentationPreferences;
  Themes : ThemePreferences;
}.
#[global] Instance manifest_eta : Eta Manifest :=
  fun m => mkManifest (mf_GameID m) (Versions m) (mf_Participants m) (mf_Capabilities m) (Presentation m) (Themes m).

Definition ParticipantLimits_Valid (limits : ParticipantLimits) : bool :=
  if (Minimum limits =? 0) || (Maximum limits <? Minimum limits) || (MaximumParticipants <? Maximum limits)
  then false
  else if (RecommendedMinimum limits =? 0) && (RecommendedMaximum limits =? 0) then true
  else (Minimum limits <=? RecommendedMinimum limits) && (RecommendedMinimum limits <=? RecommendedMaximum limits)
       && (RecommendedMaximum limits <=? Maximum limits).

Definition Manifest_Key (manifest : Manifest) : VersionKey :=
  mkVersionKey (mf_GameID manifest) (vs_Engine (Versions manifest)) (vs_Protocol (Versions manifest))
    (vs_Client (Versions manifest)).

(** A copied slice is an equal value. *)
Definition Manifest_Clone (manifest : Manifest) : Manifest := manifest.

Definition VersionKey_Valid (key : VersionKey) : bool :=
  is_ok (ParseGameID (GameID key)) && is_ok (ParseVersion (Engine key))
  && is_ok (ParseVersion (Protocol key)) && is_ok (ParseVersion (Client key)).

Definition Capabilities_Valid (capabilities : Capabilities) : bool :=
  let submissionValid := String.eqb (Submission capabilities) SubmissionModeTurnBased
    || String.eqb (Submission capabilities) SubmissionModeSimultaneous
    || String.eqb (Submission capabilities) SubmissionModeMixed in
  let revealValid := String.eqb (Reveal capabilities) RevealPolicyRuleControlled
    || String.eqb (Reveal capabilities) RevealPolicyPublicAtFinish
    || String.eqb (Reveal capabilities) RevealPolicyNever in
  submissionValid && revealValid.

Definition Presentation_Valid (preferences : PresentationPreferences) : bool :=
  let tableValid := String.eqb (TableShape preferences) TableShapeAdaptive
    || String.eqb (TableShape preferences) TableShapeCompactOval
    || String.eqb (TableShape preferences) TableShapeElongatedOval
    || String.eqb (TableShape preferences) TableShapeRoundedTable in
  let orientationValid := String.eqb (Orientation preferences) OrientationResponsive
    || String.eqb (Orientation preferences) OrientationPortraitPreferred
    || String.eqb (Orientation preferences) OrientationLandscapePreferred in
  let dockValid := String.eqb (ActionDock preferences) ActionDockSeatAnchored
    || String.eqb (ActionDock preferences) ActionDockBottomEdge in
  tableValid && orientationValid && dockValid.

(** The loops over identifiers that must be canonical and distinct; [seen] is
    the map of the loop. *)
Fixpoint distinctIdentifiers (seen : list string) (values : list string) : bool :=
  match values with
  | [] => true
  | value :: rest =>
      if negb (identifierOk value) then false
      else if bool_decide (value ∈ seen) then false
      else distinctIdentifiers (value :: seen) rest
  end.

Definition validateThemePreferences (preferences : ThemePreferences) : result GameError ThemePreferences :=
  if negb (identifierOk (theme_Default preferences)) then Err ErrInvalidManifest
  else if negb (identifierOk (Fallback preferences)) then Err ErrInvalidManifest
  else if (length (Variants preferences) =? 0)%nat || (maximumThemeVariants <? length (Variants preferences))%nat
  then Err ErrInvalidManifest
  else if negb (distinctIdentifiers [] (Variants preferences)) then Err ErrInvalidManifest
  else if negb (bool_decide (theme_Default preferences ∈ Variants preferences)) then Err ErrInvalidManifest
  else Ok preferences.

Definition ValidateManifest (manifest : Manifest) : result GameError Manifest :=
  if negb (is_ok (ParseGameID (mf_GameID manifest))) then Err ErrInvalidManifest
  else if negb (forallb (fun version => is_ok (ParseVersion version))
                  [vs_Engine (Versions manifest); vs_Protocol (Versions manifest); vs_Client (Versions manifest)])
  then Err ErrInvalidManifest
  else if negb (ParticipantLimits_Valid (mf_Participants manifest)) || negb (Capabilities_Valid (mf_Capabilities manifest))
          || negb (Presentation_Valid (Presentation manifest))
  then Err ErrInvalidManifest
  else
    let limits := mf_Participants manifest in
    let manifest :=
      if RecommendedMinimum limits =? 0
      then manifest <| mf_Participants := limits <| RecommendedMinimum := Minimum limits |>
                                                 <| RecommendedMaximum := Maximum limits |> |>
      else manifest in
    let* themes := validateThemePreferences (Themes manifest) in
    Ok (Manifest_Clone (manifest <| Themes := themes |>)).

(** ** The registry *)
Section Registry.
Context {GameModule : Type} (manifestOf : GameModule -> Manifest).

Record Registration := mkRegistration { reg_Module : option GameModule; reg_Default : bool }.

Record Registry := mkRegistry {
  modules : gmap VersionKey (Manifest * GameModule);
  defaults : gmap string VersionKey;
  keys : list VersionKey;
}.

Definition emptyRegistry : Registry := mkRegistry ∅ ∅ [].

Definition NUL : string := String (Ascii.ascii_of_nat 0) EmptyString.

Definition versionKeyText (key : VersionKey) : string :=
  (GameID key +:+ NUL +:+ Engine key +:+ NUL +:+ Protocol key +:+ NUL +:+ Client key)%string.

Definition keyText_le (left right : VersionKey) : Prop := String.le (versionKeyText left) (versionKeyText right).
#[global] Instance keyText_le_dec left right : Decision (keyText_le left right).
Proof. unfold keyText_le. apply _. Defined.

(** One turn of the registration loop. *)
Definition register (registry : Registry) (registration : Registration) : result GameError Registry :=
  match reg_Module registration with
  | None => Err ErrInvalidManifest
  | Some m =>
      let* manifest := ValidateManifest (manifestOf m) in
      let key := Manifest_Key manifest in
      if bool_decide (is_Some (modules registry !! key)) then Err ErrDuplicateRegistration
      else
        let modules' := <[key := (manifest, m)]> (modules registry) in
        let keys' := keys registry ++ [key] in
        if reg_Default registration then
          if bool_decide (is_Some (defaults registry !! GameID key)) then Err ErrDefaultRegistration
          else Ok (mkRegistry modules' (<[GameID key := key]> (defaults registry)) keys')
        else Ok (mkRegistry modules' (defaults registry) keys')
  end.

Definition NewRegistry (registrations : list Registration) : result GameError Registry :=
  if (length registrations =? 0)%nat then Err ErrDefaultRegistration
  else
    let* registry := fold_result register emptyRegistry registrations in
    (* [registeredGames] holds the game of every registered key. *)
    if negb (forallb (fun key => bool_decide (is_Some (defaults registry !! GameID key))) (keys registry))
    then Err ErrDefaultRegistration
    else Ok (mkRegistry (modules registry) (defaults registry) (merge_sort keyText_le (keys registry))).

Definition Resolve (registry : Registry) (key : VersionKey) : result GameError GameModule :=
  if negb (VersionKey_Valid key) then Err ErrVersionNotRegistered
  else match modules registry !! key with
  | None => Err ErrVersionNotRegistered
  | Some registered => Ok (snd registered)
  end.

Definition ManifestOf (registry : Registry) (key : VersionKey) : result GameError Manifest :=
  if negb (VersionKey_Valid key) then Err ErrVersionNotRegistered
  else match modules registry !! key with
  | None => Err ErrVersionNotRegistered
  | Some registered => Ok (Manifest_Clone (fst registered))
  end.

(** [ctxDone] is [ctx.Err() != nil]. *)
Definition DefaultManifest (ctxDone : bool) (registry : Registry) (gameID : string) : result GameError Manifest :=
  if ctxDone then Err ErrContext
  else if negb (is_ok (ParseGameID gameID)) then Err ErrGameNotRegistered
  else match defaults registry !! gameID with
  | None => Err ErrGameNotRegistered
  | Some key => ManifestOf registry key
  end.

Definition DefaultModule (ctxDone : bool) (registry : Registry) (gameID : string) : result GameError GameModule :=
  let* manifest := DefaultManifest ctxDone registry gameID in
  Resolve registry (Manifest_Key manifest).

Definition Manifests (registry : Registry) : list Manifest :=
  omap (fun key => Manifest_Clone ∘ fst <$> modules registry !! key) (keys registry).
End Registry.

(** ** The grammar of the version expression *)
(** [[0-9A-Za-z-]+(?:\.[0-9A-Za-z-]+)*] *)
Inductive Dotted : list ascii -> Prop :=
| dotted_last c : isVersionChar c = true -> Dotted [c]
| dotted_char c l : isVersionChar c = true -> Dotted l -> Dotted (c :: l)
| dotted_dot c d l : isVersionChar c = true -> isDot d = true -> Dotted l -> Dotted (c :: d :: l).

(** [(0|[1-9][0-9]* )] *)
Inductive Number : list ascii -> Prop :=
| number_zero c : isZero c = true -> Number [c]
| number_more c l : isDigit c = true -> isZero c = false -> Forall (fun d => isDigit d = true) l -> Number (c :: l).

(** The optional build metadata, and the optional prerelease before it. *)
Inductive Build : list ascii -> Prop :=
| build_none : Build []
| build_some c l : isPlus c = true -> Dotted l -> Build (c :: l).

Inductive Tail : list ascii -> Prop :=
| tail_build l : Build l -> Tail l
| tail_prerelease c pre l : isHyphen c = true -> Dotted pre -> Build l -> Tail (c :: pre ++ l).

(** [n] more numbers, each after a dot, before the tail. *)
Inductive Numbers : nat -> list ascii -> Prop :=
| numbers_last num l : Number num -> Tail l -> Numbers 0 (num ++ l)
| numbers_dot n num c l : Number num -> isDot c = true -> Numbers n l -> Numbers (S n) (num ++ c :: l).

Ltac char_facts :=
  unfold isVersionChar, isPlus, isDot, isHyphen, isZero, isDigit in *; bool_cases; lia.

Lemma isDot_not_char c : isDot c = true -> isVersionChar c = false.
Proof. intros H. destruct (isVersionChar c) eqn:E; [char_facts|done]. Qed.
Lemma isPlus_not_char c : isPlus c = true -> isVersionChar c = false /\ isDot c = false.
Proof. intros H. split; [destruct (isVersionChar c) eqn:E|destruct (isDot c) eqn:E]; try done; char_facts. Qed.
Lemma isPlus_not_hyphen c : isPlus c = true -> isHyphen c = false.
Proof. intros H. destruct (isHyphen c) eqn:E; [char_facts|done]. Qed.
Lemma separator_not_digit c : isDot c || isHyphen c || isPlus c = true -> isDigit c = false.
Proof. intros H. destruct (isDigit c) eqn:E; [char_facts|done]. Qed.

(** What may follow a word: the end, or the build metadata of a prerelease. *)
Definition AfterWords (build : bool) (l : list ascii) : Prop := if build then l = [] else Build l.

Lemma versionMatch_words build word l :
  Dotted word -> AfterWords build l -> versionMatch (WordStart build) (word ++ l) = true.
Proof.
  intros Hw Hl. induction Hw as [c Hc|c w Hc Hw IH|c d w Hc Hd Hw IH]; cbn [app versionMatch versionStep]; rewrite Hc; cbn [versionMatch versionStep].
  - destruct build; cbn in Hl; [by subst|]. destruct Hl as [|c' l' Hp Hd]; [done|].
    cbn [versionMatch versionStep]. destruct (isPlus_not_char _ Hp) as [-> ->]. rewrite Hp. cbn [andb negb].
    clear Hc c' Hp. induction Hd as [c1 H1|c1 w H1 Hw IH|c1 d w H1 Hdot Hw IH]; cbn [versionMatch versionStep]; rewrite H1; cbn [versionMatch versionStep]; [done| |].
    + destruct Hw; cbn [versionMatch versionStep] in *; by rewrite H in *.
    + by rewrite (isDot_not_char _ Hdot), Hdot.
  - destruct Hw; cbn [app versionMatch versionStep] in *; by rewrite H in *.
  - by rewrite (isDot_not_char _ Hd), Hd.
Qed.

Lemma words_versionMatch l : forall build,
  (versionMatch (WordStart build) l = true -> exists word rest, l = word ++ rest /\ Dotted word /\ AfterWords build rest) /\
  (versionMatch (WordMore build) l = true -> forall c, isVersionChar c = true ->
     exists word rest, c :: l = word ++ rest /\ Dotted word /\ AfterWords build rest).
Proof.
  induction l as [|a l IH]; intros build; cbn [versionMatch versionStep versionAccept].
  { split; [done|]. intros _ c Hc. exists [c], []. repeat split; [by constructor|]. destruct build; [done|constructor]. }
  destruct (isVersionChar a) eqn:Ha.
  { split; [intros H; by apply IH|]. intros H c Hc. destruct (proj2 (IH build) H a Ha) as (w & r & Heq & Hw & Hr).
    exists (c :: w), r. cbn. rewrite Heq. repeat split; [by constructor|done]. }
  split; [done|]. destruct (isDot a) eqn:Hd.
  { intros H c Hc. destruct (proj1 (IH build) H) as (w & r & -> & Hw & Hr).
    exists (c :: a :: w), r. repeat split; [by constructor|done]. }
  destruct (isPlus a) eqn:Hp; [|done]. destruct build; [done|]. cbn [andb negb].
  intros H c Hc. destruct (proj1 (IH true) H) as (w & r & -> & Hw & Hr).
  cbn in Hr. subst r. exists [c], (a :: w). rewrite app_nil_r. repeat split; [by constructor|]. by constructor.
Qed.

(** The rest after a number, seen from inside it. *)
Definition AfterNumber (n : nat) (l : list ascii) : Prop :=
  match n with O => Tail l | S n' => exists c rest, l = c :: rest /\ isDot c = true /\ Numbers n' rest end.

Lemma Numbers_split n l : Numbers n l <-> exists num rest, l = num ++ rest /\ Number num /\ AfterNumber n rest.
Proof.
  split.
  - intros [num r Hn Ht|k num c r Hn Hd Hr]; [by exists num, r|]. exists num, (c :: r).
    repeat split; [done|]. by exists c, r.
  - intros (num & r & -> & Hn & Ha). destruct n; cbn in Ha; [by constructor|].
    destruct Ha as (c & rest & -> & Hd & Hr). by constructor.
Qed.

Section NumberEnd.
Context (n : nat) (IHn : forall l, match n with O => True | S n' => versionMatch (NumberStart n') l = true <-> Numbers n' l end).

(** After a number the machine and the grammar agree. *)
Lemma number_end l :
  match l with [] => (n =? 0)%nat
             | c :: rest => match afterNumber n c with Some q => versionMatch q rest | None => false end end = true
  <-> AfterNumber n l.
Proof.
  destruct n as [|n']; destruct l as [|c rest]; cbn [AfterNumber afterNumber].
  - split; [|done]. intros _. apply tail_build, build_none.
  - split.
    + intros H. destruct (isHyphen c) eqn:Hh.
      { apply (words_versionMatch rest false) in H as (w & r & -> & Hw & Hr). by apply tail_prerelease. }
      destruct (isPlus c) eqn:Hp; [|done]. apply (words_versionMatch rest true) in H as (w & r & -> & Hw & Hr).
      cbn in Hr. subst r. rewrite app_nil_r. apply tail_build. by constructor.
    + intros H. inversion H as [? Hb|? pre l Hh Hpre Hb]; subst.
      * inversion Hb as [|? ? Hp Hd]; subst. rewrite (isPlus_not_hyphen _ Hp), Hp.
        rewrite <- (app_nil_r rest). by apply versionMatch_words.
      * rewrite Hh. by apply versionMatch_words.
  - split; [done|]. by intros (? & ? & ? & _).
  - specialize (IHn rest). split.
    + destruct (isDot c) eqn:Hd; [|done]. intros H. exists c, rest. by rewrite <- IHn.
    + intros (c' & r & Heq & Hd & Hr). simplify_eq. rewrite Hd. by apply IHn.
Qed.

Lemma AfterNumber_head c l : AfterNumber n (c :: l) -> isDigit c = false.
Proof.
  intros H. apply separator_not_digit. destruct n; cbn in H.
  - inversion H as [? Hb|? ? ? Hh]; subst; [inversion Hb; subst|]; bool_cases; by repeat (done || apply orb_true_iff; (left + right)).
  - destruct H as (? & ? & ? & Hd & _). simplify_eq. by rewrite Hd.
Qed.

Lemma number_more_match l :
  versionMatch (NumberMore n) l = true <->
  exists ds rest, l = ds ++ rest /\ Forall (fun d => isDigit d = true) ds /\ AfterNumber n rest.
Proof.
  induction l as [|c l IH].
  - cbn [versionMatch versionAccept]. rewrite (number_end []). split.
    + intros H. by exists [], [].
    + intros (ds & rest & Heq & _ & H). symmetry in Heq. by apply app_eq_nil in Heq as [-> ->].
  - cbn [versionMatch versionStep]. destruct (isDigit c) eqn:Hd.
    + rewrite IH. split.
      * intros (ds & rest & -> & Hds & H). exists (c :: ds), rest. repeat split; [by constructor|done].
      * intros (ds & rest & Heq & Hds & H). destruct ds as [|d ds].
        { cbn in Heq. subst rest. by rewrite (AfterNumber_head _ _ H) in Hd. }
        simplify_list_eq. exists ds, rest. by inversion Hds.
    + pose proof (number_end (c :: l)) as Hend. cbn in Hend. rewrite Hend. split.
      * intros H. by exists [], (c :: l).
      * intros (ds & rest & Heq & Hds & H). destruct ds as [|d ds]; [by simplify_list_eq|].
        simplify_list_eq. inversion Hds. congruence.
Qed.

Lemma number_start_match l : versionMatch (NumberStart n) l = true <-> Numbers n l.
Proof.
  rewrite Numbers_split. destruct l as [|c l]; cbn [versionMatch versionStep versionAccept].
  - split; [done|]. intros (num & rest & Heq & Hn & _). by destruct Hn.
  - destruct (isZero c) eqn:Hz.
    + replace (versionMatch (NumberZero n) l) with
        (match l with [] => (n =? 0)%nat
         | c :: rest => match afterNumber n c with Some q => versionMatch q rest | None => false end end) by by destruct l.
      rewrite number_end. split.
      * intros H. exists [c], l. repeat split; [by constructor|done].
      * intros (num & rest & Heq & Hn & H). destruct Hn; simplify_list_eq; [done|congruence].
    + destruct (isDigit c) eqn:Hd.
      * rewrite number_more_match. split.
        -- intros (ds & rest & -> & Hds & H). exists (c :: ds), rest. repeat split; [by constructor|done].
        -- intros (num & rest & Heq & Hn & H). destruct Hn; simplify_list_eq; [congruence|]. eauto.
      * split; [done|]. intros (num & rest & Heq & Hn & H). destruct Hn as [d Hz'|]; simplify_list_eq; congruence.
Qed.
End NumberEnd.

(** The automaton accepts exactly the language of the source's expression. *)
Theorem versionPattern_grammar s : versionPattern s = true <-> Numbers 2 (String.list_ascii_of_string s).
Proof.
  unfold versionPattern. apply number_start_match. intros l. apply number_start_match. intros l'.
  by apply number_start_match.
Qed.

(** ** What the registry guarantees *)
Lemma ValidateManifest_key manifest manifest' :
  ValidateManifest manifest = Ok manifest' ->
  Manifest_Key manifest' = Manifest_Key manifest /\ VersionKey_Valid (Manifest_Key manifest') = true.
Proof.
  intros H. unfold ValidateManifest in H. inv_result H. inv_result H. inv_result H. cbv zeta in H.
  assert (HK : Manifest_Key manifest' = Manifest_Key manifest).
  { inv_results H. unfold Manifest_Clone. by destruct (RecommendedMinimum _ =? 0). }
  split; [done|]. rewrite HK. unfold VersionKey_Valid, Manifest_Key. cbn [GameID Engine Protocol Client].
  cbn [forallb] in *. bool_cases. by repeat (apply andb_true_iff; split).
Qed.

Section RegistryFacts.
Context {GameModule : Type} (manifestOf : GameModule -> Manifest).
Implicit Types (registry : Registry (GameModule := GameModule)).

(** The registration [registration] of the module [m] under [key]. *)
Definition Registers (registration : Registration) (key : VersionKey) (manifest : Manifest) (m : GameModule) : Prop :=
  reg_Module registration = Some m /\ ValidateManifest (manifestOf m) = Ok manifest /\ Manifest_Key manifest = key.

(** The registry after the registrations [done]: it holds exactly them, under
    distinct keys, and each default is one of them. *)
Record Holds registry (done : list Registration) : Prop := mkHolds {
  holds_all registration : registration ∈ done ->
    exists key manifest m, Registers registration key manifest m /\ modules registry !! key = Some (manifest, m);
  holds_only key manifest m : modules registry !! key = Some (manifest, m) ->
    exists registration, registration ∈ done /\ Registers registration key manifest m;
  holds_keys key : key ∈ keys registry <-> is_Some (modules registry !! key);
  holds_distinct : NoDup (keys registry);
  holds_defaults gameID key : defaults registry !! gameID = Some key ->
    GameID key = gameID /\ exists registration manifest m, registration ∈ done /\ reg_Default registration = true
      /\ Registers registration key manifest m /\ modules registry !! key = Some (manifest, m);
}.

Lemma Holds_empty : Holds emptyRegistry [].
Proof.
  constructor; cbn.
  - intros ? H. inversion H.
  - intros ??? H. by rewrite lookup_empty in H.
  - intros key. rewrite lookup_empty. split; [intros H; inversion H|by intros [? ?]].
  - constructor.
  - intros ?? H. by rewrite lookup_empty in H.
Qed.

Lemma register_Holds registry done registration registry' :
  Holds registry done -> register manifestOf registry registration = Ok registry' ->
  Holds registry' (done ++ [registration]).
Proof.
  intros [Hall Honly Hkeys Hnd Hdef] H. unfold register in H.
  destruct (reg_Module registration) as [m|] eqn:Em; [|done]. inv_results H.
  1,2: rename value into manifest; bool_cases.
  all: set (key := Manifest_Key manifest) in *.
  all: assert (Hreg : Registers registration key manifest m) by done.
  all: assert (Hfresh : modules registry !! key = None) by (by apply eq_None_not_Some).
  all: constructor; cbn [modules defaults keys].
  all: try (intros r; rewrite elem_of_app, list_elem_of_singleton; intros [Hr| ->];
    [destruct (Hall r Hr) as (k & mf & m' & HR & Hl); exists k, mf, m'; split; [done|];
       rewrite lookup_insert_ne; [done|congruence]
    |exists key, manifest, m; by rewrite lookup_insert_eq]).
  all: try (intros k mf m'; destruct (decide (k = key)) as [->|Hne];
    [rewrite lookup_insert_eq; intros [= <- <-]; exists registration; split; [set_solver|done]
    |rewrite lookup_insert_ne by done; intros Hl; destruct (Honly k mf m' Hl) as (r & Hr & HR); exists r; set_solver]).
  all: try (intros k; rewrite elem_of_app, list_elem_of_singleton, Hkeys;
    destruct (decide (k = key)) as [->|Hne]; [rewrite lookup_insert_eq; naive_solver|];
    rewrite lookup_insert_ne by done; naive_solver).
  all: try (apply NoDup_app; repeat split; [done| |apply NoDup_singleton];
    intros k Hk ->%list_elem_of_singleton; apply Hkeys in Hk; rewrite Hfresh in Hk; by destruct Hk).
  all: assert (Hold : forall gameID k, defaults registry !! gameID = Some k ->
    GameID k = gameID /\ exists r mf m', r ∈ done ++ [registration] /\ reg_Default r = true
      /\ Registers r k mf m' /\ <[key:=(manifest, m)]> (modules registry) !! k = Some (mf, m')).
  1,3: intros g k Hd; destruct (Hdef g k Hd) as (Hg & r & mf & m' & Hr & Ht & HR & Hl); split; [done|];
       exists r, mf, m'; rewrite lookup_insert_ne by congruence; rewrite elem_of_app; eauto 6.
  - intros g k. destruct (decide (g = GameID key)) as [->|Hne].
    + rewrite lookup_insert_eq. intros [= <-]. split; [done|]. exists registration, manifest, m.
      rewrite lookup_insert_eq. repeat split; try done. set_solver.
    + rewrite lookup_insert_ne by done. apply Hold.
  - exact Hold.
Qed.

Lemma registered_Holds registrations registry :
  fold_result (register manifestOf) emptyRegistry registrations = Ok registry -> Holds registry registrations.
Proof.
  revert registry. induction registrations as [|r rs IH] using rev_ind; intros registry H.
  - cbn in H. simplify_eq. apply Holds_empty.
  - rewrite fold_result_app in H. destruct (fold_result _ _ rs) as [mid|]; [|done]. cbn in H. inv_results H.
    eapply register_Holds; [by apply IH|done].
Qed.

(** A registry that was built holds the registrations, in order of their keys,
    and has a default for every game. *)
Lemma NewRegistry_Holds registrations registry :
  NewRegistry manifestOf registrations = Ok registry ->
  Holds registry registrations /\ StronglySorted keyText_le (keys registry) /\
  (forall key, key ∈ keys registry -> is_Some (defaults registry !! GameID key)).
Proof.
  intros H. unfold NewRegistry in H. inv_results H. apply registered_Holds in E0 as [Hall Honly Hkeys Hnd Hdef].
  assert (Hp : merge_sort keyText_le (keys value) ≡ₚ keys value) by apply merge_sort_Permutation.
  split; [constructor; cbn [modules defaults keys]; try done|split].
  - intros key. by rewrite Hp.
  - by rewrite Hp.
  - apply StronglySorted_merge_sort.
    + intros x y z. unfold keyText_le. apply (transitivity (R := String.le)).
    + intros x y. unfold keyText_le. apply total. apply _.
  - cbn [keys defaults]. intros key. rewrite Hp. intros Hk. to_prop.
    rewrite forallb_forall in E1. specialize (E1 key). rewrite <- list_elem_of_In in E1.
    by apply bool_decide_eq_true in E1.
Qed.

Lemma Resolve_Holds registry registrations key m :
  Holds registry registrations ->
  Resolve registry key = Ok m <->
  exists registration manifest, registration ∈ registrations /\ Registers registration key manifest m /\
    modules registry !! key = Some (manifest, m).
Proof.
  intros HH. unfold Resolve. split.
  - intros H. inv_result H. destruct (modules registry !! key) as [[mf m']|] eqn:El; [|done]. cbn in H. simplify_eq.
    destruct (holds_only _ _ HH _ _ _ El) as (r & Hr & HR). eauto.
  - intros (r & mf & Hr & (Hm & Hv & Hk) & El). destruct (ValidateManifest_key _ _ Hv) as [_ Hval].
    rewrite Hk in Hval. by rewrite Hval, El.
Qed.
End RegistryFacts.

End GameManifest.
