(* ===== verification/GameContract.v ===== *)
(** * The contract between the session runtime and the game modules

    [sdk/go/game/contract.go]: the messages, deterministic inputs, snapshots,
    transitions and projections that cross the boundary, and the checks either
    side makes of them.

    A [time.Time] is its instant (see [GoLib]); [RoundUTC] is [Round(0).UTC()],
    which only strips process-local metadata that is not part of the instant.
    A defensive copy ([Clone]) is an equal value. *)

From Stdlib Require Import Ascii.
From S2P Require Import Prelude GoLib Identifier Selector GameManifest.

Module GameContract.
Import GoLib Selector GameManifest.

Definition MaximumMessageBytes : Z := Z.shiftl 1 20.
Definition RandomSeedBytes : nat := 32.
Definition maximumAllocatedIDs : Z := 256.
Definition MaximumTransitionEvents : Z := 1024.
Definition MaximumTransitionTimers : Z := 64.
Definition MaximumAllowedActions : Z := 128.

Definition RoundUTC (t : Time) : Time := t.

(** ** Messages *)
Record Message := mkMessage {
  MessageType : string;
  SchemaVersion : Z;
  Payload : list Z;
}.
#[global] Instance message_eta : Eta Message := fun m => mkMessage (MessageType m) (SchemaVersion m) (Payload m).
#[global] Instance Message_eq_dec : EqDecision Message.
Proof. solve_decision. Defined.

Definition noMessage : Message := mkMessage "" 0 [].

Definition Message_Clone (message : Message) : Message := message.

Definition Message_Valid (message : Message) : bool :=
  identifierOk (MessageType message) && (0 <? SchemaVersion message)
  && (len (Payload message) <=? MaximumMessageBytes).

(** ** Deterministic inputs *)
Record DeterministicContext := mkContext {
  Now : Time;
  RandomSeed : list Z;
  AllocatedIDs : list string;
}.
#[global] Instance context_eta : Eta DeterministicContext :=
  fun c => mkContext (Now c) (RandomSeed c) (AllocatedIDs c).

Definition Context_Clone (execution : DeterministicContext) : DeterministicContext :=
  execution <| Now := RoundUTC (Now execution) |>.

Definition Context_Valid (execution : DeterministicContext) : bool :=
  if IsZero (Now execution) || negb (Now execution =? RoundUTC (Now execution))
     || (maximumAllocatedIDs <? len (AllocatedIDs execution))
  then false
  else if negb (existsb (fun value => negb (value =? 0)) (RandomSeed execution)) then false
  else distinctIdentifiers [] (AllocatedIDs execution).

(** ** Participants of a start *)
Record SdkParticipant := mkSdkParticipant { sp_UserID : string; sp_SeatIndex : Z }.

Definition SdkParticipant_Valid (participant : SdkParticipant) : bool := identifierOk (sp_UserID participant).

Record SessionStartContext := mkStartContext { HostUserID : string; StartingSeat : Z }.

Definition SessionStartContext_Valid (start : SessionStartContext) (participants : list SdkParticipant) : bool :=
  if negb (identifierOk (HostUserID start)) then false
  else existsb (fun participant => String.eqb (sp_UserID participant) (HostUserID start)) participants
       && existsb (fun participant => sp_SeatIndex participant =? StartingSeat start) participants.

(** ** Snapshots *)
Record GameSnapshot := mkGameSnapshot {
  SnapshotVersion : Z;
  StateVersion : Z;
  State : Message;
}.
#[global] Instance snapshot_eta : Eta GameSnapshot :=
  fun s => mkGameSnapshot (SnapshotVersion s) (StateVersion s) (State s).
#[global] Instance GameSnapshot_eq_dec : EqDecision GameSnapshot.
Proof. solve_decision. Defined.

Definition Snapshot_Valid (snapshot : GameSnapshot) : bool :=
  (0 <? SnapshotVersion snapshot) && (0 <? StateVersion snapshot) && Message_Valid (State snapshot).

(** ** Requests *)
Record CreateRequest := mkCreateRequest {
  cr_Context : DeterministicContext;
  cr_StartContext : SessionStartContext;
  cr_Participants : list SdkParticipant;
  cr_Config : Message;
}.

(** The participants loop: canonical, distinct users on distinct seats. *)
Fixpoint distinctParticipants (users : list string) (seats : list Z) (participants : list SdkParticipant) : bool :=
  match participants with
  | [] => true
  | participant :: rest =>
      if negb (SdkParticipant_Valid participant) then false
      else if bool_decide (sp_UserID participant ∈ users) then false
      else if bool_decide (sp_SeatIndex participant ∈ seats) then false
      else distinctParticipants (sp_UserID participant :: users) (sp_SeatIndex participant :: seats) rest
  end.

Definition CreateRequest_Validate (request : CreateRequest) (limits : ParticipantLimits) : result ContractError unit :=
  if negb (Context_Valid (cr_Context request)) || negb (Message_Valid (cr_Config request))
     || negb (ParticipantLimits_Valid limits)
     || (len (cr_Participants request) <? Minimum limits) || (Maximum limits <? len (cr_Participants request))
  then Err ErrInvalidContract
  else if negb (distinctParticipants [] [] (cr_Participants request)) then Err ErrInvalidContract
  else if negb (SessionStartContext_Valid (cr_StartContext request) (cr_Participants request))
  then Err ErrInvalidContract
  else Ok tt.

Record CommandRequest := mkCommandRequest {
  cm_Context : DeterministicContext;
  cm_ActorUserID : string;
  cm_ActionID : string;
  cm_ExpectedStateVersion : Z;
  cm_Command : Message;
}.

Definition CommandRequest_Valid (request : CommandRequest) : bool :=
  Context_Valid (cm_Context request) && identifierOk (cm_ActorUserID request) && ActionID_Valid (cm_ActionID request)
  && (0 <? cm_ExpectedStateVersion request) && Message_Valid (cm_Command request).

Record TimerRequest := mkTimerRequest {
  tr_Context : DeterministicContext;
  tr_TimerID : string;
  tr_ExpectedStateVersion : Z;
  tr_Timer : Message;
}.

Definition TimerRequest_Valid (request : TimerRequest) : bool :=
  Context_Valid (tr_Context request) && identifierOk (tr_TimerID request)
  && (0 <? tr_ExpectedStateVersion request) && Message_Valid (tr_Timer request).

Record SystemRequest := mkSystemRequest {
  sr_Context : DeterministicContext;
  sr_SystemOperationID : string;
  sr_SourceEventID : string;
  sr_RequestedByUserID : string;
  sr_ExpectedStateVersion : Z;
  sr_System : Message;
}.

Definition SystemRequest_Valid (request : SystemRequest) : bool :=
  let requesterValid :=
    if negb (String.eqb (sr_RequestedByUserID request) "") then identifierOk (sr_RequestedByUserID request)
    else true in
  Context_Valid (sr_Context request) && ActionID_Valid (sr_SystemOperationID request)
  && identifierOk (sr_SourceEventID request) && requesterValid
  && (0 <? sr_ExpectedStateVersion request) && Message_Valid (sr_System request).

(** ** Events, timers and transitions *)
Record Event := mkEvent { ev_Message : Message }.
#[global] Instance Event_eq_dec : EqDecision Event.
Proof. solve_decision. Defined.

Definition Event_Valid (event : Event) : bool := Message_Valid (ev_Message event).

Record VersionedEvent := mkVersionedEvent { ve_StateVersion : Z; ve_Event : Event }.

Definition VersionedEvent_Valid (event : VersionedEvent) : bool :=
  (0 <? ve_StateVersion event) && Event_Valid (ve_Event event).

Record TimerIntent := mkTimerIntent {
  ti_TimerID : string;
  ti_DueAt : Time;
  ti_Message : Message;
}.
#[global] Instance intent_eta : Eta TimerIntent := fun t => mkTimerIntent (ti_TimerID t) (ti_DueAt t) (ti_Message t).

Definition TimerIntent_Valid (timer : TimerIntent) (executedAt : Time) : bool :=
  identifierOk (ti_TimerID timer) && negb (IsZero (ti_DueAt timer)) && (ti_DueAt timer =? RoundUTC (ti_DueAt timer))
  && negb (Before (ti_DueAt timer) executedAt) && Message_Valid (ti_Message timer).

Record Transition := mkTransition {
  tn_Snapshot : GameSnapshot;
  tn_Events : list Event;
  tn_Timers : list TimerIntent;
  tn_Finished : bool;
}.

(** The timers loop: valid, under distinct identifiers. *)
Fixpoint validIntents (executedAt : Time) (seen : list string) (timers : list TimerIntent) : bool :=
  match timers with
  | [] => true
  | timer :: rest =>
      if negb (TimerIntent_Valid timer executedAt) then false
      else if bool_decide (ti_TimerID timer ∈ seen) then false
      else validIntents executedAt (ti_TimerID timer :: seen) rest
  end.

Definition Transition_Validate (transition : Transition) (previousStateVersion : Z) (executedAt : Time)
  : result ContractError unit :=
  if (previousStateVersion =? maxUint64) || negb (Snapshot_Valid (tn_Snapshot transition))
     || negb (StateVersion (tn_Snapshot transition) =? u64 (previousStateVersion + 1))
     || IsZero executedAt || negb (executedAt =? RoundUTC executedAt) || (len (tn_Events transition) =? 0)
     || (MaximumTransitionEvents <? len (tn_Events transition))
     || (MaximumTransitionTimers <? len (tn_Timers transition))
  then Err ErrInvalidContract
  else if negb (forallb Event_Valid (tn_Events transition)) then Err ErrInvalidContract
  else if negb (validIntents executedAt [] (tn_Timers transition)) then Err ErrInvalidContract
  else Ok tt.

(** ** Viewers and projections *)
Definition ViewerPlayer : string := "player".
Definition ViewerSpectator : string := "spectator".
Definition ViewerReplay : string := "replay".

Record Viewer := mkViewer { vw_Kind : string; vw_UserID : string; vw_SeatIndex : Z }.

Definition Viewer_Valid (viewer : Viewer) : bool :=
  let kindValid := String.eqb (vw_Kind viewer) ViewerPlayer || String.eqb (vw_Kind viewer) ViewerSpectator
    || String.eqb (vw_Kind viewer) ViewerReplay in
  identifierOk (vw_UserID viewer) && kindValid
  && (String.eqb (vw_Kind viewer) ViewerPlayer || (vw_SeatIndex viewer =? 0)).

Definition ReplayAccessParticipant : string := "participant".
Definition ReplayAccessRoomMember : string := "room_member".
Definition ReplayAccessPublic : string := "public".

Definition ReplayAccessPolicy_Valid (policy : string) : bool :=
  String.eqb policy ReplayAccessParticipant || String.eqb policy ReplayAccessRoomMember
  || String.eqb policy ReplayAccessPublic.

Record ReplayTerminalMeta := mkTerminalMeta {
  rm_Finished : bool; rm_Cancelled : bool; rm_EndedAt : Time; rm_CancelReason : string;
}.

Definition ReplayTerminalMeta_Valid (meta : ReplayTerminalMeta) : bool :=
  if IsZero (rm_EndedAt meta) || negb (rm_EndedAt meta =? RoundUTC (rm_EndedAt meta)) then false
  else if Bool.eqb (rm_Finished meta) (rm_Cancelled meta) then false
  else if rm_Finished meta then String.eqb (rm_CancelReason meta) ""
  else identifierOk (rm_CancelReason meta).

Record ReplayRequest := mkReplayRequest {
  rr_Events : list Event; rr_Viewer : Viewer; rr_Policy : string; rr_TerminalMeta : ReplayTerminalMeta;
}.

Definition ReplayRequest_Valid (request : ReplayRequest) : bool :=
  if negb (String.eqb (vw_Kind (rr_Viewer request)) ViewerReplay) || negb (Viewer_Valid (rr_Viewer request))
     || negb (ReplayAccessPolicy_Valid (rr_Policy request))
     || negb (ReplayTerminalMeta_Valid (rr_TerminalMeta request))
  then false
  else forallb Event_Valid (rr_Events request).

Record Projection := mkProjection { View : Message; AllowedActions : list string }.

Definition Projection_Valid (projection : Projection) : bool :=
  if negb (Message_Valid (View projection)) || (MaximumAllowedActions <? len (AllowedActions projection)) then false
  else distinctIdentifiers [] (AllowedActions projection).

Record EventProjection := mkEventProjection { ep_Messages : list Message }.

Definition EventProjection_Valid (projection : EventProjection) : bool :=
  if (len (ep_Messages projection) =? 0) || (MaximumTransitionEvents <? len (ep_Messages projection)) then false
  else forallb Message_Valid (ep_Messages projection).

Record ParticipantRevocationFact := mkRevocationFact { rf_UserID : string }.

Definition ParticipantRevocationFact_Valid (fact : ParticipantRevocationFact) : bool := identifierOk (rf_UserID fact).

(** ** [uuid.UUID] as text and bytes *)
Definition hexDigit (v : Z) : ascii := ascii_of_N (Z.to_N (if v <? 10 then 48 + v else 97 + (v - 10))).

(** [n] hexadecimal digits of [u], the most significant first. *)
Fixpoint hexDigits (n : nat) (u : Z) : list ascii :=
  match n with O => [] | S n' => hexDigit (u / 16 ^ Z.of_nat n' mod 16) :: hexDigits n' u end.

Definition uuidText (u : UUID) : list ascii :=
  let hyphen := ascii_of_N 45 in
  let digits := hexDigits 32 u in
  take 8 digits ++ hyphen :: take 4 (drop 8 digits) ++ hyphen :: take 4 (drop 12 digits)
  ++ hyphen :: take 4 (drop 16 digits) ++ hyphen :: drop 20 digits.

Definition UUID_String (u : UUID) : string := String.string_of_list_ascii (uuidText u).

(** [n] big-endian bytes. *)
Fixpoint bigEndian (n : nat) (v : Z) : list Z :=
  match n with O => [] | S n' => v / 256 ^ Z.of_nat n' mod 256 :: bigEndian n' v end.

Definition uuidBytes (u : UUID) : list Z := bigEndian 16 u.

(** ** What the loops check *)
Lemma distinctIdentifiers_spec seen values :
  distinctIdentifiers seen values = true <->
  Forall (fun value => identifierOk value = true) values /\ NoDup values /\ (forall value, value ∈ values -> value ∉ seen).
Proof.
  revert seen. induction values as [|v rest IH]; intros seen; cbn [distinctIdentifiers].
  - split; [|done]. intros _. split_and!; [done|constructor|intros ? H; inversion H].
  - destruct (identifierOk v) eqn:Ev; cbn [negb]; [|split; [done|]; intros (H & _); inversion H; congruence].
    case_bool_decide as Hs; [split; [done|]; intros (_ & _ & H); destruct (H v); [constructor|done]|].
    rewrite IH, NoDup_cons, Forall_cons. split.
    + intros (HF & HN & HS). split_and!; try done.
      * intros Hin. destruct (HS v Hin). constructor.
      * intros w Hw. apply elem_of_cons in Hw as [->|Hw]; [done|]. intros Hws. destruct (HS w Hw). by constructor.
    + intros ((_ & HF) & (Hv & HN) & HS). split_and!; try done.
      intros w Hw Hin. apply elem_of_cons in Hin as [->|Hin]; [done|]. apply (HS w); [by constructor|done].
Qed.

Lemma validIntents_spec executedAt seen timers :
  validIntents executedAt seen timers = true <->
  Forall (fun timer => TimerIntent_Valid timer executedAt = true) timers /\ NoDup (ti_TimerID <$> timers)
  /\ (forall timer, timer ∈ timers -> ti_TimerID timer ∉ seen).
Proof.
  revert seen. induction timers as [|t rest IH]; intros seen; cbn [validIntents].
  - split; [|done]. intros _. split_and!; [done|constructor|intros ? H; inversion H].
  - destruct (TimerIntent_Valid t executedAt) eqn:Et; cbn [negb];
      [|split; [done|]; intros (H & _); inversion H; congruence].
    case_bool_decide as Hs; [split; [done|]; intros (_ & _ & H); destruct (H t); [constructor|done]|].
    rewrite IH, fmap_cons, NoDup_cons, Forall_cons. split.
    + intros (HF & HN & HS). split_and!; try done.
      * intros (t' & Heq & Hin)%list_elem_of_fmap. apply (HS t' Hin). rewrite <- Heq. constructor.
      * intros w Hw. apply elem_of_cons in Hw as [->|Hw]; [done|]. intros Hws. destruct (HS w Hw). by constructor.
    + intros ((_ & HF) & (Hv & HN) & HS). split_and!; try done.
      intros w Hw Hin. apply elem_of_cons in Hin as [Heq|Hin].
      * apply Hv. rewrite <- Heq. by apply list_elem_of_fmap_2.
      * apply (HS w); [by constructor|done].
Qed.

(** A valid transition steps the version by one without wrapping around. *)
Lemma Transition_Validate_Ok transition previous executedAt :
  is_u64 previous -> Transition_Validate transition previous executedAt = Ok tt ->
  previous < maxUint64 /\ Snapshot_Valid (tn_Snapshot transition) = true /\
  StateVersion (tn_Snapshot transition) = previous + 1 /\ executedAt <> 0 /\
  1 <= len (tn_Events transition) <= MaximumTransitionEvents /\
  len (tn_Timers transition) <= MaximumTransitionTimers /\
  forallb Event_Valid (tn_Events transition) = true /\ validIntents executedAt [] (tn_Timers transition) = true.
Proof.
  intros Hp H. unfold Transition_Validate in H. inv_results H. unfold is_u64, maxUint64 in *. to_prop.
  assert (Hu : u64 (previous + 1) = previous + 1) by (unfold u64; rewrite Z.mod_small; lia).
  rewrite Hu in *. unfold IsZero, len in *. bool_cases. split_and!; try done; lia.
Qed.

(** ** Texts of UUIDs *)
Lemma hexDigits_length n u : length (hexDigits n u) = n.
Proof. induction n as [|n IH]; cbn; [done|]. by rewrite IH. Qed.

Lemma hexDigit_alnum v : 0 <= v < 16 -> Identifier.isAlnum (hexDigit v) = true.
Proof.
  intros H. assert (Hall : forallb (fun n => Identifier.isAlnum (hexDigit (Z.of_nat n))) (seq 0 16) = true)
    by (vm_compute; reflexivity).
  rewrite forallb_forall in Hall. specialize (Hall (Z.to_nat v)). rewrite Z2Nat.id in Hall by lia.
  apply Hall, in_seq. lia.
Qed.

Lemma hexDigit_inj v w : 0 <= v < 16 -> 0 <= w < 16 -> hexDigit v = hexDigit w -> v = w.
Proof.
  intros Hv Hw. assert (Hall : forallb (fun n => forallb (fun m =>
      implb (Ascii.eqb (hexDigit (Z.of_nat n)) (hexDigit (Z.of_nat m))) (n =? m)%nat) (seq 0 16)) (seq 0 16) = true)
    by (vm_compute; reflexivity).
  rewrite forallb_forall in Hall. specialize (Hall (Z.to_nat v) ltac:(apply in_seq; lia)).
  rewrite forallb_forall in Hall. specialize (Hall (Z.to_nat w) ltac:(apply in_seq; lia)).
  rewrite !Z2Nat.id in Hall by lia. intros Heq. rewrite Heq, Ascii.eqb_refl in Hall. cbn in Hall.
  apply Nat.eqb_eq in Hall. lia.
Qed.

Lemma hexDigits_alnum n u : Forall (fun c => Identifier.isAlnum c = true) (hexDigits n u).
Proof.
  induction n as [|n IH]; cbn; constructor; [|done]. apply hexDigit_alnum. apply Z.mod_pos_bound. lia.
Qed.

(** Fixed-width digits determine a number: hexadecimal or bytes. *)
Lemma digits_inj (base : Z) (n : nat) (u v : Z) :
  1 < base -> 0 <= u < base ^ Z.of_nat n -> 0 <= v < base ^ Z.of_nat n ->
  (forall k, (k < n)%nat -> u / base ^ Z.of_nat k mod base = v / base ^ Z.of_nat k mod base) -> u = v.
Proof.
  intros Hb. revert u v. induction n as [|n IH]; intros u v Hu Hv Hd; [cbn in *; lia|].
  assert (Hpow : base ^ Z.of_nat (S n) = base * base ^ Z.of_nat n) by (rewrite Nat2Z.inj_succ, Z.pow_succ_r; lia).
  rewrite Hpow in Hu, Hv.
  assert (Hq : u / base = v / base).
  { apply IH; try (split; [apply Z.div_pos; lia|apply Z.div_lt_upper_bound; lia]).
    intros k Hk. specialize (Hd (S k) ltac:(lia)). rewrite Nat2Z.inj_succ, Z.pow_succ_r in Hd by lia.
    rewrite !Z.div_div by lia. done. }
  specialize (Hd 0%nat ltac:(lia)). change (base ^ Z.of_nat 0) with 1 in Hd. rewrite !Z.div_1_r in Hd.
  rewrite (Z.div_mod u base), (Z.div_mod v base) by lia. congruence.
Qed.

Lemma hexDigits_lookup n u k : (k < n)%nat -> hexDigits n u !! (n - 1 - k)%nat = Some (hexDigit (u / 16 ^ Z.of_nat k mod 16)).
Proof.
  induction n as [|n IH]; intros Hk; [lia|]. destruct (decide (k = n)) as [->|Hne].
  - by replace (S n - 1 - n)%nat with 0%nat by lia.
  - replace (S n - 1 - k)%nat with (S (n - 1 - k)) by lia. cbn. apply IH. lia.
Qed.

Lemma bigEndian_lookup n u k : (k < n)%nat -> bigEndian n u !! (n - 1 - k)%nat = Some (u / 256 ^ Z.of_nat k mod 256).
Proof.
  induction n as [|n IH]; intros Hk; [lia|]. destruct (decide (k = n)) as [->|Hne].
  - by replace (S n - 1 - n)%nat with 0%nat by lia.
  - replace (S n - 1 - k)%nat with (S (n - 1 - k)) by lia. cbn. apply IH. lia.
Qed.

Lemma hexDigits_inj n u v :
  0 <= u < 16 ^ Z.of_nat n -> 0 <= v < 16 ^ Z.of_nat n -> hexDigits n u = hexDigits n v -> u = v.
Proof.
  intros Hu Hv Heq. apply (digits_inj 16 n); try done. intros k Hk.
  pose proof (hexDigits_lookup n u k Hk) as H1. pose proof (hexDigits_lookup n v k Hk) as H2.
  rewrite Heq, H2 in H1. injection H1 as H1. symmetry. apply hexDigit_inj; [apply Z.mod_pos_bound; lia..|done].
Qed.

Lemma bigEndian_inj n u v :
  0 <= u < 256 ^ Z.of_nat n -> 0 <= v < 256 ^ Z.of_nat n -> bigEndian n u = bigEndian n v -> u = v.
Proof.
  intros Hu Hv Heq. apply (digits_inj 256 n); try done. intros k Hk.
  pose proof (bigEndian_lookup n u k Hk) as H1. pose proof (bigEndian_lookup n v k Hk) as H2.
  rewrite Heq, H2 in H1. by injection H1.
Qed.

Lemma bigEndian_length n u : length (bigEndian n u) = n.
Proof. induction n as [|n IH]; cbn; [done|]. by rewrite IH. Qed.

Lemma bigEndian_bytes n u : Forall is_u8 (bigEndian n u).
Proof. induction n as [|n IH]; cbn; constructor; [|done]. unfold is_u8. apply Z.mod_pos_bound. lia. Qed.

Lemma bigEndian_app_inj n u v rest rest' :
  0 <= u < 256 ^ Z.of_nat n -> 0 <= v < 256 ^ Z.of_nat n ->
  bigEndian n u ++ rest = bigEndian n v ++ rest' -> u = v /\ rest = rest'.
Proof.
  intros Hu Hv Heq. apply app_inj_1 in Heq as [H ->]; [|by rewrite !bigEndian_length]. split; [|done].
  by apply bigEndian_inj in H.
Qed.

(** A run of letters and digits leaves the identifier automaton inside a word. *)
Lemma matchFrom_run b l rest :
  l <> [] -> Forall (fun c => Identifier.isAlnum c = true) l ->
  Identifier.matchFrom b (String.string_of_list_ascii (l ++ rest)) = Identifier.matchFrom false (String.string_of_list_ascii rest).
Proof.
  intros Hne H. revert b Hne. induction H as [|c l Hc Hl IH]; intros b Hne; [done|].
  cbn [app String.string_of_list_ascii Identifier.matchFrom]. rewrite Hc. destruct l as [|c' l]; [done|]. by apply IH.
Qed.

Lemma matchFrom_hyphen rest :
  Identifier.matchFrom false (String.string_of_list_ascii (ascii_of_N 45 :: rest))
  = Identifier.matchFrom true (String.string_of_list_ascii rest).
Proof. reflexivity. Qed.

Lemma hexDigits_part n u i k :
  (i + k <= n)%nat -> (0 < k)%nat ->
  Forall (fun c => Identifier.isAlnum c = true) (take k (drop i (hexDigits n u))) /\ take k (drop i (hexDigits n u)) <> [].
Proof.
  intros Hk H0. split; [apply Forall_take, Forall_drop, hexDigits_alnum|].
  intros H. apply (f_equal length) in H. rewrite length_take, length_drop, hexDigits_length in H. cbn in H. lia.
Qed.

(** The text of a UUID is a canonical identifier. *)
Lemma UUID_String_identifier u : identifierOk (UUID_String u) = true.
Proof.
  unfold identifierOk, Identifier.ParseIdentifier, UUID_String.
  assert (Hlen : length (uuidText u) = 36%nat).
  { unfold uuidText. repeat (rewrite ?length_app, ?length_take, ?length_drop, ?hexDigits_length; cbn [length]). lia. }
  rewrite Selector.string_of_list_length, Hlen. cbn [Nat.eqb orb].
  assert (Hm : Identifier.identifierPattern (String.string_of_list_ascii (uuidText u)) = true); [|by rewrite Hm].
  unfold Identifier.identifierPattern, uuidText.
  rewrite <- (drop_0 (hexDigits 32 u)) at 1.
  replace (drop 20 (hexDigits 32 u)) with (take 12 (drop 20 (hexDigits 32 u)) ++ []).
  2:{ rewrite app_nil_r. apply take_ge. by rewrite length_drop, hexDigits_length. }
  rewrite matchFrom_run; [|apply hexDigits_part; lia..]. rewrite matchFrom_hyphen.
  do 3 (rewrite matchFrom_run; [|apply hexDigits_part; lia..]; rewrite matchFrom_hyphen).
  by rewrite matchFrom_run; [|apply hexDigits_part; lia..].
Qed.

Lemma cons_tail {A} (x y : A) l l' : x :: l = y :: l' -> l = l'.
Proof. congruence. Qed.

(** Distinct UUIDs have distinct texts. *)
Lemma UUID_String_inj u v :
  0 <= u < 2 ^ 128 -> 0 <= v < 2 ^ 128 -> UUID_String u = UUID_String v -> u = v.
Proof.
  intros Hu Hv H. unfold UUID_String in H. apply (f_equal String.list_ascii_of_string) in H.
  rewrite !String.list_ascii_of_string_of_list_ascii in H.
  apply (hexDigits_inj 32); [exact Hu|exact Hv|]. unfold uuidText in H.
  assert (Hp : forall i k, length (take k (drop i (hexDigits 32 u))) = length (take k (drop i (hexDigits 32 v)))).
  { intros i k. by rewrite !length_take, !length_drop, !hexDigits_length. }
  apply app_inj_1 in H as [H8 H]; [|apply (Hp 0%nat)]. apply cons_tail in H.
  apply app_inj_1 in H as [H12 H]; [|apply Hp]. apply cons_tail in H.
  apply app_inj_1 in H as [H16 H]; [|apply Hp]. apply cons_tail in H.
  apply app_inj_1 in H as [H20 H]; [|apply Hp]. apply cons_tail in H.
  rewrite <- (take_drop 8 (hexDigits 32 u)), <- (take_drop 8 (hexDigits 32 v)), H8. f_equal.
  rewrite <- (take_drop 4 (drop 8 (hexDigits 32 u))), <- (take_drop 4 (drop 8 (hexDigits 32 v))), H12. f_equal.
  rewrite !drop_drop. change (8 + 4)%nat with 12%nat.
  rewrite <- (take_drop 4 (drop 12 (hexDigits 32 u))), <- (take_drop 4 (drop 12 (hexDigits 32 v))), H16. f_equal.
  rewrite !drop_drop. change (12 + 4)%nat with 16%nat.
  rewrite <- (take_drop 4 (drop 16 (hexDigits 32 u))), <- (take_drop 4 (drop 16 (hexDigits 32 v))), H20. f_equal.
  by rewrite !drop_drop.
Qed.

#[global] Opaque UUID_String.

End GameContract.
