(* ===== verification/Outbox.v ===== *)
(** * The durable outbox

    [platform/outbox/value.go], [event.go], [consumer.go] and the batch of
    [repository.go]: immutable events, and consumers that own an offset, a
    lease and a retry state.  Every mutation of a consumer is a function from
    its snapshot to the next one and the compare-and-swap that stores it.

    The two regular expressions are the automata they denote.  A [ConsumerID],
    [EventType], [LeaseOwner] or [ErrorCode] is its text, a [Sequence] a 64-bit
    unsigned integer, a [time.Duration] a number of nanoseconds. *)

From Stdlib Require Import Ascii.
From S2P Require Import Prelude GoLib Selector.

Module Outbox.
Import GoLib Selector.

Inductive OutboxError :=
| ErrInvalidInput | ErrNotFound | ErrAlreadyExists | ErrLeaseUnavailable | ErrLeaseNotOwned | ErrLeaseExpired
| ErrBackoffActive | ErrInvalidAcknowledgement | ErrRetryExhausted | ErrConcurrentTransition
| ErrRepositoryUnavailable | ErrIntegrity.

Abbreviation res A := (result OutboxError A).

(** ** Values *)
Definition MaximumNameLength : Z := 128.
Definition MaximumSubscriptions : Z := 64.

Definition isLower (c : ascii) : bool := (97 <=? byteOf c) && (byteOf c <=? 122).
Definition isUpper (c : ascii) : bool := (65 <=? byteOf c) && (byteOf c <=? 90).
Definition isDigit (c : ascii) : bool := (48 <=? byteOf c) && (byteOf c <=? 57).

(** [^[a-z][a-z0-9_]*(?:\.[a-z][a-z0-9_]* )+$]: [start] before the first letter
    of a word, [dotted] after the first dot. *)
Fixpoint protocolNameFrom (start dotted : bool) (text : list ascii) : bool :=
  match text with
  | [] => negb start && dotted
  | c :: rest =>
      if start then isLower c && protocolNameFrom false dotted rest
      else if isLower c || isDigit c || (byteOf c =? 95) then protocolNameFrom false dotted rest
      else (byteOf c =? 46) && protocolNameFrom true true rest
  end.

Definition protocolNamePattern (value : string) : bool :=
  protocolNameFrom true false (String.list_ascii_of_string value).

(** [[A-Za-z0-9._:@/-]] *)
Definition isOwnerChar (c : ascii) : bool :=
  isLower c || isUpper c || isDigit c || bool_decide (byteOf c ∈ [46; 95; 58; 64; 47; 45]).

(** [^[A-Za-z0-9][A-Za-z0-9._:@/-]*$] *)
Definition leaseOwnerPattern (value : string) : bool :=
  match String.list_ascii_of_string value with
  | [] => false
  | c :: rest => (isLower c || isUpper c || isDigit c) && forallb isOwnerChar rest
  end.

Definition validProtocolName (value : string) : bool :=
  (0 <? slen value) && (slen value <=? MaximumNameLength) && protocolNamePattern value.

Definition EventType_Valid (eventType : string) : bool := validProtocolName eventType.
Definition AggregateType_Valid (aggregateType : string) : bool := validProtocolName aggregateType.
Definition ConsumerID_Valid (consumerID : string) : bool := validProtocolName consumerID.
Definition ErrorCode_Valid (code : string) : bool := validProtocolName code.

Definition LeaseOwner_Valid (owner : string) : bool :=
  (0 <? slen owner) && (slen owner <=? MaximumNameLength) && leaseOwnerPattern owner.

Definition ParseEventType (value : string) : res string :=
  if negb (EventType_Valid value) then Err ErrInvalidInput else Ok value.
Definition ParseAggregateType (value : string) : res string :=
  if negb (AggregateType_Valid value) then Err ErrInvalidInput else Ok value.
Definition ParseConsumerID (value : string) : res string :=
  if negb (ConsumerID_Valid value) then Err ErrInvalidInput else Ok value.
Definition ParseLeaseOwner (value : string) : res string :=
  if negb (LeaseOwner_Valid value) then Err ErrInvalidInput else Ok value.
Definition ParseErrorCode (value : string) : res string :=
  if negb (ErrorCode_Valid value) then Err ErrInvalidInput else Ok value.

(** Positions: [int64] values converted without a negative one. *)
Definition NewSequence (value : Z) : res Z := if value <? 0 then Err ErrInvalidInput else Ok (u64 value).
Definition Sequence_Valid (sequence : Z) : bool := sequence <=? maxInt64.
Definition Sequence_Int64 (sequence : Z) : res Z :=
  if negb (Sequence_Valid sequence) then Err ErrInvalidInput else Ok sequence.

(** [sort.Slice] of event types by their text. *)
Definition sortTypes (types : list string) : list string := merge_sort String.le types.

Fixpoint distinctTypes (seen : list string) (types : list string) : bool :=
  match types with
  | [] => true
  | eventType :: rest =>
      if negb (EventType_Valid eventType) then false
      else if bool_decide (eventType ∈ seen) then false
      else distinctTypes (eventType :: seen) rest
  end.

(** A [Subscription] is its canonical list of event types. *)
Definition NewSubscription (eventTypes : list string) : res (list string) :=
  if (len eventTypes =? 0) || (MaximumSubscriptions <? len eventTypes) then Err ErrInvalidInput
  else if negb (distinctTypes [] eventTypes) then Err ErrInvalidInput
  else Ok (sortTypes eventTypes).

Definition Subscription_Contains (subscription : list string) (eventType : string) : bool :=
  existsb (String.eqb eventType) subscription.
Definition Subscription_Valid (subscription : list string) : bool := is_ok (NewSubscription subscription).

(** ** Events *)
Definition MaximumPayloadBytes : Z := Z.shiftl 1 20.

Record EventSnapshot := mkEvent {
  e_Sequence : Z;
  e_ID : UUID;
  e_Type : string;
  e_AggregateType : string;
  e_AggregateID : UUID;
  e_Payload : list Z;
  e_CreatedAt : Time;
  e_AvailableAt : Time;
}.
#[global] Instance event_eta : Eta EventSnapshot := fun e => mkEvent (e_Sequence e) (e_ID e) (e_Type e)
  (e_AggregateType e) (e_AggregateID e) (e_Payload e) (e_CreatedAt e) (e_AvailableAt e).

(** An [Event] is its snapshot. *)
Definition Event : Type := EventSnapshot.

Definition canonicalTime (value : Time) : Time := if IsZero value then 0 else Truncate value Microsecond.

Definition restoreEvent (snapshot : EventSnapshot) (persisted : bool) : res Event :=
  let snapshot := snapshot <| e_CreatedAt := canonicalTime (e_CreatedAt snapshot) |> in
  let snapshot := snapshot <| e_AvailableAt := canonicalTime (e_AvailableAt snapshot) |> in
  if negb (Sequence_Valid (e_Sequence snapshot)) || (persisted && (e_Sequence snapshot =? 0))
     || (negb persisted && negb (e_Sequence snapshot =? 0))
     || (e_ID snapshot =? Nil) || negb (EventType_Valid (e_Type snapshot))
     || negb (AggregateType_Valid (e_AggregateType snapshot))
     || (e_AggregateID snapshot =? Nil) || (len (e_Payload snapshot) =? 0)
     || (MaximumPayloadBytes <? len (e_Payload snapshot))
     || IsZero (e_CreatedAt snapshot) || Before (e_AvailableAt snapshot) (e_CreatedAt snapshot)
  then Err ErrInvalidInput
  else Ok snapshot.

Definition NewEvent (id : UUID) (eventType aggregateType : string) (aggregateID : UUID) (payload : list Z)
    (createdAt availableAt : Time) : res Event :=
  restoreEvent (mkEvent 0 id eventType aggregateType aggregateID payload createdAt availableAt) false.

Definition RestoreEvent (snapshot : EventSnapshot) : res Event := restoreEvent snapshot true.

(** ** Consumers *)
Definition Second : Z := 1000000000.
Definition Minute : Z := 60 * Second.
Definition MaximumLeaseDuration : Z := 5 * Minute.
Definition InitialRetryBackoff : Z := Second.
Definition MaximumRetryBackoff : Z := 5 * Minute.
Definition MaximumRetryCount : Z := 16.

Record ConsumerSnapshot := mkConsumer {
  c_ID : string;
  Subscriptions : list string;
  LastAckedSequence : Z;
  LeaseOwner : string;
  LeaseUntil : Time;
  RetryCount : Z;
  NextAttemptAt : Time;
  LastErrorCode : string;
  c_CreatedAt : Time;
  c_UpdatedAt : Time;
}.
#[global] Instance consumer_eta : Eta ConsumerSnapshot := fun c => mkConsumer (c_ID c) (Subscriptions c)
  (LastAckedSequence c) (LeaseOwner c) (LeaseUntil c) (RetryCount c) (NextAttemptAt c) (LastErrorCode c)
  (c_CreatedAt c) (c_UpdatedAt c).

Definition Consumer : Type := ConsumerSnapshot.

Inductive ConsumerTransitionKind :=
| TransitionAcquireLease | TransitionRenewLease | TransitionReleaseLease | TransitionAcknowledge
| TransitionRecordRetry.

Record ConsumerCAS := mkCAS {
  kind : ConsumerTransitionKind;
  expected : ConsumerSnapshot;
  next : ConsumerSnapshot;
}.

Definition RestoreConsumer (snapshot : ConsumerSnapshot) : res Consumer :=
  let snapshot := snapshot <| LeaseUntil := canonicalTime (LeaseUntil snapshot) |> in
  let snapshot := snapshot <| NextAttemptAt := canonicalTime (NextAttemptAt snapshot) |> in
  let snapshot := snapshot <| c_CreatedAt := canonicalTime (c_CreatedAt snapshot) |> in
  let snapshot := snapshot <| c_UpdatedAt := canonicalTime (c_UpdatedAt snapshot) |> in
  match NewSubscription (Subscriptions snapshot) with
  | Err _ => Err ErrInvalidInput
  | Ok subscription =>
      if negb (ConsumerID_Valid (c_ID snapshot)) || negb (Sequence_Valid (LastAckedSequence snapshot))
         || IsZero (c_CreatedAt snapshot) || Before (c_UpdatedAt snapshot) (c_CreatedAt snapshot)
         || (MaximumRetryCount <? RetryCount snapshot)
      then Err ErrInvalidInput
      else
        let snapshot := snapshot <| Subscriptions := subscription |> in
        let leaseOwnerSet := negb (String.eqb (LeaseOwner snapshot) "") in
        let leaseUntilSet := negb (IsZero (LeaseUntil snapshot)) in
        if negb (Bool.eqb leaseOwnerSet leaseUntilSet)
           || (leaseOwnerSet && negb (LeaseOwner_Valid (LeaseOwner snapshot)))
        then Err ErrInvalidInput
        else if RetryCount snapshot =? 0 then
          if negb (IsZero (NextAttemptAt snapshot)) || negb (String.eqb (LastErrorCode snapshot) "")
          then Err ErrInvalidInput else Ok snapshot
        else if IsZero (NextAttemptAt snapshot) || negb (ErrorCode_Valid (LastErrorCode snapshot))
        then Err ErrInvalidInput
        else Ok snapshot
  end.

Definition NewConsumer (id : string) (subscription : list string) (createdAt : Time) : res Consumer :=
  RestoreConsumer (mkConsumer id subscription 0 "" 0 0 0 "" createdAt createdAt).

Definition equalEventTypes (left right : list string) : bool := bool_decide (left = right).

Definition ResolveRegistration (existing requested : Consumer) : res Consumer :=
  if negb (String.eqb (c_ID existing) (c_ID requested))
     || negb (equalEventTypes (Subscriptions existing) (Subscriptions requested))
  then Err ErrAlreadyExists
  else if negb (LastAckedSequence requested =? 0) || negb (String.eqb (LeaseOwner requested) "")
          || negb (RetryCount requested =? 0)
  then Err ErrInvalidInput
  else Ok existing.

Definition transition (consumer : Consumer) (k : ConsumerTransitionKind) (nextSnapshot : ConsumerSnapshot)
  : res (Consumer * ConsumerCAS) :=
  let* nextConsumer := RestoreConsumer nextSnapshot in
  Ok (nextConsumer, mkCAS k consumer nextConsumer).

Definition requireActiveLease (consumer : Consumer) (owner : string) (at_ : Time) : res unit :=
  if String.eqb (LeaseOwner consumer) "" || negb (String.eqb (LeaseOwner consumer) owner) then Err ErrLeaseNotOwned
  else if negb (After (LeaseUntil consumer) at_) then Err ErrLeaseExpired
  else Ok tt.

Definition validTransitionTime (consumer : Consumer) (at_ : Time) : bool :=
  negb (IsZero at_) && negb (Before at_ (c_UpdatedAt consumer)).

(** [t.Sub(u)] saturates at the range of a [time.Duration]. *)
Definition Sub (t u : Time) : Z := Z.max (-9223372036854775808) (Z.min maxInt64 (t - u)).

Definition validLeaseWindow (start end_ : Time) : bool :=
  negb (IsZero start) && After end_ start && (Sub end_ start <=? MaximumLeaseDuration).

(** The loop of [retryBackoff]; [fuel] bounds the turns that are left. *)
Fixpoint backoffLoop (fuel : nat) (retryCount attempt delay : Z) : Z :=
  match fuel with
  | O => delay
  | S fuel' =>
      if (attempt <? retryCount) && (delay <? MaximumRetryBackoff) then
        if MaximumRetryBackoff / 2 <? delay then MaximumRetryBackoff
        else backoffLoop fuel' retryCount (u32 (attempt + 1)) (delay * 2)
      else if MaximumRetryBackoff <? delay then MaximumRetryBackoff else delay
  end.

Definition retryBackoff (retryCount : Z) : Z := backoffLoop 16 retryCount 1 InitialRetryBackoff.

Definition AcquireLease (consumer : Consumer) (owner : string) (acquiredAt leaseUntil : Time)
  : res (Consumer * ConsumerCAS) :=
  let acquiredAt := canonicalTime acquiredAt in
  let leaseUntil := canonicalTime leaseUntil in
  if negb (LeaseOwner_Valid owner) || negb (validTransitionTime consumer acquiredAt)
     || negb (validLeaseWindow acquiredAt leaseUntil)
  then Err ErrInvalidInput
  else if (0 <? RetryCount consumer) && Before acquiredAt (NextAttemptAt consumer) then Err ErrBackoffActive
  else if negb (String.eqb (LeaseOwner consumer) "") && After (LeaseUntil consumer) acquiredAt
  then Err ErrLeaseUnavailable
  else transition consumer TransitionAcquireLease
         (consumer <| LeaseOwner := owner |> <| LeaseUntil := leaseUntil |> <| c_UpdatedAt := acquiredAt |>).

Definition RenewLease (consumer : Consumer) (owner : string) (renewedAt leaseUntil : Time)
  : res (Consumer * ConsumerCAS) :=
  let renewedAt := canonicalTime renewedAt in
  let leaseUntil := canonicalTime leaseUntil in
  if negb (LeaseOwner_Valid owner) || negb (validTransitionTime consumer renewedAt)
     || negb (validLeaseWindow renewedAt leaseUntil)
  then Err ErrInvalidInput
  else
    let* _ := requireActiveLease consumer owner renewedAt in
    if negb (After leaseUntil (LeaseUntil consumer)) then Err ErrInvalidInput
    else transition consumer TransitionRenewLease
           (consumer <| LeaseUntil := leaseUntil |> <| c_UpdatedAt := renewedAt |>).

Definition ReleaseLease (consumer : Consumer) (owner : string) (releasedAt : Time) : res (Consumer * ConsumerCAS) :=
  let releasedAt := canonicalTime releasedAt in
  if negb (LeaseOwner_Valid owner) || negb (validTransitionTime consumer releasedAt) then Err ErrInvalidInput
  else
    let* _ := requireActiveLease consumer owner releasedAt in
    transition consumer TransitionReleaseLease
      (consumer <| LeaseOwner := ""%string |> <| LeaseUntil := 0 |> <| c_UpdatedAt := releasedAt |>).

Definition Acknowledge (consumer : Consumer) (owner : string) (expectedSequence ackedSequence : Z) (ackedAt : Time)
  : res (Consumer * ConsumerCAS) :=
  let ackedAt := canonicalTime ackedAt in
  if negb (LeaseOwner_Valid owner) || negb (Sequence_Valid expectedSequence) || negb (Sequence_Valid ackedSequence)
     || negb (validTransitionTime consumer ackedAt)
  then Err ErrInvalidInput
  else
    let* _ := requireActiveLease consumer owner ackedAt in
    if negb (expectedSequence =? LastAckedSequence consumer) then Err ErrConcurrentTransition
    else if ackedSequence <=? expectedSequence then Err ErrInvalidAcknowledgement
    else transition consumer TransitionAcknowledge
           (consumer <| LastAckedSequence := ackedSequence |> <| RetryCount := 0 |> <| NextAttemptAt := 0 |>
              <| LastErrorCode := ""%string |> <| c_UpdatedAt := ackedAt |>).

Definition RecordRetry (consumer : Consumer) (owner code : string) (failedAt : Time) : res (Consumer * ConsumerCAS) :=
  let failedAt := canonicalTime failedAt in
  if negb (LeaseOwner_Valid owner) || negb (ErrorCode_Valid code) || negb (validTransitionTime consumer failedAt)
  then Err ErrInvalidInput
  else
    let* _ := requireActiveLease consumer owner failedAt in
    if (0 <? RetryCount consumer) && Before failedAt (NextAttemptAt consumer) then Err ErrBackoffActive
    else if MaximumRetryCount <=? RetryCount consumer then Err ErrRetryExhausted
    else
      let retryCount := u32 (RetryCount consumer + 1) in
      transition consumer TransitionRecordRetry
        (consumer <| RetryCount := retryCount |>
           <| NextAttemptAt := canonicalTime (failedAt + retryBackoff retryCount) |>
           <| LastErrorCode := code |> <| c_UpdatedAt := failedAt |>).

(** ** A dispatcher's read *)
Definition MaximumBatchSize : Z := 1000.
Record EventBatch := mkEventBatch { eb_ConsumerID : string; eb_LeaseOwner : string; eb_ReadAt : Time; eb_BatchSize : Z }.

Definition NewEventBatch (consumerID owner : string) (readAt : Time) (batchSize : Z) : res EventBatch :=
  let readAt := canonicalTime readAt in
  if negb (ConsumerID_Valid consumerID) || negb (LeaseOwner_Valid owner) || IsZero readAt || (batchSize =? 0)
     || (MaximumBatchSize <? batchSize)
  then Err ErrInvalidInput
  else Ok (mkEventBatch consumerID owner readAt batchSize).

(** ** The transitions as one operation *)
Inductive ConsumerOp :=
| OpAcquire (owner : string) (at_ until : Time)
| OpRenew (owner : string) (at_ until : Time)
| OpRelease (owner : string) (at_ : Time)
| OpAcknowledge (owner : string) (expectedSequence ackedSequence : Z) (at_ : Time)
| OpRetry (owner code : string) (at_ : Time).

Definition apply (consumer : Consumer) (op : ConsumerOp) : res (Consumer * ConsumerCAS) :=
  match op with
  | OpAcquire owner at_ until => AcquireLease consumer owner at_ until
  | OpRenew owner at_ until => RenewLease consumer owner at_ until
  | OpRelease owner at_ => ReleaseLease consumer owner at_
  | OpAcknowledge owner expectedSequence ackedSequence at_ => Acknowledge consumer owner expectedSequence ackedSequence at_
  | OpRetry owner code at_ => RecordRetry consumer owner code at_
  end.

Definition op_owner (op : ConsumerOp) : string :=
  match op with
  | OpAcquire owner _ _ | OpRenew owner _ _ | OpRelease owner _ | OpAcknowledge owner _ _ _ | OpRetry owner _ _ => owner
  end.
Definition op_at (op : ConsumerOp) : Time :=
  match op with
  | OpAcquire _ at_ _ | OpRenew _ at_ _ | OpRelease _ at_ | OpAcknowledge _ _ _ at_ | OpRetry _ _ at_ => at_
  end.

(** The states of a registered consumer. *)
Inductive reachable : Consumer -> Prop :=
| reachable_new id subscription createdAt consumer :
    NewConsumer id subscription createdAt = Ok consumer -> reachable consumer
| reachable_step consumer op consumer' cas :
    reachable consumer -> apply consumer op = Ok (consumer', cas) -> reachable consumer'.

End Outbox.
