(* ===== verification/OutboxTheorems.v ===== *)
(** * Theorems about the outbox consumers

    What [RestoreConsumer] accepts, and the invariant of every reachable
    consumer: it restores to itself, and neither its lease nor its retry
    deadline reaches more than five minutes past its last update
    ([OutboxFacts]).  A lease keeps other workers out while it lasts, offsets
    only grow, and a worker that disappears holds up its consumer for at most
    five minutes ([OutboxTheorems]). *)

From S2P Require Import Prelude GoLib Selector Outbox.

Module OutboxFacts.
Import GoLib Selector Outbox.

(** ** Canonical times *)
Lemma canonicalTime_idem t : canonicalTime (canonicalTime t) = canonicalTime t.
Proof.
  unfold canonicalTime. destruct (IsZero t) eqn:E; [done|]. rewrite Truncate_idem by done.
  destruct (IsZero (Truncate t Microsecond)) eqn:E'; [|done]. unfold IsZero in E'. by to_prop.
Qed.

Lemma canonicalTime_zero : canonicalTime 0 = 0.
Proof. done. Qed.

Lemma canonicalTime_mod t : canonicalTime t mod Microsecond = 0.
Proof.
  unfold canonicalTime. destruct (IsZero t); [done|]. unfold Truncate, Microsecond.
  rewrite Zminus_mod_idemp_r, Z.sub_diag. done.
Qed.

Lemma canonicalTime_fixed t : t mod Microsecond = 0 -> canonicalTime t = t.
Proof.
  intros H. unfold canonicalTime, Truncate. rewrite H. destruct (IsZero t) eqn:E; [|lia].
  unfold IsZero in E. to_prop. done.
Qed.

(** Adding whole microseconds keeps a time canonical. *)
Lemma canonicalTime_add t d : canonicalTime t = t -> d mod Microsecond = 0 -> canonicalTime (t + d) = t + d.
Proof.
  intros Ht Hd. apply canonicalTime_fixed. rewrite <- Ht.
  rewrite Z.add_mod, canonicalTime_mod, Hd by done. done.
Qed.

(** ** Subscriptions *)
Lemma distinctTypes_spec seen types :
  distinctTypes seen types = true <->
  Forall (fun t => EventType_Valid t = true) types /\ NoDup types /\ (forall t, t ∈ types -> t ∉ seen).
Proof.
  revert seen. induction types as [|v rest IH]; intros seen; cbn [distinctTypes].
  - split; [|done]. intros _. split_and!; [done|constructor|intros ? H; inversion H].
  - destruct (EventType_Valid v) eqn:Ev; cbn [negb]; [|split; [done|]; intros (H & _); inversion H; congruence].
    case_bool_decide as Hs; [split; [done|]; intros (_ & _ & H); destruct (H v); [constructor|done]|].
    rewrite IH, NoDup_cons, Forall_cons. split.
    + intros (HF & HN & HS). split_and!; try done.
      * intros Hin. destruct (HS v Hin). constructor.
      * intros w Hw. apply elem_of_cons in Hw as [->|Hw]; [done|]. intros Hws. destruct (HS w Hw). by constructor.
    + intros ((_ & HF) & (Hv & HN) & HS). split_and!; try done.
      intros w Hw Hin. apply elem_of_cons in Hin as [->|Hin]; [done|]. apply (HS w); [by constructor|done].
Qed.

Lemma sortTypes_sorted types : StronglySorted String.le (sortTypes types).
Proof. apply StronglySorted_merge_sort; apply _. Qed.

Lemma sortTypes_idem types : sortTypes (sortTypes types) = sortTypes types.
Proof.
  apply (StronglySorted_unique String.le); [apply sortTypes_sorted..|]. apply merge_sort_Permutation.
Qed.

Lemma NewSubscription_Ok types subscription :
  NewSubscription types = Ok subscription -> subscription = sortTypes types /\ NewSubscription subscription = Ok subscription.
Proof.
  intros H. unfold NewSubscription in H. inv_results H. split; [done|].
  assert (Hp : sortTypes types ≡ₚ types) by apply merge_sort_Permutation.
  assert (Hl : len (sortTypes types) = len types) by (unfold len; by rewrite Hp).
  unfold NewSubscription. rewrite Hl, E.
  assert (Hd : distinctTypes [] (sortTypes types) = true).
  { to_prop. apply distinctTypes_spec in E0 as (HF & HN & _). apply distinctTypes_spec.
    rewrite Hp. split_and!; [done|done|intros ? _ Hin; inversion Hin]. }
  rewrite Hd. cbn. by rewrite sortTypes_idem.
Qed.

(** ** Restoring *)

(** The canonical form of a snapshot. *)
Definition normal (s : ConsumerSnapshot) : ConsumerSnapshot :=
  mkConsumer (c_ID s) (sortTypes (Subscriptions s)) (LastAckedSequence s) (LeaseOwner s)
    (canonicalTime (LeaseUntil s)) (RetryCount s) (canonicalTime (NextAttemptAt s)) (LastErrorCode s)
    (canonicalTime (c_CreatedAt s)) (canonicalTime (c_UpdatedAt s)).

(** The checks on it beside that of the subscriptions. *)
Definition consumerOk (s : ConsumerSnapshot) : bool :=
  ConsumerID_Valid (c_ID s) && Sequence_Valid (LastAckedSequence s)
  && negb (IsZero (c_CreatedAt s)) && negb (Before (c_UpdatedAt s) (c_CreatedAt s))
  && negb (MaximumRetryCount <? RetryCount s)
  && Bool.eqb (negb (String.eqb (LeaseOwner s) "")) (negb (IsZero (LeaseUntil s)))
  && (String.eqb (LeaseOwner s) "" || LeaseOwner_Valid (LeaseOwner s))
  && (if RetryCount s =? 0 then IsZero (NextAttemptAt s) && String.eqb (LastErrorCode s) ""
      else negb (IsZero (NextAttemptAt s)) && ErrorCode_Valid (LastErrorCode s)).

(** [RestoreConsumer] in closed form. *)
Lemma RestoreConsumer_normal s :
  RestoreConsumer s =
  if is_ok (NewSubscription (Subscriptions s)) && consumerOk (normal s) then Ok (normal s) else Err ErrInvalidInput.
Proof.
  unfold RestoreConsumer, consumerOk, normal. destruct s as [id subs last own until rc nxt err cre upd].
  cbn. destruct (NewSubscription subs) as [sub|e] eqn:Es; cbn [is_ok andb]; [|reflexivity].
  apply NewSubscription_Ok in Es as [-> _].
  destruct (ConsumerID_Valid id), (Sequence_Valid last), (IsZero (canonicalTime cre)),
    (Before (canonicalTime upd) (canonicalTime cre)), (MaximumRetryCount <? rc); cbn [negb orb andb]; try reflexivity.
  destruct (String.eqb own ""), (IsZero (canonicalTime until)), (LeaseOwner_Valid own); cbn [negb orb andb Bool.eqb]; try reflexivity;
  destruct (rc =? 0), (IsZero (canonicalTime nxt)), (String.eqb err ""), (ErrorCode_Valid err); reflexivity.
Qed.

Lemma normal_idem s : normal (normal s) = normal s.
Proof. unfold normal. cbn. by rewrite sortTypes_idem, !canonicalTime_idem. Qed.

(** A restored consumer restores to itself. *)
Lemma RestoreConsumer_idem s c : RestoreConsumer s = Ok c -> RestoreConsumer c = Ok c /\ c = normal s.
Proof.
  rewrite RestoreConsumer_normal. destruct (_ && _) eqn:E; [|done]. intros [= <-]. split; [|done].
  apply andb_true_iff in E as [Es Eo]. rewrite RestoreConsumer_normal, normal_idem, Eo.
  destruct (NewSubscription (Subscriptions s)) as [sub|] eqn:Es'; [|done].
  apply NewSubscription_Ok in Es' as [-> Es']. cbn [normal Subscriptions]. by rewrite Es'.
Qed.

(** ** The invariant of a consumer *)
Record ConsumerInv (c : Consumer) : Prop := mkInv {
  inv_restores : RestoreConsumer c = Ok c;
  inv_lease : LeaseOwner c <> ""%string -> LeaseUntil c <= c_UpdatedAt c + MaximumLeaseDuration;
  inv_retry : 0 < RetryCount c -> NextAttemptAt c <= c_UpdatedAt c + MaximumRetryBackoff;
  inv_count : 0 <= RetryCount c;
}.

Lemma restores_normal c : RestoreConsumer c = Ok c -> normal c = c.
Proof. intros H. by destruct (RestoreConsumer_idem _ _ H) as [_ <-]. Qed.

(** The restored fields of a consumer that restores to itself. *)
Lemma restores_ok c : RestoreConsumer c = Ok c -> consumerOk c = true.
Proof.
  intros H. pose proof (restores_normal _ H) as Hn. rewrite RestoreConsumer_normal, Hn in H.
  destruct (_ && _) eqn:E; [|done]. by apply andb_true_iff in E as [_ E].
Qed.

Lemma restores_canonical c : RestoreConsumer c = Ok c ->
  sortTypes (Subscriptions c) = Subscriptions c /\ canonicalTime (LeaseUntil c) = LeaseUntil c /\
  canonicalTime (NextAttemptAt c) = NextAttemptAt c /\ canonicalTime (c_CreatedAt c) = c_CreatedAt c /\
  canonicalTime (c_UpdatedAt c) = c_UpdatedAt c.
Proof.
  intros H. pose proof (restores_normal _ H) as Hn. unfold normal in Hn. destruct c. cbn in *. by injection Hn.
Qed.

(** ** Retry delays *)

Lemma backoffLoop_turn fuel n attempt delay :
  attempt < n -> 0 <= attempt < maxUint32 -> delay <= MaximumRetryBackoff / 2 ->
  backoffLoop (S fuel) n attempt delay = backoffLoop fuel n (attempt + 1) (delay * 2).
Proof.
  intros Hn Ha Hd. cbn [backoffLoop]. rewrite (proj2 (Z.ltb_lt attempt n)) by done.
  assert (MaximumRetryBackoff / 2 < MaximumRetryBackoff) by done.
  rewrite (proj2 (Z.ltb_lt delay _)), (proj2 (Z.ltb_ge _ delay)) by lia. cbn [andb]. f_equal.
  apply u32_succ; unfold is_u32 in *; lia.
Qed.

(** The delay of the [n]-th failure in closed form. *)
Lemma retryBackoff_closed n :
  1 <= n -> retryBackoff n = Z.min (InitialRetryBackoff * 2 ^ (n - 1)) MaximumRetryBackoff.
Proof.
  intros Hn. destruct (Z_le_gt_dec n 9) as [H9|H9].
  - assert (n = 1 \/ n = 2 \/ n = 3 \/ n = 4 \/ n = 5 \/ n = 6 \/ n = 7 \/ n = 8 \/ n = 9) as Hc by lia.
    destruct Hc as [->|[->|[->|[->|[->|[->|[->|[->| ->]]]]]]]]; reflexivity.
  - assert (Hp : 2 ^ 9 <= 2 ^ (n - 1)) by (apply Z.pow_le_mono_r; lia).
    rewrite Z.min_r by (unfold InitialRetryBackoff, MaximumRetryBackoff, Minute, Second in *; lia).
    unfold retryBackoff. do 8 (rewrite backoffLoop_turn; [|lia|by unfold maxUint32|done]).
    cbn [backoffLoop]. by rewrite (proj2 (Z.ltb_lt _ n)) by lia.
Qed.

Lemma retryBackoff_bounds n : 1 <= n -> 0 <= retryBackoff n <= MaximumRetryBackoff /\ retryBackoff n mod Microsecond = 0.
Proof.
  intros Hn. rewrite retryBackoff_closed by done.
  assert (0 <= InitialRetryBackoff * 2 ^ (n - 1)) by (apply Z.mul_nonneg_nonneg; [done|apply Z.pow_nonneg; lia]).
  assert (0 <= MaximumRetryBackoff) by done. split; [lia|].
  destruct (Z.min_spec (InitialRetryBackoff * 2 ^ (n - 1)) MaximumRetryBackoff) as [[_ ->]|[_ ->]]; [|done].
  change InitialRetryBackoff with (1000000 * Microsecond).
  replace (1000000 * Microsecond * 2 ^ (n - 1)) with (1000000 * 2 ^ (n - 1) * Microsecond) by ring.
  by apply Z.mod_mul.
Qed.

(** ** The transitions *)
Lemma transition_Ok c k s c' cas :
  transition c k s = Ok (c', cas) ->
  sortTypes (Subscriptions s) = Subscriptions s -> canonicalTime (LeaseUntil s) = LeaseUntil s ->
  canonicalTime (NextAttemptAt s) = NextAttemptAt s -> canonicalTime (c_CreatedAt s) = c_CreatedAt s ->
  canonicalTime (c_UpdatedAt s) = c_UpdatedAt s ->
  c' = s /\ cas = mkCAS k c s /\ RestoreConsumer s = Ok s.
Proof.
  intros H H1 H2 H3 H4 H5. unfold transition in H. inv_results H.
  assert (Hn : normal s = s) by (unfold normal; rewrite H1, H2, H3, H4, H5; by destruct s).
  pose proof (RestoreConsumer_idem _ _ E) as [Hr Hc]. rewrite Hn in Hc. by subst.
Qed.

Lemma requireActiveLease_Ok c owner at_ :
  requireActiveLease c owner at_ = Ok tt <-> LeaseOwner c <> ""%string /\ LeaseOwner c = owner /\ at_ < LeaseUntil c.
Proof.
  unfold requireActiveLease, After. split.
  - intros H. inv_results H. by to_prop.
  - intros (Hne & <- & Hlt). apply eqb_string_false in Hne as ->. rewrite String.eqb_refl.
    by rewrite (proj2 (Z.ltb_lt _ _)) by done.
Qed.

(** A lease window of at most five minutes is not saturated. *)
Lemma validLeaseWindow_Ok start end_ :
  validLeaseWindow start end_ = true -> start <> 0 /\ start < end_ <= start + MaximumLeaseDuration.
Proof.
  unfold validLeaseWindow, IsZero, After, Sub, maxInt64, MaximumLeaseDuration, Minute, Second. intros H. to_prop.
  split; [done|]. lia.
Qed.

(** What an accepted transition does, whatever its kind. *)
Record Step (c : Consumer) (op : ConsumerOp) (c' : Consumer) (cas : ConsumerCAS) : Prop := mkStep {
  step_inv : ConsumerInv c';
  step_cas : expected cas = c /\ next cas = c';
  step_time : c_UpdatedAt c <= c_UpdatedAt c' /\ c_UpdatedAt c' = canonicalTime (op_at op);
  step_identity : c_ID c' = c_ID c /\ Subscriptions c' = Subscriptions c /\ c_CreatedAt c' = c_CreatedAt c;
  step_offset : LastAckedSequence c <= LastAckedSequence c';
  step_owner : LeaseOwner c = op_owner op /\ canonicalTime (op_at op) < LeaseUntil c \/
    LeaseOwner c = ""%string \/ LeaseUntil c <= canonicalTime (op_at op);
}.

Ltac bounded :=
  let Hp := fresh in
  try intros Hp;
  repeat match goal with Hi : ?P -> _ <= _, H : ?P |- _ => specialize (Hi H) end; lia.

(** Unfolds an accepted transition down to its next snapshot. *)
Ltac step_start H :=
  cbv zeta in H; inv_results H;
  repeat match goal with E : requireActiveLease _ _ _ = Ok ?u |- _ => destruct u; apply requireActiveLease_Ok in E end;
  to_prop;
  repeat match goal with E : validLeaseWindow _ _ = true |- _ => apply validLeaseWindow_Ok in E as [_ ?] end;
  unfold validTransitionTime, Before, After in *; to_prop.
Ltac step_end :=
  constructor; cbn [op_owner op_at]; cbn; try done; try lia; [constructor; cbn; try done; bounded|by left].

Lemma apply_Step c op c' cas : ConsumerInv c -> apply c op = Ok (c', cas) -> Step c op c' cas.
Proof.
  intros [Hrest Hlease Hretry Hcount] H. destruct (restores_canonical _ Hrest) as (H1 & H2 & H3 & H4 & H5).
  assert (HM : 0 <= MaximumLeaseDuration /\ 0 <= MaximumRetryBackoff) by done.
  destruct op as [owner at_ until|owner at_ until|owner at_|owner es acked at_|owner code at_]; cbn [apply] in H.
  - unfold AcquireLease in H. step_start H.
    apply transition_Ok in H as (-> & -> & Hr); [|cbn; rewrite ?canonicalTime_idem; done..].
    constructor; cbn [op_owner op_at]; cbn; try done; try lia.
    + constructor; cbn; try done; bounded.
    + bool_cases; first [by right; left|right; right; lia].
  - unfold RenewLease in H. step_start H.
    apply transition_Ok in H as (-> & -> & Hr); [|cbn; rewrite ?canonicalTime_idem; done..]. step_end.
  - unfold ReleaseLease in H. step_start H.
    apply transition_Ok in H as (-> & -> & Hr); [|cbn; rewrite ?canonicalTime_idem; done..]. step_end.
  - unfold Acknowledge in H. step_start H.
    apply transition_Ok in H as (-> & -> & Hr); [|cbn; rewrite ?canonicalTime_idem; done..]. step_end.
  - unfold RecordRetry in H. step_start H.
    assert (Hu : u32 (RetryCount c + 1) = RetryCount c + 1).
    { apply u32_small. unfold is_u32, maxUint32, MaximumRetryCount in *. lia. }
    rewrite Hu in H. destruct (retryBackoff_bounds (RetryCount c + 1) ltac:(lia)) as [Hb Hm].
    apply transition_Ok in H as (-> & -> & Hr); [|cbn; rewrite ?canonicalTime_idem; done..].
    rewrite (canonicalTime_add (canonicalTime at_)) in * by (done || apply canonicalTime_idem).
    clear Hm. revert Hr Hb. generalize (retryBackoff (RetryCount c + 1)).
    assert (Hpos : 0 <= RetryCount c + 1) by lia. revert Hpos. generalize (RetryCount c + 1).
    assert (Hdl : forall delay, delay <= MaximumRetryBackoff -> canonicalTime at_ + delay <= canonicalTime at_ + MaximumRetryBackoff)
      by (intros; lia).
    intros n Hpos delay Hr Hb. specialize (Hdl delay ltac:(lia)). revert Hr Hdl.
    generalize (canonicalTime at_ + delay). intros nextAt Hr Hdl. step_end.
Qed.

Lemma reachable_Inv c : reachable c -> ConsumerInv c.
Proof.
  induction 1 as [id subscription createdAt c H|c op c' cas _ IH H].
  - destruct (RestoreConsumer_idem _ _ H) as [Hr ->]. constructor; [done|cbn; done..].
  - apply (step_inv _ _ _ _ (apply_Step _ _ _ _ IH H)).
Qed.

End OutboxFacts.

Module OutboxTheorems.
Import GoLib Selector Outbox OutboxFacts.

(** A run of transitions, each accepted or refused. *)
Fixpoint run (c : Consumer) (ops : list ConsumerOp) : Consumer :=
  match ops with
  | [] => c
  | op :: rest => run (match apply c op with Ok (c', _) => c' | Err _ => c end) rest
  end.

Lemma run_Inv c ops : ConsumerInv c -> ConsumerInv (run c ops).
Proof.
  revert c. induction ops as [|op ops IH]; intros c Hc; cbn [run]; [done|]. apply IH.
  destruct (apply c op) as [[c' cas]|] eqn:E; [|done]. apply (step_inv _ _ _ _ (apply_Step _ _ _ _ Hc E)).
Qed.

(** A lease excludes others: while it lasts, the transitions of every other
    worker are refused and leave the consumer as it is. *)
Lemma lease_excludes c op :
  ConsumerInv c -> LeaseOwner c <> ""%string -> op_owner op <> LeaseOwner c ->
  canonicalTime (op_at op) < LeaseUntil c -> exists e, apply c op = Err e.
Proof.
  intros Hc Hne Hop Hlt. destruct (apply c op) as [[c' cas]|e] eqn:E; [|by exists e].
  destruct (step_owner _ _ _ _ (apply_Step _ _ _ _ Hc E)) as [[Ho _]|[Ho|Ho]]; [congruence|done|lia].
Qed.

(** Runs keep the identity and never go back. *)
Lemma run_monotone c ops :
  ConsumerInv c ->
  LastAckedSequence c <= LastAckedSequence (run c ops) /\ c_ID (run c ops) = c_ID c /\
  Subscriptions (run c ops) = Subscriptions c /\ c_UpdatedAt c <= c_UpdatedAt (run c ops).
Proof.
  revert c. induction ops as [|op ops IH]; intros c Hc; cbn [run]; [done|].
  destruct (apply c op) as [[c' cas]|] eqn:E; [|by apply IH].
  destruct (apply_Step _ _ _ _ Hc E) as [Hi _ [Ht _] (H1 & H2 & _) Hs _].
  destruct (IH c' Hi) as (? & ? & ? & ?). split_and!; try congruence; lia.
Qed.

(** C25: the offset of a consumer never goes back, its identity and
    subscriptions never change, and while a worker's lease lasts nothing that
    other workers try has any effect, in whatever order they try it. *)
Theorem outbox_lease_exclusive c ops :
  reachable c -> LeaseOwner c <> ""%string ->
  Forall (fun op => op_owner op <> LeaseOwner c /\ canonicalTime (op_at op) < LeaseUntil c) ops ->
  run c ops = c /\
  forall rest, LastAckedSequence c <= LastAckedSequence (run c rest) /\ c_ID (run c rest) = c_ID c /\
    Subscriptions (run c rest) = Subscriptions c /\ c_UpdatedAt c <= c_UpdatedAt (run c rest).
Proof.
  intros Hr Hne Hops. apply reachable_Inv in Hr. split; [|intros rest; by apply run_monotone].
  induction Hops as [|op ops [Ho Ht] _ IH]; cbn [run]; [done|].
  by destruct (lease_excludes _ _ Hr Hne Ho Ht) as [e ->].
Qed.

(** ** Take-over *)
Section TakeOver.
Context (c : Consumer) (Hc : ConsumerInv c) (owner : string) (Howner : LeaseOwner_Valid owner = true).
Context (at_ until : Time) (Hat : canonicalTime at_ <> 0) (Hlate : c_UpdatedAt c + 5 * Minute <= canonicalTime at_).
Context (Huntil : canonicalTime at_ < canonicalTime until <= canonicalTime at_ + MaximumLeaseDuration).
Context (Huntil0 : canonicalTime until <> 0).

Let taken : Consumer :=
  c <| LeaseOwner := owner |> <| LeaseUntil := canonicalTime until |> <| c_UpdatedAt := canonicalTime at_ |>.

Lemma owner_nonempty : owner <> ""%string.
Proof. intros ->. by vm_compute in Howner. Qed.

Lemma subscriptions_ok : is_ok (NewSubscription (Subscriptions c)) = true.
Proof.
  pose proof (inv_restores _ Hc) as H. rewrite RestoreConsumer_normal in H. destruct (_ && _) eqn:E; [|done].
  by apply andb_true_iff in E as [E _].
Qed.

(** A snapshot with canonical fields that passes the checks restores to itself. *)
Lemma RestoreConsumer_fixed s :
  Subscriptions s = Subscriptions c -> canonicalTime (LeaseUntil s) = LeaseUntil s ->
  canonicalTime (NextAttemptAt s) = NextAttemptAt s -> canonicalTime (c_CreatedAt s) = c_CreatedAt s ->
  canonicalTime (c_UpdatedAt s) = c_UpdatedAt s -> consumerOk s = true -> RestoreConsumer s = Ok s.
Proof.
  intros H1 H2 H3 H4 H5 Hok.
  assert (Hn : normal s = s).
  { unfold normal. rewrite H1, H2, H3, H4, H5. destruct (restores_canonical _ (inv_restores _ Hc)) as [-> _].
    rewrite <- H1. by destruct s. }
  rewrite RestoreConsumer_normal, Hn, Hok, H1, subscriptions_ok. done.
Qed.

Lemma created_before : c_CreatedAt c <= canonicalTime at_.
Proof.
  pose proof (restores_ok _ (inv_restores _ Hc)) as Hok. unfold consumerOk in Hok.
  repeat match goal with H : (_ && _)%bool = true |- _ => apply andb_true_iff in H as [? ?] end.
  match goal with H : negb (Before _ _) = true |- _ => apply negb_true_iff, Z.ltb_ge in H end.
  assert (0 <= 5 * Minute) by done. lia.
Qed.

Lemma taken_ok : consumerOk taken = true.
Proof.
  pose proof (restores_ok _ (inv_restores _ Hc)) as Hok. unfold consumerOk in *. unfold taken. cbn.
  pose proof owner_nonempty as Hne. apply eqb_string_false in Hne. rewrite Hne, Howner.
  assert (Hz : IsZero (canonicalTime until) = false) by by apply Z.eqb_neq. rewrite Hz.
  repeat match goal with H : (_ && _)%bool = true |- _ => apply andb_true_iff in H as [? ?] end.
  pose proof created_before as Hcre. apply Z.ltb_ge in Hcre.
  change (Before (canonicalTime at_) (c_CreatedAt c)) with (canonicalTime at_ <? c_CreatedAt c). rewrite Hcre.
  rewrite !andb_true_iff. split_and!; done.
Qed.

Lemma take_over : AcquireLease c owner at_ until = Ok (taken, mkCAS TransitionAcquireLease c taken).
Proof.
  unfold AcquireLease. cbv zeta. rewrite Howner.
  assert (H5 : 0 <= 5 * Minute /\ MaximumRetryBackoff = 5 * Minute /\ MaximumLeaseDuration = 5 * Minute) by done.
  destruct H5 as (H5 & HR & HL).
  assert (Htime : validTransitionTime c (canonicalTime at_) = true).
  { unfold validTransitionTime, IsZero, Before. rewrite (proj2 (Z.eqb_neq _ _) Hat). apply negb_true_iff, Z.ltb_ge. lia. }
  assert (Hwin : validLeaseWindow (canonicalTime at_) (canonicalTime until) = true).
  { unfold validLeaseWindow, IsZero, After, Sub, maxInt64. rewrite (proj2 (Z.eqb_neq _ _) Hat).
    rewrite (proj2 (Z.ltb_lt _ _)) by lia. apply Z.leb_le. unfold MaximumLeaseDuration, Minute, Second in *. lia. }
  rewrite Htime, Hwin. cbn [negb orb].
  assert (Hback : (0 <? RetryCount c) && Before (canonicalTime at_) (NextAttemptAt c) = false).
  { destruct (Z.ltb_spec 0 (RetryCount c)) as [Hp|]; [|done]. pose proof (inv_retry _ Hc Hp). cbn [andb].
    unfold Before. apply Z.ltb_ge. lia. }
  assert (Hfree : negb (String.eqb (LeaseOwner c) "") && After (LeaseUntil c) (canonicalTime at_) = false).
  { destruct (String.eqb (LeaseOwner c) "") eqn:Eo; [done|]. apply eqb_string_false in Eo. pose proof (inv_lease _ Hc Eo). cbn [negb andb].
    unfold After. apply Z.ltb_ge. lia. }
  rewrite Hback, Hfree. unfold transition. fold taken.
  destruct (restores_canonical _ (inv_restores _ Hc)) as (_ & _ & H3 & H4 & _).
  rewrite RestoreConsumer_fixed; [done| |..|apply taken_ok]; unfold taken; cbn; rewrite ?canonicalTime_idem; done.
Qed.

Lemma take_over_acknowledges acked :
  LastAckedSequence c < acked <= maxInt64 ->
  exists c' cas, Acknowledge taken owner (LastAckedSequence c) acked at_ = Ok (c', cas) /\
    LastAckedSequence c' = acked /\ RetryCount c' = 0 /\ LeaseOwner c' = owner.
Proof.
  intros Hacked. pose proof taken_ok as Hok. pose proof (restores_ok _ (inv_restores _ Hc)) as Hokc.
  unfold Acknowledge. cbv zeta. rewrite Howner.
  assert (Hs : Sequence_Valid (LastAckedSequence c) = true) by (apply Z.leb_le; lia).
  assert (Ha : Sequence_Valid acked = true) by (apply Z.leb_le; lia).
  rewrite Hs, Ha.
  assert (Htime : validTransitionTime taken (canonicalTime at_) = true).
  { unfold validTransitionTime, IsZero, Before. rewrite (proj2 (Z.eqb_neq _ _) Hat). unfold taken. cbn.
    by rewrite Z.ltb_irrefl. }
  rewrite Htime. cbn [negb orb].
  rewrite (proj2 (requireActiveLease_Ok taken owner (canonicalTime at_))).
  2:{ unfold taken. cbn. split_and!; [apply owner_nonempty|done|lia]. }
  cbn [bind_result]. change (LastAckedSequence taken) with (LastAckedSequence c). rewrite Z.eqb_refl.
  rewrite (proj2 (Z.leb_gt _ _)) by lia. cbn [negb]. unfold transition.
  destruct (restores_canonical _ (inv_restores _ Hc)) as (_ & _ & H3 & H4 & _).
  rewrite RestoreConsumer_fixed.
  { eexists _, _. split; [reflexivity|]. done. }
  1-5: unfold taken; cbn; rewrite ?canonicalTime_idem; done.
  unfold consumerOk in *. unfold taken in *. cbn in Hok |- *.
  repeat match goal with H : (_ && _)%bool = true |- _ => apply andb_true_iff in H as [? ?] end.
  rewrite !andb_true_iff. split_and!; done.
Qed.
End TakeOver.

(** a worker that stops without releasing its lease holds up its consumer
    for at most five minutes: from then on any worker can take the lease,
    whatever lease, failures and back-off the consumer was left with, and go on
    at the offset that was reached. *)
Theorem outbox_takeover c owner at_ until acked :
  reachable c -> LeaseOwner_Valid owner = true -> canonicalTime at_ <> 0 -> canonicalTime until <> 0 ->
  c_UpdatedAt c + 5 * Minute <= canonicalTime at_ ->
  canonicalTime at_ < canonicalTime until <= canonicalTime at_ + MaximumLeaseDuration ->
  LastAckedSequence c < acked <= maxInt64 ->
  exists taken cas c' cas', AcquireLease c owner at_ until = Ok (taken, cas) /\
    LeaseOwner taken = owner /\ LastAckedSequence taken = LastAckedSequence c /\
    Acknowledge taken owner (LastAckedSequence c) acked at_ = Ok (c', cas') /\
    LastAckedSequence c' = acked /\ RetryCount c' = 0.
Proof.
  intros Hr Ho Ha Hu0 Hl Hu Hk. apply reachable_Inv in Hr.
  destruct (take_over_acknowledges c Hr owner Ho at_ until Ha Hl Hu Hu0 acked Hk) as (c' & cas' & H & H1 & H2 & _).
  eexists _, _, c', cas'. split; [by apply take_over|]. done.
Qed.

(** ** A consumer under a lease *)
Definition start : Time := 63900000000000000000.
Definition leased : Consumer :=
  mkConsumer "realtime.game_fanout" ["game.session.created.v1"; "game.session.transitioned.v1"] 7 "worker-1"
    (start + 60 * Second) 1 (start + Second) "redis.unavailable" start start.

Lemma leased_reachable : reachable leased.
Proof.
  assert (H0 : exists c0, NewConsumer "realtime.game_fanout" ["game.session.transitioned.v1"; "game.session.created.v1"] start = Ok c0
    /\ run c0 [OpAcquire "worker-1" start (start + 60 * Second); OpAcknowledge "worker-1" 0 7 start;
               OpRetry "worker-1" "redis.unavailable" start] = leased).
  { eexists. split; [vm_compute; reflexivity|]. vm_compute. reflexivity. }
  destruct H0 as (c0 & Hn & Hr). assert (H : forall ops c, reachable c -> reachable (run c ops)).
  { induction ops as [|op ops IH]; intros c Hc; cbn [run]; [done|]. apply IH.
    destruct (apply c op) as [[c' cas]|] eqn:E; [by eapply reachable_step|done]. }
  rewrite <- Hr. apply H. by eapply reachable_new.
Qed.

Lemma outbox_lease_exclusive_witness :
  run leased [OpAcquire "worker-2" (start + Second) (start + 2 * Second); OpAcknowledge "worker-2" 7 9 start] = leased.
Proof.
  apply (outbox_lease_exclusive leased _ leased_reachable); [done|].
  repeat constructor; cbn [op_owner op_at]; try done; vm_compute; reflexivity.
Defined.

Lemma outbox_takeover_witness :
  exists taken cas c' cas', AcquireLease leased "worker-2" (start + 5 * Minute) (start + 6 * Minute) = Ok (taken, cas) /\
    LeaseOwner taken = "worker-2"%string /\ LastAckedSequence taken = 7 /\
    Acknowledge taken "worker-2" 7 12 (start + 5 * Minute) = Ok (c', cas') /\
    LastAckedSequence c' = 12 /\ RetryCount c' = 0.
Proof.
  apply (outbox_takeover leased "worker-2" (start + 5 * Minute) (start + 6 * Minute) 12 leased_reachable);
    try (vm_compute; reflexivity); try (vm_compute; discriminate); try (vm_compute; split; (reflexivity || discriminate)).
Defined.

End OutboxTheorems.
