(* ===== verification/Runtime.v ===== *)
(** * Game sessions

    [platform/game-runtime/model.go]: the authoritative lifecycle of one game
    session.  A [Session] is its snapshot; every accepted command is a function
    to the next session and, for a move of the engine, the event batch that
    records it.  The errors are those of [errors.go], with the conflict of
    [platform/idempotency].

    The digests of a start configuration are SHA-256 over length-prefixed
    fields ([service.go], [writeDigestField] and its callers). *)

From Stdlib Require Import Ascii.
From S2P Require Import Prelude Sha256 GoLib Identifier Selector GameManifest GameContract.

Module Runtime.
Import GoLib Selector GameManifest GameContract.

Inductive RuntimeError :=
| ErrInvalidSessionInput | ErrSessionNotFound | ErrSessionAlreadyExists | ErrStartReceiptNotFound
| ErrStateVersionConflict | ErrOwnershipLost | ErrSessionSuspended | ErrSessionTerminal
| ErrParticipantNotActive | ErrTimerNotDue | ErrActionReceiptNotFound | ErrTimerNotFound
| ErrTimerReceiptNotFound | ErrSystemReceiptNotFound | ErrSystemOperationPending | ErrSystemInboxNotFound
| ErrInvalidActionCommit | ErrInvalidTimerCommit | ErrInvalidSystemCommit | ErrInvalidLifecycleCommit
| ErrModuleUnavailable | ErrProjectionUnsafe | ErrReplayUnavailable
| ErrGameSessionRepositoryUnavailable | ErrGameSessionIntegrity | ErrMutationBlocked
| ErrMutationStateUnavailable | ErrConflict
(** An error of a game module, passed on. *)
| ErrGameModule.

Abbreviation res A := (result RuntimeError A).

(** ** Status *)
Definition StatusActive : string := "active".
Definition StatusSuspended : string := "suspended".
Definition StatusFinished : string := "finished".
Definition StatusCancelled : string := "cancelled".

Definition CancelReasonPlatformCancelled : string := "platform_cancelled".
Definition CancelReasonLegacyCancelled : string := "legacy_cancelled".

Definition Status_Valid (status : string) : bool :=
  String.eqb status StatusActive || String.eqb status StatusSuspended || String.eqb status StatusFinished
  || String.eqb status StatusCancelled.

Definition Terminal (status : string) : bool :=
  String.eqb status StatusFinished || String.eqb status StatusCancelled.

(** ** Data *)
Record Participant := mkParticipant { p_UserID : UUID; p_SeatIndex : Z }.
#[global] Instance Participant_eq_dec : EqDecision Participant.
Proof. solve_decision. Defined.

Record TimerSnapshot := mkTimer {
  t_TimerID : string;
  t_ExpectedStateVersion : Z;
  t_DueAt : Time;
  t_Message : Message;
}.
#[global] Instance timer_eta : Eta TimerSnapshot :=
  fun t => mkTimer (t_TimerID t) (t_ExpectedStateVersion t) (t_DueAt t) (t_Message t).
#[global] Instance TimerSnapshot_eq_dec : EqDecision TimerSnapshot.
Proof. solve_decision. Defined.

Record FrozenStartConfig := mkStart {
  Config : Message;
  ConfigDigest : Digest;
  ConfigRevision : Z;
  f_RoomVersion : Z;
  f_MembershipVersion : Z;
  RoomOwnershipEpoch : Z;
}.
#[global] Instance start_eta : Eta FrozenStartConfig := fun f => mkStart (Config f) (ConfigDigest f)
  (ConfigRevision f) (f_RoomVersion f) (f_MembershipVersion f) (RoomOwnershipEpoch f).
#[global] Instance FrozenStartConfig_eq_dec : EqDecision FrozenStartConfig.
Proof. solve_decision. Defined.

Definition FrozenStartConfig_Valid (start : FrozenStartConfig) : bool :=
  if negb (Message_Valid (Config start)) || Digest_eqb (ConfigDigest start) zeroDigest then false
  else if (f_RoomVersion start =? 0) && (f_MembershipVersion start =? 0) && (RoomOwnershipEpoch start =? 0)
  then ConfigRevision start =? 0
  else (0 <? f_RoomVersion start) && (0 <? f_MembershipVersion start) && (0 <? RoomOwnershipEpoch start).

Record SessionSnapshot := mkSession {
  s_ID : UUID;
  s_RoomID : UUID;
  s_VersionKey : VersionKey;
  s_OwnershipEpoch : Z;
  s_Participants : list Participant;
  s_Start : FrozenStartConfig;
  s_State : GameSnapshot;
  s_Timers : list TimerSnapshot;
  s_NextDeadlineAt : Time;
  s_Status : string;
  s_StartedAt : Time;
  s_UpdatedAt : Time;
  s_SuspendedAt : Time;
  s_EndedAt : Time;
  s_CancelReason : string;
}.
#[global] Instance session_eta : Eta SessionSnapshot := fun s => mkSession (s_ID s) (s_RoomID s) (s_VersionKey s)
  (s_OwnershipEpoch s) (s_Participants s) (s_Start s) (s_State s) (s_Timers s) (s_NextDeadlineAt s) (s_Status s)
  (s_StartedAt s) (s_UpdatedAt s) (s_SuspendedAt s) (s_EndedAt s) (s_CancelReason s).

Definition Session : Type := SessionSnapshot.

(** [Session.Snapshot] clones: an equal value. *)
Definition Snapshot (session : Session) : SessionSnapshot := session.

(** ** Digests of length-prefixed fields *)

(** The bytes one [writeDigestField] adds to the hash. *)
Definition writeDigestField (value : list Z) : list Z := bigEndian 8 (len value) ++ value.
Definition writeDigestUint64 (value : Z) : list Z := writeDigestField (bigEndian 8 value).
Definition writeVersionKey (key : VersionKey) : list Z :=
  writeDigestField (bytesOf (GameID key)) ++ writeDigestField (bytesOf (Engine key))
  ++ writeDigestField (bytesOf (Protocol key)) ++ writeDigestField (bytesOf (Client key)).
Definition writeMessage (message : Message) : list Z :=
  writeDigestField (bytesOf (MessageType message)) ++ writeDigestUint64 (SchemaVersion message)
  ++ writeDigestField (Payload message).

(** [NewDigest] of a SHA-256 sum does not fail: the sum has 32 bytes. *)
Definition digestFromHash (written : list Z) : Digest := Sha256.Sum256 written.

Definition startConfigDigest (versionKey : VersionKey) (message : Message) : Digest :=
  digestFromHash (writeVersionKey versionKey ++ writeMessage message).

(** ** Canonical values *)
Definition canonicalRuntimeTime (value : Time) : Time :=
  if IsZero value then 0 else Truncate value Microsecond.

Definition sameGameMessage (left right : Message) : bool :=
  String.eqb (MessageType left) (MessageType right) && (SchemaVersion left =? SchemaVersion right)
  && bool_decide (Payload left = Payload right).

Definition sameFrozenStartConfig (left right : FrozenStartConfig) : bool :=
  sameGameMessage (Config left) (Config right) && Digest_eqb (ConfigDigest left) (ConfigDigest right)
  && (ConfigRevision left =? ConfigRevision right) && (f_RoomVersion left =? f_RoomVersion right)
  && (f_MembershipVersion left =? f_MembershipVersion right)
  && (RoomOwnershipEpoch left =? RoomOwnershipEpoch right).

(** The order of [canonicalParticipants]: by seat, then by the text of the user. *)
Definition participant_le (left right : Participant) : Prop :=
  p_SeatIndex left < p_SeatIndex right \/
  p_SeatIndex left = p_SeatIndex right /\ String.le (UUID_String (p_UserID left)) (UUID_String (p_UserID right)).
#[global] Instance participant_le_dec left right : Decision (participant_le left right).
Proof. unfold participant_le. apply _. Defined.

Fixpoint distinctSeats (users : list UUID) (seats : list Z) (participants : list Participant) : bool :=
  match participants with
  | [] => true
  | participant :: rest =>
      if p_UserID participant =? Nil then false
      else if bool_decide (p_UserID participant ∈ users) then false
      else if bool_decide (p_SeatIndex participant ∈ seats) then false
      else distinctSeats (p_UserID participant :: users) (p_SeatIndex participant :: seats) rest
  end.

Definition canonicalParticipants (values : list Participant) : res (list Participant) :=
  let participants := merge_sort participant_le values in
  if negb (distinctSeats [] [] participants) then Err ErrInvalidSessionInput else Ok participants.

Definition timer_le (left right : TimerSnapshot) : Prop := String.le (t_TimerID left) (t_TimerID right).
#[global] Instance timer_le_dec left right : Decision (timer_le left right).
Proof. unfold timer_le. apply _. Defined.

(** The loop of [canonicalTimers]. *)
Fixpoint collectTimers (stateVersion : Z) (seen : list string) (values : list TimerSnapshot) : res (list TimerSnapshot) :=
  match values with
  | [] => Ok []
  | timer :: rest =>
      let timer := timer <| t_DueAt := canonicalRuntimeTime (t_DueAt timer) |> in
      if negb (identifierOk (t_TimerID timer)) || negb (t_ExpectedStateVersion timer =? stateVersion)
         || IsZero (t_DueAt timer) || negb (Message_Valid (t_Message timer))
      then Err ErrInvalidSessionInput
      else if bool_decide (t_TimerID timer ∈ seen) then Err ErrInvalidSessionInput
      else
        let* timers := collectTimers stateVersion (t_TimerID timer :: seen) rest in
        Ok (timer :: timers)
  end.

(** The earliest due time, 0 without timers. *)
Fixpoint earliest (deadline : Time) (timers : list TimerSnapshot) : Time :=
  match timers with
  | [] => deadline
  | timer :: rest =>
      earliest (if IsZero deadline || Before (t_DueAt timer) deadline then t_DueAt timer else deadline) rest
  end.

Definition canonicalTimers (values : list TimerSnapshot) (stateVersion : Z) : res (list TimerSnapshot * Time) :=
  let* timers := collectTimers stateVersion [] values in
  let timers := merge_sort timer_le timers in
  Ok (timers, earliest 0 timers).

Definition timersFromIntents (intents : list TimerIntent) (stateVersion : Z) : res (list TimerSnapshot * Time) :=
  canonicalTimers
    ((fun intent => mkTimer (ti_TimerID intent) stateVersion (ti_DueAt intent) (ti_Message intent)) <$> intents)
    stateVersion.

Definition canonicalCancelReason (status reason : string) : res string :=
  if negb (String.eqb status StatusCancelled) then
    if negb (String.eqb reason "") then Err ErrInvalidSessionInput else Ok ""%string
  else if String.eqb reason "" then Ok CancelReasonPlatformCancelled
  else match Identifier.ParseIdentifier reason with
  | Ok parsed => Ok parsed
  | Err _ => Err ErrInvalidSessionInput
  end.

Definition canonicalFrozenStartConfig (start : FrozenStartConfig) (config : Message) (versionKey : VersionKey)
  : res FrozenStartConfig :=
  if negb (Message_Valid config) || negb (VersionKey_Valid versionKey) then Err ErrInvalidSessionInput
  else if Message_Valid (Config start) && negb (sameGameMessage (Config start) config) then Err ErrInvalidSessionInput
  else
    let start := start <| Config := config |> in
    let* start :=
      (if Digest_eqb (ConfigDigest start) zeroDigest
       then Ok (start <| ConfigDigest := startConfigDigest versionKey config |>)
       else if negb (Digest_eqb (ConfigDigest start) (startConfigDigest versionKey config))
       then Err ErrInvalidSessionInput
       else Ok start) in
    if (f_RoomVersion start =? 0) && (f_MembershipVersion start =? 0) && (RoomOwnershipEpoch start =? 0) then
      if negb (ConfigRevision start =? 0) then Err ErrInvalidSessionInput else Ok start
    else if (f_RoomVersion start =? 0) || (f_MembershipVersion start =? 0) || (RoomOwnershipEpoch start =? 0)
    then Err ErrInvalidSessionInput
    else Ok start.

Definition frozenStartConfigZero (start : FrozenStartConfig) : bool :=
  negb (Message_Valid (Config start)) && Digest_eqb (ConfigDigest start) zeroDigest
  && (ConfigRevision start =? 0) && (f_RoomVersion start =? 0) && (f_MembershipVersion start =? 0)
  && (RoomOwnershipEpoch start =? 0).

(** The zero value of the struct. *)
Definition noStart : FrozenStartConfig := mkStart noMessage zeroDigest 0 0 0 0.

(** ** Restoring a session *)

(** The snapshot of [RestoreSession] with canonical times, cancel reason and
    start configuration, before its lists are sorted. *)
Definition restoring (source : SessionSnapshot) (reason : string) (start : FrozenStartConfig) : SessionSnapshot :=
  mkSession (s_ID source) (s_RoomID source) (s_VersionKey source) (s_OwnershipEpoch source) (s_Participants source)
    start (s_State source) (s_Timers source) (canonicalRuntimeTime (s_NextDeadlineAt source)) (s_Status source)
    (canonicalRuntimeTime (s_StartedAt source)) (canonicalRuntimeTime (s_UpdatedAt source))
    (canonicalRuntimeTime (s_SuspendedAt source)) (canonicalRuntimeTime (s_EndedAt source)) reason.

Definition headerInvalid (snapshot : SessionSnapshot) : bool :=
  (s_ID snapshot =? Nil) || (s_RoomID snapshot =? Nil) || negb (VersionKey_Valid (s_VersionKey snapshot))
  || negb (Snapshot_Valid (s_State snapshot)) || negb (Status_Valid (s_Status snapshot))
  || IsZero (s_StartedAt snapshot) || Before (s_UpdatedAt snapshot) (s_StartedAt snapshot)
  || (len (s_Participants snapshot) =? 0) || (MaximumParticipants <? len (s_Participants snapshot))
  || (MaximumTransitionTimers <? len (s_Timers snapshot)).

(** The end and pause times a status allows. *)
Definition endInvalid (snapshot : SessionSnapshot) (timers : list TimerSnapshot) (deadline : Time) : bool :=
  if Terminal (s_Status snapshot) then
    IsZero (s_EndedAt snapshot) || negb (s_EndedAt snapshot =? s_UpdatedAt snapshot)
    || negb (len timers =? 0) || negb (IsZero deadline)
  else negb (IsZero (s_EndedAt snapshot)) || negb (String.eqb (s_CancelReason snapshot) "").

Definition pauseInvalid (snapshot : SessionSnapshot) : bool :=
  if String.eqb (s_Status snapshot) StatusSuspended then
    IsZero (s_SuspendedAt snapshot) || Before (s_SuspendedAt snapshot) (s_StartedAt snapshot)
    || After (s_SuspendedAt snapshot) (s_UpdatedAt snapshot)
  else negb (IsZero (s_SuspendedAt snapshot)).

Definition RestoreSession (source : SessionSnapshot) : res Session :=
  let* reason := canonicalCancelReason (s_Status source) (s_CancelReason source) in
  let* start :=
    (if negb (frozenStartConfigZero (s_Start source))
     then canonicalFrozenStartConfig (s_Start source) (Config (s_Start source)) (s_VersionKey source)
     else Ok (s_Start source)) in
  let snapshot := restoring source reason start in
  if headerInvalid snapshot then Err ErrInvalidSessionInput
  else
    let* participants := canonicalParticipants (s_Participants snapshot) in
    let* '(timers, deadline) := canonicalTimers (s_Timers snapshot) (StateVersion (s_State snapshot)) in
    if negb (deadline =? s_NextDeadlineAt snapshot) then Err ErrInvalidSessionInput
    else if endInvalid snapshot timers deadline then Err ErrInvalidSessionInput
    else if pauseInvalid snapshot then Err ErrInvalidSessionInput
    else Ok (snapshot <| s_Participants := participants |> <| s_Timers := timers |>).

(** ** Event batches *)
Definition EventCauseCreated : string := "created".
Definition EventCauseAction : string := "action".
Definition EventCauseTimer : string := "timer".
Definition EventCauseSystem : string := "system".

Definition EventCause_Valid (cause : string) : bool :=
  String.eqb cause EventCauseCreated || String.eqb cause EventCauseAction || String.eqb cause EventCauseTimer
  || String.eqb cause EventCauseSystem.

Definition SystemSourceHostAPI : string := "host_api".
Definition SystemSourceRoomOutbox : string := "room_outbox".
Definition SystemSourcePlatform : string := "platform".

Record SystemSource := mkSource { src_Kind : string; src_EventID : UUID; src_RequestedByUserID : UUID }.
#[global] Instance SystemSource_eq_dec : EqDecision SystemSource.
Proof. solve_decision. Defined.
Definition noSource : SystemSource := mkSource "" Nil Nil.

Definition SystemSource_Valid (source : SystemSource) : bool :=
  let kindValid := String.eqb (src_Kind source) SystemSourceHostAPI
    || String.eqb (src_Kind source) SystemSourceRoomOutbox || String.eqb (src_Kind source) SystemSourcePlatform in
  let requesterValid :=
    String.eqb (src_Kind source) SystemSourceHostAPI && negb (src_RequestedByUserID source =? Nil)
    || negb (String.eqb (src_Kind source) SystemSourceHostAPI) && (src_RequestedByUserID source =? Nil) in
  kindValid && requesterValid && negb (src_EventID source =? Nil).

Definition SystemSource_zero (source : SystemSource) : bool :=
  String.eqb (src_Kind source) "" && (src_EventID source =? Nil) && (src_RequestedByUserID source =? Nil).

Record EventBatchSnapshot := mkBatch {
  b_ID : UUID;
  b_SessionID : UUID;
  b_StateVersion : Z;
  b_OwnershipEpoch : Z;
  b_Cause : string;
  b_ActorUserID : UUID;
  b_ActionID : OperationID;
  b_TimerID : string;
  b_SystemOperationID : OperationID;
  b_SystemSource : SystemSource;
  b_RequestDigest : Digest;
  b_Execution : DeterministicContext;
  b_Input : Message;
  b_Events : list Event;
  b_CommittedAt : Time;
}.
#[global] Instance batch_eta : Eta EventBatchSnapshot := fun b => mkBatch (b_ID b) (b_SessionID b) (b_StateVersion b)
  (b_OwnershipEpoch b) (b_Cause b) (b_ActorUserID b) (b_ActionID b) (b_TimerID b) (b_SystemOperationID b)
  (b_SystemSource b) (b_RequestDigest b) (b_Execution b) (b_Input b) (b_Events b) (b_CommittedAt b).

Definition EventBatch : Type := EventBatchSnapshot.

(** What a cause allows of the identifying fields. *)
Definition causeInvalid (snapshot : EventBatchSnapshot) : bool :=
  let noAction := (b_ActorUserID snapshot =? Nil) && negb (OperationID_Valid (b_ActionID snapshot)) in
  let noTimer := String.eqb (b_TimerID snapshot) "" in
  let noSystem := negb (OperationID_Valid (b_SystemOperationID snapshot)) && SystemSource_zero (b_SystemSource snapshot) in
  let noDigest := Digest_eqb (b_RequestDigest snapshot) zeroDigest in
  if String.eqb (b_Cause snapshot) EventCauseCreated then
    negb (b_OwnershipEpoch snapshot =? 0) || negb noAction || negb noTimer || negb noSystem || negb noDigest
  else if String.eqb (b_Cause snapshot) EventCauseAction then
    (b_OwnershipEpoch snapshot =? 0) || (b_ActorUserID snapshot =? Nil)
    || negb (OperationID_Valid (b_ActionID snapshot)) || negb noTimer || negb noSystem || negb noDigest
  else if String.eqb (b_Cause snapshot) EventCauseTimer then
    (b_OwnershipEpoch snapshot =? 0) || negb noAction || negb (identifierOk (b_TimerID snapshot))
    || negb noSystem || negb noDigest
  else
    (b_OwnershipEpoch snapshot =? 0) || negb noAction || negb noTimer
    || negb (OperationID_Valid (b_SystemOperationID snapshot)) || negb (SystemSource_Valid (b_SystemSource snapshot)).

(** The batch with canonical times. *)
Definition canonicalBatch (source : EventBatchSnapshot) : EventBatchSnapshot :=
  let execution := Context_Clone (b_Execution source) in
  mkBatch (b_ID source) (b_SessionID source) (b_StateVersion source) (b_OwnershipEpoch source) (b_Cause source)
    (b_ActorUserID source) (b_ActionID source) (b_TimerID source) (b_SystemOperationID source) (b_SystemSource source)
    (b_RequestDigest source)
    (mkContext (canonicalRuntimeTime (Now execution)) (RandomSeed execution) (AllocatedIDs execution))
    (b_Input source) (b_Events source) (canonicalRuntimeTime (b_CommittedAt source)).

Definition RestoreEventBatch (source : EventBatchSnapshot) : res EventBatch :=
  let snapshot := canonicalBatch source in
  if (b_ID snapshot =? Nil) || (b_SessionID snapshot =? Nil) || (b_StateVersion snapshot =? 0)
     || negb (EventCause_Valid (b_Cause snapshot)) || negb (Context_Valid (b_Execution snapshot))
     || negb (Now (b_Execution snapshot) =? b_CommittedAt snapshot) || negb (Message_Valid (b_Input snapshot))
     || (len (b_Events snapshot) =? 0) || (MaximumTransitionEvents <? len (b_Events snapshot))
  then Err ErrInvalidSessionInput
  else if causeInvalid snapshot then Err ErrInvalidSessionInput
  else if negb (forallb Event_Valid (b_Events snapshot)) then Err ErrInvalidSessionInput
  else Ok snapshot.

(** ** Creating a session *)
Record NewSessionRequest := mkNewSession {
  ns_SessionID : UUID;
  ns_RoomID : UUID;
  ns_VersionKey : VersionKey;
  ns_Participants : list Participant;
  ns_Start : FrozenStartConfig;
  ns_BatchID : UUID;
  ns_Execution : DeterministicContext;
  ns_Input : Message;
  ns_Transition : Transition;
}.

(** A finished transition leaves no timers. *)
Definition finishedWithTimers (transition : Transition) : bool :=
  tn_Finished transition && negb (len (tn_Timers transition) =? 0).

Definition NewSession (request : NewSessionRequest) : res (Session * EventBatch) :=
  let execution := ns_Execution request in
  let transition := ns_Transition request in
  if (ns_SessionID request =? Nil) || (ns_RoomID request =? Nil) || (ns_BatchID request =? Nil)
     || negb (VersionKey_Valid (ns_VersionKey request)) || negb (Context_Valid execution)
     || negb (Message_Valid (ns_Input request)) || (len (ns_Participants request) =? 0)
     || (MaximumParticipants <? len (ns_Participants request))
  then Err ErrInvalidSessionInput
  else if negb (is_ok (Transition_Validate transition 0 (Now execution)))
          || negb (StateVersion (tn_Snapshot transition) =? 1) || finishedWithTimers transition
  then Err ErrInvalidSessionInput
  else
    let* participants := canonicalParticipants (ns_Participants request) in
    let* '(timers, deadline) := timersFromIntents (tn_Timers transition) 1 in
    let status := if tn_Finished transition then StatusFinished else StatusActive in
    let endedAt := if tn_Finished transition then Now execution else 0 in
    let* start := canonicalFrozenStartConfig (ns_Start request) (ns_Input request) (ns_VersionKey request) in
    let* session := RestoreSession (mkSession (ns_SessionID request) (ns_RoomID request) (ns_VersionKey request) 0
      participants start (tn_Snapshot transition) timers deadline status (Now execution) (Now execution) 0 endedAt "") in
    let* batch := RestoreEventBatch (mkBatch (ns_BatchID request) (ns_SessionID request) 1 0 EventCauseCreated Nil
      noOperation "" noOperation noSource zeroDigest execution (ns_Input request) (tn_Events transition) (Now execution)) in
    Ok (session, batch).

(** ** Moves of the engine *)
Record ActionTransitionRequest := mkActionRequest {
  ar_BatchID : UUID;
  ar_OwnershipEpoch : Z;
  ar_ActorUserID : UUID;
  ar_ActionID : OperationID;
  ar_Execution : DeterministicContext;
  ar_Input : Message;
  ar_Transition : Transition;
}.

Record TimerTransitionRequest := mkTimerTransition {
  tt_BatchID : UUID;
  tt_OwnershipEpoch : Z;
  tt_TimerID : string;
  tt_ExpectedStateVersion : Z;
  tt_Execution : DeterministicContext;
  tt_Input : Message;
  tt_Transition : Transition;
}.

Record SystemTransitionRequest := mkSystemTransition {
  st_BatchID : UUID;
  st_OwnershipEpoch : Z;
  st_ExpectedStateVersion : Z;
  st_SystemOperationID : OperationID;
  st_Source : SystemSource;
  st_RequestDigest : Digest;
  st_Execution : DeterministicContext;
  st_Input : Message;
  st_Transition : Transition;
}.

Definition timerOf (session : Session) (timerID : string) : option TimerSnapshot :=
  List.find (fun timer => String.eqb (t_TimerID timer) timerID) (s_Timers session).

Definition hasParticipant (session : Session) (userID : UUID) : bool :=
  existsb (fun participant => p_UserID participant =? userID) (s_Participants session).

(** The next snapshot of a move: the new state, its timers, the end if it finished. *)
Definition movedSnapshot (session : Session) (execution : DeterministicContext) (transition : Transition)
    (timers : list TimerSnapshot) (deadline : Time) : SessionSnapshot :=
  let next := session <| s_State := tn_Snapshot transition |> <| s_Timers := timers |>
                      <| s_NextDeadlineAt := deadline |> <| s_UpdatedAt := Now execution |> in
  if tn_Finished transition then next <| s_Status := StatusFinished |> <| s_EndedAt := Now execution |> else next.

(** [applyTransition]; [metadata] has the identifying fields of the cause, the
    others are overwritten. *)
Definition applyTransition (session : Session) (batchID : UUID) (ownershipEpoch : Z) (cause : string)
    (execution : DeterministicContext) (input : Message) (transition : Transition) (metadata : EventBatchSnapshot)
  : res (Session * EventBatch) :=
  let currentVersion := StateVersion (s_State session) in
  if negb (is_ok (Transition_Validate transition currentVersion (Now execution))) || finishedWithTimers transition
  then Err ErrInvalidSessionInput
  else
    let* '(timers, deadline) := timersFromIntents (tn_Timers transition) (u64 (currentVersion + 1)) in
    let* next := RestoreSession (movedSnapshot session execution transition timers deadline) in
    let* batch := RestoreEventBatch
      (mkBatch batchID (s_ID session) (u64 (currentVersion + 1)) ownershipEpoch cause (b_ActorUserID metadata)
         (b_ActionID metadata) (b_TimerID metadata) (b_SystemOperationID metadata) (b_SystemSource metadata)
         (b_RequestDigest metadata) execution input (tn_Events transition) (Now execution)) in
    Ok (next, batch).

(** An [EventBatchSnapshot] with only the named fields set. *)
Definition noBatch : EventBatchSnapshot :=
  mkBatch Nil Nil 0 0 "" Nil noOperation "" noOperation noSource zeroDigest (mkContext 0 (replicate RandomSeedBytes 0) [])
    noMessage [] 0.

Definition ApplyAction (session : Session) (request : ActionTransitionRequest) : res (Session * EventBatch) :=
  let currentVersion := StateVersion (s_State session) in
  let execution := ar_Execution request in
  let transition := ar_Transition request in
  if Terminal (s_Status session) then Err ErrSessionTerminal
  else if negb (String.eqb (s_Status session) StatusActive) then Err ErrSessionSuspended
  else if (ar_OwnershipEpoch request =? 0) || negb (ar_OwnershipEpoch request =? s_OwnershipEpoch session)
  then Err ErrOwnershipLost
  else if (currentVersion =? maxUint64) || negb (StateVersion (tn_Snapshot transition) =? u64 (currentVersion + 1))
  then Err ErrStateVersionConflict
  else if (ar_BatchID request =? Nil) || (ar_ActorUserID request =? Nil) || negb (OperationID_Valid (ar_ActionID request))
          || negb (Context_Valid execution) || Before (Now execution) (s_UpdatedAt session)
          || negb (Message_Valid (ar_Input request)) || negb (hasParticipant session (ar_ActorUserID request))
  then Err ErrInvalidSessionInput
  else if negb (is_ok (Transition_Validate transition currentVersion (Now execution))) || finishedWithTimers transition
  then Err ErrInvalidSessionInput
  else
    let* '(timers, deadline) := timersFromIntents (tn_Timers transition) (u64 (currentVersion + 1)) in
    let* next := RestoreSession (movedSnapshot session execution transition timers deadline) in
    let* batch := RestoreEventBatch (mkBatch (ar_BatchID request) (s_ID session) (u64 (currentVersion + 1))
      (ar_OwnershipEpoch request) EventCauseAction (ar_ActorUserID request) (ar_ActionID request) "" noOperation noSource
      zeroDigest execution (ar_Input request) (tn_Events transition) (Now execution)) in
    Ok (next, batch).

Definition ApplyTimer (session : Session) (request : TimerTransitionRequest) : res (Session * EventBatch) :=
  let currentVersion := StateVersion (s_State session) in
  let execution := tt_Execution request in
  if Terminal (s_Status session) then Err ErrSessionTerminal
  else if negb (String.eqb (s_Status session) StatusActive) then Err ErrSessionSuspended
  else if (tt_OwnershipEpoch request =? 0) || negb (tt_OwnershipEpoch request =? s_OwnershipEpoch session)
  then Err ErrOwnershipLost
  else if negb (tt_ExpectedStateVersion request =? currentVersion) || (currentVersion =? maxUint64)
          || negb (StateVersion (tn_Snapshot (tt_Transition request)) =? u64 (currentVersion + 1))
  then Err ErrStateVersionConflict
  else if (tt_BatchID request =? Nil) || negb (identifierOk (tt_TimerID request)) || negb (Context_Valid execution)
          || Before (Now execution) (s_UpdatedAt session) || negb (Message_Valid (tt_Input request))
  then Err ErrInvalidSessionInput
  else match timerOf session (tt_TimerID request) with
  | None => Err ErrTimerNotFound
  | Some timer =>
      if negb (t_ExpectedStateVersion timer =? tt_ExpectedStateVersion request) || Before (Now execution) (t_DueAt timer)
         || negb (sameGameMessage (t_Message timer) (tt_Input request))
      then Err ErrInvalidSessionInput
      else applyTransition session (tt_BatchID request) (tt_OwnershipEpoch request) EventCauseTimer execution
             (tt_Input request) (tt_Transition request) (noBatch <| b_TimerID := tt_TimerID request |>)
  end.

Definition ApplySystem (session : Session) (request : SystemTransitionRequest) : res (Session * EventBatch) :=
  let currentVersion := StateVersion (s_State session) in
  let execution := st_Execution request in
  if Terminal (s_Status session) then Err ErrSessionTerminal
  else if negb (String.eqb (s_Status session) StatusActive) then Err ErrSessionSuspended
  else if (st_OwnershipEpoch request =? 0) || negb (st_OwnershipEpoch request =? s_OwnershipEpoch session)
  then Err ErrOwnershipLost
  else if negb (st_ExpectedStateVersion request =? currentVersion) || (currentVersion =? maxUint64)
          || negb (StateVersion (tn_Snapshot (st_Transition request)) =? u64 (currentVersion + 1))
  then Err ErrStateVersionConflict
  else if (st_BatchID request =? Nil) || negb (OperationID_Valid (st_SystemOperationID request))
          || negb (SystemSource_Valid (st_Source request)) || negb (Context_Valid execution)
          || Before (Now execution) (s_UpdatedAt session) || negb (Message_Valid (st_Input request))
  then Err ErrInvalidSessionInput
  else applyTransition session (st_BatchID request) (st_OwnershipEpoch request) EventCauseSystem execution
         (st_Input request) (st_Transition request)
         (noBatch <| b_SystemOperationID := st_SystemOperationID request |> <| b_SystemSource := st_Source request |>
                  <| b_RequestDigest := st_RequestDigest request |>).

(** ** Ownership and lifecycle *)
Definition AcquireOwnership (session : Session) (expectedEpoch : Z) (at_ : Time) : res Session :=
  let at_ := canonicalRuntimeTime at_ in
  if Terminal (s_Status session) then Err ErrSessionTerminal
  else if negb (expectedEpoch =? s_OwnershipEpoch session) then Err ErrOwnershipLost
  else if (expectedEpoch =? maxUint64) || IsZero at_ || negb (After at_ (s_UpdatedAt session))
  then Err ErrInvalidSessionInput
  else RestoreSession (session <| s_OwnershipEpoch := u64 (s_OwnershipEpoch session + 1) |> <| s_UpdatedAt := at_ |>).

Definition Suspend (session : Session) (expectedEpoch : Z) (at_ : Time) : res Session :=
  if Terminal (s_Status session) then Err ErrSessionTerminal
  else if negb (String.eqb (s_Status session) StatusActive) then Err ErrSessionSuspended
  else if (expectedEpoch =? 0) || negb (expectedEpoch =? s_OwnershipEpoch session) then Err ErrOwnershipLost
  else
    let at_ := canonicalRuntimeTime at_ in
    if IsZero at_ || negb (After at_ (s_UpdatedAt session)) then Err ErrInvalidSessionInput
    else RestoreSession (session <| s_Status := StatusSuspended |> <| s_UpdatedAt := at_ |> <| s_SuspendedAt := at_ |>).

(** [t.Sub(u)] saturates at the range of a [time.Duration]. *)
Definition Sub (t u : Time) : Z := Z.max (-9223372036854775808) (Z.min maxInt64 (t - u)).

Definition shiftedResumeTimers (values : list TimerSnapshot) (pausedFor : Z) : res (list TimerIntent) :=
  map_result (fun timer =>
    let shifted := canonicalRuntimeTime (t_DueAt timer + pausedFor) in
    if Before shifted (t_DueAt timer) then Err ErrInvalidSessionInput
    else Ok (mkTimerIntent (t_TimerID timer) shifted (Message_Clone (t_Message timer)))) values.

Definition resumeSnapshotEnvelopePreserved (before after : GameSnapshot) : bool :=
  (SnapshotVersion before =? SnapshotVersion after) && (StateVersion before =? StateVersion after)
  && String.eqb (MessageType (State before)) (MessageType (State after))
  && (SchemaVersion (State before) =? SchemaVersion (State after)) && Message_Valid (State after).

(** The optional [AdjustResumed] of a module. *)
Definition Adjust : Type := GameSnapshot -> list TimerIntent -> res (GameSnapshot * list TimerIntent).

Definition resumeWithAdjustment (session : Session) (expectedEpoch : Z) (at_ : Time) (adjust : option Adjust) : res Session :=
  if Terminal (s_Status session) then Err ErrSessionTerminal
  else if negb (String.eqb (s_Status session) StatusSuspended) then Err ErrInvalidLifecycleCommit
  else if (expectedEpoch =? 0) || negb (expectedEpoch =? s_OwnershipEpoch session) then Err ErrOwnershipLost
  else
    let at_ := canonicalRuntimeTime at_ in
    if IsZero at_ || negb (After at_ (s_UpdatedAt session)) then Err ErrInvalidSessionInput
    else
      let pausedFor := Sub at_ (s_SuspendedAt session) in
      if IsZero (s_SuspendedAt session) || (pausedFor <=? 0) then Err ErrInvalidSessionInput
      else
        let* shiftedTimers := shiftedResumeTimers (s_Timers session) pausedFor in
        let* '(state, shiftedTimers) :=
          (match adjust with
           | Some adjust => adjust (s_State session) shiftedTimers
           | None => Ok (s_State session, shiftedTimers)
           end) in
        if negb (resumeSnapshotEnvelopePreserved (s_State session) state) then Err ErrInvalidSessionInput
        else
          let* '(timers, deadline) := timersFromIntents shiftedTimers (StateVersion (s_State session)) in
          RestoreSession (mkSession (s_ID session) (s_RoomID session) (s_VersionKey session) (s_OwnershipEpoch session)
            (s_Participants session) (s_Start session) state timers deadline StatusActive (s_StartedAt session) at_ 0
            (s_EndedAt session) (s_CancelReason session)).

Definition Resume (session : Session) (expectedEpoch : Z) (at_ : Time) : res Session :=
  resumeWithAdjustment session expectedEpoch at_ None.

Definition Cancel (session : Session) (expectedEpoch : Z) (at_ : Time) (reason : string) : res Session :=
  if Terminal (s_Status session) then Err ErrSessionTerminal
  else if (expectedEpoch =? 0) || negb (expectedEpoch =? s_OwnershipEpoch session) then Err ErrOwnershipLost
  else
    let at_ := canonicalRuntimeTime at_ in
    if IsZero at_ || negb (After at_ (s_UpdatedAt session)) then Err ErrInvalidSessionInput
    else RestoreSession (mkSession (s_ID session) (s_RoomID session) (s_VersionKey session) (s_OwnershipEpoch session)
           (s_Participants session) (s_Start session) (s_State session) [] 0 StatusCancelled (s_StartedAt session) at_ 0
           at_ reason).

End Runtime.
