(* ===== verification/RuntimeFacts.v ===== *)
(** * Facts about game sessions

    What [RestoreSession] and [RestoreEventBatch] accept, and that what they
    return they accept unchanged. *)

From S2P Require Import Prelude GoLib Identifier Selector GameManifest GameContract Runtime.

Module RuntimeFacts.
Import GoLib Selector GameManifest GameContract Runtime.

(** ** Times *)
Lemma canonicalRuntimeTime_idem t : canonicalRuntimeTime (canonicalRuntimeTime t) = canonicalRuntimeTime t.
Proof.
  unfold canonicalRuntimeTime. destruct (IsZero t) eqn:E; [done|]. rewrite Truncate_idem by done.
  destruct (IsZero (Truncate t Microsecond)) eqn:E'; [|done]. unfold IsZero in E'. by to_prop.
Qed.

Definition canonical (t : Time) : Prop := canonicalRuntimeTime t = t.

Lemma canonical_mod t : canonical t <-> t mod Microsecond = 0.
Proof.
  unfold canonical, canonicalRuntimeTime, Truncate, IsZero. destruct (Z.eqb_spec t 0) as [->|]; [done|]. lia.
Qed.

Lemma canonicalRuntimeTime_canonical t : canonical (canonicalRuntimeTime t).
Proof. apply canonicalRuntimeTime_idem. Qed.

Lemma canonical_zero : canonical 0.
Proof. done. Qed.

Lemma canonical_add t d : canonical t -> d mod Microsecond = 0 -> canonical (t + d).
Proof. rewrite !canonical_mod. intros Ht Hd. by rewrite Z.add_mod, Ht, Hd. Qed.

Lemma canonicalRuntimeTime_le t : canonicalRuntimeTime t <= t.
Proof.
  unfold canonicalRuntimeTime, IsZero, Truncate, Microsecond. destruct (Z.eqb_spec t 0) as [->|]; [done|].
  pose proof (Z.mod_pos_bound t 1000). lia.
Qed.

Lemma canonicalRuntimeTime_mono t u : canonical t -> t <= u -> u <> 0 -> t <= canonicalRuntimeTime u.
Proof.
  rewrite canonical_mod. intros Ht Hle Hu. unfold canonicalRuntimeTime, IsZero. destruct (Z.eqb_spec u 0); [done|].
  transitivity (Truncate t Microsecond); [unfold Truncate; lia|]. by apply Truncate_mono.
Qed.

#[export] Hint Resolve canonicalRuntimeTime_canonical canonical_zero : core.

(** ** Participants *)
#[global] Instance participant_le_trans : Transitive participant_le.
Proof.
  intros x y z [H1|[H1 H1']] [H2|[H2 H2']]; unfold participant_le; [left; lia..|right].
  split; [congruence|]. by etransitivity.
Qed.
#[global] Instance participant_le_total : Total participant_le.
Proof.
  intros x y. unfold participant_le. destruct (Z.lt_total (p_SeatIndex x) (p_SeatIndex y)) as [H|[H|H]]; [by left; left| |by right; left].
  destruct (total String.le (UUID_String (p_UserID x)) (UUID_String (p_UserID y))); [left; right|right; right]; by split.
Qed.

Lemma distinctSeats_spec users seats participants :
  distinctSeats users seats participants = true <->
  Forall (fun p => p_UserID p <> Nil) participants /\ NoDup (p_UserID <$> participants) /\
  NoDup (p_SeatIndex <$> participants) /\
  (forall p, p ∈ participants -> p_UserID p ∉ users /\ p_SeatIndex p ∉ seats).
Proof.
  revert users seats. induction participants as [|p rest IH]; intros users seats; cbn [distinctSeats].
  - split; [|done]. intros _. split_and!; [done|constructor|constructor|intros ? H; inversion H].
  - rewrite !fmap_cons, !NoDup_cons, Forall_cons. destruct (Z.eqb_spec (p_UserID p) Nil) as [Hn|Hn].
    { split; [done|]. intros ((H & _) & _). done. }
    case_bool_decide as Hu; [split; [done|]; intros (_ & _ & _ & H); destruct (H p) as [? _]; [constructor|done]|].
    case_bool_decide as Hs; [split; [done|]; intros (_ & _ & _ & H); destruct (H p) as [_ ?]; [constructor|done]|].
    rewrite IH. split.
    + intros (HF & HU & HS & Hin). split_and!; try done.
      * intros (q & Heq & Hq)%list_elem_of_fmap. destruct (Hin q Hq) as [H _]. apply H. rewrite <- Heq. constructor.
      * intros (q & Heq & Hq)%list_elem_of_fmap. destruct (Hin q Hq) as [_ H]. apply H. rewrite <- Heq. constructor.
      * intros q Hq. apply elem_of_cons in Hq as [->|Hq]; [done|]. destruct (Hin q Hq) as [H1 H2].
        split; intros ?; [apply H1|apply H2]; by constructor.
    + intros ((_ & HF) & (HU1 & HU) & (HS1 & HS) & Hin). split_and!; try done.
      intros q Hq. destruct (Hin q) as [H1 H2]; [by constructor|].
      split; intros [Heq|?]%elem_of_cons; try done.
      * apply HU1. rewrite <- Heq. by apply list_elem_of_fmap_2.
      * apply HS1. rewrite <- Heq. by apply list_elem_of_fmap_2.
Qed.

(** The rows of a session: in seat order, one per user and seat. *)
Record ParticipantsOK (participants : list Participant) : Prop := mkParticipantsOK {
  po_named : Forall (fun p => p_UserID p <> Nil) participants;
  po_users : NoDup (p_UserID <$> participants);
  po_seats : NoDup (p_SeatIndex <$> participants);
  po_sorted : StronglySorted participant_le participants;
}.

Lemma merge_sort_fixed {A} (R : relation A) `{!forall x y, Decision (R x y)} `{!Transitive R} `{!Total R} (l : list A) :
  (forall x y, x ∈ l -> y ∈ l -> R x y -> R y x -> x = y) -> StronglySorted R l -> merge_sort R l = l.
Proof.
  intros Hanti Hs. apply (StronglySorted_unique_strong R).
  - intros x y Hx Hy. apply Hanti; [|done]. by rewrite merge_sort_Permutation in Hx.
  - apply StronglySorted_merge_sort; apply _.
  - done.
  - apply merge_sort_Permutation.
Qed.

Lemma NoDup_fmap_inj {A B} (f : A -> B) l x y : NoDup (f <$> l) -> x ∈ l -> y ∈ l -> f x = f y -> x = y.
Proof.
  induction l as [|a l IH]; intros HN Hx Hy Heq; [inversion Hx|].
  rewrite fmap_cons, NoDup_cons in HN. destruct HN as [Ha HN].
  apply elem_of_cons in Hx as [->|Hx]; apply elem_of_cons in Hy as [->|Hy]; [done| | |by apply IH].
  - exfalso. apply Ha. rewrite Heq. by apply list_elem_of_fmap_2.
  - exfalso. apply Ha. rewrite <- Heq. by apply list_elem_of_fmap_2.
Qed.

Lemma canonicalRoster_Ok values participants :
  canonicalParticipants values = Ok participants -> ParticipantsOK participants /\ participants ≡ₚ values.
Proof.
  unfold canonicalParticipants. cbv zeta. intros H. inv_results H. to_prop.
  apply distinctSeats_spec in E as (HF & HU & HS & _). split; [|apply merge_sort_Permutation].
  constructor; try done. apply StronglySorted_merge_sort; apply _.
Qed.

Lemma canonicalParticipants_fixed participants :
  ParticipantsOK participants -> canonicalParticipants participants = Ok participants.
Proof.
  intros [HF HU HS Hsort]. unfold canonicalParticipants. cbv zeta.
  rewrite merge_sort_fixed; [|apply _..| |done].
  2:{ intros x y Hx Hy H1 H2. apply (NoDup_fmap_inj p_SeatIndex participants); try done.
      destruct H1 as [?|[? _]], H2 as [?|[? _]]; lia. }
  assert (H : distinctSeats [] [] participants = true).
  { apply distinctSeats_spec. split_and!; try done. intros p _. split; intros Hin; inversion Hin. }
  by rewrite H.
Qed.

(** ** Timers *)
#[global] Instance timer_le_trans : Transitive timer_le.
Proof. intros x y z. unfold timer_le. apply (transitivity (R := String.le)). Qed.
#[global] Instance timer_le_total : Total timer_le.
Proof. intros x y. unfold timer_le. apply (total String.le). Qed.

Definition TimerOK (stateVersion : Z) (timer : TimerSnapshot) : Prop :=
  identifierOk (t_TimerID timer) = true /\ t_ExpectedStateVersion timer = stateVersion /\ t_DueAt timer <> 0 /\
  canonical (t_DueAt timer) /\ Message_Valid (t_Message timer) = true.

Record TimersOK (stateVersion : Z) (timers : list TimerSnapshot) : Prop := mkTimersOK {
  to_each : Forall (TimerOK stateVersion) timers;
  to_ids : NoDup (t_TimerID <$> timers);
  to_sorted : StronglySorted timer_le timers;
}.

Definition canonicalDue (timer : TimerSnapshot) : TimerSnapshot :=
  timer <| t_DueAt := canonicalRuntimeTime (t_DueAt timer) |>.

Lemma collectTimers_Ok stateVersion seen values timers :
  collectTimers stateVersion seen values = Ok timers ->
  timers = canonicalDue <$> values /\ Forall (TimerOK stateVersion) timers /\ NoDup (t_TimerID <$> timers) /\
  (forall timer, timer ∈ timers -> t_TimerID timer ∉ seen).
Proof.
  revert seen timers. induction values as [|v values IH]; intros seen timers H; cbn [collectTimers] in H.
  - simplify_eq. split_and!; [done|done|constructor|intros ? Hin; inversion Hin].
  - cbv zeta in H. inv_results H. apply IH in E1 as (-> & HF & HN & Hs).
    fold (canonicalDue v) in *. unfold IsZero in *. to_prop. rewrite !fmap_cons. split_and!; [done| | |].
    + constructor; [|done]. split_and!; try done. apply canonicalRuntimeTime_canonical.
    + apply NoDup_cons. split; [|done]. intros (t & Heq & Ht)%list_elem_of_fmap. apply (Hs t Ht).
      rewrite <- Heq. constructor.
    + intros t [->|Ht]%elem_of_cons; [done|]. intros Hin. apply (Hs t Ht). by constructor.
Qed.

Lemma collectTimers_fixed stateVersion seen timers :
  Forall (TimerOK stateVersion) timers -> NoDup (t_TimerID <$> timers) ->
  (forall timer, timer ∈ timers -> t_TimerID timer ∉ seen) -> collectTimers stateVersion seen timers = Ok timers.
Proof.
  revert seen. induction timers as [|t timers IH]; intros seen HF HN Hs; [done|]. cbn [collectTimers].
  apply Forall_cons in HF as [(H1 & H2 & H3 & H4 & H5) HF]. rewrite fmap_cons, NoDup_cons in HN. destruct HN as [Ht HN].
  cbv zeta. assert (Hc : t <| t_DueAt := canonicalRuntimeTime (t_DueAt t) |> = t) by (destruct t; cbn in *; by rewrite H4).
  rewrite Hc, H1, H2, H5, Z.eqb_refl. unfold IsZero. rewrite (proj2 (Z.eqb_neq _ _) H3). cbn [negb orb].
  rewrite bool_decide_eq_false_2 by (apply Hs; constructor). rewrite IH; [done|done|done|].
  intros t' Ht' [Heq|Hin]%elem_of_cons; [|by apply (Hs t'); [constructor|]].
  apply Ht. rewrite <- Heq. by apply list_elem_of_fmap_2.
Qed.

Lemma canonicalTimers_Ok values stateVersion timers deadline :
  canonicalTimers values stateVersion = Ok (timers, deadline) ->
  TimersOK stateVersion timers /\ deadline = earliest 0 timers /\ timers ≡ₚ canonicalDue <$> values.
Proof.
  unfold canonicalTimers. cbv zeta. intros H. inv_results H. apply collectTimers_Ok in E as (-> & HF & HN & _).
  assert (Hp : merge_sort timer_le (canonicalDue <$> values) ≡ₚ canonicalDue <$> values) by apply merge_sort_Permutation.
  split_and!; [|done|done]. constructor; [by rewrite Hp|by rewrite Hp|].
  apply StronglySorted_merge_sort; apply _.
Qed.

Lemma canonicalTimers_fixed timers stateVersion :
  TimersOK stateVersion timers -> canonicalTimers timers stateVersion = Ok (timers, earliest 0 timers).
Proof.
  intros [HF HN Hs]. unfold canonicalTimers. rewrite collectTimers_fixed; [|done|done|intros ? _ Hin; inversion Hin].
  cbn [bind_result]. rewrite merge_sort_fixed; [done|apply _..| |done].
  intros x y Hx Hy H1 H2. apply (NoDup_fmap_inj t_TimerID timers); try done. by apply (anti_symm String.le).
Qed.

Lemma earliest_canonical stateVersion timers deadline :
  Forall (TimerOK stateVersion) timers -> canonical deadline -> canonical (earliest deadline timers).
Proof.
  intros HF. revert deadline. induction HF as [|t ts Ht HF IH]; intros d Hd; cbn [earliest]; [done|]. apply IH.
  destruct (_ || _); [apply Ht|done].
Qed.

(** ** Canonical parts of a snapshot *)
Lemma canonicalCancelReason_Ok status reason reason' :
  canonicalCancelReason status reason = Ok reason' ->
  canonicalCancelReason status reason' = Ok reason' /\
  (status = StatusCancelled -> identifierOk reason' = true /\ reason' <> ""%string) /\
  (status <> StatusCancelled -> reason' = ""%string).
Proof.
  unfold canonicalCancelReason. destruct (String.eqb_spec status StatusCancelled) as [->|Hne]; cbn [negb].
  - destruct (String.eqb_spec reason ""); [intros [= <-]; split_and!; try done|].
    destruct (Identifier.ParseIdentifier reason) as [parsed|] eqn:E; [|done]. intros [= <-].
    destruct (Identifier.ParseIdentifier_nonempty _ _ E) as [_ ->]. unfold identifierOk. rewrite E.
    apply eqb_string_false in n as Hn. rewrite Hn. split_and!; try done.
  - intros H. inv_results H. done.
Qed.

Lemma sameGameMessage_eq left right : sameGameMessage left right = true <-> left = right.
Proof.
  unfold sameGameMessage. split.
  - intros H. to_prop. destruct left, right; cbn in *; by subst.
  - intros ->. rewrite String.eqb_refl, Z.eqb_refl, bool_decide_eq_true_2; done.
Qed.

Lemma Digest_eqb_eq left right : Digest_eqb left right = true <-> left = right.
Proof. unfold Digest_eqb. by rewrite bool_decide_eq_true. Qed.

(** The digest of a frozen configuration is that of its version and message. *)
Lemma canonicalFrozenStartConfig_Ok start config key start' :
  canonicalFrozenStartConfig start config key = Ok start' ->
  canonicalFrozenStartConfig start' config key = Ok start' /\ Config start' = config /\
  ConfigDigest start' = startConfigDigest key config /\ Message_Valid config = true /\
  ConfigRevision start' = ConfigRevision start /\ f_RoomVersion start' = f_RoomVersion start /\
  f_MembershipVersion start' = f_MembershipVersion start /\ RoomOwnershipEpoch start' = RoomOwnershipEpoch start.
Proof.
  intros H.
  assert (Hform : start' = mkStart config (startConfigDigest key config) (ConfigRevision start) (f_RoomVersion start)
    (f_MembershipVersion start) (RoomOwnershipEpoch start) /\ Message_Valid config = true /\ VersionKey_Valid key = true /\
    (if (f_RoomVersion start =? 0) && (f_MembershipVersion start =? 0) && (RoomOwnershipEpoch start =? 0)
     then ConfigRevision start =? 0
     else negb ((f_RoomVersion start =? 0) || (f_MembershipVersion start =? 0) || (RoomOwnershipEpoch start =? 0))) = true).
  { unfold canonicalFrozenStartConfig in H. inv_result H. inv_result H. cbv zeta in H. inv_result H.
    rename value0 into mid. apply orb_false_iff in E as [Ek Ev]. apply negb_false_iff in Ek, Ev.
    assert (Hm : mid = mkStart config (startConfigDigest key config) (ConfigRevision start) (f_RoomVersion start)
      (f_MembershipVersion start) (RoomOwnershipEpoch start)).
    { destruct start as [c d r v m e]. cbn in E1 |- *. inv_results E1; [done|]. apply negb_false_iff, Digest_eqb_eq in E2. by subst d. }
    subst mid. cbn [f_RoomVersion f_MembershipVersion RoomOwnershipEpoch ConfigRevision] in H.
    destruct (_ && _) in H |- *; inv_results H; (split_and!; [done..|]); [by apply negb_false_iff|by apply negb_true_iff]. }
  destruct Hform as (-> & Hv & Hk & Hver). split_and!; try done.
  set (frozen := mkStart config _ _ _ _ _).
  assert (H1 : frozen <| Config := config |> = frozen) by reflexivity.
  assert (H2 : frozen <| ConfigDigest := startConfigDigest key config |> = frozen) by reflexivity.
  unfold canonicalFrozenStartConfig. change (Config frozen) with config.
  rewrite Hv, Hk, (proj2 (sameGameMessage_eq config config) eq_refl), H1, H2. cbn [negb orb andb].
  change (ConfigDigest frozen) with (startConfigDigest key config). rewrite (proj2 (Digest_eqb_eq _ _) eq_refl).
  cbn [negb]. assert (Hb : (if Digest_eqb (startConfigDigest key config) zeroDigest then Ok frozen else Ok frozen)
    = Ok (E := RuntimeError) frozen) by by destruct (Digest_eqb _ _). rewrite Hb.
  cbn [bind_result]. change (f_RoomVersion frozen) with (f_RoomVersion start).
  change (f_MembershipVersion frozen) with (f_MembershipVersion start).
  change (RoomOwnershipEpoch frozen) with (RoomOwnershipEpoch start).
  change (ConfigRevision frozen) with (ConfigRevision start).
  destruct (_ && _); [by rewrite Hver|]. apply negb_true_iff in Hver. by rewrite Hver.
Qed.

(** ** Valid sessions *)
Record SessionOK (s : Session) : Prop := mkSessionOK {
  so_header : headerInvalid s = false;
  so_participants : ParticipantsOK (s_Participants s);
  so_timers : TimersOK (StateVersion (s_State s)) (s_Timers s);
  so_deadline : earliest 0 (s_Timers s) = s_NextDeadlineAt s;
  so_end : endInvalid s (s_Timers s) (s_NextDeadlineAt s) = false;
  so_pause : pauseInvalid s = false;
  so_reason : canonicalCancelReason (s_Status s) (s_CancelReason s) = Ok (s_CancelReason s);
  so_start : frozenStartConfigZero (s_Start s) = true \/
    canonicalFrozenStartConfig (s_Start s) (Config (s_Start s)) (s_VersionKey s) = Ok (s_Start s);
  so_times : Forall canonical [s_StartedAt s; s_UpdatedAt s; s_SuspendedAt s; s_EndedAt s; s_NextDeadlineAt s];
}.

Ltac sess := cbn [update s_ID s_RoomID s_VersionKey s_OwnershipEpoch s_Participants s_Start s_State s_Timers s_NextDeadlineAt
  s_Status s_StartedAt s_UpdatedAt s_SuspendedAt s_EndedAt s_CancelReason] in *.

Lemma headerInvalid_perm s participants timers :
  participants ≡ₚ s_Participants s -> length timers = length (s_Timers s) ->
  headerInvalid (s <| s_Participants := participants |> <| s_Timers := timers |>) = headerInvalid s.
Proof.
  intros Hp Ht. destruct s. unfold headerInvalid, len. sess. by rewrite Ht, (Permutation_length Hp).
Qed.

(** [RestoreSession] step by step. *)
Lemma RestoreSession_Ok source s :
  RestoreSession source = Ok s <->
  exists reason start participants timers,
    canonicalCancelReason (s_Status source) (s_CancelReason source) = Ok reason /\
    (if negb (frozenStartConfigZero (s_Start source))
     then canonicalFrozenStartConfig (s_Start source) (Config (s_Start source)) (s_VersionKey source)
     else Ok (s_Start source)) = Ok start /\
    headerInvalid (restoring source reason start) = false /\
    canonicalParticipants (s_Participants source) = Ok participants /\
    canonicalTimers (s_Timers source) (StateVersion (s_State source)) = Ok (timers, canonicalRuntimeTime (s_NextDeadlineAt source)) /\
    endInvalid (restoring source reason start) timers (canonicalRuntimeTime (s_NextDeadlineAt source)) = false /\
    pauseInvalid (restoring source reason start) = false /\
    s = (restoring source reason start) <| s_Participants := participants |> <| s_Timers := timers |>.
Proof.
  unfold RestoreSession. cbv zeta. split.
  - intros H. inv_result H. inv_result H. inv_result H. inv_result H. inv_result H. destruct value3 as [timers deadline].
    inv_result H. inv_result H. inv_result H. inv_result H. apply negb_false_iff, Z.eqb_eq in E4. subst deadline.
    by exists value0, value1, value2, timers.
  - intros (reason & start & parts & timers & H1 & H2 & H3 & H4 & H5 & H6 & H7 & ->).
    rewrite H1. cbn [bind_result]. rewrite H2. cbn [bind_result]. rewrite H3.
    change (s_Participants (restoring source reason start)) with (s_Participants source). rewrite H4. cbn [bind_result].
    change (s_Timers (restoring source reason start)) with (s_Timers source).
    change (s_State (restoring source reason start)) with (s_State source). rewrite H5. cbn [bind_result].
    change (s_NextDeadlineAt (restoring source reason start)) with (canonicalRuntimeTime (s_NextDeadlineAt source)).
    by rewrite Z.eqb_refl, H6, H7.
Qed.

(** What [RestoreSession] returns is a valid session. *)
Lemma RestoreSession_SessionOK source s : RestoreSession source = Ok s -> SessionOK s.
Proof.
  intros (reason & start & parts & timers & H1 & H2 & H3 & H4 & H5 & H6 & H7 & ->)%RestoreSession_Ok.
  apply canonicalRoster_Ok in H4 as [Hparts Hpp]. apply canonicalTimers_Ok in H5 as (Htimers & Hd & Htp).
  constructor; try done.
  - rewrite headerInvalid_perm; [done|done|]. by rewrite (Permutation_length Htp), length_fmap.
  - apply (canonicalCancelReason_Ok _ _ _ H1).
  - destruct (frozenStartConfigZero (s_Start source)) eqn:Ez; cbn [negb] in H2.
    + left. injection H2 as <-. exact Ez.
    + right. destruct (canonicalFrozenStartConfig_Ok _ _ _ _ H2) as (Hc & Hcfg & _).
      change (canonicalFrozenStartConfig start (Config start) (s_VersionKey source) = Ok start). by rewrite Hcfg.
  - repeat constructor; apply canonicalRuntimeTime_canonical.
Qed.

(** A valid session restores to itself. *)
Lemma SessionOK_restores s : SessionOK s -> RestoreSession s = Ok s.
Proof.
  intros [Hh Hp Ht Hd He Hpa Hr Hs Hc]. apply RestoreSession_Ok.
  assert (Hct : restoring s (s_CancelReason s) (s_Start s) = s).
  { repeat (apply Forall_cons in Hc as [? Hc]). unfold restoring. destruct s. sess.
    unfold canonical in *. by repeat match goal with H : canonicalRuntimeTime _ = _ |- _ => rewrite H; clear H end. }
  exists (s_CancelReason s), (s_Start s), (s_Participants s), (s_Timers s). rewrite Hct.
  assert (Hdl : canonicalRuntimeTime (s_NextDeadlineAt s) = s_NextDeadlineAt s).
  { rewrite !Forall_cons in Hc. by destruct Hc as (_ & _ & _ & _ & H & _). }
  rewrite Hdl. split_and!; try done.
  - destruct Hs as [-> | H]; [done|]. rewrite H. by destruct (frozenStartConfigZero (s_Start s)).
  - by apply canonicalParticipants_fixed.
  - rewrite <- Hd. by apply canonicalTimers_fixed.
  - by destruct s.
Qed.

Lemma RestoreSession_idem source s : RestoreSession source = Ok s -> RestoreSession s = Ok s.
Proof. intros H. by eapply SessionOK_restores, RestoreSession_SessionOK. Qed.

End RuntimeFacts.
