(* ===== verification/RuntimeCommit.v ===== *)
(** * Receipts and commits of game sessions

    [platform/game-runtime/action.go], [start.go] and the record of
    [system_inbox.go]: the durable results of actions, timers, system commands
    and starts, and the values that bind a session before and after, its event
    batch, its receipt and its notifications into one atomic write. *)

From S2P Require Import Prelude GoLib Selector GameManifest GameContract Outbox Runtime.

Module RuntimeCommit.
Import GoLib Selector GameManifest GameContract Runtime.

Definition GameSessionCreatedEventType : string := "game.session.created.v1".
Definition GameSessionTransitionedEventType : string := "game.session.transitioned.v1".
Definition GameSessionSuspendedEventType : string := "game.session.suspended.v1".
Definition GameSessionResumedEventType : string := "game.session.resumed.v1".
Definition GameSessionCancelledEventType : string := "game.session.cancelled.v1".
Definition GameSessionAggregateType : string := "game.session".

Definition ResultCodeAccepted : string := "accepted".
Definition ResultCodeNoopTerminal : string := "noop_terminal".
Definition ResultCode_Valid (code : string) : bool := identifierOk code.

(** ** Actions *)
Record ActionKey := mkActionKey { ak_SessionID : UUID; ak_ActorUserID : UUID; ak_ActionID : OperationID }.

Definition ActionKey_Valid (key : ActionKey) : bool :=
  negb (ak_SessionID key =? Nil) && negb (ak_ActorUserID key =? Nil) && OperationID_Valid (ak_ActionID key).

Record ActionReceipt := mkActionReceipt {
  ac_Key : ActionKey;
  ac_RequestDigest : Digest;
  ac_ResultCode : string;
  ac_ResultDigest : Digest;
  ac_StateVersion : Z;
  ac_CommittedAt : Time;
}.
#[global] Instance action_receipt_eta : Eta ActionReceipt := fun r => mkActionReceipt (ac_Key r) (ac_RequestDigest r)
  (ac_ResultCode r) (ac_ResultDigest r) (ac_StateVersion r) (ac_CommittedAt r).

Definition NewActionReceipt (source : ActionReceipt) : res ActionReceipt :=
  let snapshot := source <| ac_CommittedAt := canonicalRuntimeTime (ac_CommittedAt source) |> in
  if negb (ActionKey_Valid (ac_Key snapshot)) || negb (ResultCode_Valid (ac_ResultCode snapshot))
     || (ac_StateVersion snapshot =? 0) || IsZero (ac_CommittedAt snapshot)
  then Err ErrInvalidSessionInput else Ok snapshot.

Definition ActionReceipt_Replay (receipt : ActionReceipt) (requestDigest : Digest) : res ActionReceipt :=
  if negb (Digest_eqb (ac_RequestDigest receipt) requestDigest) then Err ErrConflict else Ok receipt.

(** ** Timers *)
Record TimerKey := mkTimerKey { tk_SessionID : UUID; tk_TimerID : string; tk_ExpectedStateVersion : Z }.

Definition TimerKey_Valid (key : TimerKey) : bool :=
  negb (tk_SessionID key =? Nil) && identifierOk (tk_TimerID key) && (0 <? tk_ExpectedStateVersion key).

Record TimerReceipt := mkTimerReceipt {
  tc_Key : TimerKey;
  tc_ResultCode : string;
  tc_ResultDigest : Digest;
  tc_StateVersion : Z;
  tc_CommittedAt : Time;
}.
#[global] Instance timer_receipt_eta : Eta TimerReceipt := fun r => mkTimerReceipt (tc_Key r) (tc_ResultCode r)
  (tc_ResultDigest r) (tc_StateVersion r) (tc_CommittedAt r).

Definition NewTimerReceipt (source : TimerReceipt) : res TimerReceipt :=
  let snapshot := source <| tc_CommittedAt := canonicalRuntimeTime (tc_CommittedAt source) |> in
  if negb (TimerKey_Valid (tc_Key snapshot)) || negb (ResultCode_Valid (tc_ResultCode snapshot))
     || (tc_StateVersion snapshot =? 0) || IsZero (tc_CommittedAt snapshot)
  then Err ErrInvalidSessionInput else Ok snapshot.

(** ** System commands *)
Record SystemKey := mkSystemKey { sk_SessionID : UUID; sk_OperationID : OperationID; sk_Source : SystemSource }.

Definition SystemKey_Valid (key : SystemKey) : bool :=
  negb (sk_SessionID key =? Nil) && OperationID_Valid (sk_OperationID key) && SystemSource_Valid (sk_Source key).

Record SystemReceipt := mkSystemReceipt {
  sc_Key : SystemKey;
  sc_RequestDigest : Digest;
  sc_ResultCode : string;
  sc_ResultDigest : Digest;
  sc_StateVersion : Z;
  sc_CommittedAt : Time;
}.
#[global] Instance system_receipt_eta : Eta SystemReceipt := fun r => mkSystemReceipt (sc_Key r) (sc_RequestDigest r)
  (sc_ResultCode r) (sc_ResultDigest r) (sc_StateVersion r) (sc_CommittedAt r).

Definition NewSystemReceipt (source : SystemReceipt) : res SystemReceipt :=
  let snapshot := source <| sc_CommittedAt := canonicalRuntimeTime (sc_CommittedAt source) |> in
  if negb (SystemKey_Valid (sc_Key snapshot)) || negb (ResultCode_Valid (sc_ResultCode snapshot))
     || (sc_StateVersion snapshot =? 0) || IsZero (sc_CommittedAt snapshot)
  then Err ErrInvalidSessionInput else Ok snapshot.

Definition SystemReceipt_Replay (receipt : SystemReceipt) (requestDigest : Digest) : res SystemReceipt :=
  if negb (Digest_eqb (sc_RequestDigest receipt) requestDigest) then Err ErrConflict else Ok receipt.

(** ** Starts *)
Record StartKey := mkStartKey { stk_ActorUserID : UUID; stk_RoomID : UUID; stk_OperationID : OperationID }.

Definition StartKey_Valid (key : StartKey) : bool :=
  negb (stk_ActorUserID key =? Nil) && negb (stk_RoomID key =? Nil) && OperationID_Valid (stk_OperationID key).

Record PendingStartProof := mkProof { PendingStartID : UUID; CancelToken : string }.

Definition PendingStartProof_Valid (proof : PendingStartProof) : bool :=
  negb (PendingStartID proof =? Nil) && negb (String.eqb (CancelToken proof) "").

Record StartReceipt := mkStartReceipt {
  stc_Key : StartKey;
  stc_RequestDigest : Digest;
  stc_SessionID : UUID;
  stc_CommittedAt : Time;
}.
#[global] Instance start_receipt_eta : Eta StartReceipt :=
  fun r => mkStartReceipt (stc_Key r) (stc_RequestDigest r) (stc_SessionID r) (stc_CommittedAt r).

(** The location of an instant is UTC (see [GoLib]). *)
Definition StartReceipt_Valid (snapshot : StartReceipt) : bool :=
  StartKey_Valid (stc_Key snapshot) && negb (stc_SessionID snapshot =? Nil) && negb (IsZero (stc_CommittedAt snapshot)).

Definition NewStartReceipt (source : StartReceipt) : res StartReceipt :=
  let snapshot := source <| stc_CommittedAt := RoundUTC (stc_CommittedAt source) |> in
  if negb (StartReceipt_Valid snapshot) then Err ErrInvalidSessionInput else Ok snapshot.

Definition StartReceipt_Replay (receipt : StartReceipt) (requestDigest : Digest) : res StartReceipt :=
  if negb (StartReceipt_Valid receipt) then Err ErrInvalidSessionInput
  else if negb (Digest_eqb (stc_RequestDigest receipt) requestDigest) then Err ErrConflict
  else Ok receipt.

(** ** Comparisons of two snapshots *)
Definition sameSessionIdentity (left right : SessionSnapshot) : bool :=
  if negb (s_ID left =? s_ID right) || negb (s_RoomID left =? s_RoomID right)
     || negb (bool_decide (s_VersionKey left = s_VersionKey right))
     || negb (s_StartedAt left =? s_StartedAt right) || negb (sameFrozenStartConfig (s_Start left) (s_Start right))
     || negb (len (s_Participants left) =? len (s_Participants right))
  then false
  else bool_decide (s_Participants left = s_Participants right).

Definition participantSnapshotContains (participants : list Participant) (userID : UUID) : bool :=
  existsb (fun participant => p_UserID participant =? userID) participants.

Definition sessionSnapshotContainsTimer (snapshot : SessionSnapshot) (key : TimerKey) : bool :=
  existsb (fun timer => String.eqb (t_TimerID timer) (tk_TimerID key)
                        && (t_ExpectedStateVersion timer =? tk_ExpectedStateVersion key)) (s_Timers snapshot).

Definition sameSnapshotState (left right : GameSnapshot) : bool :=
  (SnapshotVersion left =? SnapshotVersion right) && (StateVersion left =? StateVersion right)
  && String.eqb (MessageType (State left)) (MessageType (State right))
  && (SchemaVersion (State left) =? SchemaVersion (State right))
  && bool_decide (Payload (State left) = Payload (State right)).

Definition resumeSnapshotStateShape (before after : GameSnapshot) : bool :=
  (SnapshotVersion before =? SnapshotVersion after) && (StateVersion before =? StateVersion after)
  && String.eqb (MessageType (State before)) (MessageType (State after))
  && (SchemaVersion (State before) =? SchemaVersion (State after)) && Message_Valid (State after).

(** The notifications of one commit: new, of one type, about the session, at
    the time of the commit. *)
Definition outboxMatches (eventType : string) (sessionID : UUID) (at_ : Time) (event : Outbox.Event) : bool :=
  (Outbox.e_Sequence event =? 0) && String.eqb (Outbox.e_Type event) eventType
  && String.eqb (Outbox.e_AggregateType event) GameSessionAggregateType
  && (Outbox.e_AggregateID event =? sessionID) && (Outbox.e_CreatedAt event =? at_).

Definition validRuntimeTransition (before after : SessionSnapshot) (batch : EventBatchSnapshot) (cause : string) : bool :=
  sameSessionIdentity before after && String.eqb (s_Status before) StatusActive
  && (String.eqb (s_Status after) StatusActive || String.eqb (s_Status after) StatusFinished)
  && (0 <? s_OwnershipEpoch before) && (s_OwnershipEpoch after =? s_OwnershipEpoch before)
  && negb (StateVersion (s_State before) =? maxUint64)
  && (StateVersion (s_State after) =? u64 (StateVersion (s_State before) + 1))
  && (b_SessionID batch =? s_ID after) && (b_StateVersion batch =? StateVersion (s_State after))
  && (b_OwnershipEpoch batch =? s_OwnershipEpoch after) && String.eqb (b_Cause batch) cause
  && (b_ActorUserID batch =? Nil) && negb (OperationID_Valid (b_ActionID batch))
  && (s_UpdatedAt after =? b_CommittedAt batch) && negb (Before (s_UpdatedAt after) (s_UpdatedAt before)).

Definition validTransitionOutbox (after : SessionSnapshot) (batch : EventBatchSnapshot) (events : list Outbox.Event) : bool :=
  if len events =? 0 then false
  else forallb (outboxMatches GameSessionTransitionedEventType (s_ID after) (b_CommittedAt batch)) events.

(** ** Commits *)
Record CreationCommit := mkCreationCommit {
  cc_Session : Session;
  cc_Batch : EventBatch;
  cc_OutboxEvents : list Outbox.Event;
  cc_PendingStartProof : option PendingStartProof;
}.

Definition CreationCommit_Valid (commit : CreationCommit) : bool :=
  let session := cc_Session commit in
  let batch := cc_Batch commit in
  if match cc_PendingStartProof commit with Some proof => negb (PendingStartProof_Valid proof) | None => false end
  then false
  else if (s_ID session =? Nil) || negb (StateVersion (s_State session) =? 1) || negb (s_OwnershipEpoch session =? 0)
     || (negb (String.eqb (s_Status session) StatusActive) && negb (String.eqb (s_Status session) StatusFinished))
     || (b_ID batch =? Nil) || negb (b_SessionID batch =? s_ID session) || negb (b_StateVersion batch =? 1)
     || negb (String.eqb (b_Cause batch) EventCauseCreated) || negb (b_OwnershipEpoch batch =? 0)
     || negb (b_CommittedAt batch =? s_StartedAt session) || (len (cc_OutboxEvents commit) =? 0)
  then false
  else forallb (outboxMatches GameSessionCreatedEventType (s_ID session) (b_CommittedAt batch)) (cc_OutboxEvents commit).

(** A commit of an action, a timer or a system command: the receipt is of type [R]. *)
Record MoveCommit (R : Type) := mkCommit {
  before : Session;
  after : Session;
  batch : EventBatch;
  receipt : R;
  outboxEvents : list Outbox.Event;
}.
Arguments mkCommit {R} _ _ _ _ _.
Arguments before {R} _.
Arguments after {R} _.
Arguments batch {R} _.
Arguments receipt {R} _.
Arguments outboxEvents {R} _.

Definition ActionCommit : Type := MoveCommit ActionReceipt.
Definition TimerCommit : Type := MoveCommit TimerReceipt.
Definition SystemCommit : Type := MoveCommit SystemReceipt.

Definition NewActionCommit (b a : Session) (bt : EventBatch) (rc : ActionReceipt) (events : list Outbox.Event)
  : res ActionCommit :=
  if negb (sameSessionIdentity b a) || negb (String.eqb (s_Status b) StatusActive)
     || (negb (String.eqb (s_Status a) StatusActive) && negb (String.eqb (s_Status a) StatusFinished))
     || (s_OwnershipEpoch b =? 0) || negb (s_OwnershipEpoch a =? s_OwnershipEpoch b)
     || (StateVersion (s_State b) =? maxUint64)
     || negb (StateVersion (s_State a) =? u64 (StateVersion (s_State b) + 1))
     || negb (b_SessionID bt =? s_ID a) || negb (b_StateVersion bt =? StateVersion (s_State a))
     || negb (b_OwnershipEpoch bt =? s_OwnershipEpoch a) || negb (String.eqb (b_Cause bt) EventCauseAction)
     || negb (participantSnapshotContains (s_Participants b) (b_ActorUserID bt))
     || negb (ak_SessionID (ac_Key rc) =? s_ID a) || negb (ak_ActorUserID (ac_Key rc) =? b_ActorUserID bt)
     || negb (String.eqb (Value (ak_ActionID (ac_Key rc))) (Value (b_ActionID bt)))
     || negb (ac_StateVersion rc =? StateVersion (s_State a))
     || negb (ac_CommittedAt rc =? b_CommittedAt bt) || negb (s_UpdatedAt a =? b_CommittedAt bt)
     || Before (s_UpdatedAt a) (s_UpdatedAt b) || (len events =? 0)
  then Err ErrInvalidActionCommit
  else if negb (forallb (outboxMatches GameSessionTransitionedEventType (s_ID a) (b_CommittedAt bt)) events)
  then Err ErrInvalidActionCommit
  else Ok (mkCommit b a bt rc events).

Definition ActionCommit_Valid (commit : ActionCommit) : bool :=
  is_ok (NewActionCommit (before commit) (after commit) (batch commit) (receipt commit) (outboxEvents commit)).

Definition NewTimerCommit (b a : Session) (bt : EventBatch) (rc : TimerReceipt) (events : list Outbox.Event)
  : res TimerCommit :=
  if negb (validRuntimeTransition b a bt EventCauseTimer) || negb (tk_SessionID (tc_Key rc) =? s_ID a)
     || negb (String.eqb (tk_TimerID (tc_Key rc)) (b_TimerID bt))
     || negb (tk_ExpectedStateVersion (tc_Key rc) =? StateVersion (s_State b))
     || negb (tc_StateVersion rc =? StateVersion (s_State a)) || negb (tc_CommittedAt rc =? b_CommittedAt bt)
     || negb (sessionSnapshotContainsTimer b (tc_Key rc)) || negb (validTransitionOutbox a bt events)
  then Err ErrInvalidTimerCommit
  else Ok (mkCommit b a bt rc events).

Definition TimerCommit_Valid (commit : TimerCommit) : bool :=
  is_ok (NewTimerCommit (before commit) (after commit) (batch commit) (receipt commit) (outboxEvents commit)).

Definition NewSystemCommit (b a : Session) (bt : EventBatch) (rc : SystemReceipt) (events : list Outbox.Event)
  : res SystemCommit :=
  if negb (validRuntimeTransition b a bt EventCauseSystem) || negb (sk_SessionID (sc_Key rc) =? s_ID a)
     || negb (String.eqb (Value (sk_OperationID (sc_Key rc))) (Value (b_SystemOperationID bt)))
     || negb (bool_decide (sk_Source (sc_Key rc) = b_SystemSource bt))
     || negb (Digest_eqb (sc_RequestDigest rc) (b_RequestDigest bt))
     || negb (sc_StateVersion rc =? StateVersion (s_State a)) || negb (sc_CommittedAt rc =? b_CommittedAt bt)
     || negb (validTransitionOutbox a bt events)
  then Err ErrInvalidSystemCommit
  else Ok (mkCommit b a bt rc events).

Definition SystemCommit_Valid (commit : SystemCommit) : bool :=
  is_ok (NewSystemCommit (before commit) (after commit) (batch commit) (receipt commit) (outboxEvents commit)).

(** ** Lifecycle commits *)
Fixpoint sameShift (pausedFor : Z) (left right : list TimerSnapshot) : bool :=
  match left, right with
  | [], _ => true
  | l :: left', r :: right' =>
      String.eqb (t_TimerID l) (t_TimerID r) && (t_ExpectedStateVersion l =? t_ExpectedStateVersion r)
      && String.eqb (MessageType (t_Message l)) (MessageType (t_Message r))
      && (SchemaVersion (t_Message l) =? SchemaVersion (t_Message r)) && Message_Valid (t_Message r)
      && (t_DueAt l + pausedFor =? t_DueAt r) && sameShift pausedFor left' right'
  | _ :: _, [] => false
  end.

Definition validResumeTimerShift (b a : SessionSnapshot) : bool :=
  if IsZero (s_SuspendedAt b) || negb (After (s_UpdatedAt a) (s_SuspendedAt b))
     || negb (len (s_Timers b) =? len (s_Timers a))
  then false
  else
    let pausedFor := Sub (s_UpdatedAt a) (s_SuspendedAt b) in
    if negb (sameShift pausedFor (s_Timers b) (s_Timers a)) then false
    else if IsZero (s_NextDeadlineAt b) || IsZero (s_NextDeadlineAt a)
    then IsZero (s_NextDeadlineAt b) && IsZero (s_NextDeadlineAt a)
    else s_NextDeadlineAt b + pausedFor =? s_NextDeadlineAt a.

Record LifecycleCommit := mkLifecycleCommit {
  lc_before : Session;
  lc_after : Session;
  lc_outboxEvents : list Outbox.Event;
}.

(** The notification a lifecycle change must carry, whether its status change is
    one of the three, and whether the state is preserved as that one requires. *)
Definition lifecycleShape (b a : SessionSnapshot) : string * bool * bool :=
  if String.eqb (s_Status a) StatusCancelled then
    (GameSessionCancelledEventType,
     (String.eqb (s_Status b) StatusActive || String.eqb (s_Status b) StatusSuspended)
     && (len (s_Timers a) =? 0) && IsZero (s_NextDeadlineAt a) && negb (IsZero (s_EndedAt a))
     && (s_EndedAt a =? s_UpdatedAt a) && negb (String.eqb (s_CancelReason a) ""),
     sameSnapshotState (s_State b) (s_State a))
  else if String.eqb (s_Status b) StatusSuspended && String.eqb (s_Status a) StatusActive then
    (GameSessionResumedEventType,
     validResumeTimerShift b a && IsZero (s_EndedAt a) && IsZero (s_SuspendedAt a) && String.eqb (s_CancelReason a) "",
     resumeSnapshotStateShape (s_State b) (s_State a))
  else
    (GameSessionSuspendedEventType,
     String.eqb (s_Status b) StatusActive && String.eqb (s_Status a) StatusSuspended
     && bool_decide (s_Timers b = s_Timers a) && (s_NextDeadlineAt b =? s_NextDeadlineAt a)
     && IsZero (s_EndedAt a) && (s_SuspendedAt a =? s_UpdatedAt a),
     sameSnapshotState (s_State b) (s_State a)).

Definition NewLifecycleCommit (b a : Session) (events : list Outbox.Event) : res LifecycleCommit :=
  let '(expectedEventType, validStatus, stateUnchanged) := lifecycleShape b a in
  if negb validStatus || negb (sameSessionIdentity b a) || (s_OwnershipEpoch b =? 0)
     || negb (s_OwnershipEpoch b =? s_OwnershipEpoch a) || negb stateUnchanged
     || negb (After (s_UpdatedAt a) (s_UpdatedAt b)) || (len events =? 0)
  then Err ErrInvalidLifecycleCommit
  else if negb (forallb (outboxMatches expectedEventType (s_ID a) (s_UpdatedAt a)) events)
  then Err ErrInvalidLifecycleCommit
  else Ok (mkLifecycleCommit b a events).

Definition LifecycleCommit_Valid (commit : LifecycleCommit) : bool :=
  is_ok (NewLifecycleCommit (lc_before commit) (lc_after commit) (lc_outboxEvents commit)).

(** ** The record of a room fact a session must take in *)
Definition ParticipantRevokedEventType : string := "room.participant.revoked.v1".
Definition SystemInboxPending : string := "pending".
Definition SystemInboxCompleted : string := "completed".

Record SystemInboxKey := mkInboxKey { ik_SessionID : UUID; ik_SourceEventID : UUID }.
Definition SystemInboxKey_Valid (key : SystemInboxKey) : bool :=
  negb (ik_SessionID key =? Nil) && negb (ik_SourceEventID key =? Nil).

Record SystemInboxRecord := mkInboxRecord {
  ib_Key : SystemInboxKey;
  ib_EventType : string;
  ib_PayloadDigest : Digest;
  ib_Status : string;
  ib_CommittedStateVersion : Z;
  ib_CreatedAt : Time;
  ib_CompletedAt : Time;
}.
#[global] Instance inbox_eta : Eta SystemInboxRecord := fun r => mkInboxRecord (ib_Key r) (ib_EventType r)
  (ib_PayloadDigest r) (ib_Status r) (ib_CommittedStateVersion r) (ib_CreatedAt r) (ib_CompletedAt r).

Definition RestoreSystemInboxRecord (source : SystemInboxRecord) : res SystemInboxRecord :=
  let snapshot := source <| ib_CreatedAt := canonicalRuntimeTime (ib_CreatedAt source) |>
                         <| ib_CompletedAt := canonicalRuntimeTime (ib_CompletedAt source) |> in
  if negb (SystemInboxKey_Valid (ib_Key snapshot)) || negb (String.eqb (ib_EventType snapshot) ParticipantRevokedEventType)
     || Digest_eqb (ib_PayloadDigest snapshot) zeroDigest || IsZero (ib_CreatedAt snapshot)
  then Err ErrInvalidSessionInput
  else if String.eqb (ib_Status snapshot) SystemInboxPending then
    if negb (ib_CommittedStateVersion snapshot =? 0) || negb (IsZero (ib_CompletedAt snapshot))
    then Err ErrInvalidSessionInput else Ok snapshot
  else if String.eqb (ib_Status snapshot) SystemInboxCompleted then
    if (ib_CommittedStateVersion snapshot =? 0) || Before (ib_CompletedAt snapshot) (ib_CreatedAt snapshot)
    then Err ErrInvalidSessionInput else Ok snapshot
  else Err ErrInvalidSessionInput.

End RuntimeCommit.
