(* ===== verification/RuntimeMoves.v ===== *)
(** * Moves of a game session

    What an accepted action, timer or system command does to a session, and
    that a valid result of the engine is always accepted. *)

From S2P Require Import Prelude GoLib Selector GameManifest GameContract Runtime RuntimeFacts.

Module RuntimeMoves.
Import GoLib Selector GameManifest GameContract Runtime RuntimeFacts.

(** ** Restored sessions field by field *)
Record Restored (src a : Session) : Prop := mkRestored {
  rs_ok : SessionOK a;
  rs_id : s_ID a = s_ID src;
  rs_room : s_RoomID a = s_RoomID src;
  rs_key : s_VersionKey a = s_VersionKey src;
  rs_epoch : s_OwnershipEpoch a = s_OwnershipEpoch src;
  rs_state : s_State a = s_State src;
  rs_status : s_Status a = s_Status src;
  rs_started : s_StartedAt a = canonicalRuntimeTime (s_StartedAt src);
  rs_updated : s_UpdatedAt a = canonicalRuntimeTime (s_UpdatedAt src);
  rs_suspended : s_SuspendedAt a = canonicalRuntimeTime (s_SuspendedAt src);
  rs_ended : s_EndedAt a = canonicalRuntimeTime (s_EndedAt src);
  rs_participants : canonicalParticipants (s_Participants src) = Ok (s_Participants a);
  rs_timers : canonicalTimers (s_Timers src) (StateVersion (s_State src)) = Ok (s_Timers a, s_NextDeadlineAt a);
  rs_reason : canonicalCancelReason (s_Status src) (s_CancelReason src) = Ok (s_CancelReason a);
  rs_start : (if negb (frozenStartConfigZero (s_Start src))
     then canonicalFrozenStartConfig (s_Start src) (Config (s_Start src)) (s_VersionKey src)
     else Ok (s_Start src)) = Ok (s_Start a);
}.

Lemma RestoreSession_Restored src a : RestoreSession src = Ok a -> Restored src a.
Proof.
  intros H. pose proof (RestoreSession_SessionOK _ _ H) as Hok.
  apply RestoreSession_Ok in H as (reason & start & parts & timers & H1 & H2 & H3 & H4 & H5 & H6 & H7 & ->).
  by constructor.
Qed.

(** The parts a command does not touch stay as they are. *)
Definition SameIdentity (b a : Session) : Prop :=
  s_ID a = s_ID b /\ s_RoomID a = s_RoomID b /\ s_VersionKey a = s_VersionKey b /\
  s_Participants a = s_Participants b /\ s_Start a = s_Start b /\ s_StartedAt a = s_StartedAt b.

Lemma Restored_identity b src a :
  SessionOK b -> Restored src a ->
  s_ID src = s_ID b -> s_RoomID src = s_RoomID b -> s_VersionKey src = s_VersionKey b ->
  s_Participants src = s_Participants b -> s_Start src = s_Start b -> s_StartedAt src = s_StartedAt b ->
  SameIdentity b a.
Proof.
  intros Hb Hr H1 H2 H3 H4 H5 H6. pose proof (rs_participants _ _ Hr) as Hp. pose proof (rs_start _ _ Hr) as Hs.
  rewrite H4, (canonicalParticipants_fixed _ (so_participants _ Hb)) in Hp. injection Hp as Hp.
  rewrite H5, H3 in Hs.
  assert (Hs' : s_Start a = s_Start b).
  { destruct (so_start _ Hb) as [Hz|Hz]; [rewrite Hz in Hs; by injection Hs|].
    rewrite Hz in Hs. destruct (negb _); by injection Hs. }
  pose proof (so_times _ Hb) as Ht. rewrite Forall_cons in Ht. destruct Ht as [Ht _].
  repeat split; try done.
  - by rewrite (rs_id _ _ Hr).
  - by rewrite (rs_room _ _ Hr).
  - by rewrite (rs_key _ _ Hr).
  - rewrite (rs_started _ _ Hr), H6. exact Ht.
Qed.

(** ** The width of the counters *)
Record SessionInv (s : Session) : Prop := mkSessionInv {
  si_ok : SessionOK s;
  si_version : is_u64 (StateVersion (s_State s));
  si_epoch : is_u64 (s_OwnershipEpoch s);
}.

(** ** Moves *)
Record Moved (b a : Session) (bt : EventBatch) : Prop := mkMoved {
  mv_inv : SessionInv a;
  mv_identity : SameIdentity b a;
  mv_active : s_Status b = StatusActive;
  mv_status : s_Status a = StatusActive \/ s_Status a = StatusFinished;
  mv_epoch : s_OwnershipEpoch a = s_OwnershipEpoch b /\ s_OwnershipEpoch b <> 0;
  mv_version : StateVersion (s_State a) = StateVersion (s_State b) + 1;
  mv_time : s_UpdatedAt b <= s_UpdatedAt a;
  mv_batch : RestoreEventBatch bt = Ok bt;
  mv_recorded : b_SessionID bt = s_ID b /\ b_StateVersion bt = StateVersion (s_State a) /\
    b_OwnershipEpoch bt = s_OwnershipEpoch b /\ b_CommittedAt bt = s_UpdatedAt a;
}.

(** ** Restored batches *)
Lemma canonicalBatch_idem source : canonicalBatch (canonicalBatch source) = canonicalBatch source.
Proof. unfold canonicalBatch, Context_Clone, RoundUTC. cbn. by rewrite !canonicalRuntimeTime_idem. Qed.

Lemma RestoreEventBatch_Ok source bt :
  RestoreEventBatch source = Ok bt -> bt = canonicalBatch source /\ RestoreEventBatch bt = Ok bt.
Proof.
  intros H. assert (Hn : bt = canonicalBatch source) by (unfold RestoreEventBatch in H; by inv_results H).
  split; [done|]. subst bt. unfold RestoreEventBatch in *. by rewrite canonicalBatch_idem.
Qed.

(** ** Timers of a transition *)
Lemma timersFromIntents_Ok intents v timers deadline :
  timersFromIntents intents v = Ok (timers, deadline) ->
  TimersOK v timers /\ deadline = earliest 0 timers /\ length timers = length intents.
Proof.
  intros H. apply canonicalTimers_Ok in H as (Ht & Hd & Hp). split_and!; [done|done|].
  by rewrite (Permutation_length Hp), !length_fmap.
Qed.

(** Intents due at or after a positive time become timers. *)
Lemma timersFromIntents_accepts intents v executedAt :
  0 < executedAt -> canonicalRuntimeTime executedAt <> 0 -> validIntents executedAt [] intents = true ->
  exists timers, timersFromIntents intents v = Ok (timers, earliest 0 timers).
Proof.
  intros Hpos Hex Hv. apply validIntents_spec in Hv as (HF & HN & _).
  unfold timersFromIntents, canonicalTimers.
  set (mk := fun intent => mkTimer (ti_TimerID intent) v (ti_DueAt intent) (ti_Message intent)).
  assert (Hc : forall seen, (forall i, i ∈ intents -> ti_TimerID i ∉ seen) ->
            collectTimers v seen (mk <$> intents) = Ok (canonicalDue <$> (mk <$> intents))).
  { clear -HF HN Hpos Hex. induction intents as [|i intents IH]; intros seen Hs; [done|].
    apply Forall_cons in HF as [Hi HF]. rewrite fmap_cons, NoDup_cons in HN. destruct HN as [Hnew HN].
    unfold TimerIntent_Valid, Before in Hi. to_prop. cbn [fmap list_fmap collectTimers]. cbv zeta. fold (canonicalDue (mk i)).
    assert (Hz : IsZero (t_DueAt (canonicalDue (mk i))) = false).
    { apply Z.eqb_neq. cbn. assert (canonicalRuntimeTime executedAt <= canonicalRuntimeTime (ti_DueAt i)); [|].
      { apply canonicalRuntimeTime_mono; [done|pose proof (canonicalRuntimeTime_le executedAt); lia|lia]. }
      assert (0 <= canonicalRuntimeTime executedAt) by (apply (canonicalRuntimeTime_mono 0); [done|lia|lia]). lia. }
    change (t_TimerID (canonicalDue (mk i))) with (ti_TimerID i).
    change (t_ExpectedStateVersion (canonicalDue (mk i))) with v.
    change (t_Message (canonicalDue (mk i))) with (ti_Message i).
    rewrite Hz, Z.eqb_refl. repeat match goal with H : ?x = true |- _ => rewrite H; clear H end. cbn [negb orb].
    rewrite bool_decide_eq_false_2 by (apply Hs; constructor). change (list_fmap TimerIntent TimerSnapshot mk intents) with (mk <$> intents).
    rewrite IH; [done|done|done|]. intros j Hj [Heq|Hin]%elem_of_cons.
    - apply Hnew. rewrite <- Heq. by apply list_elem_of_fmap_2.
    - apply (Hs j); [by constructor|done]. }
  rewrite Hc by (intros ? _ Hin; inversion Hin). cbn [bind_result]. by eexists.
Qed.

(** ** The fields of valid sessions *)
Lemma SessionOK_header s : SessionOK s ->
  s_ID s <> Nil /\ s_RoomID s <> Nil /\ VersionKey_Valid (s_VersionKey s) = true /\ Snapshot_Valid (s_State s) = true /\
  Status_Valid (s_Status s) = true /\ s_StartedAt s <> 0 /\ s_StartedAt s <= s_UpdatedAt s /\
  1 <= len (s_Participants s) <= MaximumParticipants /\ len (s_Timers s) <= MaximumTransitionTimers.
Proof.
  intros H. pose proof (so_header _ H) as Hh. unfold headerInvalid, IsZero, Before, len in *. to_prop.
  unfold len. split_and!; try done; lia.
Qed.

Lemma SessionOK_open s : SessionOK s -> Terminal (s_Status s) = false -> s_EndedAt s = 0 /\ s_CancelReason s = ""%string.
Proof.
  intros H Ht. pose proof (so_end _ H) as He. unfold endInvalid, IsZero in He. rewrite Ht in He. by to_prop.
Qed.

Lemma SessionOK_running s : SessionOK s -> s_Status s <> StatusSuspended -> s_SuspendedAt s = 0.
Proof.
  intros H Hs. pose proof (so_pause _ H) as Hp. unfold pauseInvalid in Hp. apply eqb_string_false in Hs. rewrite Hs in Hp.
  unfold IsZero in Hp. by to_prop.
Qed.

Lemma SessionOK_canonical s : SessionOK s ->
  canonical (s_StartedAt s) /\ canonical (s_UpdatedAt s) /\ canonical (s_SuspendedAt s) /\ canonical (s_EndedAt s) /\
  canonical (s_NextDeadlineAt s).
Proof. intros H. pose proof (so_times _ H) as Ht. rewrite !Forall_cons in Ht. by destruct Ht as (? & ? & ? & ? & ? & _). Qed.

Lemma Context_Valid_Now execution : Context_Valid execution = true -> Now execution <> 0.
Proof. unfold Context_Valid, IsZero. destruct (Z.eqb_spec (Now execution) 0) as [|Hne]; [done|]. by intros _. Qed.

(** The fields of the next snapshot of a move. *)
Lemma movedSnapshot_fields b execution transition timers deadline :
  let src := movedSnapshot b execution transition timers deadline in
  s_ID src = s_ID b /\ s_RoomID src = s_RoomID b /\ s_VersionKey src = s_VersionKey b /\
  s_OwnershipEpoch src = s_OwnershipEpoch b /\ s_Participants src = s_Participants b /\ s_Start src = s_Start b /\
  s_StartedAt src = s_StartedAt b /\ s_SuspendedAt src = s_SuspendedAt b /\ s_CancelReason src = s_CancelReason b /\
  s_State src = tn_Snapshot transition /\ s_Timers src = timers /\ s_NextDeadlineAt src = deadline /\
  s_UpdatedAt src = Now execution /\
  s_Status src = (if tn_Finished transition then StatusFinished else s_Status b) /\
  s_EndedAt src = (if tn_Finished transition then Now execution else s_EndedAt b).
Proof. unfold movedSnapshot. destruct (tn_Finished transition); by repeat split. Qed.

(** ** One move *)
Section Move.
Context (b : Session) (Hb : SessionInv b) (Hactive : s_Status b = StatusActive).
Context (execution : DeterministicContext) (Hexec : Context_Valid execution = true).
Context (Hnow : s_UpdatedAt b <= Now execution).
Context (transition : Transition) (Hvalid : Transition_Validate transition (StateVersion (s_State b)) (Now execution) = Ok tt).

Let nextVersion := StateVersion (s_State b) + 1.

Lemma move_version : u64 (StateVersion (s_State b) + 1) = nextVersion /\ is_u64 nextVersion /\
  StateVersion (tn_Snapshot transition) = nextVersion.
Proof.
  pose proof (si_version _ Hb) as Hv. destruct (Transition_Validate_Ok _ _ _ Hv Hvalid) as (Hlt & _ & Heq & _).
  unfold nextVersion, is_u64, maxUint64 in *. split_and!; [unfold u64; rewrite Z.mod_small; lia|lia..].
Qed.

Lemma move_time : s_UpdatedAt b <= canonicalRuntimeTime (Now execution).
Proof.
  apply canonicalRuntimeTime_mono; [|done|by apply Context_Valid_Now].
  by apply (SessionOK_canonical _ (si_ok _ Hb)).
Qed.

Lemma move_result timers deadline a :
  RestoreSession (movedSnapshot b execution transition timers deadline) = Ok a ->
  SessionInv a /\ SameIdentity b a /\ (s_Status a = StatusActive \/ s_Status a = StatusFinished) /\
  s_OwnershipEpoch a = s_OwnershipEpoch b /\ StateVersion (s_State a) = nextVersion /\
  s_UpdatedAt a = canonicalRuntimeTime (Now execution) /\ s_State a = tn_Snapshot transition.
Proof.
  intros Hr%RestoreSession_Restored.
  destruct (movedSnapshot_fields b execution transition timers deadline)
    as (H1 & H2 & H3 & H4 & H5 & H6 & H7 & H8 & H9 & H10 & H11 & H12 & H13 & H14 & H15).
  destruct move_version as (_ & Hw & Hver). pose proof (rs_state _ _ Hr) as Hst. rewrite H10 in Hst.
  split_and!.
  - constructor; [by apply (rs_ok _ _ Hr)|rewrite Hst, Hver; done|rewrite (rs_epoch _ _ Hr), H4; apply (si_epoch _ Hb)].
  - by apply (Restored_identity b _ a (si_ok _ Hb) Hr).
  - rewrite (rs_status _ _ Hr), H14. destruct (tn_Finished transition); auto.
  - by rewrite (rs_epoch _ _ Hr).
  - by rewrite Hst.
  - by rewrite (rs_updated _ _ Hr), H13.
  - done.
Qed.

(** A valid result of the engine on a session that started at a positive time is
    always accepted. *)
Lemma move_accepted :
  0 < s_StartedAt b -> finishedWithTimers transition = false ->
  exists timers deadline a, timersFromIntents (tn_Timers transition) (u64 (StateVersion (s_State b) + 1)) = Ok (timers, deadline) /\
    RestoreSession (movedSnapshot b execution transition timers deadline) = Ok a.
Proof.
  intros Hpos Hfin. pose proof (si_ok _ Hb) as Hok. destruct move_version as (Hu & Hw & Hver).
  destruct (SessionOK_header _ Hok) as (Hid & Hroom & Hkey & _ & _ & Hst0 & Hst & Hlen & _).
  destruct (Transition_Validate_Ok _ _ _ (si_version _ Hb) Hvalid) as (_ & Hsnap & _ & _ & _ & Htl & _ & Hint).
  assert (Hterm : Terminal (s_Status b) = false) by by rewrite Hactive.
  destruct (SessionOK_open _ Hok Hterm) as [Hend Hreason].
  assert (Hsus : s_SuspendedAt b = 0) by (apply (SessionOK_running _ Hok); by rewrite Hactive).
  pose proof move_time as Hmt. rewrite Hu.
  destruct (timersFromIntents_accepts (tn_Timers transition) nextVersion (Now execution)) as [timers Htimers]; [lia|lia|done|].
  exists timers, (earliest 0 timers).
  destruct (movedSnapshot_fields b execution transition timers (earliest 0 timers))
    as (H1 & H2 & H3 & H4 & H5 & H6 & H7 & H8 & H9 & H10 & H11 & H12 & H13 & H14 & H15).
  destruct (timersFromIntents_Ok _ _ _ _ Htimers) as (Hto & _ & Htlen).
  destruct (SessionOK_canonical _ Hok) as (Hc1 & _).
  set (src := movedSnapshot b execution transition timers (earliest 0 timers)) in *.
  assert (Hdl : canonicalRuntimeTime (earliest 0 timers) = earliest 0 timers).
  { apply (earliest_canonical _ _ _ (to_each _ _ Hto)). done. }
  eexists. split; [exact Htimers|]. apply RestoreSession_Ok.
  exists ""%string, (s_Start b), (s_Participants b), timers.
  rewrite H3, H5, H6, H9, H10, H11, H12, H14, Hver, Hreason, Hdl, Hactive. split_and!.
  - by destruct (tn_Finished transition).
  - destruct (so_start _ Hok) as [-> | ->]; [done|]. by destruct (negb _).
  - unfold headerInvalid, restoring, IsZero, Before.
    cbn [s_ID s_RoomID s_VersionKey s_State s_Status s_StartedAt s_UpdatedAt s_Participants s_Timers].
    rewrite H1, H2, H3, H5, H7, H10, H11, H13, H14, Hkey, Hsnap, Hc1, Hactive.
    unfold len in *. rewrite Htlen.
    rewrite !(proj2 (Z.eqb_neq _ _)) by (done || lia). rewrite !(proj2 (Z.ltb_ge _ _)) by lia.
    by destruct (tn_Finished transition).
  - by apply canonicalParticipants_fixed, (so_participants _ Hok).
  - by apply canonicalTimers_fixed.
  - unfold endInvalid, restoring, IsZero. cbn [s_Status s_EndedAt s_UpdatedAt s_CancelReason].
    rewrite H14, H15, H13. unfold finishedWithTimers in Hfin. destruct (tn_Finished transition) eqn:Ef.
    + cbn [andb] in Hfin. apply negb_false_iff, Z.eqb_eq in Hfin. unfold len in *. rewrite <- Htlen in Hfin.
      assert (timers = []) as -> by (destruct timers; [done|cbn in Hfin; lia]).
      change (Terminal StatusFinished) with true. cbn [earliest length Z.of_nat].
      rewrite Z.eqb_refl, (proj2 (Z.eqb_neq _ _)) by lia. done.
    + rewrite Hactive, Hend. done.
  - unfold pauseInvalid, restoring, IsZero. cbn [s_Status s_SuspendedAt]. rewrite H14, H8, Hsus, Hactive.
    by destruct (tn_Finished transition).
  - reflexivity.
Qed.
End Move.

(** ** The batch of a move *)
Lemma canonicalBatch_fields source :
  b_SessionID (canonicalBatch source) = b_SessionID source /\ b_StateVersion (canonicalBatch source) = b_StateVersion source /\
  b_OwnershipEpoch (canonicalBatch source) = b_OwnershipEpoch source /\ b_Cause (canonicalBatch source) = b_Cause source /\
  b_ActorUserID (canonicalBatch source) = b_ActorUserID source /\ b_ActionID (canonicalBatch source) = b_ActionID source /\
  b_TimerID (canonicalBatch source) = b_TimerID source /\
  b_SystemOperationID (canonicalBatch source) = b_SystemOperationID source /\
  b_SystemSource (canonicalBatch source) = b_SystemSource source /\
  b_RequestDigest (canonicalBatch source) = b_RequestDigest source /\
  b_Events (canonicalBatch source) = b_Events source /\ b_Input (canonicalBatch source) = b_Input source /\
  b_CommittedAt (canonicalBatch source) = canonicalRuntimeTime (b_CommittedAt source).
Proof. by repeat split. Qed.

(** A batch of a valid transition at a canonical, non-zero time restores. *)
Lemma RestoreEventBatch_accepts source :
  b_ID source <> Nil -> b_SessionID source <> Nil -> b_StateVersion source <> 0 ->
  EventCause_Valid (b_Cause source) = true -> Context_Valid (b_Execution source) = true ->
  canonicalRuntimeTime (Now (b_Execution source)) <> 0 -> b_CommittedAt source = Now (b_Execution source) ->
  Message_Valid (b_Input source) = true -> 1 <= len (b_Events source) <= MaximumTransitionEvents ->
  forallb Event_Valid (b_Events source) = true -> causeInvalid source = false ->
  RestoreEventBatch source = Ok (canonicalBatch source).
Proof.
  intros H1 H2 H3 H4 H5 H6 H7 H8 H9 H10 H11. unfold RestoreEventBatch. cbv zeta.
  assert (Hctx : Context_Valid (b_Execution (canonicalBatch source)) = true).
  { revert H5. unfold Context_Valid, canonicalBatch, Context_Clone, RoundUTC, IsZero.
    cbn [b_Execution update Now RandomSeed AllocatedIDs].
    rewrite !Z.eqb_refl, (proj2 (Z.eqb_neq _ _) H6). cbn [negb orb].
    destruct (_ =? 0); cbn [orb]; [done|]. done. }
  change (b_ID (canonicalBatch source)) with (b_ID source).
  change (b_SessionID (canonicalBatch source)) with (b_SessionID source).
  change (b_StateVersion (canonicalBatch source)) with (b_StateVersion source).
  change (b_Cause (canonicalBatch source)) with (b_Cause source).
  change (b_Input (canonicalBatch source)) with (b_Input source).
  change (b_Events (canonicalBatch source)) with (b_Events source).
  change (Now (b_Execution (canonicalBatch source))) with (canonicalRuntimeTime (Now (b_Execution source))).
  change (b_CommittedAt (canonicalBatch source)) with (canonicalRuntimeTime (b_CommittedAt source)).
  change (causeInvalid (canonicalBatch source)) with (causeInvalid source).
  rewrite H4, Hctx, H7, H8, H10, H11, Z.eqb_refl.
  rewrite !(proj2 (Z.eqb_neq _ _)) by (done || lia). by rewrite (proj2 (Z.ltb_ge _ _)) by lia.
Qed.

Lemma Moved_intro b a execution transition timers deadline source bt :
  SessionInv b -> s_Status b = StatusActive -> Context_Valid execution = true -> s_UpdatedAt b <= Now execution ->
  Transition_Validate transition (StateVersion (s_State b)) (Now execution) = Ok tt ->
  RestoreSession (movedSnapshot b execution transition timers deadline) = Ok a ->
  s_OwnershipEpoch b <> 0 -> RestoreEventBatch source = Ok bt ->
  b_SessionID source = s_ID b -> b_StateVersion source = u64 (StateVersion (s_State b) + 1) ->
  b_OwnershipEpoch source = s_OwnershipEpoch b -> b_CommittedAt source = Now execution -> Moved b a bt.
Proof.
  intros Hb Ha He Hn Hv Hr Hep Hbt H1 H2 H3 H4.
  destruct (move_result b Hb Ha execution transition Hv timers deadline a Hr) as (Hi & Hid & Hst & Hepa & Hver & Hup & _).
  destruct (RestoreEventBatch_Ok _ _ Hbt) as [-> Hbb].
  destruct (move_version b Hb execution transition Hv) as (Hu & _ & _).
  constructor; try done.
  - rewrite Hup. by apply move_time.
  - destruct (canonicalBatch_fields source) as (F1 & F2 & F3 & _ & _ & _ & _ & _ & _ & _ & _ & _ & F4).
    rewrite F1, F2, F3, F4, H1, H2, H3, H4, Hu, Hver, Hup. done.
Qed.

Lemma applyTransition_Ok b batchID epoch cause execution input transition metadata a bt :
  SessionInv b -> s_Status b = StatusActive -> Context_Valid execution = true -> s_UpdatedAt b <= Now execution ->
  epoch = s_OwnershipEpoch b -> epoch <> 0 ->
  applyTransition b batchID epoch cause execution input transition metadata = Ok (a, bt) ->
  Moved b a bt /\ b_Cause bt = cause /\ b_ActorUserID bt = b_ActorUserID metadata /\ b_ActionID bt = b_ActionID metadata /\
  b_TimerID bt = b_TimerID metadata /\ b_SystemOperationID bt = b_SystemOperationID metadata /\
  b_SystemSource bt = b_SystemSource metadata /\ b_RequestDigest bt = b_RequestDigest metadata /\
  b_Events bt = tn_Events transition /\ b_Input bt = input /\ s_State a = tn_Snapshot transition.
Proof.
  intros Hb Ha He Hn -> Hep H. unfold applyTransition in H. cbv zeta in H. inv_result H.
  apply orb_false_iff in E as [Ev Ef]. apply negb_false_iff, is_ok_unit in Ev.
  inv_result H. destruct value0 as [timers deadline]. inv_result H. inv_result H. inv_result H.
  destruct (RestoreEventBatch_Ok _ _ E1) as [Hbt _]. subst bt.
  destruct (move_result b Hb Ha execution transition Ev timers deadline _ E0) as (_ & _ & _ & _ & _ & _ & Hstate).
  split; [by eapply Moved_intro|]. by repeat split.
Qed.

(** ** The three causes *)
Lemma ApplyAction_Ok b request a bt :
  SessionInv b -> ApplyAction b request = Ok (a, bt) ->
  Moved b a bt /\ ar_OwnershipEpoch request = s_OwnershipEpoch b /\ b_Cause bt = EventCauseAction /\
  b_ActorUserID bt = ar_ActorUserID request /\ b_ActionID bt = ar_ActionID request /\
  hasParticipant b (ar_ActorUserID request) = true /\ s_State a = tn_Snapshot (ar_Transition request) /\
  s_UpdatedAt a = canonicalRuntimeTime (Now (ar_Execution request)) /\ b_Events bt = tn_Events (ar_Transition request).
Proof.
  intros Hb H. unfold ApplyAction in H. cbv zeta in H. inv_result H. inv_result H. inv_result H. inv_result H. inv_result H. inv_result H.
  inv_result H. destruct value0 as [timers deadline]. inv_result H. inv_result H. inv_result H.
  apply negb_false_iff, eqb_string_true in E0. unfold Before in E3. to_prop.
  match goal with H : is_ok _ = true |- _ => apply is_ok_unit in H end.
  destruct (RestoreEventBatch_Ok _ _ E7) as [-> _].
  destruct (move_result b Hb E0 (ar_Execution request) (ar_Transition request) ltac:(done) timers deadline _ E6)
    as (_ & _ & _ & _ & _ & Hup & Hstate).
  split_and!; try done. eapply Moved_intro; try done. congruence.
Qed.

Lemma ApplyTimer_Ok b request a bt :
  SessionInv b -> ApplyTimer b request = Ok (a, bt) ->
  Moved b a bt /\ tt_OwnershipEpoch request = s_OwnershipEpoch b /\ b_Cause bt = EventCauseTimer /\
  b_ActorUserID bt = Nil /\ b_ActionID bt = noOperation /\ b_TimerID bt = tt_TimerID request /\
  tt_ExpectedStateVersion request = StateVersion (s_State b) /\
  (exists timer, timer ∈ s_Timers b /\ t_TimerID timer = tt_TimerID request /\
     t_ExpectedStateVersion timer = tt_ExpectedStateVersion request /\ t_DueAt timer <= Now (tt_Execution request) /\
     t_Message timer = tt_Input request) /\
  s_State a = tn_Snapshot (tt_Transition request).
Proof.
  intros Hb H. unfold ApplyTimer in H. cbv zeta in H. inv_result H. inv_result H. inv_result H. inv_result H. inv_result H.
  destruct (timerOf b (tt_TimerID request)) as [timer|] eqn:Et; [|done]. inv_result H.
  apply negb_false_iff, eqb_string_true in E0. unfold Before in E3, E4. to_prop.
  apply applyTransition_Ok in H as (Hm & Hc & Hact & Haid & Htid & _ & _ & _ & _ & _ & Hstate); try done.
  unfold timerOf in Et. apply find_some in Et as [Hin Heq]. apply eqb_string_true in Heq.
  match goal with H : sameGameMessage _ _ = true |- _ => apply sameGameMessage_eq in H end.
  split_and!; try done. exists timer. rewrite list_elem_of_In. done.
Qed.

Lemma ApplySystem_Ok b request a bt :
  SessionInv b -> ApplySystem b request = Ok (a, bt) ->
  Moved b a bt /\ st_OwnershipEpoch request = s_OwnershipEpoch b /\ b_Cause bt = EventCauseSystem /\
  b_ActorUserID bt = Nil /\ b_ActionID bt = noOperation /\
  b_SystemOperationID bt = st_SystemOperationID request /\ b_SystemSource bt = st_Source request /\
  b_RequestDigest bt = st_RequestDigest request /\ st_ExpectedStateVersion request = StateVersion (s_State b) /\
  s_State a = tn_Snapshot (st_Transition request).
Proof.
  intros Hb H. unfold ApplySystem in H. cbv zeta in H. inv_result H. inv_result H. inv_result H. inv_result H. inv_result H.
  apply negb_false_iff, eqb_string_true in E0. unfold Before in E3. to_prop.
  apply applyTransition_Ok in H as (Hm & Hc & Hact & Haid & Htid & Hop & Hsrc & Hdig & _ & _ & Hstate); try done.
Qed.

End RuntimeMoves.
