(* ===== verification/RuntimeLifecycle.v ===== *)
(** * The lifecycle of a game session

    The commands of [model.go] as one transition function, the states a session
    can reach, and what ownership, suspension, resumption and cancellation do. *)

From S2P Require Import Prelude GoLib Selector GameManifest GameContract Runtime RuntimeFacts RuntimeMoves.

Module RuntimeLifecycle.
Import GoLib Selector GameManifest GameContract Runtime RuntimeFacts RuntimeMoves.

Inductive Command :=
| CmdAction (request : ActionTransitionRequest)
| CmdTimer (request : TimerTransitionRequest)
| CmdSystem (request : SystemTransitionRequest)
| CmdAcquire (expectedEpoch : Z) (at_ : Time)
| CmdSuspend (expectedEpoch : Z) (at_ : Time)
| CmdResume (expectedEpoch : Z) (at_ : Time) (adjust : option Adjust)
| CmdCancel (expectedEpoch : Z) (at_ : Time) (reason : string).

Definition exec (session : Session) (command : Command) : res Session :=
  match command with
  | CmdAction request => let* '(next, _) := ApplyAction session request in Ok next
  | CmdTimer request => let* '(next, _) := ApplyTimer session request in Ok next
  | CmdSystem request => let* '(next, _) := ApplySystem session request in Ok next
  | CmdAcquire epoch at_ => AcquireOwnership session epoch at_
  | CmdSuspend epoch at_ => Suspend session epoch at_
  | CmdResume epoch at_ adjust => resumeWithAdjustment session epoch at_ adjust
  | CmdCancel epoch at_ reason => Cancel session epoch at_ reason
  end.

(** The ownership epoch a command claims. *)
Definition commandEpoch (command : Command) : Z :=
  match command with
  | CmdAction request => ar_OwnershipEpoch request
  | CmdTimer request => tt_OwnershipEpoch request
  | CmdSystem request => st_OwnershipEpoch request
  | CmdAcquire epoch _ | CmdSuspend epoch _ | CmdResume epoch _ _ | CmdCancel epoch _ _ => epoch
  end.

(** The changes of status the lifecycle has. *)
Inductive Edge : string -> string -> Prop :=
| edge_move : Edge StatusActive StatusActive
| edge_finish : Edge StatusActive StatusFinished
| edge_suspend : Edge StatusActive StatusSuspended
| edge_resume : Edge StatusSuspended StatusActive
| edge_acquire : Edge StatusSuspended StatusSuspended
| edge_cancel status : status = StatusActive \/ status = StatusSuspended -> Edge status StatusCancelled.

(** What an accepted command does, whatever it is. *)
Record Stepped (b a : Session) : Prop := mkStepped {
  sp_inv : SessionInv a;
  sp_identity : SameIdentity b a;
  sp_edge : Edge (s_Status b) (s_Status a);
  sp_version : StateVersion (s_State a) = StateVersion (s_State b) \/ StateVersion (s_State a) = StateVersion (s_State b) + 1;
  sp_epoch : s_OwnershipEpoch a = s_OwnershipEpoch b \/ s_OwnershipEpoch a = s_OwnershipEpoch b + 1;
  sp_time : s_UpdatedAt b <= s_UpdatedAt a;
}.

Lemma open_status s : SessionOK s -> Terminal (s_Status s) = false -> s_Status s = StatusActive \/ s_Status s = StatusSuspended.
Proof.
  intros H Ht. destruct (SessionOK_header _ H) as (_ & _ & _ & _ & Hv & _). unfold Status_Valid, Terminal in *.
  bool_cases; auto; by rewrite Hv in *.
Qed.

Lemma Moved_Stepped b a bt : Moved b a bt -> Stepped b a.
Proof.
  intros Hm. constructor.
  - apply (mv_inv _ _ _ Hm).
  - apply (mv_identity _ _ _ Hm).
  - rewrite (mv_active _ _ _ Hm). destruct (mv_status _ _ _ Hm) as [-> | ->]; constructor.
  - right. apply (mv_version _ _ _ Hm).
  - left. apply (mv_epoch _ _ _ Hm).
  - apply (mv_time _ _ _ Hm).
Qed.

(** ** Ownership *)
Lemma AcquireOwnership_Ok b epoch at_ a :
  SessionInv b -> AcquireOwnership b epoch at_ = Ok a ->
  Stepped b a /\ epoch = s_OwnershipEpoch b /\ s_OwnershipEpoch a = epoch + 1 /\ s_State a = s_State b /\
  s_Status a = s_Status b /\ s_Timers a = s_Timers b /\ s_UpdatedAt a = canonicalRuntimeTime at_.
Proof.
  intros Hb H. pose proof (si_ok _ Hb) as Hok. unfold AcquireOwnership in H. cbv zeta in H.
  inv_result H. inv_result H. inv_result H. unfold IsZero, After in *. to_prop.
  pose proof (RestoreSession_Restored _ _ H) as Hr.
  assert (Hid : SameIdentity b a) by (by apply (Restored_identity b _ a Hok Hr)).
  pose proof (si_epoch _ Hb) as Hw. unfold is_u64, maxUint64 in *.
  assert (Hep : s_OwnershipEpoch a = s_OwnershipEpoch b + 1).
  { rewrite (rs_epoch _ _ Hr). cbn. unfold u64. rewrite Z.mod_small; lia. }
  assert (Hst : s_State a = s_State b) by (by rewrite (rs_state _ _ Hr)).
  assert (Hstat : s_Status a = s_Status b) by (by rewrite (rs_status _ _ Hr)).
  assert (Hup : s_UpdatedAt a = canonicalRuntimeTime at_).
  { rewrite (rs_updated _ _ Hr). cbn. apply canonicalRuntimeTime_idem. }
  assert (Htm : s_Timers a = s_Timers b).
  { pose proof (rs_timers _ _ Hr) as Ht. cbn in Ht. rewrite (canonicalTimers_fixed _ _ (so_timers _ Hok)) in Ht. by injection Ht. }
  split_and!; try done; [|congruence]. constructor; try done.
  - constructor; [apply (rs_ok _ _ Hr)|rewrite Hst; apply (si_version _ Hb)|]. unfold is_u64, maxUint64. lia.
  - rewrite Hstat. destruct (open_status _ Hok E) as [-> | ->]; constructor.
  - left. by rewrite Hst.
  - by right.
  - lia.
Qed.

(** ** Suspension *)
Lemma Suspend_Ok b epoch at_ a :
  SessionInv b -> Suspend b epoch at_ = Ok a ->
  Stepped b a /\ s_Status b = StatusActive /\ epoch = s_OwnershipEpoch b /\ epoch <> 0 /\ s_UpdatedAt b < canonicalRuntimeTime at_ /\
  a = b <| s_Status := StatusSuspended |> <| s_UpdatedAt := canonicalRuntimeTime at_ |> <| s_SuspendedAt := canonicalRuntimeTime at_ |>.
Proof.
  intros Hb H. pose proof (si_ok _ Hb) as Hok. unfold Suspend in H. cbv zeta in H.
  inv_result H. inv_result H. inv_result H. inv_result H. unfold IsZero, After in *. to_prop.
  pose proof (RestoreSession_Restored _ _ H) as Hr.
  assert (Hid : SameIdentity b a) by (by apply (Restored_identity b _ a Hok Hr)).
  destruct (SessionOK_canonical _ Hok) as (Hc1 & Hc2 & Hc3 & Hc4 & Hc5).
  pose proof (rs_timers _ _ Hr) as Ht. cbn in Ht. rewrite (canonicalTimers_fixed _ _ (so_timers _ Hok)) in Ht. injection Ht as Ht Hd.
  pose proof (rs_reason _ _ Hr) as Hre. cbn in Hre. destruct (SessionOK_open _ Hok E) as [_ Hreason]. rewrite Hreason in Hre.
  injection Hre as Hre.
  assert (Ha : a = b <| s_Status := StatusSuspended |> <| s_UpdatedAt := canonicalRuntimeTime at_ |> <| s_SuspendedAt := canonicalRuntimeTime at_ |>).
  { destruct Hr as [_ R1 R2 R3 R4 R5 R6 R7 R8 R9 R10 _ _ _ _]. destruct Hid as (_ & _ & _ & Hp & Hs & _).
    pose proof (so_deadline _ Hok) as Hdl. destruct a, b. cbn in *. rewrite ?canonicalRuntimeTime_idem in *.
    unfold canonical in *. subst. rewrite Hc1, Hc4. reflexivity. }
  split_and!; try done; try congruence. constructor; try done; rewrite ?Ha; cbn; try (by left); try lia.
  - rewrite <- Ha. constructor; [apply (rs_ok _ _ Hr)|rewrite Ha; apply (si_version _ Hb)|rewrite Ha; apply (si_epoch _ Hb)].
  - rewrite E0. constructor.
Qed.

(** ** Cancellation *)
Lemma Cancel_Ok b epoch at_ reason a :
  SessionInv b -> Cancel b epoch at_ reason = Ok a ->
  Stepped b a /\ epoch = s_OwnershipEpoch b /\ epoch <> 0 /\ s_Status a = StatusCancelled /\ s_State a = s_State b /\
  s_OwnershipEpoch a = s_OwnershipEpoch b /\ s_Timers a = [] /\ s_NextDeadlineAt a = 0 /\
  s_EndedAt a = canonicalRuntimeTime at_ /\ s_UpdatedAt a = canonicalRuntimeTime at_ /\ canonicalRuntimeTime at_ <> 0 /\
  s_CancelReason a <> ""%string /\ s_UpdatedAt b < s_UpdatedAt a.
Proof.
  intros Hb H. pose proof (si_ok _ Hb) as Hok. unfold Cancel in H. cbv zeta in H.
  inv_result H. inv_result H. inv_result H. unfold IsZero, After in *. to_prop.
  pose proof (RestoreSession_Restored _ _ H) as Hr.
  assert (Hid : SameIdentity b a) by (by apply (Restored_identity b _ a Hok Hr)).
  pose proof (rs_timers _ _ Hr) as Ht. cbn in Ht. injection Ht as Ht Hd.
  destruct (canonicalCancelReason_Ok _ _ _ (rs_reason _ _ Hr)) as (_ & Hre & _). cbn in Hre.
  assert (Hup : s_UpdatedAt a = canonicalRuntimeTime at_) by (rewrite (rs_updated _ _ Hr); apply canonicalRuntimeTime_idem).
  assert (Hend : s_EndedAt a = canonicalRuntimeTime at_) by (rewrite (rs_ended _ _ Hr); apply canonicalRuntimeTime_idem).
  pose proof (rs_state _ _ Hr) as Hst. pose proof (rs_epoch _ _ Hr) as Hep. pose proof (rs_status _ _ Hr) as Hstat. cbn in Hst, Hep, Hstat.
  split_and!; try done; try (by apply Hre); try congruence; try lia. constructor; try done.
  - constructor; [apply (rs_ok _ _ Hr)|rewrite Hst; apply (si_version _ Hb)|rewrite Hep; apply (si_epoch _ Hb)].
  - rewrite Hstat. constructor. by apply (open_status _ Hok).
  - left. by rewrite Hst.
  - by left.
  - lia.
Qed.

(** ** Resumption *)
Lemma resumeWithAdjustment_Ok b epoch at_ adjust a :
  SessionInv b -> resumeWithAdjustment b epoch at_ adjust = Ok a ->
  Stepped b a /\ s_Status b = StatusSuspended /\ s_Status a = StatusActive /\ epoch = s_OwnershipEpoch b /\ epoch <> 0 /\
  s_OwnershipEpoch a = s_OwnershipEpoch b /\ s_SuspendedAt a = 0 /\ s_EndedAt a = 0 /\ s_CancelReason a = ""%string /\
  s_UpdatedAt a = canonicalRuntimeTime at_ /\ s_UpdatedAt b < s_UpdatedAt a /\
  resumeSnapshotEnvelopePreserved (s_State b) (s_State a) = true /\
  exists shifted intents, shiftedResumeTimers (s_Timers b) (Sub (canonicalRuntimeTime at_) (s_SuspendedAt b)) = Ok shifted /\
    (match adjust with Some adjust => adjust (s_State b) shifted | None => Ok (s_State b, shifted) end) = Ok (s_State a, intents) /\
    timersFromIntents intents (StateVersion (s_State b)) = Ok (s_Timers a, s_NextDeadlineAt a).
Proof.
  intros Hb H. pose proof (si_ok _ Hb) as Hok. unfold resumeWithAdjustment in H. cbv zeta in H.
  inv_result H. inv_result H. inv_result H. inv_result H. inv_result H. inv_result H. rename value0 into shifted.
  inv_result H. destruct value0 as [state intents]. inv_result H. inv_result H. destruct value0 as [timers deadline].
  unfold IsZero, After in *. to_prop. pose proof (RestoreSession_Restored _ _ H) as Hr.
  assert (Hid : SameIdentity b a) by (by apply (Restored_identity b _ a Hok Hr)).
  destruct (SessionOK_canonical _ Hok) as (Hc1 & Hc2 & Hc3 & Hc4 & Hc5).
  destruct (SessionOK_open _ Hok E) as [Hend Hreason].
  pose proof (rs_state _ _ Hr) as Hst. pose proof (rs_epoch _ _ Hr) as Hep. pose proof (rs_status _ _ Hr) as Hstat.
  pose proof (rs_reason _ _ Hr) as Hre. pose proof (rs_timers _ _ Hr) as Htm. cbn in Hst, Hep, Hstat, Hre, Htm.
  rewrite Hreason in Hre. injection Hre as Hre.
  destruct (timersFromIntents_Ok _ _ _ _ E7) as (Hto & -> & _).
  assert (Hv : StateVersion state = StateVersion (s_State b)).
  { match goal with H : resumeSnapshotEnvelopePreserved _ _ = true |- _ => unfold resumeSnapshotEnvelopePreserved in H; by to_prop end. }
  rewrite Hv, (canonicalTimers_fixed _ _ Hto) in Htm. injection Htm as Htm1 Htm2.
  assert (Hup : s_UpdatedAt a = canonicalRuntimeTime at_) by (rewrite (rs_updated _ _ Hr); apply canonicalRuntimeTime_idem).
  split_and!; try done; try congruence; try lia.
  - constructor; try done.
    + constructor; [apply (rs_ok _ _ Hr)|rewrite Hst, Hv; apply (si_version _ Hb)|rewrite Hep; apply (si_epoch _ Hb)].
    + rewrite Hstat. match goal with H : s_Status b = _ |- _ => rewrite H end. constructor.
    + left. by rewrite Hst.
    + by left.
    + lia.
  - rewrite (rs_suspended _ _ Hr). done.
  - rewrite (rs_ended _ _ Hr). cbn. by rewrite Hend.
  - exists shifted, intents. rewrite Hst, <- Htm1, <- Htm2. done.
Qed.

Lemma exec_Stepped b command a : SessionInv b -> exec b command = Ok a -> Stepped b a /\ commandEpoch command = s_OwnershipEpoch b.
Proof.
  intros Hb H. destruct command as [rq|rq|rq|e t|e t|e t adj|e t r]; cbn [exec commandEpoch] in *.
  - inv_results H. destruct value0 as [next bt]. injection H as <-. destruct (ApplyAction_Ok _ _ _ _ Hb E) as (Hm & He & _).
    split; [by eapply Moved_Stepped|done].
  - inv_results H. destruct value0 as [next bt]. injection H as <-. destruct (ApplyTimer_Ok _ _ _ _ Hb E) as (Hm & He & _).
    split; [by eapply Moved_Stepped|done].
  - inv_results H. destruct value0 as [next bt]. injection H as <-. destruct (ApplySystem_Ok _ _ _ _ Hb E) as (Hm & He & _).
    split; [by eapply Moved_Stepped|done].
  - by destruct (AcquireOwnership_Ok _ _ _ _ Hb H) as (? & ? & _).
  - by destruct (Suspend_Ok _ _ _ _ Hb H) as (? & _ & ? & _).
  - by destruct (resumeWithAdjustment_Ok _ _ _ _ _ Hb H) as (? & _ & _ & ? & _).
  - by destruct (Cancel_Ok _ _ _ _ _ Hb H) as (? & ? & _).
Qed.

(** ** Timers across a pause *)
Definition shiftTimer (d : Z) (timer : TimerSnapshot) : TimerSnapshot := timer <| t_DueAt := t_DueAt timer + d |>.

Lemma shiftedResumeTimers_Ok v timers d shifted :
  Forall (TimerOK v) timers -> 0 <= d -> d mod Microsecond = 0 -> shiftedResumeTimers timers d = Ok shifted ->
  shifted = (fun timer => mkTimerIntent (t_TimerID timer) (t_DueAt timer + d) (t_Message timer)) <$> timers.
Proof.
  intros HF Hd Hm H. unfold shiftedResumeTimers in H. apply map_result_Ok in H.
  induction H as [|t i timers shifted Hi _ IH]; [done|]. apply Forall_cons in HF as [Ht HF]. cbn in Hi.
  rewrite (canonical_add (t_DueAt t) d) in Hi by (done || apply Ht).
  unfold Before in Hi. rewrite (proj2 (Z.ltb_ge _ _)) in Hi by lia. injection Hi as <-. cbn. by rewrite IH.
Qed.

Lemma TimersOK_shift v timers d :
  TimersOK v timers -> d mod Microsecond = 0 -> Forall (fun t => t_DueAt t + d <> 0) timers -> TimersOK v (shiftTimer d <$> timers).
Proof.
  intros [HF HN Hs] Hm Hnz. constructor.
  - rewrite Forall_fmap. rewrite !Forall_forall in *. intros t Ht. destruct (HF t Ht) as (H1 & H2 & H3 & H4 & H5).
    repeat split; try done; [by apply Hnz|by apply canonical_add].
  - rewrite <- list_fmap_compose. exact HN.
  - clear -Hs. induction Hs as [|t l Hl IH Hall]; [constructor|]. cbn. constructor; [done|].
    rewrite Forall_fmap. exact Hall.
Qed.

(** The intents of shifted timers make the shifted timers. *)
Lemma timersFromIntents_shift v timers d :
  Forall (TimerOK v) timers ->
  timersFromIntents ((fun timer => mkTimerIntent (t_TimerID timer) (t_DueAt timer + d) (t_Message timer)) <$> timers) v
  = canonicalTimers (shiftTimer d <$> timers) v.
Proof.
  intros HF. unfold timersFromIntents. rewrite <- list_fmap_compose. f_equal. apply list_fmap_ext. intros i t Ht.
  rewrite Forall_forall in HF. destruct (HF t) as (_ & Hv & _); [by eapply list_elem_of_lookup_2|].
  unfold shiftTimer. destruct t. cbn in *. by rewrite Hv.
Qed.

(** A uniform shift moves the earliest due time with it. *)
Lemma earliest_shift d timers : forall deadline,
  Forall (fun t => t_DueAt t <> 0 /\ t_DueAt t + d <> 0) timers -> deadline <> 0 -> deadline + d <> 0 ->
  earliest (deadline + d) (shiftTimer d <$> timers) = earliest deadline timers + d.
Proof.
  induction timers as [|t timers IH]; intros deadline HF H0 Hd; [done|].
  apply Forall_cons in HF as [[Ht0 Htd] HF]. cbn [fmap list_fmap earliest].
  change (t_DueAt (shiftTimer d t)) with (t_DueAt t + d). unfold IsZero, Before.
  rewrite !(proj2 (Z.eqb_neq _ _)) by done. cbn [orb].
  replace (t_DueAt t + d <? deadline + d) with (t_DueAt t <? deadline) by (destruct (Z.ltb_spec (t_DueAt t) deadline), (Z.ltb_spec (t_DueAt t + d) (deadline + d)); lia).
  destruct (t_DueAt t <? deadline); by apply IH.
Qed.

Lemma earliest_shift0 d timers :
  Forall (fun t => t_DueAt t <> 0 /\ t_DueAt t + d <> 0) timers ->
  earliest 0 (shiftTimer d <$> timers) = if decide (timers = []) then 0 else earliest 0 timers + d.
Proof.
  intros HF. destruct timers as [|t timers]; [done|]. rewrite decide_False by done.
  apply Forall_cons in HF as [[Ht0 Htd] HF]. cbn [fmap list_fmap earliest]. change (IsZero 0) with true. cbn [orb].
  change (t_DueAt (shiftTimer d t)) with (t_DueAt t + d). by apply earliest_shift.
Qed.

(** The pause of a session in nanoseconds, when it does not exceed the range of a
    [time.Duration] (292 years). *)
Lemma Sub_exact t u : u <= t -> t - u <= maxInt64 -> Sub t u = t - u.
Proof. unfold Sub, maxInt64. lia. Qed.

Section Pause.
Context (b : Session) (Hb : SessionInv b) (at_ : Time).
Let d := canonicalRuntimeTime at_ - s_SuspendedAt b.
Context (Hrange : d <= maxInt64).

Lemma pause_micro : d mod Microsecond = 0.
Proof.
  destruct (SessionOK_canonical _ (si_ok _ Hb)) as (_ & _ & Hc & _). apply canonical_mod in Hc.
  pose proof (canonicalRuntimeTime_canonical at_) as Ht. apply canonical_mod in Ht.
  unfold d. by rewrite Zminus_mod, Ht, Hc.
Qed.

(** Resuming shifts every timer by exactly the pause. *)
Lemma Resume_exact epoch a :
  Resume b epoch at_ = Ok a ->
  s_State a = s_State b /\ s_Timers a = shiftTimer d <$> s_Timers b /\
  s_NextDeadlineAt a = (if decide (s_Timers b = []) then 0 else s_NextDeadlineAt b + d) /\ 0 < d.
Proof.
  intros H. pose proof (si_ok _ Hb) as Hok. unfold Resume in H.
  assert (Hdpos : 0 < Sub (canonicalRuntimeTime at_) (s_SuspendedAt b)).
  { unfold resumeWithAdjustment in H. cbv zeta in H. inv_result H. inv_result H. inv_result H. inv_result H. inv_result H. to_prop. done. }
  assert (Hd0 : 0 < d) by (unfold Sub, maxInt64 in Hdpos; unfold d; lia).
  destruct (resumeWithAdjustment_Ok _ _ _ _ _ Hb H) as (_ & _ & _ & _ & _ & _ & _ & _ & _ & _ & _ & _ & shifted & intents & H1 & H2 & H3).
  injection H2 as Hst <-. rewrite Sub_exact in H1 by (unfold d in *; lia). fold d in H1.
  pose proof pause_micro as Hm. pose proof (so_timers _ Hok) as Hto.
  apply (shiftedResumeTimers_Ok _ _ _ _ (to_each _ _ Hto)) in H1; [|lia|done]. subst shifted.
  rewrite (timersFromIntents_shift _ _ _ (to_each _ _ Hto)) in H3.
  assert (Hnz : Forall (fun t => t_DueAt t + d <> 0) (s_Timers b)).
  { destruct (canonicalTimers_Ok _ _ _ _ H3) as (Hto' & _ & Hp). apply Forall_forall. intros t Ht.
    pose proof (to_each _ _ Hto') as HF. rewrite Hp, !Forall_fmap, Forall_forall in HF. specialize (HF t Ht).
    destruct HF as (_ & _ & Hne & _). cbn in Hne. intros Heq. apply Hne. rewrite Heq. done. }
  rewrite (canonicalTimers_fixed _ _ (TimersOK_shift _ _ _ Hto Hm Hnz)) in H3. injection H3 as Ht Hd.
  split_and!; try done. rewrite <- Hd, earliest_shift0, (so_deadline _ Hok); [done|].
  pose proof (to_each _ _ Hto) as HF. rewrite Forall_forall in *. intros t Hin. split; [apply (HF t Hin)|by apply Hnz].
Qed.
End Pause.

(** ** Suspension and resumption are accepted *)
Lemma Suspend_accepts b at_ :
  SessionInv b -> s_Status b = StatusActive -> s_OwnershipEpoch b <> 0 -> 0 < s_StartedAt b ->
  s_UpdatedAt b < canonicalRuntimeTime at_ -> exists a, Suspend b (s_OwnershipEpoch b) at_ = Ok a.
Proof.
  intros Hb Hs He Hpos Hlt. pose proof (si_ok _ Hb) as Hok. unfold Suspend. rewrite Hs. cbv zeta.
  destruct (SessionOK_header _ Hok) as (Hid & Hroom & Hkey & Hsnap & _ & Hst0 & Hst & Hlen & Htl).
  destruct (SessionOK_canonical _ Hok) as (Hc1 & _ & _ & Hc4 & Hc5).
  assert (Hterm : Terminal (s_Status b) = false) by by rewrite Hs. destruct (SessionOK_open _ Hok Hterm) as [Hend Hreason].
  change (Terminal StatusActive) with false. cbn [String.eqb negb]. rewrite (proj2 (Z.eqb_neq _ _) He), Z.eqb_refl.
  unfold IsZero at 1, After at 1. rewrite (proj2 (Z.eqb_neq (canonicalRuntimeTime at_) 0)) by lia. rewrite (proj2 (Z.ltb_lt _ _)) by lia.
  rewrite String.eqb_refl. cbn [negb orb].
  eexists. apply RestoreSession_Ok. exists ""%string, (s_Start b), (s_Participants b), (s_Timers b).
  split_and!; [|..|reflexivity].
  - change (canonicalCancelReason StatusSuspended (s_CancelReason b) = Ok ""%string). by rewrite Hreason.
  - sess. destruct (so_start _ Hok) as [Hz|Hz]; cbn [update s_Start s_VersionKey]; rewrite Hz; [done|]. by destruct (negb _).
  - unfold headerInvalid, restoring, IsZero, Before. sess. rewrite Hkey, Hsnap, Hc1, canonicalRuntimeTime_idem.
    rewrite !(proj2 (Z.eqb_neq _ _)) by (done || lia). by rewrite !(proj2 (Z.ltb_ge _ _)) by lia.
  - sess. by apply canonicalParticipants_fixed, (so_participants _ Hok).
  - sess. rewrite (canonicalTimers_fixed _ _ (so_timers _ Hok)), (so_deadline _ Hok), Hc5. done.
  - unfold endInvalid, restoring. sess. rewrite Hend. done.
  - unfold pauseInvalid, restoring, IsZero, Before, After. sess. rewrite Hc1, canonicalRuntimeTime_idem.
    change (String.eqb StatusSuspended StatusSuspended) with true.
    rewrite (proj2 (Z.eqb_neq _ _)) by lia. by rewrite !(proj2 (Z.ltb_ge _ _)) by lia.
Qed.

Lemma shiftedResumeTimers_accepts v timers d :
  Forall (TimerOK v) timers -> 0 <= d -> d mod Microsecond = 0 ->
  shiftedResumeTimers timers d = Ok ((fun timer => mkTimerIntent (t_TimerID timer) (t_DueAt timer + d) (t_Message timer)) <$> timers).
Proof.
  intros HF Hd Hm. apply map_result_Ok. induction HF as [|t timers Ht HF IH]; [constructor|]. cbn. constructor; [|done].
  rewrite (canonical_add (t_DueAt t) d) by (done || apply Ht). unfold Before. by rewrite (proj2 (Z.ltb_ge _ _)) by lia.
Qed.

Lemma Resume_accepts b at_ :
  SessionInv b -> s_Status b = StatusSuspended -> s_OwnershipEpoch b <> 0 -> 0 < s_StartedAt b ->
  Forall (fun timer => 0 < t_DueAt timer) (s_Timers b) ->
  s_UpdatedAt b < canonicalRuntimeTime at_ -> canonicalRuntimeTime at_ - s_SuspendedAt b <= maxInt64 ->
  exists a, Resume b (s_OwnershipEpoch b) at_ = Ok a.
Proof.
  intros Hb Hs He Hpos Hdue Hlt Hrange. pose proof (si_ok _ Hb) as Hok. unfold Resume, resumeWithAdjustment. rewrite Hs. cbv zeta.
  destruct (SessionOK_header _ Hok) as (Hid & Hroom & Hkey & Hsnap & _ & Hst0 & Hst & Hlen & Htl).
  destruct (SessionOK_canonical _ Hok) as (Hc1 & _ & _ & Hc4 & Hc5).
  assert (Hterm : Terminal (s_Status b) = false) by by rewrite Hs. destruct (SessionOK_open _ Hok Hterm) as [Hend Hreason].
  assert (Hsus : s_StartedAt b <= s_SuspendedAt b <= s_UpdatedAt b).
  { pose proof (so_pause _ Hok) as Hp. unfold pauseInvalid in Hp. rewrite Hs, String.eqb_refl in Hp. unfold Before, After in Hp. by to_prop. }
  change (Terminal StatusSuspended) with false. rewrite String.eqb_refl, (proj2 (Z.eqb_neq _ _) He), Z.eqb_refl.
  unfold IsZero at 1 2, After at 1. rewrite !(proj2 (Z.eqb_neq _ 0)) by lia. rewrite (proj2 (Z.ltb_lt _ _)) by lia.
  rewrite Sub_exact by lia. rewrite (proj2 (Z.leb_gt _ _)) by lia. cbn [negb orb].
  set (d := canonicalRuntimeTime at_ - s_SuspendedAt b) in *.
  pose proof (pause_micro b Hb at_) as Hm. fold d in Hm. pose proof (so_timers _ Hok) as Hto.
  rewrite (shiftedResumeTimers_accepts _ _ _ (to_each _ _ Hto)) by (done || lia). cbn [bind_result].
  assert (Henv : resumeSnapshotEnvelopePreserved (s_State b) (s_State b) = true).
  { unfold resumeSnapshotEnvelopePreserved. rewrite !Z.eqb_refl, String.eqb_refl. unfold Snapshot_Valid in Hsnap. by to_prop. }
  rewrite Henv. cbn [negb]. rewrite (timersFromIntents_shift _ _ _ (to_each _ _ Hto)).
  assert (Hnz : Forall (fun t => t_DueAt t + d <> 0) (s_Timers b)) by (eapply Forall_impl; [exact Hdue|]; cbn; intros t ?; unfold d in *; lia).
  pose proof (TimersOK_shift _ _ _ Hto Hm Hnz) as Hto'. rewrite (canonicalTimers_fixed _ _ Hto'). cbn [bind_result].
  eexists. apply RestoreSession_Ok. exists ""%string, (s_Start b), (s_Participants b), (shiftTimer d <$> s_Timers b).
  assert (Hdl : canonicalRuntimeTime (earliest 0 (shiftTimer d <$> s_Timers b)) = earliest 0 (shiftTimer d <$> s_Timers b)).
  { apply (earliest_canonical _ _ _ (to_each _ _ Hto')). done. }
  split_and!; [|..|reflexivity]; sess.
  - by rewrite Hreason.
  - destruct (so_start _ Hok) as [Hz|Hz]; rewrite Hz; [done|]. by destruct (negb _).
  - unfold headerInvalid, restoring, IsZero, Before. sess. rewrite Hkey, Hsnap, Hc1, canonicalRuntimeTime_idem.
    unfold len in *. rewrite length_fmap.
    rewrite !(proj2 (Z.eqb_neq _ _)) by (done || lia). by rewrite !(proj2 (Z.ltb_ge _ _)) by lia.
  - by apply canonicalParticipants_fixed, (so_participants _ Hok).
  - by rewrite (canonicalTimers_fixed _ _ Hto'), Hdl.
  - unfold endInvalid, restoring. sess. rewrite Hend. done.
  - done.
Qed.

End RuntimeLifecycle.
