(* ===== verification/RuntimeCommands.v ===== *)
(** * Commands of the session runtime and their digests

    The commands of [platform/game-runtime/service.go] and the request digests
    that bind an idempotency key to one request: SHA-256 over length-prefixed
    fields.  What is hashed determines the request, so two different requests
    have the same digest only if they are a collision of the hash. *)

From Stdlib Require Import Ascii.
From S2P Require Import Prelude Sha256 GoLib Selector GameManifest GameContract Room Runtime RuntimeCommit.

Module RuntimeCommands.
Import GoLib Selector GameManifest GameContract Runtime RuntimeCommit.

(** ** Commands *)
Record StartCommand := mkStartCommand {
  sc_ActorUserID : UUID;
  sc_RoomID : UUID;
  sc_GameID : string;
  sc_Expected : Room.Version;
  sc_ConfigRevision : Z;
  sc_Config : Message;
  sc_PendingStartProof : option PendingStartProof;
  sc_OperationID : OperationID;
  sc_RequestDigest : option Digest;
}.

Record ActionCommand := mkActionCommand {
  acm_SessionID : UUID;
  acm_ActorUserID : UUID;
  acm_ActionID : string;
  acm_ExpectedStateVersion : Z;
  acm_OwnershipEpoch : Z;
  acm_VersionKey : VersionKey;
  acm_Command : Message;
  acm_RequestDigest : option Digest;
}.

Record SystemCommand := mkSystemCommand {
  scm_SessionID : UUID;
  scm_OperationID : OperationID;
  scm_Source : SystemSource;
  scm_ExpectedStateVersion : Z;
  scm_OwnershipEpoch : Z;
  scm_VersionKey : VersionKey;
  scm_Message : Message;
  scm_RequestDigest : option Digest;
}.
#[global] Instance system_command_eta : Eta SystemCommand := fun c => mkSystemCommand (scm_SessionID c)
  (scm_OperationID c) (scm_Source c) (scm_ExpectedStateVersion c) (scm_OwnershipEpoch c) (scm_VersionKey c)
  (scm_Message c) (scm_RequestDigest c).

Record CancelCommand := mkCancelCommand {
  ccm_RoomID : UUID;
  ccm_SessionID : UUID;
  ccm_ExpectedRoom : Room.Version;
  ccm_OwnershipEpoch : Z;
  ccm_OperationID : OperationID;
  ccm_RequestDigest : option Digest;
  ccm_Reason : string;
  ccm_CloseRoom : bool;
}.

Record PauseRoomCommand := mkPauseRoomCommand {
  pc_ActorUserID : UUID;
  pc_RoomID : UUID;
  pc_SessionID : UUID;
  pc_RequestID : UUID;
  pc_Expected : Room.Version;
  pc_OwnershipEpoch : Z;
}.

Record ResumeRoomCommand := mkResumeRoomCommand {
  rc_ActorUserID : UUID;
  rc_RoomID : UUID;
  rc_SessionID : UUID;
  rc_Expected : Room.Version;
  rc_OwnershipEpoch : Z;
}.

Record DueTimer := mkDueTimer {
  dt_SessionID : UUID;
  dt_TimerID : string;
  dt_ExpectedStateVersion : Z;
  dt_DueAt : Time;
  dt_Message : Message;
}.

(** ** What the digests hash *)
Definition actionWritten (command : ActionCommand) : list Z :=
  writeDigestField (uuidBytes (acm_SessionID command)) ++ writeDigestField (uuidBytes (acm_ActorUserID command))
  ++ writeDigestField (bytesOf (acm_ActionID command)) ++ writeDigestUint64 (acm_ExpectedStateVersion command)
  ++ writeVersionKey (acm_VersionKey command) ++ writeMessage (acm_Command command).
Definition actionDigest (command : ActionCommand) : Digest := digestFromHash (actionWritten command).

Definition startWritten (command : StartCommand) : list Z :=
  writeDigestField (uuidBytes (sc_ActorUserID command)) ++ writeDigestField (uuidBytes (sc_RoomID command))
  ++ writeDigestField (bytesOf (Value (sc_OperationID command))) ++ writeDigestField (bytesOf (sc_GameID command))
  ++ writeDigestUint64 (Room.v_Room (sc_Expected command)) ++ writeDigestUint64 (Room.v_Membership (sc_Expected command))
  ++ writeDigestUint64 (sc_ConfigRevision command) ++ writeMessage (sc_Config command).
Definition startDigest (command : StartCommand) : Digest := digestFromHash (startWritten command).

Definition systemWritten (command : SystemCommand) : list Z :=
  writeDigestField (uuidBytes (scm_SessionID command))
  ++ writeDigestField (bytesOf (Value (scm_OperationID command)))
  ++ writeDigestField (bytesOf (src_Kind (scm_Source command)))
  ++ writeDigestField (uuidBytes (src_EventID (scm_Source command)))
  ++ writeDigestField (uuidBytes (src_RequestedByUserID (scm_Source command)))
  ++ writeVersionKey (scm_VersionKey command)
  ++ (if String.eqb (src_Kind (scm_Source command)) SystemSourceHostAPI
      then writeDigestUint64 (scm_ExpectedStateVersion command) else [])
  ++ writeMessage (scm_Message command).
Definition systemDigest (command : SystemCommand) : Digest := digestFromHash (systemWritten command).

Definition cancelWritten (command : CancelCommand) : list Z :=
  writeDigestField (uuidBytes (ccm_RoomID command)) ++ writeDigestField (uuidBytes (ccm_SessionID command))
  ++ writeDigestUint64 (Room.v_Room (ccm_ExpectedRoom command))
  ++ writeDigestUint64 (Room.v_Membership (ccm_ExpectedRoom command))
  ++ writeDigestUint64 (ccm_OwnershipEpoch command)
  ++ (if OperationID_Valid (ccm_OperationID command)
      then writeDigestField (bytesOf (Value (ccm_OperationID command))) else writeDigestField [])
  ++ (if ccm_CloseRoom command then writeDigestField [1] else writeDigestField [0])
  ++ writeDigestField (bytesOf (ccm_Reason command)).
Definition cancelDigest (command : CancelCommand) : Digest := digestFromHash (cancelWritten command).

Definition transitionResultDigest (sessionID : UUID) (stateVersion : Z) (code : string) : Digest :=
  digestFromHash (writeDigestField (uuidBytes sessionID) ++ writeDigestUint64 stateVersion ++ writeDigestField (bytesOf code)).

(** ** Length-prefixed fields are unambiguous *)
Definition is_uuid (u : UUID) : Prop := 0 <= u < 2 ^ 128.
Definition fits (l : list Z) : Prop := len l <= maxUint64.

Lemma writeDigestField_inj v v' rest rest' :
  fits v -> fits v' -> writeDigestField v ++ rest = writeDigestField v' ++ rest' -> v = v' /\ rest = rest'.
Proof.
  intros Hv Hv' H. unfold writeDigestField in H. rewrite <- !app_assoc in H. unfold fits, len, maxUint64 in *.
  apply bigEndian_app_inj in H as [Hlen H]; [|unfold len; change (256 ^ Z.of_nat 8) with 18446744073709551616; lia..].
  unfold len in Hlen. by apply app_inj_1 in H; [|lia].
Qed.

Lemma byteOf_inj c c' : byteOf c = byteOf c' -> c = c'.
Proof. unfold byteOf. intros H. apply N2Z.inj in H. rewrite <- (ascii_N_embedding c), <- (ascii_N_embedding c'). by rewrite H. Qed.

Lemma bytesOf_inj s s' : bytesOf s = bytesOf s' -> s = s'.
Proof.
  unfold bytesOf. intros H. apply (list_fmap_eq_inj byteOf byteOf_inj) in H.
  rewrite <- (String.string_of_list_ascii_of_string s), <- (String.string_of_list_ascii_of_string s'). by rewrite H.
Qed.

Definition textFits (s : string) : Prop := fits (bytesOf s).

Lemma writeText_inj s s' rest rest' :
  textFits s -> textFits s' -> writeDigestField (bytesOf s) ++ rest = writeDigestField (bytesOf s') ++ rest' -> s = s' /\ rest = rest'.
Proof. intros Hs Hs' H. apply writeDigestField_inj in H as [H ->]; [|done..]. by apply bytesOf_inj in H. Qed.

Lemma bigEndian_fits n v : (n <= 64)%nat -> fits (bigEndian n v).
Proof. intros H. unfold fits, len, maxUint64. rewrite bigEndian_length. lia. Qed.

Lemma writeUUID_inj u u' rest rest' :
  is_uuid u -> is_uuid u' -> writeDigestField (uuidBytes u) ++ rest = writeDigestField (uuidBytes u') ++ rest' -> u = u' /\ rest = rest'.
Proof.
  intros Hu Hu' H. apply writeDigestField_inj in H as [H ->]; [|apply bigEndian_fits; lia..]. split; [|done].
  apply (bigEndian_inj 16); [exact Hu|exact Hu'|done].
Qed.

Lemma writeDigestUint64_inj v v' rest rest' :
  is_u64 v -> is_u64 v' -> writeDigestUint64 v ++ rest = writeDigestUint64 v' ++ rest' -> v = v' /\ rest = rest'.
Proof.
  intros Hv Hv' H. apply writeDigestField_inj in H as [H ->]; [|apply bigEndian_fits; lia..]. split; [|done].
  unfold is_u64, maxUint64 in *. apply (bigEndian_inj 8); [change (256 ^ Z.of_nat 8) with 18446744073709551616; lia..|done].
Qed.

Definition keyFits (key : VersionKey) : Prop :=
  textFits (GameID key) /\ textFits (Engine key) /\ textFits (Protocol key) /\ textFits (Client key).
Definition messageFits (message : Message) : Prop :=
  textFits (MessageType message) /\ is_u64 (SchemaVersion message) /\ fits (Payload message).

Lemma writeVersionKey_inj k k' rest rest' :
  keyFits k -> keyFits k' -> writeVersionKey k ++ rest = writeVersionKey k' ++ rest' -> k = k' /\ rest = rest'.
Proof.
  intros (H1 & H2 & H3 & H4) (H1' & H2' & H3' & H4') H. unfold writeVersionKey in H. rewrite <- !app_assoc in H.
  apply writeText_inj in H as [E1 H]; [|done..]. apply writeText_inj in H as [E2 H]; [|done..].
  apply writeText_inj in H as [E3 H]; [|done..]. apply writeText_inj in H as [E4 H]; [|done..].
  destruct k, k'; cbn in *; by subst.
Qed.

Lemma writeMessage_inj m m' rest rest' :
  messageFits m -> messageFits m' -> writeMessage m ++ rest = writeMessage m' ++ rest' -> m = m' /\ rest = rest'.
Proof.
  intros (H1 & H2 & H3) (H1' & H2' & H3') H. unfold writeMessage in H. rewrite <- !app_assoc in H.
  apply writeText_inj in H as [E1 H]; [|done..]. apply writeDigestUint64_inj in H as [E2 H]; [|done..].
  apply writeDigestField_inj in H as [E3 H]; [|done..]. destruct m, m'; cbn in *; by subst.
Qed.

(** ** The commands a transport can carry *)
Definition ActionFits (c : ActionCommand) : Prop :=
  is_uuid (acm_SessionID c) /\ is_uuid (acm_ActorUserID c) /\ textFits (acm_ActionID c) /\
  is_u64 (acm_ExpectedStateVersion c) /\ keyFits (acm_VersionKey c) /\ messageFits (acm_Command c).

Definition StartFits (c : StartCommand) : Prop :=
  is_uuid (sc_ActorUserID c) /\ is_uuid (sc_RoomID c) /\ textFits (Value (sc_OperationID c)) /\ textFits (sc_GameID c) /\
  is_u64 (Room.v_Room (sc_Expected c)) /\ is_u64 (Room.v_Membership (sc_Expected c)) /\ is_u64 (sc_ConfigRevision c) /\
  messageFits (sc_Config c).

Definition SystemFits (c : SystemCommand) : Prop :=
  is_uuid (scm_SessionID c) /\ textFits (Value (scm_OperationID c)) /\ textFits (src_Kind (scm_Source c)) /\
  is_uuid (src_EventID (scm_Source c)) /\ is_uuid (src_RequestedByUserID (scm_Source c)) /\ keyFits (scm_VersionKey c) /\
  is_u64 (scm_ExpectedStateVersion c) /\ messageFits (scm_Message c).

(** Two requests with the same digest are the same request or a collision. *)
Definition Collision (x y : list Z) : Prop := x <> y /\ Sha256.Sum256 x = Sha256.Sum256 y.

Lemma digest_cases x y : digestFromHash x = digestFromHash y -> x = y \/ Collision x y.
Proof. intros H. destruct (decide (x = y)); [by left|by right]. Qed.

Lemma actionWritten_inj c c' :
  ActionFits c -> ActionFits c' -> actionWritten c = actionWritten c' ->
  acm_SessionID c = acm_SessionID c' /\ acm_ActorUserID c = acm_ActorUserID c' /\ acm_ActionID c = acm_ActionID c' /\
  acm_ExpectedStateVersion c = acm_ExpectedStateVersion c' /\ acm_VersionKey c = acm_VersionKey c' /\ acm_Command c = acm_Command c'.
Proof.
  intros (H1 & H2 & H3 & H4 & H5 & H6) (H1' & H2' & H3' & H4' & H5' & H6') H. unfold actionWritten in H.
  apply writeUUID_inj in H as [E1 H]; [|done..]. apply writeUUID_inj in H as [E2 H]; [|done..].
  apply writeText_inj in H as [E3 H]; [|done..]. apply writeDigestUint64_inj in H as [E4 H]; [|done..].
  apply writeVersionKey_inj in H as [E5 H]; [|done..].
  rewrite <- (app_nil_r (writeMessage _)), <- (app_nil_r (writeMessage (acm_Command c'))) in H.
  by apply writeMessage_inj in H as [E6 _].
Qed.

Lemma startWritten_inj c c' :
  StartFits c -> StartFits c' -> startWritten c = startWritten c' ->
  sc_ActorUserID c = sc_ActorUserID c' /\ sc_RoomID c = sc_RoomID c' /\ Value (sc_OperationID c) = Value (sc_OperationID c') /\
  sc_GameID c = sc_GameID c' /\ sc_Expected c = sc_Expected c' /\ sc_ConfigRevision c = sc_ConfigRevision c' /\
  sc_Config c = sc_Config c'.
Proof.
  intros (H1 & H2 & H3 & H4 & H5 & H6 & H7 & H8) (H1' & H2' & H3' & H4' & H5' & H6' & H7' & H8') H. unfold startWritten in H.
  apply writeUUID_inj in H as [E1 H]; [|done..]. apply writeUUID_inj in H as [E2 H]; [|done..].
  apply writeText_inj in H as [E3 H]; [|done..]. apply writeText_inj in H as [E4 H]; [|done..].
  apply writeDigestUint64_inj in H as [E5 H]; [|done..]. apply writeDigestUint64_inj in H as [E6 H]; [|done..].
  apply writeDigestUint64_inj in H as [E7 H]; [|done..].
  rewrite <- (app_nil_r (writeMessage _)), <- (app_nil_r (writeMessage (sc_Config c'))) in H.
  apply writeMessage_inj in H as [E8 _]; [|done..]. split_and!; try done.
  destruct (sc_Expected c), (sc_Expected c'); cbn in *; by subst.
Qed.

Lemma systemWritten_inj c c' :
  SystemFits c -> SystemFits c' -> systemWritten c = systemWritten c' ->
  scm_SessionID c = scm_SessionID c' /\ Value (scm_OperationID c) = Value (scm_OperationID c') /\ scm_Source c = scm_Source c' /\
  scm_VersionKey c = scm_VersionKey c' /\ scm_Message c = scm_Message c' /\
  (src_Kind (scm_Source c) = SystemSourceHostAPI -> scm_ExpectedStateVersion c = scm_ExpectedStateVersion c').
Proof.
  intros (H1 & H2 & H3 & H4 & H5 & H6 & H7 & H8) (H1' & H2' & H3' & H4' & H5' & H6' & H7' & H8') H. unfold systemWritten in H.
  apply writeUUID_inj in H as [E1 H]; [|done..]. apply writeText_inj in H as [E2 H]; [|done..].
  apply writeText_inj in H as [E3 H]; [|done..]. apply writeUUID_inj in H as [E4 H]; [|done..].
  apply writeUUID_inj in H as [E5 H]; [|done..]. apply writeVersionKey_inj in H as [E6 H]; [|done..].
  assert (Hsrc : scm_Source c = scm_Source c') by (destruct (scm_Source c), (scm_Source c'); cbn in *; by subst).
  rewrite <- E3 in H.
  rewrite <- (app_nil_r (writeMessage _)), <- (app_nil_r (writeMessage (scm_Message c'))) in H.
  destruct (String.eqb_spec (src_Kind (scm_Source c)) SystemSourceHostAPI) as [Hk|Hk].
  - apply writeDigestUint64_inj in H as [E7 H]; [|done..]. by apply writeMessage_inj in H as [E8 _].
  - cbn [app] in H. by apply writeMessage_inj in H as [E8 _].
Qed.

End RuntimeCommands.
