(* ===== verification/RuntimeCommitFacts.v ===== *)
(** * What the session runtime commits is valid

    The sessions and batches the lifecycle of a session produces, bound with the
    receipt and the notification the service makes for them, pass the checks of
    the commit constructors of [platform/game-runtime/action.go]: no accepted
    transition is lost to its own commit check. *)

From S2P Require Import Prelude GoLib Selector GameManifest GameContract Outbox Runtime RuntimeFacts RuntimeMoves RuntimeLifecycle RuntimeCommit.

Module RuntimeCommitFacts.
Import GoLib Selector GameManifest GameContract Runtime RuntimeFacts RuntimeMoves RuntimeLifecycle RuntimeCommit.

(** ** Reflexive comparisons *)
Lemma Digest_eqb_refl d : Digest_eqb d d = true.
Proof. by apply Digest_eqb_eq. Qed.

Lemma sameGameMessage_refl m : sameGameMessage m m = true.
Proof. unfold sameGameMessage. rewrite String.eqb_refl, Z.eqb_refl. by apply bool_decide_eq_true. Qed.

Lemma sameFrozenStartConfig_refl f : sameFrozenStartConfig f f = true.
Proof. unfold sameFrozenStartConfig. by rewrite sameGameMessage_refl, Digest_eqb_refl, !Z.eqb_refl. Qed.

Lemma SameIdentity_same b a : SameIdentity b a -> sameSessionIdentity b a = true.
Proof.
  intros (E1 & E2 & E3 & E4 & E5 & E6). unfold sameSessionIdentity. rewrite E1, E2, E3, E4, E5, E6.
  rewrite !Z.eqb_refl, sameFrozenStartConfig_refl, !(bool_decide_true (_ = _)) by done. done.
Qed.

Lemma sameSnapshotState_refl s : sameSnapshotState s s = true.
Proof. unfold sameSnapshotState. rewrite !Z.eqb_refl, String.eqb_refl. by rewrite bool_decide_true. Qed.

(** ** A session has a deadline exactly when it has timers *)
Lemma earliest_nonzero v timers deadline : Forall (TimerOK v) timers -> deadline <> 0 -> earliest deadline timers <> 0.
Proof.
  intros HF. revert deadline. induction HF as [|t timers (_ & _ & Ht & _) _ IH]; intros d Hd; cbn [earliest]; [done|].
  apply IH. by destruct (_ || _).
Qed.

Lemma deadline_timers s : SessionOK s -> s_NextDeadlineAt s = 0 <-> s_Timers s = [].
Proof.
  intros H. pose proof (to_each _ _ (so_timers _ H)) as HF. rewrite <- (so_deadline _ H). split; [|by intros ->].
  destruct HF as [|t timers Ht HF]; [done|]. intros Hz. exfalso. revert Hz. cbn [earliest]. change (IsZero 0) with true. cbn [orb].
  apply (earliest_nonzero _ _ _ HF). apply Ht.
Qed.

(** ** The notification of a commit *)
Lemma canonicalTime_runtime t : Outbox.canonicalTime t = canonicalRuntimeTime t.
Proof. done. Qed.

Lemma NewEvent_matches id eventType sessionID payload at_ event :
  Outbox.NewEvent id eventType GameSessionAggregateType sessionID payload at_ at_ = Ok event ->
  outboxMatches eventType sessionID (canonicalRuntimeTime at_) event = true.
Proof.
  intros H. unfold Outbox.NewEvent, Outbox.restoreEvent in H. inv_result H. injection H as <-.
  unfold outboxMatches. cbn. by rewrite !String.eqb_refl, !Z.eqb_refl.
Qed.

(** ** Moves *)
Section Committed.
Context (b a : Session) (bt : EventBatch) (Hm : Moved b a bt) (Hb : SessionInv b).
Context (event : Outbox.Event) (Hevent : outboxMatches GameSessionTransitionedEventType (s_ID b) (b_CommittedAt bt) event = true).

Lemma moved_id : s_ID a = s_ID b.
Proof. by destruct (mv_identity _ _ _ Hm). Qed.

Lemma moved_version : StateVersion (s_State b) =? maxUint64 = false /\
  u64 (StateVersion (s_State b) + 1) = StateVersion (s_State a).
Proof.
  pose proof (si_version _ (mv_inv _ _ _ Hm)) as Ha. pose proof (si_version _ Hb) as Hv. rewrite (mv_version _ _ _ Hm) in *.
  unfold is_u64, maxUint64 in *. split; [lia|]. unfold u64. rewrite Z.mod_small; lia.
Qed.

Lemma moved_running : String.eqb (s_Status a) StatusActive || String.eqb (s_Status a) StatusFinished = true.
Proof. destruct (mv_status _ _ _ Hm) as [-> | ->]; done. Qed.

Lemma moved_valid cause :
  b_Cause bt = cause -> b_ActorUserID bt = Nil -> b_ActionID bt = noOperation -> validRuntimeTransition b a bt cause = true.
Proof.
  intros Hc Hactor Haction. unfold validRuntimeTransition. destruct moved_version as [Hv1 Hv2].
  destruct (mv_epoch _ _ _ Hm) as [He He0]. destruct (mv_recorded _ _ _ Hm) as (H1 & H2 & H3 & H4).
  rewrite (SameIdentity_same _ _ (mv_identity _ _ _ Hm)), (mv_active _ _ _ Hm), moved_running, Hv1, Hv2, He, H1, H2, H3, H4, Hc,
    Hactor, Haction, moved_id, !Z.eqb_refl, !String.eqb_refl.
  pose proof (si_epoch _ Hb) as Hw. unfold is_u64 in Hw. rewrite (proj2 (Z.ltb_lt 0 _)) by lia.
  unfold Before. rewrite (proj2 (Z.ltb_ge _ _)) by apply (mv_time _ _ _ Hm). done.
Qed.

Lemma moved_outbox : validTransitionOutbox a bt [event] = true.
Proof. unfold validTransitionOutbox. cbn [len length forallb]. by rewrite moved_id, Hevent. Qed.

Lemma NewActionCommit_accepts rc :
  b_Cause bt = EventCauseAction -> hasParticipant b (b_ActorUserID bt) = true ->
  ac_Key rc = mkActionKey (s_ID b) (b_ActorUserID bt) (b_ActionID bt) ->
  ac_StateVersion rc = StateVersion (s_State a) -> ac_CommittedAt rc = b_CommittedAt bt ->
  NewActionCommit b a bt rc [event] = Ok (mkCommit b a bt rc [event]).
Proof.
  intros Hc Hp Hk Hrv Hrt. unfold NewActionCommit. destruct moved_version as [Hv1 Hv2].
  destruct (mv_epoch _ _ _ Hm) as [He He0]. destruct (mv_recorded _ _ _ Hm) as (H1 & H2 & H3 & H4).
  rewrite (SameIdentity_same _ _ (mv_identity _ _ _ Hm)), (mv_active _ _ _ Hm), Hv1, Hv2, He, H1, H2, H3, H4, Hc, Hk, Hrv, Hrt, H4.
  cbn [ak_SessionID ak_ActorUserID ak_ActionID len length forallb]. change (participantSnapshotContains (s_Participants b)) with (hasParticipant b).
  rewrite H4 in Hevent.
  rewrite Hp, moved_id, Hevent, !Z.eqb_refl, !String.eqb_refl, (proj2 (Z.eqb_neq _ _) He0).
  unfold Before. rewrite (proj2 (Z.ltb_ge _ _)) by apply (mv_time _ _ _ Hm).
  destruct (mv_status _ _ _ Hm) as [-> | ->]; done.
Qed.

Lemma NewTimerCommit_accepts rc :
  b_Cause bt = EventCauseTimer -> b_ActorUserID bt = Nil -> b_ActionID bt = noOperation ->
  tc_Key rc = mkTimerKey (s_ID b) (b_TimerID bt) (StateVersion (s_State b)) ->
  (exists timer, timer ∈ s_Timers b /\ t_TimerID timer = b_TimerID bt) ->
  tc_StateVersion rc = StateVersion (s_State a) -> tc_CommittedAt rc = b_CommittedAt bt ->
  NewTimerCommit b a bt rc [event] = Ok (mkCommit b a bt rc [event]).
Proof.
  intros Hc Hactor Haction Hk (timer & Hin & Hid) Hrv Hrt. unfold NewTimerCommit.
  assert (Ht : sessionSnapshotContainsTimer b (tc_Key rc) = true).
  { unfold sessionSnapshotContainsTimer. apply existsb_exists. exists timer. rewrite <- list_elem_of_In. split; [done|].
    rewrite Hk, Hid. cbn. rewrite String.eqb_refl. pose proof (to_each _ _ (so_timers _ (si_ok _ Hb))) as HF.
    rewrite Forall_forall in HF. destruct (HF _ Hin) as (_ & -> & _). apply Z.eqb_refl. }
  rewrite (moved_valid _ Hc Hactor Haction), Ht, moved_outbox, Hk, Hrv, Hrt, moved_id. cbn.
  by rewrite !Z.eqb_refl, !String.eqb_refl.
Qed.

Lemma NewSystemCommit_accepts rc :
  b_Cause bt = EventCauseSystem -> b_ActorUserID bt = Nil -> b_ActionID bt = noOperation ->
  sc_Key rc = mkSystemKey (s_ID b) (b_SystemOperationID bt) (b_SystemSource bt) ->
  sc_RequestDigest rc = b_RequestDigest bt ->
  sc_StateVersion rc = StateVersion (s_State a) -> sc_CommittedAt rc = b_CommittedAt bt ->
  NewSystemCommit b a bt rc [event] = Ok (mkCommit b a bt rc [event]).
Proof.
  intros Hc Hactor Haction Hk Hd Hrv Hrt. unfold NewSystemCommit.
  rewrite (moved_valid _ Hc Hactor Haction), moved_outbox, Hk, Hd, Hrv, Hrt, moved_id. cbn.
  by rewrite !Z.eqb_refl, !String.eqb_refl, Digest_eqb_refl, bool_decide_true.
Qed.
End Committed.

(** ** Lifecycle changes *)
Section Lifecycle.
Context (b a : Session) (Hb : SessionInv b) (event : Outbox.Event).

Lemma NewLifecycleCommit_intro eventType :
  lifecycleShape b a = (eventType, true, true) -> SameIdentity b a -> s_OwnershipEpoch a = s_OwnershipEpoch b ->
  s_OwnershipEpoch b <> 0 -> s_UpdatedAt b < s_UpdatedAt a -> outboxMatches eventType (s_ID b) (s_UpdatedAt a) event = true ->
  NewLifecycleCommit b a [event] = Ok (mkLifecycleCommit b a [event]).
Proof.
  intros Hs Hid He He0 Ht Hev. unfold NewLifecycleCommit. rewrite Hs, (SameIdentity_same _ _ Hid), He.
  unfold After. rewrite Z.eqb_refl, (proj2 (Z.eqb_neq _ _) He0), (proj2 (Z.ltb_lt _ _) Ht). cbn [negb orb len length forallb].
  destruct Hid as (-> & _). by rewrite Hev.
Qed.

Lemma suspend_commits epoch at_ :
  Suspend b epoch at_ = Ok a ->
  outboxMatches GameSessionSuspendedEventType (s_ID b) (canonicalRuntimeTime at_) event = true ->
  NewLifecycleCommit b a [event] = Ok (mkLifecycleCommit b a [event]).
Proof.
  intros H Hev. destruct (Suspend_Ok _ _ _ _ Hb H) as (Hst & Hact & -> & He0 & Hlt & Ha).
  assert (Hterm : Terminal (s_Status b) = false) by by rewrite Hact.
  destruct (SessionOK_open _ (si_ok _ Hb) Hterm) as [Hend _].
  apply (NewLifecycleCommit_intro GameSessionSuspendedEventType); [|apply (sp_identity _ _ Hst)|by subst a..].
  subst a. unfold lifecycleShape. sess. rewrite Hact, Hend, !Z.eqb_refl, bool_decide_true, sameSnapshotState_refl by done.
  done.
Qed.

Lemma cancel_commits epoch at_ reason :
  Cancel b epoch at_ reason = Ok a ->
  outboxMatches GameSessionCancelledEventType (s_ID b) (canonicalRuntimeTime at_) event = true ->
  NewLifecycleCommit b a [event] = Ok (mkLifecycleCommit b a [event]).
Proof.
  intros H Hev. destruct (Cancel_Ok _ _ _ _ _ Hb H) as (Hst & He & He0 & Hs & Hstate & Hep & Ht & Hn & Hend & Hup & Hz & Hre & Hlt).
  apply (NewLifecycleCommit_intro GameSessionCancelledEventType); [|apply (sp_identity _ _ Hst)|congruence..].
  assert (Hopen : String.eqb (s_Status b) StatusActive || String.eqb (s_Status b) StatusSuspended = true).
  { pose proof (sp_edge _ _ Hst) as Hed. rewrite Hs in Hed. by inversion Hed as [| | | | |? [-> | ->]]. }
  unfold lifecycleShape. rewrite Hs, Hopen, Ht, Hn, Hend, Hup, Hstate, !Z.eqb_refl, sameSnapshotState_refl.
  unfold IsZero. rewrite (proj2 (Z.eqb_neq _ _) Hz). apply eqb_string_false in Hre. by rewrite Hre.
Qed.

Lemma sameShift_shift d v timers : Forall (TimerOK v) timers -> sameShift d timers (shiftTimer d <$> timers) = true.
Proof.
  induction 1 as [|t timers Ht _ IH]; [done|]. cbn [fmap list_fmap sameShift]. unfold shiftTimer at 1 2 3 4 5 6. destruct t. cbn in *.
  destruct Ht as (_ & _ & _ & _ & Hv). cbn in Hv. by rewrite !String.eqb_refl, !Z.eqb_refl, Hv, IH.
Qed.

Lemma resume_commits epoch at_ :
  Resume b epoch at_ = Ok a -> canonicalRuntimeTime at_ - s_SuspendedAt b <= maxInt64 ->
  outboxMatches GameSessionResumedEventType (s_ID b) (canonicalRuntimeTime at_) event = true ->
  NewLifecycleCommit b a [event] = Ok (mkLifecycleCommit b a [event]).
Proof.
  intros H Hrange Hev. destruct (Resume_exact _ Hb at_ Hrange _ _ H) as (Hstate & Htimers & Hd & Hpos).
  destruct (resumeWithAdjustment_Ok _ _ _ _ _ Hb H)
    as (Hst & Hsus & Hact & He & He0 & Hep & Hs0 & Hend & Hre & Hup & Hlt & Henv & _).
  apply (NewLifecycleCommit_intro GameSessionResumedEventType); [|apply (sp_identity _ _ Hst)|congruence..].
  pose proof (so_pause _ (si_ok _ Hb)) as Hp. unfold pauseInvalid in Hp. rewrite Hsus, String.eqb_refl in Hp. unfold IsZero in Hp. to_prop.
  assert (Hshift : validResumeTimerShift b a = true).
  { unfold validResumeTimerShift, IsZero, After. rewrite Hup, Htimers. rewrite (proj2 (Z.eqb_neq (s_SuspendedAt b) 0)) by done.
    rewrite (proj2 (Z.ltb_lt _ _)) by lia. unfold len. rewrite length_fmap, Z.eqb_refl, Sub_exact by lia.
    rewrite (sameShift_shift _ _ _ (to_each _ _ (so_timers _ (si_ok _ Hb)))). cbn [negb orb].
    pose proof (deadline_timers _ (si_ok _ Hb)) as Db. pose proof (deadline_timers _ (si_ok _ (sp_inv _ _ Hst))) as Da.
    assert (Hnil_iff : s_Timers a = [] <-> s_Timers b = []) by (rewrite Htimers; by destruct (s_Timers b)). destruct (decide (s_Timers b = [])) as [Hnil|Hne].
    - by rewrite (proj2 Db Hnil), (proj2 Da (proj2 Hnil_iff Hnil)).
    - rewrite (proj2 (Z.eqb_neq (s_NextDeadlineAt b) 0)), (proj2 (Z.eqb_neq (s_NextDeadlineAt a) 0)) by tauto.
      rewrite Hd. apply Z.eqb_refl. }
  unfold lifecycleShape. rewrite Hact, Hsus, Hshift, Hend, Hs0, Hre, Hstate. cbn.
  unfold resumeSnapshotStateShape. rewrite Hstate in Henv. unfold resumeSnapshotEnvelopePreserved in Henv. by rewrite Henv.
Qed.
End Lifecycle.

(** ** Creation *)
Record Created (request : NewSessionRequest) (s : Session) (bt : EventBatch) : Prop := mkCreated {
  cr_inv : SessionInv s;
  cr_id : s_ID s = ns_SessionID request /\ s_RoomID s = ns_RoomID request /\ s_VersionKey s = ns_VersionKey request;
  cr_epoch : s_OwnershipEpoch s = 0;
  cr_state : s_State s = tn_Snapshot (ns_Transition request) /\ StateVersion (s_State s) = 1;
  cr_status : s_Status s = if tn_Finished (ns_Transition request) then StatusFinished else StatusActive;
  cr_times : s_StartedAt s = canonicalRuntimeTime (Now (ns_Execution request)) /\ s_UpdatedAt s = s_StartedAt s;
  cr_batch : RestoreEventBatch bt = Ok bt;
  cr_recorded : b_ID bt <> Nil /\ b_SessionID bt = s_ID s /\ b_StateVersion bt = 1 /\ b_OwnershipEpoch bt = 0 /\
    b_Cause bt = EventCauseCreated /\ b_CommittedAt bt = s_StartedAt s;
}.

Lemma NewSession_Ok request s bt : NewSession request = Ok (s, bt) -> Created request s bt.
Proof.
  intros H. unfold NewSession in H. cbv zeta in H. inv_result H. inv_result H. inv_result H. inv_result H.
  destruct value1 as [timers deadline]. inv_result H. inv_result H. inv_result H. injection H as -> ->.
  destruct (RestoreEventBatch_Ok _ _ E5) as [Hbt Hbb]. pose proof (RestoreSession_Restored _ _ E4) as Hr. to_prop.
  pose proof (rs_state _ _ Hr) as Hst. cbn in Hst. pose proof (rs_epoch _ _ Hr) as Hep. cbn in Hep.
  constructor; try done.
  - constructor; [apply (rs_ok _ _ Hr)|rewrite Hst; match goal with E : StateVersion _ = 1 |- _ => by rewrite E end|by rewrite Hep].
  - by rewrite (rs_id _ _ Hr), (rs_room _ _ Hr), (rs_key _ _ Hr).
  - by rewrite Hst.
  - by rewrite (rs_status _ _ Hr).
  - by rewrite (rs_started _ _ Hr), (rs_updated _ _ Hr).
  - subst bt. rewrite (rs_started _ _ Hr), (rs_id _ _ Hr). by repeat split.
Qed.

Lemma creation_commits request s bt proof event :
  NewSession request = Ok (s, bt) -> match proof with Some p => PendingStartProof_Valid p = true | None => True end ->
  outboxMatches GameSessionCreatedEventType (s_ID s) (b_CommittedAt bt) event = true ->
  CreationCommit_Valid (mkCreationCommit s bt [event] proof) = true.
Proof.
  intros H Hp Hev. destruct (NewSession_Ok _ _ _ H) as [Hinv _ He [_ Hv] Hst _ _ (H1 & H2 & H3 & H4 & H5 & H6)].
  destruct (SessionOK_header _ (si_ok _ Hinv)) as (Hid & _). unfold CreationCommit_Valid.
  cbn [cc_Session cc_Batch cc_OutboxEvents cc_PendingStartProof len length forallb].
  rewrite Hev, Hv, He, H2, H3, H4, H5, H6, !Z.eqb_refl, (proj2 (Z.eqb_neq _ _) Hid), (proj2 (Z.eqb_neq _ _) H1), Hst.
  destruct proof as [proof|]; [rewrite Hp|]; by destruct (tn_Finished _).
Qed.

End RuntimeCommitFacts.
