(* ===== verification/RuntimeTheorems.v ===== *)
(** * Properties of game sessions

    The invariant of the sessions of [platform/game-runtime/model.go], the
    fencing of their owners, the acceptance of valid engine results together
    with their commit, the exactness of a pause, and the binding of an
    idempotency key to one request. *)

From S2P Require Import Prelude Sha256 GoLib Selector GameManifest GameContract Outbox Room Runtime RuntimeFacts RuntimeMoves RuntimeLifecycle RuntimeCommit RuntimeCommitFacts RuntimeCommands.

Module RuntimeTheorems.
Import GoLib Selector GameManifest GameContract Runtime RuntimeFacts RuntimeMoves RuntimeLifecycle RuntimeCommit RuntimeCommitFacts RuntimeCommands.

(** ** Histories of one session *)

(** The session after a sequence of accepted commands. *)
Definition history (session : Session) (commands : list Command) : res Session := fold_result exec session commands.

(** Whether a command is a move of the engine. *)
Definition isMove (command : Command) : bool :=
  match command with CmdAction _ | CmdTimer _ | CmdSystem _ => true | _ => false end.
Definition isAcquire (command : Command) : bool := match command with CmdAcquire _ _ => true | _ => false end.

Definition count (p : Command -> bool) (commands : list Command) : Z := Z.of_nat (length (List.filter p commands)).

Lemma count_cons p command commands : count p (command :: commands) = (if p command then 1 else 0) + count p commands.
Proof. unfold count. cbn. destruct (p command); cbn [length]; lia. Qed.

Lemma count_nonneg p commands : 0 <= count p commands.
Proof. unfold count. lia. Qed.

(** The state version counts the moves, the epoch the acquisitions. *)
Lemma exec_counts b command a : SessionInv b -> exec b command = Ok a ->
  StateVersion (s_State a) = StateVersion (s_State b) + (if isMove command then 1 else 0) /\
  s_OwnershipEpoch a = s_OwnershipEpoch b + (if isAcquire command then 1 else 0).
Proof.
  intros Hb H. destruct command as [rq|rq|rq|e t|e t|e t adj|e t r]; cbn [exec isMove isAcquire] in *.
  1-3: inv_results H; destruct value0; injection H as <-.
  - destruct (ApplyAction_Ok _ _ _ _ Hb E) as (Hm & _). destruct (mv_epoch _ _ _ Hm). rewrite (mv_version _ _ _ Hm). lia.
  - destruct (ApplyTimer_Ok _ _ _ _ Hb E) as (Hm & _). destruct (mv_epoch _ _ _ Hm). rewrite (mv_version _ _ _ Hm). lia.
  - destruct (ApplySystem_Ok _ _ _ _ Hb E) as (Hm & _). destruct (mv_epoch _ _ _ Hm). rewrite (mv_version _ _ _ Hm). lia.
  - destruct (AcquireOwnership_Ok _ _ _ _ Hb H) as (_ & -> & -> & -> & _). lia.
  - destruct (Suspend_Ok _ _ _ _ Hb H) as (_ & _ & _ & _ & _ & ->). cbn. lia.
  - destruct (resumeWithAdjustment_Ok _ _ _ _ _ Hb H) as (_ & _ & _ & _ & _ & -> & _ & _ & _ & _ & _ & Henv & _).
    unfold resumeSnapshotEnvelopePreserved in Henv. to_prop. lia.
  - destruct (Cancel_Ok _ _ _ _ _ Hb H) as (_ & _ & _ & _ & -> & -> & _). lia.
Qed.

Lemma SameIdentity_trans s t u : SameIdentity s t -> SameIdentity t u -> SameIdentity s u.
Proof. unfold SameIdentity. intros (H1 & H2 & H3 & H4 & H5 & H6) (G1 & G2 & G3 & G4 & G5 & G6). split_and!; congruence. Qed.

Lemma history_sound commands : forall s t, SessionInv s -> history s commands = Ok t ->
  SessionInv t /\ SameIdentity s t /\ StateVersion (s_State t) = StateVersion (s_State s) + count isMove commands /\
  s_OwnershipEpoch t = s_OwnershipEpoch s + count isAcquire commands /\ s_UpdatedAt s <= s_UpdatedAt t.
Proof.
  induction commands as [|command commands IH]; intros s t Hs H; cbn in H.
  - injection H as <-. unfold count. cbn. split_and!; try done; lia.
  - inv_result H. destruct (exec_Stepped _ _ _ Hs E) as [Hst _]. destruct (exec_counts _ _ _ Hs E) as [Hv He].
    destruct (IH _ _ (sp_inv _ _ Hst) H) as (Ht & Hid & Hv' & He' & Hup). rewrite !count_cons.
    pose proof (sp_time _ _ Hst). split_and!; [done|by eapply SameIdentity_trans; [apply (sp_identity _ _ Hst)|]|lia..].
Qed.

(** A terminal session refuses every command as such. *)
Lemma exec_terminal s command : Terminal (s_Status s) = true -> exec s command = Err ErrSessionTerminal.
Proof.
  intros H. destruct command; cbn [exec];
    unfold ApplyAction, ApplyTimer, ApplySystem, AcquireOwnership, Suspend, resumeWithAdjustment, Cancel; by rewrite H.
Qed.

(** A running session refuses every command of another epoch as fenced; a
    resumption is refused because nothing is suspended. *)
Lemma exec_fenced s command :
  s_Status s = StatusActive -> commandEpoch command <> s_OwnershipEpoch s ->
  exec s command = Err (match command with CmdResume _ _ _ => ErrInvalidLifecycleCommit | _ => ErrOwnershipLost end).
Proof.
  intros Ha He. destruct command; cbn [exec commandEpoch] in *;
    unfold ApplyAction, ApplyTimer, ApplySystem, AcquireOwnership, Suspend, resumeWithAdjustment, Cancel;
    rewrite Ha; change (Terminal StatusActive) with false; rewrite ?String.eqb_refl; cbn [negb];
    rewrite ?(proj2 (Z.eqb_neq _ _) He); cbn [negb]; rewrite ?orb_true_r; done.
Qed.

(** ** Valid engine results are accepted and committed *)
Section Accepted.
Context (b : Session) (Hb : SessionInv b) (Hactive : s_Status b = StatusActive) (Hpos : 0 < s_StartedAt b).
Context (execution : DeterministicContext) (Hexec : Context_Valid execution = true) (Hnow : s_UpdatedAt b <= Now execution).
Context (transition : Transition) (Hvalid : Transition_Validate transition (StateVersion (s_State b)) (Now execution) = Ok tt).
Context (Hfin : finishedWithTimers transition = false).

Lemma accepted_now : canonicalRuntimeTime (Now execution) <> 0.
Proof.
  pose proof (move_time b Hb execution Hexec Hnow). destruct (SessionOK_header _ (si_ok _ Hb)) as (_ & _ & _ & _ & _ & _ & Hst & _). lia.
Qed.

Lemma ApplyAction_accepts batchID actor action input :
  batchID <> Nil -> actor <> Nil -> OperationID_Valid action = true -> Message_Valid input = true ->
  hasParticipant b actor = true -> s_OwnershipEpoch b <> 0 ->
  exists a bt, ApplyAction b (mkActionRequest batchID (s_OwnershipEpoch b) actor action execution input transition) = Ok (a, bt) /\
    b_CommittedAt bt = canonicalRuntimeTime (Now execution).
Proof.
  intros Hbatch Hactor Hact Hinput Hpart Hep.
  destruct (move_accepted b Hb Hactive execution Hexec Hnow transition Hvalid Hpos Hfin) as (timers & deadline & a & Ht & Ha).
  destruct (move_version b Hb execution transition Hvalid) as (Hu & Hw & Hver).
  destruct (Transition_Validate_Ok _ _ _ (si_version _ Hb) Hvalid) as (Hmax & _ & _ & _ & Hev & _ & Hevents & _).
  destruct (SessionOK_header _ (si_ok _ Hb)) as (Hid & _). unfold ApplyAction.
  cbn [ar_BatchID ar_OwnershipEpoch ar_ActorUserID ar_ActionID ar_Execution ar_Input ar_Transition].
  rewrite Ht, Hactive, Hvalid, Hfin, Hu, Hver, Hexec, Hinput, Hpart, Hact, !Z.eqb_refl.
  change (Terminal StatusActive) with false. rewrite String.eqb_refl.
  rewrite !(proj2 (Z.eqb_neq _ _)) by (done || lia). unfold Before. rewrite (proj2 (Z.ltb_ge _ _)) by done.
  cbn [negb orb is_ok bind_result]. rewrite Ha. cbn [bind_result].
  rewrite RestoreEventBatch_accepts; try done; [by eexists _, _|unfold is_u64 in *; cbn; pose proof (si_version _ Hb) as Hv0; unfold is_u64 in Hv0; lia|apply accepted_now|].
  unfold causeInvalid. cbn [b_Cause b_OwnershipEpoch b_ActorUserID b_ActionID b_TimerID b_SystemOperationID b_SystemSource b_RequestDigest].
  rewrite Hact, !(proj2 (Z.eqb_neq _ _)) by done. vm_compute. reflexivity.
Qed.
End Accepted.

(** ** A sample session *)
Definition hostID : UUID := 17.
Definition guestID : UUID := 18.
Definition sampleAction : OperationID := mkSelector "paWlpaWlpaWlpaWlpaWlpQ" 16.
Definition sampleMessage (payload : Z) : Message := mkMessage "sample.message" 1 [payload].
Definition sampleContext (now : Time) : DeterministicContext := mkContext now (replicate RandomSeedBytes 7) ["seed-a"%string].
Definition sampleTimer (dueAt : Time) : TimerIntent := mkTimerIntent "turn" dueAt (sampleMessage 9).
Definition sampleTransition (version : Z) (timers : list TimerIntent) (finished : bool) : Transition :=
  mkTransition (mkGameSnapshot 1 version (sampleMessage version)) [mkEvent (sampleMessage version)] timers finished.
Definition sampleNew : NewSessionRequest :=
  mkNewSession 5 6 (mkVersionKey "liars-dice" "1.0.0" "1.0.0" "1.0.0") [mkParticipant guestID 1; mkParticipant hostID 0]
    noStart 7 (sampleContext 1000000) (sampleMessage 1) (sampleTransition 1 [sampleTimer 9000000] false).
Definition sampleMove (version epoch : Z) (now : Time) (timers : list TimerIntent) (finished : bool) : Command :=
  CmdAction (mkActionRequest 8 epoch hostID sampleAction (sampleContext now) (sampleMessage 3)
    (sampleTransition version timers finished)).

Definition noSession : Session :=
  mkSession 0 0 (mkVersionKey "" "" "" "") 0 [] noStart (mkGameSnapshot 0 0 noMessage) [] 0 "" 0 0 0 0 "".
Definition okOr {A} (default : A) (r : res A) : A := match r with Ok value => value | Err _ => default end.

Definition sampleCreated : Session * EventBatch := Eval vm_compute in okOr (noSession, noBatch) (NewSession sampleNew).
(** Owned in epoch 1. *)
Definition sampleOwned : Session := Eval vm_compute in okOr noSession (history sampleCreated.1 [CmdAcquire 0 2000000]).
(** Owned in epoch 2 by another process, and moved once. *)
Definition sampleTaken : Session := Eval vm_compute in okOr noSession (AcquireOwnership sampleOwned 1 3000000).
Definition sampleMoved : Session :=
  Eval vm_compute in okOr noSession (history sampleTaken [sampleMove 2 2 4000000 [sampleTimer 8000000] false]).

Lemma sampleOwned_Inv : SessionInv sampleOwned.
Proof.
  assert (H : NewSession sampleNew = Ok sampleCreated) by (vm_compute; reflexivity).
  apply (history_sound [CmdAcquire 0 2000000] sampleCreated.1); [|vm_compute; reflexivity].
  apply (cr_inv sampleNew _ sampleCreated.2). by apply NewSession_Ok.
Qed.

Lemma sampleTaken_Inv : SessionInv sampleTaken.
Proof.
  apply (history_sound [CmdAcquire 1 3000000] sampleOwned sampleTaken sampleOwned_Inv). vm_compute. reflexivity.
Qed.

(** ** The invariant *)

(** C23: Every session reached from its creation by accepted commands (moves,
    timers, system commands, changes of owner, pauses, cancellation) restores to
    itself from its stored snapshot; its release, room, participants, frozen
    start and start time are those of the creation; its state version is one
    plus the number of moves and its epoch the number of acquisitions, both in
    their 64 bits; every timer is bound to the current state version under its
    own identifier, and the next deadline is the earliest due time. *)
Theorem session_history_sound request s0 bt commands s :
  NewSession request = Ok (s0, bt) -> history s0 commands = Ok s ->
  RestoreSession s = Ok s /\ SameIdentity s0 s /\
  StateVersion (s_State s) = 1 + count isMove commands /\ is_u64 (StateVersion (s_State s)) /\
  s_OwnershipEpoch s = count isAcquire commands /\ is_u64 (s_OwnershipEpoch s) /\
  TimersOK (StateVersion (s_State s)) (s_Timers s) /\ s_NextDeadlineAt s = earliest 0 (s_Timers s) /\
  (Terminal (s_Status s) = true -> s_Timers s = [] /\ s_EndedAt s = s_UpdatedAt s).
Proof.
  intros Hnew Hh. destruct (NewSession_Ok _ _ _ Hnew) as [Hinv _ Hep [_ Hv] _ _ _ _].
  destruct (history_sound _ _ _ Hinv Hh) as (Ht & Hid & Hv' & He' & _). pose proof (si_ok _ Ht) as Hok.
  split_and!; try apply Ht; try apply Hok; try done; try lia.
  - by apply SessionOK_restores.
  - by rewrite (so_deadline _ Hok).
  - intros Hterm. pose proof (so_end _ Hok) as He. unfold endInvalid in He. rewrite Hterm in He. to_prop.
    match goal with E : len _ = 0 |- _ => unfold len in E; split; [by destruct (s_Timers s)|done] end.
Qed.

Lemma session_history_sound_witness : RestoreSession sampleMoved = Ok sampleMoved.
Proof.
  apply (session_history_sound sampleNew sampleCreated.1 sampleCreated.2
    [CmdAcquire 0 2000000; CmdAcquire 1 3000000; sampleMove 2 2 4000000 [sampleTimer 8000000] false]);
    vm_compute; reflexivity.
Defined.

(** ** Owners *)

(** Once a process has acquired a session, every command of an earlier
    epoch is refused, whatever the session has gone through since; while the
    session runs it is refused as fenced (a resumption because nothing is
    suspended). *)
Theorem stale_owner_fenced s epoch at_ s1 commands t command :
  SessionInv s -> AcquireOwnership s epoch at_ = Ok s1 -> history s1 commands = Ok t -> commandEpoch command <= epoch ->
  (exists e, exec t command = Err e) /\
  (s_Status t = StatusActive ->
   exec t command = Err (match command with CmdResume _ _ _ => ErrInvalidLifecycleCommit | _ => ErrOwnershipLost end)).
Proof.
  intros Hs Ha Hh Hle. destruct (AcquireOwnership_Ok _ _ _ _ Hs Ha) as (Hst & _ & Hep & _).
  destruct (history_sound _ _ _ (sp_inv _ _ Hst) Hh) as (Ht & _ & _ & He & _). pose proof (count_nonneg isAcquire commands).
  assert (Hne : commandEpoch command <> s_OwnershipEpoch t) by lia. split; [|by intros Hact; apply exec_fenced].
  destruct (exec t command) as [u|e] eqn:E; [|by exists e]. by destruct (exec_Stepped _ _ _ Ht E) as [_ Heq].
Qed.

Lemma stale_owner_fenced_witness :
  exec sampleMoved (sampleMove 3 1 5000000 [] false) = Err ErrOwnershipLost.
Proof.
  apply (stale_owner_fenced sampleOwned 1 3000000 sampleTaken [sampleMove 2 2 4000000 [sampleTimer 8000000] false] sampleMoved
    (sampleMove 3 1 5000000 [] false) sampleOwned_Inv); vm_compute; (reflexivity || discriminate).
Defined.

(** ** Status *)

(** The status of a session only changes along the edges of its lifecycle
    (active, suspended, finished, cancelled), and a finished or cancelled session
    answers every command with [ErrSessionTerminal]. *)
Theorem session_status_machine s commands t :
  SessionInv s -> history s commands = Ok t ->
  rtc Edge (s_Status s) (s_Status t) /\
  (Terminal (s_Status t) = true -> forall command, exec t command = Err ErrSessionTerminal) /\
  (Terminal (s_Status s) = true -> commands = [] /\ t = s).
Proof.
  intros Hs Hh. split_and!.
  - revert s Hs Hh. induction commands as [|command commands IH]; intros s Hs Hh; cbn in Hh; [by injection Hh as <-|].
    inv_result Hh. destruct (exec_Stepped _ _ _ Hs E) as [Hst _]. eapply rtc_l; [apply (sp_edge _ _ Hst)|].
    by apply IH; [apply (sp_inv _ _ Hst)|].
  - intros Hterm command. by apply exec_terminal.
  - intros Hterm. destruct commands as [|command commands]; cbn in Hh; [by injection Hh as <-|].
    by rewrite exec_terminal in Hh.
Qed.

Lemma session_status_machine_witness : rtc Edge (s_Status sampleOwned) (s_Status sampleMoved).
Proof.
  apply (session_status_machine sampleOwned [CmdAcquire 1 3000000; sampleMove 2 2 4000000 [sampleTimer 8000000] false] sampleMoved
    sampleOwned_Inv). vm_compute. reflexivity.
Defined.

(** ** Moves *)

(** A valid result of the engine for a participant of a running session is
    always accepted: the action returns the next session, one state version
    later, with its event batch; the receipt of the service is built, and the
    commit that binds them with any notification of the service passes its own
    checks.  So no legal move is lost between the engine and the store. *)
Theorem valid_action_commits b batchID actor action execution input transition requestDigest :
  SessionInv b -> s_Status b = StatusActive -> 0 < s_StartedAt b -> s_OwnershipEpoch b <> 0 ->
  Context_Valid execution = true -> s_UpdatedAt b <= Now execution ->
  Transition_Validate transition (StateVersion (s_State b)) (Now execution) = Ok tt -> finishedWithTimers transition = false ->
  batchID <> Nil -> actor <> Nil -> OperationID_Valid action = true -> Message_Valid input = true ->
  hasParticipant b actor = true ->
  exists a bt rc,
    ApplyAction b (mkActionRequest batchID (s_OwnershipEpoch b) actor action execution input transition) = Ok (a, bt) /\
    s_State a = tn_Snapshot transition /\ StateVersion (s_State a) = StateVersion (s_State b) + 1 /\
    b_Events bt = tn_Events transition /\
    NewActionReceipt (mkActionReceipt (mkActionKey (s_ID b) actor action) requestDigest ResultCodeAccepted
      (transitionResultDigest (s_ID b) (StateVersion (s_State a)) ResultCodeAccepted) (StateVersion (s_State a)) (Now execution)) = Ok rc /\
    (forall id payload event,
       Outbox.NewEvent id GameSessionTransitionedEventType GameSessionAggregateType (s_ID b) payload (Now execution) (Now execution) = Ok event ->
       NewActionCommit b a bt rc [event] = Ok (mkCommit b a bt rc [event])).
Proof.
  intros Hb Hactive Hpos Hep Hexec Hnow Hvalid Hfin Hbatch Hactor Hact Hinput Hpart.
  destruct (ApplyAction_accepts b Hb Hactive Hpos execution Hexec Hnow transition Hvalid Hfin batchID actor action input)
    as (a & bt & Hok & Hat); try done.
  destruct (ApplyAction_Ok _ _ _ _ Hb Hok) as (Hm & _ & Hc & Hba & Hbi & _ & Hst & Hup & Hev).
  destruct (SessionOK_header _ (si_ok _ Hb)) as (Hid & _).
  pose proof (accepted_now b Hb Hpos execution Hexec Hnow) as Hz. pose proof (mv_version _ _ _ Hm) as Hver.
  pose proof (si_version _ Hb) as Hv0. unfold is_u64 in Hv0.
  eexists a, bt, _. split_and!; try done.
  - unfold NewActionReceipt, ActionKey_Valid. cbn [update ac_Key ac_RequestDigest ac_ResultCode ac_ResultDigest ac_StateVersion ac_CommittedAt
      ak_SessionID ak_ActorUserID ak_ActionID]. rewrite Hact. unfold IsZero.
    rewrite !(proj2 (Z.eqb_neq _ _)) by (done || lia). reflexivity.
  - intros id payload event He. apply NewEvent_matches in He. apply NewActionCommit_accepts; try done; cbn.
    + by rewrite Hat.
    + by rewrite Hba.
    + by rewrite Hba, Hbi.
Qed.

Lemma valid_action_commits_witness : exists a bt,
  ApplyAction sampleTaken (mkActionRequest 8 2 hostID sampleAction (sampleContext 4000000) (sampleMessage 3)
    (sampleTransition 2 [sampleTimer 8000000] false)) = Ok (a, bt).
Proof.
  destruct (valid_action_commits sampleTaken 8 hostID sampleAction (sampleContext 4000000) (sampleMessage 3)
    (sampleTransition 2 [sampleTimer 8000000] false) zeroDigest sampleTaken_Inv) as (a & bt & rc & H & _);
    [reflexivity|reflexivity|discriminate|reflexivity|discriminate|reflexivity|reflexivity|discriminate|discriminate|reflexivity..|].
  by exists a, bt.
Defined.

(** A timer runs at most once.  What fires is a timer of the session, due
    and unchanged, for the state it was set for; its commit is valid; and
    afterwards no timer of that state version is accepted again, whatever
    happens to the session. *)
Theorem timer_fires_once b request a bt commands t request' :
  SessionInv b -> ApplyTimer b request = Ok (a, bt) -> history a commands = Ok t ->
  tt_ExpectedStateVersion request' = tt_ExpectedStateVersion request ->
  (exists timer, timer ∈ s_Timers b /\ t_TimerID timer = tt_TimerID request /\
     t_ExpectedStateVersion timer = tt_ExpectedStateVersion request /\ t_DueAt timer <= Now (tt_Execution request) /\
     t_Message timer = tt_Input request) /\
  (forall rc event, tc_Key rc = mkTimerKey (s_ID b) (tt_TimerID request) (tt_ExpectedStateVersion request) ->
     tc_StateVersion rc = StateVersion (s_State a) -> tc_CommittedAt rc = b_CommittedAt bt ->
     outboxMatches GameSessionTransitionedEventType (s_ID b) (b_CommittedAt bt) event = true ->
     TimerCommit_Valid (mkCommit b a bt rc [event]) = true) /\
  (exists e, ApplyTimer t request' = Err e).
Proof.
  intros Hb Ha Hh Hv. destruct (ApplyTimer_Ok _ _ _ _ Hb Ha) as (Hm & _ & Hc & Hactor & Haction & Htid & Hev & Htimer & _).
  split_and!; [done| |].
  - intros rc event Hk Hrv Hrt Hevent. destruct Htimer as (timer & Hin & Hid & _).
    unfold TimerCommit_Valid. cbn [before after batch receipt outboxEvents].
    rewrite (NewTimerCommit_accepts b a bt Hm Hb event Hevent); try done; [by rewrite Hk, Htid, Hev|].
    exists timer. by rewrite Htid.
  - destruct (history_sound _ _ _ (mv_inv _ _ _ Hm) Hh) as (Ht & _ & Hv' & _).
    destruct (ApplyTimer t request') as [[u bt']|e] eqn:E; [|by exists e].
    destruct (ApplyTimer_Ok _ _ _ _ Ht E) as (_ & _ & _ & _ & _ & _ & Hev' & _).
    pose proof (count_nonneg isMove commands). pose proof (mv_version _ _ _ Hm). lia.
Qed.

Definition sampleFire : TimerTransitionRequest :=
  mkTimerTransition 9 1 "turn" 1 (sampleContext 9000000) (sampleMessage 9) (sampleTransition 2 [] true).
Definition sampleFired : Session * EventBatch := Eval vm_compute in okOr (noSession, noBatch) (ApplyTimer sampleOwned sampleFire).

Lemma timer_fires_once_witness : exists e, ApplyTimer sampleFired.1 sampleFire = Err e.
Proof.
  apply (timer_fires_once sampleOwned sampleFire sampleFired.1 sampleFired.2 [] sampleFired.1 sampleFire sampleOwned_Inv);
    vm_compute; reflexivity.
Defined.

(** ** Pauses *)

(** A pause costs no player any time.  A running session can always be
    suspended and resumed later (within the 292 years of a [time.Duration]);
    the resumed session has the state of before, every timer and the next
    deadline later by exactly the pause, no timer fires in between, and both
    changes pass the checks of their commits. *)
Theorem pause_shifts_timers b suspendAt resumeAt :
  SessionInv b -> s_Status b = StatusActive -> s_OwnershipEpoch b <> 0 -> 0 < s_StartedAt b ->
  Forall (fun timer => 0 < t_DueAt timer) (s_Timers b) -> s_UpdatedAt b < canonicalRuntimeTime suspendAt ->
  canonicalRuntimeTime suspendAt < canonicalRuntimeTime resumeAt ->
  canonicalRuntimeTime resumeAt - canonicalRuntimeTime suspendAt <= maxInt64 ->
  let pause := canonicalRuntimeTime resumeAt - canonicalRuntimeTime suspendAt in
  exists p a, Suspend b (s_OwnershipEpoch b) suspendAt = Ok p /\ Resume p (s_OwnershipEpoch b) resumeAt = Ok a /\
    s_Status p = StatusSuspended /\ (forall request, ApplyTimer p request = Err ErrSessionSuspended) /\
    s_Status a = StatusActive /\ s_State a = s_State b /\ s_Timers a = shiftTimer pause <$> s_Timers b /\
    s_NextDeadlineAt a = (if decide (s_Timers b = []) then 0 else s_NextDeadlineAt b + pause) /\
    (forall event, outboxMatches GameSessionSuspendedEventType (s_ID b) (canonicalRuntimeTime suspendAt) event = true ->
       NewLifecycleCommit b p [event] = Ok (mkLifecycleCommit b p [event])) /\
    (forall event, outboxMatches GameSessionResumedEventType (s_ID b) (canonicalRuntimeTime resumeAt) event = true ->
       NewLifecycleCommit p a [event] = Ok (mkLifecycleCommit p a [event])).
Proof.
  intros Hb Hact Hep Hpos Hdue Hlt Hlt' Hrange pause. destruct (Suspend_accepts b suspendAt) as [p Hp]; try done.
  destruct (Suspend_Ok _ _ _ _ Hb Hp) as (Hst & _ & _ & _ & _ & Heq). pose proof (sp_inv _ _ Hst) as Hpi.
  assert (Hsus : s_SuspendedAt p = canonicalRuntimeTime suspendAt /\ s_UpdatedAt p = canonicalRuntimeTime suspendAt /\
    s_Status p = StatusSuspended /\ s_OwnershipEpoch p = s_OwnershipEpoch b /\ s_Timers p = s_Timers b /\ s_State p = s_State b /\
    s_StartedAt p = s_StartedAt b /\ s_ID p = s_ID b /\ s_NextDeadlineAt p = s_NextDeadlineAt b) by (by subst p).
  destruct Hsus as (H1 & H2 & H3 & H4 & H5 & H6 & H7 & H8 & H9).
  destruct (Resume_accepts p resumeAt) as [a Ha]; try done; [by rewrite H4|by rewrite H7|by rewrite H5|by rewrite H2|by rewrite H1|].
  rewrite H4 in Ha. destruct (resumeWithAdjustment_Ok _ _ _ _ _ Hpi Ha) as (_ & _ & Hra & _).
  destruct (Resume_exact _ Hpi resumeAt ltac:(rewrite H1; exact Hrange) _ _ Ha) as (R1 & R2 & R3 & _).
  rewrite H1, H5 in R2. rewrite H1, H5, H9 in R3. rewrite H6 in R1.
  exists p, a. split_and!; try done.
  - intros request. unfold ApplyTimer. by rewrite H3.
  - intros event Hev. by apply (suspend_commits b p Hb event _ _ Hp).
  - intros event Hev. apply (resume_commits p a Hpi event _ _ Ha); [by rewrite H1|by rewrite H8].
Qed.

Lemma pause_shifts_timers_witness : exists p a,
  Suspend sampleOwned 1 4000000 = Ok p /\ Resume p 1 7000000 = Ok a /\ s_NextDeadlineAt a = s_NextDeadlineAt sampleOwned + 3000000.
Proof.
  destruct (pause_shifts_timers sampleOwned 4000000 7000000 sampleOwned_Inv) as (p & a & H1 & H2 & _ & _ & _ & _ & _ & H3 & _);
    [reflexivity|discriminate|reflexivity| |reflexivity|reflexivity|discriminate|].
  - repeat constructor.
  - exists p, a. split; [exact H1|split; [exact H2|]]. rewrite H3, decide_False by discriminate. reflexivity.
Defined.

(** ** Requests *)

(** C24: A receipt replays only for the request it was made for: if the digest
    of another action, start or system command matches, then what was asked is
    the same (the digest leaves out only what the service recomputes), or the
    two are a collision of SHA-256. *)
Theorem receipts_bind_requests :
  (forall c c' rc rc', ActionFits c -> ActionFits c' -> ac_RequestDigest rc = actionDigest c ->
     ActionReceipt_Replay rc (actionDigest c') = Ok rc' ->
     (acm_SessionID c = acm_SessionID c' /\ acm_ActorUserID c = acm_ActorUserID c' /\ acm_ActionID c = acm_ActionID c' /\
      acm_ExpectedStateVersion c = acm_ExpectedStateVersion c' /\ acm_VersionKey c = acm_VersionKey c' /\ acm_Command c = acm_Command c')
     \/ Collision (actionWritten c) (actionWritten c')) /\
  (forall c c' rc rc', StartFits c -> StartFits c' -> stc_RequestDigest rc = startDigest c ->
     StartReceipt_Replay rc (startDigest c') = Ok rc' ->
     (sc_ActorUserID c = sc_ActorUserID c' /\ sc_RoomID c = sc_RoomID c' /\
      Value (sc_OperationID c) = Value (sc_OperationID c') /\ sc_GameID c = sc_GameID c' /\ sc_Expected c = sc_Expected c' /\
      sc_ConfigRevision c = sc_ConfigRevision c' /\ sc_Config c = sc_Config c')
     \/ Collision (startWritten c) (startWritten c')) /\
  (forall c c' rc rc', SystemFits c -> SystemFits c' -> RuntimeCommit.sc_RequestDigest rc = systemDigest c ->
     SystemReceipt_Replay rc (systemDigest c') = Ok rc' ->
     (scm_SessionID c = scm_SessionID c' /\ Value (scm_OperationID c) = Value (scm_OperationID c') /\ scm_Source c = scm_Source c' /\
      scm_VersionKey c = scm_VersionKey c' /\ scm_Message c = scm_Message c' /\
      (src_Kind (scm_Source c) = SystemSourceHostAPI -> scm_ExpectedStateVersion c = scm_ExpectedStateVersion c'))
     \/ Collision (systemWritten c) (systemWritten c')).
Proof.
  split_and!; intros c c' rc rc' Hf Hf' Hd H.
  - unfold ActionReceipt_Replay in H. inv_result H. apply negb_false_iff, Digest_eqb_eq in E. rewrite Hd in E.
    destruct (digest_cases _ _ E) as [Hw|]; [left; by apply actionWritten_inj|by right].
  - unfold StartReceipt_Replay in H. inv_result H. inv_result H. apply negb_false_iff, Digest_eqb_eq in E0. rewrite Hd in E0.
    destruct (digest_cases _ _ E0) as [Hw|]; [left; by apply startWritten_inj|by right].
  - unfold SystemReceipt_Replay in H. inv_result H. apply negb_false_iff, Digest_eqb_eq in E. rewrite Hd in E.
    destruct (digest_cases _ _ E) as [Hw|]; [left; by apply systemWritten_inj|by right].
Qed.

End RuntimeTheorems.
