(* ===== verification/ContractTheorems.v ===== *)
(** * Properties of identifiers and of the module registry

    The opaque selectors of [platform/identifier] survive being sent as text,
    and the registry of [sdk/go/game/registry.go] resolves exactly the releases
    that were registered. *)

From stdpp Require Import gmap.
From S2P Require Import Prelude GoLib Identifier Selector GameManifest.

Module ContractTheorems.
Import GoLib Selector GameManifest.

(** ** Selectors *)

(** The text of a selector made from 16 to 64 random bytes names those
    bytes and no others: it decodes to them, parses back to the same selector
    as an operation identifier, and is a valid action identifier of the SDK. *)
Theorem selector_roundtrip entropy selector :
  Forall is_u8 entropy -> NewSelector entropy = Ok selector ->
  DecodeString (Value selector) = Some entropy /\ ParseOperationID (Value selector) = Ok selector /\
  ActionID_Valid (Value selector) = true /\
  (forall other selector', Forall is_u8 other -> NewSelector other = Ok selector' ->
     Value selector' = Value selector -> other = entropy).
Proof.
  intros Hb H. pose proof (ParseSelector_NewSelector _ _ Hb H) as Hp.
  assert (Hdec : forall e s, Forall is_u8 e -> NewSelector e = Ok s -> DecodeString (Value s) = Some e).
  { intros e s He Hs. unfold NewSelector in Hs. inv_result Hs. injection Hs as <-. by apply DecodeString_EncodeToString. }
  assert (Ho : ParseOperationID (Value selector) = Ok selector) by (unfold ParseOperationID; by rewrite Hp).
  split_and!; [by apply Hdec|done|by rewrite ActionID_Valid_ParseOperationID, Ho|].
  intros other selector' Hb' H' Heq. pose proof (Hdec _ _ Hb' H') as Hd. rewrite Heq, (Hdec _ _ Hb H) in Hd. by injection Hd.
Qed.

Lemma selector_roundtrip_witness :
  DecodeString "paWlpaWlpaWlpaWlpaWlpQ" = Some (replicate 16 165).
Proof.
  apply (selector_roundtrip (replicate 16 165) (mkSelector "paWlpaWlpaWlpaWlpaWlpQ" 16)); [|vm_compute; reflexivity].
  apply Forall_replicate. unfold is_u8. lia.
Defined.

(** ** The registry *)
Section Registry.
Context {GameModule : Type} (manifestOf : GameModule -> Manifest).

Lemma Registers_key registration key key' manifest manifest' m m' :
  Registers manifestOf registration key manifest m -> Registers manifestOf registration key' manifest' m' ->
  key = key' /\ manifest = manifest' /\ m = m'.
Proof. unfold Registers. intros (H1 & H2 & <-) (G1 & G2 & <-). rewrite H1 in G1. injection G1 as <-. rewrite H2 in G2. by injection G2 as <-. Qed.

Lemma Resolve_exact registry registrations key m :
  Holds manifestOf registry registrations ->
  Resolve registry key = Ok m <->
  exists registration manifest, registration ∈ registrations /\ Registers manifestOf registration key manifest m.
Proof.
  intros HH. rewrite (Resolve_Holds manifestOf _ _ _ _ HH). split; [intros (r & mf & Hr & HR & _); eauto|].
  intros (r & mf & Hr & HR). exists r, mf. split_and!; try done.
  destruct (holds_all _ _ _ HH r Hr) as (key' & mf' & m' & HR' & Hl). by destruct (Registers_key _ _ _ _ _ _ _ HR HR') as (-> & -> & ->).
Qed.
End Registry.

(** A registry resolves a release exactly to the module registered under
    its full version key, so a stored session never runs on another release;
    no two registrations share a key; and every registered game has a default
    release, which is a registration marked as such for that game. *)
Theorem registry_exact {GameModule : Type} (manifestOf : GameModule -> Manifest) registrations registry :
  NewRegistry manifestOf registrations = Ok registry ->
  (forall key m, Resolve registry key = Ok m <->
     exists registration manifest, registration ∈ registrations /\ Registers manifestOf registration key manifest m) /\
  (forall key m m', Resolve registry key = Ok m -> Resolve registry key = Ok m' -> m = m') /\
  (forall registration key manifest m, registration ∈ registrations -> Registers manifestOf registration key manifest m ->
     exists registration' key' manifest' m', registration' ∈ registrations /\ reg_Default registration' = true /\
       Registers manifestOf registration' key' manifest' m' /\ GameID key' = GameID key /\
       DefaultManifest false registry (GameID key) = Ok manifest' /\ DefaultModule false registry (GameID key) = Ok m').
Proof.
  intros H. destruct (NewRegistry_Holds _ _ _ H) as (HH & _ & Hdef). split_and!.
  - intros key m. by apply Resolve_exact.
  - intros key m m' H1 H2. congruence.
  - intros r key mf m Hr HR. destruct (holds_all _ _ _ HH r Hr) as (key' & mf' & m' & HR' & Hl).
    destruct (Registers_key _ _ _ _ _ _ _ _ HR HR') as (<- & <- & <-).
    destruct (Hdef key) as [dkey Hd]; [by apply (holds_keys _ _ _ HH); eexists|].
    destruct (holds_defaults _ _ _ HH _ _ Hd) as (Hg & r' & dmf & dm & Hr' & Hflag & HRd & Hld).
    destruct HRd as (Hm1 & Hm2 & Hm3). destruct (ValidateManifest_key _ _ Hm2) as [_ Hval].
    assert (Hman : DefaultManifest false registry (GameID key) = Ok dmf).
    { unfold DefaultManifest, ManifestOf. rewrite Hd. rewrite Hm3 in Hval. rewrite Hval, Hld. cbn [negb].
      unfold VersionKey_Valid in Hval. rewrite Hg in Hval. to_prop. by destruct (is_ok (ParseGameID _)). }
    exists r', dkey, dmf, dm. split_and!; try done.
    unfold DefaultModule. rewrite Hman. cbn [bind_result]. rewrite Hm3. apply (Resolve_exact manifestOf _ _ _ _ HH). by exists r', dmf.
Qed.

Definition sampleManifest : Manifest :=
  mkManifest "liars-dice" (mkVersionSet "1.0.0" "1.0.0" "1.0.0") (mkLimits 2 8 0 0)
    (mkCapabilities SubmissionModeTurnBased true true true RevealPolicyRuleControlled)
    (mkPresentation TableShapeAdaptive OrientationResponsive ActionDockBottomEdge) (mkThemes "classic" "classic" ["classic"%string]).
Definition sampleRegistry : Registry (GameModule := unit) :=
  match NewRegistry (fun _ => sampleManifest) [mkRegistration (Some tt) true] with Ok registry => registry | Err _ => emptyRegistry end.

Lemma registry_exact_witness : Resolve sampleRegistry (mkVersionKey "liars-dice" "1.0.0" "1.0.0" "1.0.0") = Ok tt.
Proof.
  destruct (registry_exact (fun _ : unit => sampleManifest) [mkRegistration (Some tt) true] sampleRegistry) as (H & _);
    [vm_compute; reflexivity|].
  apply H. eexists _, _. split; [by apply list_elem_of_singleton|]. split_and!; [reflexivity|vm_compute; reflexivity|reflexivity].
Defined.

End ContractTheorems.
