(* ===== verification/RuntimeStore.v ===== *)
(** * The session repository: rows

    The rows of [game_sessions] and its child tables, and the conversions of
    [platform/persistence/postgres/game_session_repository.go],
    [system_inbox_repository.go] and [outbox_repository.go] between them and the
    values of the runtime.  As in [RoomStore], the tables are values and a
    nullable column is an [option]. *)

From stdpp Require Import gmap.
From S2P Require Import Prelude GoLib Selector GameManifest GameContract Outbox Room RoomStore Runtime RuntimeCommit.

Module RuntimeStore.
Import GoLib Selector GameManifest GameContract Runtime RuntimeCommit.

Abbreviation uuidToPG := RoomStore.uuidToPG.
Abbreviation timeToPG := RoomStore.timeToPG.
Abbreviation optionalTimeToPG := RoomStore.optionalTimeToPG.
Abbreviation optionalTimeFromPG := RoomStore.optionalTimeFromPG.
Abbreviation optionalUUIDToPG := RoomStore.optionalUUIDToPG.
Abbreviation optionalUUIDFromPG := RoomStore.optionalUUIDFromPG.
Abbreviation i32 := RoomStore.i32.
Abbreviation i64 := RoomStore.i64.
Abbreviation maxInt32 := RoomStore.maxInt32.

#[global] Instance SessionSnapshot_eq_dec : EqDecision SessionSnapshot.
Proof. solve_decision. Defined.

(** ** Rows *)
Record GameSessionRow := mkSessionRow {
  g_SessionID : option UUID;
  g_RoomID : option UUID;
  g_GameID : string;
  g_EngineVersion : string;
  g_ProtocolVersion : string;
  g_ClientVersion : string;
  g_StateVersion : Z;
  g_OwnershipEpoch : Z;
  g_SnapshotVersion : Z;
  g_StateMessageType : string;
  g_StateSchemaVersion : Z;
  g_StatePayload : list Z;
  g_StartConfigMessageType : option string;
  g_StartConfigSchemaVersion : option Z;
  g_StartConfigPayload : option (list Z);
  g_StartConfigDigest : option (list Z);
  g_StartConfigRevision : option Z;
  g_StartRoomVersion : option Z;
  g_StartMembershipVersion : option Z;
  g_StartOwnershipEpoch : option Z;
  g_CancelReason : option string;
  g_NextDeadlineAt : option Time;
  g_SuspendedAt : option Time;
  g_Status : string;
  g_StartedAt : option Time;
  g_UpdatedAt : option Time;
  g_EndedAt : option Time;
}.

Record ParticipantRow := mkParticipantRow { pr_SessionID : option UUID; pr_UserID : option UUID; pr_SeatIndex : Z }.

Record TimerRow := mkTimerRow {
  tr_SessionID : option UUID;
  tr_TimerID : string;
  tr_ExpectedStateVersion : Z;
  tr_DueAt : option Time;
  tr_MessageType : string;
  tr_SchemaVersion : Z;
  tr_Payload : list Z;
}.

Record BatchRow := mkBatchRow {
  br_BatchID : option UUID;
  br_SessionID : option UUID;
  br_StateVersion : Z;
  br_OwnershipEpoch : Z;
  br_Cause : string;
  br_ActorUserID : option UUID;
  br_ActionID : option string;
  br_TimerID : option string;
  br_SystemOperationID : option string;
  br_SystemSourceKind : option string;
  br_SystemSourceEventID : option UUID;
  br_SystemRequestedByUserID : option UUID;
  br_SystemRequestDigest : option (list Z);
  br_ExecutedAt : option Time;
  br_RandomSeed : list Z;
  br_AllocatedIds : list string;
  br_InputMessageType : string;
  br_InputSchemaVersion : Z;
  br_InputPayload : list Z;
  br_EventCount : Z;
  br_CommittedAt : option Time;
}.

Record EventRow := mkEventRow {
  er_BatchID : option UUID;
  er_EventOrdinal : Z;
  er_MessageType : string;
  er_SchemaVersion : Z;
  er_Payload : list Z;
}.

Record ActionReceiptRow := mkActionReceiptRow {
  arr_SessionID : option UUID;
  arr_ActorUserID : option UUID;
  arr_ActionID : string;
  arr_RequestDigest : list Z;
  arr_ResultCode : string;
  arr_ResultDigest : list Z;
  arr_CommittedStateVersion : Z;
  arr_CommittedAt : option Time;
}.

Record TimerReceiptRow := mkTimerReceiptRow {
  trr_SessionID : option UUID;
  trr_TimerID : string;
  trr_ExpectedStateVersion : Z;
  trr_ResultCode : string;
  trr_ResultDigest : list Z;
  trr_CommittedStateVersion : Z;
  trr_BatchID : option UUID;
  trr_CommittedAt : option Time;
}.

Record SystemOperationRow := mkSystemOperationRow {
  so_SessionID : option UUID;
  so_OperationID : string;
  so_SourceKind : string;
  so_SourceEventID : option UUID;
  so_RequestedByUserID : option UUID;
  so_LogicalDigest : list Z;
  so_Status : string;
  so_ResultCode : option string;
  so_ResultDigest : option (list Z);
  so_CommittedStateVersion : option Z;
  so_BatchID : option UUID;
  so_CreatedAt : option Time;
  so_CompletedAt : option Time;
}.

Record InboxRow := mkInboxRow {
  ir_SessionID : option UUID;
  ir_SourceEventID : option UUID;
  ir_EventType : string;
  ir_PayloadDigest : list Z;
  ir_Status : string;
  ir_CommittedStateVersion : option Z;
  ir_CreatedAt : option Time;
  ir_CompletedAt : option Time;
}.

Record OutboxEventRow := mkOutboxRow {
  oe_EventSequence : Z;
  oe_EventID : option UUID;
  oe_EventType : string;
  oe_AggregateType : string;
  oe_AggregateID : option UUID;
  oe_Payload : list Z;
  oe_CreatedAt : option Time;
  oe_AvailableAt : option Time;
}.

Record StartReceiptRow := mkStartReceiptRow {
  str_ActorUserID : option UUID;
  str_RoomID : option UUID;
  str_OperationID : string;
  str_RequestDigest : list Z;
  str_SessionID : option UUID;
  str_CommittedAt : option Time;
}.

Record ReplayAccessRow := mkReplayAccessRow {
  ra_SessionID : option UUID;
  ra_RoomID : option UUID;
  ra_Policy : string;
  ra_PolicyVersion : Z;
  ra_MemberSnapshotCompletedAt : option Time;
  ra_CreatedAt : option Time;
  ra_UpdatedAt : option Time;
}.
#[global] Instance replay_access_eta : Eta ReplayAccessRow := fun r => mkReplayAccessRow (ra_SessionID r) (ra_RoomID r)
  (ra_Policy r) (ra_PolicyVersion r) (ra_MemberSnapshotCompletedAt r) (ra_CreatedAt r) (ra_UpdatedAt r).

Record ReplayMemberRow := mkReplayMemberRow {
  rpm_SessionID : option UUID;
  rpm_UserID : option UUID;
  rpm_Role : string;
}.

(** ** Tables *)
Record Tables := mkTables {
  rooms : RoomStore.Database;
  game_sessions : gmap UUID GameSessionRow;
  session_participants : gmap UUID (list ParticipantRow);
  session_timers : gmap UUID (list TimerRow);
  event_batches : gmap UUID BatchRow;
  session_events : gmap UUID (list EventRow);
  action_receipts : gmap (UUID * UUID * string) ActionReceiptRow;
  timer_receipts : gmap (UUID * string * Z) TimerReceiptRow;
  system_operations : gmap (UUID * string) SystemOperationRow;
  system_inbox : gmap (UUID * UUID) InboxRow;
  start_receipts : gmap (UUID * UUID * string) StartReceiptRow;
  replay_access : gmap UUID ReplayAccessRow;
  replay_members : gmap UUID (list ReplayMemberRow);
  outbox : gmap UUID OutboxEventRow;
  (** The next number of the identity column [event_sequence]. *)
  outbox_next : Z;
}.
#[global] Instance tables_eta : Eta Tables := fun t => mkTables (rooms t) (game_sessions t) (session_participants t)
  (session_timers t) (event_batches t) (session_events t) (action_receipts t) (timer_receipts t) (system_operations t)
  (system_inbox t) (start_receipts t) (replay_access t) (replay_members t) (outbox t) (outbox_next t).

(** ** Errors *)
Inductive DbError :=
| ErrNoRows
| PgError (code : string)
| DomainError (e : RuntimeError)
| RoomFailure (e : Room.RoomError)
| OutboxFailure (e : Outbox.OutboxError)
| ContextError
| DriverError.

Inductive StoreError := Domain (e : RuntimeError) | ContextDone.
Abbreviation sres := (result StoreError).

(** The domain errors the repository passes on. *)
Definition passedOn (e : RuntimeError) : bool :=
  match e with
  | ErrInvalidSessionInput | ErrSessionNotFound | ErrSessionAlreadyExists | ErrStateVersionConflict | ErrOwnershipLost
  | ErrSessionSuspended | ErrSessionTerminal | ErrParticipantNotActive | ErrTimerNotDue | ErrTimerNotFound
  | ErrActionReceiptNotFound | ErrTimerReceiptNotFound | ErrSystemReceiptNotFound | ErrSystemOperationPending
  | ErrInvalidActionCommit | ErrInvalidTimerCommit | ErrInvalidSystemCommit | ErrInvalidLifecycleCommit
  | ErrGameSessionIntegrity | ErrConflict => true
  | _ => false
  end.

Definition mapGameSessionRepositoryError (err : DbError) (noRowsError : RuntimeError) : StoreError :=
  match err with
  | ContextError => ContextDone
  | DomainError e => Domain (if passedOn e then e else ErrGameSessionRepositoryUnavailable)
  | ErrNoRows => Domain noRowsError
  | PgError code =>
      if String.eqb code "23505" then Domain ErrSessionAlreadyExists
      else if String.eqb code "23502" || String.eqb code "23503" || String.eqb code "23514" || String.eqb code "22P02"
      then Domain ErrGameSessionIntegrity
      else if String.eqb code "40001" || String.eqb code "40P01" then Domain ErrStateVersionConflict
      else Domain ErrGameSessionRepositoryUnavailable
  | RoomFailure _ | OutboxFailure _ | DriverError => Domain ErrGameSessionRepositoryUnavailable
  end.

(** ** Conversions to columns *)
Definition optionalOperationIDToPG (value : OperationID) : option string :=
  if negb (OperationID_Valid value) then None else Some (Value value).
Definition optionalIdentifierToPG (value : string) : option string := if String.eqb value "" then None else Some value.
Definition optionalDigestBytes (value : Digest) (present : bool) : option (list Z) := if present then Some value else None.
Definition optionalBytea (value : list Z) (present : bool) : option (list Z) := if present then Some value else None.
Definition optionalUint32ToPG (value : Z) : option Z := if (value =? 0) || (maxInt32 <? value) then None else Some (i32 value).
Definition optionalUint64ToPG (value : Z) : option Z := if (value =? 0) || (maxInt64 <? value) then None else Some (i64 value).

Definition startConfigRevisionToPG (start : FrozenStartConfig) : option Z :=
  if negb (Message_Valid (Config start)) && Digest_eqb (ConfigDigest start) zeroDigest
     && (f_RoomVersion start =? 0) && (f_MembershipVersion start =? 0) && (RoomOwnershipEpoch start =? 0)
  then None
  else if maxInt64 <? ConfigRevision start then None
  else Some (i64 (ConfigRevision start)).

Definition createGameSessionParams (snapshot : SessionSnapshot) : GameSessionRow :=
  let start := s_Start snapshot in
  let state := s_State snapshot in
  mkSessionRow (uuidToPG (s_ID snapshot)) (uuidToPG (s_RoomID snapshot)) (GameID (s_VersionKey snapshot))
    (Engine (s_VersionKey snapshot)) (Protocol (s_VersionKey snapshot)) (Client (s_VersionKey snapshot))
    (i64 (StateVersion state)) (i64 (s_OwnershipEpoch snapshot)) (i32 (SnapshotVersion state))
    (MessageType (State state)) (i32 (SchemaVersion (State state))) (Payload (State state))
    (optionalIdentifierToPG (MessageType (Config start))) (optionalUint32ToPG (SchemaVersion (Config start)))
    (optionalBytea (Payload (Config start)) (Message_Valid (Config start)))
    (optionalDigestBytes (ConfigDigest start) (negb (Digest_eqb (ConfigDigest start) zeroDigest)))
    (startConfigRevisionToPG start) (optionalUint64ToPG (f_RoomVersion start))
    (optionalUint64ToPG (f_MembershipVersion start)) (optionalUint64ToPG (RoomOwnershipEpoch start))
    (optionalIdentifierToPG (s_CancelReason snapshot)) (optionalTimeToPG (s_NextDeadlineAt snapshot))
    (optionalTimeToPG (s_SuspendedAt snapshot)) (s_Status snapshot) (timeToPG (s_StartedAt snapshot))
    (timeToPG (s_UpdatedAt snapshot)) (optionalTimeToPG (s_EndedAt snapshot)).

Definition participantRow (sessionID : UUID) (participant : Participant) : ParticipantRow :=
  mkParticipantRow (uuidToPG sessionID) (uuidToPG (p_UserID participant)) (i32 (p_SeatIndex participant)).

Definition timerRow (sessionID : UUID) (timer : TimerSnapshot) : TimerRow :=
  mkTimerRow (uuidToPG sessionID) (t_TimerID timer) (i64 (t_ExpectedStateVersion timer)) (timeToPG (t_DueAt timer))
    (MessageType (t_Message timer)) (i32 (SchemaVersion (t_Message timer))) (Payload (t_Message timer)).

Definition batchRow (snapshot : EventBatchSnapshot) : BatchRow :=
  let source := b_SystemSource snapshot in
  mkBatchRow (uuidToPG (b_ID snapshot)) (uuidToPG (b_SessionID snapshot)) (i64 (b_StateVersion snapshot))
    (i64 (b_OwnershipEpoch snapshot)) (b_Cause snapshot) (optionalUUIDToPG (b_ActorUserID snapshot))
    (optionalOperationIDToPG (b_ActionID snapshot)) (optionalIdentifierToPG (b_TimerID snapshot))
    (optionalOperationIDToPG (b_SystemOperationID snapshot)) (optionalIdentifierToPG (src_Kind source))
    (optionalUUIDToPG (src_EventID source)) (optionalUUIDToPG (src_RequestedByUserID source))
    (optionalDigestBytes (b_RequestDigest snapshot) (String.eqb (b_Cause snapshot) EventCauseSystem))
    (timeToPG (Now (b_Execution snapshot))) (RandomSeed (b_Execution snapshot)) (AllocatedIDs (b_Execution snapshot))
    (MessageType (b_Input snapshot)) (i32 (SchemaVersion (b_Input snapshot))) (Payload (b_Input snapshot))
    (i32 (len (b_Events snapshot))) (timeToPG (b_CommittedAt snapshot)).

Definition eventRow (batchID : UUID) (index : Z) (event : Event) : EventRow :=
  mkEventRow (uuidToPG batchID) (i32 index) (MessageType (ev_Message event)) (i32 (SchemaVersion (ev_Message event)))
    (Payload (ev_Message event)).

Definition actionReceiptRow (snapshot : ActionReceipt) : ActionReceiptRow :=
  mkActionReceiptRow (uuidToPG (ak_SessionID (ac_Key snapshot))) (uuidToPG (ak_ActorUserID (ac_Key snapshot)))
    (Value (ak_ActionID (ac_Key snapshot))) (ac_RequestDigest snapshot) (ac_ResultCode snapshot) (ac_ResultDigest snapshot)
    (i64 (ac_StateVersion snapshot)) (timeToPG (ac_CommittedAt snapshot)).

Definition timerReceiptRow (snapshot : TimerReceipt) (batchID : UUID) : TimerReceiptRow :=
  mkTimerReceiptRow (uuidToPG (tk_SessionID (tc_Key snapshot))) (tk_TimerID (tc_Key snapshot))
    (i64 (tk_ExpectedStateVersion (tc_Key snapshot))) (tc_ResultCode snapshot) (tc_ResultDigest snapshot)
    (i64 (tc_StateVersion snapshot)) (uuidToPG batchID) (timeToPG (tc_CommittedAt snapshot)).

(** ** Conversions from columns *)
Definition frozenStartConfigFromRow (row : GameSessionRow) : res FrozenStartConfig :=
  let startPresent :=
    bool_decide (is_Some (g_StartConfigMessageType row)) || bool_decide (is_Some (g_StartConfigSchemaVersion row))
    || bool_decide (is_Some (g_StartConfigPayload row)) || (0 <? len (default [] (g_StartConfigDigest row)))
    || bool_decide (is_Some (g_StartConfigRevision row)) || bool_decide (is_Some (g_StartRoomVersion row))
    || bool_decide (is_Some (g_StartMembershipVersion row)) || bool_decide (is_Some (g_StartOwnershipEpoch row)) in
  if negb startPresent then Ok noStart
  else match g_StartConfigMessageType row, g_StartConfigSchemaVersion row, g_StartConfigRevision row,
             g_StartRoomVersion row, g_StartMembershipVersion row, g_StartOwnershipEpoch row with
  | Some messageType, Some schemaVersion, Some revision, Some roomVersion, Some membershipVersion, Some epoch =>
      if negb (len (default [] (g_StartConfigDigest row)) =? 32) then Err ErrGameSessionIntegrity
      else Ok (mkStart (mkMessage messageType (u32 schemaVersion) (default [] (g_StartConfigPayload row)))
                 (default [] (g_StartConfigDigest row)) (u64 revision) (u64 roomVersion) (u64 membershipVersion) (u64 epoch))
  | _, _, _, _, _, _ => Err ErrGameSessionIntegrity
  end.

Definition participantFromRow (sessionID : UUID) (row : ParticipantRow) : res Participant :=
  match pr_SessionID row, pr_UserID row with
  | Some session, Some user =>
      if negb (session =? sessionID) || (pr_SeatIndex row <? 0) then Err ErrGameSessionIntegrity
      else Ok (mkParticipant user (u32 (pr_SeatIndex row)))
  | _, _ => Err ErrGameSessionIntegrity
  end.

Definition timerFromRow (sessionID : UUID) (row : TimerRow) : res TimerSnapshot :=
  match tr_SessionID row, tr_DueAt row with
  | Some session, Some dueAt =>
      if negb (session =? sessionID) || (tr_ExpectedStateVersion row <=? 0) || (tr_SchemaVersion row <=? 0)
      then Err ErrGameSessionIntegrity
      else Ok (mkTimer (tr_TimerID row) (u64 (tr_ExpectedStateVersion row)) dueAt
                 (mkMessage (tr_MessageType row) (u32 (tr_SchemaVersion row)) (tr_Payload row)))
  | _, _ => Err ErrGameSessionIntegrity
  end.

Definition sessionFromRows (row : GameSessionRow) (participants : list ParticipantRow) (timers : list TimerRow) : res Session :=
  match g_SessionID row, g_RoomID row, g_StartedAt row, g_UpdatedAt row with
  | Some id, Some roomID, Some startedAt, Some updatedAt =>
      if (g_StateVersion row <=? 0) || (g_OwnershipEpoch row <? 0) || (g_SnapshotVersion row <=? 0)
         || (g_StateSchemaVersion row <=? 0)
      then Err ErrGameSessionIntegrity
      else if (len participants =? 0) || (MaximumParticipants <? len participants) then Err ErrGameSessionIntegrity
      else
        let* mappedParticipants := map_result (participantFromRow id) participants in
        let* mappedTimers := map_result (timerFromRow id) timers in
        let* start := frozenStartConfigFromRow row in
        RestoreSession (mkSession id roomID
          (mkVersionKey (g_GameID row) (g_EngineVersion row) (g_ProtocolVersion row) (g_ClientVersion row))
          (u64 (g_OwnershipEpoch row)) mappedParticipants start
          (mkGameSnapshot (u32 (g_SnapshotVersion row)) (u64 (g_StateVersion row))
             (mkMessage (g_StateMessageType row) (u32 (g_StateSchemaVersion row)) (g_StatePayload row)))
          mappedTimers (optionalTimeFromPG (g_NextDeadlineAt row)) (g_Status row) startedAt updatedAt
          (optionalTimeFromPG (g_SuspendedAt row)) (optionalTimeFromPG (g_EndedAt row))
          (default ""%string (g_CancelReason row)))
  | _, _, _, _ => Err ErrGameSessionIntegrity
  end.

(** [idempotency.NewDigest] of a column. *)
Definition digestFromColumn (value : list Z) : res Digest :=
  match NewDigest value with Ok digest => Ok digest | Err _ => Err ErrGameSessionIntegrity end.

Definition integrity {A} (r : res A) : res A := match r with Ok a => Ok a | Err _ => Err ErrGameSessionIntegrity end.

Definition actionReceiptFromRow (row : ActionReceiptRow) : res ActionReceipt :=
  match arr_SessionID row, arr_ActorUserID row, arr_CommittedAt row with
  | Some session, Some actor, Some committedAt =>
      if arr_CommittedStateVersion row <=? 0 then Err ErrGameSessionIntegrity
      else match ParseOperationID (arr_ActionID row) with
      | Err _ => Err ErrGameSessionIntegrity
      | Ok actionID =>
          let* requestDigest := digestFromColumn (arr_RequestDigest row) in
          let* resultDigest := digestFromColumn (arr_ResultDigest row) in
          integrity (NewActionReceipt (mkActionReceipt (mkActionKey session actor actionID) requestDigest
            (arr_ResultCode row) resultDigest (u64 (arr_CommittedStateVersion row)) committedAt))
      end
  | _, _, _ => Err ErrGameSessionIntegrity
  end.

Definition timerReceiptFromRow (row : TimerReceiptRow) : res TimerReceipt :=
  match trr_SessionID row, trr_CommittedAt row, trr_BatchID row with
  | Some session, Some committedAt, Some _ =>
      if (trr_ExpectedStateVersion row <=? 0) || (trr_CommittedStateVersion row <=? 0) then Err ErrGameSessionIntegrity
      else
        let* resultDigest := digestFromColumn (trr_ResultDigest row) in
        integrity (NewTimerReceipt (mkTimerReceipt
          (mkTimerKey session (trr_TimerID row) (u64 (trr_ExpectedStateVersion row)))
          (trr_ResultCode row) resultDigest (u64 (trr_CommittedStateVersion row)) committedAt))
  | _, _, _ => Err ErrGameSessionIntegrity
  end.

Definition validateSystemOperationBinding (row : SystemOperationRow) (key : SystemKey) (digest : Digest) : res SystemOperationRow :=
  if negb (bool_decide (so_SessionID row = Some (sk_SessionID key)))
     || negb (String.eqb (so_OperationID row) (Value (sk_OperationID key)))
     || negb (String.eqb (so_SourceKind row) (src_Kind (sk_Source key)))
     || negb (bool_decide (so_SourceEventID row = Some (src_EventID (sk_Source key))))
     || negb (bool_decide (so_RequestedByUserID row = optionalUUIDToPG (src_RequestedByUserID (sk_Source key))))
  then Err ErrConflict
  else
    let* storedDigest := digestFromColumn (so_LogicalDigest row) in
    if negb (Digest_eqb storedDigest digest) then Err ErrConflict
    else if negb (String.eqb (so_Status row) SystemInboxPending) && negb (String.eqb (so_Status row) SystemInboxCompleted)
    then Err ErrGameSessionIntegrity
    else Ok row.

Definition completedSystemReceiptFromRow (row : SystemOperationRow) (key : SystemKey) (digest : Digest) : res SystemReceipt :=
  let* row := validateSystemOperationBinding row key digest in
  if negb (String.eqb (so_Status row) SystemInboxCompleted) then Err ErrSystemOperationPending
  else match so_ResultCode row, so_CommittedStateVersion row, so_CompletedAt row with
  | Some resultCode, Some stateVersion, Some completedAt =>
      if stateVersion <=? 0 then Err ErrGameSessionIntegrity
      else
        let* resultDigest := digestFromColumn (default [] (so_ResultDigest row)) in
        integrity (NewSystemReceipt (mkSystemReceipt key digest resultCode resultDigest (u64 stateVersion) completedAt))
  | _, _, _ => Err ErrGameSessionIntegrity
  end.

Definition systemInboxFromRow (row : InboxRow) (key : SystemInboxKey) (digest : Digest) : res SystemInboxRecord :=
  match ir_SessionID row, ir_SourceEventID row, ir_CreatedAt row with
  | Some session, Some source, Some createdAt =>
      if negb (session =? ik_SessionID key) || negb (source =? ik_SourceEventID key) then Err ErrGameSessionIntegrity
      else if negb (Digest_eqb (ir_PayloadDigest row) digest) then Err ErrConflict
      else
        let* stateVersion :=
          (match ir_CommittedStateVersion row with
           | Some version => if version <=? 0 then Err ErrGameSessionIntegrity else Ok (u64 version)
           | None => Ok 0
           end) in
        integrity (RestoreSystemInboxRecord (mkInboxRecord key (ir_EventType row) digest (ir_Status row) stateVersion
          createdAt (optionalTimeFromPG (ir_CompletedAt row))))
  | _, _, _ => Err ErrGameSessionIntegrity
  end.

(** The event rows are numbered from 0 and belong to the batch. *)
Fixpoint eventsFromRows (batchID : option UUID) (index : Z) (rows : list EventRow) : res (list Event) :=
  match rows with
  | [] => Ok []
  | row :: rest =>
      if negb (bool_decide (is_Some (er_BatchID row))) || negb (bool_decide (er_BatchID row = batchID))
         || negb (er_EventOrdinal row =? index) || (er_SchemaVersion row <=? 0)
      then Err ErrGameSessionIntegrity
      else
        let* events := eventsFromRows batchID (index + 1) rest in
        Ok (mkEvent (mkMessage (er_MessageType row) (u32 (er_SchemaVersion row)) (er_Payload row)) :: events)
  end.

(** [snapshot.ActionID, _ = ParseOperationID(...)]: the zero value when it fails. *)
Definition operationFromColumn (value : option string) : OperationID :=
  match value with
  | Some text => match ParseOperationID text with Ok operation => operation | Err _ => noOperation end
  | None => noOperation
  end.

Definition sourceFromColumns (row : BatchRow) : SystemSource :=
  if bool_decide (is_Some (br_SystemSourceKind row)) || bool_decide (is_Some (br_SystemSourceEventID row))
  then mkSource (default ""%string (br_SystemSourceKind row)) (optionalUUIDFromPG (br_SystemSourceEventID row))
         (optionalUUIDFromPG (br_SystemRequestedByUserID row))
  else noSource.

Definition eventBatchFromRows (row : BatchRow) (eventRows : list EventRow) : res EventBatch :=
  match br_BatchID row, br_SessionID row, br_ExecutedAt row, br_CommittedAt row with
  | Some id, Some session, Some executedAt, Some committedAt =>
      if (br_StateVersion row <=? 0) || (br_OwnershipEpoch row <? 0)
         || negb (len (br_RandomSeed row) =? Z.of_nat RandomSeedBytes) || (br_InputSchemaVersion row <=? 0)
         || negb (br_EventCount row =? i32 (len eventRows))
      then Err ErrGameSessionIntegrity
      else if negb (forallb identifierOk (br_AllocatedIds row)) then Err ErrGameSessionIntegrity
      else
        let* events := eventsFromRows (br_BatchID row) 0 eventRows in
        let digest :=
          (match br_SystemRequestDigest row with
           | Some value => if len value =? 0 then zeroDigest
                           else match NewDigest value with Ok digest => digest | Err _ => zeroDigest end
           | None => zeroDigest
           end) in
        integrity (RestoreEventBatch (mkBatch id session (u64 (br_StateVersion row)) (u64 (br_OwnershipEpoch row))
          (br_Cause row) (optionalUUIDFromPG (br_ActorUserID row)) (operationFromColumn (br_ActionID row))
          (default ""%string (br_TimerID row)) (operationFromColumn (br_SystemOperationID row)) (sourceFromColumns row)
          digest (mkContext executedAt (br_RandomSeed row) (br_AllocatedIds row))
          (mkMessage (br_InputMessageType row) (u32 (br_InputSchemaVersion row)) (br_InputPayload row)) events committedAt))
  | _, _, _, _ => Err ErrGameSessionIntegrity
  end.

(** ** Events of the outbox *)
Definition outboxRow (sequence : Z) (snapshot : Outbox.EventSnapshot) : OutboxEventRow :=
  mkOutboxRow sequence (uuidToPG (Outbox.e_ID snapshot)) (Outbox.e_Type snapshot) (Outbox.e_AggregateType snapshot)
    (uuidToPG (Outbox.e_AggregateID snapshot)) (Outbox.e_Payload snapshot) (timeToPG (Outbox.e_CreatedAt snapshot))
    (timeToPG (Outbox.e_AvailableAt snapshot)).

Definition outboxEventFromRow (row : OutboxEventRow) : result Outbox.OutboxError Outbox.Event :=
  match oe_EventID row, oe_AggregateID row, oe_CreatedAt row, oe_AvailableAt row with
  | Some id, Some aggregateID, Some createdAt, Some availableAt =>
      if oe_EventSequence row <=? 0 then Err Outbox.ErrIntegrity
      else match Outbox.NewSequence (oe_EventSequence row), Outbox.ParseEventType (oe_EventType row),
                 Outbox.ParseAggregateType (oe_AggregateType row) with
      | Ok sequence, Ok eventType, Ok aggregateType =>
          match Outbox.RestoreEvent (Outbox.mkEvent sequence id eventType aggregateType aggregateID (oe_Payload row)
                                       createdAt availableAt) with
          | Ok event => Ok event
          | Err _ => Err Outbox.ErrIntegrity
          end
      | _, _, _ => Err Outbox.ErrIntegrity
      end
  | _, _, _, _ => Err Outbox.ErrIntegrity
  end.

Definition sameUnsequencedEvent (existing requested : Outbox.EventSnapshot) : bool :=
  (Outbox.e_ID existing =? Outbox.e_ID requested) && String.eqb (Outbox.e_Type existing) (Outbox.e_Type requested)
  && String.eqb (Outbox.e_AggregateType existing) (Outbox.e_AggregateType requested)
  && (Outbox.e_AggregateID existing =? Outbox.e_AggregateID requested)
  && bool_decide (Outbox.e_Payload existing = Outbox.e_Payload requested)
  && (Outbox.e_CreatedAt existing =? Outbox.e_CreatedAt requested)
  && (Outbox.e_AvailableAt existing =? Outbox.e_AvailableAt requested).

(** ** Widths of the columns *)
Definition startConfigFitsPostgres (start : FrozenStartConfig) : bool :=
  (SchemaVersion (Config start) <=? maxInt32) && (ConfigRevision start <=? maxInt64)
  && (f_RoomVersion start <=? maxInt64) && (f_MembershipVersion start <=? maxInt64)
  && (RoomOwnershipEpoch start <=? maxInt64).

(** What the width checks of the three files ask of a snapshot and its timers. *)
Definition snapshotFits (snapshot : SessionSnapshot) : bool :=
  (StateVersion (s_State snapshot) <=? maxInt64) && (s_OwnershipEpoch snapshot <=? maxInt64)
  && (SnapshotVersion (s_State snapshot) <=? maxInt32) && (SchemaVersion (State (s_State snapshot)) <=? maxInt32)
  && startConfigFitsPostgres (s_Start snapshot).

Definition timersFit (timers : list TimerSnapshot) : bool :=
  forallb (fun timer => (t_ExpectedStateVersion timer <=? maxInt64)
                        && (SchemaVersion (t_Message timer) <=? maxInt32)) timers.

Definition eventsFit (events : list Event) : bool :=
  forallb (fun event => SchemaVersion (ev_Message event) <=? maxInt32) events.

Definition validateCreationWidths (commit : CreationCommit) : res unit :=
  let snapshot := cc_Session commit in
  if negb (snapshotFits snapshot) then Err ErrInvalidSessionInput
  else if negb (forallb (fun participant => p_SeatIndex participant <=? maxInt32) (s_Participants snapshot))
  then Err ErrInvalidSessionInput
  else if negb (timersFit (s_Timers snapshot)) then Err ErrInvalidSessionInput
  else Ok tt.

Definition validateActionWidths (commit : ActionCommit) : res unit :=
  if negb (forallb (fun snapshot => snapshotFits snapshot && timersFit (s_Timers snapshot)) [before commit; after commit])
  then Err ErrInvalidActionCommit
  else if maxInt64 <? b_StateVersion (batch commit) then Err ErrInvalidActionCommit
  else if negb (eventsFit (b_Events (batch commit))) then Err ErrInvalidActionCommit
  else if maxInt64 <? ac_StateVersion (receipt commit) then Err ErrInvalidActionCommit
  else Ok tt.

Definition validateTransitionWidths (b a : SessionSnapshot) (bt : EventBatchSnapshot) : res unit :=
  if negb (forallb (fun snapshot => snapshotFits snapshot && timersFit (s_Timers snapshot)) [b; a])
  then Err ErrInvalidSessionInput
  else if (maxInt64 <? b_StateVersion bt) || (maxInt32 <? SchemaVersion (b_Input bt)) then Err ErrInvalidSessionInput
  else if negb (eventsFit (b_Events bt)) then Err ErrInvalidSessionInput
  else Ok tt.

Definition validateTimerCommitWidths (commit : TimerCommit) : res unit :=
  match validateTransitionWidths (before commit) (after commit) (batch commit) with
  | Err _ => Err ErrInvalidTimerCommit
  | Ok _ =>
      if (maxInt64 <? tk_ExpectedStateVersion (tc_Key (receipt commit))) || (maxInt64 <? tc_StateVersion (receipt commit))
      then Err ErrInvalidTimerCommit else Ok tt
  end.

Definition validateSystemCommitWidths (commit : SystemCommit) : res unit :=
  match validateTransitionWidths (before commit) (after commit) (batch commit) with
  | Err _ => Err ErrInvalidSystemCommit
  | Ok _ => if maxInt64 <? RuntimeCommit.sc_StateVersion (receipt commit) then Err ErrInvalidSystemCommit else Ok tt
  end.

Definition sameGameSnapshotState (left right : GameSnapshot) : bool := sameSnapshotState left right.

Definition validateOwnershipTransition (b next : SessionSnapshot) : res unit :=
  let expected := b <| s_OwnershipEpoch := u64 (s_OwnershipEpoch b + 1) |> <| s_UpdatedAt := s_UpdatedAt next |> in
  if (s_ID b =? Nil) || negb (s_ID b =? s_ID next) || negb (StateVersion (s_State b) =? StateVersion (s_State next))
     || (maxInt64 <? StateVersion (s_State b)) || (maxInt64 <? s_OwnershipEpoch b) || (maxInt64 <? s_OwnershipEpoch next)
     || (s_OwnershipEpoch b =? maxUint64) || negb (s_OwnershipEpoch next =? u64 (s_OwnershipEpoch b + 1))
     || negb (s_StartedAt b =? s_StartedAt next) || negb (sameGameSnapshotState (s_State b) (s_State next))
     || negb (After (s_UpdatedAt next) (s_UpdatedAt b)) || negb (bool_decide (expected = next))
  then Err ErrInvalidSessionInput
  else Ok tt.

End RuntimeStore.
