(* ===== verification/RuntimeQueries.v ===== *)
(** * The session repository: statements

    The statements of [sqlcgen/game_session.sql.go], [sqlcgen/outbox.sql.go] and
    [sqlcgen/room.sql.go] the session repositories run, and the transactions of
    [transaction.go] they run in.

    A transaction is a function on the tables whose steps may each fail:
    [fault n] is the error the [n]-th step meets (a lost connection, a check, a
    reference or a trigger of the schema, a serialization failure, the commit
    itself), if any.  The keys of the tables are in the model: a row that repeats
    one is refused with [23505], or skipped where the statement says
    [ON CONFLICT DO NOTHING], whose missing row is [None].  A lock is held by
    running the transactions one after the other.  Rolling back also takes back
    the numbers drawn for [event_sequence], which PostgreSQL leaves as gaps. *)

From stdpp Require Import gmap.
From S2P Require Import Prelude GoLib Selector GameManifest GameContract Outbox Room RoomStore Runtime RuntimeCommit RuntimeStore.

Module RuntimeQueries.
Import GoLib Selector GameManifest GameContract Runtime RuntimeCommit RuntimeStore.

Definition tx (A : Type) : Type := Tables * nat -> result DbError (A * (Tables * nat)).

Definition tx_ret {A} (a : A) : tx A := fun s => Ok (a, s).
Definition tx_fail {A} (e : DbError) : tx A := fun _ => Err e.
Definition tx_bind {A B} (m : tx A) (f : A -> tx B) : tx B := fun s => let* '(a, s') := m s in f a s'.
Definition tx_map_err {A} (f : DbError -> DbError) (m : tx A) : tx A := fun s =>
  match m s with Ok r => Ok r | Err e => Err (f e) end.
Definition tx_lift {A} (r : res A) : tx A :=
  match r with Ok a => tx_ret a | Err e => tx_fail (DomainError e) end.

(** A statement that must return a row, and one whose missing row has its own error. *)
Definition one {A} (q : tx (option A)) : tx A :=
  tx_bind q (fun r => match r with Some a => tx_ret a | None => tx_fail ErrNoRows end).
Definition one_or {A} (q : tx (option A)) (e : DbError) : tx A :=
  tx_bind q (fun r => match r with Some a => tx_ret a | None => tx_fail e end).

Declare Scope stx_scope.
Delimit Scope stx_scope with stx.
Notation "'do*' x := m 'in' f" := (tx_bind m (fun x => f))
  (at level 200, x pattern, m at level 100, f at level 200) : stx_scope.

Definition unique_violation : DbError := PgError "23505".

Definition live (status : string) : bool := String.eqb status StatusActive || String.eqb status StatusSuspended.

Definition participantsOf (t : Tables) (sessionID : UUID) : list ParticipantRow :=
  default [] (session_participants t !! sessionID).
Definition timersOf (t : Tables) (sessionID : UUID) : list TimerRow := default [] (session_timers t !! sessionID).
Definition eventsOf (t : Tables) (batchID : UUID) : list EventRow := default [] (session_events t !! batchID).

(** ** Orders of the queries *)
Definition participant_before (left right : ParticipantRow) : Prop :=
  pr_SeatIndex left < pr_SeatIndex right \/
  pr_SeatIndex left = pr_SeatIndex right /\ default Nil (pr_UserID left) <= default Nil (pr_UserID right).
#[global] Instance participant_before_dec : RelDecision participant_before.
Proof. intros l r. unfold participant_before. apply _. Defined.

Definition timer_before (left right : TimerRow) : Prop := String.le (tr_TimerID left) (tr_TimerID right).
#[global] Instance timer_before_dec : RelDecision timer_before.
Proof. intros l r. unfold timer_before. apply _. Defined.

Definition due_before (left right : TimerRow) : Prop :=
  default 0 (tr_DueAt left) < default 0 (tr_DueAt right) \/
  default 0 (tr_DueAt left) = default 0 (tr_DueAt right) /\
  (default Nil (tr_SessionID left) < default Nil (tr_SessionID right) \/
   default Nil (tr_SessionID left) = default Nil (tr_SessionID right) /\
   String.le (tr_TimerID left) (tr_TimerID right)).
#[global] Instance due_before_dec : RelDecision due_before.
Proof. intros l r. unfold due_before. apply _. Defined.

Definition batch_before (left right : BatchRow) : Prop := br_StateVersion left <= br_StateVersion right.
#[global] Instance batch_before_dec : RelDecision batch_before.
Proof. intros l r. unfold batch_before. apply _. Defined.

Definition event_before (left right : EventRow) : Prop := er_EventOrdinal left <= er_EventOrdinal right.
#[global] Instance event_before_dec : RelDecision event_before.
Proof. intros l r. unfold event_before. apply _. Defined.

(** ** Parameters of the compare-and-set statements *)
Record UpdateGameSessionCASParams := mkUpdateSession {
  us_SessionID : UUID;
  (** The columns to set, in a row. *)
  us_row : GameSessionRow;
  us_ExpectedStateVersion : Z;
  us_ExpectedOwnershipEpoch : Z;
}.

Definition updateGameSessionStateParams (b a : SessionSnapshot) : UpdateGameSessionCASParams :=
  mkUpdateSession (s_ID b) (createGameSessionParams a) (i64 (StateVersion (s_State b))) (i64 (s_OwnershipEpoch b)).

Definition updateGameSessionLifecycleParams (b a : SessionSnapshot) : UpdateGameSessionCASParams :=
  mkUpdateSession (s_ID b) (createGameSessionParams a) (i64 (StateVersion (s_State b))) (i64 (s_OwnershipEpoch b)).

(** The columns [UpdateGameSessionStateCAS] sets. *)
Definition setState (row set : GameSessionRow) : GameSessionRow :=
  mkSessionRow (g_SessionID row) (g_RoomID row) (g_GameID row) (g_EngineVersion row) (g_ProtocolVersion row)
    (g_ClientVersion row) (g_StateVersion set) (g_OwnershipEpoch row) (g_SnapshotVersion set) (g_StateMessageType set)
    (g_StateSchemaVersion set) (g_StatePayload set) (g_StartConfigMessageType set) (g_StartConfigSchemaVersion set)
    (g_StartConfigPayload set) (g_StartConfigDigest set) (g_StartConfigRevision set) (g_StartRoomVersion set)
    (g_StartMembershipVersion set) (g_StartOwnershipEpoch set) (g_CancelReason set) (g_NextDeadlineAt set)
    (g_SuspendedAt set) (g_Status set) (g_StartedAt row) (g_UpdatedAt set) (g_EndedAt set).

(** The columns [UpdateGameSessionLifecycleCAS] sets. *)
Definition setLifecycle (row set : GameSessionRow) : GameSessionRow :=
  mkSessionRow (g_SessionID row) (g_RoomID row) (g_GameID row) (g_EngineVersion row) (g_ProtocolVersion row)
    (g_ClientVersion row) (g_StateVersion row) (g_OwnershipEpoch row) (g_SnapshotVersion set) (g_StateMessageType set)
    (g_StateSchemaVersion set) (g_StatePayload set) (g_StartConfigMessageType row) (g_StartConfigSchemaVersion row)
    (g_StartConfigPayload row) (g_StartConfigDigest row) (g_StartConfigRevision row) (g_StartRoomVersion row)
    (g_StartMembershipVersion row) (g_StartOwnershipEpoch row) (g_CancelReason set) (g_NextDeadlineAt set)
    (g_SuspendedAt set) (g_Status set) (g_StartedAt row) (g_UpdatedAt set) (g_EndedAt set).

(** The columns [AcquireGameSessionOwnershipCAS] sets. *)
Definition setOwnership (row : GameSessionRow) (updatedAt : option Time) : GameSessionRow :=
  mkSessionRow (g_SessionID row) (g_RoomID row) (g_GameID row) (g_EngineVersion row) (g_ProtocolVersion row)
    (g_ClientVersion row) (g_StateVersion row) (g_OwnershipEpoch row + 1) (g_SnapshotVersion row) (g_StateMessageType row)
    (g_StateSchemaVersion row) (g_StatePayload row) (g_StartConfigMessageType row) (g_StartConfigSchemaVersion row)
    (g_StartConfigPayload row) (g_StartConfigDigest row) (g_StartConfigRevision row) (g_StartRoomVersion row)
    (g_StartMembershipVersion row) (g_StartOwnershipEpoch row) (g_CancelReason row) (g_NextDeadlineAt row)
    (g_SuspendedAt row) (g_Status row) (g_StartedAt row) updatedAt (g_EndedAt row).

Section Statements.
Context (fault : nat -> option DbError) (ctxDone : bool).
Local Open Scope stx_scope.

Definition statement {A} (f : Tables -> result DbError (A * Tables)) : tx A := fun '(t, n) =>
  match fault n with
  | Some e => Err e
  | None => let* '(a, t') := f t in Ok (a, (t', S n))
  end.

Definition query {A} (f : Tables -> A) : tx A := statement (fun t => Ok (f t, t)).

(** [TransactionRunner.Run]: begin is step 0 and the commit the step after the
    last statement. *)
Definition Run {A} (work : tx A) (t : Tables) : result DbError A * Tables :=
  match fault 0%nat with
  | Some e => (Err e, t)
  | None =>
      match work (t, 1%nat) with
      | Err e => (Err e, t)
      | Ok (a, (t', n)) => match fault n with Some e => (Err e, t) | None => (Ok a, t') end
      end
  end.

(** ** Sessions *)
Definition CreateGameSession (row : GameSessionRow) : tx GameSessionRow := statement (fun t =>
  let sessionID := default Nil (g_SessionID row) in
  if bool_decide (is_Some (game_sessions t !! sessionID)) then Err unique_violation
  (* game_sessions_one_live_per_room_idx *)
  else if live (g_Status row)
          && existsb (fun entry => live (g_Status (snd entry)) && bool_decide (g_RoomID (snd entry) = g_RoomID row))
               (map_to_list (game_sessions t))
  then Err unique_violation
  else Ok (row, t <| game_sessions := <[sessionID := row]> (game_sessions t) |>)).

Definition GetGameSessionForShare (sessionID : UUID) : tx (option GameSessionRow) :=
  query (fun t => game_sessions t !! sessionID).
Definition GetGameSessionForUpdate (sessionID : UUID) : tx (option GameSessionRow) :=
  query (fun t => game_sessions t !! sessionID).
Definition GetGameSessionRoomID (sessionID : UUID) : tx (option (option UUID)) :=
  query (fun t => g_RoomID <$> game_sessions t !! sessionID).

(** An update of the row of a session that matches. *)
Definition updateSession (sessionID : UUID) (matches : GameSessionRow -> bool) (set : GameSessionRow -> GameSessionRow)
  : tx (option GameSessionRow) := statement (fun t =>
  match game_sessions t !! sessionID with
  | Some row =>
      if matches row then Ok (Some (set row), t <| game_sessions := <[sessionID := set row]> (game_sessions t) |>)
      else Ok (None, t)
  | None => Ok (None, t)
  end).

Definition AcquireGameSessionOwnershipCAS (updatedAt : option Time) (sessionID : UUID) (version epoch : Z)
  : tx (option GameSessionRow) :=
  updateSession sessionID
    (fun row => (g_StateVersion row =? version) && (g_OwnershipEpoch row =? epoch) && live (g_Status row))
    (fun row => setOwnership row updatedAt).

Definition UpdateGameSessionStateCAS (params : UpdateGameSessionCASParams) : tx (option GameSessionRow) :=
  updateSession (us_SessionID params)
    (fun row => (g_StateVersion row =? us_ExpectedStateVersion params)
                && (g_OwnershipEpoch row =? us_ExpectedOwnershipEpoch params) && String.eqb (g_Status row) StatusActive)
    (fun row => setState row (us_row params)).

Definition UpdateGameSessionLifecycleCAS (params : UpdateGameSessionCASParams) : tx (option GameSessionRow) :=
  updateSession (us_SessionID params)
    (fun row => (g_StateVersion row =? us_ExpectedStateVersion params)
                && (g_OwnershipEpoch row =? us_ExpectedOwnershipEpoch params) && live (g_Status row))
    (fun row => setLifecycle row (us_row params)).

(** ** Participants, replay access and timers *)
Definition CreateGameSessionParticipant (sessionID : UUID) (row : ParticipantRow) : tx unit := statement (fun t =>
  if existsb (fun other => bool_decide (pr_UserID other = pr_UserID row) || (pr_SeatIndex other =? pr_SeatIndex row))
       (participantsOf t sessionID)
  then Err unique_violation
  else Ok (tt, t <| session_participants := <[sessionID := participantsOf t sessionID ++ [row]]> (session_participants t) |>)).

Definition ListGameSessionParticipants (sessionID : UUID) : tx (list ParticipantRow) :=
  query (fun t => merge_sort participant_before (participantsOf t sessionID)).

Definition CreateGameSessionReplayAccess (sessionID roomID : UUID) (createdAt updatedAt : option Time) : tx unit :=
  statement (fun t =>
    let row := mkReplayAccessRow (uuidToPG sessionID) (uuidToPG roomID) ReplayAccessParticipant 1 None createdAt updatedAt in
    if bool_decide (is_Some (replay_access t !! sessionID)) then Err unique_violation
    else Ok (tt, t <| replay_access := <[sessionID := row]> (replay_access t) |>)).

Definition DeleteGameSessionTimers (sessionID : UUID) : tx unit := statement (fun t =>
  Ok (tt, t <| session_timers := delete sessionID (session_timers t) |>)).

Definition CreateGameSessionTimer (sessionID : UUID) (row : TimerRow) : tx unit := statement (fun t =>
  if existsb (fun other => String.eqb (tr_TimerID other) (tr_TimerID row)) (timersOf t sessionID)
  then Err unique_violation
  else Ok (tt, t <| session_timers := <[sessionID := timersOf t sessionID ++ [row]]> (session_timers t) |>)).

Definition ListGameSessionTimers (sessionID : UUID) : tx (list TimerRow) :=
  query (fun t => merge_sort timer_before (timersOf t sessionID)).
Definition ListGameSessionTimersForUpdate (sessionID : UUID) : tx (list TimerRow) :=
  query (fun t => merge_sort timer_before (timersOf t sessionID)).
Definition GetGameSessionTimerForUpdate (sessionID : UUID) (timerID : string) : tx (option TimerRow) :=
  query (fun t => List.find (fun row => String.eqb (tr_TimerID row) timerID) (timersOf t sessionID)).

Definition ListDueGameSessionTimerCandidates (dueAt : Time) (batchLimit : Z) : tx (list TimerRow) := query (fun t =>
  let due :=
    filter (fun row => Is_true (negb (After (default 0 (tr_DueAt row)) dueAt)))
      (map_to_list (game_sessions t) ≫= fun entry =>
         if String.eqb (g_Status (snd entry)) StatusActive then timersOf t (fst entry) else []) in
  take (Z.to_nat batchLimit) (merge_sort due_before due)).

(** ** Event batches *)
Definition CreateGameSessionEventBatch (row : BatchRow) : tx unit := statement (fun t =>
  let batchID := default Nil (br_BatchID row) in
  if bool_decide (is_Some (event_batches t !! batchID)) then Err unique_violation
  else if existsb (fun entry =>
            bool_decide (br_SessionID (snd entry) = br_SessionID row)
            && ((br_StateVersion (snd entry) =? br_StateVersion row)
                || (bool_decide (is_Some (br_ActorUserID row)) && bool_decide (is_Some (br_ActionID row))
                    && bool_decide (br_ActorUserID (snd entry) = br_ActorUserID row)
                    && bool_decide (br_ActionID (snd entry) = br_ActionID row))))
            (map_to_list (event_batches t))
  then Err unique_violation
  else Ok (tt, t <| event_batches := <[batchID := row]> (event_batches t) |>)).

Definition CreateGameSessionEvent (batchID : UUID) (row : EventRow) : tx unit := statement (fun t =>
  if existsb (fun other => er_EventOrdinal other =? er_EventOrdinal row) (eventsOf t batchID) then Err unique_violation
  else Ok (tt, t <| session_events := <[batchID := eventsOf t batchID ++ [row]]> (session_events t) |>)).

Definition ListGameSessionEventBatchesAfter (sessionID : UUID) (afterStateVersion batchLimit : Z) : tx (list BatchRow) :=
  query (fun t =>
    let batches :=
      filter (fun row => br_SessionID row = Some sessionID /\ afterStateVersion < br_StateVersion row)
        (snd <$> map_to_list (event_batches t)) in
    take (Z.to_nat batchLimit) (merge_sort batch_before batches)).

Definition ListGameSessionEvents (batchID : UUID) : tx (list EventRow) :=
  query (fun t => merge_sort event_before (eventsOf t batchID)).

(** ** Receipts *)
Definition GetGameActionReceipt (sessionID actorUserID : UUID) (actionID : string) : tx (option ActionReceiptRow) :=
  query (fun t => action_receipts t !! (sessionID, actorUserID, actionID)).

Definition CreateGameActionReceipt (sessionID actorUserID : UUID) (row : ActionReceiptRow) : tx (option ActionReceiptRow) :=
  statement (fun t =>
    let key := (sessionID, actorUserID, arr_ActionID row) in
    if bool_decide (is_Some (action_receipts t !! key)) then Ok (None, t)
    else Ok (Some row, t <| action_receipts := <[key := row]> (action_receipts t) |>)).

Definition GetGameTimerReceipt (sessionID : UUID) (timerID : string) (version : Z) : tx (option TimerReceiptRow) :=
  query (fun t => timer_receipts t !! (sessionID, timerID, version)).

Definition CreateGameTimerReceipt (sessionID : UUID) (row : TimerReceiptRow) : tx (option TimerReceiptRow) :=
  statement (fun t =>
    let key := (sessionID, trr_TimerID row, trr_ExpectedStateVersion row) in
    if bool_decide (is_Some (timer_receipts t !! key)) then Ok (None, t)
    (* game_timer_receipts_batch_unique *)
    else if existsb (fun entry => bool_decide (trr_BatchID (snd entry) = trr_BatchID row)) (map_to_list (timer_receipts t))
    then Err unique_violation
    else Ok (Some row, t <| timer_receipts := <[key := row]> (timer_receipts t) |>)).

(** ** System operations *)
Definition GetGameSystemOperationForUpdate (sessionID : UUID) (operationID : string) : tx (option SystemOperationRow) :=
  query (fun t => system_operations t !! (sessionID, operationID)).

Definition fromSource (sessionID : UUID) (eventID : option UUID) (entry : UUID * string * SystemOperationRow) : bool :=
  (fst (fst entry) =? sessionID) && bool_decide (so_SourceEventID (snd entry) = eventID).

Definition GetGameSystemOperationBySourceForUpdate (sessionID eventID : UUID) : tx (option SystemOperationRow) :=
  query (fun t => snd <$> List.find (fromSource sessionID (Some eventID)) (map_to_list (system_operations t))).

Definition InsertGameSystemOperationPending (sessionID : UUID) (operationID sourceKind : string) (sourceEventID : UUID)
    (requestedBy : option UUID) (digest : list Z) (createdAt : option Time) : tx (option SystemOperationRow) :=
  statement (fun t =>
    let row := mkSystemOperationRow (uuidToPG sessionID) operationID sourceKind (uuidToPG sourceEventID) requestedBy
                 digest SystemInboxPending None None None None createdAt None in
    if bool_decide (is_Some (system_operations t !! (sessionID, operationID)))
       || existsb (fromSource sessionID (Some sourceEventID)) (map_to_list (system_operations t))
    then Ok (None, t)
    else Ok (Some row, t <| system_operations := <[(sessionID, operationID) := row]> (system_operations t) |>)).

Definition CompleteGameSystemOperationCAS (resultCode : string) (resultDigest : list Z) (stateVersion : Z)
    (batchID : option UUID) (completedAt : option Time) (sessionID : UUID) (operationID : string)
  : tx (option SystemOperationRow) := statement (fun t =>
  match system_operations t !! (sessionID, operationID) with
  | Some row =>
      if negb (String.eqb (so_Status row) SystemInboxPending) then Ok (None, t)
      (* game_system_operations_batch_unique *)
      else if bool_decide (is_Some batchID)
              && existsb (fun entry => bool_decide (so_BatchID (snd entry) = batchID)) (map_to_list (system_operations t))
      then Err unique_violation
      else
        let row := mkSystemOperationRow (so_SessionID row) (so_OperationID row) (so_SourceKind row) (so_SourceEventID row)
                     (so_RequestedByUserID row) (so_LogicalDigest row) SystemInboxCompleted (Some resultCode)
                     (Some resultDigest) (Some stateVersion) batchID (so_CreatedAt row) completedAt in
        Ok (Some row, t <| system_operations := <[(sessionID, operationID) := row]> (system_operations t) |>)
  | None => Ok (None, t)
  end).

(** ** Room facts a session must take in *)
Definition HasPendingGameSystemInbox (sessionID : UUID) (excluded : option UUID) : tx bool := query (fun t =>
  existsb (fun entry =>
      (fst (fst entry) =? sessionID) && String.eqb (ir_Status (snd entry)) SystemInboxPending
      && match excluded with None => true | Some source => negb (snd (fst entry) =? source) end)
    (map_to_list (system_inbox t))).

Definition GetGameSystemInboxForUpdate (sessionID sourceEventID : UUID) : tx (option InboxRow) :=
  query (fun t => system_inbox t !! (sessionID, sourceEventID)).

Definition CompleteGameSystemInboxCAS (stateVersion : Z) (completedAt : option Time) (sessionID sourceEventID : UUID)
    (digest : list Z) : tx (option InboxRow) := statement (fun t =>
  match system_inbox t !! (sessionID, sourceEventID) with
  | Some row =>
      if bool_decide (ir_PayloadDigest row = digest) && String.eqb (ir_Status row) SystemInboxPending then
        let row := mkInboxRow (ir_SessionID row) (ir_SourceEventID row) (ir_EventType row) (ir_PayloadDigest row)
                     SystemInboxCompleted (Some stateVersion) (ir_CreatedAt row) completedAt in
        Ok (Some row, t <| system_inbox := <[(sessionID, sourceEventID) := row]> (system_inbox t) |>)
      else Ok (None, t)
  | None => Ok (None, t)
  end).

(** ** The room of a session *)
Definition GetPartyRoomForUpdate (roomID : UUID) : tx (option RoomStore.PartyRoom) :=
  query (fun t => RoomStore.party_rooms (rooms t) !! roomID).

Definition GetRoomMemberRole (roomID userID : UUID) : tx (option string) := query (fun t =>
  RoomStore.rm_Role <$> List.find (fun row => bool_decide (RoomStore.rm_UserID row = Some userID))
                          (RoomStore.membersOf (rooms t) roomID)).

(** ** The outbox *)
Definition CreateOutboxEvent (snapshot : Outbox.EventSnapshot) : tx (option OutboxEventRow) := statement (fun t =>
  if bool_decide (is_Some (outbox t !! Outbox.e_ID snapshot)) then Ok (None, t <| outbox_next := outbox_next t + 1 |>)
  else
    let row := outboxRow (outbox_next t) snapshot in
    Ok (Some row, t <| outbox := <[Outbox.e_ID snapshot := row]> (outbox t) |> <| outbox_next := outbox_next t + 1 |>)).

Definition GetOutboxEventByID (eventID : UUID) : tx (option OutboxEventRow) := query (fun t => outbox t !! eventID).

Definition mapOutboxQueryError (noRowsError : Outbox.OutboxError) (err : DbError) : DbError :=
  match err with
  | ErrNoRows => OutboxFailure noRowsError
  | _ => if ctxDone then ContextError else OutboxFailure Outbox.ErrRepositoryUnavailable
  end.

Definition tx_outbox {A} (r : result Outbox.OutboxError A) : tx A :=
  match r with Ok a => tx_ret a | Err e => tx_fail (OutboxFailure e) end.

(** [OutboxEventRepository.Insert]. *)
Definition OutboxInsert (event : Outbox.Event) : tx Outbox.Event :=
  if negb (Outbox.e_Sequence event =? 0) then tx_fail (OutboxFailure Outbox.ErrInvalidInput)
  else
    do* created := tx_map_err (mapOutboxQueryError Outbox.ErrRepositoryUnavailable) (CreateOutboxEvent event) in
    match created with
    | Some row => tx_outbox (outboxEventFromRow row)
    | None =>
        do* existingRow := tx_map_err (mapOutboxQueryError Outbox.ErrNotFound) (one (GetOutboxEventByID (Outbox.e_ID event))) in
        do* existing := tx_outbox (outboxEventFromRow existingRow) in
        if negb (sameUnsequencedEvent existing event) then tx_fail (OutboxFailure Outbox.ErrAlreadyExists)
        else tx_ret existing
    end.

End Statements.

End RuntimeQueries.
