(* ===== verification/RuntimeRepository.v ===== *)
(** * The session repository: transactions

    [GameSessionRepository] of
    [platform/persistence/postgres/game_session_repository.go] and
    [system_inbox_repository.go]: what each of its operations reads, checks and
    writes, in the order of the code, over the statements of [RuntimeQueries]. *)

From stdpp Require Import gmap.
From S2P Require Import Prelude GoLib Sha256 Selector GameManifest GameContract Outbox Room RoomStore Runtime RuntimeCommit RuntimeStore RuntimeQueries.

Module RuntimeRepository.
Import GoLib Selector GameManifest GameContract Runtime RuntimeCommit RuntimeStore RuntimeQueries.

(** ** Results *)
Record ActionCommitResult := mkActionResult { ar_Session : Session; ar_Receipt : ActionReceipt; ar_Replayed : bool }.
Record TimerCommitResult := mkTimerResult { tcr_Session : Session; tcr_Receipt : TimerReceipt; tcr_Replayed : bool }.
Record SystemCommitResult := mkSystemResult {
  sr_Session : Session;
  sr_Receipt : SystemReceipt;
  sr_Replayed : bool;
  sr_Retry : bool;
}.
(** The zero value of a receipt. *)
Definition noSystemReceipt : SystemReceipt :=
  mkSystemReceipt (mkSystemKey Nil noOperation noSource) zeroDigest "" zeroDigest 0 0.

Record DueTimer := mkDueTimer {
  d_SessionID : UUID;
  d_TimerID : string;
  d_ExpectedStateVersion : Z;
  d_DueAt : Time;
  d_Message : Message;
}.

(** ** Checks against the locked session *)
Definition validateCurrentTransition (current : Session) (b : SessionSnapshot) : res unit :=
  if negb (s_OwnershipEpoch current =? s_OwnershipEpoch b) then Err ErrOwnershipLost
  else if negb (StateVersion (s_State current) =? StateVersion (s_State b)) then Err ErrStateVersionConflict
  else if String.eqb (s_Status current) StatusSuspended then Err ErrSessionSuspended
  else if Terminal (s_Status current) then Err ErrSessionTerminal
  else Ok tt.

Definition validateCurrentLifecycleTransition (current : Session) (b : SessionSnapshot) : res unit :=
  if negb (s_OwnershipEpoch current =? s_OwnershipEpoch b) then Err ErrOwnershipLost
  else if negb (StateVersion (s_State current) =? StateVersion (s_State b)) then Err ErrStateVersionConflict
  else if negb (String.eqb (s_Status current) (s_Status b)) then
    if String.eqb (s_Status current) StatusSuspended then Err ErrSessionSuspended
    else if Terminal (s_Status current) then Err ErrSessionTerminal
    else Err ErrInvalidLifecycleCommit
  else if Terminal (s_Status current) then Err ErrSessionTerminal
  else if negb (s_UpdatedAt current =? s_UpdatedAt b) || negb (s_SuspendedAt current =? s_SuspendedAt b)
          || negb (s_NextDeadlineAt current =? s_NextDeadlineAt b)
          || negb (String.eqb (s_CancelReason current) (s_CancelReason b))
          || negb (bool_decide (s_Timers current = s_Timers b))
  then Err ErrInvalidLifecycleCommit
  else Ok tt.

(** The map of [samePersistedTimers], by timer: the last of an identifier counts. *)
Definition timersByID (expected : list TimerSnapshot) : gmap string TimerSnapshot :=
  foldl (fun m timer => <[t_TimerID timer := timer]> m) ∅ expected.

Definition sameTimerRow (row : TimerRow) (timer : TimerSnapshot) : bool :=
  (tr_ExpectedStateVersion row =? i64 (t_ExpectedStateVersion timer)) && bool_decide (tr_DueAt row = Some (t_DueAt timer))
  && String.eqb (tr_MessageType row) (MessageType (t_Message timer))
  && (tr_SchemaVersion row =? i32 (SchemaVersion (t_Message timer)))
  && bool_decide (tr_Payload row = Payload (t_Message timer)).

Fixpoint takeTimers (sessionID : UUID) (timers : gmap string TimerSnapshot) (rows : list TimerRow) : bool :=
  match rows with
  | [] => bool_decide (timers = ∅)
  | row :: rest =>
      if negb (bool_decide (tr_SessionID row = Some sessionID)) || negb (bool_decide (is_Some (tr_DueAt row))) then false
      else match timers !! tr_TimerID row with
      | Some timer =>
          if negb (sameTimerRow row timer) then false else takeTimers sessionID (delete (tr_TimerID row) timers) rest
      | None => false
      end
  end.

Definition samePersistedTimers (rows : list TimerRow) (sessionID : UUID) (expected : list TimerSnapshot) : bool :=
  if negb (len rows =? len expected) then false else takeTimers sessionID (timersByID expected) rows.

(** ** Late system commands *)
Definition terminalSystemCompletionTime (proposed sessionUpdatedAt : Time) : Time :=
  if negb (After proposed sessionUpdatedAt) then sessionUpdatedAt + Microsecond else proposed.

Definition newTerminalSystemReceipt (key : SystemKey) (digest : Digest) (session : Session) (completedAt : Time)
  : res SystemReceipt :=
  let resultDigest := Sha256.Sum256 (bytesOf ResultCodeNoopTerminal ++ uuidBytes (s_ID session)
                                     ++ bigEndian 8 (StateVersion (s_State session))) in
  NewSystemReceipt (mkSystemReceipt key digest ResultCodeNoopTerminal resultDigest (StateVersion (s_State session)) completedAt).

Section Repository.
Context (fault : nat -> option DbError) (ctxDone : bool).
Local Open Scope stx_scope.

Abbreviation Run := (RuntimeQueries.Run fault).

(** The outcome of a transaction, with the error of the package. *)
Definition finish {A} (noRowsError : RuntimeError) (outcome : result DbError A * Tables) : sres A * Tables :=
  match outcome with
  | (Ok a, t) => (Ok a, t)
  | (Err err, t) => (Err (mapGameSessionRepositoryError err noRowsError), t)
  end.

(** ** Reading a session *)
Definition sessionFromUpdatedRow (row : GameSessionRow) : tx Session :=
  do* participants := ListGameSessionParticipants fault (default Nil (g_SessionID row)) in
  do* timers := ListGameSessionTimers fault (default Nil (g_SessionID row)) in
  tx_lift (sessionFromRows row participants timers).

Definition getGameSessionForUpdate (sessionID : UUID) : tx Session :=
  do* row := one (GetGameSessionForUpdate fault sessionID) in
  sessionFromUpdatedRow row.

Definition Get (sessionID : UUID) (t : Tables) : sres Session * Tables :=
  if sessionID =? Nil then (Err (Domain ErrInvalidSessionInput), t)
  else finish ErrSessionNotFound (Run (
    do* row := one (GetGameSessionForShare fault sessionID) in
    do* participants := ListGameSessionParticipants fault sessionID in
    do* timers := ListGameSessionTimers fault sessionID in
    tx_lift (sessionFromRows row participants timers)) t).

(** ** Children of a session *)
Fixpoint createTimers (sessionID : UUID) (timers : list TimerSnapshot) : tx unit :=
  match timers with
  | [] => tx_ret tt
  | timer :: rest =>
      do* _ := CreateGameSessionTimer fault sessionID (timerRow sessionID timer) in
      createTimers sessionID rest
  end.

Definition replaceGameSessionTimers (sessionID : UUID) (timers : list TimerSnapshot) : tx unit :=
  do* _ := DeleteGameSessionTimers fault sessionID in
  createTimers sessionID timers.

Fixpoint createEvents (batchID : UUID) (index : Z) (events : list Event) : tx unit :=
  match events with
  | [] => tx_ret tt
  | event :: rest =>
      do* _ := CreateGameSessionEvent fault batchID (eventRow batchID index event) in
      createEvents batchID (index + 1) rest
  end.

Definition insertGameSessionBatch (snapshot : EventBatch) : tx unit :=
  do* _ := CreateGameSessionEventBatch fault (batchRow snapshot) in
  createEvents (b_ID snapshot) 0 (b_Events snapshot).

Definition insertGameActionReceipt (snapshot : ActionReceipt) : tx unit :=
  do* _ := one (CreateGameActionReceipt fault (ak_SessionID (ac_Key snapshot)) (ak_ActorUserID (ac_Key snapshot))
                  (actionReceiptRow snapshot)) in
  tx_ret tt.

Definition insertGameTimerReceipt (snapshot : TimerReceipt) (batchID : UUID) : tx unit :=
  do* _ := one (CreateGameTimerReceipt fault (tk_SessionID (tc_Key snapshot)) (timerReceiptRow snapshot batchID)) in
  tx_ret tt.

Fixpoint insertGameSessionOutbox (events : list Outbox.Event) : tx unit :=
  match events with
  | [] => tx_ret tt
  | event :: rest =>
      do* _ := OutboxInsert fault ctxDone event in
      insertGameSessionOutbox rest
  end.

Fixpoint createParticipants (sessionID : UUID) (participants : list Participant) : tx unit :=
  match participants with
  | [] => tx_ret tt
  | participant :: rest =>
      do* _ := CreateGameSessionParticipant fault sessionID (participantRow sessionID participant) in
      createParticipants sessionID rest
  end.

(** ** Creating a session *)
Definition createGameSessionAggregate (commit : CreationCommit) : tx Session :=
  let snapshot := cc_Session commit in
  do* row := CreateGameSession fault (createGameSessionParams snapshot) in
  do* _ := createParticipants (s_ID snapshot) (s_Participants snapshot) in
  do* _ := CreateGameSessionReplayAccess fault (s_ID snapshot) (s_RoomID snapshot)
             (timeToPG (s_StartedAt snapshot)) (timeToPG (s_StartedAt snapshot)) in
  do* _ := replaceGameSessionTimers (s_ID snapshot) (s_Timers snapshot) in
  do* _ := insertGameSessionBatch (cc_Batch commit) in
  do* _ := insertGameSessionOutbox (cc_OutboxEvents commit) in
  do* participants := ListGameSessionParticipants fault (s_ID snapshot) in
  do* timers := ListGameSessionTimers fault (s_ID snapshot) in
  tx_lift (sessionFromRows row participants timers).

Definition Create (commit : CreationCommit) (t : Tables) : sres Session * Tables :=
  if negb (CreationCommit_Valid commit) then (Err (Domain ErrInvalidSessionInput), t)
  else match validateCreationWidths commit with
  | Err e => (Err (Domain e), t)
  | Ok _ => finish ErrSessionAlreadyExists (Run (createGameSessionAggregate commit) t)
  end.

(** ** Ownership *)
Definition AcquireOwnershipCAS (b next : Session) (t : Tables) : sres Session * Tables :=
  match validateOwnershipTransition b next with
  | Err e => (Err (Domain e), t)
  | Ok _ => finish ErrOwnershipLost (Run (
      do* row := one (AcquireGameSessionOwnershipCAS fault (timeToPG (s_UpdatedAt next)) (s_ID b)
                        (i64 (StateVersion (s_State b))) (i64 (s_OwnershipEpoch b))) in
      do* participants := ListGameSessionParticipants fault (s_ID b) in
      do* timers := ListGameSessionTimers fault (s_ID b) in
      tx_lift (sessionFromRows row participants timers)) t)
  end.

(** ** Actions *)

(** The role check both fences end with. *)
Definition requireParticipant (roomID actorUserID : UUID) : tx unit :=
  do* role := GetRoomMemberRole fault roomID actorUserID in
  match role with
  | Some role =>
      if String.eqb role Room.MemberRoleParticipant then tx_ret tt else tx_fail (DomainError ErrParticipantNotActive)
  | None => tx_fail (DomainError ErrParticipantNotActive)
  end.

Definition lockActionReceiptFence (key : ActionKey) : tx unit :=
  do* roomID := one_or (GetGameSessionRoomID fault (ak_SessionID key)) (DomainError ErrSessionNotFound) in
  match roomID with
  | None => tx_ret tt
  | Some roomID =>
      do* _ := one (GetPartyRoomForUpdate fault roomID) in
      requireParticipant roomID (ak_ActorUserID key)
  end.

Definition lockActionParticipantFence (session : SessionSnapshot) (actorUserID : UUID) : tx unit :=
  do* roomRow := one_or (GetPartyRoomForUpdate fault (s_RoomID session)) (DomainError ErrSessionNotFound) in
  if negb (bool_decide (RoomStore.row_RoomID roomRow = Some (s_RoomID session))) then tx_fail (DomainError ErrGameSessionIntegrity)
  else requireParticipant (s_RoomID session) actorUserID.

Definition rejectTerminalWithPendingSystemInbox (a : SessionSnapshot) (excludedSourceEventID : UUID) : tx unit :=
  if negb (Terminal (s_Status a)) then tx_ret tt
  else
    do* pending := HasPendingGameSystemInbox fault (s_ID a) (optionalUUIDToPG excludedSourceEventID) in
    if pending : bool then tx_fail (DomainError ErrSystemOperationPending) else tx_ret tt.

Definition GetActionReceipt (key : ActionKey) (requestDigest : Digest) (t : Tables) : sres ActionReceipt * Tables :=
  if negb (ActionKey_Valid key) then (Err (Domain ErrInvalidSessionInput), t)
  else finish ErrActionReceiptNotFound (Run (
    do* _ := lockActionReceiptFence key in
    do* row := one (GetGameActionReceipt fault (ak_SessionID key) (ak_ActorUserID key) (Value (ak_ActionID key))) in
    do* receipt := tx_lift (actionReceiptFromRow row) in
    do* _ := tx_lift (ActionReceipt_Replay receipt requestDigest) in
    tx_ret receipt) t).

Definition commitActionAfterRoomLock (commit : ActionCommit) : tx ActionCommitResult :=
  let b := before commit in
  let a := after commit in
  do* current := getGameSessionForUpdate (s_ID b) in
  do* receiptRow := GetGameActionReceipt fault (s_ID b) (ak_ActorUserID (ac_Key (receipt commit)))
                      (Value (ak_ActionID (ac_Key (receipt commit)))) in
  match receiptRow with
  | Some row =>
      do* stored := tx_lift (actionReceiptFromRow row) in
      do* _ := tx_lift (ActionReceipt_Replay stored (ac_RequestDigest (receipt commit))) in
      tx_ret (mkActionResult current stored true)
  | None =>
      do* _ := tx_lift (validateCurrentTransition current b) in
      do* _ := rejectTerminalWithPendingSystemInbox a Nil in
      do* updatedRow := one (UpdateGameSessionStateCAS fault (updateGameSessionStateParams b a)) in
      do* _ := replaceGameSessionTimers (s_ID a) (s_Timers a) in
      do* _ := insertGameSessionBatch (batch commit) in
      do* _ := insertGameActionReceipt (receipt commit) in
      do* _ := insertGameSessionOutbox (outboxEvents commit) in
      do* stored := sessionFromUpdatedRow updatedRow in
      tx_ret (mkActionResult stored (receipt commit) false)
  end.

Definition CommitAction (commit : ActionCommit) (t : Tables) : sres ActionCommitResult * Tables :=
  if negb (ActionCommit_Valid commit) then (Err (Domain ErrInvalidActionCommit), t)
  else match validateActionWidths commit with
  | Err e => (Err (Domain e), t)
  | Ok _ => finish ErrSessionNotFound (Run (
      do* _ := lockActionParticipantFence (before commit) (ak_ActorUserID (ac_Key (receipt commit))) in
      commitActionAfterRoomLock commit) t)
  end.

(** ** Timers *)
Definition GetTimerReceipt (key : TimerKey) (t : Tables) : sres TimerReceipt * Tables :=
  if negb (TimerKey_Valid key) then (Err (Domain ErrInvalidSessionInput), t)
  else finish ErrTimerReceiptNotFound (Run (
    do* row := one (GetGameTimerReceipt fault (tk_SessionID key) (tk_TimerID key) (i64 (tk_ExpectedStateVersion key))) in
    tx_lift (timerReceiptFromRow row)) t).

Definition persistTimerTransition (commit : TimerCommit) : tx Session :=
  let a := after commit in
  do* updatedRow := one (UpdateGameSessionStateCAS fault (updateGameSessionStateParams (before commit) a)) in
  do* _ := replaceGameSessionTimers (s_ID a) (s_Timers a) in
  do* _ := insertGameSessionBatch (batch commit) in
  do* _ := insertGameTimerReceipt (receipt commit) (b_ID (batch commit)) in
  do* _ := insertGameSessionOutbox (outboxEvents commit) in
  sessionFromUpdatedRow updatedRow.

(** The stored timer is the one the commit fires, and it is due. *)
Definition timerRowDue (timerRow : TimerRow) (key : TimerKey) (bt : EventBatchSnapshot) : bool :=
  (tr_ExpectedStateVersion timerRow =? i64 (tk_ExpectedStateVersion key))
  && match tr_DueAt timerRow with Some dueAt => negb (Before (b_CommittedAt bt) dueAt) | None => false end
  && String.eqb (tr_MessageType timerRow) (MessageType (b_Input bt))
  && (tr_SchemaVersion timerRow =? i32 (SchemaVersion (b_Input bt)))
  && bool_decide (tr_Payload timerRow = Payload (b_Input bt)).

Definition commitTimerAfterSessionLock (current : Session) (commit : TimerCommit) : tx TimerCommitResult :=
  let b := before commit in
  let key := tc_Key (receipt commit) in
  do* receiptRow := GetGameTimerReceipt fault (tk_SessionID key) (tk_TimerID key) (i64 (tk_ExpectedStateVersion key)) in
  match receiptRow with
  | Some row =>
      do* stored := tx_lift (timerReceiptFromRow row) in
      tx_ret (mkTimerResult current stored true)
  | None =>
      do* _ := tx_lift (validateCurrentTransition current b) in
      do* _ := rejectTerminalWithPendingSystemInbox (after commit) Nil in
      do* timerRow := one_or (GetGameSessionTimerForUpdate fault (s_ID b) (tk_TimerID key)) (DomainError ErrTimerNotFound) in
      if negb (timerRowDue timerRow key (batch commit)) then tx_fail (DomainError ErrTimerNotDue)
      else
        do* stored := persistTimerTransition commit in
        tx_ret (mkTimerResult stored (receipt commit) false)
  end.

Definition CommitTimer (commit : TimerCommit) (t : Tables) : sres TimerCommitResult * Tables :=
  if negb (TimerCommit_Valid commit) then (Err (Domain ErrInvalidTimerCommit), t)
  else match validateTimerCommitWidths commit with
  | Err e => (Err (Domain e), t)
  | Ok _ => finish ErrSessionNotFound (Run (
      do* current := getGameSessionForUpdate (s_ID (before commit)) in
      commitTimerAfterSessionLock current commit) t)
  end.

(** ** System commands *)
Definition GetSystemReceipt (key : SystemKey) (requestDigest : Digest) (t : Tables) : sres SystemReceipt * Tables :=
  if negb (SystemKey_Valid key) then (Err (Domain ErrInvalidSessionInput), t)
  else finish ErrSystemReceiptNotFound (Run (
    do* row := one (GetGameSystemOperationForUpdate fault (sk_SessionID key) (Value (sk_OperationID key))) in
    tx_lift (completedSystemReceiptFromRow row key requestDigest)) t).

Definition lockOrCreateSystemOperation (receipt : SystemReceipt) : tx SystemOperationRow :=
  let key := RuntimeCommit.sc_Key receipt in
  let digest := RuntimeCommit.sc_RequestDigest receipt in
  do* operation := GetGameSystemOperationForUpdate fault (sk_SessionID key) (Value (sk_OperationID key)) in
  match operation with
  | Some operation => tx_lift (validateSystemOperationBinding operation key digest)
  | None =>
      do* bySource := GetGameSystemOperationBySourceForUpdate fault (sk_SessionID key) (src_EventID (sk_Source key)) in
      match bySource with
      | Some bySource =>
          if negb (String.eqb (so_OperationID bySource) (Value (sk_OperationID key))) then tx_fail (DomainError ErrConflict)
          else tx_lift (validateSystemOperationBinding bySource key digest)
      | None =>
          do* operation := one (InsertGameSystemOperationPending fault (sk_SessionID key) (Value (sk_OperationID key))
                                  (src_Kind (sk_Source key)) (src_EventID (sk_Source key))
                                  (optionalUUIDToPG (src_RequestedByUserID (sk_Source key))) digest
                                  (timeToPG (RuntimeCommit.sc_CommittedAt receipt))) in
          tx_lift (validateSystemOperationBinding operation key digest)
      end
  end.

Definition completeGameSystemOperation (receipt : SystemReceipt) (batchID : UUID) : tx SystemOperationRow :=
  one (CompleteGameSystemOperationCAS fault (RuntimeCommit.sc_ResultCode receipt) (RuntimeCommit.sc_ResultDigest receipt)
         (i64 (RuntimeCommit.sc_StateVersion receipt)) (optionalUUIDToPG batchID)
         (timeToPG (RuntimeCommit.sc_CommittedAt receipt)) (sk_SessionID (RuntimeCommit.sc_Key receipt))
         (Value (sk_OperationID (RuntimeCommit.sc_Key receipt)))).

Definition completeTerminalSystemOperation (key : SystemKey) (digest : Digest) (session : Session) (completedAt : Time)
  : tx SystemReceipt :=
  do* receipt := tx_lift (newTerminalSystemReceipt key digest session completedAt) in
  do* row := completeGameSystemOperation receipt Nil in
  tx_lift (completedSystemReceiptFromRow row key digest).

Definition persistSystemTransition (commit : SystemCommit) : tx Session :=
  let a := after commit in
  do* updatedRow := one (UpdateGameSessionStateCAS fault (updateGameSessionStateParams (before commit) a)) in
  do* _ := replaceGameSessionTimers (s_ID a) (s_Timers a) in
  do* _ := insertGameSessionBatch (batch commit) in
  do* _ := insertGameSessionOutbox (outboxEvents commit) in
  do* _ := completeGameSystemOperation (receipt commit) (b_ID (batch commit)) in
  sessionFromUpdatedRow updatedRow.

Definition commitSystemAfterSessionLock (current : Session) (commit : SystemCommit) : tx SystemCommitResult :=
  let b := before commit in
  let rc := receipt commit in
  let key := RuntimeCommit.sc_Key rc in
  let digest := RuntimeCommit.sc_RequestDigest rc in
  do* operation := lockOrCreateSystemOperation rc in
  if String.eqb (so_Status operation) SystemInboxCompleted then
    do* stored := tx_lift (completedSystemReceiptFromRow operation key digest) in
    tx_ret (mkSystemResult current stored true false)
  else if Terminal (s_Status current) then
    let completedAt := terminalSystemCompletionTime (RuntimeCommit.sc_CommittedAt rc) (s_UpdatedAt current) in
    do* stored := completeTerminalSystemOperation key digest current completedAt in
    tx_ret (mkSystemResult current stored false false)
  else if negb (s_OwnershipEpoch current =? s_OwnershipEpoch b)
          || negb (StateVersion (s_State current) =? StateVersion (s_State b))
  then tx_ret (mkSystemResult current noSystemReceipt false true)
  else if String.eqb (s_Status current) StatusSuspended then tx_fail (DomainError ErrSessionSuspended)
  else
    do* _ := rejectTerminalWithPendingSystemInbox (after commit) (src_EventID (sk_Source key)) in
    do* stored := persistSystemTransition commit in
    tx_ret (mkSystemResult stored rc false false).

Definition CommitSystem (commit : SystemCommit) (t : Tables) : sres SystemCommitResult * Tables :=
  if negb (SystemCommit_Valid commit) then (Err (Domain ErrInvalidSystemCommit), t)
  else match validateSystemCommitWidths commit with
  | Err e => (Err (Domain e), t)
  | Ok _ => finish ErrSessionNotFound (Run (
      do* current := getGameSessionForUpdate (s_ID (before commit)) in
      commitSystemAfterSessionLock current commit) t)
  end.

Definition CompleteSystemNoop (key : SystemKey) (digest : Digest) (completedAt : Time) (t : Tables)
  : sres SystemCommitResult * Tables :=
  let completedAt := RoundUTC completedAt in
  if negb (SystemKey_Valid key) || IsZero completedAt then (Err (Domain ErrInvalidSessionInput), t)
  else finish ErrSessionNotFound (Run (
    do* current := getGameSessionForUpdate (sk_SessionID key) in
    if negb (Terminal (s_Status current)) then tx_fail (DomainError ErrSystemOperationPending)
    else
      let completedAt := terminalSystemCompletionTime completedAt (s_UpdatedAt current) in
      do* candidate := tx_lift (newTerminalSystemReceipt key digest current completedAt) in
      do* operation := lockOrCreateSystemOperation candidate in
      if String.eqb (so_Status operation) SystemInboxCompleted then
        do* stored := tx_lift (completedSystemReceiptFromRow operation key digest) in
        tx_ret (mkSystemResult current stored true false)
      else
        do* stored := completeTerminalSystemOperation key digest current completedAt in
        tx_ret (mkSystemResult current stored false false)) t).

(** ** Lifecycle *)
Definition persistAdjustedGameSessionTimersForResume (b a : SessionSnapshot) : tx unit :=
  if IsZero (s_SuspendedAt b) || negb (IsZero (s_SuspendedAt a)) || negb (After (s_UpdatedAt a) (s_SuspendedAt b))
  then tx_fail (DomainError ErrInvalidLifecycleCommit)
  else
    do* locked := ListGameSessionTimersForUpdate fault (s_ID b) in
    if negb (samePersistedTimers locked (s_ID b) (s_Timers b)) then tx_fail (DomainError ErrGameSessionIntegrity)
    else
      do* _ := replaceGameSessionTimers (s_ID a) (s_Timers a) in
      do* shifted := ListGameSessionTimersForUpdate fault (s_ID a) in
      if negb (samePersistedTimers shifted (s_ID a) (s_Timers a)) then tx_fail (DomainError ErrGameSessionIntegrity)
      else tx_ret tt.

Definition persistLifecycleAfterSessionLock (current : Session) (commit : LifecycleCommit) : tx Session :=
  let b := lc_before commit in
  let a := lc_after commit in
  do* _ := tx_lift (validateCurrentLifecycleTransition current b) in
  let resuming := String.eqb (s_Status b) StatusSuspended && String.eqb (s_Status a) StatusActive in
  do* _ := (if resuming : bool then persistAdjustedGameSessionTimersForResume b a else tx_ret tt) in
  do* row := one (UpdateGameSessionLifecycleCAS fault (updateGameSessionLifecycleParams b a)) in
  do* _ := (if negb resuming then replaceGameSessionTimers (s_ID a) (s_Timers a) else tx_ret tt) in
  do* _ := insertGameSessionOutbox (lc_outboxEvents commit) in
  sessionFromUpdatedRow row.

Definition CommitLifecycle (commit : LifecycleCommit) (t : Tables) : sres Session * Tables :=
  if negb (LifecycleCommit_Valid commit) then (Err (Domain ErrInvalidLifecycleCommit), t)
  else finish ErrSessionNotFound (Run (
    do* current := getGameSessionForUpdate (s_ID (lc_before commit)) in
    persistLifecycleAfterSessionLock current commit) t).

(** ** Scheduling and replay *)
Definition dueTimerFromRow (row : TimerRow) : res DueTimer :=
  match tr_SessionID row, tr_DueAt row with
  | Some session, Some dueAt =>
      if (tr_ExpectedStateVersion row <=? 0) || (tr_SchemaVersion row <=? 0) then Err ErrGameSessionIntegrity
      else
        let message := mkMessage (tr_MessageType row) (u32 (tr_SchemaVersion row)) (tr_Payload row) in
        if negb (identifierOk (tr_TimerID row)) || negb (Message_Valid message) then Err ErrGameSessionIntegrity
        else Ok (mkDueTimer session (tr_TimerID row) (u64 (tr_ExpectedStateVersion row)) dueAt message)
  | _, _ => Err ErrGameSessionIntegrity
  end.

Definition ListDueTimers (dueAt : Time) (limit : Z) (t : Tables) : sres (list DueTimer) * Tables :=
  let dueAt := RoundUTC dueAt in
  if IsZero dueAt || (limit =? 0) || (1024 <? limit) then (Err (Domain ErrInvalidSessionInput), t)
  else finish ErrSessionNotFound (Run (
    do* rows := ListDueGameSessionTimerCandidates fault dueAt (i32 limit) in
    tx_lift (map_result dueTimerFromRow rows)) t).

Fixpoint readBatches (rows : list BatchRow) : tx (list EventBatch) :=
  match rows with
  | [] => tx_ret []
  | row :: rest =>
      do* events := ListGameSessionEvents fault (default Nil (br_BatchID row)) in
      do* batch := tx_lift (eventBatchFromRows row events) in
      do* batches := readBatches rest in
      tx_ret (batch :: batches)
  end.

Definition ReadEventBatches (sessionID : UUID) (afterStateVersion limit : Z) (t : Tables) : sres (list EventBatch) * Tables :=
  if (sessionID =? Nil) || (maxInt64 <? afterStateVersion) || (limit =? 0) || (1024 <? limit)
  then (Err (Domain ErrInvalidSessionInput), t)
  else finish ErrSessionNotFound (Run (
    do* rows := ListGameSessionEventBatchesAfter fault sessionID (i64 afterStateVersion) (i32 limit) in
    readBatches rows) t).

(** ** Room facts *)
Definition GetSystemInbox (key : SystemInboxKey) (digest : Digest) (t : Tables) : sres SystemInboxRecord * Tables :=
  if negb (SystemInboxKey_Valid key) then (Err (Domain ErrInvalidSessionInput), t)
  else finish ErrSystemInboxNotFound (Run (
    do* row := one (GetGameSystemInboxForUpdate fault (ik_SessionID key) (ik_SourceEventID key)) in
    tx_lift (systemInboxFromRow row key digest)) t).

Definition CompleteSystemInbox (key : SystemInboxKey) (digest : Digest) (stateVersion : Z) (completedAt : Time) (t : Tables)
  : sres SystemInboxRecord * Tables :=
  let completedAt := RoundUTC completedAt in
  if negb (SystemInboxKey_Valid key) || (stateVersion =? 0) || (maxInt64 <? stateVersion) || IsZero completedAt
  then (Err (Domain ErrInvalidSessionInput), t)
  else finish ErrSystemInboxNotFound (Run (
    do* row := one (GetGameSystemInboxForUpdate fault (ik_SessionID key) (ik_SourceEventID key)) in
    do* current := tx_lift (systemInboxFromRow row key digest) in
    if String.eqb (ib_Status current) SystemInboxCompleted then
      if negb (ib_CommittedStateVersion current =? stateVersion) then tx_fail (DomainError ErrGameSessionIntegrity)
      else tx_ret current
    else
      do* row := one (CompleteGameSystemInboxCAS fault (i64 stateVersion) (timeToPG completedAt) (ik_SessionID key)
                        (ik_SourceEventID key) digest) in
      tx_lift (systemInboxFromRow row key digest)) t).
End Repository.

End RuntimeRepository.
