(* ===== verification/RuntimeStoreFacts.v ===== *)
(** * The session repository: what the transactions do

    Inversion of the statements and the effect on the tables of every operation
    of [GameSessionRepository]. *)

From stdpp Require Import gmap.
From S2P Require Import Prelude GoLib Sha256 Selector GameManifest GameContract Outbox Room RoomStore Runtime RuntimeFacts RuntimeCommit RuntimeStore RuntimeQueries RuntimeRepository.

Module RuntimeStoreFacts.
Import GoLib Selector GameManifest GameContract Runtime RuntimeFacts RuntimeCommit RuntimeStore RuntimeQueries RuntimeRepository.

(** ** Transactions *)
Lemma session_bind_inv {A B} (m : tx A) (f : A -> tx B) t n b t' n' :
  tx_bind m f (t, n) = Ok (b, (t', n')) ->
  exists a t1 n1, m (t, n) = Ok (a, (t1, n1)) /\ f a (t1, n1) = Ok (b, (t', n')).
Proof. unfold tx_bind. intros H. inv_result H. destruct value0 as [a [t1 n1]]. by exists a, t1, n1. Qed.

Lemma tx_lift_inv {A} (r : res A) t n a t' n' : tx_lift r (t, n) = Ok (a, (t', n')) -> r = Ok a /\ t' = t /\ n' = n.
Proof. unfold tx_lift. destruct r; intros H; [|done]. by injection H as <- <- <-. Qed.

Lemma tx_ret_inv {A} (v : A) t n a t' n' : tx_ret v (t, n) = Ok (a, (t', n')) -> a = v /\ t' = t /\ n' = n.
Proof. intros H. by injection H as <- <- <-. Qed.

Lemma one_inv {A} (q : tx (option A)) t n a t' n' : one q (t, n) = Ok (a, (t', n')) -> q (t, n) = Ok (Some a, (t', n')).
Proof.
  intros (r & t1 & n1 & Hq & H)%session_bind_inv. destruct r; [|done]. by apply tx_ret_inv in H as (-> & -> & ->).
Qed.

Lemma one_or_inv {A} (q : tx (option A)) e t n a t' n' :
  one_or q e (t, n) = Ok (a, (t', n')) -> q (t, n) = Ok (Some a, (t', n')).
Proof.
  intros (r & t1 & n1 & Hq & H)%session_bind_inv. destruct r; [|done]. by apply tx_ret_inv in H as (-> & -> & ->).
Qed.

(** Splits a transaction that succeeded into its first step and the rest. *)
Ltac step H a Ha := let t := fresh "t" in let n := fresh "n" in apply session_bind_inv in H as (a & t & n & Ha & H).

Section Effects.
Context (fault : nat -> option DbError) (ctxDone : bool).

Lemma session_statement_inv {A} (f : Tables -> result DbError (A * Tables)) t n a t' n' :
  statement fault f (t, n) = Ok (a, (t', n')) -> f t = Ok (a, t').
Proof.
  unfold statement. destruct (fault n); [done|]. intros H. inv_result H. destruct value0 as [a1 t1].
  by injection H as <- <- <-.
Qed.

Lemma query_inv {A} (f : Tables -> A) t n a t' n' : query fault f (t, n) = Ok (a, (t', n')) -> a = f t /\ t' = t.
Proof. unfold query. intros H%session_statement_inv. by injection H as <- <-. Qed.

Lemma Run_session_inv {A} (work : tx A) t out t' :
  RuntimeQueries.Run fault work t = (out, t') ->
  (exists e, out = Err e /\ t' = t) \/ (exists a n, out = Ok a /\ work (t, 1%nat) = Ok (a, (t', n))).
Proof.
  unfold RuntimeQueries.Run. destruct (fault 0%nat); [intros [= <- <-]; left; by eexists|].
  destruct (work (t, 1%nat)) as [[a [t1 n]]|e]; [|intros [= <- <-]; left; by eexists].
  destruct (fault n); intros [= <- <-]; [left; by eexists|right; by eexists _, _].
Qed.

(** A transaction that fails leaves the tables; one that succeeds is its work. *)
Lemma finish_inv {A} noRows (work : tx A) t out t' :
  finish noRows (RuntimeQueries.Run fault work t) = (out, t') ->
  match out with
  | Err _ => t' = t
  | Ok a => exists n, work (t, 1%nat) = Ok (a, (t', n))
  end.
Proof.
  destruct (RuntimeQueries.Run fault work t) as [out1 t1] eqn:E. apply Run_session_inv in E as [(e & -> & ->)|(a & n & -> & E)];
    intros [= <- <-]; [done|by exists n].
Qed.

(** ** Children *)
Lemma createTimers_inv sid timers t n u t' n' :
  createTimers fault sid timers (t, n) = Ok (u, (t', n')) ->
  exists M, t' = t <| session_timers := M |> /\ (forall k, k <> sid -> M !! k = session_timers t !! k) /\
    default [] (M !! sid) = timersOf t sid ++ (timerRow sid <$> timers).
Proof.
  revert t n. induction timers as [|timer timers IH]; intros t n H; cbn [createTimers] in H.
  - apply tx_ret_inv in H as (_ & -> & _). exists (session_timers t). split_and!; [by destruct t|done|]. by rewrite app_nil_r.
  - step H a Ha. apply session_statement_inv in Ha. destruct (existsb _ _); [done|]. injection Ha as _ <-.
    apply IH in H as (M & -> & Hk & Hs). exists M. split_and!; [done| |].
    + intros k Hne. rewrite Hk by done. cbn. by rewrite lookup_insert_ne.
    + rewrite Hs. unfold timersOf at 1. cbn. rewrite lookup_insert_eq. cbn. by rewrite <- app_assoc.
Qed.

Lemma replaceGameSessionTimers_inv sid timers t n u t' n' :
  replaceGameSessionTimers fault sid timers (t, n) = Ok (u, (t', n')) ->
  exists M, t' = t <| session_timers := M |> /\ (forall k, k <> sid -> M !! k = session_timers t !! k) /\
    default [] (M !! sid) = timerRow sid <$> timers.
Proof.
  intros H. step H a Ha. apply session_statement_inv in Ha. injection Ha as _ <-.
  apply createTimers_inv in H as (M & -> & Hk & Hs). exists M. split_and!; [done| |].
  - intros k Hne. rewrite Hk by done. cbn. by rewrite lookup_delete_ne.
  - rewrite Hs. unfold timersOf. cbn. by rewrite lookup_delete_eq.
Qed.

Lemma createEvents_inv bid index events t n u t' n' :
  createEvents fault bid index events (t, n) = Ok (u, (t', n')) ->
  exists M, t' = t <| session_events := M |> /\ (forall k, k <> bid -> M !! k = session_events t !! k) /\
    default [] (M !! bid) = eventsOf t bid ++ imap (fun i e => eventRow bid (index + Z.of_nat i) e) events.
Proof.
  revert t n index. induction events as [|event events IH]; intros t n index H; cbn [createEvents] in H.
  - apply tx_ret_inv in H as (_ & -> & _). exists (session_events t). split_and!; [by destruct t|done|]. by rewrite app_nil_r.
  - step H a Ha. apply session_statement_inv in Ha. destruct (existsb _ _); [done|]. injection Ha as _ <-.
    apply IH in H as (M & -> & Hk & Hs). exists M. split_and!; [done| |].
    + intros k Hne. rewrite Hk by done. cbn. by rewrite lookup_insert_ne.
    + rewrite Hs. unfold eventsOf at 1. cbn. rewrite lookup_insert_eq. cbn. rewrite <- app_assoc, Z.add_0_r. f_equal.
      cbn. f_equal. apply imap_ext. intros i e _. cbn. f_equal. lia.
Qed.

Lemma insertGameSessionBatch_inv b t n u t' n' :
  insertGameSessionBatch fault b (t, n) = Ok (u, (t', n')) ->
  event_batches t !! b_ID b = None /\
  (forall id row, event_batches t !! id = Some row -> br_SessionID row = Some (b_SessionID b) ->
     br_StateVersion row <> i64 (b_StateVersion b)) /\
  exists M, t' = t <| event_batches := <[b_ID b := batchRow b]> (event_batches t) |> <| session_events := M |> /\
    (forall k, k <> b_ID b -> M !! k = session_events t !! k) /\
    default [] (M !! b_ID b) = eventsOf t (b_ID b) ++ imap (fun i e => eventRow (b_ID b) (Z.of_nat i) e) (b_Events b).
Proof.
  intros H. step H a Ha. apply session_statement_inv in Ha. cbn [batchRow br_BatchID br_SessionID br_StateVersion default] in Ha.
  change (default Nil (uuidToPG (b_ID b))) with (b_ID b) in Ha.
  case_bool_decide as Hnone; [done|]. destruct (existsb _ _) eqn:Ex; [done|]. injection Ha as _ <-. split_and!.
  - by apply eq_None_not_Some.
  - intros id row Hrow Hs Hv. apply not_true_iff_false in Ex. apply Ex, existsb_exists. exists (id, row). split.
    + by apply list_elem_of_In, elem_of_map_to_list.
    + cbn. rewrite Hs, Hv, Z.eqb_refl. cbn. rewrite bool_decide_true by done. done.
  - apply createEvents_inv in H as (M & -> & Hk & Hs). by exists M.
Qed.

Lemma insertGameActionReceipt_inv r t n u t' n' :
  insertGameActionReceipt fault r (t, n) = Ok (u, (t', n')) ->
  let key := (ak_SessionID (ac_Key r), ak_ActorUserID (ac_Key r), Value (ak_ActionID (ac_Key r))) in
  action_receipts t !! key = None /\ t' = t <| action_receipts := <[key := actionReceiptRow r]> (action_receipts t) |>.
Proof.
  intros H. step H a Ha. apply one_inv, session_statement_inv in Ha. cbn [actionReceiptRow arr_ActionID] in Ha.
  case_bool_decide as Hnone; [done|]. injection Ha as <- <-. apply tx_ret_inv in H as (_ & -> & _).
  split; [by apply eq_None_not_Some|done].
Qed.

Lemma insertGameTimerReceipt_inv r bid t n u t' n' :
  insertGameTimerReceipt fault r bid (t, n) = Ok (u, (t', n')) ->
  let key := (tk_SessionID (tc_Key r), tk_TimerID (tc_Key r), i64 (tk_ExpectedStateVersion (tc_Key r))) in
  timer_receipts t !! key = None /\ t' = t <| timer_receipts := <[key := timerReceiptRow r bid]> (timer_receipts t) |>.
Proof.
  intros H. step H a Ha. apply one_inv, session_statement_inv in Ha. cbn [timerReceiptRow trr_TimerID trr_ExpectedStateVersion] in Ha.
  case_bool_decide as Hnone; [done|]. destruct (existsb _ _); [done|]. injection Ha as <- <-.
  apply tx_ret_inv in H as (_ & -> & _). split; [by apply eq_None_not_Some|done].
Qed.

(** An event is in the outbox afterwards, and those that were there stay. *)
Lemma OutboxInsert_inv event t n e t' n' :
  OutboxInsert fault ctxDone event (t, n) = Ok (e, (t', n')) ->
  exists O k, t' = t <| outbox := O |> <| outbox_next := k |> /\ outbox t ⊆ O /\ is_Some (O !! Outbox.e_ID event).
Proof.
  unfold OutboxInsert. destruct (negb _); [done|]. intros H. step H created Hc.
  unfold tx_map_err in Hc. destruct (CreateOutboxEvent _ _ _) as [r|] eqn:Ec; [|done]. injection Hc as ->.
  apply session_statement_inv in Ec. case_bool_decide as Hin; injection Ec as <- <-.
  - step H row Hr. unfold tx_map_err in Hr. destruct (one _ _) as [r|] eqn:Er; [|done]. injection Hr as ->.
    apply one_inv, query_inv in Er as [_ ->]. step H existing He.
    assert (t' = t <| outbox_next := outbox_next t + 1 |>) as ->.
    { unfold tx_outbox in He. destruct (outboxEventFromRow row); [|done]. apply tx_ret_inv in He as (_ & -> & _).
      destruct (negb _); [done|]. by apply tx_ret_inv in H as (_ & -> & _). }
    exists (outbox t), (outbox_next t + 1). split_and!; [by destruct t|done|done].
  - exists (<[Outbox.e_ID event := outboxRow (outbox_next t) event]> (outbox t)), (outbox_next t + 1). split_and!.
    + unfold tx_outbox in H. destruct (outboxEventFromRow _); [|done]. by apply tx_ret_inv in H as (_ & -> & _).
    + apply insert_subseteq. by apply eq_None_not_Some.
    + rewrite lookup_insert_eq. by eexists.
Qed.

Lemma insertGameSessionOutbox_inv events t n u t' n' :
  insertGameSessionOutbox fault ctxDone events (t, n) = Ok (u, (t', n')) ->
  exists O k, t' = t <| outbox := O |> <| outbox_next := k |> /\ outbox t ⊆ O /\
    Forall (fun event => is_Some (O !! Outbox.e_ID event)) events.
Proof.
  revert t n. induction events as [|event events IH]; intros t n H; cbn [insertGameSessionOutbox] in H.
  - apply tx_ret_inv in H as (_ & -> & _). exists (outbox t), (outbox_next t). split_and!; [by destruct t|done|constructor].
  - step H a Ha. apply OutboxInsert_inv in Ha as (O1 & k1 & -> & Hsub1 & Hin1).
    apply IH in H as (O & k & -> & Hsub & Hin). exists O, k. split_and!; [done| |].
    + etransitivity; [exact Hsub1|exact Hsub].
    + constructor; [|done]. destruct Hin1 as [row Hrow]. exists row. by eapply lookup_weaken; [|exact Hsub].
Qed.

(** ** Reading a session *)
Definition loadSession (t : Tables) (sid : UUID) : option Session :=
  row ← game_sessions t !! sid;
  match sessionFromRows row (merge_sort participant_before (participantsOf t sid)) (merge_sort timer_before (timersOf t sid)) with
  | Ok s => Some s
  | Err _ => None
  end.

Lemma loadSession_intro t sid row s :
  game_sessions t !! sid = Some row ->
  sessionFromRows row (merge_sort participant_before (participantsOf t sid)) (merge_sort timer_before (timersOf t sid)) = Ok s ->
  loadSession t sid = Some s.
Proof. intros Hrow H. unfold loadSession. rewrite Hrow. cbn [mbind option_bind]. by rewrite H. Qed.

Lemma sessionFromUpdatedRow_inv row t n s t' n' :
  sessionFromUpdatedRow fault row (t, n) = Ok (s, (t', n')) ->
  t' = t /\ sessionFromRows row (merge_sort participant_before (participantsOf t (default Nil (g_SessionID row))))
              (merge_sort timer_before (timersOf t (default Nil (g_SessionID row)))) = Ok s.
Proof.
  intros H. step H ps Hps. apply query_inv in Hps as [-> ->]. step H ts Hts. apply query_inv in Hts as [-> ->].
  by apply tx_lift_inv in H as (H & -> & _).
Qed.

(** The row of a session carries its identifier. *)
Definition rowsKeyed (t : Tables) : Prop :=
  forall sid row, game_sessions t !! sid = Some row -> g_SessionID row = Some sid.

Lemma getGameSessionForUpdate_inv sid t n s t' n' :
  rowsKeyed t -> getGameSessionForUpdate fault sid (t, n) = Ok (s, (t', n')) ->
  t' = t /\ loadSession t sid = Some s.
Proof.
  intros Hk H. step H row Hrow. apply one_inv, query_inv in Hrow as [Hrow ->].
  apply sessionFromUpdatedRow_inv in H as [-> H]. split; [done|]. unfold loadSession. rewrite <- Hrow. cbn.
  rewrite (Hk sid row) in H by done. cbn in H. by rewrite H.
Qed.

Lemma updateSession_inv sid matches set t n r t' n' :
  updateSession fault sid matches set (t, n) = Ok (Some r, (t', n')) ->
  exists row, game_sessions t !! sid = Some row /\ matches row = true /\ r = set row /\
    t' = t <| game_sessions := <[sid := set row]> (game_sessions t) |>.
Proof.
  intros H%session_statement_inv. destruct (game_sessions t !! sid) as [row|]; [|done].
  destruct (matches row) eqn:Em; [|done]. injection H as <- <-. by exists row.
Qed.

(** ** Moves *)

(** The tables before and after a move from [b] to [a] is stored: the row of the
    session was at the version and epoch of [b] and active, the batch is new. *)
Record advanced (b a : SessionSnapshot) (bt : EventBatch) (events : list Outbox.Event) (row : GameSessionRow)
    (t t' : Tables) : Prop := {
  ad_row : game_sessions t !! s_ID b = Some row;
  ad_stored_version : g_StateVersion row = i64 (StateVersion (s_State b));
  ad_stored_epoch : g_OwnershipEpoch row = i64 (s_OwnershipEpoch b);
  ad_stored_status : g_Status row = StatusActive;
  ad_sessions : game_sessions t' = <[s_ID b := setState row (createGameSessionParams a)]> (game_sessions t);
  ad_fresh : event_batches t !! b_ID bt = None;
  ad_version : forall id other, event_batches t !! id = Some other -> br_SessionID other = Some (b_SessionID bt) ->
    br_StateVersion other <> i64 (b_StateVersion bt);
  ad_batches : event_batches t' = <[b_ID bt := batchRow bt]> (event_batches t);
  ad_timers : timersOf t' (s_ID a) = timerRow (s_ID a) <$> s_Timers a;
  ad_other_timers : forall k, k <> s_ID a -> session_timers t' !! k = session_timers t !! k;
  ad_events : eventsOf t' (b_ID bt) = eventsOf t (b_ID bt) ++ imap (fun i e => eventRow (b_ID bt) (Z.of_nat i) e) (b_Events bt);
  ad_other_events : forall k, k <> b_ID bt -> session_events t' !! k = session_events t !! k;
  ad_outbox : outbox t ⊆ outbox t';
  ad_notified : Forall (fun event => is_Some (outbox t' !! Outbox.e_ID event)) events;
  ad_rooms : rooms t' = rooms t;
  ad_participants : session_participants t' = session_participants t;
  ad_starts : start_receipts t' = start_receipts t;
  ad_access : replay_access t' = replay_access t;
  ad_members : replay_members t' = replay_members t;
  ad_inbox : system_inbox t' = system_inbox t;
}.

(** The tables after the session row, the timers and the batch are written. *)
Definition moved (b a : SessionSnapshot) (bt : EventBatch) (row : GameSessionRow) (T : gmap UUID (list TimerRow))
    (E : gmap UUID (list EventRow)) (t : Tables) : Tables :=
  t <| game_sessions := <[s_ID b := setState row (createGameSessionParams a)]> (game_sessions t) |>
    <| session_timers := T |> <| event_batches := <[b_ID bt := batchRow bt]> (event_batches t) |> <| session_events := E |>.

Lemma persist_inv {R} b a bt (k : GameSessionRow -> tx R) t n r t' n' :
  tx_bind (one (UpdateGameSessionStateCAS fault (updateGameSessionStateParams b a))) (fun updatedRow =>
    tx_bind (replaceGameSessionTimers fault (s_ID a) (s_Timers a)) (fun _ =>
      tx_bind (insertGameSessionBatch fault bt) (fun _ => k updatedRow))) (t, n) = Ok (r, (t', n')) ->
  exists row T E n1,
    k (setState row (createGameSessionParams a)) (moved b a bt row T E t, n1) = Ok (r, (t', n')) /\
    forall receipts timers operations O k1 t2,
      t2 = moved b a bt row T E t <| action_receipts := receipts |> <| timer_receipts := timers |>
             <| system_operations := operations |> <| outbox := O |> <| outbox_next := k1 |> ->
      outbox t ⊆ O -> forall events, Forall (fun event => is_Some (O !! Outbox.e_ID event)) events ->
      advanced b a bt events row t t2.
Proof.
  intros H. step H updated Hu. apply one_inv, updateSession_inv in Hu as (row & Hrow & Hm & -> & ->).
  step H u1 Ht. apply replaceGameSessionTimers_inv in Ht as (T & -> & HTk & HT).
  step H u2 Hb. apply insertGameSessionBatch_inv in Hb as (Hfresh & Hver & E & -> & HEk & HE).
  exists row, T, E, n2. split; [exact H|]. intros receipts timers operations O k1 t3 -> Hsub events Hin.
  cbn [updateGameSessionStateParams us_ExpectedStateVersion us_ExpectedOwnershipEpoch us_SessionID us_row] in *.
  apply andb_prop in Hm as [[Hv He]%andb_prop Hs]. apply Z.eqb_eq in Hv, He. apply eqb_string_true in Hs.
  by constructor.
Qed.

Lemma rejectTerminal_inv a excluded t n u t' n' :
  rejectTerminalWithPendingSystemInbox fault a excluded (t, n) = Ok (u, (t', n')) ->
  t' = t /\ (Terminal (s_Status a) = true -> forall source row,
    system_inbox t !! (s_ID a, source) = Some row -> ir_Status row = SystemInboxPending ->
    excluded <> Nil /\ source = excluded).
Proof.
  unfold rejectTerminalWithPendingSystemInbox. destruct (Terminal _); cbn [negb].
  2: { intros H. by apply tx_ret_inv in H as (_ & -> & _). }
  intros H. step H pending Hp. apply query_inv in Hp as [Hp ->]. destruct pending; [done|].
  apply tx_ret_inv in H as (_ & -> & _). split; [done|]. intros _ source row Hrow Hst.
  destruct (decide (excluded <> Nil /\ source = excluded)) as [|Hn]; [done|]. exfalso.
  symmetry in Hp. apply not_true_iff_false in Hp. apply Hp. clear Hp.
  apply existsb_exists. exists ((s_ID a, source), row). split; [by apply list_elem_of_In, elem_of_map_to_list|].
  cbn. rewrite Z.eqb_refl, Hst. cbn. unfold RoomStore.optionalUUIDToPG. destruct (excluded =? Nil) eqn:En; [done|]. cbn.
  apply negb_true_iff, Z.eqb_neq. apply Z.eqb_neq in En. tauto.
Qed.

Lemma validateCurrentTransition_Ok current b :
  validateCurrentTransition current b = Ok tt ->
  s_OwnershipEpoch current = s_OwnershipEpoch b /\ StateVersion (s_State current) = StateVersion (s_State b) /\
  s_Status current <> StatusSuspended /\ Terminal (s_Status current) = false.
Proof.
  unfold validateCurrentTransition. intros H. inv_results H. apply negb_false_iff, Z.eqb_eq in E, E0.
  apply eqb_string_false in E1. done.
Qed.

(** The role check passes for a participant of the room only. *)
Definition activeParticipant (t : Tables) (roomID userID : UUID) : Prop :=
  exists member, member ∈ RoomStore.membersOf (rooms t) roomID /\ RoomStore.rm_UserID member = Some userID /\
    RoomStore.rm_Role member = Room.MemberRoleParticipant.

Lemma requireParticipant_inv roomID userID t n u t' n' :
  requireParticipant fault roomID userID (t, n) = Ok (u, (t', n')) -> t' = t /\ activeParticipant t roomID userID.
Proof.
  intros H. step H role Hr. apply query_inv in Hr as [Hr ->]. destruct role as [role|]; [|done].
  destruct (String.eqb role _) eqn:Er; [|done]. apply tx_ret_inv in H as (_ & -> & _). split; [done|].
  apply eqb_string_true in Er. subst role. symmetry in Hr. apply fmap_Some in Hr as (member & Hf & Hrole).
  apply find_some in Hf as [Hin Hu]. case_bool_decide; [|done]. exists member. split_and!; [by apply list_elem_of_In|done|done].
Qed.

Lemma lockActionParticipantFence_inv s actor t n u t' n' :
  lockActionParticipantFence fault s actor (t, n) = Ok (u, (t', n')) ->
  t' = t /\ activeParticipant t (s_RoomID s) actor.
Proof.
  intros H. step H row Hr. apply one_or_inv, query_inv in Hr as [_ ->]. destruct (negb _); [done|].
  by apply requireParticipant_inv in H.
Qed.

(** ** System operations *)
Lemma lockOrCreateSystemOperation_inv r t n op t' n' :
  lockOrCreateSystemOperation fault r (t, n) = Ok (op, (t', n')) ->
  let key := (sk_SessionID (RuntimeCommit.sc_Key r), Value (sk_OperationID (RuntimeCommit.sc_Key r))) in
  validateSystemOperationBinding op (RuntimeCommit.sc_Key r) (RuntimeCommit.sc_RequestDigest r) = Ok op /\
  (t' = t /\ (exists k, system_operations t !! k = Some op) \/ system_operations t !! key = None /\ so_Status op = SystemInboxPending /\
     so_BatchID op = None /\ t' = t <| system_operations := <[key := op]> (system_operations t) |>).
Proof.
  assert (Hbind : forall row, validateSystemOperationBinding row (RuntimeCommit.sc_Key r) (RuntimeCommit.sc_RequestDigest r) = Ok op
    -> row = op).
  { intros row H. unfold validateSystemOperationBinding in H. by inv_results H. }
  intros H. step H operation Ho. apply query_inv in Ho as [Ho ->]. destruct operation as [operation|].
  { apply tx_lift_inv in H as (H & -> & _). pose proof (Hbind _ H) as <-. split; [done|]. left. split; [done|by eexists]. }
  step H bySource Hs. apply query_inv in Hs as [Hs ->]. destruct bySource as [bySource|].
  { destruct (negb _); [done|]. apply tx_lift_inv in H as (H & -> & _). pose proof (Hbind _ H) as <-. split; [done|]. left.
    split; [done|]. symmetry in Hs. apply fmap_Some in Hs as ([k row] & Hf & ->). exists k.
    apply find_some in Hf as [Hin _]. by apply elem_of_map_to_list, list_elem_of_In. }
  step H row Hr. apply one_inv, session_statement_inv in Hr. destruct (_ || _); [done|]. injection Hr as Hrow <-.
  apply tx_lift_inv in H as (H & -> & _). pose proof (Hbind _ H) as ->. split; [done|]. right.
  split_and!; [done|by rewrite <- Hrow..|by rewrite Hrow].
Qed.

(** The operation row once it is completed with a receipt. *)
Definition completedRow (row : SystemOperationRow) (r : SystemReceipt) (bid : UUID) : SystemOperationRow :=
  mkSystemOperationRow (so_SessionID row) (so_OperationID row) (so_SourceKind row) (so_SourceEventID row)
    (so_RequestedByUserID row) (so_LogicalDigest row) SystemInboxCompleted (Some (RuntimeCommit.sc_ResultCode r))
    (Some (RuntimeCommit.sc_ResultDigest r)) (Some (i64 (RuntimeCommit.sc_StateVersion r))) (optionalUUIDToPG bid)
    (so_CreatedAt row) (timeToPG (RuntimeCommit.sc_CommittedAt r)).

Lemma completeGameSystemOperation_inv r bid t n row t' n' :
  completeGameSystemOperation fault r bid (t, n) = Ok (row, (t', n')) ->
  let key := (sk_SessionID (RuntimeCommit.sc_Key r), Value (sk_OperationID (RuntimeCommit.sc_Key r))) in
  exists old, system_operations t !! key = Some old /\ so_Status old = SystemInboxPending /\ row = completedRow old r bid /\
    t' = t <| system_operations := <[key := row]> (system_operations t) |>.
Proof.
  intros H%one_inv%session_statement_inv. cbv zeta. destruct (system_operations t !! _) as [old|]; [|done].
  destruct (String.eqb _ _) eqn:Es; [|done]. apply eqb_string_true in Es. cbn [negb] in H.
  destruct (_ && _); [done|]. injection H as <- <-. by exists old.
Qed.
End Effects.

End RuntimeStoreFacts.
