(* ===== verification/RuntimeStoreEffects.v ===== *)
(** * The session repository: what each operation does

    For every operation of [GameSessionRepository] that writes, what a result
    says about the tables it read and the tables it left. *)

From stdpp Require Import gmap.
From S2P Require Import Prelude GoLib Sha256 Selector GameManifest GameContract Outbox Room RoomStore Runtime RuntimeFacts RuntimeMoves RuntimeCommit RuntimeStore RuntimeQueries RuntimeRepository RuntimeStoreFacts.

Module RuntimeStoreEffects.
Import GoLib Selector GameManifest GameContract Runtime RuntimeFacts RuntimeMoves RuntimeCommit RuntimeStore RuntimeQueries
  RuntimeRepository RuntimeStoreFacts.

(** ** Commits that pass their checks *)
Lemma sameFrozenStartConfig_eq left right : sameFrozenStartConfig left right = true -> left = right.
Proof.
  destruct left, right. unfold sameFrozenStartConfig. cbn. intros H. to_prop. subst.
  match goal with H : sameGameMessage _ _ = true |- _ => apply sameGameMessage_eq in H; subst end.
  match goal with H : Digest_eqb _ _ = true |- _ => apply Digest_eqb_eq in H; by subst end.
Qed.

Lemma sameSessionIdentity_true b a : sameSessionIdentity b a = true -> SameIdentity b a.
Proof.
  unfold sameSessionIdentity. destruct (_ || _) eqn:E; [done|]. intros H. to_prop.
  match goal with H : sameFrozenStartConfig _ _ = true |- _ => apply sameFrozenStartConfig_eq in H end.
  by split_and!.
Qed.

(** What the three kinds of commit have in common. *)
Record MoveOK (b a : Session) (bt : EventBatch) : Prop := {
  mo_identity : SameIdentity b a;
  mo_before : s_Status b = StatusActive;
  mo_after : s_Status a = StatusActive \/ s_Status a = StatusFinished;
  mo_epoch : s_OwnershipEpoch a = s_OwnershipEpoch b;
  mo_version : StateVersion (s_State a) = u64 (StateVersion (s_State b) + 1);
  mo_session : b_SessionID bt = s_ID b;
  mo_batch : b_StateVersion bt = StateVersion (s_State a);
  mo_time : s_UpdatedAt a = b_CommittedAt bt;
}.

Lemma ActionCommit_facts commit : ActionCommit_Valid commit = true ->
  MoveOK (before commit) (after commit) (batch commit) /\ b_Cause (batch commit) = EventCauseAction /\
  ak_SessionID (ac_Key (receipt commit)) = s_ID (before commit) /\
  ak_ActorUserID (ac_Key (receipt commit)) = b_ActorUserID (batch commit) /\
  Value (ak_ActionID (ac_Key (receipt commit))) = Value (b_ActionID (batch commit)) /\
  ac_StateVersion (receipt commit) = StateVersion (s_State (after commit)) /\
  participantSnapshotContains (s_Participants (before commit)) (b_ActorUserID (batch commit)) = true.
Proof.
  unfold ActionCommit_Valid, NewActionCommit. destruct (_ || _) eqn:E; [done|]. intros _. to_prop.
  match goal with H : sameSessionIdentity _ _ = true |- _ => apply sameSessionIdentity_true in H as Hid; clear H end.
  assert (Hst : s_Status (after commit) = StatusActive \/ s_Status (after commit) = StatusFinished).
  { match goal with H : (negb _ && negb _)%bool = false |- _ => apply andb_false_iff in H as [H|H]; to_prop; tauto end. }
  pose proof (proj1 Hid) as Eid. split_and!; try done; try congruence. constructor; try done. congruence.
Qed.

Lemma validRuntimeTransition_facts b a bt cause : validRuntimeTransition b a bt cause = true ->
  MoveOK b a bt /\ b_Cause bt = cause.
Proof.
  unfold validRuntimeTransition. intros H.
  repeat match goal with H : (_ && _)%bool = true |- _ => apply andb_prop in H as [? ?] end.
  match goal with H : (_ || _)%bool = true |- _ => rename H into Hst end.
  match goal with H : sameSessionIdentity _ _ = true |- _ => apply sameSessionIdentity_true in H as Hid; clear H end.
  to_prop. pose proof (proj1 Hid) as Eid. split; [|done]. constructor; try done; try congruence.
  apply orb_true_iff in Hst as [Hst|Hst]; apply eqb_string_true in Hst; tauto.
Qed.

Lemma TimerCommit_facts commit : TimerCommit_Valid commit = true ->
  MoveOK (before commit) (after commit) (batch commit) /\ b_Cause (batch commit) = EventCauseTimer /\
  tk_SessionID (tc_Key (receipt commit)) = s_ID (before commit) /\
  tk_TimerID (tc_Key (receipt commit)) = b_TimerID (batch commit) /\
  tk_ExpectedStateVersion (tc_Key (receipt commit)) = StateVersion (s_State (before commit)) /\
  tc_StateVersion (receipt commit) = StateVersion (s_State (after commit)).
Proof.
  unfold TimerCommit_Valid, NewTimerCommit. destruct (_ || _) eqn:E; [done|]. intros _. to_prop.
  match goal with H : validRuntimeTransition _ _ _ _ = true |- _ => apply validRuntimeTransition_facts in H as [Hm Hc] end.
  pose proof (proj1 (mo_identity _ _ _ Hm)) as Eid. split_and!; try done. congruence.
Qed.

Lemma SystemCommit_facts commit : SystemCommit_Valid commit = true ->
  MoveOK (before commit) (after commit) (batch commit) /\ b_Cause (batch commit) = EventCauseSystem /\
  sk_SessionID (RuntimeCommit.sc_Key (receipt commit)) = s_ID (before commit) /\
  Value (sk_OperationID (RuntimeCommit.sc_Key (receipt commit))) = Value (b_SystemOperationID (batch commit)) /\
  sk_Source (RuntimeCommit.sc_Key (receipt commit)) = b_SystemSource (batch commit) /\
  RuntimeCommit.sc_RequestDigest (receipt commit) = b_RequestDigest (batch commit) /\
  RuntimeCommit.sc_StateVersion (receipt commit) = StateVersion (s_State (after commit)).
Proof.
  unfold SystemCommit_Valid, NewSystemCommit. destruct (_ || _) eqn:E; [done|]. intros _. to_prop.
  match goal with H : validRuntimeTransition _ _ _ _ = true |- _ => apply validRuntimeTransition_facts in H as [Hm Hc] end.
  match goal with H : Digest_eqb _ _ = true |- _ => apply Digest_eqb_eq in H end.
  pose proof (proj1 (mo_identity _ _ _ Hm)) as Eid. split_and!; try done. congruence.
Qed.

Section Effects.
Context (fault : nat -> option DbError) (ctxDone : bool).

Lemma guard_inv {A} (c : bool) (e : StoreError) (rest : sres A * Tables) t out t' :
  (if c then (Err e, t) else rest) = (out, t') -> (exists e, out = Err e /\ t' = t) \/ c = false /\ rest = (out, t').
Proof. destruct c; [intros [= <- <-]; left; by eexists|by right]. Qed.

Lemma check_inv {A B} (r : res B) (rest : B -> sres A * Tables) t out t' :
  (match r with Err e => (Err (Domain e), t) | Ok v => rest v end) = (out, t') ->
  (exists e, out = Err e /\ t' = t) \/ exists v, r = Ok v /\ rest v = (out, t').
Proof. destruct r; [right; by eexists|intros [= <- <-]; left; by eexists]. Qed.

(** A session row written by a move is read back from the tables it left. *)
Lemma stored_load b a bt events row t t' s :
  rowsKeyed t -> advanced b a bt events row t t' ->
  sessionFromRows (setState row (createGameSessionParams a))
    (merge_sort participant_before (participantsOf t' (default Nil (g_SessionID row))))
    (merge_sort timer_before (timersOf t' (default Nil (g_SessionID row)))) = Ok s ->
  loadSession t' (s_ID b) = Some s.
Proof.
  intros Hk Had H. pose proof (Hk _ _ (ad_row _ _ _ _ _ _ _ Had)) as Hid. rewrite Hid in H. cbn [default] in H.
  eapply loadSession_intro; [|exact H]. by rewrite (ad_sessions _ _ _ _ _ _ _ Had), lookup_insert_eq.
Qed.

(** What a new move adds to the tables, its receipts apart. *)
Definition freshMove (b a : Session) (bt : EventBatch) (events : list Outbox.Event) (excluded : UUID) (current stored : Session)
    (row : GameSessionRow) (t t' : Tables) : Prop :=
  validateCurrentTransition current b = Ok tt /\
  (Terminal (s_Status a) = true -> forall source inbox,
     system_inbox t !! (s_ID a, source) = Some inbox -> ir_Status inbox = SystemInboxPending ->
     excluded <> Nil /\ source = excluded) /\
  advanced b a bt events row t t' /\ loadSession t' (s_ID b) = Some stored.

Definition actionKeyOf (commit : ActionCommit) : UUID * UUID * string :=
  (s_ID (before commit), ak_ActorUserID (ac_Key (receipt commit)), Value (ak_ActionID (ac_Key (receipt commit)))).

Lemma commitActionAfterRoomLock_inv commit t n r t' n' :
  rowsKeyed t -> ActionCommit_Valid commit = true ->
  commitActionAfterRoomLock fault ctxDone commit (t, n) = Ok (r, (t', n')) ->
  exists current, loadSession t (s_ID (before commit)) = Some current /\
    ((ar_Replayed r = true /\ t' = t /\ ar_Session r = current /\ exists row,
        action_receipts t !! actionKeyOf commit = Some row /\ actionReceiptFromRow row = Ok (ar_Receipt r) /\
        ac_RequestDigest (ar_Receipt r) = ac_RequestDigest (receipt commit))
     \/ (ar_Replayed r = false /\ ar_Receipt r = receipt commit /\ action_receipts t !! actionKeyOf commit = None /\
         action_receipts t' = <[actionKeyOf commit := actionReceiptRow (receipt commit)]> (action_receipts t) /\
         timer_receipts t' = timer_receipts t /\ system_operations t' = system_operations t /\
         exists row, freshMove (before commit) (after commit) (batch commit) (outboxEvents commit) Nil current (ar_Session r) row t t')).
Proof.
  intros Hk Hv H. apply ActionCommit_facts in Hv as (_ & _ & Esid & _).
  step H current Hc. apply getGameSessionForUpdate_inv in Hc as [-> Hload]; [|done].
  step H receiptRow Hr. apply query_inv in Hr as [Hr ->]. exists current. split; [done|]. destruct receiptRow as [row|].
  - left. step H stored Hs. apply tx_lift_inv in Hs as (Hs & -> & ->). step H again Ha. apply tx_lift_inv in Ha as (Ha & -> & ->).
    apply tx_ret_inv in H as (-> & -> & _). cbn. split_and!; try done. exists row. split_and!; [done|done|].
    unfold ActionReceipt_Replay in Ha. inv_results Ha. apply negb_false_iff, Digest_eqb_eq in E. done.
  - right. step H u1 H1. apply tx_lift_inv in H1 as (Hcur & -> & ->). destruct u1.
    step H u2 H2. apply rejectTerminal_inv in H2 as [-> Hpend].
    apply persist_inv in H as (row & T & Ev & m1 & H & Hadv).
    step H u3 H3. apply insertGameActionReceipt_inv in H3 as [_ ->].
    step H u4 H4. apply insertGameSessionOutbox_inv in H4 as (O & k & -> & Hsub & Hin).
    step H stored H5. apply sessionFromUpdatedRow_inv in H5 as [-> Hstored]. apply tx_ret_inv in H as (-> & -> & _).
    rewrite Esid. cbn [ar_Replayed ar_Receipt ar_Session]. split_and!; try done. exists row.
    assert (advanced (before commit) (after commit) (batch commit) (outboxEvents commit) row t
      (moved (before commit) (after commit) (batch commit) row T Ev t
         <| action_receipts := <[(s_ID (before commit), ak_ActorUserID (ac_Key (receipt commit)),
              Value (ak_ActionID (ac_Key (receipt commit)))) := actionReceiptRow (receipt commit)]> (action_receipts t) |>
         <| outbox := O |> <| outbox_next := k |>)) as Had.
    { by eapply (Hadv _ (timer_receipts t) (system_operations t)). }
    split_and!; [done|done|done|]. eapply stored_load; [done|done|exact Hstored].
Qed.

Lemma CommitAction_inv commit t out t' :
  rowsKeyed t -> CommitAction fault ctxDone commit t = (out, t') ->
  match out with
  | Err _ => t' = t
  | Ok r =>
      ActionCommit_Valid commit = true /\ validateActionWidths commit = Ok tt /\
      activeParticipant t (s_RoomID (before commit)) (ak_ActorUserID (ac_Key (receipt commit))) /\
      exists n n', commitActionAfterRoomLock fault ctxDone commit (t, n) = Ok (r, (t', n'))
  end.
Proof.
  intros Hk H. apply guard_inv in H as [(e & -> & ->)|[Hv H]]; [done|]. apply negb_false_iff in Hv.
  apply (check_inv (validateActionWidths commit)) in H as [(e & -> & ->)|([] & Hw & H)]; [done|].
  apply finish_inv in H. destruct out as [r|]; [|done]. destruct H as [n H].
  step H u Hf. apply lockActionParticipantFence_inv in Hf as [-> Hf]. split_and!; try done. by eexists _, _.
Qed.

Definition timerKeyOf (commit : TimerCommit) : UUID * string * Z :=
  (s_ID (before commit), tk_TimerID (tc_Key (receipt commit)), i64 (tk_ExpectedStateVersion (tc_Key (receipt commit)))).

(** The timer a commit fires is stored, with its message, and due. *)
Definition storedTimerDue (commit : TimerCommit) (t : Tables) : Prop :=
  exists timer dueAt, timer ∈ timersOf t (s_ID (before commit)) /\ tr_TimerID timer = tk_TimerID (tc_Key (receipt commit)) /\
    tr_DueAt timer = Some dueAt /\ dueAt <= b_CommittedAt (batch commit).

Lemma commitTimerAfterSessionLock_inv current commit t n r t' n' :
  rowsKeyed t -> TimerCommit_Valid commit = true ->
  commitTimerAfterSessionLock fault ctxDone current commit (t, n) = Ok (r, (t', n')) ->
  (tcr_Replayed r = true /\ t' = t /\ tcr_Session r = current /\ exists row,
     timer_receipts t !! timerKeyOf commit = Some row /\ timerReceiptFromRow row = Ok (tcr_Receipt r))
  \/ (tcr_Replayed r = false /\ tcr_Receipt r = receipt commit /\ timer_receipts t !! timerKeyOf commit = None /\
      timer_receipts t' = <[timerKeyOf commit := timerReceiptRow (receipt commit) (b_ID (batch commit))]> (timer_receipts t) /\
      action_receipts t' = action_receipts t /\ system_operations t' = system_operations t /\ storedTimerDue commit t /\
      exists row, freshMove (before commit) (after commit) (batch commit) (outboxEvents commit) Nil current (tcr_Session r) row t t').
Proof.
  intros Hk Hv H. apply TimerCommit_facts in Hv as (_ & _ & Esid & _). unfold commitTimerAfterSessionLock in H.
  step H receiptRow Hr. apply query_inv in Hr as [Hr ->]. rewrite Esid in Hr. destruct receiptRow as [row|].
  - left. step H stored Hs. apply tx_lift_inv in Hs as (Hs & -> & ->). apply tx_ret_inv in H as (-> & -> & _). cbn.
    split_and!; try done. by exists row.
  - right. step H u1 H1. apply tx_lift_inv in H1 as (Hcur & -> & ->). destruct u1.
    step H u2 H2. apply rejectTerminal_inv in H2 as [-> Hpend].
    step H timer Ht. apply one_or_inv, query_inv in Ht as [Ht ->]. destruct (timerRowDue _ _ _) eqn:Edue; [|done]. cbn [negb] in H.
    step H stored Hp. apply tx_ret_inv in H as (-> & -> & _). unfold persistTimerTransition in Hp.
    apply persist_inv in Hp as (row & T & Ev & m1 & Hp & Hadv).
    step Hp u3 H3. apply insertGameTimerReceipt_inv in H3 as [_ ->].
    step Hp u4 H4. apply insertGameSessionOutbox_inv in H4 as (O & k & -> & Hsub & Hin).
    apply sessionFromUpdatedRow_inv in Hp as [-> Hstored].
    rewrite Esid. cbn [tcr_Replayed tcr_Receipt tcr_Session]. split_and!; try done.
    + symmetry in Ht. apply find_some in Ht as [Hin' Eid]. apply eqb_string_true in Eid. unfold timerRowDue in Edue.
      destruct (tr_DueAt timer) as [dueAt|] eqn:Ed; [|by rewrite andb_false_r in Edue].
      exists timer, dueAt. split_and!; [by apply list_elem_of_In|done|done|]. unfold Before in Edue. to_prop. lia.
    + exists row.
      assert (advanced (before commit) (after commit) (batch commit) (outboxEvents commit) row t
        (moved (before commit) (after commit) (batch commit) row T Ev t
           <| timer_receipts := <[timerKeyOf commit := timerReceiptRow (receipt commit) (b_ID (batch commit))]> (timer_receipts t) |>
           <| outbox := O |> <| outbox_next := k |>)) as Had.
      { by eapply (Hadv (action_receipts t) _ (system_operations t)). }
      split_and!; [done|done|done|]. eapply stored_load; [done|done|exact Hstored].
Qed.

Lemma CommitTimer_inv commit t out t' :
  rowsKeyed t -> CommitTimer fault ctxDone commit t = (out, t') ->
  match out with
  | Err _ => t' = t
  | Ok r =>
      TimerCommit_Valid commit = true /\ validateTimerCommitWidths commit = Ok tt /\
      exists current n n', loadSession t (s_ID (before commit)) = Some current /\
        commitTimerAfterSessionLock fault ctxDone current commit (t, n) = Ok (r, (t', n'))
  end.
Proof.
  intros Hk H. apply guard_inv in H as [(e & -> & ->)|[Hv H]]; [done|]. apply negb_false_iff in Hv.
  apply (check_inv (validateTimerCommitWidths commit)) in H as [(e & -> & ->)|([] & Hw & H)]; [done|].
  apply finish_inv in H. destruct out as [r|]; [|done]. destruct H as [n H].
  step H current Hc. apply getGameSessionForUpdate_inv in Hc as [-> Hload]; [|done]. split_and!; try done. by eexists _, _, _.
Qed.

(** ** System commands *)
Definition systemKeyOf (key : SystemKey) : UUID * string := (sk_SessionID key, Value (sk_OperationID key)).

(** The receipt kept by a completed operation of a tables. *)
Definition keptReceipt (key : SystemKey) (digest : Digest) (r : SystemReceipt) (t : Tables) : Prop :=
  exists row, system_operations t !! systemKeyOf key = Some row /\ completedSystemReceiptFromRow row key digest = Ok r.

(** Everything but the operation of a key is unchanged; it was not completed and
    has no batch. *)
Definition onlyOperation (key : SystemKey) (t t' : Tables) : Prop :=
  exists op, (forall old, system_operations t !! systemKeyOf key = Some old -> so_Status old = SystemInboxPending) /\
    so_BatchID op = None /\ t' = t <| system_operations := <[systemKeyOf key := op]> (system_operations t) |>.

Lemma completeTerminal_inv key digest session at_ t n r t' n' :
  completeTerminalSystemOperation fault key digest session at_ (t, n) = Ok (r, (t', n')) ->
  onlyOperation key t t' /\ keptReceipt key digest r t'.
Proof.
  intros H. step H made Hr. apply tx_lift_inv in Hr as (Hr & -> & ->).
  assert (RuntimeCommit.sc_Key made = key) as Ekey.
  { unfold newTerminalSystemReceipt, NewSystemReceipt in Hr. by inv_results Hr. }
  step H row Hrow. apply completeGameSystemOperation_inv in Hrow as (old & Hold & Hpd & -> & ->).
  apply tx_lift_inv in H as (H & -> & _). rewrite Ekey in *. split.
  { exists (completedRow old made Nil). split_and!; [|done|done]. intros old' Hold'. unfold systemKeyOf in Hold'. congruence. }
  eexists. split; [|exact H]. cbn. by rewrite lookup_insert_eq.
Qed.

Lemma lockOrCreate_frame r t n op t' n' :
  lockOrCreateSystemOperation fault r (t, n) = Ok (op, (t', n')) ->
  (t' = t \/ onlyOperation (RuntimeCommit.sc_Key r) t t') /\
  (so_Status op = SystemInboxCompleted -> exists k, system_operations t !! k = Some op).
Proof.
  intros [_ [[-> Hk]|(Hn & Hs & Hb & ->)]]%lockOrCreateSystemOperation_inv; split; [by left|done| |].
  - right. exists op. split_and!; [|done|done]. intros old Hold. unfold systemKeyOf in Hold. congruence.
  - intros Hc. by rewrite Hc in Hs.
Qed.

Lemma onlyOperation_trans key t t1 t2 :
  t1 = t \/ onlyOperation key t t1 -> onlyOperation key t1 t2 -> onlyOperation key t t2.
Proof.
  intros [->|(op1 & Hold1 & _ & ->)] H; [done|]. destruct H as (op2 & _ & Hb & ->). exists op2. split_and!; [done|done|].
  cbn. by rewrite insert_insert_eq.
Qed.

(** Loading does not look at the operations. *)
Lemma loadSession_operations t operations sid : loadSession (t <| system_operations := operations |>) sid = loadSession t sid.
Proof. done. Qed.

(** What a system commit that was stored anew did. *)
Definition freshSystem (commit : SystemCommit) (current stored : Session) (t t' : Tables) : Prop :=
  let key := RuntimeCommit.sc_Key (receipt commit) in
  exists row t1 op, (t1 = t \/ onlyOperation key t t1) /\
    freshMove (before commit) (after commit) (batch commit) (outboxEvents commit) (src_EventID (sk_Source key)) current stored row t1 t' /\
    system_operations t' = <[systemKeyOf key := completedRow op (receipt commit) (b_ID (batch commit))]> (system_operations t1) /\
    system_operations t1 !! systemKeyOf key = Some op /\ so_Status op = SystemInboxPending /\
    action_receipts t' = action_receipts t /\ timer_receipts t' = timer_receipts t.

Lemma persistSystemTransition_inv commit t n stored t' n' :
  rowsKeyed t -> SystemCommit_Valid commit = true ->
  persistSystemTransition fault ctxDone commit (t, n) = Ok (stored, (t', n')) ->
  let key := RuntimeCommit.sc_Key (receipt commit) in
  exists row op, advanced (before commit) (after commit) (batch commit) (outboxEvents commit) row t t' /\
    loadSession t' (s_ID (before commit)) = Some stored /\
    system_operations t' = <[systemKeyOf key := completedRow op (receipt commit) (b_ID (batch commit))]> (system_operations t) /\
    system_operations t !! systemKeyOf key = Some op /\ so_Status op = SystemInboxPending /\
    action_receipts t' = action_receipts t /\ timer_receipts t' = timer_receipts t.
Proof.
  intros Hk Hv H. unfold persistSystemTransition in H. apply persist_inv in H as (row & T & Ev & m1 & H & Hadv).
  step H u1 H1. apply insertGameSessionOutbox_inv in H1 as (O & k & -> & Hsub & Hin).
  step H op H2. apply completeGameSystemOperation_inv in H2 as (old & Hold & Hst & -> & ->).
  apply sessionFromUpdatedRow_inv in H as [-> Hstored]. cbv zeta. exists row, old.
  assert (advanced (before commit) (after commit) (batch commit) (outboxEvents commit) row t
    (moved (before commit) (after commit) (batch commit) row T Ev t <| outbox := O |> <| outbox_next := k |>
       <| system_operations := <[systemKeyOf (RuntimeCommit.sc_Key (receipt commit)) :=
            completedRow old (receipt commit) (b_ID (batch commit))]> (system_operations t) |>)) as Had.
  { by eapply (Hadv (action_receipts t) (timer_receipts t)). }
  split_and!; try done. eapply stored_load; [done|done|exact Hstored].
Qed.

Lemma commitSystemAfterSessionLock_inv current commit t n r t' n' :
  rowsKeyed t -> SystemCommit_Valid commit = true -> loadSession t (s_ID (before commit)) = Some current ->
  commitSystemAfterSessionLock fault ctxDone current commit (t, n) = Ok (r, (t', n')) ->
  let key := RuntimeCommit.sc_Key (receipt commit) in
  let digest := RuntimeCommit.sc_RequestDigest (receipt commit) in
  (sr_Session r = current /\ (t' = t \/ onlyOperation key t t') /\
     ((sr_Retry r = true /\ Terminal (s_Status current) = false)
      \/ (sr_Retry r = false /\ sr_Replayed r = true /\ exists k row,
            system_operations t !! k = Some row /\ completedSystemReceiptFromRow row key digest = Ok (sr_Receipt r))
      \/ (sr_Retry r = false /\ sr_Replayed r = false /\ Terminal (s_Status current) = true /\ keptReceipt key digest (sr_Receipt r) t')))
  \/ (sr_Retry r = false /\ sr_Replayed r = false /\ sr_Receipt r = receipt commit /\ freshSystem commit current (sr_Session r) t t').
Proof.
  intros Hk Hv Hload H. cbv zeta. unfold commitSystemAfterSessionLock in H.
  step H op Hop. pose proof (lockOrCreate_frame _ _ _ _ _ _ Hop) as [Hframe Hfound].
  destruct (String.eqb _ SystemInboxCompleted) eqn:Edone.
  { left. step H stored Hs. apply tx_lift_inv in Hs as (Hs & -> & ->). apply tx_ret_inv in H as (-> & -> & _). cbn.
    split_and!; try done. right; left. split_and!; try done.
    destruct (Hfound (proj1 (eqb_string_true _ _) Edone)) as [k Hkop]. by exists k, op. }
  destruct (Terminal (s_Status current)) eqn:Eterm.
  { left. step H stored Hs. apply completeTerminal_inv in Hs as [Honly Hkept]. apply tx_ret_inv in H as (-> & -> & _). cbn.
    split_and!; [done| |by right; right]. right. by eapply onlyOperation_trans. }
  destruct (_ || _) eqn:Estale.
  { left. apply tx_ret_inv in H as (-> & -> & _). cbn. split_and!; try done. by left. }
  destruct (String.eqb _ StatusSuspended) eqn:Esusp; [done|]. right.
  step H u1 H1. apply rejectTerminal_inv in H1 as [-> Hpend]. step H stored Hs. apply tx_ret_inv in H as (-> & -> & _). cbn.
  assert (rowsKeyed t0) as Hk0 by (destruct Hframe as [->|(op1 & _ & _ & ->)]; done).
  apply persistSystemTransition_inv in Hs as (row & op2 & Had & Hst & Hops & Hop2 & Hpd & Ha & Htr); [|done|done].
  split_and!; try done. exists row, t0, op2. split_and!; try done.
  - split_and!; try done. unfold validateCurrentTransition. apply orb_false_iff in Estale as [-> ->]. by rewrite Esusp, Eterm.
  - rewrite Ha. by destruct Hframe as [->|(op1 & _ & _ & ->)].
  - rewrite Htr. by destruct Hframe as [->|(op1 & _ & _ & ->)].
Qed.

Lemma CommitSystem_inv commit t out t' :
  rowsKeyed t -> CommitSystem fault ctxDone commit t = (out, t') ->
  match out with
  | Err _ => t' = t
  | Ok r =>
      SystemCommit_Valid commit = true /\ validateSystemCommitWidths commit = Ok tt /\
      exists current n n', loadSession t (s_ID (before commit)) = Some current /\
        commitSystemAfterSessionLock fault ctxDone current commit (t, n) = Ok (r, (t', n'))
  end.
Proof.
  intros Hk H. apply guard_inv in H as [(e & -> & ->)|[Hv H]]; [done|]. apply negb_false_iff in Hv.
  apply (check_inv (validateSystemCommitWidths commit)) in H as [(e & -> & ->)|([] & Hw & H)]; [done|].
  apply finish_inv in H. destruct out as [r|]; [|done]. destruct H as [n H].
  step H current Hc. apply getGameSessionForUpdate_inv in Hc as [-> Hload]; [|done]. split_and!; try done. by eexists _, _, _.
Qed.

Lemma CompleteSystemNoop_inv key digest at_ t out t' :
  rowsKeyed t -> CompleteSystemNoop fault key digest at_ t = (out, t') ->
  match out with
  | Err _ => t' = t
  | Ok r => (t' = t \/ onlyOperation key t t') /\ exists current, loadSession t (sk_SessionID key) = Some current /\
      Terminal (s_Status current) = true /\ sr_Session r = current
  end.
Proof.
  intros Hk H. apply guard_inv in H as [(e & -> & ->)|[Hv H]]; [done|]. apply finish_inv in H. destruct out as [r|]; [|done].
  destruct H as [n H]. step H current Hc. apply getGameSessionForUpdate_inv in Hc as [-> Hload]; [|done].
  destruct (Terminal _) eqn:Et; [|done]. cbn [negb] in H. step H candidate Hcand. apply tx_lift_inv in Hcand as (Hcand & -> & ->).
  assert (RuntimeCommit.sc_Key candidate = key) as Ekey.
  { unfold newTerminalSystemReceipt, NewSystemReceipt in Hcand. by inv_results Hcand. }
  step H op Hop. apply lockOrCreate_frame in Hop as [Hop _]. rewrite Ekey in Hop. destruct (String.eqb _ _).
  - step H stored Hs. apply tx_lift_inv in Hs as (Hs & -> & ->). apply tx_ret_inv in H as (-> & -> & _). split; [done|].
    by exists current.
  - step H stored Hs. apply completeTerminal_inv in Hs as [Honly _]. apply tx_ret_inv in H as (-> & -> & _).
    split; [|by exists current]. right. by eapply onlyOperation_trans.
Qed.

(** ** Lifecycle, ownership, creation *)

(** What a change of the row of one session that keeps its history does. *)
Record reshaped (sid : UUID) (row row' : GameSessionRow) (t t' : Tables) : Prop := {
  re_row : game_sessions t !! sid = Some row;
  re_sessions : game_sessions t' = <[sid := row']> (game_sessions t);
  re_id : g_SessionID row' = g_SessionID row;
  re_version : g_StateVersion row' = g_StateVersion row;
  re_live : live (g_Status row) = true;
  re_other_timers : forall k, k <> sid -> session_timers t' !! k = session_timers t !! k;
  re_batches : event_batches t' = event_batches t;
  re_events : session_events t' = session_events t;
  re_actions : action_receipts t' = action_receipts t;
  re_fired : timer_receipts t' = timer_receipts t;
  re_operations : system_operations t' = system_operations t;
  re_outbox : outbox t ⊆ outbox t';
  re_rooms : rooms t' = rooms t;
  re_participants : session_participants t' = session_participants t;
  re_starts : start_receipts t' = start_receipts t;
  re_access : replay_access t' = replay_access t;
  re_members : replay_members t' = replay_members t;
  re_inbox : system_inbox t' = system_inbox t;
}.

Lemma persistAdjusted_inv b a t n u t' n' :
  persistAdjustedGameSessionTimersForResume fault b a (t, n) = Ok (u, (t', n')) ->
  exists T, t' = t <| session_timers := T |> /\ (forall k, k <> s_ID a -> T !! k = session_timers t !! k) /\
    default [] (T !! s_ID a) = timerRow (s_ID a) <$> s_Timers a.
Proof.
  unfold persistAdjustedGameSessionTimersForResume. destruct (_ || _); [done|]. intros H.
  step H locked Hl. apply query_inv in Hl as [_ ->]. destruct (negb _); [done|].
  step H u1 Hr. apply replaceGameSessionTimers_inv in Hr as (T & -> & Hk & HT).
  step H shifted Hs. apply query_inv in Hs as [_ ->]. destruct (negb _); [done|]. apply tx_ret_inv in H as (_ & -> & _).
  by exists T.
Qed.

Lemma LifecycleCommit_identity commit : LifecycleCommit_Valid commit = true -> SameIdentity (lc_before commit) (lc_after commit).
Proof.
  unfold LifecycleCommit_Valid, NewLifecycleCommit. destruct (lifecycleShape _ _) as [[ty vs] st].
  destruct (_ || _) eqn:E; [done|]. intros _. to_prop. by apply sameSessionIdentity_true.
Qed.

(** The tables after the row and the timers of one session are replaced. *)
Definition replaced (sid : UUID) (row' : GameSessionRow) (T : gmap UUID (list TimerRow)) (O : gmap UUID OutboxEventRow)
    (k : Z) (t : Tables) : Tables :=
  t <| session_timers := T |> <| game_sessions := <[sid := row']> (game_sessions t) |> <| outbox := O |> <| outbox_next := k |>.

Lemma replaced_reshaped sid row row' T O k t :
  game_sessions t !! sid = Some row -> live (g_Status row) = true -> g_SessionID row' = g_SessionID row ->
  g_StateVersion row' = g_StateVersion row -> (forall k, k <> sid -> T !! k = session_timers t !! k) -> outbox t ⊆ O ->
  reshaped sid row row' t (replaced sid row' T O k t).
Proof. by constructor. Qed.

Lemma lifecycleCAS_inv b a t n row' t' n' :
  one (UpdateGameSessionLifecycleCAS fault (updateGameSessionLifecycleParams b a)) (t, n) = Ok (row', (t', n')) ->
  exists row, game_sessions t !! s_ID b = Some row /\ g_StateVersion row = i64 (StateVersion (s_State b)) /\
    g_OwnershipEpoch row = i64 (s_OwnershipEpoch b) /\ live (g_Status row) = true /\
    row' = setLifecycle row (createGameSessionParams a) /\
    t' = t <| game_sessions := <[s_ID b := row']> (game_sessions t) |>.
Proof.
  intros (row & Hrow & Hm & -> & ->)%one_inv%updateSession_inv.
  cbn [updateGameSessionLifecycleParams us_ExpectedStateVersion us_ExpectedOwnershipEpoch us_SessionID us_row] in *.
  apply andb_prop in Hm as [[Hv He]%andb_prop Hs]. apply Z.eqb_eq in Hv, He. by exists row.
Qed.

Lemma persistLifecycle_inv current commit t n stored t' n' :
  rowsKeyed t -> LifecycleCommit_Valid commit = true ->
  persistLifecycleAfterSessionLock fault ctxDone current commit (t, n) = Ok (stored, (t', n')) ->
  let b := lc_before commit in
  let a := lc_after commit in
  exists row, reshaped (s_ID b) row (setLifecycle row (createGameSessionParams a)) t t' /\
    validateCurrentLifecycleTransition current b = Ok tt /\
    g_StateVersion row = i64 (StateVersion (s_State b)) /\ g_OwnershipEpoch row = i64 (s_OwnershipEpoch b) /\
    timersOf t' (s_ID b) = timerRow (s_ID b) <$> s_Timers a /\
    Forall (fun event => is_Some (outbox t' !! Outbox.e_ID event)) (lc_outboxEvents commit) /\
    loadSession t' (s_ID b) = Some stored.
Proof.
  intros Hk Hv H. cbv zeta. pose proof (proj1 (LifecycleCommit_identity _ Hv)) as Eid. unfold persistLifecycleAfterSessionLock in H.
  step H u1 H1. apply tx_lift_inv in H1 as (Hcur & -> & ->). destruct u1. cbv zeta in H.
  enough (exists row T O k, game_sessions t !! s_ID (lc_before commit) = Some row /\
    g_StateVersion row = i64 (StateVersion (s_State (lc_before commit))) /\
    g_OwnershipEpoch row = i64 (s_OwnershipEpoch (lc_before commit)) /\ live (g_Status row) = true /\
    (forall k, k <> s_ID (lc_before commit) -> T !! k = session_timers t !! k) /\
    default [] (T !! s_ID (lc_before commit)) = timerRow (s_ID (lc_before commit)) <$> s_Timers (lc_after commit) /\
    outbox t ⊆ O /\ Forall (fun event => is_Some (O !! Outbox.e_ID event)) (lc_outboxEvents commit) /\
    t' = replaced (s_ID (lc_before commit)) (setLifecycle row (createGameSessionParams (lc_after commit))) T O k t /\
    sessionFromRows (setLifecycle row (createGameSessionParams (lc_after commit)))
      (merge_sort participant_before (participantsOf t' (default Nil (g_SessionID row))))
      (merge_sort timer_before (timersOf t' (default Nil (g_SessionID row)))) = Ok stored)
    as (row & T & O & k & Hrow & Hver & Hep & Hlive & HT & HTs & Hsub & Hin & -> & Hload).
  { exists row. split_and!; [by apply replaced_reshaped|done..|]. rewrite (Hk _ _ Hrow) in Hload. cbn [default] in Hload.
    eapply loadSession_intro; [|exact Hload]. cbn. by rewrite lookup_insert_eq. }
  destruct (String.eqb _ _ && String.eqb _ _); cbn [negb] in H; step H u2 H2.
  - apply persistAdjusted_inv in H2 as (T & -> & HTk & HT). step H row' H3. apply lifecycleCAS_inv in H3 as (row & Hrow & ? & ? & ? & -> & ->).
    step H u3 H4. apply tx_ret_inv in H4 as (_ & -> & _). step H u4 H5.
    apply insertGameSessionOutbox_inv in H5 as (O & k & -> & Hsub & Hin). apply sessionFromUpdatedRow_inv in H as [-> H].
    rewrite Eid in HTk, HT. by exists row, T, O, k.
  - apply tx_ret_inv in H2 as (_ & -> & _). step H row' H3. apply lifecycleCAS_inv in H3 as (row & Hrow & ? & ? & ? & -> & ->).
    step H u3 H4. apply replaceGameSessionTimers_inv in H4 as (T & -> & HTk & HT). step H u4 H5.
    apply insertGameSessionOutbox_inv in H5 as (O & k & -> & Hsub & Hin). apply sessionFromUpdatedRow_inv in H as [-> H].
    rewrite Eid in HTk, HT. by exists row, T, O, k.
Qed.

Lemma CommitLifecycle_inv commit t out t' :
  rowsKeyed t -> CommitLifecycle fault ctxDone commit t = (out, t') ->
  match out with
  | Err _ => t' = t
  | Ok stored =>
      LifecycleCommit_Valid commit = true /\
      exists current n n', loadSession t (s_ID (lc_before commit)) = Some current /\
        persistLifecycleAfterSessionLock fault ctxDone current commit (t, n) = Ok (stored, (t', n'))
  end.
Proof.
  intros Hk H. apply guard_inv in H as [(e & -> & ->)|[Hv H]]; [done|]. apply negb_false_iff in Hv.
  apply finish_inv in H. destruct out as [r|]; [|done]. destruct H as [n H].
  step H current Hc. apply getGameSessionForUpdate_inv in Hc as [-> Hload]; [|done]. split_and!; try done. by eexists _, _, _.
Qed.

Lemma AcquireOwnershipCAS_inv b next t out t' :
  rowsKeyed t -> AcquireOwnershipCAS fault b next t = (out, t') ->
  match out with
  | Err _ => t' = t
  | Ok stored =>
      validateOwnershipTransition b next = Ok tt /\
      exists row, reshaped (s_ID b) row (setOwnership row (timeToPG (s_UpdatedAt next))) t t' /\
        session_timers t' = session_timers t /\
        g_StateVersion row = i64 (StateVersion (s_State b)) /\ g_OwnershipEpoch row = i64 (s_OwnershipEpoch b) /\
        loadSession t' (s_ID b) = Some stored
  end.
Proof.
  intros Hk H. apply (check_inv (validateOwnershipTransition b next)) in H as [(e & -> & ->)|([] & Hw & H)]; [done|].
  apply finish_inv in H. destruct out as [r|]; [|done]. destruct H as [n H]. split; [done|].
  step H row' Hr. apply one_inv, updateSession_inv in Hr as (row & Hrow & Hm & -> & ->).
  apply andb_prop in Hm as [[Hv He]%andb_prop Hs]. apply Z.eqb_eq in Hv, He. exists row.
  step H ps Hps. apply query_inv in Hps as [-> ->]. step H ts Hts. apply query_inv in Hts as [-> ->].
  apply tx_lift_inv in H as (H & -> & _). split_and!; [by constructor|done|done|done|].
  eapply loadSession_intro; [|exact H]. cbn. by rewrite lookup_insert_eq.
Qed.

(** ** Creation *)
Lemma createParticipants_inv sid participants t n u t' n' :
  createParticipants fault sid participants (t, n) = Ok (u, (t', n')) ->
  exists M, t' = t <| session_participants := M |> /\ (forall k, k <> sid -> M !! k = session_participants t !! k) /\
    default [] (M !! sid) = participantsOf t sid ++ (participantRow sid <$> participants).
Proof.
  revert t n. induction participants as [|p participants IH]; intros t n H; cbn [createParticipants] in H.
  - apply tx_ret_inv in H as (_ & -> & _). exists (session_participants t). split_and!; [by destruct t|done|]. by rewrite app_nil_r.
  - step H a Ha. apply session_statement_inv in Ha. destruct (existsb _ _); [done|]. injection Ha as _ <-.
    apply IH in H as (M & -> & Hk & Hs). exists M. split_and!; [done| |].
    + intros k Hne. rewrite Hk by done. cbn. by rewrite lookup_insert_ne.
    + rewrite Hs. unfold participantsOf at 1. cbn. rewrite lookup_insert_eq. cbn. by rewrite <- app_assoc.
Qed.

(** What a creation adds to the tables. *)
Record created (commit : CreationCommit) (stored : Session) (t t' : Tables) : Prop := {
  cr_fresh : game_sessions t !! s_ID (cc_Session commit) = None;
  cr_sessions : game_sessions t' = <[s_ID (cc_Session commit) := createGameSessionParams (cc_Session commit)]> (game_sessions t);
  cr_one_live : live (s_Status (cc_Session commit)) = true -> forall sid row, game_sessions t !! sid = Some row ->
    live (g_Status row) = true -> g_RoomID row <> Some (s_RoomID (cc_Session commit));
  cr_batch_fresh : event_batches t !! b_ID (cc_Batch commit) = None;
  cr_batch_version : forall id other, event_batches t !! id = Some other ->
    br_SessionID other = Some (b_SessionID (cc_Batch commit)) -> br_StateVersion other <> i64 (b_StateVersion (cc_Batch commit));
  cr_batches : event_batches t' = <[b_ID (cc_Batch commit) := batchRow (cc_Batch commit)]> (event_batches t);
  cr_timers : timersOf t' (s_ID (cc_Session commit)) = timerRow (s_ID (cc_Session commit)) <$> s_Timers (cc_Session commit);
  cr_other_timers : forall k, k <> s_ID (cc_Session commit) -> session_timers t' !! k = session_timers t !! k;
  cr_participants : participantsOf t' (s_ID (cc_Session commit)) =
    participantsOf t (s_ID (cc_Session commit)) ++ (participantRow (s_ID (cc_Session commit)) <$> s_Participants (cc_Session commit));
  cr_other_participants : forall k, k <> s_ID (cc_Session commit) -> session_participants t' !! k = session_participants t !! k;
  cr_other_events : forall k, k <> b_ID (cc_Batch commit) -> session_events t' !! k = session_events t !! k;
  cr_actions : action_receipts t' = action_receipts t;
  cr_fired : timer_receipts t' = timer_receipts t;
  cr_operations : system_operations t' = system_operations t;
  cr_outbox : outbox t ⊆ outbox t';
  cr_notified : Forall (fun event => is_Some (outbox t' !! Outbox.e_ID event)) (cc_OutboxEvents commit);
  cr_rooms : rooms t' = rooms t;
  cr_starts : start_receipts t' = start_receipts t;
  cr_members : replay_members t' = replay_members t;
  cr_inbox : system_inbox t' = system_inbox t;
  cr_load : loadSession t' (s_ID (cc_Session commit)) = Some stored;
}.

Lemma createGameSessionAggregate_inv commit t n stored t' n' :
  createGameSessionAggregate fault ctxDone commit (t, n) = Ok (stored, (t', n')) -> created commit stored t t'.
Proof.
  intros H. unfold createGameSessionAggregate in H.
  step H row Hr. apply session_statement_inv in Hr. cbv zeta in Hr.
  change (default Nil (g_SessionID (createGameSessionParams (cc_Session commit)))) with (s_ID (cc_Session commit)) in Hr.
  case_bool_decide as Hnone; [done|]. destruct (_ && _) eqn:Elive; [done|]. injection Hr as <- <-.
  step H u1 H1. apply createParticipants_inv in H1 as (P & -> & HPk & HP).
  step H u2 H2. apply session_statement_inv in H2. case_bool_decide; [done|]. injection H2 as _ <-.
  step H u3 H3. apply replaceGameSessionTimers_inv in H3 as (T & -> & HTk & HT).
  step H u4 H4. apply insertGameSessionBatch_inv in H4 as (Hfresh & Hver & Ev & -> & HEk & HE).
  step H u5 H5. apply insertGameSessionOutbox_inv in H5 as (O & k & -> & Hsub & Hin).
  step H ps Hps. apply query_inv in Hps as [-> ->]. step H ts Hts. apply query_inv in Hts as [-> ->].
  apply tx_lift_inv in H as (H & -> & _). constructor; try done.
  - by apply eq_None_not_Some.
  - intros Hl sid row Hrow Hlr Hroom. cbn [createGameSessionParams g_Status g_RoomID] in Elive. rewrite Hl in Elive. cbn in Elive.
    apply not_true_iff_false in Elive. apply Elive, existsb_exists. exists (sid, row). split; [by apply list_elem_of_In, elem_of_map_to_list|].
    cbn. rewrite Hlr, Hroom. by rewrite bool_decide_true.
  - eapply loadSession_intro; [|exact H]. cbn. by rewrite lookup_insert_eq.
Qed.

Lemma Create_inv commit t out t' :
  Create fault ctxDone commit t = (out, t') ->
  match out with
  | Err _ => t' = t
  | Ok stored => CreationCommit_Valid commit = true /\ validateCreationWidths commit = Ok tt /\ created commit stored t t'
  end.
Proof.
  intros H. apply guard_inv in H as [(e & -> & ->)|[Hv H]]; [done|]. apply negb_false_iff in Hv.
  apply (check_inv (validateCreationWidths commit)) in H as [(e & -> & ->)|([] & Hw & H)]; [done|].
  apply finish_inv in H. destruct out as [r|]; [|done]. destruct H as [n H]. split_and!; try done.
  by eapply createGameSessionAggregate_inv.
Qed.

(** ** Room facts *)
Lemma CompleteSystemInbox_inv key digest version at_ t out t' :
  CompleteSystemInbox fault key digest version at_ t = (out, t') ->
  match out with
  | Err _ => t' = t
  | Ok r => t' = t \/ exists row row', system_inbox t !! (ik_SessionID key, ik_SourceEventID key) = Some row /\
      ir_Status row = SystemInboxPending /\ ir_Status row' = SystemInboxCompleted /\
      t' = t <| system_inbox := <[(ik_SessionID key, ik_SourceEventID key) := row']> (system_inbox t) |>
  end.
Proof.
  intros H. apply guard_inv in H as [(e & -> & ->)|[_ H]]; [done|]. apply finish_inv in H. destruct out as [r|]; [|done].
  destruct H as [n H]. step H row Hr. apply one_inv, query_inv in Hr as [Hr ->]. step H current Hc. apply tx_lift_inv in Hc as (Hc & -> & ->).
  destruct (String.eqb _ _).
  - destruct (negb _); [done|]. apply tx_ret_inv in H as (_ & -> & _). by left.
  - step H row' Hr'. apply one_inv, session_statement_inv in Hr'. rewrite <- Hr in Hr'. destruct (_ && _) eqn:Em; [|done].
    injection Hr' as Hrow' <-. apply tx_lift_inv in H as (_ & -> & _). right. exists row, row'. apply andb_prop in Em as [_ Em].
    apply eqb_string_true in Em. split_and!; try done; by rewrite <- Hrow'.
Qed.
End Effects.

End RuntimeStoreEffects.
