(* ===== verification/RuntimeStoreInvariant.v ===== *)
(** * The session repository: what always holds of the tables

    The states the repository can leave, whatever fails, and an invariant of all
    of them: sessions that load, one live session per room, a gapless history of
    event batches per session, and receipts that match it. *)

From stdpp Require Import gmap relations.
From S2P Require Import Prelude GoLib Sha256 Selector GameManifest GameContract Outbox Room RoomStore Runtime RuntimeFacts RuntimeMoves RuntimeCommit RuntimeStore RuntimeQueries RuntimeRepository RuntimeStoreFacts RuntimeStoreEffects.

Module RuntimeStoreInvariant.
Import GoLib Selector GameManifest GameContract Runtime RuntimeFacts RuntimeMoves RuntimeCommit RuntimeStore RuntimeQueries
  RuntimeRepository RuntimeStoreFacts RuntimeStoreEffects.

Definition emptyTables : Tables := mkTables RoomStore.emptyDatabase ∅ ∅ ∅ ∅ ∅ ∅ ∅ ∅ ∅ ∅ ∅ ∅ ∅ 1.

(** A batch is a value of [RestoreEventBatch]. *)
Definition BatchOK (bt : EventBatch) : Prop := RestoreEventBatch bt = Ok bt.

(** ** Steps *)

(** One operation of the session repository, with any faults and any outcome, a
    change of the rooms, or a room fact recorded for a session. *)
Inductive store_step (t : Tables) : Tables -> Prop :=
| step_create fault ctxDone commit out t' :
    BatchOK (cc_Batch commit) -> Create fault ctxDone commit t = (out, t') -> store_step t t'
| step_acquire fault b next out t' : AcquireOwnershipCAS fault b next t = (out, t') -> store_step t t'
| step_action fault ctxDone commit out t' :
    BatchOK (batch commit) -> CommitAction fault ctxDone commit t = (out, t') -> store_step t t'
| step_timer fault ctxDone commit out t' :
    BatchOK (batch commit) -> CommitTimer fault ctxDone commit t = (out, t') -> store_step t t'
| step_system fault ctxDone commit out t' :
    BatchOK (batch commit) -> CommitSystem fault ctxDone commit t = (out, t') -> store_step t t'
| step_noop fault key digest at_ out t' : CompleteSystemNoop fault key digest at_ t = (out, t') -> store_step t t'
| step_lifecycle fault ctxDone commit out t' : CommitLifecycle fault ctxDone commit t = (out, t') -> store_step t t'
| step_inbox fault key digest version at_ out t' :
    CompleteSystemInbox fault key digest version at_ t = (out, t') -> store_step t t'
| step_rooms d : store_step t (t <| rooms := d |>)
| step_fact sid source row :
    system_inbox t !! (sid, source) = None -> ir_Status row = SystemInboxPending ->
    store_step t (t <| system_inbox := <[(sid, source) := row]> (system_inbox t) |>).

Definition store_reachable (t : Tables) : Prop := rtc store_step emptyTables t.

(** ** Invariants *)
Record SessionsInv (t : Tables) : Prop := {
  si_keyed : rowsKeyed t;
  si_loads : forall sid row, game_sessions t !! sid = Some row -> is_Some (loadSession t sid);
  si_live : forall sid sid' row row', game_sessions t !! sid = Some row -> game_sessions t !! sid' = Some row' ->
    live (g_Status row) = true -> live (g_Status row') = true -> g_RoomID row = g_RoomID row' -> sid = sid';
  si_widths : forall sid row, game_sessions t !! sid = Some row -> g_StateVersion row <= maxInt64 /\ g_OwnershipEpoch row <= maxInt64;
}.

(** The state versions of the batches of a session. *)
Definition hasBatch (t : Tables) (sid : UUID) (version : Z) : Prop :=
  exists id b, event_batches t !! id = Some b /\ br_SessionID b = Some sid /\ br_StateVersion b = version.

Record HistoryInv (t : Tables) : Prop := {
  hi_gapless : forall sid row, game_sessions t !! sid = Some row -> forall v, hasBatch t sid v <-> 1 <= v <= g_StateVersion row;
  hi_unique : forall id id' b b', event_batches t !! id = Some b -> event_batches t !! id' = Some b' ->
    br_SessionID b = br_SessionID b' -> br_StateVersion b = br_StateVersion b' -> id = id';
  hi_owner : forall id b, event_batches t !! id = Some b ->
    exists sid row, br_SessionID b = Some sid /\ game_sessions t !! sid = Some row;
  hi_events : forall id, event_batches t !! id = None -> eventsOf t id = [];
}.

(** The receipt of the command a batch records. *)
Definition accounted (t : Tables) (id : UUID) (b : BatchRow) : Prop :=
  forall sid, br_SessionID b = Some sid ->
  (forall actor act, br_ActorUserID b = Some actor -> br_ActionID b = Some act ->
     exists r, action_receipts t !! (sid, actor, act) = Some r /\ arr_CommittedStateVersion r = br_StateVersion b) /\
  (forall timer, br_TimerID b = Some timer ->
     exists r, timer_receipts t !! (sid, timer, br_StateVersion b - 1) = Some r /\ trr_BatchID r = Some id) /\
  (forall op, br_SystemOperationID b = Some op ->
     exists r, system_operations t !! (sid, op) = Some r /\ so_Status r = SystemInboxCompleted /\ so_BatchID r = Some id).

Record ReceiptsInv (t : Tables) : Prop := {
  ri_accounted : forall id b, event_batches t !! id = Some b -> accounted t id b;
  ri_actions : forall sid actor act r, action_receipts t !! (sid, actor, act) = Some r ->
    exists id b, event_batches t !! id = Some b /\ br_SessionID b = Some sid /\ br_ActorUserID b = Some actor /\
      br_ActionID b = Some act /\ br_StateVersion b = arr_CommittedStateVersion r;
  ri_timers : forall sid timer v r, timer_receipts t !! (sid, timer, v) = Some r ->
    exists id b, event_batches t !! id = Some b /\ trr_BatchID r = Some id /\ br_SessionID b = Some sid /\
      br_TimerID b = Some timer /\ br_StateVersion b = v + 1;
  ri_operations : forall sid op r id, system_operations t !! (sid, op) = Some r -> so_BatchID r = Some id ->
    exists b, event_batches t !! id = Some b /\ br_SessionID b = Some sid /\ br_SystemOperationID b = Some op;
}.

Record StoreInv (t : Tables) : Prop := {
  st_sessions : SessionsInv t;
  st_history : HistoryInv t;
  st_receipts : ReceiptsInv t;
}.

(** ** Columns *)
Lemma i64_id z : 0 <= z <= maxInt64 -> i64 z = z.
Proof. unfold RoomStore.i64, maxInt64. intros. rewrite Z.mod_small; lia. Qed.

Lemma u64_id z : 0 <= z <= maxUint64 -> u64 z = z.
Proof. unfold u64, maxUint64. intros. rewrite Z.mod_small; lia. Qed.

Lemma u64_range z : 0 <= u64 z <= maxUint64.
Proof. unfold u64, maxUint64. pose proof (Z.mod_pos_bound z 18446744073709551616). lia. Qed.

Lemma i64_range z : - 9223372036854775808 <= i64 z <= maxInt64.
Proof. unfold RoomStore.i64, maxInt64. pose proof (Z.mod_pos_bound (z + 9223372036854775808) 18446744073709551616). lia. Qed.

Lemma u64_i64_succ z : u64 (i64 z + 1) = u64 (z + 1).
Proof. unfold u64, RoomStore.i64. rewrite !Z.mod_eq by lia. Z.to_euclidean_division_equations. lia. Qed.

#[local] Opaque RoomStore.i64 RoomStore.i32 u64 u32.

(** The epoch an acquisition writes. *)
Lemma acquired_width b next row updatedAt :
  validateOwnershipTransition b next = Ok tt -> g_OwnershipEpoch row = i64 (s_OwnershipEpoch b) -> 0 <= g_OwnershipEpoch row ->
  g_OwnershipEpoch (setOwnership row updatedAt) <= maxInt64.
Proof.
  unfold validateOwnershipTransition. intros H Hep Hpos. inv_result H. repeat (apply orb_false_iff in E as [E ?]). to_prop.
  match goal with H : s_OwnershipEpoch next = _ |- _ => rename H into Hn end.
  rewrite <- u64_i64_succ, <- Hep in Hn. cbn [setOwnership g_OwnershipEpoch].
  pose proof (i64_range (s_OwnershipEpoch b)) as Hr. rewrite <- Hep in Hr.
  rewrite u64_id in Hn by (unfold maxInt64, maxUint64 in *; lia). lia.
Qed.

(** The columns a batch fills, by its cause. *)
Lemma BatchOK_cause bt : BatchOK bt -> causeInvalid bt = false.
Proof.
  intros H. pose proof (RestoreEventBatch_Ok _ _ H) as [Hn _]. unfold BatchOK, RestoreEventBatch in H.
  inv_results H. by rewrite Hn.
Qed.

Lemma operation_column op : OperationID_Valid op = true -> optionalOperationIDToPG op = Some (Value op).
Proof. unfold optionalOperationIDToPG. intros ->. done. Qed.

Lemma no_operation_column op : OperationID_Valid op = false -> optionalOperationIDToPG op = None.
Proof. unfold optionalOperationIDToPG. intros ->. done. Qed.

Lemma uuid_column u : u <> Nil -> optionalUUIDToPG u = Some u.
Proof. unfold RoomStore.optionalUUIDToPG. intros H%Z.eqb_neq. by rewrite H. Qed.

Ltac cause H :=
  unfold EventCauseCreated, EventCauseAction, EventCauseTimer, EventCauseSystem in H; cbn [String.eqb Ascii.eqb Bool.eqb] in H.
Ltac columns := unfold batchRow; cbn [br_ActorUserID br_ActionID br_TimerID br_SystemOperationID].

Lemma created_columns bt : BatchOK bt -> b_Cause bt = EventCauseCreated ->
  br_ActorUserID (batchRow bt) = None /\ br_TimerID (batchRow bt) = None /\ br_SystemOperationID (batchRow bt) = None.
Proof.
  intros H%BatchOK_cause Hc. unfold causeInvalid in H. rewrite Hc in H. cause H. to_prop. columns.
  split_and!; [by match goal with H : b_ActorUserID bt = Nil |- _ => rewrite H end| |by apply no_operation_column].
  by match goal with H : b_TimerID bt = _ |- _ => rewrite H end.
Qed.

Lemma action_columns bt : BatchOK bt -> b_Cause bt = EventCauseAction ->
  br_ActorUserID (batchRow bt) = Some (b_ActorUserID bt) /\ br_ActionID (batchRow bt) = Some (Value (b_ActionID bt)) /\
  br_TimerID (batchRow bt) = None /\ br_SystemOperationID (batchRow bt) = None.
Proof.
  intros H%BatchOK_cause Hc. unfold causeInvalid in H. rewrite Hc in H. cause H. to_prop. columns.
  split_and!; [by apply uuid_column|by apply operation_column| |by apply no_operation_column].
  by match goal with H : b_TimerID bt = _ |- _ => rewrite H end.
Qed.

Lemma timer_columns bt : BatchOK bt -> b_Cause bt = EventCauseTimer ->
  br_ActorUserID (batchRow bt) = None /\ br_TimerID (batchRow bt) = Some (b_TimerID bt) /\ br_SystemOperationID (batchRow bt) = None.
Proof.
  intros H%BatchOK_cause Hc. unfold causeInvalid in H. rewrite Hc in H. cause H. to_prop. columns.
  split_and!; [by match goal with H : b_ActorUserID bt = Nil |- _ => rewrite H end| |by apply no_operation_column].
  unfold optionalIdentifierToPG. destruct (String.eqb (b_TimerID bt) "") eqn:E; [|done]. apply eqb_string_true in E.
  by match goal with H : identifierOk _ = true |- _ => rewrite E in H end.
Qed.

Lemma system_columns bt : BatchOK bt -> b_Cause bt = EventCauseSystem ->
  br_ActorUserID (batchRow bt) = None /\ br_TimerID (batchRow bt) = None /\
  br_SystemOperationID (batchRow bt) = Some (Value (b_SystemOperationID bt)).
Proof.
  intros H%BatchOK_cause Hc. unfold causeInvalid in H. rewrite Hc in H. cause H. to_prop. columns.
  split_and!; [by match goal with H : b_ActorUserID bt = Nil |- _ => rewrite H end| |by apply operation_column].
  by match goal with H : b_TimerID bt = _ |- _ => rewrite H end.
Qed.

(** ** Sessions *)
Lemma loadSession_row t sid s : loadSession t sid = Some s ->
  exists row, game_sessions t !! sid = Some row /\
    sessionFromRows row (merge_sort participant_before (participantsOf t sid)) (merge_sort timer_before (timersOf t sid)) = Ok s.
Proof.
  unfold loadSession. destruct (game_sessions t !! sid) as [row|]; cbn [mbind option_bind]; [|done].
  destruct (sessionFromRows _ _ _) eqn:E; [|done]. intros [= ->]. by exists row.
Qed.

(** What the columns of a row say about the session it loads as. *)
Lemma sessionFromRows_Ok row ps ts s : sessionFromRows row ps ts = Ok s ->
  exists id roomID startedAt updatedAt participants timers start,
    g_SessionID row = Some id /\ g_RoomID row = Some roomID /\ g_StartedAt row = Some startedAt /\ g_UpdatedAt row = Some updatedAt /\
    0 < g_StateVersion row /\ 0 <= g_OwnershipEpoch row /\ 0 < g_SnapshotVersion row /\ 0 < g_StateSchemaVersion row /\
    map_result (participantFromRow id) ps = Ok participants /\ map_result (timerFromRow id) ts = Ok timers /\
    frozenStartConfigFromRow row = Ok start /\
    RestoreSession (mkSession id roomID
      (mkVersionKey (g_GameID row) (g_EngineVersion row) (g_ProtocolVersion row) (g_ClientVersion row))
      (u64 (g_OwnershipEpoch row)) participants start
      (mkGameSnapshot (u32 (g_SnapshotVersion row)) (u64 (g_StateVersion row))
         (mkMessage (g_StateMessageType row) (u32 (g_StateSchemaVersion row)) (g_StatePayload row)))
      timers (optionalTimeFromPG (g_NextDeadlineAt row)) (g_Status row) startedAt updatedAt
      (optionalTimeFromPG (g_SuspendedAt row)) (optionalTimeFromPG (g_EndedAt row))
      (default ""%string (g_CancelReason row))) = Ok s.
Proof.
  unfold sessionFromRows. destruct (g_SessionID row) as [id|]; [|done]. destruct (g_RoomID row) as [roomID|]; [|done].
  destruct (g_StartedAt row) as [startedAt|]; [|done]. destruct (g_UpdatedAt row) as [updatedAt|]; [|done].
  intros H. inv_result H. rename E into Eb. inv_result H. inv_result H. rename value0 into participants.
  inv_result H. rename value0 into timers. inv_result H. rename value0 into start.
  repeat (apply orb_false_iff in Eb as [Eb ?]). to_prop.
  exists id, roomID, startedAt, updatedAt, participants, timers, start. split_and!; done || lia.
Qed.

Lemma loaded_numbers row ps ts s : sessionFromRows row ps ts = Ok s ->
  StateVersion (s_State s) = u64 (g_StateVersion row) /\ s_OwnershipEpoch s = u64 (g_OwnershipEpoch row) /\
  s_Status s = g_Status row /\ 0 < g_StateVersion row /\ 0 <= g_OwnershipEpoch row /\ g_SessionID row = Some (s_ID s).
Proof.
  intros (id & roomID & startedAt & updatedAt & parts & timers & start & E1 & E2 & E3 & E4 & H1 & H2 & H3 & H4 & _ & _ & _ & H)%sessionFromRows_Ok.
  apply RestoreSession_Restored in H. split_and!; [by rewrite (rs_state _ _ H)|by rewrite (rs_epoch _ _ H)|by rewrite (rs_status _ _ H)|done|done|].
  by rewrite (rs_id _ _ H).
Qed.

Lemma loadSession_other t t' k :
  game_sessions t' !! k = game_sessions t !! k -> session_timers t' !! k = session_timers t !! k ->
  session_participants t' !! k = session_participants t !! k -> loadSession t' k = loadSession t k.
Proof. intros H1 H2 H3. unfold loadSession, participantsOf, timersOf. by rewrite H1, H2, H3. Qed.

(** The invariant of the sessions when the row of one is written and read back. *)
Lemma SessionsInv_write sid row' t t' s :
  SessionsInv t -> game_sessions t' = <[sid := row']> (game_sessions t) -> g_SessionID row' = Some sid ->
  (forall k, k <> sid -> session_timers t' !! k = session_timers t !! k) ->
  (forall k, k <> sid -> session_participants t' !! k = session_participants t !! k) ->
  (live (g_Status row') = true -> forall k row, k <> sid -> game_sessions t !! k = Some row -> live (g_Status row) = true ->
     g_RoomID row <> g_RoomID row') ->
  g_StateVersion row' <= maxInt64 -> g_OwnershipEpoch row' <= maxInt64 ->
  loadSession t' sid = Some s -> SessionsInv t'.
Proof.
  intros [Hk Hl Hv Hr] Hs Hid Ht Hp Hlive Hr1 Hr2 Hload. constructor.
  - intros k row. rewrite Hs, lookup_insert_Some. intros [[<- <-]|[Hne H]]; [done|by apply Hk].
  - intros k row. rewrite Hs, lookup_insert_Some. intros [[<- <-]|[Hne H]]; [by eexists|].
    rewrite (loadSession_other t t' k); [by eapply Hl| |by apply Ht|by apply Hp]. by rewrite Hs, lookup_insert_ne.
  - intros k k' row1 row2. rewrite Hs, !lookup_insert_Some.
    intros [[<- <-]|[Hne H]] [[<- <-]|[Hne' H']] L1 L2 Er; [done| | |by eapply Hv].
    + exfalso. by eapply (Hlive L1 k' row2); [|exact H'| |].
    + exfalso. by eapply (Hlive L2 k row1); [|exact H| |].
  - intros k row. rewrite Hs, lookup_insert_Some. intros [[<- <-]|[Hne H]]; [done|by eapply Hr].
Qed.

(** A row that was live and keeps its room. *)
Lemma SessionsInv_rewrite sid row row' t t' s :
  SessionsInv t -> game_sessions t !! sid = Some row -> live (g_Status row) = true ->
  g_SessionID row' = g_SessionID row -> g_RoomID row' = g_RoomID row ->
  game_sessions t' = <[sid := row']> (game_sessions t) ->
  (forall k, k <> sid -> session_timers t' !! k = session_timers t !! k) -> session_participants t' = session_participants t ->
  g_StateVersion row' <= maxInt64 -> g_OwnershipEpoch row' <= maxInt64 ->
  loadSession t' sid = Some s -> SessionsInv t'.
Proof.
  intros Hinv Hrow Hl Eid Eroom Hs Ht Hp Hr1 Hr2 Hload. eapply SessionsInv_write; [done|done| |done| | |done|done|done].
  - rewrite Eid. by eapply si_keyed.
  - intros k _. by rewrite Hp.
  - intros _ k other Hne Hk Hlk E. apply Hne. eapply (si_live _ Hinv); [exact Hk|exact Hrow|done|done|congruence].
Qed.

(** ** History *)

(** A batch added at the next version of its session. *)
Lemma HistoryInv_add sid row' bid b t t' :
  HistoryInv t -> event_batches t !! bid = None -> br_SessionID b = Some sid -> br_StateVersion b = g_StateVersion row' ->
  (forall id other, event_batches t !! id = Some other -> br_SessionID other = Some sid -> br_StateVersion other <> br_StateVersion b) ->
  (game_sessions t !! sid = None /\ g_StateVersion row' = 1 \/
   exists row, game_sessions t !! sid = Some row /\ g_StateVersion row' = g_StateVersion row + 1 /\ 0 < g_StateVersion row) ->
  game_sessions t' = <[sid := row']> (game_sessions t) -> event_batches t' = <[bid := b]> (event_batches t) ->
  (forall k, k <> bid -> session_events t' !! k = session_events t !! k) -> HistoryInv t'.
Proof.
  intros [Hg Hu Ho He] Hfresh Hbs Hbv Hver Hrow Hs Hb Hev. constructor.
  - intros k row. rewrite Hs, lookup_insert_Some. intros [[<- <-]|[Hne H]] v; unfold hasBatch; rewrite Hb.
    + assert (Hold : (exists id c, event_batches t !! id = Some c /\ br_SessionID c = Some sid /\ br_StateVersion c = v) <->
        1 <= v <= g_StateVersion row' - 1).
      { destruct Hrow as [[Hn ->]|(old & Hold & -> & Hpos)].
        - split; [|lia]. intros (id & c & Hc & Hcs & _). destruct (Ho _ _ Hc) as (k & row & Hk & Hrow). congruence.
        - replace (g_StateVersion old + 1 - 1) with (g_StateVersion old) by lia. by apply (Hg sid old). }
      assert (0 < g_StateVersion row') by (destruct Hrow as [[_ ->]|(old & _ & -> & ?)]; lia).
      split.
      * intros (id & c & [[<- <-]|[Hne Hc]]%lookup_insert_Some & Hcs & Hcv); [lia|].
        enough (1 <= v <= g_StateVersion row' - 1) by lia. apply Hold. by exists id, c.
      * intros Hv. destruct (decide (v = g_StateVersion row')) as [->|Hn].
        { exists bid, b. by rewrite lookup_insert_eq. }
        destruct (proj2 Hold) as (id & c & Hc & Hcs & Hcv); [lia|]. exists id, c. rewrite lookup_insert_ne; [done|congruence].
    + rewrite <- (Hg k row H). unfold hasBatch. split; intros (id & c & Hc & Hcs & Hcv).
      * apply lookup_insert_Some in Hc as [[<- <-]|[_ Hc]]; [congruence|by exists id, c].
      * exists id, c. rewrite lookup_insert_ne; [done|congruence].
  - intros id id' c c'. rewrite Hb, !lookup_insert_Some. intros [[<- <-]|[Hne H]] [[<- <-]|[Hne' H']] E1 E2; [done| | |by eapply Hu].
    + exfalso. eapply Hver; [exact H'|congruence|congruence].
    + exfalso. eapply Hver; [exact H|congruence|congruence].
  - intros id c. rewrite Hb, lookup_insert_Some. intros [[<- <-]|[Hne H]].
    + exists sid, row'. by rewrite Hs, lookup_insert_eq.
    + destruct (Ho id c H) as (k & row & Hk & Hr). rewrite Hs. destruct (decide (k = sid)) as [->|Hn].
      * exists sid, row'. by rewrite lookup_insert_eq.
      * exists k, row. by rewrite lookup_insert_ne.
  - intros id. rewrite Hb, lookup_insert_None. intros [Hn Hne]. unfold eventsOf. rewrite Hev by done. by apply He.
Qed.

(** A row rewritten at the same version. *)
Lemma HistoryInv_same sid row row' t t' :
  HistoryInv t -> game_sessions t !! sid = Some row -> g_StateVersion row' = g_StateVersion row ->
  game_sessions t' = <[sid := row']> (game_sessions t) -> event_batches t' = event_batches t ->
  session_events t' = session_events t -> HistoryInv t'.
Proof.
  intros [Hg Hu Ho He] Hrow Hv Hs Hb Hev. constructor; unfold hasBatch, eventsOf; rewrite ?Hb, ?Hev; [|done| |done].
  - intros k r. rewrite Hs, lookup_insert_Some. intros [[<- <-]|[Hne H]]; [rewrite Hv; by apply Hg|by apply Hg].
  - intros id c Hc. destruct (Ho id c Hc) as (k & r & Hk & Hr). rewrite Hs. destruct (decide (k = sid)) as [->|Hn].
    + exists sid, row'. by rewrite lookup_insert_eq.
    + exists k, r. by rewrite lookup_insert_ne.
Qed.

(** ** Receipts *)

(** Receipts and completed operations are kept. *)
Record kept (t t' : Tables) : Prop := {
  ke_actions : action_receipts t ⊆ action_receipts t';
  ke_timers : timer_receipts t ⊆ timer_receipts t';
  ke_operations : forall k r, system_operations t !! k = Some r -> so_Status r = SystemInboxCompleted ->
    system_operations t' !! k = Some r;
}.

Lemma kept_accounted t t' id b : kept t t' -> accounted t id b -> accounted t' id b.
Proof.
  intros [Ha Ht Ho] H sid Hsid. destruct (H sid Hsid) as (H1 & H2 & H3). split_and!.
  - intros actor act E1 E2. destruct (H1 actor act E1 E2) as (r & Hr & E). exists r. split; [|done]. by eapply lookup_weaken.
  - intros timer E1. destruct (H2 timer E1) as (r & Hr & E). exists r. split; [|done]. by eapply lookup_weaken.
  - intros op E1. destruct (H3 op E1) as (r & Hr & E2 & E3). exists r. split_and!; [by apply Ho|done|done].
Qed.

(** A batch added with its receipt. *)
Lemma ReceiptsInv_add bid b t t' :
  ReceiptsInv t -> kept t t' -> event_batches t !! bid = None -> event_batches t' = <[bid := b]> (event_batches t) ->
  accounted t' bid b ->
  (forall sid actor act r, action_receipts t' !! (sid, actor, act) = Some r -> action_receipts t !! (sid, actor, act) = Some r \/
     br_SessionID b = Some sid /\ br_ActorUserID b = Some actor /\ br_ActionID b = Some act /\ br_StateVersion b = arr_CommittedStateVersion r) ->
  (forall sid timer v r, timer_receipts t' !! (sid, timer, v) = Some r -> timer_receipts t !! (sid, timer, v) = Some r \/
     trr_BatchID r = Some bid /\ br_SessionID b = Some sid /\ br_TimerID b = Some timer /\ br_StateVersion b = v + 1) ->
  (forall sid op r id, system_operations t' !! (sid, op) = Some r -> so_BatchID r = Some id ->
     system_operations t !! (sid, op) = Some r \/ id = bid /\ br_SessionID b = Some sid /\ br_SystemOperationID b = Some op) ->
  ReceiptsInv t'.
Proof.
  intros [Hacc Ha Ht Ho] Hkept Hfresh Hb Hnew Ha' Ht' Ho'.
  assert (Hkeep : forall id c, event_batches t !! id = Some c -> event_batches t' !! id = Some c).
  { intros id c Hc. rewrite Hb, lookup_insert_ne; [done|congruence]. }
  assert (Hget : event_batches t' !! bid = Some b) by by rewrite Hb, lookup_insert_eq.
  constructor.
  - intros id c. rewrite Hb, lookup_insert_Some. intros [[<- <-]|[_ Hc]]; [done|]. by eapply kept_accounted, Hacc.
  - intros sid actor act r [Hr|Hr]%Ha'; [|by exists bid, b]. destruct (Ha _ _ _ _ Hr) as (id & c & Hc & ?). exists id, c. by split; [apply Hkeep|].
  - intros sid timer v r [Hr|Hr]%Ht'; [|by exists bid, b]. destruct (Ht _ _ _ _ Hr) as (id & c & Hc & ?). exists id, c. by split; [apply Hkeep|].
  - intros sid op r id Hr Hid. destruct (Ho' _ _ _ _ Hr Hid) as [Hr'|(-> & ?)]; [|by exists b].
    destruct (Ho _ _ _ _ Hr' Hid) as (c & Hc & ?). exists c. by split; [apply Hkeep|].
Qed.

(** No batch added. *)
Lemma ReceiptsInv_same t t' :
  ReceiptsInv t -> event_batches t' = event_batches t -> action_receipts t' = action_receipts t ->
  timer_receipts t' = timer_receipts t ->
  (forall k r, system_operations t !! k = Some r -> so_Status r = SystemInboxCompleted -> system_operations t' !! k = Some r) ->
  (forall k r id, system_operations t' !! k = Some r -> so_BatchID r = Some id -> system_operations t !! k = Some r) ->
  ReceiptsInv t'.
Proof.
  intros [Hacc Ha Ht Ho] Hb Ea Et Hk Hnew. constructor; rewrite ?Hb, ?Ea, ?Et; try done.
  - intros id c Hc. eapply kept_accounted; [|by apply Hacc]. constructor; [by rewrite Ea|by rewrite Et|done].
  - intros sid op r id Hr Hid. by eapply Ho; [eapply Hnew|].
Qed.

(** ** Moves *)

(** The versions of the row a move replaces and of the row it writes. *)
Lemma move_numbers b a bt current row ps ts :
  MoveOK b a bt -> validateCurrentTransition current b = Ok tt -> sessionFromRows row ps ts = Ok current ->
  g_StateVersion row = i64 (StateVersion (s_State b)) -> StateVersion (s_State b) <= maxInt64 -> StateVersion (s_State a) <= maxInt64 ->
  0 < g_StateVersion row /\ StateVersion (s_State b) = g_StateVersion row /\
  StateVersion (s_State a) = g_StateVersion row + 1 /\ i64 (StateVersion (s_State a)) = g_StateVersion row + 1.
Proof.
  intros Hm Hc Hl Hcas Hwb Hwa. apply validateCurrentTransition_Ok in Hc as (_ & Hcv & _).
  apply loaded_numbers in Hl as (Hv & _ & _ & Hpos & _). pose proof (u64_range (g_StateVersion row)) as Hr.
  rewrite i64_id in Hcas by lia. pose proof (mo_version _ _ _ Hm) as Ha.
  rewrite u64_id in Ha by (unfold maxInt64, maxUint64 in *; lia). split_and!; [done|lia|lia|]. rewrite i64_id by lia. lia.
Qed.

Lemma snapshotFits_version s : snapshotFits s = true -> StateVersion (s_State s) <= maxInt64 /\ s_OwnershipEpoch s <= maxInt64.
Proof. unfold snapshotFits. intros H. to_prop. done. Qed.

Lemma widths_versions b a :
  forallb (fun snapshot => snapshotFits snapshot && timersFit (s_Timers snapshot)) [b; a] = true ->
  StateVersion (s_State b) <= maxInt64 /\ StateVersion (s_State a) <= maxInt64 /\ s_OwnershipEpoch b <= maxInt64.
Proof.
  cbn. rewrite andb_true_r. intros H. to_prop.
  repeat match goal with H : snapshotFits _ = true |- _ => apply snapshotFits_version in H as [? ?] end. done.
Qed.

(** A move that was stored and read back has versions that fit their column. *)
Lemma fresh_versions b a bt events excluded current stored row t t' :
  SessionsInv t -> MoveOK b a bt -> loadSession t (s_ID b) = Some current -> freshMove b a bt events excluded current stored row t t' ->
  StateVersion (s_State b) <= maxInt64 /\ StateVersion (s_State a) <= maxInt64.
Proof.
  intros Hs Hm Hload (Hcur & _ & Had & Hst). apply validateCurrentTransition_Ok in Hcur as (_ & Hcv & _).
  apply loadSession_row in Hload as (row0 & Hrow0 & Hl). pose proof (si_widths _ Hs _ _ Hrow0) as [Hw _].
  apply loaded_numbers in Hl as (Hv & _ & _ & Hpos & _). rewrite u64_id in Hv by (unfold maxInt64, maxUint64 in *; lia).
  apply loadSession_row in Hst as (row1 & Hrow1 & Hl1). rewrite (ad_sessions _ _ _ _ _ _ _ Had), lookup_insert_eq in Hrow1.
  injection Hrow1 as <-. apply loaded_numbers in Hl1 as (_ & _ & _ & Hpos1 & _). cbn [setState g_StateVersion createGameSessionParams] in Hpos1.
  pose proof (mo_version _ _ _ Hm) as Ha. rewrite u64_id in Ha by (unfold maxInt64, maxUint64 in *; lia). split; [lia|].
  destruct (decide (StateVersion (s_State a) <= maxInt64)) as [|Hn]; [done|]. exfalso.
  assert (StateVersion (s_State a) = 9223372036854775808) as E by (unfold maxInt64 in *; lia).
  rewrite E in Hpos1. by vm_compute in Hpos1.
Qed.

(** A move that is stored with the receipt of its command. *)
Lemma move_StoreInv b a bt events excluded current stored row t t' :
  StoreInv t -> MoveOK b a bt -> StateVersion (s_State b) <= maxInt64 -> StateVersion (s_State a) <= maxInt64 ->
  loadSession t (s_ID b) = Some current -> freshMove b a bt events excluded current stored row t t' -> kept t t' ->
  br_StateVersion (batchRow bt) = g_StateVersion row + 1 ->
  (br_StateVersion (batchRow bt) = g_StateVersion row + 1 -> accounted t' (b_ID bt) (batchRow bt)) ->
  (forall sid actor act r, action_receipts t' !! (sid, actor, act) = Some r -> action_receipts t !! (sid, actor, act) = Some r \/
     sid = s_ID b /\ br_ActorUserID (batchRow bt) = Some actor /\ br_ActionID (batchRow bt) = Some act /\
     br_StateVersion (batchRow bt) = arr_CommittedStateVersion r) ->
  (forall sid timer v r, timer_receipts t' !! (sid, timer, v) = Some r -> timer_receipts t !! (sid, timer, v) = Some r \/
     trr_BatchID r = Some (b_ID bt) /\ sid = s_ID b /\ br_TimerID (batchRow bt) = Some timer /\ br_StateVersion (batchRow bt) = v + 1) ->
  (forall sid op r id, system_operations t' !! (sid, op) = Some r -> so_BatchID r = Some id ->
     system_operations t !! (sid, op) = Some r \/ id = b_ID bt /\ sid = s_ID b /\ br_SystemOperationID (batchRow bt) = Some op) ->
  StoreInv t'.
Proof.
  intros [Hs Hh Hr] Hm Hwb Hwa Hload (Hcur & _ & Had & Hst) Hkept Hbv Hacc Ha Ht Ho.
  assert (Hbs : br_SessionID (batchRow bt) = Some (s_ID b)) by (unfold batchRow; cbn; by rewrite (mo_session _ _ _ Hm)).
  apply loadSession_row in Hload as (row0 & Hrow0 & Hl). pose proof (ad_row _ _ _ _ _ _ _ Had) as Hrow.
  assert (row0 = row) as -> by congruence.
  destruct (move_numbers _ _ _ _ _ _ _ Hm Hcur Hl (ad_stored_version _ _ _ _ _ _ _ Had) Hwb Hwa) as (Hpos & Hvb & Hva & Hia).
  assert (Eid : s_ID a = s_ID b) by apply (mo_identity _ _ _ Hm). constructor.
  - eapply (SessionsInv_rewrite (s_ID b) row (setState row (createGameSessionParams a))); try done.
    + unfold live. by rewrite (ad_stored_status _ _ _ _ _ _ _ Had).
    + exact (ad_sessions _ _ _ _ _ _ _ Had).
    + intros k Hk. apply (ad_other_timers _ _ _ _ _ _ _ Had). by rewrite Eid.
    + exact (ad_participants _ _ _ _ _ _ _ Had).
    + apply i64_range.
    + exact (proj2 (si_widths _ Hs _ _ Hrow)).
  - eapply (HistoryInv_add (s_ID b) (setState row (createGameSessionParams a)) (b_ID bt) (batchRow bt)); try done.
    + exact (ad_fresh _ _ _ _ _ _ _ Had).
    + rewrite Hbv. cbn. by rewrite Hia.
    + intros id other Hid Hsid. apply (ad_version _ _ _ _ _ _ _ Had id other Hid). by rewrite (mo_session _ _ _ Hm).
    + right. exists row. split_and!; [done| |done]. cbn. by rewrite Hia.
    + exact (ad_sessions _ _ _ _ _ _ _ Had).
    + exact (ad_batches _ _ _ _ _ _ _ Had).
    + exact (ad_other_events _ _ _ _ _ _ _ Had).
  - eapply (ReceiptsInv_add (b_ID bt) (batchRow bt)); try done.
    + exact (ad_fresh _ _ _ _ _ _ _ Had).
    + exact (ad_batches _ _ _ _ _ _ _ Had).
    + by apply Hacc.
    + intros sid actor act r Hx. apply Ha in Hx as [|(-> & ?)]; [by left|by right].
    + intros sid timer v r Hx. apply Ht in Hx as [|(? & -> & ?)]; [by left|by right].
    + intros sid op r id Hx Hid. destruct (Ho _ _ _ _ Hx Hid) as [|(? & -> & ?)]; [by left|by right].
Qed.

Lemma action_StoreInv fault ctxDone commit t n r t' n' :
  StoreInv t -> BatchOK (batch commit) -> ActionCommit_Valid commit = true ->
  commitActionAfterRoomLock fault ctxDone commit (t, n) = Ok (r, (t', n')) -> StoreInv t'.
Proof.
  intros Hinv Hb Hv H. pose proof (st_sessions _ Hinv) as Hs.
  apply commitActionAfterRoomLock_inv in H as (current & Hload & [(_ & -> & _)|(_ & _ & Hnone & Ea & Et & Eo & row & Hf)]); [done| |by apply Hs|done].
  apply ActionCommit_facts in Hv as (Hm & Hc & Esid & Eact & Eop & Ever & _).
  destruct (fresh_versions _ _ _ _ _ _ _ _ _ _ Hs Hm Hload Hf) as [Hwb Hwa].
  assert (Hbv : br_StateVersion (batchRow (batch commit)) = g_StateVersion row + 1).
  { destruct Hf as (Hcur & _ & Had & _). apply loadSession_row in Hload as (row0 & Hrow0 & Hl).
    pose proof (ad_row _ _ _ _ _ _ _ Had) as Hrow. assert (row0 = row) as -> by congruence.
    destruct (move_numbers _ _ _ _ _ _ _ Hm Hcur Hl (ad_stored_version _ _ _ _ _ _ _ Had) Hwb Hwa) as (_ & _ & _ & Hia).
    unfold batchRow. cbn. by rewrite (mo_batch _ _ _ Hm). }
  assert (Hcols := action_columns _ Hb Hc). destruct Hcols as (C1 & C2 & C3 & C4).
  assert (Hrv : arr_CommittedStateVersion (actionReceiptRow (receipt commit)) = br_StateVersion (batchRow (batch commit))).
  { unfold actionReceiptRow, batchRow. cbn. by rewrite Ever, (mo_batch _ _ _ Hm). }
  assert (Hkey : actionKeyOf commit = (s_ID (before commit), b_ActorUserID (batch commit), Value (b_ActionID (batch commit)))).
  { unfold actionKeyOf. by rewrite Eact, Eop. }
  rewrite Hkey in Ea, Hnone. eapply move_StoreInv; [done|done|done|done|done|exact Hf| |done| | | |].
  - constructor; [rewrite Ea; by apply insert_subseteq|by rewrite Et|by rewrite Eo].
  - intros _ sid. unfold batchRow at 1. cbn [br_SessionID]. intros [= <-]. rewrite C1, C2, C3, C4, (mo_session _ _ _ Hm).
    split_and!; [|done|done]. intros actor act [= <-] [= <-]. exists (actionReceiptRow (receipt commit)).
    split; [|exact Hrv]. rewrite Ea. apply lookup_insert_eq.
  - intros sid actor act x. rewrite Ea. intros [[[= <- <- <-] <-]|[_ Hx]]%lookup_insert_Some; [right|by left].
    split_and!; [reflexivity|exact C1|exact C2|by symmetry].
  - rewrite Et. by left.
  - rewrite Eo. by left.
Qed.

(** The version of the batch of a new move follows the row it replaces. *)
Lemma fresh_batch_version b a bt events excluded current stored row t t' :
  MoveOK b a bt -> StateVersion (s_State b) <= maxInt64 -> StateVersion (s_State a) <= maxInt64 ->
  loadSession t (s_ID b) = Some current -> freshMove b a bt events excluded current stored row t t' ->
  br_StateVersion (batchRow bt) = g_StateVersion row + 1 /\ StateVersion (s_State b) = g_StateVersion row.
Proof.
  intros Hm Hwb Hwa Hload (Hcur & _ & Had & _). apply loadSession_row in Hload as (row0 & Hrow0 & Hl).
  pose proof (ad_row _ _ _ _ _ _ _ Had) as Hrow. assert (row0 = row) as -> by congruence.
  destruct (move_numbers _ _ _ _ _ _ _ Hm Hcur Hl (ad_stored_version _ _ _ _ _ _ _ Had) Hwb Hwa) as (_ & Hvb & _ & Hia).
  unfold batchRow. cbn. by rewrite (mo_batch _ _ _ Hm).
Qed.

Lemma timer_StoreInv fault ctxDone current commit t n r t' n' :
  StoreInv t -> BatchOK (batch commit) -> TimerCommit_Valid commit = true ->
  loadSession t (s_ID (before commit)) = Some current ->
  commitTimerAfterSessionLock fault ctxDone current commit (t, n) = Ok (r, (t', n')) -> StoreInv t'.
Proof.
  intros Hinv Hb Hv Hload H. pose proof (st_sessions _ Hinv) as Hs.
  apply commitTimerAfterSessionLock_inv in H as [(_ & -> & _)|(_ & _ & Hnone & Et & Ea & Eo & _ & row & Hf)]; [done| |by apply Hs|done].
  apply TimerCommit_facts in Hv as (Hm & Hc & Esid & Etimer & Eexp & Ever).
  destruct (fresh_versions _ _ _ _ _ _ _ _ _ _ Hs Hm Hload Hf) as [Hwb Hwa].
  destruct (fresh_batch_version _ _ _ _ _ _ _ _ _ _ Hm Hwb Hwa Hload Hf) as [Hbv Hvb].
  destruct (timer_columns _ Hb Hc) as (C1 & C2 & C3).
  assert (Hpos : 0 < g_StateVersion row).
  { destruct Hf as (_ & _ & Had & _). apply loadSession_row in Hload as (row0 & Hrow0 & Hl). pose proof (ad_row _ _ _ _ _ _ _ Had).
    assert (row0 = row) as -> by congruence. apply loaded_numbers in Hl. tauto. }
  assert (Hkey : timerKeyOf commit = (s_ID (before commit), b_TimerID (batch commit), g_StateVersion row)).
  { unfold timerKeyOf. rewrite Etimer, Eexp, Hvb, i64_id by lia. done. }
  rewrite Hkey in Et, Hnone. eapply move_StoreInv; [done|done|done|done|done|exact Hf| |done| | | |].
  - constructor; [by rewrite Ea|rewrite Et; by apply insert_subseteq|by rewrite Eo].
  - intros _ sid. unfold batchRow at 1. cbn [br_SessionID]. intros [= <-]. rewrite C1, C2, C3, (mo_session _ _ _ Hm).
    split_and!; [done| |done]. intros timer [= <-]. exists (timerReceiptRow (receipt commit) (b_ID (batch commit))).
    split; [|reflexivity]. rewrite Et, Hbv. replace (g_StateVersion row + 1 - 1) with (g_StateVersion row) by lia. apply lookup_insert_eq.
  - rewrite Ea. by left.
  - intros sid timer v x. rewrite Et. intros [[[= <- <- <-] <-]|[_ Hx]]%lookup_insert_Some; [right|by left].
    split_and!; [reflexivity|reflexivity|exact C2|exact Hbv].
  - rewrite Eo. by left.
Qed.

Lemma onlyOperation_StoreInv key t t' : StoreInv t -> t' = t \/ onlyOperation key t t' -> StoreInv t'.
Proof.
  intros [Hs Hh Hr] [->|(op & Hold & Hb & ->)]; [by constructor|]. constructor; [by destruct Hs; constructor|by destruct Hh; constructor|].
  eapply ReceiptsInv_same; [done|done|done|done| |]; cbn.
  - intros k r Hk Hst. rewrite lookup_insert_ne; [done|]. intros <-. by rewrite (Hold _ Hk) in Hst.
  - intros k r id [[<- <-]|[_ Hk]]%lookup_insert_Some Hid; [by rewrite Hb in Hid|done].
Qed.

Lemma system_StoreInv fault ctxDone current commit t n r t' n' :
  StoreInv t -> BatchOK (batch commit) -> SystemCommit_Valid commit = true ->
  loadSession t (s_ID (before commit)) = Some current ->
  commitSystemAfterSessionLock fault ctxDone current commit (t, n) = Ok (r, (t', n')) -> StoreInv t'.
Proof.
  intros Hinv Hb Hv Hload H. pose proof (st_sessions _ Hinv) as Hs.
  apply commitSystemAfterSessionLock_inv in H as [(_ & Hframe & _)|(_ & _ & _ & row & t1 & op & Hframe & Hf & Eo & Hop & Hpend & Ea & Et)];
    [by eapply onlyOperation_StoreInv| |by apply Hs|done|done].
  apply SystemCommit_facts in Hv as (Hm & Hc & Esid & Eop & Esrc & Edig & Ever).
  assert (Hinv1 := onlyOperation_StoreInv _ _ _ Hinv Hframe).
  assert (Hsame : loadSession t1 (s_ID (before commit)) = Some current /\ action_receipts t1 = action_receipts t /\ timer_receipts t1 = timer_receipts t).
  { destruct Hframe as [->|(op1 & _ & _ & ->)]; done. }
  destruct Hsame as (Hload1 & Ea1 & Et1). rewrite <- Ea1 in Ea. rewrite <- Et1 in Et. clear Hinv Hs Hload Hframe Ea1 Et1.
  destruct (fresh_versions _ _ _ _ _ _ _ _ _ _ (st_sessions _ Hinv1) Hm Hload1 Hf) as [Hwb Hwa].
  destruct (fresh_batch_version _ _ _ _ _ _ _ _ _ _ Hm Hwb Hwa Hload1 Hf) as [Hbv _].
  destruct (system_columns _ Hb Hc) as (C1 & C2 & C3).
  assert (Hkey : systemKeyOf (RuntimeCommit.sc_Key (receipt commit)) = (s_ID (before commit), Value (b_SystemOperationID (batch commit)))).
  { unfold systemKeyOf. by rewrite Esid, Eop. }
  assert (Hid : b_ID (batch commit) <> Nil).
  { unfold BatchOK, RestoreEventBatch in Hb. inv_results Hb. to_prop. done. }
  assert (Hbid : so_BatchID (completedRow op (receipt commit) (b_ID (batch commit))) = Some (b_ID (batch commit))) by by apply uuid_column.
  rewrite Hkey in Eo, Hop. eapply move_StoreInv; [exact Hinv1|done|done|done|exact Hload1|exact Hf| |done| | | |].
  - constructor; [by rewrite Ea|by rewrite Et|]. intros k x Hk Hst. rewrite Eo, lookup_insert_ne; [done|]. intros <-.
    assert (x = op) as -> by congruence. by rewrite Hpend in Hst.
  - intros _ sid. unfold batchRow at 1. cbn [br_SessionID]. intros [= <-]. rewrite C1, C2, C3, (mo_session _ _ _ Hm).
    split_and!; [done|done|]. intros o [= <-]. exists (completedRow op (receipt commit) (b_ID (batch commit))).
    split_and!; [rewrite Eo; apply lookup_insert_eq|reflexivity|exact Hbid].
  - rewrite Ea. by left.
  - rewrite Et. by left.
  - intros sid o x id. rewrite Eo. intros [[[= <- <-] <-]|[_ Hx]]%lookup_insert_Some Hxid; [right|by left].
    rewrite Hbid in Hxid. injection Hxid as <-. split_and!; [reflexivity|reflexivity|exact C3].
Qed.

(** ** The other operations *)
Lemma reshaped_StoreInv sid row row' t t' s :
  StoreInv t -> reshaped sid row row' t t' -> g_RoomID row' = g_RoomID row -> g_OwnershipEpoch row' <= maxInt64 ->
  loadSession t' sid = Some s -> StoreInv t'.
Proof.
  intros [Hs Hh Hr] [] Eroom Hep Hload. constructor.
  - eapply (SessionsInv_rewrite sid row row'); try done. rewrite re_version0. exact (proj1 (si_widths _ Hs _ _ re_row0)).
  - by eapply (HistoryInv_same sid row row').
  - eapply ReceiptsInv_same; try done; by rewrite re_operations0.
Qed.

Lemma CreationCommit_facts commit : CreationCommit_Valid commit = true ->
  b_Cause (cc_Batch commit) = EventCauseCreated /\ StateVersion (s_State (cc_Session commit)) = 1 /\
  b_SessionID (cc_Batch commit) = s_ID (cc_Session commit) /\ b_StateVersion (cc_Batch commit) = 1 /\ s_ID (cc_Session commit) <> Nil.
Proof.
  intros Hv. unfold CreationCommit_Valid in Hv. cbv zeta in Hv.
  match type of Hv with (if ?c then _ else _) = _ => destruct c end; [done|].
  match type of Hv with (if ?c then _ else _) = _ => destruct c eqn:E end; [done|]. clear Hv. repeat (apply orb_false_iff in E as [E ?]).
  repeat match goal with H : negb _ = false |- _ => apply negb_false_iff in H end. to_prop. done.
Qed.

Lemma created_StoreInv commit stored t t' :
  StoreInv t -> BatchOK (cc_Batch commit) -> CreationCommit_Valid commit = true -> created commit stored t t' -> StoreInv t'.
Proof.
  intros [Hs Hh Hr] Hb (Hcause & Hv1 & Hbs & Hbv & _)%CreationCommit_facts Hc.
  destruct (created_columns _ Hb Hcause) as (C1 & C2 & C3). destruct Hc.
  assert (Hrow1 : g_StateVersion (createGameSessionParams (cc_Session commit)) = 1) by (cbn; by rewrite Hv1).
  assert (Hb1 : br_StateVersion (batchRow (cc_Batch commit)) = 1) by (cbn; by rewrite Hbv).
  assert (Hbsid : br_SessionID (batchRow (cc_Batch commit)) = Some (s_ID (cc_Session commit))) by (cbn; by rewrite Hbs).
  constructor.
  - eapply (SessionsInv_write (s_ID (cc_Session commit)) (createGameSessionParams (cc_Session commit))); try done.
    + intros Hl k row _ Hk Hlk. by eapply cr_one_live0.
    + apply i64_range.
    + apply i64_range.
  - eapply (HistoryInv_add (s_ID (cc_Session commit)) (createGameSessionParams (cc_Session commit)) (b_ID (cc_Batch commit))
      (batchRow (cc_Batch commit))); try done.
    + by rewrite Hb1, Hrow1.
    + intros id other Hid Hsid. rewrite Hb1. intros Hv. by eapply cr_batch_version0; [exact Hid|by rewrite Hbs|rewrite Hbv].
    + by left.
  - eapply (ReceiptsInv_add (b_ID (cc_Batch commit)) (batchRow (cc_Batch commit))); try done.
    + constructor; [by rewrite cr_actions0|by rewrite cr_fired0|by rewrite cr_operations0].
    + intros sid _. rewrite C1, C2, C3. done.
    + rewrite cr_actions0. by left.
    + rewrite cr_fired0. by left.
    + rewrite cr_operations0. by left.
Qed.

(** Tables that agree on everything the invariant is about. *)
Lemma StoreInv_frame t t' : StoreInv t -> game_sessions t' = game_sessions t -> session_participants t' = session_participants t ->
  session_timers t' = session_timers t -> event_batches t' = event_batches t -> action_receipts t' = action_receipts t ->
  timer_receipts t' = timer_receipts t -> system_operations t' = system_operations t -> session_events t' = session_events t ->
  StoreInv t'.
Proof.
  intros [[Hk Hl Hv Hw] [Hg Hu Ho He] Hr] E1 E2 E3 E4 E5 E6 E7 E8. constructor.
  - constructor; unfold rowsKeyed, loadSession, participantsOf, timersOf; rewrite ?E1, ?E2, ?E3; done.
  - constructor; unfold hasBatch, eventsOf; rewrite ?E1, ?E4, ?E8; done.
  - eapply ReceiptsInv_same; try done; by rewrite E7.
Qed.

Lemma store_step_StoreInv t t' : StoreInv t -> store_step t t' -> StoreInv t'.
Proof.
  intros Hinv Hstep. pose proof (si_keyed _ (st_sessions _ Hinv)) as Hk. destruct Hstep.
  - apply Create_inv in H0. destruct out as [stored|]; [|by subst]. destruct H0 as (Hv & _ & Hc). by eapply created_StoreInv.
  - apply AcquireOwnershipCAS_inv in H; [|done]. destruct out as [stored|]; [|by subst].
    destruct H as (Hv & row & Hre & _ & _ & Hep & Hload). eapply reshaped_StoreInv; [done|exact Hre|done| |exact Hload].
    eapply acquired_width; [exact Hv|exact Hep|]. pose proof (re_row _ _ _ _ _ Hre) as Hrow.
    destruct (si_loads _ (st_sessions _ Hinv) _ _ Hrow) as [s Hs]. apply loadSession_row in Hs as (row0 & Hrow0 & Hl).
    assert (row0 = row) as -> by congruence. apply loaded_numbers in Hl. tauto.
  - apply CommitAction_inv in H0; [|done]. destruct out as [r|]; [|by subst]. destruct H0 as (Hv & Hw & _ & n & n' & H0).
    by eapply action_StoreInv.
  - apply CommitTimer_inv in H0; [|done]. destruct out as [r|]; [|by subst]. destruct H0 as (Hv & Hw & current & n & n' & Hload & H0).
    by eapply timer_StoreInv.
  - apply CommitSystem_inv in H0; [|done]. destruct out as [r|]; [|by subst]. destruct H0 as (Hv & Hw & current & n & n' & Hload & H0).
    by eapply system_StoreInv.
  - apply CompleteSystemNoop_inv in H; [|done]. destruct out as [r|]; [|by subst]. destruct H as [Hf _]. by eapply onlyOperation_StoreInv.
  - apply CommitLifecycle_inv in H; [|done]. destruct out as [stored|]; [|by subst]. destruct H as (Hv & current & n & n' & Hload & H).
    apply persistLifecycle_inv in H as (row & Hre & _ & _ & _ & _ & _ & Hl); [|done|done].
    eapply reshaped_StoreInv; [done|exact Hre|done| |exact Hl]. exact (proj2 (si_widths _ (st_sessions _ Hinv) _ _ (re_row _ _ _ _ _ Hre))).
  - apply CompleteSystemInbox_inv in H. destruct out as [r|]; [|by subst]. destruct H as [->|(row & row' & _ & _ & _ & ->)]; [done|].
    by eapply StoreInv_frame.
  - by eapply StoreInv_frame.
  - by eapply StoreInv_frame.
Qed.

Lemma empty_StoreInv : StoreInv emptyTables.
Proof.
  constructor; constructor; cbn; try done.
  all: intros *; try (rewrite lookup_empty; done).
Qed.

Lemma reachable_StoreInv t : store_reachable t -> StoreInv t.
Proof. intros H. apply (rtc_ind_r StoreInv emptyTables empty_StoreInv) in H; [done|]. intros x y _ Hs Hx. by eapply store_step_StoreInv. Qed.

End RuntimeStoreInvariant.
