(* ===== verification/RuntimeStoreRows.v ===== *)
(** * The session repository: rows read back

    The columns written for a session, its participants and its timers hold
    exactly the session, so that what is read back is what was stored. *)

From stdpp Require Import gmap.
From S2P Require Import Prelude GoLib Sha256 Selector GameManifest GameContract Outbox Room RoomStore Runtime RuntimeFacts RuntimeMoves RuntimeCommit RuntimeStore RuntimeQueries RuntimeRepository RuntimeStoreFacts RuntimeStoreEffects RuntimeStoreInvariant.

Module RuntimeStoreRows.
Import GoLib Selector GameManifest GameContract Runtime RuntimeFacts RuntimeMoves RuntimeCommit RuntimeStore RuntimeQueries
  RuntimeRepository RuntimeStoreFacts RuntimeStoreEffects RuntimeStoreInvariant.

(** ** Integers and times *)
Lemma i32_id z : 0 <= z <= maxInt32 -> i32 z = z.
Proof. unfold RoomStore.i32, maxInt32. intros. rewrite Z.mod_small; lia. Qed.

Lemma u32_id z : 0 <= z <= maxInt32 -> u32 z = z.
Proof. unfold u32, maxInt32. intros. rewrite Z.mod_small; lia. Qed.

Lemma u64_i64 z : 0 <= z <= maxInt64 -> u64 (i64 z) = z.
Proof. intros. rewrite i64_id by done. apply u64_id. unfold maxInt64, maxUint64 in *. lia. Qed.

Lemma u32_i32 z : 0 <= z <= maxInt32 -> u32 (i32 z) = z.
Proof. intros. rewrite i32_id by done. by apply u32_id. Qed.

Lemma canonical_truncate t : canonical t -> t <> 0 -> Truncate t Microsecond = t.
Proof. unfold canonical, canonicalRuntimeTime, IsZero. intros H Hn%Z.eqb_neq. by rewrite Hn in H. Qed.

Lemma time_column t : canonical t -> t <> 0 -> timeToPG t = Some t.
Proof.
  intros Hc Hn. unfold RoomStore.timeToPG, IsZero. rewrite (proj2 (Z.eqb_neq _ _) Hn). by rewrite canonical_truncate.
Qed.

Lemma optional_time t : canonical t -> optionalTimeFromPG (optionalTimeToPG t) = t.
Proof.
  intros Hc. unfold RoomStore.optionalTimeToPG, RoomStore.optionalTimeFromPG. destruct (IsZero t) eqn:E.
  - by apply Z.eqb_eq in E.
  - apply Z.eqb_neq in E. by rewrite time_column.
Qed.

Lemma optional_identifier value : default ""%string (optionalIdentifierToPG value) = value.
Proof. unfold optionalIdentifierToPG. destruct (String.eqb_spec value ""); [by subst|done]. Qed.

#[local] Opaque RoomStore.i64 RoomStore.i32 u64 u32.

(** ** What the columns can hold *)

(** A start configuration is absent, or all of it is present: versions that are
    zero are stored as missing. *)
Definition startStorable (start : FrozenStartConfig) : bool :=
  bool_decide (start = noStart) ||
  (Message_Valid (Config start) && (SchemaVersion (Config start) <=? maxInt32) && bool_decide (length (ConfigDigest start) = 32%nat)
   && negb (Digest_eqb (ConfigDigest start) zeroDigest) && (0 <=? ConfigRevision start) && (ConfigRevision start <=? maxInt64)
   && (0 <? f_RoomVersion start) && (f_RoomVersion start <=? maxInt64)
   && (0 <? f_MembershipVersion start) && (f_MembershipVersion start <=? maxInt64)
   && (0 <? RoomOwnershipEpoch start) && (RoomOwnershipEpoch start <=? maxInt64)).

Definition storable (s : SessionSnapshot) : bool :=
  (0 <? StateVersion (s_State s)) && (StateVersion (s_State s) <=? maxInt64)
  && (0 <=? s_OwnershipEpoch s) && (s_OwnershipEpoch s <=? maxInt64)
  && (0 <? SnapshotVersion (s_State s)) && (SnapshotVersion (s_State s) <=? maxInt32)
  && (0 <? SchemaVersion (State (s_State s))) && (SchemaVersion (State (s_State s)) <=? maxInt32)
  && startStorable (s_Start s) && (0 <? s_StartedAt s)
  && forallb (fun p => (0 <=? p_SeatIndex p) && (p_SeatIndex p <=? maxInt32)) (s_Participants s)
  && forallb (fun timer => SchemaVersion (t_Message timer) <=? maxInt32) (s_Timers s).

(** ** Start configurations *)
Lemma start_columns_absent row : g_StartConfigMessageType row = None -> g_StartConfigSchemaVersion row = None ->
  g_StartConfigPayload row = None -> g_StartConfigDigest row = None -> g_StartConfigRevision row = None ->
  g_StartRoomVersion row = None -> g_StartMembershipVersion row = None -> g_StartOwnershipEpoch row = None ->
  frozenStartConfigFromRow row = Ok noStart.
Proof. intros H1 H2 H3 H4 H5 H6 H7 H8. unfold frozenStartConfigFromRow. by rewrite H1, H2, H3, H4, H5, H6, H7, H8. Qed.

Lemma optional_u64 z : 0 < z <= maxInt64 -> optionalUint64ToPG z = Some z.
Proof.
  intros H. unfold optionalUint64ToPG. rewrite (proj2 (Z.eqb_neq z 0)), (proj2 (Z.ltb_ge maxInt64 z)) by lia. cbn.
  by rewrite i64_id by lia.
Qed.

Lemma optional_u32 z : 0 < z <= maxInt32 -> optionalUint32ToPG z = Some z.
Proof.
  intros H. unfold optionalUint32ToPG. rewrite (proj2 (Z.eqb_neq z 0)), (proj2 (Z.ltb_ge maxInt32 z)) by lia. cbn.
  by rewrite i32_id by lia.
Qed.

Lemma identifier_nonempty value : identifierOk value = true -> optionalIdentifierToPG value = Some value.
Proof.
  intros H. unfold optionalIdentifierToPG. destruct (String.eqb_spec value "") as [->|]; [by vm_compute in H|done].
Qed.

(** The start columns of a row agree with those written for a session. *)
Definition sameStartColumns (row written : GameSessionRow) : Prop :=
  g_StartConfigMessageType row = g_StartConfigMessageType written /\ g_StartConfigSchemaVersion row = g_StartConfigSchemaVersion written /\
  g_StartConfigPayload row = g_StartConfigPayload written /\ g_StartConfigDigest row = g_StartConfigDigest written /\
  g_StartConfigRevision row = g_StartConfigRevision written /\ g_StartRoomVersion row = g_StartRoomVersion written /\
  g_StartMembershipVersion row = g_StartMembershipVersion written /\ g_StartOwnershipEpoch row = g_StartOwnershipEpoch written.

Lemma start_roundtrip s row :
  startStorable (s_Start s) = true -> sameStartColumns row (createGameSessionParams s) ->
  frozenStartConfigFromRow row = Ok (s_Start s).
Proof.
  intros Hs (E1 & E2 & E3 & E4 & E5 & E6 & E7 & E8).
  cbn [createGameSessionParams g_StartConfigMessageType g_StartConfigSchemaVersion g_StartConfigPayload g_StartConfigDigest
    g_StartConfigRevision g_StartRoomVersion g_StartMembershipVersion g_StartOwnershipEpoch] in *.
  unfold startStorable in Hs. apply orb_true_iff in Hs as [Hz|Hs].
  - apply bool_decide_eq_true in Hz. rewrite Hz in *. by apply start_columns_absent.
  - to_prop. destruct (s_Start s) as [config digest revision room membership epoch].
    cbn [Config ConfigDigest ConfigRevision f_RoomVersion f_MembershipVersion RoomOwnershipEpoch] in *.
    match goal with H : Message_Valid config = true |- _ => pose proof H as Hm; unfold Message_Valid in H; to_prop end.
    rewrite Hm in E3. rewrite identifier_nonempty in E1 by done. rewrite optional_u32 in E2 by lia. rewrite optional_u64 in E6, E7, E8 by lia.
    assert (Hd : Digest_eqb digest zeroDigest = false) by done.
    unfold startConfigRevisionToPG in E5. cbn [Config ConfigDigest ConfigRevision f_RoomVersion f_MembershipVersion RoomOwnershipEpoch] in E5.
    rewrite Hm in E5. rewrite (proj2 (Z.ltb_ge maxInt64 revision)) in E5 by lia. cbn [negb andb] in E5. rewrite i64_id in E5 by lia.
    rewrite Hd in E4. cbn [negb optionalDigestBytes optionalBytea] in E3, E4.
    assert (Hlen : len digest =? 32 = true) by (apply Z.eqb_eq; unfold len; lia).
    unfold frozenStartConfigFromRow. rewrite E1, E2, E3, E4, E5, E6, E7, E8.
    change (default [] (Some digest)) with digest. change (default [] (Some (Payload config))) with (Payload config).
    rewrite Hlen, bool_decide_true by done. cbn [orb negb].
    rewrite !u64_id by (unfold maxInt64, maxUint64 in *; lia). rewrite u32_id by lia. by destruct config.
Qed.

(** ** Participants and timers *)
#[global] Instance timer_before_trans : Transitive timer_before.
Proof. intros x y z. unfold timer_before. apply (transitivity (R := String.le)). Qed.
#[global] Instance timer_before_total : Total timer_before.
Proof. intros x y. unfold timer_before. apply (total String.le). Qed.
#[global] Instance participant_before_trans : Transitive participant_before.
Proof. intros x y z [H1|[H1 H1']] [H2|[H2 H2']]; unfold participant_before; lia. Qed.
#[global] Instance participant_before_total : Total participant_before.
Proof. intros x y. unfold participant_before. lia. Qed.

Lemma map_result_fmap {A B C} (f : B -> result RuntimeError C) (g : A -> B) (h : A -> C) l :
  (forall x, x ∈ l -> f (g x) = Ok (h x)) -> map_result f (g <$> l) = Ok (h <$> l).
Proof.
  induction l as [|a l IH]; intros H; [done|]. rewrite !fmap_cons. cbn [map_result]. rewrite H by constructor. cbn [bind_result].
  rewrite IH; [done|]. intros x Hx. apply H. by constructor.
Qed.

(** The timers of a session, stored in any order, are read back in theirs. *)
Lemma timers_roundtrip sid version timers :
  TimersOK version timers -> 0 < version <= maxInt64 -> forallb (fun timer => SchemaVersion (t_Message timer) <=? maxInt32) timers = true ->
  map_result (timerFromRow sid) (merge_sort timer_before (timerRow sid <$> timers)) = Ok timers.
Proof.
  intros [HF HN Hs] Hv Hw.
  assert (Hsort : merge_sort timer_before (timerRow sid <$> timers) = timerRow sid <$> timers).
  { apply merge_sort_fixed; [apply _..| |].
    - intros x y (tx & -> & Hx)%list_elem_of_fmap (ty & -> & Hy)%list_elem_of_fmap H1 H2. f_equal.
      apply (NoDup_fmap_inj t_TimerID timers); try done. by apply (anti_symm String.le).
    - clear HF HN Hw. induction Hs as [|x l Hs IH Hx]; rewrite ?fmap_nil, ?fmap_cons; constructor; [done|].
      apply Forall_fmap. eapply Forall_impl; [exact Hx|]. done. }
  rewrite Hsort. etransitivity; [apply (map_result_fmap _ _ id)|by rewrite list_fmap_id]. intros timer Hin.
  rewrite Forall_forall in HF. destruct (HF timer Hin) as (_ & Hver & Hdue & Hcan & Hmsg).
  apply (proj1 (forallb_forall _ _)) with (x := timer) in Hw; [|by apply list_elem_of_In]. apply Z.leb_le in Hw.
  unfold Message_Valid in Hmsg. to_prop. unfold timerFromRow, timerRow, RoomStore.uuidToPG.
  cbn [tr_SessionID tr_DueAt tr_TimerID tr_ExpectedStateVersion tr_MessageType tr_SchemaVersion tr_Payload].
  rewrite time_column by done. rewrite Z.eqb_refl, Hver. cbn [negb orb].
  rewrite i64_id, i32_id by lia. rewrite !(proj2 (Z.leb_gt _ _)) by lia. cbn [orb].
  rewrite u64_id by (unfold maxInt64, maxUint64 in *; lia). rewrite u32_id by lia.
  destruct timer as [id ver due [mt sv pl]]. cbn in *. by subst.
Qed.

Lemma participants_roundtrip sid participants :
  ParticipantsOK participants -> forallb (fun p => (0 <=? p_SeatIndex p) && (p_SeatIndex p <=? maxInt32)) participants = true ->
  map_result (participantFromRow sid) (merge_sort participant_before (participantRow sid <$> participants)) = Ok participants.
Proof.
  intros [_ _ HN Hs] Hw. rewrite forallb_forall in Hw.
  assert (Hseat : forall p, p ∈ participants -> i32 (p_SeatIndex p) = p_SeatIndex p /\ 0 <= p_SeatIndex p <= maxInt32).
  { intros p Hp%list_elem_of_In. apply Hw in Hp. to_prop. split; [by apply i32_id|done]. }
  assert (Hsort : merge_sort participant_before (participantRow sid <$> participants) = participantRow sid <$> participants).
  { apply merge_sort_fixed; [apply _..| |].
    - intros x y (px & -> & Hx)%list_elem_of_fmap (py & -> & Hy)%list_elem_of_fmap H1 H2. f_equal.
      apply (NoDup_fmap_inj p_SeatIndex participants); try done. destruct (Hseat _ Hx) as [Ex _], (Hseat _ Hy) as [Ey _].
      unfold participant_before, participantRow in H1, H2. cbn [pr_SeatIndex pr_UserID] in H1, H2. rewrite Ex, Ey in H1, H2. lia.
    - clear Hw. induction Hs as [|x l Hs IH Hx]; rewrite ?fmap_nil, ?fmap_cons; constructor.
      + rewrite fmap_cons, NoDup_cons in HN. apply IH; [tauto|]. intros p Hp. apply Hseat. by constructor.
      + apply Forall_fmap, Forall_forall. intros y Hy. rewrite Forall_forall in Hx. cbn. left. cbn [participantRow pr_SeatIndex].
        rewrite (proj1 (Hseat x (list_elem_of_here _ _))), (proj1 (Hseat y (list_elem_of_further _ _ _ Hy))).
        destruct (Hx y Hy) as [|[E _]]; [done|]. rewrite fmap_cons, NoDup_cons in HN. destruct HN as [Hn _]. exfalso. apply Hn.
        rewrite E. by apply list_elem_of_fmap_2. }
  rewrite Hsort. etransitivity; [apply (map_result_fmap _ _ id)|by rewrite list_fmap_id]. intros p Hp. destruct (Hseat p Hp) as [E ?].
  unfold participantFromRow, participantRow. cbn [pr_SessionID pr_UserID pr_SeatIndex RoomStore.uuidToPG].
  unfold RoomStore.uuidToPG. rewrite E, Z.eqb_refl, (proj2 (Z.ltb_ge _ _)) by lia. cbn. rewrite u32_id by lia. by destruct p.
Qed.

(** ** Sessions *)

(** A valid session restored from another start time of the same microsecond and
    its participants in any order. *)
Lemma RestoreSession_variant a started participants :
  SessionOK a -> canonicalRuntimeTime started = s_StartedAt a -> canonicalParticipants participants = Ok (s_Participants a) ->
  RestoreSession (a <| s_StartedAt := started |> <| s_Participants := participants |>) = Ok a.
Proof.
  intros Hok Hst Hp. pose proof (SessionOK_restores _ Hok) as H.
  apply RestoreSession_Ok in H as (reason & start & parts & timers & H1 & H2 & H3 & H4 & H5 & H6 & H7 & H8).
  apply canonicalRoster_Ok in Hp as Hperm. destruct Hperm as [_ Hperm].
  assert (parts = s_Participants a) as -> by (rewrite H8; reflexivity).
  assert (Hres : restoring (a <| s_StartedAt := started |> <| s_Participants := participants |>) reason start =
    (restoring a reason start) <| s_Participants := participants |>).
  { assert (Hca : canonicalRuntimeTime (s_StartedAt a) = s_StartedAt a) by (rewrite <- Hst; apply canonicalRuntimeTime_canonical).
    unfold restoring. destruct a. cbn in *. by rewrite Hst, Hca. }
  apply RestoreSession_Ok. exists reason, start, (s_Participants a), timers. rewrite Hres. split_and!; try done.
  - rewrite <- H3. rewrite <- (headerInvalid_perm (restoring a reason start) participants (s_Timers a)); [reflexivity| |reflexivity].
    by symmetry.
Qed.

Lemma SessionOK_times s : SessionOK s -> 0 < s_StartedAt s ->
  timeToPG (s_StartedAt s) = Some (s_StartedAt s) /\ timeToPG (s_UpdatedAt s) = Some (s_UpdatedAt s) /\
  optionalTimeFromPG (optionalTimeToPG (s_NextDeadlineAt s)) = s_NextDeadlineAt s /\
  optionalTimeFromPG (optionalTimeToPG (s_SuspendedAt s)) = s_SuspendedAt s /\
  optionalTimeFromPG (optionalTimeToPG (s_EndedAt s)) = s_EndedAt s.
Proof.
  intros Hok Hpos. pose proof (so_times _ Hok) as Ht. rewrite !Forall_cons in Ht. destruct Ht as (T1 & T2 & T3 & T4 & T5 & _).
  pose proof (so_header _ Hok) as Hh. unfold headerInvalid, Before in Hh. to_prop.
  split_and!; [apply time_column; [done|lia]|apply time_column; [done|lia]|by apply optional_time..].
Qed.

Lemma map_result_length {E A B} (f : A -> result E B) l ys : map_result f l = Ok ys -> length ys = length l.
Proof. intros H%map_result_Ok. by symmetry; eapply Forall2_length. Qed.

(** Rows that hold the columns written for a valid session, its identity and
    participants apart, which any rows of the same identity may hold. *)
Lemma columns_roundtrip a row ps parts started :
  SessionOK a -> storable a = true ->
  g_SessionID row = Some (s_ID a) -> g_RoomID row = Some (s_RoomID a) ->
  mkVersionKey (g_GameID row) (g_EngineVersion row) (g_ProtocolVersion row) (g_ClientVersion row) = s_VersionKey a ->
  g_StartedAt row = Some started -> canonicalRuntimeTime started = s_StartedAt a ->
  0 <= g_OwnershipEpoch row -> u64 (g_OwnershipEpoch row) = s_OwnershipEpoch a ->
  map_result (participantFromRow (s_ID a)) ps = Ok parts -> canonicalParticipants parts = Ok (s_Participants a) ->
  sessionFromRows (setState row (createGameSessionParams a)) ps (merge_sort timer_before (timerRow (s_ID a) <$> s_Timers a)) = Ok a.
Proof.
  intros Hok Hs Eid Eroom Ekey Est Hst Hep Eep Hps Hparts. pose proof Hs as Hstorable. unfold storable in Hs. to_prop.
  assert (Hlen : ((len ps =? 0) || (MaximumParticipants <? len ps)) = false).
  { pose proof (so_header _ Hok) as Hh. unfold headerInvalid in Hh. apply map_result_length in Hps.
    apply canonicalRoster_Ok in Hparts as [_ Hperm%Permutation_length]. unfold len in *. to_prop. apply orb_false_iff.
    split; [apply Z.eqb_neq|apply Z.ltb_ge]; lia. }
  destruct (SessionOK_times _ Hok) as (T1 & T2 & T3 & T4 & T5); [done|].
  unfold sessionFromRows. cbn [setState createGameSessionParams g_SessionID g_RoomID g_StartedAt g_UpdatedAt g_StateVersion g_OwnershipEpoch
    g_SnapshotVersion g_StateSchemaVersion g_GameID g_EngineVersion g_ProtocolVersion g_ClientVersion g_StateMessageType g_StatePayload
    g_NextDeadlineAt g_Status g_SuspendedAt g_EndedAt g_CancelReason].
  rewrite Eid, Eroom, Est, T2, Hlen, Hps. rewrite i64_id, !i32_id by lia.
  rewrite !(proj2 (Z.leb_gt _ _)), (proj2 (Z.ltb_ge _ _)) by lia. cbn [orb bind_result].
  rewrite (timers_roundtrip _ (StateVersion (s_State a))); [|apply Hok|lia|done]. cbn [bind_result].
  rewrite (start_roundtrip a); [|done|by split_and!]. cbn [bind_result].
  rewrite T3, T4, T5, optional_identifier, Ekey, Eep, u64_id by (unfold maxInt64, maxUint64 in *; lia). rewrite !u32_id by lia.
  rewrite <- (RestoreSession_variant a started parts) by done. destruct a as [? ? ? ? ? ? [? ? []] ? ? ? ? ? ? ? ?]. reflexivity.
Qed.

(** The columns a move writes for its result, read with the participants of the
    session before, are the result. *)
Lemma move_roundtrip b a row ps ts :
  sessionFromRows row ps ts = Ok b -> SameIdentity b a -> s_OwnershipEpoch a = s_OwnershipEpoch b -> SessionOK a -> storable a = true ->
  sessionFromRows (setState row (createGameSessionParams a)) ps (merge_sort timer_before (timerRow (s_ID a) <$> s_Timers a)) = Ok a.
Proof.
  intros Hb (I1 & I2 & I3 & I4 & I5 & I6) He Hok Hs.
  apply sessionFromRows_Ok in Hb as (id & roomID & started & updated & parts & timers & start & E1 & E2 & E3 & E4 & V1 & V2 & V3 & V4 & Hp & _ & _ & Hr).
  apply RestoreSession_Restored in Hr. destruct Hr. cbn in *. apply (columns_roundtrip a row ps parts started); try done; congruence.
Qed.

(** The columns written for a new session. *)
Lemma creation_roundtrip s :
  SessionOK s -> storable s = true ->
  sessionFromRows (createGameSessionParams s) (merge_sort participant_before (participantRow (s_ID s) <$> s_Participants s))
    (merge_sort timer_before (timerRow (s_ID s) <$> s_Timers s)) = Ok s.
Proof.
  intros Hok Hs. pose proof Hs as Hst. unfold storable in Hst. to_prop.
  destruct (SessionOK_times _ Hok) as (T1 & _); [done|].
  change (createGameSessionParams s) with (setState (createGameSessionParams s) (createGameSessionParams s)).
  pose proof (so_times _ Hok) as Ht. rewrite !Forall_cons in Ht. destruct Ht as (Hc & _).
  apply (columns_roundtrip s _ _ (s_Participants s) (s_StartedAt s)); try done; cbn [createGameSessionParams g_OwnershipEpoch g_GameID g_EngineVersion
    g_ProtocolVersion g_ClientVersion].
  - by destruct (s_VersionKey s).
  - rewrite i64_id by lia. lia.
  - apply u64_i64. lia.
  - apply participants_roundtrip; [apply Hok|done].
  - apply canonicalParticipants_fixed, Hok.
Qed.

End RuntimeStoreRows.
