(* ===== verification/RuntimeStoreProgress.v ===== *)
(** * The session repository: commits that go through

    Without faults, a valid commit on the session as it is stored succeeds: every
    statement of its transaction finds the rows it needs and no key is taken. *)

From stdpp Require Import gmap.
From S2P Require Import Prelude GoLib Sha256 Selector GameManifest GameContract Outbox Room RoomStore Runtime RuntimeFacts RuntimeMoves RuntimeCommit RuntimeStore RuntimeQueries RuntimeRepository RuntimeStoreFacts RuntimeStoreEffects RuntimeStoreInvariant RuntimeStoreRows.

Module RuntimeStoreProgress.
Import GoLib Selector GameManifest GameContract Runtime RuntimeFacts RuntimeMoves RuntimeCommit RuntimeStore RuntimeQueries
  RuntimeRepository RuntimeStoreFacts RuntimeStoreEffects RuntimeStoreInvariant RuntimeStoreRows.

Definition noFault : nat -> option DbError := fun _ => None.

(** ** Transactions *)
Lemma bind_ok {A B} (m : tx A) (f : A -> tx B) s a s' : m s = Ok (a, s') -> tx_bind m f s = f a s'.
Proof. unfold tx_bind. intros ->. done. Qed.

Lemma statement_ok {A} (f : Tables -> result DbError (A * Tables)) t n a t' :
  f t = Ok (a, t') -> statement noFault f (t, n) = Ok (a, (t', S n)).
Proof. unfold statement, noFault. intros ->. done. Qed.

Lemma query_ok {A} (f : Tables -> A) t n : query noFault f (t, n) = Ok (f t, (t, S n)).
Proof. by apply statement_ok. Qed.

Lemma one_ok {A} (q : tx (option A)) s a s' : q s = Ok (Some a, s') -> one q s = Ok (a, s').
Proof. intros H. unfold one. by rewrite (bind_ok _ _ _ _ _ H). Qed.

Lemma one_or_ok {A} (q : tx (option A)) e s a s' : q s = Ok (Some a, s') -> one_or q e s = Ok (a, s').
Proof. intros H. unfold one_or. by rewrite (bind_ok _ _ _ _ _ H). Qed.

Lemma run_ok {A} noRows (work : tx A) t a t' n :
  work (t, 1%nat) = Ok (a, (t', n)) -> finish noRows (RuntimeQueries.Run noFault work t) = (Ok a, t').
Proof. intros H. unfold RuntimeQueries.Run. cbn [noFault]. by rewrite H. Qed.

(** ** Children *)
Lemma existsb_false {A} (f : A -> bool) l : (forall x, x ∈ l -> f x = false) -> existsb f l = false.
Proof.
  intros H. apply not_true_iff_false. intros (x & Hx & Hf)%existsb_exists. rewrite H in Hf; [done|by apply list_elem_of_In].
Qed.

Lemma createTimers_ok sid timers t n :
  NoDup ((tr_TimerID <$> timersOf t sid) ++ (t_TimerID <$> timers)) ->
  exists t' n', createTimers noFault sid timers (t, n) = Ok (tt, (t', n')).
Proof.
  revert t n. induction timers as [|timer timers IH]; intros t n HN; cbn [createTimers]; [by eexists _, _|].
  unfold CreateGameSessionTimer. erewrite bind_ok; [|apply statement_ok].
  2:{ rewrite existsb_false; [reflexivity|]. intros other Ho. apply eqb_string_false. intros E. rewrite fmap_cons in HN.
      apply NoDup_app in HN as (_ & Hd & _). eapply Hd; [apply list_elem_of_fmap_2, Ho|]. rewrite E. cbn. constructor. }
  apply IH. unfold timersOf. cbn. rewrite lookup_insert_eq. cbn. rewrite fmap_app. cbn. by rewrite <- app_assoc.
Qed.

Lemma replaceGameSessionTimers_ok sid timers t n :
  NoDup (t_TimerID <$> timers) -> exists t' n', replaceGameSessionTimers noFault sid timers (t, n) = Ok (tt, (t', n')).
Proof.
  intros HN. unfold replaceGameSessionTimers, DeleteGameSessionTimers. erewrite bind_ok; [|by apply statement_ok].
  apply createTimers_ok. unfold timersOf. cbn. rewrite lookup_delete_eq. done.
Qed.

Lemma createEvents_ok bid index events t n :
  0 <= index -> index + len events <= maxInt32 -> Forall (fun row => er_EventOrdinal row < index) (eventsOf t bid) ->
  exists t' n', createEvents noFault bid index events (t, n) = Ok (tt, (t', n')).
Proof.
  revert t n index. induction events as [|event events IH]; intros t n index Hpos Hmax HF; cbn [createEvents]; [by eexists _, _|].
  unfold len in Hmax. cbn [length] in Hmax. unfold CreateGameSessionEvent. erewrite bind_ok; [|apply statement_ok].
  2:{ rewrite existsb_false; [reflexivity|]. intros other Ho. rewrite Forall_forall in HF. specialize (HF _ Ho).
      cbn [eventRow er_EventOrdinal]. rewrite i32_id by lia. apply Z.eqb_neq. lia. }
  apply IH; [lia|unfold len; lia|]. unfold eventsOf. cbn. rewrite lookup_insert_eq. cbn. apply Forall_app. split.
  - eapply Forall_impl; [exact HF|]. intros row. cbn. lia.
  - constructor; [|done]. cbn [eventRow er_EventOrdinal]. rewrite i32_id; lia.
Qed.

Lemma insertGameSessionBatch_ok bt t n :
  event_batches t !! b_ID bt = None -> eventsOf t (b_ID bt) = [] -> len (b_Events bt) <= maxInt32 ->
  (forall id row, event_batches t !! id = Some row -> br_SessionID row = Some (b_SessionID bt) ->
     br_StateVersion row <> br_StateVersion (batchRow bt) /\
     (forall actor act, br_ActorUserID (batchRow bt) = Some actor -> br_ActionID (batchRow bt) = Some act ->
        br_ActorUserID row = Some actor -> br_ActionID row <> Some act)) ->
  exists t' n', insertGameSessionBatch noFault bt (t, n) = Ok (tt, (t', n')).
Proof.
  intros Hfresh Hev Hmax Hother. unfold insertGameSessionBatch, CreateGameSessionEventBatch. erewrite bind_ok; [|apply statement_ok].
  2:{ cbv zeta. change (default Nil (br_BatchID (batchRow bt))) with (b_ID bt). rewrite bool_decide_false by (rewrite Hfresh; by intros [? ?]).
      rewrite existsb_false; [reflexivity|]. intros [id row] Hin%elem_of_map_to_list. cbn [snd]. case_bool_decide as Hs; [|done].
      destruct (Hother id row Hin Hs) as [Hv Ha]. rewrite (proj2 (Z.eqb_neq _ _) Hv). cbn [orb andb].
      apply not_true_iff_false. intros Hc. to_prop. destruct (br_ActorUserID (batchRow bt)) as [actor|], (br_ActionID (batchRow bt)) as [act|].
      all: repeat match goal with H : is_Some None |- _ => by destruct H end. by eapply Ha. }
  apply createEvents_ok; [lia|lia|]. unfold eventsOf in *. cbn. by rewrite Hev.
Qed.

Lemma insertGameActionReceipt_ok r t n :
  action_receipts t !! (ak_SessionID (ac_Key r), ak_ActorUserID (ac_Key r), Value (ak_ActionID (ac_Key r))) = None ->
  exists t' n', insertGameActionReceipt noFault r (t, n) = Ok (tt, (t', n')).
Proof.
  intros Hn. unfold insertGameActionReceipt, CreateGameActionReceipt. erewrite bind_ok; [by eexists _, _|]. apply one_ok, statement_ok.
  cbn [actionReceiptRow arr_ActionID]. rewrite bool_decide_false; [reflexivity|]. rewrite Hn. by intros [? ?].
Qed.

(** ** The outbox *)

(** An event as [NewEvent] makes it, after the year 1. *)
Definition eventOK (event : Outbox.Event) : Prop :=
  Outbox.restoreEvent event false = Ok event /\ 0 < Outbox.e_CreatedAt event.

(** The row of an event restores to it, with its place in the outbox. *)
Lemma event_roundtrip event k : eventOK event -> 0 < k <= maxInt64 ->
  outboxEventFromRow (outboxRow k event) = Ok (event <| Outbox.e_Sequence := k |>).
Proof.
  intros [H Hpos] Hk. unfold Outbox.restoreEvent in H. cbv zeta in H. inv_result H. injection H as Hev.
  assert (Hc : canonical (Outbox.e_CreatedAt event)) by (unfold canonical; rewrite <- Hev at 2; reflexivity).
  assert (Ha : canonical (Outbox.e_AvailableAt event)) by (unfold canonical; rewrite <- Hev at 2; reflexivity).
  cbn [update Outbox.event_eta Outbox.e_Sequence Outbox.e_ID Outbox.e_Type Outbox.e_AggregateType Outbox.e_AggregateID Outbox.e_Payload
    Outbox.e_CreatedAt Outbox.e_AvailableAt] in E.
  change (Outbox.canonicalTime (Outbox.e_CreatedAt event)) with (canonicalRuntimeTime (Outbox.e_CreatedAt event)) in E.
  change (Outbox.canonicalTime (Outbox.e_AvailableAt event)) with (canonicalRuntimeTime (Outbox.e_AvailableAt event)) in E.
  rewrite Hc, Ha in E. unfold Before, IsZero in E. to_prop.
  unfold outboxEventFromRow, outboxRow. cbn [oe_EventSequence oe_EventID oe_EventType oe_AggregateType oe_AggregateID oe_Payload oe_CreatedAt
    oe_AvailableAt RoomStore.uuidToPG]. unfold RoomStore.uuidToPG. rewrite !time_column by (done || lia).
  rewrite (proj2 (Z.leb_gt _ _)) by lia. unfold Outbox.NewSequence, Outbox.ParseEventType, Outbox.ParseAggregateType.
  rewrite (proj2 (Z.ltb_ge _ _)) by lia.
  repeat match goal with H : Outbox.EventType_Valid _ = true |- _ => rewrite H | H : Outbox.AggregateType_Valid _ = true |- _ => rewrite H end.
  cbn [negb]. rewrite u64_id by (unfold maxInt64, maxUint64 in *; lia). unfold Outbox.RestoreEvent, Outbox.restoreEvent, Outbox.Sequence_Valid.
  cbn [update Outbox.event_eta Outbox.e_Sequence Outbox.e_ID Outbox.e_Type Outbox.e_AggregateType Outbox.e_AggregateID Outbox.e_Payload
    Outbox.e_CreatedAt Outbox.e_AvailableAt].
  change (Outbox.canonicalTime (Outbox.e_CreatedAt event)) with (canonicalRuntimeTime (Outbox.e_CreatedAt event)).
  change (Outbox.canonicalTime (Outbox.e_AvailableAt event)) with (canonicalRuntimeTime (Outbox.e_AvailableAt event)).
  rewrite Hc, Ha, (proj2 (Z.leb_le k maxInt64)) by done. unfold Before, IsZero.
  repeat match goal with H : Outbox.EventType_Valid _ = true |- _ => rewrite H | H : Outbox.AggregateType_Valid _ = true |- _ => rewrite H end.
  rewrite !(proj2 (Z.eqb_neq _ _)), !(proj2 (Z.ltb_ge _ _)) by (done || lia). reflexivity.
Qed.

Lemma OutboxInsert_ok event t n :
  eventOK event -> 0 < outbox_next t <= maxInt64 -> outbox t !! Outbox.e_ID event = None ->
  OutboxInsert noFault false event (t, n) =
    Ok (event <| Outbox.e_Sequence := outbox_next t |>,
        (t <| outbox := <[Outbox.e_ID event := outboxRow (outbox_next t) event]> (outbox t) |> <| outbox_next := outbox_next t + 1 |>, S n)).
Proof.
  intros Hok Hk Hn. unfold OutboxInsert.
  assert (Hz : Outbox.e_Sequence event =? 0 = true).
  { destruct Hok as [H _]. unfold Outbox.restoreEvent in H. cbv zeta in H. inv_result H. cbn [andb negb] in E. repeat (apply orb_false_iff in E as [E ?]).
    match goal with H : negb _ = false |- _ => by apply negb_false_iff in H end. }
  rewrite Hz. cbn [negb]. erewrite bind_ok.
  2:{ unfold tx_map_err, CreateOutboxEvent. erewrite statement_ok; [reflexivity|]. rewrite bool_decide_false; [reflexivity|].
      rewrite Hn. by intros [? ?]. }
  cbv iota beta. by rewrite event_roundtrip.
Qed.

Lemma insertGameSessionOutbox_ok events t n :
  Forall eventOK events -> 0 < outbox_next t -> outbox_next t + len events <= maxInt64 ->
  NoDup (Outbox.e_ID <$> events) -> Forall (fun event => outbox t !! Outbox.e_ID event = None) events ->
  exists t' n', insertGameSessionOutbox noFault false events (t, n) = Ok (tt, (t', n')).
Proof.
  revert t n. induction events as [|event events IH]; intros t n HF Hpos Hmax HN Hfresh; cbn [insertGameSessionOutbox]; [by eexists _, _|].
  unfold len in *. cbn [length] in Hmax. apply Forall_cons in HF as [H1 HF], Hfresh as [H2 Hfresh]. rewrite fmap_cons, NoDup_cons in HN.
  destruct HN as [Hn HN]. erewrite bind_ok; [|apply OutboxInsert_ok; [done|lia|done]]. apply IH; try done; cbn; [lia|lia|].
  rewrite Forall_forall in *. intros e He. rewrite lookup_insert_ne; [by apply Hfresh|]. intros E. apply Hn. rewrite E. by apply list_elem_of_fmap_2.
Qed.

(** ** Reading and replacing the session *)
Lemma sessionFromUpdatedRow_ok row t n s sid :
  g_SessionID row = Some sid ->
  sessionFromRows row (merge_sort participant_before (participantsOf t sid)) (merge_sort timer_before (timersOf t sid)) = Ok s ->
  exists n', sessionFromUpdatedRow noFault row (t, n) = Ok (s, (t, n')).
Proof.
  intros Hid H. unfold sessionFromUpdatedRow. rewrite Hid. erewrite bind_ok by apply query_ok. erewrite bind_ok by apply query_ok.
  exists (S (S n)). cbv beta. change (default Nil (Some sid)) with sid. by rewrite H.
Qed.

Lemma getGameSessionForUpdate_ok sid t n s :
  rowsKeyed t -> loadSession t sid = Some s -> exists n', getGameSessionForUpdate noFault sid (t, n) = Ok (s, (t, n')).
Proof.
  intros Hk (row & Hrow & Hs)%loadSession_row. unfold getGameSessionForUpdate. erewrite bind_ok.
  2:{ apply one_ok. unfold GetGameSessionForUpdate. rewrite query_ok, Hrow. reflexivity. }
  apply (sessionFromUpdatedRow_ok row t _ s sid); [by apply Hk|done].
Qed.

Lemma rejectTerminal_ok a excluded t n :
  (Terminal (s_Status a) = true -> forall source row, system_inbox t !! (s_ID a, source) = Some row ->
     ir_Status row = SystemInboxPending -> excluded <> Nil /\ source = excluded) ->
  exists n', rejectTerminalWithPendingSystemInbox noFault a excluded (t, n) = Ok (tt, (t, n')).
Proof.
  intros H. unfold rejectTerminalWithPendingSystemInbox. destruct (Terminal (s_Status a)); cbn [negb]; [|by eexists].
  unfold HasPendingGameSystemInbox. erewrite bind_ok by apply query_ok. rewrite existsb_false; [by eexists|].
  intros [[sid source] row] Hin%elem_of_map_to_list. cbn [fst snd]. apply not_true_iff_false. intros Hc. to_prop.
  subst sid. destruct (H eq_refl source row) as [Hne ->]; [done|done|]. rewrite uuid_column in * by done.
  by match goal with H : negb (_ =? _) = true |- _ => rewrite Z.eqb_refl in H end.
Qed.

(** The row a session was loaded from has its numbers. *)
Lemma loaded_row t sid s : SessionsInv t -> loadSession t sid = Some s ->
  exists row, game_sessions t !! sid = Some row /\ g_SessionID row = Some sid /\
    sessionFromRows row (merge_sort participant_before (participantsOf t sid)) (merge_sort timer_before (timersOf t sid)) = Ok s /\
    g_StateVersion row = StateVersion (s_State s) /\ g_OwnershipEpoch row = s_OwnershipEpoch s /\ g_Status row = s_Status s /\
    s_ID s = sid /\ 0 < g_StateVersion row <= maxInt64 /\ 0 <= g_OwnershipEpoch row <= maxInt64.
Proof.
  intros Hs (row & Hrow & Hl)%loadSession_row. exists row. pose proof (si_keyed _ Hs _ _ Hrow) as Hk.
  destruct (si_widths _ Hs _ _ Hrow) as [W1 W2]. destruct (loaded_numbers _ _ _ _ Hl) as (N1 & N2 & N3 & N4 & N5 & N6).
  rewrite u64_id in N1, N2 by (unfold maxInt64, maxUint64 in *; lia). split_and!; try done; try lia. congruence.
Qed.

(** The writes every move starts with: the session row, its timers, the batch. *)
Lemma persist_ok b a bt t n row :
  StoreInv t -> MoveOK b a bt -> SessionOK a -> loadSession t (s_ID b) = Some b -> game_sessions t !! s_ID b = Some row ->
  StateVersion (s_State a) <= maxInt64 ->
  event_batches t !! b_ID bt = None -> len (b_Events bt) <= maxInt32 ->
  (forall id other actor act, event_batches t !! id = Some other -> br_SessionID other = Some (s_ID b) ->
     br_ActorUserID (batchRow bt) = Some actor -> br_ActionID (batchRow bt) = Some act ->
     br_ActorUserID other = Some actor -> br_ActionID other <> Some act) ->
  exists T E n1,
    (forall R (k : GameSessionRow -> tx R),
       tx_bind (one (UpdateGameSessionStateCAS noFault (updateGameSessionStateParams b a))) (fun updatedRow =>
         tx_bind (replaceGameSessionTimers noFault (s_ID a) (s_Timers a)) (fun _ =>
           tx_bind (insertGameSessionBatch noFault bt) (fun _ => k updatedRow))) (t, n) =
       k (setState row (createGameSessionParams a)) (moved b a bt row T E t, n1)) /\
    default [] (T !! s_ID a) = timerRow (s_ID a) <$> s_Timers a.
Proof.
  intros [Hs Hh _] Hm Hok Hload Hrow Hmax Hfresh Hlen Hother.
  destruct (loaded_row _ _ _ Hs Hload) as (row0 & Hrow0 & _ & _ & V & Ep & St & _ & Rv & Re). assert (row0 = row) as -> by congruence.
  assert (H1 : one (UpdateGameSessionStateCAS noFault (updateGameSessionStateParams b a)) (t, n) =
    Ok (setState row (createGameSessionParams a), (t <| game_sessions := <[s_ID b := setState row (createGameSessionParams a)]> (game_sessions t) |>, S n))).
  { apply one_ok. unfold UpdateGameSessionStateCAS, updateSession. apply statement_ok.
    cbn [updateGameSessionStateParams us_SessionID us_ExpectedStateVersion us_ExpectedOwnershipEpoch us_row].
    rewrite Hrow, !i64_id, V, Ep, St, (mo_before _ _ _ Hm), !Z.eqb_refl by lia. reflexivity. }
  destruct (replaceGameSessionTimers_ok (s_ID a) (s_Timers a) (t <| game_sessions := <[s_ID b := setState row (createGameSessionParams a)]>
    (game_sessions t) |>) (S n)) as (t2 & n2 & H2); [apply (so_timers _ Hok)|].
  pose proof (replaceGameSessionTimers_inv _ _ _ _ _ _ _ _ H2) as (T & -> & HTk & HT).
  edestruct (insertGameSessionBatch_ok bt) as (t3 & n3 & H3); cycle 4.
  { pose proof (insertGameSessionBatch_inv _ _ _ _ _ _ _ H3) as (_ & _ & E & -> & _ & _). exists T, E, n3. split; [|done].
    intros R k. rewrite (bind_ok _ _ _ _ _ H1), (bind_ok _ _ _ _ _ H2), (bind_ok _ _ _ _ _ H3). reflexivity. }
  all: cbn.
  - exact Hfresh.
  - apply (hi_events _ Hh _ Hfresh).
  - exact Hlen.
  - intros id other Hid Hsid. rewrite (mo_session _ _ _ Hm) in Hsid. split; [|intros actor act; by eapply Hother].
    intros Hv. assert (hasBatch t (s_ID b) (br_StateVersion other)) as Hb by by exists id, other.
    apply (hi_gapless _ Hh _ _ Hrow) in Hb. rewrite Hv in Hb.
    cbn [br_StateVersion batchRow] in Hb. rewrite (mo_batch _ _ _ Hm) in Hb. pose proof (mo_version _ _ _ Hm) as Hver.
    rewrite u64_id in Hver by (unfold maxInt64, maxUint64 in *; lia). rewrite i64_id in Hb by lia. lia.
Qed.

(** ** Actions *)

(** The outbox has room for the events of a commit, and they are new. *)
Record outboxReady (events : list Outbox.Event) (t : Tables) : Prop := {
  or_events : Forall eventOK events;
  or_next : 0 < outbox_next t;
  or_room : outbox_next t + len events <= maxInt64;
  or_distinct : NoDup (Outbox.e_ID <$> events);
  or_new : Forall (fun event => outbox t !! Outbox.e_ID event = None) events;
}.

(** What a stored session needs for an action to be committed on it: the actor is
    a participant of the room, the action and its batch are new, and no room fact
    is pending if the action ends the session. *)
Record actionReady (commit : ActionCommit) (t : Tables) : Prop := {
  rd_loaded : loadSession t (s_ID (before commit)) = Some (before commit);
  rd_result : SessionOK (after commit);
  rd_storable : storable (after commit) = true;
  rd_room : exists row, RoomStore.party_rooms (rooms t) !! s_RoomID (before commit) = Some row /\
    RoomStore.row_RoomID row = Some (s_RoomID (before commit));
  rd_role : exists member,
    List.find (fun row => bool_decide (RoomStore.rm_UserID row = Some (ak_ActorUserID (ac_Key (receipt commit)))))
      (RoomStore.membersOf (rooms t) (s_RoomID (before commit))) = Some member /\
    RoomStore.rm_Role member = Room.MemberRoleParticipant;
  rd_unused : action_receipts t !! actionKeyOf commit = None;
  rd_inbox : Terminal (s_Status (after commit)) = true -> forall source row,
    system_inbox t !! (s_ID (after commit), source) = Some row -> ir_Status row <> SystemInboxPending;
  rd_batch : event_batches t !! b_ID (batch commit) = None;
  rd_outbox : outboxReady (outboxEvents commit) t;
}.

Lemma insertOutbox_ready events t t' n : outboxReady events t -> outbox t' = outbox t -> outbox_next t' = outbox_next t ->
  exists t1 n1, insertGameSessionOutbox noFault false events (t', n) = Ok (tt, (t1, n1)).
Proof. intros [] E1 E2. apply insertGameSessionOutbox_ok; rewrite ?E1, ?E2; done. Qed.

Lemma BatchOK_events bt : BatchOK bt -> len (b_Events bt) <= maxInt32.
Proof.
  unfold BatchOK, RestoreEventBatch. intros H. inv_results H. to_prop. rewrite H in *.
  unfold MaximumTransitionEvents, maxInt32, RoomStore.maxInt32 in *. lia.
Qed.

Lemma requireParticipant_ok roomID actor t n member :
  List.find (fun row => bool_decide (RoomStore.rm_UserID row = Some actor)) (RoomStore.membersOf (rooms t) roomID) = Some member ->
  RoomStore.rm_Role member = Room.MemberRoleParticipant -> requireParticipant noFault roomID actor (t, n) = Ok (tt, (t, S n)).
Proof.
  intros Hf Hr. unfold requireParticipant, GetRoomMemberRole. erewrite bind_ok by apply query_ok. cbv beta. rewrite Hf. cbn [fmap option_fmap option_map].
  by rewrite Hr.
Qed.

Lemma lockActionParticipantFence_ok commit t n : actionReady commit t ->
  exists n', lockActionParticipantFence noFault (before commit) (ak_ActorUserID (ac_Key (receipt commit))) (t, n) = Ok (tt, (t, n')).
Proof.
  intros Hr. destruct (rd_room _ _ Hr) as (row & Hrow & Hid), (rd_role _ _ Hr) as (member & Hm & Hrole).
  unfold lockActionParticipantFence, GetPartyRoomForUpdate. erewrite bind_ok.
  2:{ apply one_or_ok. rewrite query_ok, Hrow. reflexivity. }
  rewrite Hid, bool_decide_true by done. cbn [negb]. eexists. by eapply requireParticipant_ok.
Qed.

Lemma commitActionAfterRoomLock_ok commit t n :
  StoreInv t -> ActionCommit_Valid commit = true -> BatchOK (batch commit) -> validateActionWidths commit = Ok tt -> actionReady commit t ->
  exists t' n', commitActionAfterRoomLock noFault false commit (t, n) =
    Ok (mkActionResult (after commit) (receipt commit) false, (t', n')).
Proof.
  intros Hinv Hv Hb Hw Hr. pose proof (st_sessions _ Hinv) as Hs. apply ActionCommit_facts in Hv as (Hm & Hc & Esid & Eact & Eop & _).
  assert (Hmax : StateVersion (s_State (after commit)) <= maxInt64).
  { pose proof (rd_storable _ _ Hr) as Hst. unfold storable in Hst. to_prop. done. }
  pose proof (rd_loaded _ _ Hr) as Hload. assert (Eid : s_ID (after commit) = s_ID (before commit)) by apply (mo_identity _ _ _ Hm).
  destruct (loaded_row _ _ _ Hs Hload) as (row & Hrow & Hid & Hl & _). unfold commitActionAfterRoomLock.
  destruct (getGameSessionForUpdate_ok (s_ID (before commit)) t n (before commit)) as [n1 H1]; [apply Hs|done|].
  rewrite (bind_ok _ _ _ _ _ H1). unfold GetGameActionReceipt. erewrite bind_ok by apply query_ok. cbv beta.
  change (s_ID (before commit), ak_ActorUserID (ac_Key (receipt commit)), Value (ak_ActionID (ac_Key (receipt commit)))) with (actionKeyOf commit).
  rewrite (rd_unused _ _ Hr). unfold validateCurrentTransition. rewrite !Z.eqb_refl, (mo_before _ _ _ Hm). cbn [negb].
  change (String.eqb StatusActive StatusSuspended) with false. change (Terminal StatusActive) with false. cbv iota. cbn [tx_lift].
  erewrite bind_ok by reflexivity. destruct (rejectTerminal_ok (after commit) Nil t (S n1)) as [n2 H2].
  { intros Ht source inbox Hin Hst. by destruct (rd_inbox _ _ Hr Ht source inbox Hin). }
  rewrite (bind_ok _ _ _ _ _ H2).
  edestruct (persist_ok (before commit) (after commit) (batch commit) t n2) as (T & E & n3 & Hk & HT); try done.
  - apply (rd_result _ _ Hr).
  - apply (rd_batch _ _ Hr).
  - by apply BatchOK_events.
  - intros id other actor act Hid' Hsid Ha1 Ha2 Ho1 Ho2. destruct (action_columns _ Hb Hc) as (C1 & C2 & _). rewrite C1 in Ha1. rewrite C2 in Ha2.
    injection Ha1 as <-. injection Ha2 as <-. destruct (ri_accounted _ (st_receipts _ Hinv) _ _ Hid' _ Hsid) as [Hacc _].
    destruct (Hacc _ _ Ho1 Ho2) as (r & Hreceipt & _). pose proof (rd_unused _ _ Hr) as Hun. unfold actionKeyOf in Hun.
    rewrite Eact, Eop in Hun. congruence.
  - rewrite Hk. cbv beta. destruct (insertGameActionReceipt_ok (receipt commit) (moved (before commit) (after commit) (batch commit) row T E t) n3) as (t4 & n4 & H4).
    { rewrite Esid. apply (rd_unused _ _ Hr). }
    rewrite (bind_ok _ _ _ _ _ H4). apply insertGameActionReceipt_inv in H4 as [_ ->].
    edestruct (insertOutbox_ready (outboxEvents commit) t) as (t5 & n5 & H5); [apply (rd_outbox _ _ Hr)| | |rewrite (bind_ok _ _ _ _ _ H5)]; [done|done|].
    apply insertGameSessionOutbox_inv in H5 as (O & k & -> & _).
    edestruct (sessionFromUpdatedRow_ok (setState row (createGameSessionParams (after commit)))) as [n6 H6]; [exact Hid| |
      rewrite (bind_ok _ _ _ _ _ H6); by eexists _, _].
    unfold timersOf. cbn. rewrite <- Eid, HT. eapply move_roundtrip; [|apply (mo_identity _ _ _ Hm)|apply (mo_epoch _ _ _ Hm)|
      apply (rd_result _ _ Hr)|apply (rd_storable _ _ Hr)]. rewrite Eid. exact Hl.
Qed.

Lemma CommitAction_ok commit t :
  StoreInv t -> ActionCommit_Valid commit = true -> BatchOK (batch commit) -> validateActionWidths commit = Ok tt -> actionReady commit t ->
  exists t', CommitAction noFault false commit t = (Ok (mkActionResult (after commit) (receipt commit) false), t').
Proof.
  intros Hinv Hv Hb Hw Hr. unfold CommitAction. rewrite Hv, Hw. cbn [negb].
  destruct (lockActionParticipantFence_ok commit t 1 Hr) as [n1 H1].
  destruct (commitActionAfterRoomLock_ok commit t n1 Hinv Hv Hb Hw Hr) as (t' & n' & H2). exists t'.
  eapply run_ok. rewrite (bind_ok _ _ _ _ _ H1). exact H2.
Qed.

Lemma Get_ok sid t s : sid <> Nil -> loadSession t sid = Some s -> Get noFault sid t = (Ok s, t).
Proof.
  intros Hne (row & Hrow & Hl)%loadSession_row. unfold Get. rewrite (proj2 (Z.eqb_neq _ _) Hne). eapply run_ok.
  erewrite bind_ok. 2:{ apply one_ok. unfold GetGameSessionForShare. rewrite query_ok, Hrow. reflexivity. }
  do 2 (erewrite bind_ok by apply query_ok; cbv beta). rewrite Hl. reflexivity.
Qed.

(** ** Repeating an action *)

(** A receipt as [NewActionReceipt] makes it. *)
Record receiptOK (r : ActionReceipt) : Prop := {
  rk_receipt : NewActionReceipt r = Ok r;
  rk_action : ParseOperationID (Value (ak_ActionID (ac_Key r))) = Ok (ak_ActionID (ac_Key r));
  rk_request : NewDigest (ac_RequestDigest r) = Ok (ac_RequestDigest r);
  rk_result : NewDigest (ac_ResultDigest r) = Ok (ac_ResultDigest r);
  rk_version : 0 < ac_StateVersion r <= maxInt64;
}.

Lemma receipt_roundtrip r : receiptOK r -> actionReceiptFromRow (actionReceiptRow r) = Ok r.
Proof.
  intros [Hr Ha Hq Hs Hv]. pose proof Hr as Hnew. unfold NewActionReceipt in Hr. cbv zeta in Hr. inv_result Hr. injection Hr as Hr.
  assert (Hc : canonical (ac_CommittedAt r)) by (unfold canonical; rewrite <- Hr at 2; reflexivity).
  assert (Hz : ac_CommittedAt r <> 0).
  { repeat (apply orb_false_iff in E as [E ?]). match goal with H : IsZero _ = false |- _ => rewrite Hr in H; by apply Z.eqb_neq in H end. }
  unfold actionReceiptFromRow, actionReceiptRow, digestFromColumn, RoomStore.uuidToPG.
  cbn [arr_SessionID arr_ActorUserID arr_CommittedAt arr_ActionID arr_RequestDigest arr_ResultDigest arr_CommittedStateVersion arr_ResultCode].
  rewrite time_column by done. rewrite i64_id, (proj2 (Z.leb_gt _ _)), Ha, Hq, Hs by lia. cbn [bind_result].
  rewrite u64_id by (unfold maxInt64, maxUint64 in *; lia).
  assert (E1 : mkActionReceipt (mkActionKey (ak_SessionID (ac_Key r)) (ak_ActorUserID (ac_Key r)) (ak_ActionID (ac_Key r))) (ac_RequestDigest r)
    (ac_ResultCode r) (ac_ResultDigest r) (ac_StateVersion r) (ac_CommittedAt r) = r) by (by destruct r as [[] ? ? ? ? ?]).
  by rewrite E1, Hnew.
Qed.

(** The same commit again finds its receipt. *)
Lemma CommitAction_again commit t s :
  rowsKeyed t -> ActionCommit_Valid commit = true -> validateActionWidths commit = Ok tt -> receiptOK (receipt commit) ->
  (exists row, RoomStore.party_rooms (rooms t) !! s_RoomID (before commit) = Some row /\
     RoomStore.row_RoomID row = Some (s_RoomID (before commit))) ->
  (exists member,
     List.find (fun row => bool_decide (RoomStore.rm_UserID row = Some (ak_ActorUserID (ac_Key (receipt commit)))))
       (RoomStore.membersOf (rooms t) (s_RoomID (before commit))) = Some member /\
     RoomStore.rm_Role member = Room.MemberRoleParticipant) ->
  loadSession t (s_ID (before commit)) = Some s -> action_receipts t !! actionKeyOf commit = Some (actionReceiptRow (receipt commit)) ->
  CommitAction noFault false commit t = (Ok (mkActionResult s (receipt commit) true), t).
Proof.
  intros Hk Hv Hw Hrk (row & Hrow & Hid) (member & Hm & Hrole) Hload Hreceipt. unfold CommitAction. rewrite Hv, Hw. cbn [negb].
  destruct (getGameSessionForUpdate_ok (s_ID (before commit)) t 3 s Hk Hload) as [n1 H1].
  eapply run_ok. erewrite bind_ok.
  2:{ unfold lockActionParticipantFence, GetPartyRoomForUpdate. erewrite bind_ok.
      2:{ apply one_or_ok. rewrite query_ok, Hrow. reflexivity. }
      rewrite Hid, bool_decide_true by done. cbn [negb]. by eapply requireParticipant_ok. }
  unfold commitActionAfterRoomLock. rewrite (bind_ok _ _ _ _ _ H1). unfold GetGameActionReceipt. erewrite bind_ok by apply query_ok. cbv beta.
  change (s_ID (before commit), ak_ActorUserID (ac_Key (receipt commit)), Value (ak_ActionID (ac_Key (receipt commit)))) with (actionKeyOf commit).
  rewrite Hreceipt, (receipt_roundtrip _ Hrk). cbn [tx_lift]. erewrite bind_ok by reflexivity. unfold ActionReceipt_Replay.
  rewrite (proj2 (Digest_eqb_eq _ _) eq_refl). reflexivity.
Qed.

(** ** Creations *)
Lemma createParticipants_ok sid participants t n :
  Forall (fun p => 0 <= p_SeatIndex p <= maxInt32) participants ->
  NoDup ((pr_UserID <$> participantsOf t sid) ++ (Some <$> (p_UserID <$> participants))) ->
  NoDup ((pr_SeatIndex <$> participantsOf t sid) ++ (p_SeatIndex <$> participants)) ->
  exists t' n', createParticipants noFault sid participants (t, n) = Ok (tt, (t', n')).
Proof.
  revert t n. induction participants as [|p participants IH]; intros t n HF HU HS; cbn [createParticipants]; [by eexists _, _|].
  apply Forall_cons in HF as [Hp HF]. rewrite !fmap_cons in HU. rewrite fmap_cons in HS.
  unfold CreateGameSessionParticipant. erewrite bind_ok; [|apply statement_ok].
  2:{ rewrite existsb_false; [reflexivity|]. intros other Ho. cbn [participantRow pr_UserID pr_SeatIndex]. rewrite i32_id by done.
      apply NoDup_app in HU as (_ & HU & _), HS as (_ & HS & _). apply orb_false_iff. split.
      - apply bool_decide_eq_false. intros E. eapply HU; [apply list_elem_of_fmap_2, Ho|]. rewrite E. constructor.
      - apply Z.eqb_neq. intros E. eapply HS; [apply list_elem_of_fmap_2, Ho|]. rewrite E. constructor. }
  apply IH; [done| |]; unfold participantsOf; cbn [session_participants update tables_eta]; rewrite lookup_insert_eq;
    change (default [] (Some ?x)) with x; rewrite fmap_app; cbn [fmap list_fmap participantRow pr_UserID pr_SeatIndex];
    rewrite ?i32_id by done; by rewrite <- app_assoc.
Qed.

(** What the tables need for a session to be created in them. *)
Record creationReady (commit : CreationCommit) (t : Tables) : Prop := {
  nr_session : SessionOK (cc_Session commit);
  nr_storable : storable (cc_Session commit) = true;
  nr_new : game_sessions t !! s_ID (cc_Session commit) = None;
  nr_alone : live (s_Status (cc_Session commit)) = true -> forall sid row, game_sessions t !! sid = Some row ->
    live (g_Status row) = true -> g_RoomID row <> Some (s_RoomID (cc_Session commit));
  nr_participants : session_participants t !! s_ID (cc_Session commit) = None;
  nr_access : replay_access t !! s_ID (cc_Session commit) = None;
  nr_batch : event_batches t !! b_ID (cc_Batch commit) = None;
  nr_outbox : outboxReady (cc_OutboxEvents commit) t;
}.

Lemma createGameSessionAggregate_ok commit t n :
  StoreInv t -> CreationCommit_Valid commit = true -> BatchOK (cc_Batch commit) -> creationReady commit t ->
  exists t' n', createGameSessionAggregate noFault false commit (t, n) = Ok (cc_Session commit, (t', n')).
Proof.
  intros Hinv Hv Hb [Hok Hst Hnew Halone Hparts Hacc Hbatch Hout]. destruct (CreationCommit_facts _ Hv) as (Hc & _ & Hbs & _).
  unfold createGameSessionAggregate, CreateGameSession. set (s := cc_Session commit) in *. assert (Hseats : Forall (fun p => 0 <= p_SeatIndex p <= maxInt32) (s_Participants s)).
  { unfold storable in Hst. to_prop. rewrite Forall_forall. intros p Hp%list_elem_of_In.
    match goal with H : forallb _ (s_Participants s) = true |- _ => rewrite forallb_forall in H; apply H in Hp; to_prop; done end. }
  erewrite bind_ok; [|apply statement_ok]. 2:{
    cbv zeta. change (default Nil (g_SessionID (createGameSessionParams s))) with (s_ID s).
    rewrite bool_decide_false by (rewrite Hnew; by intros [? ?]).
    destruct (live (g_Status (createGameSessionParams s))) eqn:El; cbn [andb]; [|reflexivity]. rewrite existsb_false; [reflexivity|].
    intros [sid row] Hin%elem_of_map_to_list. cbn [snd]. destruct (live (g_Status row)) eqn:Er; [|done].
    apply bool_decide_eq_false. by eapply Halone. }
  edestruct (createParticipants_ok (s_ID s) (s_Participants s)) as (t1 & n1 & H1); cycle 3.
  { rewrite (bind_ok _ _ _ _ _ H1). apply createParticipants_inv in H1 as (P & -> & _ & HP). unfold CreateGameSessionReplayAccess.
    erewrite bind_ok; [|apply statement_ok; cbn; rewrite Hacc; reflexivity].
    edestruct (replaceGameSessionTimers_ok (s_ID s) (s_Timers s)) as (t2 & n2 & H2); [apply (so_timers _ Hok)|rewrite (bind_ok _ _ _ _ _ H2)].
    apply replaceGameSessionTimers_inv in H2 as (T & -> & _ & HT).
    edestruct (insertGameSessionBatch_ok (cc_Batch commit)) as (t3 & n3 & H3); cycle 4.
    { rewrite (bind_ok _ _ _ _ _ H3). apply insertGameSessionBatch_inv in H3 as (_ & _ & E & -> & _ & _).
      edestruct (insertOutbox_ready (cc_OutboxEvents commit) t) as (t4 & n4 & H4); [done|..|rewrite (bind_ok _ _ _ _ _ H4)]; [done|done|].
      apply insertGameSessionOutbox_inv in H4 as (O & k & -> & _). do 2 (erewrite bind_ok by apply query_ok; cbv beta).
      unfold participantsOf at 1, timersOf at 1. cbn [session_participants session_timers update tables_eta]. rewrite HP, HT.
      unfold participantsOf. cbn [session_participants update tables_eta]. rewrite Hparts. cbn [default app].
      change (default [] None ++ ?x) with x. rewrite creation_roundtrip by done. by eexists _, _. }
    all: cbn [event_batches session_events update tables_eta].
    - exact Hbatch.
    - apply (hi_events _ (st_history _ Hinv) _ Hbatch).
    - by apply BatchOK_events.
    - intros id row Hid Hsid. exfalso. destruct (hi_owner _ (st_history _ Hinv) _ _ Hid) as (sid & r & E1 & E2). rewrite Hbs in Hsid.
      assert (sid = s_ID s) by congruence. subst sid. by rewrite Hnew in E2. }
  all: unfold participantsOf; cbn [session_participants update tables_eta]; rewrite ?Hparts; cbn [default app]; change (default [] None) with (@nil ParticipantRow).
  - done.
  - cbn. apply NoDup_fmap_2; [apply _|]. apply (so_participants _ Hok).
  - cbn. apply (so_participants _ Hok).
Qed.

Lemma Create_ok commit t :
  StoreInv t -> CreationCommit_Valid commit = true -> BatchOK (cc_Batch commit) -> validateCreationWidths commit = Ok tt -> creationReady commit t ->
  exists t', Create noFault false commit t = (Ok (cc_Session commit), t').
Proof.
  intros Hinv Hv Hb Hw Hr. unfold Create. rewrite Hv, Hw. cbn [negb].
  destruct (createGameSessionAggregate_ok commit t 1 Hinv Hv Hb Hr) as (t' & n' & H). exists t'. by eapply run_ok.
Qed.

End RuntimeStoreProgress.
