(* ===== verification/RuntimeStoreTheorems.v ===== *)
(** * Properties of the session repository

    What the tables of the sessions always satisfy, what a commit changes, that
    the owner of a session is fenced by the store, and that valid creations and
    actions are stored exactly once and read back as they are. *)

From stdpp Require Import gmap relations.
From S2P Require Import Prelude GoLib Sha256 Selector GameManifest GameContract Outbox Room RoomStore Runtime RuntimeFacts RuntimeMoves RuntimeCommit RuntimeStore RuntimeQueries RuntimeRepository RuntimeStoreFacts RuntimeStoreEffects RuntimeStoreInvariant RuntimeStoreRows RuntimeStoreProgress RuntimeTheorems RoomServiceTheorems.

Module RuntimeStoreTheorems.
Import GoLib Selector GameManifest GameContract Runtime RuntimeFacts RuntimeMoves RuntimeCommit RuntimeStore RuntimeQueries
  RuntimeRepository RuntimeStoreFacts RuntimeStoreEffects RuntimeStoreInvariant RuntimeStoreRows RuntimeStoreProgress.

(** ** Epochs *)

(** No session is lost and no epoch goes back. *)
Definition epochsGrow (t t' : Tables) : Prop := forall sid row, game_sessions t !! sid = Some row ->
  exists row', game_sessions t' !! sid = Some row' /\ g_OwnershipEpoch row <= g_OwnershipEpoch row'.

#[local] Instance epochsGrow_preorder : PreOrder epochsGrow.
Proof.
  split.
  - intros t sid row Hrow. by exists row.
  - intros t1 t2 t3 H12 H23 sid row Hrow. destruct (H12 _ _ Hrow) as (row2 & H2 & L2), (H23 _ _ H2) as (row3 & H3 & L3).
    exists row3. split; [done|lia].
Qed.

Lemma epochsGrow_same t t' : game_sessions t' = game_sessions t -> epochsGrow t t'.
Proof. intros E sid row Hrow. rewrite E. by exists row. Qed.

Lemma epochsGrow_insert sid row row' t t' :
  game_sessions t' = <[sid := row']> (game_sessions t) -> game_sessions t !! sid = Some row ->
  g_OwnershipEpoch row <= g_OwnershipEpoch row' -> epochsGrow t t'.
Proof.
  intros E Hrow Hle k old Hold. rewrite E. destruct (decide (k = sid)) as [->|Hne].
  - exists row'. rewrite lookup_insert_eq. split; [done|congruence].
  - exists old. by rewrite lookup_insert_ne.
Qed.

Lemma epochsGrow_new sid row' t t' :
  game_sessions t' = <[sid := row']> (game_sessions t) -> game_sessions t !! sid = None -> epochsGrow t t'.
Proof. intros E Hn k old Hold. exists old. rewrite E, lookup_insert_ne; [done|congruence]. Qed.

Lemma freshMove_epochs b a bt events excluded current stored row t t' :
  freshMove b a bt events excluded current stored row t t' -> epochsGrow t t'.
Proof.
  intros (_ & _ & Had & _). eapply epochsGrow_insert; [apply (ad_sessions _ _ _ _ _ _ _ Had)|apply (ad_row _ _ _ _ _ _ _ Had)|]. cbn. lia.
Qed.

Lemma onlyOperation_frame key t t' : t' = t \/ onlyOperation key t t' ->
  game_sessions t' = game_sessions t /\ event_batches t' = event_batches t /\ outbox t' = outbox t /\ session_timers t' = session_timers t /\
  session_participants t' = session_participants t.
Proof. intros [->|(op & _ & _ & ->)]; done. Qed.

Lemma store_step_epochs t t' : StoreInv t -> store_step t t' -> epochsGrow t t'.
Proof.
  intros Hinv Hstep. pose proof (si_keyed _ (st_sessions _ Hinv)) as Hk. destruct Hstep.
  - apply Create_inv in H0. destruct out as [stored|]; [|by subst]. destruct H0 as (_ & _ & Hc).
    eapply epochsGrow_new; [apply (cr_sessions _ _ _ _ Hc)|apply (cr_fresh _ _ _ _ Hc)].
  - apply AcquireOwnershipCAS_inv in H; [|done]. destruct out as [stored|]; [|by subst].
    destruct H as (_ & row & Hre & _). eapply epochsGrow_insert; [apply (re_sessions _ _ _ _ _ Hre)|apply (re_row _ _ _ _ _ Hre)|]. cbn. lia.
  - apply CommitAction_inv in H0; [|done]. destruct out as [r|]; [|by subst]. destruct H0 as (Hv & Hw & _ & n & n' & H0).
    apply commitActionAfterRoomLock_inv in H0 as (current & _ & [(_ & -> & _)|(_ & _ & _ & _ & _ & _ & row & Hf)]); [done| |done|done].
    by eapply freshMove_epochs.
  - apply CommitTimer_inv in H0; [|done]. destruct out as [r|]; [|by subst]. destruct H0 as (Hv & Hw & current & n & n' & Hload & H0).
    apply commitTimerAfterSessionLock_inv in H0 as [(_ & -> & _)|(_ & _ & _ & _ & _ & _ & _ & row & Hf)]; [done| |done|done].
    by eapply freshMove_epochs.
  - apply CommitSystem_inv in H0; [|done]. destruct out as [r|]; [|by subst]. destruct H0 as (Hv & Hw & current & n & n' & Hload & H0).
    apply commitSystemAfterSessionLock_inv in H0 as [(_ & Hframe & _)|(_ & _ & _ & row & t1 & op & Hframe & Hf & _)]; [| |done|done|done].
    + apply epochsGrow_same. by apply onlyOperation_frame in Hframe as [? _].
    + transitivity t1; [|by eapply freshMove_epochs]. apply epochsGrow_same. by apply onlyOperation_frame in Hframe as [? _].
  - apply CompleteSystemNoop_inv in H; [|done]. destruct out as [r|]; [|by subst]. destruct H as [Hf _].
    apply epochsGrow_same. by apply onlyOperation_frame in Hf as [? _].
  - apply CommitLifecycle_inv in H; [|done]. destruct out as [stored|]; [|by subst]. destruct H as (Hv & current & n & n' & Hload & H).
    apply persistLifecycle_inv in H as (row & Hre & _); [|done|done].
    eapply epochsGrow_insert; [apply (re_sessions _ _ _ _ _ Hre)|apply (re_row _ _ _ _ _ Hre)|]. cbn. lia.
  - apply CompleteSystemInbox_inv in H. destruct out as [r|]; [|by subst]. destruct H as [->|(row & row' & _ & _ & _ & ->)]; [done|].
    by apply epochsGrow_same.
  - by apply epochsGrow_same.
  - by apply epochsGrow_same.
Qed.

Lemma store_run_sound t t' : StoreInv t -> rtc store_step t t' -> StoreInv t' /\ epochsGrow t t'.
Proof.
  intros Hinv Hrun. induction Hrun as [t|t1 t2 t3 Hstep _ IH]; [done|].
  pose proof (store_step_StoreInv _ _ Hinv Hstep) as H2. destruct (IH H2) as [H3 Hg]. split; [done|].
  transitivity t2; [by apply store_step_epochs|done].
Qed.

(** A move is only made on a session of its own epoch. *)
Lemma freshMove_fenced b a bt events excluded current stored row t t' row0 :
  SessionsInv t -> loadSession t (s_ID b) = Some current -> freshMove b a bt events excluded current stored row t t' ->
  game_sessions t !! s_ID b = Some row0 -> g_OwnershipEpoch row0 = s_OwnershipEpoch b.
Proof.
  intros Hs Hload (Hcur & _) Hrow0. apply validateCurrentTransition_Ok in Hcur as (He & _).
  destruct (loaded_row _ _ _ Hs Hload) as (row1 & Hrow1 & _ & _ & _ & Hep & _). congruence.
Qed.

(** ** A sample store *)
Import RuntimeTheorems.

(** Session 71 in room 1, whose participants are 11, 12 and 13. *)
Definition storeNew : NewSessionRequest :=
  mkNewSession 71 1 (mkVersionKey "liars-dice" "1.0.0" "1.0.0" "1.0.0") [mkParticipant 11 0; mkParticipant 12 1; mkParticipant 13 2]
    (mkStart noMessage zeroDigest 1 5 3 1) 7 (sampleContext 1000000) (sampleMessage 1) (sampleTransition 1 [sampleTimer 9000000] false).
Definition storeEvent (id : UUID) (eventType : string) (at_ : Time) : Outbox.Event :=
  Outbox.mkEvent 0 id eventType GameSessionAggregateType 71 [1] at_ at_.
Definition storeCreated : Session * EventBatch := Eval vm_compute in okOr (noSession, noBatch) (NewSession storeNew).
Definition storeCreation : CreationCommit :=
  mkCreationCommit storeCreated.1 storeCreated.2 [storeEvent 201 GameSessionCreatedEventType 1000000] None.

Definition storeOwned : Session := Eval vm_compute in okOr noSession (AcquireOwnership storeCreated.1 0 2000000).
Definition storeTaken : Session := Eval vm_compute in okOr noSession (AcquireOwnership storeOwned 1 3000000).

Definition storeRequest (epoch : Z) : ActionTransitionRequest :=
  mkActionRequest 8 epoch 12 sampleAction (sampleContext 4000000) (sampleMessage 3) (sampleTransition 2 [] true).
Definition storeAction (b : Session) (epoch : Z) : ActionCommit :=
  let '(a, bt) := okOr (noSession, noBatch) (ApplyAction b (storeRequest epoch)) in
  mkCommit b a bt (mkActionReceipt (mkActionKey 71 12 sampleAction) zeroDigest ResultCodeAccepted zeroDigest 2 4000000)
    [storeEvent 202 GameSessionTransitionedEventType 4000000].

Definition tables0 : Tables := emptyTables <| rooms := RoomServiceTheorems.db4 |>.
Definition tables1 : Tables := snd (Create noFault false storeCreation tables0).
Definition tables2 : Tables := snd (AcquireOwnershipCAS noFault storeCreated.1 storeOwned tables1).
Definition tables3 : Tables := snd (AcquireOwnershipCAS noFault storeOwned storeTaken tables2).
Definition moveCommit : ActionCommit := Eval vm_compute in storeAction storeTaken 2.
Definition tables4 : Tables := snd (CommitAction noFault false moveCommit tables3).

Lemma tables0_reachable : store_reachable tables0.
Proof. apply rtc_once, step_rooms. Qed.

Lemma tables1_reachable : store_reachable tables1.
Proof.
  eapply rtc_r; [apply tables0_reachable|]. apply (step_create _ noFault false storeCreation (fst (Create noFault false storeCreation tables0))).
  - vm_compute. reflexivity.
  - apply surjective_pairing.
Qed.

Lemma tables2_reachable : store_reachable tables2.
Proof.
  eapply rtc_r; [apply tables1_reachable|].
  apply (step_acquire _ noFault storeCreated.1 storeOwned (fst (AcquireOwnershipCAS noFault storeCreated.1 storeOwned tables1))), surjective_pairing.
Qed.

Lemma tables3_reachable : store_reachable tables3.
Proof.
  eapply rtc_r; [apply tables2_reachable|].
  apply (step_acquire _ noFault storeOwned storeTaken (fst (AcquireOwnershipCAS noFault storeOwned storeTaken tables2))), surjective_pairing.
Qed.

Lemma tables4_reachable : store_reachable tables4.
Proof.
  eapply rtc_r; [apply tables3_reachable|]. apply (step_action _ noFault false moveCommit (fst (CommitAction noFault false moveCommit tables3))).
  - vm_compute. reflexivity.
  - apply surjective_pairing.
Qed.

(** ** The history *)

(** C19: Whatever operations the repository ran, with whatever failures, every
    stored session loads and restores to itself; a room has at most one live
    session; the event batches of a session are numbered from one to its state
    version without gap or repetition; and receipts and batches account for each
    other: an accepted action, a fired timer and a completed system command are
    recorded exactly once, in the batch of the version they produced. *)
Theorem store_history_sound t : store_reachable t ->
  (forall sid row, game_sessions t !! sid = Some row ->
     (exists s, loadSession t sid = Some s /\ RestoreSession s = Ok s /\ s_ID s = sid /\ StateVersion (s_State s) = g_StateVersion row) /\
     (forall v, 1 <= v <= g_StateVersion row <->
        exists id b, event_batches t !! id = Some b /\ br_SessionID b = Some sid /\ br_StateVersion b = v)) /\
  (forall sid sid' row row', game_sessions t !! sid = Some row -> game_sessions t !! sid' = Some row' ->
     live (g_Status row) = true -> live (g_Status row') = true -> g_RoomID row = g_RoomID row' -> sid = sid') /\
  (forall id id' b b', event_batches t !! id = Some b -> event_batches t !! id' = Some b' ->
     br_SessionID b = br_SessionID b' -> br_StateVersion b = br_StateVersion b' -> id = id') /\
  (forall id b, event_batches t !! id = Some b -> accounted t id b) /\
  (forall sid actor act r, action_receipts t !! (sid, actor, act) = Some r ->
     exists id b, event_batches t !! id = Some b /\ br_SessionID b = Some sid /\ br_ActorUserID b = Some actor /\
       br_ActionID b = Some act /\ br_StateVersion b = arr_CommittedStateVersion r) /\
  (forall sid timer v r, timer_receipts t !! (sid, timer, v) = Some r ->
     exists id b, event_batches t !! id = Some b /\ trr_BatchID r = Some id /\ br_SessionID b = Some sid /\
       br_TimerID b = Some timer /\ br_StateVersion b = v + 1) /\
  (forall sid op r id, system_operations t !! (sid, op) = Some r -> so_BatchID r = Some id ->
     exists b, event_batches t !! id = Some b /\ br_SessionID b = Some sid /\ br_SystemOperationID b = Some op).
Proof.
  intros [Hs Hh Hr]%reachable_StoreInv. split_and!; [|apply Hs|apply Hh|apply Hr..].
  intros sid row Hrow. split; [|intros v; symmetry; by apply (hi_gapless _ Hh _ _ Hrow)].
  destruct (si_loads _ Hs _ _ Hrow) as [s Hl]. exists s. destruct (loaded_row _ _ _ Hs Hl) as (row0 & Hrow0 & _ & Hrows & Hv & _ & _ & Hid & _).
  split_and!; [done| |done|congruence].
  apply sessionFromRows_Ok in Hrows as (? & ? & ? & ? & ? & ? & ? & _ & _ & _ & _ & _ & _ & _ & _ & _ & _ & _ & Hr0). by eapply RestoreSession_idem.
Qed.

Lemma store_history_sound_witness : exists row, game_sessions tables4 !! 71 = Some row /\
  exists id b, event_batches tables4 !! id = Some b /\ br_SessionID b = Some 71 /\ br_StateVersion b = 2.
Proof.
  destruct (game_sessions tables4 !! 71) as [row|] eqn:E; [|exfalso; vm_compute in E; discriminate E]. exists row. split; [reflexivity|].
  apply (proj2 (proj1 (store_history_sound tables4 tables4_reachable) 71 row E) 2).
  assert (Hv : g_StateVersion <$> game_sessions tables4 !! 71 = Some 2) by (vm_compute; reflexivity).
  rewrite E in Hv. injection Hv as ->. lia.
Defined.

(** ** What an action changes *)

(** C22: Committing an action, whatever fails, changes nothing unless it
    succeeds.  It succeeds only for a participant of the room, either by finding
    the receipt of the same request, which changes nothing, or by one new move:
    on the stored session at the version and epoch the action was computed for,
    running, with no room fact pending if the action ends it.  Then the session,
    its receipt and its batch are stored together, one version later, its events
    are in the outbox, and the answer is the session as it is stored. *)
Theorem action_commit_effect fault ctxDone commit t out t' :
  store_reachable t -> CommitAction fault ctxDone commit t = (out, t') ->
  match out with
  | Err _ => t' = t
  | Ok r =>
      activeParticipant t (s_RoomID (before commit)) (ak_ActorUserID (ac_Key (receipt commit))) /\
      exists current, loadSession t (s_ID (before commit)) = Some current /\
      if ar_Replayed r then
        t' = t /\ ar_Session r = current /\ ac_RequestDigest (ar_Receipt r) = ac_RequestDigest (receipt commit) /\
        exists row, action_receipts t !! actionKeyOf commit = Some row /\ actionReceiptFromRow row = Ok (ar_Receipt r)
      else
        ar_Receipt r = receipt commit /\
        StateVersion (s_State current) = StateVersion (s_State (before commit)) /\
        s_OwnershipEpoch current = s_OwnershipEpoch (before commit) /\ s_Status current = StatusActive /\
        (Terminal (s_Status (after commit)) = true -> forall source inbox,
           system_inbox t !! (s_ID (before commit), source) = Some inbox -> ir_Status inbox <> SystemInboxPending) /\
        action_receipts t !! actionKeyOf commit = None /\
        action_receipts t' = <[actionKeyOf commit := actionReceiptRow (receipt commit)]> (action_receipts t) /\
        event_batches t' = <[b_ID (batch commit) := batchRow (batch commit)]> (event_batches t) /\
        event_batches t !! b_ID (batch commit) = None /\
        loadSession t' (s_ID (before commit)) = Some (ar_Session r) /\
        StateVersion (s_State (ar_Session r)) = StateVersion (s_State current) + 1 /\
        (forall sid, sid <> s_ID (before commit) -> loadSession t' sid = loadSession t sid) /\
        Forall (fun event => is_Some (outbox t' !! Outbox.e_ID event)) (outboxEvents commit) /\ outbox t ⊆ outbox t' /\
        rooms t' = rooms t
  end.
Proof.
  intros Hinv%reachable_StoreInv H. pose proof (st_sessions _ Hinv) as Hs. pose proof (si_keyed _ Hs) as Hk.
  apply CommitAction_inv in H; [|done]. destruct out as [r|]; [|done]. destruct H as (Hv & Hw & Hp & n & n' & H). split; [done|].
  apply commitActionAfterRoomLock_inv in H as (current & Hload & H); [|done|done]. exists current. split; [done|].
  destruct H as [(-> & -> & Hc & row & Hrow & Hrec & Hdig)|(-> & Hrec & Hnone & Ea & _ & _ & row & Hcur & Hpend & Had & Hst)]; [by split_and!; [..|exists row]|].
  apply ActionCommit_facts in Hv as (Hm & _). assert (Eid : s_ID (after commit) = s_ID (before commit)) by apply (mo_identity _ _ _ Hm).
  assert (Hfit : forallb (fun s => snapshotFits s && timersFit (s_Timers s)) [before commit; after commit] = true).
  { unfold validateActionWidths in Hw. inv_results Hw. by apply negb_false_iff. }
  apply widths_versions in Hfit as (Hwb & Hwa & _). pose proof (validateCurrentTransition_Ok _ _ Hcur) as (He & Hver & _).
  pose proof (ad_row _ _ _ _ _ _ _ Had) as Hrow. destruct (loaded_row _ _ _ Hs Hload) as (row0 & Hrow0 & _ & Hl & V & _ & St & _).
  assert (row0 = row) as -> by congruence.
  destruct (move_numbers _ _ _ _ _ _ _ Hm Hcur Hl (ad_stored_version _ _ _ _ _ _ _ Had) Hwb Hwa) as (_ & _ & _ & Hia).
  split_and!; try done; try apply Had.
  - rewrite <- St. apply Had.
  - intros Hterm source inbox Hin Hp'. rewrite <- Eid in Hin. by destruct (Hpend Hterm source inbox Hin Hp').
  - apply loadSession_row in Hst as (row1 & Hrow1 & Hl1). rewrite (ad_sessions _ _ _ _ _ _ _ Had), lookup_insert_eq in Hrow1. injection Hrow1 as <-.
    apply loaded_numbers in Hl1 as (-> & _). cbn [setState createGameSessionParams g_StateVersion]. rewrite Hia, V, u64_id; [done|].
    rewrite <- V. pose proof (proj1 (si_widths _ Hs _ _ Hrow)). pose proof (loaded_numbers _ _ _ _ Hl) as (_ & _ & _ & ? & _). unfold maxInt64, maxUint64 in *. lia.
  - intros sid Hne. apply loadSession_other.
    + rewrite (ad_sessions _ _ _ _ _ _ _ Had). by rewrite lookup_insert_ne.
    + apply (ad_other_timers _ _ _ _ _ _ _ Had). by rewrite Eid.
    + by rewrite (ad_participants _ _ _ _ _ _ _ Had).
Qed.

Lemma action_commit_effect_witness :
  event_batches tables4 = <[8 := batchRow (batch moveCommit)]> (event_batches tables3) /\
  loadSession tables4 71 = Some (after moveCommit).
Proof.
  pose proof (action_commit_effect noFault false moveCommit tables3 (Ok (mkActionResult (after moveCommit) (receipt moveCommit) false)) tables4
    tables3_reachable) as H.
  destruct H as (_ & current & _ & _ & _ & _ & _ & _ & _ & _ & Hb & _ & Hl & _); [vm_compute; reflexivity|].
  split; [exact Hb|exact Hl].
Defined.

(** ** Owners *)

(** Commits of an epoch below the stored one. *)
Section Stale.
Context (t : Tables) (Hinv : StoreInv t) (sid : UUID) (row : GameSessionRow) (Hrow : game_sessions t !! sid = Some row).
Context (fault : nat -> option DbError) (ctxDone : bool).

Lemma stale_move b a bt events excluded current stored row' t' :
  loadSession t (s_ID b) = Some current -> freshMove b a bt events excluded current stored row' t t' ->
  s_ID b = sid -> s_OwnershipEpoch b < g_OwnershipEpoch row -> False.
Proof.
  intros Hload Hf Hid Hold. eapply freshMove_fenced in Hf; [|apply Hinv|done|rewrite Hid; exact Hrow]. lia.
Qed.

Lemma stale_action commit out t' :
  s_ID (before commit) = sid -> s_OwnershipEpoch (before commit) < g_OwnershipEpoch row -> CommitAction fault ctxDone commit t = (out, t') ->
  t' = t /\ forall r, out = Ok r -> ar_Replayed r = true.
Proof.
  intros Hid Hold H. apply CommitAction_inv in H; [|apply Hinv]. destruct out as [r|]; [|by split].
  destruct H as (Hv & _ & _ & n & n' & H).
  apply commitActionAfterRoomLock_inv in H as (current & Hload & [(Hrep & -> & _)|(_ & _ & _ & _ & _ & _ & row3 & Hf)]); [| |apply Hinv|done].
  - split; [done|]. by intros r' [= <-].
  - exfalso. by eapply stale_move.
Qed.

Lemma stale_timer commit out t' :
  s_ID (before commit) = sid -> s_OwnershipEpoch (before commit) < g_OwnershipEpoch row -> CommitTimer fault ctxDone commit t = (out, t') ->
  t' = t /\ forall r, out = Ok r -> tcr_Replayed r = true.
Proof.
  intros Hid Hold H. apply CommitTimer_inv in H; [|apply Hinv]. destruct out as [r|]; [|by split].
  destruct H as (Hv & _ & current & n & n' & Hload & H).
  apply commitTimerAfterSessionLock_inv in H as [(Hrep & -> & _)|(_ & _ & _ & _ & _ & _ & _ & row3 & Hf)]; [| |apply Hinv|done].
  - split; [done|]. by intros r' [= <-].
  - exfalso. by eapply stale_move.
Qed.

Lemma stale_lifecycle commit out t' :
  s_ID (lc_before commit) = sid -> s_OwnershipEpoch (lc_before commit) < g_OwnershipEpoch row ->
  CommitLifecycle fault ctxDone commit t = (out, t') -> t' = t /\ exists e, out = Err e.
Proof.
  intros Hid Hold H. apply CommitLifecycle_inv in H; [|apply Hinv]. destruct out as [r|e]; [|split; [done|by eexists]].
  exfalso. destruct H as (Hv & current & n & n' & Hload & H). apply persistLifecycle_inv in H as (row3 & _ & Hcur & _); [|apply Hinv|done].
  unfold validateCurrentLifecycleTransition in Hcur. inv_result Hcur. apply negb_false_iff, Z.eqb_eq in E.
  destruct (loaded_row _ _ _ (st_sessions _ Hinv) Hload) as (row4 & Hrow4 & _ & _ & _ & Hep4 & _). rewrite Hid in Hrow4.
  assert (row4 = row) as -> by congruence. lia.
Qed.

Lemma stale_acquire b next out t' :
  s_ID b = sid -> 0 <= s_OwnershipEpoch b < g_OwnershipEpoch row -> AcquireOwnershipCAS fault b next t = (out, t') ->
  t' = t /\ exists e, out = Err e.
Proof.
  intros Hid Hold H. apply AcquireOwnershipCAS_inv in H; [|apply Hinv]. destruct out as [r|e]; [|split; [done|by eexists]].
  exfalso. destruct H as (_ & row3 & Hre3 & _ & _ & Hep3 & _). pose proof (re_row _ _ _ _ _ Hre3) as Hrow3. rewrite Hid in Hrow3.
  destruct (si_widths _ (st_sessions _ Hinv) _ _ Hrow). rewrite i64_id in Hep3 by lia. assert (row3 = row) as -> by congruence. lia.
Qed.
End Stale.

Lemma stale_system t sid row fault ctxDone commit out t' :
  StoreInv t -> game_sessions t !! sid = Some row -> s_ID (before commit) = sid -> s_OwnershipEpoch (before commit) < g_OwnershipEpoch row ->
  CommitSystem fault ctxDone commit t = (out, t') ->
  game_sessions t' = game_sessions t /\ session_timers t' = session_timers t /\ event_batches t' = event_batches t /\ outbox t' = outbox t.
Proof.
  intros Hinv Hrow Hid Hold H. apply CommitSystem_inv in H; [|apply Hinv]. destruct out as [r|]; [|by subst].
  destruct H as (Hv & _ & current & n & n' & Hload & H).
  apply commitSystemAfterSessionLock_inv in H as [(_ & Hframe & _)|(_ & _ & _ & row3 & t1 & op & Hframe & Hf & _)]; [| |apply Hinv|done|done].
  - apply onlyOperation_frame in Hframe as (? & ? & ? & ? & _). done.
  - exfalso. assert (Hinv1 := onlyOperation_StoreInv _ _ _ Hinv Hframe). apply onlyOperation_frame in Hframe as (E1 & _ & _ & E2 & E3).
    eapply (stale_move t1 Hinv1 sid row); [by rewrite E1| |exact Hf|done|done].
    rewrite (loadSession_other t t1); [done|by rewrite E1|by rewrite E2|by rewrite E3].
Qed.

(** C20: Once a process has taken over a session in the store, every commit of an
    earlier epoch leaves the sessions, the history and the outbox as they are,
    whatever operations ran in between and however they failed: actions and
    timers can only replay a receipt, system commands are told to reload,
    lifecycle changes and further takeovers are refused. *)
Theorem takeover_fences_store t fault0 b next s1 t1 t2 :
  store_reachable t -> 0 <= s_OwnershipEpoch b -> AcquireOwnershipCAS fault0 b next t = (Ok s1, t1) -> rtc store_step t1 t2 ->
  s_OwnershipEpoch s1 = s_OwnershipEpoch b + 1 /\
  (forall fault ctxDone commit out t3, s_ID (before commit) = s_ID b -> s_OwnershipEpoch (before commit) <= s_OwnershipEpoch b ->
     CommitAction fault ctxDone commit t2 = (out, t3) -> t3 = t2 /\ forall r, out = Ok r -> ar_Replayed r = true) /\
  (forall fault ctxDone commit out t3, s_ID (before commit) = s_ID b -> s_OwnershipEpoch (before commit) <= s_OwnershipEpoch b ->
     CommitTimer fault ctxDone commit t2 = (out, t3) -> t3 = t2 /\ forall r, out = Ok r -> tcr_Replayed r = true) /\
  (forall fault ctxDone commit out t3, s_ID (before commit) = s_ID b -> s_OwnershipEpoch (before commit) <= s_OwnershipEpoch b ->
     CommitSystem fault ctxDone commit t2 = (out, t3) ->
     game_sessions t3 = game_sessions t2 /\ session_timers t3 = session_timers t2 /\ event_batches t3 = event_batches t2 /\ outbox t3 = outbox t2) /\
  (forall fault ctxDone commit out t3, s_ID (lc_before commit) = s_ID b -> s_OwnershipEpoch (lc_before commit) <= s_OwnershipEpoch b ->
     CommitLifecycle fault ctxDone commit t2 = (out, t3) -> t3 = t2 /\ exists e, out = Err e) /\
  (forall fault b' next' out t3, s_ID b' = s_ID b -> 0 <= s_OwnershipEpoch b' <= s_OwnershipEpoch b ->
     AcquireOwnershipCAS fault b' next' t2 = (out, t3) -> t3 = t2 /\ exists e, out = Err e).
Proof.
  intros Hinv%reachable_StoreInv Hpos Hacq Hrun. pose proof (st_sessions _ Hinv) as Hs.
  assert (Hinv1 : StoreInv t1) by (eapply store_step_StoreInv; [done|by eapply step_acquire]).
  apply AcquireOwnershipCAS_inv in Hacq as (Hval & row & Hre & _ & _ & Hep & Hload1); [|apply Hs].
  assert (Hmax : s_OwnershipEpoch b <= maxInt64).
  { unfold validateOwnershipTransition in Hval. inv_result Hval. repeat (apply orb_false_iff in E as [E ?]). to_prop. done. }
  rewrite i64_id in Hep by done.
  destruct (loaded_row _ _ _ (st_sessions _ Hinv1) Hload1) as (row1 & Hrow1 & _ & _ & _ & Hep1 & _).
  assert (Hnew : g_OwnershipEpoch row1 = s_OwnershipEpoch b + 1).
  { rewrite (re_sessions _ _ _ _ _ Hre), lookup_insert_eq in Hrow1. injection Hrow1 as <-. cbn. lia. }
  destruct (store_run_sound _ _ Hinv1 Hrun) as [Hinv2 Hgrow]. destruct (Hgrow _ _ Hrow1) as (row2 & Hrow2 & Hle). split; [congruence|].
  split_and!; intros *; intros Hid Hold H.
  - eapply stale_action; [exact Hinv2|exact Hrow2|exact Hid|lia|exact H].
  - eapply stale_timer; [exact Hinv2|exact Hrow2|exact Hid|lia|exact H].
  - eapply stale_system; [exact Hinv2|exact Hrow2|exact Hid|lia|exact H].
  - eapply stale_lifecycle; [exact Hinv2|exact Hrow2|exact Hid|lia|exact H].
  - eapply stale_acquire; [exact Hinv2|exact Hrow2|exact Hid|lia|exact H].
Qed.

Lemma takeover_fences_store_witness : snd (CommitAction noFault false (storeAction storeOwned 1) tables3) = tables3.
Proof.
  destruct (takeover_fences_store tables2 noFault storeOwned storeTaken storeTaken tables3 tables3 tables2_reachable) as (_ & H & _);
    [vm_compute; discriminate|vm_compute; reflexivity|apply rtc_refl|].
  apply (H noFault false (storeAction storeOwned 1) (fst (CommitAction noFault false (storeAction storeOwned 1) tables3)));
    [vm_compute; reflexivity|vm_compute; discriminate|apply surjective_pairing].
Defined.

(** ** Sessions are stored as they are *)

(** Without failures a valid session whose identifiers are new is created in a
    room that has no other, and reading it returns exactly the session. *)
Theorem create_then_get commit t :
  store_reachable t -> CreationCommit_Valid commit = true -> BatchOK (cc_Batch commit) -> validateCreationWidths commit = Ok tt ->
  creationReady commit t ->
  exists t', Create noFault false commit t = (Ok (cc_Session commit), t') /\
    Get noFault (s_ID (cc_Session commit)) t' = (Ok (cc_Session commit), t').
Proof.
  intros Hinv%reachable_StoreInv Hv Hb Hw Hr. destruct (Create_ok commit t Hinv Hv Hb Hw Hr) as [t' H]. exists t'. split; [done|].
  apply Create_inv in H as (_ & _ & Hc). destruct (CreationCommit_facts _ Hv) as (_ & _ & _ & _ & Hne).
  apply Get_ok; [done|]. apply (cr_load _ _ _ _ Hc).
Qed.

Lemma storeEvent_ready eventType at_ id k t :
  outbox_next t = k -> 0 < k -> k < maxInt64 -> eventOK (storeEvent id eventType at_) -> outbox t !! id = None ->
  outboxReady [storeEvent id eventType at_] t.
Proof.
  intros E H1 H2 Hok Hn. constructor; rewrite ?E; [by constructor|done|unfold len; cbn; lia| |].
  - apply NoDup_singleton.
  - by constructor.
Qed.

Lemma create_then_get_witness : exists t', Get noFault 71 t' = (Ok storeCreated.1, t').
Proof.
  destruct (create_then_get storeCreation tables0 tables0_reachable) as (t' & _ & H); [vm_compute; reflexivity..| |exists t'; exact H].
  constructor; [|vm_compute; reflexivity|vm_compute; reflexivity| |vm_compute; reflexivity|vm_compute; reflexivity|vm_compute; reflexivity|].
  - apply (RestoreSession_SessionOK storeCreated.1). vm_compute. reflexivity.
  - intros _ sid row Hrow. exfalso. exact (eq_ind None (fun o => match o with None => True | Some _ => False end) I _ Hrow).
  - apply (storeEvent_ready _ _ _ 1); [reflexivity|lia|reflexivity|split; vm_compute; reflexivity|reflexivity].
Defined.

(** C21: Without failures a valid action of a participant, computed on the session
    as it is stored, is committed: the answer and every later read are exactly
    the session the engine returned.  Committing it again, as a client that lost
    the answer does, returns the same receipt and changes nothing. *)
Theorem valid_action_stored_once commit t :
  store_reachable t -> ActionCommit_Valid commit = true -> BatchOK (batch commit) -> validateActionWidths commit = Ok tt ->
  receiptOK (receipt commit) -> actionReady commit t ->
  exists t', CommitAction noFault false commit t = (Ok (mkActionResult (after commit) (receipt commit) false), t') /\
    Get noFault (s_ID (before commit)) t' = (Ok (after commit), t') /\
    CommitAction noFault false commit t' = (Ok (mkActionResult (after commit) (receipt commit) true), t').
Proof.
  intros Hinv%reachable_StoreInv Hv Hb Hw Hrk Hr. destruct (CommitAction_ok commit t Hinv Hv Hb Hw Hr) as [t' H]. exists t'. split; [done|].
  assert (Hinv' : StoreInv t') by (eapply store_step_StoreInv; [done|by eapply step_action]).
  apply CommitAction_inv in H as (_ & _ & _ & n & n' & H); [|apply Hinv].
  apply commitActionAfterRoomLock_inv in H as (current & Hload & [(H & _)|(_ & _ & _ & Ea & _ & _ & row & _ & _ & Had & Hst)]); [done| |apply Hinv|done].
  cbn [ar_Session] in Hst. pose proof (loaded_row _ _ _ (st_sessions _ Hinv) (rd_loaded _ _ Hr)) as (row0 & _ & _ & Hl & _ & _ & _ & Hid & _).
  apply sessionFromRows_Ok in Hl as (? & ? & ? & ? & ? & ? & ? & _ & _ & _ & _ & _ & _ & _ & _ & _ & _ & _ & Hok%RestoreSession_SessionOK).
  destruct (SessionOK_header _ Hok) as (Hne & _). split; [by apply Get_ok|].
  apply CommitAction_again; try done; [apply Hinv'|rewrite (ad_rooms _ _ _ _ _ _ _ Had); apply Hr..|].
  rewrite Ea. apply lookup_insert_eq.
Qed.

Lemma valid_action_stored_once_witness : exists t',
  CommitAction noFault false moveCommit t' = (Ok (mkActionResult (after moveCommit) (receipt moveCommit) true), t').
Proof.
  destruct (valid_action_stored_once moveCommit tables3 tables3_reachable) as (t' & _ & _ & H); [vm_compute; reflexivity..| | |exists t'; exact H].
  - constructor; [vm_compute; reflexivity..|]. vm_compute. split; [reflexivity|discriminate].
  - constructor; [vm_compute; reflexivity| |vm_compute; reflexivity| | |vm_compute; reflexivity| |vm_compute; reflexivity|].
    + apply (RestoreSession_SessionOK (after moveCommit)). vm_compute. reflexivity.
    + eexists. split; vm_compute; reflexivity.
    + eexists. split; vm_compute; reflexivity.
    + intros _ source row Hrow. assert (E : system_inbox tables3 = ∅) by (vm_compute; reflexivity). rewrite E, lookup_empty in Hrow. discriminate Hrow.
    + apply (storeEvent_ready _ _ _ 2); [vm_compute; reflexivity|lia|reflexivity|split; vm_compute; reflexivity|vm_compute; reflexivity].
Defined.

(** ** A start that cannot be stored, a resumption that is lost *)

(** A session that was started without the versions of its room is valid, but its
    start is stored with missing columns and is refused when it is read back in
    the same transaction, so it is never created. *)
Theorem unversioned_start_refused fault ctxDone commit t out t' :
  Message_Valid (Config (s_Start (cc_Session commit))) = true -> f_RoomVersion (s_Start (cc_Session commit)) = 0 ->
  Create fault ctxDone commit t = (out, t') -> t' = t /\ exists e, out = Err e.
Proof.
  intros Hm Hz H. apply Create_inv in H. destruct out as [stored|e]; [|split; [done|by eexists]]. exfalso.
  destruct H as (_ & _ & Hc). pose proof (cr_load _ _ _ _ Hc) as Hl. apply loadSession_row in Hl as (row & Hrow & Hs).
  rewrite (cr_sessions _ _ _ _ Hc), lookup_insert_eq in Hrow. injection Hrow as <-.
  apply sessionFromRows_Ok in Hs as (? & ? & ? & ? & ? & ? & ? & _ & _ & _ & _ & _ & _ & _ & _ & _ & _ & Hstart & _).
  unfold frozenStartConfigFromRow in Hstart.
  cbn [createGameSessionParams g_StartConfigMessageType g_StartConfigSchemaVersion g_StartConfigPayload g_StartConfigDigest g_StartConfigRevision
    g_StartRoomVersion g_StartMembershipVersion g_StartOwnershipEpoch] in Hstart.
  rewrite Hm, Hz in Hstart. cbn [optionalBytea] in Hstart. rewrite (bool_decide_true (is_Some (Some _))) in Hstart by done.
  rewrite !orb_true_r in Hstart. cbn [orb negb] in Hstart. change (optionalUint64ToPG 0) with (@None Z) in Hstart.
  destruct (optionalIdentifierToPG _); [|done]. destruct (optionalUint32ToPG _); [|done]. by destruct (startConfigRevisionToPG _).
Qed.

Definition unversionedCreation : CreationCommit :=
  mkCreationCommit sampleCreated.1 sampleCreated.2
    [Outbox.mkEvent 0 201 GameSessionCreatedEventType GameSessionAggregateType 5 [1] 1000000 1000000] None.

Lemma unversioned_start_refused_witness : CreationCommit_Valid unversionedCreation = true /\
  exists e, fst (Create noFault false unversionedCreation tables0) = Err e.
Proof.
  split; [vm_compute; reflexivity|].
  apply (unversioned_start_refused noFault false unversionedCreation tables0 (fst (Create noFault false unversionedCreation tables0))
    (snd (Create noFault false unversionedCreation tables0))); [vm_compute; reflexivity|vm_compute; reflexivity|apply surjective_pairing].
Defined.

(** The session of the sample store is paused and resumed by its owner. *)
Definition storePaused : Session := Eval vm_compute in okOr noSession (Suspend storeTaken 2 4000000).
Definition storeResumed : Session := Eval vm_compute in okOr noSession (Resume storePaused 2 5000000).
Definition tables5 : Tables := snd (CommitLifecycle noFault false
  (mkLifecycleCommit storeTaken storePaused [storeEvent 203 GameSessionSuspendedEventType 4000000]) tables3).
Definition tables6 : Tables := snd (CommitLifecycle noFault false
  (mkLifecycleCommit storePaused storeResumed [storeEvent 204 GameSessionResumedEventType 5000000]) tables5).

(** An action computed on the session as it was before the pause still commits
    after it, because neither the pause nor the resumption changes the version or
    the epoch that are compared: what the resumption stored is replaced, and the
    time of the last change goes back. *)
Theorem action_overwrites_resumption :
  loadSession tables6 71 = Some storeResumed /\ before moveCommit = storeTaken /\ s_Timers storeTaken <> s_Timers storeResumed /\
  exists r, fst (CommitAction noFault false moveCommit tables6) = Ok r /\ ar_Replayed r = false /\
    s_UpdatedAt (ar_Session r) < s_UpdatedAt storeResumed.
Proof.
  split_and!; [vm_compute; reflexivity|reflexivity|vm_compute; discriminate|].
  exists (mkActionResult (after moveCommit) (receipt moveCommit) false). split_and!; vm_compute; reflexivity.
Qed.

End RuntimeStoreTheorems.
