(* ===== verification/RoomGameRepository.v ===== *)
(** * Rooms and their games: the transactions over both

    [RoomGameSessionRepository] of
    [platform/persistence/postgres/room_game_session_repository.go]: starting,
    finishing, cancelling, suspending and resuming the session of a room in one
    transaction over the rows of the room and of the session, with the statements
    of [sqlcgen/room.sql.go] and [sqlcgen/game_session.sql.go] only it runs.

    The steps of [RoomStore] run on the room tables of [Tables] and share the
    count of steps, and with it the faults, of the transaction ([onRooms]). *)

From stdpp Require Import gmap.
From S2P Require Import Prelude GoLib Sha256 Selector GameManifest GameContract Outbox Room RoomStore Runtime RuntimeCommit RuntimeStore RuntimeQueries RuntimeRepository.

Module RoomGameRepository.
Import GoLib Selector GameManifest GameContract Runtime RuntimeCommit RuntimeStore RuntimeQueries RuntimeRepository.

Abbreviation Room := Room.Room.
Abbreviation RoomSnapshot := Room.RoomSnapshot.

#[global] Instance PauseRequest_eq_dec : EqDecision Room.PendingPauseRequest.
Proof. solve_decision. Defined.
#[global] Instance Pause_eq_dec : EqDecision Room.ActivePause.
Proof. solve_decision. Defined.

(** ** Errors *)
Inductive GameStoreError :=
| OfRoom (e : Room.RoomError)
| OfSession (e : RuntimeError)
| Interrupted.

Definition roomPassedOn (e : Room.RoomError) : bool :=
  match e with
  | Room.ErrInvalidRoomInput | Room.ErrHostRequired | Room.ErrPendingStartInvalid | Room.ErrRoomVersionConflict
  | Room.ErrRoomNotFound | Room.ErrRoomIntegrity | Room.ErrRoomRepositoryUnavailable => true
  | _ => false
  end.

Definition sessionPassedOn (e : RuntimeError) : bool :=
  match e with
  | ErrInvalidSessionInput | ErrSessionAlreadyExists | ErrStateVersionConflict | ErrOwnershipLost | ErrSessionSuspended
  | ErrSessionTerminal | ErrParticipantNotActive | ErrSystemOperationPending | ErrInvalidActionCommit | ErrInvalidTimerCommit
  | ErrInvalidSystemCommit | ErrInvalidLifecycleCommit | ErrGameSessionIntegrity | ErrGameSessionRepositoryUnavailable
  | ErrConflict => true
  | _ => false
  end.

Definition mapRoomGameSessionStartError (err : DbError) : GameStoreError :=
  match err with
  | ContextError => Interrupted
  | RoomFailure e => OfRoom (if roomPassedOn e then e else Room.ErrRoomRepositoryUnavailable)
  | DomainError e => if sessionPassedOn e then OfSession e else OfRoom Room.ErrRoomRepositoryUnavailable
  | PgError code =>
      if String.eqb code "23505" then OfSession ErrSessionAlreadyExists
      else if String.eqb code "23502" || String.eqb code "23503" || String.eqb code "23514" || String.eqb code "22P02"
      then OfSession ErrGameSessionIntegrity
      else if String.eqb code "40001" || String.eqb code "40P01" then OfRoom Room.ErrRoomVersionConflict
      else OfRoom Room.ErrRoomRepositoryUnavailable
  | ErrNoRows | OutboxFailure _ | DriverError => OfRoom Room.ErrRoomRepositoryUnavailable
  end.

(** ** Comparisons *)

(** The map of [sameRoomMembers], by user: the last member of a user counts. *)
Definition membersByUser (members : list Room.MemberSnapshot) : gmap UUID Room.MemberSnapshot :=
  foldl (fun m member => <[Room.m_UserID member := member]> m) ∅ members.

Definition sameRoomMembers (left right : list Room.MemberSnapshot) : bool :=
  if negb (len left =? len right) then false
  else forallb (fun member =>
    match membersByUser left !! Room.m_UserID member with
    | None => false
    | Some current =>
        String.eqb (Room.m_Role current) (Room.m_Role member)
        && String.eqb (Room.m_RequestedRole current) (Room.m_RequestedRole member)
        && (Room.m_SeatIndex current =? Room.m_SeatIndex member) && (Room.m_JoinedAt current =? Room.m_JoinedAt member)
        && (Room.m_LastSeenAt current =? Room.m_LastSeenAt member)
    end) right.

(** What [sameRoomSnapshot] and [sameRoomOutsidePauseGovernance] both compare. *)
Definition sameRoomFields (left right : RoomSnapshot) : bool :=
  (Room.ID left =? Room.ID right) && String.eqb (Room.RoomCode left) (Room.RoomCode right)
  && String.eqb (Room.visibility left) (Room.visibility right) && String.eqb (Room.Status left) (Room.Status right)
  && (Room.HostUserID left =? Room.HostUserID right) && (Room.ParticipantCapacity left =? Room.ParticipantCapacity right)
  && String.eqb (Room.ParticipantAdmission left) (Room.ParticipantAdmission right)
  && String.eqb (Room.SpectatorAdmission left) (Room.SpectatorAdmission right)
  && (Room.ActiveSessionID left =? Room.ActiveSessionID right) && String.eqb (Room.ActiveGameID left) (Room.ActiveGameID right)
  && (Room.LastFinishedSessionID left =? Room.LastFinishedSessionID right)
  && String.eqb (Room.LastFinishedGameID left) (Room.LastFinishedGameID right)
  && String.eqb (Room.SelectedGameID left) (Room.SelectedGameID right)
  && (Room.OwnershipEpoch left =? Room.OwnershipEpoch right)
  && (Room.MembershipVersion left =? Room.MembershipVersion right) && (Room.CreatedAt left =? Room.CreatedAt right)
  && sameRoomMembers (Room.Members left) (Room.Members right).

Definition sameRoomSnapshot (left right : RoomSnapshot) : bool :=
  sameRoomFields left right
  && bool_decide (Room.PendingPause left = Room.PendingPause right)
  && bool_decide (Room.CurrentPause left = Room.CurrentPause right)
  && (Room.RoomVersion left =? Room.RoomVersion right) && (Room.UpdatedAt left =? Room.UpdatedAt right).

Definition sameRoomOutsidePauseGovernance (left right : RoomSnapshot) : bool :=
  sameRoomFields left right && (Room.RoomVersion right =? u64 (Room.RoomVersion left + 1)).

Definition sameTerminatingSessionIdentity (left right : SessionSnapshot) : bool :=
  (s_ID left =? s_ID right) && (s_RoomID left =? s_RoomID right)
  && bool_decide (s_VersionKey left = s_VersionKey right) && (s_OwnershipEpoch left =? s_OwnershipEpoch right)
  && (s_StartedAt left =? s_StartedAt right) && bool_decide (s_Participants left = s_Participants right).

Definition samePersistedTerminalSession (current proposed : SessionSnapshot) (status : string) : bool :=
  (s_ID current =? s_ID proposed) && (s_RoomID current =? s_RoomID proposed)
  && bool_decide (s_VersionKey current = s_VersionKey proposed) && (s_OwnershipEpoch current =? s_OwnershipEpoch proposed)
  && (StateVersion (s_State current) =? StateVersion (s_State proposed)) && String.eqb (s_Status current) status
  && (s_EndedAt current =? s_UpdatedAt current) && String.eqb (s_CancelReason current) (s_CancelReason proposed).

(** ** Guards *)

(** The seats of the participants of a room, by user. *)
Definition roomParticipants (members : list Room.MemberSnapshot) : gmap UUID Z :=
  foldl (fun m member =>
           if String.eqb (Room.m_Role member) Room.MemberRoleParticipant
           then <[Room.m_UserID member := Room.m_SeatIndex member]> m else m) ∅ members.

Definition startRoomsMatch (b a : RoomSnapshot) : bool :=
  (String.eqb (Room.Status b) Room.RoomStatusLobby || String.eqb (Room.Status b) Room.RoomStatusPostGame)
  && (Room.ActiveSessionID b =? Nil) && String.eqb (Room.ActiveGameID b) ""
  && String.eqb (Room.Status a) Room.RoomStatusPlaying && negb (Room.ActiveSessionID a =? Nil)
  && negb (String.eqb (Room.ActiveGameID a) "") && String.eqb (Room.ParticipantAdmission a) Room.AdmissionClosed
  && (Room.LastFinishedSessionID a =? Nil) && String.eqb (Room.LastFinishedGameID a) ""
  && (Room.ID b =? Room.ID a) && String.eqb (Room.RoomCode b) (Room.RoomCode a)
  && String.eqb (Room.visibility b) (Room.visibility a) && (Room.HostUserID b =? Room.HostUserID a)
  && (Room.ParticipantCapacity b =? Room.ParticipantCapacity a)
  && String.eqb (Room.SpectatorAdmission b) (Room.SpectatorAdmission a)
  && (Room.MembershipVersion b =? Room.MembershipVersion a) && (Room.CreatedAt b =? Room.CreatedAt a)
  && sameRoomMembers (Room.Members b) (Room.Members a).

Definition validateRoomGameSessionStart (b a : RoomSnapshot) (commit : CreationCommit) : result GameStoreError unit :=
  let session := cc_Session commit in
  if negb (startRoomsMatch b a) then Err (OfRoom Room.ErrInvalidRoomInput)
  else if negb (s_ID session =? Room.ActiveSessionID a) || negb (s_RoomID session =? Room.ID a)
          || negb (String.eqb (GameID (s_VersionKey session)) (Room.ActiveGameID a))
          || negb (String.eqb (s_Status session) StatusActive) || negb (s_StartedAt session =? Room.UpdatedAt a)
  then Err (OfSession ErrInvalidSessionInput)
  else if negb (Z.of_nat (size (roomParticipants (Room.Members a))) =? len (s_Participants session))
  then Err (OfSession ErrInvalidSessionInput)
  else if negb (forallb (fun participant =>
                   bool_decide (roomParticipants (Room.Members a) !! p_UserID participant = Some (p_SeatIndex participant)))
                  (s_Participants session))
  then Err (OfSession ErrInvalidSessionInput)
  else Ok tt.

Definition validatePendingStartProof (b : RoomSnapshot) (commit : CreationCommit) : result GameStoreError unit :=
  match cc_PendingStartProof commit with
  | None => Ok tt
  | Some proof =>
      let start := s_Start (cc_Session commit) in
      if negb (PendingStartProof_Valid proof) then Err (OfSession ErrInvalidSessionInput)
      else if (ConfigRevision start =? 0) || (f_RoomVersion start =? 0) || (f_MembershipVersion start =? 0)
              || (RoomOwnershipEpoch start =? 0)
      then Err (OfSession ErrInvalidSessionInput)
      else if negb (f_RoomVersion start =? Room.RoomVersion b) || negb (f_MembershipVersion start =? Room.MembershipVersion b)
              || negb (RoomOwnershipEpoch start =? Room.OwnershipEpoch b)
      then Err (OfSession ErrInvalidSessionInput)
      else Ok tt
  end.

(** The receipt belongs to this start of this room. *)
Definition startReceiptMatches (receipt : StartReceipt) (b : RoomSnapshot) (session : SessionSnapshot) : bool :=
  StartReceipt_Valid receipt && (stk_RoomID (stc_Key receipt) =? Room.ID b)
  && (stk_ActorUserID (stc_Key receipt) =? Room.HostUserID b) && (stc_SessionID receipt =? s_ID session)
  && (stc_CommittedAt receipt =? s_StartedAt session).

(** The room a finished or cancelled session must leave; [None] is the default of
    the switch. *)
Definition expectedTerminalRoom (b a : RoomSnapshot) (wantStatus : string) : option RoomSnapshot :=
  let ended := b <| Room.ParticipantAdmission := Room.AdmissionClosed |> <| Room.ActiveSessionID := Nil |>
                 <| Room.ActiveGameID := ""%string |> <| Room.RoomVersion := u64 (Room.RoomVersion b + 1) |>
                 <| Room.UpdatedAt := Room.UpdatedAt a |> in
  let cancelled := ended <| Room.LastFinishedSessionID := Nil |> <| Room.LastFinishedGameID := ""%string |> in
  if String.eqb wantStatus StatusCancelled then
    if String.eqb (Room.Status a) Room.RoomStatusLobby then Some (cancelled <| Room.Status := Room.RoomStatusLobby |>)
    else if String.eqb (Room.Status a) Room.RoomStatusClosed then
      Some (cancelled <| Room.Status := Room.RoomStatusClosed |> <| Room.SpectatorAdmission := Room.AdmissionClosed |>)
    else None
  else Some (ended <| Room.Status := Room.RoomStatusPostGame |> <| Room.LastFinishedSessionID := Room.ActiveSessionID b |>
                   <| Room.LastFinishedGameID := Room.ActiveGameID b |>).

Definition ofRoom {A} (r : Room.res A) : result GameStoreError A :=
  match r with Ok a => Ok a | Err e => Err (OfRoom e) end.

Definition validateRoomGameSessionTermination (b a : RoomSnapshot) (sb sa : SessionSnapshot) (wantStatus : string)
  : result GameStoreError unit :=
  let* _ := ofRoom (RoomStore.validateRoomTransition b a) in
  match expectedTerminalRoom b a wantStatus with
  | None => Err (OfSession ErrInvalidSessionInput)
  | Some expected =>
      if negb (String.eqb (Room.Status b) Room.RoomStatusPlaying) || (Room.ActiveSessionID b =? Nil)
         || negb (sameRoomSnapshot expected a) || negb (sameTerminatingSessionIdentity sb sa)
         || negb (s_ID sb =? Room.ActiveSessionID b) || negb (s_RoomID sb =? Room.ID b)
         || negb (String.eqb (GameID (s_VersionKey sb)) (Room.ActiveGameID b)) || negb (String.eqb (s_Status sa) wantStatus)
         || negb (s_UpdatedAt sa =? Room.UpdatedAt a)
      then Err (OfSession ErrInvalidSessionInput)
      else if String.eqb wantStatus StatusCancelled && negb (bool_decide (s_State sb = s_State sa))
      then Err (OfSession ErrInvalidLifecycleCommit)
      else if negb (String.eqb wantStatus StatusCancelled) && negb (String.eqb (s_CancelReason sa) "")
      then Err (OfSession ErrInvalidLifecycleCommit)
      else Ok tt
  end.

(** The state of the session is kept, or has only its payload adjusted by a resumption. *)
Definition governedStateValid (sb sa : SessionSnapshot) (wantBefore wantAfter : string) : bool :=
  if String.eqb wantBefore StatusSuspended && String.eqb wantAfter StatusActive then
    (SnapshotVersion (s_State sb) =? SnapshotVersion (s_State sa)) && (StateVersion (s_State sb) =? StateVersion (s_State sa))
    && String.eqb (MessageType (State (s_State sb))) (MessageType (State (s_State sa)))
    && (SchemaVersion (State (s_State sb)) =? SchemaVersion (State (s_State sa)))
  else bool_decide (s_State sb = s_State sa).

Definition validateRoomGameSessionGovernance (b a : RoomSnapshot) (sb sa : SessionSnapshot) (wantBefore wantAfter : string)
  : result GameStoreError unit :=
  let* _ := ofRoom (RoomStore.validateRoomTransition b a) in
  if negb (String.eqb (Room.Status b) Room.RoomStatusPlaying) || negb (String.eqb (Room.Status a) Room.RoomStatusPlaying)
     || (Room.ActiveSessionID b =? Nil) || negb (Room.ActiveSessionID b =? Room.ActiveSessionID a)
     || negb (Room.ActiveSessionID b =? s_ID sb) || negb (s_RoomID sb =? Room.ID b)
     || negb (String.eqb (GameID (s_VersionKey sb)) (Room.ActiveGameID b)) || negb (String.eqb (s_Status sb) wantBefore)
     || negb (String.eqb (s_Status sa) wantAfter) || negb (sameTerminatingSessionIdentity sb sa)
     || negb (governedStateValid sb sa wantBefore wantAfter) || negb (s_UpdatedAt sa =? Room.UpdatedAt a)
     || negb (sameRoomOutsidePauseGovernance b a)
  then Err (OfSession ErrInvalidLifecycleCommit)
  else if String.eqb wantBefore StatusActive && String.eqb wantAfter StatusSuspended then
    let pause := Room.CurrentPause a in
    if negb (Room.a_ID (Room.CurrentPause b) =? Nil) || (Room.a_ID pause =? Nil) || negb (Room.a_SessionID pause =? s_ID sb)
       || negb (Room.a_PausedAt pause =? s_SuspendedAt sa) || negb (IsZero (Room.q_RequestedAt (Room.PendingPause a)))
    then Err (OfSession ErrInvalidLifecycleCommit) else Ok tt
  else if String.eqb wantBefore StatusSuspended && String.eqb wantAfter StatusActive then
    let pause := Room.CurrentPause b in
    if (Room.a_ID pause =? Nil) || negb (Room.a_SessionID pause =? s_ID sb) || negb (Room.a_PausedAt pause =? s_SuspendedAt sb)
       || negb (Room.a_ID (Room.CurrentPause a) =? Nil) || negb (IsZero (Room.q_RequestedAt (Room.PendingPause a)))
    then Err (OfSession ErrInvalidLifecycleCommit) else Ok tt
  else Err (OfSession ErrInvalidLifecycleCommit).

(** ** Rows and parameters *)
Definition startReceiptFromRow (row : StartReceiptRow) : res StartReceipt :=
  match str_ActorUserID row, str_RoomID row, str_SessionID row, str_CommittedAt row with
  | Some actor, Some roomID, Some session, Some committedAt =>
      match ParseOperationID (str_OperationID row) with
      | Err _ => Err ErrGameSessionIntegrity
      | Ok operationID =>
          let* requestDigest := digestFromColumn (str_RequestDigest row) in
          integrity (NewStartReceipt (mkStartReceipt (mkStartKey actor roomID operationID) requestDigest session
                                        (RoundUTC committedAt)))
      end
  | _, _, _, _ => Err ErrGameSessionIntegrity
  end.

Definition startReceiptCreateParams (snapshot : StartReceipt) : StartReceiptRow :=
  mkStartReceiptRow (uuidToPG (stk_ActorUserID (stc_Key snapshot))) (uuidToPG (stk_RoomID (stc_Key snapshot)))
    (Value (stk_OperationID (stc_Key snapshot))) (stc_RequestDigest snapshot) (uuidToPG (stc_SessionID snapshot))
    (timeToPG (stc_CommittedAt snapshot)).

(** A nullable parameter that is [None] is not compared. *)
Record ConsumeRoomPendingStartParams := mkConsume {
  cp_ConsumedAt : option Time;
  cp_RoomID : UUID;
  cp_PendingStartID : UUID;
  cp_CancelToken : string;
  cp_GameID : option string;
  cp_ConfigRevision : option Z;
  cp_ExpectedRoomVersion : option Z;
  cp_ExpectedMembershipVersion : option Z;
  cp_OwnershipEpoch : option Z;
}.

Definition consumePendingStartParams (roomID : UUID) (session : SessionSnapshot) (proof : PendingStartProof)
    (committedAt : Time) : ConsumeRoomPendingStartParams :=
  let start := s_Start session in
  mkConsume (timeToPG committedAt) roomID (PendingStartID proof) (CancelToken proof) (Some (GameID (s_VersionKey session)))
    (Some (i64 (ConfigRevision start))) (Some (i64 (f_RoomVersion start))) (Some (i64 (f_MembershipVersion start)))
    (Some (i64 (RoomOwnershipEpoch start))).

Definition pendingStartMatches (params : ConsumeRoomPendingStartParams) (row : RoomStore.PendingStartRow) : bool :=
  let same (param : option Z) (column : Z) := match param with None => true | Some value => column =? value end in
  (RoomStore.ps_RoomID row =? cp_RoomID params) && (RoomStore.ps_PendingStartID row =? cp_PendingStartID params)
  && String.eqb (RoomStore.ps_CancelToken row) (cp_CancelToken params)
  && match cp_GameID params with None => true | Some game => String.eqb (RoomStore.ps_GameID row) game end
  && same (cp_ConfigRevision params) (RoomStore.ps_ConfigRevision row)
  && same (cp_ExpectedRoomVersion params) (RoomStore.ps_ExpectedRoomVersion row)
  && same (cp_ExpectedMembershipVersion params) (RoomStore.ps_ExpectedMembershipVersion row)
  && same (cp_OwnershipEpoch params) (RoomStore.ps_OwnershipEpoch row)
  && bool_decide (RoomStore.ps_CancelledAt row = None)
  && match RoomStore.ps_DeadlineAt row, cp_ConsumedAt params with
     | Some deadline, Some at_ => deadline <=? at_
     | _, _ => false
     end.

(** [COALESCE(consumed_at, $1)] *)
Definition consumed (params : ConsumeRoomPendingStartParams) (row : RoomStore.PendingStartRow) : RoomStore.PendingStartRow :=
  match RoomStore.ps_ConsumedAt row with
  | Some _ => row
  | None => row <| RoomStore.ps_ConsumedAt := cp_ConsumedAt params |>
  end.

Record FinishPartyRoomCASParams := mkFinish {
  fp_RoomVersion : Z;
  fp_UpdatedAt : option Time;
  fp_RoomID : UUID;
  fp_ActiveSessionID : UUID;
  fp_ActiveGameID : string;
  fp_ExpectedRoomVersion : Z;
  fp_ExpectedMembershipVersion : Z;
}.

Definition finishMatches (params : FinishPartyRoomCASParams) (row : RoomStore.PartyRoom) : bool :=
  String.eqb (RoomStore.row_Status row) "playing"
  && bool_decide (RoomStore.row_ActiveSessionID row = Some (fp_ActiveSessionID params))
  && bool_decide (RoomStore.row_ActiveGameID row = Some (fp_ActiveGameID params))
  && (RoomStore.row_RoomVersion row =? fp_ExpectedRoomVersion params)
  && (RoomStore.row_MembershipVersion row =? fp_ExpectedMembershipVersion params).

(** The columns the statement sets. *)
Definition finishedRoom (params : FinishPartyRoomCASParams) (row : RoomStore.PartyRoom) : RoomStore.PartyRoom :=
  RoomStore.mkPartyRoom (RoomStore.row_RoomID row) (RoomStore.row_RoomCode row) (RoomStore.row_Visibility row) "post_game"
    (RoomStore.row_HostUserID row) (RoomStore.row_ParticipantCapacity row) "closed" (RoomStore.row_SpectatorAdmission row)
    None None (RoomStore.row_ActiveSessionID row) (RoomStore.row_ActiveGameID row) (RoomStore.row_SelectedGameID row)
    (RoomStore.row_OwnershipEpoch row) None None None None None None None None None None (fp_RoomVersion params)
    (RoomStore.row_MembershipVersion row) (RoomStore.row_CreatedAt row) (fp_UpdatedAt params).

(** [ORDER BY member.user_id] *)
Definition user_before (left right : RoomStore.RoomMember) : Prop :=
  default Nil (RoomStore.rm_UserID left) <= default Nil (RoomStore.rm_UserID right).
#[global] Instance user_before_dec : RelDecision user_before.
Proof. intros l r. unfold user_before. apply _. Defined.

(** ** Errors of the room steps *)
Definition toRoomError (e : DbError) : RoomStore.DbError :=
  match e with
  | ErrNoRows => RoomStore.ErrNoRows
  | PgError code => RoomStore.PgError code ""
  | RoomFailure e => RoomStore.DomainError e
  | ContextError => RoomStore.ContextError
  | DomainError _ | OutboxFailure _ | DriverError => RoomStore.DriverError
  end.

Definition fromRoomError (e : RoomStore.DbError) : DbError :=
  match e with
  | RoomStore.ErrNoRows => ErrNoRows
  | RoomStore.PgError code _ => PgError code
  | RoomStore.DomainError e => RoomFailure e
  | RoomStore.ContextError => ContextError
  | RoomStore.DriverError => DriverError
  end.

(** Steps of a room transaction inside a transaction over all tables. *)
Definition onRooms {A} (m : RoomStore.tx A) : tx A := fun '(t, n) =>
  match m (rooms t, n) with
  | Ok (a, (d, n')) => Ok (a, (t <| rooms := d |>, n'))
  | Err e => Err (fromRoomError e)
  end.

Definition tx_room {A} (r : Room.res A) : tx A :=
  match r with Ok a => tx_ret a | Err e => tx_fail (RoomFailure e) end.

(** [mapNoRows] *)
Definition noRowsAs (e err : DbError) : DbError := match err with ErrNoRows => e | _ => err end.

Section Repository.
Context (fault : nat -> option DbError) (ctxDone : bool) (currentUsername : UUID -> option (string * string)).
Local Open Scope stx_scope.

Abbreviation Run := (RuntimeQueries.Run fault).
Abbreviation statement := (RuntimeQueries.statement fault).
Abbreviation query := (RuntimeQueries.query fault).
Abbreviation gres A := (result GameStoreError A).

Definition roomFault (n : nat) : option RoomStore.DbError := toRoomError <$> fault n.

Definition updateRoomAggregateCAS (b a : RoomSnapshot) : tx Room :=
  onRooms (RoomStore.updateRoomAggregateCAS roomFault currentUsername b a).

(** The outcome of a transaction, with the errors of both packages. *)
Definition finish {A} (outcome : result DbError A * Tables) : gres A * Tables :=
  match outcome with
  | (Ok a, t) => (Ok a, t)
  | (Err err, t) => (Err (mapRoomGameSessionStartError err), t)
  end.

(** ** Statements *)
Definition GetGameSessionStartReceipt (actor roomID : UUID) (operationID : string) : tx (option StartReceiptRow) :=
  query (fun t => start_receipts t !! (actor, roomID, operationID)).
Definition GetGameSessionStartReceiptForUpdate (actor roomID : UUID) (operationID : string) : tx (option StartReceiptRow) :=
  query (fun t => start_receipts t !! (actor, roomID, operationID)).

Definition CreateGameSessionStartReceipt (row : StartReceiptRow) : tx (option StartReceiptRow) := statement (fun t =>
  let key := (default Nil (str_ActorUserID row), default Nil (str_RoomID row), str_OperationID row) in
  if bool_decide (is_Some (start_receipts t !! key)) then Ok (None, t)
  (* session_id is unique *)
  else if existsb (fun entry => bool_decide (str_SessionID (snd entry) = str_SessionID row)) (map_to_list (start_receipts t))
  then Err unique_violation
  else Ok (Some row, t <| start_receipts := <[key := row]> (start_receipts t) |>)).

Definition ConsumeRoomPendingStart (params : ConsumeRoomPendingStartParams) : tx (option RoomStore.PendingStartRow) :=
  statement (fun t =>
    let starts := RoomStore.room_pending_starts (rooms t) in
    match List.find (pendingStartMatches params) starts with
    | None => Ok (None, t)
    | Some row =>
        let updated := (fun start => if pendingStartMatches params start then consumed params start else start) <$> starts in
        Ok (Some (consumed params row), t <| rooms := (rooms t) <| RoomStore.room_pending_starts := updated |> |>)
    end).

Definition FinishPartyRoomCAS (params : FinishPartyRoomCASParams) : tx (option RoomStore.PartyRoom) := statement (fun t =>
  match RoomStore.party_rooms (rooms t) !! fp_RoomID params with
  | Some row =>
      if finishMatches params row then
        let row' := finishedRoom params row in
        Ok (Some row', t <| rooms := (rooms t) <| RoomStore.party_rooms :=
                              <[fp_RoomID params := row']> (RoomStore.party_rooms (rooms t)) |> |>)
      else Ok (None, t)
  | None => Ok (None, t)
  end).

Definition replayMembersOf (t : Tables) (sessionID : UUID) : list ReplayMemberRow := default [] (replay_members t !! sessionID).

Definition CaptureGameSessionReplayMembers (sessionID roomID : UUID) : tx unit := statement (fun t =>
  let rows := (fun member => mkReplayMemberRow (uuidToPG sessionID) (RoomStore.rm_UserID member) (RoomStore.rm_Role member))
                <$> merge_sort user_before (RoomStore.membersOf (rooms t) roomID) in
  if existsb (fun row => existsb (fun other => bool_decide (rpm_UserID other = rpm_UserID row)) (replayMembersOf t sessionID)) rows
  then Err unique_violation
  else Ok (tt, t <| replay_members := <[sessionID := replayMembersOf t sessionID ++ rows]> (replay_members t) |>)).

(** The number of rows affected. *)
Definition CompleteGameSessionReplayMemberSnapshot (completedAt : option Time) (sessionID roomID : UUID) : tx Z :=
  statement (fun t =>
    match replay_access t !! sessionID with
    | Some row =>
        if bool_decide (ra_RoomID row = Some roomID) && bool_decide (ra_MemberSnapshotCompletedAt row = None) then
          Ok (1, t <| replay_access := <[sessionID := row <| ra_MemberSnapshotCompletedAt := completedAt |>
                                                          <| ra_UpdatedAt := completedAt |>]> (replay_access t) |>)
        else Ok (0, t)
    | None => Ok (0, t)
    end).

(** ** Locks *)
Definition lockRoomForUpdate (roomID : UUID) : tx Room :=
  do* row := one_or (GetPartyRoomForUpdate fault roomID) (RoomFailure Room.ErrRoomNotFound) in
  do* members := onRooms (RoomStore.ListRoomMembers roomFault roomID) in
  tx_room (RoomStore.roomFromRows row members).

Definition lockExactRoom (b : RoomSnapshot) : tx Room :=
  do* locked := lockRoomForUpdate (Room.ID b) in
  if negb (sameRoomSnapshot locked b) then tx_fail (RoomFailure Room.ErrRoomVersionConflict) else tx_ret locked.

(** ** Starting *)
Definition GetStartReceipt (key : StartKey) (requestDigest : Digest) (t : Tables) : sres StartReceipt * Tables :=
  if negb (StartKey_Valid key) then (Err (Domain ErrInvalidSessionInput), t)
  else RuntimeRepository.finish ErrStartReceiptNotFound (Run (
    do* row := one (GetGameSessionStartReceipt (stk_ActorUserID key) (stk_RoomID key) (Value (stk_OperationID key))) in
    do* receipt := tx_lift (startReceiptFromRow row) in
    do* _ := tx_lift (StartReceipt_Replay receipt requestDigest) in
    tx_ret receipt) t).

(** The transaction of [Start]. *)
Definition startTransaction (b a : RoomSnapshot) (commit : CreationCommit) (receipt : StartReceipt)
  : tx (Room * Session * bool) :=
  let key := stc_Key receipt in
  do* locked := lockRoomForUpdate (Room.ID b) in
  do* existingRow := GetGameSessionStartReceiptForUpdate (stk_ActorUserID key) (stk_RoomID key) (Value (stk_OperationID key)) in
  match existingRow with
  | Some row =>
      do* existing := tx_lift (startReceiptFromRow row) in
      do* _ := tx_lift (StartReceipt_Replay existing (stc_RequestDigest receipt)) in
      do* session := getGameSessionForUpdate fault (stc_SessionID existing) in
      tx_ret (locked, session, true)
  | None =>
      if negb (sameRoomSnapshot locked b) then tx_fail (RoomFailure Room.ErrRoomVersionConflict)
      else
        do* _ := match cc_PendingStartProof commit with
                 | None => tx_ret tt
                 | Some proof =>
                     do* _ := one_or (ConsumeRoomPendingStart (consumePendingStartParams (Room.ID b) (cc_Session commit) proof
                                                                 (stc_CommittedAt receipt)))
                                (RoomFailure Room.ErrPendingStartInvalid) in
                     tx_ret tt
                 end in
        do* storedRoom := tx_map_err (noRowsAs (RoomFailure Room.ErrRoomVersionConflict)) (updateRoomAggregateCAS b a) in
        do* storedSession := createGameSessionAggregate fault ctxDone commit in
        do* row := one (CreateGameSessionStartReceipt (startReceiptCreateParams receipt)) in
        do* persisted := tx_lift (startReceiptFromRow row) in
        do* _ := tx_lift (StartReceipt_Replay persisted (stc_RequestDigest receipt)) in
        tx_ret (storedRoom, storedSession, false)
  end.

Definition Start (b a : Room) (commit : CreationCommit) (receipt : StartReceipt) (t : Tables)
  : gres (Room * Session * bool) * Tables :=
  match ofRoom (RoomStore.validateRoomTransition b a) with
  | Err e => (Err e, t)
  | Ok _ =>
      if negb (CreationCommit_Valid commit) then (Err (OfSession ErrInvalidSessionInput), t)
      else match validateCreationWidths commit with
      | Err e => (Err (OfSession e), t)
      | Ok _ =>
          match validateRoomGameSessionStart b a commit with
          | Err e => (Err e, t)
          | Ok _ =>
              match validatePendingStartProof b commit with
              | Err e => (Err e, t)
              | Ok _ =>
                  if negb (startReceiptMatches receipt b (cc_Session commit)) then (Err (OfSession ErrInvalidSessionInput), t)
                  else finish (Run (startTransaction b a commit receipt) t)
              end
          end
      end
  end.

(** ** Finishing *)
Definition finishPartyRoomParams (b a : RoomSnapshot) : FinishPartyRoomCASParams :=
  mkFinish (i64 (Room.RoomVersion a)) (timeToPG (Room.UpdatedAt a)) (Room.ID b) (Room.ActiveSessionID b) (Room.ActiveGameID b)
    (i64 (Room.RoomVersion b)) (i64 (Room.MembershipVersion b)).

Definition finishPartyRoomAggregateCAS (b a : RoomSnapshot) : tx Room :=
  do* _ := CaptureGameSessionReplayMembers (Room.ActiveSessionID b) (Room.ID b) in
  do* completed := CompleteGameSessionReplayMemberSnapshot (timeToPG (Room.UpdatedAt a)) (Room.ActiveSessionID b) (Room.ID b) in
  if negb (completed =? 1) then tx_fail (DomainError ErrGameSessionIntegrity)
  else
    do* row := one_or (FinishPartyRoomCAS (finishPartyRoomParams b a)) (RoomFailure Room.ErrRoomVersionConflict) in
    do* members := onRooms (RoomStore.ListRoomMembers roomFault (Room.ID b)) in
    do* stored := tx_room (RoomStore.roomFromRows row members) in
    if negb (sameRoomSnapshot stored a) then tx_fail (RoomFailure Room.ErrRoomIntegrity) else tx_ret stored.

(** The session already ended as the commit says, at the version of the receipt. *)
Definition replayMatches (current proposed : Session) (version : Z) : bool :=
  samePersistedTerminalSession current proposed StatusFinished && (version =? StateVersion (s_State current)).

Definition replayFinishedActionAfterRoomChange (commit : ActionCommit) : tx ActionCommitResult :=
  let key := ac_Key (receipt commit) in
  do* current := getGameSessionForUpdate fault (s_ID (before commit)) in
  do* row := one_or (GetGameActionReceipt fault (ak_SessionID key) (ak_ActorUserID key) (Value (ak_ActionID key)))
               (RoomFailure Room.ErrRoomVersionConflict) in
  do* stored := tx_lift (actionReceiptFromRow row) in
  do* _ := tx_lift (ActionReceipt_Replay stored (ac_RequestDigest (receipt commit))) in
  if negb (replayMatches current (after commit) (ac_StateVersion stored)) then tx_fail (DomainError ErrGameSessionIntegrity)
  else tx_ret (mkActionResult current stored true).

Definition replayFinishedTimerAfterRoomChange (current : Session) (commit : TimerCommit) : tx TimerCommitResult :=
  let key := tc_Key (receipt commit) in
  do* row := one_or (GetGameTimerReceipt fault (tk_SessionID key) (tk_TimerID key) (i64 (tk_ExpectedStateVersion key)))
               (RoomFailure Room.ErrRoomVersionConflict) in
  do* stored := tx_lift (timerReceiptFromRow row) in
  if negb (replayMatches current (after commit) (tc_StateVersion stored)) then tx_fail (DomainError ErrGameSessionIntegrity)
  else tx_ret (mkTimerResult current stored true).

Definition replayFinishedSystemAfterRoomChange (current : Session) (commit : SystemCommit) : tx SystemCommitResult :=
  let key := RuntimeCommit.sc_Key (receipt commit) in
  do* row := one_or (GetGameSystemOperationForUpdate fault (sk_SessionID key) (Value (sk_OperationID key)))
               (RoomFailure Room.ErrRoomVersionConflict) in
  match completedSystemReceiptFromRow row key (RuntimeCommit.sc_RequestDigest (receipt commit)) with
  | Err ErrSystemOperationPending => tx_fail (RoomFailure Room.ErrRoomVersionConflict)
  | Err e => tx_fail (DomainError e)
  | Ok stored =>
      if negb (replayMatches current (after commit) (RuntimeCommit.sc_StateVersion stored))
      then tx_fail (DomainError ErrGameSessionIntegrity)
      else tx_ret (mkSystemResult current stored true false)
  end.

Definition FinishAction (b a : Room) (commit : ActionCommit) (t : Tables) : gres (Room * ActionCommitResult) * Tables :=
  if negb (ActionCommit_Valid commit) then (Err (OfSession ErrInvalidActionCommit), t)
  else match validateRoomGameSessionTermination b a (before commit) (after commit) StatusFinished with
  | Err e => (Err e, t)
  | Ok _ => finish (Run (
      do* locked := lockRoomForUpdate (Room.ID b) in
      do* _ := requireParticipant fault (Room.ID b) (ak_ActorUserID (ac_Key (receipt commit))) in
      if negb (sameRoomSnapshot locked b) then
        do* result := replayFinishedActionAfterRoomChange commit in
        tx_ret (locked, result)
      else
        do* result := commitActionAfterRoomLock fault ctxDone commit in
        if ar_Replayed result || negb (String.eqb (s_Status (ar_Session result)) StatusFinished)
        then tx_fail (DomainError ErrInvalidActionCommit)
        else
          do* stored := finishPartyRoomAggregateCAS b a in
          tx_ret (stored, result)) t)
  end.

Definition FinishTimer (b a : Room) (commit : TimerCommit) (t : Tables) : gres (Room * TimerCommitResult) * Tables :=
  if negb (TimerCommit_Valid commit) then (Err (OfSession ErrInvalidTimerCommit), t)
  else match validateRoomGameSessionTermination b a (before commit) (after commit) StatusFinished with
  | Err e => (Err e, t)
  | Ok _ => finish (Run (
      do* locked := lockRoomForUpdate (Room.ID b) in
      do* current := getGameSessionForUpdate fault (s_ID (before commit)) in
      if negb (sameRoomSnapshot locked b) then
        do* result := replayFinishedTimerAfterRoomChange current commit in
        tx_ret (locked, result)
      else
        do* result := commitTimerAfterSessionLock fault ctxDone current commit in
        if tcr_Replayed result || negb (String.eqb (s_Status (tcr_Session result)) StatusFinished)
        then tx_fail (DomainError ErrInvalidTimerCommit)
        else
          do* stored := finishPartyRoomAggregateCAS b a in
          tx_ret (stored, result)) t)
  end.

(** A host's command comes from the host it names; any other has no actor. *)
Definition actorAllowed (source : SystemSource) (actorUserID : UUID) : bool :=
  if String.eqb (src_Kind source) SystemSourceHostAPI
  then negb (actorUserID =? Nil) && (src_RequestedByUserID source =? actorUserID)
  else (actorUserID =? Nil) && (src_RequestedByUserID source =? Nil).

Definition FinishSystem (b a : Room) (actorUserID : UUID) (commit : SystemCommit) (t : Tables)
  : gres (Room * SystemCommitResult) * Tables :=
  let source := sk_Source (RuntimeCommit.sc_Key (receipt commit)) in
  if negb (SystemCommit_Valid commit) then (Err (OfSession ErrInvalidSystemCommit), t)
  else if negb (actorAllowed source actorUserID) then (Err (OfRoom Room.ErrHostRequired), t)
  else match validateRoomGameSessionTermination b a (before commit) (after commit) StatusFinished with
  | Err e => (Err e, t)
  | Ok _ => finish (Run (
      do* locked := lockRoomForUpdate (Room.ID b) in
      if String.eqb (src_Kind source) SystemSourceHostAPI && negb (Room.HostUserID locked =? actorUserID)
      then tx_fail (RoomFailure Room.ErrHostRequired)
      else
        do* current := getGameSessionForUpdate fault (s_ID (before commit)) in
        if negb (sameRoomSnapshot locked b) then
          do* result := replayFinishedSystemAfterRoomChange current commit in
          tx_ret (locked, result)
        else
          do* result := commitSystemAfterSessionLock fault ctxDone current commit in
          if sr_Retry result : bool then tx_ret (locked, result)
          else if sr_Replayed result || negb (String.eqb (s_Status (sr_Session result)) StatusFinished)
          then tx_fail (DomainError ErrInvalidSystemCommit)
          else
            do* stored := finishPartyRoomAggregateCAS b a in
            tx_ret (stored, result)) t)
  end.

(** ** Cancelling, suspending and resuming *)
Definition Cancel (b a : Room) (commit : LifecycleCommit) (t : Tables) : gres (Room * Session) * Tables :=
  if negb (LifecycleCommit_Valid commit) then (Err (OfSession ErrInvalidLifecycleCommit), t)
  else match validateRoomGameSessionTermination b a (lc_before commit) (lc_after commit) StatusCancelled with
  | Err e => (Err e, t)
  | Ok _ => finish (Run (
      do* locked := lockRoomForUpdate (Room.ID b) in
      do* current := getGameSessionForUpdate fault (s_ID (lc_before commit)) in
      if negb (sameRoomSnapshot locked b) then
        if negb (sameRoomSnapshot locked a) || negb (samePersistedTerminalSession current (lc_after commit) StatusCancelled)
        then tx_fail (RoomFailure Room.ErrRoomVersionConflict)
        else tx_ret (locked, current)
      else
        do* storedSession := persistLifecycleAfterSessionLock fault ctxDone current commit in
        do* storedRoom := updateRoomAggregateCAS b a in
        tx_ret (storedRoom, storedSession)) t)
  end.

Definition commitGovernedLifecycle (b a : Room) (commit : LifecycleCommit) (wantBefore wantAfter : string) (t : Tables)
  : gres (Room * Session) * Tables :=
  if negb (LifecycleCommit_Valid commit) then (Err (OfSession ErrInvalidLifecycleCommit), t)
  else match validateRoomGameSessionGovernance b a (lc_before commit) (lc_after commit) wantBefore wantAfter with
  | Err e => (Err e, t)
  | Ok _ => finish (Run (
      do* locked := lockExactRoom b in
      do* current := getGameSessionForUpdate fault (s_ID (lc_before commit)) in
      do* storedSession := persistLifecycleAfterSessionLock fault ctxDone current commit in
      do* storedRoom := updateRoomAggregateCAS locked a in
      tx_ret (storedRoom, storedSession)) t)
  end.

Definition Suspend (b a : Room) (commit : LifecycleCommit) (t : Tables) : gres (Room * Session) * Tables :=
  commitGovernedLifecycle b a commit StatusActive StatusSuspended t.

Definition Resume (b a : Room) (commit : LifecycleCommit) (t : Tables) : gres (Room * Session) * Tables :=
  commitGovernedLifecycle b a commit StatusSuspended StatusActive t.
End Repository.

End RoomGameRepository.
