(* ===== verification/RoomGameFacts.v ===== *)
(** * Rooms and their games: what the transactions do

    Inversion of the steps [RoomGameRepository] adds to those of the two
    repositories, and what each of its operations does to the pointer of a room
    to its session and to the sessions being played. *)

From stdpp Require Import gmap.
From S2P Require Import Prelude GoLib Sha256 Selector GameManifest GameContract Outbox Room RoomFacts RoomHistory RoomStore RoomStoreFacts RoomSystem Runtime RuntimeFacts RuntimeMoves RuntimeCommit RuntimeStore RuntimeQueries RuntimeRepository RuntimeStoreFacts RuntimeStoreEffects RuntimeStoreInvariant RoomGameRepository.

Module RoomGameFacts.
Import GoLib Selector GameManifest GameContract Runtime RuntimeFacts RuntimeMoves RuntimeCommit RuntimeStore RuntimeQueries
  RuntimeRepository RuntimeStoreFacts RuntimeStoreEffects RuntimeStoreInvariant RoomGameRepository.

(** ** Steps *)
Lemma onRooms_inv {A} (m : RoomStore.tx A) t n a t' n' :
  onRooms m (t, n) = Ok (a, (t', n')) -> exists d, m (rooms t, n) = Ok (a, (d, n')) /\ t' = t <| rooms := d |>.
Proof.
  unfold onRooms. destruct (m (rooms t, n)) as [[a1 [d n1]]|]; [|done]. intros H. injection H as <- <- <-. by exists d.
Qed.

Lemma tx_room_inv {A} (r : Room.res A) t n a t' n' : tx_room r (t, n) = Ok (a, (t', n')) -> r = Ok a /\ t' = t /\ n' = n.
Proof. unfold tx_room. destruct r; intros H; [|done]. by injection H as <- <- <-. Qed.

Lemma tx_map_err_inv {A} f (m : tx A) s r : tx_map_err f m s = Ok r -> m s = Ok r.
Proof. unfold tx_map_err. by destruct (m s). Qed.

Section Steps.
Context (fault : nat -> option DbError) (names : UUID -> option (string * string)).

(** A transaction that fails leaves the tables; one that succeeds is its work. *)
Lemma game_finish_inv {A} (work : tx A) t out t' :
  RoomGameRepository.finish (RuntimeQueries.Run fault work t) = (out, t') ->
  match out with
  | Err _ => t' = t
  | Ok a => exists n, work (t, 1%nat) = Ok (a, (t', n))
  end.
Proof.
  destruct (RuntimeQueries.Run fault work t) as [out1 t1] eqn:E. apply Run_session_inv in E as [(e & -> & ->)|(a & n & -> & E)];
    intros [= <- <-]; [done|by exists n].
Qed.

Definition roomOfRow (d : RoomStore.Database) (id : UUID) (row : RoomStore.PartyRoom) : Room.res Room :=
  RoomStore.roomFromRows row (merge_sort RoomStore.memberBefore (RoomStore.membersOf d id)).

Lemma lockRoomForUpdate_inv id t n locked t' n' :
  lockRoomForUpdate fault id (t, n) = Ok (locked, (t', n')) ->
  t' = t /\ exists row, RoomStore.party_rooms (rooms t) !! id = Some row /\ roomOfRow (rooms t) id row = Ok locked.
Proof.
  intros H. step H row Hrow. apply one_or_inv, query_inv in Hrow as [Hrow ->]. step H ms Hms.
  apply onRooms_inv in Hms as (d & Hms & ->). apply RoomStoreFacts.statement_inv in Hms. injection Hms as <- <-.
  apply tx_room_inv in H as (H & -> & _). split; [by destruct t|]. exists row. split; [done|exact H].
Qed.

Lemma lockExactRoom_inv b t n locked t' n' :
  lockExactRoom fault b (t, n) = Ok (locked, (t', n')) -> t' = t /\ sameRoomSnapshot locked b = true /\
  exists row, RoomStore.party_rooms (rooms t) !! Room.ID b = Some row /\ roomOfRow (rooms t) (Room.ID b) row = Ok locked.
Proof.
  intros H. step H l Hl. apply lockRoomForUpdate_inv in Hl as (-> & Hl). destruct (sameRoomSnapshot l b) eqn:E; [|done].
  apply tx_ret_inv in H as (-> & -> & _). done.
Qed.
End Steps.

(** ** Rooms read from rows *)
Lemma roomFromRows_fields row members r :
  RoomStore.roomFromRows row members = Ok r ->
  RoomStore.row_RoomID row = Some (Room.ID r) /\
  Room.ActiveSessionID r = RoomStore.optionalUUIDFromPG (RoomStore.row_ActiveSessionID row) /\
  Room.RoomVersion r = u64 (RoomStore.row_RoomVersion row) /\ 0 < RoomStore.row_RoomVersion row /\ RoomFacts.WF r /\
  Room.Status r = RoomStore.row_Status row.
Proof.
  unfold RoomStore.roomFromRows. destruct (RoomStore.row_RoomID row) as [id|]; [|done].
  destruct (RoomStore.row_HostUserID row); [|done]. destruct (RoomStore.row_CreatedAt row); [|done].
  destruct (RoomStore.row_UpdatedAt row); [|done].
  match goal with |- (if ?c then _ else _) = _ -> _ => destruct c eqn:Eb end; [done|].
  repeat (apply orb_false_iff in Eb as [Eb ?]). destruct (map_result _ _) as [ms|]; [|done]. cbn [bind_result].
  match goal with |- context [Room.Restore ?s] => set (snapshot := s) end.
  assert (Room.ID snapshot = id) as Eid by reflexivity.
  assert (Room.ActiveSessionID snapshot = RoomStore.optionalUUIDFromPG (RoomStore.row_ActiveSessionID row)) as Eas by reflexivity.
  assert (Room.RoomVersion snapshot = u64 (RoomStore.row_RoomVersion row)) as Ev by reflexivity.
  assert (Room.Status snapshot = RoomStore.row_Status row) as Est by reflexivity. clearbody snapshot.
  destruct (Room.Restore snapshot) as [r0|] eqn:Er; [|done]. intros [= ->]. apply RoomFacts.Restore_iff in Er as [-> Hwf].
  destruct (RoomHistory.canonicalRoom_frame _ Hwf) as (_ & Est' & _ & Eas' & _ & _ & Eid' & _ & Ev' & _).
  rewrite Eid', Ev', Eas', Est', Eid, Eas, Ev, Est. split_and!; [done|done|done|by apply Z.leb_gt|done|done].
Qed.

#[local] Opaque RoomStore.i64 RoomStore.i32 u64 u32.

(** ** The rows of the rooms *)
Record RoomRowOK (id : UUID) (row : RoomStore.PartyRoom) : Prop := {
  rr_id : RoomStore.row_RoomID row = Some id;
  rr_pointer : RoomStore.row_ActiveSessionID row <> Some Nil;
  rr_version : RoomStore.row_RoomVersion row <= maxInt64;
}.

Definition RoomsOK (d : RoomStore.Database) : Prop := forall id row, RoomStore.party_rooms d !! id = Some row -> RoomRowOK id row.

(** The session a room points to. *)
Definition pointerOf (d : RoomStore.Database) (id : UUID) : option UUID :=
  RoomStore.party_rooms d !! id ≫= RoomStore.row_ActiveSessionID.

(** A room read from its row, now or before. *)
Definition SeenRoom (d : RoomStore.Database) (r : Room) : Prop :=
  0 <= Room.RoomVersion r /\
  exists row, RoomStore.party_rooms d !! Room.ID r = Some row /\ Room.RoomVersion r <= RoomStore.row_RoomVersion row /\
    (Room.RoomVersion r = RoomStore.row_RoomVersion row -> pointerOf d (Room.ID r) = RoomStore.optionalUUIDToPG (Room.ActiveSessionID r)).

Lemma pointer_column id row : RoomRowOK id row ->
  RoomStore.row_ActiveSessionID row = RoomStore.optionalUUIDToPG (RoomStore.optionalUUIDFromPG (RoomStore.row_ActiveSessionID row)).
Proof.
  intros [_ Hp _]. unfold RoomStore.optionalUUIDToPG, RoomStore.optionalUUIDFromPG. destruct (RoomStore.row_ActiveSessionID row) as [s|]; [|done].
  cbn. destruct (s =? Nil) eqn:E; [|done]. apply Z.eqb_eq in E. congruence.
Qed.

(** What a room read from a row says about the row. *)
Lemma read_room d id row members r :
  RoomsOK d -> RoomStore.party_rooms d !! id = Some row -> RoomStore.roomFromRows row members = Ok r ->
  Room.ID r = id /\ Room.RoomVersion r = RoomStore.row_RoomVersion row /\ 0 < Room.RoomVersion r <= maxInt64 /\
  pointerOf d id = RoomStore.optionalUUIDToPG (Room.ActiveSessionID r).
Proof.
  intros Hok Hrow H. pose proof (Hok _ _ Hrow) as Hr. apply roomFromRows_fields in H as (Hid & Has & Hv & Hpos & _).
  rewrite (rr_id _ _ Hr) in Hid. injection Hid as <-. rewrite u64_id in Hv by (pose proof (rr_version _ _ Hr); unfold maxInt64, maxUint64 in *; lia).
  split_and!; [done|done|lia|rewrite Hv; by apply Hr|]. unfold pointerOf. rewrite Hrow, Has. by apply (pointer_column _ _ Hr).
Qed.

Lemma read_SeenRoom d id row members r :
  RoomsOK d -> RoomStore.party_rooms d !! id = Some row -> RoomStore.roomFromRows row members = Ok r -> SeenRoom d r.
Proof.
  intros Hok Hrow H. destruct (read_room _ _ _ _ _ Hok Hrow H) as (Hid & Hv & Hb & Hp). split; [lia|]. rewrite Hid.
  exists row. split_and!; [done|lia|]. done.
Qed.

(** A room row replaced by one that is a version further, with a given session. *)
Definition roomWritten (id session : UUID) (d d' : RoomStore.Database) : Prop :=
  exists row row', RoomStore.party_rooms d !! id = Some row /\
    RoomStore.party_rooms d' = <[id := row']> (RoomStore.party_rooms d) /\
    RoomStore.row_RoomID row' = RoomStore.row_RoomID row /\
    RoomStore.row_ActiveSessionID row' = RoomStore.optionalUUIDToPG session /\
    RoomStore.row_RoomVersion row' = RoomStore.row_RoomVersion row + 1 /\ RoomStore.row_RoomVersion row' <= maxInt64.

Lemma optionalUUID_not_nil u : RoomStore.optionalUUIDToPG u <> Some Nil.
Proof. unfold RoomStore.optionalUUIDToPG, RoomStore.uuidToPG. destruct (u =? Nil) eqn:E; [done|]. apply Z.eqb_neq in E. congruence. Qed.

Lemma roomWritten_RoomsOK id session d d' : roomWritten id session d d' -> RoomsOK d -> RoomsOK d'.
Proof.
  intros (row & row' & Hrow & Hd & Eid & Eas & Ev & Hw) Hok k r. rewrite Hd, lookup_insert_Some. intros [[<- <-]|[_ Hk]]; [|by apply Hok].
  constructor; [by rewrite Eid, (rr_id _ _ (Hok _ _ Hrow))|rewrite Eas; apply optionalUUID_not_nil|done].
Qed.

Lemma roomWritten_pointer id session d d' k : roomWritten id session d d' ->
  pointerOf d' k = if decide (k = id) then RoomStore.optionalUUIDToPG session else pointerOf d k.
Proof.
  intros (row & row' & _ & Hd & _ & Eas & _). unfold pointerOf. rewrite Hd. case_decide as Hk; [subst; by rewrite lookup_insert_eq|].
  by rewrite lookup_insert_ne.
Qed.

Lemma roomWritten_SeenRoom id session d d' r : roomWritten id session d d' -> SeenRoom d r -> SeenRoom d' r.
Proof.
  intros Hw [Hpos (row & Hrow & Hv & Hp)]. split; [done|]. destruct (decide (Room.ID r = id)) as [E|Hne].
  - destruct Hw as (row0 & row' & Hrow0 & Hd & _ & _ & Ev & _). rewrite E in *. assert (row0 = row) as -> by congruence.
    exists row'. rewrite Hd, lookup_insert_eq. split_and!; [done|lia|lia].
  - pose proof (roomWritten_pointer _ _ _ _ (Room.ID r) Hw) as Hptr. rewrite decide_False in Hptr by done.
    destruct Hw as (row0 & row' & _ & Hd & _). exists row. rewrite Hd, lookup_insert_ne by done. by rewrite Hptr.
Qed.

(** ** Writes of a room *)

(** The versions of the rows of an accepted transition. *)
Lemma transition_versions b a : RoomStore.validateRoomTransition b a = Ok tt -> 0 <= Room.RoomVersion b ->
  Room.ID a = Room.ID b /\ RoomStore.i64 (Room.RoomVersion b) = Room.RoomVersion b /\
  RoomStore.i64 (Room.RoomVersion a) = Room.RoomVersion b + 1 /\ Room.RoomVersion b + 1 <= maxInt64.
Proof.
  intros (Hid & _ & _ & Hv & Hwb & Hwa)%RoomSystem.transition_id Hpos. apply RoomStoreFacts.widths_iff in Hwb as (_ & Hb & _).
  apply RoomStoreFacts.widths_iff in Hwa as (_ & Ha & _). rewrite Hv in *.
  rewrite u64_id in * by (unfold maxInt64, maxUint64 in *; lia). by rewrite !i64_id by lia.
Qed.

(** The write of [a] over [b0], which has the version of the validated [b]. *)
Lemma updateRoomAggregateCAS_written fault names b0 b a d n stored d' n' :
  RoomStore.updateRoomAggregateCAS fault names b0 a (d, n) = Ok (stored, (d', n')) ->
  RoomStore.validateRoomTransition b a = Ok tt -> Room.RoomVersion b0 = Room.RoomVersion b -> 0 <= Room.RoomVersion b ->
  roomWritten (Room.ID b0) (Room.ActiveSessionID a) d d' /\
  exists row, RoomStore.party_rooms d !! Room.ID b0 = Some row /\ RoomStore.row_RoomVersion row = Room.RoomVersion b.
Proof.
  intros H Ht Ev0 Hpos. destruct (transition_versions _ _ Ht Hpos) as (Hid & Eb & Ea & Hmax). unfold RoomStore.updateRoomAggregateCAS in H.
  apply RoomStoreFacts.tx_bind_inv in H as (row' & d1 & n1 & H1 & H). apply RoomStoreFacts.statement_inv in H1.
  cbn [RoomStore.updatePartyRoomParams RoomStore.up_RoomID RoomStore.up_RoomCode RoomStore.up_ExpectedOwnershipEpoch
       RoomStore.up_ExpectedRoomVersion RoomStore.up_ExpectedMembershipVersion RoomStore.up_row] in H1.
  destruct (RoomStore.party_rooms d !! Room.ID b0) as [row|] eqn:Erow; [|done].
  destruct (_ && _) eqn:Eg in H1; [|done]. apply andb_prop in Eg as [[_ Ever]%andb_prop _]. apply Z.eqb_eq in Ever. rewrite Ev0 in Ever.
  injection H1 as Hrow' Hd1.
  apply RoomStoreFacts.tx_bind_inv in H as (u2 & d2 & n2 & H2 & H).
  assert (RoomStore.party_rooms d2 = RoomStore.party_rooms d1) as Hp2.
  { destruct (_ =? _) in H2; [|by injection H2 as _ <- _]. apply RoomStoreFacts.statement_inv in H2. by injection H2 as _ <-. }
  apply RoomStoreFacts.tx_bind_inv in H as (existing & d3 & n3 & H3 & H). apply RoomStoreFacts.statement_inv in H3. injection H3 as _ <-.
  apply RoomStoreFacts.tx_bind_inv in H as (u4 & d4 & n4 & H4 & H). apply RoomStoreFacts.statement_inv in H4. injection H4 as _ Hd4.
  apply RoomStoreFacts.tx_bind_inv in H as (u5 & d5 & n5 & H5 & H). apply RoomStoreFacts.createMembers_inv in H5 as (Hp5 & _).
  apply RoomStoreFacts.tx_bind_inv in H as (members & d6 & n6 & H6 & H). apply RoomStoreFacts.statement_inv in H6. injection H6 as _ <-.
  unfold RoomStore.tx_lift in H. destruct (RoomStore.roomFromRows row' members); [|done]. injection H as _ <- _.
  split; [|exists row; split; [done|congruence]]. exists row, row'. subst row'.
  cbn [RoomStore.row_RoomID RoomStore.row_ActiveSessionID RoomStore.row_RoomVersion RoomStore.createPartyRoomParams].
  split_and!; [done| |done|done|lia|lia]. rewrite Hp5, <- Hd4. cbn. rewrite Hp2, <- Hd1. done.
Qed.

(** What the finish of a room changes. *)
Record roomFinished (b : RoomSnapshot) (t t' : Tables) : Prop := {
  rf_tables : exists M A, t' = t <| replay_members := M |> <| replay_access := A |> <| rooms := rooms t' |>;
  rf_written : roomWritten (Room.ID b) Nil (rooms t) (rooms t');
  rf_pointer : pointerOf (rooms t) (Room.ID b) = Some (Room.ActiveSessionID b);
}.

Lemma finishPartyRoomAggregateCAS_inv fault b a t n stored t' n' :
  finishPartyRoomAggregateCAS fault b a (t, n) = Ok (stored, (t', n')) ->
  RoomStore.validateRoomTransition b a = Ok tt -> 0 <= Room.RoomVersion b -> roomFinished b t t'.
Proof.
  intros H Ht Hpos. destruct (transition_versions _ _ Ht Hpos) as (Hid & Eb & Ea & Hmax).
  step H u1 H1. apply session_statement_inv in H1. cbv zeta in H1. destruct (existsb _ _) in H1; [done|]. injection H1 as _ <-.
  step H completed H2. apply session_statement_inv in H2. destruct (negb (completed =? 1)) eqn:Ec; [done|].
  assert (exists A, t0 = t <| replay_members := replay_members t0 |> <| replay_access := A |>) as [A Ht1].
  { cbn in H2. destruct (replay_access t !! Room.ActiveSessionID b) as [ra|]; [|injection H2 as <- <-; by eexists].
    destruct (_ && _); injection H2 as <- <-; by eexists. }
  assert (rooms t0 = rooms t) as Hr1 by by rewrite Ht1. clear H2.
  step H row' H3. apply one_or_inv, session_statement_inv in H3.
  cbn [finishPartyRoomParams fp_RoomID] in H3. rewrite Hr1 in H3.
  destruct (RoomStore.party_rooms (rooms t) !! Room.ID b) as [row|] eqn:Erow; [|done].
  destruct (finishMatches _ row) eqn:Em; [|done]. cbv zeta in H3. injection H3 as <- <-.
  step H ms H4. apply onRooms_inv in H4 as (d & H4 & ->). apply RoomStoreFacts.statement_inv in H4. injection H4 as _ <-.
  step H r Hr. apply tx_room_inv in Hr as (_ & -> & _). destruct (negb (sameRoomSnapshot r a)); [done|]. apply tx_ret_inv in H as (_ & -> & _).
  unfold finishMatches in Em. repeat (apply andb_prop in Em as [Em ?]).
  repeat match goal with H : bool_decide _ = true |- _ => apply bool_decide_eq_true in H end.
  match goal with H : (RoomStore.row_RoomVersion row =? _) = true |- _ => apply Z.eqb_eq in H; rename H into Hv end.
  cbn [finishPartyRoomParams fp_ExpectedRoomVersion fp_ActiveSessionID] in *. constructor.
  - exists (replay_members t0), A. rewrite Ht1 at 1. done.
  - exists row, (finishedRoom (finishPartyRoomParams b a) row). cbn. split_and!; [done|done|done|done|lia|lia].
  - unfold pointerOf. by rewrite Erow.
Qed.

(** ** Comparisons *)
Lemma sameRoomSnapshot_fields l r : sameRoomSnapshot l r = true ->
  Room.ID l = Room.ID r /\ Room.ActiveSessionID l = Room.ActiveSessionID r /\ Room.RoomVersion l = Room.RoomVersion r /\
  Room.PendingPause l = Room.PendingPause r /\ Room.CurrentPause l = Room.CurrentPause r /\ Room.HostUserID l = Room.HostUserID r.
Proof.
  unfold sameRoomSnapshot, sameRoomFields. intros H. repeat (apply andb_prop in H as [H ?]).
  repeat match goal with H : bool_decide _ = true |- _ => apply bool_decide_eq_true in H end. to_prop. done.
Qed.

(** ** Commands of the rooms that leave the session alone *)
Definition keepsSession (c : Room.Command) : bool :=
  match c with
  | Room.CmdStartSession _ _ _ _ _ | Room.CmdFinishSession _ | Room.CmdCancelSession _ | Room.CmdCancelSessionAndClose _ _ => false
  | _ => true
  end.

Lemma plan_keepsSession r c v at_ next changed :
  keepsSession c = true -> RoomFacts.plan r c v at_ = Ok (Some (next, changed)) -> Room.ActiveSessionID next = Room.ActiveSessionID r.
Proof.
  intros Hk H. destruct c; try done; cbn [RoomFacts.plan] in H; cbv zeta in H; unfold Room.dropRequestOf in H;
    repeat (match type of H with
      | context [if ?b then _ else _] => destruct b
      | context [match ?m with Some _ => _ | None => _ end] => destruct m
      | context [Room.checkHost ?r ?h] => destruct (Room.checkHost r h)
      | context [Room.checkVersion ?r ?v] => destruct (Room.checkVersion r v)
      | context [Room.promote ?r ?m] => destruct (Room.promote r m)
      | context [Room.admitMember ?r ?u ?i ?t] => destruct (Room.admitMember r u i t)
      end; cbn [bind_result] in H; try discriminate H);
    injection H as <- <-; reflexivity.
Qed.

Lemma exec_keepsSession r c v at_ next :
  keepsSession c = true -> Room.exec r c v at_ = Ok next -> Room.ActiveSessionID next = Room.ActiveSessionID r.
Proof.
  intros Hk. rewrite RoomFacts.exec_plan. unfold RoomFacts.execute. destruct (RoomFacts.plan _ _ _ _) as [[[s changed]|]|] eqn:Ep; cbn [bind_result];
    [|by intros [= <-]|done].
  apply plan_keepsSession in Ep; [|done]. intros (_ & _ & -> & Hwf)%RoomFacts.commit_inv.
  destruct (RoomHistory.canonicalRoom_frame _ Hwf) as (_ & _ & _ & Eas & _). by rewrite Eas.
Qed.

End RoomGameFacts.
