(* ===== verification/RoomGameInvariant.v ===== *)
(** * Rooms and their games: rooms and sessions agree

    The room service, the session repository and the transactions over both run
    interleaved.  A room points to a session exactly while the session is played
    in it, whatever ran before and whatever failed. *)

From stdpp Require Import gmap relations.
From S2P Require Import Prelude GoLib Sha256 Selector GameManifest GameContract Outbox Room RoomFacts RoomHistory RoomStore RoomStoreFacts RoomSystem Runtime RuntimeFacts RuntimeMoves RuntimeCommit RuntimeStore RuntimeQueries RuntimeRepository RuntimeStoreFacts RuntimeStoreEffects RuntimeStoreInvariant RoomGameRepository RoomGameFacts.

Module RoomGameInvariant.
Import GoLib Selector GameManifest GameContract Runtime RuntimeFacts RuntimeMoves RuntimeCommit RuntimeStore RuntimeQueries
  RuntimeRepository RuntimeStoreFacts RuntimeStoreEffects RuntimeStoreInvariant RoomGameRepository RoomGameFacts.

#[local] Opaque RoomStore.i64 RoomStore.i32 u64 u32.

(** ** Pointers and sessions being played *)

(** The session a room points to. *)
Definition pointer (t : Tables) (rid : UUID) : option UUID := pointerOf (rooms t) rid.

Definition liveRoom (row : GameSessionRow) : option UUID := if live (g_Status row) then g_RoomID row else None.

(** The room a session is played in. *)
Definition playedIn (t : Tables) (sid : UUID) : option UUID := game_sessions t !! sid ≫= liveRoom.

Definition Agree (t : Tables) : Prop := forall rid sid, pointer t rid = Some sid <-> playedIn t sid = Some rid.

(** What one transaction does to both: nothing, or a game begins or ends in a room. *)
Inductive change (t t' : Tables) : Prop :=
| unchanged :
    (forall k, pointer t' k = pointer t k) -> (forall k, playedIn t' k = playedIn t k) -> change t t'
| begun rid sid :
    pointer t rid = None -> playedIn t sid = None ->
    (forall k, pointer t' k = if decide (k = rid) then Some sid else pointer t k) ->
    (forall k, playedIn t' k = if decide (k = sid) then Some rid else playedIn t k) -> change t t'
| ended rid sid :
    pointer t rid = Some sid ->
    (forall k, pointer t' k = if decide (k = rid) then None else pointer t k) ->
    (forall k, playedIn t' k = if decide (k = sid) then None else playedIn t k) -> change t t'.

Lemma change_Agree t t' : Agree t -> change t t' -> Agree t'.
Proof.
  intros Ha [Hp Hs|rid sid Hn Hf Hp Hs|rid sid He Hp Hs] r s; rewrite Hp, Hs; [apply Ha| |].
  - case_decide as Er; case_decide as Es; subst; [done| | |apply Ha].
    + split; [congruence|]. intros H. apply Ha in H. congruence.
    + split; [|congruence]. intros H. apply Ha in H. congruence.
  - pose proof (proj1 (Ha _ _) He) as Hl. case_decide as Er; case_decide as Es; subst; [done| | |apply Ha].
    + split; [congruence|]. intros H. apply Ha in H. congruence.
    + split; [|congruence]. intros H. apply Ha in H. congruence.
Qed.

(** ** Sessions written *)
Lemma playedIn_write sid row' t t' k :
  game_sessions t' = <[sid := row']> (game_sessions t) ->
  playedIn t' k = if decide (k = sid) then liveRoom row' else playedIn t k.
Proof.
  intros H. unfold playedIn. rewrite H. case_decide as Hk; [subst; by rewrite lookup_insert_eq|by rewrite lookup_insert_ne].
Qed.

(** A row that stays live in its room. *)
Lemma playedIn_kept sid row row' t t' k :
  game_sessions t !! sid = Some row -> game_sessions t' = <[sid := row']> (game_sessions t) -> liveRoom row' = liveRoom row ->
  playedIn t' k = playedIn t k.
Proof.
  intros Hrow H E. rewrite (playedIn_write _ _ _ _ _ H). case_decide as Hk; [|done]. subst. unfold playedIn. by rewrite Hrow.
Qed.

Lemma playedIn_same t t' k : game_sessions t' = game_sessions t -> playedIn t' k = playedIn t k.
Proof. unfold playedIn. by intros ->. Qed.

Lemma pointer_same t t' k : rooms t' = rooms t -> pointer t' k = pointer t k.
Proof. unfold pointer. by intros ->. Qed.

(** A session that loads is keyed by its identifier and has its room. *)
Lemma loaded_room t sid s : rowsKeyed t -> loadSession t sid = Some s ->
  s_ID s = sid /\ playedIn t sid = if live (s_Status s) then Some (s_RoomID s) else None.
Proof.
  intros Hk Hl. apply loadSession_row in Hl as (row & Hrow & Hl). unfold playedIn, liveRoom. rewrite Hrow. cbn.
  pose proof (loaded_numbers _ _ _ _ Hl) as (_ & _ & Est & _ & _ & Eid). rewrite (Hk _ _ Hrow) in Eid. injection Eid as ->.
  apply sessionFromRows_Ok in Hl as (id & roomID & st & up & ps & ts & start & _ & Er & _ & _ & _ & _ & _ & _ & _ & _ & _ & Hr).
  apply RestoreSession_Restored in Hr. rewrite Est, Er. pose proof (rs_room _ _ Hr) as E. cbn in E. by rewrite E.
Qed.

(** The row of a move, active or finished. *)
Lemma advanced_active b a bt events row t t' k :
  advanced b a bt events row t t' -> s_Status a = StatusActive -> playedIn t' k = playedIn t k.
Proof.
  intros H Ha. eapply playedIn_kept; [exact (ad_row _ _ _ _ _ _ _ H)|exact (ad_sessions _ _ _ _ _ _ _ H)|].
  unfold liveRoom. cbn [setState createGameSessionParams g_Status g_RoomID]. by rewrite Ha, (ad_stored_status _ _ _ _ _ _ _ H).
Qed.

Lemma advanced_finished b a bt events row t t' k :
  advanced b a bt events row t t' -> s_Status a = StatusFinished ->
  playedIn t' k = if decide (k = s_ID b) then None else playedIn t k.
Proof.
  intros H Ha. rewrite (playedIn_write _ _ _ _ _ (ad_sessions _ _ _ _ _ _ _ H)). unfold liveRoom.
  cbn [setState createGameSessionParams g_Status g_RoomID]. by rewrite Ha.
Qed.

(** The row of a lifecycle change. *)
Lemma reshaped_live sid row a t t' k :
  reshaped sid row (setLifecycle row (createGameSessionParams a)) t t' -> live (s_Status a) = true -> playedIn t' k = playedIn t k.
Proof.
  intros H Ha. eapply playedIn_kept; [exact (re_row _ _ _ _ _ H)|exact (re_sessions _ _ _ _ _ H)|].
  unfold liveRoom. cbn [setLifecycle createGameSessionParams g_Status g_RoomID]. by rewrite Ha, (re_live _ _ _ _ _ H).
Qed.

Lemma reshaped_cancelled sid row a t t' k :
  reshaped sid row (setLifecycle row (createGameSessionParams a)) t t' -> s_Status a = StatusCancelled ->
  playedIn t' k = if decide (k = sid) then None else playedIn t k.
Proof.
  intros H Ha. rewrite (playedIn_write _ _ _ _ _ (re_sessions _ _ _ _ _ H)). unfold liveRoom.
  cbn [setLifecycle createGameSessionParams g_Status g_RoomID]. by rewrite Ha.
Qed.

Lemma LifecycleCommit_status commit : LifecycleCommit_Valid commit = true ->
  s_Status (lc_after commit) = StatusCancelled \/ live (s_Status (lc_after commit)) = true.
Proof.
  unfold LifecycleCommit_Valid, NewLifecycleCommit, lifecycleShape, live.
  destruct (String.eqb (s_Status (lc_after commit)) StatusCancelled) eqn:Ec; [left; by apply eqb_string_true|]. right.
  destruct (String.eqb (s_Status (lc_after commit)) StatusActive); [done|].
  destruct (String.eqb (s_Status (lc_after commit)) StatusSuspended); [done|].
  by destruct (String.eqb (s_Status (lc_before commit)) StatusSuspended), (String.eqb (s_Status (lc_before commit)) StatusActive).
Qed.

(** ** The invariant *)
Record GamesOK (t : Tables) : Prop := {
  go_store : StoreInv t;
  go_rooms : RoomsOK (rooms t);
  go_agree : Agree t;
}.

(** What every operation keeps: the invariant, the rooms that were read, and the
    receipts of starts. *)
Record preserved (t t' : Tables) : Prop := {
  pv_ok : GamesOK t';
  pv_seen : forall r, SeenRoom (rooms t) r -> SeenRoom (rooms t') r;
  pv_starts : start_receipts t ⊆ start_receipts t';
}.

Lemma preserved_same t : GamesOK t -> preserved t t.
Proof. done. Qed.

(** Operations on the sessions alone. *)
Lemma preserved_session t t' :
  GamesOK t -> StoreInv t' -> rooms t' = rooms t -> start_receipts t' = start_receipts t ->
  (forall k, playedIn t' k = playedIn t k) -> preserved t t'.
Proof.
  intros [Hs Hr Ha] Hs' Er Est Hp. constructor; [|by rewrite Er|by rewrite Est]. constructor; [done|by rewrite Er|].
  eapply change_Agree; [done|]. apply unchanged; [|done]. intros k. by apply pointer_same.
Qed.

(** Operations that write one room. *)
Lemma preserved_room id session t t' :
  GamesOK t -> StoreInv t' -> roomWritten id session (rooms t) (rooms t') -> start_receipts t ⊆ start_receipts t' ->
  change t t' -> preserved t t'.
Proof.
  intros [Hs Hr Ha] Hs' Hw Hst Hc. constructor; [|intros r; by eapply roomWritten_SeenRoom|done].
  constructor; [done|by eapply roomWritten_RoomsOK|by eapply change_Agree].
Qed.

(** ** What the guards establish *)
Lemma termination_facts b a sb sa want :
  validateRoomGameSessionTermination b a sb sa want = Ok tt ->
  RoomStore.validateRoomTransition b a = Ok tt /\ Room.ActiveSessionID b <> Nil /\ s_ID sb = Room.ActiveSessionID b /\
  s_Status sa = want /\ Room.ActiveSessionID a = Nil /\
  Room.PendingPause a = Room.PendingPause b /\ Room.CurrentPause a = Room.CurrentPause b.
Proof.
  unfold validateRoomGameSessionTermination, ofRoom. destruct (RoomStore.validateRoomTransition b a) as [[]|]; [|done]. cbn [bind_result].
  destruct (expectedTerminalRoom b a want) as [expected|] eqn:Ee; [|done]. intros H. inv_result H. clear H.
  repeat (apply orb_false_iff in E as [E ?]). repeat match goal with H : negb _ = false |- _ => apply negb_false_iff in H end.
  match goal with H : sameRoomSnapshot _ _ = true |- _ => apply sameRoomSnapshot_fields in H as (_ & Has & _ & Hp & Hc & _) end.
  assert (Room.ActiveSessionID expected = Nil /\ Room.PendingPause expected = Room.PendingPause b /\
          Room.CurrentPause expected = Room.CurrentPause b) as (Ea & Ep & Ec).
  { unfold expectedTerminalRoom in Ee. repeat match type of Ee with context [if ?c then _ else _] => destruct c end; try done;
      injection Ee as <-; done. }
  to_prop. split_and!; congruence.
Qed.

Lemma start_facts b a commit : validateRoomGameSessionStart b a commit = Ok tt ->
  Room.ActiveSessionID b = Nil /\ Room.ActiveSessionID a = s_ID (cc_Session commit) /\ s_ID (cc_Session commit) <> Nil /\
  s_RoomID (cc_Session commit) = Room.ID b /\ s_Status (cc_Session commit) = StatusActive.
Proof.
  unfold validateRoomGameSessionStart. cbv zeta. destruct (negb (startRoomsMatch b a)) eqn:E; [done|]. apply negb_false_iff in E.
  intros H. inv_result H. rename E0 into Em. clear H. unfold startRoomsMatch in E. repeat (apply andb_prop in E as [E ?]).
  repeat (apply orb_false_iff in Em as [Em ?]). repeat match goal with H : negb _ = false |- _ => apply negb_false_iff in H end.
  to_prop. split_and!; congruence.
Qed.

Lemma governance_facts b a sb sa wantBefore wantAfter :
  validateRoomGameSessionGovernance b a sb sa wantBefore wantAfter = Ok tt ->
  RoomStore.validateRoomTransition b a = Ok tt /\ Room.ActiveSessionID a = Room.ActiveSessionID b /\ s_Status sa = wantAfter.
Proof.
  unfold validateRoomGameSessionGovernance, ofRoom. destruct (RoomStore.validateRoomTransition b a) as [[]|]; [|done]. cbn [bind_result].
  intros H. inv_result H. clear H. repeat (apply orb_false_iff in E as [E ?]).
  repeat match goal with H : negb _ = false |- _ => apply negb_false_iff in H end. to_prop. split_and!; congruence.
Qed.

(** The room that was locked is the one the caller computed from. *)
Lemma locked_room t b locked row :
  RoomsOK (rooms t) -> RoomStore.party_rooms (rooms t) !! Room.ID b = Some row -> roomOfRow (rooms t) (Room.ID b) row = Ok locked ->
  sameRoomSnapshot locked b = true ->
  0 <= Room.RoomVersion b /\ pointer t (Room.ID b) = RoomStore.optionalUUIDToPG (Room.ActiveSessionID b).
Proof.
  intros Hok Hrow Hl (_ & Has & Hv & _)%sameRoomSnapshot_fields. destruct (read_room _ _ _ _ _ Hok Hrow Hl) as (_ & Hv' & Hb & Hp).
  rewrite <- Hv, <- Has. split; [lia|exact Hp].
Qed.

Lemma pointer_of_session u : u <> Nil -> RoomStore.optionalUUIDToPG u = Some u.
Proof. exact (uuid_column u). Qed.

(** Tables that differ in the rooms, the replay rows and the start receipts. *)
Lemma StoreInv_rooms t d M A S :
  StoreInv t -> StoreInv (t <| replay_members := M |> <| replay_access := A |> <| rooms := d |> <| start_receipts := S |>).
Proof. intros H. by eapply StoreInv_frame. Qed.

(** ** Operations that end a game *)

(** A session that was finished, followed by its room. *)
Lemma finished_preserved b t t1 t' sid :
  GamesOK t -> StoreInv t1 -> rooms t1 = rooms t -> start_receipts t1 = start_receipts t ->
  (forall k, playedIn t1 k = if decide (k = sid) then None else playedIn t k) ->
  sid = Room.ActiveSessionID b -> roomFinished b t1 t' -> preserved t t'.
Proof.
  intros Hok Hs1 Er Es Hp -> [(M & A & Ht') Hw Hptr]. rewrite Er in Hw, Hptr. eapply preserved_room; [done| |exact Hw| |].
  - rewrite Ht'. by eapply StoreInv_frame.
  - rewrite Ht'. cbn. by rewrite Es.
  - eapply (ended _ _ (Room.ID b) (Room.ActiveSessionID b)); [exact Hptr| |].
    + intros k. unfold pointer. rewrite (roomWritten_pointer _ _ _ _ k Hw). done.
    + intros k. rewrite <- Hp. apply playedIn_same. by rewrite Ht'.
Qed.

Section Ending.
Context (fault : nat -> option DbError) (ctxDone : bool) (names : UUID -> option (string * string)).

Lemma game_guard_inv {A} (c : bool) (e : GameStoreError) (rest : result GameStoreError A * Tables) t out t' :
  (if c then (Err e, t) else rest) = (out, t') -> (exists e, out = Err e /\ t' = t) \/ c = false /\ rest = (out, t').
Proof. destruct c; [intros [= <- <-]; left; by eexists|by right]. Qed.

Lemma game_check_inv {A B} (r : result GameStoreError B) (rest : B -> result GameStoreError A * Tables) t out t' :
  (match r with Err e => (Err e, t) | Ok v => rest v end) = (out, t') ->
  (exists e, out = Err e /\ t' = t) \/ exists v, r = Ok v /\ rest v = (out, t').
Proof. destruct r; [intros H; right; by eexists|intros [= <- <-]; left; by eexists]. Qed.

Lemma requireParticipant_same roomID actor t n u t' n' :
  requireParticipant fault roomID actor (t, n) = Ok (u, (t', n')) -> t' = t.
Proof.
  intros H. step H role Hr. apply query_inv in Hr as [_ ->]. destruct role as [role|]; [|done]. destruct (String.eqb _ _); [|done].
  by apply tx_ret_inv in H as (_ & -> & _).
Qed.

Lemma replayAction_same commit t n r t' n' : rowsKeyed t ->
  replayFinishedActionAfterRoomChange fault commit (t, n) = Ok (r, (t', n')) -> t' = t.
Proof.
  intros Hk H. step H current Hc. apply getGameSessionForUpdate_inv in Hc as [-> _]; [|done].
  step H row Hr. apply one_or_inv, query_inv in Hr as [_ ->]. step H stored Hs. apply tx_lift_inv in Hs as (_ & -> & ->).
  step H u Hu. apply tx_lift_inv in Hu as (_ & -> & ->). destruct (negb _); [done|]. by apply tx_ret_inv in H as (_ & -> & _).
Qed.

Lemma replayTimer_same current commit t n r t' n' :
  replayFinishedTimerAfterRoomChange fault current commit (t, n) = Ok (r, (t', n')) -> t' = t.
Proof.
  intros H. step H row Hr. apply one_or_inv, query_inv in Hr as [_ ->]. step H stored Hs. apply tx_lift_inv in Hs as (_ & -> & ->).
  destruct (negb _); [done|]. by apply tx_ret_inv in H as (_ & -> & _).
Qed.

Lemma replaySystem_same current commit t n r t' n' :
  replayFinishedSystemAfterRoomChange fault current commit (t, n) = Ok (r, (t', n')) -> t' = t.
Proof.
  intros H. step H row Hr. apply one_or_inv, query_inv in Hr as [_ ->].
  destruct (completedSystemReceiptFromRow _ _ _) as [stored|e]; [|by destruct e].
  destruct (negb _); [done|]. by apply tx_ret_inv in H as (_ & -> & _).
Qed.

Lemma FinishAction_preserved b a commit t out t' :
  GamesOK t -> BatchOK (batch commit) -> FinishAction fault ctxDone b a commit t = (out, t') -> preserved t t'.
Proof.
  intros Hok Hb H. pose proof (si_keyed _ (st_sessions _ (go_store _ Hok))) as Hk.
  apply game_guard_inv in H as [(e & -> & ->)|[Hv H]]; [done|]. apply negb_false_iff in Hv.
  apply game_check_inv in H as [(e & -> & ->)|([] & Hw & H)]; [done|]. apply game_finish_inv in H. destruct out as [r|]; [|by subst].
  destruct H as [n H]. apply termination_facts in Hw as (Htr & Hnil & Hsid & Hst & _).
  step H locked Hl. apply lockRoomForUpdate_inv in Hl as (-> & row & Hrow & Hl). step H u Hu. apply requireParticipant_same in Hu as ->.
  destruct (sameRoomSnapshot locked b) eqn:Es; cbn [negb] in H.
  2:{ step H r1 Hr. apply replayAction_same in Hr as ->; [|done]. apply tx_ret_inv in H as (_ & -> & _). done. }
  destruct (locked_room _ _ _ _ (go_rooms _ Hok) Hrow Hl Es) as [Hpos _].
  step H r1 Hr. pose proof (action_StoreInv _ _ _ _ _ _ _ _ (go_store _ Hok) Hb Hv Hr) as Hs1.
  apply commitActionAfterRoomLock_inv in Hr as (current & Hload & [(Hrep & _)|(Hrep & _ & _ & _ & _ & _ & srow & Hf)]); [| |done|done];
    rewrite Hrep in H; cbn [orb] in H; [done|].
  destruct (negb _); [done|]. step H stored Hstored. apply tx_ret_inv in H as (_ & -> & _).
  apply finishPartyRoomAggregateCAS_inv in Hstored; [|done|done]. destruct Hf as (_ & _ & Had & _).
  eapply (finished_preserved b t); [done|exact Hs1|exact (ad_rooms _ _ _ _ _ _ _ Had)|exact (ad_starts _ _ _ _ _ _ _ Had)| |exact Hsid|done].
  intros k. by eapply advanced_finished.
Qed.

Lemma FinishTimer_preserved b a commit t out t' :
  GamesOK t -> BatchOK (batch commit) -> FinishTimer fault ctxDone b a commit t = (out, t') -> preserved t t'.
Proof.
  intros Hok Hb H. pose proof (si_keyed _ (st_sessions _ (go_store _ Hok))) as Hk.
  apply game_guard_inv in H as [(e & -> & ->)|[Hv H]]; [done|]. apply negb_false_iff in Hv.
  apply game_check_inv in H as [(e & -> & ->)|([] & Hw & H)]; [done|]. apply game_finish_inv in H. destruct out as [r|]; [|by subst].
  destruct H as [n H]. apply termination_facts in Hw as (Htr & Hnil & Hsid & Hst & _).
  step H locked Hl. apply lockRoomForUpdate_inv in Hl as (-> & row & Hrow & Hl).
  step H current Hc. apply getGameSessionForUpdate_inv in Hc as [-> Hload]; [|done].
  destruct (sameRoomSnapshot locked b) eqn:Es; cbn [negb] in H.
  2:{ step H r1 Hr. apply replayTimer_same in Hr as ->. apply tx_ret_inv in H as (_ & -> & _). done. }
  destruct (locked_room _ _ _ _ (go_rooms _ Hok) Hrow Hl Es) as [Hpos _].
  step H r1 Hr. pose proof (timer_StoreInv _ _ _ _ _ _ _ _ _ (go_store _ Hok) Hb Hv Hload Hr) as Hs1.
  apply commitTimerAfterSessionLock_inv in Hr as [(Hrep & _)|(Hrep & _ & _ & _ & _ & _ & _ & srow & Hf)]; [| |done|done];
    rewrite Hrep in H; cbn [orb] in H; [done|].
  destruct (negb _); [done|]. step H stored Hstored. apply tx_ret_inv in H as (_ & -> & _).
  apply finishPartyRoomAggregateCAS_inv in Hstored; [|done|done]. destruct Hf as (_ & _ & Had & _).
  eapply (finished_preserved b t); [done|exact Hs1|exact (ad_rooms _ _ _ _ _ _ _ Had)|exact (ad_starts _ _ _ _ _ _ _ Had)| |exact Hsid|done].
  intros k. by eapply advanced_finished.
Qed.

(** Nothing the rooms and sessions are about changes with a system operation. *)
Lemma onlyOperation_rooms key t t' : t' = t \/ onlyOperation key t t' ->
  rooms t' = rooms t /\ start_receipts t' = start_receipts t /\ game_sessions t' = game_sessions t.
Proof. intros [->|(op & _ & _ & ->)]; done. Qed.

Lemma FinishSystem_preserved b a actor commit t out t' :
  GamesOK t -> BatchOK (batch commit) -> FinishSystem fault ctxDone b a actor commit t = (out, t') -> preserved t t'.
Proof.
  intros Hok Hb H. pose proof (si_keyed _ (st_sessions _ (go_store _ Hok))) as Hk. unfold FinishSystem in H. cbv zeta in H.
  apply game_guard_inv in H as [(e & -> & ->)|[Hv H]]; [done|]. apply negb_false_iff in Hv.
  apply game_guard_inv in H as [(e & -> & ->)|[_ H]]; [done|].
  apply game_check_inv in H as [(e & -> & ->)|([] & Hw & H)]; [done|]. apply game_finish_inv in H. destruct out as [r|]; [|by subst].
  destruct H as [n H]. apply termination_facts in Hw as (Htr & Hnil & Hsid & Hst & _).
  step H locked Hl. apply lockRoomForUpdate_inv in Hl as (-> & row & Hrow & Hl). destruct (_ && _) in H; [done|].
  step H current Hc. apply getGameSessionForUpdate_inv in Hc as [-> Hload]; [|done].
  destruct (sameRoomSnapshot locked b) eqn:Es; cbn [negb] in H.
  2:{ step H r1 Hr. apply replaySystem_same in Hr as ->. apply tx_ret_inv in H as (_ & -> & _). done. }
  destruct (locked_room _ _ _ _ (go_rooms _ Hok) Hrow Hl Es) as [Hpos Hptr].
  step H r1 Hr. pose proof (system_StoreInv _ _ _ _ _ _ _ _ _ (go_store _ Hok) Hb Hv Hload Hr) as Hs1.
  apply commitSystemAfterSessionLock_inv in Hr as [(_ & Hframe & Hcase)|(Hret & Hrep & _ & srow & tm & op & Hframe & (_ & _ & Had & _) & _)]; [| |done|done|done].
  - destruct (onlyOperation_rooms _ _ _ Hframe) as (Er & Est & Eg). destruct Hcase as [(Hret & _)|[(Hret & Hrep & _)|(Hret & Hrep & Hterm & _)]].
    + rewrite Hret in H. apply tx_ret_inv in H as (_ & -> & _). apply preserved_session; [done|done|done|done|]. intros k. by apply playedIn_same.
    + rewrite Hret, Hrep in H. done.
    + exfalso. destruct (loaded_room _ _ _ Hk Hload) as [_ Hplay]. rewrite (pointer_of_session _ Hnil) in Hptr.
      apply (go_agree _ Hok) in Hptr. rewrite <- Hsid, Hplay in Hptr. unfold live in Hptr. unfold Terminal in Hterm.
      apply orb_true_iff in Hterm as [E|E]; apply eqb_string_true in E; rewrite E in Hptr; done.
  - rewrite Hret, Hrep in H. cbn [orb] in H. destruct (negb _); [done|]. step H stored Hstored. apply tx_ret_inv in H as (_ & -> & _).
    destruct (onlyOperation_rooms _ _ _ Hframe) as (Er & Est & Eg).
    apply finishPartyRoomAggregateCAS_inv in Hstored; [|done|done].
    eapply (finished_preserved b t); [done|exact Hs1|rewrite (ad_rooms _ _ _ _ _ _ _ Had); exact Er|
      rewrite (ad_starts _ _ _ _ _ _ _ Had); exact Est| |exact Hsid|done].
    intros k. rewrite (advanced_finished _ _ _ _ _ _ _ k Had Hst). case_decide; [done|]. by apply playedIn_same.
Qed.

(** ** Lifecycle changes *)
Lemma lifecycle_StoreInv current commit t n stored t' n' :
  StoreInv t -> LifecycleCommit_Valid commit = true ->
  persistLifecycleAfterSessionLock fault ctxDone current commit (t, n) = Ok (stored, (t', n')) ->
  StoreInv t' /\ exists row, reshaped (s_ID (lc_before commit)) row (setLifecycle row (createGameSessionParams (lc_after commit))) t t'.
Proof.
  intros Hinv Hv H. apply persistLifecycle_inv in H as (row & Hre & _ & _ & _ & _ & _ & Hl); [|exact (si_keyed _ (st_sessions _ Hinv))|done].
  split; [|by exists row]. eapply reshaped_StoreInv; [done|exact Hre|done| |exact Hl].
  exact (proj2 (si_widths _ (st_sessions _ Hinv) _ _ (re_row _ _ _ _ _ Hre))).
Qed.

(** The room written after its session. *)
Lemma room_update b0 b a t n stored t' n' :
  updateRoomAggregateCAS fault names b0 a (t, n) = Ok (stored, (t', n')) ->
  RoomStore.validateRoomTransition b a = Ok tt -> Room.RoomVersion b0 = Room.RoomVersion b -> 0 <= Room.RoomVersion b ->
  t' = t <| rooms := rooms t' |> /\ roomWritten (Room.ID b0) (Room.ActiveSessionID a) (rooms t) (rooms t').
Proof.
  intros H Ht Hv Hpos. apply onRooms_inv in H as (d & H & ->). apply (updateRoomAggregateCAS_written _ _ _ b) in H as [H _]; done.
Qed.

Lemma Cancel_preserved b a commit t out t' :
  GamesOK t -> Cancel fault ctxDone names b a commit t = (out, t') -> preserved t t'.
Proof.
  intros Hok H. pose proof (si_keyed _ (st_sessions _ (go_store _ Hok))) as Hk.
  apply game_guard_inv in H as [(e & -> & ->)|[Hv H]]; [done|]. apply negb_false_iff in Hv.
  apply game_check_inv in H as [(e & -> & ->)|([] & Hw & H)]; [done|]. apply game_finish_inv in H. destruct out as [r|]; [|by subst].
  destruct H as [n H]. apply termination_facts in Hw as (Htr & Hnil & Hsid & Hst & Has & _).
  step H locked Hl. apply lockRoomForUpdate_inv in Hl as (-> & row & Hrow & Hl).
  step H current Hc. apply getGameSessionForUpdate_inv in Hc as [-> Hload]; [|done].
  destruct (sameRoomSnapshot locked b) eqn:Es; cbn [negb] in H.
  2:{ destruct (_ || _) in H; [done|]. apply tx_ret_inv in H as (_ & -> & _). done. }
  destruct (locked_room _ _ _ _ (go_rooms _ Hok) Hrow Hl Es) as [Hpos Hptr]. rewrite (pointer_of_session _ Hnil) in Hptr.
  step H stored Hp. apply lifecycle_StoreInv in Hp as (Hs1 & srow & Hre); [|exact (go_store _ Hok)|done].
  step H room Hr. apply tx_ret_inv in H as (_ & -> & _). apply (room_update b b) in Hr as [Ht' Hwr]; [|done|done|done].
  rewrite (re_rooms _ _ _ _ _ Hre) in Hwr. eapply preserved_room; [done| |exact Hwr| |].
  - rewrite Ht'. by eapply StoreInv_frame.
  - rewrite Ht'. cbn. by rewrite (re_starts _ _ _ _ _ Hre).
  - eapply (ended _ _ (Room.ID b) (Room.ActiveSessionID b)); [exact Hptr| |].
    + intros k. unfold pointer. rewrite (roomWritten_pointer _ _ _ _ k Hwr), Has. done.
    + intros k. rewrite (playedIn_same t0 t1 k) by (by rewrite Ht'). rewrite <- Hsid. eapply reshaped_cancelled; [exact Hre|exact Hst].
Qed.

Lemma governed_preserved b a commit wantBefore wantAfter t out t' :
  GamesOK t -> live wantAfter = true -> commitGovernedLifecycle fault ctxDone names b a commit wantBefore wantAfter t = (out, t') ->
  preserved t t'.
Proof.
  intros Hok Hlive H. pose proof (si_keyed _ (st_sessions _ (go_store _ Hok))) as Hk.
  apply game_guard_inv in H as [(e & -> & ->)|[Hv H]]; [done|]. apply negb_false_iff in Hv.
  apply game_check_inv in H as [(e & -> & ->)|([] & Hw & H)]; [done|]. apply game_finish_inv in H. destruct out as [r|]; [|by subst].
  destruct H as [n H]. apply governance_facts in Hw as (Htr & Has & Hst).
  step H locked Hl. apply lockExactRoom_inv in Hl as (-> & Es & row & Hrow & Hl).
  step H current Hc. apply getGameSessionForUpdate_inv in Hc as [-> Hload]; [|done].
  destruct (locked_room _ _ _ _ (go_rooms _ Hok) Hrow Hl Es) as [Hpos Hptr].
  step H stored Hp. apply lifecycle_StoreInv in Hp as (Hs1 & srow & Hre); [|exact (go_store _ Hok)|done].
  step H room Hr. apply tx_ret_inv in H as (_ & -> & _).
  destruct (sameRoomSnapshot_fields _ _ Es) as (Eid & _ & Ev & _).
  apply (room_update locked b) in Hr as [Ht' Hwr]; [|done|done|done]. rewrite (re_rooms _ _ _ _ _ Hre), Eid in Hwr.
  eapply preserved_room; [done| |exact Hwr| |].
  - rewrite Ht'. by eapply StoreInv_frame.
  - rewrite Ht'. cbn. by rewrite (re_starts _ _ _ _ _ Hre).
  - apply unchanged.
    + intros k. unfold pointer. rewrite (roomWritten_pointer _ _ _ _ k Hwr), Has. case_decide; [subst|done]. by rewrite <- Hptr.
    + intros k. rewrite (playedIn_same t0 t1 k) by (by rewrite Ht'). rewrite <- Hst in Hlive. eapply reshaped_live; [exact Hre|exact Hlive].
Qed.

(** ** Starting a game *)
Definition startKeyOf (receipt : StartReceipt) : UUID * UUID * string :=
  (stk_ActorUserID (stc_Key receipt), stk_RoomID (stc_Key receipt), Value (stk_OperationID (stc_Key receipt))).

(** A start answered from the receipt of an earlier one. *)
Definition replayedStart (receipt : StartReceipt) (session : Session) (t : Tables) : Prop :=
  exists row existing, start_receipts t !! startKeyOf receipt = Some row /\ startReceiptFromRow row = Ok existing /\
    stc_RequestDigest existing = stc_RequestDigest receipt /\ loadSession t (stc_SessionID existing) = Some session.

(** A start that was stored. *)
Record newStart (b a : RoomSnapshot) (commit : CreationCommit) (receipt : StartReceipt) (session : Session) (t t' : Tables) : Prop := {
  ns_fresh : start_receipts t !! startKeyOf receipt = None;
  ns_receipts : start_receipts t' = <[startKeyOf receipt := startReceiptCreateParams receipt]> (start_receipts t);
  ns_readable : exists persisted, startReceiptFromRow (startReceiptCreateParams receipt) = Ok persisted;
  ns_pointer : pointer t (Room.ID b) = RoomStore.optionalUUIDToPG (Room.ActiveSessionID b);
  ns_written : roomWritten (Room.ID b) (Room.ActiveSessionID a) (rooms t) (rooms t');
  ns_created : exists t1, created commit session (t <| rooms := rooms t' |>) t1 /\ t' = t1 <| start_receipts := start_receipts t' |>;
}.

Lemma StartReceipt_Replay_Ok r digest r' : StartReceipt_Replay r digest = Ok r' -> stc_RequestDigest r = digest.
Proof. unfold StartReceipt_Replay. intros H. inv_results H. by apply negb_false_iff, Digest_eqb_eq in E0. Qed.

(** Consuming a countdown leaves the rooms. *)
Lemma consume_inv (proof : option PendingStartProof) params t n u t' n' :
  (match proof with
   | None => tx_ret tt
   | Some p => tx_bind (one_or (ConsumeRoomPendingStart fault (params p)) (RoomFailure Room.ErrPendingStartInvalid)) (fun _ => tx_ret tt)
   end) (t, n) = Ok (u, (t', n')) ->
  t' = t <| rooms := rooms t' |> /\ RoomStore.party_rooms (rooms t') = RoomStore.party_rooms (rooms t).
Proof.
  destruct proof as [p|]; intros H; [|apply tx_ret_inv in H as (_ & -> & _); by destruct t].
  step H row Hr. apply tx_ret_inv in H as (_ & -> & _). apply one_or_inv, session_statement_inv in Hr. cbv zeta in Hr.
  destruct (List.find _ _); [|done]. injection Hr as _ <-. done.
Qed.

Lemma startTransaction_inv b a commit receipt t n room session replayed t' n' :
  rowsKeyed t -> RoomsOK (rooms t) -> RoomStore.validateRoomTransition b a = Ok tt ->
  startTransaction fault ctxDone names b a commit receipt (t, n) = Ok ((room, session, replayed), (t', n')) ->
  if replayed : bool then t' = t /\ replayedStart receipt session t else newStart b a commit receipt session t t'.
Proof.
  intros Hk Hok Htr H. unfold startTransaction in H. cbv zeta in H.
  step H locked Hl. apply lockRoomForUpdate_inv in Hl as (-> & row & Hrow & Hl).
  step H existing He. apply query_inv in He as [He ->]. destruct existing as [erow|].
  - step H existing Hx. apply tx_lift_inv in Hx as (Hx & -> & ->). step H u Hu. apply tx_lift_inv in Hu as (Hu & -> & ->).
    step H s Hs. apply getGameSessionForUpdate_inv in Hs as [-> Hload]; [|done]. apply tx_ret_inv in H as (E & -> & _).
    injection E as -> -> ->. split; [done|]. exists erow, existing. split_and!; [by symmetry|done|by eapply StartReceipt_Replay_Ok|done].
  - destruct (sameRoomSnapshot locked b) eqn:Es; cbn [negb] in H; [|done].
    destruct (locked_room _ _ _ _ Hok Hrow Hl Es) as [Hpos Hptr].
    step H u1 H1. apply consume_inv in H1 as [Ht0 Hp0].
    step H stored Hst. apply tx_map_err_inv, (room_update b b) in Hst as [Ht1 Hwr]; [|done|done|done].
    step H session1 Hc. apply createGameSessionAggregate_inv in Hc.
    step H srow Hsr. apply one_inv, session_statement_inv in Hsr. cbv zeta in Hsr. case_bool_decide as Hnone; [done|].
    destruct (existsb _ _); [done|]. injection Hsr as <- <-. step H persisted Hp. apply tx_lift_inv in Hp as (Hp & -> & ->).
    step H u2 H2. apply tx_lift_inv in H2 as (H2 & -> & ->). apply tx_ret_inv in H as (E & -> & _). injection E as -> -> ->.
    assert (rooms t2 = rooms t1) as Er2 by exact (cr_rooms _ _ _ _ Hc).
    assert (start_receipts t2 = start_receipts t) as Es2.
    { rewrite (cr_starts _ _ _ _ Hc), Ht1. cbn. rewrite Ht0. done. }
    constructor.
    + by symmetry.
    + cbn. rewrite Es2. done.
    + by eexists.
    + exact Hptr.
    + cbn. rewrite Er2. destruct Hwr as (r0 & r1 & W1 & W2 & W3). exists r0, r1. rewrite <- Hp0. done.
    + exists t2. split; [|done]. cbn. rewrite Er2. replace (t <| rooms := rooms t1 |>) with t1; [exact Hc|].
      rewrite Ht1 at 1. rewrite Ht0. done.
Qed.

Lemma Start_inv b a commit receipt t out t' :
  rowsKeyed t -> RoomsOK (rooms t) -> Start fault ctxDone names b a commit receipt t = (out, t') ->
  match out with
  | Err _ => t' = t
  | Ok (_, session, replayed) =>
      CreationCommit_Valid commit = true /\ validateRoomGameSessionStart b a commit = Ok tt /\
      startReceiptMatches receipt b (cc_Session commit) = true /\
      if replayed : bool then t' = t /\ replayedStart receipt session t else newStart b a commit receipt session t t'
  end.
Proof.
  intros Hk Hok H. unfold Start in H. apply game_check_inv in H as [(e & -> & ->)|(u & Htr & H)]; [done|].
  apply game_guard_inv in H as [(e & -> & ->)|[Hv H]]; [done|]. apply negb_false_iff in Hv.
  destruct (validateCreationWidths commit) as [u1|e]; [|by injection H as <- <-].
  apply game_check_inv in H as [(e & -> & ->)|([] & Hs & H)]; [done|].
  apply game_check_inv in H as [(e & -> & ->)|(u2 & _ & H)]; [done|].
  apply game_guard_inv in H as [(e & -> & ->)|[Hm H]]; [done|]. apply negb_false_iff in Hm.
  apply game_finish_inv in H. destruct out as [[[room session] replayed]|]; [|done]. destruct H as [n H].
  unfold ofRoom in Htr. destruct (RoomStore.validateRoomTransition b a) as [[]|] eqn:Et; [|done].
  split_and!; try done. by eapply startTransaction_inv.
Qed.

Lemma Start_preserved b a commit receipt t out t' :
  GamesOK t -> BatchOK (cc_Batch commit) -> Start fault ctxDone names b a commit receipt t = (out, t') -> preserved t t'.
Proof.
  intros Hok Hb H. apply Start_inv in H; [|exact (si_keyed _ (st_sessions _ (go_store _ Hok)))|exact (go_rooms _ Hok)].
  destruct out as [[[room session] replayed]|]; [|by subst]. destruct H as (Hv & Hs & _ & H).
  destruct replayed; [by destruct H as [-> _]|]. apply start_facts in Hs as (Hbn & Has & Hnil & Hroom & Hact).
  destruct H as [Hfresh Hrec _ Hptr Hwr (t1 & Hc & Ht')]. rewrite Hbn in Hptr.
  assert (StoreInv t') as Hs'.
  { rewrite Ht'. apply (StoreInv_frame t1); [|done..]. eapply created_StoreInv; [|exact Hb|exact Hv|exact Hc].
    by apply (StoreInv_frame t); [exact (go_store _ Hok)|..]. }
  eapply preserved_room; [done|done|exact Hwr|rewrite Hrec; by apply insert_subseteq|].
  assert (forall k, playedIn t' k = if decide (k = s_ID (cc_Session commit)) then Some (Room.ID b) else playedIn t k) as Hplay.
  { intros k. rewrite (playedIn_same t1 t' k) by by rewrite Ht'. rewrite (playedIn_write _ _ _ _ _ (cr_sessions _ _ _ _ Hc)).
    unfold liveRoom. cbn [createGameSessionParams g_Status g_RoomID]. by rewrite Hact, Hroom. }
  eapply (begun _ _ (Room.ID b) (s_ID (cc_Session commit))); [exact Hptr| | |exact Hplay].
  - unfold playedIn. pose proof (cr_fresh _ _ _ _ Hc) as Hn. cbn in Hn. by rewrite Hn.
  - intros k. unfold pointer. rewrite (roomWritten_pointer _ _ _ _ k Hwr), Has, pointer_of_session by done. done.
Qed.

End Ending.

(** ** Operations of the session repository

    The runtime commits a move that ends the game, and a cancellation, with the
    room; the session repository alone commits the others. *)
Section Sessions.
Context (fault : nat -> option DbError) (ctxDone : bool).

Lemma MoveOK_active b a bt : MoveOK b a bt -> s_Status a <> StatusFinished -> s_Status a = StatusActive.
Proof. intros H Hn. destruct (mo_after _ _ _ H); [done|by destruct Hn]. Qed.

Lemma CommitAction_preserved commit t out t' :
  GamesOK t -> BatchOK (batch commit) -> s_Status (after commit) <> StatusFinished ->
  CommitAction fault ctxDone commit t = (out, t') -> preserved t t'.
Proof.
  intros Hok Hb Hn H. pose proof (si_keyed _ (st_sessions _ (go_store _ Hok))) as Hk.
  apply CommitAction_inv in H; [|done]. destruct out as [r|]; [|by subst]. destruct H as (Hv & _ & _ & n & n' & H).
  pose proof (action_StoreInv _ _ _ _ _ _ _ _ (go_store _ Hok) Hb Hv H) as Hs'.
  apply commitActionAfterRoomLock_inv in H as (current & _ & [(_ & -> & _)|(_ & _ & _ & _ & _ & _ & row & _ & _ & Had & _)]); [done| |done|done].
  apply ActionCommit_facts in Hv as (Hm & _).
  eapply preserved_session; [done|done|exact (ad_rooms _ _ _ _ _ _ _ Had)|exact (ad_starts _ _ _ _ _ _ _ Had)|].
  intros k. eapply advanced_active; [exact Had|by eapply MoveOK_active].
Qed.

Lemma CommitTimer_preserved commit t out t' :
  GamesOK t -> BatchOK (batch commit) -> s_Status (after commit) <> StatusFinished ->
  CommitTimer fault ctxDone commit t = (out, t') -> preserved t t'.
Proof.
  intros Hok Hb Hn H. pose proof (si_keyed _ (st_sessions _ (go_store _ Hok))) as Hk.
  apply CommitTimer_inv in H; [|done]. destruct out as [r|]; [|by subst]. destruct H as (Hv & _ & current & n & n' & Hload & H).
  pose proof (timer_StoreInv _ _ _ _ _ _ _ _ _ (go_store _ Hok) Hb Hv Hload H) as Hs'.
  apply commitTimerAfterSessionLock_inv in H as [(_ & -> & _)|(_ & _ & _ & _ & _ & _ & _ & row & _ & _ & Had & _)]; [done| |done|done].
  apply TimerCommit_facts in Hv as (Hm & _).
  eapply preserved_session; [done|done|exact (ad_rooms _ _ _ _ _ _ _ Had)|exact (ad_starts _ _ _ _ _ _ _ Had)|].
  intros k. eapply advanced_active; [exact Had|by eapply MoveOK_active].
Qed.

Lemma CommitSystem_preserved commit t out t' :
  GamesOK t -> BatchOK (batch commit) -> s_Status (after commit) <> StatusFinished ->
  CommitSystem fault ctxDone commit t = (out, t') -> preserved t t'.
Proof.
  intros Hok Hb Hn H. pose proof (si_keyed _ (st_sessions _ (go_store _ Hok))) as Hk.
  apply CommitSystem_inv in H; [|done]. destruct out as [r|]; [|by subst]. destruct H as (Hv & _ & current & n & n' & Hload & H).
  pose proof (system_StoreInv _ _ _ _ _ _ _ _ _ (go_store _ Hok) Hb Hv Hload H) as Hs'.
  apply commitSystemAfterSessionLock_inv in H as [(_ & Hframe & _)|(_ & _ & _ & row & t1 & op & Hframe & (_ & _ & Had & _) & _)]; [| |done|done|done];
    destruct (onlyOperation_rooms _ _ _ Hframe) as (Er & Est & Eg).
  - apply preserved_session; [done|done|done|done|]. intros k. by apply playedIn_same.
  - apply SystemCommit_facts in Hv as (Hm & _).
    eapply preserved_session; [done|done|by rewrite (ad_rooms _ _ _ _ _ _ _ Had)|by rewrite (ad_starts _ _ _ _ _ _ _ Had)|].
    intros k. rewrite <- (playedIn_same t t1 k Eg). eapply advanced_active; [exact Had|by eapply MoveOK_active].
Qed.

Lemma CommitLifecycle_preserved commit t out t' :
  GamesOK t -> s_Status (lc_after commit) <> StatusCancelled -> CommitLifecycle fault ctxDone commit t = (out, t') -> preserved t t'.
Proof.
  intros Hok Hn H. pose proof (si_keyed _ (st_sessions _ (go_store _ Hok))) as Hk.
  apply CommitLifecycle_inv in H; [|done]. destruct out as [stored|]; [|by subst]. destruct H as (Hv & current & n & n' & _ & H).
  apply lifecycle_StoreInv in H as (Hs' & row & Hre); [|exact (go_store _ Hok)|done].
  destruct (LifecycleCommit_status _ Hv) as [|Hl]; [done|].
  eapply preserved_session; [done|done|exact (re_rooms _ _ _ _ _ Hre)|exact (re_starts _ _ _ _ _ Hre)|].
  intros k. by eapply reshaped_live.
Qed.

Lemma Acquire_preserved b next t out t' :
  GamesOK t -> AcquireOwnershipCAS fault b next t = (out, t') -> preserved t t'.
Proof.
  intros Hok H. assert (StoreInv t') as Hs' by (eapply store_step_StoreInv; [exact (go_store _ Hok)|by eapply step_acquire]).
  apply AcquireOwnershipCAS_inv in H; [|exact (si_keyed _ (st_sessions _ (go_store _ Hok)))]. destruct out as [stored|]; [|by subst].
  destruct H as (_ & row & Hre & _). eapply preserved_session; [done|done|exact (re_rooms _ _ _ _ _ Hre)|exact (re_starts _ _ _ _ _ Hre)|].
  intros k. by eapply playedIn_kept; [exact (re_row _ _ _ _ _ Hre)|exact (re_sessions _ _ _ _ _ Hre)|].
Qed.

Lemma Noop_preserved key digest at_ t out t' :
  GamesOK t -> CompleteSystemNoop fault key digest at_ t = (out, t') -> preserved t t'.
Proof.
  intros Hok H. assert (StoreInv t') as Hs' by (eapply store_step_StoreInv; [exact (go_store _ Hok)|by eapply step_noop]).
  apply CompleteSystemNoop_inv in H; [|exact (si_keyed _ (st_sessions _ (go_store _ Hok)))]. destruct out as [r|]; [|by subst].
  destruct H as [Hf _]. destruct (onlyOperation_rooms _ _ _ Hf) as (Er & Est & Eg).
  apply preserved_session; [done|done|done|done|]. intros k. by apply playedIn_same.
Qed.

Lemma Inbox_preserved key digest version at_ t out t' :
  GamesOK t -> CompleteSystemInbox fault key digest version at_ t = (out, t') -> preserved t t'.
Proof.
  intros Hok H. assert (StoreInv t') as Hs' by (eapply store_step_StoreInv; [exact (go_store _ Hok)|by eapply step_inbox]).
  apply CompleteSystemInbox_inv in H. destruct out as [r|]; [|by subst]. destruct H as [->|(row & row' & _ & _ & _ & ->)]; [done|].
  by apply preserved_session.
Qed.
End Sessions.

(** ** Operations of the room repository *)
Section Rooms.
Context (fault : nat -> option RoomStore.DbError) (ctxDone : bool) (names : UUID -> option (string * string)).

(** A room command that keeps the session, written over the room it was computed from. *)
Lemma room_written_preserved current ms next d' stored n n' t :
  GamesOK t -> SeenRoom (rooms t) current -> Room.ActiveSessionID next = Room.ActiveSessionID current ->
  RoomStore.validateRoomTransition (current <| Room.Members := ms |>) next = Ok tt ->
  RoomStore.updateRoomAggregateCAS fault names (current <| Room.Members := ms |>) next (rooms t, n) = Ok (stored, (d', n')) ->
  forall d2, RoomStore.party_rooms d2 = RoomStore.party_rooms d' -> preserved t (t <| rooms := d2 |>).
Proof.
  intros Hok [Hpos (row & Hrow & _ & Hseen)] Has Htr H d2 E2.
  apply (updateRoomAggregateCAS_written _ _ _ (current <| Room.Members := ms |>)) in H as [Hw (row0 & Hrow0 & Hv)]; [|done|done|done].
  assert (row0 = row) as -> by (cbn in Hrow0; congruence).
  assert (roomWritten (Room.ID current) (Room.ActiveSessionID next) (rooms t) d2) as Hw2.
  { destruct Hw as (r0 & r1 & W1 & W2 & W3). exists r0, r1. rewrite E2. done. }
  eapply preserved_room; [done|by apply (StoreInv_frame t); [exact (go_store _ Hok)|..]|exact Hw2|done|]. apply unchanged; [|done].
  intros k. unfold pointer. cbn. rewrite (roomWritten_pointer _ _ _ _ k Hw2), Has. case_decide; [subst|done].
  symmetry. apply Hseen. by rewrite Hv.
Qed.

Lemma UpdateCAS_preserved current ms next t out d' :
  GamesOK t -> SeenRoom (rooms t) current -> Room.ActiveSessionID next = Room.ActiveSessionID current ->
  RoomStore.UpdateCAS fault ctxDone names (current <| Room.Members := ms |>) next (rooms t) = (out, d') ->
  preserved t (t <| rooms := d' |>).
Proof.
  intros Hok Hseen Has. unfold RoomStore.UpdateCAS. rewrite !RoomSystem.Snapshot_id. cbv zeta.
  assert (preserved t (t <| rooms := rooms t |>)) as Hsame by (destruct t; by apply preserved_same).
  destruct (RoomStore.validateRoomTransition _ next) as [[]|] eqn:Et; [|by intros [= _ <-]].
  destruct (RoomStore.Run fault _ _) as [o d1] eqn:E. apply RoomStoreFacts.Run_inv in E as [(e & -> & ->)|(r & n & -> & Hw)];
    intros [= _ <-]; [done|]. by eapply room_written_preserved.
Qed.

Lemma CommitRemoval_preserved current ms next event t out d' :
  GamesOK t -> SeenRoom (rooms t) current -> Room.ActiveSessionID next = Room.ActiveSessionID current ->
  RoomStore.CommitRemoval fault ctxDone names (current <| Room.Members := ms |>) next event (rooms t) = (out, d') ->
  preserved t (t <| rooms := d' |>).
Proof.
  intros Hok Hseen Has. unfold RoomStore.CommitRemoval. rewrite !RoomSystem.Snapshot_id. cbv zeta.
  assert (preserved t (t <| rooms := rooms t |>)) as Hsame by (destruct t; by apply preserved_same).
  destruct (RoomStore.validateRoomTransition _ next) as [[]|] eqn:Et; [|by intros [= _ <-]].
  destruct (_ || _); [by intros [= _ <-]|].
  destruct (RoomStore.Run fault _ _) as [o d1] eqn:E. apply RoomStoreFacts.Run_inv in E as [(e & -> & ->)|(r & n & -> & Hw)];
    intros [= _ <-]; [done|]. apply RoomStoreFacts.tx_bind_inv in Hw as (r' & d2 & n2 & Hw & H).
  apply RoomStoreFacts.tx_bind_inv in H as (u3 & d3 & n3 & H3 & H). apply RoomStoreFacts.statement_inv in H3.
  apply RoomStoreFacts.tx_bind_inv in H as (u5 & d5 & n5 & H5 & H). apply RoomStoreFacts.statement_inv in H5.
  destruct (bool_decide _) in H5; [done|]. injection H5 as _ <-. injection H as _ <- _.
  eapply room_written_preserved; [done|done|done|exact Et|exact Hw|]. cbn.
  destruct (RoomStore.outbox_events d2 !! _); [|by injection H3 as _ <-]. destruct (bool_decide _); [|done]. by injection H3 as _ <-.
Qed.

(** A new room has no session. *)
Lemma Create_preserved room t out d' :
  GamesOK t -> RoomStore.Create fault ctxDone names room (rooms t) = (out, d') -> preserved t (t <| rooms := d' |>).
Proof.
  intros Hok. unfold RoomStore.Create. rewrite !RoomSystem.Snapshot_id. cbv zeta.
  assert (preserved t (t <| rooms := rooms t |>)) as Hsame by (destruct t; by apply preserved_same).
  destruct (_ || _) eqn:Eg; [by intros [= _ <-]|]. apply orb_false_iff in Eg as [_ Eg]. apply negb_false_iff, eqb_string_true in Eg.
  destruct (RoomStore.validateRoomPersistenceWidths room) as [[]|] eqn:Ew; [|by intros [= _ <-]].
  destruct (RoomStore.Run fault _ _) as [o d1] eqn:E. apply RoomStoreFacts.Run_inv in E as [(e & -> & ->)|(r & n & -> & Hw)];
    intros [= _ <-]; [done|].
  apply RoomStoreFacts.tx_bind_inv in Hw as (row & d2 & n2 & H2 & H); apply RoomStoreFacts.statement_inv in H2.
  destruct (bool_decide _) eqn:Eb in H2; [done|]. apply bool_decide_eq_false, eq_None_not_Some in Eb.
  destruct (existsb _ _); [done|]. injection H2 as <- Hd2.
  apply RoomStoreFacts.tx_bind_inv in H as (u3 & d3 & n3 & H3 & H). apply RoomStoreFacts.statement_inv in H3. injection H3 as _ Hd3.
  apply RoomStoreFacts.tx_bind_inv in H as (u4 & d4 & n4 & H4 & H). apply RoomStoreFacts.createMembers_inv in H4 as (Hp4 & _).
  apply RoomStoreFacts.tx_bind_inv in H as (ms & d5 & n5 & H5 & H). apply RoomStoreFacts.statement_inv in H5. injection H5 as _ <-.
  unfold RoomStore.tx_lift in H. destruct (RoomStore.roomFromRows _ _) as [r0|] eqn:Ef; [|done]. injection H as _ <- _.
  assert (Hrooms : RoomStore.party_rooms d4 = <[Room.ID room := RoomStore.createPartyRoomParams room]> (RoomStore.party_rooms (rooms t)))
    by (rewrite Hp4, <- Hd3; cbn; rewrite <- Hd2; done).
  assert (Room.ActiveSessionID room = Nil) as Hnil.
  { apply roomFromRows_fields in Ef as (_ & Has & _ & _ & Hwf & Hst).
    cbn [RoomStore.createPartyRoomParams RoomStore.row_ActiveSessionID RoomStore.row_Status] in Has, Hst.
    rewrite RoomStoreFacts.optionalUUID_roundtrip in Has. rewrite <- Has. apply RoomFacts.WF_parts in Hwf as (_ & _ & Hlf & _).
    apply (RoomFacts.lf_idle _ Hlf). rewrite Hst, Eg. done. }
  constructor; [constructor|..].
  - by apply (StoreInv_frame t); [exact (go_store _ Hok)|..].
  - intros k rw. cbn. rewrite Hrooms, lookup_insert_Some. intros [[<- <-]|[_ Hk]]; [|by apply (go_rooms _ Hok)].
    constructor; [done|cbn; apply optionalUUID_not_nil|cbn; apply i64_range].
  - eapply change_Agree; [exact (go_agree _ Hok)|]. apply unchanged; [|done]. intros k. unfold pointer, pointerOf. cbn. rewrite Hrooms.
    destruct (decide (k = Room.ID room)) as [->|Hne]; [|by rewrite lookup_insert_ne]. rewrite lookup_insert_eq, Eb. cbn. by rewrite Hnil.
  - intros rm [Hpos (rw & Hrw & Hv & Hp)]. split; [done|]. exists rw. cbn. unfold pointerOf. rewrite Hrooms.
    rewrite !lookup_insert_ne by congruence. done.
  - done.
Qed.
End Rooms.

End RoomGameInvariant.
