(* ===== verification/RoomGameTheorems.v ===== *)
(** * Properties of the transactions over rooms and games

    Rooms and sessions agree about which game is played where, a start is stored
    once, and what the guards make of a game that ends while a pause is requested
    or in force. *)

From stdpp Require Import gmap relations.
From S2P Require Import Prelude GoLib Sha256 Selector GameManifest GameContract Outbox Room RoomFacts RoomHistory RoomStore RoomStoreFacts RoomSystem RoomTheorems RoomServiceTheorems Runtime RuntimeFacts RuntimeMoves RuntimeCommit RuntimeStore RuntimeQueries RuntimeRepository RuntimeStoreFacts RuntimeStoreEffects RuntimeStoreInvariant RuntimeStoreProgress RuntimeTheorems RoomGameRepository RoomGameFacts RoomGameInvariant.

Module RoomGameTheorems.
Import GoLib Selector GameManifest GameContract Runtime RuntimeFacts RuntimeMoves RuntimeCommit RuntimeStore RuntimeQueries
  RuntimeRepository RuntimeStoreFacts RuntimeStoreEffects RuntimeStoreInvariant RoomGameRepository RoomGameFacts RoomGameInvariant.

(** ** Interleaved requests

    A state is the tables and the rooms the requests have read so far.  A step is
    one transaction of one request, with any faults and any outcome: of the room
    service, whose commands leave the session of a room alone; of the session
    repository, which commits the moves and lifecycle changes that keep a session
    alive; or of the repository over both. *)
Inductive game_step : Tables * list Room -> Tables * list Room -> Prop :=
| gsCreateRoom fault ctxDone names t seen room out d' :
    RoomStore.Create fault ctxDone names room (rooms t) = (out, d') -> game_step (t, seen) (t <| rooms := d' |>, seen)
| gsGetByID fault ctxDone t seen id r :
    RoomStore.GetByID fault ctxDone id (rooms t) = Ok r -> game_step (t, seen) (t, r :: seen)
| gsGetByCode fault ctxDone t seen code r :
    RoomStore.GetByCode fault ctxDone code (rooms t) = Ok r -> game_step (t, seen) (t, r :: seen)
| gsUpdate fault ctxDone names t seen current ms c v at_ next out d' :
    current ∈ seen -> keepsSession c = true -> Room.exec current c v at_ = Ok next ->
    RoomStore.UpdateCAS fault ctxDone names (current <| Room.Members := ms |>) next (rooms t) = (out, d') ->
    game_step (t, seen) (t <| rooms := d' |>, seen)
| gsRemoval fault ctxDone names t seen current ms c v at_ next event out d' :
    current ∈ seen -> keepsSession c = true -> Room.exec current c v at_ = Ok next ->
    RoomStore.CommitRemoval fault ctxDone names (current <| Room.Members := ms |>) next event (rooms t) = (out, d') ->
    game_step (t, seen) (t <| rooms := d' |>, seen)
| gsAcquire fault t seen b next out t' :
    AcquireOwnershipCAS fault b next t = (out, t') -> game_step (t, seen) (t', seen)
| gsAction fault ctxDone t seen commit out t' :
    BatchOK (batch commit) -> s_Status (after commit) <> StatusFinished ->
    CommitAction fault ctxDone commit t = (out, t') -> game_step (t, seen) (t', seen)
| gsTimer fault ctxDone t seen commit out t' :
    BatchOK (batch commit) -> s_Status (after commit) <> StatusFinished ->
    CommitTimer fault ctxDone commit t = (out, t') -> game_step (t, seen) (t', seen)
| gsSystem fault ctxDone t seen commit out t' :
    BatchOK (batch commit) -> s_Status (after commit) <> StatusFinished ->
    CommitSystem fault ctxDone commit t = (out, t') -> game_step (t, seen) (t', seen)
| gsNoop fault t seen key digest at_ out t' :
    CompleteSystemNoop fault key digest at_ t = (out, t') -> game_step (t, seen) (t', seen)
| gsLifecycle fault ctxDone t seen commit out t' :
    s_Status (lc_after commit) <> StatusCancelled ->
    CommitLifecycle fault ctxDone commit t = (out, t') -> game_step (t, seen) (t', seen)
| gsInbox fault t seen key digest version at_ out t' :
    CompleteSystemInbox fault key digest version at_ t = (out, t') -> game_step (t, seen) (t', seen)
| gsFact t seen sid source row :
    game_step (t, seen) (t <| system_inbox := <[(sid, source) := row]> (system_inbox t) |>, seen)
| gsStart fault ctxDone names t seen b a commit receipt out t' :
    BatchOK (cc_Batch commit) -> Start fault ctxDone names b a commit receipt t = (out, t') -> game_step (t, seen) (t', seen)
| gsFinishAction fault ctxDone t seen b a commit out t' :
    BatchOK (batch commit) -> FinishAction fault ctxDone b a commit t = (out, t') -> game_step (t, seen) (t', seen)
| gsFinishTimer fault ctxDone t seen b a commit out t' :
    BatchOK (batch commit) -> FinishTimer fault ctxDone b a commit t = (out, t') -> game_step (t, seen) (t', seen)
| gsFinishSystem fault ctxDone t seen b a actor commit out t' :
    BatchOK (batch commit) -> FinishSystem fault ctxDone b a actor commit t = (out, t') -> game_step (t, seen) (t', seen)
| gsCancel fault ctxDone names t seen b a commit out t' :
    Cancel fault ctxDone names b a commit t = (out, t') -> game_step (t, seen) (t', seen)
| gsSuspend fault ctxDone names t seen b a commit out t' :
    RoomGameRepository.Suspend fault ctxDone names b a commit t = (out, t') -> game_step (t, seen) (t', seen)
| gsResume fault ctxDone names t seen b a commit out t' :
    RoomGameRepository.Resume fault ctxDone names b a commit t = (out, t') -> game_step (t, seen) (t', seen).

Definition game_reachable (state : Tables * list Room) : Prop := rtc game_step (emptyTables, []) state.

(** The invariant of the states, with the rooms that were read. *)
Definition SystemOK (state : Tables * list Room) : Prop := GamesOK state.1 /\ Forall (SeenRoom (rooms state.1)) state.2.

Lemma preserved_SystemOK t t' seen : preserved t t' -> Forall (SeenRoom (rooms t)) seen -> SystemOK (t', seen).
Proof. intros [Hok Hs _] H. split; [done|]. eapply Forall_impl; [exact H|exact Hs]. Qed.

Lemma read_SystemOK t seen r d : SystemOK (t, seen) -> d = rooms t -> (exists id, RoomStoreFacts.loadRoom d id = Ok r) -> SystemOK (t, r :: seen).
Proof.
  intros [Hok Hs] -> [id H]. split; [done|]. constructor; [|done]. unfold RoomStoreFacts.loadRoom in H.
  destruct (RoomStore.party_rooms (rooms t) !! id) as [row|] eqn:E; [|done]. by eapply read_SeenRoom; [exact (go_rooms _ Hok)|exact E|exact H].
Qed.

#[local] Hint Resolve CommitAction_preserved CommitTimer_preserved CommitSystem_preserved CommitLifecycle_preserved Acquire_preserved
  Noop_preserved Inbox_preserved Start_preserved FinishAction_preserved FinishTimer_preserved FinishSystem_preserved Cancel_preserved
  Create_preserved : preserved.

(** Every step keeps the invariant and the receipts of starts. *)
Lemma game_step_preserved state state' : game_step state state' -> SystemOK state -> SystemOK state' /\ preserved state.1 state'.1.
Proof.
  intros Hstep [Hok Hs]. assert (forall id row, RoomStore.party_rooms (rooms state.1) !! id = Some row -> RoomStore.row_RoomID row = Some id) as Hids.
  { intros id row Hrow. by apply (go_rooms _ Hok) in Hrow as []. }
  enough (preserved state.1 state'.1 /\ (state'.2 = state.2 \/ SystemOK state')) as [Hp [E|?]];
    [by split; [destruct state'; cbn in E; subst; by eapply preserved_SystemOK|]|done|].
  destruct Hstep; cbn [fst snd] in *;
    try (split; [by eauto with preserved|by left]).
  - split; [done|right]. eapply read_SystemOK; [by split|reflexivity|]. exists id. eapply RoomSystem.GetByID_load; [|exact H]. apply Hids.
  - split; [done|right]. eapply read_SystemOK; [by split|reflexivity|]. eapply RoomSystem.GetByCode_load; [|exact H]. apply Hids.
  - split; [|by left]. rewrite Forall_forall in Hs. eapply UpdateCAS_preserved; [done|by apply Hs|by eapply exec_keepsSession|exact H2].
  - split; [|by left]. rewrite Forall_forall in Hs. eapply CommitRemoval_preserved; [done|by apply Hs|by eapply exec_keepsSession|exact H2].
  - split; [|by left]. by apply preserved_session; [|apply (StoreInv_frame t); [exact (go_store _ Hok)|..]|..].
  - split; [|by left]. by eapply governed_preserved; [| |exact H].
  - split; [|by left]. by eapply governed_preserved; [| |exact H].
Qed.

Lemma empty_GamesOK : GamesOK emptyTables.
Proof.
  constructor; [exact empty_StoreInv| |].
  - intros id row H. cbn in H. by rewrite lookup_empty in H.
  - intros rid sid. unfold pointer, pointerOf, playedIn. cbn. by rewrite !lookup_empty.
Qed.

Lemma game_reachable_ok state : game_reachable state -> SystemOK state.
Proof.
  intros H. apply (rtc_ind_r SystemOK (emptyTables, [])) in H; [done|split; [exact empty_GamesOK|constructor]|].
  intros x y _ Hs Hx. by apply (game_step_preserved _ _ Hs Hx).
Qed.

(** Receipts of starts are never lost. *)
Lemma game_steps_starts state state' : rtc game_step state state' -> SystemOK state ->
  SystemOK state' /\ start_receipts state.1 ⊆ start_receipts state'.1.
Proof.
  induction 1 as [x|x y z Hs _ IH]; [by split|]. intros Hx. destruct (game_step_preserved _ _ Hs Hx) as [Hy [_ _ Hsub]].
  destruct (IH Hy) as [Hz Hsub']. split; [done|]. by etrans.
Qed.

(** ** A sample game

    Room 1 with host 11 and participant 12; session 71 starts in it, is taken by
    an owner and is finished by a move of 12. *)
Import RuntimeTheorems RoomTheorems(second).

Definition gameRoom : Room := Eval vm_compute in RoomTheorems.with12.
Definition gamePlaying : Room :=
  Eval vm_compute in RoomTheorems.okRoom (Room.exec gameRoom (Room.CmdStartSession 11 71 "liars-dice" 1 4) (Room.versionOf gameRoom) (14 * second)).
Definition gameEnded : Room :=
  Eval vm_compute in RoomTheorems.okRoom (Room.FinishSession gamePlaying 71 (Room.versionOf gamePlaying) (16 * second)).

Definition gameNew : NewSessionRequest :=
  mkNewSession 71 1 (mkVersionKey "liars-dice" "1.0.0" "1.0.0" "1.0.0") [mkParticipant 11 0; mkParticipant 12 1]
    (mkStart noMessage zeroDigest 1 2 2 1) 7 (sampleContext (14 * second)) (sampleMessage 1)
    (sampleTransition 1 [sampleTimer (20 * second)] false).
Definition gameEvent (id : UUID) (eventType : string) (at_ : Time) : Outbox.Event :=
  Outbox.mkEvent 0 id eventType GameSessionAggregateType 71 [1] at_ at_.
Definition gameCreated : Session * EventBatch := Eval vm_compute in okOr (noSession, noBatch) (NewSession gameNew).
Definition gameCreation : CreationCommit :=
  mkCreationCommit gameCreated.1 gameCreated.2 [gameEvent 201 GameSessionCreatedEventType (14 * second)] None.
Definition gameReceipt : StartReceipt := mkStartReceipt (mkStartKey 11 1 sampleAction) zeroDigest 71 (14 * second).

Definition gameOwned : Session := Eval vm_compute in okOr noSession (AcquireOwnership gameCreated.1 0 (15 * second)).
Definition gameMove : ActionCommit := Eval vm_compute in
  let '(a, bt) := okOr (noSession, noBatch) (ApplyAction gameOwned
    (mkActionRequest 8 1 12 sampleAction (sampleContext (16 * second)) (sampleMessage 3) (sampleTransition 2 [] true))) in
  mkCommit gameOwned a bt (mkActionReceipt (mkActionKey 71 12 sampleAction) zeroDigest ResultCodeAccepted zeroDigest 2 (16 * second))
    [gameEvent 202 GameSessionTransitionedEventType (16 * second)].

Definition quiet (n : nat) : option DbError := None.
Definition roomQuiet (n : nat) : option RoomStore.DbError := None.
Definition anyName : UUID -> option (string * string) := RoomServiceTheorems.anyName.

Definition games0 : Tables := emptyTables <| rooms := RoomServiceTheorems.db1 |>.
Definition games1 : Tables :=
  games0 <| rooms := snd (RoomStore.UpdateCAS roomQuiet false anyName RoomTheorems.newRoom RoomTheorems.with12 RoomServiceTheorems.db1) |>.
Definition games2 : Tables := snd (Start quiet false anyName gameRoom gamePlaying gameCreation gameReceipt games1).
Definition games3 : Tables := snd (AcquireOwnershipCAS quiet gameCreated.1 gameOwned games2).
Definition games4 : Tables := snd (FinishAction quiet false gamePlaying gameEnded gameMove games3).

Example game_is_played : pointer games3 1 = Some 71 /\ playedIn games3 71 = Some 1.
Proof. split; vm_compute; reflexivity. Qed.

Example game_is_over : pointer games4 1 = None /\ playedIn games4 71 = None /\
  is_ok (fst (FinishAction quiet false gamePlaying gameEnded gameMove games3)) = true.
Proof. split_and!; vm_compute; reflexivity. Qed.

Lemma games1_reachable : game_reachable (games1, [RoomTheorems.newRoom]).
Proof.
  eapply rtc_l; [apply (gsCreateRoom roomQuiet false anyName emptyTables [] RoomTheorems.newRoom
    (fst (RoomStore.Create roomQuiet false anyName RoomTheorems.newRoom RoomStore.emptyDatabase)) RoomServiceTheorems.db1);
    vm_compute; reflexivity|].
  change (emptyTables <| rooms := RoomServiceTheorems.db1 |>) with games0.
  eapply rtc_l; [apply (gsGetByID roomQuiet false games0 [] 1 RoomTheorems.newRoom); vm_compute; reflexivity|]. apply rtc_once.
  apply (gsUpdate roomQuiet false anyName games0 [RoomTheorems.newRoom] RoomTheorems.newRoom (Room.Members RoomTheorems.newRoom)
    (Room.CmdJoin 12 Room.JoinIntentParticipant) (Room.versionOf RoomTheorems.newRoom) (11 * second) RoomTheorems.with12
    (fst (RoomStore.UpdateCAS roomQuiet false anyName RoomTheorems.newRoom RoomTheorems.with12 RoomServiceTheorems.db1))).
  - apply list_elem_of_singleton. reflexivity.
  - reflexivity.
  - vm_compute. reflexivity.
  - vm_compute. reflexivity.
Qed.

Lemma games2_reachable : game_reachable (games2, [RoomTheorems.newRoom]).
Proof.
  eapply rtc_r; [exact games1_reachable|].
  apply (gsStart quiet false anyName games1 _ gameRoom gamePlaying gameCreation gameReceipt
    (fst (Start quiet false anyName gameRoom gamePlaying gameCreation gameReceipt games1))); [vm_compute; reflexivity|].
  apply surjective_pairing.
Qed.

Lemma games3_reachable : game_reachable (games3, [RoomTheorems.newRoom]).
Proof.
  eapply rtc_r; [exact games2_reachable|].
  apply (gsAcquire quiet games2 _ gameCreated.1 gameOwned (fst (AcquireOwnershipCAS quiet gameCreated.1 gameOwned games2))).
  apply surjective_pairing.
Qed.

(** ** Properties *)

(** C9: A room and its game agree.  In every state that any interleaving of
    requests reaches, with failures at any statement, a room row points to a
    session exactly when that session is live and belongs to the room; every live
    session has its room; and the sessions, their histories and their receipts
    satisfy the invariant of the session repository. *)
Theorem rooms_and_sessions_agree (state : Tables * list Room) (Hreach : game_reachable state) :
  (forall rid sid, pointer state.1 rid = Some sid <-> playedIn state.1 sid = Some rid) /\
  (forall sid row, game_sessions state.1 !! sid = Some row -> live (g_Status row) = true ->
     exists rid room, g_RoomID row = Some rid /\ RoomStore.party_rooms (rooms state.1) !! rid = Some room /\
       RoomStore.row_ActiveSessionID room = Some sid) /\
  StoreInv state.1.
Proof.
  destruct (game_reachable_ok _ Hreach) as [[Hs _ Ha] _]. split_and!; [exact Ha| |done].
  intros sid row Hrow Hl. destruct (si_loads _ (st_sessions _ Hs) _ _ Hrow) as [s Hload].
  destruct (loaded_room _ _ _ (si_keyed _ (st_sessions _ Hs)) Hload) as [_ Hp].
  assert (playedIn state.1 sid = g_RoomID row) as Ep by (unfold playedIn, liveRoom; rewrite Hrow; cbn; by rewrite Hl).
  assert (live (s_Status s) = true) as Els.
  { apply loadSession_row in Hload as (row0 & Hrow0 & Hld). apply loaded_numbers in Hld as (_ & _ & Est & _). rewrite Est. congruence. }
  rewrite Els in Hp. pose proof Hp as Hptr. apply Ha in Hptr. unfold pointer, pointerOf in Hptr.
  destruct (RoomStore.party_rooms (rooms state.1) !! s_RoomID s) as [room|] eqn:Eroom; [|done].
  exists (s_RoomID s), room. split_and!; [congruence|done|exact Hptr].
Qed.

Lemma rooms_and_sessions_agree_witness : pointer games3 1 = Some 71 /\ playedIn games3 71 = Some 1.
Proof.
  split; [vm_compute; reflexivity|].
  apply (proj1 (rooms_and_sessions_agree (games3, [RoomTheorems.newRoom]) games3_reachable) 1 71). vm_compute. reflexivity.
Defined.

(** The receipt a start writes is read back with its digest and session. *)
Lemma startReceipt_columns receipt persisted : startReceiptFromRow (startReceiptCreateParams receipt) = Ok persisted ->
  stc_RequestDigest persisted = stc_RequestDigest receipt /\ stc_SessionID persisted = stc_SessionID receipt.
Proof.
  unfold startReceiptFromRow, startReceiptCreateParams. cbn. destruct (timeToPG _); [|done].
  destruct (ParseOperationID _) as [op|]; [|done]. unfold digestFromColumn.
  destruct (NewDigest (stc_RequestDigest receipt)) as [digest|] eqn:Ed; [|done]. cbn. unfold integrity, NewStartReceipt.
  destruct (negb _); [done|]. intros [= <-]. cbn. split; [|done]. unfold NewDigest in Ed. by inv_results Ed.
Qed.

(** What a start that succeeded left in the tables. *)
Lemma started_receipt fault ctxDone names b a commit receipt t room session replayed t' :
  GamesOK t -> Start fault ctxDone names b a commit receipt t = (Ok (room, session, replayed), t') ->
  exists row existing, start_receipts t' !! startKeyOf receipt = Some row /\ startReceiptFromRow row = Ok existing /\
    stc_RequestDigest existing = stc_RequestDigest receipt /\ stc_SessionID existing = s_ID session.
Proof.
  intros Hok H. pose proof (si_keyed _ (st_sessions _ (go_store _ Hok))) as Hk.
  apply Start_inv in H as (_ & _ & Hm & H); [|exact Hk|exact (go_rooms _ Hok)]. destruct replayed.
  - destruct H as [-> (row & existing & H1 & H2 & H3 & H4)]. exists row, existing. split_and!; [done|done|done|].
    by destruct (loaded_room _ _ _ Hk H4) as [-> _].
  - destruct H as [_ Hrec [persisted Hp] _ _ (t1 & Hc & _)]. exists (startReceiptCreateParams receipt), persisted.
    destruct (startReceipt_columns _ _ Hp) as [Ed Es]. split_and!; [rewrite Hrec; apply lookup_insert_eq|done|done|].
    unfold startReceiptMatches in Hm. repeat (apply andb_prop in Hm as [Hm ?]). to_prop.
    pose proof (cr_load _ _ _ _ Hc) as Hload. apply loadSession_row in Hload as (row & Hrow & Hl).
    apply loaded_numbers in Hl as (_ & _ & _ & _ & _ & Hid). rewrite (cr_sessions _ _ _ _ Hc), lookup_insert_eq in Hrow.
    injection Hrow as <-. cbn in Hid. unfold RoomStore.uuidToPG in Hid. congruence.
Qed.

(** C10: A start is stored once.  After a start with a key succeeded, every later
    start with the same key, whatever it asks for and whatever ran in between,
    changes nothing; if it succeeds it is a replay of the same request and returns
    the session of the first. *)
Theorem start_stored_once (state : Tables * list Room) fault ctxDone names b a commit receipt room session replayed t1
    (state2 : Tables * list Room) fault' ctxDone' names' b' a' commit' receipt' out t3
    (Hreach : game_reachable state)
    (Hstart : Start fault ctxDone names b a commit receipt state.1 = (Ok (room, session, replayed), t1))
    (Hbatch : BatchOK (cc_Batch commit)) (Hlater : rtc game_step (t1, state.2) state2)
    (Hkey : stc_Key receipt' = stc_Key receipt)
    (Hagain : Start fault' ctxDone' names' b' a' commit' receipt' state2.1 = (out, t3)) :
  t3 = state2.1 /\
  match out with
  | Err _ => True
  | Ok (_, session', replayed') =>
      replayed' = true /\ s_ID session' = s_ID session /\ stc_RequestDigest receipt' = stc_RequestDigest receipt
  end.
Proof.
  destruct (game_reachable_ok _ Hreach) as [Hok Hs]. pose proof (Start_preserved _ _ _ _ _ _ _ _ _ _ Hok Hbatch Hstart) as Hp.
  destruct (started_receipt _ _ _ _ _ _ _ _ _ _ _ _ Hok Hstart) as (row & existing & Hrow & Hex & Hdig & Hsid).
  destruct (game_steps_starts _ _ Hlater (preserved_SystemOK _ _ _ Hp Hs)) as [[Hok2 _] Hsub].
  assert (startKeyOf receipt' = startKeyOf receipt) as Ekey by (unfold startKeyOf; by rewrite Hkey).
  pose proof (lookup_weaken _ _ _ _ Hrow Hsub) as Hrow2. rewrite <- Ekey in Hrow2.
  pose proof (si_keyed _ (st_sessions _ (go_store _ Hok2))) as Hk2.
  apply Start_inv in Hagain; [|exact Hk2|exact (go_rooms _ Hok2)]. destruct out as [[[room' session'] replayed']|]; [|done].
  destruct Hagain as (_ & _ & _ & H). destruct replayed'.
  - destruct H as [-> (row' & existing' & H1 & H2 & H3 & H4)]. split; [done|]. assert (row' = row) as -> by congruence.
    assert (existing' = existing) as -> by congruence. destruct (loaded_room _ _ _ Hk2 H4) as [-> _]. split_and!; congruence.
  - pose proof (ns_fresh _ _ _ _ _ _ _ H) as Hn. congruence.
Qed.

Lemma start_stored_once_witness :
  snd (Start quiet false anyName gameRoom gamePlaying gameCreation gameReceipt games3) = games3 /\
  match fst (Start quiet false anyName gameRoom gamePlaying gameCreation gameReceipt games3) with
  | Ok (_, session, replayed) => replayed = true /\ s_ID session = 71
  | Err _ => False
  end.
Proof.
  destruct (start_stored_once (games1, [RoomTheorems.newRoom]) quiet false anyName gameRoom gamePlaying gameCreation gameReceipt gamePlaying
    gameCreated.1 false games2 (games3, [RoomTheorems.newRoom]) quiet false anyName gameRoom gamePlaying gameCreation gameReceipt
    (fst (Start quiet false anyName gameRoom gamePlaying gameCreation gameReceipt games3))
    (snd (Start quiet false anyName gameRoom gamePlaying gameCreation gameReceipt games3)) games1_reachable) as [H _].
  - vm_compute. reflexivity.
  - vm_compute. reflexivity.
  - apply rtc_once. apply (gsAcquire quiet games2 _ gameCreated.1 gameOwned (fst (AcquireOwnershipCAS quiet gameCreated.1 gameOwned games2))).
    apply surjective_pairing.
  - reflexivity.
  - apply surjective_pairing.
  - split; [exact H|]. vm_compute. split; reflexivity.
Defined.

(** ** Ending a game while a pause is requested or in force *)

(** The rooms the aggregate proposes for the end of a game have no pause. *)
Lemma ended_without_pause r next sid host v at_ :
  Room.FinishSession r sid v at_ = Ok next \/ Room.CancelSession r sid v at_ = Ok next \/
  Room.CancelSessionAndClose r host sid v at_ = Ok next ->
  Room.PendingPause next = Room.noRequest /\ Room.CurrentPause next = Room.noPause.
Proof.
  assert (forall s at_ r', Room.PendingPause s = Room.noRequest -> Room.CurrentPause s = Room.noPause ->
    Room.commit s false at_ = Ok r' -> Room.PendingPause r' = Room.noRequest /\ Room.CurrentPause r' = Room.noPause) as Hcommit.
  { intros s at1 r' Hq Hc (_ & _ & -> & _)%RoomFacts.commit_inv. rewrite RoomFacts.canonicalRoom_checked. unfold RoomFacts.withCanonical.
    rewrite RoomFacts.normalizeSnapshot_eq. cbn. by rewrite Hq, Hc. }
  intros [H|[H|H]]; unfold Room.FinishSession, Room.CancelSession, Room.CancelSessionAndClose in H; cbv zeta in H; inv_results H;
    by eapply Hcommit; [| |exact H].
Qed.

(** C11: A pause blocks the end of a game.  While a room has a pending pause
    request or an active pause, the room the aggregate proposes for the end of its
    game, finished or cancelled, is refused by the guards, so that no finishing
    action, timer or system command and no cancellation is ever stored. *)
Theorem pause_blocks_termination fault ctxDone names (r next : Room) (sid host : UUID) (v : Room.Version) (at_ : Time) (t : Tables)
    (Hpause : Room.PendingPause r <> Room.noRequest \/ Room.CurrentPause r <> Room.noPause)
    (Hnext : Room.FinishSession r sid v at_ = Ok next \/ Room.CancelSession r sid v at_ = Ok next \/
             Room.CancelSessionAndClose r host sid v at_ = Ok next) :
  (forall commit, exists e, FinishAction fault ctxDone r next commit t = (Err e, t)) /\
  (forall commit, exists e, FinishTimer fault ctxDone r next commit t = (Err e, t)) /\
  (forall actor commit, exists e, FinishSystem fault ctxDone r next actor commit t = (Err e, t)) /\
  (forall commit, exists e, Cancel fault ctxDone names r next commit t = (Err e, t)).
Proof.
  apply ended_without_pause in Hnext as [Hq Hc].
  assert (forall sb sa want, exists e, validateRoomGameSessionTermination r next sb sa want = Err e) as Hrefused.
  { intros sb sa want. destruct (validateRoomGameSessionTermination r next sb sa want) as [[]|e] eqn:E; [|by exists e].
    apply termination_facts in E as (_ & _ & _ & _ & _ & Hq' & Hc'). exfalso. rewrite Hq in Hq'. rewrite Hc in Hc'. naive_solver. }
  split_and!.
  - intros commit. unfold FinishAction. destruct (negb _); [by eexists|].
    destruct (Hrefused (before commit) (after commit) StatusFinished) as [e ->]. by exists e.
  - intros commit. unfold FinishTimer. destruct (negb _); [by eexists|].
    destruct (Hrefused (before commit) (after commit) StatusFinished) as [e ->]. by exists e.
  - intros actor commit. unfold FinishSystem. cbv zeta. destruct (negb _); [by eexists|]. destruct (negb _); [by eexists|].
    destruct (Hrefused (before commit) (after commit) StatusFinished) as [e ->]. by exists e.
  - intros commit. unfold Cancel. destruct (negb _); [by eexists|].
    destruct (Hrefused (lc_before commit) (lc_after commit) StatusCancelled) as [e ->]. by exists e.
Qed.

(** The sample room with a pause requested by player 12. *)
Definition gameRequested : Room :=
  Eval vm_compute in RoomTheorems.okRoom (Room.RequestPause gamePlaying 12 81 71 (Room.versionOf gamePlaying) (15 * second)).
Definition gameRequestedEnd : Room :=
  Eval vm_compute in RoomTheorems.okRoom (Room.FinishSession gameRequested 71 (Room.versionOf gameRequested) (16 * second)).

Lemma pause_blocks_termination_witness :
  ActionCommit_Valid gameMove = true /\ Room.Status gameRequestedEnd = Room.RoomStatusPostGame /\
  exists e, FinishAction quiet false gameRequested gameRequestedEnd gameMove games3 = (Err e, games3).
Proof.
  split; [vm_compute; reflexivity|]. split; [reflexivity|].
  apply (proj1 (pause_blocks_termination quiet false anyName gameRequested gameRequestedEnd 71 11 (Room.versionOf gameRequested) (16 * second) games3
    (or_introl (fun H : Room.PendingPause gameRequested = Room.noRequest => ltac:(discriminate H)))
    (or_introl (ltac:(vm_compute; reflexivity) :
       Room.FinishSession gameRequested 71 (Room.versionOf gameRequested) (16 * second) = Ok gameRequestedEnd)))).
Defined.

End RoomGameTheorems.
