(* ===== verification/RuntimeService.v ===== *)
(** * The session service

    [platform/game-runtime/service.go], [notification.go], [maintenance_gate.go],
    [authorization.go] and the consumer of [system_inbox.go]: the handlers that
    coordinate rooms, game modules and the repositories.

    A handler is a program ([Prog]): it returns, or makes a call to one of the
    authorities it was built with (the registry, the clock, the generator, the
    maintenance gate, the three repositories) and goes on with the answer.  Calls
    are separate transactions; what runs between them is left to the semantics of
    [ServiceSystem].  A game module is a value of [GameModule]: its operations
    are functions, an interface it may not implement is an [option].  Receivers
    and contexts are never nil. *)

From stdpp Require Import gmap pretty.
From S2P Require Import Prelude GoLib Sha256 Identifier Selector GameManifest GameContract Outbox Room RoomStore RoomService Runtime RuntimeCommit RuntimeCommands RuntimeStore RuntimeQueries RuntimeRepository RoomGameRepository.

Module RuntimeService.
Import GoLib Selector GameManifest GameContract Runtime RuntimeCommit RuntimeCommands RuntimeStore RuntimeRepository.

Abbreviation Room := Room.Room.

(** ** Game modules *)
Record GameModule := mkModule {
  md_Manifest : Manifest;
  md_Create : CreateRequest -> res Transition;
  md_HandleCommand : GameSnapshot -> CommandRequest -> res Transition;
  md_HandleTimer : GameSnapshot -> TimerRequest -> res Transition;
  md_Project : GameSnapshot -> Viewer -> res Projection;
  md_ProjectReplay : list Event -> Viewer -> string -> res Projection;
  (** [ReplayProjectingV2GameModule] *)
  md_ProjectReplayV2 : option (ReplayRequest -> res Projection);
  (** [SystemGameModule] *)
  md_HandleSystem : option (GameSnapshot -> SystemRequest -> res Transition);
  (** [ParticipantRevocationGameModule] *)
  md_EncodeParticipantRevoked : option (ParticipantRevocationFact -> res Message);
  (** [EventProjectingGameModule] *)
  md_ProjectEvents : option (GameSnapshot -> list VersionedEvent -> Viewer -> res EventProjection);
  (** [ResumeAdjustingGameModule] *)
  md_AdjustResumed : option Adjust;
}.

(** The type assertion to [RuntimeServerGameModule]. *)
Definition isRuntimeModule (m : GameModule) : bool :=
  bool_decide (is_Some (md_HandleSystem m)) && bool_decide (is_Some (md_ProjectEvents m)).

(** ** Errors *)
Inductive ServiceError :=
| InRuntime (e : RuntimeError)
| InRoom (e : Room.RoomError)
| InRegistry (e : GameError)
| InOutbox (e : Outbox.OutboxError)
| ContextDone.

Definition ofStore {A} (r : RuntimeStore.sres A) : result ServiceError A :=
  match r with
  | Ok a => Ok a
  | Err (RuntimeStore.Domain e) => Err (InRuntime e)
  | Err RuntimeStore.ContextDone => Err ContextDone
  end.
Definition ofRoomStore {A} (r : RoomStore.sres A) : result ServiceError A :=
  match r with
  | Ok a => Ok a
  | Err (RoomStore.Domain e) => Err (InRoom e)
  | Err RoomStore.ContextDone => Err ContextDone
  end.
Definition ofGameStore {A} (r : result RoomGameRepository.GameStoreError A) : result ServiceError A :=
  match r with
  | Ok a => Ok a
  | Err (RoomGameRepository.OfRoom e) => Err (InRoom e)
  | Err (RoomGameRepository.OfSession e) => Err (InRuntime e)
  | Err RoomGameRepository.Interrupted => Err ContextDone
  end.
Definition ofRuntime {A} (r : res A) : result ServiceError A := match r with Ok a => Ok a | Err e => Err (InRuntime e) end.
Definition ofRoom {A} (r : Room.res A) : result ServiceError A := match r with Ok a => Ok a | Err e => Err (InRoom e) end.
Definition ofOutbox {A} (r : Outbox.res A) : result ServiceError A := match r with Ok a => Ok a | Err e => Err (InOutbox e) end.

(** [errors.Is(err, target)]. *)
Definition isError (e : ServiceError) (target : RuntimeError) : bool :=
  match e, target with
  | InRuntime ErrStartReceiptNotFound, ErrStartReceiptNotFound
  | InRuntime ErrActionReceiptNotFound, ErrActionReceiptNotFound
  | InRuntime ErrTimerReceiptNotFound, ErrTimerReceiptNotFound
  | InRuntime ErrSystemReceiptNotFound, ErrSystemReceiptNotFound
  | InRuntime ErrSystemOperationPending, ErrSystemOperationPending
  | InRuntime ErrSessionNotFound, ErrSessionNotFound => true
  | _, _ => false
  end.

(** ** Maintenance *)
Definition MaintenanceUserMutations : string := "user_mutations".

Record MaintenanceState := mkMaintenance {
  ms_Enabled : bool;
  ms_Scope : string;
  ms_Reason : string;
  ms_PlannedEndAt : Time;
  ms_Version : Z;
  ms_ChangedByAdminID : UUID;
  ms_ChangedAt : Time;
}.

(** [CheckUserMutation] of [maintenanceMutationGate]; [None] when the state
    cannot be read. *)
Definition checkUserMutation (state : option MaintenanceState) : res unit :=
  match state with
  | None => Err ErrMutationStateUnavailable
  | Some state =>
      if (ms_Version state =? 0) || negb (String.eqb (ms_Scope state) MaintenanceUserMutations)
      then Err ErrMutationStateUnavailable
      else if ms_Enabled state then Err ErrMutationBlocked
      else Ok tt
  end.

(** ** The generator *)
Definition runtimeAllocatedIDCount : nat := 256.

(** [SecureGenerator.NewExecution]: [seed] is what [rand.Read] fills in and [ids]
    the UUIDs drawn, [None] where drawing failed. *)
Definition secureExecution (at_ : Time) (seed : option (list Z)) (ids : nat -> option UUID) : res DeterministicContext :=
  let at_ := canonicalRuntimeTime at_ in
  if IsZero at_ then Err ErrInvalidSessionInput
  else match seed with
  | None => Err ErrInvalidSessionInput
  | Some seed =>
      match mapM ids (seq 0 runtimeAllocatedIDCount) with
      | None => Err ErrInvalidSessionInput
      | Some ids => Ok (mkContext at_ seed (UUID_String <$> ids))
      end
  end.

(** ** Notifications *)
Record SessionNotification := mkNotification { sn_SessionID : UUID; sn_StateVersion : Z }.

Definition SessionNotification_Valid (notification : SessionNotification) : bool :=
  negb (sn_SessionID notification =? Nil) && (0 <? sn_StateVersion notification).

(** The bytes [json.Marshal] gives for the two fields: a UUID needs no escapes. *)
Definition quote : string := String (Ascii.ascii_of_nat 34) EmptyString.
Definition MarshalSessionNotification (notification : SessionNotification) : res (list Z) :=
  if negb (SessionNotification_Valid notification) then Err ErrInvalidSessionInput
  else Ok (bytesOf ("{" +:+ quote +:+ "sessionId" +:+ quote +:+ ":" +:+ quote +:+ UUID_String (sn_SessionID notification)
              +:+ quote +:+ "," +:+ quote +:+ "stateVersion" +:+ quote +:+ ":" +:+ pretty (sn_StateVersion notification)
              +:+ "}")).

(** ** Calls and programs *)
Inductive Call :=
| CallGate
| CallNow
| CallNewID
| CallNewExecution (at_ : Time)
| CallDefaultManifest (gameID : string)
| CallDefaultModule (gameID : string)
| CallResolve (key : VersionKey)
(** [roomDomain.Repository] *)
| CallRoom (roomID : UUID)
(** [Store] *)
| CallGet (sessionID : UUID)
| CallAcquire (before next : Session)
| CallActionReceipt (key : ActionKey) (digest : Digest)
| CallCommitAction (commit : ActionCommit)
| CallTimerReceipt (key : TimerKey)
| CallCommitTimer (commit : TimerCommit)
| CallSystemReceipt (key : SystemKey) (digest : Digest)
| CallCommitSystem (commit : SystemCommit)
| CallSystemNoop (key : SystemKey) (digest : Digest) (at_ : Time)
| CallLifecycle (commit : LifecycleCommit)
| CallBatches (sessionID : UUID) (afterStateVersion limit : Z)
| CallInbox (key : SystemInboxKey) (digest : Digest)
| CallCompleteInbox (key : SystemInboxKey) (digest : Digest) (stateVersion : Z) (at_ : Time)
(** [RoomSessionStore] *)
| CallStartReceipt (key : StartKey) (digest : Digest)
| CallStart (before after : Room) (commit : CreationCommit) (receipt : StartReceipt)
| CallFinishAction (before after : Room) (commit : ActionCommit)
| CallFinishTimer (before after : Room) (commit : TimerCommit)
| CallFinishSystem (before after : Room) (actorUserID : UUID) (commit : SystemCommit)
| CallSuspend (before after : Room) (commit : LifecycleCommit)
| CallResume (before after : Room) (commit : LifecycleCommit)
| CallCancel (before after : Room) (commit : LifecycleCommit).

Definition Answer (c : Call) : Type :=
  match c with
  | CallGate => res unit
  | CallNow => Time
  | CallNewID => option UUID
  | CallNewExecution _ => res DeterministicContext
  | CallDefaultManifest _ => result ServiceError Manifest
  | CallDefaultModule _ | CallResolve _ => result ServiceError GameModule
  | CallRoom _ => RoomStore.sres Room
  | CallGet _ | CallAcquire _ _ | CallLifecycle _ => RuntimeStore.sres Session
  | CallActionReceipt _ _ => RuntimeStore.sres ActionReceipt
  | CallCommitAction _ => RuntimeStore.sres ActionCommitResult
  | CallTimerReceipt _ => RuntimeStore.sres TimerReceipt
  | CallCommitTimer _ => RuntimeStore.sres TimerCommitResult
  | CallSystemReceipt _ _ => RuntimeStore.sres SystemReceipt
  | CallCommitSystem _ | CallSystemNoop _ _ _ => RuntimeStore.sres SystemCommitResult
  | CallBatches _ _ _ => RuntimeStore.sres (list EventBatch)
  | CallInbox _ _ | CallCompleteInbox _ _ _ _ => RuntimeStore.sres SystemInboxRecord
  | CallStartReceipt _ _ => RuntimeStore.sres StartReceipt
  | CallStart _ _ _ _ => result RoomGameRepository.GameStoreError (Room * Session * bool)
  | CallFinishAction _ _ _ => result RoomGameRepository.GameStoreError (Room * ActionCommitResult)
  | CallFinishTimer _ _ _ => result RoomGameRepository.GameStoreError (Room * TimerCommitResult)
  | CallFinishSystem _ _ _ _ => result RoomGameRepository.GameStoreError (Room * SystemCommitResult)
  | CallSuspend _ _ _ | CallResume _ _ _ | CallCancel _ _ _ => result RoomGameRepository.GameStoreError (Room * Session)
  end.

Inductive Prog (A : Type) : Type :=
| Ret (value : A)
| Do (c : Call) (k : Answer c -> Prog A).
Arguments Ret {A} value.
Arguments Do {A} c k.

Fixpoint prog_bind {A B} (m : Prog A) (f : A -> Prog B) : Prog B :=
  match m with
  | Ret a => f a
  | Do c k => Do c (fun answer => prog_bind (k answer) f)
  end.

(** A handler returns a value or an error. *)
Abbreviation svc A := (Prog (result ServiceError A)).
Definition fail {A} (e : RuntimeError) : svc A := Ret (Err (InRuntime e)).
Definition done {A} (a : A) : svc A := Ret (Ok a).
Definition try {A B} (m : svc A) (f : A -> svc B) : svc B :=
  prog_bind m (fun r => match r with Ok a => f a | Err e => Ret (Err e) end).

(** [ask* x := c in k] makes a call; [try* x := m in k] passes errors on. *)
Declare Scope svc_scope.
Delimit Scope svc_scope with svc.
Notation "'ask*' x := c 'in' k" := (Do c (fun x => k)) (at level 10, x name, k at level 200) : svc_scope.
Notation "'try*' x := m 'in' k" := (try m (fun x => k)) (at level 10, x name, k at level 200) : svc_scope.
Notation "'try*' ' p := m 'in' k" := (try m (fun x => match x with p => k end)) (at level 10, p pattern, k at level 200) : svc_scope.
Local Open Scope svc_scope.

Definition getSession (sessionID : UUID) : svc Session := ask* r := CallGet sessionID in Ret (ofStore r).
Definition getRoom (roomID : UUID) : svc Room := ask* r := CallRoom roomID in Ret (ofRoomStore r).
Definition newID : svc UUID :=
  ask* id := CallNewID in match id with Some id => done id | None => fail ErrInvalidSessionInput end.
Definition newExecution (at_ : Time) : svc DeterministicContext := ask* r := CallNewExecution at_ in Ret (ofRuntime r).

(** The gate is optional ([mutationGate != nil]). *)
Definition checkGate (gated : bool) : svc unit :=
  if gated then ask* r := CallGate in Ret (ofRuntime r) else done tt.

Definition newOutboxEvent (eventType : string) (sessionID : UUID) (stateVersion : Z) (at_ : Time) : svc Outbox.Event :=
  try* eventID := newID in
  match MarshalSessionNotification (mkNotification sessionID stateVersion) with
  | Err _ => fail ErrInvalidSessionInput
  | Ok payload => Ret (ofOutbox (Outbox.NewEvent eventID eventType GameSessionAggregateType sessionID payload at_ at_))
  end.

(** A supplied request digest must be the computed one. *)
Definition checkDigest (supplied : option Digest) (computed : Digest) : svc unit :=
  match supplied with
  | Some supplied => if negb (Digest_eqb supplied computed) then fail ErrConflict else done tt
  | None => done tt
  end.

(** ** Helpers of the handlers *)
Definition prepareRoomFinish (roomID sessionID : UUID) (at_ : Time) : svc (Room * Room) :=
  try* room := getRoom roomID in
  try* next := Ret (ofRoom (Room.FinishSession room sessionID (Room.versionOf room) at_)) in
  done (room, next).

(** [at], or a microsecond after the last update when the clock is behind. *)
Definition afterUpdate (at_ updatedAt : Time) : Time := if negb (After at_ updatedAt) then updatedAt + Microsecond else at_.

Definition commitSuspend (before : Session) (ownershipEpoch : Z) : svc Session :=
  ask* now := CallNow in
  let at_ := afterUpdate (RoundUTC now) (s_UpdatedAt before) in
  try* after := Ret (ofRuntime (Runtime.Suspend before ownershipEpoch at_)) in
  try* event := newOutboxEvent GameSessionSuspendedEventType (s_ID before) (StateVersion (s_State before)) at_ in
  try* commit := Ret (ofRuntime (NewLifecycleCommit before after [event])) in
  ask* r := CallLifecycle commit in
  Ret (ofStore r).

Definition suspendMissingModule {A} (before : Session) (ownershipEpoch : Z) : svc A :=
  try* _ := commitSuspend before ownershipEpoch in
  fail ErrModuleUnavailable.

Definition resumeWithModule (before : Session) (ownershipEpoch : Z) (at_ : Time) (m : GameModule) : res Session :=
  match md_AdjustResumed m with
  | None => Runtime.Resume before ownershipEpoch at_
  | Some adjust => resumeWithAdjustment before ownershipEpoch at_ (Some adjust)
  end.

Definition loadRoomSession (roomID sessionID : UUID) : svc (Room * Session) :=
  try* room := getRoom roomID in
  try* session := getSession sessionID in
  if negb (s_RoomID session =? roomID) then fail ErrGameSessionIntegrity else done (room, session).

Definition governedLifecycleTime (now roomUpdatedAt sessionUpdatedAt : Time) : Time :=
  let at_ := canonicalRuntimeTime now in
  let latest := if After sessionUpdatedAt roomUpdatedAt then sessionUpdatedAt else roomUpdatedAt in
  afterUpdate at_ latest.

Definition mapFrozenParticipants (values : list Room.FrozenParticipant) : list SdkParticipant * list Participant :=
  ((fun participant => mkSdkParticipant (UUID_String (Room.f_UserID participant)) (Room.f_SeatIndex participant)) <$> values,
   (fun participant => mkParticipant (Room.f_UserID participant) (Room.f_SeatIndex participant)) <$> values).

(** The loop of [trustedStartingSeat]: [minimum] is [None] until a seat was found. *)
Fixpoint startingSeat (hostUserID : UUID) (minimum : option Z) (participants : list Room.FrozenParticipant) : option Z :=
  match participants with
  | [] => minimum
  | participant :: rest =>
      if Room.f_UserID participant =? hostUserID then Some (Room.f_SeatIndex participant)
      else startingSeat hostUserID
             (match minimum with
              | None => Some (Room.f_SeatIndex participant)
              | Some m => Some (if Room.f_SeatIndex participant <? m then Room.f_SeatIndex participant else m)
              end) rest
  end.
Definition trustedStartingSeat (hostUserID : UUID) (participants : list Room.FrozenParticipant) : option Z :=
  startingSeat hostUserID None participants.

Definition optionalUserIDString (userID : UUID) : string := if userID =? Nil then "" else UUID_String userID.

Definition projectPlayer (m : GameModule) (session : Session) (userID : UUID) : res Projection :=
  match List.find (fun participant => p_UserID participant =? userID) (s_Participants session) with
  | None => Err ErrParticipantNotActive
  | Some participant =>
      let* projection := md_Project m (s_State session) (mkViewer ViewerPlayer (UUID_String userID) (p_SeatIndex participant)) in
      if negb (Projection_Valid projection) then Err ErrProjectionUnsafe else Ok projection
  end.

Definition defaultRuntimeModule (gameID : string) : svc (Manifest * GameModule) :=
  ask* r := CallDefaultManifest gameID in
  try* manifest := Ret r in
  ask* r := CallDefaultModule gameID in
  try* m := Ret r in
  if negb (isRuntimeModule m) || negb (String.eqb (mf_GameID manifest) gameID)
     || negb (bool_decide (Manifest_Key (md_Manifest m) = Manifest_Key manifest))
  then fail ErrModuleUnavailable
  else done (manifest, m).

(** ** Starting a session *)
Definition acquire (before next : Session) : svc Session := ask* r := CallAcquire before next in Ret (ofStore r).

Definition replayStart (receipt : StartReceipt) : svc (Room * Session) :=
  try* room := getRoom (stk_RoomID (stc_Key receipt)) in
  try* session := getSession (stc_SessionID receipt) in
  if negb (s_RoomID session =? stk_RoomID (stc_Key receipt)) then fail ErrGameSessionIntegrity
  else if 0 <? s_OwnershipEpoch session then done (room, session)
  else
    ask* now := CallNow in
    let at_ := afterUpdate (RoundUTC now) (s_UpdatedAt session) in
    try* owned := Ret (ofRuntime (AcquireOwnership session 0 at_)) in
    try* owned := acquire session owned in
    done (room, owned).

Definition startInputInvalid (command : StartCommand) : bool :=
  (sc_ActorUserID command =? Nil) || (sc_RoomID command =? Nil) || negb (Message_Valid (sc_Config command))
  || negb (OperationID_Valid (sc_OperationID command)) || (Room.v_Room (sc_Expected command) =? 0)
  || (Room.v_Membership (sc_Expected command) =? 0).

(** The part of [Start] that computes the creation of a session in [room]. *)
Definition newStart (command : StartCommand) (manifest : Manifest) (m : GameModule) (room : Room)
  : svc (Room * Room.SessionStart * CreationCommit * StartReceipt) :=
  try* sessionID := newID in
  ask* now := CallNow in
  try* '(nextRoom, start) := Ret (ofRoom (Room.StartSession room (sc_ActorUserID command) sessionID (sc_GameID command)
      (Minimum (mf_Participants manifest)) (Maximum (mf_Participants manifest)) (sc_Expected command) (RoundUTC now))) in
  let startedAt := Room.s_StartedAt start in
  try* execution := newExecution startedAt in
  let '(sdkParticipants, runtimeParticipants) := mapFrozenParticipants (Room.s_Participants start) in
  match trustedStartingSeat (Room.HostUserID room) (Room.s_Participants start) with
  | None => fail ErrInvalidSessionInput
  | Some seat =>
      let createRequest := mkCreateRequest execution (mkStartContext (UUID_String (Room.HostUserID room)) seat)
                             sdkParticipants (Message_Clone (sc_Config command)) in
      if negb (is_ok (CreateRequest_Validate createRequest (mf_Participants manifest))) then fail ErrInvalidSessionInput
      else
        try* transition := Ret (ofRuntime (md_Create m createRequest)) in
        try* batchID := newID in
        let key := Manifest_Key manifest in
        try* '(session, batch) := Ret (ofRuntime (NewSession (mkNewSession sessionID (sc_RoomID command) key runtimeParticipants
          (mkStart (Message_Clone (sc_Config command)) (startConfigDigest key (sc_Config command)) (sc_ConfigRevision command)
             (Room.v_Room (sc_Expected command)) (Room.v_Membership (sc_Expected command)) (Room.OwnershipEpoch room))
          batchID execution (Message_Clone (sc_Config command)) transition))) in
        try* event := newOutboxEvent GameSessionCreatedEventType sessionID 1 startedAt in
        let startKey := mkStartKey (sc_ActorUserID command) (sc_RoomID command) (sc_OperationID command) in
        try* receipt := Ret (ofRuntime (NewStartReceipt (mkStartReceipt startKey (startDigest command) sessionID startedAt))) in
        done (nextRoom, start, mkCreationCommit session batch [event] (sc_PendingStartProof command), receipt)
  end.

Definition Start (gated : bool) (command : StartCommand) : svc (Room * Session) :=
  if startInputInvalid command then fail ErrInvalidSessionInput
  else if negb (from_option PendingStartProof_Valid true (sc_PendingStartProof command)) then fail ErrInvalidSessionInput
  else if negb (is_ok (ParseGameID (sc_GameID command))) then fail ErrInvalidSessionInput
  else
    try* _ := checkGate gated in
    let requestDigest := startDigest command in
    try* _ := checkDigest (sc_RequestDigest command) requestDigest in
    let startKey := mkStartKey (sc_ActorUserID command) (sc_RoomID command) (sc_OperationID command) in
    ask* r := CallStartReceipt startKey requestDigest in
    match ofStore r with
    | Ok receipt => replayStart receipt
    | Err e =>
        if negb (isError e ErrStartReceiptNotFound) then Ret (Err e)
        else
          try* '(manifest, m) := defaultRuntimeModule (sc_GameID command) in
          try* room := getRoom (sc_RoomID command) in
          try* '(nextRoom, start, commit, receipt) := newStart command manifest m room in
          ask* r := CallStart room nextRoom commit receipt in
          try* '(storedRoom, storedSession, replayed) := Ret (ofGameStore r) in
          if replayed && (0 <? s_OwnershipEpoch storedSession) then done (storedRoom, storedSession)
          else
            try* owned := Ret (ofRuntime (AcquireOwnership storedSession 0 (Room.s_StartedAt start + Microsecond))) in
            try* owned := acquire storedSession owned in
            done (storedRoom, owned)
    end.

(** ** Actions *)
Record ActionResult := mkServiceResult {
  sv_Session : Session;
  sv_Receipt : ActionReceipt;
  sv_Projection : Projection;
  sv_Replayed : bool;
}.

Definition actionInputInvalid (command : ActionCommand) : bool :=
  (acm_SessionID command =? Nil) || (acm_ActorUserID command =? Nil) || negb (ActionID_Valid (acm_ActionID command))
  || (acm_ExpectedStateVersion command =? 0) || (acm_OwnershipEpoch command =? 0)
  || negb (VersionKey_Valid (acm_VersionKey command)) || negb (Message_Valid (acm_Command command)).

Definition actionResult (m : GameModule) (session : Session) (receipt : ActionReceipt) (userID : UUID) (replayed : bool)
  : svc ActionResult :=
  try* projection := Ret (ofRuntime (projectPlayer m session userID)) in
  done (mkServiceResult session receipt projection replayed).

(** The branch of [HandleAction] with a stored receipt. *)
Definition replayAction (command : ActionCommand) (receipt : ActionReceipt) : svc ActionResult :=
  try* current := getSession (acm_SessionID command) in
  ask* r := CallResolve (s_VersionKey current) in
  match r with
  | Err _ =>
      if String.eqb (s_Status current) StatusActive then suspendMissingModule current (acm_OwnershipEpoch command)
      else fail ErrModuleUnavailable
  | Ok m => actionResult m current receipt (acm_ActorUserID command) true
  end.

(** The commit of an action on [before] by module [m]. *)
Definition newActionCommit (command : ActionCommand) (operationID : OperationID) (before : Session) (m : GameModule)
  : svc (ActionCommit * DeterministicContext) :=
  ask* now := CallNow in
  try* execution := newExecution now in
  try* transition := Ret (ofRuntime (md_HandleCommand m (s_State before) (mkCommandRequest execution
    (UUID_String (acm_ActorUserID command)) (acm_ActionID command) (acm_ExpectedStateVersion command)
    (Message_Clone (acm_Command command))))) in
  try* batchID := newID in
  try* '(after, batch) := Ret (ofRuntime (ApplyAction before (mkActionRequest batchID (acm_OwnershipEpoch command)
    (acm_ActorUserID command) operationID execution (Message_Clone (acm_Command command)) transition))) in
  let version := StateVersion (s_State after) in
  let key := mkActionKey (acm_SessionID command) (acm_ActorUserID command) operationID in
  try* receipt := Ret (ofRuntime (NewActionReceipt (mkActionReceipt key (actionDigest command) ResultCodeAccepted
    (transitionResultDigest (acm_SessionID command) version ResultCodeAccepted) version (Now execution)))) in
  try* event := newOutboxEvent GameSessionTransitionedEventType (acm_SessionID command) version (Now execution) in
  try* commit := Ret (ofRuntime (NewActionCommit before after batch receipt [event])) in
  done (commit, execution).

Definition commitAction (commit : ActionCommit) (execution : DeterministicContext) : svc ActionCommitResult :=
  if String.eqb (s_Status (after commit)) StatusFinished then
    try* '(room, nextRoom) := prepareRoomFinish (s_RoomID (before commit)) (s_ID (before commit)) (Now execution) in
    ask* r := CallFinishAction room nextRoom commit in
    try* '(_, committed) := Ret (ofGameStore r) in
    done committed
  else
    ask* r := CallCommitAction commit in
    Ret (ofStore r).

Definition HandleAction (gated : bool) (command : ActionCommand) : svc ActionResult :=
  if actionInputInvalid command then fail ErrInvalidSessionInput
  else
    try* _ := checkGate gated in
    let requestDigest := actionDigest command in
    try* _ := checkDigest (acm_RequestDigest command) requestDigest in
    match ParseOperationID (acm_ActionID command) with
    | Err _ => fail ErrInvalidSessionInput
    | Ok operationID =>
        let actionKey := mkActionKey (acm_SessionID command) (acm_ActorUserID command) operationID in
        ask* r := CallActionReceipt actionKey requestDigest in
        match ofStore r with
        | Ok receipt => replayAction command receipt
        | Err e =>
            if negb (isError e ErrActionReceiptNotFound) then Ret (Err e)
            else
              try* before := getSession (acm_SessionID command) in
              if negb (bool_decide (s_VersionKey before = acm_VersionKey command))
                 || negb (StateVersion (s_State before) =? acm_ExpectedStateVersion command)
              then fail ErrStateVersionConflict
              else if String.eqb (s_Status before) StatusSuspended then fail ErrSessionSuspended
              else if Terminal (s_Status before) then fail ErrSessionTerminal
              else
                ask* r := CallResolve (acm_VersionKey command) in
                match r with
                | Err _ => suspendMissingModule before (acm_OwnershipEpoch command)
                | Ok m =>
                    try* '(commit, execution) := newActionCommit command operationID before m in
                    try* committed := commitAction commit execution in
                    actionResult m (ar_Session committed) (ar_Receipt committed) (acm_ActorUserID command)
                      (ar_Replayed committed)
                end
        end
    end.

(** ** Timers *)
Definition timerInputInvalid (due : DueTimer) (ownershipEpoch : Z) : bool :=
  (d_SessionID due =? Nil) || (ownershipEpoch =? 0) || (d_ExpectedStateVersion due =? 0) || negb (Message_Valid (d_Message due)).

Definition newTimerCommit (due : DueTimer) (ownershipEpoch : Z) (before : Session) (m : GameModule)
  : svc (TimerCommit * DeterministicContext) :=
  ask* now := CallNow in
  try* execution := newExecution now in
  try* transition := Ret (ofRuntime (md_HandleTimer m (s_State before) (mkTimerRequest execution (d_TimerID due)
    (d_ExpectedStateVersion due) (Message_Clone (d_Message due))))) in
  try* batchID := newID in
  try* '(after, batch) := Ret (ofRuntime (ApplyTimer before (mkTimerTransition batchID ownershipEpoch (d_TimerID due)
    (d_ExpectedStateVersion due) execution (Message_Clone (d_Message due)) transition))) in
  let version := StateVersion (s_State after) in
  try* receipt := Ret (ofRuntime (NewTimerReceipt (mkTimerReceipt
    (mkTimerKey (d_SessionID due) (d_TimerID due) (d_ExpectedStateVersion due)) ResultCodeAccepted
    (transitionResultDigest (d_SessionID due) version ResultCodeAccepted) version (Now execution)))) in
  try* event := newOutboxEvent GameSessionTransitionedEventType (d_SessionID due) version (Now execution) in
  try* commit := Ret (ofRuntime (NewTimerCommit before after batch receipt [event])) in
  done (commit, execution).

Definition HandleTimer (due : DueTimer) (ownershipEpoch : Z) : svc TimerCommitResult :=
  if timerInputInvalid due ownershipEpoch then fail ErrInvalidSessionInput
  else
    ask* r := CallTimerReceipt (mkTimerKey (d_SessionID due) (d_TimerID due) (d_ExpectedStateVersion due)) in
    match ofStore r with
    | Ok receipt =>
        try* current := getSession (d_SessionID due) in
        done (mkTimerResult current receipt true)
    | Err e =>
        if negb (isError e ErrTimerReceiptNotFound) then Ret (Err e)
        else
          try* before := getSession (d_SessionID due) in
          if String.eqb (s_Status before) StatusSuspended then fail ErrSessionSuspended
          else if Terminal (s_Status before) then fail ErrSessionTerminal
          else
            ask* r := CallResolve (s_VersionKey before) in
            match r with
            | Err _ => suspendMissingModule before ownershipEpoch
            | Ok m =>
                try* '(commit, execution) := newTimerCommit due ownershipEpoch before m in
                if String.eqb (s_Status (after commit)) StatusFinished then
                  try* '(room, nextRoom) := prepareRoomFinish (s_RoomID before) (s_ID before) (Now execution) in
                  ask* r := CallFinishTimer room nextRoom commit in
                  try* '(_, result) := Ret (ofGameStore r) in
                  done result
                else
                  ask* r := CallCommitTimer commit in
                  Ret (ofStore r)
            end
    end.

(** ** System commands *)
Definition maximumSystemRecomputations : nat := 4.

Definition hostCommand (source : SystemSource) : bool := String.eqb (src_Kind source) SystemSourceHostAPI.

Definition authorizeCurrentHostSystem (sessionID actorUserID : UUID) : svc unit :=
  try* session := getSession sessionID in
  try* room := getRoom (s_RoomID session) in
  if negb (Room.HostUserID room =? actorUserID) then Ret (Err (InRoom Room.ErrHostRequired)) else done tt.

Definition systemInputInvalid (command : SystemCommand) : bool :=
  (scm_SessionID command =? Nil) || negb (OperationID_Valid (scm_OperationID command))
  || negb (SystemSource_Valid (scm_Source command)) || (scm_ExpectedStateVersion command =? 0)
  || (scm_OwnershipEpoch command =? 0) || negb (VersionKey_Valid (scm_VersionKey command))
  || negb (Message_Valid (scm_Message command)).

(** The commit of a system command on [before]; [handle] is the module's. *)
Definition newSystemCommit (command : SystemCommand) (key : SystemKey) (digest : Digest) (before : Session)
    (handle : GameSnapshot -> SystemRequest -> res Transition) : svc (SystemCommit * DeterministicContext) :=
  ask* now := CallNow in
  try* execution := newExecution now in
  let currentVersion := StateVersion (s_State before) in
  let source := scm_Source command in
  try* transition := Ret (ofRuntime (handle (s_State before) (mkSystemRequest execution (Value (scm_OperationID command))
    (UUID_String (src_EventID source)) (optionalUserIDString (src_RequestedByUserID source)) currentVersion
    (Message_Clone (scm_Message command))))) in
  if hostCommand source && negb (tn_Finished transition) then fail ErrInvalidSystemCommit
  else
    try* batchID := newID in
    try* '(after, batch) := Ret (ofRuntime (ApplySystem before (mkSystemTransition batchID (scm_OwnershipEpoch command)
      currentVersion (scm_OperationID command) source digest execution (Message_Clone (scm_Message command)) transition))) in
    let version := StateVersion (s_State after) in
    try* receipt := Ret (ofRuntime (NewSystemReceipt (mkSystemReceipt key digest ResultCodeAccepted
      (transitionResultDigest (scm_SessionID command) version ResultCodeAccepted) version (Now execution)))) in
    try* event := newOutboxEvent GameSessionTransitionedEventType (scm_SessionID command) version (Now execution) in
    try* commit := Ret (ofRuntime (NewSystemCommit before after batch receipt [event])) in
    done (commit, execution).

Definition commitSystem (source : SystemSource) (commit : SystemCommit) (execution : DeterministicContext)
  : svc SystemCommitResult :=
  if String.eqb (s_Status (after commit)) StatusFinished then
    try* '(room, nextRoom) := prepareRoomFinish (s_RoomID (before commit)) (s_ID (before commit)) (Now execution) in
    ask* r := CallFinishSystem room nextRoom (src_RequestedByUserID source) commit in
    try* '(_, result) := Ret (ofGameStore r) in
    done result
  else
    ask* r := CallCommitSystem commit in
    Ret (ofStore r).

(** The loop of [HandleSystem]; [attempts] is how many turns are left. *)
Fixpoint recompute (attempts : nat) (command : SystemCommand) (key : SystemKey) (digest : Digest) : svc SystemCommitResult :=
  match attempts with
  | O => fail ErrSystemOperationPending
  | S attempts' =>
      try* before := getSession (scm_SessionID command) in
      if negb (bool_decide (s_VersionKey before = scm_VersionKey command)) then fail ErrStateVersionConflict
      else if hostCommand (scm_Source command) && negb (StateVersion (s_State before) =? scm_ExpectedStateVersion command)
      then fail ErrStateVersionConflict
      else if Terminal (s_Status before) then
        ask* now := CallNow in
        ask* r := CallSystemNoop key digest now in
        Ret (ofStore r)
      else
        ask* r := CallResolve (s_VersionKey before) in
        match r with
        | Err _ => suspendMissingModule before (scm_OwnershipEpoch command)
        | Ok m =>
            match md_HandleSystem m with
            | None => suspendMissingModule before (scm_OwnershipEpoch command)
            | Some handle =>
                try* '(commit, execution) := newSystemCommit command key digest before handle in
                try* result := commitSystem (scm_Source command) commit execution in
                if negb (sr_Retry result) then done result
                else if hostCommand (scm_Source command) then fail ErrStateVersionConflict
                else
                  let command := command <| scm_ExpectedStateVersion := StateVersion (s_State (sr_Session result)) |>
                                         <| scm_OwnershipEpoch := s_OwnershipEpoch (sr_Session result) |> in
                  recompute attempts' command key digest
            end
        end
  end.

Definition HandleSystem (command : SystemCommand) : svc SystemCommitResult :=
  if systemInputInvalid command then fail ErrInvalidSessionInput
  else
    try* _ := (if hostCommand (scm_Source command)
               then authorizeCurrentHostSystem (scm_SessionID command) (src_RequestedByUserID (scm_Source command))
               else done tt) in
    let digest := systemDigest command in
    try* _ := checkDigest (scm_RequestDigest command) digest in
    let key := mkSystemKey (scm_SessionID command) (scm_OperationID command) (scm_Source command) in
    ask* r := CallSystemReceipt key digest in
    match ofStore r with
    | Ok receipt =>
        try* current := getSession (scm_SessionID command) in
        done (mkSystemResult current receipt true false)
    | Err e =>
        if negb (isError e ErrSystemReceiptNotFound) && negb (isError e ErrSystemOperationPending) then Ret (Err e)
        else recompute maximumSystemRecomputations command key digest
    end.

(** ** Pausing and resuming *)
Definition pauseInputInvalid (actorUserID roomID sessionID : UUID) (expected : Room.Version) (ownershipEpoch : Z) : bool :=
  (actorUserID =? Nil) || (roomID =? Nil) || (sessionID =? Nil) || (Room.v_Room expected =? 0)
  || (Room.v_Membership expected =? 0) || (ownershipEpoch =? 0).

Definition PauseRoom (command : PauseRoomCommand) : svc (Room * Session) :=
  if pauseInputInvalid (pc_ActorUserID command) (pc_RoomID command) (pc_SessionID command) (pc_Expected command)
       (pc_OwnershipEpoch command)
  then fail ErrInvalidSessionInput
  else
    try* '(room, before) := loadRoomSession (pc_RoomID command) (pc_SessionID command) in
    try* pauseID := newID in
    ask* now := CallNow in
    let at_ := governedLifecycleTime now (Room.UpdatedAt room) (s_UpdatedAt before) in
    try* afterRoom := Ret (ofRoom (Room.Pause room (pc_ActorUserID command) pauseID (pc_SessionID command)
      (pc_RequestID command) (pc_Expected command) at_)) in
    try* after := Ret (ofRuntime (Runtime.Suspend before (pc_OwnershipEpoch command) at_)) in
    try* event := newOutboxEvent GameSessionSuspendedEventType (pc_SessionID command) (StateVersion (s_State after)) at_ in
    try* commit := Ret (ofRuntime (NewLifecycleCommit before after [event])) in
    ask* r := CallSuspend room afterRoom commit in
    Ret (ofGameStore r).

(** The exact module of a session, complete. *)
Definition resolveRuntimeModule (key : VersionKey) : svc GameModule :=
  ask* r := CallResolve key in
  match r with
  | Err _ => fail ErrModuleUnavailable
  | Ok m =>
      if negb (isRuntimeModule m) || negb (bool_decide (Manifest_Key (md_Manifest m) = key)) then fail ErrModuleUnavailable
      else done m
  end.

Definition ResumeRoom (command : ResumeRoomCommand) : svc (Room * Session) :=
  if pauseInputInvalid (rc_ActorUserID command) (rc_RoomID command) (rc_SessionID command) (rc_Expected command)
       (rc_OwnershipEpoch command)
  then fail ErrInvalidSessionInput
  else
    try* '(room, before) := loadRoomSession (rc_RoomID command) (rc_SessionID command) in
    try* m := resolveRuntimeModule (s_VersionKey before) in
    ask* now := CallNow in
    let at_ := governedLifecycleTime now (Room.UpdatedAt room) (s_UpdatedAt before) in
    try* afterRoom := Ret (ofRoom (Room.Resume room (rc_ActorUserID command) (rc_SessionID command) (rc_Expected command) at_)) in
    try* after := Ret (ofRuntime (resumeWithModule before (rc_OwnershipEpoch command) at_ m)) in
    try* event := newOutboxEvent GameSessionResumedEventType (rc_SessionID command) (StateVersion (s_State after)) at_ in
    try* commit := Ret (ofRuntime (NewLifecycleCommit before after [event])) in
    ask* r := CallResume room afterRoom commit in
    Ret (ofGameStore r).

Definition Suspend (sessionID : UUID) (ownershipEpoch : Z) : svc Session :=
  if (sessionID =? Nil) || (ownershipEpoch =? 0) then fail ErrInvalidSessionInput
  else
    try* before := getSession sessionID in
    commitSuspend before ownershipEpoch.

Definition Resume (sessionID : UUID) (ownershipEpoch : Z) : svc Session :=
  if (sessionID =? Nil) || (ownershipEpoch =? 0) then fail ErrInvalidSessionInput
  else
    try* before := getSession sessionID in
    try* m := resolveRuntimeModule (s_VersionKey before) in
    ask* now := CallNow in
    let at_ := afterUpdate (RoundUTC now) (s_UpdatedAt before) in
    try* after := Ret (ofRuntime (resumeWithModule before ownershipEpoch at_ m)) in
    try* event := newOutboxEvent GameSessionResumedEventType sessionID (StateVersion (s_State after)) at_ in
    try* commit := Ret (ofRuntime (NewLifecycleCommit before after [event])) in
    ask* r := CallLifecycle commit in
    Ret (ofStore r).

(** ** Cancelling *)
Definition cancelledRoomMatchesCommand (room : Room) (command : CancelCommand) : bool :=
  if negb (Room.RoomVersion room =? u64 (Room.v_Room (ccm_ExpectedRoom command) + 1))
     || negb (Room.MembershipVersion room =? Room.v_Membership (ccm_ExpectedRoom command))
     || negb (Room.ActiveSessionID room =? Nil) || negb (String.eqb (Room.ActiveGameID room) "")
     || negb (Room.LastFinishedSessionID room =? Nil) || negb (String.eqb (Room.LastFinishedGameID room) "")
  then false
  else if ccm_CloseRoom command then
    String.eqb (Room.Status room) Room.RoomStatusClosed && String.eqb (Room.ParticipantAdmission room) Room.AdmissionClosed
    && String.eqb (Room.SpectatorAdmission room) Room.AdmissionClosed
  else String.eqb (Room.Status room) Room.RoomStatusLobby && String.eqb (Room.ParticipantAdmission room) Room.AdmissionClosed.

(** The branch of [Cancel] for a room that moved on. *)
Definition replayCancel (room : Room) (command : CancelCommand) : svc (Room * Session) :=
  ask* r := CallGet (ccm_SessionID command) in
  match ofStore r with
  | Ok cancelled =>
      if (s_RoomID cancelled =? ccm_RoomID command) && (s_OwnershipEpoch cancelled =? ccm_OwnershipEpoch command)
         && String.eqb (s_Status cancelled) StatusCancelled && cancelledRoomMatchesCommand room command
      then done (room, cancelled)
      else Ret (Err (InRoom Room.ErrRoomVersionConflict))
  | Err e =>
      if negb (isError e ErrSessionNotFound) then Ret (Err e) else Ret (Err (InRoom Room.ErrRoomVersionConflict))
  end.

Definition Cancel (command : CancelCommand) : svc (Room * Session) :=
  if (ccm_RoomID command =? Nil) || (ccm_SessionID command =? Nil) || (ccm_OwnershipEpoch command =? 0)
  then fail ErrInvalidSessionInput
  else
    try* _ := checkDigest (ccm_RequestDigest command) (cancelDigest command) in
    try* room := getRoom (ccm_RoomID command) in
    if negb (bool_decide (Room.versionOf room = ccm_ExpectedRoom command))
       || negb (Room.ActiveSessionID room =? ccm_SessionID command)
    then replayCancel room command
    else
      try* before := getSession (ccm_SessionID command) in
      ask* now := CallNow in
      let at_ := RoundUTC now in
      try* after := Ret (ofRuntime (Runtime.Cancel before (ccm_OwnershipEpoch command) at_ (ccm_Reason command))) in
      try* nextRoom := Ret (ofRoom (
        if ccm_CloseRoom command
        then Room.CancelSessionAndClose room (Room.HostUserID room) (ccm_SessionID command) (Room.versionOf room) at_
        else Room.CancelSession room (ccm_SessionID command) (Room.versionOf room) at_)) in
      try* event := newOutboxEvent GameSessionCancelledEventType (ccm_SessionID command) (StateVersion (s_State after)) at_ in
      try* commit := Ret (ofRuntime (NewLifecycleCommit before after [event])) in
      ask* r := CallCancel room nextRoom commit in
      Ret (ofGameStore r).

(** ** Projections *)
Definition noProjection : Projection := mkProjection noMessage [].
Definition noEventProjection : EventProjection := mkEventProjection [].

Definition checkedProjection (projected : res Projection) : svc Projection :=
  try* projection := Ret (ofRuntime projected) in
  if negb (Projection_Valid projection) then fail ErrProjectionUnsafe else done projection.

Definition resolveModule (key : VersionKey) : svc GameModule := ask* r := CallResolve key in Ret r.

Definition ProjectCurrent (sessionID : UUID) (viewer : Viewer) : svc (Session * Projection) :=
  if (sessionID =? Nil) || negb (Viewer_Valid viewer) then fail ErrInvalidSessionInput
  else if String.eqb (vw_Kind viewer) ViewerReplay then fail ErrReplayUnavailable
  else
    try* session := getSession sessionID in
    try* m := resolveModule (s_VersionKey session) in
    try* projection := checkedProjection (md_Project m (s_State session) viewer) in
    done (session, projection).

Definition Project (sessionID : UUID) (viewer : Viewer) : svc Projection :=
  try* '(_, projection) := ProjectCurrent sessionID viewer in
  done projection.

(** The loop over the batches: [Some v] when they are consecutive from
    [expectedVersion], with [v] the version after the last. *)
Fixpoint consecutive (expectedVersion : Z) (batches : list EventBatch) : option Z :=
  match batches with
  | [] => Some expectedVersion
  | batch :: rest =>
      if negb (b_StateVersion batch =? expectedVersion) then None else consecutive (u64 (expectedVersion + 1)) rest
  end.

Definition complete (afterStateVersion currentStateVersion : Z) (batches : list EventBatch) : bool :=
  match consecutive (u64 (afterStateVersion + 1)) batches with
  | None => false
  | Some expectedVersion => (0 <? len batches) && (u64 (expectedVersion - 1) =? currentStateVersion)
  end.

Definition versionedEvents (batches : list EventBatch) : list VersionedEvent :=
  batches ≫= (fun batch => mkVersionedEvent (b_StateVersion batch) <$> b_Events batch).

(** The delta of [ProjectEventsCurrent], when one can be made of what was read. *)
Definition projectDelta (m : GameModule) (session : Session) (afterStateVersion : Z) (viewer : Viewer)
    (read : result ServiceError (list EventBatch)) : option EventProjection :=
  match read, md_ProjectEvents m with
  | Ok batches, Some projectEvents =>
      if complete afterStateVersion (StateVersion (s_State session)) batches then
        match projectEvents (s_State session) (versionedEvents batches) viewer with
        | Ok delta => if EventProjection_Valid delta then Some delta else None
        | Err _ => None
        end
      else None
  | _, _ => None
  end.

Definition ProjectEventsCurrent (sessionID : UUID) (afterStateVersion : Z) (viewer : Viewer)
  : svc (Session * EventProjection * Projection * bool) :=
  if (sessionID =? Nil) || negb (Viewer_Valid viewer) then fail ErrInvalidSessionInput
  else if String.eqb (vw_Kind viewer) ViewerReplay then fail ErrReplayUnavailable
  else
    try* session := getSession sessionID in
    let currentStateVersion := StateVersion (s_State session) in
    if currentStateVersion <? afterStateVersion then fail ErrStateVersionConflict
    else if afterStateVersion =? currentStateVersion then done (session, noEventProjection, noProjection, false)
    else
      try* m := resolveModule (s_VersionKey session) in
      ask* r := CallBatches sessionID afterStateVersion 256 in
      match projectDelta m session afterStateVersion viewer (ofStore r) with
      | Some delta => done (session, delta, noProjection, false)
      | None =>
          try* projection := checkedProjection (md_Project m (s_State session) viewer) in
          done (session, noEventProjection, projection, true)
      end.

Definition ProjectEvents (sessionID : UUID) (afterStateVersion : Z) (viewer : Viewer) : svc (EventProjection * Projection * bool) :=
  try* '(_, delta, projection, fallback) := ProjectEventsCurrent sessionID afterStateVersion viewer in
  done (delta, projection, fallback).

(** ** Replays *)
Definition maximumReplayBatches : Z := 4096.
Definition maximumReplayReadPage : Z := 256.
Definition maximumReplayEvents : Z := 65536.
Definition maximumReplayPayloadBytes : Z := Z.shiftl 16 20.

(** The loop of [readReplayBatches].  Every turn but the last adds at least one
    batch, so one more than the limit is enough fuel. *)
Fixpoint readPages (fuel : nat) (sessionID : UUID) (afterStateVersion : Z) (batches : list EventBatch) : svc (list EventBatch) :=
  match fuel with
  | O => done batches
  | S fuel' =>
      if maximumReplayBatches <? u32 (len batches) then done batches
      else
        let remaining := u32 (maximumReplayBatches + 1 - u32 (len batches)) in
        let pageLimit := Z.min maximumReplayReadPage remaining in
        ask* r := CallBatches sessionID afterStateVersion pageLimit in
        try* page := Ret (ofStore r) in
        if pageLimit <? u32 (len page) then fail ErrReplayUnavailable
        else match last page with
        | None => done batches
        | Some final =>
            let nextAfter := b_StateVersion final in
            if nextAfter <=? afterStateVersion then fail ErrReplayUnavailable
            else
              let batches := batches ++ page in
              if u32 (len page) <? pageLimit then done batches else readPages fuel' sessionID nextAfter batches
        end
  end.
Definition readReplayBatches (sessionID : UUID) : svc (list EventBatch) :=
  readPages (Z.to_nat (maximumReplayBatches + 2)) sessionID 0 [].

(** The two loops of [ProjectReplayCurrent]: the events of one batch within the
    limits, then the batches in order of their versions. *)
Fixpoint addEvents (payloadBytes : Z) (events : list Event) (added : list Event) : option (Z * list Event) :=
  match added with
  | [] => Some (payloadBytes, events)
  | event :: rest =>
      if maximumReplayEvents <=? len events then None
      else if maximumReplayPayloadBytes - payloadBytes <? len (Payload (ev_Message event)) then None
      else addEvents (payloadBytes + len (Payload (ev_Message event))) (events ++ [event]) rest
  end.

Fixpoint replayEvents (sessionID : UUID) (previousVersion payloadBytes : Z) (events : list Event) (batches : list EventBatch)
  : option (Z * list Event) :=
  match batches with
  | [] => Some (previousVersion, events)
  | batch :: rest =>
      if negb (b_SessionID batch =? sessionID) || negb (b_StateVersion batch =? u64 (previousVersion + 1)) then None
      else match addEvents payloadBytes events (b_Events batch) with
      | None => None
      | Some (payloadBytes, events) => replayEvents sessionID (b_StateVersion batch) payloadBytes events rest
      end
  end.

Definition replayTerminalMeta (snapshot : SessionSnapshot) : ReplayTerminalMeta :=
  mkTerminalMeta (String.eqb (s_Status snapshot) StatusFinished) (String.eqb (s_Status snapshot) StatusCancelled)
    (s_EndedAt snapshot) (s_CancelReason snapshot).

(** What the module projects for a finished and for a cancelled session. *)
Definition replayProjection (m : GameModule) (snapshot : SessionSnapshot) (events : list Event) (viewer : Viewer) (policy : string)
  : res Projection :=
  if String.eqb (s_Status snapshot) StatusFinished then md_ProjectReplay m events viewer policy
  else match md_ProjectReplayV2 m with
  | None => Err ErrReplayUnavailable
  | Some projector => projector (mkReplayRequest events viewer policy (replayTerminalMeta snapshot))
  end.

Definition ProjectReplayCurrent (sessionID : UUID) (viewer : Viewer) (policy : string) : svc (Session * Projection) :=
  if (sessionID =? Nil) || negb (Viewer_Valid viewer) || negb (String.eqb (vw_Kind viewer) ViewerReplay)
     || negb (ReplayAccessPolicy_Valid policy)
  then fail ErrInvalidSessionInput
  else
    try* session := getSession sessionID in
    if negb (Terminal (s_Status session)) then fail ErrReplayUnavailable
    else
      try* m := resolveModule (s_VersionKey session) in
      if negb (bool_decide (Manifest_Key (md_Manifest m) = s_VersionKey session)) then fail ErrModuleUnavailable
      else if negb (cap_Replay (mf_Capabilities (md_Manifest m))) then fail ErrReplayUnavailable
      else
        try* batches := readReplayBatches sessionID in
        if (len batches =? 0) || (maximumReplayBatches <? u32 (len batches)) then fail ErrReplayUnavailable
        else match replayEvents sessionID 0 0 [] batches with
        | None => fail ErrReplayUnavailable
        | Some (previousVersion, events) =>
            if negb (previousVersion =? StateVersion (s_State session)) then fail ErrReplayUnavailable
            else
              try* projection := checkedProjection (replayProjection m session events viewer policy) in
              done (session, projection)
        end.

Definition ProjectReplay (sessionID : UUID) (viewer : Viewer) (policy : string) : svc Projection :=
  try* '(_, projection) := ProjectReplayCurrent sessionID viewer policy in
  done projection.

(** ** Live viewers *)
Record LiveViewerAuthorization := mkAuthorization { la_Viewer : Viewer; la_Host : bool }.

Definition liveSession (room : Room) (session : Session) : bool :=
  negb ((Room.ID room =? Nil) || (s_ID session =? Nil) || negb (String.eqb (Room.Status room) Room.RoomStatusPlaying)
        || negb (Room.ActiveSessionID room =? s_ID session) || negb (s_RoomID session =? Room.ID room)
        || Terminal (s_Status session)).

Definition AuthorizeLiveViewer (room : Room) (session : Session) (userID : UUID) (requested : string)
  : res LiveViewerAuthorization :=
  if (userID =? Nil) || (negb (String.eqb requested ViewerPlayer) && negb (String.eqb requested ViewerSpectator))
  then Err ErrInvalidSessionInput
  else if negb (liveSession room session) then Err ErrParticipantNotActive
  else match Room.Member room userID with
  | None => Err ErrParticipantNotActive
  | Some member =>
      let* viewer :=
        (if String.eqb requested ViewerPlayer then
           if negb (String.eqb (Room.m_Role member) Room.MemberRoleParticipant) then Err ErrParticipantNotActive
           else match List.find (fun participant => p_UserID participant =? userID) (s_Participants session) with
           | None => Err ErrParticipantNotActive
           | Some participant => Ok (mkViewer requested (UUID_String userID) (p_SeatIndex participant))
           end
         else
           if negb (String.eqb (Room.m_Role member) Room.MemberRoleSpectator) then Err ErrParticipantNotActive
           else Ok (mkViewer requested (UUID_String userID) 0)) in
      if negb (Viewer_Valid viewer) then Err ErrGameSessionIntegrity
      else Ok (mkAuthorization viewer (Room.HostUserID room =? userID))
  end.

(** ** Room facts *)
Record SystemInboxConsumeResult := mkConsumeResult { ic_Record : SystemInboxRecord; ic_Replayed : bool }.

Definition sessionHasParticipant (session : Session) (userID : UUID) : bool :=
  existsb (fun participant => p_UserID participant =? userID) (s_Participants session).

(** [SystemInboxExecutor]: what the consumer asks of the owner of a session. *)
Class SystemInboxExecutor := {
  EnsureOwned : UUID -> svc Z;
  executeSystem : SystemCommand -> svc SystemCommitResult;
}.

Section Inbox.
Context `{SystemInboxExecutor}.

(** [Consume] of an event that carries [fact] ([None] when it carries none) and
    has the payload digest [payloadDigest]. *)
Definition Consume (fact : option RoomStore.ParticipantRevocationFact) (payloadDigest : Digest) : svc SystemInboxConsumeResult :=
  match fact with
  | None => fail ErrGameSessionIntegrity
  | Some fact =>
      let key := mkInboxKey (RoomStore.fact_SessionID fact) (RoomStore.fact_EventID fact) in
      ask* r := CallInbox key payloadDigest in
      try* record := Ret (ofStore r) in
      if String.eqb (ib_Status record) SystemInboxCompleted then done (mkConsumeResult record true)
      else
        try* session := getSession (RoomStore.fact_SessionID fact) in
        if negb (s_RoomID session =? RoomStore.fact_RoomID fact) || negb (sessionHasParticipant session (RoomStore.fact_UserID fact))
        then fail ErrGameSessionIntegrity
        else
          try* m := resolveModule (s_VersionKey session) in
          match md_EncodeParticipantRevoked m with
          | None => fail ErrModuleUnavailable
          | Some encode =>
              match encode (mkRevocationFact (UUID_String (RoomStore.fact_UserID fact))) with
              | Err _ => fail ErrInvalidSystemCommit
              | Ok message =>
                  if negb (Message_Valid message) then fail ErrInvalidSystemCommit
                  else match NewOperationID (uuidBytes (RoomStore.fact_EventID fact)) with
                  | Err _ => fail ErrInvalidSessionInput
                  | Ok operationID =>
                      try* _ := (if negb (Terminal (s_Status session)) then EnsureOwned (RoomStore.fact_SessionID fact) else done 0) in
                      try* result := executeSystem (mkSystemCommand (RoomStore.fact_SessionID fact) operationID
                        (mkSource SystemSourceRoomOutbox (RoomStore.fact_EventID fact) Nil) (StateVersion (s_State session))
                        (s_OwnershipEpoch session) (s_VersionKey session) message None) in
                      let receipt := sr_Receipt result in
                      ask* r := CallCompleteInbox key payloadDigest (RuntimeCommit.sc_StateVersion receipt) (RuntimeCommit.sc_CommittedAt receipt) in
                      try* completed := Ret (ofStore r) in
                      done (mkConsumeResult completed (sr_Replayed result))
                  end
              end
          end
  end.
End Inbox.

End RuntimeService.
