(* ===== verification/DurableHistory.v ===== *)
(** * What the repositories never take back

    Receipts, event batches, completed system operations, published events and
    ended sessions are only ever added: every transaction of the session
    repositories keeps those that are there. *)

From stdpp Require Import gmap relations.
From S2P Require Import Prelude GoLib Sha256 Selector GameManifest GameContract Outbox Room RoomStore Runtime RuntimeMoves RuntimeCommit RuntimeStore RuntimeQueries RuntimeRepository RuntimeStoreFacts RuntimeStoreEffects RuntimeStoreInvariant RoomGameRepository RoomGameTheorems.

Module DurableHistory.
Import GoLib Selector GameManifest GameContract Runtime RuntimeMoves RuntimeCommit RuntimeStore RuntimeQueries RuntimeRepository RuntimeStoreFacts
  RuntimeStoreEffects RuntimeStoreInvariant RoomGameTheorems.

(** The release a session is played with. *)
Definition releaseOf (row : GameSessionRow) : VersionKey :=
  mkVersionKey (g_GameID row) (g_EngineVersion row) (g_ProtocolVersion row) (g_ClientVersion row).

Record durable (t t' : Tables) : Prop := mkDurable {
  k_actions : action_receipts t ⊆ action_receipts t';
  k_timers : timer_receipts t ⊆ timer_receipts t';
  k_starts : start_receipts t ⊆ start_receipts t';
  k_batches : event_batches t ⊆ event_batches t';
  k_outbox : outbox t ⊆ outbox t';
  k_operations : forall key row, system_operations t !! key = Some row -> so_Status row = SystemInboxCompleted ->
    system_operations t' !! key = Some row;
  (** A session that has ended is never changed again. *)
  k_ended : forall sid row, game_sessions t !! sid = Some row -> live (g_Status row) = false -> game_sessions t' !! sid = Some row;
  (** Ownership epochs never go back. *)
  k_epochs : forall sid row, game_sessions t !! sid = Some row ->
    exists row', game_sessions t' !! sid = Some row' /\ g_OwnershipEpoch row <= g_OwnershipEpoch row';
  (** A session is never played with another release. *)
  k_release : forall sid row, game_sessions t !! sid = Some row ->
    exists row', game_sessions t' !! sid = Some row' /\ releaseOf row' = releaseOf row;
}.

#[global] Instance durable_preorder : PreOrder durable.
Proof.
  split; [by constructor; eauto using Z.le_refl|]. intros t1 t2 t3 [????? ? ? E F] [????? ? ? E' F']. constructor; try (by etrans); try by eauto.
  - intros sid row (row1 & Hrow1 & H1)%E. apply E' in Hrow1 as (row2 & Hrow2 & H2). exists row2. split; [done|lia].
  - intros sid row (row1 & Hrow1 & H1)%F. apply F' in Hrow1 as (row2 & Hrow2 & H2). exists row2. split; [done|congruence].
Qed.

Lemma epochs_same (m : gmap UUID GameSessionRow) sid row :
  m !! sid = Some row -> exists row', m !! sid = Some row' /\ g_OwnershipEpoch row <= g_OwnershipEpoch row'.
Proof. intros H. exists row. split; [done|lia]. Qed.

Lemma release_same (m : gmap UUID GameSessionRow) sid row :
  m !! sid = Some row -> exists row', m !! sid = Some row' /\ releaseOf row' = releaseOf row.
Proof. intros H. by exists row. Qed.

(** ** Transactions that keep what is there *)
Definition keeping {A} (m : tx A) : Prop := forall t n a t' n', m (t, n) = Ok (a, (t', n')) -> durable t t'.

Lemma keeping_bind {A B} (m : tx A) (f : A -> tx B) : keeping m -> (forall a, keeping (f a)) -> keeping (tx_bind m f).
Proof. intros Hm Hf t n b t' n' (a & t1 & n1 & H1 & H2)%session_bind_inv. etrans; [by eapply Hm|by eapply Hf]. Qed.

Lemma keeping_ret {A} (a : A) : keeping (tx_ret a).
Proof. by intros t n b t' n' (_ & -> & _)%tx_ret_inv. Qed.
Lemma keeping_fail {A} e : keeping (@tx_fail A e).
Proof. by intros t n b t' n' H. Qed.
Lemma keeping_lift {A} (r : res A) : keeping (tx_lift r).
Proof. by intros t n a t' n' (_ & -> & _)%tx_lift_inv. Qed.
Lemma keeping_room {A} (r : Room.res A) : keeping (RoomGameRepository.tx_room r).
Proof. destruct r; [apply keeping_ret|apply keeping_fail]. Qed.
Lemma keeping_outbox {A} (r : result Outbox.OutboxError A) : keeping (tx_outbox r).
Proof. destruct r; [apply keeping_ret|apply keeping_fail]. Qed.
Lemma keeping_map_err {A} f (m : tx A) : keeping m -> keeping (tx_map_err f m).
Proof. intros Hm t n a t' n' H. unfold tx_map_err in H. destruct (m (t, n)) as [[b [t1 n1]]|] eqn:E; [|done]. injection H as -> -> ->. by eapply Hm. Qed.
Lemma keeping_one {A} (q : tx (option A)) : keeping q -> keeping (one q).
Proof. intros Hq t n a t' n' H%one_inv. by eapply Hq. Qed.
Lemma keeping_one_or {A} (q : tx (option A)) e : keeping q -> keeping (one_or q e).
Proof. intros Hq t n a t' n' H%one_or_inv. by eapply Hq. Qed.
Lemma keeping_rooms {A} (m : RoomStore.tx A) : keeping (RoomGameRepository.onRooms m).
Proof. intros t n a t' n' H. unfold RoomGameRepository.onRooms in H. destruct (m _) as [[b [d k]]|]; [|done]. injection H as _ <- _. constructor; cbn; eauto using epochs_same, release_same. Qed.

Lemma keeping_statement {A} fault (f : Tables -> result DbError (A * Tables)) :
  (forall t a t', f t = Ok (a, t') -> durable t t') -> keeping (statement fault f).
Proof. intros Hf t n a t' n' H%session_statement_inv. by eapply Hf. Qed.
Lemma keeping_query {A} fault (f : Tables -> A) : keeping (query fault f).
Proof. apply keeping_statement. by intros t a t' [= _ <-]. Qed.

Create HintDb keeping.
Hint Resolve keeping_ret keeping_fail keeping_lift keeping_room keeping_outbox keeping_rooms keeping_query : keeping.
Ltac keeps :=
  repeat first
    [ solve [auto 2 with keeping]
    | apply keeping_bind; [|intros ?]
    | apply keeping_one | apply keeping_one_or | apply keeping_map_err
    | lazymatch goal with |- keeping (match ?x with _ => _ end) => destruct x end ].

(** A statement either leaves these tables or adds a row under a new key. *)
Lemma added {K V} `{Countable K} (m : gmap K V) k v : bool_decide (is_Some (m !! k)) = false -> m ⊆ <[k := v]> m.
Proof. intros E%bool_decide_eq_false. apply insert_subseteq. destruct (m !! k); [|done]. by destruct E. Qed.
Hint Resolve added epochs_same release_same : keeping.
Ltac writes := apply keeping_statement; intros t a t' H; cbv zeta in H; repeat (case_match; try done); simplify_eq; constructor; cbn; eauto with keeping.

Section Statements.
Context (fault : nat -> option DbError) (ctxDone : bool) (names : UUID -> option (string * string)).

Lemma CreateGameSession_keeps row : keeping (CreateGameSession fault row).
Proof.
  writes; intros sid row' Hrow; match goal with H : bool_decide _ = false |- _ => apply bool_decide_eq_false in H as Hn end;
    (rewrite lookup_insert_ne; [by eauto with keeping|]; intros <-; by rewrite Hrow in Hn; destruct Hn).
Qed.
Lemma updateSession_keeps sid matches set :
  (forall row, matches row = true -> live (g_Status row) = true) -> (forall row, g_OwnershipEpoch row <= g_OwnershipEpoch (set row)) ->
  (forall row, releaseOf (set row) = releaseOf row) ->
  keeping (updateSession fault sid matches set).
Proof.
  intros Hlive Hep Hrel. writes.
  - intros sid' row' Hrow' Hended. rewrite lookup_insert_ne; [done|]. intros <-.
    match goal with H : matches ?r = true |- _ => apply Hlive in H; assert (row' = r) as -> by congruence end. congruence.
  - intros sid' row' Hrow'. match goal with |- context [<[?k := set ?r]> _] => destruct (decide (k = sid')) as [<-|Hne] end.
    + rewrite lookup_insert_eq. eexists. split; [done|]. simplify_eq. apply Hep.
    + rewrite lookup_insert_ne by done. by apply epochs_same.
  - intros sid' row' Hrow'. match goal with |- context [<[?k := set ?r]> _] => destruct (decide (k = sid')) as [<-|Hne] end.
    + rewrite lookup_insert_eq. eexists. split; [done|]. simplify_eq. apply Hrel.
    + rewrite lookup_insert_ne by done. by apply release_same.
Qed.
Lemma AcquireGameSessionOwnershipCAS_keeps at_ sid version epoch : keeping (AcquireGameSessionOwnershipCAS fault at_ sid version epoch).
Proof. apply updateSession_keeps; [by intros row [_ ?]%andb_prop|intros row; cbn; lia|done]. Qed.
Lemma UpdateGameSessionStateCAS_keeps params : keeping (UpdateGameSessionStateCAS fault params).
Proof. apply updateSession_keeps; [by intros row [_ ->%String.eqb_eq]%andb_prop|intros row; cbn; lia|done]. Qed.
Lemma UpdateGameSessionLifecycleCAS_keeps params : keeping (UpdateGameSessionLifecycleCAS fault params).
Proof. apply updateSession_keeps; [by intros row [_ ?]%andb_prop|intros row; cbn; lia|done]. Qed.
Lemma CreateGameSessionParticipant_keeps sid row : keeping (CreateGameSessionParticipant fault sid row).
Proof. writes. Qed.
Lemma CreateGameSessionReplayAccess_keeps sid rid at_ at' : keeping (CreateGameSessionReplayAccess fault sid rid at_ at').
Proof. writes. Qed.
Lemma DeleteGameSessionTimers_keeps sid : keeping (DeleteGameSessionTimers fault sid).
Proof. writes. Qed.
Lemma CreateGameSessionTimer_keeps sid row : keeping (CreateGameSessionTimer fault sid row).
Proof. writes. Qed.
Lemma CreateGameSessionEventBatch_keeps row : keeping (CreateGameSessionEventBatch fault row).
Proof. writes. Qed.
Lemma CreateGameSessionEvent_keeps id row : keeping (CreateGameSessionEvent fault id row).
Proof. writes. Qed.
Lemma CreateGameActionReceipt_keeps sid actor row : keeping (CreateGameActionReceipt fault sid actor row).
Proof. writes. Qed.
Lemma CreateGameTimerReceipt_keeps sid row : keeping (CreateGameTimerReceipt fault sid row).
Proof. writes. Qed.
Lemma InsertGameSystemOperationPending_keeps sid op kind source by_ digest at_ :
  keeping (InsertGameSystemOperationPending fault sid op kind source by_ digest at_).
Proof.
  writes. intros key row Hk _. match goal with H : _ || _ = false |- _ => apply orb_false_iff in H as [H _]; apply bool_decide_eq_false in H; rename H into Hn end.
  rewrite lookup_insert_ne; [done|]. intros <-. by rewrite Hk in Hn; destruct Hn.
Qed.
Lemma CompleteGameSystemOperationCAS_keeps code digest version batchID at_ sid op :
  keeping (CompleteGameSystemOperationCAS fault code digest version batchID at_ sid op).
Proof.
  writes. intros key row Hk Hs. rewrite lookup_insert_ne; [done|]. intros <-.
  match goal with H : negb (String.eqb (so_Status ?r) _) = false |- _ =>
    apply negb_false_iff, String.eqb_eq in H; assert (row = r) as -> by congruence; by rewrite H in Hs end.
Qed.
Lemma CompleteGameSystemInboxCAS_keeps version at_ sid source digest : keeping (CompleteGameSystemInboxCAS fault version at_ sid source digest).
Proof. writes. Qed.
Lemma CreateOutboxEvent_keeps event : keeping (CreateOutboxEvent fault event).
Proof. writes. Qed.
Lemma CreateGameSessionStartReceipt_keeps row : keeping (RoomGameRepository.CreateGameSessionStartReceipt fault row).
Proof. writes. Qed.
Lemma ConsumeRoomPendingStart_keeps params : keeping (RoomGameRepository.ConsumeRoomPendingStart fault params).
Proof. writes. Qed.
Lemma FinishPartyRoomCAS_keeps params : keeping (RoomGameRepository.FinishPartyRoomCAS fault params).
Proof. writes. Qed.
Lemma CaptureGameSessionReplayMembers_keeps sid rid : keeping (RoomGameRepository.CaptureGameSessionReplayMembers fault sid rid).
Proof. writes. Qed.
Lemma CompleteGameSessionReplayMemberSnapshot_keeps at_ sid rid :
  keeping (RoomGameRepository.CompleteGameSessionReplayMemberSnapshot fault at_ sid rid).
Proof. writes. Qed.
End Statements.

Hint Resolve CreateGameSession_keeps AcquireGameSessionOwnershipCAS_keeps UpdateGameSessionStateCAS_keeps
  UpdateGameSessionLifecycleCAS_keeps CreateGameSessionParticipant_keeps CreateGameSessionReplayAccess_keeps
  DeleteGameSessionTimers_keeps CreateGameSessionTimer_keeps CreateGameSessionEventBatch_keeps CreateGameSessionEvent_keeps
  CreateGameActionReceipt_keeps CreateGameTimerReceipt_keeps InsertGameSystemOperationPending_keeps CompleteGameSystemOperationCAS_keeps
  CompleteGameSystemInboxCAS_keeps CreateOutboxEvent_keeps CreateGameSessionStartReceipt_keeps ConsumeRoomPendingStart_keeps
  FinishPartyRoomCAS_keeps CaptureGameSessionReplayMembers_keeps CompleteGameSessionReplayMemberSnapshot_keeps : keeping.

(** ** Operations *)
Section Operations.
Context (fault : nat -> option DbError) (ctxDone : bool) (names : UUID -> option (string * string)).

Lemma sessionFromUpdatedRow_keeps row : keeping (sessionFromUpdatedRow fault row).
Proof. unfold sessionFromUpdatedRow, ListGameSessionParticipants, ListGameSessionTimers. keeps. Qed.
Hint Resolve sessionFromUpdatedRow_keeps : keeping.

Lemma getGameSessionForUpdate_keeps sid : keeping (getGameSessionForUpdate fault sid).
Proof. unfold getGameSessionForUpdate, GetGameSessionForUpdate. keeps. Qed.

Lemma createTimers_keeps sid timers : keeping (createTimers fault sid timers).
Proof. induction timers as [|timer rest IH]; cbn [createTimers]; keeps. Qed.
Hint Resolve getGameSessionForUpdate_keeps createTimers_keeps : keeping.

Lemma replaceGameSessionTimers_keeps sid timers : keeping (replaceGameSessionTimers fault sid timers).
Proof. unfold replaceGameSessionTimers. keeps. Qed.

Lemma createEvents_keeps id index events : keeping (createEvents fault id index events).
Proof. revert index. induction events as [|event rest IH]; intros index; cbn [createEvents]; keeps. Qed.
Hint Resolve replaceGameSessionTimers_keeps createEvents_keeps : keeping.

Lemma insertGameSessionBatch_keeps bt : keeping (insertGameSessionBatch fault bt).
Proof. unfold insertGameSessionBatch. keeps. Qed.

Lemma insertGameActionReceipt_keeps rc : keeping (insertGameActionReceipt fault rc).
Proof. unfold insertGameActionReceipt. keeps. Qed.

Lemma insertGameTimerReceipt_keeps rc id : keeping (insertGameTimerReceipt fault rc id).
Proof. unfold insertGameTimerReceipt. keeps. Qed.

Lemma OutboxInsert_keeps event : keeping (OutboxInsert fault ctxDone event).
Proof. unfold OutboxInsert, GetOutboxEventByID. keeps. Qed.
Hint Resolve insertGameSessionBatch_keeps insertGameActionReceipt_keeps insertGameTimerReceipt_keeps OutboxInsert_keeps : keeping.

Lemma insertGameSessionOutbox_keeps events : keeping (insertGameSessionOutbox fault ctxDone events).
Proof. induction events as [|event rest IH]; cbn [insertGameSessionOutbox]; keeps. Qed.

Lemma createParticipants_keeps sid participants : keeping (createParticipants fault sid participants).
Proof. induction participants as [|participant rest IH]; cbn [createParticipants]; keeps. Qed.
Hint Resolve insertGameSessionOutbox_keeps createParticipants_keeps : keeping.

Lemma createGameSessionAggregate_keeps commit : keeping (createGameSessionAggregate fault ctxDone commit).
Proof. unfold createGameSessionAggregate, ListGameSessionParticipants, ListGameSessionTimers. keeps. Qed.

Lemma requireParticipant_keeps roomID actor : keeping (requireParticipant fault roomID actor).
Proof. unfold requireParticipant, GetRoomMemberRole. keeps. Qed.
Hint Resolve createGameSessionAggregate_keeps requireParticipant_keeps : keeping.

Lemma lockActionParticipantFence_keeps session actor : keeping (lockActionParticipantFence fault session actor).
Proof. unfold lockActionParticipantFence, GetPartyRoomForUpdate. keeps. Qed.

Lemma rejectTerminal_keeps a excluded : keeping (rejectTerminalWithPendingSystemInbox fault a excluded).
Proof. unfold rejectTerminalWithPendingSystemInbox, HasPendingGameSystemInbox. keeps. Qed.
Hint Resolve lockActionParticipantFence_keeps rejectTerminal_keeps : keeping.

Lemma commitActionAfterRoomLock_keeps commit : keeping (commitActionAfterRoomLock fault ctxDone commit).
Proof. unfold commitActionAfterRoomLock, GetGameActionReceipt. cbv zeta. keeps. Qed.

Lemma commitTimerAfterSessionLock_keeps current commit : keeping (commitTimerAfterSessionLock fault ctxDone current commit).
Proof.
  unfold commitTimerAfterSessionLock, persistTimerTransition, GetGameTimerReceipt, GetGameSessionTimerForUpdate.
  cbv zeta. keeps.
Qed.

Lemma lockOrCreateSystemOperation_keeps rc : keeping (lockOrCreateSystemOperation fault rc).
Proof.
  unfold lockOrCreateSystemOperation, GetGameSystemOperationForUpdate, GetGameSystemOperationBySourceForUpdate. cbv zeta. keeps.
Qed.

Lemma completeGameSystemOperation_keeps rc id : keeping (completeGameSystemOperation fault rc id).
Proof. unfold completeGameSystemOperation. keeps. Qed.
Hint Resolve commitActionAfterRoomLock_keeps commitTimerAfterSessionLock_keeps lockOrCreateSystemOperation_keeps
  completeGameSystemOperation_keeps : keeping.

Lemma completeTerminalSystemOperation_keeps key digest session at_ :
  keeping (completeTerminalSystemOperation fault key digest session at_).
Proof. unfold completeTerminalSystemOperation. keeps. Qed.
Hint Resolve completeTerminalSystemOperation_keeps : keeping.

Lemma commitSystemAfterSessionLock_keeps current commit : keeping (commitSystemAfterSessionLock fault ctxDone current commit).
Proof. unfold commitSystemAfterSessionLock, persistSystemTransition. cbv zeta. keeps. Qed.

Lemma persistAdjusted_keeps b a : keeping (persistAdjustedGameSessionTimersForResume fault b a).
Proof. unfold persistAdjustedGameSessionTimersForResume, ListGameSessionTimersForUpdate. keeps. Qed.
Hint Resolve commitSystemAfterSessionLock_keeps persistAdjusted_keeps : keeping.

Lemma persistLifecycle_keeps current commit : keeping (persistLifecycleAfterSessionLock fault ctxDone current commit).
Proof. unfold persistLifecycleAfterSessionLock. cbv zeta. keeps. Qed.

Lemma lockRoomForUpdate_keeps roomID : keeping (RoomGameRepository.lockRoomForUpdate fault roomID).
Proof. unfold RoomGameRepository.lockRoomForUpdate, GetPartyRoomForUpdate. keeps. Qed.
Hint Resolve persistLifecycle_keeps lockRoomForUpdate_keeps : keeping.

Lemma finishPartyRoom_keeps b a : keeping (RoomGameRepository.finishPartyRoomAggregateCAS fault b a).
Proof. unfold RoomGameRepository.finishPartyRoomAggregateCAS. keeps. Qed.
Hint Resolve finishPartyRoom_keeps : keeping.

(** The outcome of a transaction of either repository. *)
Lemma finish_durable {A} noRows (work : tx A) t out t' :
  keeping work -> finish noRows (RuntimeQueries.Run fault work t) = (out, t') -> durable t t'.
Proof. intros Hw H%finish_inv. destruct out; [|by subst]. destruct H as [n H]. by eapply Hw. Qed.

Lemma game_finish_durable {A} (work : tx A) t out t' :
  keeping work -> RoomGameRepository.finish (RuntimeQueries.Run fault work t) = (out, t') -> durable t t'.
Proof.
  intros Hw. unfold RoomGameRepository.finish. destruct (RuntimeQueries.Run fault work t) as [r t1] eqn:E.
  apply Run_session_inv in E as [(e & -> & ->)|(a & n & -> & E)]; intros [= _ <-]; [done|by eapply Hw].
Qed.
End Operations.

Hint Resolve sessionFromUpdatedRow_keeps getGameSessionForUpdate_keeps commitActionAfterRoomLock_keeps commitTimerAfterSessionLock_keeps
  commitSystemAfterSessionLock_keeps lockOrCreateSystemOperation_keeps completeTerminalSystemOperation_keeps persistLifecycle_keeps
  lockActionParticipantFence_keeps requireParticipant_keeps lockRoomForUpdate_keeps finishPartyRoom_keeps createGameSessionAggregate_keeps
  : keeping.

(** Through the checks of an operation to its transaction. *)
Ltac enter H :=
  cbv zeta in H;
  repeat lazymatch type of H with
  | (if ?c then _ else _) = _ => destruct c; [by injection H as _ <-|]
  | (match ?r with Ok _ => _ | Err _ => _ end) = _ => destruct r; [|by injection H as _ <-]
  end;
  first [eapply finish_durable; [|exact H]|eapply game_finish_durable; [|exact H]].

(** Every step of the interleaved requests keeps what is durable. *)
Lemma game_step_durable state state' : game_step state state' -> durable state.1 state'.1.
Proof.
  intros Hstep. destruct Hstep; cbn [fst]; try (by constructor; eauto using epochs_same, release_same).
  - unfold AcquireOwnershipCAS in H. enter H.
    unfold ListGameSessionParticipants, ListGameSessionTimers. keeps.
  - unfold CommitAction in H1. enter H1. keeps.
  - unfold CommitTimer in H1. enter H1. keeps.
  - unfold CommitSystem in H1. enter H1. keeps.
  - unfold CompleteSystemNoop in H. enter H. cbv zeta. keeps.
  - unfold CommitLifecycle in H0. enter H0. keeps.
  - unfold CompleteSystemInbox in H. enter H. unfold GetGameSystemInboxForUpdate. keeps.
  - unfold RoomGameRepository.Start in H0. enter H0.
    unfold RoomGameRepository.startTransaction, RoomGameRepository.GetGameSessionStartReceiptForUpdate, RoomGameRepository.updateRoomAggregateCAS.
    cbv zeta. keeps.
  - unfold RoomGameRepository.FinishAction in H0. enter H0.
    unfold RoomGameRepository.replayFinishedActionAfterRoomChange, GetGameActionReceipt. cbv zeta. keeps.
  - unfold RoomGameRepository.FinishTimer in H0. enter H0.
    unfold RoomGameRepository.replayFinishedTimerAfterRoomChange, GetGameTimerReceipt. cbv zeta. keeps.
  - unfold RoomGameRepository.FinishSystem in H0. enter H0.
    unfold RoomGameRepository.replayFinishedSystemAfterRoomChange, GetGameSystemOperationForUpdate. cbv zeta. keeps.
  - unfold RoomGameRepository.Cancel in H. enter H. unfold RoomGameRepository.updateRoomAggregateCAS. keeps.
  - unfold RoomGameRepository.Suspend, RoomGameRepository.commitGovernedLifecycle in H. enter H.
    unfold RoomGameRepository.lockExactRoom, RoomGameRepository.updateRoomAggregateCAS. keeps.
  - unfold RoomGameRepository.Resume, RoomGameRepository.commitGovernedLifecycle in H. enter H.
    unfold RoomGameRepository.lockExactRoom, RoomGameRepository.updateRoomAggregateCAS. keeps.
Qed.

Lemma loaded_release row ps ts s : sessionFromRows row ps ts = Ok s -> s_VersionKey s = releaseOf row.
Proof.
  intros (id & roomID & startedAt & updatedAt & parts & timers & start & _ & _ & _ & _ & _ & _ & _ & _ & _ & _ & _ & H)%sessionFromRows_Ok.
  apply RestoreSession_Restored in H. by rewrite (rs_key _ _ H).
Qed.

Lemma release_kept t t' sid s s' : durable t t' -> loadSession t sid = Some s -> loadSession t' sid = Some s' ->
  s_VersionKey s' = s_VersionKey s.
Proof.
  intros Hd (row & Hrow & Hl)%loadSession_row (row' & Hrow' & Hl')%loadSession_row.
  apply (k_release _ _ Hd) in Hrow as (row1 & Hrow1 & Er). assert (row1 = row') as -> by congruence.
  by rewrite (loaded_release _ _ _ _ Hl), (loaded_release _ _ _ _ Hl').
Qed.

Lemma game_steps_durable state state' : rtc game_step state state' -> durable state.1 state'.1.
Proof. induction 1 as [|x y z H _ IH]; [done|]. etrans; [by apply game_step_durable|exact IH]. Qed.

End DurableHistory.
