(* ===== verification/ServiceSystem.v ===== *)
(** * The session service: its runs

    What the authorities of the service may answer ([answers]), the calls the
    repositories are made for ([okCall]), and the system of any number of
    requests in progress: every request makes one call at a time, on the tables
    as the others left them. *)

From stdpp Require Import gmap relations.
From S2P Require Import Prelude GoLib Sha256 Selector GameManifest GameContract Outbox Room RoomStore Runtime RuntimeFacts RuntimeMoves RuntimeCommit RuntimeCommands RuntimeCommitFacts RuntimeStore RuntimeQueries RuntimeRepository RuntimeStoreFacts RuntimeStoreEffects RuntimeStoreInvariant RoomGameRepository RoomGameFacts RoomGameInvariant RoomGameTheorems RuntimeService.

Module ServiceSystem.
Import GoLib Selector GameManifest GameContract Runtime RuntimeFacts RuntimeMoves RuntimeCommit RuntimeCommands RuntimeCommitFacts RuntimeStore RuntimeQueries
  RuntimeRepository RuntimeStoreFacts RuntimeStoreEffects RuntimeStoreInvariant RoomGameTheorems RuntimeService.

(** ** Transactions that only read *)
Definition reading {A} (m : tx A) : Prop := forall t n a t' n', m (t, n) = Ok (a, (t', n')) -> t' = t.

Lemma reading_bind {A B} (m : tx A) (f : A -> tx B) : reading m -> (forall a, reading (f a)) -> reading (tx_bind m f).
Proof. intros Hm Hf t n b t' n' (a & t1 & n1 & H1 & H2)%session_bind_inv. apply Hm in H1 as ->. by eapply Hf. Qed.

Lemma reading_query {A} fault (f : Tables -> A) : reading (query fault f).
Proof. by intros t n a t' n' [_ ->]%query_inv. Qed.

Lemma reading_lift {A} (r : res A) : reading (tx_lift r).
Proof. by intros t n a t' n' (_ & -> & _)%tx_lift_inv. Qed.

Lemma reading_ret {A} (a : A) : reading (tx_ret a).
Proof. by intros t n b t' n' (_ & -> & _)%tx_ret_inv. Qed.

Lemma reading_fail {A} e : reading (@tx_fail A e).
Proof. by intros t n b t' n' H. Qed.

Create HintDb reading.
#[export] Hint Resolve reading_bind reading_query reading_lift reading_ret reading_fail : reading.
#[export] Hint Extern 1 (reading (match ?x with _ => _ end)) => destruct x : reading.
Ltac reads := repeat first [apply reading_bind; [|intros ?] | solve [eauto 3 with reading] | progress unfold one, one_or | case_match].

Lemma reading_finish {A} fault noRows (work : tx A) t out t' :
  reading work -> finish noRows (RuntimeQueries.Run fault work t) = (out, t') -> t' = t.
Proof. intros Hr H%finish_inv. destruct out as [a|e]; [|done]. destruct H as [n H]. by eapply Hr. Qed.

Lemma guarded {A} (c : bool) (e : StoreError) (m : sres A * Tables) t out t' :
  (m = (out, t') -> t' = t) -> (if c then (Err e, t) else m) = (out, t') -> t' = t.
Proof. destruct c; [by intros _ [= _ <-]|done]. Qed.

Section Reads.
Context (fault : nat -> option DbError) (t : Tables).

Lemma Get_reads sid out t' : Get fault sid t = (out, t') -> t' = t.
Proof. apply guarded. apply reading_finish. unfold GetGameSessionForShare, ListGameSessionParticipants, ListGameSessionTimers. reads. Qed.

Lemma GetActionReceipt_reads key digest out t' : GetActionReceipt fault key digest t = (out, t') -> t' = t.
Proof.
  apply guarded. apply reading_finish. unfold lockActionReceiptFence, requireParticipant, GetGameSessionRoomID, GetPartyRoomForUpdate,
    GetRoomMemberRole, GetGameActionReceipt. reads.
Qed.

Lemma GetTimerReceipt_reads key out t' : GetTimerReceipt fault key t = (out, t') -> t' = t.
Proof. apply guarded. apply reading_finish. unfold GetGameTimerReceipt. reads. Qed.

Lemma GetSystemReceipt_reads key digest out t' : GetSystemReceipt fault key digest t = (out, t') -> t' = t.
Proof. apply guarded. apply reading_finish. unfold GetGameSystemOperationForUpdate. reads. Qed.

Lemma readBatches_reading rows : reading (readBatches fault rows).
Proof. induction rows as [|row rest IH]; cbn [readBatches]; unfold ListGameSessionEvents; reads. Qed.

Lemma ReadEventBatches_reads sid after limit out t' : ReadEventBatches fault sid after limit t = (out, t') -> t' = t.
Proof.
  apply guarded. apply reading_finish. unfold ListGameSessionEventBatchesAfter.
  apply reading_bind; [apply reading_query|intros rows; apply readBatches_reading].
Qed.

Lemma GetSystemInbox_reads key digest out t' : GetSystemInbox fault key digest t = (out, t') -> t' = t.
Proof. apply guarded. apply reading_finish. unfold GetGameSystemInboxForUpdate. reads. Qed.

Lemma GetStartReceipt_reads key digest out t' : RoomGameRepository.GetStartReceipt fault key digest t = (out, t') -> t' = t.
Proof. apply guarded. apply reading_finish. unfold RoomGameRepository.GetGameSessionStartReceipt. reads. Qed.
End Reads.

Lemma Get_inv fault sid t s t' : Get fault sid t = (Ok s, t') -> loadSession t sid = Some s.
Proof.
  intros H. apply guard_inv in H as [(e & ? & _)|[_ H]]; [done|]. apply finish_inv in H as [n H].
  step H row Hr. apply one_inv, query_inv in Hr as [Hr ->]. step H ps Hps. apply query_inv in Hps as [-> ->].
  step H ts Hts. apply query_inv in Hts as [-> ->]. apply tx_lift_inv in H as (H & _). by eapply loadSession_intro.
Qed.

(** ** Answers

    The repositories answer from the tables, with any failure of a statement;
    the clock, the generator, the registry and the gate may answer anything the
    code behind them can. *)
Definition answers (c : Call) (t : Tables) : Answer c -> Tables -> Prop :=
  match c return Answer c -> Tables -> Prop with
  | CallGate => fun r t' => t' = t /\ exists state, r = checkUserMutation state
  | CallNow | CallNewID | CallDefaultManifest _ | CallDefaultModule _ | CallResolve _ => fun _ t' => t' = t
  | CallNewExecution at_ => fun r t' => t' = t /\ exists seed ids, r = secureExecution at_ seed ids
  | CallRoom id => fun r t' => t' = t /\ exists fault ctxDone, r = RoomStore.GetByID fault ctxDone id (rooms t)
  | CallGet id => fun r t' => exists fault, Get fault id t = (r, t')
  | CallAcquire b next => fun r t' => exists fault, AcquireOwnershipCAS fault b next t = (r, t')
  | CallActionReceipt key digest => fun r t' => exists fault, GetActionReceipt fault key digest t = (r, t')
  | CallCommitAction commit => fun r t' => exists fault ctxDone, CommitAction fault ctxDone commit t = (r, t')
  | CallTimerReceipt key => fun r t' => exists fault, GetTimerReceipt fault key t = (r, t')
  | CallCommitTimer commit => fun r t' => exists fault ctxDone, CommitTimer fault ctxDone commit t = (r, t')
  | CallSystemReceipt key digest => fun r t' => exists fault, GetSystemReceipt fault key digest t = (r, t')
  | CallCommitSystem commit => fun r t' => exists fault ctxDone, CommitSystem fault ctxDone commit t = (r, t')
  | CallSystemNoop key digest at_ => fun r t' => exists fault, CompleteSystemNoop fault key digest at_ t = (r, t')
  | CallLifecycle commit => fun r t' => exists fault ctxDone, CommitLifecycle fault ctxDone commit t = (r, t')
  | CallBatches sid after limit => fun r t' => exists fault, ReadEventBatches fault sid after limit t = (r, t')
  | CallInbox key digest => fun r t' => exists fault, GetSystemInbox fault key digest t = (r, t')
  | CallCompleteInbox key digest version at_ => fun r t' => exists fault, CompleteSystemInbox fault key digest version at_ t = (r, t')
  | CallStartReceipt key digest => fun r t' => exists fault, RoomGameRepository.GetStartReceipt fault key digest t = (r, t')
  | CallStart b a commit rc => fun r t' => exists fault ctxDone names, RoomGameRepository.Start fault ctxDone names b a commit rc t = (r, t')
  | CallFinishAction b a commit => fun r t' => exists fault ctxDone, RoomGameRepository.FinishAction fault ctxDone b a commit t = (r, t')
  | CallFinishTimer b a commit => fun r t' => exists fault ctxDone, RoomGameRepository.FinishTimer fault ctxDone b a commit t = (r, t')
  | CallFinishSystem b a actor commit => fun r t' =>
      exists fault ctxDone, RoomGameRepository.FinishSystem fault ctxDone b a actor commit t = (r, t')
  | CallSuspend b a commit => fun r t' => exists fault ctxDone names, RoomGameRepository.Suspend fault ctxDone names b a commit t = (r, t')
  | CallResume b a commit => fun r t' => exists fault ctxDone names, RoomGameRepository.Resume fault ctxDone names b a commit t = (r, t')
  | CallCancel b a commit => fun r t' => exists fault ctxDone names, RoomGameRepository.Cancel fault ctxDone names b a commit t = (r, t')
  end.

(** ** What the repositories are called with

    The batch of a commit is one that was validated; a move that ends a game or a
    cancellation goes through the repository that also clears the room. *)
Definition okCall (c : Call) : Prop :=
  match c with
  | CallCommitAction commit => BatchOK (batch commit) /\ s_Status (after commit) <> StatusFinished
  | CallCommitTimer commit => BatchOK (batch commit) /\ s_Status (after commit) <> StatusFinished
  | CallCommitSystem commit => BatchOK (batch commit) /\ s_Status (after commit) <> StatusFinished
  | CallLifecycle commit => s_Status (lc_after commit) <> StatusCancelled
  | CallStart _ _ commit _ => BatchOK (cc_Batch commit)
  | CallFinishAction _ _ commit => BatchOK (batch commit)
  | CallFinishTimer _ _ commit => BatchOK (batch commit)
  | CallFinishSystem _ _ _ commit => BatchOK (batch commit)
  | _ => True
  end.

(** Every call of a program, whatever it is answered, is one the repositories are
    made for, and what it returns satisfies [Q]. *)
Fixpoint safe {A} (p : Prog A) (Q : A -> Prop) : Prop :=
  match p with
  | Ret a => Q a
  | Do c k => okCall c /\ forall answer, safe (k answer) Q
  end.
Abbreviation Safe p := (safe p (fun _ => True)).

Hint Resolve Get_reads GetActionReceipt_reads GetTimerReceipt_reads GetSystemReceipt_reads ReadEventBatches_reads GetSystemInbox_reads
  GetStartReceipt_reads : reading.

(** Such a call changes the tables as a step of the interleaved requests does. *)
Lemma call_step c t r t' seen : okCall c -> answers c t r t' -> rtc game_step (t, seen) (t', seen).
Proof.
  intros Hok H.
  assert (t' = t -> rtc game_step (t, seen) (t', seen)) as Hsame by (intros ->; reflexivity).
  destruct c; cbn in H, Hok; try (by apply Hsame); try (destruct H as [-> _]; reflexivity); destruct_and? Hok;
    repeat lazymatch type of H with ex _ => destruct H as [? H] end; try (apply Hsame; by eauto with reading); apply rtc_once;
    by eauto using game_step.
Qed.

(** ** Safe programs *)
Lemma safe_bind {A B} (m : Prog A) (f : A -> Prog B) Q R :
  safe m Q -> (forall a, Q a -> safe (f a) R) -> safe (prog_bind m f) R.
Proof.
  intros Hm Hf. induction m as [a|c k IH]; [by apply Hf|]. destruct Hm as [Hc Hk]. split; [done|]. intros answer. by apply IH.
Qed.

Definition okay {A} (Q : A -> Prop) (r : result ServiceError A) : Prop := match r with Ok a => Q a | Err _ => True end.

Lemma safe_try {A B} (m : svc A) (f : A -> svc B) Q R :
  safe m (okay Q) -> (forall e, R (Err e)) -> (forall a, Q a -> safe (f a) R) -> safe (try m f) R.
Proof. intros Hm He Hf. eapply safe_bind; [exact Hm|]. intros [a|e] Ha; [by apply Hf|apply He]. Qed.

(** A pure check: what follows may use its result. *)
Lemma safe_check {A B} (r : result ServiceError A) (f : A -> svc B) R :
  (forall e, R (Err e)) -> (forall a, r = Ok a -> safe (f a) R) -> safe (try (Ret r) f) R.
Proof. intros He Hf. destruct r as [a|e]; [by apply Hf|apply He]. Qed.

Lemma safe_weaken {A} (p : Prog A) (Q R : A -> Prop) : safe p Q -> (forall a, Q a -> R a) -> safe p R.
Proof. intros Hp HQ. induction p as [a|c k IH]; [by apply HQ|]. destruct Hp as [Hc Hk]. split; [done|]. intros answer. by apply IH. Qed.

Lemma ofRuntime_Ok {A} (r : res A) a : ofRuntime r = Ok a -> r = Ok a.
Proof. destruct r; [|done]. by intros [= ->]. Qed.

(** One step through a handler; [safe] lemmas of its helpers are in the base. *)
Create HintDb safe.
Ltac safe_step :=
  lazymatch goal with
  | |- safe (Ret _) _ => try done
  | |- safe (done _) _ => try done
  | |- safe (fail _) _ => try done
  | |- safe (Do _ _) _ => split; [try done|intros ?]
  | |- safe (try (Ret _) _) _ => apply safe_check; [done|intros ? ?]
  | |- safe (try _ _) _ => eapply safe_try; [solve [eauto with safe]|done|intros ? ?]
  | |- safe (match ?x with _ => _ end) _ => destruct x eqn:?
  | |- safe (let '_ := ?x in _) _ => destruct x eqn:?
  end.
Ltac safe_run := repeat (safe_step; cbv beta zeta).

Abbreviation ok_true := (okay (fun _ => True)).

Lemma getSession_safe id : safe (getSession id) ok_true.
Proof. unfold getSession. safe_run. by destruct answer as [|[]]. Qed.

Lemma getRoom_safe id : safe (getRoom id) ok_true.
Proof. unfold getRoom. safe_run. by destruct answer as [|[]]. Qed.

Lemma newID_safe : safe newID ok_true.
Proof. unfold newID. safe_run. Qed.

Lemma newExecution_safe at_ : safe (newExecution at_) ok_true.
Proof. unfold newExecution. safe_run. by destruct answer. Qed.

Lemma checkGate_safe gated : safe (checkGate gated) ok_true.
Proof. unfold checkGate. safe_run. by destruct answer. Qed.

Lemma checkDigest_safe supplied computed : safe (checkDigest supplied computed) ok_true.
Proof. unfold checkDigest. safe_run. Qed.

Hint Resolve getSession_safe getRoom_safe newID_safe newExecution_safe checkGate_safe checkDigest_safe : safe.

(** ** What the domain returns to the handlers *)
Lemma applied_batch b batchID epoch cause execution input transition metadata a bt :
  applyTransition b batchID epoch cause execution input transition metadata = Ok (a, bt) -> BatchOK bt.
Proof.
  unfold applyTransition. cbv zeta. intros H. inv_result H. inv_result H. destruct value0 as [timers deadline]. inv_result H. inv_result H.
  injection H as _ <-. by apply RestoreEventBatch_Ok in E2 as [_ ?].
Qed.

Lemma action_batch b request a bt : ApplyAction b request = Ok (a, bt) -> BatchOK bt.
Proof.
  unfold ApplyAction. cbv zeta. intros H. do 6 inv_result H. inv_result H. destruct value0 as [timers deadline]. do 2 inv_result H.
  injection H as _ <-. by match goal with E : RestoreEventBatch _ = Ok _ |- _ => apply RestoreEventBatch_Ok in E as [_ ?] end.
Qed.

Lemma timer_batch b request a bt : ApplyTimer b request = Ok (a, bt) -> BatchOK bt.
Proof. unfold ApplyTimer. cbv zeta. intros H. do 5 inv_result H. destruct (timerOf _ _); [|done]. inv_result H. by eapply applied_batch. Qed.

Lemma system_batch b request a bt : ApplySystem b request = Ok (a, bt) -> BatchOK bt.
Proof. unfold ApplySystem. cbv zeta. intros H. do 5 inv_result H. by eapply applied_batch. Qed.

Lemma suspended_status b epoch at_ a : Runtime.Suspend b epoch at_ = Ok a -> s_Status a = StatusSuspended.
Proof. unfold Runtime.Suspend. cbv zeta. intros H. do 4 inv_result H. by apply RestoreSession_Restored, rs_status in H. Qed.

Lemma resumed_status b epoch at_ m a : resumeWithModule b epoch at_ m = Ok a -> s_Status a = StatusActive.
Proof.
  intros H. assert (exists adjust, resumeWithAdjustment b epoch at_ adjust = Ok a) as [adjust H'].
  { unfold resumeWithModule, Runtime.Resume in H. destruct (md_AdjustResumed m); by eexists. }
  unfold resumeWithAdjustment in H'. cbv zeta in H'. do 6 inv_result H'. inv_result H'. destruct value1 as [state shifted]. do 2 inv_result H'.
  destruct value1 as [timers deadline]. by apply RestoreSession_Restored, rs_status in H'.
Qed.

Lemma lifecycle_parts b a events commit : NewLifecycleCommit b a events = Ok commit -> lc_after commit = a /\ lc_before commit = b.
Proof. unfold NewLifecycleCommit. destruct (lifecycleShape b a) as [[? ?] ?]. intros H. do 2 inv_result H. by injection H as <-. Qed.

(** ** The handlers are safe *)
Lemma newOutboxEvent_safe eventType sid version at_ : safe (newOutboxEvent eventType sid version at_) ok_true.
Proof. unfold newOutboxEvent. safe_run. by destruct (Outbox.NewEvent _ _ _ _ _ _ _). Qed.
Hint Resolve newOutboxEvent_safe : safe.

Lemma prepareRoomFinish_safe roomID sid at_ : safe (prepareRoomFinish roomID sid at_) ok_true.
Proof. unfold prepareRoomFinish. safe_run. Qed.

Lemma commitSuspend_safe b epoch : safe (commitSuspend b epoch) ok_true.
Proof.
  unfold commitSuspend. safe_run.
  - cbn. apply ofRuntime_Ok in H. apply ofRuntime_Ok, lifecycle_parts in H1 as [-> _]. by rewrite (suspended_status _ _ _ _ H).
  - by destruct answer0 as [|[]].
Qed.
Hint Resolve prepareRoomFinish_safe commitSuspend_safe : safe.

Lemma suspendMissingModule_safe {A} b epoch : safe (@suspendMissingModule A b epoch) ok_true.
Proof. unfold suspendMissingModule. safe_run. Qed.

Lemma loadRoomSession_safe roomID sid : safe (loadRoomSession roomID sid) ok_true.
Proof. unfold loadRoomSession. safe_run. Qed.

Lemma defaultRuntimeModule_safe gameID : safe (defaultRuntimeModule gameID) ok_true.
Proof. unfold defaultRuntimeModule. safe_run. Qed.

Lemma resolveRuntimeModule_safe key : safe (resolveRuntimeModule key) ok_true.
Proof. unfold resolveRuntimeModule. safe_run. Qed.

Lemma resolveModule_safe key : safe (resolveModule key) ok_true.
Proof. unfold resolveModule. safe_run. by destruct answer. Qed.

Lemma acquire_safe b next : safe (acquire b next) ok_true.
Proof. unfold acquire. safe_run. by destruct answer as [|[]]. Qed.

Lemma checkedProjection_safe r : safe (checkedProjection r) ok_true.
Proof. unfold checkedProjection. safe_run. Qed.
Hint Resolve suspendMissingModule_safe loadRoomSession_safe defaultRuntimeModule_safe resolveRuntimeModule_safe resolveModule_safe acquire_safe
  checkedProjection_safe : safe.

Lemma replayStart_safe rc : safe (replayStart rc) ok_true.
Proof. unfold replayStart. safe_run. Qed.

Lemma newStart_safe command manifest m room :
  safe (newStart command manifest m room) (okay (fun '(_, _, commit, _) => BatchOK (cc_Batch commit))).
Proof.
  unfold newStart. safe_run. subst. cbn.
  match goal with E : ofRuntime (NewSession _) = Ok _ |- _ => apply ofRuntime_Ok, NewSession_Ok in E as [_ _ _ _ _ _ ? _] end. done.
Qed.
Hint Resolve replayStart_safe newStart_safe : safe.

Lemma Start_safe gated command : safe (Start gated command) ok_true.
Proof. unfold Start. safe_run; by eauto with safe. Qed.

(** The three moves: a commit with a validated batch. *)
Definition validated {R} : MoveCommit R * DeterministicContext -> Prop := fun '(commit, _) => BatchOK (batch commit).

Lemma newActionCommit_safe command op b m : safe (newActionCommit command op b m) (okay validated).
Proof.
  unfold newActionCommit. safe_run. subst. apply ofRuntime_Ok, action_batch in H2.
  apply ofRuntime_Ok in H5. unfold NewActionCommit in H5. inv_results H5. done.
Qed.

Lemma newTimerCommit_safe due epoch b m : safe (newTimerCommit due epoch b m) (okay validated).
Proof.
  unfold newTimerCommit. safe_run. subst. apply ofRuntime_Ok, timer_batch in H2.
  apply ofRuntime_Ok in H5. unfold NewTimerCommit in H5. inv_results H5. done.
Qed.

Lemma newSystemCommit_safe command key digest b handle : safe (newSystemCommit command key digest b handle) (okay validated).
Proof.
  unfold newSystemCommit. safe_run. subst. apply ofRuntime_Ok, system_batch in H2.
  apply ofRuntime_Ok in H5. unfold NewSystemCommit in H5. inv_results H5. done.
Qed.

Hint Resolve newActionCommit_safe newTimerCommit_safe newSystemCommit_safe : safe.

Lemma ofStore_ok {A} (r : RuntimeStore.sres A) : safe (Ret (ofStore r)) ok_true.
Proof. by destruct r as [|[]]. Qed.
Lemma ofGameStore_ok {A} (r : result RoomGameRepository.GameStoreError A) : safe (Ret (ofGameStore r)) ok_true.
Proof. by destruct r as [|[]]. Qed.
Hint Resolve ofStore_ok ofGameStore_ok : safe.

Lemma eqb_string_neq (a b : string) : String.eqb a b = false -> a <> b.
Proof. intros H ->. by rewrite String.eqb_refl in H. Qed.
Hint Resolve eqb_string_neq : safe.

Lemma commitAction_safe commit execution : BatchOK (batch commit) -> safe (commitAction commit execution) ok_true.
Proof. intros H. unfold commitAction. safe_run; eauto with safe; cbn; eauto with safe. Qed.

Lemma actionResult_safe m session rc user replayed : safe (actionResult m session rc user replayed) ok_true.
Proof. unfold actionResult. safe_run. Qed.
Hint Resolve commitAction_safe actionResult_safe : safe.

Lemma replayAction_safe command rc : safe (replayAction command rc) ok_true.
Proof. unfold replayAction. safe_run; eauto with safe. Qed.
Hint Resolve replayAction_safe : safe.

Lemma HandleAction_safe gated command : safe (HandleAction gated command) ok_true.
Proof. unfold HandleAction. safe_run; eauto with safe. Qed.

Lemma HandleTimer_safe due epoch : safe (HandleTimer due epoch) ok_true.
Proof. unfold HandleTimer. safe_run; eauto with safe; cbn; eauto with safe. Qed.

Lemma commitSystem_safe source commit execution : BatchOK (batch commit) -> safe (commitSystem source commit execution) ok_true.
Proof. intros H. unfold commitSystem. safe_run; eauto with safe; cbn; eauto with safe. Qed.
Hint Resolve commitSystem_safe : safe.

Lemma recompute_safe attempts command key digest : safe (recompute attempts command key digest) ok_true.
Proof. revert command. induction attempts as [|attempts IH]; intros command; cbn [recompute]; safe_run; eauto with safe. Qed.

Lemma authorizeCurrentHostSystem_safe sid actor : safe (authorizeCurrentHostSystem sid actor) ok_true.
Proof. unfold authorizeCurrentHostSystem. safe_run. Qed.
Hint Resolve recompute_safe authorizeCurrentHostSystem_safe : safe.

Lemma safe_if {A} (c : bool) (p q : Prog A) Q : safe p Q -> safe q Q -> safe (if c then p else q) Q.
Proof. by destruct c. Qed.
Lemma safe_done {A} (a : A) : safe (done a) ok_true.
Proof. done. Qed.
Hint Resolve safe_if safe_done : safe.

Lemma HandleSystem_safe command : safe (HandleSystem command) ok_true.
Proof. unfold HandleSystem. safe_run; eauto with safe. Qed.

Lemma PauseRoom_safe command : safe (PauseRoom command) ok_true.
Proof. unfold PauseRoom. safe_run; eauto with safe. Qed.

Lemma ResumeRoom_safe command : safe (ResumeRoom command) ok_true.
Proof. unfold ResumeRoom. safe_run; eauto with safe. Qed.

Lemma Suspend_safe sid epoch : safe (Suspend sid epoch) ok_true.
Proof. unfold Suspend. safe_run; eauto with safe. Qed.

Lemma Resume_safe sid epoch : safe (Resume sid epoch) ok_true.
Proof.
  unfold Resume. safe_run; eauto with safe; cbn; eauto with safe. apply ofRuntime_Ok in H1. apply ofRuntime_Ok, lifecycle_parts in H3 as [-> _].
  by rewrite (resumed_status _ _ _ _ _ H1).
Qed.

Lemma replayCancel_safe room command : safe (replayCancel room command) ok_true.
Proof. unfold replayCancel. safe_run. Qed.
Hint Resolve replayCancel_safe : safe.

Lemma Cancel_safe command : safe (Cancel command) ok_true.
Proof. unfold Cancel. safe_run; eauto with safe. Qed.

Lemma ProjectCurrent_safe sid viewer : safe (ProjectCurrent sid viewer) ok_true.
Proof. unfold ProjectCurrent. safe_run. Qed.

Lemma ProjectEventsCurrent_safe sid after viewer : safe (ProjectEventsCurrent sid after viewer) ok_true.
Proof. unfold ProjectEventsCurrent. safe_run. Qed.

Lemma readPages_safe fuel sid after batches : safe (readPages fuel sid after batches) ok_true.
Proof. revert after batches. induction fuel as [|fuel IH]; intros after batches; cbn [readPages]; safe_run; eauto with safe. Qed.

Lemma readReplayBatches_safe sid : safe (readReplayBatches sid) ok_true.
Proof. apply readPages_safe. Qed.
Hint Resolve readReplayBatches_safe : safe.

Lemma ProjectReplayCurrent_safe sid viewer policy : safe (ProjectReplayCurrent sid viewer policy) ok_true.
Proof. unfold ProjectReplayCurrent. safe_run. Qed.

(** What the consumer of room facts relies on of its executor. *)
Class SafeExecutor `{SystemInboxExecutor} : Prop := {
  EnsureOwned_safe sid : safe (EnsureOwned sid) ok_true;
  executeSystem_safe command : safe (executeSystem command) ok_true;
}.
Hint Resolve EnsureOwned_safe executeSystem_safe : safe.

Lemma Consume_safe `{SafeExecutor} fact digest : safe (Consume fact digest) ok_true.
Proof. unfold Consume. safe_run. Qed.

(** ** Requests in progress *)
Inductive Request :=
| ReqStart (gated : bool) (command : StartCommand)
| ReqAction (gated : bool) (command : ActionCommand)
| ReqTimer (due : DueTimer) (ownershipEpoch : Z)
| ReqSystem (command : SystemCommand)
| ReqPauseRoom (command : PauseRoomCommand)
| ReqResumeRoom (command : ResumeRoomCommand)
| ReqSuspend (sessionID : UUID) (ownershipEpoch : Z)
| ReqResume (sessionID : UUID) (ownershipEpoch : Z)
| ReqCancel (command : CancelCommand)
| ReqProject (sessionID : UUID) (viewer : Viewer)
| ReqProjectEvents (sessionID : UUID) (afterStateVersion : Z) (viewer : Viewer)
| ReqProjectReplay (sessionID : UUID) (viewer : Viewer) (policy : string)
| ReqConsume (fact : option RoomStore.ParticipantRevocationFact) (payloadDigest : Digest).

(** A request in progress is the rest of its program. *)
Inductive Task :=
| task {A : Type} (p : Prog A).

Section System.
Context `{SafeExecutor}.

Definition handle (request : Request) : Task :=
  match request with
  | ReqStart gated command => task (Start gated command)
  | ReqAction gated command => task (HandleAction gated command)
  | ReqTimer due epoch => task (HandleTimer due epoch)
  | ReqSystem command => task (HandleSystem command)
  | ReqPauseRoom command => task (PauseRoom command)
  | ReqResumeRoom command => task (ResumeRoom command)
  | ReqSuspend sid epoch => task (Suspend sid epoch)
  | ReqResume sid epoch => task (Resume sid epoch)
  | ReqCancel command => task (Cancel command)
  | ReqProject sid viewer => task (ProjectCurrent sid viewer)
  | ReqProjectEvents sid after viewer => task (ProjectEventsCurrent sid after viewer)
  | ReqProjectReplay sid viewer policy => task (ProjectReplayCurrent sid viewer policy)
  | ReqConsume fact digest => task (Consume fact digest)
  end.

(** A request arrives, makes its next call, or dies with its process at any
    point; the room service and the owners of sessions run beside it. *)
Inductive serve : Tables * list Room * list Task -> Tables * list Room * list Task -> Prop :=
| serve_arrival request t seen tasks : serve (t, seen, tasks) (t, seen, handle request :: tasks)
| serve_call t seen front rest {A} c (k : Answer c -> Prog A) r t' :
    answers c t r t' -> serve (t, seen, front ++ task (Do c k) :: rest) (t', seen, front ++ task (k r) :: rest)
| serve_end t seen front dead rest : serve (t, seen, front ++ dead :: rest) (t, seen, front ++ rest)
| serve_other t seen t' seen' tasks : game_step (t, seen) (t', seen') -> serve (t, seen, tasks) (t', seen', tasks).

Definition served (state : Tables * list Room * list Task) : Prop := rtc serve (emptyTables, [], []) state.

Definition safeTask (pending : Task) : Prop := match pending with task p => Safe p end.

Lemma safe_True {A} (p : Prog A) Q : safe p Q -> Safe p.
Proof. intros Hp. by eapply safe_weaken. Qed.

Lemma handle_safe request : safeTask (handle request).
Proof.
  destruct request; cbn; eapply safe_True;
    first [apply Start_safe|apply HandleAction_safe|apply HandleTimer_safe|apply HandleSystem_safe|apply PauseRoom_safe|apply ResumeRoom_safe
      |apply Suspend_safe|apply Resume_safe|apply Cancel_safe|apply ProjectCurrent_safe|apply ProjectEventsCurrent_safe
      |apply ProjectReplayCurrent_safe|apply Consume_safe].
Qed.

(** What a served state is, seen by the repositories. *)
Lemma served_game state : served state -> game_reachable state.1 /\ Forall safeTask state.2.
Proof.
  intros Hs. apply (rtc_ind_r (fun s => game_reachable s.1 /\ Forall safeTask s.2) (emptyTables, [], [])) in Hs; [done|split; [|constructor]|].
  - apply rtc_refl.
  - intros x y _ Hstep [Hr Hsafe]. destruct Hstep as [request t seen tasks|t seen front rest A c k r t' Ha|t seen front dead rest|
      t seen t' seen' tasks Hg]; cbn [fst snd] in *.
    + split; [done|]. constructor; [apply handle_safe|done].
    + apply Forall_app in Hsafe as [Hf [[Hc Hk] Hrest]%Forall_cons]. split.
      * unfold game_reachable in *. etrans; [exact Hr|]. by eapply call_step.
      * apply Forall_app. split; [done|]. by constructor; [apply Hk|].
    + split; [done|]. rewrite Forall_app, Forall_cons in Hsafe. destruct Hsafe as (Hf & _ & Hrest). by apply Forall_app.
    + split; [|done]. by eapply rtc_r.
Qed.
End System.

End ServiceSystem.
