(* ===== verification/ServiceRuns.v ===== *)
(** * The session service: one request

    The run of one program while other requests step in between, and what the
    handlers of actions leave behind. *)

From stdpp Require Import gmap relations.
From S2P Require Import Prelude GoLib Sha256 Selector GameManifest GameContract Outbox Room RoomStore Runtime RuntimeFacts RuntimeMoves RuntimeCommit RuntimeCommands RuntimeStore RuntimeQueries RuntimeRepository RuntimeStoreFacts RuntimeStoreEffects RuntimeStoreInvariant RuntimeStoreProgress RoomGameRepository RoomGameFacts RoomGameInvariant RoomGameTheorems DurableHistory RuntimeService ServiceSystem.

Module ServiceRuns.
Import GoLib Selector GameManifest GameContract Runtime RuntimeFacts RuntimeMoves RuntimeCommit RuntimeCommands RuntimeStore RuntimeQueries
  RuntimeRepository RuntimeStoreFacts RuntimeStoreEffects RuntimeStoreInvariant RuntimeStoreProgress RoomGameFacts RoomGameInvariant RoomGameTheorems DurableHistory RuntimeService
  ServiceSystem.

(** ** Runs *)
Abbreviation state := (Tables * list Room)%type.

(** A module the service is given is the one the registry of the process has
    under that very version key. *)
Abbreviation ModuleRegistry := (Registry (GameModule := GameModule)).

Definition registered (registry : ModuleRegistry) (c : Call) : Answer c -> Prop :=
  match c return Answer c -> Prop with
  | CallResolve key => fun r => forall m, r = Ok m -> Resolve registry key = Ok m
  | _ => fun _ => True
  end.

(** A program of a process with registry [registry]; any steps of other requests
    come before each call. *)
Fixpoint runs {A : Type} (registry : ModuleRegistry) (p : Prog A) (s : state) (out : A) (s' : state) : Prop :=
  match p with
  | Ret a => out = a /\ s' = s
  | Do c k => exists t seen r t', rtc game_step s (t, seen) /\ answers c t r t' /\ registered registry c r /\
      runs registry (k r) (t', seen) out s'
  end.

Section Runs.
Context {registry : ModuleRegistry}.
#[local] Abbreviation runs := (runs registry).

Lemma runs_bind_inv {A B} (m : Prog A) (f : A -> Prog B) s out s' :
  runs (prog_bind m f) s out s' -> exists a s1, runs m s a s1 /\ runs (f a) s1 out s'.
Proof.
  revert s. induction m as [a|c k IH]; intros s H; [by exists a, s|]. destruct H as (t & seen & r & t' & Ho & Ha & Hr & H).
  apply IH in H as (a & s1 & H1 & H2). exists a, s1. split; [|done]. by exists t, seen, r, t'.
Qed.

Lemma runs_try_inv {A B} (m : svc A) (f : A -> svc B) s b s' :
  runs (try m f) s (Ok b) s' -> exists a s1, runs m s (Ok a) s1 /\ runs (f a) s1 (Ok b) s'.
Proof. intros ([a|e] & s1 & H1 & H2)%runs_bind_inv; [by exists a, s1|]. by destruct H2. Qed.

Lemma runs_check_inv {A B} (r : result ServiceError A) (f : A -> svc B) s b s' :
  runs (try (Ret r) f) s (Ok b) s' -> exists a, r = Ok a /\ runs (f a) s (Ok b) s'.
Proof. intros (a & s1 & [<- ->] & H)%runs_try_inv. by exists a. Qed.

(** A run of a safe program is a sequence of steps of the system. *)
Lemma runs_steps {A} (p : Prog A) Q s out s' : safe p Q -> runs p s out s' -> rtc game_step s s' /\ Q out.
Proof.
  revert s. induction p as [a|c k IH]; intros s Hp H; [by destruct H as [-> ->]|]. destruct Hp as [Hc Hk].
  destruct H as (t & seen & r & t' & Ho & Ha & Hr & H). destruct (IH r (t', seen) (Hk r) H) as [Hs HQ]. split; [|done].
  etrans; [exact Ho|]. etrans; [by eapply call_step|exact Hs].
Qed.
End Runs.

(** ** Action receipts *)
Lemma game_reachable_keyed s : game_reachable s -> rowsKeyed s.1.
Proof. intros [Hok _]%game_reachable_ok. exact (si_keyed _ (st_sessions _ (go_store _ Hok))). Qed.

Lemma Replay_digest rc digest rc' : ActionReceipt_Replay rc digest = Ok rc' -> ac_RequestDigest rc = digest.
Proof. unfold ActionReceipt_Replay. intros H. inv_results H. by apply negb_false_iff, Digest_eqb_eq in E. Qed.

Definition receiptKey (key : ActionKey) : UUID * UUID * string := (ak_SessionID key, ak_ActorUserID key, Value (ak_ActionID key)).

Lemma lockActionReceiptFence_reading fault key : reading (lockActionReceiptFence fault key).
Proof. unfold lockActionReceiptFence, requireParticipant, GetGameSessionRoomID, GetPartyRoomForUpdate, GetRoomMemberRole. reads. Qed.

Lemma GetActionReceipt_inv fault key digest t rc t' : GetActionReceipt fault key digest t = (Ok rc, t') ->
  exists row, action_receipts t !! receiptKey key = Some row /\ actionReceiptFromRow row = Ok rc /\ ac_RequestDigest rc = digest.
Proof.
  intros H. pose proof (GetActionReceipt_reads _ _ _ _ _ _ H) as ->. apply guard_inv in H as [(e & ? & _)|[_ H]]; [done|].
  apply finish_inv in H as [n H]. step H u Hf. apply lockActionReceiptFence_reading in Hf as ->.
  step H row Hr. apply one_inv, query_inv in Hr as [Hr ->]. step H rc1 H1. apply tx_lift_inv in H1 as (H1 & -> & ->).
  step H rc2 H2. apply tx_lift_inv in H2 as (H2 & -> & ->). apply tx_ret_inv in H as (-> & _ & _).
  exists row. split_and!; [done|done|by eapply Replay_digest].
Qed.

(** What the service puts into an action's commit. *)
Record actionMade (command : ActionCommand) (op : OperationID) (b : Session) (commit : ActionCommit) : Prop := {
  am_batch : BatchOK (batch commit);
  am_valid : ActionCommit_Valid commit = true;
  am_before : before commit = b;
  am_key : ac_Key (receipt commit) = mkActionKey (acm_SessionID command) (acm_ActorUserID command) op;
  am_receipt : NewActionReceipt (receipt commit) = Ok (receipt commit);
  am_request : ac_RequestDigest (receipt commit) = actionDigest command;
  am_result : NewDigest (ac_ResultDigest (receipt commit)) = Ok (ac_ResultDigest (receipt commit));
}.

Lemma NewDigest_hash written : NewDigest (digestFromHash written) = Ok (digestFromHash written).
Proof. unfold NewDigest, digestFromHash. by rewrite Sha256.Sum256_length. Qed.

Lemma NewActionReceipt_idem source rc : NewActionReceipt source = Ok rc -> NewActionReceipt rc = Ok rc.
Proof.
  unfold NewActionReceipt. cbv zeta. intros H. inv_result H. injection H as <-. cbn in *. rewrite canonicalRuntimeTime_idem. by rewrite E.
Qed.

Lemma newActionCommit_made command op b m : safe (newActionCommit command op b m) (okay (fun '(commit, _) => actionMade command op b commit)).
Proof.
  unfold newActionCommit. safe_run. subst. apply ofRuntime_Ok, action_batch in H2.
  apply ofRuntime_Ok in H5. assert (a5 = mkCommit b s e a3 [a4]) as -> by (unfold NewActionCommit in H5; by inv_results H5).
  apply ofRuntime_Ok in H3. pose proof (NewActionReceipt_idem _ _ H3) as Hi. unfold NewActionReceipt in H3. cbv zeta in H3. inv_result H3.
  injection H3 as <-. constructor; first [apply NewDigest_hash|done|unfold ActionCommit_Valid; cbn; by rewrite H5].
Qed.

(** The receipt a successful commit of an action answers is the stored one, the
    action is new only if none was stored, and the session it answers with is one
    that was stored. *)
Definition actionStored (commit : ActionCommit) (r : ActionCommitResult) (t t' : Tables) : Prop :=
  (exists row, action_receipts t' !! actionKeyOf commit = Some row /\ actionReceiptFromRow row = Ok (ar_Receipt r)) /\
  ac_RequestDigest (ar_Receipt r) = ac_RequestDigest (receipt commit) /\
  (ar_Replayed r = false -> action_receipts t !! actionKeyOf commit = None) /\
  exists t1, durable t t1 /\ loadSession t1 (s_ID (before commit)) = Some (ar_Session r).

Section Commits.
Context (fault : nat -> option DbError) (ctxDone : bool) (command : ActionCommand) (op : OperationID) (b : Session) (commit : ActionCommit).
Hypothesis Hop : ParseOperationID (acm_ActionID command) = Ok op.
Hypothesis Hmade : actionMade command op b commit.

Lemma locked_stored t n r t' n' : GamesOK t ->
  commitActionAfterRoomLock fault ctxDone commit (t, n) = Ok (r, (t', n')) -> actionStored commit r t t'.
Proof.
  intros Hok H. pose proof (commitActionAfterRoomLock_keeps _ _ _ _ _ _ _ _ H) as Hkeep.
  pose proof (st_sessions _ (go_store _ Hok)) as Hs. destruct Hmade as [_ Hv _ Hkey Hr Hq Hres].
  apply commitActionAfterRoomLock_inv in H as (current & Hload & [(Hrep & -> & Hsess & row & Hrow & Hrc & Hd)|
    (Hrep & Hrc & Hnone & Ea & _ & _ & row & Hf)]); [| |by apply Hs|done].
  - unfold actionStored. rewrite Hrep. split_and!; [by exists row|done|done|]. exists t. split; [done|congruence].
  - split_and!; [|by rewrite Hrc|done|exists t'; split; [done|apply Hf]]. exists (actionReceiptRow (receipt commit)). rewrite Ea, lookup_insert_eq, Hrc. split; [done|].
    apply ActionCommit_facts in Hv as (Hm & _ & _ & _ & _ & Ever & _).
    destruct (fresh_versions _ _ _ _ _ _ _ _ _ _ Hs Hm Hload Hf) as [_ Hwa].
    pose proof (ParseOperationID_Ok _ _ Hop) as [Hval _]. apply receipt_roundtrip. constructor; [done|by rewrite Hkey; cbn; rewrite Hval|
      by rewrite Hq; apply NewDigest_hash|done|]. rewrite Ever. split; [|done].
    destruct Hf as (_ & _ & Had & Hst). apply loadSession_row in Hst as (row1 & Hrow1 & Hl1). apply loaded_numbers in Hl1 as (_ & _ & _ & Hpos & _).
    rewrite (ad_sessions _ _ _ _ _ _ _ Had), lookup_insert_eq in Hrow1. injection Hrow1 as <-. cbn in Hpos.
    pose proof (mo_version _ _ _ Hm) as Hver. rewrite Hver in *. pose proof (u64_range (StateVersion (s_State (before commit)) + 1)).
    rewrite i64_id in Hpos; [done|]. lia.
Qed.

Lemma CommitAction_stored t r t' : GamesOK t -> CommitAction fault ctxDone commit t = (Ok r, t') -> actionStored commit r t t'.
Proof.
  intros Hok H. pose proof (si_keyed _ (st_sessions _ (go_store _ Hok))) as Hk.
  apply CommitAction_inv in H as (_ & _ & _ & n & n' & H); [|done]. by eapply locked_stored.
Qed.

Lemma FinishAction_stored before_ after_ t room r t' :
  GamesOK t -> RoomGameRepository.FinishAction fault ctxDone before_ after_ commit t = (Ok (room, r), t') -> actionStored commit r t t'.
Proof.
  intros Hok H. pose proof (si_keyed _ (st_sessions _ (go_store _ Hok))) as Hk. pose proof (am_valid _ _ _ _ Hmade) as Hv.
  apply ActionCommit_facts in Hv as (_ & _ & Esid & _). apply game_guard_inv in H as [(e & ? & _)|[_ H]]; [done|].
  apply game_check_inv in H as [(e & ? & _)|([] & _ & H)]; [done|]. apply game_finish_inv in H as [n H].
  step H locked Hl. apply lockRoomForUpdate_inv in Hl as (-> & _). step H u Hu. apply requireParticipant_same in Hu as ->.
  destruct (negb (RoomGameRepository.sameRoomSnapshot locked before_)).
  - step H r1 Hr. pose proof (replayAction_same _ _ _ _ _ _ _ Hk Hr) as ->. apply tx_ret_inv in H as ([= -> ->] & -> & _).
    step Hr current Hc. apply getGameSessionForUpdate_inv in Hc as [-> Hload]; [|done].
    step Hr row Hrow. apply one_or_inv, query_inv in Hrow as [Hrow ->]. step Hr stored Hs. apply tx_lift_inv in Hs as (Hs & -> & ->).
    step Hr again Ha. apply tx_lift_inv in Ha as (Ha & -> & ->). destruct (negb _); [done|]. apply tx_ret_inv in Hr as (-> & _ & _).
    split_and!; cbn; [|by eapply Replay_digest|done|by exists t]. exists row. split; [|done]. unfold actionKeyOf. by rewrite <- Esid.
  - step H r1 Hr. pose proof (locked_stored _ _ _ _ _ Hok Hr) as Hst. destruct (_ || _); [done|].
    step H stored Hfin. apply tx_ret_inv in H as ([= -> ->] & -> & _). destruct Hst as ((row & Hrow & Hrc) & Hd & Hf & Hs).
    split_and!; [|done|done|done]. exists row. split; [|done].
    eapply lookup_weaken; [exact Hrow|]. by eapply k_actions, finishPartyRoom_keeps.
Qed.
End Commits.

(** ** Actions *)

(** What an answered action says of the tables: its receipt is the stored one and
    belongs to this request, and the action is new only if none was stored. *)
Record actionAnswered (command : ActionCommand) (r : ActionResult) (t t' : Tables) : Prop := {
  aa_stored : exists row, action_receipts t' !! (acm_SessionID command, acm_ActorUserID command, acm_ActionID command) = Some row /\
    actionReceiptFromRow row = Ok (sv_Receipt r);
  aa_request : ac_RequestDigest (sv_Receipt r) = actionDigest command;
  aa_new : sv_Replayed r = false ->
    action_receipts t !! (acm_SessionID command, acm_ActorUserID command, acm_ActionID command) = None;
}.

(** Later steps keep an answer true, earlier ones do not make an action new. *)
Lemma actionAnswered_later command r t0 t t' t1 : durable t0 t -> durable t' t1 -> actionAnswered command r t t' -> actionAnswered command r t0 t1.
Proof.
  intros H0 H1 [(row & Hrow & Hrc) Hq Hn]. constructor; [|done|].
  - exists row. split; [|done]. by eapply lookup_weaken; [|apply H1].
  - intros Hrep. specialize (Hn Hrep). destruct (action_receipts t0 !! _) as [row0|] eqn:E; [|done].
    pose proof (lookup_weaken _ _ _ _ E (k_actions _ _ H0)). congruence.
Qed.

Section Handled.
Context {registry : ModuleRegistry}.
#[local] Abbreviation runs := (runs registry).

Lemma runs_durable {A} (p : Prog A) Q s out s' : safe p Q -> runs p s out s' -> durable s.1 s'.1.
Proof. intros Hp [H _]%(runs_steps _ _ _ _ _ Hp). by apply game_steps_durable. Qed.

Lemma actionResult_runs m session rc user replayed s r s' :
  runs (actionResult m session rc user replayed) s (Ok r) s' ->
  s' = s /\ sv_Receipt r = rc /\ sv_Replayed r = replayed /\ sv_Session r = session /\ projectPlayer m session user = Ok (sv_Projection r).
Proof.
  unfold actionResult. intros (projection & Hp & [[= ->] ->])%runs_check_inv. apply ofRuntime_Ok in Hp. done.
Qed.

Lemma made_session command op b commit : actionMade command op b commit -> s_ID (before commit) = acm_SessionID command.
Proof.
  intros Hm. pose proof (am_valid _ _ _ _ Hm) as Hv. apply ActionCommit_facts in Hv as (_ & _ & Esid & _).
  by rewrite <- Esid, (am_key _ _ _ _ Hm).
Qed.

Lemma actionKey_receipt command op b commit : ParseOperationID (acm_ActionID command) = Ok op -> actionMade command op b commit ->
  actionKeyOf commit = (acm_SessionID command, acm_ActorUserID command, acm_ActionID command).
Proof.
  intros Hop Hm. unfold actionKeyOf. rewrite (made_session _ _ _ _ Hm), (am_key _ _ _ _ Hm). cbn. by destruct (ParseOperationID_Ok _ _ Hop) as [-> _].
Qed.

Lemma commitAction_runs command op b commit execution s r s' :
  game_reachable s -> ParseOperationID (acm_ActionID command) = Ok op -> actionMade command op b commit ->
  runs (commitAction commit execution) s (Ok r) s' ->
  exists t, durable s.1 t /\ actionStored commit r t s'.1.
Proof.
  intros Hreach Hop Hm H. unfold commitAction in H. destruct (String.eqb _ _).
  - apply runs_try_inv in H as ([room nextRoom] & s1 & H1 & H). pose proof (runs_steps _ _ _ _ _ (prepareRoomFinish_safe _ _ _) H1) as [Hs1 _].
    destruct H as (t & seen & answer & t' & Ho & (fault & ctxDone & Ha) & _ & H). apply runs_check_inv in H as ([room' result] & Hr & [[= ->] ->]).
    destruct answer as [[room1 result1]|[]]; try done. injection Hr as -> ->. exists t.
    assert (rtc game_step s (t, seen)) as Hall by (by etrans). split; [exact (game_steps_durable _ _ Hall)|].
    eapply FinishAction_stored; [exact Hop|exact Hm| |exact Ha].
    assert (game_reachable (t, seen)) as [Hok _]%game_reachable_ok by (unfold game_reachable in *; by etrans). exact Hok.
  - destruct H as (t & seen & answer & t' & Ho & (fault & ctxDone & Ha) & _ & [Hr ->]). destruct answer as [result|[]]; try done. injection Hr as ->.
    exists t. split; [exact (game_steps_durable _ _ Ho)|].
    eapply CommitAction_stored; [exact Hop|exact Hm| |exact Ha].
    assert (game_reachable (t, seen)) as [Hok _]%game_reachable_ok by (unfold game_reachable in *; by etrans). exact Hok.
Qed.

Lemma suspendMissingModule_runs {A} b epoch s (r : A) s' : ~ runs (suspendMissingModule b epoch) s (Ok r) s'.
Proof. unfold suspendMissingModule. by intros (x & s1 & _ & [? _])%runs_try_inv. Qed.

Lemma getSession_runs sid s session s' : runs (getSession sid) s (Ok session) s' ->
  exists t seen, s' = (t, seen) /\ rtc game_step s s' /\ loadSession t sid = Some session.
Proof.
  intros (t & seen & answer & t' & Ho & (fault & Ha) & _ & [Hr ->]). pose proof (Get_reads _ _ _ _ _ Ha) as ->.
  destruct answer as [x|[]]; try done. injection Hr as ->. exists t, seen. split_and!; [done|done|by eapply Get_inv].
Qed.

(** The projection of a result is the player's, by the module that is registered
    for the session's own release. *)
Definition projectedFor (command : ActionCommand) (r : ActionResult) : Prop :=
  exists m, Resolve registry (s_VersionKey (sv_Session r)) = Ok m /\
    projectPlayer m (sv_Session r) (acm_ActorUserID command) = Ok (sv_Projection r).

Lemma replayAction_runs command rc s r s' : runs (replayAction command rc) s (Ok r) s' ->
  sv_Receipt r = rc /\ sv_Replayed r = true /\ rtc game_step s s' /\ projectedFor command r.
Proof.
  intros H. destruct (runs_steps _ _ _ _ _ (replayAction_safe _ _) H) as [Hsteps _]. unfold replayAction in H.
  apply runs_try_inv in H as (current & s1 & _ & H). destruct H as (t & seen & answer & t' & _ & _ & Hm & H). destruct answer as [m|e].
  - apply actionResult_runs in H as (_ & -> & -> & <- & Hp). split_and!; try done. exists m. split; [by apply Hm|done].
  - destruct (String.eqb _ _); [by apply suspendMissingModule_runs in H|by destruct H].
Qed.

Lemma HandleAction_runs gated command s r s' :
  game_reachable s -> runs (HandleAction gated command) s (Ok r) s' ->
  actionAnswered command r s.1 s'.1 /\ projectedFor command r.
Proof.
  intros Hreach H. unfold HandleAction in H. destruct (actionInputInvalid command); [by destruct H|].
  apply runs_try_inv in H as (u1 & s1 & H1 & H). apply (runs_steps _ _ _ _ _ (checkGate_safe _)) in H1 as [H1 _]. cbv zeta in H.
  apply runs_try_inv in H as (u2 & s2 & H2 & H). apply (runs_steps _ _ _ _ _ (checkDigest_safe _ _)) in H2 as [H2 _].
  destruct (ParseOperationID (acm_ActionID command)) as [op|] eqn:Hop; [|by destruct H].
  destruct H as (t & seen & answer & t' & H3 & (fault & Ha) & _ & H). pose proof (GetActionReceipt_reads _ _ _ _ _ _ Ha) as ->.
  assert (rtc game_step s (t, seen)) as Hst by (etrans; [exact H1|by etrans]). pose proof (game_steps_durable _ _ Hst) as Hd. cbn in Hd.
  destruct (ofStore answer) as [rc|e] eqn:Eanswer.
  - destruct answer as [rc'|[]]; try done. injection Eanswer as ->. apply GetActionReceipt_inv in Ha as (row & Hrow & Hrc & Hq).
    apply replayAction_runs in H as (Er & Erep & Hsteps & Hp). split; [|done]. apply game_steps_durable in Hsteps. cbn in Hsteps.
    eapply actionAnswered_later; [exact Hd|exact Hsteps|]. constructor; [|by rewrite Er|by rewrite Erep].
    exists row. rewrite Er. split; [|done]. unfold receiptKey in Hrow. cbn in Hrow. by rewrite (proj1 (ParseOperationID_Ok _ _ Hop)) in Hrow.
  - destruct (negb (isError e _)); [by destruct H|]. apply runs_try_inv in H as (b & s3 & H4 & H).
    apply getSession_runs in H4 as (tb & seenb & -> & H4 & Hload).
    destruct (_ || _) eqn:Ekey; [by destruct H|]. apply orb_false_iff in Ekey as [Ekey%negb_false_iff%bool_decide_eq_true _].
    destruct (String.eqb _ _); [by destruct H|]. destruct (Terminal _); [by destruct H|].
    destruct H as (t1 & seen1 & answer1 & t1' & H5 & -> & Hm & H). destruct answer1 as [m|]; [|by apply suspendMissingModule_runs in H].
    apply runs_try_inv in H as ([commit execution] & s4 & H6 & H).
    apply (runs_steps _ _ _ _ _ (newActionCommit_made _ _ _ _)) in H6 as [H6 Hmade].
    apply runs_try_inv in H as (committed & s5 & H7 & H). apply actionResult_runs in H as (-> & Er & Erep & Es & Hp).
    assert (rtc game_step s s4) as Hall by (etrans; [exact Hst|]; etrans; [exact H4|]; by etrans).
    eapply commitAction_runs in H7 as (t2 & Hd2 & Hstored); [|unfold game_reachable in *; by etrans|exact Hop|exact Hmade].
    unfold actionStored in Hstored. rewrite (actionKey_receipt _ _ _ _ Hop Hmade) in Hstored. destruct Hstored as (Hrow & Hq & Hnew & t3 & Hd3 & Hlast).
    split.
    2:{ exists m. rewrite Es. split; [|done]. rewrite (made_session _ _ _ _ Hmade) in Hlast.
      assert (durable tb t3) as Hkept.
      { etrans; [|exact Hd3]. etrans; [|exact Hd2]. apply (game_steps_durable (tb, seenb)). by etrans. }
      rewrite (release_kept _ _ _ _ _ Hkept Hload Hlast), Ekey. by apply Hm. }
    eapply (actionAnswered_later _ _ _ t2); [etrans; [exact (game_steps_durable _ _ Hall)|exact Hd2]|reflexivity|].
    constructor; [by rewrite Er|rewrite Er, Hq; exact (am_request _ _ _ _ Hmade)|by rewrite Erep].
Qed.

End Handled.

(** ** Runs without interference

    The same with given answers: [now], identifiers in order, one seed, the
    modules of a registry and no failures. *)
Record Oracle := mkOracle {
  o_now : Time;
  o_ids : nat -> UUID;
  o_seed : list Z;
  o_state : option MaintenanceState;
  o_registry : ModuleRegistry;
  o_defaults : string -> option GameModule;
  o_names : UUID -> option (string * string);
}.

Definition noRoomFault (n : nat) : option RoomStore.DbError := None.

Definition perform (o : Oracle) (n : nat) (c : Call) (t : Tables) : Answer c * Tables :=
  match c return Answer c * Tables with
  | CallGate => (checkUserMutation (o_state o), t)
  | CallNow => (o_now o, t)
  | CallNewID => (Some (o_ids o n), t)
  | CallNewExecution at_ => (secureExecution at_ (Some (o_seed o)) (fun i => Some (o_ids o n + 1000 + Z.of_nat i)), t)
  | CallDefaultManifest gameID =>
      (match o_defaults o gameID with Some m => Ok (md_Manifest m) | None => Err (InRegistry ErrGameNotRegistered) end, t)
  | CallDefaultModule gameID => (match o_defaults o gameID with Some m => Ok m | None => Err (InRegistry ErrGameNotRegistered) end, t)
  | CallResolve key => (match Resolve (o_registry o) key with Ok m => Ok m | Err e => Err (InRegistry e) end, t)
  | CallRoom id => (RoomStore.GetByID noRoomFault false id (rooms t), t)
  | CallGet id => Get noFault id t
  | CallAcquire b next => AcquireOwnershipCAS noFault b next t
  | CallActionReceipt key digest => GetActionReceipt noFault key digest t
  | CallCommitAction commit => CommitAction noFault false commit t
  | CallTimerReceipt key => GetTimerReceipt noFault key t
  | CallCommitTimer commit => CommitTimer noFault false commit t
  | CallSystemReceipt key digest => GetSystemReceipt noFault key digest t
  | CallCommitSystem commit => CommitSystem noFault false commit t
  | CallSystemNoop key digest at_ => CompleteSystemNoop noFault key digest at_ t
  | CallLifecycle commit => CommitLifecycle noFault false commit t
  | CallBatches sid after limit => ReadEventBatches noFault sid after limit t
  | CallInbox key digest => GetSystemInbox noFault key digest t
  | CallCompleteInbox key digest version at_ => CompleteSystemInbox noFault key digest version at_ t
  | CallStartReceipt key digest => RoomGameRepository.GetStartReceipt noFault key digest t
  | CallStart b a commit rc => RoomGameRepository.Start noFault false (o_names o) b a commit rc t
  | CallFinishAction b a commit => RoomGameRepository.FinishAction noFault false b a commit t
  | CallFinishTimer b a commit => RoomGameRepository.FinishTimer noFault false b a commit t
  | CallFinishSystem b a actor commit => RoomGameRepository.FinishSystem noFault false b a actor commit t
  | CallSuspend b a commit => RoomGameRepository.Suspend noFault false (o_names o) b a commit t
  | CallResume b a commit => RoomGameRepository.Resume noFault false (o_names o) b a commit t
  | CallCancel b a commit => RoomGameRepository.Cancel noFault false (o_names o) b a commit t
  end.

Lemma perform_answers o n c t : answers c t (perform o n c t).1 (perform o n c t).2.
Proof.
  destruct c; cbn [answers perform fst snd]; try done;
    first [by eauto|eexists; apply surjective_pairing|do 2 eexists; apply surjective_pairing|do 3 eexists; apply surjective_pairing].
Qed.

Lemma perform_registered o n c t : registered (o_registry o) c (perform o n c t).1.
Proof. destruct c; cbn [registered perform fst]; try done. intros m. destruct (Resolve _ _); [by intros [= ->]|done]. Qed.

Fixpoint run {A} (o : Oracle) (n : nat) (p : Prog A) (t : Tables) : A * Tables :=
  match p with
  | Ret a => (a, t)
  | Do c k => let '(answer, t') := perform o n c t in run o (S n) (k answer) t'
  end.

Lemma run_runs {A} o n (p : Prog A) t seen : runs (o_registry o) p (t, seen) (run o n p t).1 ((run o n p t).2, seen).
Proof.
  revert n t. induction p as [a|c k IH]; intros n t; [done|]. cbn [run runs].
  pose proof (perform_answers o n c t) as Ha. pose proof (perform_registered o n c t) as Hr.
  destruct (perform o n c t) as [answer t']. exists t, seen, answer, t'. split_and!; [reflexivity|exact Ha|exact Hr|apply IH].
Qed.

Lemma run_bind {A B} o n (m : Prog A) (f : A -> Prog B) t : exists n', run o n (prog_bind m f) t = run o n' (f (run o n m t).1) (run o n m t).2.
Proof.
  revert n t. induction m as [a|c k IH]; intros n t; [by exists n|]. cbn [run prog_bind]. destruct (perform o n c t) as [answer t'].
  apply IH.
Qed.

(** ** Replays *)

(** A batch as it is read from the tables. *)
Definition storedBatch (t : Tables) (sid : UUID) (batch : EventBatch) : Prop :=
  exists id row, event_batches t !! id = Some row /\ br_SessionID row = Some sid /\
    eventBatchFromRows row (merge_sort event_before (eventsOf t (default Nil (br_BatchID row)))) = Ok batch.

Lemma readBatches_inv fault rows t n batches t' n' : readBatches fault rows (t, n) = Ok (batches, (t', n')) ->
  Forall2 (fun row batch => eventBatchFromRows row (merge_sort event_before (eventsOf t (default Nil (br_BatchID row)))) = Ok batch) rows batches.
Proof.
  revert n batches t' n'. induction rows as [|row rest IH]; intros n batches t' n' H; cbn [readBatches] in H.
  - apply tx_ret_inv in H as (-> & _). constructor.
  - step H events He. apply query_inv in He as [-> ->]. step H bt Hb. apply tx_lift_inv in Hb as (Hb & -> & ->).
    step H others Ho. apply tx_ret_inv in H as (-> & _). constructor; [done|]. by eapply IH.
Qed.

Lemma ReadEventBatches_inv fault sid after limit t batches t' :
  ReadEventBatches fault sid after limit t = (Ok batches, t') -> Forall (storedBatch t sid) batches /\ len batches <= maxInt32.
Proof.
  intros H. apply guard_inv in H as [(e & ? & _)|[_ H]]; [done|]. apply finish_inv in H as [n H].
  step H rows Hr. apply query_inv in Hr as [-> ->]. apply readBatches_inv in H. split.
  2:{ unfold len. rewrite <- (Forall2_length _ _ _ H), length_take. unfold RoomStore.i32, maxInt32.
      pose proof (Z.mod_pos_bound (limit + 2147483648) 4294967296). lia. }
  rewrite Forall_forall. intros batch Hin.
  apply list_elem_of_lookup in Hin as [i Hi]. eapply Forall2_lookup_r in H as (row & Hrow & Hload); [|exact Hi].
  apply list_elem_of_lookup_2, elem_of_take in Hrow as (j & Hj & _). apply list_elem_of_lookup_2 in Hj.
  rewrite merge_sort_Permutation in Hj. apply list_elem_of_filter in Hj as [[Hsid _] Hj].
  apply list_elem_of_fmap in Hj as ([id row'] & -> & Hj%elem_of_map_to_list). by exists id, row'.
Qed.

(** What was read, before the state the request ends in. *)
Definition readBefore (t' : Tables) (sid : UUID) (batch : EventBatch) : Prop := exists t, durable t t' /\ storedBatch t sid batch.

Lemma readPages_runs registry fuel sid after batches s out s' :
  runs registry (readPages fuel sid after batches) s (Ok out) s' ->
  exists pages, out = batches ++ pages /\ Forall (readBefore s'.1 sid) pages /\ len pages <= maxInt32 * Z.of_nat fuel.
Proof.
  assert (forall f, exists pages : list EventBatch, batches = batches ++ pages /\ Forall (readBefore s'.1 sid) pages /\
    len pages <= maxInt32 * Z.of_nat f) as Hnone by (intros f; exists []; rewrite app_nil_r; split_and!; [done|done|unfold len, maxInt32; cbn; lia]).
  revert after batches s Hnone. induction fuel as [|fuel IH]; intros after batches s Hnone H; cbn [readPages] in H.
  - by destruct H as [[= ->] _].
  - destruct (_ <? _); [by destruct H as [[= ->] _]|]. cbv zeta in H.
    destruct H as (t & seen & answer & t' & _ & (fault & Ha) & _ & H). pose proof (ReadEventBatches_reads _ _ _ _ _ _ _ Ha) as ->.
    apply runs_check_inv in H as (page & Hp & H). destruct answer as [page'|[]]; try done. injection Hp as ->.
    apply ReadEventBatches_inv in Ha as [Ha Hlen]. destruct (_ <? _); [by destruct H|].
    destruct (last page) as [final|] eqn:El; [|by destruct H as [[= ->] _]].
    destruct (_ <=? _); [by destruct H|]. destruct (_ <? _).
    + destruct H as [[= ->] ->]. exists page. split_and!; [done| |unfold maxInt32 in *; lia].
      eapply Forall_impl; [exact Ha|]. intros batch Hb. by exists t.
    + pose proof (runs_durable _ _ _ _ _ (readPages_safe _ _ _ _) H) as Hd. cbn in Hd. apply IH in H as (pages & -> & Hf & Hl).
      2:{ intros f. exists []. rewrite app_nil_r. split_and!; [done|done|unfold len, maxInt32; cbn; lia]. }
      exists (page ++ pages). rewrite app_assoc. split_and!; [done| |unfold len, maxInt32 in *; rewrite length_app; lia].
      apply Forall_app. split; [|done]. eapply Forall_impl; [exact Ha|]. intros batch Hb. by exists t.
Qed.

(** The events of the batches, within the limits. *)
Definition payloadTotal (events : list Event) : Z := foldr (fun event total => len (Payload (ev_Message event)) + total) 0 events.

Lemma payloadTotal_app l l' : payloadTotal (l ++ l') = payloadTotal l + payloadTotal l'.
Proof. unfold payloadTotal. induction l as [|e l IH]; cbn [app foldr]; [done|]. lia. Qed.

Lemma addEvents_inv events added events' bytes' : addEvents (payloadTotal events) events added = Some (bytes', events') ->
  len events <= maximumReplayEvents -> payloadTotal events <= maximumReplayPayloadBytes ->
  events' = events ++ added /\ bytes' = payloadTotal events' /\ len events' <= maximumReplayEvents /\ bytes' <= maximumReplayPayloadBytes.
Proof.
  revert events. induction added as [|event rest IH]; intros events H Hn Hb; cbn [addEvents] in H.
  - injection H as <- <-. by rewrite app_nil_r.
  - destruct (_ <=? _) eqn:E1; [done|]. destruct (_ <? _) eqn:E2; [done|]. to_prop.
    assert (payloadTotal (events ++ [event]) = payloadTotal events + len (Payload (ev_Message event))) as Ep
      by (rewrite payloadTotal_app; unfold payloadTotal at 2; cbn [foldr]; lia).
    rewrite <- Ep in H. apply IH in H as (-> & H); [by rewrite <- app_assoc in *| |lia]. unfold len in *. rewrite length_app. cbn [length]. lia.
Qed.

Lemma replayEvents_inv sid previous events batches version events' :
  replayEvents sid previous (payloadTotal events) events batches = Some (version, events') ->
  0 <= previous -> previous + len batches <= maxUint64 -> len events <= maximumReplayEvents -> payloadTotal events <= maximumReplayPayloadBytes ->
  events' = events ++ (batches ≫= b_Events) /\ version = previous + len batches /\
  (forall i bt, batches !! i = Some bt -> b_SessionID bt = sid /\ b_StateVersion bt = previous + 1 + Z.of_nat i) /\
  len events' <= maximumReplayEvents /\ payloadTotal events' <= maximumReplayPayloadBytes.
Proof.
  revert previous events. induction batches as [|bt rest IH]; intros previous events H Hp Hmax Hn Hb; cbn [replayEvents] in H.
  - injection H as <- <-. cbn. rewrite app_nil_r. unfold len in *. cbn [length] in *. split_and!; try done; lia.
  - destruct (_ || _) eqn:E; [done|]. apply orb_false_iff in E as [E1 E2]. to_prop.
    assert (len (bt :: rest) = 1 + len rest) as El by (unfold len; cbn [length]; lia). assert (0 <= len rest) by (unfold len; lia).
    rewrite u64_id in * by lia. destruct (addEvents _ _ _) as [[bytes1 events1]|] eqn:Ea; [|done].
    apply addEvents_inv in Ea as (-> & -> & Hn1 & Hb1); [|done|done].
    apply IH in H as (-> & -> & Hall & Hn2 & Hb2); [|lia|lia|done|done]. split_and!; try done; [by rewrite <- app_assoc|lia|].
    intros [|i] bt' Hi; cbn in Hi; [injection Hi as <-; split; [done|lia]|]. apply Hall in Hi as [-> ->]. split; [done|lia].
Qed.

End ServiceRuns.
