(* ===== verification/ServiceTheorems.v ===== *)
(** * Properties of the session service

    The requests of the service keep rooms and sessions in agreement whatever
    interrupts them, an action takes effect once however often it is sent, and a
    replay shows the whole history of a session. *)

From stdpp Require Import gmap relations.
From S2P Require Import Prelude GoLib Sha256 Selector GameManifest GameContract Outbox Room RoomStore RoomFacts RoomTheorems Runtime RuntimeFacts RuntimeMoves RuntimeCommit RuntimeCommands RuntimeStore RuntimeQueries RuntimeRepository RuntimeStoreFacts RuntimeStoreEffects RuntimeStoreInvariant RuntimeStoreProgress RuntimeTheorems RoomGameRepository RoomGameFacts RoomGameInvariant RoomGameTheorems DurableHistory RuntimeService ServiceSystem ServiceRuns ContractTheorems.

Module ServiceTheorems.
Import GoLib Selector GameManifest GameContract Runtime RuntimeFacts RuntimeMoves RuntimeCommit RuntimeCommands RuntimeStore RuntimeQueries
  RuntimeRepository RuntimeStoreFacts RuntimeStoreEffects RuntimeStoreInvariant RuntimeStoreProgress RuntimeTheorems RoomGameInvariant
  RoomGameTheorems DurableHistory RuntimeService ServiceSystem ServiceRuns.
Import RoomTheorems(second).

(** ** A sample module and its service *)
Definition sampleModule : GameModule :=
  mkModule ContractTheorems.sampleManifest (fun _ => Ok (sampleTransition 1 [] false))
    (fun snapshot request => Ok (sampleTransition (StateVersion snapshot + 1) [sampleTimer (Now (cm_Context request) + 20 * second)] false))
    (fun snapshot _ => Ok (sampleTransition (StateVersion snapshot + 1) [] true))
    (fun snapshot _ => Ok (mkProjection (State snapshot) ["play"%string]))
    (fun events _ _ => Ok (mkProjection (sampleMessage (len events)) []))
    None
    (Some (fun snapshot _ => Ok (sampleTransition (StateVersion snapshot + 1) [] true)))
    None
    (Some (fun _ events _ => Ok (mkEventProjection ((fun event => ev_Message (ve_Event event)) <$> events))))
    None.

(** The registry of a process that has this one module. *)
Definition sampleRegistry : ModuleRegistry :=
  match NewRegistry md_Manifest [mkRegistration (Some sampleModule) true] with
  | Ok registry => registry
  | Err _ => emptyRegistry
  end.

Definition sampleOracle (now : Time) : Oracle :=
  mkOracle now (fun n => 5000 + 2000 * Z.of_nat n) (replicate RandomSeedBytes 7) (Some (mkMaintenance false MaintenanceUserMutations "" 0 1 0 0))
    sampleRegistry (fun _ => Some sampleModule) RoomGameTheorems.anyName.

Definition sampleActionCommand : ActionCommand :=
  mkActionCommand 71 12 (Value sampleAction) 1 1 (mkVersionKey "liars-dice" "1.0.0" "1.0.0" "1.0.0") (sampleMessage 3) None.

(** The results are written out, so that each run is evaluated once. *)
Definition acted : result ServiceError ActionResult * Tables :=
  Eval vm_compute in run (sampleOracle (16 * second)) 0 (HandleAction true sampleActionCommand) games3.
Definition actedAgain : result ServiceError ActionResult * Tables :=
  Eval vm_compute in run (sampleOracle (17 * second)) 0 (HandleAction true sampleActionCommand) acted.2.

Lemma acted_run : run (sampleOracle (16 * second)) 0 (HandleAction true sampleActionCommand) games3 = acted.
Proof. vm_compute. reflexivity. Qed.
Lemma actedAgain_run : run (sampleOracle (17 * second)) 0 (HandleAction true sampleActionCommand) acted.2 = actedAgain.
Proof. vm_compute. reflexivity. Qed.

Definition okResult (r : result ServiceError ActionResult) : ActionResult :=
  match r with
  | Ok result => result
  | Err _ => mkServiceResult noSession (receipt gameMove) noProjection false
  end.

(** ** Rooms and sessions *)

(** C12: The service keeps rooms and sessions in agreement.  Whatever requests are
    in progress, however their calls interleave with each other and with the room
    service, wherever a statement fails and wherever a process dies between two
    calls, a room row points to a session exactly when that session is live and
    belongs to the room, and the sessions, histories and receipts satisfy the
    invariant of the session repository. *)
Theorem service_keeps_games `{SafeExecutor} (t : Tables) (seen : list Room) (tasks : list Task)
    (Hserved : served (t, seen, tasks)) :
  (forall rid sid, pointer t rid = Some sid <-> playedIn t sid = Some rid) /\ StoreInv t.
Proof.
  apply served_game in Hserved as [[[Hs _ Ha] _]%game_reachable_ok _]. done.
Qed.

(** An owner that claims a session as [Manager.claim] does, its lease granted. *)
#[local] Instance claimingExecutor : SystemInboxExecutor := {
  EnsureOwned sid :=
    try (getSession sid) (fun current =>
      if Terminal (s_Status current) then fail ErrSessionTerminal
      else Do CallNow (fun now =>
        try (Ret (ofRuntime (AcquireOwnership current (s_OwnershipEpoch current) (afterUpdate (RoundUTC now) (s_UpdatedAt current)))))
          (fun next => try (acquire current next) (fun owned => done (s_OwnershipEpoch owned)))));
  executeSystem := HandleSystem;
}.
#[local] Instance claimingExecutor_safe : SafeExecutor.
Proof. split; [|exact HandleSystem_safe]. intros sid. unfold EnsureOwned, claimingExecutor. safe_run. Qed.

Lemma serve_games s s' tasks : rtc game_step s s' -> rtc serve (s, tasks) (s', tasks).
Proof.
  induction 1 as [|[t seen] [t' seen'] z H _ IH]; [reflexivity|]. eapply rtc_l; [by apply serve_other|exact IH].
Qed.

Lemma serve_run {A} o n (p : Prog A) t seen tasks : rtc serve (t, seen, task p :: tasks) ((run o n p t).2, seen, tasks).
Proof.
  revert n t. induction p as [a|c k IH]; intros n t; cbn [run].
  - apply rtc_once. exact (serve_end t seen [] (task (Ret a)) tasks).
  - pose proof (perform_answers o n c t) as Ha. destruct (perform o n c t) as [answer t']. eapply rtc_l; [|apply IH].
    exact (serve_call t seen [] tasks c k answer t' Ha).
Qed.

Lemma service_keeps_games_witness : pointer acted.2 1 = Some 71 /\ playedIn acted.2 71 = Some 1.
Proof.
  assert (served (acted.2, [RoomTheorems.newRoom], [])) as Hs.
  { unfold served. etrans; [exact (serve_games _ _ [] games3_reachable)|].
    eapply rtc_l; [exact (serve_arrival (ReqAction true sampleActionCommand) games3 _ [])|]. rewrite <- acted_run. apply serve_run. }
  split; [vm_compute; reflexivity|]. apply (proj1 (service_keeps_games _ _ _ Hs) 1 71). vm_compute. reflexivity.
Defined.


(** ** Actions *)

(** A batch records an action of a player. *)
Definition recordsAction (command : ActionCommand) (b : BatchRow) : Prop :=
  br_SessionID b = Some (acm_SessionID command) /\ br_ActorUserID b = Some (acm_ActorUserID command) /\
  br_ActionID b = Some (acm_ActionID command).

Lemma receipt_version row rc : actionReceiptFromRow row = Ok rc -> ac_StateVersion rc = u64 (arr_CommittedStateVersion row).
Proof.
  unfold actionReceiptFromRow. destruct (arr_SessionID row), (arr_ActorUserID row), (arr_CommittedAt row); try done. intros H. inv_result H.
  destruct (ParseOperationID _); [|done]. do 2 inv_result H. unfold integrity in H. destruct (NewActionReceipt _) as [rc1|] eqn:Er; [|done].
  injection H as <-. unfold NewActionReceipt in Er. inv_results Er. done.
Qed.

(** The history has one batch for a stored action, at the version of its receipt. *)
Lemma action_recorded t command row rc : StoreInv t ->
  action_receipts t !! (acm_SessionID command, acm_ActorUserID command, acm_ActionID command) = Some row -> actionReceiptFromRow row = Ok rc ->
  exists id b, event_batches t !! id = Some b /\ recordsAction command b /\ u64 (br_StateVersion b) = ac_StateVersion rc /\
    forall id' b', event_batches t !! id' = Some b' -> recordsAction command b' -> id' = id.
Proof.
  intros Hinv Hrow Hrc. pose proof (st_receipts _ Hinv) as Hr. destruct (ri_actions _ Hr _ _ _ _ Hrow) as (id & b & Hb & Hsid & Hactor & Hact & Hv).
  exists id, b. split_and!; [done|done|by rewrite (receipt_version _ _ Hrc), Hv|]. intros id' b' Hb' (H1 & H2 & H3).
  destruct (ri_accounted _ Hr _ _ Hb' _ H1) as (Ha & _). destruct (Ha _ _ H2 H3) as (row' & Hrow' & Hv'). assert (row' = row) as -> by congruence.
  eapply (hi_unique _ (st_history _ Hinv)); [exact Hb'|exact Hb|congruence|congruence].
Qed.

(** C13: An action takes effect once.  When a player's action was answered, every
    later request with the same session, player and action identifier that is
    answered at all, whatever ran in between, however the first ended and whichever
    process serves it, is a replay: it asks for the same thing (up to a collision
    of the hash), returns the same receipt, and the history has a batch for the
    action, at the version the receipt states, and no other batch for it.  What
    the player is shown is the projection for its own seat, by the module that is
    registered in the serving process for the very release of the session. *)
Theorem action_answered_once (registry registry' : ModuleRegistry) (gated gated' : bool) (command command' : ActionCommand)
    (s s1 s2 s3 : Tables * list Room) (r r' : ActionResult)
    (Hreach : game_reachable s) (Hfirst : runs registry (HandleAction gated command) s (Ok r) s1) (Hlater : rtc game_step s1 s2)
    (Hsession : acm_SessionID command' = acm_SessionID command) (Hactor : acm_ActorUserID command' = acm_ActorUserID command)
    (Haction : acm_ActionID command' = acm_ActionID command)
    (Hagain : runs registry' (HandleAction gated' command') s2 (Ok r') s3) :
  sv_Replayed r' = true /\ sv_Receipt r' = sv_Receipt r /\ actionDigest command' = actionDigest command /\
  (exists id b, event_batches s3.1 !! id = Some b /\ recordsAction command b /\
     u64 (br_StateVersion b) = ac_StateVersion (sv_Receipt r) /\
     forall id' b', event_batches s3.1 !! id' = Some b' -> recordsAction command b' -> id' = id) /\
  (exists m participant, Resolve registry' (s_VersionKey (sv_Session r')) = Ok m /\
     participant ∈ s_Participants (sv_Session r') /\ p_UserID participant = acm_ActorUserID command /\
     md_Project m (s_State (sv_Session r')) (mkViewer ViewerPlayer (UUID_String (acm_ActorUserID command)) (p_SeatIndex participant))
       = Ok (sv_Projection r') /\ Projection_Valid (sv_Projection r') = true).
Proof.
  pose proof (runs_steps _ _ _ _ _ (HandleAction_safe _ _) Hfirst) as [H01 _].
  pose proof (runs_steps _ _ _ _ _ (HandleAction_safe _ _) Hagain) as [H23 _].
  assert (game_reachable s2) as Hreach2 by (unfold game_reachable in *; etrans; [exact Hreach|]; by etrans).
  assert (game_reachable s3) as [[Hinv _ _] _]%game_reachable_ok by (unfold game_reachable in *; by etrans).
  apply HandleAction_runs in Hfirst as [[(row & Hrow & Hrc) Hq _] _]; [|done].
  apply HandleAction_runs in Hagain as [[(row' & Hrow' & Hrc') Hq' Hnew'] (m & Hm & Hp)]; [|done].
  rewrite Hsession, Hactor, Haction in Hrow', Hnew'. rewrite Hactor in Hp.
  pose proof (lookup_weaken _ _ _ _ Hrow (k_actions _ _ (game_steps_durable _ _ Hlater))) as Hrow2.
  pose proof (lookup_weaken _ _ _ _ Hrow2 (k_actions _ _ (game_steps_durable _ _ H23))) as Hrow3.
  assert (row' = row) as -> by congruence. assert (sv_Receipt r' = sv_Receipt r) as Er by congruence. split_and!.
  - destruct (sv_Replayed r'); [done|]. rewrite Hnew' in Hrow2 by done. done.
  - done.
  - congruence.
  - by eapply action_recorded.
  - unfold projectPlayer in Hp. destruct (List.find _ _) as [participant|] eqn:Ef; [|done]. apply find_some in Ef as [Hin Heq].
    inv_result Hp. inv_result Hp. injection Hp as ->. exists m, participant. apply Z.eqb_eq in Heq. rewrite list_elem_of_In.
    split_and!; [done|done|done|done|by apply negb_false_iff].
Qed.

Lemma acted_runs : runs sampleRegistry (HandleAction true sampleActionCommand) (games3, [RoomTheorems.newRoom]) acted.1 (acted.2, [RoomTheorems.newRoom]).
Proof. rewrite <- acted_run. exact (run_runs (sampleOracle (16 * second)) 0 (HandleAction true sampleActionCommand) games3 [RoomTheorems.newRoom]). Qed.

Lemma actedAgain_runs :
  runs sampleRegistry (HandleAction true sampleActionCommand) (acted.2, [RoomTheorems.newRoom]) actedAgain.1 (actedAgain.2, [RoomTheorems.newRoom]).
Proof. rewrite <- actedAgain_run. exact (run_runs (sampleOracle (17 * second)) 0 (HandleAction true sampleActionCommand) acted.2 [RoomTheorems.newRoom]). Qed.

Lemma action_answered_once_witness :
  sv_Replayed (okResult acted.1) = false /\ sv_Replayed (okResult actedAgain.1) = true /\
  sv_Receipt (okResult actedAgain.1) = sv_Receipt (okResult acted.1).
Proof.
  split; [vm_compute; reflexivity|].
  assert (Hok : acted.1 = Ok (okResult acted.1)) by (vm_compute; reflexivity).
  assert (Hok' : actedAgain.1 = Ok (okResult actedAgain.1)) by (vm_compute; reflexivity).
  destruct (action_answered_once sampleRegistry sampleRegistry true true sampleActionCommand sampleActionCommand (games3, [RoomTheorems.newRoom])
    (acted.2, [RoomTheorems.newRoom]) (acted.2, [RoomTheorems.newRoom]) (actedAgain.2, [RoomTheorems.newRoom])
    (okResult acted.1) (okResult actedAgain.1) games3_reachable) as (H1 & H2 & _); try reflexivity.
  - rewrite <- Hok. exact acted_runs.
  - rewrite <- Hok'. exact actedAgain_runs.
  - exact (conj H1 H2).
Defined.


(** ** Replays *)
Lemma checkedProjection_runs registry r s projection s' : runs registry (checkedProjection r) s (Ok projection) s' ->
  s' = s /\ r = Ok projection /\ Projection_Valid projection = true.
Proof.
  unfold checkedProjection. intros (p & Hp & H)%runs_check_inv. apply ofRuntime_Ok in Hp. destruct (negb _) eqn:E; [by destruct H|].
  destruct H as [[= ->] ->]. by apply negb_false_iff in E.
Qed.

Lemma resolveModule_runs registry key s m s' : runs registry (resolveModule key) s (Ok m) s' ->
  rtc game_step s s' /\ Resolve registry key = Ok m.
Proof.
  intros H. split; [by apply (runs_steps _ _ _ _ _ (resolveModule_safe _)) in H as [? _]|].
  destruct H as (t & seen & answer & t' & _ & _ & Hm & [<- _]). by apply Hm.
Qed.

(** An ended session keeps its version, and its history all of its batches. *)
Lemma ended_history t t' sid session row id b :
  StoreInv t -> StoreInv t' -> durable t t' -> loadSession t sid = Some session -> Terminal (s_Status session) = true ->
  event_batches t' !! id = Some b -> br_SessionID b = Some sid -> game_sessions t !! sid = Some row ->
  1 <= br_StateVersion b <= StateVersion (s_State session).
Proof.
  intros Hinv Hinv' Hd Hload Ht Hb Hsid Hrow. apply loadSession_row in Hload as (row0 & Hrow0 & Hl). assert (row0 = row) as -> by congruence.
  apply loaded_numbers in Hl as (Hv & _ & Hst & Hpos & _). destruct (si_widths _ (st_sessions _ Hinv) _ _ Hrow) as [Hw _].
  rewrite u64_id in Hv by (unfold maxInt64, maxUint64 in *; lia). rewrite Hv.
  apply (hi_gapless _ (st_history _ Hinv') sid row); [|by exists id, b]. apply (k_ended _ _ Hd); [done|]. rewrite Hst in Ht.
  unfold Terminal in Ht. apply orb_prop in Ht as [Ht|Ht]; apply String.eqb_eq in Ht; by rewrite Ht.
Qed.

(** C14: A replay shows the whole history.  When a replay is answered, the session
    has ended, and what the module was given to project is the concatenation of
    the events of exactly the stored batches of that session, one for each
    version from 1 to the last and in that order, within the limits on events and
    bytes; no batch of the session is left out, whatever ran in the meantime.  The
    module is the one that is registered in the serving process for the very
    release of the session, and the answer is what that module makes of those
    events for that viewer. *)
Theorem replay_shows_history (registry : ModuleRegistry) (sid : UUID) (viewer : Viewer) (policy : string) (s s' : Tables * list Room) (session : Session) (projection : Projection)
    (Hreach : game_reachable s) (Hruns : runs registry (ProjectReplayCurrent sid viewer policy) s (Ok (session, projection)) s') :
  Terminal (s_Status session) = true /\ vw_Kind viewer = ViewerReplay /\
  exists m (batches : list EventBatch),
    Resolve registry (s_VersionKey session) = Ok m /\
    len batches = StateVersion (s_State session) /\
    (forall i bt, batches !! i = Some bt -> b_SessionID bt = sid /\ b_StateVersion bt = Z.of_nat i + 1 /\ readBefore s'.1 sid bt) /\
    (forall id b, event_batches s'.1 !! id = Some b -> br_SessionID b = Some sid -> 1 <= br_StateVersion b <= len batches) /\
    replayProjection m session (batches ≫= b_Events) viewer policy = Ok projection /\ Projection_Valid projection = true /\
    cap_Replay (mf_Capabilities (md_Manifest m)) = true /\
    len (batches ≫= b_Events) <= maximumReplayEvents /\ payloadTotal (batches ≫= b_Events) <= maximumReplayPayloadBytes.
Proof.
  pose proof (runs_steps _ _ _ _ _ (ProjectReplayCurrent_safe _ _ _) Hruns) as [Hall _]. unfold ProjectReplayCurrent in Hruns.
  destruct (_ || _) eqn:Eguard; [by destruct Hruns|]. apply orb_false_iff in Eguard as [[[_ _]%orb_false_iff Ek]%orb_false_iff _].
  apply negb_false_iff, String.eqb_eq in Ek.
  apply runs_try_inv in Hruns as (current & s1 & H1 & H). apply getSession_runs in H1 as (t1 & seen1 & -> & H1 & Hload).
  destruct (Terminal (s_Status current)) eqn:Et; cbn [negb] in H; [|by destruct H].
  apply runs_try_inv in H as (m & s2 & H2 & H). apply resolveModule_runs in H2 as [H2 Hm].
  destruct (negb (bool_decide _)); [by destruct H|]. destruct (negb (cap_Replay _)) eqn:Ecap; [by destruct H|]. apply negb_false_iff in Ecap.
  apply runs_try_inv in H as (batches & s3 & H3 & H). pose proof (runs_steps _ _ _ _ _ (readReplayBatches_safe _) H3) as [H3s _].
  apply readPages_runs in H3 as (pages & -> & Hpages & Hlen). cbn [app] in H.
  destruct (_ || _) eqn:Esize; [by destruct H|]. apply orb_false_iff in Esize as [_ Esize].
  destruct (replayEvents sid 0 0 [] pages) as [[version events]|] eqn:Er; [|by destruct H].
  destruct (negb (version =? _)) eqn:Ev; [by destruct H|]. apply negb_false_iff, Z.eqb_eq in Ev.
  apply runs_try_inv in H as (p & s4 & H4 & H). apply checkedProjection_runs in H4 as (-> & Hp & Hvalid). destruct H as [[= -> ->] ->].
  assert (game_reachable (t1, seen1)) as [[Hinv1 _ _] _]%game_reachable_ok by (unfold game_reachable in *; by etrans).
  assert (game_reachable s3) as [[Hinv3 _ _] _]%game_reachable_ok by (unfold game_reachable in *; by etrans).
  change 0 with (payloadTotal []) in Er at 2.
  apply replayEvents_inv in Er as (-> & -> & Hb & Hn & Hbytes); [|done| |by vm_compute|by vm_compute].
  2:{ unfold maxInt32, maximumReplayBatches, maxUint64 in *. lia. }
  cbn [app] in *. rewrite Z.add_0_l in Ev. split_and!; [done|done|]. exists m, pages. split_and!; try done.
  - intros i bt Hi. destruct (Hb i bt Hi) as [-> ->]. split_and!; [done|lia|]. by eapply Forall_lookup in Hpages.
  - intros id b Hrow Hsid. rewrite Ev. pose proof Hload as Hload'. apply loadSession_row in Hload' as (row & Hrow1 & _).
    eapply (ended_history t1 s3.1); [done|done| |exact Hload|done|exact Hrow|done|exact Hrow1].
    apply (game_steps_durable (t1, seen1)). by etrans.
Qed.

(** The sample game to its end by the due timer, then a replay of it. *)
Definition dueTurn : DueTimer := mkDueTimer 71 "turn" 2 (36 * second) (sampleMessage 9).
Definition ended : result ServiceError TimerCommitResult * Tables :=
  Eval vm_compute in run (sampleOracle (40 * second)) 40 (HandleTimer dueTurn 1) acted.2.
Definition replayViewer : Viewer := mkViewer ViewerReplay (UUID_String 12) 0.
Definition replayed : result ServiceError (Session * Projection) * Tables :=
  Eval vm_compute in run (sampleOracle (60 * second)) 0 (ProjectReplayCurrent 71 replayViewer ReplayAccessParticipant) ended.2.

Lemma ended_run : run (sampleOracle (40 * second)) 40 (HandleTimer dueTurn 1) acted.2 = ended.
Proof. vm_compute. reflexivity. Qed.
Lemma replayed_run : run (sampleOracle (60 * second)) 0 (ProjectReplayCurrent 71 replayViewer ReplayAccessParticipant) ended.2 = replayed.
Proof. vm_compute. reflexivity. Qed.

Definition okPair (r : result ServiceError (Session * Projection)) : Session * Projection :=
  match r with
  | Ok result => result
  | Err _ => (noSession, noProjection)
  end.
Definition replayedPair : Session * Projection := okPair replayed.1.

Lemma ended_reachable : game_reachable (ended.2, [RoomTheorems.newRoom]).
Proof.
  unfold game_reachable. etrans; [exact games3_reachable|].
  etrans; [exact (proj1 (runs_steps _ _ _ _ _ (HandleAction_safe _ _) acted_runs))|].
  rewrite <- ended_run. exact (proj1 (runs_steps _ _ _ _ _ (HandleTimer_safe _ _)
    (run_runs (sampleOracle (40 * second)) 40 (HandleTimer dueTurn 1) acted.2 [RoomTheorems.newRoom]))).
Qed.

Lemma replayed_runs : runs sampleRegistry (ProjectReplayCurrent 71 replayViewer ReplayAccessParticipant) (ended.2, [RoomTheorems.newRoom])
  replayed.1 (replayed.2, [RoomTheorems.newRoom]).
Proof.
  rewrite <- replayed_run. exact (run_runs (sampleOracle (60 * second)) 0 (ProjectReplayCurrent 71 replayViewer ReplayAccessParticipant) ended.2 [RoomTheorems.newRoom]).
Qed.

Lemma replay_shows_history_witness :
  s_Status replayedPair.1 = StatusFinished /\
  exists batches : list EventBatch, len batches = 3 /\ forall i bt, batches !! i = Some bt -> b_StateVersion bt = Z.of_nat i + 1.
Proof.
  split; [vm_compute; reflexivity|]. assert (Hok : replayed.1 = Ok replayedPair) by (vm_compute; reflexivity).
  assert (Hv : StateVersion (s_State replayedPair.1) = 3) by (vm_compute; reflexivity).
  destruct (replay_shows_history sampleRegistry 71 replayViewer ReplayAccessParticipant (ended.2, [RoomTheorems.newRoom]) (replayed.2, [RoomTheorems.newRoom])
    replayedPair.1 replayedPair.2 ended_reachable) as (_ & _ & m & batches & _ & Hlen & Hall & _).
  - rewrite <- surjective_pairing, <- Hok. exact replayed_runs.
  - rewrite Hv in Hlen. exists batches. split; [exact Hlen|]. intros i bt Hi. exact (proj1 (proj2 (Hall i bt Hi))).
Defined.

End ServiceTheorems.
