(* ===== verification/Coordination.v ===== *)
(** * Redis coordination of sessions

    [platform/persistence/redis/coordination.go]: one-time connection tickets,
    the wake-up channel of subscribers and the leases under which a realtime
    process claims a session.  Redis is a map from keys to values with the
    millisecond at which they expire; a script runs at once, but its caller may
    lose the answer of a script that ran as well as the request itself.
    [CoordinationTheorems] shows that the text of a lease reads back as it was
    written, and that a lease keeps every other process out of the session until
    it expires or its holder gives it up. *)

From Stdlib Require Import Ascii.
From stdpp Require Import gmap pretty.
From S2P Require Import Prelude GoLib Sha256 Selector GameContract.

Module Coordination.
Import GoLib Selector GameContract.

(** ** Redis *)
Record Entry := mkEntry { e_value : string; e_expires : Z }.

Record Redis := mkRedis {
  r_keys : gmap string Entry;
  (** The messages published so far, with their channel. *)
  r_published : list (string * string);
}.
#[global] Instance redis_eta : Eta Redis := fun r => mkRedis (r_keys r) (r_published r).
Definition emptyRedis : Redis := mkRedis ∅ [].

Definition GET (now : Z) (key : string) (r : Redis) : option string :=
  match r_keys r !! key with
  | Some entry => if now <? e_expires entry then Some (e_value entry) else None
  | None => None
  end.
(** [SET key value PX ttl]. *)
Definition SET_PX (now : Z) (key value : string) (ttl : Z) (r : Redis) : Redis :=
  r <| r_keys := <[key := mkEntry value (now + ttl)]> (r_keys r) |>.
(** [SET key value XX KEEPTTL]: only an existing key, which keeps its expiry. *)
Definition SET_XX_KEEPTTL (now : Z) (key value : string) (r : Redis) : option Redis :=
  match r_keys r !! key with
  | Some entry => if now <? e_expires entry then Some (r <| r_keys := <[key := mkEntry value (e_expires entry)]> (r_keys r) |>) else None
  | None => None
  end.
Definition PEXPIRE (now : Z) (key : string) (ttl : Z) (r : Redis) : Redis :=
  match r_keys r !! key with
  | Some entry => if now <? e_expires entry then r <| r_keys := <[key := mkEntry (e_value entry) (now + ttl)]> (r_keys r) |> else r
  | None => r
  end.
Definition DEL (key : string) (r : Redis) : Redis := r <| r_keys := delete key (r_keys r) |>.

(** What a script returns, as the client decodes it. *)
Inductive Reply :=
| RInt (n : Z)
| RString (s : string)
| RArray (values : list Reply).

Definition Script : Type := Z -> Redis -> Reply * Redis.

Definition coordinationTicketIssueScript (key grant : string) (ttl : Z) : Script := fun now r =>
  match GET now key r with
  | Some _ => (RInt 0, r)
  | None => (RInt 1, SET_PX now key grant ttl r)
  end.

Definition coordinationTicketConsumeScript (key grant : string) : Script := fun now r =>
  match GET now key r with
  | Some stored => if negb (String.eqb stored grant) then (RInt 0, r) else (RInt 1, DEL key r)
  | None => (RInt 0, r)
  end.

(** [SET ... NX] writes nothing when the key exists, which was tested before. *)
Definition coordinationLeaseAcquireScript (key wire : string) (ttl : Z) : Script := fun now r =>
  match GET now key r with
  | Some stored => (RArray [RInt 0; RString stored], r)
  | None =>
      let r := SET_PX now key wire ttl r in
      match GET now key r with
      | None => (RArray [RInt 0; RString ""], r)
      | Some stored => if String.eqb stored wire then (RArray [RInt 1; RString stored], r) else (RArray [RInt 0; RString stored], r)
      end
  end.

Definition coordinationLeaseLookupScript (key : string) : Script := fun now r =>
  match GET now key r with
  | None => (RString "", r)
  | Some stored => (RString stored, r)
  end.

Definition coordinationLeasePromoteScript (key wire ready : string) : Script := fun now r =>
  match GET now key r with
  | Some stored =>
      if negb (String.eqb stored wire) then (RInt 0, r)
      else match SET_XX_KEEPTTL now key ready r with
      | Some r => (RInt 1, r)
      | None => (RInt 0, r)
      end
  | None => (RInt 0, r)
  end.

Definition coordinationLeaseRenewScript (key wire : string) (ttl : Z) : Script := fun now r =>
  match GET now key r with
  | Some stored => if negb (String.eqb stored wire) then (RInt 0, r) else (RInt 1, PEXPIRE now key ttl r)
  | None => (RInt 0, r)
  end.

Definition coordinationLeaseReleaseScript (key wire : string) : Script := fun now r =>
  match GET now key r with
  | Some stored => if negb (String.eqb stored wire) then (RInt 0, r) else (RInt 1, DEL key r)
  | None => (RInt 0, r)
  end.

(** [string.sub(stored, 1, string.len(prefix)) ~= prefix]. *)
Definition coordinationLeaseClearStaleScript (key prefix : string) : Script := fun now r =>
  match GET now key r with
  | Some stored => if negb (String.prefix prefix stored) then (RInt 0, r) else (RInt 1, DEL key r)
  | None => (RInt 0, r)
  end.

(** ** The coordinator *)
Inductive CoordinationError :=
| ErrInvalidCoordinationConfig
| ErrInvalidCoordinationInput
| ErrCoordinationUnavailable
| CoordinationContextDone.

(** A request is answered, or its caller learns nothing: the script may have run,
    and the error is that of the caller's context when that is done. *)
Inductive Delivery :=
| Answered
| Unanswered (ran ctxDone : bool).

Definition second : Z := 1000000000.
Definition millisecond : Z := 1000000.
Definition minute : Z := 60 * second.
Definition Milliseconds (d : Z) : Z := Z.quot d millisecond.

Definition maximumOperationTimeout : Z := 30 * second.
Definition CoordinationTimeout : Z := maximumOperationTimeout.
Definition MinimumTicketTTL : Z := second.
Definition MaximumTicketTTL : Z := 15 * minute.
Definition MinimumSessionLeaseTTL : Z := second.
Definition MaximumSessionLeaseTTL : Z := 5 * minute.
Definition MaximumTicketGrantBytes : Z := 8 * 1024.
Definition MaximumLeaseOwnerBytes : Z := 128.
Definition MaximumLeaseAddressBytes : Z := 256.

Definition isAlnum (c : ascii) : bool :=
  let b := byteOf c in (48 <=? b) && (b <=? 57) || (65 <=? b) && (b <=? 90) || (97 <=? b) && (b <=? 122).
(** [:], [_] and [-] besides letters and digits. *)
Definition isPrefixChar (c : ascii) : bool := let b := byteOf c in isAlnum c || (b =? 58) || (b =? 95) || (b =? 45).

(** [^[A-Za-z0-9][A-Za-z0-9:_-]{0,62}:$]. *)
Definition redisKeyPrefixPattern (s : string) : bool :=
  match String.list_ascii_of_string s with
  | first :: rest =>
      match last rest with
      | Some final =>
          isAlnum first && (byteOf final =? 58) && forallb isPrefixChar (removelast rest) && (len (removelast rest) <=? 62)
      | None => false
      end
  | [] => false
  end.

Record CoordinationConfig := mkCoordinationConfig {
  cf_KeyPrefix : string;
  cf_Timeout : Z;
  cf_TicketTTL : Z;
  cf_LeaseTTL : Z;
}.

Record GameCoordinator := mkCoordinator {
  keyPrefix : string;
  timeout : Z;
  ticketTTL : Z;
  leaseTTL : Z;
}.

Definition NewGameCoordinator (config : CoordinationConfig) : result CoordinationError GameCoordinator :=
  if negb (redisKeyPrefixPattern (cf_KeyPrefix config))
     || (cf_Timeout config <? millisecond) || (CoordinationTimeout <? cf_Timeout config)
     || (cf_TicketTTL config <? MinimumTicketTTL) || (MaximumTicketTTL <? cf_TicketTTL config)
     || (cf_LeaseTTL config <? MinimumSessionLeaseTTL) || (MaximumSessionLeaseTTL <? cf_LeaseTTL config)
  then Err ErrInvalidCoordinationConfig
  else Ok (mkCoordinator (cf_KeyPrefix config) (cf_Timeout config) (cf_TicketTTL config) (cf_LeaseTTL config)).

Definition runScript (delivery : Delivery) (script : Script) (now : Z) (r : Redis) : result CoordinationError Reply * Redis :=
  match delivery with
  | Answered => let '(reply, r') := script now r in (Ok reply, r')
  | Unanswered ran ctxDone =>
      (Err (if ctxDone then CoordinationContextDone else ErrCoordinationUnavailable), if ran then (script now r).2 else r)
  end.

Definition hexString (bytes : list Z) : string :=
  String.string_of_list_ascii (bytes ≫= fun b => [hexDigit (b / 16); hexDigit (b mod 16)]).
Definition ticketKey (c : GameCoordinator) (ticket : string) : string :=
  keyPrefix c +:+ "game:ticket:v1:" +:+ hexString (Sha256.Sum256 (bytesOf ticket)).
Definition fanoutChannel (c : GameCoordinator) : string := keyPrefix c +:+ "game:fanout:v1".
Definition leaseKey (c : GameCoordinator) (sessionID : UUID) : string := keyPrefix c +:+ "game:lease:v1:" +:+ UUID_String sessionID.

(** [base64.RawURLEncoding.Strict()] also refuses unused bits that are not 0. *)
Definition unusedBits (values : list Z) : Z :=
  match last values with
  | None => 0
  | Some final =>
      match (length values mod 4)%nat with
      | 2%nat => final mod 16
      | 3%nat => final mod 4
      | _ => 0
      end
  end.
Definition StrictDecodeString (s : string) : option (list Z) :=
  values ← mapM valueOf (List.filter (fun c => negb (lineBreak c)) (String.list_ascii_of_string s));
  if negb (unusedBits values =? 0) then None else octets values.

Definition ticketBytes : Z := 32.
(** [base64.RawURLEncoding.EncodedLen(32)]. *)
Definition ticketEncodedLen : Z := (ticketBytes * 8 + 5) / 6.
Definition validTicket (value : string) : bool :=
  if negb (slen value =? ticketEncodedLen) then false
  else match StrictDecodeString value with
  | None => false
  | Some decoded => (len decoded =? ticketBytes) && String.eqb (EncodeToString decoded) value
  end.

(** A byte of a lease text: visible ASCII without the separator. *)
Definition leaseTextByte (c : ascii) : bool :=
  negb ((byteOf c <=? 32) || (127 <=? byteOf c) || (byteOf c =? 124)).
Definition validLeaseText (value : string) (maximum : Z) : bool :=
  if String.eqb value "" || (maximum <? slen value) || negb (String.eqb (TrimSpace value) value) then false
  else forallb leaseTextByte (String.list_ascii_of_string value).
Definition validLeaseOwner (value : string) : bool := validLeaseText value MaximumLeaseOwnerBytes.
Definition validLeaseAddress (value : string) : bool := validLeaseText value MaximumLeaseAddressBytes.

(** ** Leases *)
Record SessionLease := mkLease {
  l_SessionID : UUID;
  l_Owner : string;
  l_Address : string;
  l_Token : string;
  l_Ready : bool;
  l_OwnershipEpoch : Z;
}.
#[global] Instance lease_eta : Eta SessionLease := fun l =>
  mkLease (l_SessionID l) (l_Owner l) (l_Address l) (l_Token l) (l_Ready l) (l_OwnershipEpoch l).
Definition noLease : SessionLease := mkLease Nil "" "" "" false 0.

Definition Active (lease : SessionLease) : bool :=
  negb (l_SessionID lease =? Nil) && validLeaseOwner (l_Owner lease) && validLeaseAddress (l_Address lease) && validTicket (l_Token lease).

Definition Routable (lease : SessionLease) : bool :=
  negb (l_SessionID lease =? Nil) && validLeaseOwner (l_Owner lease) && validLeaseAddress (l_Address lease)
  && l_Ready lease && (0 <? l_OwnershipEpoch lease).

Definition encodeLeaseWire (owner address token : string) (ready : bool) (ownershipEpoch : Z) : string :=
  let status := if ready then "ready" else "claiming" in
  "v1|" +:+ status +:+ "|" +:+ owner +:+ "|" +:+ address +:+ "|" +:+ pretty ownershipEpoch +:+ "|" +:+ token.

Definition leaseRepairPrefix (expected : SessionLease) : string :=
  "v1|ready|" +:+ l_Owner expected +:+ "|" +:+ l_Address expected +:+ "|" +:+ pretty (l_OwnershipEpoch expected) +:+ "|".

(** [strings.Split(value, "|")]. *)
Fixpoint Split (value : string) : list string :=
  match value with
  | EmptyString => [""]
  | String c rest =>
      if byteOf c =? 124 then "" :: Split rest
      else match Split rest with
      | part :: parts => String c part :: parts
      | [] => [String c ""]
      end
  end.

(** [strconv.ParseUint(value, 10, 64)]. *)
Definition digitOf (c : ascii) : option Z :=
  let b := byteOf c in if (48 <=? b) && (b <=? 57) then Some (b - 48) else None.
Fixpoint parseDigits (acc : Z) (value : string) : option Z :=
  match value with
  | EmptyString => Some acc
  | String c rest =>
      match digitOf c with
      | None => None
      | Some d => if maxUint64 <? acc * 10 + d then None else parseDigits (acc * 10 + d) rest
      end
  end.
Definition ParseUint (value : string) : option Z := if String.eqb value "" then None else parseDigits 0 value.

Definition decodeLeaseWire (sessionID : UUID) (value : string) : result CoordinationError SessionLease :=
  match Split value with
  | [version; status; owner; address; epochText; token] =>
      if negb (String.eqb version "v1") || negb (validLeaseOwner owner) || negb (validLeaseAddress address) || negb (validTicket token)
      then Err ErrInvalidCoordinationInput
      else match ParseUint epochText with
      | None => Err ErrInvalidCoordinationInput
      | Some epoch =>
          let ready := String.eqb status "ready" in
          if negb (String.eqb status "claiming") && negb ready || ready && (epoch =? 0) || negb ready && negb (epoch =? 0)
          then Err ErrInvalidCoordinationInput
          else Ok (mkLease sessionID owner address token ready epoch)
      end
  | _ => Err ErrInvalidCoordinationInput
  end.

Definition wireOf (lease : SessionLease) : string :=
  encodeLeaseWire (l_Owner lease) (l_Address lease) (l_Token lease) (l_Ready lease) (l_OwnershipEpoch lease).

(** ** Operations

    [delivery] is what becomes of the request, [now] the millisecond Redis runs
    it at, [entropy] what [security.RandomBytes] draws. *)
Section Operations.
Context (c : GameCoordinator) (delivery : Delivery) (now : Z).
Abbreviation op A := (result CoordinationError A * Redis)%type.

(** The flag most scripts answer. *)
Definition flagOf (reply : Reply) : result CoordinationError bool :=
  match reply with
  | RInt value => if negb (value =? 0) && negb (value =? 1) then Err ErrCoordinationUnavailable else Ok (value =? 1)
  | _ => Err ErrCoordinationUnavailable
  end.

Definition runFlag (script : Script) (r : Redis) : op bool :=
  let '(reply, r') := runScript delivery script now r in
  (let* reply := reply in flagOf reply, r').

Definition AcquireSessionLease (entropy : option (list Z)) (sessionID : UUID) (owner address : string) (r : Redis)
  : op (SessionLease * bool) :=
  if (sessionID =? Nil) || negb (validLeaseOwner owner) || negb (validLeaseAddress address) then (Err ErrInvalidCoordinationInput, r)
  else match entropy with
  | None => (Err ErrCoordinationUnavailable, r)
  | Some entropy =>
      let token := EncodeToString entropy in
      let wire := encodeLeaseWire owner address token false 0 in
      let '(reply, r') := runScript delivery (coordinationLeaseAcquireScript (leaseKey c sessionID) wire (Milliseconds (leaseTTL c))) now r in
      (let* reply := reply in
       match reply with
       | RArray [RInt acquired; RString raw] =>
           if negb (acquired =? 0) && negb (acquired =? 1) then Err ErrCoordinationUnavailable
           else if String.eqb raw "" then Err ErrCoordinationUnavailable
           else match decodeLeaseWire sessionID raw with
           | Err _ => Err ErrCoordinationUnavailable
           | Ok lease =>
               if acquired =? 1 then
                 if negb (String.eqb (l_Token lease) token) then Err ErrCoordinationUnavailable else Ok (lease, true)
               else Ok (lease <| l_Token := "" |>, false)
           end
       | _ => Err ErrCoordinationUnavailable
       end, r')
  end.

Definition PromoteSessionLease (lease : SessionLease) (ownershipEpoch : Z) (r : Redis) : op (SessionLease * bool) :=
  if negb (Active lease) || l_Ready lease || negb (l_OwnershipEpoch lease =? 0) || (ownershipEpoch =? 0)
  then (Err ErrInvalidCoordinationInput, r)
  else
    let ready := lease <| l_Ready := true |> <| l_OwnershipEpoch := ownershipEpoch |> in
    let '(promoted, r') := runFlag (coordinationLeasePromoteScript (leaseKey c (l_SessionID lease))
      (encodeLeaseWire (l_Owner lease) (l_Address lease) (l_Token lease) false 0)
      (encodeLeaseWire (l_Owner ready) (l_Address ready) (l_Token ready) true (l_OwnershipEpoch ready))) r in
    (let* promoted := promoted in if negb promoted then Ok (noLease, false) else Ok (ready, true), r').

Definition LookupSessionLease (sessionID : UUID) (r : Redis) : op SessionLease :=
  if sessionID =? Nil then (Err ErrInvalidCoordinationInput, r)
  else
    let '(reply, r') := runScript delivery (coordinationLeaseLookupScript (leaseKey c sessionID)) now r in
    (let* reply := reply in
     match reply with
     | RString raw =>
         if String.eqb raw "" then Ok noLease
         else match decodeLeaseWire sessionID raw with
         | Err _ => Err ErrCoordinationUnavailable
         | Ok lease => Ok (lease <| l_Token := "" |>)
         end
     | _ => Err ErrCoordinationUnavailable
     end, r').

Definition RenewSessionLease (lease : SessionLease) (r : Redis) : op bool :=
  if negb (Active lease) then (Err ErrInvalidCoordinationInput, r)
  else runFlag (coordinationLeaseRenewScript (leaseKey c (l_SessionID lease)) (wireOf lease) (Milliseconds (leaseTTL c))) r.

Definition ReleaseSessionLease (lease : SessionLease) (r : Redis) : op bool :=
  if negb (Active lease) then (Err ErrInvalidCoordinationInput, r)
  else runFlag (coordinationLeaseReleaseScript (leaseKey c (l_SessionID lease)) (wireOf lease)) r.

Definition ClearStaleSessionLease (expected : SessionLease) (r : Redis) : op bool :=
  if negb (Routable expected) then (Err ErrInvalidCoordinationInput, r)
  else runFlag (coordinationLeaseClearStaleScript (leaseKey c (l_SessionID expected)) (leaseRepairPrefix expected)) r.

Definition ConsumeConnectionTicket (ticket grant : string) (r : Redis) : op bool :=
  if negb (validTicket ticket) || (slen grant =? 0) || (MaximumTicketGrantBytes <? slen grant) then (Err ErrInvalidCoordinationInput, r)
  else runFlag (coordinationTicketConsumeScript (ticketKey c ticket) grant) r.
End Operations.

(** The owner summary of the administration ([admin/room/model.go]). *)
Definition OwnerFreshnessStale : string := "stale".
Definition OwnerFreshnessExpired : string := "expired".
Record OwnerLeaseSummary := mkOwnerSummary {
  os_SessionID : UUID;
  os_OwnerInstance : string;
  os_OwnerAddress : string;
  os_OwnershipEpoch : Z;
  os_Freshness : string;
  os_ObservedAt : Time;
  os_ExpiresAt : Time;
}.

Definition ClearStaleOwnerLease (c : GameCoordinator) (delivery : Delivery) (now : Z) (owner : OwnerLeaseSummary) (r : Redis)
  : result CoordinationError bool * Redis :=
  if (os_SessionID owner =? Nil)
     || negb (String.eqb (os_Freshness owner) OwnerFreshnessStale) && negb (String.eqb (os_Freshness owner) OwnerFreshnessExpired)
  then (Err ErrInvalidCoordinationInput, r)
  else ClearStaleSessionLease c delivery now
         (mkLease (os_SessionID owner) (os_OwnerInstance owner) (os_OwnerAddress owner) "" true (os_OwnershipEpoch owner)) r.

(** What the [i]-th turn of the loop draws, when Redis runs its request and what
    becomes of it. *)
Record Attempt := mkAttempt { at_entropy : option (list Z); at_now : Z; at_delivery : Delivery }.

Fixpoint issueAttempts (c : GameCoordinator) (turns : nat) (attempts : nat -> Attempt) (grant : string) (r : Redis)
  : result CoordinationError string * Redis :=
  match turns with
  | O => (Err ErrCoordinationUnavailable, r)
  | S turns' =>
      let attempt := attempts turns in
      match at_entropy attempt with
      | None => (Err ErrCoordinationUnavailable, r)
      | Some entropy =>
          let ticket := EncodeToString entropy in
          let '(allowed, r') := runFlag (at_delivery attempt) (at_now attempt)
            (coordinationTicketIssueScript (ticketKey c ticket) grant (Milliseconds (ticketTTL c))) r in
          match allowed with
          | Err e => (Err e, r')
          | Ok true => (Ok ticket, r')
          | Ok false => issueAttempts c turns' attempts grant r'
          end
      end
  end.
Definition IssueConnectionTicket (c : GameCoordinator) (attempts : nat -> Attempt) (grant : string) (r : Redis)
  : result CoordinationError string * Redis :=
  if (slen grant =? 0) || (MaximumTicketGrantBytes <? slen grant) then (Err ErrInvalidCoordinationInput, r)
  else issueAttempts c 3 attempts grant r.

(** ** Wake-ups *)
Record SessionFanoutEvent := mkFanoutEvent { fe_SessionID : UUID; fe_StateVersion : Z }.

Definition SessionFanoutEvent_Valid (event : SessionFanoutEvent) : bool :=
  negb (fe_SessionID event =? Nil) && (0 <? fe_StateVersion event).

Definition doubleQuote : string := String (ascii_of_nat 34) EmptyString.
Definition MarshalSessionFanoutEvent (event : SessionFanoutEvent) : result CoordinationError string :=
  if negb (SessionFanoutEvent_Valid event) then Err ErrInvalidCoordinationInput
  else Ok ("{" +:+ doubleQuote +:+ "session_id" +:+ doubleQuote +:+ ":" +:+ doubleQuote +:+ UUID_String (fe_SessionID event)
           +:+ doubleQuote +:+ "," +:+ doubleQuote +:+ "state_version" +:+ doubleQuote +:+ ":" +:+ pretty (fe_StateVersion event) +:+ "}").

Definition PublishSessionFanout (c : GameCoordinator) (delivery : Delivery) (event : SessionFanoutEvent) (r : Redis)
  : result CoordinationError unit * Redis :=
  match MarshalSessionFanoutEvent event with
  | Err e => (Err e, r)
  | Ok payload =>
      let published := r <| r_published := r_published r ++ [(fanoutChannel c, payload)] |> in
      match delivery with
      | Answered => (Ok tt, published)
      | Unanswered ran ctxDone =>
          (Err (if ctxDone then CoordinationContextDone else ErrCoordinationUnavailable), if ran then published else r)
      end
  end.

End Coordination.

Module CoordinationTheorems.
Import GoLib Selector GameContract Coordination.

(** ** Texts without the separator *)
Definition noBar (s : string) : Prop := Forall (fun c => byteOf c <> 124) (String.list_ascii_of_string s).
Definition bar : string := "|".

Lemma Split_cons c rest : byteOf c <> 124 ->
  Split (String c rest) = match Split rest with part :: parts => String c part :: parts | [] => [String c ""] end.
Proof. intros H%Z.eqb_neq. cbn [Split]. by rewrite H. Qed.

Lemma Split_part s rest : noBar s -> Split (s +:+ bar +:+ rest) = s :: Split rest.
Proof.
  unfold noBar. induction s as [|c s IH]; intros H; [done|]. apply Forall_cons in H as [Hc H].
  change (Split (String c (s +:+ bar +:+ rest)) = String c s :: Split rest). by rewrite Split_cons, IH.
Qed.

Lemma Split_last s : noBar s -> Split s = [s].
Proof.
  unfold noBar. induction s as [|c s IH]; intros H; [done|]. apply Forall_cons in H as [Hc H]. by rewrite Split_cons, IH.
Qed.

(** ** Numbers *)
Definition isDigit (c : ascii) : Prop := 48 <= byteOf c <= 57.

Lemma pretty_char_digit x : (x < 10)%N -> isDigit (pretty_N_char x) /\ digitOf (pretty_N_char x) = Some (Z.of_N x).
Proof.
  intros Hx. assert (x = 0 \/ x = 1 \/ x = 2 \/ x = 3 \/ x = 4 \/ x = 5 \/ x = 6 \/ x = 7 \/ x = 8 \/ x = 9)%N as H by lia.
  unfold isDigit. destruct_or! H; subst x; vm_compute; split; try done; split; discriminate.
Qed.

Lemma pretty_go_digits x s : Forall isDigit (String.list_ascii_of_string s) -> Forall isDigit (String.list_ascii_of_string (pretty_N_go x s)).
Proof.
  revert s. induction (N.lt_wf_0 x) as [x _ IH]; intros s Hs. destruct (decide (x = 0)%N) as [->|Hx]; [by rewrite pretty_N_go_0|].
  rewrite pretty_N_go_step by lia. apply IH; [apply N.div_lt; lia|]. constructor; [|done]. apply pretty_char_digit, N.mod_lt. done.
Qed.

Lemma pretty_noBar (z : Z) : noBar (pretty z).
Proof.
  assert (forall p, Forall isDigit (String.list_ascii_of_string (pretty (N.pos p)))) as Hp by (intros p; by apply pretty_go_digits).
  assert (forall s, Forall isDigit (String.list_ascii_of_string s) -> noBar s) as Hd
    by (intros s H; eapply Forall_impl; [exact H|]; intros c; unfold isDigit; lia).
  destruct z as [|p|p]; [repeat constructor; discriminate|apply Hd, (Hp p)|]. constructor; [discriminate|apply Hd, (Hp p)].
Qed.

Lemma parse_pretty_go x s : Z.of_N x <= maxUint64 -> parseDigits 0 (pretty_N_go x s) = parseDigits (Z.of_N x) s.
Proof.
  revert s. induction (N.lt_wf_0 x) as [x _ IH]; intros s Hmax. destruct (decide (x = 0)%N) as [->|Hx]; [by rewrite pretty_N_go_0|].
  pose proof (N.div_mod x 10 ltac:(done)) as Hdiv. rewrite pretty_N_go_step by lia. rewrite IH; [|apply N.div_lt; lia|].
  2:{ assert (x / 10 <= x)%N by (apply N.Div0.div_le_upper_bound; lia). lia. }
  cbn [parseDigits]. rewrite (proj2 (pretty_char_digit _ (N.mod_lt x 10 ltac:(done)))).
  assert (Z.of_N (x / 10) * 10 + Z.of_N (x mod 10) = Z.of_N x) as -> by lia.
  destruct (maxUint64 <? Z.of_N x) eqn:E; [to_prop; lia|done].
Qed.

Lemma ParseUint_pretty (z : Z) : 0 <= z <= maxUint64 -> ParseUint (pretty z) = Some z.
Proof.
  intros [H0 H1]. destruct z as [|p|p]; [done| |lia]. unfold ParseUint.
  assert (pretty (Z.pos p) = pretty_N_go (N.pos p) "") as -> by done.
  destruct (String.eqb _ _) eqn:E.
  - apply String.eqb_eq in E. apply (f_equal (parseDigits 0)) in E. rewrite parse_pretty_go in E by lia. done.
  - by rewrite parse_pretty_go.
Qed.

Lemma ParseUint_range s z : ParseUint s = Some z -> 0 <= z <= maxUint64.
Proof.
  unfold ParseUint. destruct (String.eqb s ""); [done|].
  assert (forall acc, 0 <= acc <= maxUint64 -> parseDigits acc s = Some z -> 0 <= z <= maxUint64) as H; [|apply H; by vm_compute].
  induction s as [|c s IH]; intros acc Hacc H; cbn [parseDigits] in H; [by injection H as <-|].
  destruct (digitOf c) as [d|] eqn:Ed; [|done]. unfold digitOf in Ed. destruct (_ && _) eqn:Eb; [|done]. injection Ed as <-. to_prop.
  destruct (_ <? _) eqn:E; [done|]. to_prop. eapply IH; [|exact H]. lia.
Qed.

(** ** Lease texts *)
Lemma leaseText_noBar s maximum : validLeaseText s maximum = true -> noBar s.
Proof.
  unfold validLeaseText. destruct (_ || _); [done|]. unfold noBar. rewrite forallb_forall, Forall_forall.
  intros H c Hc. apply list_elem_of_In, H in Hc. unfold leaseTextByte in Hc. to_prop. lia.
Qed.

Lemma ticket_noBar s : validTicket s = true -> noBar s.
Proof.
  unfold validTicket. destruct (negb _); [done|]. unfold StrictDecodeString. destruct (mapM _ _) as [values|] eqn:Em; [|done]. intros _.
  apply mapM_Some in Em. unfold noBar. rewrite Forall_forall. intros c Hc Hbar.
  assert (c ∈ List.filter (fun c => negb (lineBreak c)) (String.list_ascii_of_string s)) as Hf.
  { apply list_elem_of_In, filter_In. split; [by apply list_elem_of_In|]. unfold lineBreak. by rewrite Hbar. }
  apply list_elem_of_lookup in Hf as [i Hi]. eapply Forall2_lookup_l in Em as (v & _ & Hv); [|exact Hi].
  unfold valueOf in Hv. by rewrite Hbar in Hv.
Qed.

Lemma Split_wire owner address token ready epoch : noBar owner -> noBar address -> noBar token ->
  Split (encodeLeaseWire owner address token ready epoch) = ["v1"; if ready then "ready" else "claiming"; owner; address; pretty epoch; token]%string.
Proof.
  intros Ho Ha Ht. unfold encodeLeaseWire. pose proof (pretty_noBar epoch) as He.
  destruct ready; rewrite <- (Split_last token), <- (Split_part (pretty epoch)), <- (Split_part address), <- (Split_part owner) by done; reflexivity.
Qed.

Lemma wire_inj o a t rd e o' a' t' rd' e' : noBar o -> noBar a -> noBar t -> noBar o' -> noBar a' -> noBar t' ->
  encodeLeaseWire o a t rd e = encodeLeaseWire o' a' t' rd' e' -> o = o' /\ a = a' /\ t = t' /\ rd = rd' /\ e = e'.
Proof.
  intros ?????? H%(f_equal Split). rewrite !Split_wire in H by done. injection H as Hs -> -> He ->.
  apply (inj pretty) in He as ->. destruct rd, rd'; done.
Qed.

(** The fields of a lease fit together: the epoch is set when it is ready. *)
Record wellFormed (l : SessionLease) : Prop := {
  wf_active : Active l = true;
  wf_epoch : 0 <= l_OwnershipEpoch l <= maxUint64;
  wf_ready : l_Ready l = (0 <? l_OwnershipEpoch l);
}.

Lemma Active_parts l : Active l = true ->
  l_SessionID l <> Nil /\ validLeaseOwner (l_Owner l) = true /\ validLeaseAddress (l_Address l) = true /\ validTicket (l_Token l) = true.
Proof. unfold Active. intros H. to_prop. done. Qed.

Lemma Active_noBar l : Active l = true -> noBar (l_Owner l) /\ noBar (l_Address l) /\ noBar (l_Token l).
Proof. intros (_ & Ho & Ha & Ht)%Active_parts. split_and!; [by eapply leaseText_noBar|by eapply leaseText_noBar|by apply ticket_noBar]. Qed.

Lemma decode_wire l : wellFormed l -> decodeLeaseWire (l_SessionID l) (wireOf l) = Ok l.
Proof.
  intros [Hl He Hr]. destruct (Active_noBar _ Hl) as (Ho & Ha & Ht). destruct (Active_parts _ Hl) as (_ & Hvo & Hva & Hvt).
  unfold decodeLeaseWire, wireOf. rewrite Split_wire by done. rewrite Hvo, Hva, Hvt, ParseUint_pretty by done. cbn [negb orb].
  destruct l as [sid owner address token ready epoch]. cbn in *. rewrite Hr. destruct (0 <? epoch) eqn:E; to_prop; subst; cbn.
  - destruct (epoch =? 0) eqn:E0; to_prop; [lia|done].
  - assert (epoch = 0) as -> by lia. done.
Qed.

Lemma decode_wellFormed sid v l : sid <> Nil -> decodeLeaseWire sid v = Ok l -> wellFormed l /\ l_SessionID l = sid.
Proof.
  intros Hsid H. unfold decodeLeaseWire in H. destruct (Split v) as [|version [|status [|owner [|address [|text [|token []]]]]]]; try done.
  destruct (_ || _) eqn:Ev; [done|]. destruct (ParseUint text) as [epoch|] eqn:Ep; [|done]. apply ParseUint_range in Ep.
  destruct (_ || _) eqn:Es in H; [done|]. injection H as <-. to_prop. split; [|done]. constructor; cbn; [|done|].
  - unfold Active. cbn. apply Z.eqb_neq in Hsid. by rewrite Hsid, H5, H6, H7.
  - destruct (String.eqb status "ready") eqn:E; cbn in *; destruct (epoch =? 0) eqn:E0; try done; to_prop; destruct (0 <? epoch) eqn:E1; to_prop; try done; lia.
Qed.

(** ** Keys *)
Definition isUUID (u : UUID) : Prop := 0 <= u < 2 ^ 128.

Lemma leaseKey_inj c u v : isUUID u -> isUUID v -> leaseKey c u = leaseKey c v -> u = v.
Proof. intros Hu Hv H. unfold leaseKey in H. do 2 apply (inj (String.append _)) in H. by apply UUID_String_inj. Qed.

Lemma ticketKey_lease c ticket u : ticketKey c ticket <> leaseKey c u.
Proof. unfold ticketKey, leaseKey. by intros H%(inj (String.append _)). Qed.

(** ** The life of a lease *)

(** One request to the coordinator. *)
Inductive Operation :=
| OpIssue (attempts : nat -> Attempt) (grant : string)
| OpConsume (ticket grant : string)
| OpAcquire (entropy : option (list Z)) (sessionID : UUID) (owner address : string)
| OpPromote (lease : SessionLease) (ownershipEpoch : Z)
| OpLookup (sessionID : UUID)
| OpRenew (lease : SessionLease)
| OpRelease (lease : SessionLease)
| OpClear (expected : SessionLease)
| OpClearOwner (owner : OwnerLeaseSummary)
| OpPublish (event : SessionFanoutEvent).

Record Request := mkRequest { rq_now : Z; rq_delivery : Delivery; rq_operation : Operation }.

Definition perform (c : GameCoordinator) (r : Redis) (request : Request) : Redis :=
  let delivery := rq_delivery request in
  let now := rq_now request in
  match rq_operation request with
  | OpIssue attempts grant => (IssueConnectionTicket c attempts grant r).2
  | OpConsume ticket grant => (ConsumeConnectionTicket c delivery now ticket grant r).2
  | OpAcquire entropy sid owner address => (AcquireSessionLease c delivery now entropy sid owner address r).2
  | OpPromote lease epoch => (PromoteSessionLease c delivery now lease epoch r).2
  | OpLookup sid => (LookupSessionLease c delivery now sid r).2
  | OpRenew lease => (RenewSessionLease c delivery now lease r).2
  | OpRelease lease => (ReleaseSessionLease c delivery now lease r).2
  | OpClear expected => (ClearStaleSessionLease c delivery now expected r).2
  | OpClearOwner owner => (ClearStaleOwnerLease c delivery now owner r).2
  | OpPublish event => (PublishSessionFanout c delivery event r).2
  end.

(** A stale-lease repair that names the lease [l]: its session, owner, address and
    epoch.  Such a repair needs no token, and deletes [l] even before it expires. *)
Definition repairs (l : SessionLease) (sid : UUID) (owner address : string) (epoch : Z) : Prop :=
  sid = l_SessionID l /\ owner = l_Owner l /\ address = l_Address l /\ epoch = l_OwnershipEpoch l.

(** A request of another than the holder of [l]: it does not carry the token of
    [l], and it is no repair ([ClearStaleSessionLease], [ClearStaleOwnerLease])
    that names [l]. *)
Definition ofOthers (l : SessionLease) (operation : Operation) : Prop :=
  match operation with
  | OpAcquire _ sid _ _ => isUUID sid
  | OpPromote l' _ | OpRenew l' | OpRelease l' => isUUID (l_SessionID l') /\ l_Token l' <> l_Token l
  | OpClear e => isUUID (l_SessionID e) /\ ~ repairs l (l_SessionID e) (l_Owner e) (l_Address e) (l_OwnershipEpoch e)
  | OpClearOwner o => isUUID (os_SessionID o) /\ ~ repairs l (os_SessionID o) (os_OwnerInstance o) (os_OwnerAddress o) (os_OwnershipEpoch o)
  | OpIssue _ _ | OpConsume _ _ | OpLookup _ | OpPublish _ => True
  end.

(** Redis holds the text of [l] until [expires]. *)
Definition holds (c : GameCoordinator) (l : SessionLease) (expires : Z) (r : Redis) : Prop :=
  r_keys r !! leaseKey c (l_SessionID l) = Some (mkEntry (wireOf l) expires).

Lemma holds_GET c l expires now r : holds c l expires r -> now < expires -> GET now (leaseKey c (l_SessionID l)) r = Some (wireOf l).
Proof. unfold holds, GET. intros -> H. cbn [e_expires e_value]. apply Z.ltb_lt in H. by rewrite H. Qed.

(** A script that leaves the key alone. *)
Definition leaves (key : string) (script : Script) (now : Z) (r : Redis) : Prop := r_keys (script now r).2 !! key = r_keys r !! key.

Lemma runScript_leaves key delivery script now r :
  leaves key script now r -> r_keys (runScript delivery script now r).2 !! key = r_keys r !! key.
Proof. unfold leaves. intros H. destruct delivery as [|[] ?]; cbn; [by destruct (script now r)|exact H|done]. Qed.

Lemma runFlag_leaves key delivery script now r :
  leaves key script now r -> r_keys (runFlag delivery now script r).2 !! key = r_keys r !! key.
Proof. intros H. unfold runFlag. pose proof (runScript_leaves key delivery _ _ _ H). by destruct (runScript _ _ _ _). Qed.

(** Scripts on another key. *)
Ltac other_key :=
  unfold leaves, coordinationTicketIssueScript, coordinationTicketConsumeScript, coordinationLeaseAcquireScript, coordinationLeaseLookupScript,
    coordinationLeasePromoteScript, coordinationLeaseRenewScript, coordinationLeaseReleaseScript, coordinationLeaseClearStaleScript,
    SET_XX_KEEPTTL, PEXPIRE, SET_PX, DEL;
  repeat (case_match; simplify_eq); cbn; rewrite ?lookup_insert_ne, ?lookup_delete_ne by done; done.

Section OtherKeys.
Context (key k : string) (now : Z) (r : Redis) (Hk : k <> key).
Lemma issue_other grant ttl : leaves key (coordinationTicketIssueScript k grant ttl) now r. Proof. other_key. Qed.
Lemma consume_other grant : leaves key (coordinationTicketConsumeScript k grant) now r. Proof. other_key. Qed.
Lemma acquire_other wire ttl : leaves key (coordinationLeaseAcquireScript k wire ttl) now r. Proof. other_key. Qed.
Lemma promote_other wire ready : leaves key (coordinationLeasePromoteScript k wire ready) now r. Proof. other_key. Qed.
Lemma renew_other wire ttl : leaves key (coordinationLeaseRenewScript k wire ttl) now r. Proof. other_key. Qed.
Lemma release_other wire : leaves key (coordinationLeaseReleaseScript k wire) now r. Proof. other_key. Qed.
Lemma clear_other prefix : leaves key (coordinationLeaseClearStaleScript k prefix) now r. Proof. other_key. Qed.
End OtherKeys.

Lemma lookup_leaves key k now r : leaves key (coordinationLeaseLookupScript k) now r.
Proof. unfold leaves, coordinationLeaseLookupScript. by destruct (GET _ _ _). Qed.

(** Scripts on the key, when it holds another text. *)
Section SameKey.
Context (key stored : string) (now : Z) (r : Redis) (Hget : GET now key r = Some stored).
Lemma acquire_held wire ttl : coordinationLeaseAcquireScript key wire ttl now r = (RArray [RInt 0; RString stored], r).
Proof. unfold coordinationLeaseAcquireScript. by rewrite Hget. Qed.
Lemma promote_held wire ready : wire <> stored -> leaves key (coordinationLeasePromoteScript key wire ready) now r.
Proof.
  intros Hne. unfold leaves, coordinationLeasePromoteScript. rewrite Hget. destruct (String.eqb stored wire) eqn:E; [|done].
  by apply String.eqb_eq in E.
Qed.
Lemma renew_held wire ttl : wire <> stored -> leaves key (coordinationLeaseRenewScript key wire ttl) now r.
Proof.
  intros Hne. unfold leaves, coordinationLeaseRenewScript. rewrite Hget. destruct (String.eqb stored wire) eqn:E; [|done].
  by apply String.eqb_eq in E.
Qed.
Lemma release_held wire : wire <> stored -> leaves key (coordinationLeaseReleaseScript key wire) now r.
Proof.
  intros Hne. unfold leaves, coordinationLeaseReleaseScript. rewrite Hget. destruct (String.eqb stored wire) eqn:E; [|done].
  by apply String.eqb_eq in E.
Qed.
Lemma clear_held prefix : String.prefix prefix stored = false -> leaves key (coordinationLeaseClearStaleScript key prefix) now r.
Proof. intros Hp. unfold leaves, coordinationLeaseClearStaleScript. by rewrite Hget, Hp. Qed.
End SameKey.

Lemma append_assoc (s t u : string) : (s +:+ t) +:+ u = s +:+ (t +:+ u).
Proof. induction s as [|c s IH]; [done|]. exact (f_equal (String c) IH). Qed.

(** A repair matches only the lease it names. *)
Lemma prefix_app p s : String.prefix p s = true -> exists t, s = p +:+ t.
Proof.
  revert s. induction p as [|c p IH]; intros s H; [by exists s|]. destruct s as [|c' s]; [done|]. cbn in H.
  destruct (ascii_dec c c') as [->|]; [|done]. apply IH in H as [t ->]. by exists t.
Qed.

Lemma repair_matches l e : Active l = true -> Routable e = true -> String.prefix (leaseRepairPrefix e) (wireOf l) = true ->
  l_Owner e = l_Owner l /\ l_Address e = l_Address l /\ l_OwnershipEpoch e = l_OwnershipEpoch l.
Proof.
  intros (Ho & Ha & Ht)%Active_noBar He [t Hw]%prefix_app. unfold Routable in He. to_prop.
  assert (noBar (l_Owner e)) as Ho' by (by eapply leaseText_noBar). assert (noBar (l_Address e)) as Ha' by (by eapply leaseText_noBar).
  apply (f_equal Split) in Hw. unfold wireOf in Hw. rewrite Split_wire in Hw by done.
  assert (Split (leaseRepairPrefix e +:+ t) = "v1" :: "ready" :: l_Owner e :: l_Address e :: pretty (l_OwnershipEpoch e) :: Split t)%string as Hs.
  { rewrite <- (Split_part (pretty (l_OwnershipEpoch e))), <- (Split_part (l_Address e)), <- (Split_part (l_Owner e)) by (done || apply pretty_noBar).
    unfold leaseRepairPrefix. rewrite !append_assoc. reflexivity. }
  rewrite Hs in Hw. injection Hw as _ -> -> Hp _. apply (inj pretty) in Hp. done.
Qed.

Lemma wire_token l l' ready epoch : Active l = true -> Active l' = true -> l_Token l' <> l_Token l ->
  encodeLeaseWire (l_Owner l') (l_Address l') (l_Token l') ready epoch <> wireOf l.
Proof.
  intros (? & ? & ?)%Active_noBar (? & ? & ?)%Active_noBar Hne Hw. by apply wire_inj in Hw as (_ & _ & ? & _).
Qed.

Lemma clear_keeps c delivery now l expires e r : isUUID (l_SessionID l) -> isUUID (l_SessionID e) -> Active l = true ->
  ~ repairs l (l_SessionID e) (l_Owner e) (l_Address e) (l_OwnershipEpoch e) -> now < expires -> holds c l expires r ->
  holds c l expires (ClearStaleSessionLease c delivery now e r).2.
Proof.
  intros Hu Hu' Hl Hno Hnow Hh. unfold ClearStaleSessionLease. destruct (Routable e) eqn:Er; [|done]. cbn [negb].
  unfold holds. rewrite runFlag_leaves; [exact Hh|]. destruct (decide (leaseKey c (l_SessionID e) = leaseKey c (l_SessionID l))) as [Ek|Ek].
  - rewrite Ek. eapply clear_held; [by eapply holds_GET|]. destruct (String.prefix _ _) eqn:Ep; [|done]. destruct Hno.
    apply leaseKey_inj in Ek; [|done|done]. apply repair_matches in Ep as (? & ? & ?); done.
  - by apply clear_other.
Qed.

(** What another request leaves of a lease. *)
Lemma perform_keeps c l expires request r : isUUID (l_SessionID l) -> Active l = true -> rq_now request < expires ->
  ofOthers l (rq_operation request) -> holds c l expires r -> holds c l expires (perform c r request).
Proof.
  intros Hu Hl Hnow Hop Hh. pose proof (holds_GET _ _ _ _ _ Hh Hnow) as Hget. unfold perform.
  destruct (rq_operation request) as [attempts grant|ticket grant|entropy sid owner address|l' epoch|sid|l'|l'|e|o|event]; cbn [ofOthers] in Hop.
  - unfold IssueConnectionTicket. destruct (_ || _); [done|]. clear Hget. revert r Hh. generalize 3%nat as turns.
    induction turns as [|turns IH]; intros r Hh; cbn [issueAttempts]; [done|]. destruct (at_entropy _) as [entropy|]; [|done].
    pose proof (runFlag_leaves (leaseKey c (l_SessionID l)) (at_delivery (attempts (S turns))) _ (at_now (attempts (S turns))) r
      (issue_other _ _ (at_now (attempts (S turns))) r (ticketKey_lease c (EncodeToString entropy) (l_SessionID l)) grant (Milliseconds (ticketTTL c)))) as E.
    destruct (runFlag _ _ _ _) as [[[]|] r1]; cbn [snd] in *; [|apply IH|]; unfold holds; by rewrite E.
  - unfold ConsumeConnectionTicket. destruct (_ || _); [done|]. unfold holds. rewrite runFlag_leaves; [done|].
    apply consume_other, ticketKey_lease.
  - unfold AcquireSessionLease. destruct (_ || _); [done|]. destruct entropy as [entropy|]; [|done]. cbv zeta.
    match goal with |- context [runScript ?d ?s ?n ?x] => pose proof (runScript_leaves (leaseKey c (l_SessionID l)) d s n x) as E;
      destruct (runScript d s n x) as [reply r1] end. unfold holds. cbn [snd] in *. rewrite E; [done|].
    destruct (decide (leaseKey c sid = leaseKey c (l_SessionID l))) as [->|Hk]; [|by apply acquire_other].
    unfold leaves. by rewrite (acquire_held _ _ _ _ Hget).
  - destruct Hop as [Hu' Hne]. unfold PromoteSessionLease. destruct (_ || _) eqn:E; [done|]. to_prop. cbv zeta.
    match goal with |- context [runFlag ?d ?n ?s ?x] => pose proof (runFlag_leaves (leaseKey c (l_SessionID l)) d s n x) as E;
      destruct (runFlag d n s x) as [flag r1] end. unfold holds. cbn [snd] in *. rewrite E; [done|].
    destruct (decide (leaseKey c (l_SessionID l') = leaseKey c (l_SessionID l))) as [->|Hk]; [|by apply promote_other].
    eapply promote_held; [exact Hget|by apply wire_token].
  - unfold LookupSessionLease. destruct (_ =? _); [done|].
    match goal with |- context [runScript ?d ?s ?n ?x] => pose proof (runScript_leaves (leaseKey c (l_SessionID l)) d s n x) as E;
      destruct (runScript d s n x) as [reply r1] end. unfold holds. cbn [snd] in *. rewrite E; [done|apply lookup_leaves].
  - destruct Hop as [Hu' Hne]. unfold RenewSessionLease. destruct (Active l') eqn:Ea; [|done]. unfold holds. cbn [negb]. rewrite runFlag_leaves; [done|].
    destruct (decide (leaseKey c (l_SessionID l') = leaseKey c (l_SessionID l))) as [->|Hk]; [|by apply renew_other].
    eapply renew_held; [exact Hget|by apply wire_token].
  - destruct Hop as [Hu' Hne]. unfold ReleaseSessionLease. destruct (Active l') eqn:Ea; [|done]. unfold holds. cbn [negb]. rewrite runFlag_leaves; [done|].
    destruct (decide (leaseKey c (l_SessionID l') = leaseKey c (l_SessionID l))) as [->|Hk]; [|by apply release_other].
    eapply release_held; [exact Hget|by apply wire_token].
  - destruct Hop as [Hu' Hno]. by apply clear_keeps.
  - destruct Hop as [Hu' Hno]. unfold ClearStaleOwnerLease. destruct (_ || _); [done|]. by apply clear_keeps.
  - unfold PublishSessionFanout. destruct (MarshalSessionFanoutEvent event); [|done]. by destruct (rq_delivery request) as [|[] ?].
Qed.

Lemma requests_keep c l expires requests r : isUUID (l_SessionID l) -> Active l = true ->
  Forall (fun q => rq_now q < expires /\ ofOthers l (rq_operation q)) requests -> holds c l expires r ->
  holds c l expires (foldl (perform c) r requests).
Proof.
  intros Hu Hl Hall. revert r. induction Hall as [|q rest [Hn Ho] _ IH]; intros r Hh; [done|]. cbn [foldl]. by apply IH, perform_keeps.
Qed.

(** How a process comes by a lease that lasts until [expires]: it acquires it,
    publishes the epoch it was granted or renews it. *)
Inductive obtained (c : GameCoordinator) : SessionLease -> Z -> Redis -> Prop :=
| obtained_acquire delivery now entropy sid owner address r l r' :
    isUUID sid -> Forall is_u8 entropy -> AcquireSessionLease c delivery now (Some entropy) sid owner address r = (Ok (l, true), r') ->
    obtained c l (now + Milliseconds (leaseTTL c)) r'
| obtained_promote delivery now l expires r epoch text expires' l' r1 r2 :
    obtained c l expires r -> 0 < epoch <= maxUint64 -> r_keys r1 !! leaseKey c (l_SessionID l) = Some (mkEntry text expires') ->
    PromoteSessionLease c delivery now l epoch r1 = (Ok (l', true), r2) -> obtained c l' expires' r2
| obtained_renew delivery now l expires r r1 r2 :
    obtained c l expires r -> RenewSessionLease c delivery now l r1 = (Ok true, r2) ->
    obtained c l (now + Milliseconds (leaseTTL c)) r2.

Lemma runScript_Ok delivery script now r reply r' : runScript delivery script now r = (Ok reply, r') -> script now r = (reply, r').
Proof. unfold runScript. destruct delivery; [|done]. destruct (script now r). by intros [= -> ->]. Qed.

Lemma runFlag_true delivery script now r r' : runFlag delivery now script r = (Ok true, r') -> script now r = (RInt 1, r').
Proof.
  unfold runFlag. destruct (runScript _ _ _ _) as [[reply|] r1] eqn:E; [|done]. apply runScript_Ok in E. rewrite E. cbn.
  intros [= Hf ->]. destruct reply as [n| |]; try done. cbn in Hf. destruct (_ && _); [done|]. injection Hf as Hf%Z.eqb_eq. by subst.
Qed.

Lemma encode_noBar bytes : Forall is_u8 bytes -> noBar (EncodeToString bytes).
Proof.
  intros H%sextets_range. unfold noBar, EncodeToString. rewrite String.list_ascii_of_string_of_list_ascii, Forall_fmap.
  eapply Forall_impl; [exact H|]. intros v Hv Hbar. apply valueOf_charOf in Hv. unfold valueOf in Hv. by rewrite Hbar in Hv.
Qed.

Lemma GET_Some now key r text : GET now key r = Some text -> exists expires, r_keys r !! key = Some (mkEntry text expires) /\ now < expires.
Proof.
  unfold GET. destruct (r_keys r !! key) as [[text' expires]|]; [|done]. cbn. destruct (now <? expires) eqn:E; [|done].
  intros [= ->]. exists expires. split; [done|]. by apply Z.ltb_lt.
Qed.

Lemma acquired_holds c delivery now entropy sid owner address r l r' : Forall is_u8 entropy ->
  AcquireSessionLease c delivery now (Some entropy) sid owner address r = (Ok (l, true), r') ->
  wellFormed l /\ l_SessionID l = sid /\ holds c l (now + Milliseconds (leaseTTL c)) r'.
Proof.
  intros He H. unfold AcquireSessionLease in H. destruct (_ || _) eqn:Eg; [done|]. to_prop. cbv zeta in H.
  destruct (runScript _ _ _ _) as [[reply|] r1] eqn:Er; [|done]. apply runScript_Ok in Er. cbn [bind_result] in H.
  destruct reply as [| |[|[acquired| |] [|[|raw|] []]]]; try done. destruct (_ && _); [done|]. destruct (String.eqb raw ""); [done|].
  destruct (decodeLeaseWire sid raw) as [l'|] eqn:Ed; [|done]. destruct (acquired =? 1) eqn:Ea; [|done]. to_prop. subst acquired.
  destruct (negb _) eqn:Et; [done|]. injection H as -> ->. apply decode_wellFormed in Ed as Hwf; [|done]. destruct Hwf as [Hwf Hsid].
  unfold coordinationLeaseAcquireScript in Er. destruct (GET now _ r); [done|]. destruct (GET now _ (SET_PX _ _ _ _ r)) as [stored|] eqn:Eget; [|done].
  destruct (String.eqb _ _) eqn:Ew; [|done]. injection Er as <- <-. apply String.eqb_eq in Ew as ->. split_and!; [done|done|].
  unfold holds. rewrite Hsid. cbn. rewrite lookup_insert_eq. do 2 f_equal.
  unfold decodeLeaseWire in Ed. rewrite Split_wire in Ed; [|by eapply leaseText_noBar|by eapply leaseText_noBar|by apply encode_noBar].
  destruct (_ || _); [done|]. rewrite ParseUint_pretty in Ed by (unfold maxUint64; lia). by injection Ed as <-.
Qed.

Lemma obtained_holds c l expires r : obtained c l expires r -> wellFormed l /\ isUUID (l_SessionID l) /\ holds c l expires r.
Proof.
  induction 1 as [delivery now entropy sid owner address r l r' Hu He H|delivery now l expires r epoch text expires' l' r1 r2 _ (Hwf & Hu & _) He Hr1 H
    |delivery now l expires r r1 r2 _ (Hwf & Hu & _) H].
  - apply acquired_holds in H as (? & <- & ?); done.
  - unfold PromoteSessionLease in H. destruct (_ || _) eqn:E; [done|]. to_prop. cbv zeta in H. destruct (runFlag _ _ _ _) as [[[]|] r3] eqn:Ef; try done.
    injection H as <- ->. apply runFlag_true in Ef. unfold coordinationLeasePromoteScript in Ef. destruct (GET _ _ _); [|done].
    destruct (negb _); [done|]. unfold SET_XX_KEEPTTL in Ef. rewrite Hr1 in Ef. cbn in Ef. destruct (_ <? _); [|done]. injection Ef as <-.
    split_and!; [|done|].
    + destruct Hwf as [Ha _ _]. constructor; cbn; [exact Ha|lia|]. symmetry. by apply Z.ltb_lt.
    + unfold holds. cbn. by rewrite lookup_insert_eq.
  - unfold RenewSessionLease in H. destruct (Active l); [|done]. cbn [negb] in H. apply runFlag_true in H. unfold coordinationLeaseRenewScript in H.
    destruct (GET _ _ _) as [stored|] eqn:Eg; [|done]. destruct (negb _) eqn:Ew; [done|]. injection H as <-. split_and!; [done|done|].
    apply negb_false_iff, String.eqb_eq in Ew as ->. apply GET_Some in Eg as (e' & Hr1 & Hlt). unfold holds, PEXPIRE. rewrite Hr1. cbn.
    apply Z.ltb_lt in Hlt. rewrite Hlt. cbn. by rewrite lookup_insert_eq.
Qed.

(** ** The properties *)

(** C18: The text of a lease reads back as it was written.  Whatever a stored text
    decodes to is a usable lease of the session, with a token and with an epoch
    exactly when it is ready, whose own text decodes to it again; and no other
    lease of the session has that text, so that comparing texts, as the scripts
    do, compares owner, address, token, state and epoch. *)
Theorem lease_wire_roundtrip (sid : UUID) (text : string) (l : SessionLease) (Hsid : sid <> Nil) (Hdecoded : decodeLeaseWire sid text = Ok l) :
  wellFormed l /\ l_SessionID l = sid /\ decodeLeaseWire sid (wireOf l) = Ok l /\
  forall l', wellFormed l' -> l_SessionID l' = sid -> wireOf l' = wireOf l -> l' = l.
Proof.
  apply decode_wellFormed in Hdecoded as [Hwf <-]; [|done]. split_and!; [done|done|by apply decode_wire|].
  intros l' Hwf' E H. apply decode_wire in Hwf, Hwf'. rewrite E, H in Hwf'. congruence.
Qed.

Lemma prefix_append p t : String.prefix p (p +:+ t) = true.
Proof.
  induction p as [|a p IH]; [by destruct t|]. change (String a p +:+ t) with (String a (p +:+ t)).
  cbn [String.prefix]. destruct (ascii_dec a a); [exact IH|done].
Qed.

(** A repair that names a ready lease deletes it. *)
Lemma repair_clears c l expires now r : wellFormed l -> l_Ready l = true -> holds c l expires r -> now < expires ->
  exists r', ClearStaleSessionLease c Answered now (l <| l_Token := "" |>) r = (Ok true, r') /\ r_keys r' !! leaseKey c (l_SessionID l) = None.
Proof.
  intros Hwf Hready Hh Hnow. pose proof (Active_parts _ (wf_active _ Hwf)) as (Hs & Ho & Ha & _). pose proof (wf_ready _ Hwf) as He.
  unfold ClearStaleSessionLease.
  assert (Routable (l <| l_Token := "" |>) = true) as ->.
  { unfold Routable. cbn. rewrite Ho, Ha, Hready, <- He, Hready. apply Z.eqb_neq in Hs. by rewrite Hs. }
  cbn [negb]. unfold runFlag, runScript, coordinationLeaseClearStaleScript. change (l_SessionID (l <| l_Token := "" |>)) with (l_SessionID l).
  rewrite (holds_GET _ _ _ _ _ Hh Hnow).
  assert (String.prefix (leaseRepairPrefix (l <| l_Token := "" |>)) (wireOf l) = true) as ->.
  { assert (wireOf l = leaseRepairPrefix l +:+ l_Token l) as ->; [|exact (prefix_append (leaseRepairPrefix l) (l_Token l))].
    unfold leaseRepairPrefix, wireOf, encodeLeaseWire. rewrite Hready, !append_assoc. reflexivity. }
  cbn [negb]. eexists. split; [reflexivity|]. cbn. by rewrite lookup_delete_eq.
Qed.

(** C17: A lease keeps other processes out.  While a lease a process has acquired,
    promoted or renewed has not expired, and whatever requests of others were made
    meanwhile, answered or not, nobody else acquires the session: an attempt
    changes nothing and is told who the owner is, without the token.  The holder
    can still renew the lease, and give it up.  A request of others carries no
    token of the lease and is no stale-lease repair that names the owner, address
    and epoch of this very lease; that exception is needed, for such a repair
    deletes a ready lease that has not expired, without its token. *)
Theorem lease_exclusive (c : GameCoordinator) (l : SessionLease) (expires now : Z) (r : Redis) (requests : list Request)
    (Hgot : obtained c l expires r) (Hothers : Forall (fun q => rq_now q < expires /\ ofOthers l (rq_operation q)) requests)
    (Hnow : now < expires) :
  let r' := foldl (perform c) r requests in
  (forall delivery entropy owner address out r'',
     AcquireSessionLease c delivery now entropy (l_SessionID l) owner address r' = (out, r'') ->
     r'' = r' /\ forall found acquired, out = Ok (found, acquired) -> acquired = false /\ found = l <| l_Token := "" |>) /\
  (exists r'', RenewSessionLease c Answered now l r' = (Ok true, r'') /\ holds c l (now + Milliseconds (leaseTTL c)) r'') /\
  (exists r'', ReleaseSessionLease c Answered now l r' = (Ok true, r'') /\ r_keys r'' !! leaseKey c (l_SessionID l) = None) /\
  (l_Ready l = true -> exists r'', ClearStaleSessionLease c Answered now (l <| l_Token := "" |>) r' = (Ok true, r'') /\
     r_keys r'' !! leaseKey c (l_SessionID l) = None).
Proof.
  intros r'. apply obtained_holds in Hgot as (Hwf & Hu & Hh). pose proof (wf_active _ Hwf) as Ha.
  assert (holds c l expires r') as Hh' by (by apply requests_keep). pose proof (holds_GET _ _ _ _ _ Hh' Hnow) as Hget. split_and!.
  - intros delivery entropy owner address out r'' H. unfold AcquireSessionLease in H. destruct (_ || _); [by injection H as <- <-|].
    destruct entropy as [entropy|]; [|by injection H as <- <-]. cbv zeta in H. unfold runScript in H.
    rewrite (acquire_held _ _ _ _ Hget) in H. destruct delivery as [|[] ctxDone]; injection H as <- <-; (split; [done|]); try done.
    cbn [bind_result]. intros found acquired H. rewrite (decode_wire _ Hwf) in H. by injection H as <- <-.
  - unfold RenewSessionLease. rewrite Ha. cbn [negb]. unfold runFlag, runScript, coordinationLeaseRenewScript.
    rewrite Hget, String.eqb_refl. eexists. split; [reflexivity|]. unfold holds, PEXPIRE. rewrite Hh'. cbn. apply Z.ltb_lt in Hnow.
    rewrite Hnow. cbn. by rewrite lookup_insert_eq.
  - unfold ReleaseSessionLease. rewrite Ha. cbn [negb]. unfold runFlag, runScript, coordinationLeaseReleaseScript.
    rewrite Hget, String.eqb_refl. eexists. split; [reflexivity|]. cbn. by rewrite lookup_delete_eq.
  - intros Hready. by eapply repair_clears.
Qed.

(** ** A sample *)
Definition sampleCoordinator : GameCoordinator := mkCoordinator "night:" second (10 * second) (30 * second).
Definition sampleEntropy (b : Z) : list Z := replicate 32 b.
Definition sampleAcquired : result CoordinationError (SessionLease * bool) * Redis :=
  Eval vm_compute in AcquireSessionLease sampleCoordinator Answered 1000 (Some (sampleEntropy 7)) 71 "rt-1" "10.0.0.1:9000" emptyRedis.
Definition sampleLease : SessionLease := Eval vm_compute in match sampleAcquired.1 with Ok (l, _) => l | Err _ => noLease end.
Definition sampleRival : Request := mkRequest 2000 Answered (OpAcquire (Some (sampleEntropy 9)) 71 "rt-2" "10.0.0.2:9000").

Lemma lease_wire_roundtrip_witness : decodeLeaseWire 71 (wireOf sampleLease) = Ok sampleLease.
Proof.
  destruct (lease_wire_roundtrip 71 (wireOf sampleLease) sampleLease) as (_ & _ & H & _); [discriminate|vm_compute; reflexivity|exact H].
Defined.

Lemma lease_exclusive_witness :
  l_Owner sampleLease = "rt-1"%string /\
  exists r, RenewSessionLease sampleCoordinator Answered 30000 sampleLease (perform sampleCoordinator sampleAcquired.2 sampleRival) = (Ok true, r).
Proof.
  split; [reflexivity|].
  destruct (lease_exclusive sampleCoordinator sampleLease 31000 30000 sampleAcquired.2 [sampleRival]) as (_ & (r & H & _) & _).
  - eapply (obtained_acquire sampleCoordinator Answered 1000 (sampleEntropy 7) 71 "rt-1" "10.0.0.1:9000" emptyRedis sampleLease);
      [unfold isUUID; lia|by apply Forall_replicate|vm_compute; reflexivity].
  - constructor; [|constructor]. split; [vm_compute; reflexivity|]. unfold sampleRival, ofOthers, isUUID. cbn. lia.
  - lia.
  - exists r. exact H.
Defined.
End CoordinationTheorems.
