(* ===== verification/Owner.v ===== *)
(** * The owner of sessions

    [apps/realtime/internal/owner/manager.go]: a realtime process claims a
    session under a Redis lease, takes the next ownership epoch of the store and
    runs commands with the epoch it was granted.  A method is a program over the
    calls it makes: to the session store and the session service ([Service]), to
    the coordinator, and into the critical sections of the manager's mutex.

    The critical section that ends a claim after [Close] also releases the lease
    over the network; it is two sections here, between which the other methods
    of the manager may run. *)

From stdpp Require Import gmap.
From S2P Require Import Prelude GoLib Selector GameContract Room Runtime RuntimeCommit RuntimeCommands RuntimeStore RuntimeRepository RuntimeService Coordination.

Module Owner.
Import GoLib GameContract Runtime RuntimeCommit RuntimeCommands RuntimeRepository RuntimeService.
Import Coordination(SessionLease, l_SessionID, GameCoordinator, CoordinationError, SessionFanoutEvent, mkFanoutEvent).

(** ** Errors *)
Inductive OwnerError :=
| ErrInvalidConfig
| ErrOwnedElsewhere
| ErrOwnershipUnavailable
| ErrLeaseLost
| ErrClosed
| InService (e : ServiceError)
| InCoordination (e : CoordinationError)
(** The caller's context is done. *)
| CallerDone
(** [errors.Join] of the errors that are not nil. *)
| Joined (errors : list OwnerError).

Definition join (e : OwnerError) (other : option OwnerError) : OwnerError := Joined (e :: option_list other).
Definition joinAll (errors : list OwnerError) : option OwnerError := match errors with [] => None | _ => Some (Joined errors) end.

(** [errors.Is(err, ErrOwnershipUnavailable)]. *)
Fixpoint isUnavailable (e : OwnerError) : bool :=
  match e with
  | ErrOwnershipUnavailable => true
  | Joined errors => existsb isUnavailable errors
  | _ => false
  end.

(** ** State *)
Record Config := mkConfig {
  InstanceID : string;
  Address : string;
  LeaseTTL : Z;
  RenewInterval : Z;
}.

Record heldSession := mkHeld {
  h_lease : SessionLease;
  h_epoch : Z;
}.

Record claimCall := mkClaim {
  c_done : bool;
  c_state : option nat;
  c_err : option OwnerError;
}.

(** Pointers to [heldSession] and [claimCall] are indices into the objects made so
    far; [m_cancelled] has the held sessions whose own context was cancelled. *)
Record Manager := mkManager {
  m_config : Config;
  m_lifecycleDone : bool;
  m_objects : list heldSession;
  m_cancelled : list nat;
  m_held : gmap UUID nat;
  m_calls : list claimCall;
  m_claims : gmap UUID nat;
  m_running : bool;
  m_closed : bool;
  m_closeErr : option OwnerError;
}.
#[global] Instance manager_eta : Eta Manager := fun m => mkManager (m_config m) (m_lifecycleDone m) (m_objects m) (m_cancelled m)
  (m_held m) (m_calls m) (m_claims m) (m_running m) (m_closed m) (m_closeErr m).

Definition NewManager (config : Config) : result OwnerError Manager :=
  if negb (String.eqb (TrimSpace (InstanceID config)) (InstanceID config)) || String.eqb (InstanceID config) ""
     || negb (String.eqb (TrimSpace (Address config)) (Address config)) || String.eqb (Address config) ""
     || (LeaseTTL config <? Coordination.MinimumSessionLeaseTTL) || (Coordination.MaximumSessionLeaseTTL <? LeaseTTL config)
     || (RenewInterval config <=? 0) || (Z.quot (LeaseTTL config) 2 <? RenewInterval config)
  then Err ErrInvalidConfig
  else Ok (mkManager config false [] [] ∅ [] ∅ false false None).

(** [state.ctx.Err() != nil]: the lease context is a child of the lifecycle. *)
Definition ctxErr (m : Manager) (p : nat) : bool := m_lifecycleDone m || bool_decide (p ∈ m_cancelled m).

(** ** Critical sections *)
Inductive EnsureAnswer :=
| EnsureClosed
| EnsureHeld (epoch : Z)
| EnsurePending (call : nat)
| EnsureClaim (call : nat).

Definition held (m : Manager) (sessionID : UUID) : option (nat * heldSession) :=
  p ← m_held m !! sessionID;
  object ← m_objects m !! p;
  if ctxErr m p then None else Some (p, object).

(** The first section of [EnsureOwned]. *)
Definition ensureSection (sessionID : UUID) (m : Manager) : EnsureAnswer * Manager :=
  if m_closed m then (EnsureClosed, m)
  else match held m sessionID with
  | Some (_, state) => (EnsureHeld (h_epoch state), m)
  | None =>
      match m_claims m !! sessionID with
      | Some pending => (EnsurePending pending, m)
      | None =>
          let pending := length (m_calls m) in
          (EnsureClaim pending, m <| m_calls := m_calls m ++ [mkClaim false None None] |>
                                  <| m_claims := <[sessionID := pending]> (m_claims m) |>)
      end
  end.

Definition cancelHeld (p : nat) (m : Manager) : Manager := m <| m_cancelled := p :: m_cancelled m |>.
Definition settleClaim (pending : nat) (state : option nat) (err : option OwnerError) (m : Manager) : Manager :=
  m <| m_calls := <[pending := mkClaim true state err]> (m_calls m) |>.

(** The second section of [EnsureOwned]; [false] when the manager was closed and
    the lease is still to be released. *)
Definition claimedSection (sessionID : UUID) (pending : nat) (outcome : result OwnerError nat) (m : Manager) : bool * Manager :=
  let m := m <| m_claims := delete sessionID (m_claims m) |> in
  match outcome with
  | Ok p =>
      if negb (m_closed m) then (true, settleClaim pending (Some p) None (m <| m_held := <[sessionID := p]> (m_held m) |>))
      else (false, cancelHeld p m)
  | Err e => (true, settleClaim pending None (Some e) m)
  end.

(** The answer a settled claim has for those waiting for it. *)
Definition settledClaim (m : Manager) (pending : nat) : option (result OwnerError Z) :=
  call ← m_calls m !! pending;
  if negb (c_done call) then None
  else match c_err call with
  | Some e => Some (Err e)
  | None => p ← c_state call; object ← m_objects m !! p; Some (Ok (h_epoch object))
  end.

Definition ownedSection (sessionID : UUID) (m : Manager) : result OwnerError (nat * heldSession) :=
  if m_closed m then Err ErrClosed
  else match held m sessionID with
  | None => Err ErrOwnershipUnavailable
  | Some state => Ok state
  end.

Definition stillOwns (sessionID : UUID) (expected : nat) (m : Manager) : bool :=
  negb (m_closed m) && bool_decide (m_held m !! sessionID = Some expected) && negb (ctxErr m expected).

(** The held sessions, in some order of the map. *)
Definition heldStates (m : Manager) : list (nat * heldSession) :=
  omap (fun '(_, p) => (fun object => (p, object)) <$> m_objects m !! p) (map_to_list (m_held m)).

(** The first section of [Close]: the error of an earlier one, or what is to be
    released. *)
Definition closeSection (m : Manager) : option OwnerError + list (nat * heldSession) :=
  if m_closed m then inl (m_closeErr m) else inr (heldStates m).
Definition closed (states : list (nat * heldSession)) (m : Manager) : Manager :=
  m <| m_closed := true |> <| m_lifecycleDone := true |> <| m_cancelled := states.*1 ++ m_cancelled m |> <| m_held := ∅ |>.

Definition lose (p : nat) (m : Manager) : Manager :=
  match m_objects m !! p with
  | Some object =>
      if bool_decide (m_held m !! l_SessionID (h_lease object) = Some p)
      then cancelHeld p (m <| m_held := delete (l_SessionID (h_lease object)) (m_held m) |>)
      else m
  | None => m
  end.

Definition runSection (m : Manager) : result OwnerError unit * Manager :=
  if m_closed m || m_running m then (Err ErrClosed, m) else (Ok tt, m <| m_running := true |>).

(** ** Calls and programs *)
Inductive Wake :=
| ContextDone
| LifecycleDone
| Ticked.

Inductive OCall :=
(** [SessionStore], the clock and [Runtime] *)
| Service (c : Call)
(** [LeaseCoordinator] and [FanoutPublisher] *)
| LeaseAcquire (sessionID : UUID)
| LeasePromote (lease : SessionLease) (epoch : Z)
| LeaseRenew (lease : SessionLease)
| LeaseRelease (lease : SessionLease)
| FanoutPublish (event : SessionFanoutEvent)
(** The manager *)
| EnterEnsure (sessionID : UUID)
| AwaitClaim (pending : nat)
| NewHeld (lease : SessionLease) (epoch : Z)
| LeaveClaim (sessionID : UUID) (pending : nat) (outcome : result OwnerError nat)
| LeaveClosed (pending p : nat) (e : OwnerError)
| EnterOwned (sessionID : UUID)
| EnterStillOwns (sessionID : UUID) (expected : nat)
| EnterClose
| LeaveClose (e : option OwnerError)
| EnterRenew
| EnterLose (p : nat)
| EnterRun
| AwaitWake
| LeaveRun.

Definition OAnswer (c : OCall) : Type :=
  match c with
  | Service c => Answer c
  | LeaseAcquire _ | LeasePromote _ _ => result CoordinationError (SessionLease * bool)
  | LeaseRenew _ | LeaseRelease _ => result CoordinationError bool
  | FanoutPublish _ => result CoordinationError unit
  | EnterEnsure _ => EnsureAnswer
  (** [None]: the caller's context was done first. *)
  | AwaitClaim _ => option (result OwnerError Z)
  | NewHeld _ _ => nat
  | LeaveClaim _ _ _ => bool
  | LeaveClosed _ _ _ | LeaveClose _ | EnterLose _ | LeaveRun => unit
  | EnterOwned _ => result OwnerError (nat * heldSession)
  | EnterStillOwns _ _ => bool
  | EnterClose => option OwnerError + list (nat * heldSession)
  | EnterRenew => list (nat * heldSession)
  | EnterRun => result OwnerError unit
  | AwaitWake => Wake
  end.

Inductive OProg (A : Type) : Type :=
| ORet (value : A)
| ODo (c : OCall) (k : OAnswer c -> OProg A).
Arguments ORet {A} value.
Arguments ODo {A} c k.

Fixpoint oprog_bind {A B} (m : OProg A) (f : A -> OProg B) : OProg B :=
  match m with
  | ORet a => f a
  | ODo c k => ODo c (fun answer => oprog_bind (k answer) f)
  end.

Abbreviation own A := (OProg (result OwnerError A)).
Definition ofail {A} (e : OwnerError) : own A := ORet (Err e).
Definition otry {A B} (m : own A) (f : A -> own B) : own B :=
  oprog_bind m (fun r => match r with Ok a => f a | Err e => ORet (Err e) end).

Declare Scope own_scope.
Delimit Scope own_scope with own.
Notation "'ask*' x := c 'in' k" := (ODo c (fun x => k)) (at level 10, x name, k at level 200) : own_scope.
Notation "'run*' x := m 'in' k" := (oprog_bind m (fun x => k)) (at level 10, x name, k at level 200) : own_scope.
Notation "'try*' x := m 'in' k" := (otry m (fun x => k)) (at level 10, x name, k at level 200) : own_scope.
Notation "'try*' ' p := m 'in' k" := (otry m (fun x => match x with p => k end)) (at level 10, p pattern, k at level 200) : own_scope.
Local Open Scope own_scope.

(** A program of the session service, its errors passed on. *)
Fixpoint serviceCall {A} (p : svc A) : own A :=
  match p with
  | Ret (Ok a) => ORet (Ok a)
  | Ret (Err e) => ORet (Err (InService e))
  | Do c k => ODo (Service c) (fun answer => serviceCall (k answer))
  end.

(** ** Claiming *)
Definition release (lease : SessionLease) : OProg (option OwnerError) :=
  ask* released := LeaseRelease lease in
  ORet (match released with
        | Err e => Some (InCoordination e)
        | Ok false => Some ErrLeaseLost
        | Ok true => None
        end).

(** An error after the lease was acquired gives the lease up. *)
Definition giveUp {A} (lease : SessionLease) (e : OwnerError) : own A :=
  run* other := release lease in ofail (join e other).

Definition claim (sessionID : UUID) : own (nat * heldSession) :=
  ask* r := LeaseAcquire sessionID in
  match r with
  | Err e => ofail (InCoordination e)
  | Ok (lease, acquired) =>
      if negb acquired then ofail ErrOwnedElsewhere
      else
        ask* r := Service (CallGet sessionID) in
        match ofStore r with
        | Err e => giveUp lease (InService e)
        | Ok current =>
            if Terminal (s_Status current) then giveUp lease (InService (InRuntime ErrSessionTerminal))
            else
              ask* now := Service CallNow in
              let at_ := afterUpdate (RoundUTC now) (s_UpdatedAt current) in
              match AcquireOwnership current (s_OwnershipEpoch current) at_ with
              | Err e => giveUp lease (InService (InRuntime e))
              | Ok next =>
                  ask* r := Service (CallAcquire current next) in
                  match ofStore r with
                  | Err e => giveUp lease (InService e)
                  | Ok owned =>
                      ask* r := LeasePromote lease (s_OwnershipEpoch owned) in
                      match r with
                      | Err e => giveUp lease (InCoordination e)
                      | Ok (promotedLease, promoted) =>
                          if negb promoted then giveUp lease ErrLeaseLost
                          else
                            ask* p := NewHeld promotedLease (s_OwnershipEpoch owned) in
                            (ORet (Ok (p : nat, mkHeld promotedLease (s_OwnershipEpoch owned))) : own (nat * heldSession))
                      end
                  end
              end
        end
  end.

Definition EnsureOwned (sessionID : UUID) : own Z :=
  if sessionID =? Nil then ofail ErrOwnershipUnavailable
  else
    ask* r := EnterEnsure sessionID in
    match r with
    | EnsureClosed => ofail ErrClosed
    | EnsureHeld epoch => ORet (Ok epoch)
    | EnsurePending pending =>
        ask* r := AwaitClaim pending in
        match r with
        | None => ofail CallerDone
        | Some answer => ORet answer
        end
    | EnsureClaim pending =>
        run* outcome := claim sessionID in
        ask* kept := LeaveClaim sessionID pending (let* '(p, _) := outcome in Ok p) in
        match outcome with
        | Err e => ofail e
        | Ok (p, state) =>
            if kept then ORet (Ok (h_epoch state))
            else
              run* other := release (h_lease state) in
              ask* _ := LeaveClosed pending p (join ErrClosed other) in
              ofail (join ErrClosed other)
        end
    end.

(** ** Commands *)
Definition owned (sessionID : UUID) : own (nat * heldSession) :=
  if sessionID =? Nil then ofail ErrOwnershipUnavailable
  else ask* r := EnterOwned sessionID in ORet r.

Definition publish (session : Session) : own unit :=
  if (s_ID session =? Nil) || (StateVersion (s_State session) =? 0) then ofail (InService (InRuntime ErrInvalidSessionInput))
  else
    ask* r := FanoutPublish (mkFanoutEvent (s_ID session) (StateVersion (s_State session))) in
    ORet (match r with Ok _ => Ok tt | Err e => Err (InCoordination e) end).

(** A command under the epoch of a held session: the lease must still be held
    when it has run, and subscribers are woken. *)
Definition withEpoch {A} (sessionID : UUID) (state : nat * heldSession) (command : Z -> svc A) (session : A -> Session) : own A :=
  try* result := serviceCall (command (h_epoch state.2)) in
  ask* still := EnterStillOwns sessionID state.1 in
  if negb still then ofail ErrLeaseLost
  else
    try* _ := publish (session result) in
    ORet (Ok result).

Definition HandleAction (gated : bool) (command : ActionCommand) : own ActionResult :=
  try* state := owned (acm_SessionID command) in
  withEpoch (acm_SessionID command) state
    (fun epoch => RuntimeService.HandleAction gated (mkActionCommand (acm_SessionID command) (acm_ActorUserID command) (acm_ActionID command)
       (acm_ExpectedStateVersion command) epoch (acm_VersionKey command) (acm_Command command) (acm_RequestDigest command)))
    sv_Session.

Definition HandleTimer (due : DueTimer) : own TimerCommitResult :=
  try* state := owned (d_SessionID due) in
  withEpoch (d_SessionID due) state (fun epoch => RuntimeService.HandleTimer due epoch) tcr_Session.

Definition HandleSystem (command : SystemCommand) : own SystemCommitResult :=
  let sessionID := scm_SessionID command in
  if sessionID =? Nil then ofail ErrOwnershipUnavailable
  else
    run* r := owned sessionID in
    match r with
    | Ok state =>
        withEpoch sessionID state (fun epoch => RuntimeService.HandleSystem (command <| scm_OwnershipEpoch := epoch |>)) sr_Session
    | Err e =>
        if negb (isUnavailable e) then ofail e
        else
          try* current := serviceCall (getSession sessionID) in
          if negb (Terminal (s_Status current)) then ofail e
          else serviceCall (RuntimeService.HandleSystem (command <| scm_OwnershipEpoch := s_OwnershipEpoch current |>))
    end.

Definition Cancel (command : CancelCommand) : own (Room * Session) :=
  if (ccm_RoomID command =? Nil) || (ccm_SessionID command =? Nil) then ofail ErrOwnershipUnavailable
  else
    try* state := owned (ccm_SessionID command) in
    withEpoch (ccm_SessionID command) state
      (fun epoch => RuntimeService.Cancel (mkCancelCommand (ccm_RoomID command) (ccm_SessionID command) (ccm_ExpectedRoom command) epoch
         (ccm_OperationID command) (ccm_RequestDigest command) (ccm_Reason command) (ccm_CloseRoom command)))
      snd.

(** ** Lifecycle *)
Fixpoint releaseAll (states : list (nat * heldSession)) : OProg (list OwnerError) :=
  match states with
  | [] => ORet []
  | (_, state) :: rest =>
      run* other := release (h_lease state) in
      run* others := releaseAll rest in
      ORet (option_list other ++ others)
  end.

(** [nil] or the errors of the releases. *)
Definition Close : OProg (option OwnerError) :=
  ask* r := EnterClose in
  match r with
  | inl err => ORet err
  | inr states =>
      run* errors := releaseAll states in
      ask* _ := LeaveClose (joinAll errors) in
      ORet (joinAll errors)
  end.

Fixpoint renewAll (states : list (nat * heldSession)) : OProg unit :=
  match states with
  | [] => ORet tt
  | (p, state) :: rest =>
      ask* renewed := LeaseRenew (h_lease state) in
      match renewed with
      | Ok true => renewAll rest
      | _ => ask* _ := EnterLose p in renewAll rest
      end
  end.
Definition renewHeld : OProg unit := ask* states := EnterRenew in renewAll states.

(** The loop of [Run] for at most [wakes] turns. *)
Fixpoint runLoop (wakes : nat) : OProg (option OwnerError) :=
  match wakes with
  | O => ORet None
  | S wakes' =>
      ask* wake := AwaitWake in
      match wake with
      | ContextDone => Close
      | LifecycleDone => ORet None
      | Ticked => run* _ := renewHeld in runLoop wakes'
      end
  end.
Definition Run (wakes : nat) : OProg (option OwnerError) :=
  ask* r := EnterRun in
  match r with
  | Err e => ORet (Some e)
  | Ok _ =>
      run* result := runLoop wakes in
      ask* _ := LeaveRun in
      ORet result
  end.

End Owner.
