(* ===== verification/OwnerSystem.v ===== *)
(** * A cluster of owners

    Any number of realtime processes with their managers, over one store and one
    Redis, which may lose or change its keys at any time.  Every successful
    takeover in the store gives the process that made it the only permission for
    the new epoch ([allowed]), and a session is held under a permission. *)

From stdpp Require Import gmap relations.
From S2P Require Import Prelude GoLib Sha256 Selector GameManifest GameContract Outbox Room RoomStore Runtime RuntimeFacts RuntimeMoves RuntimeCommit RuntimeCommands RuntimeStore RuntimeQueries RuntimeRepository RuntimeStoreFacts RuntimeStoreEffects RuntimeStoreInvariant RuntimeStoreProgress RoomGameRepository RoomGameFacts RoomGameInvariant RoomGameTheorems DurableHistory RuntimeService ServiceSystem Coordination Owner.

Module OwnerSystem.
Import GoLib GameContract Runtime RuntimeFacts RuntimeMoves RuntimeCommit RuntimeCommands RuntimeStore RuntimeQueries RuntimeRepository RuntimeStoreFacts
  RuntimeStoreEffects RuntimeStoreInvariant RuntimeStoreProgress RoomGameInvariant RoomGameTheorems DurableHistory RuntimeService ServiceSystem Owner.
Import Coordination(SessionLease, l_SessionID, GameCoordinator, Redis).

(** ** Answers *)
Section Answers.
Context (coordinator : GameCoordinator).

Definition oanswers (c : OCall) (m : Manager) (t : Tables) (r : Redis) : OAnswer c -> Manager -> Tables -> Redis -> Prop :=
  match c return OAnswer c -> Manager -> Tables -> Redis -> Prop with
  | Service c => fun a m' t' r' => answers c t a t' /\ m' = m /\ r' = r
  | LeaseAcquire sid => fun a m' t' r' => m' = m /\ t' = t /\ exists delivery now entropy,
      Coordination.AcquireSessionLease coordinator delivery now entropy sid (InstanceID (m_config m)) (Address (m_config m)) r = (a, r')
  | LeasePromote lease epoch => fun a m' t' r' => m' = m /\ t' = t /\ exists delivery now,
      Coordination.PromoteSessionLease coordinator delivery now lease epoch r = (a, r')
  | LeaseRenew lease => fun a m' t' r' => m' = m /\ t' = t /\ exists delivery now,
      Coordination.RenewSessionLease coordinator delivery now lease r = (a, r')
  | LeaseRelease lease => fun a m' t' r' => m' = m /\ t' = t /\ exists delivery now,
      Coordination.ReleaseSessionLease coordinator delivery now lease r = (a, r')
  | FanoutPublish event => fun a m' t' r' => m' = m /\ t' = t /\ exists delivery,
      Coordination.PublishSessionFanout coordinator delivery event r = (a, r')
  | EnterEnsure sid => fun a m' t' r' => ensureSection sid m = (a, m') /\ t' = t /\ r' = r
  | AwaitClaim pending => fun a m' t' r' => (forall answer, a = Some answer -> settledClaim m pending = Some answer) /\ m' = m /\ t' = t /\ r' = r
  | NewHeld lease epoch => fun a m' t' r' =>
      a = length (m_objects m) /\ m' = m <| m_objects := m_objects m ++ [mkHeld lease epoch] |> /\ t' = t /\ r' = r
  | LeaveClaim sid pending outcome => fun a m' t' r' => claimedSection sid pending outcome m = (a, m') /\ t' = t /\ r' = r
  | LeaveClosed pending p e => fun a m' t' r' => m' = settleClaim pending (Some p) (Some e) m /\ t' = t /\ r' = r
  | EnterOwned sid => fun a m' t' r' => a = ownedSection sid m /\ m' = m /\ t' = t /\ r' = r
  | EnterStillOwns sid p => fun a m' t' r' => a = stillOwns sid p m /\ m' = m /\ t' = t /\ r' = r
  | EnterClose => fun a m' t' r' =>
      match a with
      | inl e => closeSection m = inl e /\ m' = m
      | inr states => exists some, closeSection m = inr some /\ states ≡ₚ some /\ m' = closed states m
      end /\ t' = t /\ r' = r
  | LeaveClose e => fun a m' t' r' => m' = m <| m_closeErr := e |> /\ t' = t /\ r' = r
  | EnterRenew => fun a m' t' r' => a ≡ₚ heldStates m /\ m' = m /\ t' = t /\ r' = r
  | EnterLose p => fun a m' t' r' => m' = lose p m /\ t' = t /\ r' = r
  | EnterRun => fun a m' t' r' => runSection m = (a, m') /\ t' = t /\ r' = r
  | AwaitWake => fun a m' t' r' => (a = LifecycleDone -> m_lifecycleDone m = true) /\ m' = m /\ t' = t /\ r' = r
  | LeaveRun => fun a m' t' r' => m' = m <| m_running := false |> /\ t' = t /\ r' = r
  end.

(** ** The cluster *)
Inductive ORequest :=
| ReqEnsure (sessionID : UUID)
| ReqOwnerAction (gated : bool) (command : ActionCommand)
| ReqOwnerTimer (due : DueTimer)
| ReqOwnerSystem (command : SystemCommand)
| ReqOwnerCancel (command : CancelCommand)
| ReqClose
| ReqRun (wakes : nat).

Inductive OTask :=
| otask {A : Type} (p : OProg A).

Definition ohandle (request : ORequest) : OTask :=
  match request with
  | ReqEnsure sid => otask (EnsureOwned sid)
  | ReqOwnerAction gated command => otask (HandleAction gated command)
  | ReqOwnerTimer due => otask (HandleTimer due)
  | ReqOwnerSystem command => otask (HandleSystem command)
  | ReqOwnerCancel command => otask (Cancel command)
  | ReqClose => otask Close
  | ReqRun wakes => otask (Run wakes)
  end.

Record Cluster := mkCluster {
  cl_tables : Tables;
  cl_seen : list Room;
  cl_redis : Redis;
  cl_managers : list Manager;
  (** The methods in progress, with the index of their manager. *)
  cl_tasks : list (nat * OTask);
}.

(** A process starts; a method is called, makes its next call or dies; the other
    requests of the system run; Redis changes in any way. *)
Inductive cluster_step : Cluster -> Cluster -> Prop :=
| cl_start t seen r ms tasks config m :
    NewManager config = Ok m -> cluster_step (mkCluster t seen r ms tasks) (mkCluster t seen r (ms ++ [m]) tasks)
| cl_arrival t seen r ms tasks pid request :
    cluster_step (mkCluster t seen r ms tasks) (mkCluster t seen r ms ((pid, ohandle request) :: tasks))
| cl_call t seen r before_ m after_ front rest {A} c (k : OAnswer c -> OProg A) a m' t' r' :
    oanswers c m t r a m' t' r' ->
    cluster_step (mkCluster t seen r (before_ ++ m :: after_) (front ++ (length before_, otask (ODo c k)) :: rest))
      (mkCluster t' seen r' (before_ ++ m' :: after_) (front ++ (length before_, otask (k a)) :: rest))
| cl_end t seen r ms front dead rest :
    cluster_step (mkCluster t seen r ms (front ++ dead :: rest)) (mkCluster t seen r ms (front ++ rest))
| cl_games t seen r ms tasks t' seen' :
    game_step (t, seen) (t', seen') -> cluster_step (mkCluster t seen r ms tasks) (mkCluster t' seen' r ms tasks)
| cl_lost t seen r ms tasks r' : cluster_step (mkCluster t seen r ms tasks) (mkCluster t seen r' ms tasks).

Definition clustered (cl : Cluster) : Prop :=
  rtc cluster_step (mkCluster emptyTables [] Coordination.emptyRedis [] []) cl.
End Answers.

(** ** Permissions *)
Abbreviation permission := (UUID * Z)%type.

(** What a call that was answered grants. *)
Definition grantedBy (c : Call) : Answer c -> list permission :=
  match c return Answer c -> list permission with
  | CallAcquire b _ => fun a => match a with Ok s => [(s_ID b, s_OwnershipEpoch s)] | Err _ => [] end
  | _ => fun _ => []
  end.

(** What a program may rely on of an answer. *)
Definition ofacts (c : OCall) : OAnswer c -> Prop :=
  match c return OAnswer c -> Prop with
  | Service (CallGet sid) => fun a => forall s, a = Ok s -> s_ID s = sid
  | LeaseAcquire sid => fun a => forall l, a = Ok (l, true) -> l_SessionID l = sid
  | LeasePromote lease _ => fun a => forall l, a = Ok (l, true) -> l_SessionID l = l_SessionID lease
  | _ => fun _ => True
  end.

(** A program with the permissions [ps] makes calls the repositories are made
    for, and holds a session only under a permission, which it then gives away. *)
Fixpoint allowed {A} (ps : list permission) (p : OProg A) (Q : list permission -> A -> Prop) : Prop :=
  match p with
  | ORet a => Q ps a
  | ODo c k =>
      match c as c return (OAnswer c -> OProg A) -> Prop with
      | Service c0 => fun k => okCall c0 /\ forall a, ofacts (Service c0) a -> allowed (grantedBy c0 a ++ ps) (k a) Q
      | NewHeld lease epoch => fun k => exists rest, ps ≡ₚ (l_SessionID lease, epoch) :: rest /\ forall a, allowed rest (k a) Q
      | c' => fun k => forall a, ofacts c' a -> allowed ps (k a) Q
      end k
  end.
Abbreviation Allowed ps p := (allowed ps p (fun _ _ => True)).

Lemma allowed_bind {A B} (m : OProg A) (f : A -> OProg B) ps Q R :
  allowed ps m Q -> (forall ps' a, Q ps' a -> allowed ps' (f a) R) -> allowed ps (oprog_bind m f) R.
Proof.
  intros Hm Hf. revert ps Hm. induction m as [a|c k IH]; intros ps Hm; [by apply Hf|]. cbn [oprog_bind].
  destruct c; cbn [allowed] in *; try (intros a Ha; by apply IH, Hm).
  - destruct Hm as [Hc Hk]. split; [done|]. intros a Ha. by apply IH, Hk.
  - destruct Hm as (rest & Hp & Hk). exists rest. split; [done|]. intros a. by apply IH, Hk.
Qed.

Lemma Allowed_bind {A B} (m : OProg A) (f : A -> OProg B) ps :
  Allowed ps m -> (forall ps' a, Allowed ps' (f a)) -> Allowed ps (oprog_bind m f).
Proof. intros Hm Hf. eapply allowed_bind; [exact Hm|]. intros ps' a _. apply Hf. Qed.

Lemma Allowed_try {A B} (m : own A) (f : A -> own B) ps : Allowed ps m -> (forall ps' a, Allowed ps' (f a)) -> Allowed ps (otry m f).
Proof. intros Hm Hf. apply Allowed_bind; [done|]. intros ps' [a|e]; [apply Hf|done]. Qed.

(** The programs of the service hold nothing. *)
Lemma serviceCall_allowed {A} (p : svc A) Q ps : safe p Q -> Allowed ps (serviceCall p).
Proof.
  revert ps. induction p as [[a|e]|c k IH]; intros ps Hp; [done|done|]. destruct Hp as [Hc Hk]. split; [done|]. intros a _. by apply IH.
Qed.

Create HintDb owns.
Hint Resolve serviceCall_allowed HandleAction_safe HandleTimer_safe HandleSystem_safe Cancel_safe getSession_safe : owns.
Ltac own_step :=
  lazymatch goal with
  | |- allowed _ (ORet _) _ => exact I
  | |- allowed _ (ofail _) _ => exact I
  | |- allowed _ (ODo (Service _) _) _ => split; [try done|intros ? ?]
  | |- allowed _ (ODo _ _) _ => intros ? ?
  | |- allowed _ (otry _ _) _ => apply Allowed_try; [solve [eauto with owns]|intros ? ?]
  | |- allowed _ (oprog_bind _ _) _ => apply Allowed_bind; [solve [eauto with owns]|intros ? ?]
  | |- allowed _ (match ?x with _ => _ end) _ => destruct x eqn:?
  | |- allowed _ (let '_ := ?x in _) _ => destruct x eqn:?
  end.
Ltac own_run := repeat (own_step; cbv beta zeta).

Lemma release_allowed lease ps : Allowed ps (release lease).
Proof. unfold release. own_run. Qed.
Hint Resolve release_allowed : owns.

Lemma giveUp_allowed {A} lease e ps : Allowed ps (@giveUp A lease e).
Proof. unfold giveUp. own_run. Qed.

(** A claim gives the permission of its takeover to the session it holds. *)
Lemma claim_allowed sid ps : Allowed ps (claim sid).
Proof.
  unfold claim. intros a Ha. destruct a as [[lease acquired]|e]; [|exact I]. destruct acquired; [|exact I]. cbn [negb]. specialize (Ha _ eq_refl).
  split; [done|]. intros a Hget. destruct (ofStore a) as [current|e] eqn:Ea; [|apply giveUp_allowed].
  assert (s_ID current = sid) as Hid by (apply Hget; destruct a as [|[]]; try done; by injection Ea as ->).
  destruct (Terminal _); [apply giveUp_allowed|]. split; [done|]. intros now _. cbv zeta.
  destruct (AcquireOwnership _ _ _) as [next|e]; [|apply giveUp_allowed]. split; [done|]. intros b _.
  destruct (ofStore b) as [owned|e] eqn:Eb; [|apply giveUp_allowed]. assert (b = Ok owned) as -> by (destruct b as [|[]]; try done; by injection Eb as ->).
  cbn [grantedBy app]. intros a1 Ha1. destruct a1 as [[promotedLease promoted]|e]; [|apply giveUp_allowed].
  destruct promoted; [|apply giveUp_allowed]. cbn [negb]. specialize (Ha1 _ eq_refl). exists ps. split; [|done].
  by rewrite Ha1, Ha, Hid.
Qed.
Hint Resolve claim_allowed : owns.

Lemma EnsureOwned_allowed sid ps : Allowed ps (EnsureOwned sid).
Proof. unfold EnsureOwned. own_run. Qed.

Lemma owned_allowed sid ps : Allowed ps (owned sid).
Proof. unfold owned. own_run. Qed.

Lemma publish_allowed session ps : Allowed ps (publish session).
Proof. unfold publish. own_run. Qed.
Hint Resolve owned_allowed publish_allowed : owns.

Lemma withEpoch_allowed {A} sid state (command : Z -> svc A) session ps : (forall epoch, safe (command epoch) (fun _ => True)) ->
  Allowed ps (withEpoch sid state command session).
Proof. intros H. unfold withEpoch. own_run. Qed.

Lemma HandleAction_allowed gated command ps : Allowed ps (HandleAction gated command).
Proof. unfold HandleAction. own_run. apply withEpoch_allowed. intros epoch. by eapply safe_True, HandleAction_safe. Qed.
Lemma HandleTimer_allowed due ps : Allowed ps (HandleTimer due).
Proof. unfold HandleTimer. own_run. apply withEpoch_allowed. intros epoch. by eapply safe_True, HandleTimer_safe. Qed.
Lemma HandleSystem_allowed command ps : Allowed ps (HandleSystem command).
Proof.
  unfold HandleSystem. cbv zeta. own_run; eauto with owns. apply withEpoch_allowed. intros epoch. by eapply safe_True, HandleSystem_safe.
Qed.
Lemma Cancel_allowed command ps : Allowed ps (Cancel command).
Proof. unfold Cancel. own_run. apply withEpoch_allowed. intros epoch. by eapply safe_True, Cancel_safe. Qed.

Lemma releaseAll_allowed states ps : Allowed ps (releaseAll states).
Proof. revert ps. induction states as [|[p state] rest IH]; intros ps; cbn [releaseAll]; [exact I|]. own_run. Qed.
Hint Resolve releaseAll_allowed : owns.
Lemma Close_allowed ps : Allowed ps Close.
Proof. unfold Close. own_run. Qed.
Hint Resolve Close_allowed : owns.
Lemma renewAll_allowed states ps : Allowed ps (renewAll states).
Proof. revert ps. induction states as [|[p state] rest IH]; intros ps; cbn [renewAll]; [exact I|]. own_run; apply IH. Qed.
Lemma renewHeld_allowed ps : Allowed ps renewHeld.
Proof. unfold renewHeld. own_run. apply renewAll_allowed. Qed.
Hint Resolve renewHeld_allowed : owns.
Lemma runLoop_allowed wakes ps : Allowed ps (runLoop wakes).
Proof. revert ps. induction wakes as [|wakes IH]; intros ps; cbn [runLoop]; [exact I|]. own_run; eauto with owns. Qed.
Hint Resolve runLoop_allowed : owns.
Lemma Run_allowed wakes ps : Allowed ps (Run wakes).
Proof. unfold Run. own_run. Qed.

Definition allowedTask (ps : list permission) (pending : nat * OTask) : Prop := match pending.2 with otask p => Allowed ps p end.

Lemma ohandle_allowed pid request : allowedTask [] (pid, ohandle request).
Proof.
  destruct request; [apply EnsureOwned_allowed|apply HandleAction_allowed|apply HandleTimer_allowed|apply HandleSystem_allowed
    |apply Cancel_allowed|apply Close_allowed|apply Run_allowed].
Qed.

(** ** The permissions of a cluster are distinct *)
Definition heldAs (h : heldSession) : permission := (l_SessionID (h_lease h), h_epoch h).
Definition holdings (ms : list Manager) : list permission := ms ≫= fun m => heldAs <$> m_objects m.

(** A permission for an epoch the store has granted. *)
Definition issued (t : Tables) (given : permission) : Prop :=
  exists row, game_sessions t !! given.1 = Some row /\ given.2 <= g_OwnershipEpoch row.

Lemma issued_later t t' given : durable t t' -> issued t given -> issued t' given.
Proof. intros Hd (row & Hrow & Hle). apply (k_epochs _ _ Hd) in Hrow as (row' & Hrow' & ?). exists row'. split; [done|lia]. Qed.

Lemma acquire_grants fault b next t s t' : StoreInv t -> StoreInv t' -> AcquireOwnershipCAS fault b next t = (Ok s, t') ->
  exists row row', game_sessions t !! s_ID b = Some row /\ game_sessions t' !! s_ID b = Some row' /\
    s_OwnershipEpoch s = g_OwnershipEpoch row + 1 /\ g_OwnershipEpoch row' = s_OwnershipEpoch s.
Proof.
  intros Hinv Hinv' H. apply AcquireOwnershipCAS_inv in H as (_ & row & Hre & _ & _ & _ & Hload); [|apply Hinv].
  destruct (loaded_row _ _ _ (st_sessions _ Hinv') Hload) as (row' & Hrow' & _ & _ & _ & Hep & _). exists row, row'.
  split_and!; [apply Hre|done| |done]. rewrite (re_sessions _ _ _ _ _ Hre), lookup_insert_eq in Hrow'. injection Hrow' as <-. rewrite <- Hep. done.
Qed.

Lemma granted_fresh c t a t' given : StoreInv t -> StoreInv t' -> answers c t a t' -> given ∈ grantedBy c a -> issued t' given /\ ~ issued t given.
Proof.
  intros Hinv Hinv' H Hin. destruct c; cbn in Hin; try (by apply not_elem_of_nil in Hin). destruct a as [s|]; [|by apply not_elem_of_nil in Hin].
  apply list_elem_of_singleton in Hin as ->. destruct H as [fault H]. apply acquire_grants in H as (row & row' & Hrow & Hrow' & E & E'); [|done|done].
  split.
  - exists row'. cbn. split; [done|lia].
  - intros (row0 & Hrow0 & Hle). cbn in *. assert (row0 = row) as -> by congruence. lia.
Qed.

Lemma granted_NoDup c a : NoDup (grantedBy c a).
Proof. destruct c; cbn; try apply NoDup_nil_2. destruct a; [apply NoDup_singleton|apply NoDup_nil_2]. Qed.

(** Answers are what programs rely on. *)
Lemma acquired_session c delivery now entropy sid owner address r l r' :
  Coordination.AcquireSessionLease c delivery now entropy sid owner address r = (Ok (l, true), r') -> l_SessionID l = sid.
Proof.
  unfold Coordination.AcquireSessionLease. destruct (_ || _); [done|]. destruct entropy as [entropy|]; [|done]. cbv zeta.
  destruct (Coordination.runScript _ _ _ _) as [[reply|] r1]; [|done]. cbn [bind_result]. intros [= H ->].
  destruct reply as [| |[|[acquired| |] [|[|raw|] []]]]; try done. destruct (_ && _); [done|]. destruct (String.eqb _ _); [done|].
  destruct (Coordination.decodeLeaseWire sid raw) as [l'|] eqn:Ed; [|done].
  assert (l_SessionID l' = sid) as E.
  { unfold Coordination.decodeLeaseWire in Ed. repeat (case_match; try done). by injection Ed as <-. }
  destruct (acquired =? 1); [|done]. destruct (negb _); [done|]. by injection H as ->.
Qed.

Lemma promoted_session c delivery now lease epoch r l r' :
  Coordination.PromoteSessionLease c delivery now lease epoch r = (Ok (l, true), r') -> l_SessionID l = l_SessionID lease.
Proof.
  unfold Coordination.PromoteSessionLease. destruct (_ || _); [done|]. cbv zeta. destruct (Coordination.runFlag _ _ _ _) as [[[]|] r1]; try done.
  by intros [= <- ->].
Qed.

Lemma oanswers_facts coordinator c m t r a m' t' r' : StoreInv t -> oanswers coordinator c m t r a m' t' r' -> ofacts c a.
Proof.
  intros Hinv H. destruct c as [c| | | | | | | | | | | | | | | | | | |]; cbn in H |- *; try done.
  - destruct H as [H _]. destruct c; try done. cbn in H |- *. intros s ->. destruct H as [fault H]. apply Get_inv in H.
    by destruct (loaded_row _ _ _ (st_sessions _ Hinv) H) as (? & _ & _ & _ & _ & _ & _ & ? & _).
  - intros l ->. destruct H as (_ & _ & delivery & now & entropy & H). by eapply acquired_session.
  - intros l ->. destruct H as (_ & _ & delivery & now & H). by eapply promoted_session.
Qed.

(** The permissions of the tasks and the held sessions, as one list. *)
Abbreviation total perms ms := (concat perms ++ holdings ms).

Lemma total_split pf ps pr before_ (m : Manager) after_ :
  total (pf ++ ps :: pr) (before_ ++ m :: after_) ≡ₚ
  (ps ++ (heldAs <$> m_objects m)) ++ (concat pf ++ concat pr ++ holdings before_ ++ holdings after_).
Proof. unfold holdings. rewrite concat_app, bind_app. cbn. solve_Permutation. Qed.

Definition sound (t : Tables) (given : list permission) : Prop := NoDup given /\ Forall (issued t) given.

#[local] Instance sound_proper t : Proper (Permutation ==> iff) (sound t).
Proof. intros l l' H. unfold sound. by rewrite H. Qed.

Lemma sound_later t t' given : durable t t' -> sound t given -> sound t' given.
Proof. intros Hd [Hn Hi]. split; [done|]. eapply Forall_impl; [exact Hi|]. intros x. by apply issued_later. Qed.

Lemma sound_drop t l l' : sound t (l ++ l') -> sound t l'.
Proof. intros [(_ & _ & Hn)%NoDup_app [_ Hi]%Forall_app]. done. Qed.

Lemma sound_grant t granted l : sound t l -> NoDup granted -> (forall given, given ∈ granted -> issued t given /\ given ∉ l) -> sound t (granted ++ l).
Proof.
  intros [Hn Hi] Hg Hnew. split.
  - apply NoDup_app. split_and!; [done|intros x Hx; by apply Hnew|done].
  - apply Forall_app. split; [|done]. apply Forall_forall. intros x Hx; by apply Hnew.
Qed.

Record ClusterOK (cl : Cluster) : Prop := {
  ck_games : game_reachable (cl_tables cl, cl_seen cl);
  ck_permissions : exists perms, Forall2 allowedTask perms (cl_tasks cl) /\ sound (cl_tables cl) (total perms (cl_managers cl));
}.

Lemma game_StoreInv t seen : game_reachable (t, seen) -> StoreInv t.
Proof. intros [Hok _]%game_reachable_ok. apply Hok. Qed.

(** What a call does to the permissions of its caller and the sessions of its
    manager. *)
Lemma call_permissions coordinator {A} c (k : OAnswer c -> OProg A) ps m t seen r a m' t' r' :
  game_reachable (t, seen) -> Allowed ps (ODo c k) -> oanswers coordinator c m t r a m' t' r' ->
  game_reachable (t', seen) /\ durable t t' /\ exists granted ps',
    Allowed ps' (k a) /\ ps' ++ (heldAs <$> m_objects m') ≡ₚ granted ++ ps ++ (heldAs <$> m_objects m) /\
    NoDup granted /\ forall given, given ∈ granted -> issued t' given /\ ~ issued t given.
Proof.
  intros Hr Hp H. pose proof (game_StoreInv _ _ Hr) as Hinv. pose proof (oanswers_facts _ _ _ _ _ _ _ _ _ Hinv H) as Hfacts.
  assert (m_objects m' = m_objects m -> t' = t -> Allowed ps (k a) -> game_reachable (t', seen) /\ durable t t' /\ exists granted ps',
    Allowed ps' (k a) /\ ps' ++ (heldAs <$> m_objects m') ≡ₚ granted ++ ps ++ (heldAs <$> m_objects m) /\
    NoDup granted /\ forall given, given ∈ granted -> issued t' given /\ ~ issued t given) as Hsame.
  { intros E -> Ha. split_and!; [done|done|]. exists [], ps. split_and!; [done|by rewrite E|apply NoDup_nil_2|by intros ? ?%not_elem_of_nil]. }
  destruct c as [c|sid|lease epoch|lease|lease|event|sid|pending|lease epoch|sid pending outcome|pending p e|sid|sid p| |e| |p| | |];
    cbn [allowed] in Hp; cbn [oanswers] in H;
    try (apply Hsame; [| |by apply Hp]; by (destruct_and! H; subst)).
  - destruct H as (H & -> & _). destruct Hp as [Hc Hk].
    assert (rtc game_step (t, seen) (t', seen)) as Hstep by (by eapply call_step).
    assert (game_reachable (t', seen)) as Hr' by (unfold game_reachable in *; by etrans). split_and!; [done|exact (game_steps_durable _ _ Hstep)|].
    exists (grantedBy c a), (grantedBy c a ++ ps). split_and!; [by apply Hk|by rewrite (assoc_L (++))|apply granted_NoDup|].
    intros given Hin. eapply granted_fresh; [done|by eapply game_StoreInv|exact H|exact Hin].
  - apply Hsame; [|by destruct_and! H|by apply Hp]. destruct H as (H & _). unfold ensureSection in H.
    repeat (case_match; simplify_eq); done.
  - destruct H as (_ & -> & -> & _). destruct Hp as (rest & Hperm & Hk). split_and!; [done|done|]. exists [], rest. split_and!.
    + apply Hk.
    + cbn. rewrite fmap_app, Hperm. cbn. unfold heldAs at 2. cbn. solve_Permutation.
    + apply NoDup_nil_2.
    + by intros ? ?%not_elem_of_nil.
  - apply Hsame; [|by destruct_and! H|by apply Hp]. destruct H as (H & _). unfold claimedSection in H. cbv zeta in H.
    destruct outcome; [destruct (negb _)|]; by injection H as _ <-.
  - apply Hsame; [|by destruct_and! H|by apply Hp]. destruct H as (H & _).
    destruct a; [by destruct H as [_ ->]|by destruct H as (? & _ & _ & ->)].
  - apply Hsame; [|by destruct_and! H|by apply Hp]. destruct H as (-> & _). unfold lose. repeat (case_match; try done).
  - apply Hsame; [|by destruct_and! H|by apply Hp]. destruct H as (H & _). unfold runSection in H. destruct (_ || _); by injection H as _ <-.
Qed.

Lemma cluster_step_ok coordinator cl cl' : cluster_step coordinator cl cl' -> ClusterOK cl -> ClusterOK cl'.
Proof.
  intros Hstep [Hr (perms & Hall & Hsound)].
  destruct Hstep as [t seen r ms tasks config m Hm|t seen r ms tasks pid request|t seen r before_ m after_ front rest A c k a m' t' r' Ha
    |t seen r ms front dead rest|t seen r ms tasks t' seen' Hg|t seen r ms tasks r']; cbn in *.
  - split; [done|]. exists perms. split; [done|]. cbn. unfold NewManager in Hm. destruct (_ || _); [done|]. injection Hm as <-.
    unfold holdings. rewrite bind_app. cbn. by rewrite app_nil_r.
  - split; [done|]. exists ([] :: perms). split; [|done]. constructor; [apply ohandle_allowed|done].
  - apply Forall2_app_inv_r in Hall as (pf & pr & Hf & Hrest & ->). apply Forall2_cons_inv_r in Hrest as (ps & pr' & Hp & Hrest & ->).
    destruct (call_permissions _ _ _ _ _ _ _ _ _ _ _ _ Hr Hp Ha) as (Hr' & Hd & granted & ps' & Hk & Hperm & Hn & Hnew).
    split; [done|]. exists (pf ++ ps' :: pr'). split; [by apply Forall2_app; [|constructor]|]. cbn.
    rewrite total_split in Hsound |- *. rewrite Hperm, <- (assoc_L (++)). apply sound_grant; [by eapply sound_later|done|].
    intros given Hin. destruct (Hnew _ Hin) as [Hi Hold]. split; [done|]. intros Hold'. destruct Hold.
    by eapply Forall_forall in Hold'; [|apply Hsound].
  - apply Forall2_app_inv_r in Hall as (pf & pr & Hf & Hrest & ->). apply Forall2_cons_inv_r in Hrest as (ps & pr' & _ & Hrest & ->).
    split; [done|]. exists (pf ++ pr'). split; [by apply Forall2_app|]. cbn. apply (sound_drop _ ps).
    rewrite concat_app in Hsound |- *. cbn in Hsound. eapply sound_proper; [|exact Hsound]. solve_Permutation.
  - assert (game_reachable (t', seen')) as Hr' by (unfold game_reachable in *; by eapply rtc_r). split; [done|]. exists perms. split; [done|].
    eapply sound_later; [|exact Hsound]. exact (game_step_durable _ _ Hg).
  - split; [done|]. by exists perms.
Qed.

Lemma clustered_ok coordinator cl : clustered coordinator cl -> ClusterOK cl.
Proof.
  intros H. apply (rtc_ind_r ClusterOK (mkCluster emptyTables [] Coordination.emptyRedis [] [])) in H; [done| |].
  - split; [apply rtc_refl|]. exists []. split; [constructor|]. split; constructor.
  - intros x y _ Hs Hx. by eapply cluster_step_ok.
Qed.

(** Two held sessions with the same permission are the same. *)
Lemma holdings_distinct ms i j p q m m' h h' : NoDup (holdings ms) -> ms !! i = Some m -> ms !! j = Some m' ->
  m_objects m !! p = Some h -> m_objects m' !! q = Some h' -> heldAs h = heldAs h' -> i = j /\ p = q.
Proof.
  unfold holdings. revert i j. induction ms as [|m0 ms IH]; intros i j Hn Hi Hj Hp Hq E; [done|]. cbn in Hn. apply NoDup_app in Hn as (H0 & Hx & Hn).
  assert (forall k m p h, ms !! k = Some m -> m_objects m !! p = Some h -> heldAs h ∈ (ms ≫= fun m => heldAs <$> m_objects m)) as Hin.
  { intros k m1 p1 h1 Hk Hp1. apply list_elem_of_bind. exists m1. split; [|by eapply list_elem_of_lookup_2].
    apply list_elem_of_fmap. exists h1. split; [done|by eapply list_elem_of_lookup_2]. }
  assert (forall p h, m_objects m0 !! p = Some h -> heldAs h ∈ (heldAs <$> m_objects m0)) as Hin0.
  { intros p1 h1 Hp1. apply list_elem_of_fmap. exists h1. split; [done|by eapply list_elem_of_lookup_2]. }
  destruct i as [|i], j as [|j]; cbn in Hi, Hj; try (injection Hi as ->); try (injection Hj as ->).
  - split; [done|]. eapply NoDup_lookup; [exact H0|by rewrite list_lookup_fmap, Hp|]. rewrite list_lookup_fmap, Hq. cbn. by rewrite E.
  - destruct (Hx (heldAs h)); [by eapply Hin0|]. rewrite E. by eapply Hin.
  - destruct (Hx (heldAs h')); [by eapply Hin0|]. rewrite <- E. by eapply Hin.
  - destruct (IH i j Hn Hi Hj Hp Hq E) as [-> ->]. done.
Qed.

End OwnerSystem.
