(* ===== verification/OwnerTheorems.v ===== *)
(** * Properties of the owners

    However Redis behaves and however many processes believe to own a session,
    the store accepts the moves of one of them only. *)

From stdpp Require Import gmap relations.
From S2P Require Import Prelude GoLib Sha256 Selector GameManifest GameContract Outbox Room RoomStore RoomTheorems Runtime RuntimeFacts RuntimeMoves RuntimeCommit RuntimeCommands RuntimeStore RuntimeQueries RuntimeRepository RuntimeStoreFacts RuntimeStoreEffects RuntimeStoreInvariant RuntimeStoreProgress RuntimeStoreTheorems RoomGameRepository RoomGameFacts RoomGameInvariant RoomGameTheorems DurableHistory RuntimeService ServiceSystem ServiceRuns Coordination Owner OwnerSystem.

Module OwnerTheorems.
Import GoLib Selector GameContract Runtime RuntimeFacts RuntimeMoves RuntimeCommit RuntimeCommands RuntimeStore RuntimeQueries RuntimeRepository RuntimeStoreFacts
  RuntimeStoreEffects RuntimeStoreInvariant RuntimeStoreProgress RuntimeStoreTheorems RoomGameFacts RoomGameInvariant RoomGameTheorems DurableHistory
  RuntimeService ServiceSystem ServiceRuns OwnerSystem.
Import Owner(Manager, m_objects, heldSession, h_lease, h_epoch).
Import Coordination(l_SessionID, GameCoordinator).

(** ** Writing under an epoch *)

(** The session a call moves, and the epoch it moves it under. *)
Definition writesAs (c : Call) : option (UUID * Z) :=
  match c with
  | CallCommitAction commit | CallFinishAction _ _ commit => Some (s_ID (before commit), s_OwnershipEpoch (before commit))
  | CallCommitTimer commit | CallFinishTimer _ _ commit => Some (s_ID (before commit), s_OwnershipEpoch (before commit))
  | CallCommitSystem commit | CallFinishSystem _ _ _ commit => Some (s_ID (before commit), s_OwnershipEpoch (before commit))
  | CallLifecycle commit | CallSuspend _ _ commit | CallResume _ _ commit | CallCancel _ _ commit =>
      Some (s_ID (lc_before commit), s_OwnershipEpoch (lc_before commit))
  | _ => None
  end.

(** The store notes a system command in the row of its own operation, unless that
    is completed: as pending, or, once the session has ended, as completed without
    a batch. *)
Definition noted (commit : SystemCommit) (t t' : Tables) : Prop :=
  let key := systemKeyOf (RuntimeCommit.sc_Key (receipt commit)) in
  exists op, t' = t <| system_operations := <[key := op]> (system_operations t) |> /\ so_BatchID op = None /\
    (forall old, system_operations t !! key = Some old -> so_Status old = SystemInboxPending) /\
    (so_Status op = SystemInboxPending \/
     exists row, game_sessions t !! s_ID (before commit) = Some row /\ live (g_Status row) = false).

(** A call moved nothing: the tables are the same, but for the note of a system
    command. *)
Definition unmoved (c : Call) (t t' : Tables) : Prop :=
  match c with
  | CallCommitSystem commit | CallFinishSystem _ _ _ commit => t' = t \/ noted commit t t'
  | _ => t' = t
  end.

Section Stale.
Context (t : Tables) (Hok : GamesOK t) (row : GameSessionRow) (fault : nat -> option DbError) (ctxDone : bool) (names : UUID -> option (string * string)).
Let Hinv : StoreInv t := go_store _ Hok.
Let Hk : rowsKeyed t := si_keyed _ (st_sessions _ Hinv).

(** Below an epoch of the store a move only replays, ... *)
Lemma stale_action_lock commit n r t' n' : ActionCommit_Valid commit = true ->
  game_sessions t !! s_ID (before commit) = Some row -> s_OwnershipEpoch (before commit) < g_OwnershipEpoch row ->
  commitActionAfterRoomLock fault ctxDone commit (t, n) = Ok (r, (t', n')) -> t' = t /\ ar_Replayed r = true.
Proof.
  intros Hv Hrow Hold H. apply commitActionAfterRoomLock_inv in H as (current & Hload & [(Hrep & -> & _)|(_ & _ & _ & _ & _ & _ & row3 & Hf)]); [done| |done|done].
  exfalso. by eapply (stale_move t Hinv (s_ID (before commit)) row).
Qed.

Lemma stale_timer_lock commit current n r t' n' : TimerCommit_Valid commit = true -> loadSession t (s_ID (before commit)) = Some current ->
  game_sessions t !! s_ID (before commit) = Some row -> s_OwnershipEpoch (before commit) < g_OwnershipEpoch row ->
  commitTimerAfterSessionLock fault ctxDone current commit (t, n) = Ok (r, (t', n')) -> t' = t /\ tcr_Replayed r = true.
Proof.
  intros Hv Hload Hrow Hold H. apply commitTimerAfterSessionLock_inv in H as [(Hrep & -> & _)|(_ & _ & _ & _ & _ & _ & _ & row3 & Hf)]; [done| |done|done].
  exfalso. by eapply (stale_move t Hinv (s_ID (before commit)) row).
Qed.

Lemma note_pending commit current n r t' n' : Terminal (s_Status current) = false -> sr_Retry r = true \/ sr_Replayed r = true ->
  commitSystemAfterSessionLock fault ctxDone current commit (t, n) = Ok (r, (t', n')) -> t' = t \/ noted commit t t'.
Proof.
  intros Hlive Hr H. unfold commitSystemAfterSessionLock in H. step H op Hop.
  assert (t0 = t \/ noted commit t t0) as Hnote.
  { apply lockOrCreateSystemOperation_inv in Hop as [_ [[-> _]|(Hn & Hs & Hb & ->)]]; [by left|]. right. exists op.
    split_and!; [done|done| |by left]. intros old Hold. unfold systemKeyOf in Hold. congruence. }
  destruct (String.eqb _ SystemInboxCompleted).
  { step H stored Hs. apply tx_lift_inv in Hs as (_ & -> & ->). by apply tx_ret_inv in H as (_ & -> & _). }
  rewrite Hlive in H. destruct (_ || _); [by apply tx_ret_inv in H as (_ & -> & _)|].
  destruct (String.eqb _ StatusSuspended); [done|]. step H u1 H1. step H stored Hs. apply tx_ret_inv in H as (-> & _ & _). by destruct Hr.
Qed.

Lemma stale_system_lock commit current n r t' n' : SystemCommit_Valid commit = true -> loadSession t (s_ID (before commit)) = Some current ->
  game_sessions t !! s_ID (before commit) = Some row -> s_OwnershipEpoch (before commit) < g_OwnershipEpoch row ->
  commitSystemAfterSessionLock fault ctxDone current commit (t, n) = Ok (r, (t', n')) ->
  (t' = t \/ noted commit t t') /\ (sr_Retry r = true \/ sr_Replayed r = true \/ Terminal (s_Status current) = true).
Proof.
  intros Hv Hload Hrow Hold H. pose proof H as Hrun. apply commitSystemAfterSessionLock_inv in H as [(_ & Hframe & Hr)|(_ & _ & _ & row3 & t1 & op & Hframe & Hf & _)]; [| |done|done|done].
  - assert (sr_Retry r = true \/ sr_Replayed r = true \/ Terminal (s_Status current) = true) as Hcase
      by (destruct Hr as [[? _]|[(_ & ? & _)|(_ & _ & ? & _)]]; [by left|by right; left|by right; right]).
    split; [|done]. destruct (Terminal (s_Status current)) eqn:Et.
    + destruct Hframe as [->|(op & Hpending & Hb & ->)]; [by left|]. right. exists op. split_and!; [done|done|done|]. right. exists row.
      split; [done|]. apply loadSession_row in Hload as (row0 & Hrow0 & (_ & _ & Hst & _)%loaded_numbers).
      assert (row0 = row) as -> by congruence. rewrite Hst in Et.
      apply orb_true_iff in Et as [E|E]; apply eqb_string_true in E; by rewrite E.
    + eapply note_pending; [done| |exact Hrun]. destruct Hcase as [?|[?|?]]; [by left|by right|done].
  - exfalso. assert (Hinv1 := onlyOperation_StoreInv _ _ _ Hinv Hframe). apply onlyOperation_frame in Hframe as (E1 & _ & _ & E2 & E3).
    eapply (stale_move t1 Hinv1 (s_ID (before commit)) row); [by rewrite E1| |exact Hf|done|done].
    rewrite (loadSession_other t t1); [done|by rewrite E1|by rewrite E2|by rewrite E3].
Qed.

(** ... and a lifecycle change is refused. *)
Lemma stale_lifecycle_lock commit current n r t' n' : LifecycleCommit_Valid commit = true -> loadSession t (s_ID (lc_before commit)) = Some current ->
  game_sessions t !! s_ID (lc_before commit) = Some row -> s_OwnershipEpoch (lc_before commit) < g_OwnershipEpoch row ->
  persistLifecycleAfterSessionLock fault ctxDone current commit (t, n) = Ok (r, (t', n')) -> False.
Proof.
  intros Hv Hload Hrow Hold H. apply persistLifecycle_inv in H as (row3 & _ & Hcur & _); [|done|done].
  unfold validateCurrentLifecycleTransition in Hcur. inv_result Hcur. apply negb_false_iff, Z.eqb_eq in E.
  destruct (loaded_row _ _ _ (st_sessions _ Hinv) Hload) as (row4 & Hrow4 & _ & _ & _ & Hep4 & _).
  assert (row4 = row) as -> by congruence. lia.
Qed.

Lemma stale_finish_action b a commit out t' : game_sessions t !! s_ID (before commit) = Some row ->
  s_OwnershipEpoch (before commit) < g_OwnershipEpoch row -> RoomGameRepository.FinishAction fault ctxDone b a commit t = (out, t') -> t' = t.
Proof.
  intros Hrow Hold H. apply game_guard_inv in H as [(e & _ & ->)|[Hv H]]; [done|]. apply negb_false_iff in Hv.
  apply game_check_inv in H as [(e & _ & ->)|([] & _ & H)]; [done|]. apply game_finish_inv in H. destruct out as [[room r]|]; [|done]. destruct H as [n H].
  step H locked Hl. apply lockRoomForUpdate_inv in Hl as (-> & _). step H u Hu. apply requireParticipant_same in Hu as ->.
  destruct (negb (RoomGameRepository.sameRoomSnapshot locked b)).
  - step H r1 Hr. pose proof (replayAction_same _ _ _ _ _ _ _ Hk Hr) as ->. by apply tx_ret_inv in H as (_ & -> & _).
  - step H r1 Hr. apply stale_action_lock in Hr as [-> Hrep]; [|done|done|done]. by rewrite Hrep in H.
Qed.

Lemma stale_finish_timer b a commit out t' : game_sessions t !! s_ID (before commit) = Some row ->
  s_OwnershipEpoch (before commit) < g_OwnershipEpoch row -> RoomGameRepository.FinishTimer fault ctxDone b a commit t = (out, t') -> t' = t.
Proof.
  intros Hrow Hold H. apply game_guard_inv in H as [(e & _ & ->)|[Hv H]]; [done|]. apply negb_false_iff in Hv.
  apply game_check_inv in H as [(e & _ & ->)|([] & _ & H)]; [done|]. apply game_finish_inv in H. destruct out as [[room r]|]; [|done]. destruct H as [n H].
  step H locked Hl. apply lockRoomForUpdate_inv in Hl as (-> & _). step H current Hc. apply getGameSessionForUpdate_inv in Hc as [-> Hload]; [|done].
  destruct (negb (RoomGameRepository.sameRoomSnapshot locked b)).
  - step H r1 Hr. pose proof (replayTimer_same _ _ _ _ _ _ _ _ Hr) as ->. by apply tx_ret_inv in H as (_ & -> & _).
  - step H r1 Hr. apply stale_timer_lock in Hr as [-> Hrep]; [|done|done|done|done]. by rewrite Hrep in H.
Qed.

Lemma stale_finish_system b a actor commit out t' : game_sessions t !! s_ID (before commit) = Some row ->
  s_OwnershipEpoch (before commit) < g_OwnershipEpoch row -> RoomGameRepository.FinishSystem fault ctxDone b a actor commit t = (out, t') ->
  t' = t \/ noted commit t t'.
Proof.
  intros Hrow Hold H. unfold RoomGameRepository.FinishSystem in H. cbv zeta in H.
  apply game_guard_inv in H as [(e & _ & ->)|[Hv H]]; [by left|]. apply negb_false_iff in Hv.
  apply game_guard_inv in H as [(e & _ & ->)|[_ H]]; [by left|].
  apply game_check_inv in H as [(e & _ & ->)|([] & Hw & H)]; [by left|]. apply game_finish_inv in H.
  destruct out as [[room r]|]; [|by left]. destruct H as [n H]. apply termination_facts in Hw as (_ & Hnil & Hsid & _).
  step H locked Hl. apply lockRoomForUpdate_inv in Hl as (-> & rrow & Hrrow & Hl). destruct (_ && _) in H; [done|].
  step H current Hc. apply getGameSessionForUpdate_inv in Hc as [-> Hload]; [|done].
  destruct (RoomGameRepository.sameRoomSnapshot locked b) eqn:Es; cbn [negb] in H.
  2:{ step H r1 Hr. pose proof (replaySystem_same _ _ _ _ _ _ _ _ Hr) as ->. apply tx_ret_inv in H as (_ & -> & _). by left. }
  destruct (locked_room _ _ _ _ (go_rooms _ Hok) Hrrow Hl Es) as [_ Hptr].
  step H r1 Hr. apply stale_system_lock in Hr as [Hun Hcase]; [|done|done|done|done]. destruct (sr_Retry r1); [by apply tx_ret_inv in H as (_ & -> & _)|].
  destruct Hcase as [?|[Hrep|Hterm]]; [done|by rewrite Hrep in H|].
  exfalso. destruct (loaded_room _ _ _ Hk Hload) as [_ Hplay]. rewrite (pointer_of_session _ Hnil) in Hptr.
  apply (go_agree _ Hok) in Hptr. rewrite <- Hsid, Hplay in Hptr. unfold live in Hptr. unfold Terminal in Hterm.
  apply orb_true_iff in Hterm as [E|E]; apply eqb_string_true in E; rewrite E in Hptr; done.
Qed.

Lemma stale_cancel b a commit out t' : game_sessions t !! s_ID (lc_before commit) = Some row ->
  s_OwnershipEpoch (lc_before commit) < g_OwnershipEpoch row -> RoomGameRepository.Cancel fault ctxDone names b a commit t = (out, t') -> t' = t.
Proof.
  intros Hrow Hold H. apply game_guard_inv in H as [(e & _ & ->)|[Hv H]]; [done|]. apply negb_false_iff in Hv.
  apply game_check_inv in H as [(e & _ & ->)|([] & _ & H)]; [done|]. apply game_finish_inv in H. destruct out as [[room r]|]; [|done]. destruct H as [n H].
  step H locked Hl. apply lockRoomForUpdate_inv in Hl as (-> & _). step H current Hc. apply getGameSessionForUpdate_inv in Hc as [-> Hload]; [|done].
  destruct (negb (RoomGameRepository.sameRoomSnapshot locked b)).
  - destruct (_ || _); [done|]. by apply tx_ret_inv in H as (_ & -> & _).
  - step H r1 Hr. by apply stale_lifecycle_lock in Hr.
Qed.

Lemma stale_governed b a commit wb wa out t' : game_sessions t !! s_ID (lc_before commit) = Some row ->
  s_OwnershipEpoch (lc_before commit) < g_OwnershipEpoch row ->
  RoomGameRepository.commitGovernedLifecycle fault ctxDone names b a commit wb wa t = (out, t') -> t' = t.
Proof.
  intros Hrow Hold H. apply game_guard_inv in H as [(e & _ & ->)|[Hv H]]; [done|]. apply negb_false_iff in Hv.
  apply game_check_inv in H as [(e & _ & ->)|([] & _ & H)]; [done|]. apply game_finish_inv in H. destruct out as [[room r]|]; [|done]. destruct H as [n H].
  step H locked Hl. apply lockExactRoom_inv in Hl as (-> & _).
  step H current Hc. apply getGameSessionForUpdate_inv in Hc as [-> Hload]; [|done].
  step H r1 Hr. by apply stale_lifecycle_lock in Hr.
Qed.

Lemma stale_system_commit commit out t' : game_sessions t !! s_ID (before commit) = Some row ->
  s_OwnershipEpoch (before commit) < g_OwnershipEpoch row -> CommitSystem fault ctxDone commit t = (out, t') -> t' = t \/ noted commit t t'.
Proof.
  intros Hrow Hold H. apply CommitSystem_inv in H; [|done]. destruct out as [r|]; [|by left].
  destruct H as (Hv & _ & current & n & n' & Hload & H). by apply stale_system_lock in H as [? _].
Qed.
End Stale.

(** A call under an epoch below the one of the store moves nothing. *)
Lemma stale_call c t r t' sid e row : GamesOK t -> writesAs c = Some (sid, e) -> game_sessions t !! sid = Some row -> e < g_OwnershipEpoch row ->
  answers c t r t' -> unmoved c t t'.
Proof.
  intros Hok Hw Hrow Hold H. pose proof (go_store _ Hok) as Hinv.
  destruct c; cbn in Hw, H; try done; cbn [unmoved]; injection Hw as <- <-; repeat lazymatch type of H with ex _ => destruct H as [? H] end.
  - by eapply (stale_action _ Hinv _ row Hrow _ _ _ _ _ eq_refl Hold).
  - by eapply (stale_timer _ Hinv _ row Hrow _ _ _ _ _ eq_refl Hold).
  - by eapply stale_system_commit.
  - by eapply (stale_lifecycle _ Hinv _ row Hrow _ _ _ _ _ eq_refl Hold).
  - by eapply stale_finish_action.
  - by eapply stale_finish_timer.
  - by eapply stale_finish_system.
  - by eapply stale_governed.
  - by eapply stale_governed.
  - by eapply stale_cancel.
Qed.

(** ** What a command issues *)

(** Every write of a program is under [given], whatever it is answered, and what
    it returns satisfies [Q]. *)
Fixpoint emits {A} (given : UUID * Z) (p : Prog A) (Q : A -> Prop) : Prop :=
  match p with
  | Ret a => Q a
  | Do c k => (forall other, writesAs c = Some other -> other = given) /\ forall a, ofacts (Owner.Service c) a -> emits given (k a) Q
  end.

Lemma emits_bind {A B} given (m : Prog A) (f : A -> Prog B) Q R :
  emits given m Q -> (forall a, Q a -> emits given (f a) R) -> emits given (prog_bind m f) R.
Proof.
  intros Hm Hf. induction m as [a|c k IH]; [by apply Hf|]. destruct Hm as [Hc Hk]. split; [done|]. intros answer Ha. by apply IH, Hk.
Qed.

Lemma emits_try {A B} given (m : svc A) (f : A -> svc B) Q R :
  emits given m (okay Q) -> (forall e, R (Err e)) -> (forall a, Q a -> emits given (f a) R) -> emits given (try m f) R.
Proof. intros Hm He Hf. eapply emits_bind; [exact Hm|]. intros [a|e] Ha; [by apply Hf|apply He]. Qed.

Lemma emits_check {A B} given (r : result ServiceError A) (f : A -> svc B) R :
  (forall e, R (Err e)) -> (forall a, r = Ok a -> emits given (f a) R) -> emits given (try (Ret r) f) R.
Proof. intros He Hf. destruct r as [a|e]; [by apply Hf|apply He]. Qed.

Create HintDb emits.
Ltac emits_step :=
  lazymatch goal with
  | |- emits _ (Ret _) _ => try done
  | |- emits _ (done _) _ => try done
  | |- emits _ (fail _) _ => try done
  | |- emits _ (Do _ _) _ => split; [try (intros ? ?; done)|intros ? ?]
  | |- emits _ (try (Ret _) _) _ => apply emits_check; [done|intros ? ?]
  | |- emits _ (try _ _) _ => eapply emits_try; [solve [eauto with emits]|done|intros ? ?]
  | |- emits _ (match ?x with _ => _ end) _ => destruct x eqn:?
  | |- emits _ (let '_ := ?x in _) _ => destruct x eqn:?
  end.
Ltac emits_run := repeat (emits_step; cbv beta zeta).

Section Emits.
Context (given : UUID * Z).

Lemma ofStore_emits {A} (r : RuntimeStore.sres A) : emits given (Ret (ofStore r)) ok_true.
Proof. by destruct r as [|[]]. Qed.
Lemma ofGameStore_emits {A} (r : result RoomGameRepository.GameStoreError A) : emits given (Ret (ofGameStore r)) ok_true.
Proof. by destruct r as [|[]]. Qed.
Hint Resolve ofStore_emits ofGameStore_emits : emits.

Lemma getSession_emits id : emits given (getSession id) (okay (fun s => s_ID s = id)).
Proof. unfold getSession. emits_run. cbn in *. destruct a as [s|[]]; cbn; try done. by apply H. Qed.
Lemma getRoom_emits id : emits given (getRoom id) ok_true.
Proof. unfold getRoom. emits_run. by destruct a as [|[]]. Qed.
Lemma newID_emits : emits given newID ok_true.
Proof. unfold newID. emits_run. Qed.
Lemma newExecution_emits at_ : emits given (newExecution at_) ok_true.
Proof. unfold newExecution. emits_run. by destruct a. Qed.
Lemma checkGate_emits gated : emits given (checkGate gated) ok_true.
Proof. unfold checkGate. emits_run. by destruct a. Qed.
Lemma checkDigest_emits supplied computed : emits given (checkDigest supplied computed) ok_true.
Proof. unfold checkDigest. emits_run. Qed.
Hint Resolve getSession_emits getRoom_emits newID_emits newExecution_emits checkGate_emits checkDigest_emits : emits.

Lemma newOutboxEvent_emits eventType sid version at_ : emits given (newOutboxEvent eventType sid version at_) ok_true.
Proof. unfold newOutboxEvent. emits_run. by destruct (Outbox.NewEvent _ _ _ _ _ _ _). Qed.
Hint Resolve newOutboxEvent_emits : emits.
Lemma prepareRoomFinish_emits roomID sid at_ : emits given (prepareRoomFinish roomID sid at_) ok_true.
Proof. unfold prepareRoomFinish. emits_run. Qed.
Hint Resolve prepareRoomFinish_emits : emits.

(** A suspension and a cancellation need the epoch of the session they read. *)
Lemma suspend_epoch b e at_ a : Runtime.Suspend b e at_ = Ok a -> s_OwnershipEpoch b = e.
Proof. unfold Runtime.Suspend. intros H. do 3 inv_result H. apply orb_false_iff in E1 as [_ ?%negb_false_iff%Z.eqb_eq]. done. Qed.
Lemma cancel_epoch b e at_ reason a : Runtime.Cancel b e at_ reason = Ok a -> s_OwnershipEpoch b = e.
Proof. unfold Runtime.Cancel. intros H. do 2 inv_result H. apply orb_false_iff in E0 as [_ ?%negb_false_iff%Z.eqb_eq]. done. Qed.

Lemma commitSuspend_emits b : s_ID b = given.1 -> emits given (commitSuspend b given.2) ok_true.
Proof.
  intros Hid. unfold commitSuspend. emits_run.
  - intros other Hw. cbn in Hw. injection Hw as <-. apply ofRuntime_Ok, suspend_epoch in H0. apply ofRuntime_Ok, lifecycle_parts in H2 as [_ ->].
    rewrite Hid, H0. by destruct given.
  - apply ofStore_emits.
Qed.
Hint Resolve commitSuspend_emits : emits.
Lemma suspendMissingModule_emits {A} b : s_ID b = given.1 -> emits given (@suspendMissingModule A b given.2) ok_true.
Proof. intros Hid. unfold suspendMissingModule. emits_run. Qed.

Lemma actionResult_emits m session rc user replayed : emits given (actionResult m session rc user replayed) ok_true.
Proof. unfold actionResult. emits_run. Qed.
Hint Resolve suspendMissingModule_emits actionResult_emits : emits.

(** The commit of a move is for the session and the epoch of its command. *)
Definition madeUnder {R} : MoveCommit R * DeterministicContext -> Prop :=
  fun '(commit, _) => (s_ID (before commit), s_OwnershipEpoch (before commit)) = given.

Lemma action_epoch b request a bt : ApplyAction b request = Ok (a, bt) -> ar_OwnershipEpoch request = s_OwnershipEpoch b.
Proof. unfold ApplyAction. cbv zeta. intros H. inv_results H. to_prop. congruence. Qed.
Lemma timer_epoch b request a bt : ApplyTimer b request = Ok (a, bt) -> tt_OwnershipEpoch request = s_OwnershipEpoch b.
Proof. unfold ApplyTimer. cbv zeta. intros H. inv_results H. to_prop. congruence. Qed.

Lemma newActionCommit_emits command op b m : (s_ID b, acm_OwnershipEpoch command) = given ->
  emits given (newActionCommit command op b m) (okay madeUnder).
Proof.
  intros Hg. unfold newActionCommit. emits_run. subst.
  match goal with H : ofRuntime (ApplyAction _ _) = _ |- _ => apply ofRuntime_Ok, action_epoch in H; cbn in H end.
  match goal with H : ofRuntime (NewActionCommit _ _ _ _ _) = _ |- _ => apply ofRuntime_Ok in H; unfold NewActionCommit in H; inv_results H end.
  cbn. congruence.
Qed.
Lemma newTimerCommit_emits due epoch b m : (s_ID b, epoch) = given -> emits given (newTimerCommit due epoch b m) (okay madeUnder).
Proof.
  intros Hg. unfold newTimerCommit. emits_run. subst.
  match goal with H : ofRuntime (ApplyTimer _ _) = _ |- _ => apply ofRuntime_Ok, timer_epoch in H; cbn in H end.
  match goal with H : ofRuntime (NewTimerCommit _ _ _ _ _) = _ |- _ => apply ofRuntime_Ok in H; unfold NewTimerCommit in H; inv_results H end.
  cbn. congruence.
Qed.
Hint Resolve newActionCommit_emits newTimerCommit_emits : emits.

Lemma writes_under {R} (commit : MoveCommit R) execution other : madeUnder (commit, execution) ->
  Some (s_ID (before commit), s_OwnershipEpoch (before commit)) = Some other -> other = given.
Proof. by intros <- [= ->]. Qed.
Hint Resolve writes_under : emits.

Lemma commitAction_emits commit execution : madeUnder (commit, execution) -> emits given (commitAction commit execution) ok_true.
Proof. intros H. unfold commitAction. emits_run; eauto with emits. Qed.
Hint Resolve commitAction_emits : emits.
End Emits.

#[local] Hint Resolve ofStore_emits ofGameStore_emits getSession_emits getRoom_emits newID_emits newExecution_emits checkGate_emits checkDigest_emits
  newOutboxEvent_emits prepareRoomFinish_emits commitSuspend_emits suspendMissingModule_emits actionResult_emits newActionCommit_emits
  newTimerCommit_emits writes_under commitAction_emits : emits.

Lemma suspendUnder_emits {A} sid e b : s_ID b = sid -> emits (sid, e) (@suspendMissingModule A b e) ok_true.
Proof. apply (suspendMissingModule_emits (sid, e)). Qed.
Lemma newAction_emits command op b m : s_ID b = acm_SessionID command ->
  emits (acm_SessionID command, acm_OwnershipEpoch command) (newActionCommit command op b m) (okay (madeUnder (acm_SessionID command, acm_OwnershipEpoch command))).
Proof. intros <-. by apply newActionCommit_emits. Qed.
Lemma newTimer_emits due e b m : s_ID b = d_SessionID due ->
  emits (d_SessionID due, e) (newTimerCommit due e b m) (okay (madeUnder (d_SessionID due, e))).
Proof. intros <-. by apply newTimerCommit_emits. Qed.
#[local] Hint Resolve suspendUnder_emits newAction_emits newTimer_emits : emits.

Lemma replayAction_emits command rc :
  emits (acm_SessionID command, acm_OwnershipEpoch command) (replayAction command rc) ok_true.
Proof. unfold replayAction. emits_run; eauto with emits. Qed.
#[local] Hint Resolve replayAction_emits : emits.

Lemma HandleAction_emits gated command :
  emits (acm_SessionID command, acm_OwnershipEpoch command) (RuntimeService.HandleAction gated command) ok_true.
Proof. unfold RuntimeService.HandleAction. emits_run; eauto with emits. Qed.

Lemma HandleTimer_emits due e : emits (d_SessionID due, e) (RuntimeService.HandleTimer due e) ok_true.
Proof. unfold RuntimeService.HandleTimer. emits_run; eauto with emits. Qed.

Lemma replayCancel_emits given room command : emits given (replayCancel room command) ok_true.
Proof. unfold replayCancel. emits_run. Qed.
#[local] Hint Resolve replayCancel_emits : emits.

Lemma Cancel_emits command : emits (ccm_SessionID command, ccm_OwnershipEpoch command) (RuntimeService.Cancel command) ok_true.
Proof.
  unfold RuntimeService.Cancel. emits_run; eauto with emits. intros other [= <-].
  match goal with H : ofRuntime (Runtime.Cancel _ _ _ _) = _ |- _ => apply ofRuntime_Ok, cancel_epoch in H end.
  match goal with H : ofRuntime (NewLifecycleCommit _ _ _) = _ |- _ => apply ofRuntime_Ok, lifecycle_parts in H as [_ ->] end.
  cbn in *; congruence.
Qed.

(** ** Commands run under the epoch that was granted *)

(** Every write of a program is for the session it asked the manager about, under
    the epoch of the session the manager answered; before that it writes nothing. *)
Fixpoint underEpoch {A} (given : option permission) (p : Owner.OProg A) : Prop :=
  match p with
  | Owner.ORet _ => True
  | Owner.ODo c k =>
      match c as c return (Owner.OAnswer c -> Owner.OProg A) -> Prop with
      | Owner.Service c0 => fun k =>
          (forall other, writesAs c0 = Some other -> given = Some other) /\ forall a, ofacts (Owner.Service c0) a -> underEpoch given (k a)
      | Owner.EnterOwned sid => fun k =>
          forall a, underEpoch (match a with Ok (_, state) => Some (sid, h_epoch state) | Err _ => given end) (k a)
      | c' => fun k => forall a, ofacts c' a -> underEpoch given (k a)
      end k
  end.

Lemma serviceCall_underEpoch {A B} given (p : svc A) Q (f : result Owner.OwnerError A -> Owner.OProg B) :
  emits given p Q -> (forall r, underEpoch (Some given) (f r)) -> underEpoch (Some given) (Owner.oprog_bind (Owner.serviceCall p) f).
Proof.
  intros Hp Hf. induction p as [[a|e]|c k IH]; [apply Hf|apply Hf|]. destruct Hp as [Hc Hk]. split.
  - intros other Hw. by rewrite (Hc _ Hw).
  - intros a Ha. by apply IH, Hk.
Qed.

Lemma withEpoch_underEpoch {A} sid state (command : Z -> svc A) session Q :
  emits (sid, h_epoch state.2) (command (h_epoch state.2)) Q -> underEpoch (Some (sid, h_epoch state.2)) (Owner.withEpoch sid state command session).
Proof.
  intros Hc. unfold Owner.withEpoch, Owner.otry. eapply serviceCall_underEpoch; [exact Hc|]. intros [a|e]; [|exact I].
  intros still _. destruct (negb still); [exact I|]. unfold Owner.publish. destruct (_ || _); [exact I|]. intros [u|e] _; exact I.
Qed.

Lemma owned_underEpoch {A} sid (f : nat * heldSession -> Owner.own A) : (forall state, underEpoch (Some (sid, h_epoch state.2)) (f state)) ->
  underEpoch None (Owner.otry (Owner.owned sid) f).
Proof.
  intros Hf. unfold Owner.otry, Owner.owned. destruct (sid =? Nil); [exact I|]. intros [[p state]|e]; [|exact I]. apply (Hf (p, state)).
Qed.

(** C16: a command of a player, a due timer and a cancellation that go through the
    owner write to the store only after the manager answered that it holds the
    session, and then only to that session under the epoch it holds it with,
    whatever epoch the command came with and whatever the store and Redis answer. *)
Theorem commands_under_held_epoch (gated : bool) (action : ActionCommand) (due : DueTimer) (cancel : CancelCommand) :
  underEpoch None (Owner.HandleAction gated action) /\ underEpoch None (Owner.HandleTimer due) /\ underEpoch None (Owner.Cancel cancel).
Proof.
  split_and!.
  - apply owned_underEpoch. intros state. eapply (withEpoch_underEpoch (acm_SessionID action)), (HandleAction_emits gated (mkActionCommand _ _ _ _ _ _ _ _)).
  - apply owned_underEpoch. intros state. eapply withEpoch_underEpoch, HandleTimer_emits.
  - unfold Owner.Cancel. destruct (_ || _); [exact I|]. apply owned_underEpoch. intros state.
    eapply (withEpoch_underEpoch (ccm_SessionID cancel)), (Cancel_emits (mkCancelCommand _ _ _ _ _ _ _ _)).
Qed.

(** ** Several owners *)
Lemma cluster_steps_durable coordinator cl cl' : rtc (cluster_step coordinator) cl cl' -> ClusterOK cl -> durable (cl_tables cl) (cl_tables cl').
Proof.
  induction 1 as [cl|cl cl1 cl2 Hs _ IH]; intros Hok; [done|]. assert (durable (cl_tables cl) (cl_tables cl1)) as Hd.
  { destruct Hok as [Hr (perms & Hall & _)]. destruct Hs as [| |t seen r before_ m after_ front rest A c k a m' t' r' Ha| |t seen r ms tasks t' seen' Hg|]; cbn in *; try done.
    - apply Forall2_app_inv_r in Hall as (pf & pr & _ & Hrest & ->). apply Forall2_cons_inv_r in Hrest as (ps & pr' & Hp & _ & ->).
      by destruct (call_permissions _ _ _ _ _ _ _ _ _ _ _ _ Hr Hp Ha) as (_ & ? & _).
    - exact (game_step_durable _ _ Hg). }
  etrans; [exact Hd|]. apply IH. by eapply cluster_step_ok.
Qed.

Lemma clustered_later coordinator cl cl' : clustered coordinator cl -> rtc (cluster_step coordinator) cl cl' -> clustered coordinator cl'.
Proof. unfold clustered. intros. by etrans. Qed.

Lemma clustered_GamesOK coordinator cl : clustered coordinator cl -> GamesOK (cl_tables cl).
Proof. intros [Hr _]%clustered_ok. by apply game_reachable_ok in Hr as [? _]. Qed.

(** Every held session is one the store granted. *)
Lemma clustered_holdings coordinator cl : clustered coordinator cl -> sound (cl_tables cl) (holdings (cl_managers cl)).
Proof. intros [_ (perms & _ & Hs)]%clustered_ok. by apply sound_drop in Hs. Qed.

Lemma held_in ms i m p h : ms !! i = Some m -> m_objects m !! p = Some h -> heldAs h ∈ holdings ms.
Proof.
  intros Hi Hp. apply list_elem_of_bind. exists m. split; [|by eapply list_elem_of_lookup_2].
  apply list_elem_of_fmap. exists h. split; [done|by eapply list_elem_of_lookup_2].
Qed.

(** C15: however processes start, stop, overlap and lose their leases, and however
    Redis loses or changes its keys, two different claims of a session never hold
    the same epoch; and from then on no write under the lower of the two epochs
    moves anything.  An action, a timer and a change of the life cycle leave every
    table as it is, rooms, sessions, timers, batches, receipts and outbox alike; a
    system command leaves every table but that of the system operations, and of
    that every row but the one of its own operation, which was not completed, gets
    no batch, and is completed only if the session has ended. *)
Theorem owners_fenced (coordinator : GameCoordinator) (cl cl' : Cluster) (i j p q : nat) (m m' : Manager) (h h' : heldSession)
    (Hcl : clustered coordinator cl) (Hm : cl_managers cl !! i = Some m) (Hm' : cl_managers cl !! j = Some m')
    (Hp : m_objects m !! p = Some h) (Hq : m_objects m' !! q = Some h') (Hdiff : (i, p) <> (j, q))
    (Hsession : l_SessionID (h_lease h) = l_SessionID (h_lease h')) (Hlater : rtc (cluster_step coordinator) cl cl') :
  h_epoch h <> h_epoch h' /\
  forall c r t', writesAs c = Some (l_SessionID (h_lease h), Z.min (h_epoch h) (h_epoch h')) -> answers c (cl_tables cl') r t' ->
    unmoved c (cl_tables cl') t'.
Proof.
  pose proof (clustered_holdings _ _ Hcl) as [Hn Hi].
  assert (h_epoch h <> h_epoch h') as Hne.
  { intros E. destruct (holdings_distinct _ i j p q m m' h h' Hn Hm Hm' Hp Hq) as [-> ->]; [|done]. unfold heldAs. by rewrite Hsession, E. }
  split; [done|]. intros c r t' Hw Ha.
  pose proof (cluster_steps_durable _ _ _ Hlater (clustered_ok _ _ Hcl)) as Hd. rewrite Forall_forall in Hi.
  pose proof (issued_later _ _ _ Hd (Hi _ (held_in _ _ _ _ _ Hm Hp))) as (row & Hrow & Hle).
  pose proof (issued_later _ _ _ Hd (Hi _ (held_in _ _ _ _ _ Hm' Hq))) as (row' & Hrow' & Hle'). cbn in *.
  rewrite <- Hsession in Hrow'. assert (row' = row) as -> by congruence.
  eapply stale_call; [by eapply clustered_GamesOK, clustered_later|exact Hw|exact Hrow|lia|exact Ha].
Qed.

(** ** A sample: two processes claim a session, Redis losing the first lease *)
Section Claiming.
Context (coordinator : GameCoordinator) (sid : UUID) (before_ after_ : list Manager) (m : Manager) (t t' : Tables) (seen : list Room) (r r1 r2 : Coordination.Redis).
Context (tasks : list (nat * OTask)) (now : Z) (at_ : Time) (entropy : list Z) (lease lease' : Coordination.SessionLease) (current next owned : Session).
Hypothesis Hsid : (sid =? Nil) = false.
Hypothesis Hsection : Owner.ensureSection sid m = (Owner.EnsureClaim 0,
  m <| Owner.m_calls := [Owner.mkClaim false None None] |> <| Owner.m_claims := {[sid := 0%nat]} |>).
Hypothesis Hacquire : Coordination.AcquireSessionLease coordinator Coordination.Answered now (Some entropy) sid (Owner.InstanceID (Owner.m_config m))
  (Owner.Address (Owner.m_config m)) r = (Ok (lease, true), r1).
Hypothesis Hget : Get quiet sid t = (Ok current, t).
Hypothesis Hlive : Terminal (s_Status current) = false.
Hypothesis Hnext : AcquireOwnership current (s_OwnershipEpoch current) (afterUpdate (RoundUTC at_) (s_UpdatedAt current)) = Ok next.
Hypothesis Htake : AcquireOwnershipCAS quiet current next t = (Ok owned, t').
Hypothesis Hpromote : Coordination.PromoteSessionLease coordinator Coordination.Answered now lease (s_OwnershipEpoch owned) r1 = (Ok (lease', true), r2).

Definition claimedManager : Manager :=
  m <| Owner.m_calls := [Owner.mkClaim false None None] |> <| Owner.m_claims := {[sid := 0%nat]} |>
    <| m_objects := m_objects m ++ [Owner.mkHeld lease' (s_OwnershipEpoch owned)] |>.

(** The calls of a claim up to the held session. *)
Lemma claim_runs : exists rest, rtc (cluster_step coordinator) (mkCluster t seen r (before_ ++ m :: after_) tasks)
  (mkCluster t' seen r2 (before_ ++ claimedManager :: after_) (rest :: tasks)).
Proof.
  eexists. eapply rtc_l; [apply (cl_arrival _ _ _ _ _ _ (length before_) (ReqEnsure sid))|].
  cbn [ohandle]. unfold Owner.EnsureOwned. rewrite Hsid.
  eapply rtc_l; [apply (cl_call _ _ _ _ before_ m after_ [] tasks (Owner.EnterEnsure sid)); split_and!; [exact Hsection|reflexivity..]|]. cbn [app].
  unfold Owner.claim.
  eapply rtc_l; [apply (cl_call _ _ _ _ before_ _ after_ [] tasks (Owner.LeaseAcquire sid)); split_and!; [reflexivity..|]; by eexists _, _, _|]. cbn [app negb].
  eapply rtc_l; [apply (cl_call _ _ _ _ before_ _ after_ [] tasks (Owner.Service (CallGet sid))); split_and!; [by eexists|reflexivity..]|]. cbn [app ofStore].
  rewrite Hlive.
  eapply rtc_l; [apply (cl_call _ _ _ _ before_ _ after_ [] tasks (Owner.Service CallNow) _ at_); split_and!; reflexivity|]. cbn [app]. cbv zeta. rewrite Hnext.
  eapply rtc_l; [apply (cl_call _ _ _ _ before_ _ after_ [] tasks (Owner.Service (CallAcquire current next))); split_and!; [by eexists|reflexivity..]|].
  cbn [app ofStore].
  eapply rtc_l; [apply (cl_call _ _ _ _ before_ _ after_ [] tasks (Owner.LeasePromote lease (s_OwnershipEpoch owned))); split_and!; [reflexivity..|]; by eexists _, _|].
  cbn [app negb].
  eapply rtc_l; [apply (cl_call _ _ _ _ before_ _ after_ [] tasks (Owner.NewHeld lease' (s_OwnershipEpoch owned))); split_and!; reflexivity|]. apply rtc_refl.
Qed.
End Claiming.

Import Coordination(Redis, SessionLease, noLease, emptyRedis, Answered, AcquireSessionLease, PromoteSessionLease).
Import Coordination.CoordinationTheorems(sampleCoordinator, sampleEntropy).
Definition okOf {E A} (default : A) (r : result E A) : A := match r with Ok a => a | Err _ => default end.

Definition manager1 : Manager := Eval vm_compute in okOf (Owner.mkManager (Owner.mkConfig "" "" 0 0) false [] [] ∅ [] ∅ false false None)
  (Owner.NewManager (Owner.mkConfig "rt-1" "10.0.0.1:9000" (10 * Coordination.second) (3 * Coordination.second))).
Definition manager2 : Manager := Eval vm_compute in okOf manager1 (Owner.NewManager (Owner.mkConfig "rt-2" "10.0.0.2:9000" (10 * Coordination.second) (3 * Coordination.second))).

Definition acquired1 : result Coordination.CoordinationError (SessionLease * bool) * Redis := Eval vm_compute in
  AcquireSessionLease sampleCoordinator Answered 1000 (Some (sampleEntropy 7)) 71 "rt-1" "10.0.0.1:9000" emptyRedis.
Definition acquired2 : result Coordination.CoordinationError (SessionLease * bool) * Redis := Eval vm_compute in
  AcquireSessionLease sampleCoordinator Answered 2000 (Some (sampleEntropy 9)) 71 "rt-2" "10.0.0.2:9000" emptyRedis.
Definition lease1 : SessionLease := Eval vm_compute in (okOf (noLease, false) acquired1.1).1.
Definition lease2 : SessionLease := Eval vm_compute in (okOf (noLease, false) acquired2.1).1.
Definition promoted1 : result Coordination.CoordinationError (SessionLease * bool) * Redis := Eval vm_compute in
  PromoteSessionLease sampleCoordinator Answered 1000 lease1 1 acquired1.2.
Definition promoted2 : result Coordination.CoordinationError (SessionLease * bool) * Redis := Eval vm_compute in
  PromoteSessionLease sampleCoordinator Answered 2000 lease2 2 acquired2.2.
Definition ready1 : SessionLease := Eval vm_compute in (okOf (noLease, false) promoted1.1).1.
Definition ready2 : SessionLease := Eval vm_compute in (okOf (noLease, false) promoted2.1).1.
Definition unowned : Session := Eval vm_compute in okOf gameOwned (Get quiet 71 games2).1.
Definition next1 : Session := Eval vm_compute in okOf unowned (AcquireOwnership unowned 0 (15 * Coordination.second)).
Definition taken1 : RuntimeStore.sres Session * Tables := Eval vm_compute in AcquireOwnershipCAS quiet unowned next1 games2.
Definition owned1 : Session := Eval vm_compute in okOf unowned taken1.1.
Definition next2 : Session := Eval vm_compute in okOf unowned (AcquireOwnership owned1 1 (20 * Coordination.second)).
Definition taken2 : RuntimeStore.sres Session * Tables := Eval vm_compute in AcquireOwnershipCAS quiet owned1 next2 taken1.2.
Definition owned2 : Session := Eval vm_compute in okOf unowned taken2.1.

Lemma claim1_runs before_ after_ seen tasks : exists rest, rtc (cluster_step sampleCoordinator)
  (mkCluster games2 seen emptyRedis (before_ ++ manager1 :: after_) tasks)
  (mkCluster taken1.2 seen promoted1.2 (before_ ++ claimedManager 71 manager1 ready1 owned1 :: after_) (rest :: tasks)).
Proof.
  apply (claim_runs sampleCoordinator 71 before_ after_ manager1 games2 taken1.2 seen emptyRedis acquired1.2 promoted1.2 tasks 1000 (15 * Coordination.second)
    (sampleEntropy 7) lease1 ready1 unowned next1 owned1); vm_compute; reflexivity.
Qed.

Lemma claim2_runs before_ after_ seen tasks : exists rest, rtc (cluster_step sampleCoordinator)
  (mkCluster taken1.2 seen emptyRedis (before_ ++ manager2 :: after_) tasks)
  (mkCluster taken2.2 seen promoted2.2 (before_ ++ claimedManager 71 manager2 ready2 owned2 :: after_) (rest :: tasks)).
Proof.
  apply (claim_runs sampleCoordinator 71 before_ after_ manager2 taken1.2 taken2.2 seen emptyRedis acquired2.2 promoted2.2 tasks 2000 (20 * Coordination.second)
    (sampleEntropy 9) lease2 ready2 owned1 next2 owned2); vm_compute; reflexivity.
Qed.

Definition owner1 : Manager := claimedManager 71 manager1 ready1 owned1.
Definition owner2 : Manager := claimedManager 71 manager2 ready2 owned2.

Lemma cluster_games coordinator s s' r ms tasks : rtc game_step s s' ->
  rtc (cluster_step coordinator) (mkCluster s.1 s.2 r ms tasks) (mkCluster s'.1 s'.2 r ms tasks).
Proof. induction 1 as [|[t seen] [t1 seen1] s2 Hs _ IH]; [reflexivity|]. eapply rtc_l; [by apply cl_games|exact IH]. Qed.

Lemma games_clustered coordinator t seen : game_reachable (t, seen) -> clustered coordinator (mkCluster t seen emptyRedis [] []).
Proof. intros H. exact (cluster_games coordinator _ _ emptyRedis [] [] H). Qed.

Lemma managers_clustered seen : clustered sampleCoordinator (mkCluster games2 seen emptyRedis [] []) ->
  clustered sampleCoordinator (mkCluster games2 seen emptyRedis [manager1; manager2] []).
Proof.
  intros H. unfold clustered in *. eapply rtc_r; [eapply rtc_r; [exact H|]|].
  - apply (cl_start _ _ _ _ [] _ (Owner.m_config manager1) manager1). vm_compute. reflexivity.
  - apply (cl_start _ _ _ _ [manager1] _ (Owner.m_config manager2) manager2). vm_compute. reflexivity.
Qed.

Lemma owners_clustered : exists rest rest',
  clustered sampleCoordinator (mkCluster taken2.2 [RoomTheorems.newRoom] promoted2.2 [owner1; owner2] [rest; rest']).
Proof.
  destruct (claim1_runs [] [manager2] [RoomTheorems.newRoom] []) as [rest' H1].
  destruct (claim2_runs [owner1] [] [RoomTheorems.newRoom] [rest']) as [rest H2]. exists rest, rest'. cbn [app] in *.
  pose proof (managers_clustered _ (games_clustered _ _ _ games2_reachable)) as H0.
  assert (H3 := clustered_later _ _ _ H0 H1).
  apply (clustered_later _ (mkCluster taken1.2 [RoomTheorems.newRoom] emptyRedis [owner1; manager2] [rest'])); [|exact H2].
  eapply rtc_r; [exact H3|]. apply cl_lost.
Qed.

Lemma owners_fenced_witness : h_epoch (Owner.mkHeld ready1 (s_OwnershipEpoch owned1)) <> h_epoch (Owner.mkHeld ready2 (s_OwnershipEpoch owned2)) /\
  (CommitAction quiet false gameMove taken2.2).2 = taken2.2.
Proof.
  destruct owners_clustered as (rest & rest' & Hcl).
  set (cl := mkCluster _ _ _ _ _) in Hcl. destruct (owners_fenced sampleCoordinator cl cl 0 1 0 0 owner1 owner2 (Owner.mkHeld ready1 (s_OwnershipEpoch owned1))
    (Owner.mkHeld ready2 (s_OwnershipEpoch owned2)) Hcl) as [Hne Hun]; try reflexivity; [discriminate|].
  split; [exact Hne|]. apply (Hun (CallCommitAction gameMove) (CommitAction quiet false gameMove taken2.2).1).
  - vm_compute. reflexivity.
  - exists quiet, false. apply surjective_pairing.
Defined.
End OwnerTheorems.
